(* ===== verification/_CoqProject ===== *)
-Q . S2P
Prelude.v
Rmap.v
Ipc.v
Sem.v
SemUndo.v
SemOp.v
SemThms.v
SemIds.v
SemWitness.v
Callout.v
Timer.v
Synch.v
SynchThms.v
Clist.v
Dsort.v
Dnlc.v
DnlcThms.v
Ufs.v
UfsBits.v
UfsFrag.v
UfsSearch.v
UfsAlloc.v
UfsThms.v
UfsWitness.v
UfsPolicy.v
UfsInode.v
Kmem.v
KmemTree.v
KmemThms.v
KmemAlloc.v
KmemWitness.v
Msg.v
MsgThms.v
MsgOps.v
MsgWitness.v
Mbuf.v
MbufThms.v
MbufOps.v
MbufCopy.v
MbufTrim.v
MbufWitness.v
Flags.v
Sockbuf.v
SockbufThms.v
SockbufAddr.v
Sock.v
SockThms.v
SockState.v
SockQueue.v
Unp.v
UnpThms.v
SockWitness.v
UnpGc.v
UnpRights.v
GcWitness.v
Cksum.v
Reass.v
Tcp.v
TcpThms.v
TcpStream.v
TcpWitness.v
Ip.v
IpThms.v
Bio.v
BioInv.v
BioOps.v
BioWrite.v
BioGet.v
BioRead.v
BioThms.v
BioWitness.v
Qsort.v
QsortThms.v
Pcfs.v
PcfsThms.v
Pctime.v
Xdr.v
XdrThms.v
XdrMem.v
XdrRec.v
