(* ===== verification/Prelude.v ===== *)
(** * Verification of the SunOS 3.4 kernel core

    The repository is the source of SunOS 3.4.  This development models the resource
    management and scheduling core of its kernel, [src/sun/sys], with the sort and the external data
    representation of its C library: routines with a contract of their own, in C over shared tables, linked structures and
    machine-width integers.

    ** Conventions

    A routine is a function from the state it works on to [res]: [Ok] is a return, [Panic] a
    call of panic() with its message, [Fault] an access outside the object (undefined in C).
    A table is a list indexed from 0, a pointer into it an index; a chain of structures is
    the list of their indices in order, except where the links themselves are the point
    (character lists, disk queues), where they are a store.  Integers are [Z]; where a value
    is stored in a narrower field or can overflow the wrap is written ([u16], [i32]).
    Counters bounded by the size of their table (free blocks, segment sizes) are exact.
    spl() calls are left out: each routine runs at the level that makes it atomic, and
    interleaving is modelled at the points where the code gives up the processor (sleep,
    swtch, the functions softclock calls).  A loop without a structural bound takes fuel; the
    theorems prove that the fuel a definition starts with is enough, or that any larger fuel
    gives a result, so none is of the form "if it returns".  User memory is an argument: what
    copyin delivers, or the error of copyin or copyout.

    ** Files

    - [Prelude]: results, array access, machine integers, [unlink], list lemmas and tactics
      (the hint database [kern], [kstep] to run a bind).
    - [Rmap] ([sys/subr_rmap.c]): resource maps on the array the code uses, header in slot 0.
      A well-formed map represents a list of sorted, separate segments; rmalloc is first fit,
      rmfree returns exactly the block, merges neighbours, panics exactly on a bad block and
      drops one segment when the map is full; rmget takes exactly the block asked for.  The class
      [ResMap] is what rmalloc and rmfree promise to a client, implemented by the maps; the
      semaphores, the messages, the kernel heap and the mbufs are proved against the class.
    - [Ipc] ([sys/ipc_subr.c], parts of [sys/kern_prot.c]): permissions and key lookup.
    - [Sem] ([sys/ipc_sem.c]), definitions.  [SemUndo]: adjust-on-exit entries, their
      structure invariant and the inverse of an adjustment.  [SemOp]: one operation and its
      undoing.  [SemThms]: semop is all or nothing, semexit takes back what SEM_UNDO
      operations did, semunrm forgets exactly its range.  [SemIds]: semget and IPC_RMID keep
      the sets on disjoint parts of the pool and retire identifiers.  [SemWitness]: a
      facility the theorems apply to.
    - [Callout] ([sys/kern_clock.c]): the delta-encoded timeout queue; the abstraction is the
      list of deadlines.  [Timer] ([sys/kern_time.c], hzto and uniqtime): interval timers,
      which rearm themselves through [Callout].
    - [Synch] ([sys/kern_synch.c], setrq and remrq of [sun3/vax.s]): sleep and run queues;
      [SynchThms]: the queue invariant, wakeup, sleep, setrun and the bounds of priorities.
    - [Clist] ([sys/tty_subr.c]): character lists in linked 32-byte blocks found by masking
      addresses; each routine against the list of characters, for any block
      chain, with the block accounting.
    - [Dsort] ([ufs/ufs_dsort.c]): disksort against stable insertion in one-way scan order.
    - [Dnlc] ([sys/vfs_dnlc.c], vn_rele, crfree): the name cache; [DnlcThms]: refinement of
      an abstract least-recently-used map, reference counts included.
    - [Ufs] ([ufs/ufs_alloc.c], [ufs_subr.c], [ufs_tables.c], macros of [fs.h]), definitions.
      [UfsBits]: bit maps.  [UfsFrag]: runs of free fragments, the fragment tables checked
      against their meaning for all 256 bytes, fragacct.  [UfsSearch]: mapsearch,
      the accounting invariant of a cylinder group, block choice.  [UfsAlloc]:
      operations within a group.  [UfsThms]: a mounted file system; alloccg, free and
      fragextend.  [UfsInode]: ialloccg and ifree.  [UfsPolicy]: the class [Allocator] and
      hashalloc over it.  [UfsWitness]: a file system the theorems apply to.
    - [Kmem] ([sys/heap_kmem.c]), definitions: the Cartesian tree of free blocks, the header
      list, deferred frees.  [KmemTree]: the tree operations against the sorted list of blocks
      (insertion, deletion, demotion, the coalescing walk, the descent).  [KmemThms]: who owns
      each byte of the region, the invariant, kmem_free.  [KmemAlloc]: kmem_alloc, the round
      trip, kmem_free_intr.  [KmemWitness]: heaps grown from kmem_init.
    - [Msg] ([sys/ipc_msg.c]), definitions: queues of messages, their headers and their text in a
      mapped region.  [MsgThms]: who owns each header and each byte of text, what a queue
      represents.  [MsgOps]: msgsnd, msgrcv, msgget and msgctl against queues of typed messages,
      and the round trip.  [MsgWitness]: facilities the theorems apply to.
    - [Mbuf] ([sys/uipc_mbuf.c], [h/mbuf.h]), definitions: mbufs at their addresses in a byte
      store, clusters with their counts, a chain the list of its mbufs.  [MbufThms]: the
      invariant, a cluster's count is the number of mbufs that use it.  [MbufOps]: allocation
      and freeing, mclget.  [MbufCopy]: m_copy.  [MbufTrim]: m_adj, m_cat, m_pullup.
      [MbufWitness]: pools the theorems apply to, and what the code does outside them.
    - [Flags]: bit flags as [Z], with the tactics that decide their identities.
    - [Sockbuf] ([sys/uipc_socket2.c], [h/socketvar.h]), definitions: socket buffers over mbuf
      chains.  [SockbufThms]: a buffer as a stream of bytes and record marks; sbappend, sbdrop,
      sbflush, the lock, the limits.  [SockbufAddr]: datagrams, sbappendaddr; buffers the theorems
      apply to.
    - [Sock] ([sys/uipc_socket.c], [sys/uipc_socket2.c], accept() of [sys/uipc_syscalls.c],
      unp_scan), definitions: sockets by address, their queues of connections, their states.
      [SockThms]: the circular queues as lists.  [SockState]: the state flags, as a step
      relation; soisconnected.  [SockQueue]: the classes [Protocol] (what sonewconn needs of an
      attach) and [Dequeues] (what soclose needs of an abort); sonewconn, accept, soclose.
    - [Unp] ([sys/uipc_usrreq.c], getf, ufalloc and ufavail of [sys/kern_descrip.c]),
      definitions: control blocks, names, connections, rights.  [UnpThms]: the unix domain is a
      [Protocol] and does not dequeue what it aborts; writes and reads of a stream and
      the credit its two ends share.  [SockWitness]: sockets the theorems apply to.
    - [UnpGc] (unp_gc): the collector of files in flight, and that its marking reaches exactly the
      files reachable from the open ones.  [UnpRights]: descriptors into files and back.
      [GcWitness]: file tables the theorems apply to.
    - [Cksum] ([sun/in_cksum.c], ocsum of [sun/ocsum.s]): the internet checksum of an mbuf chain
      against its definition; a packet the theorems apply to.
    - [Reass]: the queue of pieces out of order that TCP and IP keep in the same way: the classes
      [SeqOps] and [SeqSpace] (arithmetic of positions), insertion with its trimming, and that the
      queue stays sorted, apart and true to the stream.
    - [Tcp] ([netinet/tcp_input.c], the receiving half), definitions: the receive window, what of a
      segment lies in it, tcp_reass and TCP_REASS, the FIN.  [TcpThms]: tcp_reass over [Reass] with
      32-bit sequence numbers.  [TcpStream]: the reader sees the stream, whatever arrives in
      whatever order; the states a FIN leads to.  [TcpWitness]: a connection the theorems apply to.
    - [Ip] (ip_reass, ip_freef, ip_slowtimo, ip_drain and the end of ipintr in
      [netinet/ip_input.c]), definitions: fragments and their queues.  [IpThms]: a datagram comes out
      when no byte is missing, with its data; queues expire.
    - [Bio] ([sys/vfs_bio.c], [h/buf.h], allocbuf of [sun/ufs_machdep.c], the loop of binit),
      definitions: the buffer cache.  [BioInv]: the class [Drive], what the device promises, and the
      invariant: the cache stands for the contents of the volumes, of which what is written behind or
      on its way is ahead of the device.  [BioOps]: brelse, transfers that end, biowait.
      [BioWrite]: bwrite, bdwrite, what the holder of a buffer may do.  [BioGet]:
      getnewbuf, brealloc and the overlaps it removes.  [BioRead]: getblk.  [BioThms]:
      bread, bflush, and programs that cannot tell the cache from the volume; binit.
      [BioWitness]: a disk that keeps the promises, and runs.
    - [Qsort] ([src/lib/libc/gen/qsort.c]), qsort() on the bytes of an array;
      the loops over bytes as exchanges and moves of records.  [QsortThms]: the class [Comparison];
      the result is a permutation in order, and qst() leaves the least record where the insertion
      sort needs it.
    - [Pcfs] ([pcfs/pc_alloc.c], pc_truncate of [pcfs/pc_node.c]), definitions: the packed allocation
      table.  [PcfsThms]: the table as an array of entries, a file as a chain of clusters; what pc_balloc
      allocates pc_bmap finds, what pc_bfree frees pc_freeclusters counts, other files stay; what
      truncation does to the chain.
    - [Pctime] ([pcfs/pc_subr.c]): the calendar, daylight saving time, packed times and the way back.
    - [Xdr] ([src/lib/libc/rpc]: [xdr.c], [xdr_array.c], [xdr_reference.c], [xdr_mem.c], xdr_pmap of
      [pmap_prot.c]), definitions: the routines that encode, decode and free, over any stream of the
      class [xdr_ops], and streams in memory.  [XdrThms]: the class [XdrStream], what a stream promises,
      and that every routine is a [Codec].  [XdrMem]: streams in memory keep the promises; a routine for any
      type is a codec; the external representation as a specification; round trips, decoding of
      arbitrary bytes, and sizes that overflow.  [XdrRec] ([xdr_rec.c]): streams of records over a
      connection; they keep the promises of [XdrStream], and what is sent as records is received.

    ** Interaction

    Semaphores and messages allocate ranges of their pools, the kernel heap and the mbufs their
    pages, from a resource map (through [ResMap]); semaphores and messages check permissions and
    find identifiers through [Ipc]; they wake sleepers by channel; real-time timers arm and
    disarm callouts; wakeup and setrun move processes between the sleep and the run queues;
    hashalloc drives alloccg through [Allocator].  Sockets hold their data in mbuf chains through
    socket buffers, live in mbufs themselves, and ask their protocol through one function, of
    which the unix domain is an implementation; what a caller sleeps on is a result.  TCP gives what is
    in order to the socket buffer; TCP and IP instantiate [Reass] through [SeqSpace], and what they
    hold are mbuf chains.  The buffer cache asks any device that is a [Drive], which calls biodone()
    in its own time: while a transfer is started or the process sleeps.  The routines of XDR
    call the stream through [xdr_ops], each other, and malloc(), whose answers are a parameter.  Everything else the routines call (VOP_INACTIVE, psignal, aston, printf)
    is recorded as an event of the state.

    ** Not modelled

    Device drivers, machine-dependent code, paging, the boot monitors, most of the internet
    and the file-system protocols, the rest of the libraries, commands and the window system: register and
    buffer I/O, or code above the kernel core.  Of the files named above: gettimeofday and
    settimeofday (copying), the statistics part of hardclock, roundrobin, semsys and msgsys (dispatch),
    alloc, realloccg and ialloc (quotas and in-core inodes around the modelled allocators),
    update, syncip and getmp; of tcp_input the acknowledgements, SYN, RST and urgent data, and
    tcp_output; IP options, forwarding and routing; sosend and soreceive (user memory between every two steps) and the
    rest of the socket system calls, closef.  The theorems about the buffer cache are about one
    process and the device, transfers without errors and the Sun-3, where the memory of a buffer is one
    page; allocbuf moving pages between buffers has a definition only.  The directories and vnode operations
    of the PC file system, and the copy of a node into its directory entry, are left out, and so
    are the streams of XDR over mbufs and stdio, floating point numbers and remote procedure calls.  Names in the
    file system are answers: what lookupname or vn_create finds.  The name strings that only reach printf are not kept, nor is
    the bread() of a group whose block lies outside the device. *)

From stdpp Require Import prelude list numbers strings.
From Stdlib Require Import ZArith Lia.


Declare Scope kern_scope.
Delimit Scope kern_scope with kern.
Open Scope Z_scope.

(** ** Results of kernel routines

    [Ok] is a normal return, [Panic] a call of panic(), and [Fault] a memory
    access outside the object a routine works on (undefined in C), or a loop
    that has walked past the end of its object. *)
Inductive res (A : Type) : Type :=
| Ok (a : A)
| Panic (msg : string)
| Fault.
Arguments Ok {A} _.
Arguments Panic {A} _.
Arguments Fault {A}.

#[export] Instance res_ret : MRet res := fun A a => Ok a.
#[export] Instance res_bind : MBind res := fun A B f m =>
  match m with
  | Ok a => f a
  | Panic s => Panic s
  | Fault => Fault
  end.
#[export] Instance res_fmap : FMap res := fun A B f m =>
  match m with
  | Ok a => Ok (f a)
  | Panic s => Panic s
  | Fault => Fault
  end.

(** Array access: an index outside the array is a [Fault]. *)
Definition rd {A} (l : list A) (i : nat) : res A :=
  match l !! i with Some x => Ok x | None => Fault end.

Definition wr {A} (l : list A) (i : nat) (x : A) : res (list A) :=
  if decide (i < length l)%nat then Ok (<[i := x]> l) else Fault.

(** ** Machine integers: values wrapped to their width. *)
Definition wrapu (w z : Z) : Z := z mod 2 ^ w.
Definition wraps (w z : Z) : Z := (z + 2 ^ (w - 1)) mod 2 ^ w - 2 ^ (w - 1).

Notation "'u8' z" := (wrapu 8 z) (at level 10, z at level 9) : kern_scope.
Notation "'u16' z" := (wrapu 16 z) (at level 10, z at level 9) : kern_scope.
Notation "'u32' z" := (wrapu 32 z) (at level 10, z at level 9) : kern_scope.
Notation "'i16' z" := (wraps 16 z) (at level 10, z at level 9) : kern_scope.
Notation "'i32' z" := (wraps 32 z) (at level 10, z at level 9) : kern_scope.

Create HintDb kern.

Lemma wrapu_small w z : 0 <= z < 2 ^ w -> wrapu w z = z.
Proof. intros H. unfold wrapu. by apply Z.mod_small. Qed.

Lemma wrapu_range w z : 0 <= w -> 0 <= wrapu w z < 2 ^ w.
Proof. intros H. unfold wrapu. apply Z.mod_pos_bound. lia. Qed.

Lemma wraps_small w z : 0 < w -> - 2 ^ (w - 1) <= z < 2 ^ (w - 1) -> wraps w z = z.
Proof.
  intros Hw H. unfold wraps.
  assert (2 ^ w = 2 * 2 ^ (w - 1)) as E.
  { rewrite <- Z.pow_succ_r by lia. f_equal. lia. }
  rewrite Z.mod_small by lia. lia.
Qed.

Lemma wraps_range w z : 0 < w -> - 2 ^ (w - 1) <= wraps w z < 2 ^ (w - 1).
Proof.
  intros Hw. unfold wraps.
  assert (2 ^ w = 2 * 2 ^ (w - 1)) as E.
  { rewrite <- Z.pow_succ_r by lia. f_equal. lia. }
  pose proof (Z.mod_pos_bound (z + 2 ^ (w - 1)) (2 ^ w) ltac:(lia)). lia.
Qed.

Lemma wraps_add_l w a b : 0 < w -> wraps w (wraps w a + b) = wraps w (a + b).
Proof.
  intros Hw. unfold wraps. set (m := 2 ^ w). set (h := 2 ^ (w - 1)).
  replace ((a + h) mod m - h + b + h) with ((a + h) mod m + b) by lia.
  rewrite Zplus_mod_idemp_l. do 2 f_equal. lia.
Qed.

Lemma wraps_sub_l w a b : 0 < w -> wraps w (wraps w a - b) = wraps w (a - b).
Proof. intros Hw. replace (wraps w a - b) with (wraps w a + - b) by lia. rewrite wraps_add_l by done. f_equal. Qed.

Lemma wraps_idem w a : 0 < w -> wraps w (wraps w a) = wraps w a.
Proof. intros Hw. apply wraps_small; [done|]. by apply wraps_range. Qed.

(** ** Array access in the middle of a decomposed array *)
Lemma rd_mid {A} (l1 l2 : list A) x i :
  i = length l1 -> rd (l1 ++ x :: l2) i = Ok x.
Proof. intros ->. unfold rd. by rewrite list_lookup_middle. Qed.

Lemma wr_mid {A} (l1 l2 : list A) x y i :
  i = length l1 -> wr (l1 ++ x :: l2) i y = Ok (l1 ++ y :: l2).
Proof.
  intros ->. unfold wr. rewrite decide_True.
  - by rewrite insert_app_r_alt, Nat.sub_diag by lia.
  - rewrite length_app. simpl. lia.
Qed.

Lemma rd_mid1 {A} (l1 l2 : list A) x y i :
  i = S (length l1) -> rd (l1 ++ x :: y :: l2) i = Ok y.
Proof.
  intros ->. change (l1 ++ x :: y :: l2) with (l1 ++ [x] ++ y :: l2).
  rewrite app_assoc. apply rd_mid. rewrite length_app. simpl. lia.
Qed.

Lemma wr_mid1 {A} (l1 l2 : list A) x y z i :
  i = S (length l1) -> wr (l1 ++ x :: y :: l2) i z = Ok (l1 ++ x :: z :: l2).
Proof.
  intros ->. change (l1 ++ x :: y :: l2) with (l1 ++ [x] ++ y :: l2).
  rewrite app_assoc, wr_mid by (rewrite length_app; simpl; lia).
  by rewrite <- app_assoc.
Qed.

Lemma rd_at {A} (m pre post : list A) x i :
  m = pre ++ x :: post -> i = length pre -> rd m i = Ok x.
Proof. intros -> ->. by apply rd_mid. Qed.

Lemma wr_at {A} (m pre post : list A) x y i :
  m = pre ++ x :: post -> i = length pre -> wr m i y = Ok (pre ++ y :: post).
Proof. intros -> ->. by apply wr_mid. Qed.

(** A list is empty or has a last element. *)
Lemma exists_last' {A} (l : list A) : l = [] \/ exists l0 x, l = l0 ++ [x].
Proof. destruct l using rev_ind; [by left|right; eauto]. Qed.

Lemma list_filter_all {A} (P : A -> Prop) `{!forall x, Decision (P x)} (l : list A) :
  Forall P l -> filter P l = l.
Proof. induction 1; [done|]. rewrite filter_cons_True by done. by f_equal. Qed.

Lemma rd_Ok {A} (l : list A) i x : rd l i = Ok x <-> l !! i = Some x.
Proof. unfold rd. destruct (l !! i); split; intros; simplify_eq; done. Qed.

(** ** Arrays with an index that may be negative *)

Section Indices.
Local Open Scope Z_scope.

Definition rdz {A} (l : list A) (i : Z) : res A := if i <? 0 then Fault else rd l (Z.to_nat i).
Definition wrz {A} (l : list A) (i : Z) (x : A) : res (list A) :=
  if i <? 0 then Fault else wr l (Z.to_nat i) x.

Lemma rdz_Ok {A} (l : list A) i x : rdz l i = Ok x <-> 0 <= i /\ l !! Z.to_nat i = Some x.
Proof.
  unfold rdz. destruct (Z.ltb_spec i 0); [split; [discriminate|intros [? _]; lia]|]. rewrite rd_Ok. by split; [|intros [_ ?]].
Qed.

Lemma rdz_lt {A} (l : list A) i : 0 <= i < Z.of_nat (length l) ->
  exists x, rdz l i = Ok x /\ l !! Z.to_nat i = Some x.
Proof.
  intros H. destruct (lookup_lt_is_Some_2 l (Z.to_nat i) ltac:(lia)) as [x Hx].
  exists x. split; [|done]. apply rdz_Ok. by split; [lia|].
Qed.

Lemma wrz_Ok {A} (l : list A) i x : 0 <= i < Z.of_nat (length l) ->
  wrz l i x = Ok (<[Z.to_nat i := x]> l).
Proof.
  intros H. unfold wrz, wr. destruct (Z.ltb_spec i 0); [lia|]. by rewrite decide_True by lia.
Qed.

Lemma rdz_insert {A} (l : list A) i j (x y : A) : 0 <= i < Z.of_nat (length l) ->
  rdz (<[Z.to_nat i := x]> l) j = Ok y ->
  (j = i /\ y = x) \/ (j <> i /\ rdz l j = Ok y).
Proof.
  intros Hi [Hj H]%rdz_Ok. destruct (decide (j = i)) as [->|Hne].
  - left. rewrite list_lookup_insert_eq in H by lia. by simplify_eq.
  - right. rewrite list_lookup_insert_ne in H by lia. split; [done|]. by apply rdz_Ok.
Qed.

Lemma rdz_range {A} (l : list A) i x : rdz l i = Ok x -> 0 <= i < Z.of_nat (length l).
Proof. intros [Hi H]%rdz_Ok. apply lookup_lt_Some in H. lia. Qed.
End Indices.

(** ** Linked lists

    Taking an element off a chain or a queue: its first (and only) occurrence. *)
Fixpoint unlink (x : nat) (chain : list nat) : list nat :=
  match chain with
  | [] => []
  | y :: ys => if decide (y = x) then ys else y :: unlink x ys
  end.

Lemma unlink_spec up c : NoDup c -> NoDup (unlink up c) /\ forall v, v ∈ unlink up c <-> v ∈ c /\ v <> up.
Proof.
  induction 1 as [|x c Hx Hnd [IH1 IH2]]; simpl.
  - split; [constructor|]. intros v. rewrite !elem_of_nil. tauto.
  - destruct (decide (x = up)) as [->|].
    + split; [done|]. intros v. rewrite elem_of_cons. split; [|by intros [[->|?] ?]].
      intros H. split; [by right|]. by intros ->.
    + split.
      * apply NoDup_cons. split; [|done]. rewrite IH2. tauto.
      * intros v. rewrite !elem_of_cons, IH2. split; [intros [->|[? ?]]; auto|].
        intros [[->|?] ?]; auto.
Qed.

Lemma unlink_length x c : x ∈ c -> S (length (unlink x c)) = length c.
Proof.
  induction c as [|y c IH]; simpl; [by intros ?%elem_of_nil|].
  intros [->|H]%elem_of_cons; [by rewrite decide_True|].
  destruct (decide (y = x)); simpl; [done|]. by rewrite IH.
Qed.

(** ** Tactics *)

(** Reduce a bind whose first computation is known. *)
Ltac kstep := cbn [mbind res_bind mret res_ret fmap res_fmap].

(** Bring an array into the shape [pre ++ x :: ...] by associativity. *)
Ltac reshape := rewrite ?app_comm_cons, <- ?app_assoc; simpl; rewrite <- ?app_assoc; done.

(** Side conditions about lengths of decomposed arrays. *)
Ltac klen := cbn [length]; rewrite ?length_app; cbn [length]; rewrite ?length_app; simpl; lia.

(** Execute a read or write whose array is [pre ++ x :: ...], at [length pre] or the
    slot after it. *)
Ltac krd pre :=
  match goal with
  | |- context [mbind _ (rd _ ?i)] => rewrite (rd_mid pre _ _ i) by klen; kstep
  end.
Ltac kwr pre :=
  match goal with
  | |- context [mbind _ (wr _ ?i _)] => rewrite (wr_mid pre _ _ _ i) by klen; kstep
  end.
Ltac krd1 pre :=
  match goal with
  | |- context [mbind _ (rd _ ?i)] => rewrite (rd_mid1 pre _ _ _ i) by klen; kstep
  end.
Ltac kwr1 pre :=
  match goal with
  | |- context [mbind _ (wr _ ?i _)] => rewrite (wr_mid1 pre _ _ _ _ i) by klen; kstep
  end.

(** The same for an array in any shape: [x] sits between [pre] and [post]. *)
Tactic Notation "krd_at" constr(pre) constr(x) constr(post) :=
  match goal with
  | |- context [mbind _ (rd ?m ?i)] =>
      rewrite (rd_at m pre post x i) by (reshape || klen); kstep
  end.
Tactic Notation "kwr_at" constr(pre) constr(x) constr(post) :=
  match goal with
  | |- context [mbind _ (wr ?m ?i ?y)] =>
      rewrite (wr_at m pre post x y i) by (reshape || klen); kstep
  end.

(** Destruct the test of the first [if] of the goal, keeping its truth value as a
    proposition that [lia] understands. *)
Ltac ktest :=
  match goal with
  | |- context [if ?b then _ else _] =>
      match type of b with
      | bool => let E := fresh "E" in destruct b eqn:E
      | sumbool _ _ => destruct b
      end
  end.

(** Invert an equation between results. *)
Ltac kinv H :=
  match type of H with
  | Ok _ = Ok _ => injection H as H; subst
  | Ok _ = Panic _ => discriminate H
  | Ok _ = Fault => discriminate H
  | Panic _ = _ => discriminate H
  | Fault = _ => discriminate H
  end.
