(* ===== verification/Rmap.v ===== *)
(** * Resource maps: [src/sun/sys/sys/subr_rmap.c]

    A map is the dense array of the C code: slot 0 is the [struct map] header,
    whose two words alias [m_size] (m_free) and [m_addr] (m_want) of a map entry
    (the code relies on the two structures having one size), slots 1 .. mapsize-1
    are the segments, the terminator and the unused slots, and the address word
    of the last slot holds the name.  Pointers into the map are slot numbers. *)

From S2P Require Import Prelude.
From stdpp Require Import prelude list numbers strings.
From Stdlib Require Import ZArith Lia.

Local Open Scope Z_scope.

Record mapent := Mapent { m_size : Z; m_addr : Z }.

(** What the outside world sees of a map operation: wakeup(mp), and the warning
    that a segment was thrown away. *)
Inductive rmevent :=
| RmWakeup
| RmLost (first last : Z).

Record rmap := Rmap { slots : list mapent; rlog : list rmevent }.

(** The globals the swap map's interleaving depends on. *)
Record swapcfg := Swapcfg { nswdev : Z; dmmax : Z; clsize : Z }.

Definition mapfree (m : list mapent) : Z := default 0 (m_size <$> m !! 0%nat).
Definition mapwant (m : list mapent) : Z := default 0 (m_addr <$> m !! 0%nat).

Definition set_mapfree (m : list mapent) (v : Z) : res (list mapent) :=
  h ← rd m 0; wr m 0 (Mapent (wrapu 32 v) (m_addr h)).
Definition set_mapwant (m : list mapent) (v : Z) : res (list mapent) :=
  h ← rd m 0; wr m 0 (Mapent (m_size h) v).

(** ** rminit *)
Definition rminit (m : list mapent) (size addr name : Z) (mapsize : nat)
    : res (list mapent) :=
  if (mapsize <? 3)%nat then
    m ← set_mapfree m 0;
    e ← rd m 1;
    m ← wr m 1 (Mapent 0 (m_addr e));
    e ← rd m 1;
    wr m 1 (Mapent (m_size e) name)
  else
    m ← set_mapfree m (Z.of_nat mapsize - 3);
    l ← rd m (mapsize - 1);
    m ← wr m (mapsize - 1) (Mapent (m_size l) name);
    m ← wr m 1 (Mapent size addr);
    if size =? 0 then set_mapfree m (mapfree m + 1) else mret m.

(** ** The loops that move segments *)

(** [do { bp++; bp[-1] = bp[0]; } while (bp[-1].m_size)]: entered with [bp] at the
    slot to be filled. *)
Fixpoint shift_do (fuel : nat) (m : list mapent) (bp : nat) : res (list mapent) :=
  match fuel with
  | O => Fault
  | S f =>
      e ← rd m (S bp);
      m ← wr m bp e;
      if m_size e =? 0 then mret m else shift_do f m (S bp)
  end.

(** [while (bp->m_size) { bp++; bp[-1] = bp[0]; }] *)
Fixpoint shift_while (fuel : nat) (m : list mapent) (bp : nat) : res (list mapent) :=
  match fuel with
  | O => Fault
  | S f =>
      c ← rd m bp;
      if m_size c =? 0 then mret m
      else
        e ← rd m (S bp);
        m ← wr m bp e;
        shift_while f m (S bp)
  end.

(** The [do ... while (size = t)] of rmfree: store the new segment at [bp] and push
    the remaining ones up, carrying one entry along. *)
Fixpoint push_up (fuel : nat) (m : list mapent) (bp : nat) (size addr : Z)
    : res (list mapent) :=
  match fuel with
  | O => Fault
  | S f =>
      t ← rd m bp;
      m ← wr m bp (Mapent size addr);
      if m_size t =? 0 then mret m else push_up f m (S bp) (m_size t) (m_addr t)
  end.

(** [for (; bp->m_addr <= addr && bp->m_size != 0; bp++)] *)
Fixpoint locate (fuel : nat) (m : list mapent) (addr : Z) (bp : nat) : res nat :=
  match fuel with
  | O => Fault
  | S f =>
      e ← rd m bp;
      if (m_addr e <=? addr) && negb (m_size e =? 0)
      then locate f m addr (S bp) else mret bp
  end.

(** [for (; bp->m_size != 0; bp++)] *)
Fixpoint find_end (fuel : nat) (m : list mapent) (bp : nat) : res nat :=
  match fuel with
  | O => Fault
  | S f =>
      e ← rd m bp;
      if m_size e =? 0 then mret bp else find_end f m (S bp)
  end.

(** ** rmfree *)

(** The [done:] label: wake those sleeping on a failed rmalloc. *)
Definition rmfree_done (m : list mapent) (log : list rmevent) : res rmap :=
  if mapwant m =? 0 then mret (Rmap m log)
  else m ← set_mapwant m 0; mret (Rmap m (log ++ [RmWakeup])).

(** The overflow branch: discard the smaller of the last two segments. *)
Definition rmfree_ovflo (m : list mapent) (log : list rmevent) (bp : nat) : res rmap :=
  fin ← find_end (length m) m bp;
  if (fin =? 0)%nat then Fault else
  let bp := (fin - 1)%nat in
  if (bp =? 0)%nat then Fault else
  b ← rd m bp;
  p ← rd m (bp - 1);
  let bp := if m_size p <? m_size b then (bp - 1)%nat else bp in
  lost ← rd m bp;
  nxt ← rd m (S bp);
  m ← wr m bp nxt;
  m ← wr m (S bp) (Mapent 0 (m_addr nxt));
  m ← set_mapfree m (mapfree m + 1);
  mret (Rmap m (log ++ [RmLost (m_addr lost) (m_addr lost + m_size lost)])).

(** From [retry:] on.  [inl]: finished; [inr]: [goto retry] with the new map. *)
Definition rmfree_pass (s : rmap) (size addr : Z) : res (rmap + rmap) :=
  let m := slots s in
  let fuel := length m in
  bp ← locate fuel m addr 1;
  e ← rd m bp;
  l ← rd m (bp - 1);
  if (1 <? bp)%nat && (addr <=? m_addr l + m_size l) then
    if addr <? m_addr l + m_size l then Panic "bad rmfree" else
    m ← wr m (bp - 1) (Mapent (m_size l + size) (m_addr l));
    if negb (m_size e =? 0) && (m_addr e <=? addr + size) then
      if m_addr e <? addr + size then Panic "bad rmfree" else
      m ← wr m (bp - 1) (Mapent (m_size l + size + m_size e) (m_addr l));
      m ← shift_while fuel m bp;
      m ← set_mapfree m (mapfree m + 1);
      inl <$> rmfree_done m (rlog s)
    else inl <$> rmfree_done m (rlog s)
  else if (m_addr e <=? addr + size) && negb (m_size e =? 0) then
    if m_addr e <? addr + size then Panic "bad rmfree" else
    m ← wr m bp (Mapent (m_size e + size) (m_addr e - size));
    inl <$> rmfree_done m (rlog s)
  else if mapfree m =? 0 then
    inr <$> rmfree_ovflo m (rlog s) bp
  else
    m ← push_up fuel m bp size addr;
    m ← set_mapfree m (mapfree m - 1);
    inl <$> rmfree_done m (rlog s).

Fixpoint rmfree_retry (n : nat) (s : rmap) (size addr : Z) : res rmap :=
  match n with
  | O => Fault
  | S n =>
      r ← rmfree_pass s size addr;
      match r with
      | inl s => mret s
      | inr s => rmfree_retry n s size addr
      end
  end.

(** One retry leaves a free slot, so two passes always suffice. *)
Definition rmfree (s : rmap) (size addr : Z) : res rmap :=
  if (addr <=? 0) || (size <=? 0) then Panic "bad rmfree"
  else rmfree_retry 2 s size addr.

(** ** rmalloc *)

(** Take the first [size] units of the segment [e] at [bp]; close the gap when nothing
    of it is left. *)
Definition rmalloc_take (m : list mapent) (bp : nat) (e : mapent) (size : Z)
    : res (list mapent) :=
  m ← wr m bp (Mapent (m_size e - size) (m_addr e + size));
  if m_size e - size =? 0 then
    m ← shift_do (length m) m bp;
    set_mapfree m (mapfree m + 1)
  else mret m.

(** The interleaved case: [bp] crosses a stripe boundary [first] units in; take the
    block at the boundary and give the rest back. *)
Definition rmalloc_swap (s : rmap) (bp : nat) (e : mapent) (first size : Z)
    : res (Z * rmap) :=
  let addr := m_addr e + first in
  let rest := m_size e - first - size in
  m ← wr (slots s) bp (Mapent first (m_addr e));
  s ← (if rest =? 0 then mret (Rmap m (rlog s))
       else rmfree (Rmap m (rlog s)) rest (addr + size));
  mret (addr, s).

Definition rmalloc_here (cfg : swapcfg) (isswap : bool) (s : rmap) (bp : nat)
    (e : mapent) (size : Z) : res (Z * rmap) :=
  let addr := m_addr e in
  m ← rmalloc_take (slots s) bp e size;
  if isswap && negb (Z.rem addr (clsize cfg) =? 0)
  then Panic "rmalloc swapmap"
  else mret (addr, Rmap m (rlog s)).

(** Distance from the start of a segment to the next stripe boundary. *)
Definition swap_first (cfg : swapcfg) (e : mapent) : Z :=
  dmmax cfg - Z.rem (m_addr e) (dmmax cfg).

Definition swap_crosses (cfg : swapcfg) (isswap : bool) (e : mapent) : bool :=
  isswap && (1 <? nswdev cfg) && (swap_first cfg e <? m_size e).

Fixpoint rmalloc_loop (fuel : nat) (cfg : swapcfg) (isswap : bool) (s : rmap)
    (bp : nat) (size : Z) : res (Z * rmap) :=
  match fuel with
  | O => Fault
  | S f =>
      e ← rd (slots s) bp;
      if m_size e =? 0 then mret (0, s)
      else if size <=? m_size e then
        if swap_crosses cfg isswap e then
          if m_size e - swap_first cfg e <? size
          then rmalloc_loop f cfg isswap s (S bp) size
          else rmalloc_swap s bp e (swap_first cfg e) size
        else rmalloc_here cfg isswap s bp e size
      else rmalloc_loop f cfg isswap s (S bp) size
  end.

Definition rmalloc (cfg : swapcfg) (isswap : bool) (s : rmap) (size : Z)
    : res (Z * rmap) :=
  if (size <=? 0) || (isswap && (dmmax cfg <? size)) then Panic "rmalloc"
  else rmalloc_loop (length (slots s)) cfg isswap s 1 size.

(** ** rmget *)

(** [for (bp = ep; bp->m_size; bp++) if (...) break;] *)
Fixpoint rmget_find (fuel : nat) (m : list mapent) (addr : Z) (bp : nat) : res nat :=
  match fuel with
  | O => Fault
  | S f =>
      e ← rd m bp;
      if m_size e =? 0 then mret bp
      else if (m_addr e <=? addr) && (addr <? m_addr e + m_size e) then mret bp
      else rmget_find f m addr (S bp)
  end.

(** [while (bp2 > bp) { bp2[1] = bp2[0]; bp2--; }], [n] = bp2 - bp. *)
Fixpoint open_gap (n : nat) (m : list mapent) (bp : nat) : res (list mapent) :=
  match n with
  | O => mret m
  | S n' =>
      e ← rd m (bp + n);
      m ← wr m (S (bp + n)) e;
      open_gap n' m bp
  end.

Definition rmget (isswap : bool) (s : rmap) (size addr : Z) : res (Z * rmap) :=
  if size <=? 0 then Panic "rmget" else
  if isswap then mret (0, s) else
  let m := slots s in
  let fuel := length m in
  bp ← rmget_find fuel m addr 1;
  e ← rd m bp;
  if m_size e =? 0 then mret (0, s) else
  if m_addr e + m_size e <? addr + size then mret (0, s) else
  if m_addr e =? addr then
    if m_size e =? size then
      m ← shift_while fuel m bp;
      m ← set_mapfree m (mapfree m + 1);
      mret (addr, Rmap m (rlog s))
    else
      m ← wr m bp (Mapent (m_size e - size) (m_addr e + size));
      mret (addr, Rmap m (rlog s))
  else if m_addr e + m_size e =? addr + size then
    m ← wr m bp (Mapent (m_size e - size) (m_addr e));
    mret (addr, Rmap m (rlog s))
  else if mapfree m =? 0 then mret (0, s)
  else
    fin ← find_end fuel m bp;
    t ← rd m (S fin);
    m ← wr m (S fin) (Mapent 0 (m_addr t));
    m ← open_gap (fin - 1 - bp) m bp;
    m ← set_mapfree m (mapfree m - 1);
    m ← wr m (S bp) (Mapent (m_addr e + m_size e - (addr + size)) (addr + size));
    m ← wr m bp (Mapent (addr - m_addr e) (m_addr e));
    mret (addr, Rmap m (rlog s)).

(** ** Abstract view: a list of free segments *)

(** The reference semantics of the routines, on the list of segments. *)
Fixpoint seg_alloc (segs : list mapent) (size : Z) : option (Z * list mapent) :=
  match segs with
  | [] => None
  | e :: es =>
      if size <=? m_size e then
        Some (m_addr e,
              if m_size e - size =? 0 then es
              else Mapent (m_size e - size) (m_addr e + size) :: es)
      else
        r ← seg_alloc es size; Some (r.1, e :: r.2)
  end.

(** A unit of the resource is free when a segment covers it. *)
Definition covers (e : mapent) (u : Z) : Prop := m_addr e <= u < m_addr e + m_size e.
Definition seg_free (segs : list mapent) (u : Z) : Prop := Exists (fun e => covers e u) segs.

(** Positive addresses and sizes, increasing, and never two adjacent segments. *)
Fixpoint seg_wf (lo : Z) (segs : list mapent) : Prop :=
  match segs with
  | [] => True
  | e :: es => lo < m_addr e /\ 0 < m_size e /\ seg_wf (m_addr e + m_size e) es
  end.

(** [rep m segs]: the array [m] holds exactly the segments [segs]. *)
Definition rep (m : list mapent) (segs : list mapent) : Prop :=
  exists h tail, m = h :: segs ++ tail
    /\ Forall (fun e => m_size e = 0) tail
    /\ tail <> []
    /\ m_size h = Z.of_nat (length tail) - 1
    /\ Z.of_nat (length m) <= 2 ^ 31.

Definition rmap_wf (s : rmap) (segs : list mapent) : Prop :=
  rep (slots s) segs /\ seg_wf 0 segs.

(** End of the last segment (or [lo]). *)
Fixpoint seg_end (lo : Z) (segs : list mapent) : Z :=
  match segs with
  | [] => lo
  | e :: es => seg_end (m_addr e + m_size e) es
  end.

Definition sized (e : mapent) : Prop := m_size e <> 0.

Lemma seg_wf_app lo a b :
  seg_wf lo (a ++ b) <-> seg_wf lo a /\ seg_wf (seg_end lo a) b.
Proof. revert lo; induction a as [|e a IH]; intros lo; simpl; [tauto|]. rewrite IH. tauto. Qed.

Lemma seg_end_app lo a b : seg_end lo (a ++ b) = seg_end (seg_end lo a) b.
Proof. revert lo; induction a as [|e a IH]; intros lo; simpl; auto. Qed.

Lemma seg_end_le lo a : seg_wf lo a -> lo <= seg_end lo a.
Proof.
  revert lo; induction a as [|e a IH]; intros lo; simpl; [lia|].
  intros (?&?&H). apply IH in H. lia.
Qed.

Lemma seg_wf_mono lo lo' a : lo' <= lo -> seg_wf lo a -> seg_wf lo' a.
Proof. destruct a; simpl; [tauto|]. intros ? (?&?&?). repeat split; auto; lia. Qed.

Lemma seg_wf_sized lo a : seg_wf lo a -> Forall sized a.
Proof.
  revert lo; induction a as [|e a IH]; intros lo; simpl; [constructor|].
  intros (?&?&H). constructor; [unfold sized; lia|eauto].
Qed.

Lemma seg_free_app a b u : seg_free (a ++ b) u <-> seg_free a u \/ seg_free b u.
Proof. apply Exists_app. Qed.

Lemma seg_free_cons e a u : seg_free (e :: a) u <-> covers e u \/ seg_free a u.
Proof. apply Exists_cons. Qed.

Lemma seg_free_nil u : seg_free [] u <-> False.
Proof. apply Exists_nil. Qed.

Create Rewrite HintDb rmap.
#[export] Hint Rewrite seg_free_app seg_free_cons seg_free_nil : rmap.

Lemma seg_free_bounds lo a u : seg_wf lo a -> seg_free a u -> lo < u < seg_end lo a.
Proof.
  revert lo; induction a as [|e a IH]; intros lo; simpl.
  - by rewrite seg_free_nil.
  - intros (?&?&H). rewrite seg_free_cons. intros [Hc|Hf].
    + unfold covers in Hc. apply seg_end_le in H. lia.
    + specialize (IH _ H Hf). lia.
Qed.

(** A map with the same free units is the same list of segments: the
    representation is canonical. *)
Lemma seg_canonical lo a b :
  seg_wf lo a -> seg_wf lo b -> (forall u, seg_free a u <-> seg_free b u) -> a = b.
Proof.
  revert lo b; induction a as [|x a IH]; intros lo [|y b]; simpl; intros Ha Hb Hu; auto.
  - specialize (Hu (m_addr y)). rewrite seg_free_nil, seg_free_cons in Hu.
    unfold covers in Hu. lia.
  - specialize (Hu (m_addr x)). rewrite seg_free_nil, seg_free_cons in Hu.
    unfold covers in Hu. lia.
  - destruct Ha as (Hx1&Hx2&Ha), Hb as (Hy1&Hy2&Hb).
    assert (forall u, covers x u \/ seg_free a u <-> covers y u \/ seg_free b u) as Hc.
    { intros u. specialize (Hu u). by rewrite !seg_free_cons in Hu. }
    assert (forall u, seg_free a u -> m_addr x + m_size x < u) as Ba.
    { intros u Hf. eapply seg_free_bounds in Hf; eauto. lia. }
    assert (forall u, seg_free b u -> m_addr y + m_size y < u) as Bb.
    { intros u Hf. eapply seg_free_bounds in Hf; eauto. lia. }
    unfold covers in Hc.
    assert (m_addr x = m_addr y) as E1.
    { destruct (proj1 (Hc (m_addr x))) as [?|C1%Bb]; [lia| |];
        destruct (proj2 (Hc (m_addr y))) as [?|C2%Ba]; lia. }
    assert (m_size x = m_size y) as E2.
    { destruct (Z.lt_trichotomy (m_size x) (m_size y)) as [L|[L|L]]; [|done|].
      - destruct (proj2 (Hc (m_addr x + m_size x))) as [?|C%Ba]; lia.
      - destruct (proj1 (Hc (m_addr y + m_size y))) as [?|C%Bb]; lia. }
    destruct x as [sx ax], y as [sy ay]; simpl in *; subst.
    f_equal. eapply IH; eauto. intros u. specialize (Hc u).
    split; intros Hf.
    + pose proof (Ba _ Hf). destruct (proj1 Hc); [by right|lia|done].
    + pose proof (Bb _ Hf). destruct (proj2 Hc); [by right|lia|done].
Qed.

(** ** The loops on a decomposed array *)

Lemma locate_spec addr q : forall pre tail fuel,
  Forall sized q -> (exists t tl, tail = t :: tl /\ m_size t = 0) ->
  (length q < fuel)%nat ->
  exists a b, q = a ++ b
    /\ Forall (fun e => m_addr e <= addr) a
    /\ (forall e, head b = Some e -> addr < m_addr e)
    /\ locate fuel (pre ++ q ++ tail) addr (length pre) = Ok (length pre + length a)%nat.
Proof.
  induction q as [|e q IH]; intros pre tail fuel Hs (t&tl&->&Ht) Hf;
    (destruct fuel as [|fuel]; [simpl in Hf; lia|]); cbn [locate].
  - exists [], []. simpl. krd pre. rewrite Ht. simpl.
    rewrite andb_false_r. repeat split; auto; try done.
  - inversion Hs as [|? ? He Hs']; subst. simpl.
    krd pre.
    destruct (Z.leb_spec (m_addr e) addr) as [Hle|Hgt]; simpl.
    + rewrite (proj2 (Z.eqb_neq _ _) He). simpl.
      destruct (IH (pre ++ [e]) (t :: tl) fuel Hs' ltac:(eauto) ltac:(simpl in Hf; lia))
        as (a&b&->&Ha&Hb&Hl).
      exists (e :: a), b. repeat split; auto.
      rewrite length_app in Hl. simpl in Hl. rewrite <- app_assoc in Hl. simpl in Hl.
      replace (S (length pre)) with (length pre + 1)%nat by lia.
      rewrite <- app_assoc in Hl |- *. rewrite Hl. simpl. f_equal. lia.
    + exists [], (e :: q). repeat split; auto.
      intros ? [= ->]; lia.
Qed.

Lemma find_end_spec q : forall pre tail fuel,
  Forall sized q -> (exists t tl, tail = t :: tl /\ m_size t = 0) ->
  (length q < fuel)%nat ->
  find_end fuel (pre ++ q ++ tail) (length pre) = Ok (length pre + length q)%nat.
Proof.
  induction q as [|e q IH]; intros pre tail fuel Hs (t&tl&->&Ht) Hf;
    (destruct fuel as [|fuel]; [simpl in Hf; lia|]); cbn [find_end]; simpl.
  - krd pre. rewrite Ht. simpl. f_equal. lia.
  - inversion Hs as [|? ? He Hs']; subst.
    krd pre. rewrite (proj2 (Z.eqb_neq _ _) He).
    specialize (IH (pre ++ [e]) (t :: tl) fuel Hs').
    rewrite length_app, <- app_assoc in IH. simpl in IH.
    replace (S (length pre)) with (length pre + 1)%nat by lia.
    rewrite IH by (eauto || (simpl in Hf; lia)). f_equal; lia.
Qed.

(** Moving [q] and the terminator one slot down over [x]. *)
Lemma shift_do_spec q : forall pre x t tl fuel,
  Forall sized q -> m_size t = 0 -> (length q < fuel)%nat ->
  shift_do fuel (pre ++ x :: q ++ t :: tl) (length pre) = Ok (pre ++ q ++ t :: t :: tl).
Proof.
  induction q as [|e q IH]; intros pre x t tl fuel Hs Ht Hf;
    (destruct fuel as [|fuel]; [simpl in Hf; lia|]); cbn [shift_do]; simpl.
  - krd1 pre. kwr pre. by rewrite Ht.
  - inversion Hs as [|? ? He Hs']; subst.
    krd1 pre. kwr pre.
    rewrite (proj2 (Z.eqb_neq _ _) He).
    specialize (IH (pre ++ [e]) e t tl fuel Hs' Ht).
    rewrite length_app, <- !app_assoc in IH. simpl in IH.
    replace (S (length pre)) with (length pre + 1)%nat by lia.
    apply IH. simpl in Hf. lia.
Qed.

Lemma shift_while_spec q : forall pre x t tl fuel,
  sized x -> Forall sized q -> m_size t = 0 -> (S (length q) < fuel)%nat ->
  shift_while fuel (pre ++ x :: q ++ t :: tl) (length pre) = Ok (pre ++ q ++ t :: t :: tl).
Proof.
  induction q as [|e q IH]; intros pre x t tl fuel Hx Hs Ht Hf;
    (destruct fuel as [|fuel]; [simpl in Hf; lia|]); cbn [shift_while]; simpl;
    krd pre; rewrite (proj2 (Z.eqb_neq _ _) Hx).
  - krd1 pre. kwr pre.
    destruct fuel as [|fuel]; [simpl in Hf; lia|]. cbn [shift_while].
    krd1 pre. by rewrite Ht.
  - inversion Hs as [|? ? He Hs']; subst.
    krd1 pre. kwr pre.
    specialize (IH (pre ++ [e]) e t tl fuel He Hs' Ht).
    rewrite length_app, <- !app_assoc in IH. simpl in IH.
    replace (S (length pre)) with (length pre + 1)%nat by lia.
    apply IH. simpl in Hf. lia.
Qed.

(** Moving [q] one slot up over the terminator. *)
Lemma push_up_spec q : forall pre t tl fuel size addr,
  Forall sized q -> m_size t = 0 -> (length q < fuel)%nat ->
  push_up fuel (pre ++ q ++ t :: tl) (length pre) size addr
  = Ok (pre ++ Mapent size addr :: q ++ tl).
Proof.
  induction q as [|e q IH]; intros pre t tl fuel size addr Hs Ht Hf;
    (destruct fuel as [|fuel]; [simpl in Hf; lia|]); cbn [push_up]; simpl;
    krd pre; kwr pre.
  - by rewrite Ht.
  - inversion Hs as [|? ? He Hs']; subst. rewrite (proj2 (Z.eqb_neq _ _) He).
    specialize (IH (pre ++ [Mapent size addr]) t tl fuel (m_size e) (m_addr e) Hs' Ht).
    rewrite length_app, <- !app_assoc in IH. simpl in IH.
    replace (S (length pre)) with (length pre + 1)%nat by lia.
    rewrite IH by (simpl in Hf; lia). by destruct e.
Qed.

Lemma open_gap_spec mid : forall pre e x tl,
  exists y, open_gap (length mid) (pre ++ e :: mid ++ x :: tl) (length pre)
            = Ok (pre ++ e :: y :: mid ++ tl).
Proof.
  induction mid as [|z mid IH] using rev_ind; intros pre e x tl.
  - exists x. done.
  - rewrite length_app. simpl. rewrite Nat.add_1_r. cbn [open_gap].
    assert (pre ++ e :: (mid ++ [z]) ++ x :: tl = (pre ++ e :: mid) ++ z :: x :: tl) as E.
    { by rewrite <- !app_assoc. }
    rewrite E. krd (pre ++ e :: mid).
    kwr1 (pre ++ e :: mid).
    destruct (IH pre e z (z :: tl)) as [y Hy]. exists y.
    rewrite <- !app_assoc. simpl. by rewrite Hy.
Qed.

(** ** rmfree *)

Definition woken (want : Z) : list rmevent := if want =? 0 then [] else [RmWakeup].

Definition overlaps (segs : list mapent) (size addr : Z) : Prop :=
  exists u, addr <= u < addr + size /\ seg_free segs u.

(** [segs'] is [segs] with the block returned. *)
Definition returned (segs segs' : list mapent) (size addr : Z) : Prop :=
  forall u, seg_free segs' u <-> seg_free segs u \/ addr <= u < addr + size.

Lemma rep_inv m segs :
  rep m segs -> exists h t tl, m = h :: segs ++ t :: tl /\ m_size t = 0
    /\ Forall (fun e => m_size e = 0) tl /\ m_size h = Z.of_nat (length tl)
    /\ Z.of_nat (length m) <= 2 ^ 31.
Proof.
  intros (h&tail&->&Hz&Hne&Hh&Hl). destruct tail as [|t tl]; [done|].
  inversion Hz; subst. exists h, t, tl. repeat split; auto. simpl in Hh. lia.
Qed.

Lemma rep_intro h segs t tl :
  m_size t = 0 -> Forall (fun e => m_size e = 0) tl -> m_size h = Z.of_nat (length tl) ->
  Z.of_nat (length (h :: segs ++ t :: tl)) <= 2 ^ 31 -> rep (h :: segs ++ t :: tl) segs.
Proof.
  intros Ht Htl Hh Hl. exists h, (t :: tl). repeat split; auto. simpl. lia.
Qed.

Lemma rmfree_done_spec h rest log :
  rmfree_done (h :: rest) log
  = Ok (Rmap (Mapent (m_size h) 0 :: rest) (log ++ woken (m_addr h))).
Proof.
  unfold rmfree_done, mapwant, woken. simpl. destruct (Z.eqb_spec (m_addr h) 0) as [E|E].
  - rewrite app_nil_r, <- E. by destruct h.
  - done.
Qed.

Lemma set_mapfree_spec h rest v :
  0 <= v < 2 ^ 32 -> set_mapfree (h :: rest) v = Ok (Mapent v (m_addr h) :: rest).
Proof.
  intros Hv. unfold set_mapfree. change (h :: rest) with ([] ++ h :: rest).
  krd (@nil mapent). rewrite (wr_mid (@nil mapent)) by done. by rewrite wrapu_small.
Qed.

Lemma mapfree_spec h rest : mapfree (h :: rest) = m_size h.
Proof. done. Qed.
#[export] Hint Rewrite mapfree_spec : rmap.

Ltac units :=
  let u := fresh "u" in
  intros u; autorewrite with rmap; unfold covers; cbn [m_addr m_size]; intuition lia.

(** A block that abuts or overlaps the last segment [l] on its left, nothing beyond. *)
Lemma pass_left_end s h a l t tl size addr bp :
  slots s = h :: a ++ l :: t :: tl -> m_size t = 0 ->
  bp = S (S (length a)) -> locate (length (slots s)) (slots s) addr 1 = Ok bp ->
  addr <= m_addr l + m_size l ->
  rmfree_pass s size addr =
    if addr <? m_addr l + m_size l then Panic "bad rmfree"
    else Ok (inl (Rmap (Mapent (m_size h) 0 :: a ++ Mapent (m_size l + size) (m_addr l) :: t :: tl)
                       (rlog s ++ woken (m_addr h)))).
Proof.
  intros Es Ht -> Hloc Hle. unfold rmfree_pass. rewrite Hloc. kstep.
  rewrite Es. krd_at (h :: a ++ [l]) t tl. krd_at (h :: a) l (t :: tl).
  rewrite (proj2 (Z.leb_le _ _) Hle). simpl andb. cbn match.
  destruct (addr <? _); [done|].
  kwr_at (h :: a) l (t :: tl).
  rewrite Ht. cbn match. simpl app. by rewrite rmfree_done_spec.
Qed.

(** The same with a segment [r] beyond. *)
Lemma pass_left_mid s h a l r b t tl size addr bp :
  slots s = h :: a ++ l :: r :: b ++ t :: tl -> m_size t = 0 -> sized r -> Forall sized b ->
  m_size h = Z.of_nat (length tl) -> Z.of_nat (length (slots s)) <= 2 ^ 31 ->
  bp = S (S (length a)) -> locate (length (slots s)) (slots s) addr 1 = Ok bp ->
  addr <= m_addr l + m_size l ->
  rmfree_pass s size addr =
    if addr <? m_addr l + m_size l then Panic "bad rmfree"
    else if m_addr r <=? addr + size then
      if m_addr r <? addr + size then Panic "bad rmfree"
      else Ok (inl (Rmap (Mapent (m_size h + 1) 0
                          :: a ++ Mapent (m_size l + size + m_size r) (m_addr l)
                          :: b ++ t :: t :: tl)
                       (rlog s ++ woken (m_addr h))))
    else Ok (inl (Rmap (Mapent (m_size h) 0
                        :: a ++ Mapent (m_size l + size) (m_addr l) :: r :: b ++ t :: tl)
                       (rlog s ++ woken (m_addr h)))).
Proof.
  intros Es Ht Hr Hb Hh Hlen -> Hloc Hle. unfold rmfree_pass. rewrite Hloc. kstep.
  rewrite Es in Hlen |- *. simpl in Hlen. rewrite !length_app in Hlen. simpl in Hlen.
  rewrite length_app in Hlen. simpl in Hlen.
  krd_at (h :: a ++ [l]) r (b ++ t :: tl). krd_at (h :: a) l (r :: b ++ t :: tl).
  rewrite (proj2 (Z.leb_le _ _) Hle). simpl andb. cbn match.
  destruct (addr <? _); [done|].
  kwr_at (h :: a) l (r :: b ++ t :: tl).
  rewrite (proj2 (Z.eqb_neq _ _) Hr). simpl andb.
  destruct (m_addr r <=? addr + size); simpl app; [|by rewrite rmfree_done_spec].
  destruct (m_addr r <? addr + size); [done|].
  kwr_at (h :: a) (Mapent (m_size l + size) (m_addr l)) (r :: b ++ t :: tl).
  set (x := Mapent (m_size l + size + m_size r) (m_addr l)).
  pose proof (shift_while_spec b (h :: a ++ [x]) r t tl
                (length (h :: a ++ l :: r :: b ++ t :: tl)) Hr Hb Ht) as Hsh.
  replace (length (h :: a ++ [x])) with (S (S (length a))) in Hsh by klen.
  replace ((h :: a ++ [x]) ++ r :: b ++ t :: tl)
    with ((h :: a) ++ x :: r :: b ++ t :: tl) in Hsh by reshape.
  rewrite Hsh by klen. kstep. simpl app.
  rewrite mapfree_spec, set_mapfree_spec by lia. kstep.
  rewrite rmfree_done_spec. simpl. by rewrite <- app_assoc.
Qed.

(** The left test fails. *)
Definition not_left (a : list mapent) (addr : Z) : Prop :=
  forall a0 l, a = a0 ++ [l] -> m_addr l + m_size l < addr.

Lemma left_test h a rest addr :
  not_left a addr ->
  exists l, rd (h :: a ++ rest) (S (length a) - 1) = Ok l
    /\ (1 <? S (length a))%nat && (addr <=? m_addr l + m_size l) = false.
Proof.
  intros Hn. destruct (exists_last' a) as [->|(a0&l&->)].
  - by exists h.
  - exists l. split.
    + apply (rd_at _ (h :: a0) rest); [reshape|klen].
    + rewrite (proj2 (Z.leb_gt _ _)); [by rewrite andb_false_r|eauto].
Qed.

(** A block that does not touch the left neighbour; [r] is beyond. *)
Lemma pass_right s h a r rest size addr :
  slots s = h :: a ++ r :: rest -> sized r -> not_left a addr ->
  locate (length (slots s)) (slots s) addr 1 = Ok (S (length a)) ->
  m_addr r <= addr + size ->
  rmfree_pass s size addr =
    if m_addr r <? addr + size then Panic "bad rmfree"
    else Ok (inl (Rmap (Mapent (m_size h) 0
                        :: a ++ Mapent (m_size r + size) (m_addr r - size) :: rest)
                       (rlog s ++ woken (m_addr h)))).
Proof.
  intros Es Hr Hn Hloc Hle. unfold rmfree_pass. rewrite Hloc. kstep.
  destruct (left_test h a (r :: rest) addr Hn) as (l&Hl&Hlt).
  rewrite Es. krd_at (h :: a) r rest. rewrite Hl. kstep. rewrite Hlt.
  rewrite (proj2 (Z.leb_le _ _) Hle), (proj2 (Z.eqb_neq _ _) Hr). simpl andb. cbn match.
  destruct (m_addr r <? addr + size); [done|].
  kwr_at (h :: a) r rest. simpl app. by rewrite rmfree_done_spec.
Qed.

(** A block that touches nothing. *)
Lemma pass_none s h a b t tl size addr :
  slots s = h :: a ++ b ++ t :: tl -> m_size t = 0 -> Forall sized b -> not_left a addr ->
  m_size h = Z.of_nat (length tl) -> Z.of_nat (length (slots s)) <= 2 ^ 31 ->
  locate (length (slots s)) (slots s) addr 1 = Ok (S (length a)) ->
  (forall e, head b = Some e -> addr + size < m_addr e) ->
  rmfree_pass s size addr =
    if m_size h =? 0 then inr <$> rmfree_ovflo (slots s) (rlog s) (S (length a))
    else Ok (inl (Rmap (Mapent (m_size h - 1) 0 :: a ++ Mapent size addr :: b ++ tl)
                       (rlog s ++ woken (m_addr h)))).
Proof.
  intros Es Ht Hb Hn Hh Hlen Hloc Hgt. unfold rmfree_pass. rewrite Hloc. kstep.
  destruct (left_test h a (b ++ t :: tl) addr Hn) as (l&Hl&Hlt).
  rewrite Es in Hlen |- *. simpl in Hlen. rewrite !length_app in Hlen. simpl in Hlen.
  assert (exists e post, b ++ t :: tl = e :: post
            /\ (m_addr e <=? addr + size) && negb (m_size e =? 0) = false)
    as (e&post&Ee&Htest).
  { destruct b as [|e b].
    - exists t, tl. rewrite Ht. by rewrite andb_false_r.
    - exists e, (b ++ t :: tl). by rewrite (proj2 (Z.leb_gt _ _)) by auto. }
  rewrite Ee. krd_at (h :: a) e post. rewrite Ee in Hl. rewrite Hl. kstep.
  rewrite Hlt, Htest, mapfree_spec, <- Ee.
  destruct (m_size h =? 0) eqn:E0; [done|].
  rewrite (push_up_spec b (h :: a) t tl); auto; [|klen]. kstep. simpl app.
  rewrite mapfree_spec, set_mapfree_spec by lia. kstep.
  by rewrite rmfree_done_spec.
Qed.

(** One pass finished: the block is back and the sleepers are awake. *)
Definition finished (s : rmap) (segs : list mapent) (size addr : Z) (s' : rmap) : Prop :=
  exists segs', rmap_wf s' segs' /\ returned segs segs' size addr
    /\ rlog s' = rlog s ++ woken (mapwant (slots s)) /\ mapwant (slots s') = 0
    /\ length (slots s') = length (slots s).

(** The block abuts a free segment. *)
Definition abuts (segs : list mapent) (size addr : Z) : Prop :=
  seg_free segs (addr - 1) \/ seg_free segs (addr + size).

Ltac wfsplit := repeat (rewrite ?seg_wf_app, ?seg_end_app in *; cbn [seg_wf seg_end m_addr m_size] in * ).

Lemma mapwant_spec h rest : mapwant (h :: rest) = m_addr h.
Proof. done. Qed.

Lemma finished_intro s segs size addr h h' segs' t tl t' tl' log :
  slots s = h :: segs ++ t :: tl -> m_size t' = 0 -> Forall (fun e => m_size e = 0) tl' ->
  h' = Mapent (Z.of_nat (length tl')) 0 ->
  length (segs' ++ t' :: tl') = length (segs ++ t :: tl) ->
  Z.of_nat (length (slots s)) <= 2 ^ 31 -> log = rlog s ++ woken (m_addr h) ->
  seg_wf 0 segs' -> returned segs segs' size addr ->
  finished s segs size addr (Rmap (h' :: segs' ++ t' :: tl') log).
Proof.
  intros Es Ht' Htl' -> Hlen Hb -> Hwf Hret. exists segs'.
  unfold rmap_wf. cbn [slots rlog]. rewrite Es in *. cbn [length] in *. rewrite mapwant_spec.
  repeat split; auto; try (cbn [length]; congruence).
  1: apply rep_intro; auto; cbn [length]; congruence.
  all: apply Hret.
Qed.

Lemma overlaps_bounds segs size addr lo :
  seg_wf lo segs -> seg_end lo segs <= addr -> ~ overlaps segs size addr.
Proof. intros Hwf Hle (u&Hu&Hf). eapply seg_free_bounds in Hf; eauto. lia. Qed.

Lemma overlaps_app a b size addr :
  overlaps (a ++ b) size addr <-> overlaps a size addr \/ overlaps b size addr.
Proof.
  unfold overlaps. setoid_rewrite seg_free_app. split.
  - intros (u&Hu&[?|?]); eauto 6.
  - intros [(u&?&?)|(u&?&?)]; eauto 6.
Qed.

Lemma overlaps_above b size addr lo :
  seg_wf lo b -> addr + size <= lo + 1 -> ~ overlaps b size addr.
Proof. intros Hwf Hle (u&Hu&Hf). eapply seg_free_bounds in Hf; eauto. lia. Qed.

Lemma pass_cases_left s segs size addr h a l b t tl :
  segs = (a ++ [l]) ++ b -> slots s = h :: segs ++ t :: tl ->
  m_size t = 0 -> Forall (fun e => m_size e = 0) tl -> m_size h = Z.of_nat (length tl) ->
  Z.of_nat (length (slots s)) <= 2 ^ 31 -> seg_wf 0 segs -> 0 < size ->
  m_addr l <= addr -> (forall e, head b = Some e -> addr < m_addr e) ->
  locate (length (slots s)) (slots s) addr 1 = Ok (S (length (a ++ [l]))) ->
  addr <= m_addr l + m_size l ->
  (overlaps segs size addr /\ rmfree_pass s size addr = Panic "bad rmfree") \/
  (~ overlaps segs size addr /\
   exists s', rmfree_pass s size addr = Ok (inl s') /\ finished s segs size addr s').
Proof.
  intros -> Es Ht Htl Hh Hlen Hwf Hs Ha Hb Hloc Hle.
  assert (slots s = h :: a ++ l :: b ++ t :: tl) as Es' by (rewrite Es; reshape).
  rewrite length_app, Nat.add_1_r in Hloc.
  assert (addr < m_addr l + m_size l -> overlaps ((a ++ [l]) ++ b) size addr) as Hov.
  { intros. exists addr. split; [lia|]. autorewrite with rmap. unfold covers. lia. }
  assert (m_addr l + m_size l <= addr -> ~ overlaps (a ++ [l]) size addr) as Hnov.
  { intros. wfsplit. eapply (overlaps_bounds _ _ _ 0); wfsplit; [tauto|lia]. }
  destruct b as [|r b].
  - rewrite (pass_left_end _ _ _ _ _ _ _ _ _ Es' Ht eq_refl Hloc Hle).
    destruct (Z.ltb_spec addr (m_addr l + m_size l)); [left; auto|right].
    rewrite app_nil_r in *. split; [auto|]. eexists. split; [done|].
    replace (a ++ Mapent (m_size l + size) (m_addr l) :: t :: tl)
      with ((a ++ [Mapent (m_size l + size) (m_addr l)]) ++ t :: tl) by reshape.
    eapply (finished_intro _ _ _ _ _ _ _ _ _ _ _ _ Es); auto; [by rewrite Hh|klen| |units].
    wfsplit. intuition lia.
  - specialize (Hb r eq_refl).
    assert (sized r /\ Forall sized b) as [Hr Hbs].
    { wfsplit. split; [unfold sized; lia|eapply seg_wf_sized; apply Hwf]. }
    rewrite (pass_left_mid _ _ _ _ _ _ _ _ _ _ _ Es' Ht Hr Hbs Hh Hlen eq_refl Hloc Hle).
    destruct (Z.ltb_spec addr (m_addr l + m_size l)); [left; auto|].
    destruct (Z.leb_spec (m_addr r) (addr + size)).
    + destruct (Z.ltb_spec (m_addr r) (addr + size)) as [Hlt|Hge].
      { left. split; [|done]. exists (m_addr r). split; [lia|].
        autorewrite with rmap. unfold covers. wfsplit. lia. }
      right. split.
      { rewrite overlaps_app. wfsplit. intros [?|Ho]; [by apply Hnov|].
        revert Ho. eapply (overlaps_above _ _ _ (m_addr r - 1)); [|lia]. simpl. intuition lia. }
      eexists. split; [done|].
      replace (a ++ Mapent (m_size l + size + m_size r) (m_addr l) :: b ++ t :: t :: tl)
        with ((a ++ Mapent (m_size l + size + m_size r) (m_addr l) :: b) ++ t :: t :: tl)
        by reshape.
      eapply (finished_intro _ _ _ _ _ _ _ _ _ _ _ _ Es); auto; [f_equal; simpl; lia|klen| |].
      * wfsplit. replace (m_addr l + (m_size l + size + m_size r))
          with (m_addr r + m_size r) by lia. intuition lia.
      * wfsplit. units.
    + right. split.
      { rewrite overlaps_app. wfsplit. intros [?|Ho]; [by apply Hnov|].
        revert Ho. eapply (overlaps_above _ _ _ (m_addr r - 1)); [|lia]. simpl. intuition lia. }
      eexists. split; [done|].
      replace (a ++ Mapent (m_size l + size) (m_addr l) :: r :: b ++ t :: tl)
        with ((a ++ Mapent (m_size l + size) (m_addr l) :: r :: b) ++ t :: tl) by reshape.
      eapply (finished_intro _ _ _ _ _ _ _ _ _ _ _ _ Es); auto; [by rewrite Hh|klen| |wfsplit; units].
      wfsplit. intuition lia.
Qed.

Lemma not_left_below a size addr :
  seg_wf 0 a -> not_left a addr -> 0 < addr ->
  ~ overlaps a size addr /\ seg_end 0 a < addr.
Proof.
  intros Hwf Hn Ha. assert (seg_end 0 a < addr) as He.
  { destruct (exists_last' a) as [->|(a0&l&->)]; [done|].
    rewrite seg_end_app. simpl. eauto. }
  split; [|done]. eapply overlaps_bounds; eauto. lia.
Qed.

Lemma pass_cases_right s segs size addr h a r b t tl :
  segs = a ++ r :: b -> slots s = h :: segs ++ t :: tl ->
  m_size t = 0 -> Forall (fun e => m_size e = 0) tl -> m_size h = Z.of_nat (length tl) ->
  Z.of_nat (length (slots s)) <= 2 ^ 31 -> seg_wf 0 segs -> 0 < size -> 0 < addr ->
  not_left a addr -> addr < m_addr r ->
  locate (length (slots s)) (slots s) addr 1 = Ok (S (length a)) ->
  m_addr r <= addr + size ->
  (overlaps segs size addr /\ rmfree_pass s size addr = Panic "bad rmfree") \/
  (~ overlaps segs size addr /\
   exists s', rmfree_pass s size addr = Ok (inl s') /\ finished s segs size addr s').
Proof.
  intros -> Es Ht Htl Hh Hlen Hwf Hs Ha Hn Hb Hloc Hle.
  assert (slots s = h :: a ++ r :: b ++ t :: tl) as Es' by (rewrite Es; reshape).
  wfsplit. destruct Hwf as (Hwa&Hr1&Hr2&Hwb).
  destruct (not_left_below a size addr Hwa Hn Ha) as [Hna Hend].
  rewrite (pass_right _ _ _ _ _ _ _ Es' ltac:(unfold sized; lia) Hn Hloc Hle).
  destruct (Z.ltb_spec (m_addr r) (addr + size)).
  - left. split; [|done]. exists (m_addr r). split; [lia|].
    autorewrite with rmap. unfold covers. lia.
  - right. split.
    { rewrite overlaps_app. intros [?|Ho]; [by apply Hna|].
      revert Ho. eapply (overlaps_above _ _ _ (m_addr r - 1)); [|lia]. simpl. intuition lia. }
    eexists. split; [done|].
    replace (a ++ Mapent (m_size r + size) (m_addr r - size) :: b ++ t :: tl)
      with ((a ++ Mapent (m_size r + size) (m_addr r - size) :: b) ++ t :: tl) by reshape.
    eapply (finished_intro _ _ _ _ _ _ _ _ _ _ _ _ Es); auto; [by rewrite Hh|klen| |units].
    wfsplit. replace (m_addr r - size + (m_size r + size)) with (m_addr r + m_size r) by lia.
    intuition lia.
Qed.

Lemma pass_cases_none s segs size addr h a b t tl :
  segs = a ++ b -> slots s = h :: segs ++ t :: tl ->
  m_size t = 0 -> Forall (fun e => m_size e = 0) tl -> m_size h = Z.of_nat (length tl) ->
  Z.of_nat (length (slots s)) <= 2 ^ 31 -> seg_wf 0 segs -> 0 < size -> 0 < addr ->
  not_left a addr -> (forall e, head b = Some e -> addr + size < m_addr e) ->
  locate (length (slots s)) (slots s) addr 1 = Ok (S (length a)) ->
  ~ overlaps segs size addr /\ ~ abuts segs size addr /\
  (if m_size h =? 0
   then rmfree_pass s size addr
        = inr <$> rmfree_ovflo (slots s) (rlog s) (S (length a))
   else exists s', rmfree_pass s size addr = Ok (inl s') /\ finished s segs size addr s').
Proof.
  intros -> Es Ht Htl Hh Hlen Hwf Hs Ha Hn Hb Hloc.
  assert (slots s = h :: a ++ b ++ t :: tl) as Es' by (rewrite Es; reshape).
  wfsplit. destruct Hwf as (Hwa&Hwb).
  destruct (not_left_below a size addr Hwa Hn Ha) as [Hna Hend].
  assert (seg_wf (addr + size) b) as Hwb'.
  { destruct b as [|e b]; [done|]. specialize (Hb e eq_refl). simpl in *. intuition. }
  split; [|split].
  - rewrite overlaps_app. intros [?|Ho]; [by apply Hna|].
    revert Ho. eapply overlaps_above; [eauto|lia].
  - intros Hab. unfold abuts in Hab. rewrite !seg_free_app in Hab.
    destruct Hab as [[H|H]|[H|H]]; (eapply seg_free_bounds in H; [|eauto]); lia.
  - rewrite (pass_none _ _ _ _ _ _ _ _ Es' Ht (seg_wf_sized _ _ Hwb) Hn Hh Hlen Hloc Hb).
    destruct (Z.eqb_spec (m_size h) 0); [done|]. eexists. split; [done|].
    destruct tl as [|t2 tl]; [simpl in Hh; lia|]. inversion Htl; subst.
    replace (a ++ Mapent size addr :: b ++ t2 :: tl)
      with ((a ++ Mapent size addr :: b) ++ t2 :: tl) by reshape.
    eapply (finished_intro _ _ _ _ _ _ _ _ _ _ _ _ Es); auto; [|klen| |units].
    + f_equal. rewrite Hh. simpl. lia.
    + wfsplit. intuition lia.
Qed.

Lemma locate_rep s segs addr :
  rmap_wf s segs -> 0 < addr ->
  exists a b, segs = a ++ b /\ Forall (fun e => m_addr e <= addr) a
    /\ (forall e, head b = Some e -> addr < m_addr e)
    /\ locate (length (slots s)) (slots s) addr 1 = Ok (S (length a)).
Proof.
  intros [Hrep Hwf] Ha. destruct (rep_inv _ _ Hrep) as (h&t&tl&Es&Ht&_).
  rewrite Es. apply (locate_spec addr segs [h] (t :: tl)); eauto using seg_wf_sized.
  klen.
Qed.

(** What one pass of rmfree does, completely. *)
Lemma rmfree_pass_cases s segs size addr :
  rmap_wf s segs -> 0 < addr -> 0 < size ->
  (overlaps segs size addr /\ rmfree_pass s size addr = Panic "bad rmfree") \/
  (~ overlaps segs size addr /\ (abuts segs size addr \/ mapfree (slots s) <> 0) /\
   exists s', rmfree_pass s size addr = Ok (inl s') /\ finished s segs size addr s') \/
  (~ overlaps segs size addr /\ ~ abuts segs size addr /\ mapfree (slots s) = 0 /\
   exists a b, segs = a ++ b /\ rmfree_pass s size addr
     = inr <$> rmfree_ovflo (slots s) (rlog s) (S (length a))).
Proof.
  intros Hw Ha Hs. destruct (locate_rep _ _ addr Hw Ha) as (a&b&Esegs&Hpre&Hb&Hloc).
  destruct Hw as [Hrep Hwf]. destruct (rep_inv _ _ Hrep) as (h&t&tl&Es&Ht&Htl&Hh&Hlen).
  assert (mapfree (slots s) = m_size h) as Hmf by (by rewrite Es).
  assert (not_left a addr \/ exists a0 l, a = a0 ++ [l] /\ addr <= m_addr l + m_size l)
    as [Hn|(a0&l&->&Hle)].
  { destruct (exists_last' a) as [->|(a0&l&->)]; [by left; intros [|] ?|].
    destruct (Z.le_gt_cases addr (m_addr l + m_size l)); [right; eauto|left].
    intros a1 l1 [-> ->]%app_inj_tail. lia. }
  - destruct b as [|r b'] eqn:Eb; [|destruct (Z.le_gt_cases (m_addr r) (addr + size))].
    2: { destruct (pass_cases_right s segs size addr h a r b' t tl)
           as [?|(Hno&Hfin)]; auto.
         specialize (Hb r eq_refl).
         right; left. repeat split; auto. left. right. subst segs. wfsplit.
         destruct (Z.eq_dec (m_addr r) (addr + size)) as [<-|];
           [autorewrite with rmap; unfold covers; lia|].
         destruct Hno. exists (m_addr r). autorewrite with rmap. unfold covers. lia. }
    all: destruct (pass_cases_none s segs size addr h a b t tl) as (Hno&Hna&Hr);
      rewrite ?Eb in *; auto; try (intros ? [= <-]; lia);
      destruct (Z.eqb_spec (m_size h) 0); right; [right; repeat split; eauto; lia|left];
      repeat split; auto; lia.
  - rewrite Forall_app, Forall_singleton in Hpre.
    destruct (pass_cases_left s segs size addr h a0 l b t tl) as [?|(Hno&Hfin)];
      auto; try tauto.
    right; left. repeat split; auto. left. left. subst segs. wfsplit.
    destruct (Z.eq_dec (m_addr l + m_size l) addr) as [<-|];
      [autorewrite with rmap; unfold covers; lia|].
    destruct Hno. exists addr. autorewrite with rmap. unfold covers. lia.
Qed.

(** ** Overflow *)

Lemma list_last_two {A} (l : list A) :
  (2 <= length l)%nat -> exists c p b, l = c ++ [p; b].
Proof.
  intros H. destruct (exists_last' l) as [->|(l0&b&->)]; [simpl in H; lia|].
  destruct (exists_last' l0) as [->|(c&p&->)]; [simpl in H; lia|].
  exists c, p, b. by rewrite <- app_assoc.
Qed.

(** The smaller of the last two segments, and what is left without it. *)
Definition discard (c : list mapent) (p b : mapent) : list mapent * mapent :=
  if m_size p <? m_size b then (c ++ [b], p) else (c ++ [p], b).

Definition lost_event (e : mapent) : rmevent := RmLost (m_addr e) (m_addr e + m_size e).

Lemma find_end_rep m segs h t tl a b :
  m = h :: segs ++ t :: tl -> segs = a ++ b -> Forall sized segs -> m_size t = 0 ->
  find_end (length m) m (S (length a)) = Ok (S (length segs)).
Proof.
  intros -> -> Hs Ht. apply Forall_app in Hs as [Ha Hb].
  replace (h :: (a ++ b) ++ t :: tl) with ((h :: a) ++ b ++ t :: tl) by reshape.
  replace (S (length a)) with (length (h :: a)) by done.
  rewrite find_end_spec; eauto; klen || (f_equal; klen).
Qed.

Lemma ovflo_spec s segs c p b a a' :
  rmap_wf s segs -> mapfree (slots s) = 0 -> segs = c ++ [p; b] -> segs = a ++ a' ->
  exists s', rmfree_ovflo (slots s) (rlog s) (S (length a)) = Ok s'
    /\ rmap_wf s' (discard c p b).1 /\ mapfree (slots s') = 1
    /\ mapwant (slots s') = mapwant (slots s) /\ length (slots s') = length (slots s)
    /\ rlog s' = rlog s ++ [lost_event (discard c p b).2].
Proof.
  intros [Hrep Hwf] Hmf Ec Ea. destruct (rep_inv _ _ Hrep) as (h&t&tl&Es&Ht&Htl&Hh&Hlen).
  rewrite Es, mapfree_spec in Hmf. destruct tl; [|simpl in Hh; lia].
  unfold rmfree_ovflo. rewrite (find_end_rep _ segs h t [] a a') by eauto using seg_wf_sized.
  kstep. rewrite Es in *. subst segs.
  rewrite length_app. simpl length. rewrite Nat.add_comm. cbn [Nat.eqb Nat.sub Nat.add].
  krd_at (h :: c ++ [p]) b [t]. rewrite ?Nat.sub_0_r. krd_at (h :: c) p [b; t].
  unfold discard. wfsplit.
  destruct (m_size p <? m_size b).
  - rewrite ?Nat.sub_0_r. krd_at (h :: c) p [b; t]. krd_at (h :: c ++ [p]) b [t].
    kwr_at (h :: c) p [b; t]. kwr_at (h :: c ++ [b]) b [t].
    cbn [app]. rewrite mapfree_spec, set_mapfree_spec by lia. kstep.
    eexists. split; [done|]. unfold rmap_wf. cbn [slots rlog fst snd]. rewrite Hmf.
    split_and!; auto; [|wfsplit; intuition lia|klen].
    apply rep_intro; auto.
    revert Hlen. cbn [length]. rewrite ?length_app. simpl. lia.
  - krd_at (h :: c ++ [p]) b [t]. krd_at (h :: c ++ [p; b]) t (@nil mapent).
    kwr_at (h :: c ++ [p]) b [t]. kwr_at (h :: c ++ [p; t]) t (@nil mapent).
    cbn [app]. rewrite mapfree_spec, set_mapfree_spec by lia. kstep.
    eexists. split; [done|]. unfold rmap_wf. cbn [slots rlog fst snd]. rewrite Hmf.
    split_and!; auto; [|wfsplit; intuition lia|klen].
    replace ((c ++ [p; t]) ++ [Mapent 0 (m_addr t)])
      with ((c ++ [p]) ++ t :: [Mapent 0 (m_addr t)]) by reshape.
    apply rep_intro; auto.
    revert Hlen. cbn [length]. rewrite ?length_app. simpl. lia.
Qed.

Lemma discard_free c p b u :
  seg_free (c ++ [p; b]) u <-> seg_free (discard c p b).1 u \/ covers (discard c p b).2 u.
Proof.
  unfold discard. destruct (m_size p <? m_size b); simpl; autorewrite with rmap; tauto.
Qed.

(** Complete description of rmfree on a map of at least two segment slots. *)
Lemma rmfree_cases s segs size addr :
  rmap_wf s segs -> 0 < addr -> 0 < size -> (4 <= length (slots s))%nat ->
  (overlaps segs size addr /\ rmfree s size addr = Panic "bad rmfree") \/
  (~ overlaps segs size addr /\ (abuts segs size addr \/ mapfree (slots s) <> 0) /\
   exists s', rmfree s size addr = Ok s' /\ finished s segs size addr s') \/
  (~ overlaps segs size addr /\ ~ abuts segs size addr /\ mapfree (slots s) = 0 /\
   exists c p b s1 s', segs = c ++ [p; b] /\ rmfree s size addr = Ok s'
     /\ rlog s1 = rlog s ++ [lost_event (discard c p b).2]
     /\ mapwant (slots s1) = mapwant (slots s) /\ length (slots s1) = length (slots s)
     /\ finished s1 (discard c p b).1 size addr s').
Proof.
  intros Hw Ha Hs Hlen4. unfold rmfree. replace ((addr <=? 0) || (size <=? 0)) with false by lia.
  cbn [rmfree_retry].
  destruct (rmfree_pass_cases s segs size addr Hw Ha Hs)
    as [[? ->]|[(?&?&s'&->&?)|(Hno&Hna&Hmf&a&a'&Ea&->)]]; [by left|right;left;eauto 6|].
  right; right. repeat split; auto.
  assert (2 <= length segs)%nat as Hl2.
  { destruct Hw as [Hrep _]. destruct (rep_inv _ _ Hrep) as (h&t&tl&Es&_&_&Hh&_).
    rewrite Es in *. rewrite mapfree_spec in Hmf. destruct tl; [|simpl in Hh; lia].
    revert Hlen4. klen. }
  destruct (list_last_two _ Hl2) as (c&p&b&Ec).
  destruct (ovflo_spec _ _ _ _ _ _ _ Hw Hmf Ec Ea) as (s1&->&Hw1&Hmf1&Hwant&Hl1&Hlog).
  kstep.
  assert (~ overlaps (discard c p b).1 size addr) as Hno1.
  { intros (u&?&?). apply Hno. exists u. split; auto. rewrite Ec. apply discard_free. auto. }
  destruct (rmfree_pass_cases s1 _ size addr Hw1 Ha Hs)
    as [[? ?]|[(?&?&s'&->&?)|(_&_&?&_)]]; [done| |lia].
  exists c, p, b, s1, s'. auto 8.
Qed.

(** ** rmalloc *)

(** What is left of a segment after taking [size] units from its front. *)
Definition remainder (e : mapent) (size : Z) : list mapent :=
  if m_size e - size =? 0 then [] else [Mapent (m_size e - size) (m_addr e + size)].

Lemma take_spec h a e b t tl size :
  m_size t = 0 -> Forall (fun e => m_size e = 0) tl -> m_size h = Z.of_nat (length tl) ->
  Z.of_nat (length (h :: a ++ e :: b ++ t :: tl)) <= 2 ^ 31 -> Forall sized b ->
  exists h' t' tl',
    rmalloc_take (h :: a ++ e :: b ++ t :: tl) (S (length a)) e size
      = Ok (h' :: (a ++ remainder e size ++ b) ++ t' :: tl')
    /\ rep (h' :: (a ++ remainder e size ++ b) ++ t' :: tl') (a ++ remainder e size ++ b)
    /\ m_addr h' = m_addr h
    /\ length (h' :: (a ++ remainder e size ++ b) ++ t' :: tl')
       = length (h :: a ++ e :: b ++ t :: tl).
Proof.
  intros Ht Htl Hh Hlen Hb. unfold rmalloc_take, remainder.
  kwr_at (h :: a) e (b ++ t :: tl).
  destruct (Z.eqb_spec (m_size e - size) 0) as [E|E].
  - rewrite (shift_do_spec b (h :: a)) by (auto; klen). kstep. cbn [app].
    revert Hlen. cbn [length]. rewrite !length_app. cbn [length]. rewrite length_app.
    cbn [length]. intros Hlen. rewrite mapfree_spec, set_mapfree_spec by lia.
    exists (Mapent (m_size h + 1) (m_addr h)), t, (t :: tl). rewrite <- app_assoc.
    split_and!; auto; [|klen]. rewrite app_assoc.
    apply rep_intro; auto; [simpl; lia|klen].
  - exists h, t, tl. set (x := Mapent (m_size e - size) (m_addr e + size)).
    split_and!; [by rewrite <- !app_assoc| |done|klen].
    apply rep_intro; auto. revert Hlen. klen.
Qed.

Lemma remainder_wf lo a e b size :
  seg_wf lo (a ++ e :: b) -> 0 < size <= m_size e ->
  seg_wf lo (a ++ remainder e size ++ b).
Proof.
  intros Hwf Hs. unfold remainder. destruct (Z.eqb_spec (m_size e - size) 0); cbn [app]; wfsplit.
  - split; [tauto|]. eapply seg_wf_mono; [|apply Hwf]. lia.
  - replace (m_addr e + size + (m_size e - size)) with (m_addr e + m_size e) by lia.
    intuition lia.
Qed.

Lemma remainder_free a e b size u :
  0 < size <= m_size e ->
  seg_free (a ++ e :: b) u <->
  seg_free (a ++ remainder e size ++ b) u \/ m_addr e <= u < m_addr e + size.
Proof.
  intros Hs. unfold remainder. destruct (Z.eqb_spec (m_size e - size) 0);
    autorewrite with rmap; unfold covers; cbn [m_addr m_size]; intuition lia.
Qed.

(** A segment rmalloc can allocate from. *)
Definition fits (cfg : swapcfg) (isswap : bool) (e : mapent) (size : Z) : Prop :=
  if swap_crosses cfg isswap e then size <= m_size e - swap_first cfg e /\ size <= m_size e
  else size <= m_size e.

Lemma rmalloc_loop_spec cfg isswap s size b : forall h a t tl fuel,
  slots s = h :: a ++ b ++ t :: tl -> m_size t = 0 -> Forall sized b ->
  (length b < fuel)%nat ->
  (Forall (fun e => ~ fits cfg isswap e size) b
   /\ rmalloc_loop fuel cfg isswap s (S (length a)) size = Ok (0, s)) \/
  exists c e d, b = c ++ e :: d /\ Forall (fun e => ~ fits cfg isswap e size) c
    /\ fits cfg isswap e size
    /\ rmalloc_loop fuel cfg isswap s (S (length a)) size =
       if swap_crosses cfg isswap e
       then rmalloc_swap s (S (length (a ++ c))) e (swap_first cfg e) size
       else rmalloc_here cfg isswap s (S (length (a ++ c))) e size.
Proof.
  induction b as [|e b IH]; intros h a t tl fuel Es Ht Hb Hf;
    (destruct fuel as [|fuel]; [simpl in Hf; lia|]); cbn [rmalloc_loop]; rewrite Es.
  - left. split; [constructor|]. krd_at (h :: a) t tl. by rewrite Ht.
  - inversion Hb as [|? ? He Hb']; subst. krd_at (h :: a) e (b ++ t :: tl).
    rewrite (proj2 (Z.eqb_neq _ _) He).
    assert (fits cfg isswap e size \/ ~ fits cfg isswap e size) as [Hfit|Hfit]
      by (unfold fits; destruct (swap_crosses _ _ _); lia).
    + right. exists [], e, b. rewrite app_nil_r. split_and!; auto.
      unfold fits in Hfit. destruct (swap_crosses _ _ _).
      * by rewrite (proj2 (Z.leb_le _ _)), (proj2 (Z.ltb_ge _ _)) by lia.
      * by rewrite (proj2 (Z.leb_le _ _)) by lia.
    + assert (slots s = h :: (a ++ [e]) ++ b ++ t :: tl) as Es' by (rewrite Es; reshape).
      destruct (IH h (a ++ [e]) t tl fuel Es' Ht Hb' ltac:(simpl in Hf; lia))
        as [[Hall Hl]|(c&x&d&->&Hc&Hx&Hl)]; rewrite length_app, Nat.add_1_r in Hl.
      * left. split; [by constructor|]. unfold fits in Hfit.
        destruct (Z.leb_spec size (m_size e)); [|done].
        destruct (swap_crosses _ _ _); [|lia]. by rewrite (proj2 (Z.ltb_lt _ _)) by lia.
      * right. exists (e :: c), x, d. rewrite <- app_assoc in Hl. split_and!; auto.
        unfold fits in Hfit. destruct (Z.leb_spec size (m_size e)); [|done].
        destruct (swap_crosses _ _ e); [|lia]. by rewrite (proj2 (Z.ltb_lt _ _)) by lia.
Qed.

(** [allocated]: the block was free and now is not. *)
Definition allocated (segs segs' : list mapent) (size addr : Z) : Prop :=
  forall u, seg_free segs u <->
    (seg_free segs' u \/ addr <= u < addr + size).

Lemma here_spec cfg isswap s a e b size :
  rmap_wf s (a ++ e :: b) -> 0 < size <= m_size e ->
  (isswap = true -> Z.rem (m_addr e) (clsize cfg) = 0) ->
  exists s', rmalloc_here cfg isswap s (S (length a)) e size = Ok (m_addr e, s')
    /\ rmap_wf s' (a ++ remainder e size ++ b) /\ rlog s' = rlog s
    /\ mapwant (slots s') = mapwant (slots s) /\ length (slots s') = length (slots s).
Proof.
  intros [Hrep Hwf] Hs Hcl. destruct (rep_inv _ _ Hrep) as (h&t&tl&Es&Ht&Htl&Hh&Hlen).
  rewrite <- app_assoc in Es. rewrite <- app_comm_cons in Es.
  pose proof (seg_wf_sized _ _ Hwf) as Hsz. apply Forall_app in Hsz as [_ Hsz].
  inversion Hsz; subst. rewrite Es in Hlen.
  destruct (take_spec h a e b t tl size) as (h'&t'&tl'&Ht'&Hrep'&Hw'&Hl'); auto.
  unfold rmalloc_here. rewrite Es, Ht'. kstep.
  eexists. split.
  - destruct isswap; [|done]. by rewrite Hcl.
  - unfold rmap_wf. cbn [slots rlog]. split_and!; auto using remainder_wf.
Qed.

Lemma fits_plain cfg e size : fits cfg false e size <-> size <= m_size e.
Proof. done. Qed.

Lemma rmalloc_plain_cases cfg s segs size :
  rmap_wf s segs -> 0 < size ->
  (Forall (fun e => m_size e < size) segs /\ rmalloc cfg false s size = Ok (0, s)) \/
  exists c e d s', segs = c ++ e :: d /\ Forall (fun e => m_size e < size) c
    /\ size <= m_size e /\ rmalloc cfg false s size = Ok (m_addr e, s')
    /\ rmap_wf s' (c ++ remainder e size ++ d)
    /\ rlog s' = rlog s /\ mapwant (slots s') = mapwant (slots s)
    /\ length (slots s') = length (slots s).
Proof.
  intros Hw Hs. unfold rmalloc. replace ((size <=? 0) || _) with false by (simpl; lia).
  pose proof Hw as [Hrep Hwf]. destruct (rep_inv _ _ Hrep) as (h&t&tl&Es&Ht&_).
  destruct (rmalloc_loop_spec cfg false s size segs h [] t tl (length (slots s)))
    as [[Hall Hl]|(c&e&d&->&Hc&He&Hl)]; eauto using seg_wf_sized.
  { rewrite Es. klen. }
  - left. split; [|done]. eapply Forall_impl; [exact Hall|].
    intros e He. change (~ size <= m_size e) in He. lia.
  - right. rewrite fits_plain in He.
    destruct (here_spec cfg false s c e d size) as (s'&Hs'&?&?&?&?); auto; [lia|].
    exists c, e, d, s'. split_and!; auto.
    + eapply Forall_impl; [exact Hc|]. intros x Hx. change (~ size <= m_size x) in Hx. lia.
    + cbn [length] in Hl. by rewrite Hl.
Qed.

Lemma rep_mapfree m segs :
  rep m segs -> mapfree m = Z.of_nat (length m) - 2 - Z.of_nat (length segs).
Proof.
  intros Hrep. destruct (rep_inv _ _ Hrep) as (h&t&tl&->&_&_&Hh&_).
  rewrite mapfree_spec, Hh. cbn [length]. rewrite length_app. simpl. lia.
Qed.

(** rmfree where no segment has to be thrown away. *)
Lemma rmfree_ok s segs size addr :
  rmap_wf s segs -> 0 < addr -> 0 < size -> ~ overlaps segs size addr ->
  abuts segs size addr \/ mapfree (slots s) <> 0 ->
  exists s', rmfree s size addr = Ok s' /\ finished s segs size addr s'.
Proof.
  intros Hw Ha Hs Hno Hroom. unfold rmfree.
  replace ((addr <=? 0) || (size <=? 0)) with false by lia. cbn [rmfree_retry].
  destruct (rmfree_pass_cases s segs size addr Hw Ha Hs)
    as [[? _]|[(_&_&s'&->&?)|(_&?&?&_)]]; [done|eauto|tauto].
Qed.

Lemma remainder_no_overlap lo c e d size :
  seg_wf lo (c ++ e :: d) -> 0 < size <= m_size e ->
  ~ overlaps (c ++ remainder e size ++ d) size (m_addr e).
Proof.
  intros Hwf Hs. wfsplit. rewrite !overlaps_app. unfold remainder.
  intros [(u&Hu&Hf)|[(u&Hu&Hf)|(u&Hu&Hf)]].
  - eapply seg_free_bounds in Hf; [|apply Hwf]. lia.
  - destruct (Z.eqb_spec (m_size e - size) 0); autorewrite with rmap in Hf; [done|].
    unfold covers in Hf. simpl in Hf. intuition lia.
  - eapply seg_free_bounds in Hf; [|apply Hwf]. lia.
Qed.

(** ** rmget *)

Lemma rmget_find_spec addr b : forall h a t tl fuel m,
  m = h :: a ++ b ++ t :: tl -> m_size t = 0 -> Forall sized b -> (length b < fuel)%nat ->
  (~ seg_free b addr /\ rmget_find fuel m addr (S (length a)) = Ok (S (length (a ++ b)))) \/
  exists c e d, b = c ++ e :: d /\ covers e addr
    /\ rmget_find fuel m addr (S (length a)) = Ok (S (length (a ++ c))).
Proof.
  induction b as [|e b IH]; intros h a t tl fuel m -> Ht Hb Hf;
    (destruct fuel as [|fuel]; [simpl in Hf; lia|]); cbn [rmget_find].
  - left. split; [by intros ?%seg_free_nil|]. krd_at (h :: a) t tl.
    rewrite Ht, app_nil_r. done.
  - inversion Hb as [|? ? He Hb']; subst. krd_at (h :: a) e (b ++ t :: tl).
    rewrite (proj2 (Z.eqb_neq _ _) He).
    destruct ((m_addr e <=? addr) && (addr <? m_addr e + m_size e)) eqn:Ec.
    + right. exists [], e, b. rewrite app_nil_r. split_and!; auto. unfold covers. lia.
    + destruct (IH h (a ++ [e]) t tl fuel _ eq_refl Ht Hb' ltac:(simpl in Hf; lia))
        as [[Hn Hl]|(c&x&d&->&Hx&Hl)].
      * left. split; [intros [Hc|?]%seg_free_cons; [unfold covers in Hc; lia|done]|].
        replace ((a ++ [e]) ++ b ++ t :: tl) with (a ++ (e :: b) ++ t :: tl) in Hl by reshape.
        rewrite (length_app a [e]), Nat.add_1_r in Hl. rewrite Hl. f_equal. klen.
      * right. exists (e :: c), x, d. split_and!; auto.
        replace ((a ++ [e]) ++ (c ++ x :: d) ++ t :: tl)
          with (a ++ (e :: c ++ x :: d) ++ t :: tl) in Hl by reshape.
        rewrite (length_app a [e]), Nat.add_1_r in Hl. rewrite Hl. f_equal. klen.
Qed.

(** The pieces of [e] around the block carved out of it. *)
Definition carve (e : mapent) (size addr : Z) : list mapent :=
  (if m_addr e =? addr then [] else [Mapent (addr - m_addr e) (m_addr e)]) ++
  (if m_addr e + m_size e =? addr + size then []
   else [Mapent (m_addr e + m_size e - (addr + size)) (addr + size)]).

Lemma carve_wf lo c e d size addr :
  seg_wf lo (c ++ e :: d) -> 0 < size -> covers e addr ->
  addr + size <= m_addr e + m_size e -> seg_wf lo (c ++ carve e size addr ++ d).
Proof.
  intros Hwf Hs He Hle. unfold carve, covers in *.
  destruct (Z.eqb_spec (m_addr e) addr), (Z.eqb_spec (m_addr e + m_size e) (addr + size));
    cbn [app]; wfsplit; split; try tauto.
  - eapply seg_wf_mono; [|apply Hwf]. lia.
  - replace (addr + size + (m_addr e + m_size e - (addr + size)))
      with (m_addr e + m_size e) by lia. intuition lia.
  - split_and!; try lia. eapply seg_wf_mono; [|apply Hwf]. lia.
  - replace (addr + size + (m_addr e + m_size e - (addr + size)))
      with (m_addr e + m_size e) by lia. intuition lia.
Qed.

Lemma carve_free c e d size addr u :
  0 < size -> covers e addr -> addr + size <= m_addr e + m_size e ->
  seg_free (c ++ e :: d) u <->
  seg_free (c ++ carve e size addr ++ d) u \/ addr <= u < addr + size.
Proof.
  intros Hs He Hle. unfold carve, covers in *.
  destruct (Z.eqb_spec (m_addr e) addr), (Z.eqb_spec (m_addr e + m_size e) (addr + size));
    autorewrite with rmap; unfold covers; cbn [m_addr m_size app]; intuition lia.
Qed.

(** The four ways rmget takes a block out of the segment it found. *)
Lemma rmget_take s c e d size addr :
  rmap_wf s (c ++ e :: d) -> 0 < size -> covers e addr ->
  addr + size <= m_addr e + m_size e ->
  rmget_find (length (slots s)) (slots s) addr 1 = Ok (S (length c)) ->
  (mapfree (slots s) = 0 /\ m_addr e <> addr /\ m_addr e + m_size e <> addr + size
   /\ rmget false s size addr = Ok (0, s)) \/
  exists s', rmget false s size addr = Ok (addr, s')
    /\ rep (slots s') (c ++ carve e size addr ++ d) /\ rlog s' = rlog s.
Proof.
  intros [Hrep Hwf] Hs He Hle Hfind. unfold covers in He.
  destruct (rep_inv _ _ Hrep) as (h&t&tl&Es&Ht&Htl&Hh&Hlen).
  pose proof (seg_wf_sized _ _ Hwf) as Hsz. pose proof Hsz as [_ Hsz']%Forall_app.
  inversion Hsz' as [|? ? Hse Hsd]; subst.
  unfold rmget. replace (size <=? 0) with false by lia. rewrite Hfind. kstep.
  rewrite Es in *. rewrite mapfree_spec.
  assert (length (h :: (c ++ e :: d) ++ t :: tl)
          = (3 + length c + length d + length tl)%nat) as El by klen.
  krd_at (h :: c) e (d ++ t :: tl). rewrite (proj2 (Z.eqb_neq _ _) Hse).
  replace (m_addr e + m_size e <? addr + size) with false by lia.
  unfold carve. destruct (Z.eqb_spec (m_addr e) addr) as [<-|Hne].
  - destruct (Z.eqb_spec (m_size e) size) as [<-|Hne2].
    + right. replace ((c ++ e :: d) ++ t :: tl) with (c ++ e :: d ++ t :: tl) by reshape.
      rewrite app_comm_cons.
      rewrite (shift_while_spec d (h :: c) e t tl _ Hse Hsd Ht) by klen. kstep. cbn [app].
      rewrite mapfree_spec, set_mapfree_spec by lia. kstep. rewrite Z.eqb_refl.
      eexists. split_and!; [done| |done]. cbn [slots app].
      replace (c ++ d ++ t :: t :: tl) with ((c ++ d) ++ t :: t :: tl) by reshape.
      apply rep_intro; auto; [simpl; lia|klen].
    + right. kwr_at (h :: c) e (d ++ t :: tl).
      replace (m_addr e + m_size e =? m_addr e + size) with false by lia.
      eexists. split_and!; [done| |done]. cbn [slots app].
      set (x := Mapent (m_size e - size) (m_addr e + size)).
      replace (m_addr e + m_size e - (m_addr e + size)) with (m_size e - size) by lia.
      replace (c ++ x :: d ++ t :: tl) with ((c ++ x :: d) ++ t :: tl) by reshape.
      apply rep_intro; auto. klen.
  - destruct (Z.eqb_spec (m_addr e + m_size e) (addr + size)) as [He2|Hne2].
    + right. kwr_at (h :: c) e (d ++ t :: tl).
      eexists. split_and!; [done| |done]. cbn [slots app].
      replace (m_size e - size) with (addr - m_addr e) by lia.
      set (x := Mapent (addr - m_addr e) (m_addr e)).
      replace (c ++ x :: d ++ t :: tl) with ((c ++ x :: d) ++ t :: tl) by reshape.
      apply rep_intro; auto. klen.
    + destruct (Z.eqb_spec (m_size h) 0) as [H0|H0]; [left; by auto|right].
      destruct tl as [|t2 tl]; [simpl in Hh; lia|]. inversion Htl as [|? ? Ht2 Htl']; subst.
      rewrite (find_end_rep _ (c ++ e :: d) h t (t2 :: tl) c (e :: d)) by auto. kstep.
      krd_at (h :: (c ++ e :: d) ++ [t]) t2 tl. kwr_at (h :: (c ++ e :: d) ++ [t]) t2 tl.
      replace (S (length (c ++ e :: d)) - 1 - S (length c))%nat with (length d) by klen.
      destruct (open_gap_spec d (h :: c) e t (Mapent 0 (m_addr t2) :: tl)) as [y Hy].
      replace ((h :: (c ++ e :: d) ++ [t]) ++ Mapent 0 (m_addr t2) :: tl)
        with ((h :: c) ++ e :: d ++ t :: Mapent 0 (m_addr t2) :: tl) by reshape.
      change (S (length c)) with (length (h :: c)). rewrite Hy. kstep. cbn [app].
      rewrite El in Hlen. cbn [length] in Hlen, Hh.
      rewrite mapfree_spec, set_mapfree_spec by lia. kstep.
      rewrite app_comm_cons. kwr1 (Mapent (m_size h - 1) (m_addr h) :: c).
      kwr (Mapent (m_size h - 1) (m_addr h) :: c).
      eexists. split_and!; [done| |done]. cbn [slots app].
      set (x1 := Mapent (addr - m_addr e) (m_addr e)).
      set (x2 := Mapent _ (addr + size)).
      replace (c ++ x1 :: x2 :: d ++ Mapent 0 (m_addr t2) :: tl)
        with ((c ++ x1 :: x2 :: d) ++ Mapent 0 (m_addr t2) :: tl) by reshape.
      apply rep_intro; auto; [simpl; lia|klen].
Qed.

(** A block of free units lies inside one segment. *)
Lemma block_inside lo c e d size addr :
  seg_wf lo (c ++ e :: d) -> covers e addr -> 
  (forall u, addr <= u < addr + size -> seg_free (c ++ e :: d) u) <->
  addr + size <= m_addr e + m_size e.
Proof.
  intros Hwf He. wfsplit. unfold covers in He. split.
  - intros Hall. destruct (Z.le_gt_cases (addr + size) (m_addr e + m_size e)); [done|].
    specialize (Hall (m_addr e + m_size e) ltac:(lia)).
    autorewrite with rmap in Hall. unfold covers in Hall.
    destruct Hall as [Hf|[Hf|Hf]]; [|lia|];
      (eapply seg_free_bounds in Hf; [|apply Hwf]); lia.
  - intros Hle u Hu. autorewrite with rmap. unfold covers. lia.
Qed.

(** ** Theorems *)

Lemma abuts_or_room s c e d size s' :
  rmap_wf s (c ++ e :: d) -> 0 < size <= m_size e ->
  rmap_wf s' (c ++ remainder e size ++ d) -> length (slots s') = length (slots s) ->
  abuts (c ++ remainder e size ++ d) size (m_addr e) \/ mapfree (slots s') <> 0.
Proof.
  intros [Hr Hwf] Hs [Hr' Hwf'] Hl. rewrite (rep_mapfree _ _ Hr'), Hl.
  destruct (rep_inv _ _ Hr) as (h&t&tl&Es&_). rewrite Es. unfold remainder.
  destruct (Z.eqb_spec (m_size e - size) 0).
  - right. rewrite app_nil_l. cbn [length]. rewrite !length_app. simpl. lia.
  - left. right. autorewrite with rmap. unfold covers. simpl. lia.
Qed.

Lemma rmap_wf_addr s c e d : rmap_wf s (c ++ e :: d) -> 0 < m_addr e /\ 0 < m_size e.
Proof. intros [_ Hwf]. wfsplit. pose proof (seg_end_le 0 c). intuition lia. Qed.

(** rmalloc is first fit.  On a well-formed map, for a positive request and a map
    other than the swap map, either every segment is too small, and rmalloc returns 0
    and leaves the map alone, or it returns the base of the first segment that is large
    enough; exactly the units of the returned block stop being free, the map stays well
    formed, and nobody is woken. *)
Theorem rmalloc_first_fit cfg s segs size :
  rmap_wf s segs -> 0 < size ->
  (Forall (fun e => m_size e < size) segs /\ rmalloc cfg false s size = Ok (0, s)) \/
  exists c e d s' segs', segs = c ++ e :: d /\ Forall (fun e => m_size e < size) c
    /\ size <= m_size e /\ rmalloc cfg false s size = Ok (m_addr e, s')
    /\ 0 < m_addr e /\ rmap_wf s' segs' /\ allocated segs segs' size (m_addr e)
    /\ ~ overlaps segs' size (m_addr e) /\ rlog s' = rlog s.
Proof.
  intros Hw Hs. destruct (rmalloc_plain_cases cfg s segs size Hw Hs)
    as [?|(c&e&d&s'&->&Hc&Hle&Hr&Hw'&Hlog&_)]; [by left|right].
  exists c, e, d, s', (c ++ remainder e size ++ d). split_and!; auto.
  - by eapply rmap_wf_addr.
  - intros u. apply remainder_free. lia.
  - destruct Hw as [_ Hwf]. eapply remainder_no_overlap; [exact Hwf|lia].
Qed.

(** rmfree gives back exactly the block.  When the block is disjoint from the free
    segments and either abuts one of them or a slot is free, rmfree returns; the free
    units are the old ones plus the block, the map is well formed (sorted, coalesced,
    terminated), and whoever waited for space is woken exactly once. *)
Theorem rmfree_returns_block s segs size addr :
  rmap_wf s segs -> 0 < addr -> 0 < size -> ~ overlaps segs size addr ->
  abuts segs size addr \/ mapfree (slots s) <> 0 ->
  exists s' segs', rmfree s size addr = Ok s' /\ rmap_wf s' segs'
    /\ returned segs segs' size addr /\ mapwant (slots s') = 0
    /\ rlog s' = rlog s ++ woken (mapwant (slots s)).
Proof.
  intros Hw Ha Hs Hno Hroom.
  destruct (rmfree_ok s segs size addr Hw Ha Hs Hno Hroom) as (s'&Hs'&segs'&?&?&?&?&?).
  exists s', segs'. auto.
Qed.

(** when every slot is used and the block touches no segment, rmfree throws away
    exactly the smaller of the last two segments (the last one on a tie), reports it,
    and then returns the block: no other unit is lost. *)
Theorem rmfree_overflow_loses_one s segs size addr :
  rmap_wf s segs -> 0 < addr -> 0 < size -> (4 <= length (slots s))%nat ->
  ~ overlaps segs size addr -> ~ abuts segs size addr -> mapfree (slots s) = 0 ->
  exists c p b lost s' segs', segs = c ++ [p; b]
    /\ lost = (if m_size p <? m_size b then p else b)
    /\ rmfree s size addr = Ok s' /\ rmap_wf s' segs'
    /\ (forall u, seg_free segs u \/ addr <= u < addr + size <->
                  seg_free segs' u \/ covers lost u)
    /\ rlog s' = rlog s ++ RmLost (m_addr lost) (m_addr lost + m_size lost)
                        :: woken (mapwant (slots s)).
Proof.
  intros Hw Ha Hs Hl Hno Hna Hmf.
  destruct (rmfree_cases s segs size addr Hw Ha Hs Hl)
    as [[? _]|[(_&Hroom&_)|(_&_&_&c&p&b&s1&s'&Ec&Hr&Hlog&Hw1&_&Hfin)]];
    [done|by destruct Hroom|].
  destruct Hfin as (segs'&?&Hret&Hlog'&_).
  exists c, p, b, (discard c p b).2, s', segs'. split_and!; auto.
  - unfold discard. by destruct (m_size p <? m_size b).
  - intros u. rewrite (Hret u), Ec, (discard_free c p b u). tauto.
  - rewrite Hlog', Hlog, Hw1, <- app_assoc. done.
Qed.

(** the "bad rmfree" panic is exactly the detection of a bad argument or of a block
    that is (partly) free already, for every map of at least two segment slots. *)
Theorem rmfree_panics_iff s segs size addr :
  rmap_wf s segs -> (4 <= length (slots s))%nat ->
  rmfree s size addr = Panic "bad rmfree" <->
  addr <= 0 \/ size <= 0 \/ overlaps segs size addr.
Proof.
  intros Hw Hl. destruct (Z.le_gt_cases addr 0) as [?|Ha]; [|destruct (Z.le_gt_cases size 0)].
  - unfold rmfree. replace ((addr <=? 0) || _) with true by lia. split; auto.
  - unfold rmfree. replace ((addr <=? 0) || _) with true by lia. split; auto.
  - destruct (rmfree_cases s segs size addr Hw Ha ltac:(lia) Hl)
      as [[? ->]|[(?&_&s'&->&_)|(?&_&_&c&p&b&s1&s'&_&->&_)]];
      (split; [intros Hp|intros [?|[?|?]]]; try done; try lia); auto.
Qed.

(** rmget hands out the requested block exactly when all of it is free and the map
    can describe what remains; otherwise it returns 0 and changes nothing. *)
Theorem rmget_spec s segs size addr :
  rmap_wf s segs -> 0 < size ->
  (exists s' segs', rmget false s size addr = Ok (addr, s') /\ rmap_wf s' segs'
     /\ allocated segs segs' size addr /\ ~ overlaps segs' size addr) \/
  (rmget false s size addr = Ok (0, s) /\
   ((exists u, addr <= u < addr + size /\ ~ seg_free segs u) \/ mapfree (slots s) = 0)).
Proof.
  intros Hw Hs. pose proof Hw as [Hrep Hwf].
  destruct (rep_inv _ _ Hrep) as (h&t&tl&Es&Ht&_).
  destruct (rmget_find_spec addr segs h [] t tl (length (slots s)) (slots s))
    as [[Hn Hf]|(c&e&d&->&He&Hf)]; eauto using seg_wf_sized; [rewrite Es; klen| |].
  - right. split; [|left; exists addr; split; [lia|done]].
    unfold rmget. replace (size <=? 0) with false by lia. cbn [length app] in Hf. rewrite Hf.
    kstep. rewrite Es. krd_at (h :: segs) t tl. by rewrite Ht.
  - cbn [length app] in Hf. destruct (Z.le_gt_cases (addr + size) (m_addr e + m_size e)).
    + destruct (rmget_take s c e d size addr) as [(?&_&_&?)|(s'&Hg&Hrep'&_)]; auto.
      left. exists s', (c ++ carve e size addr ++ d). split_and!; auto.
      * split; [done|]. by apply carve_wf.
      * intros u. by apply carve_free.
      * intros (u&Hu&Hfree). pose proof (carve_wf 0 c e d size addr Hwf Hs He H) as Hwf'.
        unfold carve, covers in *. autorewrite with rmap in Hfree. wfsplit.
        destruct Hfree as [Hx|[[Hx|Hx]|Hx]].
        -- eapply seg_free_bounds in Hx; [|apply Hwf]. lia.
        -- destruct (Z.eqb_spec (m_addr e) addr); autorewrite with rmap in Hx; [done|].
           unfold covers in Hx. simpl in Hx. intuition lia.
        -- destruct (Z.eqb_spec (m_addr e + m_size e) (addr + size));
             autorewrite with rmap in Hx; [done|]. unfold covers in Hx. simpl in Hx.
           intuition lia.
        -- eapply seg_free_bounds in Hx; [|apply Hwf]. lia.
    + right. split.
      * unfold rmget. replace (size <=? 0) with false by lia. rewrite Hf. kstep.
        rewrite Es. krd_at (h :: c) e (d ++ t :: tl).
        pose proof (seg_wf_sized _ _ Hwf) as [_ Hz]%Forall_app. inversion Hz; subst.
        rewrite (proj2 (Z.eqb_neq _ _)) by done.
        by replace (m_addr e + m_size e <? addr + size) with true by lia.
      * left. exists (m_addr e + m_size e). unfold covers in He. split; [lia|].
        intros Hall. autorewrite with rmap in Hall. unfold covers in Hall. wfsplit.
        destruct Hall as [Hx|[Hx|Hx]]; [|lia|];
          (eapply seg_free_bounds in Hx; [|apply Hwf]); lia.
Qed.

(** ** The swap map *)

(** Shrinking a segment in place to its first [k] units. *)
Lemma shrink_wf s c e d k :
  rmap_wf s (c ++ e :: d) -> 0 < k <= m_size e ->
  exists m, wr (slots s) (S (length c)) (Mapent k (m_addr e)) = Ok m
    /\ rmap_wf (Rmap m (rlog s)) (c ++ Mapent k (m_addr e) :: d)
    /\ mapfree m = mapfree (slots s) /\ length m = length (slots s).
Proof.
  intros [Hrep Hwf] Hk. destruct (rep_inv _ _ Hrep) as (h&t&tl&Es&Ht&Htl&Hh&Hlen).
  rewrite Es. rewrite (wr_at _ (h :: c) (d ++ t :: tl) e) by (reshape || klen).
  eexists. split; [done|]. cbn [app].
  replace (c ++ Mapent k (m_addr e) :: d ++ t :: tl)
    with ((c ++ Mapent k (m_addr e) :: d) ++ t :: tl) by reshape.
  unfold rmap_wf. cbn [slots]. split_and!; [| |done|klen].
  - apply rep_intro; auto. rewrite Es in Hlen. revert Hlen. klen.
  - wfsplit. split_and!; try tauto; try lia. eapply seg_wf_mono; [|apply Hwf]. lia.
Qed.

Definition one_stripe (cfg : swapcfg) (size addr : Z) : Prop :=
  addr / dmmax cfg = (addr + size - 1) / dmmax cfg.

Lemma swap_first_stripe cfg e :
  0 < dmmax cfg -> 0 < m_addr e ->
  0 < swap_first cfg e <= dmmax cfg
  /\ exists q, m_addr e + swap_first cfg e = q * dmmax cfg /\ m_addr e / dmmax cfg = q - 1.
Proof.
  intros Hd Ha. unfold swap_first. rewrite Z.rem_mod_nonneg by lia.
  pose proof (Z.mod_pos_bound (m_addr e) (dmmax cfg) Hd). split; [lia|].
  exists (m_addr e / dmmax cfg + 1). pose proof (Z.div_mod (m_addr e) (dmmax cfg)). lia.
Qed.

Lemma stripe_at q D size : 0 < D -> 0 < size <= D -> q * D / D = (q * D + size - 1) / D.
Proof.
  intros HD Hs. rewrite Z.div_mul by lia. replace (q * D + size - 1) with (size - 1 + q * D) by lia.
  rewrite Z.div_add, Z.div_small by lia. lia.
Qed.

(** What rmalloc promises about a block of the swap map. *)
Definition swap_block (cfg : swapcfg) (s : rmap) (segs : list mapent) (size addr : Z)
    (s' : rmap) : Prop :=
  exists segs', rmap_wf s' segs' /\ one_stripe cfg size addr
    /\ (forall u, addr <= u < addr + size -> seg_free segs u)
    /\ (forall u, seg_free segs' u -> seg_free segs u /\ ~ (addr <= u < addr + size))
    /\ (mapfree (slots s) <> 0 -> allocated segs segs' size addr).

Lemma swap_split_spec cfg s c e d size :
  rmap_wf s (c ++ e :: d) -> (4 <= length (slots s))%nat -> 0 < dmmax cfg ->
  0 < size <= dmmax cfg -> size <= m_size e - swap_first cfg e ->
  exists s', rmalloc_swap s (S (length c)) e (swap_first cfg e) size
             = Ok (m_addr e + swap_first cfg e, s')
    /\ swap_block cfg s (c ++ e :: d) size (m_addr e + swap_first cfg e) s'.
Proof.
  intros Hw Hl4 Hd Hs Hfit. pose proof (rmap_wf_addr _ _ _ _ Hw) as [Ha He].
  destruct (swap_first_stripe cfg e Hd Ha) as (Hf&q&Hq&_).
  set (first := swap_first cfg e) in *.
  destruct (shrink_wf s c e d first Hw ltac:(lia)) as (m&Hm&Hwm&Hmf&Hml).
  unfold rmalloc_swap. rewrite Hm. kstep.
  set (segs1 := c ++ Mapent first (m_addr e) :: d) in *.
  assert (one_stripe cfg size (m_addr e + first)) as Hone.
  { unfold one_stripe. rewrite Hq. by apply stripe_at. }
  assert (forall u, seg_free (c ++ e :: d) u <->
            seg_free segs1 u \/ m_addr e + first <= u < m_addr e + m_size e) as Hu.
  { intros u. unfold segs1. autorewrite with rmap. unfold covers. simpl. intuition lia. }
  assert (~ overlaps segs1 (m_size e - first) (m_addr e + first)) as Hno.
  { unfold segs1. destruct Hw as [_ Hwf]. wfsplit. intros (u&?&Hx).
    autorewrite with rmap in Hx. destruct Hx as [Hx|[Hx|Hx]].
    - eapply seg_free_bounds in Hx; [|apply Hwf]. lia.
    - unfold covers in Hx. simpl in Hx. lia.
    - eapply seg_free_bounds in Hx; [|apply Hwf]. lia. }
  assert (forall u, seg_free segs1 u -> ~ (m_addr e + first <= u < m_addr e + m_size e)) as Hno1.
  { intros u ? ?. apply Hno. exists u. split; [lia|done]. }
  destruct (Z.eqb_spec (m_size e - first - size) 0) as [Er|Er].
  - eexists. split; [done|]. exists segs1. split_and!; auto.
    + intros u ?. apply Hu. lia.
    + intros u Hx. split; [apply Hu; auto|]. apply Hno1 in Hx. lia.
    + intros _ u. rewrite Hu. intuition lia.
  - destruct (rmfree_cases (Rmap m (rlog s)) segs1 (m_size e - first - size)
                (m_addr e + first + size) Hwm ltac:(lia) ltac:(lia) ltac:(cbn [slots]; lia))
      as [[(u&?&Hx) _]|[(_&_&s'&->&segs'&Hw'&Hret&_)
                       |(_&_&Hmf0&c'&p&b&s1&s'&Ec&->&_&_&_&segs'&Hw'&Hret&_)]].
    + exfalso. apply (Hno1 u Hx). lia.
    + kstep. eexists. split; [done|]. exists segs'. split_and!; auto.
      * intros u ?. apply Hu. lia.
      * intros u [Hx|Hx]%Hret; [split; [apply Hu; auto|]; apply Hno1 in Hx; lia|].
        split; [apply Hu; lia|lia].
      * intros _ u. rewrite (Hret u), Hu. intuition lia.
    + kstep. eexists. split; [done|]. exists segs'.
      assert (forall u, seg_free (discard c' p b).1 u -> seg_free segs1 u) as Hdis.
      { intros u Hx. rewrite Ec. apply discard_free. auto. }
      split_and!; auto.
      * intros u ?. apply Hu. lia.
      * intros u [Hx%Hdis|Hx]%Hret; [split; [apply Hu; auto|]; apply Hno1 in Hx; lia|].
        split; [apply Hu; lia|lia].
      * cbn [slots] in Hmf0. lia.
Qed.

(** A block that was taken from [segs] can be put back, if the map has an entry for it: then [segs] is there again. *)
Lemma rmfree_restores s segs s' segs' size addr :
  rmap_wf s segs -> rmap_wf s' segs' -> 0 < addr -> 0 < size -> allocated segs segs' size addr ->
  ~ overlaps segs' size addr -> abuts segs' size addr \/ mapfree (slots s') <> 0 ->
  exists s2, rmfree s' size addr = Ok s2 /\ rmap_wf s2 segs.
Proof.
  intros [Hrep Hwf] Hw' Ha Hs Hal Hno Hroom. destruct (rmfree_ok s' _ size addr Hw' Ha Hs Hno Hroom) as (s2&Hs2&segs2&[Hrep2 Hwf2]&Hret&_).
  exists s2. split; [done|]. replace segs with segs2; [done|]. eapply seg_canonical; eauto. intros u. by rewrite (Hret u), (Hal u).
Qed.

Lemma here_unaligned cfg s bp e size r : rmalloc_here cfg true s bp e size = Ok r -> rmalloc_here cfg false s bp e size = Ok r.
Proof. unfold rmalloc_here. destruct (rmalloc_take _ _ _ _); try done. kstep. by destruct (negb _). Qed.

Lemma rmalloc_rmfree_plain cfg s segs size addr s1 : rmap_wf s segs -> 0 < size -> rmalloc cfg false s size = Ok (addr, s1) -> addr <> 0 -> exists s2, rmfree s1 size addr = Ok s2 /\ rmap_wf s2 segs.
Proof.
  intros Hw Hs Hr Hne. destruct (rmalloc_plain_cases cfg s segs size Hw Hs) as [[_ Hr']|(c&e&d&s'&->&Hc&Hle&Hr'&Hw'&_&_&Hlen)]; rewrite Hr in Hr'; [by injection Hr'|]. injection Hr' as -> ->. pose proof (rmap_wf_addr _ _ _ _ Hw) as [Ha _].
  apply (rmfree_restores s _ s' (c ++ remainder e size ++ d)); auto; [intros u; apply remainder_free; lia|eapply remainder_no_overlap; [apply Hw|lia]|eapply abuts_or_room; eauto; lia].
Qed.

(** C11: freeing the block rmalloc returned restores the map: the very same segments,
    in the very same order, whatever the fragmentation and however full the map, unless it is the
    interleaved swap map, for which one entry of the table must be unused before. *)
Theorem rmalloc_rmfree_roundtrip cfg isswap s segs size addr s1 :
  rmap_wf s segs -> 0 < size -> (isswap = true -> (4 <= length (slots s))%nat /\ 0 < dmmax cfg /\ mapfree (slots s) <> 0) ->
  rmalloc cfg isswap s size = Ok (addr, s1) -> addr <> 0 ->
  exists s2, rmfree s1 size addr = Ok s2 /\ rmap_wf s2 segs.
Proof.
  intros Hw Hs Hsw Hr Hne. unfold rmalloc in Hr. destruct ((size <=? 0) || (isswap && (dmmax cfg <? size))) eqn:Eg; [done|]. apply orb_false_iff in Eg as [_ Eg].
  pose proof Hw as [Hrep Hwf]. destruct (rep_inv _ _ Hrep) as (h&t&tl&Es&Ht&_).
  destruct (rmalloc_loop_spec cfg isswap s size segs h [] t tl (length (slots s))) as [[_ Hl]|(c&e&d&->&_&He&Hl)]; eauto using seg_wf_sized; [rewrite Es; klen|cbn [length] in Hl; rewrite Hl in Hr; by injection Hr|].
  cbn [app length] in Hl. rewrite Hl in Hr. clear Hl. pose proof (rmap_wf_addr _ _ _ _ Hw) as [Ha Hse]. unfold fits in He. destruct (swap_crosses cfg isswap e) eqn:Ecr.
  - destruct isswap; [|done]. destruct (Hsw eq_refl) as (Hl4 & Hd & Hmf). cbn [andb] in Eg. destruct (swap_first_stripe cfg e Hd Ha) as (Hf&_).
    destruct (swap_split_spec cfg s c e d size Hw Hl4 Hd ltac:(lia) ltac:(lia)) as (s'&Hs'&segs'&Hw'&_&Hin&Hout&Hal). rewrite Hs' in Hr. injection Hr as <- <-.
    apply (rmfree_restores s _ s' segs'); auto; [lia|by intros (u&Hu&Hx); destruct (Hout u Hx)|]. left. left.
    destruct (proj1 (Hal Hmf (m_addr e + swap_first cfg e - 1))) as [Hx|Hx]; [autorewrite with rmap; unfold covers; right; left; lia|done|lia].
  - assert (size <= m_size e) as Hle by (by destruct isswap). assert (rmalloc_here cfg false s (S (length c)) e size = Ok (addr, s1)) as Hr' by (destruct isswap; [by apply here_unaligned|done]).
    destruct (here_spec cfg false s c e d size Hw ltac:(lia)) as (s'&Hs'&Hw'&_&_&Hlen); [done|]. rewrite Hs' in Hr'. injection Hr' as <- <-.
    apply (rmfree_restores s _ s' (c ++ remainder e size ++ d)); auto; [intros u; apply remainder_free; lia|eapply remainder_no_overlap; [exact Hwf|lia]|eapply abuts_or_room; eauto; lia].
Qed.

(** a block of the interleaved swap map never crosses a stripe boundary.  With more
    than one swap device and cluster-aligned segments, a request of at most dmmax units
    either finds no segment with enough room inside one stripe and returns 0, or gets a
    block that was free, is free no more, and lies inside one stripe; no other unit
    changes hands unless the map was full. *)
Theorem rmalloc_swap_one_stripe cfg s segs size :
  rmap_wf s segs -> (4 <= length (slots s))%nat -> 1 < nswdev cfg -> 0 < dmmax cfg ->
  0 < size <= dmmax cfg -> Forall (fun e => Z.rem (m_addr e) (clsize cfg) = 0) segs ->
  (rmalloc cfg true s size = Ok (0, s) /\ Forall (fun e => ~ fits cfg true e size) segs) \/
  exists addr s', rmalloc cfg true s size = Ok (addr, s')
    /\ 0 < addr /\ swap_block cfg s segs size addr s'.
Proof.
  intros Hw Hl4 Hn Hd Hs Hal. unfold rmalloc.
  replace ((size <=? 0) || (true && (dmmax cfg <? size))) with false by (simpl; lia).
  pose proof Hw as [Hrep Hwf]. destruct (rep_inv _ _ Hrep) as (h&t&tl&Es&Ht&_).
  destruct (rmalloc_loop_spec cfg true s size segs h [] t tl (length (slots s)))
    as [[Hall Hl]|(c&e&d&->&Hc&He&Hl)]; eauto using seg_wf_sized; [rewrite Es; klen|right].
  cbn [app length] in Hl. rewrite Hl.
  pose proof (rmap_wf_addr _ _ _ _ Hw) as [Ha Hse].
  destruct (swap_first_stripe cfg e Hd Ha) as (Hf&q&Hq&Hq').
  unfold fits in He. destruct (swap_crosses cfg true e) eqn:Ecr.
  - destruct (swap_split_spec cfg s c e d size Hw Hl4 Hd Hs ltac:(lia)) as (s'&->&Hb).
    eexists _, s'. split; [done|]. split; [lia|done].
  - unfold swap_crosses in Ecr. simpl in Ecr.
    apply Forall_app in Hal as [_ Hal]. inversion Hal as [|? ? Hal1 _]; subst.
    destruct (here_spec cfg true s c e d size Hw ltac:(lia)) as (s'&->&Hw'&_); [done|].
    exists (m_addr e), s'. split; [done|]. split; [lia|].
    exists (c ++ remainder e size ++ d). split_and!; auto.
    + unfold one_stripe. rewrite Hq'.
      apply Z.div_unique with (m_addr e + size - 1 - (q - 1) * dmmax cfg); [|lia].
      pose proof (Z.div_mod (m_addr e) (dmmax cfg) ltac:(lia)).
      pose proof (Z.mod_pos_bound (m_addr e) (dmmax cfg) Hd). lia.
    + intros u ?. apply (remainder_free c e d size); [lia|]. by right.
    + intros u Hx. split; [apply (remainder_free c e d size); [lia|]; by left|].
      intros ?. eapply (remainder_no_overlap 0 c e d size Hwf); [lia|]. by exists u.
    + intros _ u. apply remainder_free. lia.
Qed.

(** ** Initialisation *)

Definition zero_ent : mapent := Mapent 0 0.

(** rminit of a zeroed array of at least three entries builds a well-formed map: one
    segment holding the initial resource (none when its size is 0), mapsize - 2 slots in
    all, the name in the last entry's address word. *)
Theorem rminit_spec (size addr name : Z) (n : nat) :
  (size = 0 \/ 0 < addr /\ 0 < size) -> Z.of_nat n + 3 <= 2 ^ 31 ->
  exists m, rminit (replicate (n + 3) zero_ent) size addr name (n + 3) = Ok m
    /\ rmap_wf (Rmap m []) (if size =? 0 then [] else [Mapent size addr])
    /\ mapfree m = Z.of_nat n + (if size =? 0 then 1 else 0)
    /\ m !! (n + 2)%nat = Some (Mapent 0 name).
Proof.
  intros Hsz Hn. unfold rminit.
  replace (n + 3 <? 3)%nat with false by (symmetry; apply Nat.ltb_ge; lia).
  replace (replicate (n + 3) zero_ent)
    with (zero_ent :: (zero_ent :: replicate n zero_ent) ++ [zero_ent])
    by (change (zero_ent :: replicate n zero_ent) with (replicate (S n) zero_ent);
        rewrite <- replicate_S_end; by rewrite Nat.add_comm).
  rewrite set_mapfree_spec by lia. kstep.
  set (h := Mapent (Z.of_nat (n + 3) - 3) (m_addr zero_ent)).
  assert (length (replicate n zero_ent) = n) as Hrl by apply length_replicate.
  krd_at (h :: zero_ent :: replicate n zero_ent) zero_ent (@nil mapent).
  kwr_at (h :: zero_ent :: replicate n zero_ent) zero_ent (@nil mapent).
  kwr_at [h] zero_ent (replicate n zero_ent ++ [Mapent (m_size zero_ent) name]).
  cbn [app m_size zero_ent].
  assert (Forall (fun e => m_size e = 0) (replicate n zero_ent ++ [Mapent 0 name])) as Hz.
  { apply Forall_app. split; [by apply Forall_replicate|by repeat constructor]. }
  destruct (Z.eqb_spec size 0) as [->|Hne].
  - rewrite mapfree_spec, set_mapfree_spec by (cbn [m_size h]; lia). eexists. split; [done|].
    split_and!.
    + split; [|done]. cbn [slots].
      apply (rep_intro _ [] (Mapent 0 addr) (replicate n zero_ent ++ [Mapent 0 name])); auto.
      * cbn [m_size h]. rewrite length_app. simpl. lia.
      * cbn [app length]. rewrite length_app. simpl. lia.
    + rewrite mapfree_spec. cbn [m_size h]. lia.
    + rewrite Nat.add_comm. cbn [Nat.add]. simpl. rewrite lookup_app_r, Hrl, Nat.sub_diag by lia. done.
  - eexists. split; [done|]. split_and!.
    + split; [|simpl; lia]. cbn [slots].
      destruct (replicate n zero_ent ++ [Mapent 0 name]) as [|t tl] eqn:Et.
      { by destruct n. }
      apply (rep_intro h [Mapent size addr] t tl); inversion Hz; subst; auto.
      * apply (f_equal length) in Et. rewrite length_app in Et. cbn [m_size h]. simpl in Et. lia.
      * apply (f_equal length) in Et. rewrite length_app in Et. simpl in Et |- *. lia.
    + rewrite mapfree_spec. cbn [m_size h]. lia.
    + rewrite Nat.add_comm. cbn [Nat.add]. simpl. rewrite lookup_app_r, Hrl, Nat.sub_diag by lia. done.
Qed.

(** a map of mapsize 3 has room for one segment only, and its overflow branch
    compares that segment with the word before the array: rmfree discards the map header
    instead, so the one free segment's size becomes the count of free slots and its
    address the count of sleepers.  Freeing block [50,52) into the map {[10,15)} leaves
    five "free slots" in an array that has no slot left. *)
Theorem rmfree_three_slots_corrupts_header :
  exists m s', rminit (replicate 3 zero_ent) 5 10 0 3 = Ok m
    /\ rmfree (Rmap m []) 2 50 = Ok s'
    /\ mapfree (slots s') = 5 /\ (length (slots s') = 3)%nat
    /\ slots s' !! 1%nat = Some (Mapent 2 50) /\ rlog s' = [RmLost 0 0; RmWakeup].
Proof. eexists _, _. by split_and!. Qed.

(** ** Concrete instances *)

(** [[10,14)] and [[20,26)] free, one slot left, somebody waiting. *)
Definition map2 : rmap :=
  Rmap [Mapent 1 7; Mapent 4 10; Mapent 6 20; Mapent 0 0; Mapent 0 99] [].
Definition segs2 : list mapent := [Mapent 4 10; Mapent 6 20].
(** The same, every slot used. *)
Definition map2full : rmap := Rmap [Mapent 0 7; Mapent 4 10; Mapent 6 20; Mapent 0 99] [].

Lemma map2_wf : rmap_wf map2 segs2.
Proof.
  split; [|unfold segs2; simpl; lia].
  exists (Mapent 1 7), [Mapent 0 0; Mapent 0 99]. split_and!; simpl; auto; lia.
Qed.

Lemma map2full_wf : rmap_wf map2full segs2.
Proof.
  split; [|unfold segs2; simpl; lia].
  exists (Mapent 0 7), [Mapent 0 99]. split_and!; simpl; auto; lia.
Qed.

Ltac nofree :=
  unfold overlaps, abuts, segs2; repeat setoid_rewrite seg_free_cons;
  repeat setoid_rewrite seg_free_nil; unfold covers; simpl;
  first [ intros (u&Hu&Hf); intuition lia | intuition lia ].

Lemma rmalloc_first_fit_witness :
  0 < 5 /\ exists s', rmalloc (Swapcfg 1 512 2) false map2 5 = Ok (20, s').
Proof.
  split; [lia|].
  assert (exists x, rmalloc (Swapcfg 1 512 2) false map2 5 = Ok (20, x)) as [x Hx]
    by (eexists; vm_compute; reflexivity).
  destruct (rmalloc_first_fit (Swapcfg 1 512 2) map2 segs2 5 map2_wf ltac:(lia))
    as [[_ H]|(c&e&d&s'&segs'&_&_&_&H&_)].
  - congruence.
  - exists s'. congruence.
Defined.

Lemma rmfree_returns_block_witness :
  exists s' segs', rmfree map2 3 40 = Ok s' /\ returned segs2 segs' 3 40.
Proof.
  destruct (rmfree_returns_block map2 segs2 3 40 map2_wf) as (s'&segs'&H&_&Hr&_);
    [lia|lia|nofree|right; vm_compute; discriminate|]. by exists s', segs'.
Defined.

Lemma rmfree_overflow_loses_one_witness :
  exists s' segs' lost, rmfree map2full 3 40 = Ok s' /\ covers lost 10
    /\ forall u, seg_free segs2 u \/ 40 <= u < 40 + 3 <-> seg_free segs' u \/ covers lost u.
Proof.
  destruct (rmfree_overflow_loses_one map2full segs2 3 40 map2full_wf)
    as (c&p&b&lost&s'&segs'&Ec&->&H&_&Hu&_); [lia|lia|unfold map2full; simpl; lia|nofree|nofree|done|].
  exists s', segs', (if m_size p <? m_size b then p else b). split_and!; auto.
  unfold segs2 in Ec. destruct c as [|? [|? [|? ?]]]; simplify_eq/=. vm_compute. by split.
Defined.

Lemma rmfree_panics_iff_witness : rmfree map2full 3 12 = Panic "bad rmfree".
Proof.
  apply (rmfree_panics_iff map2full segs2 3 12 map2full_wf); [unfold map2full; simpl; lia|].
  right; right. exists 12. split; [lia|]. unfold segs2.
  rewrite seg_free_cons. left. unfold covers; simpl; lia.
Defined.

Lemma rmalloc_rmfree_roundtrip_witness :
  (exists s1 s2, rmalloc (Swapcfg 1 512 2) false map2full 4 = Ok (10, s1) /\ rmfree s1 4 10 = Ok s2 /\ rmap_wf s2 segs2) /\
  (exists s1 s2, rmalloc (Swapcfg 2 4 2) true map2 1 = Ok (12, s1) /\ rmfree s1 1 12 = Ok s2 /\ rmap_wf s2 segs2).
Proof.
  split; eexists.
  - destruct (rmalloc_rmfree_roundtrip (Swapcfg 1 512 2) false map2full segs2 4 10 _ map2full_wf ltac:(lia) ltac:(done) eq_refl ltac:(lia)) as (s2&H&Hw).
    exists s2. split; [reflexivity|]. split; [exact H|exact Hw].
  - destruct (rmalloc_rmfree_roundtrip (Swapcfg 2 4 2) true map2 segs2 1 12 _ map2_wf ltac:(lia) ltac:(intros _; cbn; lia) eq_refl ltac:(lia)) as (s2&H&Hw).
    exists s2. split; [reflexivity|]. split; [exact H|exact Hw].
Defined.

Lemma rmget_spec_witness :
  exists s' segs', rmget false map2 2 22 = Ok (22, s') /\ allocated segs2 segs' 2 22.
Proof.
  destruct (rmget_spec map2 segs2 2 22 map2_wf ltac:(lia))
    as [(s'&segs'&H&_&Hal&_)|[H _]]; [by exists s', segs'|]. vm_compute in H. discriminate H.
Defined.

Lemma rmalloc_swap_one_stripe_witness :
  exists s', rmalloc (Swapcfg 2 16 2) true map2 5 = Ok (20, s').
Proof.
  assert (exists x, rmalloc (Swapcfg 2 16 2) true map2 5 = Ok (20, x)) as [x Hx]
    by (eexists; vm_compute; reflexivity).
  destruct (rmalloc_swap_one_stripe (Swapcfg 2 16 2) map2 segs2 5 map2_wf)
    as [[H _]|(addr&s'&H&_)];
    [unfold map2; simpl; lia|simpl; lia|simpl; lia|simpl; lia|by repeat constructor| |].
  - congruence.
  - exists s'. congruence.
Defined.

Lemma rminit_spec_witness :
  exists m, rminit (replicate 5 zero_ent) 30 1 77 5 = Ok m
    /\ rmap_wf (Rmap m []) [Mapent 30 1].
Proof.
  destruct (rminit_spec 30 1 77 2 ltac:(lia) ltac:(lia)) as (m&H&Hw&_).
  exists m. split; [exact H|exact Hw].
Defined.

(** ** The allocator interface

    What resource maps promise to the subsystems that carve tables out of them
    (the semaphore and message maps, the swap map): a class with its laws, and the
    proof that [Rmap]'s maps satisfy it. *)

(** [rm_want] is mapwant(mp)++, before a caller sleeps on the map.
    [rm_release] may lose units when the map is full, so it only promises that nothing
    but the old free units and the block is free afterwards; [rm_undo]: what rmalloc has just given goes back without loss. *)
Class ResMap (M : Type) := {
  rm_alloc : M -> Z -> res (Z * M);
  rm_release : M -> Z -> Z -> res M;
  rm_want : M -> res M;
  rm_inv : M -> Prop;
  rm_unit : M -> Z -> Prop;
  rm_unit_pos : forall m u, rm_inv m -> rm_unit m u -> 0 < u;
  rm_alloc_spec : forall m n, rm_inv m -> 0 < n ->
    exists a m', rm_alloc m n = Ok (a, m') /\ rm_inv m' /\
      (a = 0 /\ m' = m \/
       0 < a /\ (forall u, a <= u < a + n -> rm_unit m u) /\
       (forall u, rm_unit m' u -> rm_unit m u /\ ~ (a <= u < a + n)));
  rm_want_spec : forall m, rm_inv m ->
    exists m', rm_want m = Ok m' /\ rm_inv m' /\ (forall u, rm_unit m' u <-> rm_unit m u);
  rm_release_spec : forall m n a, rm_inv m -> 0 < n -> 0 < a ->
    (forall u, a <= u < a + n -> ~ rm_unit m u) ->
    exists m', rm_release m n a = Ok m' /\ rm_inv m' /\
      (forall u, rm_unit m' u -> rm_unit m u \/ a <= u < a + n);
  rm_undo : forall m n a m' m'', rm_inv m -> 0 < n -> rm_alloc m n = Ok (a, m') -> a <> 0 -> rm_release m' n a = Ok m'' ->
    forall u, rm_unit m'' u <-> rm_unit m u
}.

(** Maps other than the swap map: the interleaving globals do not matter. *)
Definition plain_cfg : swapcfg := Swapcfg 1 512 1.

Definition rmap_unit (s : rmap) (u : Z) : Prop :=
  exists segs, rmap_wf s segs /\ seg_free segs u.

Definition rmap_inv (s : rmap) : Prop :=
  (4 <= length (slots s))%nat /\ exists segs, rmap_wf s segs.

Lemma rep_unique m a b : rep m a -> rep m b -> a = b.
Proof.
  intros Ha Hb. pose proof (rep_mapfree _ _ Ha) as La. pose proof (rep_mapfree _ _ Hb) as Lb.
  destruct (rep_inv _ _ Ha) as (h&t&tl&->&_), (rep_inv _ _ Hb) as (h'&t'&tl'&E&_).
  injection E as _ E. assert (length a = length b) as El by lia.
  by destruct (app_inj_1 _ _ _ _ El E).
Qed.

Lemma rmap_unit_wf s segs u : rmap_wf s segs -> rmap_unit s u <-> seg_free segs u.
Proof.
  intros Hw. split; [|by exists segs]. intros (segs'&[Hr _]&Hf).
  destruct Hw as [Hr' _]. by rewrite (rep_unique _ _ _ Hr' Hr).
Qed.

Lemma rmalloc_length cfg s segs size addr s' :
  rmap_wf s segs -> 0 < size -> rmalloc cfg false s size = Ok (addr, s') ->
  length (slots s') = length (slots s).
Proof.
  intros Hw Hs Hr. destruct (rmalloc_plain_cases cfg s segs size Hw Hs)
    as [[_ Hr']|(c&e&d&s1&_&_&_&Hr'&_&_&_&?)]; rewrite Hr in Hr'; by injection Hr' as -> ->.
Qed.

#[export] Program Instance rmap_resmap : ResMap rmap := {|
  rm_alloc s n := rmalloc plain_cfg false s n;
  rm_release s n a := rmfree s n a;
  rm_want s := m ← set_mapwant (slots s) (mapwant (slots s) + 1); mret (Rmap m (rlog s));
  rm_inv := rmap_inv;
  rm_unit := rmap_unit
|}.
Next Obligation.
  intros s u _ (segs&[_ Hwf]&Hf). eapply seg_free_bounds in Hf; [|exact Hwf]. lia.
Qed.
Next Obligation.
  intros s n [Hl (segs&Hw)] Hn.
  destruct (rmalloc_plain_cases plain_cfg s segs n Hw Hn)
    as [[_ Hr]|(c&e&d&s'&->&_&Hle&Hr&Hw'&_&_&Hl')].
  - exists 0, s. split_and!; auto. split; eauto.
  - exists (m_addr e), s'. split_and!; auto; [split; [lia|eauto]|].
    pose proof (rmap_wf_addr _ _ _ _ Hw). right. split_and!; [lia| |].
    + intros u ?. rewrite (rmap_unit_wf _ _ _ Hw), (remainder_free c e d n) by lia. by right.
    + intros u. rewrite (rmap_unit_wf _ _ _ Hw), (rmap_unit_wf _ _ _ Hw'). intros Hf.
      split; [rewrite (remainder_free c e d n) by lia; by left|]. intros ?.
      destruct Hw as [_ Hwf]. eapply (remainder_no_overlap 0 c e d n Hwf); [lia|].
      by exists u.
Qed.
Next Obligation.
  intros s [Hl (segs&Hw)]. destruct (proj1 Hw) as (h&tail&E&H1&H2&H3&H4).
  assert (rmap_wf (Rmap (Mapent (m_size h) (m_addr h + 1) :: segs ++ tail) (rlog s)) segs) as Hw'.
  { split; [|apply Hw]. exists (Mapent (m_size h) (m_addr h + 1)), tail. rewrite E in H4. by split_and!. }
  eexists. split; [unfold set_mapwant; rewrite E; reflexivity|]. simpl. split.
  - split; [rewrite E in Hl; exact Hl|by exists segs].
  - intros u. by rewrite (rmap_unit_wf _ _ _ Hw), (rmap_unit_wf _ _ _ Hw').
Qed.
Next Obligation.
  intros s n a [Hl (segs&Hw)] Hn Ha Hno.
  destruct (rmfree_cases s segs n a Hw Ha Hn Hl)
    as [[(u&Hu&Hf) _]|[(_&_&s'&Hr&segs'&Hw'&Hret&_&_&Hl')
                      |(_&_&_&c&p&b&s1&s'&Ec&Hr&_&_&Hl1&segs'&Hw'&Hret&_&_&Hl')]].
  - destruct (Hno u Hu). by apply (rmap_unit_wf _ _ _ Hw).
  - exists s'. split_and!; auto; [split; [lia|eauto]|].
    intros u. rewrite (rmap_unit_wf _ _ _ Hw), (rmap_unit_wf _ _ _ Hw'). apply Hret.
  - exists s'. split_and!; auto; [split; [lia|eauto]|].
    intros u. rewrite (rmap_unit_wf _ _ _ Hw), (rmap_unit_wf _ _ _ Hw'), (Hret u), Ec,
      (discard_free c p b u). tauto.
Qed.
Next Obligation.
  intros s n a s1 s2 [Hl (segs&Hw)] Hn Hr Hne Hf u. destruct (rmalloc_rmfree_plain plain_cfg s segs n a s1 Hw Hn Hr Hne) as (s2'&Hf'&Hw2).
  rewrite Hf in Hf'. injection Hf' as <-. by rewrite (rmap_unit_wf _ _ _ Hw), (rmap_unit_wf _ _ _ Hw2).
Qed.
