(* ===== verification/Ipc.v ===== *)
(** * Common System V IPC routines: [src/sun/sys/sys/ipc_subr.c]

    The permission structure shared by the semaphore, message and shared memory
    facilities, the credentials of the calling process, and the two routines every
    facility starts with: the access check and the search for a key. *)

From S2P Require Import Prelude.
From stdpp Require Import prelude list numbers strings.
From Stdlib Require Import ZArith Lia.

Local Open Scope Z_scope.

(** Error numbers ([h/errno.h]); 0 is success. *)
Definition EPERM := 1.
Definition ENOENT := 2.
Definition EINTR := 4.
Definition E2BIG := 7.
Definition EAGAIN := 11.
Definition EACCES := 13.
Definition EFAULT := 14.
Definition EEXIST := 17.
Definition EINVAL := 22.
Definition EFBIG := 27.
Definition ENOSPC := 28.
Definition ERANGE := 34.
(** [EIDRM] is 77 in [h/errno.h]. *)
Definition EIDRM := 77.

(** Mode bits and flags ([h/ipc.h]). *)
Definition IPC_ALLOC := 0x8000.
Definition IPC_CREAT := 0x200.
Definition IPC_EXCL := 0x400.
Definition IPC_NOWAIT := 0x800.
Definition IPC_PRIVATE := 0.
(** Commands of the ctl calls. *)
Definition IPC_RMID := 0.
Definition IPC_SET := 1.
Definition IPC_STAT := 2.

Record ipc_perm := IpcPerm {
  uid : Z; gid : Z; cuid : Z; cgid : Z; pmode : Z; pseq : Z; key : Z
}.

Definition has_flag (f bit : Z) : bool := negb (Z.land f bit =? 0).
Definition perm_mode (pm : ipc_perm) (m : Z) :=
  IpcPerm (uid pm) (gid pm) (cuid pm) (cgid pm) m (pseq pm) (key pm).
Definition perm_seq (pm : ipc_perm) (s : Z) :=
  IpcPerm (uid pm) (gid pm) (cuid pm) (cgid pm) (pmode pm) (wrapu 16 s) (key pm).

(** The part of the u area these routines read; [u_groups] ends at NOGROUP or at
    NGROUPS entries. *)
Record ucred := Ucred {
  u_uid : Z; u_gid : Z; u_groups : list Z; u_procp : nat; u_pid : Z
}.

Definition NOGROUP := -1.
Definition NGROUPS := 8%nat.

(** groupmember() and suser() of [kern_prot.c]. *)
Fixpoint group_scan (gs : list Z) (g : Z) : bool :=
  match gs with
  | [] => false
  | x :: xs => if x =? NOGROUP then false else if x =? g then true else group_scan xs g
  end.

Definition groupmember (u : ucred) (g : Z) : bool :=
  if u_gid u =? g then true else group_scan (take NGROUPS (u_groups u)) g.

(** [Some e]: the check failed and set [u.u_error] to [e]. *)
Definition suser (u : ucred) : option Z := if u_uid u =? 0 then None else Some EPERM.

Definition ipcaccess (u : ucred) (p : ipc_perm) (mode : Z) : option Z :=
  if u_uid u =? 0 then None
  else
    let mode :=
      if negb (u_uid u =? uid p) && negb (u_uid u =? cuid p) then
        let mode := Z.shiftr mode 3 in
        if negb (groupmember u (gid p)) && negb (groupmember u (cgid p))
        then Z.shiftr mode 3 else mode
      else mode in
    if negb (Z.land mode (pmode p) =? 0) then None else Some EACCES.

Definition allocated_perm (p : ipc_perm) : bool := negb (Z.land (pmode p) IPC_ALLOC =? 0).

(** ipcget returns an error, an existing entry ([status] 0) or the entry to be
    initialised ([status] 1). *)
Inductive ipcget_result :=
| IpcError (e : Z)
| IpcFound (i : nat)
| IpcNew (i : nat).

(** The search for IPC_PRIVATE: the first entry not allocated. *)
Fixpoint ipcget_private (ps : list ipc_perm) (i : nat) : ipcget_result :=
  match ps with
  | [] => IpcError ENOSPC
  | p :: ps => if allocated_perm p then ipcget_private ps (S i) else IpcNew i
  end.

(** The search for a key; [a] is the first free entry seen so far. *)
Fixpoint ipcget_key (k flag : Z) (ps : list ipc_perm) (i : nat) (a : option nat)
    : ipcget_result :=
  match ps with
  | [] =>
      if Z.land flag IPC_CREAT =? 0 then IpcError ENOENT
      else match a with None => IpcError ENOSPC | Some i => IpcNew i end
  | p :: ps =>
      if allocated_perm p then
        if key p =? k then
          if Z.land flag (Z.lor IPC_CREAT IPC_EXCL) =? Z.lor IPC_CREAT IPC_EXCL
          then IpcError EEXIST
          else if negb (Z.land (Z.land flag 0x1ff) (Z.lnot (pmode p)) =? 0)
          then IpcError EACCES
          else IpcFound i
        else ipcget_key k flag ps (S i) a
      else ipcget_key k flag ps (S i) (match a with None => Some i | Some _ => a end)
  end.

Definition ipcget_find (k flag : Z) (ps : list ipc_perm) : ipcget_result :=
  if k =? IPC_PRIVATE then ipcget_private ps 0 else ipcget_key k flag ps 0 None.

(** The [init:] label: fill in the new entry ([seq] is kept).  The ids of the u area are
    shorts, those of the entry ushorts. *)
Definition ipcget_init (u : ucred) (k flag : Z) (p : ipc_perm) : ipc_perm :=
  IpcPerm (wrapu 16 (u_uid u)) (wrapu 16 (u_gid u)) (wrapu 16 (u_uid u)) (wrapu 16 (u_gid u))
          (Z.lor IPC_ALLOC (Z.land flag 0x1ff)) (pseq p) k.

(** ipcget: the result, and the table with the new entry initialised. *)
Definition ipcget (u : ucred) (k flag : Z) (ps : list ipc_perm)
    : ipcget_result * list ipc_perm :=
  let r := ipcget_find k flag ps in
  match r with
  | IpcNew i => (r, alter (ipcget_init u k flag) i ps)
  | _ => (r, ps)
  end.

(** ** Facts about the search *)

Lemma ipcget_init_allocated u k flag p : allocated_perm (ipcget_init u k flag p) = true.
Proof.
  unfold allocated_perm. simpl.
  rewrite Z.land_lor_distr_l, <- Z.land_assoc.
  change (Z.land 0x1ff IPC_ALLOC) with 0. by rewrite Z.land_0_r.
Qed.

Lemma ipcget_private_spec ps i :
  match ipcget_private ps i with
  | IpcNew j => exists p, (i <= j)%nat /\ ps !! (j - i)%nat = Some p /\ allocated_perm p = false
  | IpcError e => e = ENOSPC /\ Forall (fun p => allocated_perm p = true) ps
  | IpcFound _ => False
  end.
Proof.
  revert i. induction ps as [|p ps IH]; intros i; simpl; [auto|].
  destruct (allocated_perm p) eqn:Ep.
  - specialize (IH (S i)). destruct (ipcget_private ps (S i)); [| |].
    + destruct IH. split; auto.
    + done.
    + destruct IH as (q&?&Hl&?). exists q. split_and!; [lia| |done].
      by replace (i0 - i)%nat with (S (i0 - S i)) by lia.
  - exists p. rewrite Nat.sub_diag. auto.
Qed.

Definition free_at (ps : list ipc_perm) (off j : nat) : Prop :=
  exists p, (off <= j)%nat /\ ps !! (j - off)%nat = Some p /\ allocated_perm p = false.

Lemma free_at_cons p ps i j : free_at ps (S i) j -> free_at (p :: ps) i j.
Proof.
  intros (q&?&?&?). exists q. split_and!; [lia| |done].
  by replace (j - i)%nat with (S (j - S i)) by lia.
Qed.

Lemma ipcget_key_spec k flag ps : forall i a,
  match ipcget_key k flag ps i a with
  | IpcNew j => a = Some j \/ (a = None /\ free_at ps i j)
  | IpcFound j => exists p, (i <= j)%nat /\ ps !! (j - i)%nat = Some p
      /\ allocated_perm p = true /\ key p = k
  | IpcError e => e = ENOENT \/ e = ENOSPC \/ e = EEXIST \/ e = EACCES
  end.
Proof.
  induction ps as [|p ps IH]; intros i a; simpl.
  - destruct (Z.land flag IPC_CREAT =? 0); [auto|]. destruct a; auto.
  - destruct (allocated_perm p) eqn:Ep.
    + destruct (Z.eqb_spec (key p) k).
      * destruct (_ =? _); [auto|]. destruct (negb _); [auto|].
        exists p. rewrite Nat.sub_diag. auto.
      * specialize (IH (S i) a). destruct (ipcget_key k flag ps (S i) a); auto.
        -- destruct IH as (q&?&?&?&?). exists q. split_and!; auto; [lia|].
           by replace (i0 - i)%nat with (S (i0 - S i)) by lia.
        -- destruct IH as [?|[? ?]]; eauto using free_at_cons.
    + specialize (IH (S i) (match a with None => Some i | Some _ => a end)).
      destruct (ipcget_key k flag ps (S i) _); auto.
      * destruct IH as (q&?&?&?&?). exists q. split_and!; auto; [lia|].
        by replace (i0 - i)%nat with (S (i0 - S i)) by lia.
      * destruct a; [destruct IH as [?|[? _]]; [auto|done]|].
        destruct IH as [[= ->]|[? _]]; [|done]. right. split; [done|].
        exists p. rewrite Nat.sub_diag. auto.
Qed.

(** A new entry was free before. *)
Lemma ipcget_new_free k flag ps j :
  ipcget_find k flag ps = IpcNew j -> exists p, ps !! j = Some p /\ allocated_perm p = false.
Proof.
  unfold ipcget_find. destruct (k =? IPC_PRIVATE); intros H.
  - pose proof (ipcget_private_spec ps 0) as Hs. rewrite H in Hs.
    destruct Hs as (p&_&Hl&?). rewrite Nat.sub_0_r in Hl. eauto.
  - pose proof (ipcget_key_spec k flag ps 0 None) as Hs. rewrite H in Hs.
    destruct Hs as [?|(_&p&_&Hl&?)]; [done|]. rewrite Nat.sub_0_r in Hl. eauto.
Qed.

Lemma ipcget_found k flag ps j :
  ipcget_find k flag ps = IpcFound j ->
  exists p, ps !! j = Some p /\ allocated_perm p = true /\ key p = k.
Proof.
  unfold ipcget_find. destruct (k =? IPC_PRIVATE); intros H.
  - pose proof (ipcget_private_spec ps 0) as Hs. by rewrite H in Hs.
  - pose proof (ipcget_key_spec k flag ps 0 None) as Hs. rewrite H in Hs.
    destruct Hs as (p&_&Hl&?). rewrite Nat.sub_0_r in Hl. eauto.
Qed.

(** A user whose id is negative as a short (nobody is -2) is refused its own object: the id is
    stored unsigned and compared signed. *)
Example ipcaccess_denies_negative_creator :
  let u := Ucred (-2) (-2) [] 0 1 in
  let p := ipcget_init u 1 0x180 (IpcPerm 0 0 0 0 0 0 0) in
  ipcaccess u p 0x100 = Some EACCES /\ uid p = 65534.
Proof. split; reflexivity. Qed.

Lemma ipcget_err u k flg ps e ps' : ipcget u k flg ps = (IpcError e, ps') -> e <> 0.
Proof.
  unfold ipcget. destruct (ipcget_find k flg ps) eqn:E; intros [= -> <-].
  unfold ipcget_find in E. destruct (k =? IPC_PRIVATE).
  - pose proof (ipcget_private_spec ps 0) as H. rewrite E in H. by destruct H as [-> _].
  - pose proof (ipcget_key_spec k flg ps 0 None) as H. rewrite E in H.
    by destruct H as [-> | [-> | [-> | ->]]].
Qed.

Lemma ipcget_eq u k flg ps : ipcget u k flg ps =
  (ipcget_find k flg ps,
   match ipcget_find k flg ps with IpcNew i => alter (ipcget_init u k flg) i ps | _ => ps end).
Proof. unfold ipcget. by destruct (ipcget_find k flg ps). Qed.

(** What ipcget did to the permissions, back in the facility's table. *)
Lemma zip_perms_insert {A} (get : A -> ipc_perm) (put : A -> ipc_perm -> A) f i (l : list A) x :
  (forall y, put y (get y) = y) -> l !! i = Some x ->
  zip_with put l (alter f i (get <$> l)) = <[i := put x (f (get x))]> l.
Proof.
  intros Hid. assert (zip_with put l (get <$> l) = l) as Hz.
  { induction l as [|y l IH]; [done|]. cbn. by rewrite Hid, IH. }
  revert i Hz. induction l as [|y l IH]; intros [|i] Hz Hx; [done..| |]; cbn in Hz; injection Hz as _ Hz.
  - injection Hx as ->. cbn. by rewrite Hz.
  - cbn. rewrite Hid. f_equal. by apply IH.
Qed.
