(* ===== verification/Sem.v ===== *)
(** * System V semaphores: [src/sun/sys/sys/ipc_sem.c]

    The facility's tables are one record: the semaphore id pool [sema], the semaphore
    pool [sems], the map [semmap] the latter is allocated from (any implementation of
    [Alloc.ResMap]), the pool of undo structures [semu] with the chain of active ones
    ([semunp]), the chain of free ones ([semfup]) and the per-process table [sem_undo].
    Pointers to semaphores and undo structures are indices into their pools; a chain
    linked through [un_np] is the list of the indices on it, in order. *)

From S2P Require Import Prelude Rmap Ipc.
From stdpp Require Import prelude list numbers strings.
From Stdlib Require Import ZArith Lia.

Local Open Scope Z_scope.

Definition SEM_UNDO := 0x1000.
Definition SEM_A := 0x80.
Definition SEM_R := 0x100.

Record seminfo := Seminfo {
  semmni : Z; semmns : Z; semmnu : nat; semmsl : Z; semopm : Z;
  semume : nat; semvmx : Z; semaem : Z
}.

Record sem := Sem { semval : Z; sempid : Z; semncnt : Z; semzcnt : Z }.
Record semid_ds := SemidDs {
  sem_perm : ipc_perm; sem_base : Z; sem_nsems : Z; sem_otime : Z; sem_ctime : Z
}.
Record undo := Undo { un_aoe : Z; un_num : Z; un_id : Z }.
Record sembuf := Sembuf { sem_num : Z; sem_op : Z; sem_flg : Z }.

(** Sleep channels: the address of a semaphore's semncnt or semzcnt. *)
Inductive semchan := ChNcnt (i : nat) | ChZcnt (i : nat).

(** What copyout hands to the user. *)
Inductive semout := OutDs (d : semid_ds) | OutVals (vs : list Z).

Record semst (M : Type) := Semst {
  sema : list semid_ds; sems : list sem; semmap : M;
  semu : list (list undo); semunp : list nat; semfup : list nat;
  sem_undo : list (option nat);
  u_error : Z; u_rval1 : Z; wakes : list semchan; copied : list semout
}.
Arguments Semst {M}.
Arguments sema {M}. Arguments sems {M}. Arguments semmap {M}. Arguments semu {M}.
Arguments semunp {M}. Arguments semfup {M}. Arguments sem_undo {M}.
Arguments u_error {M}. Arguments u_rval1 {M}. Arguments wakes {M}. Arguments copied {M}.

Section Setters.
Context {M : Type}.
Implicit Type st : semst M.

Definition set_sema st x : semst M := Semst x (sems st) (semmap st) (semu st) (semunp st) (semfup st)
  (sem_undo st) (u_error st) (u_rval1 st) (wakes st) (copied st).
Definition set_sems st x : semst M := Semst (sema st) x (semmap st) (semu st) (semunp st) (semfup st)
  (sem_undo st) (u_error st) (u_rval1 st) (wakes st) (copied st).
Definition set_semmap st (x : M) : semst M := Semst (sema st) (sems st) x (semu st) (semunp st) (semfup st)
  (sem_undo st) (u_error st) (u_rval1 st) (wakes st) (copied st).
Definition set_undo st u np fp t : semst M := Semst (sema st) (sems st) (semmap st) u np fp
  t (u_error st) (u_rval1 st) (wakes st) (copied st).
Definition set_error st x : semst M := Semst (sema st) (sems st) (semmap st) (semu st) (semunp st)
  (semfup st) (sem_undo st) x (u_rval1 st) (wakes st) (copied st).
Definition set_rval st x : semst M := Semst (sema st) (sems st) (semmap st) (semu st) (semunp st)
  (semfup st) (sem_undo st) (u_error st) x (wakes st) (copied st).
Definition add_wake st c : semst M := Semst (sema st) (sems st) (semmap st) (semu st) (semunp st)
  (semfup st) (sem_undo st) (u_error st) (u_rval1 st) (wakes st ++ [c]) (copied st).
Definition add_copy st o : semst M := Semst (sema st) (sems st) (semmap st) (semu st) (semunp st)
  (semfup st) (sem_undo st) (u_error st) (u_rval1 st) (wakes st) (copied st ++ [o]).
End Setters.

(** ** Adjust-on-exit entries *)

Section Undo.
Context {M : Type}.
Implicit Type st : semst M.

(** An entry sorts before (id, num). *)
Definition undo_lt (e : undo) (id num : Z) : bool :=
  (un_id e <? id) || ((un_id e =? id) && (un_num e <? num)).
Definition undo_is (e : undo) (id num : Z) : bool :=
  (un_id e =? id) && (un_num e =? num).

(** The search loop of semaoe: the entries before the insertion point, and the rest. *)
Fixpoint undo_split (es : list undo) (id num : Z) : list undo * list undo :=
  match es with
  | [] => ([], [])
  | e :: es' =>
      if undo_lt e id num
      then let r := undo_split es' id num in (e :: r.1, r.2) else ([], es)
  end.

(** The undo structure of process [p], taking a free one when it has none yet. *)
Definition semaoe_struct st (p : nat) : option (nat * semst M) :=
  match sem_undo st !! p with
  | Some (Some up) => Some (up, st)
  | _ =>
      match semfup st with
      | up :: fs => Some (up, set_undo st (semu st) (semunp st) fs (<[p := Some up]> (sem_undo st)))
      | [] => None
      end
  end.

(** semaoe(): [true] is the code's return value 1, the failure. *)
Definition semaoe (si : seminfo) (p : nat) (val id num : Z) st : bool * semst M :=
  if val =? 0 then (false, st)
  else if (semaem si <? val) || (val <? - semaem si) then (true, set_error st ERANGE)
  else
    match semaoe_struct st p with
    | None => (true, set_error st ENOSPC)
    | Some (up, st) =>
        let es := default [] (semu st !! up) in
        let '(pre, post) := undo_split es id num in
        let insert_new :=
          if (semume si <=? length es)%nat then (true, set_error st EINVAL)
          else
            let np := if (length es =? 0)%nat then up :: semunp st else semunp st in
            (false, set_undo st (<[up := pre ++ Undo (wraps 16 (- val)) num id :: post]> (semu st))
                      np (semfup st) (sem_undo st)) in
        match post with
        | e :: post' =>
            if undo_is e id num then
              let aoe := wraps 16 (un_aoe e - val) in
              if (semaem si <? aoe) || (aoe <? - semaem si) then
                (true, set_error (set_undo st (<[up := pre ++ Undo (wraps 16 (aoe + val)) (un_num e) (un_id e) :: post']> (semu st))
                                    (semunp st) (semfup st) (sem_undo st)) ERANGE)
              else if aoe =? 0 then
                let es' := pre ++ post' in
                (false, set_undo st (<[up := es']> (semu st))
                          (if (length es' =? 0)%nat then unlink up (semunp st) else semunp st)
                          (semfup st) (sem_undo st))
              else
                (false, set_undo st (<[up := pre ++ Undo aoe (un_num e) (un_id e) :: post']> (semu st))
                          (semunp st) (semfup st) (sem_undo st))
            else insert_new
        | [] => insert_new
        end
    end.

(** semunrm(): squeeze out the entries of [id] between [low] and [high]. *)
Fixpoint semunrm_ent (id low high : Z) (es : list undo) : list undo :=
  match es with
  | [] => []
  | e :: es' =>
      if id <? un_id e then es
      else if (un_id e <? id) || (un_num e <? low) then e :: semunrm_ent id low high es'
      else if high <? un_num e then es
      else semunrm_ent id low high es'
  end.

(** The walk along the active chain; structures that become empty are unlinked. *)
Fixpoint semunrm_walk (id low high : Z) (chain : list nat) (us : list (list undo))
    : list nat * list (list undo) :=
  match chain with
  | [] => ([], us)
  | p :: ps =>
      let es := semunrm_ent id low high (default [] (us !! p)) in
      let r := semunrm_walk id low high ps (<[p := es]> us) in
      ((if (length es =? 0)%nat then r.1 else p :: r.1), r.2)
  end.

Definition semunrm (id low high : Z) st : semst M :=
  let r := semunrm_walk id (wrapu 16 low) (wrapu 16 high) (semunp st) (semu st) in
  set_undo st r.2 r.1 (semfup st) (sem_undo st).

(** ** Identifiers *)

(** semconv(): the slot of a semid, or EINVAL. *)
Definition semconv (si : seminfo) (s : Z) st : option nat :=
  if s <? 0 then None
  else
    match sema st !! Z.to_nat (s mod semmni si) with
    | None => None
    | Some sp =>
        if negb (allocated_perm (sem_perm sp)) ||
           negb (s / semmni si =? pseq (sem_perm sp))
        then None else Some (Z.to_nat (s mod semmni si))
    end.

(** ** Semaphore cells *)

Definition get_sem (i : nat) st : res sem := rd (sems st) i.
Definition put_sem (i : nat) (s : sem) st : res (semst M) :=
  l ← wr (sems st) i s; mret (set_sems st l).

Definition with_val (s : sem) (v : Z) := Sem (wrapu 16 v) (sempid s) (semncnt s) (semzcnt s).
Definition with_pid (s : sem) (v : Z) := Sem (semval s) (wraps 16 v) (semncnt s) (semzcnt s).
Definition with_ncnt (s : sem) (v : Z) := Sem (semval s) (sempid s) (wrapu 16 v) (semzcnt s).
Definition with_zcnt (s : sem) (v : Z) := Sem (semval s) (sempid s) (semncnt s) (wrapu 16 v).

(** [if (semp->semncnt) { semp->semncnt = 0; wakeup(&semp->semncnt); }] *)
Definition wake_ncnt (i : nat) st : res (semst M) :=
  s ← get_sem i st;
  if semncnt s =? 0 then mret st
  else st ← put_sem i (with_ncnt s 0) st; mret (add_wake st (ChNcnt i)).
Definition wake_zcnt (i : nat) st : res (semst M) :=
  s ← get_sem i st;
  if semzcnt s =? 0 then mret st
  else st ← put_sem i (with_zcnt s 0) st; mret (add_wake st (ChZcnt i)).

(** [sp->sem_base + num] as an index of the pool. *)
Definition sem_idx (sp : semid_ds) (num : Z) : nat := Z.to_nat (sem_base sp + num).

(** ** semundo *)

(** One step of semundo's loop. *)
Definition semundo1 (si : seminfo) (p : nat) (id : Z) (sp : semid_ds) (op : sembuf) st
    : res (semst M) :=
  if sem_op op =? 0 then mret st
  else
    s ← get_sem (sem_idx sp (sem_num op)) st;
    st ← put_sem (sem_idx sp (sem_num op)) (with_val s (semval s - sem_op op)) st;
    mret (if Z.land (sem_flg op) SEM_UNDO =? 0 then st
          else (semaoe si p (wraps 16 (- sem_op op)) id (sem_num op) st).2).

(** semundo(): [done] holds the operations that were done, latest first. *)
Fixpoint semundo (si : seminfo) (p : nat) (id : Z) (sp : semid_ds) (done : list sembuf) st
    : res (semst M) :=
  match done with
  | [] => mret st
  | op :: ops => st ← semundo1 si p id sp op st; semundo si p id sp ops st
  end.

(** ** semop *)

(** How the loop over the operations ends: all done, an error (already in u_error), or
    the process must sleep on a channel. *)
Inductive semop_end :=
| SemDone
| SemErr
| SemSleep (c : semchan).


(** One operation.  [None]: it is done, go on with the next. *)
Definition semop1 (si : seminfo) (p : nat) (id : Z) (sp : semid_ds) (done : list sembuf)
    (op : sembuf) st : res (option semop_end * semst M) :=
  let i := sem_idx sp (sem_num op) in
  s ← get_sem i st;
  if 0 <? sem_op op then
    let over := semvmx si <? sem_op op + semval s in
    let '(bad, st) :=
      if over then (true, st)
      else if has_flag (sem_flg op) SEM_UNDO then semaoe si p (sem_op op) id (sem_num op) st
      else (false, st) in
    if bad then
      let st := if u_error st =? 0 then set_error st ERANGE else st in
      st ← semundo si p id sp done st;
      mret (Some SemErr, st)
    else
      s ← get_sem i st;
      st ← put_sem i (with_val s (semval s + sem_op op)) st;
      st ← wake_ncnt i st;
      s ← get_sem i st;
      st ← (if semval s =? 0 then wake_zcnt i st else mret st);
      mret (None, st)
  else if sem_op op <? 0 then
    if - sem_op op <=? semval s then
      let '(bad, st) :=
        if has_flag (sem_flg op) SEM_UNDO then semaoe si p (sem_op op) id (sem_num op) st
        else (false, st) in
      if bad then st ← semundo si p id sp done st; mret (Some SemErr, st)
      else
        s ← get_sem i st;
        st ← put_sem i (with_val s (semval s + sem_op op)) st;
        s ← get_sem i st;
        st ← (if semval s =? 0 then wake_zcnt i st else mret st);
        mret (None, st)
    else
      st ← semundo si p id sp done st;
      if has_flag (sem_flg op) IPC_NOWAIT then mret (Some SemErr, set_error st EAGAIN)
      else
        s ← get_sem i st;
        st ← put_sem i (with_ncnt s (semncnt s + 1)) st;
        mret (Some (SemSleep (ChNcnt i)), st)
  else if semval s =? 0 then mret (None, st)
  else
    st ← semundo si p id sp done st;
    if has_flag (sem_flg op) IPC_NOWAIT then mret (Some SemErr, set_error st EAGAIN)
    else
      s ← get_sem i st;
      st ← put_sem i (with_zcnt s (semzcnt s + 1)) st;
      mret (Some (SemSleep (ChZcnt i)), st).

(** The loop over the operations. *)
Fixpoint semop_loop (si : seminfo) (p : nat) (id : Z) (sp : semid_ds)
    (done ops : list sembuf) st : res (semop_end * semst M) :=
  match ops with
  | [] => mret (SemDone, st)
  | op :: ops' =>
      r ← semop1 si p id sp done op st;
      match r.1 with
      | Some e => mret (e, r.2)
      | None => semop_loop si p id sp (op :: done) ops' r.2
      end
  end.

(** After the loop: sempid of every semaphore accessed, and sem_otime. *)
Fixpoint semop_pids (sp : semid_ds) (pid : Z) (ops : list sembuf) st : res (semst M) :=
  match ops with
  | [] => mret st
  | op :: ops' =>
      s ← get_sem (sem_idx sp (sem_num op)) st;
      st ← put_sem (sem_idx sp (sem_num op)) (with_pid s pid) st;
      semop_pids sp pid ops' st
  end.

Definition with_otime (sp : semid_ds) (t : Z) :=
  SemidDs (sem_perm sp) (sem_base sp) (sem_nsems sp) t (sem_ctime sp).
Definition with_perm (sp : semid_ds) (pm : ipc_perm) :=
  SemidDs pm (sem_base sp) (sem_nsems sp) (sem_otime sp) (sem_ctime sp).

(** From [check:] on: [inl c] when the process goes to sleep on [c], [inr st] when
    semop is over. *)
Definition semop_check (si : seminfo) (u : ucred) (now id : Z) (i : nat) (again : bool)
    (ops : list sembuf) st : res ((semchan * semst M) + semst M) :=
  if again && bool_decide (semconv si id st = None)
  then mret (inr (set_error st EIDRM))
  else
    sp ← rd (sema st) i;
    r ← semop_loop si (u_procp u) id sp [] ops st;
    match r.1 with
    | SemSleep c => mret (inl (c, r.2))
    | SemErr => mret (inr r.2)
    | SemDone =>
        st ← semop_pids sp (u_pid u) ops r.2;
        sp ← rd (sema st) i;
        l ← wr (sema st) i (with_otime sp now);
        mret (inr (set_sema st l))
    end.

(** sleep() returned: [intr] when a signal cut it short (EINTR), in which case the
    process leaves the count of waiters. *)
Definition semop_woken (c : semchan) (intr : bool) st : res (option (semst M)) :=
  if intr then
    match c with
    | ChNcnt i =>
        s ← get_sem i st;
        st' ← put_sem i (with_ncnt s (semncnt s - 1)) st;
        if semncnt s <=? 1 then
          st' ← put_sem i (with_ncnt s 0) st;
          mret (Some (set_error (add_wake st' (ChNcnt i)) EINTR))
        else mret (Some (set_error st' EINTR))
    | ChZcnt i =>
        s ← get_sem i st;
        st' ← put_sem i (with_zcnt s (semzcnt s - 1)) st;
        if semzcnt s <=? 1 then
          st' ← put_sem i (with_zcnt s 0) st;
          mret (Some (set_error (add_wake st' (ChZcnt i)) EINTR))
        else mret (Some (set_error st' EINTR))
    end
  else mret None.

(** The checks before [check:]: permission and range of every operation. *)
Fixpoint semop_verify (u : ucred) (sp : semid_ds) (ops : list sembuf) : option Z :=
  match ops with
  | [] => None
  | op :: ops' =>
      match ipcaccess u (sem_perm sp) (if sem_op op =? 0 then SEM_R else SEM_A) with
      | Some e => Some e
      | None =>
          if sem_nsems sp <=? wrapu 32 (sem_num op) then Some EFBIG
          else semop_verify u sp ops'
      end
  end.

(** semop() up to its first sleep or its end; [ops] is what copyin delivered. *)
Definition semop (si : seminfo) (u : ucred) (now id : Z) (nsops : Z)
    (ops : list sembuf + Z) st : res ((semchan * semst M) + semst M) :=
  match semconv si id st with
  | None => mret (inr (set_error st EINVAL))
  | Some i =>
      if semopm si <? nsops then mret (inr (set_error st E2BIG))
      else
        match ops with
        | inr e => mret (inr (set_error st e))
        | inl ops =>
            sp ← rd (sema st) i;
            match semop_verify u sp ops with
            | Some e => mret (inr (set_error st e))
            | None => semop_check si u now id i false ops st
            end
        end
  end.
End Undo.

(** ** semctl, semget, semexit, seminit *)

Definition GETNCNT := 3.
Definition GETPID := 4.
Definition GETVAL := 5.
Definition GETALL := 6.
Definition GETZCNT := 7.
Definition SETVAL := 8.
Definition SETALL := 9.

(** The fourth argument of semctl: its value, what copyin finds at it, and the error
    copyout to it would give (0: none). *)
Record semarg := Semarg {
  a_val : Z; a_ds : semid_ds + Z; a_vals : list Z + Z; a_outerr : Z
}.

Section Ctl.
Context {M : Type} `{RM : !ResMap M}.
Implicit Type st : semst M.

(** The RMID loop over the semaphores of the set, from index [i]. *)
Fixpoint rmid_clear (n i : nat) st : res (semst M) :=
  match n with
  | O => mret st
  | S n =>
      s ← get_sem i st;
      st ← put_sem i (Sem 0 0 (semncnt s) (semzcnt s)) st;
      st ← (if semncnt s =? 0 then mret st
            else let st := add_wake st (ChNcnt i) in
                 s ← get_sem i st; put_sem i (with_ncnt s 0) st);
      st ← (if semzcnt s =? 0 then mret st
            else let st := add_wake st (ChZcnt i) in
                 s ← get_sem i st; put_sem i (with_zcnt s 0) st);
      rmid_clear n (S i) st
  end.

(** The ownership test of RMID and SET. *)
Definition sem_owner (u : ucred) (sp : semid_ds) : option Z :=
  if negb (u_uid u =? uid (sem_perm sp)) && negb (u_uid u =? cuid (sem_perm sp))
  then suser u else None.

Definition sem_rmid (si : seminfo) (u : ucred) (semid : Z) (i : nat) (sp : semid_ds) st
    : res (semst M) :=
  match sem_owner u sp with
  | Some e => mret (set_error st e)
  | None =>
      let st := semunrm semid 0 (sem_nsems sp) st in
      st ← rmid_clear (Z.to_nat (sem_nsems sp)) (Z.to_nat (sem_base sp)) st;
      m ← rm_release (semmap st) (sem_nsems sp) (sem_base sp + 1);
      let st := set_semmap st m in
      let pm := sem_perm sp in
      let pm := if wraps 32 (semid + semmni si) <? 0 then perm_seq pm 0
                else perm_seq pm (pseq pm + 1) in
      l ← wr (sema st) i (with_perm sp (perm_mode pm 0));
      mret (set_sema st l)
  end.

(** [if (ipcaccess(...)) return; if (semnum >= nsems) EINVAL], then [k]. *)
Definition sem_checked (u : ucred) (sp : semid_ds) (mode semnum : Z) st
    (k : nat -> res (semst M)) : res (semst M) :=
  match ipcaccess u (sem_perm sp) mode with
  | Some e => mret (set_error st e)
  | None =>
      if sem_nsems sp <=? semnum then mret (set_error st EINVAL)
      else k (sem_idx sp semnum)
  end.

(** Store a new value and wake whoever it may interest. *)
Definition sem_assign (i : nat) (v : Z) st : res (semst M) :=
  s ← get_sem i st;
  st ← put_sem i (with_val s v) st;
  s ← get_sem i st;
  if semval s =? 0 then wake_zcnt i st else wake_ncnt i st.

Definition sem_setpid (i : nat) (pid : Z) st : res (semst M) :=
  s ← get_sem i st; put_sem i (with_pid s pid) st.

Fixpoint setall_loop (i : nat) (vs : list Z) (pid : Z) st : res (semst M) :=
  match vs with
  | [] => mret st
  | v :: vs' =>
      st ← sem_assign i v st;
      st ← sem_setpid i pid st;
      setall_loop (S i) vs' pid st
  end.

Definition semctl (si : seminfo) (u : ucred) (now semid semnum cmd : Z) (arg : semarg) st
    : res (semst M) :=
  match semconv si semid st with
  | None => mret (set_error st EINVAL)
  | Some i =>
    sp ← rd (sema st) i;
    let st := set_rval st 0 in
    if cmd =? IPC_RMID then sem_rmid si u semid i sp st
    else if cmd =? IPC_SET then
      match sem_owner u sp with
      | Some e => mret (set_error st e)
      | None =>
          match a_ds arg with
          | inr e => mret (set_error st e)
          | inl d =>
              let pm := sem_perm sp in
              let pm' := IpcPerm (uid (sem_perm d)) (gid (sem_perm d)) (cuid pm) (cgid pm)
                           (Z.lor (Z.land (pmode (sem_perm d)) 0x1ff) IPC_ALLOC)
                           (pseq pm) (key pm) in
              l ← wr (sema st) i (SemidDs pm' (sem_base sp) (sem_nsems sp) (sem_otime sp) now);
              mret (set_sema st l)
          end
      end
    else if cmd =? IPC_STAT then
      match ipcaccess u (sem_perm sp) SEM_R with
      | Some e => mret (set_error st e)
      | None => mret (if a_outerr arg =? 0 then add_copy st (OutDs sp)
                      else set_error st (a_outerr arg))
      end
    else if cmd =? GETNCNT then
      sem_checked u sp SEM_R semnum st (fun j => s ← get_sem j st; mret (set_rval st (semncnt s)))
    else if cmd =? GETPID then
      sem_checked u sp SEM_R semnum st (fun j => s ← get_sem j st; mret (set_rval st (sempid s)))
    else if cmd =? GETVAL then
      sem_checked u sp SEM_R semnum st (fun j => s ← get_sem j st; mret (set_rval st (semval s)))
    else if cmd =? GETALL then
      match ipcaccess u (sem_perm sp) SEM_R with
      | Some e => mret (set_error st e)
      | None =>
          let vs := semval <$> take (Z.to_nat (sem_nsems sp))
                                 (drop (Z.to_nat (sem_base sp)) (sems st)) in
          mret (if a_outerr arg =? 0 then add_copy st (OutVals vs)
                else set_error st (a_outerr arg))
      end
    else if cmd =? GETZCNT then
      sem_checked u sp SEM_R semnum st (fun j => s ← get_sem j st; mret (set_rval st (semzcnt s)))
    else if cmd =? SETVAL then
      sem_checked u sp SEM_A semnum st (fun j =>
        if semvmx si <? wrapu 32 (a_val arg) then mret (set_error st ERANGE)
        else
          st ← sem_assign j (a_val arg) st;
          st ← sem_setpid j (u_pid u) st;
          mret (semunrm semid semnum semnum st))
    else if cmd =? SETALL then
      match ipcaccess u (sem_perm sp) SEM_A with
      | Some e => mret (set_error st e)
      | None =>
          match a_vals arg with
          | inr e => mret (set_error st e)
          | inl vs =>
              if existsb (fun v => semvmx si <? v) vs then mret (set_error st ERANGE)
              else
                let st := semunrm semid 0 (sem_nsems sp) st in
                setall_loop (Z.to_nat (sem_base sp)) vs (u_pid u) st
          end
      end
    else mret (set_error st EINVAL)
  end.

(** semexit(): one entry of the exiting process. *)
Definition semexit1 (si : seminfo) (e : undo) st : res (semst M) :=
  match semconv si (un_id e) st with
  | None => mret (set_error st EINVAL)
  | Some i =>
      sp ← rd (sema st) i;
      let j := sem_idx sp (un_num e) in
      s ← get_sem j st;
      let v := semval s + un_aoe e in
      if (v <? 0) || (semvmx si <? v) then mret st
      else
        st ← put_sem j (with_val s v) st;
        st ← (if v =? 0 then wake_zcnt j st else mret st);
        if 0 <? un_aoe e then wake_ncnt j st else mret st
  end.

Fixpoint semexit_loop (si : seminfo) (es : list undo) st : res (semst M) :=
  match es with
  | [] => mret st
  | e :: es' => st ← semexit1 si e st; semexit_loop si es' st
  end.

Definition semexit (si : seminfo) (p : nat) st : res (semst M) :=
  match sem_undo st !! p with
  | Some (Some up) =>
      let es := default [] (semu st !! up) in
      st ← (if (length es =? 0)%nat then mret st
            else
              st ← semexit_loop si (rev es) st;
              mret (set_undo st (<[up := []]> (semu st)) (unlink up (semunp st))
                      (semfup st) (sem_undo st)));
      mret (set_undo st (semu st) (semunp st) (up :: semfup st) (<[p := None]> (sem_undo st)))
  | _ => mret st
  end.

(** semget() *)
Definition set_perms (sa : list semid_ds) (ps : list ipc_perm) : list semid_ds :=
  zip_with with_perm sa ps.

Definition semget (si : seminfo) (u : ucred) (now k nsems flg : Z) st : res (semst M) :=
  match ipcget u k flg (sem_perm <$> sema st) with
  | (IpcError e, _) => mret (set_error st e)
  | (IpcFound i, _) =>
      sp ← rd (sema st) i;
      if negb (nsems =? 0) && (sem_nsems sp <? nsems) then mret (set_error st EINVAL)
      else mret (set_rval st (pseq (sem_perm sp) * semmni si + Z.of_nat i))
  | (IpcNew i, ps) =>
      let st := set_sema st (set_perms (sema st) ps) in
      sp ← rd (sema st) i;
      let undo_init e :=
        l ← wr (sema st) i (with_perm sp (perm_mode (sem_perm sp) 0));
        mret (set_error (set_sema st l) e) in
      if (nsems <=? 0) || (semmsl si <? nsems) then undo_init EINVAL
      else
        r ← rm_alloc (semmap st) nsems;
        if r.1 =? 0 then undo_init ENOSPC
        else
          let sp' := SemidDs (sem_perm sp) (r.1 - 1) (wrapu 16 nsems) 0 now in
          l ← wr (sema st) i sp';
          let st := set_sema (set_semmap st r.2) l in
          mret (set_rval st (pseq (sem_perm sp') * semmni si + Z.of_nat i))
  end.

(** seminit() threads every undo structure on the free chain; the map is initialised by
    the caller of this definition with rminit(semmap, semmns, 1, "semmap", ...). *)
Definition seminit (si : seminfo) (nproc : nat) (m : M) : semst M :=
  Semst (replicate (Z.to_nat (semmni si)) (SemidDs (IpcPerm 0 0 0 0 0 0 0) 0 0 0 0))
        (replicate (Z.to_nat (semmns si)) (Sem 0 0 0 0)) m
        (replicate (semmnu si) []) [] (seq 0 (semmnu si)) (replicate nproc None) 0 0 [] [].
End Ctl.
