(* ===== verification/SemUndo.v ===== *)
(** * The adjust-on-exit entries of [Sem]

    The entries of an undo structure, read as a finite map from (semid, number) to the
    adjustment; semaoe and semunrm as operations on that map, and the invariant of the
    pool of undo structures. *)

From S2P Require Import Prelude Rmap Ipc Sem.
From stdpp Require Import prelude list numbers strings.
From Stdlib Require Import ZArith Lia Sorted.

Local Open Scope Z_scope.

(** ** One structure's entries *)

(** The order the entries are kept in. *)
Definition ulex (i1 n1 i2 n2 : Z) : Prop := i1 < i2 \/ (i1 = i2 /\ n1 < n2).
Definition ult (a b : undo) : Prop := ulex (un_id a) (un_num a) (un_id b) (un_num b).

Fixpoint ents_sorted (es : list undo) : Prop :=
  match es with
  | [] => True
  | e :: es' => Forall (ult e) es' /\ ents_sorted es'
  end.

Definition aoe_ok (si : seminfo) (e : undo) : Prop :=
  un_aoe e <> 0 /\ - semaem si <= un_aoe e <= semaem si.

Definition ents_wf (si : seminfo) (es : list undo) : Prop :=
  ents_sorted es /\ Forall (aoe_ok si) es /\ (length es <= semume si)%nat.

(** The adjustment recorded for a semaphore; 0 when there is none. *)
Fixpoint aoe (es : list undo) (id num : Z) : Z :=
  match es with
  | [] => 0
  | e :: es' => if undo_is e id num then un_aoe e else aoe es' id num
  end.

(** The limits under which 16-bit entries never lie: SEMAEM is 16384. *)
Definition si_ok (si : seminfo) : Prop :=
  0 <= semaem si <= 16384 /\ 0 <= semvmx si <= 32767 /\ 0 < semmni si.

(** What semaoe does to the entries, the error it reports otherwise. *)
Definition ents_adjust (si : seminfo) (es : list undo) (val id num : Z) : list undo + Z :=
  let '(pre, post) := undo_split es id num in
  let insert_new :=
    if (semume si <=? length es)%nat then inr EINVAL
    else inl (pre ++ Undo (wraps 16 (- val)) num id :: post) in
  match post with
  | e :: post' =>
      if undo_is e id num then
        let a := wraps 16 (un_aoe e - val) in
        if (semaem si <? a) || (a <? - semaem si) then inr ERANGE
        else if a =? 0 then inl (pre ++ post')
        else inl (pre ++ Undo a (un_num e) (un_id e) :: post')
      else insert_new
  | [] => insert_new
  end.

Lemma undo_is_spec e id num : undo_is e id num = true <-> un_id e = id /\ un_num e = num.
Proof. unfold undo_is. rewrite andb_true_iff, !Z.eqb_eq. tauto. Qed.

Lemma undo_lt_spec e id num :
  undo_lt e id num = true <-> ulex (un_id e) (un_num e) id num.
Proof. unfold undo_lt, ulex. lia. Qed.

Lemma ult_trans a b c : ult a b -> ult b c -> ult a c.
Proof. unfold ult, ulex. lia. Qed.

Lemma undo_split_spec es id num :
  ents_sorted es ->
  es = (undo_split es id num).1 ++ (undo_split es id num).2
  /\ Forall (fun e => ulex (un_id e) (un_num e) id num) (undo_split es id num).1
  /\ (forall e r, (undo_split es id num).2 = e :: r ->
        (undo_is e id num = true \/ ulex id num (un_id e) (un_num e))
        /\ Forall (fun x => ulex id num (un_id x) (un_num x)) r).
Proof.
  induction es as [|e es IH]; simpl; intros Hs; [done|].
  destruct Hs as [He Hs]. destruct (undo_lt e id num) eqn:El; simpl.
  - destruct (IH Hs) as (E&H1&H2). split_and!; [by f_equal| |done].
    constructor; [by apply undo_lt_spec|done].
  - split_and!; [done|constructor|]. intros e' r [= <- <-].
    assert (~ ulex (un_id e) (un_num e) id num) as Hn
      by (intros H; apply undo_lt_spec in H; congruence).
    split.
    + destruct (undo_is e id num) eqn:Ei; [by left|right].
      assert (~ (un_id e = id /\ un_num e = num)) by (intros H%undo_is_spec; congruence).
      unfold ulex in *. lia.
    + eapply Forall_impl; [exact He|]. unfold ult, ulex in *. intros x. lia.
Qed.

(** Sortedness and lookup across a split. *)
Lemma ents_sorted_app a b :
  ents_sorted (a ++ b) <->
  ents_sorted a /\ ents_sorted b /\ Forall (fun x => Forall (ult x) b) a.
Proof.
  induction a as [|x a IH]; simpl; [intuition constructor|].
  rewrite IH, Forall_app, Forall_cons. tauto.
Qed.

Lemma aoe_app_ne a b id num :
  Forall (fun e => undo_is e id num = false) a -> aoe (a ++ b) id num = aoe b id num.
Proof.
  induction a as [|x a IH]; simpl; [done|]. intros [Hx Ha]%Forall_cons. by rewrite Hx, IH.
Qed.

Lemma aoe_none b id num : Forall (fun e => undo_is e id num = false) b -> aoe b id num = 0.
Proof. intros H. rewrite <- (app_nil_r b). by rewrite aoe_app_ne. Qed.

Lemma aoe_skip a e b id num :
  undo_is e id num = false -> aoe (a ++ e :: b) id num = aoe (a ++ b) id num.
Proof.
  intros He. induction a as [|x a IH]; simpl; [by rewrite He|].
  destruct (undo_is x id num); auto.
Qed.

Lemma ulex_not_is e id num :
  ulex (un_id e) (un_num e) id num \/ ulex id num (un_id e) (un_num e) ->
  undo_is e id num = false.
Proof.
  intros H. destruct (undo_is e id num) eqn:E; [|done].
  apply undo_is_spec in E. unfold ulex in H. lia.
Qed.

Lemma undo_is_other e id num id' num' :
  undo_is e id num = true -> (id', num') <> (id, num) -> undo_is e id' num' = false.
Proof.
  intros [E1 E2]%undo_is_spec Hne. destruct (undo_is e id' num') eqn:E'; [|done].
  apply undo_is_spec in E' as [E3 E4]. congruence.
Qed.

(** ** ents_adjust *)

(** The three successful shapes of ents_adjust, with the split made explicit. *)
Lemma ents_adjust_inv si es val id num es' :
  si_ok si -> ents_wf si es -> val <> 0 -> - semaem si <= val <= semaem si ->
  ents_adjust si es val id num = inl es' ->
  exists pre mid post mid', es = pre ++ mid ++ post /\ es' = pre ++ mid' ++ post
    /\ Forall (fun e => ulex (un_id e) (un_num e) id num) pre
    /\ Forall (fun e => ulex id num (un_id e) (un_num e)) post
    /\ (mid = [] /\ mid' = [Undo (- val) num id] /\ (length es < semume si)%nat \/
        exists a, mid = [Undo a num id] /\ - semaem si <= a - val <= semaem si
          /\ mid' = if a - val =? 0 then [] else [Undo (a - val) num id]).
Proof.
  intros (Ha&_) (Hs&Hok&_) Hv Hr Hadj. unfold ents_adjust in Hadj.
  destruct (undo_split_spec es id num Hs) as (E&Hpre&Hpost).
  destruct (undo_split es id num) as [pre post]. simpl in E, Hpre, Hpost.
  assert (Hok' : Forall (aoe_ok si) (pre ++ post)) by (by rewrite <- E).
  assert (wraps 16 (- val) = - val) as Ew by (apply wraps_small; lia).
  destruct post as [|e post].
  - destruct (semume si <=? length es)%nat eqn:El; [done|]. injection Hadj as <-.
    exists pre, [], [], [Undo (- val) num id]. rewrite Ew. split_and!; auto.
    left. apply Nat.leb_gt in El. auto.
  - destruct (Hpost e post eq_refl) as [Hc Hp].
    destruct (undo_is e id num) eqn:Ei.
    + apply Forall_app in Hok' as [_ Hoke]. apply Forall_cons in Hoke as [[_ Hoke] _].
      apply undo_is_spec in Ei as [E1 E2]. destruct e as [a n i]; simpl in *; subst n i.
      assert (wraps 16 (a - val) = a - val \/ a - val = 32768 /\ wraps 16 (a - val) = - 32768) as Hw.
      { destruct (Z.eq_dec (a - val) 32768) as [->|]; [right; split; [done|vm_compute; done]|].
        left. apply wraps_small; simpl; lia. }
      destruct ((semaem si <? wraps 16 (a - val)) || (wraps 16 (a - val) <? - semaem si)) eqn:Eo;
        [done|].
      destruct Hw as [Hw|[_ Hw]]; rewrite Hw in *; [|lia].
      exists pre, [Undo a num id], post.
      destruct (Z.eqb_spec (a - val) 0).
      * injection Hadj as <-. exists []. split_and!; auto. right. exists a.
        split_and!; auto; [lia..|]. by rewrite (proj2 (Z.eqb_eq _ _)).
      * injection Hadj as <-. exists [Undo (a - val) num id]. split_and!; auto. right. exists a.
        split_and!; auto; [lia..|]. by rewrite (proj2 (Z.eqb_neq _ _)).
    + destruct Hc as [?|Hc]; [done|].
      destruct (semume si <=? length es)%nat eqn:El; [done|]. injection Hadj as <-.
      exists pre, [], (e :: post), [Undo (- val) num id]. rewrite Ew. split_and!; auto.
      left. apply Nat.leb_gt in El. auto.
Qed.

Lemma ents_sorted_mid pre mid post mid' id num :
  ents_sorted (pre ++ mid ++ post) ->
  Forall (fun e => ulex (un_id e) (un_num e) id num) pre ->
  Forall (fun e => ulex id num (un_id e) (un_num e)) post ->
  (mid' = [] \/ exists a, mid' = [Undo a num id]) -> ents_sorted (pre ++ mid' ++ post).
Proof.
  intros Hs Hpre Hpost Hm. rewrite !ents_sorted_app in Hs.
  destruct Hs as (H1&(_&H3&_)&H5).
  assert (Forall (fun x => Forall (ult x) post) pre) as H6.
  { eapply Forall_impl; [exact H5|]. intros x Hx. by apply Forall_app in Hx as [_ ?]. }
  destruct Hm as [->|[a ->]]; rewrite !ents_sorted_app.
  - split_and!; simpl; auto.
  - split_and!; simpl; auto.
    rewrite Forall_forall in H6, Hpre |- *. intros x Hx. apply Forall_cons. split.
    + by apply Hpre.
    + by apply H6.
Qed.

Lemma ents_adjust_wf si es val id num es' :
  si_ok si -> ents_wf si es -> val <> 0 -> - semaem si <= val <= semaem si ->
  ents_adjust si es val id num = inl es' -> ents_wf si es'.
Proof.
  intros Hsi Hwf Hv Hr Hadj.
  destruct (ents_adjust_inv _ _ _ _ _ _ Hsi Hwf Hv Hr Hadj)
    as (pre&mid&post&mid'&->&->&Hpre&Hpost&Hm).
  destruct Hwf as (Hs&Hok&Hl). apply Forall_app in Hok as [Hok1 Hok2].
  apply Forall_app in Hok2 as [Hok2 Hok3].
  split; [|split].
  - eapply ents_sorted_mid; eauto. destruct Hm as [(_&->&_)|(a&_&_&->)]; [eauto|].
    destruct (a - val =? 0); eauto.
  - rewrite !Forall_app. split_and!; auto. destruct Hm as [(_&->&_)|(a&_&?&->)].
    + apply Forall_singleton. split; simpl; lia.
    + destruct (Z.eqb_spec (a - val) 0); [constructor|]. apply Forall_singleton. by split; simpl.
  - revert Hl. rewrite !length_app.
    destruct Hm as [(->&->&Hlt)|(a&->&_&->)]; [rewrite !length_app in Hlt; simpl in *; lia|].
    destruct (a - val =? 0); simpl; lia.
Qed.

(** On success the recorded adjustment drops by [val], and nothing else changes. *)
Lemma ents_adjust_aoe si es val id num es' id' num' :
  si_ok si -> ents_wf si es -> val <> 0 -> - semaem si <= val <= semaem si ->
  ents_adjust si es val id num = inl es' ->
  aoe es' id' num' =
    aoe es id' num' - (if decide ((id', num') = (id, num)) then val else 0).
Proof.
  intros Hsi Hwf Hv Hr Hadj.
  destruct (ents_adjust_inv _ _ _ _ _ _ Hsi Hwf Hv Hr Hadj)
    as (pre&mid&post&mid'&->&->&Hpre&Hpost&Hm).
  assert (forall a, undo_is (Undo a num id) id num = true) as Hself
    by (intros; by apply undo_is_spec).
  destruct (decide ((id', num') = (id, num))) as [[= -> ->]|Hne].
  - assert (Forall (fun e => undo_is e id num = false) pre) as Hpn.
    { eapply Forall_impl; [exact Hpre|]. intros; apply ulex_not_is. by left. }
    rewrite (aoe_app_ne pre (mid' ++ post)), (aoe_app_ne pre (mid ++ post)) by done.
    assert (aoe post id num = 0) as Hp.
    { apply aoe_none. eapply Forall_impl; [exact Hpost|]. intros; apply ulex_not_is. by right. }
    destruct Hm as [(->&->&_)|(a&->&_&->)]; simpl; rewrite ?Hself; [lia|].
    destruct (Z.eqb_spec (a - val) 0); simpl; rewrite ?Hself; simpl; lia.
  - rewrite Z.sub_0_r.
    assert (forall a, undo_is (Undo a num id) id' num' = false) as Hoth.
    { intros a. eapply undo_is_other; [apply Hself|done]. }
    destruct Hm as [(->&->&_)|(a&->&_&->)]; simpl.
    + by rewrite aoe_skip.
    + rewrite aoe_skip by done. destruct (a - val =? 0); simpl; [done|by rewrite aoe_skip].
Qed.

(** semaoe with the opposite value undoes semaoe exactly. *)
Lemma undo_split_mid pre mid post id num :
  Forall (fun e => ulex (un_id e) (un_num e) id num) pre ->
  Forall (fun e => ~ ulex (un_id e) (un_num e) id num) (mid ++ post) ->
  undo_split (pre ++ mid ++ post) id num = (pre, mid ++ post).
Proof.
  intros Hpre Hn. induction Hpre as [|x pre Hx _ IH]; simpl.
  - destruct (mid ++ post) as [|e r]; [done|]. simpl.
    apply Forall_cons in Hn as [Hn _]. rewrite <- undo_lt_spec in Hn.
    by destruct (undo_lt e id num).
  - rewrite (proj2 (undo_lt_spec x id num) Hx), IH. done.
Qed.

Lemma ents_adjust_inverse si es val id num es' :
  si_ok si -> ents_wf si es -> val <> 0 -> - semaem si <= val <= semaem si ->
  ents_adjust si es val id num = inl es' ->
  ents_adjust si es' (- val) id num = inl es.
Proof.
  intros Hsi Hwf Hv Hr Hadj.
  destruct (ents_adjust_inv _ _ _ _ _ _ Hsi Hwf Hv Hr Hadj)
    as (pre&mid&post&mid'&->&->&Hpre&Hpost&Hm).
  destruct Hsi as (Ha&_). destruct Hwf as (_&Hok&Hl).
  assert (Forall (fun e => ~ ulex (un_id e) (un_num e) id num) post) as Hnp.
  { eapply Forall_impl; [exact Hpost|]. unfold ulex. intros e; simpl; lia. }
  assert (forall a, undo_is (Undo a num id) id num = true) as Hself
    by (intros; by apply undo_is_spec).
  assert (forall a, Forall (fun e => ~ ulex (un_id e) (un_num e) id num) ([Undo a num id] ++ post)) as Hnm.
  { intros a. apply Forall_app. split; [|done]. apply Forall_singleton. unfold ulex; simpl; lia. }
  unfold ents_adjust. destruct Hm as [(->&->&Hlt)|(a&->&Hb&->)].
  - rewrite undo_split_mid by done. simpl. rewrite Hself.
    replace (- val - - val) with 0 by lia. simpl wraps.
    change (wraps 16 0) with 0.
    replace ((semaem si <? 0) || (0 <? - semaem si)) with false by lia. done.
  - apply Forall_app in Hok as [_ Hok]. apply Forall_app in Hok as [Hok _].
    apply Forall_singleton in Hok as [Hnz Hra]. simpl in Hnz, Hra.
    assert (wraps 16 a = a) as Ewa by (apply wraps_small; simpl; lia).
    destruct (Z.eqb_spec (a - val) 0).
    + rewrite undo_split_mid by done. simpl app.
      replace (semume si <=? length (pre ++ post))%nat with false.
      2: { symmetry. apply Nat.leb_gt. revert Hl. rewrite !length_app. simpl. lia. }
      replace (- - val) with a by lia. rewrite Ewa.
      destruct post as [|x post]; [done|].
      apply Forall_cons in Hpost as [Hpe _]. by rewrite ulex_not_is by auto.
    + rewrite undo_split_mid by done. simpl. rewrite Hself.
      replace (a - val - - val) with a by lia. rewrite Ewa.
      replace ((semaem si <? a) || (a <? - semaem si)) with false by lia.
      by rewrite (proj2 (Z.eqb_neq _ _) Hnz).
Qed.

(** ** The pool of undo structures *)

Section Pool.
Context {M : Type}.
Implicit Type st : semst M.

(** The structure of process [p], and its entries (none when it has no structure). *)
Definition owns st (p up : nat) : Prop := sem_undo st !! p = Some (Some up).
Definition pents st (p : nat) : list undo :=
  match sem_undo st !! p with
  | Some (Some up) => default [] (semu st !! up)
  | _ => []
  end.

(** The pool's invariant: entries well formed; owned and free structures apart, free ones
    empty; the active chain holds exactly the structures with entries. *)
Record undo_wf (si : seminfo) st : Prop := UndoWf {
  uw_ents : Forall (ents_wf si) (semu st);
  uw_own : forall p up, owns st p up -> (up < length (semu st))%nat /\ up ∉ semfup st;
  uw_inj : forall p q up, owns st p up -> owns st q up -> p = q;
  uw_free : forall up, up ∈ semfup st -> semu st !! up = Some [];
  uw_fnd : NoDup (semfup st);
  uw_and : NoDup (semunp st);
  uw_act : forall up, up ∈ semunp st <-> exists e es, semu st !! up = Some (e :: es)
}.

(** Two states that agree on everything but the undo pool, the error and the waiters. *)
Definition same_tables st st' : Prop :=
  sema st' = sema st /\ semmap st' = semmap st /\
  length (sem_undo st') = length (sem_undo st).

Lemma pents_owns st p up : owns st p up -> pents st p = default [] (semu st !! up).
Proof. unfold owns, pents. by intros ->. Qed.

Lemma pents_wf si st p : undo_wf si st -> ents_wf si (pents st p).
Proof.
  intros Hw. unfold pents. destruct (sem_undo st !! p) as [[up|]|]; simpl.
  2,3: split; [done|split; [constructor|simpl; lia]].
  destruct (semu st !! up) as [es|] eqn:E; simpl.
  - exact (Forall_lookup_1 _ _ _ _ (uw_ents _ _ Hw) E).
  - split; [done|split; [constructor|simpl; lia]].
Qed.

(** Taking a structure from the free chain changes no entries. *)
Lemma semaoe_struct_spec si st p up st1 :
  undo_wf si st -> (p < length (sem_undo st))%nat -> semaoe_struct st p = Some (up, st1) ->
  undo_wf si st1 /\ owns st1 p up /\ (forall q, pents st1 q = pents st q)
  /\ same_tables st st1 /\ sems st1 = sems st /\ u_error st1 = u_error st.
Proof.
  intros Hw Hp. unfold semaoe_struct, same_tables.
  destruct (sem_undo st !! p) as [[u0|]|] eqn:E.
  { intros [= -> <-]. split_and!; auto. }
  2: { apply lookup_ge_None in E. lia. }
  destruct (semfup st) as [|u0 fs] eqn:Ef; [done|]. intros [= -> <-].
  assert (up ∈ semfup st) as Hin by (rewrite Ef; left).
  pose proof (uw_free _ _ Hw _ Hin) as Hemp.
  pose proof (uw_fnd _ _ Hw) as Hnd. rewrite Ef in Hnd. apply NoDup_cons in Hnd as [Hni Hnd].
  assert (forall q v, owns (set_undo st (semu st) (semunp st) fs (<[p:=Some up]> (sem_undo st))) q v
     -> (q = p /\ v = up) \/ (q <> p /\ owns st q v)) as Hown.
  { intros q v. unfold owns. simpl. destruct (decide (q = p)) as [->|].
    - rewrite list_lookup_insert_eq by done. intros [= ->]. auto.
    - rewrite list_lookup_insert_ne by done. auto. }
  split_and!; simpl; auto using length_insert.
  - split; simpl; try apply Hw; auto.
    + intros q v [[-> ->]|[_ Hq]]%Hown.
      * split; [by apply lookup_lt_Some in Hemp|done].
      * destruct (uw_own _ _ Hw _ _ Hq) as [? Hn]. split; [done|].
        rewrite Ef in Hn. intros ?. apply Hn. by right.
    + intros q r v [[-> ->]|[? Hq]]%Hown [[-> Hv]|[? Hr]]%Hown; auto.
      * by destruct (uw_own _ _ Hw _ _ Hr).
      * subst v. by destruct (uw_own _ _ Hw _ _ Hq).
      * by apply (uw_inj _ _ Hw _ _ v).
    + intros v Hv. apply (uw_free _ _ Hw). rewrite Ef. by right.
  - by apply list_lookup_insert_eq.
  - intros q. unfold pents. simpl. destruct (decide (q = p)) as [->|].
    + rewrite list_lookup_insert_eq, E by done. by rewrite Hemp.
    + by rewrite list_lookup_insert_ne by done.
Qed.

(** Storing new entries into an owned structure, with the active chain to match. *)
Lemma undo_store si st p up es np :
  undo_wf si st -> owns st p up -> ents_wf si es -> NoDup np ->
  (forall v, v <> up -> v ∈ np <-> v ∈ semunp st) -> (up ∈ np <-> es <> []) ->
  let st' := set_undo st (<[up := es]> (semu st)) np (semfup st) (sem_undo st) in
  undo_wf si st' /\ owns st' p up /\ pents st' p = es
  /\ (forall q, q <> p -> pents st' q = pents st q).
Proof.
  intros Hw Hp Hes Hnd Hoth Hup st'.
  destruct (uw_own _ _ Hw _ _ Hp) as [Hlt Hnf].
  split_and!; [|exact Hp| |].
  - split; simpl; try apply Hw; auto.
    + apply Forall_insert; [apply Hw|done].
    + intros q v Hq. rewrite length_insert. by apply (uw_own _ _ Hw q).
    + intros v Hv. rewrite list_lookup_insert_ne; [by apply Hw|]. by intros ->.
    + intros v. destruct (decide (v = up)) as [->|Hne].
      * rewrite Hup, list_lookup_insert_eq by done. split.
        -- destruct es as [|e es']; [done|eauto].
        -- by intros (e&es'&[= ->]).
      * rewrite Hoth, list_lookup_insert_ne by done. apply Hw.
  - unfold pents, st'. simpl. rewrite Hp. by rewrite list_lookup_insert_eq.
  - intros q Hq. unfold pents, st'. simpl.
    destruct (sem_undo st !! q) as [[v|]|] eqn:E; [|done|done].
    rewrite list_lookup_insert_ne; [done|]. intros <-. by apply Hq, (uw_inj _ _ Hw _ _ up).
Qed.

(** The pool after a successful adjustment of process [p]'s entries. *)
Lemma semaoe_store si st p up es' :
  undo_wf si st -> owns st p up -> ents_wf si es' ->
  let es := default [] (semu st !! up) in
  let np := if (length es =? 0)%nat then up :: semunp st
            else if (length es' =? 0)%nat then unlink up (semunp st) else semunp st in
  (es = [] -> es' <> []) ->
  let st' := set_undo st (<[up := es']> (semu st)) np (semfup st) (sem_undo st) in
  undo_wf si st' /\ owns st' p up /\ pents st' p = es'
  /\ (forall q, q <> p -> pents st' q = pents st q).
Proof.
  intros Hw Hp Hes es np Hne.
  destruct (uw_own _ _ Hw _ _ Hp) as [Hlt _].
  assert (up ∈ semunp st <-> es <> []) as Hin.
  { rewrite (uw_act _ _ Hw). unfold es. apply lookup_lt_is_Some in Hlt as [l Hl].
    rewrite Hl. simpl. split; [by intros (?&?&[= ->])|].
    destruct l as [|a b]; [done|eauto]. }
  pose proof (uw_and _ _ Hw) as Hnd. pose proof (unlink_spec up _ Hnd) as [Hu1 Hu2].
  apply undo_store; auto; unfold np; destruct es as [|e0 r0]; simpl.
  - apply NoDup_cons. split; [|done]. rewrite Hin. tauto.
  - destruct es'; simpl; auto.
  - intros v Hv. rewrite elem_of_cons. tauto.
  - intros v Hv. destruct es'; simpl; [|done]. rewrite Hu2. tauto.
  - split; [auto|by left].
  - destruct es' as [|e1 r1]; simpl; [rewrite Hu2; tauto|]. rewrite Hin. split; done.
Qed.

(** semaoe(), through the entries of the process.  Failing, it changes no entry. *)
Definition aoe_step si (val id num : Z) st st' p : Prop :=
  val = 0 /\ pents st' p = pents st p \/
  val <> 0 /\ - semaem si <= val <= semaem si /\ (exists up, owns st' p up) /\
  ents_adjust si (pents st p) val id num = inl (pents st' p).

Definition aoe_frame si st st' p : Prop :=
  undo_wf si st' /\ same_tables st st' /\ sems st' = sems st /\ wakes st' = wakes st /\
  (forall q, q <> p -> pents st' q = pents st q) /\
  ((exists up, owns st p up) -> exists up, owns st' p up).

Lemma wraps_back w a v : 0 < w -> - 2 ^ (w - 1) <= a < 2 ^ (w - 1) ->
  wraps w (wraps w (a - v) + v) = a.
Proof.
  intros Hw Ha.
  assert (wraps w (wraps w (a - v) + v) = wraps w a) as ->; [|by apply wraps_small].
  unfold wraps. f_equal.
  replace ((a - v + 2 ^ (w - 1)) `mod` 2 ^ w - 2 ^ (w - 1) + v + 2 ^ (w - 1))
    with ((a - v + 2 ^ (w - 1)) `mod` 2 ^ w + v) by lia.
  rewrite Zplus_mod_idemp_l. f_equal. lia.
Qed.

(** The body of semaoe once the structure is known. *)
Lemma semaoe_eq si p val id num st up st1 :
  undo_wf si st -> si_ok si -> (p < length (sem_undo st))%nat ->
  val <> 0 -> - semaem si <= val <= semaem si -> semaoe_struct st p = Some (up, st1) ->
  let es := default [] (semu st1 !! up) in
  semaoe si p val id num st =
  match ents_adjust si es val id num with
  | inl es' =>
      (false, set_undo st1 (<[up := es']> (semu st1))
         (if (length es =? 0)%nat then up :: semunp st1
          else if (length es' =? 0)%nat then unlink up (semunp st1) else semunp st1)
         (semfup st1) (sem_undo st1))
  | inr e => (true, set_error st1 e)
  end.
Proof.
  intros Hw Hsi Hp Hv Hr Hs es.
  destruct (semaoe_struct_spec _ _ _ _ _ Hw Hp Hs) as (Hw1&Hown&_).
  destruct (uw_own _ _ Hw1 _ _ Hown) as [Hlt _].
  unfold semaoe. rewrite (proj2 (Z.eqb_neq _ _) Hv), Hs.
  replace ((semaem si <? val) || (val <? - semaem si)) with false by lia. fold es.
  assert (ents_wf si es) as (Hso&Hok&_).
  { unfold es. rewrite <- (pents_owns _ _ _ Hown). by apply pents_wf. }
  unfold ents_adjust. destruct (undo_split_spec es id num Hso) as (E&_&_).
  destruct (undo_split es id num) as [pre post]. simpl in E.
  assert (forall e post', post = e :: post' -> (length es =? 0)%nat = false) as Hl.
  { intros e post' ->. rewrite E, length_app. simpl. apply Nat.eqb_neq. lia. }
  destruct post as [|e post].
  - destruct (semume si <=? length es)%nat; [done|].
    do 2 f_equal. rewrite length_app. simpl.
    rewrite (proj2 (Nat.eqb_neq (length pre + 1) 0)) by lia. done.
  - specialize (Hl _ _ eq_refl). destruct (undo_is e id num).
    + destruct (_ || _).
      * f_equal. unfold set_error, set_undo. simpl. do 2 f_equal.
        rewrite E in Hok. apply Forall_app in Hok as [_ [[_ He] _]%Forall_cons].
        destruct Hsi as [? _]. rewrite wraps_back by (simpl; lia).
        destruct e; simpl. rewrite <- E. unfold es. apply list_insert_id.
        by apply lookup_lt_is_Some in Hlt as [x ->].
      * rewrite Hl. destruct (_ =? 0); [done|].
        do 2 f_equal. rewrite length_app. simpl.
        by rewrite (proj2 (Nat.eqb_neq (length pre + _) 0)) by lia.
    + destruct (semume si <=? length es)%nat; [done|]. rewrite Hl.
      do 2 f_equal. rewrite length_app. simpl.
      by rewrite (proj2 (Nat.eqb_neq (length pre + _) 0)) by lia.
Qed.

(** What semaoe does, for its callers: an error leaves every process's entries alone. *)
Lemma semaoe_spec si p val id num st b st' :
  undo_wf si st -> si_ok si -> (p < length (sem_undo st))%nat ->
  semaoe si p val id num st = (b, st') ->
  aoe_frame si st st' p /\
  (if b then pents st' p = pents st p /\ u_error st' <> 0
   else u_error st' = u_error st /\ aoe_step si val id num st st' p).
Proof.
  intros Hw Hsi Hp. unfold aoe_frame, aoe_step, same_tables.
  destruct (Z.eqb_spec val 0) as [->|Hv].
  { intros [= <- <-]. split_and!; auto. }
  destruct (decide (- semaem si <= val <= semaem si)) as [Hr|Hr].
  2: { unfold semaoe. rewrite (proj2 (Z.eqb_neq _ _) Hv).
       replace ((semaem si <? val) || (val <? - semaem si)) with true by lia.
       intros [= <- <-]. split_and!; simpl; auto. split; apply Hw. }
  destruct (semaoe_struct st p) as [[up st1]|] eqn:Hs.
  2: { unfold semaoe. rewrite (proj2 (Z.eqb_neq _ _) Hv), Hs.
       replace ((semaem si <? val) || (val <? - semaem si)) with false by lia.
       intros [= <- <-]. split_and!; simpl; auto. split; apply Hw. }
  rewrite (semaoe_eq _ _ _ _ _ _ _ _ Hw Hsi Hp Hv Hr Hs).
  assert (wakes st1 = wakes st) as Hwk.
  { revert Hs. unfold semaoe_struct. destruct (_ !! p) as [[?|]|]; [by intros [= _ <-]| |];
      (destruct (semfup st); [done|by intros [= _ <-]]). }
  destruct (semaoe_struct_spec _ _ _ _ _ Hw Hp Hs) as (Hw1&Hown&Hpe&(?&?&?)&Hsem&He).
  rewrite <- (pents_owns _ _ _ Hown), <- (Hpe p).
  destruct (ents_adjust si (pents st1 p) val id num) as [es'|e] eqn:Ha.
  - intros [= <- <-]. pose proof (pents_wf _ _ p Hw1) as Hew.
    assert (pents st1 p = [] -> es' <> []) as Hne.
    { intros E. rewrite E in Ha. unfold ents_adjust in Ha. simpl in Ha.
      destruct (_ <=? _)%nat in Ha; [done|]. injection Ha as <-. done. }
    pose proof (ents_adjust_wf _ _ _ _ _ _ Hsi Hew Hv Hr Ha) as Hew'.
    destruct (semaoe_store si st1 p up es' Hw1 Hown Hew') as (Hw2&Ho2&Hp2&Hq2);
      rewrite <- (pents_owns _ _ _ Hown) in *; [done|].
    split_and!; simpl; eauto.
    + intros q Hq. rewrite Hq2 by done. apply Hpe.
    + right. rewrite Hp2. split_and!; eauto; lia.
  - intros [= <- <-]. split_and!; simpl; eauto.
    + split; apply Hw1.
    + unfold ents_adjust in Ha. repeat case_match; simplify_eq; done.
Qed.

(** It succeeds whenever the process has a structure and its entries can be adjusted. *)
Lemma semaoe_ok si p val id num st es' :
  undo_wf si st -> si_ok si -> (exists up, owns st p up) ->
  val <> 0 -> - semaem si <= val <= semaem si ->
  ents_adjust si (pents st p) val id num = inl es' -> (semaoe si p val id num st).1 = false.
Proof.
  intros Hw Hsi [up Hup] Hv Hr Ha.
  assert (semaoe_struct st p = Some (up, st)) as Hs.
  { unfold semaoe_struct. unfold owns in Hup. by rewrite Hup. }
  rewrite (semaoe_eq _ _ _ _ _ _ _ _ Hw Hsi (lookup_lt_Some _ _ _ Hup) Hv Hr Hs).
  by rewrite <- (pents_owns _ _ _ Hup), Ha.
Qed.
End Pool.
