(* ===== verification/SemOp.v ===== *)
(** * semop() is atomic

    The loop of semop performs the operations one by one and takes them back when it
    meets one that must wait or fails.  This file shows what is left in each case. *)

From S2P Require Import Prelude Rmap Ipc Sem SemUndo.
From stdpp Require Import prelude list numbers strings.
From Stdlib Require Import ZArith Lia.

Local Open Scope Z_scope.

Section SemOp.
Context {M : Type}.
Implicit Type st : semst M.
Context (si : seminfo) (Hsi : si_ok si).

(** ** Semaphore values *)

(** A cell whose value is within SEMVMX and with at most [n] sleepers on each count. *)
Definition cell_ok (n : Z) (s : sem) : Prop :=
  0 <= semval s <= semvmx si /\ 0 <= semncnt s <= n /\ 0 <= semzcnt s <= n.

(** The values and last pids, without the counts of sleepers. *)
Definition vals st : list (Z * Z) := (fun s => (semval s, sempid s)) <$> sems st.
Definition val_add (i : nat) (d : Z) (vs : list (Z * Z)) : list (Z * Z) :=
  alter (fun x => (x.1 + d, x.2)) i vs.

Definition sem_wf (n : Z) st : Prop := undo_wf si st /\ Forall (cell_ok n) (sems st).

(** Nothing a user of the semaphores can see has changed: identifiers, values, last pids
    and every process's adjustments are the same. *)
Definition eqv (n : Z) (p : nat) st st' : Prop :=
  sem_wf n st' /\ same_tables st st' /\ vals st' = vals st /\
  (forall q, pents st' q = pents st q) /\
  ((exists up, owns st p up) -> exists up, owns st' p up).

Lemma eqv_refl n p st : sem_wf n st -> eqv n p st st.
Proof. unfold eqv, same_tables. auto 10. Qed.

Lemma eqv_trans n m p st1 st2 st3 : eqv n p st1 st2 -> eqv m p st2 st3 -> eqv m p st1 st3.
Proof.
  unfold eqv, same_tables. intros (_&(?&?&?)&?&Hq1&?) (?&(?&?&?)&?&Hq2&?).
  split_and!; auto; congruence.
Qed.

Lemma eqv_length n p st st' : eqv n p st st' -> length (sems st') = length (sems st).
Proof. intros (_&_&Hv&_). unfold vals in Hv. apply (f_equal length) in Hv.
  by rewrite !length_fmap in Hv. Qed.

Lemma get_sem_Ok st i : (i < length (sems st))%nat -> exists s, get_sem i st = Ok s /\ sems st !! i = Some s.
Proof. intros [s Hs]%lookup_lt_is_Some. exists s. unfold get_sem, rd. by rewrite Hs. Qed.

Lemma put_sem_Ok st i s : (i < length (sems st))%nat ->
  put_sem i s st = Ok (set_sems st (<[i := s]> (sems st))).
Proof. intros H. unfold put_sem, wr. by rewrite decide_True. Qed.

(** Replacing a cell by one with the same value and pid. *)
Lemma eqv_put n m p st i s s' :
  sem_wf n st -> n <= m -> sems st !! i = Some s -> cell_ok m s' ->
  semval s' = semval s -> sempid s' = sempid s ->
  eqv m p st (set_sems st (<[i := s']> (sems st))).
Proof.
  intros [Hu Hc] Hn Hi Hs' Ev Ep. split_and!; simpl; auto.
  - split; [split; apply Hu|]. apply Forall_insert; [|done].
    eapply Forall_impl; [exact Hc|]. unfold cell_ok. lia.
  - unfold same_tables. auto.
  - unfold vals. simpl. rewrite list_fmap_insert. apply list_insert_id.
    rewrite list_lookup_fmap, Hi. simpl. by rewrite Ev, Ep.
Qed.

Lemma eqv_add_wake n p st st' c : eqv n p st st' -> eqv n p st (add_wake st' c).
Proof.
  intros ([Hu ?]&?&?&?&?). split_and!; simpl; auto. split; [split; apply Hu|done].
Qed.

Lemma eqv_set_error n p st st' e : eqv n p st st' -> eqv n p st (set_error st' e).
Proof.
  intros ([Hu ?]&?&?&?&?). split_and!; simpl; auto. split; [split; apply Hu|done].
Qed.

Lemma cell_ok_lookup n st i s : sem_wf n st -> sems st !! i = Some s -> cell_ok n s.
Proof. intros [_ Hc] Hi. exact (Forall_lookup_1 _ _ _ _ Hc Hi). Qed.

Lemma wake_ncnt_spec n p st i :
  sem_wf n st -> (i < length (sems st))%nat ->
  exists st', wake_ncnt i st = Ok st' /\ eqv n p st st' /\ u_error st' = u_error st.
Proof.
  intros Hw Hi. unfold wake_ncnt. destruct (get_sem_Ok _ _ Hi) as (s&->&Hl). kstep.
  destruct (semncnt s =? 0); [exists st; auto using eqv_refl|].
  rewrite put_sem_Ok by done. kstep. eexists. split; [done|]. split; [|done].
  apply eqv_add_wake. pose proof (cell_ok_lookup _ _ _ _ Hw Hl) as Hc.
  eapply eqv_put; eauto; [lia|]. unfold cell_ok in *; simpl.
  change (wrapu 16 0) with 0. lia.
Qed.

Lemma wake_zcnt_spec n p st i :
  sem_wf n st -> (i < length (sems st))%nat ->
  exists st', wake_zcnt i st = Ok st' /\ eqv n p st st' /\ u_error st' = u_error st.
Proof.
  intros Hw Hi. unfold wake_zcnt. destruct (get_sem_Ok _ _ Hi) as (s&->&Hl). kstep.
  destruct (semzcnt s =? 0); [exists st; auto using eqv_refl|].
  rewrite put_sem_Ok by done. kstep. eexists. split; [done|]. split; [|done].
  apply eqv_add_wake. pose proof (cell_ok_lookup _ _ _ _ Hw Hl) as Hc.
  eapply eqv_put; eauto; [lia|]. unfold cell_ok in *; simpl.
  change (wrapu 16 0) with 0. lia.
Qed.

(** ** One operation, and its inverse *)

Lemma val_add_compose i a b vs : val_add i a (val_add i b vs) = val_add i (a + b) vs.
Proof.
  unfold val_add. apply list_eq. intros j. destruct (decide (j = i)) as [->|].
  - rewrite !list_lookup_alter_eq. destruct (vs !! i) as [[x y]|]; simpl; [|done].
    do 2 f_equal; lia.
  - by rewrite !list_lookup_alter_ne.
Qed.
Lemma val_add_0 i vs : val_add i 0 vs = vs.
Proof.
  unfold val_add. apply list_alter_id. intros [x y]; simpl. f_equal; lia.
Qed.

(** Storing a value in range. *)
Lemma put_val n st i s v :
  sem_wf n st -> sems st !! i = Some s -> 0 <= v <= semvmx si ->
  let st' := set_sems st (<[i := with_val s v]> (sems st)) in
  sem_wf n st' /\ vals st' = val_add i (v - semval s) (vals st).
Proof.
  intros Hw Hi Hv st'. pose proof (cell_ok_lookup _ _ _ _ Hw Hi) as Hc.
  destruct Hsi as (_&Hmx&_). destruct Hw as [Hu Hf].
  assert (wrapu 16 v = v) as Ew by (apply wrapu_small; lia).
  split; [split; [split; apply Hu|]|].
  - simpl. apply Forall_insert; [done|]. unfold cell_ok in *; simpl. rewrite Ew. lia.
  - unfold vals, st', val_add. simpl. rewrite list_fmap_insert. simpl. rewrite Ew.
    apply list_eq. intros j. destruct (decide (j = i)) as [->|].
    + rewrite list_lookup_insert_eq by (rewrite length_fmap; by apply lookup_lt_Some in Hi).
      rewrite list_lookup_alter_eq, list_lookup_fmap, Hi. simpl. do 2 f_equal; lia.
    + by rewrite list_lookup_insert_ne, list_lookup_alter_ne by done.
Qed.

(** The effect of an operation of process [p] that is performed. *)
Definition op_adjust (p : nat) (id : Z) (op : sembuf) st st' : Prop :=
  if has_flag (sem_flg op) SEM_UNDO && negb (sem_op op =? 0) then
    (exists up, owns st' p up) /\ - semaem si <= sem_op op <= semaem si /\
    ents_adjust si (pents st p) (sem_op op) id (sem_num op) = inl (pents st' p)
  else pents st' p = pents st p.

Definition op_done (n : Z) (p : nat) (id : Z) (sp : semid_ds) (op : sembuf) st st' : Prop :=
  sem_wf n st' /\ same_tables st st' /\ u_error st' = u_error st /\
  vals st' = val_add (sem_idx sp (sem_num op)) (sem_op op) (vals st) /\
  (forall q, q <> p -> pents st' q = pents st q) /\
  ((exists up, owns st p up) -> exists up, owns st' p up) /\
  op_adjust p id op st st'.

Lemma vals_lookup st i s : sems st !! i = Some s -> vals st !! i = Some (semval s, sempid s).
Proof. intros H. unfold vals. by rewrite list_lookup_fmap, H. Qed.

Lemma vals_length st : length (vals st) = length (sems st).
Proof. apply length_fmap. Qed.

(** semundo's step takes an operation back, in any state that looks like the one the
    operation left. *)
Lemma semundo1_inverse n p id sp op st1 st2 st :
  sem_wf n st1 -> (p < length (sem_undo st))%nat ->
  (sem_idx sp (sem_num op) < length (sems st))%nat ->
  op_done n p id sp op st1 st2 -> eqv n p st2 st ->
  exists st', semundo1 si p id sp op st = Ok st' /\ eqv n p st1 st' /\ u_error st' = u_error st.
Proof.
  intros Hw1 Hp Hi (Hw2&Ht2&_&Hv2&Hq2&Ho2&Ha2) (Hw&Ht&Hv&Hq&Ho).
  unfold semundo1. unfold op_adjust in Ha2.
  destruct (Z.eqb_spec (sem_op op) 0) as [E0|Hne].
  { rewrite andb_false_r in Ha2. exists st. split_and!; [done| |done]. rewrite E0, val_add_0 in Hv2.
    destruct Ht as (?&?&?), Ht2 as (?&?&?). split_and!; [done|split_and!; congruence|congruence| |auto].
    intros q. rewrite Hq. destruct (decide (q = p)) as [->|]; auto. }
  rewrite andb_true_r in Ha2.
  destruct (get_sem_Ok _ _ Hi) as (s&->&Hl). kstep. rewrite put_sem_Ok by done. kstep.
  assert (exists x, vals st1 !! sem_idx sp (sem_num op) = Some x
            /\ semval s = x.1 + sem_op op /\ 0 <= x.1 <= semvmx si) as (x&Hx&Ex&Hrx).
  { apply vals_lookup in Hl. rewrite Hv, Hv2 in Hl. unfold val_add in Hl.
    rewrite list_lookup_alter_eq in Hl.
    destruct (vals st1 !! _) as [x|] eqn:Ex; [|done]. exists x. simpl in Hl.
    injection Hl as Hl _. split_and!; [done|lia| |];
      unfold vals in Ex; rewrite list_lookup_fmap in Ex;
      destruct (sems st1 !! _) as [s1|] eqn:E1; try done; injection Ex as <-;
      pose proof (cell_ok_lookup _ _ _ _ Hw1 E1) as (?&_); simpl; lia. }
  destruct (put_val n st _ s (semval s - sem_op op) Hw Hl) as [Hw' Hv']; [lia|].
  set (st0 := set_sems st _) in *.
  assert (vals st0 = vals st1) as Hv0.
  { rewrite Hv', Hv, Hv2, val_add_compose.
    replace (semval s - sem_op op - semval s + sem_op op) with 0 by lia. apply val_add_0. }
  destruct Ht as (?&?&?), Ht2 as (?&?&?).
  unfold has_flag in Ha2. destruct (Z.land (sem_flg op) SEM_UNDO =? 0); simpl in Ha2.
  - exists st0. split_and!; [done| |done].
    split_and!; [done|unfold same_tables, st0; simpl; split_and!; congruence|done| |].
    + intros q. change (pents st0 q) with (pents st q). rewrite Hq.
      destruct (decide (q = p)) as [->|]; auto.
    + intros Ho1. apply Ho, Ho2, Ho1.
  - destruct Ha2 as (Hown2&Hr&Hadj). rewrite wraps_small by (destruct Hsi; lia).
    assert (ents_adjust si (pents st0 p) (- sem_op op) id (sem_num op) = inl (pents st1 p)) as Hinv.
    { change (pents st0 p) with (pents st p). rewrite Hq.
      apply (ents_adjust_inverse si _ _ _ _ _ Hsi); try done.
      apply pents_wf. apply Hw1. }
    assert (forall q, q <> p -> pents st0 q = pents st1 q) as Hq0.
    { intros q ?. change (pents st0 q) with (pents st q). rewrite Hq. auto. }
    pose proof (semaoe_ok si p (- sem_op op) id (sem_num op) st0 _ (proj1 Hw') Hsi (Ho Hown2)
                  ltac:(lia) ltac:(lia) Hinv) as Hb.
    destruct (semaoe si p (- sem_op op) id (sem_num op) st0) as [b st'] eqn:Es. simpl in Hb. subst b.
    destruct (semaoe_spec _ _ _ _ _ _ _ _ (proj1 Hw') Hsi Hp Es)
      as ((Hu'&(?&?&?)&Hs'&_&Hq'&Ho')&He&[[? _]|(_&_&_&Ha)]); [lia|].
    rewrite Hinv in Ha. injection Ha as Ha.
    exists st'. split; [done|]. split; [|done]. split_and!.
    + split; [done|]. rewrite Hs'. apply Hw'.
    + unfold same_tables, st0 in *; simpl in *. split_and!; congruence.
    + unfold vals. rewrite Hs'. exact Hv0.
    + intros q. destruct (decide (q = p)) as [->|]; [done|]. rewrite Hq' by done. auto.
    + intros Ho1. apply Ho', Ho, Ho2, Ho1.
Qed.

(** The states semop1 can be in after the operations [done] (latest first) from [st0]. *)
Inductive done_from (n : Z) (p : nat) (id : Z) (sp : semid_ds) st0 : list sembuf -> semst M -> Prop :=
| df_nil st : eqv n p st0 st -> done_from n p id sp st0 [] st
| df_cons op done st1 st2 st :
    done_from n p id sp st0 done st1 -> (sem_idx sp (sem_num op) < length (sems st0))%nat ->
    op_done n p id sp op st1 st2 -> eqv n p st2 st ->
    done_from n p id sp st0 (op :: done) st.

Lemma done_from_eqv n p id sp st0 done st st' :
  done_from n p id sp st0 done st -> eqv n p st st' -> done_from n p id sp st0 done st'.
Proof. inversion 1; subst; intros ?; econstructor; eauto using eqv_trans. Qed.

Lemma op_done_lengths n p id sp op st st' : op_done n p id sp op st st' ->
  length (sems st') = length (sems st) /\ length (sem_undo st') = length (sem_undo st).
Proof.
  intros (_&(_&_&?)&_&Hv&_). split; [|done].
  apply (f_equal length) in Hv. unfold val_add in Hv. by rewrite length_alter, !vals_length in Hv.
Qed.

Lemma eqv_lengths n p st st' : eqv n p st st' ->
  length (sems st') = length (sems st) /\ length (sem_undo st') = length (sem_undo st).
Proof. intros H. pose proof (eqv_length _ _ _ _ H). by destruct H as (_&(_&_&?)&_). Qed.

Lemma done_from_facts n p id sp st0 done st : done_from n p id sp st0 done st ->
  sem_wf n st /\ length (sems st) = length (sems st0) /\ length (sem_undo st) = length (sem_undo st0).
Proof.
  induction 1 as [st H|op done st1 st2 st Hd (?&IH1&IH2) Hi Ho H];
    destruct (eqv_lengths _ _ _ _ H); (split; [apply H|]); [done|].
  destruct (op_done_lengths _ _ _ _ _ _ _ Ho). split; congruence.
Qed.

(** semundo() gives back the state before the first operation. *)
Lemma semundo_spec n p id sp st0 done : (p < length (sem_undo st0))%nat ->
  forall st, done_from n p id sp st0 done st ->
  exists st', semundo si p id sp done st = Ok st' /\ eqv n p st0 st' /\ u_error st' = u_error st.
Proof.
  intros Hp. induction done as [|op done IH]; intros st Hd; inversion Hd; subst; simpl.
  - eauto.
  - destruct (done_from_facts _ _ _ _ _ _ _ Hd) as (_&El&Eu).
    destruct (done_from_facts _ _ _ _ _ _ _ H1) as (Hw1&_).
    destruct (semundo1_inverse n p id sp op st1 st2 st) as (st'&->&He&Herr); auto; [lia..|]. kstep.
    destruct (IH st') as (st''&->&?&?); [by eapply done_from_eqv|].
    exists st''. split_and!; congruence.
Qed.

(** An operation is performed: the adjustment, the store, then wakeups. *)
Lemma op_perform n p id sp op st st1 st3 s :
  sem_wf n st -> aoe_frame si st st1 p -> u_error st1 = u_error st -> op_adjust p id op st st1 ->
  sems st !! sem_idx sp (sem_num op) = Some s ->
  0 <= semval s + sem_op op <= semvmx si ->
  eqv n p (set_sems st1 (<[sem_idx sp (sem_num op) := with_val s (semval s + sem_op op)]> (sems st1))) st3 ->
  u_error st3 = u_error st1 -> op_done n p id sp op st st3.
Proof.
  intros [Hu Hc] (Hu1&Ht&Es&_&Hq&Ho) He Ha Hl Hr Heq He3.
  assert (sem_wf n st1) as Hw1 by (split; [done|by rewrite Es]).
  destruct (put_val n st1 (sem_idx sp (sem_num op)) s (semval s + sem_op op) Hw1) as [_ Hv]; [by rewrite Es|done|].
  destruct Heq as (Hw3&Ht3&Hv3&Hq3&Ho3). unfold same_tables in *. simpl in Ht3.
  destruct Ht as (?&?&?), Ht3 as (?&?&?). split_and!; try congruence; auto.
  - split_and!; congruence.
  - assert (vals st1 = vals st) as Ev by (unfold vals; by rewrite Es).
    rewrite Hv3, Hv, Ev. f_equal. lia.
  - intros q ?. rewrite Hq3. by apply Hq.
  - unfold op_adjust in *. destruct (_ && _); [|by rewrite Hq3].
    destruct Ha as (?&?&?). rewrite Hq3. split_and!; auto; lia.
Qed.

(** The flag test and semaoe, as semop calls them. *)
Lemma semop_aoe n p id op st b st1 :
  sem_wf n st -> (p < length (sem_undo st))%nat -> sem_op op <> 0 ->
  (if has_flag (sem_flg op) SEM_UNDO then semaoe si p (sem_op op) id (sem_num op) st
   else (false, st)) = (b, st1) ->
  if b then eqv n p st st1 /\ u_error st1 <> 0
  else aoe_frame si st st1 p /\ u_error st1 = u_error st /\ op_adjust p id op st st1.
Proof.
  intros Hw Hp Hne. unfold op_adjust. rewrite (proj2 (Z.eqb_neq _ _) Hne).
  destruct (has_flag (sem_flg op) SEM_UNDO); simpl.
  - intros Hs. destruct (semaoe_spec _ _ _ _ _ _ _ _ (proj1 Hw) Hsi Hp Hs) as (Hf&Hb).
    destruct b.
    + destruct Hb as [Hpp ?]. destruct Hf as (?&?&Es&?&Hq&?). split; [|done].
      split_and!; [split; [done|rewrite Es; apply Hw]|done|unfold vals; by rewrite Es| |done].
      intros q. destruct (decide (q = p)) as [->|]; auto.
    + destruct Hb as [? [[? _]|(?&?&?&?)]]; [done|]. auto.
  - intros [= <- <-]. split_and!; auto. unfold aoe_frame, same_tables. split_and!; auto. apply Hw.
Qed.

(** The number of processes a channel's count says are asleep on it. *)
Definition wait_count (c : semchan) st : Z :=
  match c with
  | ChNcnt i => from_option semncnt 0 (sems st !! i)
  | ChZcnt i => from_option semzcnt 0 (sems st !! i)
  end.

(** How one operation can end, seen from the state [st0] before the first one. *)
Definition semop1_post (n : Z) (p : nat) (id : Z) (sp : semid_ds) (op : sembuf) st0 st
    (r : option semop_end) st' : Prop :=
  match r with
  | None => op_done n p id sp op st st'
  | Some SemErr => eqv n p st0 st' /\ u_error st' <> 0
  | Some (SemSleep c) =>
      eqv (n + 1) p st0 st' /\ u_error st' = u_error st /\ 1 <= wait_count c st'
      /\ c = (if sem_op op <? 0 then ChNcnt else ChZcnt) (sem_idx sp (sem_num op))
  | Some SemDone => False
  end.

(** The tail of a performed operation: [m] is the wakeup the code does first. *)
Lemma semop1_wakes n p st i (pre : bool) :
  sem_wf n st -> (i < length (sems st))%nat ->
  exists st', (st ← (if pre then wake_ncnt i st else mret st);
               s ← get_sem i st;
               st ← (if semval s =? 0 then wake_zcnt i st else mret st);
               mret (@None semop_end, st)) = Ok (None, st')
    /\ eqv n p st st' /\ u_error st' = u_error st.
Proof.
  intros Hw Hi.
  assert (exists st1, (if pre then wake_ncnt i st else mret st) = Ok st1
    /\ eqv n p st st1 /\ u_error st1 = u_error st) as (st1&->&He1&Hu1).
  { destruct pre; [by apply wake_ncnt_spec|]. exists st. auto using eqv_refl. }
  kstep. destruct (eqv_lengths _ _ _ _ He1) as [El _].
  destruct (get_sem_Ok st1 i) as (s&->&_); [lia|]. kstep.
  assert (exists st2, (if semval s =? 0 then wake_zcnt i st1 else mret st1) = Ok st2
    /\ eqv n p st1 st2 /\ u_error st2 = u_error st1) as (st2&->&He2&Hu2).
  { destruct (semval s =? 0); [apply wake_zcnt_spec; [apply He1|lia]|].
    exists st1. split_and!; auto. apply eqv_refl, He1. }
  kstep. exists st2. split_and!; [done|by eapply eqv_trans|congruence].
Qed.

(** Giving up: semundo, then the error or the sleep. *)
Lemma semop1_sleep n p id sp st0 done st i (neg : bool) flg :
  n + 1 < 65536 -> (p < length (sem_undo st0))%nat -> (i < length (sems st0))%nat ->
  done_from n p id sp st0 done st ->
  let ch := if neg then ChNcnt else ChZcnt in
  let up (s : sem) := if neg then with_ncnt s (semncnt s + 1) else with_zcnt s (semzcnt s + 1) in
  exists st', (st ← semundo si p id sp done st;
     if has_flag flg IPC_NOWAIT then mret (Some SemErr, set_error st EAGAIN)
     else s ← get_sem i st; st ← put_sem i (up s) st;
          mret (Some (SemSleep (ch i)), st))
    = Ok ((if has_flag flg IPC_NOWAIT then Some SemErr else Some (SemSleep (ch i))), st')
  /\ (if has_flag flg IPC_NOWAIT then eqv n p st0 st' /\ u_error st' <> 0
      else eqv (n + 1) p st0 st' /\ u_error st' = u_error st /\ 1 <= wait_count (ch i) st').
Proof.
  intros Hn Hp Hi Hd ch up. destruct (semundo_spec _ _ _ _ _ _ Hp _ Hd) as (st1&->&He&Hu).
  kstep. destruct (has_flag flg IPC_NOWAIT).
  - eexists. split; [done|]. split; [by apply eqv_set_error|done].
  - destruct (eqv_lengths _ _ _ _ He) as [El _].
    destruct (get_sem_Ok st1 i) as (s&->&Hl); [lia|]. kstep.
    rewrite put_sem_Ok by lia. kstep. eexists. split; [done|].
    pose proof (cell_ok_lookup _ _ _ _ (proj1 He) Hl) as Hc. unfold cell_ok in Hc.
    assert (forall x, 0 <= x <= n -> wrapu 16 (x + 1) = x + 1) as Ew
      by (intros; apply wrapu_small; lia).
    split_and!.
    + eapply eqv_trans; [exact He|]. unfold up.
      destruct neg; (eapply eqv_put; eauto; [apply He|lia|]; unfold cell_ok; simpl;
        rewrite Ew by lia; lia).
    + done.
    + unfold wait_count, ch, up.
      destruct neg; simpl; rewrite list_lookup_insert_eq by lia; simpl; rewrite Ew by lia; lia.
Qed.

Lemma semop1_spec n p id sp st0 done op st :
  0 <= n -> n + 1 < 65536 -> (p < length (sem_undo st0))%nat ->
  (sem_idx sp (sem_num op) < length (sems st0))%nat -> done_from n p id sp st0 done st ->
  exists r st', semop1 si p id sp done op st = Ok (r, st') /\ semop1_post n p id sp op st0 st r st'.
Proof.
  intros H0 Hn Hp Hi Hd. destruct (done_from_facts _ _ _ _ _ _ _ Hd) as (Hw&El&Eu).
  unfold semop1. destruct (get_sem_Ok st (sem_idx sp (sem_num op))) as (s&Hg&Hl); [lia|].
  rewrite Hg. kstep. pose proof (cell_ok_lookup _ _ _ _ Hw Hl) as (Hv&_).
  assert (forall st1 (pre : bool), aoe_frame si st st1 p -> u_error st1 = u_error st ->
    op_adjust p id op st st1 -> 0 <= semval s + sem_op op <= semvmx si ->
    exists st', (s ← get_sem (sem_idx sp (sem_num op)) st1;
      st ← put_sem (sem_idx sp (sem_num op)) (with_val s (semval s + sem_op op)) st1;
      st ← (if pre then wake_ncnt (sem_idx sp (sem_num op)) st else mret st);
      s ← get_sem (sem_idx sp (sem_num op)) st;
      st ← (if semval s =? 0 then wake_zcnt (sem_idx sp (sem_num op)) st else mret st);
      mret (@None semop_end, st)) = Ok (None, st') /\ op_done n p id sp op st st') as Hperf.
  { intros st1 pre Hf He Ha Hr. pose proof Hf as (_&_&Es&_).
    assert (get_sem (sem_idx sp (sem_num op)) st1 = Ok s) as -> by (unfold get_sem; by rewrite Es).
    kstep. rewrite put_sem_Ok by (rewrite Es; lia). kstep.
    destruct (put_val n st1 (sem_idx sp (sem_num op)) s (semval s + sem_op op)) as [Hw1 _]; auto.
    { split; [apply Hf|]. rewrite Es. apply Hw. }
    { by rewrite Es. }
    destruct (semop1_wakes n p _ (sem_idx sp (sem_num op)) pre Hw1) as (st'&->&He'&Hu').
    { simpl. rewrite length_insert, Es. lia. }
    exists st'. split; [done|]. by eapply op_perform. }
  assert (forall st1, eqv n p st st1 -> u_error st1 <> 0 ->
    exists r st', (st ← semundo si p id sp done st1; mret (Some SemErr, st)) = Ok (r, st')
      /\ semop1_post n p id sp op st0 st r st') as Hback.
  { intros st1 He Hu. destruct (semundo_spec n p id sp st0 done Hp st1) as (st'&->&?&?);
      [by eapply done_from_eqv|]. kstep. exists (Some SemErr), st'.
    split; [done|]. split; [done|congruence]. }
  destruct (Z.ltb_spec 0 (sem_op op)) as [Hpos|Hpos].
  - destruct (Z.ltb_spec (semvmx si) (sem_op op + semval s)) as [Hov|Hov].
    + apply Hback.
      * destruct (u_error st =? 0); [apply eqv_set_error|]; by apply eqv_refl.
      * destruct (Z.eqb_spec (u_error st) 0); done.
    + destruct (if has_flag _ _ then _ else _) as [b st1] eqn:Ea.
      apply (semop_aoe n p id op st b st1 Hw) in Ea; [|lia|lia].
      destruct b; destruct Ea as [Hf Ha].
      * apply Hback; rewrite (proj2 (Z.eqb_neq _ _) Ha); done.
      * destruct Ha as [He Ha]. destruct (Hperf st1 true) as (st'&->&Ho); auto; [lia|].
        exists None, st'. auto.
  - destruct (Z.ltb_spec (sem_op op) 0) as [Hneg|Hneg].
    + destruct (Z.leb_spec (- sem_op op) (semval s)) as [Hge|Hlt].
      * destruct (if has_flag _ _ then _ else _) as [b st1] eqn:Ea.
        apply (semop_aoe n p id op st b st1 Hw) in Ea; [|lia|lia].
        destruct b; destruct Ea as [Hf Ha]; [by apply Hback|].
        destruct Ha as [He Ha]. destruct (Hperf st1 false) as (st'&Hr&Ho); auto; [lia|].
        exists None, st'. split; [|done]. rewrite <- Hr.
        destruct (get_sem _ st1); [|done|done]. kstep. by destruct (put_sem _ _ st1).
      * destruct (semop1_sleep n p id sp st0 done st (sem_idx sp (sem_num op)) true (sem_flg op)
          Hn Hp Hi Hd) as (st'&->&Hpost).
        eexists _, st'. split; [done|]. unfold semop1_post.
        destruct (has_flag (sem_flg op) IPC_NOWAIT); [done|].
        rewrite (proj2 (Z.ltb_lt _ _) Hneg). tauto.
    + assert (sem_op op = 0) as E0 by lia. destruct (Z.eqb_spec (semval s) 0).
      * exists None, st. split; [done|]. unfold semop1_post, op_done, op_adjust, same_tables.
        rewrite E0, val_add_0, andb_false_r. split_and!; auto; apply Hw.
      * destruct (semop1_sleep n p id sp st0 done st (sem_idx sp (sem_num op)) false (sem_flg op)
          Hn Hp Hi Hd) as (st'&->&Hpost).
        eexists _, st'. split; [done|]. unfold semop1_post.
        destruct (has_flag (sem_flg op) IPC_NOWAIT); [done|].
        replace (sem_op op <? 0) with false by lia. tauto.
Qed.

(** ** The loop *)

(** The sum of the operations on the semaphore at pool index [i], and of the SEM_UNDO
    operations on semaphore number [num] of the set. *)
Fixpoint op_sum (sp : semid_ds) (i : nat) (ops : list sembuf) : Z :=
  match ops with
  | [] => 0
  | op :: ops =>
      (if decide (sem_idx sp (sem_num op) = i) then sem_op op else 0) + op_sum sp i ops
  end.
Fixpoint undo_sum (num : Z) (ops : list sembuf) : Z :=
  match ops with
  | [] => 0
  | op :: ops =>
      (if has_flag (sem_flg op) SEM_UNDO && (sem_num op =? num) then sem_op op else 0)
      + undo_sum num ops
  end.

(** All operations were performed. *)
Definition all_done (n : Z) (p : nat) (id : Z) (sp : semid_ds) (ops : list sembuf) st st' : Prop :=
  sem_wf n st' /\ same_tables st st' /\ u_error st' = u_error st /\
  length (sems st') = length (sems st) /\
  (forall i v pid, vals st !! i = Some (v, pid) -> vals st' !! i = Some (v + op_sum sp i ops, pid)) /\
  (forall k num, aoe (pents st' p) k num =
     aoe (pents st p) k num - (if decide (k = id) then undo_sum num ops else 0)) /\
  (forall q, q <> p -> pents st' q = pents st q).

Lemma op_done_aoe n p id sp op st st' k num :
  sem_wf n st -> op_done n p id sp op st st' ->
  aoe (pents st' p) k num = aoe (pents st p) k num -
    (if decide (k = id) then
       (if has_flag (sem_flg op) SEM_UNDO && (sem_num op =? num) then sem_op op else 0) else 0).
Proof.
  intros [Hu _] (_&_&_&_&_&_&Ha). unfold op_adjust in Ha.
  destruct (has_flag _ _); simpl in *.
  2: { rewrite Ha. destruct (decide _); lia. }
  destruct (Z.eqb_spec (sem_op op) 0) as [E|E]; simpl in Ha.
  { rewrite Ha, E. repeat case_match; lia. }
  destruct Ha as (_&Hr&Ha).
  rewrite (ents_adjust_aoe si _ _ _ _ _ k num Hsi (pents_wf _ _ p Hu) E Hr Ha).
  destruct (Z.eqb_spec (sem_num op) num); destruct (decide (k = id));
    destruct (decide ((k, num) = (id, sem_num op))); try lia; simplify_eq.
Qed.

Lemma all_done_cons n p id sp op ops st st1 st2 :
  sem_wf n st -> op_done n p id sp op st st1 -> all_done n p id sp ops st1 st2 ->
  all_done n p id sp (op :: ops) st st2.
Proof.
  intros Hw Ho (Hw2&Ht2&He2&Hl2&Hv2&Ha2&Hq2). unfold same_tables in *.
  destruct (op_done_lengths _ _ _ _ _ _ _ Ho) as [Hl1 _].
  pose proof Ho as (_&(?&?&?)&He1&Hv1&Hq1&_&_). destruct Ht2 as (?&?&?).
  split_and!; try congruence; auto.
  - split_and!; congruence.
  - intros i v pid Hl. simpl. rewrite Z.add_assoc. apply Hv2. rewrite Hv1. unfold val_add.
    destruct (decide (sem_idx sp (sem_num op) = i)) as [->|].
    + by rewrite list_lookup_alter_eq, Hl.
    + rewrite list_lookup_alter_ne, Hl by done. do 2 f_equal. lia.
  - intros k num. rewrite Ha2, (op_done_aoe n p id sp op st st1 k num Hw Ho). simpl.
    destruct (decide (k = id)); lia.
  - intros q Hq. rewrite Hq2, Hq1; auto.
Qed.

Definition loop_post (n : Z) (p : nat) (id : Z) (sp : semid_ds) (ops : list sembuf) st0 st
    (e : semop_end) st' : Prop :=
  match e with
  | SemDone => all_done n p id sp ops st st'
  | SemErr => eqv n p st0 st' /\ u_error st' <> 0
  | SemSleep c => eqv (n + 1) p st0 st' /\ u_error st' = u_error st0 /\ 1 <= wait_count c st'
  end.

Lemma semop_loop_spec n p id sp st0 ops :
  0 <= n -> n + 1 < 65536 -> (p < length (sem_undo st0))%nat ->
  Forall (fun op => (sem_idx sp (sem_num op) < length (sems st0))%nat) ops ->
  forall done st, done_from n p id sp st0 done st -> u_error st = u_error st0 ->
  exists e st', semop_loop si p id sp done ops st = Ok (e, st') /\
    loop_post n p id sp ops st0 st e st'.
Proof.
  intros H0 Hn Hp. induction 1 as [|op ops Hi Hops IH]; intros done st Hd Hu; simpl;
    destruct (done_from_facts _ _ _ _ _ _ _ Hd) as (Hw&_&_).
  - exists SemDone, st. split; [done|]. unfold loop_post, all_done, same_tables.
    split_and!; auto; try apply Hw.
    + intros i v pid ->. simpl. do 2 f_equal. lia.
    + intros k num. simpl. destruct (decide (k = id)); lia.
  - destruct (semop1_spec n p id sp st0 done op st H0 Hn Hp Hi Hd) as (r&st1&->&Hr). kstep.
    destruct r as [[| |c]|]; simpl in Hr |- *.
    + done.
    + by exists SemErr, st1.
    + exists (SemSleep c), st1. split; [done|]. destruct Hr as (?&?&?&_). split_and!; congruence.
    + destruct (IH (op :: done) st1) as (e&st2&->&Hp2).
      * econstructor; eauto. apply eqv_refl, Hr.
      * destruct Hr as (_&_&?&_). congruence.
      * exists e, st2. split; [done|]. destruct e; simpl in Hp2 |- *; auto.
        eapply all_done_cons; eauto.
Qed.
End SemOp.
