(* ===== verification/SemThms.v ===== *)
(** * Semaphores: the properties of the system calls

    semop() seen from the process that calls it, semexit() as the inverse of SEM_UNDO
    operations, and the life of an identifier through semget() and semctl(). *)

From S2P Require Import Prelude Rmap Ipc Sem SemUndo SemOp.
From stdpp Require Import prelude list numbers strings.
From Stdlib Require Import ZArith Lia.

Local Open Scope Z_scope.

(** ** semop() *)

Section Semop.
Context {M : Type}.
Implicit Type st : semst M.
Context (si : seminfo).

(** A set occupies cells of the pool. *)
Definition set_in st (sp : semid_ds) : Prop :=
  0 <= sem_base sp /\ 0 <= sem_nsems sp < 65536 /\
  sem_base sp + sem_nsems sp <= Z.of_nat (length (sems st)).
Definition sets_in st : Prop :=
  forall i sp, sema st !! i = Some sp -> allocated_perm (sem_perm sp) = true -> set_in st sp.

(** A sembuf as copyin delivers it: sem_num is 16 bits wide. *)
Definition op_wf (op : sembuf) : Prop := -32768 <= sem_num op < 65536.

Definition semvals st : list Z := semval <$> sems st.

Lemma semconv_alloc id st i : semconv si id st = Some i ->
  exists sp, sema st !! i = Some sp /\ allocated_perm (sem_perm sp) = true
    /\ id / semmni si = pseq (sem_perm sp) /\ 0 <= id /\ i = Z.to_nat (id mod semmni si).
Proof.
  unfold semconv. destruct (Z.ltb_spec id 0); [done|].
  destruct (sema st !! _) as [sp|] eqn:E; [|done].
  destruct (allocated_perm _) eqn:Ea; simpl; [|done].
  destruct (Z.eqb_spec (id / semmni si) (pseq (sem_perm sp))); simpl; [|done].
  intros [= <-]. eauto 10.
Qed.

Lemma semop_verify_range u sp ops : 0 <= sem_nsems sp < 65536 -> Forall op_wf ops ->
  semop_verify u sp ops = None -> Forall (fun op => 0 <= sem_num op < sem_nsems sp) ops.
Proof.
  intros Hn. induction 1 as [|op ops Ho Hops IH]; simpl; [constructor|].
  destruct (ipcaccess _ _ _); [done|].
  destruct (Z.leb_spec (sem_nsems sp) (wrapu 32 (sem_num op))) as [|Hlt]; [done|].
  intros Hv. constructor; [|auto]. unfold op_wf in Ho.
  destruct (Z_lt_ge_dec (sem_num op) 0) as [Hneg|].
  - replace (sem_num op) with (sem_num op + 2 ^ 32 + (-1) * 2 ^ 32) in Hlt by lia.
    unfold wrapu in Hlt. rewrite Z.mod_add, Z.mod_small in Hlt by lia. lia.
  - rewrite wrapu_small in Hlt by lia. lia.
Qed.

Lemma sem_idx_lt st sp op : set_in st sp -> 0 <= sem_num op < sem_nsems sp ->
  (sem_idx sp (sem_num op) < length (sems st))%nat.
Proof. unfold set_in, sem_idx. lia. Qed.

(** The pid loop touches no value and no adjustment. *)
Lemma semop_pids_spec sp pid ops st :
  Forall (fun op => (sem_idx sp (sem_num op) < length (sems st))%nat) ops ->
  exists st', semop_pids sp pid ops st = Ok st' /\ semvals st' = semvals st /\
    sema st' = sema st /\ semu st' = semu st /\ sem_undo st' = sem_undo st /\
    (undo_wf si st -> undo_wf si st') /\ u_error st' = u_error st.
Proof.
  revert st. induction ops as [|op ops IH]; intros st; simpl.
  { intros _. exists st. auto 10. }
  intros [Hi Hops]%Forall_cons. destruct (get_sem_Ok _ _ Hi) as (s&->&Hl). kstep.
  rewrite put_sem_Ok by done. kstep.
  destruct (IH (set_sems st (<[sem_idx sp (sem_num op):=with_pid s pid]> (sems st))))
    as (st'&->&Hv&?&?&?&Hu&?); simpl in *.
  { eapply Forall_impl; [exact Hops|]. intros o. by rewrite length_insert. }
  exists st'. split_and!; auto.
  - rewrite Hv. unfold semvals. simpl. rewrite list_fmap_insert. apply list_insert_id.
    by rewrite list_lookup_fmap, Hl.
  - intros Hw. apply Hu. split; apply Hw.
Qed.

Lemma semvals_vals st st' : vals st' = vals st -> semvals st' = semvals st.
Proof.
  intros H. apply (f_equal (fmap fst)) in H. unfold vals in H.
  rewrite <- !list_fmap_compose in H. exact H.
Qed.

(** What a process can see after semop: an error or a sleep left every value and every
    adjustment as it was; a normal return performed every operation. *)
Definition semop_post (n : Z) (p : nat) (id now : Z) (ops : list sembuf) st
    (r : (semchan * semst M) + semst M) : Prop :=
  let kept st' := semvals st' = semvals st /\ (forall q, pents st' q = pents st q) /\
    undo_wf si st' in
  match r with
  | inl (c, st') => kept st' /\ u_error st' = 0 /\ 1 <= wait_count c st'
  | inr st' =>
      (u_error st' <> 0 /\ kept st') \/
      (u_error st' = 0 /\ undo_wf si st' /\
       exists i sp, semconv si id st = Some i /\ sema st !! i = Some sp /\
         sema st' = <[i := with_otime sp now]> (sema st) /\
         length (sems st') = length (sems st) /\
         length (sem_undo st') = length (sem_undo st) /\
         Forall (fun op => 0 <= sem_num op < sem_nsems sp) ops /\
         (forall j v, semvals st !! j = Some v ->
            semvals st' !! j = Some (v + op_sum sp j ops)
            /\ 0 <= v + op_sum sp j ops <= semvmx si) /\
         (forall k num, aoe (pents st' p) k num =
            aoe (pents st p) k num - (if decide (k = id) then undo_sum num ops else 0)) /\
         (forall q, q <> p -> pents st' q = pents st q))
  end.

Lemma eqv_kept n p st st' : eqv si n p st st' ->
  semvals st' = semvals st /\ (forall q, pents st' q = pents st q) /\ undo_wf si st'.
Proof. intros ([? _]&_&Hv&?&_). split_and!; auto using semvals_vals. Qed.

Lemma kept_set_error n p id now ops st e : sem_wf si n st -> e <> 0 ->
  semop_post n p id now ops st (inr (set_error st e)).
Proof.
  intros Hw He. left. split; [done|]. eapply (eqv_kept n p). by apply eqv_set_error, eqv_refl.
Qed.

Lemma ipcaccess_err u pm m e : ipcaccess u pm m = Some e -> e <> 0.
Proof. unfold ipcaccess. repeat case_match; intros; by simplify_eq. Qed.

Lemma semop_verify_err u sp ops e : semop_verify u sp ops = Some e -> e <> 0.
Proof.
  induction ops as [|op ops IH]; simpl; [done|].
  destruct (ipcaccess _ _ _) eqn:E; [intros [= <-]; by eapply ipcaccess_err|].
  destruct (_ <=? _); [by intros [= <-]|done].
Qed.

(** The state after the loop, the pids and the time are performed operations. *)
Lemma semop_finish n p id sp i ops pid now st st1 :
  si_ok si -> all_done si n p id sp ops st st1 -> u_error st = 0 ->
  semconv si id st = Some i -> sema st !! i = Some sp ->
  Forall (fun op => 0 <= sem_num op < sem_nsems sp) ops -> set_in st sp ->
  exists st', (st ← semop_pids sp pid ops st1; sp ← rd (sema st) i;
               l ← wr (sema st) i (with_otime sp now); mret (inr (A:=semchan * semst M) (set_sema st l)))
    = Ok (inr st') /\ semop_post n p id now ops st (inr st').
Proof.
  intros Hsi (Hw1&(Es&_&Esu)&He&El&Hv&Ha&Hq) Hu0 Hc Hi Hops Hin.
  destruct (semop_pids_spec sp pid ops st1) as (st'&->&Hv'&Es'&Eu'&Ep'&Hw'&He').
  { eapply Forall_impl; [exact Hops|]. intros op Ho. rewrite El. by apply sem_idx_lt. }
  kstep. assert (rd (sema st') i = Ok sp) as -> by (rewrite rd_Ok, Es', Es; done). kstep.
  unfold wr. rewrite decide_True by (apply lookup_lt_Some in Hi; rewrite Es', Es; done). kstep.
  eexists. split; [done|]. right.
  assert (forall q, pents st' q = pents st1 q) as Hpe.
  { intros q. unfold pents. by rewrite Ep', Eu'. }
  split_and!; [simpl; congruence|split; apply Hw', Hw1|].
  assert (length (sems st') = length (sems st1)) as El'.
  { apply (f_equal length) in Hv'. unfold semvals in Hv'. by rewrite !length_fmap in Hv'. }
  exists i, sp. split_and!; simpl; try congruence; auto.
  - intros j v Hj. change (semvals st' !! j = Some (v + op_sum sp j ops)
      /\ 0 <= v + op_sum sp j ops <= semvmx si). rewrite Hv'.
    unfold semvals in Hj |- *. rewrite list_lookup_fmap in Hj |- *.
    destruct (sems st !! j) as [s|] eqn:Ej; [|done]. injection Hj as <-.
    pose proof (Hv _ _ _ (vals_lookup _ _ _ Ej)) as Hj.
    unfold vals in Hj. rewrite list_lookup_fmap in Hj.
    destruct (sems st1 !! j) as [s1|] eqn:Ej1; [|done]. simpl in Hj |- *. injection Hj as Hj _.
    destruct (cell_ok_lookup _ _ _ _ _ Hw1 Ej1) as (?&_). split; [by rewrite Hj|lia].
  - intros k num. etransitivity; [|apply Ha]. f_equal. apply Hpe.
  - intros q ?. etransitivity; [apply Hpe|auto].
Qed.

Lemma semop_sound n u now id nsops arg st :
  si_ok si -> sem_wf si n st -> 0 <= n -> n + 1 < 65536 -> sets_in st -> u_error st = 0 ->
  (u_procp u < length (sem_undo st))%nat ->
  match arg with inl ops => Forall op_wf ops | inr e => e <> 0 end ->
  exists r, semop si u now id nsops arg st = Ok r /\
    semop_post n (u_procp u) id now (match arg with inl ops => ops | inr _ => [] end) st r.
Proof.
  intros Hsi Hw H0 Hn Hin Hu Hp Harg. unfold semop.
  destruct (semconv si id st) as [i|] eqn:Hc.
  2: { eexists. split; [done|]. by apply kept_set_error. }
  destruct (semopm si <? nsops); [eexists; split; [done|]; by apply kept_set_error|].
  destruct arg as [ops|e]; [|eexists; split; [done|]; by apply kept_set_error].
  destruct (semconv_alloc _ _ _ Hc) as (sp&Hi&Hal&_). rewrite (proj2 (rd_Ok _ _ _) Hi). kstep.
  pose proof (Hin _ _ Hi Hal) as Hset.
  destruct (semop_verify u sp ops) eqn:Hver.
  { eexists. split; [done|]. apply kept_set_error; [done|by eapply semop_verify_err]. }
  apply semop_verify_range in Hver; [|apply Hset|done].
  unfold semop_check. simpl. rewrite (proj2 (rd_Ok _ _ _) Hi). kstep.
  destruct (semop_loop_spec si Hsi n (u_procp u) id sp st ops H0 Hn Hp) with (done := @nil sembuf) (st := st)
    as (e&st1&->&Hpost); auto.
  { eapply Forall_impl; [exact Hver|]. intros op Ho. by apply sem_idx_lt. }
  { apply df_nil. by apply eqv_refl. }
  kstep. destruct e as [| |c]; simpl in Hpost |- *.
  - edestruct (semop_finish n (u_procp u) id sp i ops (u_pid u) now st st1) as (st'&Hr&?); eauto.
  - eexists. split; [done|]. left. destruct Hpost as [He ?]. split; [done|]. by apply eqv_kept in He.
  - eexists. split; [done|]. destruct Hpost as (He&Hu1&?). apply eqv_kept in He.
    unfold semop_post. split_and!; [apply He..|congruence|done].
Qed.

(** C2: semop() never faults, and is atomic: when it fails, and when the process must sleep,
    every semaphore value and every process's adjust-on-exit entry is what it was, whatever
    was done before the failing operation has been taken back; and a sleeper is counted on
    the channel it sleeps on, so that the next change of the semaphore wakes it. *)
Theorem semop_atomic n u now id nsops ops st :
  si_ok si -> sem_wf si n st -> 0 <= n -> n + 1 < 65536 -> sets_in st -> u_error st = 0 ->
  (u_procp u < length (sem_undo st))%nat -> Forall op_wf ops ->
  exists r, semop si u now id nsops (inl ops) st = Ok r /\
    (forall st', (exists c, r = inl (c, st') /\ 1 <= wait_count c st' /\ u_error st' = 0) \/
                 (r = inr st' /\ u_error st' <> 0) ->
       semvals st' = semvals st /\ (forall q, pents st' q = pents st q) /\ undo_wf si st') /\
    (forall c st', r = inl (c, st') -> 1 <= wait_count c st' /\ u_error st' = 0).
Proof.
  intros Hsi Hw H0 Hn Hin Hu Hp Hops.
  destruct (semop_sound n u now id nsops (inl ops) st) as (r&->&Hr); auto.
  exists r. split; [done|]. split.
  - intros st' [(c&->&_)|[-> He]]; [apply Hr|]. by destruct Hr as [[_ ?]|[? _]].
  - intros c st' ->. split; apply Hr.
Qed.

(** a semop() that returns without error has performed every operation: each semaphore
    of the pool has moved by the sum of the operations on it and stayed within 0 and
    SEMVMX, the adjustments of the process have dropped by the SEM_UNDO operations, those of
    other processes are untouched, and sem_otime is set. *)
Theorem semop_performs n u now id nsops ops st st' :
  si_ok si -> sem_wf si n st -> 0 <= n -> n + 1 < 65536 -> sets_in st -> u_error st = 0 ->
  (u_procp u < length (sem_undo st))%nat -> Forall op_wf ops ->
  semop si u now id nsops (inl ops) st = Ok (inr st') -> u_error st' = 0 ->
  exists i sp, semconv si id st = Some i /\ sema st !! i = Some sp /\
    sema st' = <[i := with_otime sp now]> (sema st) /\
    (forall j v, semvals st !! j = Some v ->
       semvals st' !! j = Some (v + op_sum sp j ops) /\ 0 <= v + op_sum sp j ops <= semvmx si) /\
    (forall k num, aoe (pents st' (u_procp u)) k num =
       aoe (pents st (u_procp u)) k num - (if decide (k = id) then undo_sum num ops else 0)) /\
    (forall q, q <> u_procp u -> pents st' q = pents st q) /\ undo_wf si st'.
Proof.
  intros Hsi Hw H0 Hn Hin Hu Hp Hops Hr He.
  destruct (semop_sound n u now id nsops (inl ops) st) as (r&Hr'&Hpost); auto.
  rewrite Hr in Hr'. injection Hr' as <-.
  destruct Hpost as [[? _]|(_&?&i&sp&?&?&?&_&_&_&?&?&?)]; [done|]. exists i, sp. auto 10.
Qed.

(** ** semexit() *)

(** The adjustments recorded for the pool index [j] of the set [sp]. *)
Fixpoint ent_sum (sp : semid_ds) (j : nat) (es : list undo) : Z :=
  match es with
  | [] => 0
  | e :: es => (if decide (sem_idx sp (un_num e) = j) then un_aoe e else 0) + ent_sum sp j es
  end.

Lemma ent_sum_app sp j a b : ent_sum sp j (a ++ b) = ent_sum sp j a + ent_sum sp j b.
Proof. induction a as [|x a IH]; simpl; [done|]. rewrite IH. lia. Qed.

Lemma ent_sum_rev sp j es : ent_sum sp j (rev es) = ent_sum sp j es.
Proof. induction es as [|x es IH]; simpl; [done|]. rewrite ent_sum_app, IH. simpl. lia. Qed.

Lemma ent_sum_none sp j es :
  Forall (fun e => sem_idx sp (un_num e) <> j) es -> ent_sum sp j es = 0.
Proof. induction 1 as [|x es Hx _ IH]; simpl; [done|]. by rewrite decide_False. Qed.

Lemma ent_sum_otime sp t j es : ent_sum (with_otime sp t) j es = ent_sum sp j es.
Proof. induction es as [|x es IH]; simpl; [done|]. by rewrite IH. Qed.

(** Entries of one set, on different cells of it. *)
Definition ents_of (id : Z) (sp : semid_ds) (es : list undo) : Prop :=
  Forall (fun e => un_id e = id /\ 0 <= un_num e < sem_nsems sp) es /\
  NoDup ((fun e => sem_idx sp (un_num e)) <$> es).

(** The parts of the state that semexit's loop does not touch. *)
Definition cells_only st st' : Prop :=
  sema st' = sema st /\ semu st' = semu st /\ sem_undo st' = sem_undo st /\
  semunp st' = semunp st /\ semfup st' = semfup st /\ length (sems st') = length (sems st).

Lemma cells_only_trans st1 st2 st3 : cells_only st1 st2 -> cells_only st2 st3 -> cells_only st1 st3.
Proof. unfold cells_only. intros (?&?&?&?&?&?) (?&?&?&?&?&?). split_and!; congruence. Qed.

Lemma wakes_cells (ch : nat -> semst M -> res (semst M)) i st :
  ch = wake_ncnt \/ ch = wake_zcnt -> (i < length (sems st))%nat ->
  exists st', ch i st = Ok st' /\ cells_only st st' /\ semvals st' = semvals st.
Proof.
  intros Hch Hi. destruct (get_sem_Ok _ _ Hi) as (s&Hg&Hl).
  assert (forall s', semval s' = semval s ->
    semval <$> <[i := s']> (sems st) = semval <$> sems st) as Hsame.
  { intros s' E. rewrite list_fmap_insert. apply list_insert_id.
    rewrite list_lookup_fmap, Hl. simpl. by rewrite E. }
  destruct Hch as [-> | ->]; [unfold wake_ncnt|unfold wake_zcnt]; rewrite Hg; kstep.
  all: match goal with |- context [if ?b then _ else _] => destruct b end;
    [exists st; unfold cells_only; auto 10|].
  all: rewrite put_sem_Ok by done; kstep; eexists; split; [done|].
  all: unfold cells_only, semvals; simpl; rewrite length_insert, Hsame; auto 10.
Qed.

Lemma semexit1_spec id i sp e st v :
  si_ok si -> semconv si id st = Some i -> sema st !! i = Some sp -> set_in st sp ->
  un_id e = id -> 0 <= un_num e < sem_nsems sp ->
  semvals st !! sem_idx sp (un_num e) = Some v -> 0 <= v + un_aoe e <= semvmx si ->
  exists st', semexit1 si e st = Ok st' /\ cells_only st st' /\
    semvals st' = <[sem_idx sp (un_num e) := v + un_aoe e]> (semvals st).
Proof.
  intros (_&Hmx&_) Hc Hi Hin He Hn Hv Hr. unfold semexit1. rewrite He, Hc.
  rewrite (proj2 (rd_Ok _ _ _) Hi). kstep. set (j := sem_idx sp (un_num e)) in *.
  unfold semvals in Hv. rewrite list_lookup_fmap in Hv.
  destruct (sems st !! j) as [s|] eqn:Hs; [|done]. injection Hv as Hv.
  pose proof (lookup_lt_Some _ _ _ Hs) as Hlt.
  unfold get_sem at 1. rewrite (proj2 (rd_Ok _ _ _) Hs). kstep. rewrite Hv.
  replace ((v + un_aoe e <? 0) || (semvmx si <? v + un_aoe e)) with false by lia.
  rewrite put_sem_Ok by done. kstep.
  set (st1 := set_sems st _).
  assert (cells_only st st1 /\ semvals st1 = <[j := v + un_aoe e]> (semvals st)) as [H1 Hv1].
  { unfold cells_only, st1, semvals. simpl. rewrite length_insert, list_fmap_insert. simpl.
    rewrite wrapu_small by lia. auto 10. }
  assert (exists st2, (if v + un_aoe e =? 0 then wake_zcnt j st1 else mret st1) = Ok st2
    /\ cells_only st1 st2 /\ semvals st2 = semvals st1) as (st2&->&H2&Hv2).
  { destruct (_ =? 0); [apply wakes_cells; [auto|]|exists st1; unfold cells_only; auto 10].
    destruct H1 as (_&_&_&_&_&?). lia. }
  kstep. destruct (0 <? un_aoe e).
  - destruct (wakes_cells wake_ncnt j st2) as (st3&->&H3&Hv3); [auto| |].
    { destruct H1 as (_&_&_&_&_&?), H2 as (_&_&_&_&_&?). lia. }
    exists st3. split_and!; [done|eauto using cells_only_trans|congruence].
  - exists st2. split_and!; [done|eauto using cells_only_trans|congruence].
Qed.

Lemma semexit_loop_spec id i sp es : si_ok si ->
  forall st, semconv si id st = Some i -> sema st !! i = Some sp -> set_in st sp ->
  ents_of id sp es ->
  (forall j v, semvals st !! j = Some v -> 0 <= v + ent_sum sp j es <= semvmx si) ->
  exists st', semexit_loop si es st = Ok st' /\ cells_only st st' /\
    (forall j v, semvals st !! j = Some v -> semvals st' !! j = Some (v + ent_sum sp j es)).
Proof.
  intros Hsi. induction es as [|e es IH]; intros st Hc Hi Hin [Hall Hnd] Hr; simpl.
  { exists st. unfold cells_only. split_and!; auto. intros j v ->. by rewrite Z.add_0_r. }
  apply Forall_cons in Hall as [[He Hn] Hall]. apply NoDup_cons in Hnd as [Hni Hnd].
  assert (ent_sum sp (sem_idx sp (un_num e)) es = 0) as Hz.
  { apply ent_sum_none. rewrite Forall_forall. intros x Hx Ex. apply Hni. rewrite <- Ex.
    apply list_elem_of_fmap. eauto. }
  assert (sem_idx sp (un_num e) < length (semvals st))%nat as [v Hv]%lookup_lt_is_Some.
  { unfold semvals. rewrite length_fmap. revert Hin. unfold set_in, sem_idx. lia. }
  pose proof (Hr _ _ Hv) as Hrv. simpl in Hrv. rewrite decide_True, Hz in Hrv by done.
  destruct (semexit1_spec id i sp e st v Hsi Hc Hi Hin He Hn Hv) as (st1&->&Hco&Hv1); [lia|].
  kstep. pose proof Hco as (Es&_&_&_&_&El).
  destruct (IH st1) as (st2&->&Hco2&Hv2).
  - unfold semconv in *. by rewrite Es.
  - by rewrite Es.
  - unfold set_in in *. by rewrite El.
  - by split.
  - intros j w Hj. rewrite Hv1 in Hj. destruct (decide (sem_idx sp (un_num e) = j)) as [<-|Hne].
    + rewrite list_lookup_insert_eq in Hj by (by apply lookup_lt_Some in Hv). injection Hj as <-.
      rewrite Hz. lia.
    + rewrite list_lookup_insert_ne in Hj by done. specialize (Hr j w Hj). simpl in Hr.
      by rewrite decide_False in Hr.
  - exists st2. split_and!; [done|by eapply cells_only_trans|].
    intros j w Hj. destruct (decide (sem_idx sp (un_num e) = j)) as [<-|Hne].
    + rewrite Hv in Hj. injection Hj as <-. rewrite Z.add_assoc. apply Hv2. rewrite Hv1.
      by rewrite list_lookup_insert_eq by (by apply lookup_lt_Some in Hv).
    + rewrite Z.add_0_l. apply Hv2. rewrite Hv1. by rewrite list_lookup_insert_ne.
Qed.

(** The structure goes back to the free chain. *)
Lemma undo_release st p up :
  undo_wf si st -> owns st p up ->
  undo_wf si (set_undo st (<[up := []]> (semu st)) (unlink up (semunp st)) (up :: semfup st)
                (<[p := None]> (sem_undo st))).
Proof.
  intros Hw Ho. destruct (uw_own _ _ Hw _ _ Ho) as [Hlt Hnf].
  destruct (unlink_spec up _ (uw_and _ _ Hw)) as [Hu1 Hu2].
  assert (forall q v, <[p := None]> (sem_undo st) !! q = Some (Some v) -> q <> p /\ owns st q v) as Hown.
  { intros q v. destruct (decide (q = p)) as [->|].
    - by rewrite list_lookup_insert_eq by (by apply lookup_lt_Some in Ho).
    - by rewrite list_lookup_insert_ne. }
  split; simpl; try done; unfold owns; simpl.
  - apply Forall_insert; [apply Hw|]. split; [done|split; [constructor|simpl; lia]].
  - intros q v [Hq Hqv]%Hown. rewrite length_insert. destruct (uw_own _ _ Hw _ _ Hqv) as [? Hn].
    split; [done|]. rewrite elem_of_cons. intros [->|?]; [|done].
    by apply Hq, (uw_inj _ _ Hw _ _ up).
  - intros q r v [? Hq]%Hown [? Hr]%Hown. by apply (uw_inj _ _ Hw _ _ v).
  - intros v [->|Hv]%elem_of_cons; [by rewrite list_lookup_insert_eq|].
    rewrite list_lookup_insert_ne; [by apply Hw|]. by intros ->.
  - apply NoDup_cons. split; [done|apply Hw].
  - intros v. rewrite Hu2. destruct (decide (v = up)) as [->|].
    + rewrite list_lookup_insert_eq by done. split; [tauto|by intros (?&?&[=])].
    + rewrite list_lookup_insert_ne by done. rewrite (uw_act _ _ Hw). tauto.
Qed.

Lemma unlink_not_in up c : up ∉ c -> unlink up c = c.
Proof.
  induction c as [|x c IH]; simpl; [done|]. rewrite elem_of_cons. intros Hn.
  rewrite decide_False by (intros ->; tauto). f_equal. tauto.
Qed.

(** semexit() adds every recorded adjustment to its semaphore and gives the structure back. *)
Lemma semexit_spec id i sp p st :
  si_ok si -> undo_wf si st -> semconv si id st = Some i -> sema st !! i = Some sp ->
  set_in st sp -> ents_of id sp (pents st p) -> (p < length (sem_undo st))%nat ->
  (forall j v, semvals st !! j = Some v -> 0 <= v + ent_sum sp j (pents st p) <= semvmx si) ->
  exists st', semexit si p st = Ok st' /\ undo_wf si st' /\ pents st' p = [] /\
    (forall j v, semvals st !! j = Some v -> semvals st' !! j = Some (v + ent_sum sp j (pents st p))) /\
    length (semvals st') = length (semvals st).
Proof.
  intros Hsi Hw Hc Hi Hin Hes Hp Hr. unfold semexit.
  destruct (sem_undo st !! p) as [[up|]|] eqn:Ho.
  3: { apply lookup_ge_None in Ho. lia. }
  2: { exists st. assert (pents st p = []) as Hpe by (unfold pents; by rewrite Ho).
       split_and!; auto. intros j v ->. rewrite Hpe. simpl. by rewrite Z.add_0_r. }
  pose proof (pents_owns st p up Ho) as Hpe. rewrite <- Hpe.
  destruct (uw_own _ _ Hw _ _ Ho) as [Hlt _]. apply lookup_lt_is_Some in Hlt as [l Hl].
  rewrite Hl in Hpe. simpl in Hpe.
  assert (forall s : semst M, sem_undo s = <[p := None]> (sem_undo st) -> pents s p = []) as Hp0.
  { intros s E. unfold pents. rewrite E. by rewrite list_lookup_insert_eq. }
  destruct (Nat.eqb_spec (length (pents st p)) 0) as [E0|E0].
  - apply nil_length_inv in E0. kstep. eexists. split; [done|]. split_and!; auto.
    + pose proof (undo_release st p up Hw Ho) as Hw'.
      rewrite list_insert_id, unlink_not_in in Hw'; [done| |by rewrite Hl, <- Hpe, E0].
      rewrite (uw_act _ _ Hw), Hl. intros (?&?&[= ->]). by rewrite E0 in Hpe.
    + intros j v Hj. rewrite E0. simpl ent_sum. by rewrite Z.add_0_r.
  - destruct (semexit_loop_spec id i sp (rev (pents st p)) Hsi st Hc Hi Hin) as (st1&->&Hco&Hv).
    + destruct Hes as [Hall Hnd]. split; [by apply Forall_rev|].
      by rewrite <- Permutation_rev.
    + intros j v Hj. rewrite ent_sum_rev. auto.
    + destruct Hco as (Es&Eu&Ep&En&Ef&El). kstep. rewrite Eu, Ep, En, Ef. eexists. split; [done|].
      split_and!; auto.
      * pose proof (undo_release st p up Hw Ho) as Hw'. split; apply Hw'.
      * intros j v Hj. rewrite <- (ent_sum_rev sp j (pents st p)). exact (Hv j v Hj).
      * unfold semvals. simpl. by rewrite !length_fmap.
Qed.

(** ** Entries and operations of one set *)

Lemma aoe_elem es e : ents_sorted es -> e ∈ es -> aoe es (un_id e) (un_num e) = un_aoe e.
Proof.
  induction es as [|x es IH]; simpl; [intros _ []%elem_of_nil|].
  intros [Hx Hs] [->|He]%elem_of_cons.
  - by rewrite (proj2 (undo_is_spec _ _ _)).
  - rewrite ulex_not_is; [auto|]. left. rewrite Forall_forall in Hx. by apply Hx.
Qed.

Lemma sem_idx_inj sp a b : 0 <= sem_base sp -> 0 <= a -> 0 <= b ->
  sem_idx sp a = sem_idx sp b -> a = b.
Proof. unfold sem_idx. lia. Qed.

Lemma ents_of_sorted id sp es : 0 <= sem_base sp -> ents_sorted es ->
  Forall (fun e => un_id e = id /\ 0 <= un_num e < sem_nsems sp) es -> ents_of id sp es.
Proof.
  intros Hb Hs Hall. split; [done|].
  induction es as [|x es IH]; simpl; [constructor|].
  destruct Hs as [Hx Hs]. apply Forall_cons in Hall as [[Ei Hn] Hall].
  apply NoDup_cons. split; [|auto].
  intros (y&Ey&Hy)%list_elem_of_fmap. rewrite Forall_forall in Hx, Hall.
  destruct (Hall _ Hy) as [Eiy Hny]. apply sem_idx_inj in Ey; [|lia..].
  specialize (Hx _ Hy). unfold ult, ulex in Hx. lia.
Qed.

Lemma ent_sum_aoe id sp j es : 0 <= sem_base sp -> ents_of id sp es ->
  ent_sum sp j es = aoe es id (Z.of_nat j - sem_base sp).
Proof.
  intros Hb. induction es as [|x es IH]; intros [Hall Hnd]; simpl; [done|].
  apply Forall_cons in Hall as [[Ei Hn] Hall]. apply NoDup_cons in Hnd as [Hni Hnd].
  rewrite IH by done. destruct (decide (sem_idx sp (un_num x) = j)) as [Ej|Ej].
  - rewrite (proj2 (undo_is_spec _ _ _)) by (unfold sem_idx in Ej; lia).
    rewrite <- IH by done. rewrite ent_sum_none; [lia|].
    rewrite Forall_forall. intros y Hy Ey. apply Hni. rewrite Ej, <- Ey.
    apply list_elem_of_fmap. eauto.
  - destruct (undo_is x id _) eqn:Eu; [|lia].
    apply undo_is_spec in Eu as [_ Eu]. unfold sem_idx in Ej. lia.
Qed.

Lemma op_sum_undo sp j ops : 0 <= sem_base sp ->
  Forall (fun op => 0 <= sem_num op /\ has_flag (sem_flg op) SEM_UNDO = true) ops ->
  op_sum sp j ops = undo_sum (Z.of_nat j - sem_base sp) ops.
Proof.
  intros Hb. induction 1 as [|op ops [Hn Hf] _ IH]; simpl; [done|]. rewrite IH, Hf. f_equal.
  unfold sem_idx. destruct (decide _), (Z.eqb_spec (sem_num op) (Z.of_nat j - sem_base sp)); simpl; lia.
Qed.

Lemma undo_sum_range num ops : undo_sum num ops <> 0 -> exists op, op ∈ ops /\ sem_num op = num.
Proof.
  induction ops as [|op ops IH]; simpl; [done|]. intros H.
  destruct (Z.eqb_spec (sem_num op) num) as [E|E].
  - exists op. split; [left|done].
  - destruct IH as (o&Ho&?); [rewrite andb_false_r in H; lia|]. exists o. split; [by right|done].
Qed.

(** C38: the inverse of SEM_UNDO.  A process without adjustments performs an array of SEM_UNDO
    operations and exits: every semaphore has its old value again, the process has no
    adjustment left, and the pool of undo structures is sound. *)
Theorem semexit_reverses_semop n u now id nsops ops st st1 :
  si_ok si -> sem_wf si n st -> 0 <= n -> n + 1 < 65536 -> sets_in st -> u_error st = 0 ->
  (u_procp u < length (sem_undo st))%nat -> Forall op_wf ops ->
  Forall (fun op => has_flag (sem_flg op) SEM_UNDO = true) ops ->
  pents st (u_procp u) = [] ->
  semop si u now id nsops (inl ops) st = Ok (inr st1) -> u_error st1 = 0 ->
  exists st2, semexit si (u_procp u) st1 = Ok st2 /\ semvals st2 = semvals st /\
    pents st2 (u_procp u) = [] /\ undo_wf si st2.
Proof.
  intros Hsi Hw H0 Hn Hin Hu Hp Hops Hund Hpe Hr He.
  destruct (semop_sound n u now id nsops (inl ops) st) as (r&Hr'&Hpost); auto.
  rewrite Hr in Hr'. injection Hr' as <-.
  destruct Hpost as [[? _]|(_&Hw1&i&sp&Hc&Hi&Es&El&Eu&Hrng&Hv&Ha&_)]; [done|].
  destruct (semconv_alloc _ _ _ Hc) as (sp0&Hi0&Hal&_). rewrite Hi in Hi0. injection Hi0 as <-.
  pose proof (Hin _ _ Hi Hal) as Hset. pose proof Hset as (Hb&_).
  rewrite Hpe in Ha. simpl in Ha.
  destruct (pents_wf _ _ (u_procp u) Hw1) as (Hso&Hok&_).
  assert (ents_of id sp (pents st1 (u_procp u))) as Hof.
  { apply ents_of_sorted; auto. rewrite Forall_forall in Hok |- *. intros e He1.
    destruct (Hok _ He1) as [Hnz _]. rewrite <- (aoe_elem _ _ Hso He1), Ha in Hnz.
    destruct (decide (un_id e = id)) as [->|]; [|lia]. split; [done|].
    destruct (undo_sum_range (un_num e) ops) as (op&Hop&<-); [lia|].
    rewrite Forall_forall in Hrng. auto. }
  assert (forall j, ent_sum sp j (pents st1 (u_procp u)) = - op_sum sp j ops) as Hneg.
  { intros j. rewrite (ent_sum_aoe id sp j _ Hb Hof), Ha, decide_True by done.
    rewrite op_sum_undo; [lia|done|].
    rewrite Forall_forall in Hrng, Hund |- *. intros op Ho. split; [apply Hrng|]; auto. }
  assert (i < length (sema st))%nat as Hil by (by apply lookup_lt_Some in Hi).
  assert (forall j v, semvals st1 !! j = Some v -> exists v0, semvals st !! j = Some v0 /\
    v = v0 + op_sum sp j ops /\ 0 <= v0 <= semvmx si) as Hback.
  { intros j v Hj. pose proof (lookup_lt_Some _ _ _ Hj) as Hl. unfold semvals in Hl |- *.
    rewrite length_fmap, El in Hl. apply lookup_lt_is_Some in Hl as [s Hs].
    exists (semval s). rewrite list_lookup_fmap, Hs. split; [done|].
    destruct (Hv j (semval s)) as [Hj' _]; [unfold semvals; by rewrite list_lookup_fmap, Hs|].
    rewrite Hj in Hj'. injection Hj' as ->. split; [done|].
    by destruct (cell_ok_lookup _ _ _ _ _ Hw Hs) as (?&_). }
  destruct (semexit_spec id i (with_otime sp now) (u_procp u) st1 Hsi Hw1)
    as (st2&->&Hw2&Hp2&Hv2&El2); auto.
  - unfold semconv in *. rewrite Es. destruct (id <? 0); [done|].
    destruct (sema st !! Z.to_nat (id mod semmni si)) as [s|] eqn:Ex; [|done].
    destruct (decide (i = Z.to_nat (id mod semmni si))) as [->|Hne].
    + rewrite list_lookup_insert_eq by done. rewrite Hi in Ex. by injection Ex as <-.
    + rewrite list_lookup_insert_ne, Ex by done. done.
  - rewrite Es. by apply list_lookup_insert_eq.
  - unfold set_in in *. by rewrite El.
  - by rewrite Eu.
  - intros j v Hj. rewrite ent_sum_otime, Hneg. destruct (Hback j v Hj) as (v0&_&->&?). lia.
  - exists st2. split_and!; auto. apply list_eq. intros j.
    destruct (semvals st1 !! j) as [v|] eqn:Hj.
    + rewrite (Hv2 j v Hj), ent_sum_otime, Hneg. destruct (Hback j v Hj) as (v0&->&->&_).
      f_equal. lia.
    + apply lookup_ge_None in Hj. rewrite (proj2 (lookup_ge_None _ _)) by lia.
      symmetry. apply lookup_ge_None. unfold semvals in Hj |- *. rewrite length_fmap in Hj |- *. lia.
Qed.
End Semop.

(** ** semunrm(): squeezing out entries *)

Section Semunrm.
Context {M : Type}.
Implicit Type st : semst M.
Context (si : seminfo).

(** An entry semunrm is asked to remove. *)
Definition unrm_hit (id low high : Z) (e : undo) : bool :=
  (un_id e =? id) && (low <=? un_num e) && (un_num e <=? high).

(** Thanks to the order of the entries, stopping early loses nothing. *)
Lemma semunrm_ent_filter id low high es :
  ents_sorted es -> semunrm_ent id low high es = List.filter (fun e => negb (unrm_hit id low high e)) es.
Proof.
  assert (forall l e, Forall (ult e) l -> (id < un_id e \/ (un_id e = id /\ high < un_num e)) ->
    List.filter (fun e => negb (unrm_hit id low high e)) l = l) as Hskip.
  { induction l as [|x l IH]; intros e Hl He; simpl; [done|]. apply Forall_cons in Hl as [Hx Hl].
    unfold ult, ulex in Hx.
    replace (unrm_hit id low high x) with false by (unfold unrm_hit; lia). simpl.
    f_equal. by apply (IH e). }
  induction es as [|e es IH]; simpl; [done|]. intros [He Hs]. specialize (IH Hs).
  unfold unrm_hit at 1. destruct (Z.ltb_spec id (un_id e)).
  - replace ((un_id e =? id) && _ && _) with false by lia. simpl. f_equal. symmetry. apply (Hskip _ e); auto.
  - destruct (Z.ltb_spec (un_id e) id); simpl.
    + replace ((un_id e =? id) && _ && _) with false by lia. simpl. by f_equal.
    + destruct (Z.ltb_spec (un_num e) low).
      * replace ((un_id e =? id) && _ && _) with false by lia. simpl. by f_equal.
      * destruct (Z.ltb_spec high (un_num e)).
        -- replace ((un_id e =? id) && _ && _) with false by lia. simpl. f_equal. symmetry.
           apply (Hskip _ e); auto. right. lia.
        -- replace ((un_id e =? id) && _ && _) with true by lia. done.
Qed.

Lemma filter_ents_wf P es : ents_wf si es -> ents_wf si (List.filter P es).
Proof.
  intros (Hs&Hok&Hl). split_and!.
  - clear -Hs. induction es as [|e es IH]; simpl; [done|]. destruct Hs as [He Hs].
    destruct (P e); simpl; auto. split; auto.
    rewrite Forall_forall in He |- *. intros x Hx. apply He.
    apply list_elem_of_In in Hx. apply list_elem_of_In. by apply filter_In in Hx as [? _].
  - rewrite Forall_forall in Hok |- *. intros x Hx. apply Hok.
    apply list_elem_of_In in Hx. apply list_elem_of_In. by apply filter_In in Hx as [? _].
  - pose proof (filter_length_le P es). lia.
Qed.

(** The walk along the chain treats each structure on it once. *)
Lemma semunrm_walk_spec id low high chain us :
  NoDup chain -> Forall (fun v => (v < length us)%nat) chain ->
  let r := semunrm_walk id low high chain us in
  length r.2 = length us /\
  (forall v, r.2 !! v = if decide (v ∈ chain) then semunrm_ent id low high <$> us !! v else us !! v) /\
  NoDup r.1 /\ (forall v, v ∈ r.1 <-> v ∈ chain /\ r.2 !! v <> Some []).
Proof.
  revert us. induction chain as [|p ps IH]; intros us Hnd Hall; cbn [semunrm_walk fst snd].
  - split_and!; [done| |constructor|intros v; rewrite elem_of_nil; tauto].
    intros v. rewrite decide_False; [done|]. apply not_elem_of_nil.
  - apply NoDup_cons in Hnd as [Hni Hnd]. apply Forall_cons in Hall as [Hp Hall].
    apply lookup_lt_is_Some in Hp as [es Hes]. rewrite Hes. change (default [] (Some es)) with es.
    set (es' := semunrm_ent id low high es).
    destruct (IH (<[p := es']> us) Hnd) as (IH1&IH2&IH3&IH4).
    { eapply Forall_impl; [exact Hall|]. intros v. by rewrite length_insert. }
    set (r := semunrm_walk id low high ps _) in *. rewrite length_insert in IH1.
    assert (forall v, r.2 !! v = if decide (v ∈ p :: ps) then semunrm_ent id low high <$> us !! v
                                 else us !! v) as Hr2.
    { intros v. rewrite IH2. destruct (decide (v = p)) as [->|Hne].
      - rewrite decide_False, decide_True by (done || left).
        rewrite list_lookup_insert_eq by (by apply lookup_lt_Some in Hes). by rewrite Hes.
      - rewrite list_lookup_insert_ne by done.
        destruct (decide (v ∈ ps)); [rewrite decide_True by (by right)|rewrite decide_False]; auto.
        rewrite elem_of_cons. tauto. }
    assert (r.2 !! p = Some es') as Hrp by (rewrite Hr2, decide_True, Hes by left; done).
    split_and!; [done|exact Hr2| |].
    + destruct (length es' =? 0)%nat; [done|]. apply NoDup_cons. split; [|done].
      rewrite IH4. tauto.
    + intros v. rewrite elem_of_cons. destruct (Nat.eqb_spec (length es') 0) as [E|E].
      * apply nil_length_inv in E. rewrite IH4. split; [tauto|].
        intros [[->|?] Hn]; [rewrite Hrp, E in Hn; done|auto].
      * rewrite elem_of_cons, IH4. split.
        -- intros [->|[? ?]]; [|auto]. split; [by left|]. rewrite Hrp. intros [= E']. by rewrite E' in E.
        -- intros [[->|?] ?]; auto.
Qed.

Lemma semunrm_pents id low high st p : undo_wf si st ->
  pents (semunrm id low high st) p =
    List.filter (fun e => negb (unrm_hit id (wrapu 16 low) (wrapu 16 high) e)) (pents st p)
  /\ undo_wf si (semunrm id low high st).
Proof.
  intros Hw. unfold semunrm. set (lo := wrapu 16 low). set (hi := wrapu 16 high).
  destruct (semunrm_walk_spec id lo hi (semunp st) (semu st) (uw_and _ _ Hw)) as (Hl&Hr2&Hnd&Hin).
  { rewrite Forall_forall. intros v (e&es&Hv)%(uw_act _ _ Hw). by apply lookup_lt_Some in Hv. }
  set (r := semunrm_walk id lo hi _ _) in *.
  assert (forall v es, semu st !! v = Some es -> r.2 !! v =
    Some (List.filter (fun e => negb (unrm_hit id lo hi e)) es)) as Hval.
  { intros v es Hv. rewrite Hr2, Hv. destruct (decide (v ∈ semunp st)) as [|Hn]; simpl.
    - rewrite semunrm_ent_filter; [done|].
      by destruct (Forall_lookup_1 _ _ _ _ (uw_ents _ _ Hw) Hv) as (?&_).
    - destruct es as [|e es]; [done|]. destruct Hn. apply (uw_act _ _ Hw). eauto. }
  split.
  - unfold pents. simpl. destruct (sem_undo st !! p) as [[up|]|]; [|done..].
    destruct (semu st !! up) as [es|] eqn:E; [by rewrite (Hval _ _ E)|].
    assert (r.2 !! up = None) as ->; [|done].
    apply lookup_ge_None in E. apply lookup_ge_None. by rewrite Hl.
  - split; simpl; try apply Hw; try done.
    + rewrite Forall_lookup. intros v es' Hv. pose proof (lookup_lt_Some _ _ _ Hv) as Hlt.
      rewrite Hl in Hlt. apply lookup_lt_is_Some in Hlt as [es Hes].
      rewrite (Hval _ _ Hes) in Hv. injection Hv as <-. apply filter_ents_wf.
      exact (Forall_lookup_1 _ _ _ _ (uw_ents _ _ Hw) Hes).
    + intros q v Hq. rewrite Hl. by apply (uw_own _ _ Hw q).
    + intros v Hv. by rewrite (Hval _ _ (uw_free _ _ Hw _ Hv)).
    + intros v. rewrite Hin, (uw_act _ _ Hw). split.
      * intros [(e&es&Hv) Hn]. rewrite (Hval _ _ Hv) in Hn |- *.
        destruct (List.filter _ _); [done|eauto].
      * intros (e&es&Hv). pose proof (lookup_lt_Some _ _ _ Hv) as Hlt.
        rewrite Hl in Hlt. apply lookup_lt_is_Some in Hlt as [es0 Hes].
        rewrite (Hval _ _ Hes) in Hv. split; [|rewrite (Hval _ _ Hes), Hv; done].
        destruct es0; [done|eauto].
Qed.

Lemma aoe_filter_hit P es id num :
  (forall e, undo_is e id num = true -> P e = false) -> aoe (List.filter P es) id num = 0.
Proof.
  intros HP. induction es as [|e es IH]; simpl; [done|].
  destruct (P e) eqn:E; simpl; [|done]. destruct (undo_is e id num) eqn:Eu; [|done].
  by rewrite (HP _ Eu) in E.
Qed.

Lemma aoe_filter_miss P es id num :
  (forall e, undo_is e id num = true -> P e = true) -> aoe (List.filter P es) id num = aoe es id num.
Proof.
  intros HP. induction es as [|e es IH]; simpl; [done|].
  destruct (undo_is e id num) eqn:Eu.
  - rewrite (HP _ Eu). simpl. by rewrite Eu.
  - destruct (P e); simpl; [by rewrite Eu|done].
Qed.

(** semunrm() forgets exactly the adjustments of the semaphores it is given, in every
    process, and keeps the pool of undo structures sound. *)
Theorem semunrm_exact id low high st :
  undo_wf si st -> 0 <= low < 65536 -> 0 <= high < 65536 ->
  undo_wf si (semunrm id low high st) /\
  forall p k num, aoe (pents (semunrm id low high st) p) k num =
    if decide (k = id /\ low <= num <= high) then 0 else aoe (pents st p) k num.
Proof.
  intros Hw Hl Hh. split; [by apply (semunrm_pents id low high st 0)|]. intros p k num.
  destruct (semunrm_pents id low high st p Hw) as [-> _].
  rewrite !wrapu_small by lia. case_decide as Hd.
  - apply aoe_filter_hit. intros e [? ?]%undo_is_spec. unfold unrm_hit. lia.
  - apply aoe_filter_miss. intros e [? ?]%undo_is_spec. unfold unrm_hit. lia.
Qed.
End Semunrm.
