(* ===== verification/SemIds.v ===== *)
(** * Semaphore sets: the pool, the map and the identifiers

    semget() and semctl(IPC_RMID) against the [ResMap] interface: the sets in use occupy
    disjoint ranges of the semaphore pool, none of them free in the map, and an identifier
    is valid exactly between the semget that returned it and its removal. *)

From S2P Require Import Prelude Rmap Ipc Sem SemUndo SemOp SemThms.
From stdpp Require Import prelude list numbers strings.
From Stdlib Require Import ZArith Lia.

Local Open Scope Z_scope.

Section Ids.
Context {M : Type} `{RM : !ResMap M}.
Implicit Type st : semst M.
Context (si : seminfo).

Definition live st (i : nat) (sp : semid_ds) : Prop :=
  sema st !! i = Some sp /\ allocated_perm (sem_perm sp) = true.

(** The units of a set in the map: cell [b] of the pool is unit [b + 1]. *)
Definition set_unit (sp : semid_ds) (u : Z) : Prop :=
  sem_base sp + 1 <= u < sem_base sp + 1 + sem_nsems sp.

Record sets_wf st : Prop := SetsWf {
  sw_map : rm_inv (semmap st);
  sw_len : Z.of_nat (length (sema st)) = semmni si;
  sw_in : forall i sp, live st i sp -> set_in st sp /\ 0 < sem_nsems sp;
  sw_busy : forall i sp u, live st i sp -> set_unit sp u -> ~ rm_unit (semmap st) u;
  sw_disj : forall i j sp sp' u, live st i sp -> live st j sp' -> i <> j ->
              set_unit sp u -> ~ set_unit sp' u;
  sw_bound : forall u, rm_unit (semmap st) u -> u <= Z.of_nat (length (sems st));
  sw_seq : forall i sp, sema st !! i = Some sp -> 0 <= pseq (sem_perm sp) < 65536
}.

(** The identifier of a slot, as semget computes it. *)
Definition semid_of (i : nat) (sp : semid_ds) : Z := pseq (sem_perm sp) * semmni si + Z.of_nat i.

Lemma semconv_semid_of st i sp : sets_wf st -> live st i sp ->
  semconv si (semid_of i sp) st = Some i.
Proof.
  intros Hw [Hi Ha]. pose proof (sw_seq _ Hw _ _ Hi). pose proof (sw_len _ Hw) as Hl.
  pose proof (lookup_lt_Some _ _ _ Hi). unfold semconv, semid_of.
  replace (pseq (sem_perm sp) * semmni si + Z.of_nat i <? 0) with false by nia.
  rewrite (Z.add_comm (_ * _)), Z.mod_add, Z.mod_small, Nat2Z.id, Hi by lia.
  rewrite Z.div_add, Z.div_small, Ha by lia. simpl. by rewrite Z.eqb_refl.
Qed.

Lemma semconv_inv st id i : 0 < semmni si -> semconv si id st = Some i ->
  exists sp, live st i sp /\ id = semid_of i sp.
Proof.
  intros Hm Hc. destruct (semconv_alloc _ _ _ _ Hc) as (sp&Hi&Ha&Hs&Hid&->).
  exists sp. split; [done|]. unfold semid_of. rewrite <- Hs, Z2Nat.id by (apply Z.mod_pos_bound; lia).
  rewrite (Z.mul_comm (id / semmni si)). apply Z.div_mod. lia.
Qed.

(** A slot that is not in use may hold anything. *)
Lemma sets_wf_idle st st' i sp' :
  sets_wf st -> sems st' = sems st -> semmap st' = semmap st ->
  sema st' = <[i := sp']> (sema st) -> allocated_perm (sem_perm sp') = false ->
  0 <= pseq (sem_perm sp') < 65536 -> sets_wf st'.
Proof.
  intros Hw Es Em Ea Hal Hseq.
  assert (forall j sp, live st' j sp -> live st j sp) as Hlive.
  { intros j sp [Hj Ha]. rewrite Ea in Hj. apply list_lookup_insert_Some in Hj as [(_&<-&_)|[_ Hj]].
    - congruence. - by split. }
  split; rewrite ?Es, ?Em, ?Ea, ?length_insert; try apply Hw.
  - intros j sp Hl. unfold set_in. rewrite Es. apply (sw_in _ Hw j). auto.
  - intros j sp u Hl. apply (sw_busy _ Hw j). auto.
  - intros j k sp sp1 u Hj Hk. apply (sw_disj _ Hw j k); auto.
  - intros j sp Hj. apply list_lookup_insert_Some in Hj as [(_&<-&_)|[_ Hj]]; [done|].
    by apply (sw_seq _ Hw j).
Qed.

(** A slot takes units from the map. *)
Lemma sets_wf_take st st' i sp0 sp' a n m' :
  sets_wf st -> sems st' = sems st -> semmap st' = m' -> sema st' = <[i := sp']> (sema st) ->
  sema st !! i = Some sp0 -> allocated_perm (sem_perm sp0) = false ->
  0 <= pseq (sem_perm sp') < 65536 -> 0 < n < 65536 -> 0 < a ->
  sem_base sp' = a - 1 -> sem_nsems sp' = n -> rm_inv m' ->
  (forall u, a <= u < a + n -> rm_unit (semmap st) u) ->
  (forall u, rm_unit m' u -> rm_unit (semmap st) u /\ ~ (a <= u < a + n)) -> sets_wf st'.
Proof.
  intros Hw Es Em Ea Hi Hal0 Hseq Hn Hpos Hb Hns Hinv Hgot Hleft.
  assert (forall j sp, live st' j sp -> (j = i /\ sp = sp') \/ (j <> i /\ live st j sp)) as Hlive.
  { intros j sp [Hj Ha]. rewrite Ea in Hj.
    apply list_lookup_insert_Some in Hj as [(->&<-&_)|[? Hj]]; [by left|right]. by repeat split. }
  assert (forall u, set_unit sp' u -> rm_unit (semmap st) u) as Hsp'
    by (intros u Hu; apply Hgot; unfold set_unit in Hu; lia).
  split; rewrite ?Em, ?Ea, ?length_insert; try apply Hw; try done.
  - intros j sp [[-> ->]|[_ Hl]]%Hlive.
    + split; [|lia]. unfold set_in. rewrite Es, Hb, Hns.
      pose proof (sw_bound _ Hw (a + n - 1) (Hgot (a + n - 1) ltac:(lia))). lia.
    + unfold set_in. rewrite Es. by apply (sw_in _ Hw j).
  - intros j sp u [[-> ->]|[_ Hl]]%Hlive Hu Hf; apply Hleft in Hf as [Hf Hno].
    + apply Hno. unfold set_unit in Hu. lia.
    + by apply (sw_busy _ Hw _ _ _ Hl Hu).
  - intros j k sp sp1 u [[-> ->]|[_ Hl]]%Hlive [[-> ->]|[_ Hl']]%Hlive Hne Hu Hu'; [done| | |].
    + apply (sw_busy _ Hw _ _ _ Hl' Hu'). auto.
    + apply (sw_busy _ Hw _ _ _ Hl Hu). auto.
    + by apply (sw_disj _ Hw _ _ _ _ u Hl Hl').
  - intros u Hu. rewrite Es. apply (sw_bound _ Hw). by apply Hleft.
  - intros j sp Hj. apply list_lookup_insert_Some in Hj as [(_&<-&_)|[_ Hj]]; [done|].
    by apply (sw_seq _ Hw j).
Qed.

(** A slot gives its units back. *)
Lemma sets_wf_give st st' i sp sp' m' :
  sets_wf st -> length (sems st') = length (sems st) -> semmap st' = m' ->
  sema st' = <[i := sp']> (sema st) -> live st i sp -> allocated_perm (sem_perm sp') = false ->
  0 <= pseq (sem_perm sp') < 65536 -> rm_inv m' ->
  (forall u, rm_unit m' u -> rm_unit (semmap st) u \/ set_unit sp u) -> sets_wf st'.
Proof.
  intros Hw Es Em Ea Hl0 Hal Hseq Hinv Hfree.
  assert (forall j s, live st' j s -> j <> i /\ live st j s) as Hlive.
  { intros j s [Hj Ha]. rewrite Ea in Hj. apply list_lookup_insert_Some in Hj as [(_&<-&_)|[Hne Hj]].
    - congruence. - by repeat split. }
  split; rewrite ?Em, ?Ea, ?length_insert; try apply Hw; try done.
  - intros j s [_ Hl]%Hlive. unfold set_in. rewrite Es. by apply (sw_in _ Hw j).
  - intros j s u [Hne Hl]%Hlive Hu [Hf|Hf]%Hfree; [by apply (sw_busy _ Hw j s u)|].
    by apply (sw_disj _ Hw j i s sp u).
  - intros j k s s' u [_ Hj]%Hlive [_ Hk]%Hlive. by apply (sw_disj _ Hw).
  - intros u [Hf|Hf]%Hfree; rewrite Es; [by apply (sw_bound _ Hw)|].
    destruct (sw_in _ Hw _ _ Hl0) as [(?&?&?) _]. unfold set_unit in Hf. lia.
  - intros j s Hj. apply list_lookup_insert_Some in Hj as [(_&<-&_)|[_ Hj]]; [done|].
    by apply (sw_seq _ Hw j).
Qed.

(** Two tables that differ only in slot [i], out of use in both, know the same ids. *)
Lemma semconv_idle st st' i sp sp' id :
  sema st !! i = Some sp -> allocated_perm (sem_perm sp) = false ->
  sema st' = <[i := sp']> (sema st) -> allocated_perm (sem_perm sp') = false ->
  semconv si id st' = semconv si id st.
Proof.
  intros Hi Ha Es Ha'. unfold semconv. rewrite Es. destruct (id <? 0); [done|].
  destruct (decide (i = Z.to_nat (id mod semmni si))) as [<-|Hne].
  - rewrite list_lookup_insert_eq, Hi, Ha, Ha' by (by apply lookup_lt_Some in Hi). done.
  - by rewrite list_lookup_insert_ne.
Qed.

(** semget().  It never faults and keeps the sets in use on disjoint ranges of the pool,
    apart from the free units of the map.  An error leaves every identifier as it was; a
    normal return gives an identifier that semconv() accepts, of a set of at least [nsems]
    semaphores, and touches no other slot. *)
Theorem semget_sound u now k nsems flg st :
  sets_wf st -> u_error st = 0 -> semmsl si < 65536 ->
  exists st', semget si u now k nsems flg st = Ok st' /\ sets_wf st' /\ sems st' = sems st /\
    ((u_error st' <> 0 /\ forall id, semconv si id st' = semconv si id st) \/
     (u_error st' = 0 /\ exists i sp, live st' i sp /\ semconv si (u_rval1 st') st' = Some i /\
        nsems <= sem_nsems sp /\ forall j, j <> i -> sema st' !! j = sema st !! j)).
Proof.
  intros Hw Hu Hmsl. unfold semget. rewrite ipcget_eq.
  destruct (ipcget_find k flg (sem_perm <$> sema st)) as [e|i|i] eqn:Ef.
  - assert (e <> 0) as He by (apply (ipcget_err u k flg (sem_perm <$> sema st) e (sem_perm <$> sema st)); by rewrite ipcget_eq, Ef).
    eexists. split; [done|]. split; [split; apply Hw|]. split; [done|]. by left.
  - apply ipcget_found in Ef as (pm&Hi&Ha&_). rewrite list_lookup_fmap in Hi.
    destruct (sema st !! i) as [sp|] eqn:Hsp; [|done]. injection Hi as <-.
    rewrite (proj2 (rd_Ok _ _ _) Hsp). kstep.
    assert (live st i sp) as Hlive by done.
    destruct (negb (nsems =? 0) && (sem_nsems sp <? nsems)) eqn:En.
    + eexists. split; [done|]. split; [split; apply Hw|]. split; [done|]. by left.
    + eexists. split; [done|]. split; [split; apply Hw|]. split; [done|]. right. split; [done|].
      exists i, sp. split_and!; auto.
      * by apply (semconv_semid_of st i sp).
      * destruct (sw_in _ Hw _ _ Hlive). lia.
  - apply ipcget_new_free in Ef as (pm&Hi&Ha). rewrite list_lookup_fmap in Hi.
    destruct (sema st !! i) as [sp0|] eqn:Hsp; [|done]. injection Hi as <-.
    set (sp := with_perm sp0 (ipcget_init u k flg (sem_perm sp0))).
    assert (set_perms (sema st) (alter (ipcget_init u k flg) i (sem_perm <$> sema st)) = <[i := sp]> (sema st)) as Ealt
      by (apply (zip_perms_insert sem_perm with_perm); [by intros []|done]).
    pose proof (lookup_lt_Some _ _ _ Hsp) as Hlt. pose proof (sw_seq _ Hw _ _ Hsp) as Hseq.
    rewrite Ealt. unfold rd at 1. simpl sema. rewrite list_lookup_insert_eq by done. kstep.
    assert (forall s' e, sems s' = sems st -> semmap s' = semmap st -> e <> 0 ->
      sema s' = <[i := with_perm sp (perm_mode (sem_perm sp) 0)]> (sema st) -> u_error s' = e ->
      sets_wf s' /\ sems s' = sems st /\
      (u_error s' <> 0 /\ forall id, semconv si id s' = semconv si id st)) as Hfail.
    { intros s' e E1 E2 He E3 E4. split_and!; [|done|congruence|].
      - by eapply (sets_wf_idle st s' i).
      - intros id. by eapply (semconv_idle st s' i sp0). }
    unfold wr. simpl sema. rewrite length_insert, decide_True by done. kstep.
    rewrite list_insert_insert_eq.
    destruct ((nsems <=? 0) || (semmsl si <? nsems)) eqn:En.
    { eexists. split; [done|]. destruct (Hfail (set_error (set_sema
        (set_sema st (<[i:=sp]> (sema st))) (<[i:=with_perm sp (perm_mode (sem_perm sp) 0)]> (sema st)))
        EINVAL) EINVAL) as (?&?&?); auto. }
    destruct (rm_alloc_spec (semmap st) nsems (sw_map _ Hw)) as (a&m'&Hal&Hinv&Hcase); [lia|].
    simpl semmap. rewrite Hal. kstep. destruct Hcase as [[-> ->]|(Hpos&Hgot&Hleft)].
    { eexists. split; [done|]. destruct (Hfail (set_error (set_sema
        (set_sema st (<[i:=sp]> (sema st))) (<[i:=with_perm sp (perm_mode (sem_perm sp) 0)]> (sema st)))
        ENOSPC) ENOSPC) as (?&?&?); auto. }
    cbn [fst snd]. rewrite (proj2 (Z.eqb_neq a 0)), decide_True by (done || lia). kstep.
    eexists. split; [done|].
    set (sp' := SemidDs (sem_perm sp) (a - 1) (wrapu 16 nsems) 0 now).
    assert (wrapu 16 nsems = nsems) as Ew by (apply wrapu_small; lia).
    set (st' := set_rval _ _).
    assert (sets_wf st') as Hw'.
    { eapply (sets_wf_take st st' i sp0 sp' a nsems m'); auto; simpl; auto.
      - apply list_insert_insert_eq.
      - lia. }
    split; [done|]. split; [done|]. right. split; [done|].
    assert (live st' i sp') as Hlive.
    { split; [simpl; apply list_lookup_insert_eq; by rewrite length_insert|apply ipcget_init_allocated]. }
    exists i, sp'. split_and!; auto.
    + by apply (semconv_semid_of st' i sp').
    + simpl. lia.
    + intros j Hj. simpl. by rewrite !list_lookup_insert_ne.
Qed.

(** ** IPC_RMID *)

Lemma rmid_clear_spec n : forall i st, (i + n <= length (sems st))%nat ->
  exists st', rmid_clear n i st = Ok st' /\ cells_only st st' /\ semmap st' = semmap st /\
    (forall j, (i <= j < i + n)%nat -> semvals st' !! j = Some 0) /\
    (forall j, ~ (i <= j < i + n)%nat -> semvals st' !! j = semvals st !! j).
Proof.
  induction n as [|n IH]; intros i st Hb; simpl.
  { exists st. unfold cells_only. split_and!; auto. intros j ?. lia. }
  destruct (get_sem_Ok st i) as (s&->&Hs); [lia|]. kstep. rewrite put_sem_Ok by lia. kstep.
  set (st0 := set_sems st _).
  assert (forall (c : bool) (w : semchan) (f : sem -> sem) t, length (sems t) = length (sems st) ->
    (forall x, semval (f x) = semval x) ->
    exists t', (if c then (mret t : res (semst M)) else (s ← get_sem i (add_wake t w); put_sem i (f s) (add_wake t w))) = Ok t'
      /\ cells_only t t' /\ semmap t' = semmap t /\ semvals t' = semvals t) as Hwake.
  { intros c w f t Hl Hf. destruct c; [exists t; unfold cells_only; auto 10|].
    destruct (get_sem_Ok (add_wake t w) i) as (x&->&Hx); [simpl; lia|]. kstep.
    rewrite put_sem_Ok by (simpl; lia). eexists. split; [done|]. unfold cells_only, semvals. simpl.
    rewrite length_insert, list_fmap_insert. split_and!; auto. apply list_insert_id.
    rewrite list_lookup_fmap. simpl in Hx. by rewrite Hx, Hf. }
  destruct (Hwake (semncnt s =? 0) (ChNcnt i) (fun s => with_ncnt s 0) st0) as (st1&->&H1&Hm1&Hv1);
    [unfold st0; simpl; by rewrite length_insert|done|]. kstep.
  destruct (Hwake (semzcnt s =? 0) (ChZcnt i) (fun s => with_zcnt s 0) st1) as (st2&->&H2&Hm2&Hv2);
    [destruct H1 as (_&_&_&_&_&->); unfold st0; simpl; by rewrite length_insert|done|]. kstep.
  assert (cells_only st st0) as H0 by (unfold cells_only, st0; simpl; rewrite length_insert; auto 10).
  pose proof (cells_only_trans _ _ _ H0 (cells_only_trans _ _ _ H1 H2)) as H02.
  destruct (IH (S i) st2) as (st3&->&H3&Hm3&Hz&Hk); [destruct H02 as (_&_&_&_&_&->); lia|].
  assert (semvals st2 = <[i := 0]> (semvals st)) as Hv.
  { rewrite Hv2, Hv1. unfold st0, semvals. simpl. by rewrite list_fmap_insert. }
  exists st3. split_and!; [done|by eapply cells_only_trans|by rewrite Hm3, Hm2, Hm1| |].
  - intros j Hj. destruct (decide (j = i)) as [->|]; [|apply Hz; lia].
    rewrite Hk, Hv by lia. apply list_lookup_insert_eq. unfold semvals. rewrite length_fmap. lia.
  - intros j Hj. rewrite Hk, Hv by lia. apply list_lookup_insert_ne. lia.
Qed.

(** IPC_RMID by an owner retires the identifier: it stops being valid, every other
    identifier keeps its slot, the slot's next set gets another one; no process keeps an
    adjustment for the set, its values are 0, and its units go back to the map without
    disturbing the sets in use. *)
Theorem semctl_rmid_retires u now id num arg st i sp :
  undo_wf si st -> sets_wf st -> 0 < semmni si <= 32767 -> semconv si id st = Some i ->
  sema st !! i = Some sp -> sem_owner u sp = None ->
  exists st' sp', semctl si u now id num IPC_RMID arg st = Ok st' /\ sets_wf st' /\ undo_wf si st' /\
    semconv si id st' = None /\ (forall k, k <> id -> semconv si k st' = semconv si k st) /\
    sema st' !! i = Some sp' /\ semid_of i sp' <> id /\
    (forall p n, 0 <= n <= sem_nsems sp -> aoe (pents st' p) id n = 0) /\
    (forall n, 0 <= n < sem_nsems sp -> semvals st' !! sem_idx sp n = Some 0) /\
    (forall j s n, live st j s -> j <> i -> 0 <= n < sem_nsems s ->
       semvals st' !! sem_idx s n = semvals st !! sem_idx s n).
Proof.
  intros Hu Hw Hm Hc Hi Ho. destruct (semconv_inv st id i ltac:(lia) Hc) as (sp0&[Hi0 Ha]&Hid).
  rewrite Hi in Hi0. injection Hi0 as <-. assert (live st i sp) as Hl by done.
  destruct (sw_in _ Hw _ _ Hl) as [(Hb&Hn&Hle) Hn0]. pose proof (sw_seq _ Hw _ _ Hi) as Hseq.
  pose proof (sw_len _ Hw) as Hlen. pose proof (lookup_lt_Some _ _ _ Hi) as Hlt.
  unfold semctl. rewrite Hc, (proj2 (rd_Ok _ _ _) Hi). kstep. simpl. unfold sem_rmid. rewrite Ho.
  set (st1 := semunrm id 0 (sem_nsems sp) (set_rval st 0)).
  assert (undo_wf si (set_rval st 0)) as Hu0 by (split; apply Hu).
  destruct (semunrm_pents si id 0 (sem_nsems sp) (set_rval st 0) 0 Hu0) as [_ Hu1]. fold st1 in Hu1.
  destruct (rmid_clear_spec (Z.to_nat (sem_nsems sp)) (Z.to_nat (sem_base sp)) st1)
    as (st2&->&(E1&E2&E3&E4&E5&E6)&Em&Hz&Hk); [unfold st1; simpl; lia|]. kstep.
  assert (forall s, live st i s -> s = sp) as Huniq by (intros s [Hs _]; congruence).
  destruct (rm_release_spec (semmap st) (sem_nsems sp) (sem_base sp + 1)) as (m'&Hr&Hinv&Hfree);
    [apply Hw|lia|lia|intros v Hv; by apply (sw_busy _ Hw _ _ _ Hl)|].
  rewrite Em. unfold st1. simpl semmap. rewrite Hr. kstep.
  assert (wraps 32 (id + semmni si) = id + semmni si) as Ewr.
  { apply wraps_small; [lia|]. rewrite Hid. unfold semid_of. simpl. nia. }
  replace (wraps 32 (id + semmni si) <? 0) with false by (rewrite Ewr, Hid; unfold semid_of; nia).
  set (sp' := with_perm sp (perm_mode (perm_seq (sem_perm sp) (pseq (sem_perm sp) + 1)) 0)).
  simpl. unfold wr. rewrite E1, decide_True by done. kstep.
  set (st' := set_sema _ _). exists st', sp'. split; [done|].
  assert (sema st' = <[i := sp']> (sema st)) as Ea by done.
  assert (length (sems st') = length (sems st)) as El by exact E6.
  assert (0 <= pseq (sem_perm sp') < 65536 /\ pseq (sem_perm sp') <> pseq (sem_perm sp)) as [Hs1 Hs2].
  { simpl. destruct (decide (pseq (sem_perm sp) = 65535)) as [->|]; [change (wrapu 16 (65535 + 1)) with 0; lia|].
    rewrite wrapu_small by (simpl; lia). lia. }
  assert (undo_wf si st') as Hu' by (destruct Hu1 as [F1 F2 F3 F4 F5 F6 F7]; split; unfold owns in *;
    simpl; rewrite ?E2, ?E3, ?E4, ?E5; auto).
  split_and!; auto.
  - by eapply (sets_wf_give st st' i sp sp' m').
  - destruct (semconv si id st') as [j|] eqn:Ej; [|done].
    destruct (semconv_alloc _ _ _ _ Ej) as (s&Hs&Has&_&_&Hj).
    destruct (semconv_alloc _ _ _ _ Hc) as (_&_&_&_&_&Hj'). rewrite Ea, Hj, <- Hj' in Hs.
    rewrite list_lookup_insert_eq in Hs by done. injection Hs as <-. done.
  - intros k Hk1. unfold semconv. rewrite Ea. destruct (Z.ltb_spec k 0); [done|].
    destruct (decide (i = Z.to_nat (k mod semmni si))) as [Hik|Hne].
    + rewrite <- Hik, list_lookup_insert_eq, Hi, Ha by done. simpl.
      destruct (Z.eqb_spec (k / semmni si) (pseq (sem_perm sp))) as [Eq|]; [|done].
      destruct Hk1. rewrite Hid. unfold semid_of. rewrite <- Eq, Hik, Z2Nat.id
        by (apply Z.mod_pos_bound; lia). rewrite (Z.mul_comm (k / _)). apply Z.div_mod. lia.
    + by rewrite list_lookup_insert_ne.
  - rewrite Ea. by apply list_lookup_insert_eq.
  - rewrite Hid. unfold semid_of. nia.
  - intros p n Hn1. assert (pents st' p = pents st1 p) as ->.
    { unfold pents. simpl. by rewrite E2, E3. }
    destruct (semunrm_pents si id 0 (sem_nsems sp) (set_rval st 0) p Hu0) as [Hpe _].
    fold st1 in Hpe. rewrite Hpe. apply aoe_filter_hit. intros e [? ?]%undo_is_spec.
    unfold unrm_hit. change (wrapu 16 0) with 0. rewrite wrapu_small by lia. lia.
  - intros n Hn1. apply Hz. unfold sem_idx. lia.
  - intros j s n Hj Hne Hn1. apply (Hk (sem_idx s n)).
    destruct (sw_in _ Hw _ _ Hj) as [(Hb'&_) _]. intros Hin.
    apply (sw_disj _ Hw j i s sp (sem_base s + 1 + n) Hj Hl Hne); unfold set_unit, sem_idx in *; lia.
Qed.
End Ids.
