(* ===== verification/SemWitness.v ===== *)
(** * Semaphores: the hypotheses of the theorems hold in a small system

    Two slots, four semaphores, two undo structures, two processes: slot 0 is a set of two
    semaphores with the values 3 and 0, and the other two are free in the map. *)

From S2P Require Import Prelude Rmap Ipc Sem SemUndo SemOp SemThms SemIds.
From stdpp Require Import prelude list numbers strings.
From Stdlib Require Import ZArith Lia.

Local Open Scope Z_scope.

Definition si2 : seminfo := Seminfo 2 4 2 4 10 4 32767 16384.
Definition root : ucred := Ucred 0 0 [] 0 101.
Definition map34 : rmap :=
  Rmap [Mapent 2 0; Mapent 2 3; zero_ent; zero_ent; Mapent 0 77] [].
Definition set0 : semid_ds := SemidDs (IpcPerm 0 0 0 0 0x81ff 4 99) 0 2 0 0.
Definition free1 : semid_ds := SemidDs (IpcPerm 0 0 0 0 0 0 0) 0 0 0 0.
Definition sys0 : semst rmap :=
  Semst [set0; free1] [Sem 3 0 0 0; Sem 0 0 0 0; Sem 0 0 0 0; Sem 0 0 0 0] map34
        [[]; []] [] [0; 1]%nat [None; None] 0 0 [] [].
Definition ops2 : list sembuf := [Sembuf 0 (-2) SEM_UNDO; Sembuf 1 5 SEM_UNDO].
Definition ops_block : list sembuf := [Sembuf 0 (-2) SEM_UNDO; Sembuf 1 (-5) SEM_UNDO].
Definition sys1 : semst rmap := Eval vm_compute in
  match semop si2 root 7 8 2 (inl ops2) sys0 with Ok (inr st) => st | _ => sys0 end.

Lemma si2_ok : si_ok si2.
Proof. unfold si_ok; simpl; lia. Qed.

(** The pool as seminit leaves it is sound. *)
Lemma undo_wf_fresh {M} si (st : semst M) n k :
  semu st = replicate n [] -> semunp st = [] -> semfup st = seq 0 n ->
  sem_undo st = replicate k None -> undo_wf si st.
Proof.
  intros Eu Ep Ef Es. split; unfold owns; rewrite ?Eu, ?Ep, ?Ef, ?Es.
  - apply Forall_replicate. split; [done|split; [constructor|simpl; lia]].
  - intros p up H. by apply lookup_replicate in H as [[=] _].
  - intros p q up H. by apply lookup_replicate in H as [[=] _].
  - intros up H%elem_of_seq. apply lookup_replicate_2. lia.
  - apply NoDup_seq.
  - constructor.
  - intros up. rewrite elem_of_nil. split; [done|]. intros (e&es&H).
    by apply lookup_replicate in H as [[=] _].
Qed.

Lemma sys0_undo : undo_wf si2 sys0.
Proof. by apply (undo_wf_fresh si2 sys0 2 2). Qed.

Lemma sys0_wf : sem_wf si2 5 sys0.
Proof.
  split; [exact sys0_undo|]. repeat constructor; unfold cell_ok; simpl; lia.
Qed.

Lemma sys0_live i sp : live sys0 i sp -> i = 0%nat /\ sp = set0.
Proof.
  intros [Hi Ha]. destruct i as [|[|i]]; simpl in Hi; [by injection Hi as <-| |done].
  injection Hi as <-. done.
Qed.

Lemma map34_wf : rmap_wf map34 [Mapent 2 3].
Proof.
  split; [|simpl; lia]. exists (Mapent 2 0), [zero_ent; zero_ent; Mapent 0 77].
  split_and!; [done|by repeat constructor|done|done|simpl; lia].
Qed.

Lemma sys0_units u : rm_unit (semmap sys0) u -> 3 <= u < 5.
Proof.
  intros H. apply (rmap_unit_wf _ _ _ map34_wf) in H.
  apply seg_free_cons in H as [H|H]; [unfold covers in H; simpl in H; lia|].
  by inversion H.
Qed.

Lemma sys0_sets : sets_wf si2 sys0.
Proof.
  split.
  - split; [simpl; lia|]. exists [Mapent 2 3]. exact map34_wf.
  - done.
  - intros i sp [-> ->]%sys0_live. unfold set_in; simpl. lia.
  - intros i sp u [-> ->]%sys0_live Hu Hf%sys0_units. unfold set_unit in Hu; simpl in Hu. lia.
  - intros i j sp sp' u [-> _]%sys0_live [-> _]%sys0_live. done.
  - intros u Hf%sys0_units. simpl. lia.
  - intros i sp Hi. destruct i as [|[|i]]; simpl in Hi; simplify_eq; simpl; lia.
Qed.

Lemma sys0_in : sets_in sys0.
Proof. intros i sp Hi Ha. by apply (sw_in _ _ sys0_sets i sp). Qed.

Lemma ops2_wf : Forall op_wf ops2 /\ Forall op_wf ops_block
  /\ Forall (fun op => has_flag (sem_flg op) SEM_UNDO = true) ops2.
Proof. split_and!; repeat constructor; unfold op_wf; simpl; lia. Qed.

Lemma sys1_undo : undo_wf si2 sys1.
Proof.
  destruct (semop_sound si2 5 root 7 8 2 (inl ops2) sys0 si2_ok sys0_wf ltac:(lia) ltac:(lia)
    sys0_in eq_refl ltac:(simpl; lia) (proj1 ops2_wf)) as (r&E&Hp).
  assert (r = inr sys1) as -> by (vm_compute in E; injection E as <-; vm_compute; reflexivity).
  destruct Hp as [[_ (_&_&H)]|(_&H&_)]; exact H.
Qed.

Lemma semop_atomic_witness :
  exists c st', semop si2 root 7 8 2 (inl ops_block) sys0 = Ok (inl (c, st'))
    /\ semvals st' = [3; 0; 0; 0].
Proof.
  assert (exists c st', semop si2 root 7 8 2 (inl ops_block) sys0 = Ok (inl (c, st')))
    as (c&st'&E) by (do 2 eexists; vm_compute; reflexivity).
  destruct (semop_atomic si2 5 root 7 8 2 ops_block sys0 si2_ok sys0_wf ltac:(lia) ltac:(lia)
    sys0_in eq_refl ltac:(simpl; lia) (proj1 (proj2 ops2_wf))) as (r&Hr&Hk&Hs).
  exists c, st'. split; [exact E|].
  rewrite E in Hr. injection Hr as <-. destruct (Hs c st' eq_refl) as [Hw Hu].
  refine (proj1 (Hk st' _)). left. exists c. auto.
Defined.

Lemma semop_performs_witness :
  semop si2 root 7 8 2 (inl ops2) sys0 = Ok (inr sys1) /\ semvals sys1 !! 1%nat = Some 5.
Proof.
  split; [vm_compute; reflexivity|].
  destruct (semop_performs si2 5 root 7 8 2 ops2 sys0 sys1 si2_ok sys0_wf ltac:(lia) ltac:(lia)
    sys0_in eq_refl ltac:(simpl; lia) (proj1 ops2_wf) eq_refl eq_refl)
    as (i&sp&Hc&Hi&_&Hv&_).
  vm_compute in Hc. injection Hc as <-. vm_compute in Hi. injection Hi as <-.
  exact (proj1 (Hv 1%nat 0 eq_refl)).
Defined.

Lemma semexit_reverses_semop_witness :
  exists st2, semexit si2 0 sys1 = Ok st2 /\ semvals st2 = [3; 0; 0; 0].
Proof.
  destruct (semexit_reverses_semop si2 5 root 7 8 2 ops2 sys0 sys1 si2_ok sys0_wf ltac:(lia)
    ltac:(lia) sys0_in eq_refl ltac:(simpl; lia) (proj1 ops2_wf) (proj2 (proj2 ops2_wf))
    eq_refl eq_refl eq_refl) as (st2&E&Hv&_).
  exists st2. split; [exact E|exact Hv].
Defined.

Lemma semunrm_exact_witness :
  aoe (pents sys1 0) 8 1 = -5 /\ aoe (pents (semunrm 8 0 2 sys1) 0) 8 1 = 0.
Proof.
  split; [vm_compute; reflexivity|].
  destruct (semunrm_exact si2 8 0 2 sys1 sys1_undo ltac:(lia) ltac:(lia)) as [_ Ha].
  exact (Ha 0%nat 8 1).
Defined.

Lemma semget_sound_witness :
  exists st', semget si2 root 7 55 2 IPC_CREAT sys0 = Ok st' /\ semconv si2 (u_rval1 st') st' = Some 1%nat.
Proof.
  assert (exists st', semget si2 root 7 55 2 IPC_CREAT sys0 = Ok st' /\ u_error st' = 0 /\
    semconv si2 (u_rval1 st') st' = Some 1%nat) as (st'&E&He&Hc).
  { eexists. split; [vm_compute; reflexivity|]. split; vm_compute; reflexivity. }
  destruct (semget_sound si2 root 7 55 2 IPC_CREAT sys0 sys0_sets eq_refl ltac:(simpl; lia))
    as (s&E'&_&_&[[Hn _]|(_&i&sp&_&Hc'&_)]); rewrite E in E'; injection E' as <-; [done|].
  exists st'. rewrite Hc' in Hc. injection Hc as ->. split; [exact E|exact Hc'].
Defined.

Lemma semctl_rmid_retires_witness :
  exists st', semctl si2 root 7 8 0 IPC_RMID (Semarg 0 (inr 0) (inr 0) 0) sys0 = Ok st'
    /\ semconv si2 8 st' = None.
Proof.
  destruct (semctl_rmid_retires si2 root 7 8 0 (Semarg 0 (inr 0) (inr 0) 0) sys0 0%nat set0
    sys0_undo sys0_sets ltac:(simpl; lia) eq_refl eq_refl eq_refl) as (st'&sp'&E&_&_&Hc&_).
  exists st'. split; [exact E|exact Hc].
Defined.
