(* ===== verification/Callout.v ===== *)
(** * The callout queue: [timeout], [untimeout], [softclock] of [src/sun/sys/sys/kern_clock.c]

    [calltodo] is the queue as the code keeps it: each c_time is relative to the entry
    before, and entries that are due have times <= 0.  [callfree] is the chain of free
    slots.  The abstraction is the list of (function, argument, deadline): the number of
    ticks until the entry is due. *)

From S2P Require Import Prelude.
From stdpp Require Import prelude list numbers strings.
From Stdlib Require Import ZArith Lia.

Local Open Scope Z_scope.
Local Open Scope kern_scope.

Record callout := Callout { c_time : Z; c_arg : Z; c_func : Z }.
Record clk := Clk { calltodo : list callout; callfree : list callout }.

Definition with_time (c : callout) (t : Z) : callout := Callout t (c_arg c) (c_func c).

(** timeout()'s search and insertion; [t] is what is left of the interval. *)
Fixpoint timeout_insert (fn arg t : Z) (q : list callout) : list callout :=
  match q with
  | [] => [Callout t arg fn]
  | p2 :: q' =>
      if c_time p2 <? t then
        p2 :: timeout_insert fn arg (if 0 <? c_time p2 then i32 (t - c_time p2) else t) q'
      else Callout t arg fn :: with_time p2 (i32 (c_time p2 - t)) :: q'
  end.

Definition timeout (fn arg t : Z) (s : clk) : res clk :=
  let t := if t <=? 0 then 1 else t in
  match callfree s with
  | [] => Panic "timeout table overflow"
  | _ :: free => Ok (Clk (timeout_insert fn arg t (calltodo s)) free)
  end.

(** untimeout()'s loop: the queue without the entry, and the slot it held. *)
Fixpoint untimeout_remove (fn arg : Z) (q : list callout) : list callout * option callout :=
  match q with
  | [] => ([], None)
  | p2 :: q' =>
      if (c_func p2 =? fn) && (c_arg p2 =? arg) then
        (match q' with
         | nx :: q'' =>
             if 0 <? c_time p2 then with_time nx (i32 (c_time nx + c_time p2)) :: q'' else q'
         | [] => []
         end, Some p2)
      else
        let r := untimeout_remove fn arg q' in (p2 :: r.1, r.2)
  end.

Definition untimeout (fn arg : Z) (s : clk) : clk :=
  let r := untimeout_remove fn arg (calltodo s) in
  match r.2 with
  | Some slot => Clk r.1 (slot :: callfree s)
  | None => s
  end.

(** hardclock()'s update of the queue: the entries from the front, and needsoft. *)
Fixpoint hard_todo (q : list callout) : list callout * bool :=
  match q with
  | [] => ([], false)
  | p1 :: q' =>
      let t := i32 (c_time p1 - 1) in
      if 0 <? t then (with_time p1 t :: q', false)
      else if t =? 0 then (with_time p1 t :: q', true)
      else let r := hard_todo q' in (with_time p1 t :: r.1, true)
  end.

(** softclock() takes the first entry off the queue when it is due. *)
Definition soft_pop (s : clk) : option (callout * clk) :=
  match calltodo s with
  | [] => None
  | p1 :: q => if 0 <? c_time p1 then None else Some (p1, Clk q (p1 :: callfree s))
  end.

(** What a function called from softclock does to the queue: a sequence of calls. *)
Inductive clk_call :=
| CallTimeout (fn arg t : Z)
| CallUntimeout (fn arg : Z).

Definition clk_do (c : clk_call) (s : clk) : res clk :=
  match c with
  | CallTimeout fn arg t => timeout fn arg t s
  | CallUntimeout fn arg => Ok (untimeout fn arg s)
  end.

Fixpoint clk_calls (cs : list clk_call) (s : clk) : res clk :=
  match cs with
  | [] => Ok s
  | c :: cs => s' ← clk_do c s; clk_calls cs s'
  end.

(** softclock(), [calls c] being what the function of entry [c] does when it is called with
    the entry's argument and lateness; the result has the entries run, in order. *)
Fixpoint softclock (calls : callout -> list clk_call) (fuel : nat) (s : clk)
    : res (list callout * clk) :=
  match fuel with
  | O => Fault
  | S fuel =>
      match soft_pop s with
      | None => Ok ([], s)
      | Some (p1, s1) =>
          s2 ← clk_calls (calls p1) s1;
          r ← softclock calls fuel s2;
          Ok (p1 :: r.1, r.2)
      end
  end.

(** ** Deadlines *)

(** The ticks left until an entry is due; an overdue entry keeps its (negative) time. *)
Fixpoint deadlines (acc : Z) (q : list callout) : list (Z * Z * Z) :=
  match q with
  | [] => []
  | c :: q =>
      if (acc =? 0) && (c_time c <=? 0) then (c_func c, c_arg c, c_time c) :: deadlines 0 q
      else (c_func c, c_arg c, acc + c_time c) :: deadlines (acc + c_time c) q
  end.
Definition todo (q : list callout) : list (Z * Z * Z) := deadlines 0 q.

(** After the due entries the deltas are not negative, and every deadline is an int. *)
Fixpoint deltas_ok (acc : Z) (q : list callout) : Prop :=
  match q with
  | [] => True
  | c :: q => 0 <= c_time c /\ acc + c_time c < 2 ^ 31 /\ deltas_ok (acc + c_time c) q
  end.
Fixpoint todo_ok (q : list callout) : Prop :=
  match q with
  | [] => True
  | c :: q =>
      if c_time c <=? 0 then - 2 ^ 31 < c_time c /\ todo_ok q
      else c_time c < 2 ^ 31 /\ deltas_ok (c_time c) q
  end.

(** The specification of timeout: before the first entry that is not due earlier. *)
Fixpoint insert_deadline (x : Z * Z * Z) (l : list (Z * Z * Z)) : list (Z * Z * Z) :=
  match l with
  | [] => [x]
  | y :: l' => if y.2 <? x.2 then y :: insert_deadline x l' else x :: y :: l'
  end.

(** The specification of untimeout: the first entry of the function and argument goes. *)
Fixpoint remove_call (fn arg : Z) (l : list (Z * Z * Z)) : list (Z * Z * Z) :=
  match l with
  | [] => []
  | (f, a, d) :: l' => if (f =? fn) && (a =? arg) then l' else (f, a, d) :: remove_call fn arg l'
  end.

Lemma i32_small z : - 2 ^ 31 <= z < 2 ^ 31 -> i32 z = z.
Proof. intros H. apply wraps_small; simpl; lia. Qed.

Lemma deadlines_pos acc q : 0 < acc -> deltas_ok acc q ->
  deadlines acc q = match q with [] => [] | c :: q' =>
     (c_func c, c_arg c, acc + c_time c) :: deadlines (acc + c_time c) q' end.
Proof.
  destruct q as [|c q]; simpl; [done|]. intros Ha _.
  by replace (acc =? 0) with false by lia.
Qed.

Lemma insert_pos fn arg q : forall acc t,
  0 < acc -> deltas_ok acc q -> 0 < t -> acc + t < 2 ^ 31 ->
  deadlines acc (timeout_insert fn arg t q) = insert_deadline (fn, arg, acc + t) (deadlines acc q)
  /\ deltas_ok acc (timeout_insert fn arg t q).
Proof.
  induction q as [|c q IH]; intros acc t Ha Hok Ht Hb.
  - simpl. replace (acc =? 0) with false by lia. split; [done|]. lia.
  - destruct Hok as (H0&Hlt&Hok). simpl.
    replace (acc =? 0) with false by lia. cbn [andb].
    destruct (Z.ltb_spec (c_time c) t) as [Hct|Hct]; simpl.
    + replace (acc + c_time c <? acc + t) with true by lia.
      replace (acc =? 0) with false by lia. cbn [andb].
      assert ((if 0 <? c_time c then i32 (t - c_time c) else t) = t - c_time c) as ->.
      { destruct (Z.ltb_spec 0 (c_time c)); [apply i32_small; lia|lia]. }
      destruct (IH (acc + c_time c) (t - c_time c)) as [IH1 IH2]; [lia|done|lia|lia|].
      rewrite IH1. replace (acc + c_time c + (t - c_time c)) with (acc + t) by lia. auto.
    + replace (acc =? 0) with false by lia. replace (acc + t =? 0) with false by lia. cbn [andb].
      rewrite i32_small by lia. replace (acc + t + (c_time c - t)) with (acc + c_time c) by lia.
      replace (acc + c_time c <? acc + t) with false by lia. simpl. split; [done|].
      split_and!; auto; lia.
Qed.

Lemma timeout_insert_todo fn arg t q :
  todo_ok q -> 0 < t < 2 ^ 31 ->
  todo (timeout_insert fn arg t q) = insert_deadline (fn, arg, t) (todo q)
  /\ todo_ok (timeout_insert fn arg t q).
Proof.
  unfold todo. intros Hok Ht. induction q as [|c q IH]; simpl in *.
  { replace (t <=? 0) with false by lia. simpl. split; [done|lia]. }
  destruct (Z.leb_spec (c_time c) 0) as [Hc|Hc].
  - destruct Hok as [Hb Hok]. destruct (IH Hok) as [IH1 IH2].
    replace (c_time c <? t) with true by lia. replace (0 <? c_time c) with false by lia. simpl.
    replace (c_time c <=? 0) with true by lia. replace (c_time c <? t) with true by lia.
    simpl. rewrite IH1. auto.
  - destruct Hok as [Hb Hok]. simpl. destruct (Z.ltb_spec (c_time c) t) as [Hct|Hct]; simpl.
    + replace (0 <? c_time c) with true by lia. rewrite i32_small by lia.
      replace (c_time c <=? 0) with false by lia. simpl. rewrite ?Z.add_0_l.
      replace (c_time c <? t) with true by lia.
      destruct (insert_pos fn arg q (c_time c) (t - c_time c)) as [-> H2]; [lia|done|lia|lia|].
      replace (c_time c + (t - c_time c)) with t by lia. auto.
    + replace (t <=? 0) with false by lia. simpl. rewrite ?Z.add_0_l.
      replace (t =? 0) with false by lia. replace (c_time c <? t) with false by lia. simpl.
      rewrite i32_small by lia. replace (t + (c_time c - t)) with (c_time c) by lia.
      split; [done|]. split_and!; auto; lia.
Qed.

Lemma untimeout_pos fn arg q : forall acc, 0 < acc -> deltas_ok acc q ->
  deadlines acc (untimeout_remove fn arg q).1 = remove_call fn arg (deadlines acc q)
  /\ deltas_ok acc (untimeout_remove fn arg q).1.
Proof.
  induction q as [|c q IH]; intros acc Ha Hok; [done|].
  destruct Hok as (H0&Hlt&Hok). simpl. replace (acc =? 0) with false by lia. cbn [andb].
  destruct ((c_func c =? fn) && (c_arg c =? arg)) eqn:E; simpl; rewrite E.
  - destruct q as [|nx q]; [done|]. destruct Hok as (Hn&Hnl&Hnok).
    destruct (Z.ltb_spec 0 (c_time c)); simpl.
    + rewrite i32_small by lia.
      replace (acc =? 0) with false by lia. replace (acc + c_time c =? 0) with false by lia. simpl.
      replace (acc + (c_time nx + c_time c)) with (acc + c_time c + c_time nx) by lia.
      split_and!; auto; lia.
    + replace (c_time c) with 0 in * by lia. rewrite Z.add_0_r in *.
      replace (acc =? 0) with false by lia. simpl. auto.
  - replace (acc =? 0) with false by lia. simpl. destruct (IH (acc + c_time c)) as [-> ?]; auto. lia.
Qed.

Lemma untimeout_todo fn arg q : todo_ok q ->
  todo (untimeout_remove fn arg q).1 = remove_call fn arg (todo q)
  /\ todo_ok (untimeout_remove fn arg q).1.
Proof.
  unfold todo. induction q as [|c q IH]; intros Hok; [done|]. simpl in *.
  destruct (Z.leb_spec (c_time c) 0) as [Hc|Hc]; simpl;
    destruct ((c_func c =? fn) && (c_arg c =? arg)) eqn:E; simpl; rewrite ?E.
  - destruct Hok as [_ Hok]. destruct q as [|nx q]; [done|].
    replace (0 <? c_time c) with false by lia. auto.
  - destruct Hok as [Hb Hok]. destruct (IH Hok) as [-> ?].
    replace (c_time c <=? 0) with true by lia. auto.
  - destruct Hok as [Hb Hok]. destruct q as [|nx q]; [done|]. destruct Hok as (Hn&Hnl&Hnok).
    replace (0 <? c_time c) with true by lia. simpl. rewrite i32_small by lia.
    replace (c_time nx + c_time c <=? 0) with false by lia. simpl. rewrite ?Z.add_0_l.
    replace (c_time c =? 0) with false by lia. simpl.
    replace (c_time nx + c_time c) with (c_time c + c_time nx) by lia. split; [done|]. auto.
  - destruct Hok as [Hb Hok]. destruct (untimeout_pos fn arg q (c_time c)) as [Hu ?]; auto.
    replace (c_time c <=? 0) with false by lia. rewrite ?Z.add_0_l, Hu. auto.
Qed.

(** ** A tick *)

Definition tick_down (x : Z * Z * Z) : Z * Z * Z := (x.1, x.2 - 1).

Lemma deadlines_shift q : forall acc, 0 < acc -> deltas_ok acc q ->
  deadlines (acc - 1) q = tick_down <$> deadlines acc q.
Proof.
  induction q as [|c q IH]; intros acc Ha Hok; [done|]. destruct Hok as (H0&Hlt&Hok). simpl.
  replace (acc =? 0) with false by lia. simpl.
  destruct ((acc - 1 =? 0) && (c_time c <=? 0)) eqn:E.
  - replace (c_time c) with 0 in * by lia. rewrite Z.add_0_r in *.
    replace 0 with (acc - 1) at 2 by lia. rewrite IH by auto. unfold tick_down. simpl.
    do 2 f_equal. lia.
  - replace (acc - 1 + c_time c) with (acc + c_time c - 1) by lia.
    rewrite IH by (auto; lia). done.
Qed.

Lemma deltas_ok_mono q a b : a <= b -> deltas_ok b q -> deltas_ok a q.
Proof.
  revert a b. induction q as [|c q IH]; intros a b Hab; simpl; [done|]. intros (?&?&?).
  split_and!; [done|lia|]. by apply (IH _ (b + c_time c)); [lia|].
Qed.

Lemma deltas_ok_todo acc q : 0 <= acc -> deltas_ok acc q -> todo_ok q.
Proof.
  revert acc. induction q as [|c q IH]; intros acc Ha; simpl; [done|]. intros (H0&Hlt&Hok).
  destruct (Z.leb_spec (c_time c) 0).
  - split; [lia|]. apply (IH (acc + c_time c)); [lia|done].
  - split; [lia|]. eapply deltas_ok_mono; [|exact Hok]. lia.
Qed.

Definition is_due (c : callout) : bool := c_time c <=? 0.

Lemma hard_todo_spec q : todo_ok q -> Forall (fun c => - 2 ^ 31 + 1 < c_time c) q ->
  todo (hard_todo q).1 = tick_down <$> todo q /\ todo_ok (hard_todo q).1 /\
  (hard_todo q).2 = match (hard_todo q).1 with c :: _ => is_due c | [] => false end.
Proof.
  unfold todo, is_due. induction q as [|c q IH]; simpl; [done|]. intros Hok [Hb Hbs]%Forall_cons.
  destruct (Z.leb_spec (c_time c) 0) as [Hc|Hc].
  - destruct Hok as [_ Hok]. rewrite i32_small by lia.
    replace (0 <? c_time c - 1) with false by lia. replace (c_time c - 1 =? 0) with false by lia.
    destruct (IH Hok Hbs) as (IH1&IH2&_). simpl. replace (c_time c - 1 <=? 0) with true by lia.
    rewrite IH1. unfold tick_down. simpl. split_and!; auto. lia.
  - destruct Hok as [Hlt Hok]. rewrite i32_small by lia. destruct (Z.ltb_spec 0 (c_time c - 1)).
    + simpl. replace (c_time c - 1 <=? 0) with false by lia. rewrite ?Z.add_0_l.
      rewrite deadlines_shift by (auto; lia). split_and!; auto; [lia|].
      eapply deltas_ok_mono; [|exact Hok]. lia.
    + replace (c_time c - 1 =? 0) with true by lia. simpl.
      replace (c_time c - 1 <=? 0) with true by lia. rewrite ?Z.add_0_l.
      pose proof (deadlines_shift q (c_time c) Hc Hok) as Hs.
      assert (c_time c = 1) as E1 by lia. rewrite E1 in *.
      change (1 - 1) with 0 in *. rewrite Hs.
      split_and!; [done|lia| |done]. by apply (deltas_ok_todo 1); [lia|].
Qed.

(** ** Running what is due *)

(** The due entries, and the number of slots. *)
Fixpoint due (q : list callout) : list callout :=
  match q with
  | [] => []
  | c :: q => if is_due c then c :: due q else []
  end.
Definition nslots (s : clk) : nat := (length (calltodo s) + length (callfree s))%nat.

Definition call_ok (c : clk_call) : Prop :=
  match c with CallTimeout _ _ t => t < 2 ^ 31 | CallUntimeout _ _ => True end.
Definition clk_ok (s : clk) : Prop := todo_ok (calltodo s).

Lemma timeout_insert_due fn arg t q : 0 < t -> due (timeout_insert fn arg t q) = due q.
Proof.
  intros Ht. induction q as [|c q IH]; simpl.
  - unfold is_due; simpl. by replace (t <=? 0) with false by lia.
  - destruct (Z.ltb_spec (c_time c) t) as [Hlt|Hge]; simpl.
    + unfold is_due. destruct (Z.leb_spec (c_time c) 0); [|done].
      replace (0 <? c_time c) with false by lia. fold is_due. f_equal. exact IH.
    + unfold is_due; simpl. replace (t <=? 0) with false by lia.
      by replace (c_time c <=? 0) with false by lia.
Qed.

Lemma untimeout_due fn arg q : todo_ok q ->
  (length (due (untimeout_remove fn arg q).1) <= length (due q))%nat.
Proof.
  induction q as [|c q IH]; intros Hok; [simpl; lia|]. simpl in Hok |- *.
  destruct ((c_func c =? fn) && (c_arg c =? arg)); simpl.
  - destruct (Z.leb_spec (c_time c) 0) as [Hc|Hc].
    + replace (is_due c) with true by (unfold is_due; lia).
      destruct q as [|nx q]; [simpl; lia|]. replace (0 <? c_time c) with false by lia. simpl; lia.
    + replace (is_due c) with false by (unfold is_due; lia).
      destruct Hok as [Hb Hok]. destruct q as [|nx q]; [simpl; lia|]. destruct Hok as (?&?&_).
      replace (0 <? c_time c) with true by lia. simpl. unfold is_due; simpl.
      rewrite i32_small by lia. replace (c_time nx + c_time c <=? 0) with false by lia. simpl; lia.
  - destruct (is_due c) eqn:E; unfold is_due in E; rewrite E in Hok; [|simpl; lia].
    destruct Hok as [_ Hok]. specialize (IH Hok). simpl. lia.
Qed.

Lemma untimeout_len fn arg q :
  (length q = length (untimeout_remove fn arg q).1 +
    match (untimeout_remove fn arg q).2 with Some _ => 1 | None => 0 end)%nat.
Proof.
  induction q as [|c q IH]; [done|]. simpl.
  destruct (_ && _); simpl; [|lia]. destruct q as [|nx q]; [done|]. destruct (0 <? c_time c); simpl; lia.
Qed.

Lemma untimeout_slots fn arg s : nslots (untimeout fn arg s) = nslots s.
Proof.
  unfold untimeout, nslots. pose proof (untimeout_len fn arg (calltodo s)) as H.
  destruct (untimeout_remove fn arg (calltodo s)) as [q' [slot|]]; simpl in *; lia.
Qed.

Lemma untimeout_none fn arg q :
  (untimeout_remove fn arg q).2 = None -> (untimeout_remove fn arg q).1 = q.
Proof.
  induction q as [|c q IH]; simpl; [done|]. destruct (_ && _); simpl; [done|].
  intros H. by rewrite IH.
Qed.

Lemma untimeout_queue fn arg s : calltodo (untimeout fn arg s) = (untimeout_remove fn arg (calltodo s)).1.
Proof.
  unfold untimeout. pose proof (untimeout_none fn arg (calltodo s)) as H.
  destruct (untimeout_remove fn arg (calltodo s)) as [q' [slot|]]; simpl in *; [done|].
  symmetry. auto.
Qed.

Lemma timeout_insert_len fn arg t q : length (timeout_insert fn arg t q) = S (length q).
Proof.
  revert t. induction q as [|c q IH]; intros t; simpl; [done|].
  destruct (c_time c <? t); simpl; [by rewrite IH|done].
Qed.

(** timeout and untimeout never make more entries due. *)
Lemma clk_do_spec c s : clk_ok s -> call_ok c ->
  (exists s', clk_do c s = Ok s' /\ clk_ok s' /\ nslots s' = nslots s /\
     (length (due (calltodo s')) <= length (due (calltodo s)))%nat /\
     (forall fn arg t, c = CallTimeout fn arg t -> due (calltodo s') = due (calltodo s)))
  \/ clk_do c s = Panic "timeout table overflow".
Proof.
  intros Hok Hc. destruct c as [fn arg t|fn arg]; simpl.
  - unfold timeout. destruct (callfree s) as [|x free] eqn:Ef; [by right|left].
    set (t' := if t <=? 0 then 1 else t).
    assert (0 < t' < 2 ^ 31) as Ht by (simpl in Hc; unfold t'; destruct (Z.leb_spec t 0); lia).
    eexists. split; [done|]. unfold clk_ok, nslots; simpl. rewrite Ef, timeout_insert_len.
    rewrite timeout_insert_due by lia. split; [by apply timeout_insert_todo|].
    split_and!; auto; simpl; lia.
  - left. eexists. split; [done|]. unfold clk_ok. rewrite untimeout_queue, untimeout_slots.
    split_and!; auto; [by apply untimeout_todo|by apply untimeout_due|done].
Qed.

Definition is_timeout (c : clk_call) : bool :=
  match c with CallTimeout _ _ _ => true | CallUntimeout _ _ => false end.

Lemma clk_calls_spec cs : forall s, clk_ok s -> Forall call_ok cs ->
  (exists s', clk_calls cs s = Ok s' /\ clk_ok s' /\ nslots s' = nslots s /\
     (length (due (calltodo s')) <= length (due (calltodo s)))%nat /\
     (forallb is_timeout cs = true -> due (calltodo s') = due (calltodo s)))
  \/ clk_calls cs s = Panic "timeout table overflow".
Proof.
  induction cs as [|c cs IH]; intros s Hok Hcs; simpl; [left; eauto 10|].
  apply Forall_cons in Hcs as [Hc Hcs].
  destruct (clk_do_spec c s Hok Hc) as [(s1&->&Hok1&Hn1&Hd1&Ht1)| ->]; [|by right]. kstep.
  destruct (IH s1 Hok1 Hcs) as [(s2&->&Hok2&Hn2&Hd2&Ht2)| ->]; [left|by right].
  exists s2. split_and!; auto; try congruence; [lia|].
  intros [Hc1 Hcs1]%andb_true_iff. rewrite Ht2 by done.
  destruct c; [by eapply Ht1|done].
Qed.

Lemma soft_pop_None s : soft_pop s = None -> due (calltodo s) = [].
Proof.
  unfold soft_pop. destruct (calltodo s) as [|c q]; simpl; [done|]. unfold is_due.
  destruct (Z.ltb_spec 0 (c_time c)); [|done]. by replace (c_time c <=? 0) with false by lia.
Qed.

Lemma soft_pop_Some s c s' : soft_pop s = Some (c, s') -> clk_ok s ->
  clk_ok s' /\ nslots s' = nslots s /\ c_time c <= 0 /\ due (calltodo s) = c :: due (calltodo s').
Proof.
  unfold soft_pop, clk_ok, nslots. destruct (calltodo s) as [|p q]; [done|].
  destruct (Z.ltb_spec 0 (c_time p)); [done|]. intros [= <- <-]. simpl. unfold is_due.
  replace (c_time p <=? 0) with true by lia. intros [_ ?]. split_and!; auto; lia.
Qed.

Lemma softclock_spec calls : (forall c, Forall call_ok (calls c)) ->
  forall fuel s, clk_ok s -> (length (due (calltodo s)) < fuel)%nat ->
  (exists run s', softclock calls fuel s = Ok (run, s') /\ clk_ok s' /\ due (calltodo s') = [] /\
     nslots s' = nslots s /\ Forall (fun c => c_time c <= 0) run /\
     ((forall c, forallb is_timeout (calls c) = true) -> run = due (calltodo s)))
  \/ softclock calls fuel s = Panic "timeout table overflow".
Proof.
  intros Hcalls. induction fuel as [|fuel IH]; intros s Hok Hf; [lia|]. simpl.
  destruct (soft_pop s) as [[c s1]|] eqn:Ep.
  2: { left. exists [], s. pose proof (soft_pop_None _ Ep). split_and!; auto. }
  destruct (soft_pop_Some _ _ _ Ep Hok) as (Hok1&Hn1&Hc&Hd).
  rewrite Hd in Hf. simpl in Hf.
  destruct (clk_calls_spec (calls c) s1 Hok1 (Hcalls c)) as [(s2&->&Hok2&Hn2&Hd2&Ht2)| ->];
    [|by right]. kstep.
  destruct (IH s2 Hok2 ltac:(lia)) as [(run&s3&->&Hok3&Hd3&Hn3&Hr3&Ht3)| ->]; [left|by right].
  kstep. exists (c :: run), s3. simpl. split_and!; auto; try congruence.
  intros Hall. rewrite Ht3, Ht2, Hd by auto. done.
Qed.

(** ** Properties *)

(** timeout() arms the function for max(1, t) ticks from now, before the entries that are
    not due earlier, and changes the deadline of no other entry; it panics exactly when no
    slot is free. *)
Theorem timeout_deadline fn arg t s :
  todo_ok (calltodo s) -> t < 2 ^ 31 ->
  match callfree s with
  | [] => timeout fn arg t s = Panic "timeout table overflow"
  | _ :: free => exists q, timeout fn arg t s = Ok (Clk q free) /\ todo_ok q /\
      todo q = insert_deadline (fn, arg, Z.max 1 t) (todo (calltodo s))
  end.
Proof.
  intros Hok Ht. unfold timeout. destruct (callfree s) as [|x free]; [done|].
  assert ((if t <=? 0 then 1 else t) = Z.max 1 t) as -> by (destruct (Z.leb_spec t 0); lia).
  destruct (timeout_insert_todo fn arg (Z.max 1 t) (calltodo s) Hok) as [? ?]; [lia|]. eauto.
Qed.

(** untimeout() takes away the first entry of the function and argument, gives its slot
    back, and changes the deadline of no other entry. *)
Theorem untimeout_deadlines fn arg s :
  todo_ok (calltodo s) ->
  todo (calltodo (untimeout fn arg s)) = remove_call fn arg (todo (calltodo s)) /\
  todo_ok (calltodo (untimeout fn arg s)) /\ nslots (untimeout fn arg s) = nslots s.
Proof.
  intros Hok. rewrite untimeout_queue, untimeout_slots.
  destruct (untimeout_todo fn arg (calltodo s) Hok). auto.
Qed.

(** decrementing the first entries of the queue moves every deadline by exactly one tick,
    and needsoft is set exactly when an entry is then due. *)
Theorem hardclock_queue_ticks q :
  todo_ok q -> Forall (fun c => - 2 ^ 31 + 1 < c_time c) q ->
  todo (hard_todo q).1 = (fun x => (x.1, x.2 - 1)) <$> todo q /\ todo_ok (hard_todo q).1 /\
  ((hard_todo q).2 = true <-> exists c q', (hard_todo q).1 = c :: q' /\ c_time c <= 0).
Proof.
  intros Hok Hb. destruct (hard_todo_spec q Hok Hb) as (H1&H2&H3). split_and!; auto.
  rewrite H3. destruct (hard_todo q).1 as [|c q']; [split; [done|by intros (?&?&?&_)]|].
  unfold is_due. split; [intros ?; exists c, q'; split; [done|lia]|intros (?&?&[= <- <-]&?); lia].
Qed.

(** C36: softclock() ends: as many rounds as there are due entries (and one) suffice, whatever
    calls of timeout and untimeout the functions make.  It leaves no due entry and no slot
    is lost, it runs only due entries, and exactly the due entries in order when the
    functions only rearm timeouts; otherwise the table of timeouts was exhausted. *)
Theorem softclock_runs_due calls s :
  (forall c, Forall call_ok (calls c)) -> todo_ok (calltodo s) ->
  let r := softclock calls (S (length (due (calltodo s)))) s in
  (exists run s', r = Ok (run, s') /\ due (calltodo s') = [] /\ todo_ok (calltodo s') /\
     nslots s' = nslots s /\ Forall (fun c => c_time c <= 0) run /\
     ((forall c, forallb is_timeout (calls c) = true) -> run = due (calltodo s)))
  \/ r = Panic "timeout table overflow".
Proof.
  intros Hc Hok r. destruct (softclock_spec calls Hc (S (length (due (calltodo s)))) s Hok)
    as [(run&s'&E&?&?&?&?&?)|E]; [lia| |by right]. left. exists run, s'. auto 10.
Qed.

Definition clk3 : clk :=
  Clk [Callout (-1) 7 1; Callout 0 8 2; Callout 4 9 3; Callout 0 10 3; Callout 2 11 1]
      [Callout 0 0 0; Callout 0 0 0].
Definition rearm (c : callout) : list clk_call :=
  if c_func c =? 1 then [CallTimeout 1 (c_arg c) 5] else [].

Lemma clk3_ok : todo_ok (calltodo clk3).
Proof. simpl. lia. Qed.

Lemma timeout_deadline_witness :
  exists q, timeout 5 50 5 clk3 = Ok (Clk q [Callout 0 0 0])
    /\ todo q = [(1, 7, -1); (2, 8, 0); (3, 9, 4); (3, 10, 4); (5, 50, 5); (1, 11, 6)].
Proof.
  destruct (timeout_deadline 5 50 5 clk3 clk3_ok ltac:(lia)) as (q&E&_&Ht).
  exists q. split; [exact E|]. rewrite Ht. reflexivity.
Defined.

Lemma untimeout_deadlines_witness :
  todo (calltodo (untimeout 3 9 clk3)) = [(1, 7, -1); (2, 8, 0); (3, 10, 4); (1, 11, 6)].
Proof. exact (proj1 (untimeout_deadlines 3 9 clk3 clk3_ok)). Defined.

Lemma hardclock_queue_ticks_witness :
  todo (hard_todo (calltodo clk3)).1 =
    [(1, 7, -2); (2, 8, -1); (3, 9, 3); (3, 10, 3); (1, 11, 5)].
Proof.
  refine (proj1 (hardclock_queue_ticks (calltodo clk3) clk3_ok _)).
  repeat (apply Forall_cons; split; [simpl; lia|]). constructor.
Defined.

Lemma softclock_runs_due_witness :
  exists s', softclock rearm 3 clk3 = Ok ([Callout (-1) 7 1; Callout 0 8 2], s')
    /\ due (calltodo s') = [].
Proof.
  destruct (softclock_runs_due rearm clk3) as [(run&s'&E&Hd&_&_&_&Hr)|E].
  - intros c. unfold rearm. destruct (c_func c =? 1); repeat constructor.
  - exact clk3_ok.
  - exists s'. split; [|exact Hd]. change (softclock rearm 3 clk3 = Ok (run, s')) in E.
    rewrite E. rewrite Hr; [reflexivity|]. intros c. unfold rearm. by destruct (c_func c =? 1).
  - vm_compute in E. discriminate E.
Defined.
