(* ===== verification/Timer.v ===== *)
(** * Time of day and interval timers: [src/sun/sys/sys/kern_time.c], and hzto() and
    uniqtime() of [kern_clock.c]

    A timeval is a pair of 32-bit fields; [tv_us] reads it as a number of microseconds.
    The real-time timers of the processes are rearmed through the callout queue. *)

From S2P Require Import Prelude Ipc Callout.
From stdpp Require Import prelude list numbers strings.
From Stdlib Require Import ZArith Lia.

Local Open Scope Z_scope.
Local Open Scope kern_scope.

Record timeval := Timeval { tv_sec : Z; tv_usec : Z }.
Record itimerval := Itimerval { it_interval : timeval; it_value : timeval }.

Definition timerisset (t : timeval) : bool := negb (tv_sec t =? 0) || negb (tv_usec t =? 0).
Definition timercmp (cmp : Z -> Z -> bool) (t u : timeval) : bool :=
  cmp (tv_sec t) (tv_sec u) || ((tv_sec t =? tv_sec u) && cmp (tv_usec t) (tv_usec u)).
Definition timerclear : timeval := Timeval 0 0.

Definition timevalfix (t : timeval) : timeval :=
  let t := if tv_usec t <? 0 then Timeval (i32 (tv_sec t - 1)) (tv_usec t + 1000000) else t in
  if 1000000 <=? tv_usec t then Timeval (i32 (tv_sec t + 1)) (tv_usec t - 1000000) else t.
Definition timevaladd (t1 t2 : timeval) : timeval :=
  timevalfix (Timeval (i32 (tv_sec t1 + tv_sec t2)) (i32 (tv_usec t1 + tv_usec t2))).
Definition timevalsub (t1 t2 : timeval) : timeval :=
  timevalfix (Timeval (i32 (tv_sec t1 - tv_sec t2)) (i32 (tv_usec t1 - tv_usec t2))).

Section Timer.
(** The clock's rate, and the microseconds of a tick; the addresses of realitexpire. *)
Context (hz tick realitexpire_fn : Z).

(** itimerfix(): [None] is EINVAL. *)
Definition itimerfix (t : timeval) : option timeval :=
  if (tv_sec t <? 0) || (100000000 <? tv_sec t) || (tv_usec t <? 0) || (1000000 <=? tv_usec t)
  then None
  else if (tv_sec t =? 0) && negb (tv_usec t =? 0) && (tv_usec t <? tick)
  then Some (Timeval (tv_sec t) tick) else Some t.

(** The [expire:] part of itimerdecr: reload, less the [usec] already gone. *)
Definition itimer_expire (itp : itimerval) (usec : Z) : itimerval :=
  if timerisset (it_interval itp) then
    let v := it_interval itp in
    let u := tv_usec v - usec in
    let v := if u <? 0 then Timeval (tv_sec v - 1) (u + 1000000) else Timeval (tv_sec v) u in
    Itimerval (it_interval itp) v
  else Itimerval (it_interval itp) (Timeval (tv_sec (it_value itp)) 0).

(** itimerdecr(): the new timer, and whether it is still running (the value 1). *)
Definition itimerdecr (itp : itimerval) (usec : Z) : itimerval * bool :=
  let v := it_value itp in
  if (tv_usec v <? usec) && (tv_sec v =? 0) then (itimer_expire itp (usec - tv_usec v), false)
  else
    let v := if tv_usec v <? usec then Timeval (tv_sec v - 1) (tv_usec v + 1000000) else v in
    let itp := Itimerval (it_interval itp) (Timeval (tv_sec v) (tv_usec v - usec)) in
    if timerisset (it_value itp) then (itp, true) else (itimer_expire itp 0, false).

(** hzto(): ticks from now until [tv]; C division truncates. *)
Definition hzto (time tv : timeval) : Z :=
  let sec := i32 (tv_sec tv - tv_sec time) in
  if sec <=? 0x7fffffff `quot` 1000 - 1000 then
    i32 (i32 (sec * 1000) + i32 (tv_usec tv - tv_usec time) `quot` 1000) `quot` (tick `quot` 1000)
  else if sec <=? 0x7fffffff `quot` hz then i32 (sec * hz)
  else 0x7fffffff.

(** The state: the callouts, the clock, the timers of the processes (real time) and of the
    u area (virtual and profiling), and what is sent out. *)
Record timest := Timest {
  clock : clk; time : timeval; boottime : timeval; adjtimedelta : Z; doresettodr : bool;
  p_realtimer : list itimerval; u_timer : list itimerval;
  last : timeval; uniq : Z;
  sigalrm : list nat; resettodr : nat; terror : Z; tcopied : list itimerval; told : list timeval
}.
Implicit Type s : timest.

Definition set_clock s c := Timest c (time s) (boottime s) (adjtimedelta s) (doresettodr s)
  (p_realtimer s) (u_timer s) (last s) (uniq s) (sigalrm s) (resettodr s) (terror s) (tcopied s) (told s).
Definition set_time s t b := Timest (clock s) t b (adjtimedelta s) (doresettodr s)
  (p_realtimer s) (u_timer s) (last s) (uniq s) (sigalrm s) (S (resettodr s)) (terror s) (tcopied s) (told s).
Definition set_adj s a d := Timest (clock s) (time s) (boottime s) a d
  (p_realtimer s) (u_timer s) (last s) (uniq s) (sigalrm s) (resettodr s) (terror s) (tcopied s) (told s).
Definition set_real s r := Timest (clock s) (time s) (boottime s) (adjtimedelta s) (doresettodr s)
  r (u_timer s) (last s) (uniq s) (sigalrm s) (resettodr s) (terror s) (tcopied s) (told s).
Definition set_utimer s r := Timest (clock s) (time s) (boottime s) (adjtimedelta s) (doresettodr s)
  (p_realtimer s) r (last s) (uniq s) (sigalrm s) (resettodr s) (terror s) (tcopied s) (told s).
Definition set_uniq s l n := Timest (clock s) (time s) (boottime s) (adjtimedelta s) (doresettodr s)
  (p_realtimer s) (u_timer s) l n (sigalrm s) (resettodr s) (terror s) (tcopied s) (told s).
Definition add_alrm s p := Timest (clock s) (time s) (boottime s) (adjtimedelta s) (doresettodr s)
  (p_realtimer s) (u_timer s) (last s) (uniq s) (sigalrm s ++ [p]) (resettodr s) (terror s) (tcopied s) (told s).
Definition set_terror s e := Timest (clock s) (time s) (boottime s) (adjtimedelta s) (doresettodr s)
  (p_realtimer s) (u_timer s) (last s) (uniq s) (sigalrm s) (resettodr s) e (tcopied s) (told s).
Definition add_tcopied s i := Timest (clock s) (time s) (boottime s) (adjtimedelta s) (doresettodr s)
  (p_realtimer s) (u_timer s) (last s) (uniq s) (sigalrm s) (resettodr s) (terror s) (tcopied s ++ [i]) (told s).
Definition add_told s t := Timest (clock s) (time s) (boottime s) (adjtimedelta s) (doresettodr s)
  (p_realtimer s) (u_timer s) (last s) (uniq s) (sigalrm s) (resettodr s) (terror s) (tcopied s) (told s ++ [t]).

(** The address of a process's slot, as the argument of its callout. *)
Definition proc_addr (p : nat) : Z := Z.of_nat p.

(** realitexpire()'s loop: add the interval until the value lies after the time. *)
Fixpoint reload (fuel : nat) (now interval v : timeval) : res timeval :=
  match fuel with
  | O => Fault
  | S fuel =>
      let v := timevaladd v interval in
      if timercmp Z.gtb v now then Ok v else reload fuel now interval v
  end.

Definition realitexpire (fuel : nat) (p : nat) s : res timest :=
  let s := add_alrm s p in
  it ← rd (p_realtimer s) p;
  if negb (timerisset (it_interval it)) then
    l ← wr (p_realtimer s) p (Itimerval (it_interval it) timerclear);
    mret (set_real s l)
  else
    v ← reload fuel (time s) (it_interval it) (it_value it);
    l ← wr (p_realtimer s) p (Itimerval (it_interval it) v);
    c ← timeout realitexpire_fn (proc_addr p) (hzto (time s) v) (clock s);
    mret (set_clock (set_real s l) c).

Definition ITIMER_REAL := 0.

(** getitimer(): [out] is the error copyout would give. *)
Definition getitimer (p : nat) (which out : Z) s : res timest :=
  if 2 <? wrapu 32 which then mret (set_terror s EINVAL)
  else
    aitv ← (if which =? ITIMER_REAL then
              a ← rd (p_realtimer s) p;
              mret (if timerisset (it_value a) then
                      if timercmp Z.ltb (it_value a) (time s)
                      then Itimerval (it_interval a) timerclear
                      else Itimerval (it_interval a) (timevalsub (it_value a) (time s))
                    else a)
            else rd (u_timer s) (Z.to_nat which));
    mret (set_terror (if out =? 0 then add_tcopied s aitv else s) out).

(** setitimer(): [itv] is what copyin delivers, [oitv] the error of the copyout of the old
    timer when one is asked for. *)
Definition setitimer (p : nat) (which : Z) (itv : itimerval + Z) (oitv : option Z) s : res timest :=
  if 2 <? wrapu 32 which then mret (set_terror s EINVAL)
  else
    match itv with
    | inr e => mret (set_terror s e)
    | inl aitv =>
        let s := set_terror s 0 in
        s ← match oitv with Some out => getitimer p which out s | None => mret s end;
        match itimerfix (it_value aitv) with
        | None => mret (set_terror s EINVAL)
        | Some v =>
          match itimerfix (it_interval aitv) with
          | None => mret (set_terror s EINVAL)
          | Some i =>
            if which =? ITIMER_REAL then
              let s := set_clock s (untimeout realitexpire_fn (proc_addr p) (clock s)) in
              let v' := if timerisset v then timevaladd v (time s) else v in
              c ← (if timerisset v
                   then timeout realitexpire_fn (proc_addr p) (hzto (time s) v') (clock s)
                   else mret (clock s));
              l ← wr (p_realtimer s) p (Itimerval i v');
              mret (set_real (set_clock s c) l)
            else
              l ← wr (u_timer s) (Z.to_nat which) (Itimerval i v);
              mret (set_utimer s l)
          end
        end
    end.

(** setthetime() and adjtime(). *)
Definition setthetime (u : ucred) (tv : timeval) s : timest :=
  match suser u with
  | Some e => set_terror s e
  | None => set_time s tv (Timeval (i32 (tv_sec (boottime s) + i32 (tv_sec tv - tv_sec (time s))))
                             (tv_usec (boottime s)))
  end.

Definition adjtime (u : ucred) (delta : timeval + Z) (old : bool) s : timest :=
  match suser u with
  | Some e => set_terror s e
  | None =>
      match delta with
      | inr e => set_terror s e
      | inl atv =>
          let s := set_terror s 0 in
          let s := if old then add_told s (Timeval (adjtimedelta s `quot` 1000000)
                                             (Z.rem (adjtimedelta s) 1000000)) else s in
          set_adj s (i32 (i32 (tv_sec atv * 1000000) + tv_usec atv)) true
      end
  end.

(** uniqtime() *)
Definition uniqtime s : timeval * timest :=
  let s := if negb (tv_usec (last s) =? tv_usec (time s)) || negb (tv_sec (last s) =? tv_sec (time s))
           then set_uniq s (time s) 0 else s in
  (Timeval (tv_sec (last s)) (i32 (tv_usec (last s) + uniq s)), set_uniq s (last s) (i32 (uniq s + 1))).
End Timer.

(** ** Timevals as microseconds *)

Definition tv_us (t : timeval) : Z := tv_sec t * 1000000 + tv_usec t.
Definition tv_ok (t : timeval) : Prop := 0 <= tv_usec t < 1000000.

Lemma timerisset_us t : tv_ok t -> 0 <= tv_sec t -> timerisset t = negb (tv_us t =? 0).
Proof. unfold timerisset, tv_us, tv_ok. intros ? ?. lia. Qed.

Lemma timercmp_gt t u : tv_ok t -> tv_ok u -> timercmp Z.gtb t u = (tv_us u <? tv_us t).
Proof. unfold timercmp, tv_us, tv_ok. intros ? ?. lia. Qed.

Lemma timercmp_lt t u : tv_ok t -> tv_ok u -> timercmp Z.ltb t u = (tv_us t <? tv_us u).
Proof. unfold timercmp, tv_us, tv_ok. intros ? ?. lia. Qed.

Lemma timevaladd_spec t u : tv_ok t -> tv_ok u ->
  0 <= tv_sec t -> 0 <= tv_sec u -> tv_sec t + tv_sec u < 2 ^ 31 - 1 ->
  tv_ok (timevaladd t u) /\ tv_us (timevaladd t u) = tv_us t + tv_us u.
Proof.
  unfold tv_ok, tv_us, timevaladd, timevalfix. intros. simpl.
  rewrite (i32_small (tv_sec t + _)), (i32_small (tv_usec t + _)) by lia.
  replace (tv_usec t + tv_usec u <? 0) with false by lia. simpl.
  destruct (Z.leb_spec 1000000 (tv_usec t + tv_usec u)); simpl; rewrite ?i32_small by lia; lia.
Qed.

Lemma timevalsub_spec t u : tv_ok t -> tv_ok u ->
  0 <= tv_sec t < 2 ^ 31 -> 0 <= tv_sec u < 2 ^ 31 ->
  tv_ok (timevalsub t u) /\ tv_us (timevalsub t u) = tv_us t - tv_us u.
Proof.
  unfold tv_ok, tv_us, timevalsub, timevalfix. intros. simpl.
  rewrite (i32_small (tv_sec t - _)), (i32_small (tv_usec t - _)) by lia.
  destruct (Z.ltb_spec (tv_usec t - tv_usec u) 0); simpl.
  - replace (1000000 <=? tv_usec t - tv_usec u + 1000000) with false by lia. simpl.
    rewrite !i32_small by lia. lia.
  - replace (1000000 <=? tv_usec t - tv_usec u) with false by lia. simpl. lia.
Qed.

(** The reload loop: the first multiple of the interval after the time. *)
Lemma reload_spec now i fuel : forall v,
  tv_ok now -> tv_ok i -> tv_ok v -> 0 <= tv_sec v -> 0 <= tv_sec i -> 0 < tv_us i ->
  0 <= tv_us v -> tv_sec now + tv_sec i < 2 ^ 31 - 2 -> tv_sec v + tv_sec i < 2 ^ 31 - 1 ->
  (0 < fuel)%nat -> tv_us now - tv_us v < Z.of_nat fuel * tv_us i ->
  exists v' k, reload fuel now i v = Ok v' /\ tv_ok v' /\ 0 <= tv_sec v' /\ 1 <= k <= Z.of_nat fuel /\
    tv_us v' = tv_us v + k * tv_us i /\ tv_us now < tv_us v' /\
    (forall j, 1 <= j < k -> tv_us v + j * tv_us i <= tv_us now).
Proof.
  induction fuel as [|fuel IH]; intros v Hn Hi Hv Hv0 Hi0 Hip Hvp Hb Hb2 Hf0 Hf; [lia|].
  destruct (timevaladd_spec v i Hv Hi Hv0 Hi0 Hb2) as [Ho Hu]. simpl.
  assert (0 <= tv_sec (timevaladd v i)) as Hs by (unfold tv_us, tv_ok in *; lia).
  rewrite timercmp_gt by done. destruct (Z.ltb_spec (tv_us now) (tv_us (timevaladd v i))).
  - exists (timevaladd v i), 1. split_and!; auto; try lia.
  - destruct (IH (timevaladd v i)) as (v'&k&E&?&?&Hk&Hu'&Hlt&Hmin); auto; try lia.
    { unfold tv_us, tv_ok in *. lia. }
    exists v', (k + 1). split_and!; auto; try lia.
    intros j Hj. destruct (decide (j = 1)) as [->|]; [lia|].
    specialize (Hmin (j - 1)). lia.
Qed.

(** ** Properties *)

(** A timer as itimerfix lets it in. *)
Definition itimer_ok (itp : itimerval) : Prop :=
  tv_ok (it_value itp) /\ tv_ok (it_interval itp) /\
  0 <= tv_sec (it_value itp) /\ 0 <= tv_sec (it_interval itp).

(** itimerdecr() does not drift.  While the timer has more than [usec] to run it loses
    exactly [usec] and goes on; when it expires it is reloaded with the interval less the
    time that had already passed beyond the expiry, or cleared when there is no interval. *)
Theorem itimerdecr_no_drift itp usec :
  itimer_ok itp -> 0 < tv_us (it_value itp) -> 0 < usec < 1000000 ->
  (tv_us (it_interval itp) = 0 \/ usec <= tv_us (it_interval itp)) ->
  let r := itimerdecr itp usec in
  itimer_ok r.1 /\ it_interval r.1 = it_interval itp /\
  (r.2 = true <-> usec < tv_us (it_value itp)) /\
  tv_us (it_value r.1) =
    if usec <? tv_us (it_value itp) then tv_us (it_value itp) - usec
    else if tv_us (it_interval itp) =? 0 then 0
    else tv_us (it_interval itp) - (usec - tv_us (it_value itp)).
Proof.
  destruct itp as [[ks iu] [vs vu]]. unfold itimer_ok, tv_ok, tv_us; simpl.
  intros (Hv&Hi&Hv0&Hi0) Hp Hu Hiv.
  assert (forall x w, 0 <= w < usec -> let r := itimer_expire (Itimerval (Timeval ks iu) (Timeval 0 x)) w in
    it_interval r = Timeval ks iu /\ 0 <= tv_usec (it_value r) < 1000000 /\ 0 <= tv_sec (it_value r)
    /\ tv_sec (it_value r) * 1000000 + tv_usec (it_value r) =
       if ks * 1000000 + iu =? 0 then 0 else ks * 1000000 + iu - w) as Hexp.
  { intros x w Hw. unfold itimer_expire, timerisset; simpl.
    destruct (Z.eqb_spec (ks * 1000000 + iu) 0).
    - replace (negb (ks =? 0) || negb (iu =? 0)) with false by lia. simpl. split_and!; auto; lia.
    - replace (negb (ks =? 0) || negb (iu =? 0)) with true by lia. simpl.
      destruct (Z.ltb_spec (iu - w) 0); simpl; split_and!; auto; lia. }
  unfold itimerdecr; simpl. destruct (Z.ltb_spec vu usec) as [Hlt|Hge]; simpl.
  - destruct (Z.eqb_spec vs 0) as [->|Hvs]; simpl.
    + destruct (Hexp vu (usec - vu)) as (->&?&?&->); [lia|]. simpl.
      replace (usec <? 0 * 1000000 + vu) with false by lia.
      split_and!; try done; lia.
    + unfold timerisset; simpl. replace (negb (vs - 1 =? 0) || _) with true by lia. simpl.
      replace (usec <? vs * 1000000 + vu) with true by lia. split_and!; try done; lia.
  - destruct (timerisset (Timeval vs (vu - usec))) eqn:E; unfold timerisset in E; simpl in E |- *.
    + replace (usec <? vs * 1000000 + vu) with true by lia. split_and!; try done; lia.
    + assert (vs = 0) as -> by lia. assert (vu = usec) as -> by lia.
      rewrite Z.sub_diag. destruct (Hexp 0 0) as (->&?&?&->); [lia|]. simpl.
      replace (usec <? 0 * 1000000 + usec) with false by lia.
      split_and!; try done; try lia; destruct (_ =? 0); lia.
Qed.

(** a periodic real-time timer does not drift: realitexpire() sends one SIGALRM, moves the
    timer by the least whole number of intervals that puts it after the present, however
    late the callout ran, and arms the callout for the time hzto() computes; no more rounds
    are needed than intervals have passed. *)
Theorem realitexpire_no_drift hz tick fn fuel p s it :
  p_realtimer s !! p = Some it -> itimer_ok it -> tv_ok (time s) -> 0 < tv_us (it_interval it) ->
  tv_sec (time s) + tv_sec (it_interval it) < 2 ^ 31 - 2 ->
  tv_sec (it_value it) + tv_sec (it_interval it) < 2 ^ 31 - 1 ->
  (0 < fuel)%nat -> tv_us (time s) - tv_us (it_value it) < Z.of_nat fuel * tv_us (it_interval it) ->
  callfree (clock s) <> [] ->
  exists s' v k, realitexpire hz tick fn fuel p s = Ok s' /\
    p_realtimer s' !! p = Some (Itimerval (it_interval it) v) /\ tv_ok v /\
    tv_us v = tv_us (it_value it) + k * tv_us (it_interval it) /\ 1 <= k /\
    tv_us (time s) < tv_us v /\
    (forall j, 1 <= j < k -> tv_us (it_value it) + j * tv_us (it_interval it) <= tv_us (time s)) /\
    sigalrm s' = sigalrm s ++ [p] /\
    timeout fn (proc_addr p) (hzto hz tick (time s) v) (clock s) = Ok (clock s').
Proof.
  intros Hp (Hv&Hi&Hv0&Hi0) Ht Hip Hb Hb2 Hf0 Hf Hfree. unfold realitexpire. simpl.
  rewrite (proj2 (rd_Ok _ _ _) Hp). kstep.
  rewrite timerisset_us, (proj2 (Z.eqb_neq _ _)) by (done || lia). simpl.
  destruct (reload_spec (time s) (it_interval it) fuel (it_value it)) as (v&k&->&Hov&_&Hk&Hu&Hlt&Hmin);
    auto; [unfold tv_us, tv_ok in *; lia|]. kstep.
  unfold wr. rewrite decide_True by (by apply lookup_lt_Some in Hp). kstep.
  destruct (timeout fn (proc_addr p) (hzto hz tick (time s) v) (clock s)) as [c|m|] eqn:Et.
  - kstep. eexists _, v, k. split; [done|]. simpl. split_and!; auto; [|lia].
    apply list_lookup_insert_eq. by apply lookup_lt_Some in Hp.
  - exfalso. unfold timeout in Et. by destruct (callfree (clock s)).
  - exfalso. unfold timeout in Et. by destruct (callfree (clock s)).
Qed.

(** hzto() of a time less than 24 days ahead, on a clock whose tick is a whole number of
    milliseconds: the ticks it returns lie less than a millisecond after the time asked for
    and less than a tick and a millisecond before it, and no intermediate result overflows. *)
Theorem hzto_window hz tick now tv :
  tv_ok now -> tv_ok tv -> 0 <= tv_sec now < 2 ^ 31 -> tv_sec tv < 2 ^ 31 ->
  tv_us now <= tv_us tv -> tv_sec tv - tv_sec now <= 2146483 ->
  1000 <= tick < 2 ^ 31 -> tick mod 1000 = 0 ->
  let d := tv_us tv - tv_us now in
  d - 1000 - tick < hzto hz tick now tv * tick < d + 1000 /\ 0 <= hzto hz tick now tv.
Proof.
  unfold tv_us, tv_ok, hzto. intros Hn Ht Hn0 Ht0 Hle Hb Hk Hm.
  assert (0 <= tv_sec tv - tv_sec now) as Hs by lia.
  rewrite (i32_small (tv_sec tv - _)) by lia.
  change (0x7fffffff `quot` 1000 - 1000) with 2146483.
  replace (tv_sec tv - tv_sec now <=? 2146483) with true by lia.
  rewrite (i32_small (tv_usec tv - _)), (i32_small (_ * 1000)) by lia.
  set (du := tv_usec tv - tv_usec now) in *. set (ds := tv_sec tv - tv_sec now) in *.
  assert (- 1000 < du - (du `quot` 1000) * 1000 < 1000 /\ -1001 < du `quot` 1000 < 1001
    /\ (du < 0 -> du <= (du `quot` 1000) * 1000)) as (Hq&Hq2&Hq3).
  { pose proof (Z.quot_rem' du 1000). pose proof (Z.rem_bound_abs du 1000 ltac:(lia)).
    split_and!; try lia. intros ?. pose proof (Z.rem_nonpos du 1000 ltac:(lia) ltac:(lia)). lia. }
  rewrite i32_small by lia.
  assert (tick `quot` 1000 = tick / 1000) as -> by (apply Z.quot_div_nonneg; lia).
  assert (tick = 1000 * (tick / 1000)) as Etick by (pose proof (Z.div_mod tick 1000); lia).
  set (T := tick / 1000) in *. set (ms := ds * 1000 + du `quot` 1000).
  assert (0 <= ms) as Hms.
  { unfold ms. destruct (Z.le_gt_cases 0 du) as [Hd|Hd].
    - pose proof (Z.quot_pos du 1000 Hd ltac:(lia)). lia.
    - assert (1 <= ds) by (unfold du, ds in *; lia). lia. }
  rewrite Z.quot_div_nonneg by lia.
  pose proof (Z.div_mod ms T ltac:(lia)). pose proof (Z.mod_pos_bound ms T ltac:(lia)).
  pose proof (Z.div_pos ms T ltac:(lia) ltac:(lia)).
  assert (ms / T * tick = 1000 * (ms - ms mod T)) as -> by nia.
  unfold ms, ds, du in *. lia.
Qed.

(** A code path hzto() does not guard: the milliseconds since a time long past overflow, and
    the result is a positive number of ticks. *)
Theorem hzto_long_past_is_future :
  hzto 50 20000 (Timeval 503000000 0) (Timeval 500000000 0) = 64748364.
Proof. vm_compute. reflexivity. Qed.

(** uniqtime() hands out a tv_usec that is not below 1000000. *)
Theorem uniqtime_not_normal (s : timest) :
  time s = Timeval 5 999999 -> last s = time s -> uniq s = 1 ->
  (uniqtime s).1 = Timeval 5 1000000.
Proof. intros Ht Hl Hu. unfold uniqtime. rewrite Hl, !Z.eqb_refl. simpl. by rewrite Hl, Ht, Hu. Qed.

(** getitimer() at the time of setitimer() reads back the real-time timer that was set,
    raised to a tick where itimerfix raises it: keeping the value as an absolute time loses
    nothing. *)
Theorem setitimer_getitimer hz tick fn p itv v i s s1 s2 :
  itimerfix tick (it_value itv) = Some v -> itimerfix tick (it_interval itv) = Some i ->
  0 < tick < 1000000 -> tv_ok (time s) -> 0 <= tv_sec (time s) < 2 ^ 31 - 100000002 ->
  setitimer hz tick fn p ITIMER_REAL (inl itv) None s = Ok s1 ->
  getitimer p ITIMER_REAL 0 s1 = Ok s2 ->
  terror s2 = 0 /\ tcopied s2 = tcopied s ++ [Itimerval i v].
Proof.
  intros Hv Hi Hk Ht Ht0 H1 H2. unfold setitimer in H1. simpl in H1. rewrite Hv, Hi in H1.
  assert (tv_ok v /\ 0 <= tv_sec v <= 100000000) as [Hov Hv0].
  { unfold itimerfix, tv_ok in *. repeat case_match; simplify_eq; simpl in *; lia. }
  destruct (if timerisset v then timeout _ _ _ _ else _) as [c| |] in H1; [|done|done].
  simpl in H1. destruct (wr (p_realtimer s) p _) as [l| |] eqn:Ew in H1; [|done|done].
  simpl in H1. injection H1 as <-.
  unfold wr in Ew. destruct (decide _) as [Hp|]; [|done]. injection Ew as <-.
  unfold getitimer in H2. simpl in H2.
  rewrite (proj2 (rd_Ok _ _ _) (list_lookup_insert_eq _ _ _ Hp)) in H2. simpl in H2.
  injection H2 as <-. simpl. split; [done|]. do 2 f_equal.
  rewrite (timerisset_us v) by (done || lia).
  destruct (Z.eqb_spec (tv_us v) 0) as [E|E]; simpl.
  - rewrite timerisset_us, (proj2 (Z.eqb_eq _ _) E) by (done || lia). done.
  - destruct (timevaladd_spec v (time s)) as [Hoa Hua]; auto; [lia..|].
    assert (0 <= tv_sec (timevaladd v (time s)) < 2 ^ 31) as Hsa by (unfold tv_us, tv_ok in *; lia).
    rewrite timerisset_us, timercmp_lt by (done || lia).
    assert (0 < tv_us v) by (unfold tv_us, tv_ok in *; lia).
    assert (0 <= tv_us (time s)) by (unfold tv_us, tv_ok in *; lia).
    replace (tv_us (timevaladd v (time s)) =? 0) with false by lia.
    replace (tv_us (timevaladd v (time s)) <? tv_us (time s)) with false by lia. simpl.
    destruct (timevalsub_spec (timevaladd v (time s)) (time s)) as [Hos Hus]; auto; [lia|].
    f_equal. rewrite Hua in Hus. destruct (timevalsub _ _), v.
    unfold tv_us, tv_ok in *; simpl in *. f_equal; lia.
Qed.

(** ** Witnesses: a clock of 50 ticks a second *)

Definition tm0 : timest :=
  Timest (Clk [] [Callout 0 0 0; Callout 0 0 0]) (Timeval 1000 500000) (Timeval 0 0) 0 false
    [Itimerval (Timeval 0 300000) (Timeval 999 0)]
    [Itimerval timerclear timerclear; Itimerval timerclear timerclear]
    timerclear 0 [] 0 0 [] [].

Lemma itimerdecr_no_drift_witness :
  let itp := Itimerval (Timeval 0 100000) (Timeval 0 5000) in
  tv_us (it_value (itimerdecr itp 20000).1) = 85000.
Proof.
  intros itp. refine (proj2 (proj2 (proj2 (itimerdecr_no_drift itp 20000 _ _ _ _)))).
  - unfold itimer_ok, tv_ok; simpl; lia.
  - unfold tv_us; simpl; lia.
  - lia.
  - right. unfold tv_us; simpl; lia.
Defined.

Lemma realitexpire_no_drift_witness :
  exists s' v, realitexpire 50 20000 1 10 0 tm0 = Ok s' /\ tv_us v mod 300000 = 0 /\
    p_realtimer s' !! 0%nat = Some (Itimerval (Timeval 0 300000) v).
Proof.
  assert (itimer_ok (Itimerval (Timeval 0 300000) (Timeval 999 0))) as H1
    by (unfold itimer_ok, tv_ok; simpl; lia).
  assert (tv_ok (time tm0)) as H2 by (unfold tv_ok; simpl; lia).
  destruct (realitexpire_no_drift 50 20000 1 10 0 tm0 _ eq_refl H1 H2 ltac:(unfold tv_us; simpl; lia)
    ltac:(simpl; lia) ltac:(simpl; lia) ltac:(lia) ltac:(unfold tv_us; simpl; lia) ltac:(done))
    as (s'&v&k&E&Hp&_&Hu&_).
  exists s', v. split; [exact E|]. split; [|exact Hp]. rewrite Hu. unfold tv_us. simpl.
  change (999 * 1000000 + 0) with (3330 * 300000). rewrite <- Z.mul_add_distr_r.
  by apply Z.mod_mul.
Defined.

Lemma hzto_window_witness :
  let h := hzto 50 20000 (Timeval 1000 999000) (Timeval 1002 1000) in
  h = 50 /\ 1002000 - 1000 - 20000 < h * 20000.
Proof.
  intros h. split; [vm_compute; reflexivity|].
  assert (tv_ok (Timeval 1000 999000) /\ tv_ok (Timeval 1002 1000)) as [H1 H2]
    by (unfold tv_ok; simpl; lia).
  assert (tv_us (Timeval 1000 999000) <= tv_us (Timeval 1002 1000)) as H3 by (unfold tv_us; simpl; lia).
  destruct (hzto_window 50 20000 _ _ H1 H2 ltac:(simpl; lia) ltac:(simpl; lia) H3 ltac:(simpl; lia)
    ltac:(lia) eq_refl) as [[H _] _].
  unfold tv_us in H. cbn [tv_sec tv_usec] in H. fold h in H. lia.
Defined.

Lemma setitimer_getitimer_witness :
  exists s1 s2, setitimer 50 20000 1 0 ITIMER_REAL
      (inl (Itimerval (Timeval 0 5) (Timeval 3 700000))) None tm0 = Ok s1 /\
    getitimer 0 ITIMER_REAL 0 s1 = Ok s2 /\
    tcopied s2 = [Itimerval (Timeval 0 20000) (Timeval 3 700000)].
Proof.
  eexists _, _. split; [reflexivity|]. split; [reflexivity|].
  refine (proj2 (setitimer_getitimer 50 20000 1 0
    (Itimerval (Timeval 0 5) (Timeval 3 700000)) (Timeval 3 700000) (Timeval 0 20000)
    tm0 _ _ eq_refl eq_refl _ _ _ eq_refl eq_refl)); unfold tv_ok; simpl; lia.
Defined.
