(* ===== verification/Synch.v ===== *)
(** * Sleep, wakeup and priorities: [src/sun/sys/sys/kern_synch.c]

    Processes are indices of the process table.  A queue linked through p_link/p_rlink is
    the list of the processes on it: 64 sleep queues, and the 32 run queues that setrq and
    remrq ([sun3/vax.s]) maintain, indexed by p_pri / 4, with the mask [whichqs]. *)

From S2P Require Import Prelude.
From stdpp Require Import prelude list numbers strings.
From Stdlib Require Import ZArith Lia.

Local Open Scope Z_scope.

Definition SSLEEP := 1.
Definition SWAIT := 2.
Definition SRUN := 3.
Definition SIDL := 4.
Definition SZOMB := 5.
Definition SSTOP := 6.
Definition SLOAD := 0x1.
Definition SFAVORD := 0x2000000.
Definition PZERO := 25.
Definition PUSER := 50.
Definition NZERO := 20.
Definition PMASK := 0x7f.
Definition PCATCH := 0x100.
Definition SQSIZE := 64.
Definition NQS := 32%nat.
Definition FSHIFT := 8.
Definition FSCALE := 256.

Record proc := Proc {
  p_stat : Z; p_pri : Z; p_usrpri : Z; p_cpu : Z; p_nice : Z; p_flag : Z; p_wchan : Z;
  p_linked : bool; p_slptime : Z; p_time : Z; p_cpticks : Z; p_pctcpu : Z;
  p_rssize : Z; p_maxrss : Z
}.

Record sched := Sched {
  procs : list proc; slpque : list (list nat); qs : list (list nat); whichqs : Z;
  runrun : Z; asts : nat; curpri : Z; runin : Z; runout : Z; wantin : Z; noproc : bool;
  u_procp : nat; u_nvcsw : Z; panicstr : bool; freemem : Z; desfree : Z; avenrun0 : Z
}.

Section Setters.
Implicit Type (st : sched) (p : proc).

Definition set_stat p x := Proc x (p_pri p) (p_usrpri p) (p_cpu p) (p_nice p) (p_flag p) (p_wchan p)
  (p_linked p) (p_slptime p) (p_time p) (p_cpticks p) (p_pctcpu p) (p_rssize p) (p_maxrss p).
Definition set_pri p x := Proc (p_stat p) x (p_usrpri p) (p_cpu p) (p_nice p) (p_flag p) (p_wchan p)
  (p_linked p) (p_slptime p) (p_time p) (p_cpticks p) (p_pctcpu p) (p_rssize p) (p_maxrss p).
Definition set_usrpri p x := Proc (p_stat p) (p_pri p) x (p_cpu p) (p_nice p) (p_flag p) (p_wchan p)
  (p_linked p) (p_slptime p) (p_time p) (p_cpticks p) (p_pctcpu p) (p_rssize p) (p_maxrss p).
Definition set_wchan p x l := Proc (p_stat p) (p_pri p) (p_usrpri p) (p_cpu p) (p_nice p) (p_flag p) x
  l (p_slptime p) (p_time p) (p_cpticks p) (p_pctcpu p) (p_rssize p) (p_maxrss p).
Definition set_linked p l := Proc (p_stat p) (p_pri p) (p_usrpri p) (p_cpu p) (p_nice p) (p_flag p)
  (p_wchan p) l (p_slptime p) (p_time p) (p_cpticks p) (p_pctcpu p) (p_rssize p) (p_maxrss p).
Definition set_slptime p x := Proc (p_stat p) (p_pri p) (p_usrpri p) (p_cpu p) (p_nice p) (p_flag p)
  (p_wchan p) (p_linked p) x (p_time p) (p_cpticks p) (p_pctcpu p) (p_rssize p) (p_maxrss p).
Definition set_account p t s c x k := Proc (p_stat p) (p_pri p) (p_usrpri p) c (p_nice p) (p_flag p)
  (p_wchan p) (p_linked p) s t k x (p_rssize p) (p_maxrss p).

Definition set_procs st x := Sched x (slpque st) (qs st) (whichqs st) (runrun st) (asts st) (curpri st)
  (runin st) (runout st) (wantin st) (noproc st) (u_procp st) (u_nvcsw st) (panicstr st)
  (freemem st) (desfree st) (avenrun0 st).
Definition set_slpque st x := Sched (procs st) x (qs st) (whichqs st) (runrun st) (asts st) (curpri st)
  (runin st) (runout st) (wantin st) (noproc st) (u_procp st) (u_nvcsw st) (panicstr st)
  (freemem st) (desfree st) (avenrun0 st).
Definition set_qs st x w := Sched (procs st) (slpque st) x w (runrun st) (asts st) (curpri st)
  (runin st) (runout st) (wantin st) (noproc st) (u_procp st) (u_nvcsw st) (panicstr st)
  (freemem st) (desfree st) (avenrun0 st).
Definition resched st := Sched (procs st) (slpque st) (qs st) (whichqs st) (runrun st + 1) (S (asts st))
  (curpri st) (runin st) (runout st) (wantin st) (noproc st) (u_procp st) (u_nvcsw st) (panicstr st)
  (freemem st) (desfree st) (avenrun0 st).
Definition set_swap st i o w := Sched (procs st) (slpque st) (qs st) (whichqs st) (runrun st) (asts st)
  (curpri st) i o w (noproc st) (u_procp st) (u_nvcsw st) (panicstr st)
  (freemem st) (desfree st) (avenrun0 st).
Definition add_nvcsw st := Sched (procs st) (slpque st) (qs st) (whichqs st) (runrun st) (asts st)
  (curpri st) (runin st) (runout st) (wantin st) (noproc st) (u_procp st) (u_nvcsw st + 1) (panicstr st)
  (freemem st) (desfree st) (avenrun0 st).
End Setters.

Definition getp (p : nat) (st : sched) : res proc := rd (procs st) p.
Definition putp (p : nat) (x : proc) (st : sched) : res sched :=
  l ← wr (procs st) p x; mret (set_procs st l).

Definition loaded (x : proc) : bool := negb (Z.land (p_flag x) SLOAD =? 0).

(** [HASH(x)] *)
Definition HASH (chan : Z) : nat := Z.to_nat (Z.land (Z.shiftr chan 5) (SQSIZE - 1)).

(** setrq and remrq; bit [i] of [whichqs] counts from the most significant one. *)
Definition rq_index (x : proc) : nat := Z.to_nat (Z.shiftr (p_pri x) 2).
Definition setrq (p : nat) (st : sched) : res sched :=
  x ← getp p st;
  if p_linked x then Panic "setrq"
  else
    q ← rd (qs st) (rq_index x);
    l ← wr (qs st) (rq_index x) (q ++ [p]);
    st ← putp p (set_linked x true) st;
    mret (set_qs st l (Z.setbit (whichqs st) (31 - Z.of_nat (rq_index x)))).

Definition remrq (p : nat) (st : sched) : res sched :=
  x ← getp p st;
  let i := rq_index x in
  if negb (Z.testbit (whichqs st) (31 - Z.of_nat i)) then Panic "remrq"
  else
    q ← rd (qs st) i;
    if bool_decide (p ∈ q) then
      let q' := unlink p q in
      l ← wr (qs st) i q';
      st ← putp p (set_linked x false) st;
      mret (set_qs st l (match q' with
                         | [] => Z.clearbit (whichqs st) (31 - Z.of_nat i)
                         | _ => whichqs st
                         end))
    else Fault.

(** unsleep() *)
Definition unsleep (p : nat) (st : sched) : res sched :=
  x ← getp p st;
  if p_wchan x =? 0 then mret st
  else
    q ← rd (slpque st) (HASH (p_wchan x));
    l ← wr (slpque st) (HASH (p_wchan x)) (unlink p q);
    putp p (set_wchan x 0 false) (set_slpque st l).

Section Synch.
(** The addresses of [runout] and [lbolt], and of [runin], as channels. *)
Context (runout_ lbolt_ runin_ : Z).

(** The tail of setrun() and of its inline expansions; [wake] is wakeup. *)
Definition run_tail (wake : Z -> sched -> res sched) (p : nat) (st : sched) : res sched :=
  x ← getp p st;
  st ← putp p (set_stat x SRUN) st;
  st ← (if loaded x then setrq p st else mret st);
  let st := if p_pri x <? curpri st then resched st else st in
  if loaded x then mret st
  else
    st ← (if runout st =? 0 then mret st
          else wake runout_ (set_swap st (runin st) 0 (wantin st)));
    mret (set_swap st (runin st) (runout st) (wantin st + 1)).

(** wakeup(): [rest] is the queue from the current process on.  After waking a process the
    code starts over; past a stopped one it goes on, finding its p_wchan 0. *)
Fixpoint wakeup_walk (fuel : nat) (chan : Z) (rest : list nat) (st : sched) : res sched :=
  match fuel with
  | O => Fault
  | S fuel =>
      match rest with
      | [] => mret st
      | p :: rest' =>
          x ← getp p st;
          if negb (p_stat x =? SSLEEP) && negb (p_stat x =? SSTOP) then Panic "wakeup"
          else if p_wchan x =? chan then
            q ← rd (slpque st) (HASH chan);
            l ← wr (slpque st) (HASH chan) (unlink p q);
            st ← putp p (set_slptime (set_wchan x 0 false) 0) (set_slpque st l);
            if p_stat x =? SSLEEP then
              st ← run_tail (fun c s => q ← rd (slpque s) (HASH c); wakeup_walk fuel c q s) p st;
              q ← rd (slpque st) (HASH chan);
              wakeup_walk fuel chan q st
            else wakeup_walk fuel chan rest' st
          else wakeup_walk fuel chan rest' st
      end
  end.

Definition wakeup (fuel : nat) (chan : Z) (st : sched) : res sched :=
  q ← rd (slpque st) (HASH chan); wakeup_walk fuel chan q st.

(** wakeup_one(): stops after the first process it wakes. *)
Fixpoint wakeup_one_walk (fuel : nat) (chan : Z) (rest : list nat) (st : sched) : res sched :=
  match rest with
  | [] => mret st
  | p :: rest' =>
      x ← getp p st;
      if negb (p_stat x =? SSLEEP) && negb (p_stat x =? SSTOP) then Panic "wakeup_one"
      else if p_wchan x =? chan then
        q ← rd (slpque st) (HASH chan);
        l ← wr (slpque st) (HASH chan) (unlink p q);
        st ← putp p (set_slptime (set_wchan x 0 false) 0) (set_slpque st l);
        if p_stat x =? SSLEEP then run_tail (wakeup fuel) p st
        else wakeup_one_walk fuel chan rest' st
      else wakeup_one_walk fuel chan rest' st
  end.
Definition wakeup_one (fuel : nat) (chan : Z) (st : sched) : res sched :=
  q ← rd (slpque st) (HASH chan); wakeup_one_walk fuel chan q st.

(** setrun() *)
Definition setrun (fuel : nat) (p : nat) (st : sched) : res sched :=
  x ← getp p st;
  if (p_stat x =? SSTOP) || (p_stat x =? SSLEEP) then
    st ← unsleep p st; run_tail (wakeup fuel) p st
  else if p_stat x =? SIDL then run_tail (wakeup fuel) p st
  else Panic "setrun".

(** How sleep() ends: it returns, it takes the signal exit (1 when PCATCH, else longjmp), or
    the process gives up the processor, to go on in [sleep_woken] when it runs again. *)
Inductive sleep_end :=
| SlRet (st : sched)
| SlSig (catch : bool) (st : sched)
| SlSwtch (st : sched).

(** ISSIG() may stop the process and let others run: it is a function of the state.  The
    bound on [chan] includes the sun's intsvc() test. *)
Definition sleep (issig : sched -> bool * sched) (intsvc : bool) (chan pri : Z) (st : sched)
    : res sleep_end :=
  if panicstr st then mret (SlRet st)
  else
    let rp := u_procp st in
    x ← getp rp st;
    if intsvc || (chan =? 0) || negb (p_stat x =? SRUN) then Panic "sleep"
    else
      let x := set_pri (set_slptime (set_wchan x chan true) 0) (Z.land pri PMASK) in
      q ← rd (slpque st) (HASH chan);
      l ← wr (slpque st) (HASH chan) (q ++ [rp]);
      st ← putp rp x (set_slpque st l);
      if PZERO <? p_pri x then
        let '(sig, st) := issig st in
        if (sig : bool) then
          st ← unsleep rp st;
          x ← getp rp st;
          st ← putp rp (set_stat x SRUN) st;
          mret (SlSig (negb (Z.land pri PCATCH =? 0)) st)
        else
          x ← getp rp st;
          if p_wchan x =? 0 then mret (SlRet st)
          else
            st ← putp rp (set_stat x SSLEEP) st;
            mret (SlSwtch (add_nvcsw st))
      else
        st ← putp rp (set_stat x SSLEEP) st;
        mret (SlSwtch (add_nvcsw st)).

(** The rest of sleep() after swtch(). *)
Definition sleep_woken (issig : sched -> bool * sched) (pri : Z) (st : sched) : sleep_end :=
  if PZERO <? Z.land pri PMASK then
    let '(sig, st) := issig st in
    if (sig : bool) then SlSig (negb (Z.land pri PCATCH =? 0)) st else SlRet st
  else SlRet st.

(** setpri(): the process with its p_usrpri, and whether it beats the current one. *)
Definition setpri_of (st : sched) (x : proc) : Z :=
  let p := Z.land (p_cpu x) 255 `quot` 4 in
  let p := p + PUSER + 2 * (p_nice x - NZERO) in
  let p := if Z.land (p_flag x) SFAVORD =? 0 then p else p + 2 * -10 in
  let p := if (p_maxrss x <? p_rssize x) && (freemem st <? desfree st) then p + 2 * 4 else p in
  let p := if 127 <? p then 127 else p in
  if p <? 1 then 1 else p.
Definition setpri (p : nat) (st : sched) : res sched :=
  x ← getp p st;
  let v := setpri_of st x in
  let st := if v <? curpri st then resched st else st in
  putp p (set_usrpri x v) st.

(** schedcpu(): the digital decay of p_cpu. *)
Definition decay_cpu (avenrun : Z) (x : proc) : Z :=
  let b := avenrun * 2 in
  let a := (Z.land (p_cpu x) 255 * b) `quot` (b + FSCALE) + p_nice x - NZERO in
  let a := if a <? 0 then 0 else a in
  if 255 <? a then 255 else a.

Definition sched_account (hz ccpu avenrun : Z) (x : proc) : proc :=
  let t := if p_time x =? 127 then p_time x else p_time x + 1 in
  let s := if ((p_stat x =? SSLEEP) || (p_stat x =? SSTOP)) && negb (p_slptime x =? 127)
           then p_slptime x + 1 else p_slptime x in
  let pct := if loaded x
             then Z.shiftr (wraps 32 (ccpu * p_pctcpu x + (FSCALE - ccpu) * ((p_cpticks x * FSCALE) `quot` hz))) FSHIFT
             else p_pctcpu x in
  set_account x t s (decay_cpu avenrun x) pct 0.

(** One process of schedcpu's loop. *)
Definition schedcpu1 (hz ccpu : Z) (p : nat) (st : sched) : res sched :=
  x ← getp p st;
  if (p_stat x =? 0) || (p_stat x =? SZOMB) then mret st
  else
    st ← putp p (sched_account hz ccpu (avenrun0 st) x) st;
    st ← setpri p st;
    x ← getp p st;
    if p_pri x <? PUSER then mret st
    else if (negb (p =? u_procp st)%nat || noproc st) && (p_stat x =? SRUN) && loaded x
            && negb (p_pri x =? p_usrpri x) then
      st ← remrq p st;
      x ← getp p st;
      st ← putp p (set_pri x (p_usrpri x)) st;
      setrq p st
    else putp p (set_pri x (p_usrpri x)) st.

Fixpoint schedcpu_loop (hz ccpu : Z) (n p : nat) (st : sched) : res sched :=
  match n with
  | O => mret st
  | S n => st ← schedcpu1 hz ccpu p st; schedcpu_loop hz ccpu n (S p) st
  end.

(** schedcpu(), less vmmeter() and the rearming of its own timeout; [bclean] tells whether
    bclnlist is not empty, [pageout] is the channel of process 2. *)
Definition schedcpu (fuel : nat) (hz ccpu : Z) (bclean : bool) (pageout : Z) (st : sched)
    : res sched :=
  st ← wakeup fuel lbolt_ st;
  st ← schedcpu_loop hz ccpu (length (procs st)) 0 st;
  st ← (if runin st =? 0 then mret st
        else wakeup fuel runin_ (set_swap st 0 (runout st) (wantin st)));
  if bclean then wakeup fuel pageout st else mret st.

(** rqinit() *)
Definition rqinit (st : sched) : sched :=
  set_slpque (set_qs st (replicate NQS []) (whichqs st)) (replicate (Z.to_nat SQSIZE) []).
End Synch.
