(* ===== verification/SynchThms.v ===== *)
(** * Sleep, wakeup and priorities: the invariant of the queues, and the properties

    The invariant ties each process's p_stat, p_wchan and p_rlink to the queue it is on; it
    is kept by sleep, wakeup, wakeup_one, unsleep, setrun and setrq. *)

From S2P Require Import Prelude Synch.
From stdpp Require Import prelude list numbers strings.
From Stdlib Require Import ZArith Lia.

Local Open Scope Z_scope.

(** ** The invariant *)

Definition on_slp (st : sched) (h p : nat) : Prop := exists q, slpque st !! h = Some q /\ p ∈ q.
Definition on_run (st : sched) (i p : nat) : Prop := exists q, qs st !! i = Some q /\ p ∈ q.

(** One process and the queues. *)
Record proc_wf (st : sched) (p : nat) (x : proc) : Prop := ProcWf {
  pw_linked : p_linked x = true <-> p_wchan x <> 0 \/ exists i, on_run st i p;
  pw_slp : forall h, on_slp st h p <-> p_wchan x <> 0 /\ h = HASH (p_wchan x);
  pw_stat : p_wchan x <> 0 -> p_stat x = SSLEEP \/ p_stat x = SSTOP;
  pw_run : forall i, on_run st i p ->
             p_stat x = SRUN /\ loaded x = true /\ i = rq_index x /\ p_wchan x = 0;
  pw_ready : p_stat x = SRUN -> loaded x = true -> p <> u_procp st -> on_run st (rq_index x) p;
  pw_pri : 0 <= p_pri x <= 127
}.

Record sched_wf (st : sched) : Prop := SchedWf {
  sc_nslp : length (slpque st) = Z.to_nat SQSIZE;
  sc_nrun : length (qs st) = NQS;
  sc_slp : Forall (fun q => NoDup q) (slpque st);
  sc_run : Forall (fun q => NoDup q) (qs st);
  sc_procs : forall p x, procs st !! p = Some x -> proc_wf st p x;
  sc_known : forall p, (exists h, on_slp st h p) \/ (exists i, on_run st i p) -> (p < length (procs st))%nat;
  sc_bits : forall i q, qs st !! i = Some q ->
              Z.testbit (whichqs st) (31 - Z.of_nat i) = negb (bool_decide (q = []))
}.

Lemma HASH_lt c : (HASH c < Z.to_nat SQSIZE)%nat.
Proof.
  unfold HASH, SQSIZE. change (64 - 1) with (Z.ones 6). rewrite Z.land_ones by lia.
  pose proof (Z.mod_pos_bound (Z.shiftr c 5) (2 ^ 6) ltac:(lia)). change (2 ^ 6) with 64 in *. lia.
Qed.

Lemma rq_index_lt x : 0 <= p_pri x <= 127 -> (rq_index x < NQS)%nat.
Proof.
  intros H. unfold rq_index, NQS. rewrite Z.shiftr_div_pow2 by lia. change (2 ^ 2) with 4.
  pose proof (Z.div_lt_upper_bound (p_pri x) 4 32 ltac:(lia) ltac:(lia)). lia.
Qed.

(** The queue of a channel can always be read. *)
Lemma slpque_lookup st c : sched_wf st -> exists q, slpque st !! HASH c = Some q /\ NoDup q.
Proof.
  intros Hw. assert (HASH c < length (slpque st))%nat as Hl by (rewrite (sc_nslp _ Hw); apply HASH_lt).
  apply lookup_lt_is_Some in Hl as [q Hq]. exists q. split; [done|].
  exact (Forall_lookup_1 _ _ _ _ (sc_slp _ Hw) Hq).
Qed.

Lemma getp_Ok st p x : procs st !! p = Some x -> getp p st = Ok x.
Proof. intros H. unfold getp. by apply rd_Ok. Qed.

Lemma putp_Ok st p x : (p < length (procs st))%nat -> putp p x st = Ok (set_procs st (<[p := x]> (procs st))).
Proof. intros H. unfold putp, wr. by rewrite decide_True. Qed.

(** ** Leaving a sleep queue *)

(** [x] taken off its sleep queue and stored back as [x']. *)
Definition off_sleep (st : sched) (p : nat) (x x' : proc) : sched :=
  set_procs (set_slpque st (alter (unlink p) (HASH (p_wchan x)) (slpque st))) (<[p := x']> (procs st)).

Lemma on_slp_off st p x x' h v : sched_wf st ->
  on_slp (off_sleep st p x x') h v <-> on_slp st h v /\ (h = HASH (p_wchan x) -> v <> p).
Proof.
  intros Hw. unfold on_slp, off_sleep; simpl. destruct (decide (h = HASH (p_wchan x))) as [->|Hne].
  - rewrite list_lookup_alter_eq. destruct (slpque_lookup st (p_wchan x) Hw) as (q&Hq&Hnd).
    rewrite Hq. simpl. destruct (unlink_spec p q Hnd) as [_ Hu]. split.
    + intros (?&[= <-]&Hv). apply Hu in Hv as [? ?]. eauto.
    + intros [(?&[= <-]&Hv) Hne]. eexists. split; [done|]. apply Hu. auto.
  - rewrite list_lookup_alter_ne by done. naive_solver.
Qed.

Lemma off_sleep_wf st p x x' :
  sched_wf st -> procs st !! p = Some x -> p_wchan x <> 0 ->
  p_wchan x' = 0 -> p_linked x' = false -> p_stat x' <> SRUN \/ loaded x' = false ->
  0 <= p_pri x' <= 127 -> sched_wf (off_sleep st p x x').
Proof.
  intros Hw Hp Hc Hc' Hl' Hs' Hpr. pose proof (sc_procs _ Hw _ _ Hp) as Hx.
  pose proof (lookup_lt_Some _ _ _ Hp) as Hlt.
  assert (forall i, ~ on_run st i p) as Hnr.
  { intros i Hi. destruct (pw_run _ _ _ Hx i Hi) as (_&_&_&?). done. }
  split; simpl.
  - rewrite length_alter. apply Hw.
  - apply Hw.
  - rewrite Forall_lookup. intros h q Hq. destruct (decide (h = HASH (p_wchan x))) as [->|Hne].
    + rewrite list_lookup_alter_eq in Hq. destruct (slpque_lookup st (p_wchan x) Hw) as (q0&Hq0&Hnd).
      rewrite Hq0 in Hq. injection Hq as <-. by apply unlink_spec.
    + rewrite list_lookup_alter_ne in Hq by done. exact (Forall_lookup_1 _ _ _ _ (sc_slp _ Hw) Hq).
  - apply Hw.
  - intros v y Hv. destruct (decide (v = p)) as [->|Hne].
    + rewrite list_lookup_insert_eq in Hv by done. injection Hv as <-. split; auto.
      * rewrite Hl', Hc'. split; [done|]. intros [?|[i Hi]]; [done|]. by destruct (Hnr i).
      * intros h. rewrite on_slp_off, Hc' by done. split; [|naive_solver].
        intros [Hon Hno]. apply (pw_slp _ _ _ Hx) in Hon as [_ ->]. by destruct Hno.
      * done.
      * intros i Hi. by destruct (Hnr i).
      * intros ? ?. by destruct Hs' as [?|Hs']; [|rewrite Hs' in *].
    + rewrite list_lookup_insert_ne in Hv by done. destruct (sc_procs _ Hw _ _ Hv).
      split; auto. intros h. rewrite on_slp_off by done. rewrite pw_slp0. naive_solver.
  - intros v Hv. rewrite length_insert. apply (sc_known _ Hw). destruct Hv as [[h Hv]|Hv]; [left|by right].
    apply on_slp_off in Hv as [? _]; eauto.
  - apply Hw.
Qed.

(** ** Becoming runnable *)

(** [x], on no queue, made runnable: on its run queue when it is loaded. *)
Definition make_run (st : sched) (p : nat) (x : proc) : sched :=
  let x' := set_linked (set_stat x SRUN) (loaded x) in
  let st := set_procs st (<[p := x']> (procs st)) in
  if loaded x then
    set_qs st (alter (fun q => q ++ [p]) (rq_index x) (qs st))
      (Z.setbit (whichqs st) (31 - Z.of_nat (rq_index x)))
  else st.

Lemma on_run_make st p x i v : sched_wf st -> 0 <= p_pri x <= 127 ->
  on_run (make_run st p x) i v <->
  on_run st i v \/ (loaded x = true /\ i = rq_index x /\ v = p).
Proof.
  intros Hw Hpr. unfold on_run, make_run. destruct (loaded x); simpl.
  2: { naive_solver. }
  destruct (decide (i = rq_index x)) as [->|Hne].
  - assert (rq_index x < length (qs st))%nat as [q Hq]%lookup_lt_is_Some
      by (rewrite (sc_nrun _ Hw); by apply rq_index_lt).
    rewrite list_lookup_alter_eq, Hq. simpl. split.
    + intros (?&[= <-]&Hv). apply elem_of_app in Hv as [?|Hv%list_elem_of_singleton]; naive_solver.
    + intros [(?&[= <-]&Hv)|(_&_&->)]; eexists; (split; [done|]); apply elem_of_app; [by left|right; left].
  - rewrite list_lookup_alter_ne by done. naive_solver.
Qed.

Lemma make_run_wf st p x :
  sched_wf st -> procs st !! p = Some x -> p_wchan x = 0 -> p_linked x = false ->
  sched_wf (make_run st p x).
Proof.
  intros Hw Hp Hc Hl. pose proof (sc_procs _ Hw _ _ Hp) as Hx. pose proof (pw_pri _ _ _ Hx) as Hpr.
  pose proof (lookup_lt_Some _ _ _ Hp) as Hlt.
  assert (procs (make_run st p x) = <[p := set_linked (set_stat x SRUN) (loaded x)]> (procs st)
    /\ slpque (make_run st p x) = slpque st /\ u_procp (make_run st p x) = u_procp st)
    as (Ep&Es&Eu) by (unfold make_run; by destruct (loaded x)).
  assert (forall i, ~ on_run st i p) as Hnr.
  { intros i Hi. assert (p_linked x = true) as Ht; [|congruence]. apply (pw_linked _ _ _ Hx). eauto. }
  assert (forall h, ~ on_slp st h p) as Hns.
  { intros h Hh. by apply (pw_slp _ _ _ Hx) in Hh as [? _]. }
  assert (forall h v, on_slp (make_run st p x) h v <-> on_slp st h v) as Hslp
    by (intros; unfold on_slp; by rewrite Es).
  split; rewrite ?Ep, ?Es; try apply Hw.
  - unfold make_run. destruct (loaded x); simpl; rewrite ?length_alter; apply Hw.
  - unfold make_run. destruct (loaded x); simpl; [|apply Hw]. rewrite Forall_lookup. intros i q Hq.
    destruct (decide (i = rq_index x)) as [->|Hne].
    + rewrite list_lookup_alter_eq in Hq. destruct (qs st !! rq_index x) as [q0|] eqn:E; [|done].
      injection Hq as <-. apply NoDup_app. split_and!.
      * exact (Forall_lookup_1 _ _ _ _ (sc_run _ Hw) E).
      * intros v Hv ->%list_elem_of_singleton. destruct (Hnr (rq_index x)). by exists q0.
      * apply NoDup_singleton.
    + rewrite list_lookup_alter_ne in Hq by done. exact (Forall_lookup_1 _ _ _ _ (sc_run _ Hw) Hq).
  - intros v y Hv. destruct (decide (v = p)) as [->|Hne].
    + rewrite list_lookup_insert_eq in Hv by done. injection Hv as <-. split; simpl; rewrite ?Hc.
      * setoid_rewrite on_run_make; [|done..]. split; [|naive_solver].
        intros Hlo. right. exists (rq_index x). by right.
      * intros h. rewrite Hslp. split; [intros ?; by destruct (Hns h)|tauto].
      * done.
      * intros i Hi. apply on_run_make in Hi as [Hi|(?&->&_)]; auto. by destruct (Hnr i).
      * intros _ Hlo _. apply on_run_make; auto.
      * done.
    + rewrite list_lookup_insert_ne in Hv by done. destruct (sc_procs _ Hw _ _ Hv).
      assert (forall i, on_run (make_run st p x) i v <-> on_run st i v) as Hrun
        by (intros i; rewrite on_run_make by done; naive_solver).
      split; auto.
      * by setoid_rewrite Hrun.
      * intros h. by rewrite Hslp.
      * intros i. rewrite Hrun. auto.
      * rewrite Eu, Hrun. auto.
  - intros v Hv. rewrite length_insert. destruct Hv as [[h Hv]|[i Hv]].
    + apply (sc_known _ Hw). left. exists h. by apply Hslp.
    + apply on_run_make in Hv as [Hv|(_&_&->)]; auto. apply (sc_known _ Hw). eauto.
  - unfold make_run. destruct (loaded x); simpl; [|apply Hw]. intros i q Hq.
    assert (rq_index x < NQS)%nat as Hri by (by apply rq_index_lt).
    assert (i < NQS)%nat as Hi.
    { apply lookup_lt_Some in Hq. by rewrite length_alter, (sc_nrun _ Hw) in Hq. }
    unfold NQS in *. destruct (decide (i = rq_index x)) as [->|Hne].
    + rewrite Z.setbit_eq by lia. rewrite list_lookup_alter_eq in Hq.
      destruct (qs st !! rq_index x); [|done]. injection Hq as <-.
      symmetry. apply negb_true_iff, bool_decide_eq_false. by destruct l.
    + rewrite Z.setbit_neq by lia. rewrite list_lookup_alter_ne in Hq by done. by apply Hw.
Qed.

(** ** wakeup *)

Lemma sched_wf_ext st st' :
  procs st' = procs st -> slpque st' = slpque st -> qs st' = qs st -> whichqs st' = whichqs st ->
  u_procp st' = u_procp st -> sched_wf st -> sched_wf st'.
Proof.
  intros E1 E2 E3 E4 E5 Hw.
  assert (forall h p, on_slp st' h p <-> on_slp st h p) as Hs by (intros; unfold on_slp; by rewrite E2).
  assert (forall i p, on_run st' i p <-> on_run st i p) as Hr by (intros; unfold on_run; by rewrite E3).
  split; rewrite ?E1, ?E2, ?E3, ?E4; try apply Hw.
  - intros p x Hp. destruct (sc_procs _ Hw _ _ Hp). split; rewrite ?E5; auto.
    + by setoid_rewrite Hr. + intros h. by rewrite Hs.
    + intros i. rewrite Hr. auto. + intros. rewrite Hr. auto.
  - intros p Hp. apply (sc_known _ Hw). by setoid_rewrite Hs in Hp; setoid_rewrite Hr in Hp.
Qed.

(** The number of processes on the sleep queues. *)
Definition nslept (st : sched) : nat := length (concat (slpque st)).

Lemma concat_alter_unlink p h (l : list (list nat)) q :
  l !! h = Some q -> p ∈ q -> S (length (concat (alter (unlink p) h l))) = length (concat l).
Proof.
  revert h. induction l as [|q0 l IH]; intros h Hh Hp; [done|]. destruct h as [|h]; simpl in *.
  - injection Hh as ->. rewrite !length_app. pose proof (unlink_length p q Hp). lia.
  - rewrite !length_app. change (list_alter (unlink p) h l) with (alter (unlink p) h l).
    pose proof (IH h Hh Hp). lia.
Qed.

Lemma nslept_queue st h q : slpque st !! h = Some q -> (length q <= nslept st)%nat.
Proof.
  unfold nslept. generalize (slpque st) as l. intros l. revert h.
  induction l as [|q0 l IH]; intros h Hh; [done|]. simpl. rewrite length_app.
  destruct h as [|h]; simpl in Hh; [injection Hh as ->; lia|]. pose proof (IH h Hh). lia.
Qed.

(** A process that wakeup takes off its queue. *)
Definition asleep_off (x : proc) : proc := set_slptime (set_wchan x 0 false) 0.
Definition woken (x : proc) : proc :=
  if p_stat x =? SSLEEP then set_linked (set_stat (asleep_off x) SRUN) (loaded x) else asleep_off x.

Section Wakeup.
Context (runout_ : Z) (Hro : runout_ <> 0).

(** Only processes of [C] that sleep are changed, and they are woken. *)
Definition wakes (C : proc -> Prop) (st st' : sched) : Prop :=
  length (procs st') = length (procs st) /\ u_procp st' = u_procp st /\
  forall p x, procs st !! p = Some x -> exists x', procs st' !! p = Some x' /\
    (x' = x \/ C x /\ p_wchan x <> 0 /\ x' = woken x).
Definition on (c : Z) (x : proc) : Prop := p_wchan x = c.
Definition nobody (c : Z) (st : sched) : Prop := forall p x, procs st !! p = Some x -> p_wchan x <> c.

Lemma woken_wchan x : p_wchan (woken x) = 0.
Proof. unfold woken. by destruct (_ =? _). Qed.

Lemma wakes_refl C st : wakes C st st.
Proof. split; [done|]. split; [done|]. eauto. Qed.

Lemma wakes_trans (C C1 C2 : proc -> Prop) st1 st2 st3 : (forall x, C1 x -> C x) -> (forall x, C2 x -> C x) ->
  wakes C1 st1 st2 -> wakes C2 st2 st3 -> wakes C st1 st3.
Proof.
  intros Hc1 Hc2 (H1&U1&W1) (H2&U2&W2). split; [congruence|]. split; [congruence|].
  intros p x Hp. destruct (W1 p x Hp) as (x1&Hp1&Hx1). destruct (W2 p x1 Hp1) as (x2&Hp2&Hx2).
  exists x2. split; [done|]. destruct Hx1 as [->|(Hcx&Hn&->)].
  - destruct Hx2 as [->|(Hcx&Hn&->)]; [by left|right; auto].
  - destruct Hx2 as [->|(_&Hn'&_)]; [right; auto|]. by rewrite woken_wchan in Hn'.
Qed.

Lemma wakes_ext C st st1 st2 : procs st2 = procs st1 -> u_procp st2 = u_procp st1 ->
  wakes C st st1 -> wakes C st st2.
Proof. unfold wakes. by intros -> ->. Qed.
Lemma wakes_back C st st' p x' : wakes C st st' -> procs st' !! p = Some x' -> exists x, procs st !! p = Some x /\ (x' = x \/ C x /\ p_wchan x <> 0 /\ x' = woken x).
Proof.
  intros (H1&_&W) Hp. assert (p < length (procs st))%nat as [x Hx]%lookup_lt_is_Some by (rewrite <- H1; by apply lookup_lt_Some in Hp).
  destruct (W p x Hx) as (x1&Hp1&Hor). rewrite Hp in Hp1. injection Hp1 as <-. eauto.
Qed.
Lemma wakes_nobody C c st st' : c <> 0 -> wakes C st st' -> nobody c st -> nobody c st'.
Proof. intros Hc Hw Hn p x' Hp. destruct (wakes_back _ _ _ _ _ Hw Hp) as (x&Hx&[->|(_&_&->)]); [by apply (Hn p)|]. rewrite woken_wchan. auto. Qed.

(** A sleeper on [c] that is not in core: waking it makes work for the swapper. *)
Definition outside (c : Z) (st : sched) : Prop := exists p x, procs st !! p = Some x /\ p_wchan x = c /\ p_stat x = SSLEEP /\ loaded x = false.
(** Sleepers on [chan] are woken.  Either the swapper does not sleep or there is nothing for it to do, and no one else is; or it is woken too. *)
Definition wakes_for (chan : Z) (st st' : sched) : Prop :=
  (runout st' = runout st /\ wakes (fun x => on chan x /\ (runout st = 0 \/ p_stat x <> SSLEEP \/ loaded x = true)) st st') \/
  (runout st <> 0 /\ runout st' = 0 /\ wakes (fun x => on chan x \/ on runout_ x) st st' /\ nobody runout_ st' /\ outside chan st).

Lemma wakes_for_refl chan st : wakes_for chan st st.
Proof. left. split; [done|]. apply wakes_refl. Qed.
Lemma wakes_for_wakes chan st st' : wakes_for chan st st' -> wakes (fun x => on chan x \/ on runout_ x) st st'.
Proof. intros [[_ H]|(_&_&H&_)]; [|done]. eapply (wakes_trans _ _ (fun _ => False)); [|done|exact H|apply wakes_refl]. simpl. tauto. Qed.
Lemma wakes_for_trans chan st1 st2 st3 : chan <> 0 -> wakes_for chan st1 st2 -> wakes_for chan st2 st3 -> wakes_for chan st1 st3.
Proof.
  intros Hc H1 H2. pose proof (wakes_for_wakes _ _ _ H1) as W1. pose proof (wakes_for_wakes _ _ _ H2) as W2.
  assert (wakes (fun x => on chan x \/ on runout_ x) st1 st3) as W by (by eapply wakes_trans; [..|exact W1|exact W2]).
  destruct H1 as [(R1&K1)|(R1&R1'&K1&N1&O1)], H2 as [(R2&K2)|(R2&R2'&K2&N2&p&x&Hp&Hx&Hs&Hl)].
  - left. split; [congruence|]. rewrite R1 in K2. by eapply wakes_trans; [..|exact K1|exact K2].
  - right. split_and!; try done; [congruence|]. destruct (wakes_back _ _ _ _ _ K1 Hp) as (x0&Hx0&[->|(_&_&->)]); [by exists p, x0|]. by rewrite woken_wchan in Hx.
  - right. split_and!; try done; [congruence|]. exact (wakes_nobody _ _ _ _ Hro W2 N1).
  - by rewrite R1' in R2.
Qed.

Lemma run_tail_spec wake p st x :
  sched_wf st -> procs st !! p = Some x -> p_wchan x = 0 -> p_linked x = false ->
  (forall s, sched_wf s -> (nslept s <= nslept st)%nat -> exists s', wake runout_ s = Ok s' /\
     sched_wf s' /\ (nslept s' <= nslept s)%nat /\ wakes_for runout_ s s' /\ nobody runout_ s') ->
  exists st', run_tail runout_ wake p st = Ok st' /\ sched_wf st' /\ (nslept st' <= nslept st)%nat /\
    wakes (on runout_) (make_run st p x) st' /\
    ((runout st' = runout st /\ procs st' = procs (make_run st p x) /\ (runout st = 0 \/ loaded x = true)) \/
     (runout st <> 0 /\ runout st' = 0 /\ loaded x = false /\ nobody runout_ st')).
Proof.
  intros Hw Hp Hc Hl Hwk. pose proof (make_run_wf st p x Hw Hp Hc Hl) as Hw1.
  pose proof (lookup_lt_Some _ _ _ Hp) as Hlt. pose proof (pw_pri _ _ _ (sc_procs _ Hw _ _ Hp)) as Hpr.
  unfold run_tail. rewrite (getp_Ok _ _ _ Hp). kstep. rewrite putp_Ok by done. kstep.
  assert ((if loaded x then setrq p (set_procs st (<[p:=set_stat x SRUN]> (procs st)))
           else mret (set_procs st (<[p:=set_stat x SRUN]> (procs st)))) = Ok (make_run st p x)) as ->.
  { unfold make_run. destruct (loaded x) eqn:El.
    2: { unfold mret, res_ret. do 3 f_equal. unfold set_linked; simpl. rewrite <- Hl. by destruct x. }
    unfold setrq. rewrite (getp_Ok _ p (set_stat x SRUN)) by (simpl; by apply list_lookup_insert_eq).
    kstep. simpl p_linked. rewrite Hl.
    assert (rq_index x < length (qs st))%nat as [q Hq]%lookup_lt_is_Some
      by (rewrite (sc_nrun _ Hw); by apply rq_index_lt).
    change (rq_index (set_stat x SRUN)) with (rq_index x). simpl qs.
    rewrite (proj2 (rd_Ok _ _ _) Hq). kstep. unfold wr.
    rewrite decide_True by (by apply lookup_lt_Some in Hq). kstep.
    rewrite putp_Ok by (simpl; by rewrite length_insert). kstep. unfold set_qs, set_procs. simpl.
    do 2 f_equal; [by apply list_insert_insert_eq|].
    apply list_eq. intros j. destruct (decide (j = rq_index x)) as [->|].
    - by rewrite list_lookup_insert_eq, list_lookup_alter_eq, Hq by (by apply lookup_lt_Some in Hq).
    - by rewrite list_lookup_insert_ne, list_lookup_alter_ne. }
  kstep. set (st1 := if p_pri x <? curpri _ then resched _ else _).
  assert (procs st1 = procs (make_run st p x) /\ slpque st1 = slpque st /\ qs st1 = qs (make_run st p x)
    /\ whichqs st1 = whichqs (make_run st p x) /\ u_procp st1 = u_procp (make_run st p x) /\ runout st1 = runout st) as (E1&E2&E3&E4&E5&E6).
  { unfold st1. destruct (_ <? _); unfold make_run; destruct (loaded x); split_and!; auto. }
  assert (sched_wf st1) as Hw1'.
  { eapply sched_wf_ext; [..|exact Hw1]; auto. rewrite E2. unfold make_run. by destruct (loaded x). }
  assert (wakes (on runout_) (make_run st p x) st1) as Hk1 by (by eapply wakes_ext; [..|apply wakes_refl]).
  assert (nslept st1 = nslept st) as En by (unfold nslept; by rewrite E2).
  destruct (loaded x); [exists st1; split_and!; auto; lia|].
  destruct (Z.eqb_spec (runout st1) 0) as [E0|E0].
  - kstep. eexists. split; [done|]. split; [by eapply sched_wf_ext; [..|exact Hw1']|].
    split; [unfold nslept in *; simpl; lia|]. split; [by eapply wakes_ext; [..|exact Hk1]|]. left. simpl. split; [congruence|]. split; [done|]. left. congruence.
  - destruct (Hwk (set_swap st1 (runin st1) 0 (wantin st1))) as (s'&->&Hw2&Hn2&Hk2&Hno).
    { by eapply sched_wf_ext; [..|exact Hw1']. }
    { unfold nslept in *; simpl; lia. }
    kstep. eexists. split; [done|]. split; [by eapply sched_wf_ext; [..|exact Hw2]|].
    split; [unfold nslept in *; simpl in *; lia|].
    destruct Hk2 as [[R2 Hk2]|[R2 _]]; [|done]. split.
    + eapply wakes_ext; [reflexivity|reflexivity|].
      eapply (wakes_trans _ _ _ _ (set_swap st1 (runin st1) 0 (wantin st1))); [..|exact Hk1|exact Hk2]; simpl; tauto.
    + right. simpl. split; [congruence|]. split; [by rewrite R2|]. done.
Qed.

Lemma off_sleep_nslept st p x x' : sched_wf st -> on_slp st (HASH (p_wchan x)) p ->
  S (nslept (off_sleep st p x x')) = nslept st.
Proof.
  intros Hw (q&Hq&Hp). unfold nslept, off_sleep; simpl. by eapply concat_alter_unlink.
Qed.

(** Off the queue and runnable is what [woken] says. *)
Lemma off_sleep_wakes chan st p x : procs st !! p = Some x -> p_wchan x = chan -> chan <> 0 ->
  let st1 := off_sleep st p x (asleep_off x) in
  (p_stat x = SSLEEP -> wakes (eq x) st (make_run st1 p (asleep_off x))) /\
  (p_stat x = SSTOP -> wakes (eq x) st st1).
Proof.
  intros Hp Hc Hn st1. pose proof (lookup_lt_Some _ _ _ Hp) as Hlt.
  assert (forall y st2, procs st2 = <[p := y]> (procs st) -> u_procp st2 = u_procp st ->
    y = woken x -> wakes (eq x) st st2) as Hgen.
  { intros y st2 E Eu ->. unfold wakes. rewrite E, length_insert. split_and!; auto.
    intros v z Hv. destruct (decide (v = p)) as [->|Hne].
    - rewrite Hp in Hv. injection Hv as <-. exists (woken x).
      rewrite list_lookup_insert_eq by done. split; [done|right]. split_and!; auto; congruence.
    - exists z. rewrite list_lookup_insert_ne by done. auto. }
  split; intros Hs.
  - apply (Hgen (set_linked (set_stat (asleep_off x) SRUN) (loaded x))).
    + unfold make_run, st1, off_sleep.
      destruct (loaded (asleep_off x)) eqn:E; simpl; rewrite list_insert_insert_eq;
        change (loaded (asleep_off x)) with (loaded x) in E; by rewrite E.
    + unfold make_run, st1, off_sleep. by destruct (loaded (asleep_off x)).
    + unfold woken. by rewrite (proj2 (Z.eqb_eq _ _) Hs).
  - apply (Hgen (asleep_off x)); [done..|]. unfold woken. by rewrite Hs.
Qed.

Lemma wakeup_walk_spec fuel : forall chan rest st,
  sched_wf st -> chan <> 0 -> NoDup rest -> (forall p, p ∈ rest -> on_slp st (HASH chan) p) ->
  (forall p x, procs st !! p = Some x -> p_wchan x = chan -> p ∈ rest) ->
  (nslept st * (nslept st + 1) + length rest < fuel)%nat ->
  exists st', wakeup_walk runout_ fuel chan rest st = Ok st' /\ sched_wf st' /\
    (nslept st' <= nslept st)%nat /\ wakes_for chan st st' /\ nobody chan st'.
Proof.
  induction fuel as [|fuel IH]; intros chan rest st Hw Hc Hnd Hon Hall Hf; [lia|].
  destruct rest as [|p rest]; cbn [wakeup_walk].
  { exists st. split_and!; auto using wakes_for_refl. intros p x Hp Hx.
    by apply (Hall p x Hp), elem_of_nil in Hx. }
  apply NoDup_cons in Hnd as [Hni Hnd].
  assert (on_slp st (HASH chan) p) as Honp by (apply Hon; left).
  assert (p < length (procs st))%nat as [x Hp]%lookup_lt_is_Some by (apply (sc_known _ Hw); eauto).
  pose proof (sc_procs _ Hw _ _ Hp) as Hx.
  rewrite (getp_Ok _ _ _ Hp). kstep.
  pose proof (proj1 (pw_slp _ _ _ Hx _) Honp) as [Hcx Hh]. pose proof (pw_stat _ _ _ Hx Hcx) as Hst.
  replace (negb (p_stat x =? SSLEEP) && negb (p_stat x =? SSTOP)) with false
    by (unfold SSLEEP, SSTOP in *; lia).
  destruct (Z.eqb_spec (p_wchan x) chan) as [Ec|Ec].
  2: { simpl in Hf. apply IH; auto; [intros v Hv; apply Hon; by right| |lia].
       intros v y Hv Hy. pose proof (Hall v y Hv Hy) as [->|?]%elem_of_cons; [|done]. congruence. }
  destruct (slpque_lookup st chan Hw) as (q&Hq&Hqnd). rewrite (proj2 (rd_Ok _ _ _) Hq). kstep.
  unfold wr at 1. rewrite decide_True by (by apply lookup_lt_Some in Hq). kstep.
  rewrite putp_Ok by (simpl; by apply lookup_lt_Some in Hp). kstep.
  assert (<[HASH chan := unlink p q]> (slpque st) = alter (unlink p) (HASH (p_wchan x)) (slpque st)) as Eal.
  { rewrite Ec. apply list_eq. intros j. destruct (decide (j = HASH chan)) as [->|].
    - by rewrite list_lookup_insert_eq, list_lookup_alter_eq, Hq by (by apply lookup_lt_Some in Hq).
    - by rewrite list_lookup_insert_ne, list_lookup_alter_ne. }
  simpl procs. rewrite Eal.
  change (set_procs _ _) with (off_sleep st p x (asleep_off x)).
  set (st1 := off_sleep st p x (asleep_off x)).
  assert (sched_wf st1) as Hw1.
  { apply off_sleep_wf; auto; [|apply Hx]. left. destruct Hst as [Hst|Hst]; simpl; rewrite Hst; done. }
  assert (S (nslept st1) = nslept st) as Hn1.
  { apply off_sleep_nslept; [done|]. apply (pw_slp _ _ _ Hx). auto. }
  assert (procs st1 !! p = Some (asleep_off x)) as Hp1.
  { unfold st1, off_sleep; simpl. apply list_lookup_insert_eq. by apply lookup_lt_Some in Hp. }
  destruct (off_sleep_wakes chan st p x Hp Ec Hc) as [Hk1 Hk2]. fold st1 in Hk1, Hk2.
  simpl in Hf.
  assert (forall c s, sched_wf s -> (nslept s <= nslept st1)%nat -> c <> 0 ->
    exists s', (q ← rd (slpque s) (HASH c); wakeup_walk runout_ fuel c q s) = Ok s' /\
      sched_wf s' /\ (nslept s' <= nslept s)%nat /\ wakes_for c s s' /\ nobody c s') as Hagain.
  { intros c s Hs Hns Hc0. destruct (slpque_lookup s c Hs) as (qc&Hqc&Hndc).
    rewrite (proj2 (rd_Ok _ _ _) Hqc). kstep. apply IH; auto.
    - intros v Hv. by exists qc.
    - intros v y Hv Hy. pose proof (sc_procs _ Hs _ _ Hv) as Hyw.
      assert (on_slp s (HASH c) v) as (q'&Hq'&?) by (apply (pw_slp _ _ _ Hyw); rewrite Hy; auto).
      rewrite Hqc in Hq'. by injection Hq' as <-.
    - pose proof (nslept_queue s (HASH c) qc Hqc). nia. }
  destruct Hst as [Hst|Hst]; rewrite (Hst : p_stat x = _).
  - change (SSLEEP =? SSLEEP) with true. cbn [negb].
    destruct (run_tail_spec (fun c s => q ← rd (slpque s) (HASH c); wakeup_walk runout_ fuel c q s)
      p st1 (asleep_off x)) as (st2&->&Hw2&Hn2&Hk&Hcase); auto.
    kstep. destruct (Hagain chan st2 Hw2 ltac:(lia) Hc) as (st3&->&Hw3&Hn3&Hk3&Hall3).
    exists st3. split_and!; auto; [lia|]. apply (wakes_for_trans chan _ st2); [done| |exact Hk3]. specialize (Hk1 Hst).
    destruct Hcase as [(R&Ep&Hor)|(R&R'&Hl&Hno)].
    + left. split; [exact R|]. eapply wakes_ext; [exact Ep|destruct Hk as (_&->&_); done|]. eapply (wakes_trans _ _ (fun _ => False)); [|done|exact Hk1|apply wakes_refl].
      intros y <-. split; [done|]. destruct Hor; auto.
    + right. split_and!; auto; [|by exists p, x]. eapply wakes_trans; [..|exact Hk1|exact Hk]; [intros y <-; by left|by right].
  - change (SSTOP =? SSLEEP) with false.
    destruct (IH chan rest st1) as (st2&->&Hw2&Hn2&Hk&Hall2); auto.
    + intros v Hv. apply on_slp_off; [done|]. split; [apply Hon; by right|]. intros _ ->. done.
    + intros v y Hv Hy. destruct (decide (v = p)) as [->|Hne].
      { rewrite Hp1 in Hv. injection Hv as <-. simpl in Hy. congruence. }
      unfold st1, off_sleep in Hv; simpl in Hv. rewrite list_lookup_insert_ne in Hv by done.
      pose proof (Hall v y Hv Hy) as [->|?]%elem_of_cons; done.
    + nia.
    + exists st2. split_and!; auto; [lia|].
      apply (wakes_for_trans chan _ st1); [done| |exact Hk]. left. split; [done|]. eapply (wakes_trans _ _ (fun _ => False)); [|done|by apply Hk2|apply wakes_refl].
      intros y <-. split; [done|]. right; left. by rewrite Hst.
Qed.
End Wakeup.

(** ** Going to sleep *)

(** [x] put at the end of the sleep queue of [chan] and stored as [x']. *)
Definition to_sleep (st : sched) (p : nat) (chan : Z) (x' : proc) : sched :=
  set_procs (set_slpque st (alter (fun q => q ++ [p]) (HASH chan) (slpque st)))
    (<[p := x']> (procs st)).

Lemma to_sleep_wf st p chan x x' :
  sched_wf st -> procs st !! p = Some x -> p_wchan x = 0 -> p_linked x = false ->
  chan <> 0 -> p_wchan x' = chan -> p_linked x' = true -> p_stat x' = SSLEEP ->
  0 <= p_pri x' <= 127 -> sched_wf (to_sleep st p chan x').
Proof.
  intros Hw Hp Hc Hl Hn Hc' Hl' Hs' Hpr. pose proof (sc_procs _ Hw _ _ Hp) as Hx.
  pose proof (lookup_lt_Some _ _ _ Hp) as Hlt.
  destruct (slpque_lookup st chan Hw) as (q0&Hq0&Hnd0).
  assert (forall h, ~ on_slp st h p) as Hns.
  { intros h Hh. by apply (pw_slp _ _ _ Hx) in Hh as [? _]. }
  assert (forall i, ~ on_run st i p) as Hnr.
  { intros i Hi. assert (p_linked x = true) as Ht; [|congruence]. apply (pw_linked _ _ _ Hx). eauto. }
  assert (forall h v, on_slp (to_sleep st p chan x') h v <-> on_slp st h v \/ (h = HASH chan /\ v = p)) as Hslp.
  { intros h v. unfold on_slp, to_sleep; simpl. destruct (decide (h = HASH chan)) as [->|Hne].
    - rewrite list_lookup_alter_eq, Hq0. simpl. split.
      + intros (?&[= <-]&Hv). apply elem_of_app in Hv as [?|Hv%list_elem_of_singleton]; [left; eauto|auto].
      + intros [(?&[= <-]&Hv)|(_&->)]; eexists; (split; [done|]); apply elem_of_app; [by left|right; left].
    - rewrite list_lookup_alter_ne by done. split; [auto|]. by intros [?|[? _]]. }
  split; simpl; try apply Hw.
  - rewrite length_alter. apply Hw.
  - rewrite Forall_lookup. intros h q Hq. destruct (decide (h = HASH chan)) as [->|Hne].
    + rewrite list_lookup_alter_eq, Hq0 in Hq. injection Hq as <-. apply NoDup_app. split_and!; auto.
      * intros v Hv ->%list_elem_of_singleton. destruct (Hns (HASH chan)). by exists q0.
      * apply NoDup_singleton.
    + rewrite list_lookup_alter_ne in Hq by done. exact (Forall_lookup_1 _ _ _ _ (sc_slp _ Hw) Hq).
  - intros v y Hv. destruct (decide (v = p)) as [->|Hne].
    + rewrite list_lookup_insert_eq in Hv by done. injection Hv as <-. split; auto.
      * rewrite Hl', Hc'. tauto.
      * intros h. rewrite Hslp, Hc'. split; [intros [Hh|[-> _]]; [by destruct (Hns h)|auto]|].
        intros [_ ->]. auto.
      * intros i Hi. by destruct (Hnr i).
      * rewrite Hs'. done.
    + rewrite list_lookup_insert_ne in Hv by done. destruct (sc_procs _ Hw _ _ Hv).
      split; auto. intros h. rewrite Hslp, pw_slp0. tauto.
  - intros v Hv. rewrite length_insert. destruct Hv as [[h Hv]|Hv].
    + apply Hslp in Hv as [Hv|[_ ->]]; [|done]. apply (sc_known _ Hw). eauto.
    + apply (sc_known _ Hw). by right.
Qed.

(** ** Properties *)

Definition enough (st : sched) : nat := S ((nslept st + 1) * (nslept st + 1)).

(** C20: wakeup() ends and wakes everyone: no process is left on the channel, every sleeper on
    it is runnable (and on the run queue of its priority when it is in core), a stopped one
    stays stopped but no longer waits; no other process changes, except that the swapper, if it sleeps ([runout]),
    is woken exactly when a woken process is not in core: then all who wait for [runout] are, and it is cleared; the queues stay sound. *)
Theorem wakeup_wakes_all runout_ chan st :
  runout_ <> 0 -> sched_wf st -> chan <> 0 ->
  exists st', wakeup runout_ (enough st) chan st = Ok st' /\ sched_wf st' /\
    (forall p x, procs st' !! p = Some x -> p_wchan x <> chan) /\
    (forall p x, procs st !! p = Some x -> exists x', procs st' !! p = Some x' /\
       (p_wchan x = chan -> x' = woken x) /\
       (p_wchan x = chan -> p_stat x = SSLEEP ->
          p_stat x' = SRUN /\ (loaded x = true -> on_run st' (rq_index x) p)) /\
       (p_wchan x = chan -> p_stat x = SSTOP -> p_stat x' = SSTOP /\ p_wchan x' = 0) /\
       (p_wchan x <> chan -> p_wchan x <> runout_ -> x' = x) /\
       (p_wchan x <> chan -> p_wchan x = runout_ -> (runout st <> 0 /\ outside chan st -> x' = woken x) /\ (~ (runout st <> 0 /\ outside chan st) -> x' = x))) /\
    (runout st <> 0 /\ outside chan st -> runout st' = 0) /\ (~ (runout st <> 0 /\ outside chan st) -> runout st' = runout st).
Proof.
  intros Hro Hw Hc. unfold wakeup. destruct (slpque_lookup st chan Hw) as (q&Hq&Hnd).
  rewrite (proj2 (rd_Ok _ _ _) Hq). kstep.
  destruct (wakeup_walk_spec runout_ Hro (enough st) chan q st) as (st'&->&Hw'&_&Hfor&Hall); auto.
  - intros p Hp. by exists q.
  - intros p x Hp Hx. pose proof (sc_procs _ Hw _ _ Hp) as Hxw.
    assert (on_slp st (HASH chan) p) as (q'&Hq'&?) by (apply (pw_slp _ _ _ Hxw); rewrite Hx; auto).
    rewrite Hq in Hq'. by injection Hq' as <-.
  - pose proof (nslept_queue st (HASH chan) q Hq). unfold enough. lia.
  - pose proof (wakes_for_wakes _ _ _ _ Hfor) as (_&_&Hk).
    assert (runout st <> 0 /\ outside chan st -> runout st' = 0 /\ nobody runout_ st') as Hkick.
    { intros [R (p&x&Hp&Hx&Hs&Hl)]. destruct Hfor as [[_ (_&_&Hf)]|(_&?&_&?&_)]; [|done]. exfalso. destruct (Hf p x Hp) as (x'&Hp'&[->|((_&Hor)&_)]); [by apply (Hall p x)|]. destruct Hor as [?|[?|?]]; congruence. }
    assert (~ (runout st <> 0 /\ outside chan st) -> runout st' = runout st /\ wakes (on chan) st st') as Hcalm.
    { intros Hn. destruct Hfor as [[? Hf]|(?&_&_&_&?)]; [|by destruct Hn]. split; [done|]. eapply (wakes_trans _ _ (fun _ => False)); [|done|exact Hf|apply wakes_refl]. by intros y [? _]. }
    exists st'. split; [done|]. split; [done|]. split; [done|]. split; [|split; [by intros [? _]%Hkick|by intros [? _]%Hcalm]]. intros p x Hp. destruct (Hk p x Hp) as (x'&Hp'&Hx').
    exists x'. split; [done|]. assert (p_wchan x = chan -> x' = woken x) as Hwk by (intros Hx; destruct Hx' as [->|(_&_&?)]; [by destruct (Hall _ _ Hp')|done]). split; [done|]. split; [|split; [|split]].
    + intros Hx Hs. rewrite (Hwk Hx) in *. unfold woken. rewrite (proj2 (Z.eqb_eq _ _) Hs). split; [done|]. intros Hlo.
      assert (p_linked (woken x) = true) as Hlk by (unfold woken; rewrite (proj2 (Z.eqb_eq _ _) Hs); exact Hlo).
      pose proof (sc_procs _ Hw' _ _ Hp') as Hyw.
      apply (pw_linked _ _ _ Hyw) in Hlk as [Hz|[i Hi]]; [by rewrite woken_wchan in Hz|].
      destruct (pw_run _ _ _ Hyw i Hi) as (_&_&->&_).
      assert (rq_index (woken x) = rq_index x) as <-; [|exact Hi].
      unfold woken. by destruct (_ =? _).
    + intros Hx Hs. rewrite (Hwk Hx). split; [|apply woken_wchan]. unfold woken. by rewrite Hs.
    + intros H1 H2. destruct Hx' as [->|([?|?]&_)]; done.
    + intros H1 H2. split.
      * intros Hy. destruct (Hkick Hy) as [_ Hno]. destruct Hx' as [->|(_&_&?)]; [|done]. by destruct (Hno _ _ Hp').
      * intros Hn. destruct (Hcalm Hn) as [_ (_&_&Hc')]. destruct (Hc' p x Hp) as (x1&Hp1&Hor). rewrite Hp' in Hp1. injection Hp1 as <-. by destruct Hor as [->|(?&_)].
Qed.

(** sleep() without a pending signal: the running process is put on the queue of its
    channel, asleep at the priority asked for, and the queues stay sound (so the next
    wakeup of the channel finds it). *)
Theorem sleep_sleeps issig chan pri st x :
  sched_wf st -> procs st !! u_procp st = Some x -> p_stat x = SRUN -> p_wchan x = 0 ->
  p_linked x = false -> panicstr st = false -> chan <> 0 ->
  (forall s, issig s = (false, s)) ->
  exists st' x', sleep issig false chan pri st = Ok (SlSwtch st') /\ sched_wf st' /\
    procs st' !! u_procp st = Some x' /\ p_stat x' = SSLEEP /\ p_wchan x' = chan /\
    p_pri x' = Z.land pri 127 /\ on_slp st' (HASH chan) (u_procp st) /\
    (forall q y, q <> u_procp st -> procs st !! q = Some y -> procs st' !! q = Some y).
Proof.
  intros Hw Hp Hs Hc Hl Hpan Hn Hsig. unfold sleep. rewrite Hpan, (getp_Ok _ _ _ Hp). kstep.
  rewrite (proj2 (Z.eqb_neq _ _) Hn), Hs. change (SRUN =? SRUN) with true. simpl orb. cbn [negb].
  destruct (slpque_lookup st chan Hw) as (q&Hq&_). rewrite (proj2 (rd_Ok _ _ _) Hq). kstep.
  unfold wr at 1. rewrite decide_True by (by apply lookup_lt_Some in Hq). kstep.
  pose proof (lookup_lt_Some _ _ _ Hp) as Hlt. rewrite putp_Ok by done. kstep.
  set (x1 := set_pri _ _). set (st1 := set_procs _ _).
  set (x2 := set_stat x1 SSLEEP).
  assert (putp (u_procp st) x2 st1 = Ok (to_sleep st (u_procp st) chan x2)) as Hput.
  { rewrite putp_Ok by (unfold st1; simpl; by rewrite length_insert). unfold to_sleep, st1, set_procs.
    simpl. rewrite list_insert_insert_eq. do 2 f_equal.
    symmetry. apply list_eq. intros j. destruct (decide (j = HASH chan)) as [->|].
    - by rewrite list_lookup_insert_eq, list_lookup_alter_eq, Hq by (by apply lookup_lt_Some in Hq).
    - by rewrite list_lookup_insert_ne, list_lookup_alter_ne. }
  assert (0 <= p_pri x2 <= 127) as Hpr.
  { simpl. change PMASK with (Z.ones 7). rewrite Z.land_ones by lia.
    pose proof (Z.mod_pos_bound pri (2 ^ 7) ltac:(lia)). change (2 ^ 7) with 128 in *. lia. }
  assert (sched_wf (to_sleep st (u_procp st) chan x2)) as Hw2 by (by eapply to_sleep_wf).
  exists (add_nvcsw (to_sleep st (u_procp st) chan x2)), x2. split_and!; auto.
  - destruct (PZERO <? p_pri x1).
    + rewrite Hsig. unfold getp at 1, st1 at 1; simpl procs.
      rewrite (proj2 (rd_Ok _ _ _) (list_lookup_insert_eq _ _ _ Hlt)). kstep.
      change (p_wchan x1) with chan. rewrite (proj2 (Z.eqb_neq _ _) Hn). fold x2. by rewrite Hput.
    + fold x2. by rewrite Hput.
  - by eapply sched_wf_ext; [..|exact Hw2].
  - simpl. by apply list_lookup_insert_eq.
  - exists (q ++ [u_procp st]). simpl. rewrite list_lookup_alter_eq, Hq. split; [done|].
    apply elem_of_app. right. left.
  - intros v y Hv Hy. simpl. by rewrite list_lookup_insert_ne.
Qed.

(** setrun() makes a sleeping, stopped or new process runnable, off its sleep queue and on
    the run queue of its priority when it is in core, and keeps the queues sound; for a
    process in any other state it panics. *)
Theorem setrun_runs runout_ p st x :
  runout_ <> 0 -> sched_wf st -> procs st !! p = Some x ->
  (p_stat x = SSLEEP \/ p_stat x = SSTOP \/ p_stat x = SIDL /\ p_linked x = false) ->
  exists st' x', setrun runout_ (enough st) p st = Ok st' /\ sched_wf st' /\
    procs st' !! p = Some x' /\ p_stat x' = SRUN /\ p_wchan x' = 0 /\
    (loaded x = true -> on_run st' (rq_index x) p).
Proof.
  intros Hro Hw Hp Hst. pose proof (sc_procs _ Hw _ _ Hp) as Hx.
  pose proof (lookup_lt_Some _ _ _ Hp) as Hlt.
  assert (forall st1 y, sched_wf st1 -> (nslept st1 <= nslept st)%nat -> procs st1 !! p = Some y ->
    p_wchan y = 0 -> p_linked y = false -> rq_index y = rq_index x -> loaded y = loaded x ->
    exists st' x', run_tail runout_ (wakeup runout_ (enough st)) p st1 = Ok st' /\ sched_wf st' /\
      procs st' !! p = Some x' /\ p_stat x' = SRUN /\ p_wchan x' = 0 /\
      (loaded x = true -> on_run st' (rq_index x) p)) as Hrun.
  { intros st1 y Hw1 Hn1 Hp1 Hc1 Hl1 Hri Hlo.
    destruct (run_tail_spec runout_ (wakeup runout_ (enough st)) p st1 y Hw1 Hp1 Hc1 Hl1)
      as (st'&->&Hw'&_&(_&_&Hk)&_).
    { intros s Hs Hns. unfold wakeup. destruct (slpque_lookup s runout_ Hs) as (q&Hq&Hnd).
      rewrite (proj2 (rd_Ok _ _ _) Hq). kstep.
      destruct (wakeup_walk_spec runout_ Hro (enough st) runout_ q s) as (s'&->&?&?&?&?); eauto 6.
      - intros v Hv. by exists q.
      - intros v z Hv Hz. pose proof (sc_procs _ Hs _ _ Hv) as Hzw.
        assert (on_slp s (HASH runout_) v) as (q'&Hq'&?) by (apply (pw_slp _ _ _ Hzw); rewrite Hz; auto).
        rewrite Hq in Hq'. by injection Hq' as <-.
      - pose proof (nslept_queue s (HASH runout_) q Hq). unfold enough. nia. }
    set (y' := set_linked (set_stat y SRUN) (loaded y)).
    assert (procs (make_run st1 p y) !! p = Some y') as Hpy.
    { unfold make_run. destruct (loaded y); simpl; apply list_lookup_insert_eq;
        by apply lookup_lt_Some in Hp1. }
    destruct (Hk p y' Hpy) as (x'&Hp'&[->|(_&Hz&_)]); [|done].
    exists st', y'. split_and!; auto. intros Hlx.
    pose proof (sc_procs _ Hw' _ _ Hp') as Hyw.
    destruct (proj1 (pw_linked _ _ _ Hyw)) as [Hz|[i Hi]]; [simpl; congruence|done|].
    destruct (pw_run _ _ _ Hyw i Hi) as (_&_&->&_).
    change (rq_index y') with (rq_index y) in Hi. by rewrite Hri in Hi. }
  unfold setrun. rewrite (getp_Ok _ _ _ Hp). kstep.
  destruct (Z.eqb_spec (p_wchan x) 0) as [Hc|Hc].
  - assert (p_linked x = false) as Hl.
    { destruct (p_linked x) eqn:E; [|done]. destruct Hst as [Hst|[Hst|[_ ?]]]; [| |done].
      all: destruct (proj1 (pw_linked _ _ _ Hx) E) as [?|[i Hi]]; [done|];
        destruct (pw_run _ _ _ Hx i Hi) as (Hr&_); rewrite Hst in Hr; done. }
    assert (unsleep p st = Ok st) as Hus by (unfold unsleep; rewrite (getp_Ok _ _ _ Hp); kstep; by rewrite Hc).
    destruct ((p_stat x =? SSTOP) || (p_stat x =? SSLEEP)) eqn:E.
    + rewrite Hus. kstep. by apply (Hrun st x).
    + assert (p_stat x = SIDL) as -> by (destruct Hst as [Hst|[Hst|[Hst _]]];
        [rewrite Hst in E; done|rewrite Hst in E; done|done]).
      change (SIDL =? SIDL) with true. by apply (Hrun st x).
  - destruct (pw_stat _ _ _ Hx Hc) as [Hs|Hs].
    all: replace ((p_stat x =? SSTOP) || (p_stat x =? SSLEEP)) with true by (rewrite Hs; done).
    all: unfold unsleep; rewrite (getp_Ok _ _ _ Hp); kstep; rewrite (proj2 (Z.eqb_neq _ _) Hc).
    all: destruct (slpque_lookup st (p_wchan x) Hw) as (q&Hq&_); rewrite (proj2 (rd_Ok _ _ _) Hq); kstep.
    all: unfold wr at 1; rewrite decide_True by (by apply lookup_lt_Some in Hq); kstep.
    all: rewrite putp_Ok by done; kstep.
    all: assert (<[HASH (p_wchan x) := unlink p q]> (slpque st) = alter (unlink p) (HASH (p_wchan x)) (slpque st))
      as Eal by (apply list_eq; intros j; destruct (decide (j = HASH (p_wchan x))) as [->|];
        [by rewrite list_lookup_insert_eq, list_lookup_alter_eq, Hq by (by apply lookup_lt_Some in Hq)
        |by rewrite list_lookup_insert_ne, list_lookup_alter_ne]).
    all: simpl procs; rewrite Eal; change (set_procs _ _) with (off_sleep st p x (set_wchan x 0 false)).
    all: apply (Hrun _ (set_wchan x 0 false)); auto.
    all: try (apply off_sleep_wf; auto; [left; simpl; rewrite Hs; done|apply Hx]).
    all: try (by apply list_lookup_insert_eq).
    all: assert (S (nslept (off_sleep st p x (set_wchan x 0 false))) = nslept st) as Hsl
      by (apply off_sleep_nslept; [done|]; apply (pw_slp _ _ _ Hx); auto); lia.
Qed.

(** setpri() and schedcpu()'s decay: the user priority stays within 1 and 127 and does not
    improve when a process has used more processor or is nicer; the usage of a process with
    the default nice value never grows by decay, and stays within 0 and 255. *)
Theorem priorities_sane st x y av :
  0 <= p_cpu x <= 255 -> 0 <= p_cpu y <= 255 -> 0 <= av ->
  1 <= setpri_of st x <= 127 /\
  (p_cpu x <= p_cpu y -> p_nice x <= p_nice y -> p_flag x = p_flag y ->
   p_rssize x = p_rssize y -> p_maxrss x = p_maxrss y -> setpri_of st x <= setpri_of st y) /\
  0 <= decay_cpu av x <= 255 /\ (p_nice x = NZERO -> decay_cpu av x <= p_cpu x).
Proof.
  intros Hx Hy Hav.
  assert (forall c, 0 <= c <= 255 -> Z.land c 255 = c) as Hland.
  { intros c Hc. change 255 with (Z.ones 8). rewrite Z.land_ones by lia. apply Z.mod_small. lia. }
  unfold setpri_of, decay_cpu, NZERO, PUSER, FSCALE. rewrite !Hland by done.
  assert (p_cpu x <= p_cpu y -> p_cpu x `quot` 4 <= p_cpu y `quot` 4) as Hq.
  { intros ?. rewrite !Z.quot_div_nonneg by lia. apply Z.div_le_mono; lia. }
  assert (0 <= (p_cpu x * (av * 2)) `quot` (av * 2 + 256) <= p_cpu x) as Hd.
  { rewrite Z.quot_div_nonneg by nia. split; [apply Z.div_pos; nia|].
    apply Z.div_le_upper_bound; nia. }
  split_and!.
  - repeat case_match; lia.
  - repeat case_match; lia.
  - intros ? ? -> -> ->. specialize (Hq H). destruct (Z.land (p_flag y) SFAVORD =? 0);
      destruct ((p_maxrss y <? p_rssize y) && (freemem st <? desfree st)); repeat case_match; lia.
  - repeat case_match; lia.
  - repeat case_match; lia.
  - intros ->. repeat case_match; lia.
Qed.

(** ** The initial state, and witnesses *)

(** rqinit() establishes the invariant when no process waits or is ready to run. *)
Lemma rqinit_wf st :
  whichqs st = 0 ->
  (forall p x, procs st !! p = Some x -> p_linked x = false /\ p_wchan x = 0 /\
     0 <= p_pri x <= 127 /\ (p_stat x = SRUN -> loaded x = true -> p = u_procp st)) ->
  sched_wf (rqinit st).
Proof.
  intros Hb Hp.
  assert (forall h p, ~ on_slp (rqinit st) h p) as Hs.
  { intros h p (q&Hq&Hin). apply lookup_replicate in Hq as [-> _]. by apply elem_of_nil in Hin. }
  assert (forall i p, ~ on_run (rqinit st) i p) as Hr.
  { intros i p (q&Hq&Hin). apply lookup_replicate in Hq as [-> _]. by apply elem_of_nil in Hin. }
  split.
  - done.
  - done.
  - apply Forall_replicate. constructor.
  - apply Forall_replicate. constructor.
  - intros p x Hx. destruct (Hp p x Hx) as (Hl&Hc&Hpr&Hrun). split; rewrite ?Hl, ?Hc; try done.
    + split; [done|]. intros [?|[i Hi]]; [done|]. by destruct (Hr i p).
    + intros h. split; [intros ?; by destruct (Hs h p)|by intros [? _]].
    + intros i Hi. by destruct (Hr i p).
    + intros H1 H2 H3. by destruct H3; apply Hrun.
  - intros p [[h H]|[i H]]; [by destruct (Hs h p)|by destruct (Hr i p)].
  - intros i q Hq. apply lookup_replicate in Hq as [-> _]. simpl. rewrite Hb. by rewrite Z.bits_0.
Qed.

Definition idle_proc (stat flag : Z) : proc := Proc stat 40 60 0 20 flag 0 false 0 0 0 0 0 0.
Definition boot : sched :=
  rqinit (Sched [idle_proc SRUN SLOAD; idle_proc SIDL SLOAD; idle_proc SIDL 0] [] [] 0 0 0 60 0 1 0
            false 0 0 false 10 5 100).
Definition sleeper (flag : Z) : proc := Proc SSLEEP 40 60 0 20 flag 100 true 0 0 0 0 0 0.
Definition two_asleep : sched :=
  to_sleep (to_sleep boot 1 100 (sleeper SLOAD)) 2 100 (sleeper 0).

Lemma boot_wf : sched_wf boot.
Proof.
  apply rqinit_wf; [done|]. intros p x Hp. simpl in Hp.
  destruct p as [|[|[|p]]]; simpl in Hp; simplify_eq; simpl; split_and!; (done || lia).
Qed.

Lemma two_asleep_wf : sched_wf two_asleep.
Proof.
  apply (to_sleep_wf _ 2 100 (idle_proc SIDL 0)); try (done || (simpl; lia)).
  apply (to_sleep_wf _ 1 100 (idle_proc SIDL SLOAD)); try (done || (simpl; lia)). apply boot_wf.
Qed.

Lemma wakeup_wakes_all_witness :
  exists st', wakeup 7 (enough two_asleep) 100 two_asleep = Ok st' /\
    on_run st' 10 1 /\ sched_wf st'.
Proof.
  destruct (wakeup_wakes_all 7 100 two_asleep ltac:(lia) two_asleep_wf ltac:(lia))
    as (st'&E&Hw&_&Hk&_).
  exists st'. split; [exact E|]. split; [|exact Hw].
  destruct (Hk 1%nat (sleeper SLOAD) eq_refl) as (x'&_&_&H&_).
  exact (proj2 (H eq_refl eq_refl) eq_refl).
Defined.

Lemma sleep_sleeps_witness :
  exists st', sleep (fun s => (false, s)) false 100 30 two_asleep = Ok (SlSwtch st') /\ sched_wf st'.
Proof.
  destruct (sleep_sleeps (fun s => (false, s)) 100 30 two_asleep (idle_proc SRUN SLOAD)
    two_asleep_wf eq_refl eq_refl eq_refl eq_refl eq_refl ltac:(lia) (fun s => eq_refl))
    as (st'&x'&E&Hw&_).
  exists st'. split; [exact E|exact Hw].
Defined.

Lemma setrun_runs_witness :
  exists st', setrun 7 (enough two_asleep) 1 two_asleep = Ok st' /\ on_run st' 10 1.
Proof.
  destruct (setrun_runs 7 1 two_asleep (sleeper SLOAD) ltac:(lia) two_asleep_wf eq_refl
    (or_introl eq_refl)) as (st'&x'&E&_&_&_&_&H).
  exists st'. split; [exact E|exact (H eq_refl)].
Defined.

Lemma priorities_sane_witness :
  decay_cpu 200 (idle_proc SRUN SLOAD) <= 0.
Proof.
  destruct (priorities_sane boot (idle_proc SRUN SLOAD) (idle_proc SRUN SLOAD) 200) as (_&_&_&H);
    [simpl; lia|simpl; lia|lia|]. exact (H eq_refl).
Defined.
