(* ===== verification/Clist.v ===== *)
(** * Character lists: [src/sun/sys/sys/tty_subr.c]

    The storage is the address space the code sees: [cnext] gives the c_next field of the
    cblock at an address, [cmem] the characters (as unsigned bytes).  Cblocks are 32 bytes
    and aligned, so the code finds the block of a character by masking with CROUND. *)

From S2P Require Import Prelude.
From stdpp Require Import prelude gmap list numbers strings.
From Stdlib Require Import ZArith Lia.

Local Open Scope Z_scope.
Local Open Scope kern_scope.

Definition CBSIZE := 28.
Definition CROUND := 0x1f.
(** sizeof (struct cblock), and the offset of c_info. *)
Definition CBLOCK := 32.
Definition c_info (bp : Z) : Z := bp + 4.

Record clist := Clist { c_cc : Z; c_cf : Z; c_cl : Z }.
Record cst := Cst {
  cnext : gmap Z Z; cmem : gmap Z Z; cfreelist : Z; cfreecount : Z; cwaiting : bool; cwakeups : nat
}.

Definition rdc (a : Z) (st : cst) : res Z :=
  match cmem st !! a with Some c => Ok c | None => Fault end.
Definition wrc (a c : Z) (st : cst) : res cst :=
  match cmem st !! a with
  | Some _ => Ok (Cst (cnext st) (<[a := u8 c]> (cmem st)) (cfreelist st) (cfreecount st)
                    (cwaiting st) (cwakeups st))
  | None => Fault
  end.
Definition get_next (b : Z) (st : cst) : res Z :=
  match cnext st !! b with Some n => Ok n | None => Fault end.
Definition set_next (b n : Z) (st : cst) : res cst :=
  match cnext st !! b with
  | Some _ => Ok (Cst (<[b := n]> (cnext st)) (cmem st) (cfreelist st) (cfreecount st)
                    (cwaiting st) (cwakeups st))
  | None => Fault
  end.
Definition set_free (f n : Z) (st : cst) : cst :=
  Cst (cnext st) (cmem st) f n (cwaiting st) (cwakeups st).

(** The block an address lies in. *)
Definition block_of (a : Z) : Z := Z.land a (Z.lnot CROUND).
Definition at_end (a : Z) : bool := Z.land a CROUND =? 0.

(** [bp->c_next = cfreelist; cfreelist = bp; cfreecount += CBSIZE;] and the wakeup. *)
Definition give_block (bp : Z) (st : cst) : res cst :=
  st ← set_next bp (cfreelist st) st;
  mret (set_free bp (cfreecount st + CBSIZE) st).
Definition wake_waiters (st : cst) : cst :=
  if cwaiting st
  then Cst (cnext st) (cmem st) (cfreelist st) (cfreecount st) false (S (cwakeups st))
  else st.
Definition free_block (bp : Z) (st : cst) : res cst :=
  st ← give_block bp st; mret (wake_waiters st).

(** [bp = cfreelist; cfreelist = bp->c_next; cfreecount -= CBSIZE; bp->c_next = NULL;]
    [None] when the list is empty. *)
Definition take_block (st : cst) : res (option (Z * cst)) :=
  let bp := cfreelist st in
  if bp =? 0 then mret None
  else
    n ← get_next bp st;
    st ← set_next bp 0 (set_free n (cfreecount st - CBSIZE) st);
    mret (Some (bp, st)).

(** The part getc and q_to_b share: the character at the front of a list that has one. *)
Definition getc_front (p : clist) (st : cst) : res (Z * clist * cst) :=
  c ← rdc (c_cf p) st;
  let cf := c_cf p + 1 in
  let cc := c_cc p - 1 in
  if cc <=? 0 then
    st ← free_block (block_of (cf - 1)) st;
    mret (c, Clist cc 0 0, st)
  else if at_end cf then
    n ← get_next (cf - CBLOCK) st;
    st ← free_block (cf - CBLOCK) st;
    mret (c, Clist cc (c_info n) (c_cl p), st)
  else mret (c, Clist cc cf (c_cl p), st).

Definition getc (p : clist) (st : cst) : res (Z * clist * cst) :=
  if c_cc p <=? 0 then mret (-1, Clist 0 0 0, st) else getc_front p st.

(** q_to_b()'s loop: the characters moved, the list and the storage. *)
Fixpoint q_to_b_loop (n : nat) (p : clist) (st : cst) : res (list Z * clist * cst) :=
  match n with
  | O => mret ([], p, st)
  | S n =>
      r ← getc_front p st;
      let '(c, p, st) := r in
      if c_cc p <=? 0 then mret ([c], p, st)
      else
        r ← q_to_b_loop n p st;
        mret (c :: r.1.1, r.1.2, r.2)
  end.

Definition q_to_b (p : clist) (cc : Z) (st : cst) : res (list Z * clist * cst) :=
  if cc <=? 0 then mret ([], p, st)
  else if c_cc p <=? 0 then mret ([], Clist 0 0 0, st)
  else q_to_b_loop (Z.to_nat cc) p st.

(** ndqb() *)
Fixpoint ndqb_scan (flag : Z) (n : nat) (a off : Z) (st : cst) : res (option Z) :=
  match n with
  | O => mret None
  | S n =>
      c ← rdc a st;
      if negb (Z.land (wraps 8 c) flag =? 0) then mret (Some off)
      else ndqb_scan flag n (a + 1) (off + 1) st
  end.
Definition ndqb (p : clist) (flag : Z) (st : cst) : res Z :=
  if c_cc p <=? 0 then mret (- c_cc p)
  else
    let cc := Z.land (c_cf p + CBSIZE) (Z.lnot CROUND) - c_cf p in
    let cc := if c_cc p <? cc then c_cc p else cc in
    if flag =? 0 then mret cc
    else
      r ← ndqb_scan flag (Z.to_nat cc) (c_cf p) 0 st;
      mret (match r with Some n => n | None => cc end).

(** ndflush(): one round per block. *)
Fixpoint ndflush_loop (fuel : nat) (p : clist) (cc : Z) (st : cst) : res (clist * cst) :=
  if (0 <? cc) && negb (c_cc p =? 0) then
    match fuel with
    | O => Fault
    | S fuel =>
        let bp := block_of (c_cf p) in
        let fin := if bp =? block_of (c_cl p - 1) then c_cl p else bp + CBLOCK in
        let rem := fin - c_cf p in
        if rem <=? cc then
          n ← get_next bp st;
          st ← free_block bp st;
          ndflush_loop fuel (Clist (c_cc p - rem) (c_info n) (c_cl p)) (cc - rem) st
        else
          let p := Clist (c_cc p - cc) (c_cf p + cc) (c_cl p) in
          if c_cc p <=? 0 then st ← free_block bp st; mret (p, st) else mret (p, st)
    end
  else mret (p, st).
Definition ndflush (fuel : nat) (p : clist) (cc : Z) (st : cst) : res (clist * cst) :=
  if c_cc p <=? 0 then mret (p, st)
  else
    r ← ndflush_loop fuel p cc st;
    mret (if c_cc r.1 <=? 0 then (Clist 0 0 0, r.2) else r).

(** The pointer the next character goes to, in a list whose last block may be full:
    [None] when a block is needed and there is none. *)
Definition grow (cp : Z) (st : cst) : res (option Z * cst) :=
  if at_end cp then
    st ← set_next (cp - CBLOCK) (cfreelist st) st;
    r ← take_block st;
    match r with
    | None => mret (None, st)
    | Some (bp, st) => mret (Some (c_info bp), st)
    end
  else mret (Some cp, st).

(** putc(): 0, or -1 when there is no room. *)
Definition putc (c : Z) (p : clist) (st : cst) : res (Z * clist * cst) :=
  if (c_cl p =? 0) || (c_cc p <? 0) then
    r ← take_block st;
    match r with
    | None => mret (-1, p, st)
    | Some (bp, st) =>
        st ← wrc (c_info bp) c st;
        mret (0, Clist (c_cc p + 1) (c_info bp) (c_info bp + 1), st)
    end
  else
    r ← grow (c_cl p) st;
    match r with
    | (None, st) => mret (-1, p, st)
    | (Some cp, st) => st ← wrc cp c st; mret (0, Clist (c_cc p + 1) (c_cf p) (cp + 1), st)
    end.

(** b_to_q()'s loop: the pointer after the last character, and the characters left over. *)
Fixpoint b_to_q_loop (cq : Z) (cs : list Z) (st : cst) : res (Z * list Z * cst) :=
  match cs with
  | [] => mret (cq, [], st)
  | c :: cs' =>
      r ← grow cq st;
      match r with
      | (None, st) => mret (cq, cs, st)
      | (Some cq, st) => st ← wrc cq c st; b_to_q_loop (cq + 1) cs' st
      end
  end.

(** b_to_q(): the number of characters not moved. *)
Definition b_to_q (cs : list Z) (q : clist) (st : cst) : res (Z * clist * cst) :=
  match cs with
  | [] => mret (0, q, st)
  | _ =>
      let acc := Z.of_nat (length cs) in
      start ← (if (c_cl q =? 0) || (c_cc q <? 0) then
                 r ← take_block st;
                 mret (match r with
                       | None => None
                       | Some (bp, st) => Some (c_info bp, Clist (c_cc q) (c_info bp) (c_cl q), st)
                       end)
               else mret (Some (c_cl q, q, st)));
      match start with
      | None => mret (acc, q, st)
      | Some (cq, q, st) =>
          r ← b_to_q_loop cq cs st;
          let left := Z.of_nat (length r.1.2) in
          mret (left, Clist (c_cc q + (acc - left)) (c_cf q) r.1.1, r.2)
      end
  end.

(** nextc(): 0 is the NULL pointer. *)
Definition nextc (p : clist) (cp : Z) (st : cst) : res Z :=
  if c_cc p =? 0 then mret 0
  else if cp + 1 =? c_cl p then mret 0
  else if at_end (cp + 1) then n ← get_next (cp + 1 - CBLOCK) st; mret (c_info n)
  else mret (cp + 1).

(** unputc()'s search for the block before [cl]. *)
Fixpoint find_prev (fuel : nat) (bp cl : Z) (st : cst) : res Z :=
  match fuel with
  | O => Fault
  | S fuel => n ← get_next bp st; if n =? cl then mret bp else find_prev fuel n cl st
  end.

Definition unputc (fuel : nat) (p : clist) (st : cst) : res (Z * clist * cst) :=
  if c_cc p <=? 0 then mret (-1, p, st)
  else
    let cl := c_cl p - 1 in
    c ← rdc cl st;
    let cc := c_cc p - 1 in
    if cc <=? 0 then
      st ← give_block (block_of cl) st;
      mret (wraps 8 c, Clist cc 0 0, st)
    else if Z.land cl CROUND =? 4 then
      let cl := Z.land cl (Z.lnot CROUND) in
      obp ← find_prev fuel (block_of (c_cf p)) cl st;
      bp ← get_next obp st;
      st ← give_block bp st;
      st ← set_next obp 0 st;
      mret (wraps 8 c, Clist cc (c_cf p) (obp + CBLOCK), st)
    else mret (wraps 8 c, Clist cc (c_cf p) cl, st).

(** catq() *)
Fixpoint catq (fuel : nat) (from to : clist) (st : cst) : res (clist * clist * cst) :=
  match fuel with
  | O => Fault
  | S fuel =>
      r ← getc from st;
      let '(c, from, st) := r in
      if c <? 0 then mret (from, to, st)
      else
        r ← putc c to st;
        catq fuel from r.1.2 r.2
  end.

(** ** Character lists: the queue of characters behind the cblocks

    [qrep] reads a chain of cblocks as a list of characters, [chain] the free list; every
    operation is the corresponding operation on the list, takes blocks from the free list
    or gives them back, and touches no block of another list. *)

(** ** Addresses *)

Definition aligned (b : Z) : Prop := 0 < b /\ b mod 32 = 0.

Lemma land_cround a : Z.land a CROUND = a mod 32.
Proof. unfold CROUND. change 0x1f with (Z.ones 5). by rewrite Z.land_ones by lia. Qed.

Lemma block_of_eq a : block_of a = a - a mod 32.
Proof.
  unfold block_of, CROUND. change 0x1f with (Z.ones 5).
  rewrite <- Z.ldiff_land, Z.ldiff_ones_r, Z.shiftl_mul_pow2, Z.shiftr_div_pow2 by lia.
  change (2 ^ 5) with 32. pose proof (Z.div_mod a 32). lia.
Qed.

Lemma mod_block b o : aligned b -> 0 <= o < 32 -> (b + o) mod 32 = o.
Proof.
  intros [_ Hb] Ho. rewrite Z.add_mod, Hb by lia. rewrite Z.add_0_l, Z.mod_mod by lia.
  by apply Z.mod_small.
Qed.

Lemma block_of_in b a : aligned b -> b <= a < b + 32 -> block_of a = b.
Proof.
  intros Hb Ha. rewrite block_of_eq. replace a with (b + (a - b)) by lia.
  rewrite mod_block by (done || lia). lia.
Qed.

Lemma at_end_in b a : aligned b -> b < a < b + 32 -> at_end a = false.
Proof.
  intros Hb Ha. unfold at_end. rewrite land_cround. replace a with (b + (a - b)) by lia.
  rewrite mod_block by (done || lia). lia.
Qed.

Lemma at_end_end b : aligned b -> at_end (b + 32) = true.
Proof.
  intros [_ Hb]. unfold at_end. rewrite land_cround.
  replace (b + 32) with (b + 1 * 32) by lia. rewrite Z.mod_add, Hb by lia. done.
Qed.

Lemma blocks_apart b b' a : aligned b -> aligned b' -> b <> b' ->
  b <= a < b + 32 -> ~ (b' <= a < b' + 32).
Proof. intros Hb Hb' Hne H H'. rewrite <- (block_of_in b a), (block_of_in b' a) in Hne; done. Qed.

(** ** The representation *)

Fixpoint chars (m : gmap Z Z) (a : Z) (bs : list Z) : Prop :=
  match bs with
  | [] => True
  | c :: bs => m !! a = Some c /\ chars m (a + 1) bs
  end.

(** The characters from [cf] to [cl] along the blocks [blks]. *)
Fixpoint qrep (st : cst) (cf cl : Z) (blks : list Z) (bs : list Z) : Prop :=
  match blks with
  | [] => False
  | b :: rest =>
      aligned b /\
      match rest with
      | [] => b + 4 <= cf /\ cf < cl <= b + 32 /\ cnext st !! b = Some 0 /\
              chars (cmem st) cf bs /\ Z.of_nat (length bs) = cl - cf
      | b' :: _ =>
          b + 4 <= cf < b + 32 /\ cnext st !! b = Some b' /\
          exists bs1 bs2, bs = bs1 ++ bs2 /\ chars (cmem st) cf bs1 /\
            Z.of_nat (length bs1) = b + 32 - cf /\ qrep st (b' + 4) cl rest bs2
      end
  end.

(** A whole list: empty, or a chain of blocks. *)
Definition clist_rep (st : cst) (p : clist) (blks : list Z) (bs : list Z) : Prop :=
  c_cc p = Z.of_nat (length bs) /\
  match bs with
  | [] => p = Clist 0 0 0 /\ blks = []
  | _ => qrep st (c_cf p) (c_cl p) blks bs
  end.

(** The free list. *)
Fixpoint chain (nx : gmap Z Z) (b : Z) (bl : list Z) : Prop :=
  match bl with
  | [] => b = 0
  | x :: bl => b = x /\ aligned x /\ exists n, nx !! x = Some n /\ chain nx n bl
  end.

(** Every block has its 28 characters of storage. *)
Definition storage (st : cst) (b : Z) : Prop :=
  (exists n, cnext st !! b = Some n) /\ forall a, b + 4 <= a < b + 32 -> exists c, cmem st !! a = Some c /\ 0 <= c < 256.

(** The pool, seen from one list: its blocks [blks], the free ones [fl], and the blocks [oth]
    of the other lists. *)
Record pool_wf (st : cst) (blks fl oth : list Z) : Prop := PoolWf {
  po_nd : NoDup (blks ++ fl ++ oth);
  po_al : Forall aligned (blks ++ fl ++ oth);
  po_st : Forall (storage st) (blks ++ fl ++ oth);
  po_free : chain (cnext st) (cfreelist st) fl;
  po_count : cfreecount st = CBSIZE * Z.of_nat (length fl)
}.

(** The other lists' blocks are as they were. *)
Definition untouched (st st' : cst) (oth : list Z) : Prop :=
  Forall (fun b => cnext st' !! b = cnext st !! b /\
                   forall a, b + 4 <= a < b + 32 -> cmem st' !! a = cmem st !! a) oth.

Lemma untouched_refl st oth : untouched st st oth.
Proof. apply Forall_forall. auto. Qed.

Lemma untouched_trans st1 st2 st3 oth : untouched st1 st2 oth -> untouched st2 st3 oth -> untouched st1 st3 oth.
Proof.
  unfold untouched. rewrite !Forall_forall. intros H1 H2 b Hb.
  destruct (H1 b Hb) as [E1 F1], (H2 b Hb) as [E2 F2]. split; [congruence|].
  intros a Ha. rewrite F2, F1; done.
Qed.

Lemma chars_frame m m' n a bs : Z.of_nat (length bs) <= n ->
  (forall x, a <= x < a + n -> m' !! x = m !! x) -> chars m a bs -> chars m' a bs.
Proof.
  revert n a. induction bs as [|c bs IH]; intros n a Hn Hm; simpl in *; [done|].
  intros [Hc Hbs]. split; [rewrite Hm; [done|lia]|].
  apply (IH (n - 1)); [lia| |done]. intros x ?. apply Hm. lia.
Qed.

Lemma chars_snoc m a bs c : chars m a (bs ++ [c]) <-> chars m a bs /\ m !! (a + Z.of_nat (length bs)) = Some c.
Proof.
  revert a. induction bs as [|x bs IH]; intros a; simpl.
  - rewrite Z.add_0_r. tauto.
  - rewrite IH. replace (a + 1 + Z.of_nat (length bs)) with (a + Z.of_nat (S (length bs))) by lia. tauto.
Qed.

(** [qrep] depends only on the blocks of the list. *)
Lemma qrep_frame st st' blks : forall cf cl bs,
  untouched st st' blks -> qrep st cf cl blks bs -> qrep st' cf cl blks bs.
Proof.
  induction blks as [|b rest IH]; intros cf cl bs Hu; [done|].
  apply Forall_cons in Hu as [[En Em] Hu]. cbn [qrep]. intros [Ha H]. split; [done|].
  destruct rest as [|b' rest].
  - destruct H as (?&?&?&Hc&?). rewrite En. split_and!; auto; try lia.
    apply (chars_frame (cmem st) _ (cl - cf)); [lia| |done]. intros x Hx. apply Em. lia.
  - destruct H as (?&?&bs1&bs2&->&Hc&?&Hq). rewrite En. split_and!; auto; try lia.
    exists bs1, bs2. split_and!; auto.
    apply (chars_frame (cmem st) _ (b + 32 - cf)); [lia| |done]. intros x Hx. apply Em. lia.
Qed.

Lemma qrep_nonempty st cf cl blks bs : qrep st cf cl blks bs -> bs <> [].
Proof.
  revert cf bs. induction blks as [|b rest IH]; intros cf bs; [done|]. cbn [qrep]. intros [_ H].
  destruct rest as [|b' rest].
  - intros ->. destruct H as (?&?&_&_&H). simpl in H. lia.
  - destruct H as (_&_&bs1&bs2&->&_&_&Hq). apply IH in Hq. by intros [_ ?]%app_eq_nil.
Qed.

Lemma chain_frame nx nx' bl b : Forall (fun x => nx' !! x = nx !! x) bl -> chain nx b bl -> chain nx' b bl.
Proof.
  intros H. revert b. induction H as [|x bl Hx _ IH]; intros b; simpl; [done|].
  intros (->&?&n&?&?). split_and!; auto. exists n. rewrite Hx. auto.
Qed.

(** ** Blocks taken and given back *)

Lemma pool_wf_perm st blks blks' fl oth : blks ≡ₚ blks' -> pool_wf st blks fl oth -> pool_wf st blks' fl oth.
Proof.
  intros Hp [H1 H2 H3 H4 H5]. split; auto.
  - by rewrite <- Hp. - by rewrite <- Hp. - by rewrite <- Hp.
Qed.

Lemma pool_in st blks fl oth b : pool_wf st blks fl oth -> b ∈ blks \/ b ∈ fl \/ b ∈ oth ->
  aligned b /\ storage st b.
Proof.
  intros [_ H2 H3 _ _] Hb. rewrite Forall_forall in H2, H3.
  assert (b ∈ blks ++ fl ++ oth) by (rewrite !elem_of_app; tauto). auto.
Qed.

Lemma give_block_spec st b blks fl oth : pool_wf st (b :: blks) fl oth ->
  exists st', give_block b st = Ok st' /\ pool_wf st' blks (b :: fl) oth /\ cmem st' = cmem st /\
    cnext st' = <[b := cfreelist st]> (cnext st) /\ cwaiting st' = cwaiting st.
Proof.
  intros Hw. destruct (pool_in _ _ _ _ b Hw) as [Hal [[n Hn] Hst]]; [left; left|].
  unfold give_block, set_next. rewrite Hn. kstep. eexists. split; [done|]. simpl. split_and!; auto.
  destruct Hw as [Hnd Hall Hsto Hfree Hcnt]. simpl in Hnd, Hall, Hsto.
  assert (b :: blks ++ fl ++ oth ≡ₚ blks ++ (b :: fl) ++ oth) as Hperm
    by (simpl; apply Permutation_middle).
  split; simpl.
  - by rewrite <- Hperm.
  - by rewrite <- Hperm.
  - rewrite <- Hperm. eapply Forall_impl; [exact Hsto|]. intros x [[m Hm] Hx]. split; [|done]. simpl.
    destruct (decide (x = b)) as [->|]; [exists (cfreelist st); by rewrite lookup_insert_eq|].
    exists m. by rewrite lookup_insert_ne.
  - split_and!; auto. exists (cfreelist st). rewrite lookup_insert_eq. split; [done|].
    eapply chain_frame; [|exact Hfree]. rewrite Forall_forall. intros x Hx.
    apply lookup_insert_ne. intros <-. apply NoDup_cons in Hnd as [Hni _].
    apply Hni. rewrite !elem_of_app. auto.
  - rewrite Hcnt. unfold CBSIZE. lia.
Qed.

Lemma wake_waiters_same st : cnext (wake_waiters st) = cnext st /\ cmem (wake_waiters st) = cmem st /\
  cfreelist (wake_waiters st) = cfreelist st /\ cfreecount (wake_waiters st) = cfreecount st.
Proof. unfold wake_waiters. by destruct (cwaiting st). Qed.

Lemma pool_wf_ext st st' blks fl oth : cnext st' = cnext st -> cmem st' = cmem st ->
  cfreelist st' = cfreelist st -> cfreecount st' = cfreecount st ->
  pool_wf st blks fl oth -> pool_wf st' blks fl oth.
Proof.
  intros E1 E2 E3 E4 [H1 H2 H3 H4 H5]. split; rewrite ?E1, ?E3, ?E4; auto.
  eapply Forall_impl; [exact H3|]. intros x Hx. unfold storage in *. by rewrite E1, E2.
Qed.

Lemma free_block_spec st b blks fl oth : pool_wf st (b :: blks) fl oth ->
  exists st', free_block b st = Ok st' /\ pool_wf st' blks (b :: fl) oth /\ cmem st' = cmem st /\
    cnext st' = <[b := cfreelist st]> (cnext st).
Proof.
  intros Hw. unfold free_block. destruct (give_block_spec _ _ _ _ _ Hw) as (st'&->&Hw'&Em&En&_). kstep.
  destruct (wake_waiters_same st') as (E1&E2&E3&E4). eexists. split; [done|].
  split; [by eapply pool_wf_ext|]. split; congruence.
Qed.

Lemma take_block_spec st blks fl oth : pool_wf st blks fl oth ->
  match fl with
  | [] => take_block st = Ok None
  | b :: fl' => exists st', take_block st = Ok (Some (b, st')) /\ pool_wf st' (b :: blks) fl' oth /\
      cmem st' = cmem st /\ cnext st' = <[b := 0]> (cnext st)
  end.
Proof.
  intros Hw. pose proof Hw as [Hnd Hall Hsto Hfree Hcnt]. unfold take_block.
  destruct fl as [|b fl]; simpl in Hfree; [by rewrite Hfree|].
  destruct Hfree as (Hb&Hal&n&Hn&Hch). rewrite Hb.
  rewrite (proj2 (Z.eqb_neq b 0)) by (destruct Hal; lia). unfold get_next. rewrite Hn. kstep.
  unfold set_next. simpl. rewrite Hn. kstep. eexists. split; [done|]. split_and!; auto.
  assert (b :: blks ++ fl ++ oth ≡ₚ blks ++ (b :: fl) ++ oth) as Hperm
    by (simpl; apply Permutation_middle).
  split; simpl.
  - by rewrite Hperm.
  - by rewrite Hperm.
  - rewrite Hperm. eapply Forall_impl; [exact Hsto|]. intros x [[m Hm] Hx]. split; [|done]. simpl.
    destruct (decide (x = b)) as [->|]; [exists 0; by rewrite lookup_insert_eq|].
    exists m. by rewrite lookup_insert_ne.
  - eapply chain_frame; [|exact Hch]. rewrite Forall_forall. intros x Hx.
    apply lookup_insert_ne. intros <-. rewrite <- Hperm in Hnd. apply NoDup_cons in Hnd as [Hni _].
    apply Hni. rewrite !elem_of_app. auto.
  - rewrite Hcnt. simpl length. unfold CBSIZE. lia.
Qed.

Lemma untouched_next st st' b n oth : b ∉ oth -> cmem st' = cmem st ->
  cnext st' = <[b := n]> (cnext st) -> untouched st st' oth.
Proof.
  intros Hb Em En. apply Forall_forall. intros x Hx. rewrite Em, En. split; [|done].
  apply lookup_insert_ne. by intros ->.
Qed.

Lemma pool_nd_oth st blks fl oth b : pool_wf st blks fl oth -> b ∈ blks \/ b ∈ fl -> b ∉ oth.
Proof.
  intros [Hnd _ _ _ _] Hb Ho. apply NoDup_app in Hnd as (_&H1&Hnd). apply NoDup_app in Hnd as (_&H2&_).
  destruct Hb as [Hb|Hb]; [apply (H1 _ Hb); apply elem_of_app; auto|by apply (H2 _ Hb)].
Qed.

Lemma pool_nd_head st b blks fl oth : pool_wf st (b :: blks) fl oth -> b ∉ blks.
Proof.
  intros [Hnd _ _ _ _]. apply NoDup_app in Hnd as [Hnd _]. by apply NoDup_cons in Hnd as [? _].
Qed.

(** ** The front of a list *)

Lemma getc_front_spec st p blks fl oth c bs :
  clist_rep st p blks (c :: bs) -> pool_wf st blks fl oth ->
  exists p' st' blks' fl', getc_front p st = Ok (c, p', st') /\ clist_rep st' p' blks' bs /\
    pool_wf st' blks' fl' oth /\ untouched st st' oth /\
    (length blks' + length fl' = length blks + length fl)%nat.
Proof.
  intros [Hcc Hq] Hw. simpl in Hcc. destruct blks as [|b rest]; [done|]. destruct Hq as [Hal Hq].
  unfold getc_front, rdc.
  pose proof (pool_nd_oth _ _ _ _ b Hw (or_introl (list_elem_of_here _ _))) as Hbo.
  destruct rest as [|b' rest].
  - destruct Hq as (Hlo&Hhi&Hn&[Hc Hbs]&Hlen). rewrite Hc. kstep. simpl in Hlen.
    destruct bs as [|c2 bs].
    + simpl in Hcc. rewrite Hcc. change (1 - 1 <=? 0) with true.
      replace (c_cf p + 1 - 1) with (c_cf p) by lia. rewrite (block_of_in b) by (done || (simpl in Hlen; lia)).
      destruct (free_block_spec _ _ _ _ _ Hw) as (st'&->&Hw'&Em&En). kstep.
      exists (Clist (1 - 1) 0 0), st', [], (b :: fl). split_and!; auto; [by split|by eapply untouched_next].
    + simpl length in *. replace (c_cc p - 1 <=? 0) with false by lia.
      rewrite (at_end_in b) by (done || lia).
      exists (Clist (c_cc p - 1) (c_cf p + 1) (c_cl p)), st, [b], fl.
      split_and!; auto using untouched_refl. split; [simpl; lia|]. cbn [qrep c_cf c_cl].
      split; [done|]. split; [lia|]. split; [lia|]. split; [done|]. split; [done|simpl; lia].
  - destruct Hq as (Hlo&Hn&bs1&bs2&Hbs&Hc1&Hl1&Hq).
    pose proof (qrep_nonempty _ _ _ _ _ Hq) as Hne.
    destruct bs1 as [|c1 bs1]; [simpl in Hl1; lia|]. injection Hbs as <- Hbs. destruct Hc1 as [Hc Hc1].
    rewrite Hc. kstep. simpl in Hl1.
    assert (0 < length bs2)%nat as Hl2 by (destruct bs2; [done|simpl; lia]).
    assert (length bs = length bs1 + length bs2)%nat as Hlb by (by rewrite Hbs, length_app).
    replace (c_cc p - 1 <=? 0) with false by lia.
    destruct bs1 as [|c2 bs1].
    + simpl in Hl1. replace (c_cf p + 1) with (b + 32) by lia. rewrite at_end_end by done.
      replace (b + 32 - CBLOCK) with b by (unfold CBLOCK; lia). unfold get_next. rewrite Hn. kstep.
      destruct (free_block_spec _ _ _ _ _ Hw) as (st'&->&Hw'&Em&En). kstep.
      exists (Clist (c_cc p - 1) (c_info b') (c_cl p)), st', (b' :: rest), (b :: fl).
      split_and!; auto; [|by eapply untouched_next|simpl; lia].
      split; [simpl; lia|]. simpl in Hbs. subst bs. destruct bs2 as [|x bs2]; [done|].
      apply (qrep_frame st); [|exact Hq].
      eapply (untouched_next _ _ b); [|exact Em|exact En].
      by apply (pool_nd_head _ _ _ _ _ Hw).
    + simpl length in *. rewrite (at_end_in b) by (done || lia).
      exists (Clist (c_cc p - 1) (c_cf p + 1) (c_cl p)), st, (b :: b' :: rest), fl.
      split_and!; auto using untouched_refl. split; [simpl; lia|]. simpl in Hbs.
      destruct bs as [|x bs]; [done|]. cbn [qrep c_cf c_cl]. split; [done|].
      split; [lia|]. split; [done|]. exists (c2 :: bs1), bs2.
      split; [done|]. split; [done|]. split; [simpl; lia|exact Hq].
Qed.

(** ** The back of a list *)

Lemma qrep_last st blks : forall cf cl bs, qrep st cf cl blks bs ->
  exists pre b, blks = pre ++ [b] /\ aligned b /\ b + 4 < cl <= b + 32 /\ cnext st !! b = Some 0.
Proof.
  induction blks as [|b rest IH]; intros cf cl bs; [done|]. cbn [qrep]. intros [Ha H].
  destruct rest as [|b' rest].
  - destruct H as (?&?&?&_). exists [], b. split_and!; auto; try lia; apply Ha.
  - destruct H as (_&_&bs1&bs2&_&_&_&Hq). destruct (IH _ _ _ Hq) as (pre&bl&->&?).
    by exists (b :: pre), bl.
Qed.

Definition set_mem (st : cst) (a v : Z) : cst :=
  Cst (cnext st) (<[a := v]> (cmem st)) (cfreelist st) (cfreecount st) (cwaiting st) (cwakeups st).

Lemma qrep_push_room st v b pre : forall cf cl bs,
  qrep st cf cl (pre ++ [b]) bs -> cl < b + 32 -> NoDup (pre ++ [b]) ->
  qrep (set_mem st cl v) cf (cl + 1) (pre ++ [b]) (bs ++ [v]).
Proof.
  induction pre as [|b0 pre IH]; intros cf cl bs Hq Hcl Hnd.
  - destruct Hq as (Ha&?&?&?&Hc&Hl). split; [done|]. simpl. split; [lia|]. split; [lia|]. split; [done|].
    split; [|rewrite length_app; simpl; lia]. apply chars_snoc. split.
    + apply (chars_frame (cmem st) _ (cl - cf)); [lia| |done]. intros x ?.
      apply lookup_insert_ne. lia.
    + rewrite Hl. replace (cf + (cl - cf)) with cl by lia. apply lookup_insert_eq.
  - destruct (qrep_last _ _ _ _ _ Hq) as (pre'&b1&E&Hab&Hcl1&_).
    change ((b0 :: pre) ++ [b]) with ((b0 :: pre) ++ [b]) in E. apply app_inj_tail in E as [_ <-].
    simpl in Hnd. apply NoDup_cons in Hnd as [Hni Hnd].
    cbn [qrep app] in Hq |- *. destruct Hq as [Ha H]. split; [done|].
    destruct (pre ++ [b]) as [|b' rest] eqn:Er; [by destruct pre|].
    destruct H as (?&?&bs1&bs2&->&Hc&Hl&Hq). split; [lia|]. split; [done|].
    exists bs1, (bs2 ++ [v]). rewrite app_assoc. split; [done|].
    split; [|split; [done|]].
    + apply (chars_frame (cmem st) _ (b0 + 32 - cf)); [lia| |done]. intros x Hx. simpl.
      apply lookup_insert_ne. intros <-.
      assert (b0 <> b) as Hne.
      { intros ->. apply Hni. rewrite <- Er. apply elem_of_app. right. left. }
      apply (blocks_apart b0 b cl Ha Hab Hne); lia.
    + rewrite <- Er in *. by apply IH.
Qed.

Lemma qrep_push_block st st' v b nb pre : forall cf bs,
  qrep st cf (b + 32) (pre ++ [b]) bs -> NoDup (pre ++ [b]) -> nb ∉ pre ++ [b] -> aligned nb ->
  cnext st' = <[nb := 0]> (<[b := nb]> (cnext st)) -> cmem st' = <[nb + 4 := v]> (cmem st) ->
  qrep st' cf (nb + 5) (pre ++ [b; nb]) (bs ++ [v]).
Proof.
  induction pre as [|b0 pre IH]; intros cf bs Hq Hnd Hnb Han En Em.
  - destruct Hq as (Ha&?&?&?&Hc&Hl). simpl in Hnb. assert (b <> nb) as Hne by (intros ->; apply Hnb; left).
    cbn [qrep app]. split; [done|]. split; [lia|].
    split; [by rewrite En, lookup_insert_ne, lookup_insert_eq|].
    exists bs, [v]. split; [done|]. split; [|split; [lia|]].
    + apply (chars_frame (cmem st) _ (b + 32 - cf)); [lia| |done]. intros x Hx. rewrite Em.
      apply lookup_insert_ne. intros <-. apply (blocks_apart b nb (nb + 4) Ha Han Hne); lia.
    + split; [done|]. split; [lia|]. split; [lia|]. rewrite En, lookup_insert_eq, Em. split; [done|].
      simpl. rewrite lookup_insert_eq. split; [done|lia].
  - destruct (qrep_last _ _ _ _ _ Hq) as (pre'&b1&E&Hab&_&_). apply app_inj_tail in E as [_ <-].
    simpl in Hnd, Hnb. apply NoDup_cons in Hnd as [Hni Hnd].
    cbn [qrep app] in Hq |- *. destruct Hq as [Ha H]. split; [done|].
    destruct (pre ++ [b]) as [|b' rest] eqn:Er; [by destruct pre|].
    destruct (pre ++ [b; nb]) as [|b'' rest'] eqn:Er'; [by destruct pre|].
    assert (b'' = b') as -> by (destruct pre; simpl in Er, Er'; congruence).
    destruct H as (?&?&bs1&bs2&->&Hc&Hl&Hq).
    assert (b0 <> nb) as Hne by (intros ->; apply Hnb; left).
    assert (b0 <> b) as Hne' by (intros ->; apply Hni; rewrite <- Er; apply elem_of_app; right; left).
    split; [lia|]. split; [by rewrite En, !lookup_insert_ne|].
    exists bs1, (bs2 ++ [v]). rewrite app_assoc. split; [done|]. split; [|split; [done|]].
    + apply (chars_frame (cmem st) _ (b0 + 32 - cf)); [lia| |done]. intros x Hx. rewrite Em.
      apply lookup_insert_ne. intros <-. apply (blocks_apart b0 nb (nb + 4) Ha Han Hne); lia.
    + apply (IH (b' + 4) bs2); auto. intros Hin. apply Hnb. by right.
Qed.

Lemma u8_range c : 0 <= u8 c < 256.
Proof. apply (wrapu_range 8). lia. Qed.

Lemma pool_set_mem st a c blks fl oth : pool_wf st blks fl oth -> pool_wf (set_mem st a (u8 c)) blks fl oth.
Proof.
  intros [H1 H2 H3 H4 H5]. split; auto. eapply Forall_impl; [exact H3|]. intros x [Hx1 Hx2].
  split; [exact Hx1|]. intros y Hy. simpl. destruct (decide (y = a)) as [->|].
  - exists (u8 c). rewrite lookup_insert_eq. split; [done|apply u8_range].
  - rewrite lookup_insert_ne by done. auto.
Qed.

Lemma wrc_Ok st a c b : storage st b -> b + 4 <= a < b + 32 -> wrc a c st = Ok (set_mem st a (u8 c)).
Proof. intros [_ H] Ha. destruct (H a Ha) as (x&Hx&_). unfold wrc. by rewrite Hx. Qed.

Lemma pool_set_next st b n blks fl oth : pool_wf st blks fl oth -> b ∈ blks ->
  exists st', set_next b n st = Ok st' /\ pool_wf st' blks fl oth /\ cmem st' = cmem st /\
    cnext st' = <[b := n]> (cnext st) /\ cfreelist st' = cfreelist st.
Proof.
  intros Hw Hb. destruct (pool_in _ _ _ _ b Hw (or_introl Hb)) as [_ [[m Hm] _]].
  unfold set_next. rewrite Hm. eexists. split; [done|]. simpl. split; [|auto].
  destruct Hw as [H1 H2 H3 H4 H5]. split; simpl; auto.
  - eapply Forall_impl; [exact H3|]. intros x [[k Hk] Hx]. split; [|done]. simpl.
    destruct (decide (x = b)) as [->|]; [exists n; by rewrite lookup_insert_eq|].
    exists k. by rewrite lookup_insert_ne.
  - eapply chain_frame; [|exact H4]. rewrite Forall_forall. intros x Hx. apply lookup_insert_ne.
    intros <-. apply NoDup_app in H1 as (_&H1&_). apply (H1 _ Hb), elem_of_app. by left.
Qed.

Lemma untouched_mem st a v b oth : aligned b -> Forall aligned oth -> b ∉ oth -> b <= a < b + 32 ->
  untouched st (set_mem st a v) oth.
Proof.
  intros Hb Ho Hn Ha. unfold untouched. rewrite Forall_forall in *. intros x Hx. split; [done|].
  intros y Hy. simpl. apply lookup_insert_ne. intros <-.
  apply (blocks_apart b x a Hb (Ho _ Hx)); [by intros ->|lia|lia].
Qed.

Lemma grow_spec st cf cl blks bs fl oth :
  qrep st cf cl blks bs -> pool_wf st blks fl oth ->
  if at_end cl && bool_decide (fl = []) then exists st', grow cl st = Ok (None, st') /\
     pool_wf st' blks fl oth /\ qrep st' cf cl blks bs /\ untouched st st' oth
  else exists cp st1 blks' fl', grow cl st = Ok (Some cp, st1) /\
     (length blks' + length fl' = length blks + length fl)%nat /\
     forall c, exists st2, wrc cp c st1 = Ok st2 /\ qrep st2 cf (cp + 1) blks' (bs ++ [u8 c]) /\
       pool_wf st2 blks' fl' oth /\ untouched st st2 oth.
Proof.
  intros Hq Hw. destruct (qrep_last _ _ _ _ _ Hq) as (pre&b&->&Hal&Hcl&Hnx).
  assert (b ∈ pre ++ [b]) as Hbin by (apply elem_of_app; right; left).
  pose proof (pool_nd_oth _ _ _ _ b Hw (or_introl Hbin)) as Hbo.
  destruct (pool_in _ _ _ _ b Hw (or_introl Hbin)) as [_ Hst].
  assert (Forall aligned oth) as Hao.
  { destruct Hw as [_ H _ _ _]. apply Forall_app in H as [_ H]. by apply Forall_app in H as [_ ?]. }
  assert (NoDup (pre ++ [b])) as Hnd by (destruct Hw as [H _ _ _ _]; by apply NoDup_app in H as [? _]).
  unfold grow. destruct (decide (cl = b + 32)) as [->|Hne].
  - rewrite at_end_end by done. replace (b + 32 - CBLOCK) with b by (unfold CBLOCK; lia). simpl andb.
    destruct (pool_set_next st b (cfreelist st) _ _ _ Hw Hbin) as (st1&->&Hw1&Em1&En1&_). kstep.
    pose proof (take_block_spec _ _ _ _ Hw1) as Ht. destruct fl as [|nb fl].
    + change (bool_decide (@nil Z = [])) with true. cbn iota.
      rewrite Ht. kstep. exists st1. split; [done|]. split; [done|]. split; [|by eapply untouched_next].
      apply (qrep_frame st); [|exact Hq]. apply Forall_forall. intros x Hx. rewrite Em1, En1. split; [|done].
      destruct Hw as [_ _ _ Hf _]. simpl in Hf. rewrite Hf, insert_id by done. done.
    + rewrite bool_decide_eq_false_2 by done. cbn iota.
      destruct Ht as (st2&->&Hw2&Em2&En2). kstep.
      assert (nb ∉ pre ++ [b]) as Hnb by (by apply (pool_nd_head _ _ _ _ _ Hw2)).
      destruct (pool_in _ _ _ _ nb Hw2) as [Han Hsn]; [left; left|].
      exists (c_info nb), st2, ((pre ++ [b]) ++ [nb]), fl. split; [done|].
      split; [rewrite !length_app; simpl; lia|]. intros c.
      rewrite (wrc_Ok _ _ _ nb Hsn) by (unfold c_info; lia). eexists. split; [done|].
      assert (cfreelist st = nb) as Efl by (destruct Hw as [_ _ _ [Hf _] _]; exact Hf).
      split; [|split].
      * replace (c_info nb + 1) with (nb + 5) by (unfold c_info; lia). rewrite <- app_assoc.
        apply (qrep_push_block st _ (u8 c) b nb pre cf bs); auto; simpl.
        -- by rewrite En2, En1, Efl. -- by rewrite Em2, Em1.
      * apply pool_set_mem. eapply pool_wf_perm; [|exact Hw2]. apply Permutation_cons_append.
      * assert (nb ∉ oth) as Hno by (apply (pool_nd_oth _ _ _ _ nb Hw2); left; left).
        eapply untouched_trans; [by eapply (untouched_next st st1 b)|].
        eapply untouched_trans; [by eapply (untouched_next st1 st2 nb)|].
        apply (untouched_mem _ _ _ nb); auto. unfold c_info. lia.
  - rewrite (at_end_in b) by (done || lia). simpl andb. cbn iota.
    exists cl, st, (pre ++ [b]), fl. split; [done|]. split; [done|]. intros c.
    rewrite (wrc_Ok _ _ _ b Hst) by lia. eexists. split; [done|].
    split; [apply qrep_push_room; auto; lia|]. split; [by apply pool_set_mem|].
    apply (untouched_mem _ _ _ b); auto. lia.
Qed.

(** ** Taking the last character back *)

Lemma qrep_pop_room st c b pre : forall cf cl bs,
  qrep st cf cl (pre ++ [b]) (bs ++ [c]) -> (pre = [] -> cf < cl - 1) -> b + 4 < cl - 1 ->
  qrep st cf (cl - 1) (pre ++ [b]) bs /\ cmem st !! (cl - 1) = Some c.
Proof.
  induction pre as [|b0 pre IH]; intros cf cl bs Hq H1 H2.
  - destruct Hq as (Ha&?&?&?&Hc&Hl). rewrite length_app in Hl. simpl in Hl.
    apply chars_snoc in Hc as [Hc Hlast]. split.
    + split; [done|]. split; [lia|]. split; [specialize (H1 eq_refl); lia|]. split; [done|]. split; [done|lia].
    + rewrite <- Hlast. f_equal. lia.
  - cbn [qrep app] in Hq |- *. destruct Hq as [Ha H].
    destruct (pre ++ [b]) as [|b' rest] eqn:Er; [by destruct pre|].
    destruct H as (?&?&bs1&bs2&Hbs&Hc&Hl&Hq). pose proof (qrep_nonempty _ _ _ _ _ Hq) as Hne.
    destruct (exists_last' bs2) as [->|(bs3&x&->)]; [done|].
    rewrite app_assoc in Hbs. apply app_inj_tail in Hbs as [-> <-].
    apply IH in Hq as [Hq Hm]; [|intros ->; simpl in Er; injection Er as -> _; lia|lia].
    split; [|done]. split; [done|]. split; [lia|]. split; [done|].
    exists bs1, bs3. auto.
Qed.

Lemma qrep_pop_block st st' c pb b pre : forall cf bs,
  qrep st cf (b + 5) (pre ++ [pb; b]) (bs ++ [c]) -> NoDup (pre ++ [pb; b]) ->
  (forall x, x ∈ pre -> cnext st' !! x = cnext st !! x) -> cnext st' !! pb = Some 0 ->
  cmem st' = cmem st -> qrep st' cf (pb + 32) (pre ++ [pb]) bs.
Proof.
  induction pre as [|b0 pre IH]; intros cf bs Hq Hnd Hnx Hpb Em.
  - destruct Hq as (Ha&?&?&bs1&bs2&Hbs&Hc&Hl&(_&?&?&_&_&Hl2)).
    assert (length bs2 = 1%nat) as El by lia. destruct bs2 as [|x [|y bs2]]; simplify_eq/=.
    apply app_inj_tail in Hbs as [-> <-].
    split; [done|]. split; [lia|]. split; [lia|]. split; [done|]. rewrite Em. split; [done|lia].
  - cbn [qrep app] in Hq |- *. destruct Hq as [Ha H]. simpl in Hnd. apply NoDup_cons in Hnd as [Hni Hnd].
    destruct (pre ++ [pb; b]) as [|b' rest] eqn:Er; [by destruct pre|].
    destruct (pre ++ [pb]) as [|b'' rest'] eqn:Er'; [by destruct pre|].
    assert (b'' = b') as -> by (destruct pre; simpl in Er, Er'; congruence).
    destruct H as (?&?&bs1&bs2&Hbs&Hc&Hl&Hq). pose proof (qrep_nonempty _ _ _ _ _ Hq) as Hne.
    destruct (exists_last' bs2) as [->|(bs3&x&->)]; [done|].
    rewrite app_assoc in Hbs. apply app_inj_tail in Hbs as [-> <-].
    split; [done|]. split; [lia|]. split; [rewrite Hnx; [done|left]|].
    exists bs1, bs3. rewrite Em. split; [done|]. split; [done|]. split; [done|].
    apply IH; auto. intros y Hy. apply Hnx. by right.
Qed.

Lemma find_prev_spec st cl pb b pre : forall cf bs fuel x,
  qrep st cf cl (pre ++ [pb; b]) bs -> NoDup (pre ++ [pb; b]) -> (length pre < fuel)%nat ->
  hd_error (pre ++ [pb]) = Some x -> find_prev fuel x b st = Ok pb.
Proof.
  induction pre as [|b0 pre IH]; intros cf bs fuel x Hq Hnd Hf Hx; (destruct fuel as [|fuel]; [lia|]).
  - injection Hx as <-. destruct Hq as (_&_&Hn&_). simpl. unfold get_next. rewrite Hn. kstep.
    by rewrite Z.eqb_refl.
  - injection Hx as <-. cbn [qrep app] in Hq. destruct Hq as [_ H]. simpl in Hnd.
    apply NoDup_cons in Hnd as [Hni Hnd].
    destruct (pre ++ [pb; b]) as [|b' rest] eqn:Er; [by destruct pre|].
    destruct H as (_&Hn&bs1&bs2&_&_&_&Hq). cbn [find_prev]. unfold get_next at 1. rewrite Hn. kstep.
    assert (hd_error (pre ++ [pb]) = Some b') as Hb' by (destruct pre; simpl in *; congruence).
    assert (b' <> b) as Hne.
    { intros ->. destruct pre as [|y pre]; simpl in Er; injection Er as -> <-.
      - apply NoDup_cons in Hnd as [H _]. apply H. left.
      - apply NoDup_cons in Hnd as [H _]. apply H. apply elem_of_app. right. right. left. }
    rewrite (proj2 (Z.eqb_neq _ _) Hne). eapply IH; eauto. simpl in Hf. lia.
Qed.

(** ** Flushing *)

Lemma chars_drop m a bs n : chars m a bs -> chars m (a + Z.of_nat n) (drop n bs).
Proof.
  revert a bs. induction n as [|n IH]; intros a bs; [by rewrite Z.add_0_r|].
  destruct bs as [|c bs]; [done|]. intros [_ H]. apply IH in H. cbn [drop].
  by replace (a + Z.of_nat (S n)) with (a + 1 + Z.of_nat n) by lia.
Qed.

(** Skipping characters within the first block. *)
Lemma qrep_skip st cf cl b rest bs n : qrep st cf cl (b :: rest) bs -> 0 <= n ->
  cf + n < (match rest with [] => cl | _ => b + 32 end) ->
  qrep st (cf + n) cl (b :: rest) (drop (Z.to_nat n) bs).
Proof.
  cbn [qrep]. intros [Ha H] Hn Hlt. split; [done|]. destruct rest as [|b' rest].
  - destruct H as (?&?&?&Hc&Hl). split; [lia|]. split; [lia|]. split; [done|]. split.
    + rewrite <- (Z2Nat.id n) at 1 by lia. by apply chars_drop.
    + rewrite length_drop. lia.
  - destruct H as (?&?&bs1&bs2&->&Hc&Hl&Hq). split; [lia|]. split; [done|].
    exists (drop (Z.to_nat n) bs1), bs2. split; [rewrite drop_app_le by lia; done|]. split; [|split].
    + rewrite <- (Z2Nat.id n) at 1 by lia. by apply chars_drop.
    + rewrite length_drop. lia.
    + done.
Qed.

Lemma ndflush_loop_spec oth : forall blks fuel p cc st bs fl,
  (length blks <= fuel)%nat -> qrep st (c_cf p) (c_cl p) blks bs -> c_cc p = Z.of_nat (length bs) ->
  pool_wf st blks fl oth -> 0 <= cc ->
  exists p' st' blks' fl', ndflush_loop fuel p cc st = Ok (p', st') /\
    pool_wf st' blks' fl' oth /\ untouched st st' oth /\
    c_cc p' = Z.of_nat (length (drop (Z.to_nat cc) bs)) /\
    match drop (Z.to_nat cc) bs with
    | [] => blks' = []
    | bs' => qrep st' (c_cf p') (c_cl p') blks' bs'
    end.
Proof.
  induction blks as [|b rest IH]; intros fuel p cc st bs fl Hf Hq Hcc Hw Hc0; [done|].
  pose proof (qrep_nonempty _ _ _ _ _ Hq) as Hne.
  destruct fuel as [|fuel]; [simpl in Hf; lia|]. cbn [ndflush_loop].
  assert (c_cc p <> 0) as Hcn by (destruct bs; [done|simpl in Hcc; lia]).
  rewrite (proj2 (Z.eqb_neq _ _) Hcn). destruct (Z.ltb_spec 0 cc) as [Hc|Hc]; simpl negb; simpl andb; cbn iota.
  2: { replace cc with 0 by lia. exists p, st, (b :: rest), fl. split_and!; auto using untouched_refl.
       simpl. destruct bs; [done|exact Hq]. }
  pose proof Hq as [Hal Hq']. destruct (qrep_last _ _ _ _ _ Hq) as (pre&bl&Ebl&Halb&Hcl&Hnl).
  rewrite (block_of_in bl (c_cl p - 1)) by (done || lia).
  assert (b + 4 <= c_cf p < b + 32) as Hcf.
  { destruct rest; [destruct Hq' as (?&?&_); simplify_list_eq; lia|by destruct Hq' as (?&_)]. }
  rewrite (block_of_in b (c_cf p)) by (done || lia).
  assert ((b =? bl) = match rest with [] => true | _ => false end) as Ebb.
  { destruct rest as [|b' rest].
    - destruct pre as [|? [|]]; simplify_list_eq. apply Z.eqb_refl.
    - apply Z.eqb_neq. intros ->. pose proof (pool_nd_head _ _ _ _ _ Hw) as Hni. apply Hni.
      destruct pre as [|x pre]; [done|]. injection Ebl as _ ->. apply elem_of_app. right. left. }
  rewrite Ebb.
  set (fin := if (match rest with [] => true | _ :: _ => false end) then c_cl p else b + CBLOCK).
  assert (fin = match rest with [] => c_cl p | _ => b + 32 end) as Efin by (unfold fin, CBLOCK; by destruct rest).
  assert (c_cf p < fin) as Hrem.
  { rewrite Efin. destruct rest; [|lia]. destruct Hq' as (?&?&_). lia. }
  assert (fin - c_cf p <= Z.of_nat (length bs) /\
    (rest = [] -> fin - c_cf p = Z.of_nat (length bs))) as [Hrl Hrl'].
  { rewrite Efin. destruct rest as [|b' rest].
    - destruct Hq' as (?&?&_&_&?). split; [lia|intros; lia].
    - destruct Hq' as (_&_&bs1&bs2&->&_&?&_). rewrite length_app. split; [lia|done]. }
  destruct (Z.leb_spec (fin - c_cf p) cc) as [Hle|Hgt].
  - assert (exists n, cnext st !! b = Some n /\ match rest with [] => n = 0 | b' :: _ => n = b' end) as (n&Hn&Hnr).
    { destruct rest; [exists 0; by destruct Hq' as (_&_&?&_)|]. destruct Hq' as (_&?&_). eauto. }
    unfold get_next. rewrite Hn. kstep.
    destruct (free_block_spec _ _ _ _ _ Hw) as (st1&->&Hw1&Em1&En1). kstep.
    assert (untouched st st1 oth) as Hut.
    { eapply untouched_next; eauto. apply (pool_nd_oth _ _ _ _ b Hw). left. left. }
    destruct rest as [|b' rest].
    + specialize (Hrl' eq_refl). replace (c_cc p - (fin - c_cf p)) with 0 by lia.
      assert (drop (Z.to_nat cc) bs = []) as -> by (apply drop_ge; lia).
      destruct fuel; cbn [ndflush_loop c_cc]; rewrite andb_false_r;
        eexists _, st1, [], (b :: fl); split_and!; try done.
    + destruct Hq' as (_&_&bs1&bs2&->&_&Hl1&Hq2). subst n.
      assert (qrep st1 (c_info b') (c_cl p) (b' :: rest) bs2) as Hq3.
      { apply (qrep_frame st); [|exact Hq2]. eapply (untouched_next _ _ b); eauto.
        by apply (pool_nd_head _ _ _ _ _ Hw). }
      rewrite length_app in Hcc.
      destruct (IH fuel (Clist (c_cc p - (fin - c_cf p)) (c_info b') (c_cl p)) (cc - (fin - c_cf p)) st1 bs2 (b :: fl))
        as (p'&st'&blks'&fl'&->&Hw'&Hut'&Hcc'&Hrep); auto; try (simpl in *; lia).
      exists p', st', blks', fl'. split_and!; auto; [by eapply untouched_trans| |].
      * rewrite Hcc', !length_drop, length_app. lia.
      * rewrite drop_app_ge by lia.
        replace (Z.to_nat cc - length bs1)%nat with (Z.to_nat (cc - (fin - c_cf p))) by lia. exact Hrep.
  - cbn [c_cc]. replace (c_cc p - cc <=? 0) with false by lia.
    exists (Clist (c_cc p - cc) (c_cf p + cc) (c_cl p)), st, (b :: rest), fl.
    split_and!; auto using untouched_refl; [simpl; rewrite length_drop; lia|].
    assert (qrep st (c_cf p + cc) (c_cl p) (b :: rest) (drop (Z.to_nat cc) bs)) as Hq2.
    { apply qrep_skip; auto. rewrite <- Efin. lia. }
    pose proof (qrep_nonempty _ _ _ _ _ Hq2). by destruct (drop (Z.to_nat cc) bs).
Qed.

(** ** Properties *)

(** Moving characters one by one to the end of a list with [grow]. *)
Lemma b_to_q_loop_spec cs : forall cf cl blks bs fl oth st,
  qrep st cf cl blks bs -> pool_wf st blks fl oth ->
  exists cl' left st' blks' fl', b_to_q_loop cl cs st = Ok (cl', left, st') /\
    (exists done, cs = done ++ left /\ qrep st' cf cl' blks' (bs ++ ((fun c => u8 c) <$> done))) /\
    pool_wf st' blks' fl' oth /\ untouched st st' oth /\ (left <> [] -> fl' = []).
Proof.
  induction cs as [|c cs IH]; intros cf cl blks bs fl oth st Hq Hw; cbn [b_to_q_loop].
  { exists cl, [], st, blks, fl. split; [done|]. split; [exists []; split; [done|simpl; by rewrite app_nil_r]|].
    split; [done|]. split; [apply untouched_refl|done]. }
  pose proof (grow_spec st cf cl blks bs fl oth Hq Hw) as Hg.
  destruct (at_end cl && bool_decide (fl = [])) eqn:E.
  - destruct Hg as (st1&->&Hw1&Hq1&Hu1). kstep. exists cl, (c :: cs), st1, blks, fl.
    split; [done|]. split; [exists []; split; [done|simpl; by rewrite app_nil_r]|]. split_and!; auto.
    intros _. apply andb_true_iff in E as [_ E]. by apply bool_decide_eq_true in E.
  - destruct Hg as (cp&st1&blks1&fl1&->&_&Hwr). kstep.
    destruct (Hwr c) as (st2&->&Hq2&Hw2&Hu2). kstep.
    destruct (IH _ _ _ _ _ _ _ Hq2 Hw2) as (cl'&left&st'&blks'&fl'&->&(dn&->&Hq3)&Hw3&Hu3&Hf3).
    exists cl', left, st', blks', fl'. split; [done|]. split.
    + exists (c :: dn). split; [done|]. by rewrite <- app_assoc in Hq3.
    + split_and!; auto. by eapply untouched_trans.
Qed.

(** The first block of an empty list. *)
Lemma start_spec st fl oth c : pool_wf st [] fl oth ->
  match fl with
  | [] => take_block st = Ok None
  | nb :: fl' => exists st1, take_block st = Ok (Some (nb, st1)) /\ pool_wf st1 [nb] fl' oth /\
      untouched st st1 oth /\
      exists st2, wrc (c_info nb) c st1 = Ok st2 /\ qrep st2 (c_info nb) (c_info nb + 1) [nb] [u8 c] /\
        pool_wf st2 [nb] fl' oth /\ untouched st st2 oth
  end.
Proof.
  intros Hw. pose proof (take_block_spec _ _ _ _ Hw) as Ht. destruct fl as [|nb fl]; [done|].
  destruct Ht as (st1&->&Hw1&Em&En).
  destruct (pool_in _ _ _ _ nb Hw1) as [Ha Hs]; [left; left|].
  assert (nb ∉ oth) as Hno by (apply (pool_nd_oth _ _ _ _ nb Hw1); left; left).
  assert (Forall aligned oth) as Hao.
  { destruct Hw as [_ H _ _ _]. apply Forall_app in H as [_ H]. by apply Forall_app in H as [_ ?]. }
  assert (untouched st st1 oth) as Hu by (by eapply (untouched_next _ _ nb)).
  exists st1. split_and!; auto. rewrite (wrc_Ok _ _ _ nb Hs) by (unfold c_info; lia).
  eexists. split; [done|]. split; [|split; [by apply pool_set_mem|]].
  - split; [done|]. unfold c_info. split; [lia|]. split; [lia|]. simpl. rewrite En, lookup_insert_eq.
    split; [done|]. rewrite lookup_insert_eq. split; [done|lia].
  - eapply untouched_trans; [exact Hu|]. apply (untouched_mem _ _ _ nb); auto. unfold c_info. lia.
Qed.

Lemma qrep_cl_pos st cf cl blks bs : qrep st cf cl blks bs -> 0 < cl.
Proof. intros H. destruct (qrep_last _ _ _ _ _ H) as (_&b&_&[? _]&?&_). lia. Qed.

(** putc() adds the character (its low eight bits) at the end of the list, or fails with
    -1 and leaves the list as it was; it fails only when a block is needed and none is
    free.  No other list is touched and no block is lost. *)
Theorem putc_appends c p st blks fl oth bs :
  clist_rep st p blks bs -> pool_wf st blks fl oth ->
  exists r p' st' blks' fl', putc c p st = Ok (r, p', st') /\ pool_wf st' blks' fl' oth /\
    untouched st st' oth /\
    (r = 0 /\ clist_rep st' p' blks' (bs ++ [u8 c]) \/
     r = -1 /\ p' = p /\ clist_rep st' p blks' bs /\ fl = [] /\ (bs = [] \/ at_end (c_cl p) = true)).
Proof.
  intros [Hcc Hq] Hw. unfold putc. destruct bs as [|b0 bs].
  - destruct Hq as [-> ->]. simpl orb. cbn iota. pose proof (start_spec st fl oth c Hw) as Hs.
    destruct fl as [|nb fl].
    + rewrite Hs. kstep. exists (-1), (Clist 0 0 0), st, [], []. split; [done|].
      split; [done|]. split; [apply untouched_refl|]. right. split_and!; auto. by split.
    + destruct Hs as (st1&->&_&_&st2&Hwr&Hq2&Hw2&Hu2). kstep. rewrite Hwr. kstep.
      eexists 0, _, st2, [nb], fl. split; [done|]. split; [done|]. split; [done|]. left. split; [done|].
      split; [done|]. exact Hq2.
  - pose proof (qrep_cl_pos _ _ _ _ _ Hq).
    replace ((c_cl p =? 0) || (c_cc p <? 0)) with false by (simpl in Hcc; lia).
    pose proof (grow_spec st _ _ _ _ fl oth Hq Hw) as Hg.
    destruct (at_end (c_cl p) && bool_decide (fl = [])) eqn:E.
    + apply andb_true_iff in E as [E1 E2]. apply bool_decide_eq_true in E2.
      destruct Hg as (st1&->&Hw1&Hq1&Hu1). kstep. exists (-1), p, st1, blks, fl.
      split; [done|]. split; [done|]. split; [done|]. right. split_and!; auto. by split.
    + destruct Hg as (cp&st1&blks1&fl1&->&_&Hwr). kstep.
      destruct (Hwr c) as (st2&->&Hq2&Hw2&Hu2). kstep.
      eexists 0, _, st2, blks1, fl1. split; [done|]. split; [done|]. split; [done|]. left. split; [done|].
      split; [|exact Hq2]. simpl in *. rewrite length_app. simpl. lia.
Qed.

(** getc() takes the first character off the list, and -1 from an empty one; a block whose
    last character was taken goes back to the free list. *)
Theorem getc_takes_first p st blks fl oth bs :
  clist_rep st p blks bs -> pool_wf st blks fl oth ->
  exists p' st' blks' fl', getc p st = Ok (match bs with [] => -1 | c :: _ => c end, p', st') /\
    clist_rep st' p' blks' (tail bs) /\ pool_wf st' blks' fl' oth /\ untouched st st' oth /\
    (length blks' + length fl' = length blks + length fl)%nat.
Proof.
  intros Hr Hw. unfold getc. destruct bs as [|c bs].
  - destruct Hr as [Hcc [-> ->]]. exists (Clist 0 0 0), st, [], fl.
    split; [done|]. split; [by split|]. split; [done|]. split; [apply untouched_refl|done].
  - replace (c_cc p <=? 0) with false by (destruct Hr as [Hcc _]; simpl in Hcc; lia).
    destruct (getc_front_spec _ _ _ _ _ _ _ Hr Hw) as (p'&st'&blks'&fl'&?&?&?&?&?). eauto 10.
Qed.

(** b_to_q() appends the characters of a buffer in order, all of them unless the free
    list runs out, and returns how many are left over. *)
Theorem b_to_q_appends cs p st blks fl oth bs :
  clist_rep st p blks bs -> pool_wf st blks fl oth ->
  exists moved left p' st' blks' fl', cs = moved ++ left /\
    b_to_q cs p st = Ok (Z.of_nat (length left), p', st') /\
    clist_rep st' p' blks' (bs ++ ((fun c => u8 c) <$> moved)) /\
    pool_wf st' blks' fl' oth /\ untouched st st' oth /\ (left <> [] -> fl' = []).
Proof.
  intros [Hcc Hq] Hw. unfold b_to_q. destruct cs as [|c cs].
  { exists [], [], p, st, blks, fl. split; [done|]. split; [done|]. simpl fmap. rewrite app_nil_r.
    split; [by split|]. split; [done|]. split; [apply untouched_refl|done]. }
  destruct bs as [|b0 bs].
  - destruct Hq as [-> ->]. simpl orb. cbn iota. pose proof (start_spec st fl oth c Hw) as Hs.
    destruct fl as [|nb fl].
    + rewrite Hs. kstep. exists [], (c :: cs), (Clist 0 0 0), st, [], []. split; [done|].
      split; [done|]. split; [by split|]. split; [done|]. split; [apply untouched_refl|done].
    + destruct Hs as (st1&->&Hw1&Hu1&st2&Hwr&Hq2&Hw2&Hu2). kstep. cbn [b_to_q_loop].
      destruct (pool_in _ _ _ _ nb Hw1) as [Ha _]; [left; left|]. unfold grow.
      rewrite (at_end_in nb) by (done || (unfold c_info; lia)). kstep. rewrite Hwr. kstep.
      destruct (b_to_q_loop_spec cs _ _ _ _ _ oth _ Hq2 Hw2)
        as (cl'&left&st'&blks'&fl'&->&(dn&->&Hq3)&Hw3&Hu3&Hf3). kstep.
      eexists (c :: dn), left, _, st', blks', fl'. split; [done|]. split; [done|].
      split; [|split; [done|split; [by eapply untouched_trans|done]]].
      split; [|exact Hq3]. cbn [fst snd c_cc length]. rewrite !length_app, length_fmap. simpl. lia.
  - pose proof (qrep_cl_pos _ _ _ _ _ Hq).
    replace ((c_cl p =? 0) || (c_cc p <? 0)) with false by (simpl in Hcc; lia). kstep.
    destruct (b_to_q_loop_spec (c :: cs) _ _ _ _ _ oth _ Hq Hw)
      as (cl'&left&st'&blks'&fl'&->&(dn&Ecs&Hq3)&Hw3&Hu3&Hf3). kstep.
    eexists dn, left, _, st', blks', fl'. split; [done|]. split; [done|].
    split; [|split; [done|split; [done|done]]].
    split; [|simpl in *; exact Hq3]. cbn [fst snd c_cc]. rewrite Ecs, Hcc, !length_app, length_fmap. lia.
Qed.

Lemma q_to_b_loop_spec n : forall p st blks fl oth bs, bs <> [] ->
  clist_rep st p blks bs -> pool_wf st blks fl oth ->
  exists p' st' blks' fl', q_to_b_loop n p st = Ok (take n bs, p', st') /\
    clist_rep st' p' blks' (drop n bs) /\ pool_wf st' blks' fl' oth /\ untouched st st' oth.
Proof.
  induction n as [|n IH]; intros p st blks fl oth bs Hne Hr Hw; cbn [q_to_b_loop].
  { exists p, st, blks, fl. rewrite drop_0. split_and!; auto using untouched_refl. }
  destruct bs as [|c bs]; [done|].
  destruct (getc_front_spec _ _ _ _ _ _ _ Hr Hw) as (p1&st1&blks1&fl1&->&Hr1&Hw1&Hu1&_). kstep.
  cbn [take drop]. destruct (Z.leb_spec (c_cc p1) 0) as [Hc|Hc].
  - destruct Hr1 as [Hcc Hrep]. destruct bs as [|c2 bs]; [|simpl in Hcc; lia].
    rewrite take_nil, drop_nil. exists p1, st1, blks1, fl1. split_and!; auto. by split.
  - assert (bs <> []) as Hne1 by (intros ->; destruct Hr1 as [Hcc _]; simpl in Hcc; lia).
    destruct (IH p1 st1 blks1 fl1 oth bs Hne1 Hr1 Hw1) as (p'&st'&blks'&fl'&->&?&?&?). kstep.
    exists p', st', blks', fl'. split_and!; auto. by eapply untouched_trans.
Qed.

(** q_to_b() moves the first [cc] characters of the list (all of them when there are
    fewer) to the buffer, in order. *)
Theorem q_to_b_takes p cc st blks fl oth bs :
  clist_rep st p blks bs -> pool_wf st blks fl oth ->
  exists p' st' blks' fl', q_to_b p cc st = Ok (take (Z.to_nat cc) bs, p', st') /\
    clist_rep st' p' blks' (drop (Z.to_nat cc) bs) /\ pool_wf st' blks' fl' oth /\ untouched st st' oth.
Proof.
  intros Hr Hw. unfold q_to_b. destruct (Z.leb_spec cc 0) as [Hc|Hc].
  { replace (Z.to_nat cc) with 0%nat by lia. exists p, st, blks, fl. rewrite drop_0.
    split_and!; auto using untouched_refl. }
  destruct bs as [|c bs].
  - destruct Hr as [Hcc [-> ->]]. rewrite take_nil, drop_nil. exists (Clist 0 0 0), st, [], fl.
    split; [done|]. split; [by split|]. split; [done|]. apply untouched_refl.
  - replace (c_cc p <=? 0) with false by (destruct Hr as [Hcc _]; simpl in Hcc; lia).
    by apply (q_to_b_loop_spec _ _ _ blks fl).
Qed.

(** ndflush() drops the first [cc] characters (all of them when there are fewer); a round
    per block of the list is enough. *)
Theorem ndflush_drops fuel p cc st blks fl oth bs :
  clist_rep st p blks bs -> pool_wf st blks fl oth -> (length blks <= fuel)%nat -> 0 <= cc ->
  exists p' st' blks' fl', ndflush fuel p cc st = Ok (p', st') /\
    clist_rep st' p' blks' (drop (Z.to_nat cc) bs) /\ pool_wf st' blks' fl' oth /\ untouched st st' oth.
Proof.
  intros [Hcc Hq] Hw Hf Hc. unfold ndflush. destruct bs as [|c bs].
  { destruct Hq as [-> ->]. rewrite drop_nil. exists (Clist 0 0 0), st, [], fl.
    split; [done|]. split; [by split|]. split; [done|]. apply untouched_refl. }
  replace (c_cc p <=? 0) with false by (simpl in Hcc; lia).
  destruct (ndflush_loop_spec oth blks fuel p cc st (c :: bs) fl Hf Hq Hcc Hw Hc)
    as (p'&st'&blks'&fl'&->&Hw'&Hu'&Hcc'&Hrep). kstep.
  destruct (drop (Z.to_nat cc) (c :: bs)) as [|x bs'] eqn:Ed.
  - simpl in Hcc'. cbn [fst snd]. rewrite Hcc'. cbn iota. subst blks'.
    exists (Clist 0 0 0), st', [], fl'. split; [done|]. split; [by split|]. done.
  - cbn [fst snd]. replace (c_cc p' <=? 0) with false by (simpl in Hcc'; lia).
    exists p', st', blks', fl'. split; [done|]. split; [by split|]. done.
Qed.

(** unputc() takes the last character off the list and gives its block back when it was
    the only character there; following the chain for as many blocks as the list has is
    enough.  The character comes back sign extended. *)
Theorem unputc_removes_last fuel p st blks fl oth bs c :
  clist_rep st p blks (bs ++ [c]) -> pool_wf st blks fl oth -> (length blks <= fuel)%nat ->
  exists p' st' blks' fl', unputc fuel p st = Ok (wraps 8 c, p', st') /\
    clist_rep st' p' blks' bs /\ pool_wf st' blks' fl' oth /\ untouched st st' oth.
Proof.
  intros [Hcc Hq] Hw Hf. rewrite length_app in Hcc. simpl in Hcc.
  assert (qrep st (c_cf p) (c_cl p) blks (bs ++ [c])) as Hq' by (by destruct bs). clear Hq.
  unfold unputc. replace (c_cc p <=? 0) with false by lia.
  destruct (qrep_last _ _ _ _ _ Hq') as (pre&b&->&Hal&Hcl&_).
  assert (NoDup (pre ++ [b])) as Hnd by (destruct Hw as [H _ _ _ _]; by apply NoDup_app in H as [? _]).
  assert (b ∈ pre ++ [b]) as Hbin by (apply elem_of_app; right; left).
  assert (cmem st !! (c_cl p - 1) = Some c) as Hlast.
  { clear -Hq'. revert Hq'. generalize (c_cf p) as cf. revert bs. induction pre as [|b0 pre IH]; intros bs cf Hq.
    - destruct Hq as (_&?&?&_&Hc&Hl). apply chars_snoc in Hc as [_ Hc]. rewrite <- Hc. f_equal.
      rewrite length_app in Hl. simpl in Hl. lia.
    - cbn [qrep app] in Hq. destruct Hq as [_ H]. destruct (pre ++ [b]) as [|b' rest] eqn:Er; [by destruct pre|].
      destruct H as (_&_&bs1&bs2&Hbs&_&_&Hq). pose proof (qrep_nonempty _ _ _ _ _ Hq) as Hne.
      destruct (exists_last' bs2) as [->|(bs3&x&->)]; [done|].
      rewrite app_assoc in Hbs. apply app_inj_tail in Hbs as [_ <-]. by apply (IH bs3 (b' + 4)). }
  unfold rdc. rewrite Hlast. kstep. rewrite land_cround.
  rewrite (block_of_in b (c_cl p - 1)) by (done || lia).
  change (Z.land (c_cl p - 1) (Z.lnot CROUND)) with (block_of (c_cl p - 1)).
  rewrite (block_of_in b (c_cl p - 1)) by (done || lia).
  assert ((c_cl p - 1) mod 32 = c_cl p - 1 - b) as ->.
  { replace (c_cl p - 1) with (b + (c_cl p - 1 - b)) at 1 by lia. apply mod_block; [done|lia]. }
  destruct (Z.leb_spec (c_cc p - 1) 0) as [Hc1|Hc1].
  - destruct bs as [|x bs]; [|simpl in Hcc; lia].
    assert (pre = []) as ->.
    { destruct pre as [|b0 pre]; [done|]. cbn [qrep app] in Hq'. destruct Hq' as [_ H].
      destruct (pre ++ [b]) as [|b' rest] eqn:Er; [by destruct pre|].
      destruct H as (?&_&bs1&bs2&Hbs&_&Hl&Hq). pose proof (qrep_nonempty _ _ _ _ _ Hq) as Hne.
      destruct bs1 as [|y bs1]; [simpl in Hl; lia|]. injection Hbs as _ Hbs.
      symmetry in Hbs. by apply app_eq_nil in Hbs as [_ ?]. }
    destruct (give_block_spec _ _ _ _ _ Hw) as (st'&->&Hw'&Em&En&_). kstep.
    exists (Clist (c_cc p - 1) 0 0), st', [], (b :: fl). split; [done|].
    split; [split; [simpl in *; lia|simpl in *; split; [f_equal; lia|done]]|]. split; [done|].
    eapply untouched_next; eauto. apply (pool_nd_oth _ _ _ _ b Hw). left. left.
  - destruct (Z.eqb_spec (c_cl p - 1 - b) 4) as [E4|E4].
    + destruct (exists_last' pre) as [->|(pre0&pb&->)].
      { destruct Hq' as (_&?&?&_&_&Hl). rewrite length_app in Hl. simpl in Hl. lia. }
      rewrite <- app_assoc in *. cbn [app] in *.
      assert (hd_error (pre0 ++ [pb]) = Some (block_of (c_cf p))) as Hhd.
      { destruct pre0 as [|y pre0]; cbn [qrep app] in Hq' |- *; destruct Hq' as [Hay H];
          [|destruct (pre0 ++ [pb; b]) eqn:Er; [by destruct pre0|]]; destruct H as (?&_);
          rewrite (block_of_in _ _ Hay) by lia; done. }
      rewrite (find_prev_spec st (c_cl p) pb b pre0 (c_cf p) (bs ++ [c]) fuel (block_of (c_cf p))); auto.
      2: { rewrite length_app in Hf. simpl in Hf. lia. }
      kstep.
      assert (cnext st !! pb = Some b) as Hpb.
      { clear -Hq'. revert Hq'. generalize (c_cf p) as cf, (bs ++ [c]) as l. induction pre0 as [|y pre IH]; intros cf l Hq.
        - by destruct Hq as (_&_&?&_).
        - cbn [qrep app] in Hq. destruct Hq as [_ H]. destruct (pre ++ [pb; b]) eqn:Er; [by destruct pre|].
          destruct H as (_&_&bs1&bs2&_&_&_&Hq). by apply IH in Hq. }
      unfold get_next. rewrite Hpb. kstep.
      assert (pool_wf st (b :: pre0 ++ [pb]) fl oth) as Hwp.
      { eapply pool_wf_perm; [|exact Hw]. replace (pre0 ++ [pb; b]) with ((pre0 ++ [pb]) ++ [b]) by (by rewrite <- app_assoc).
        symmetry. apply Permutation_cons_append. }
      destruct (give_block_spec _ _ _ _ _ Hwp) as (st1&->&Hw1&Em1&En1&_). kstep.
      destruct (pool_set_next st1 pb 0 _ _ _ Hw1) as (st2&->&Hw2&Em2&En2&_); [apply elem_of_app; right; left|].
      kstep. exists (Clist (c_cc p - 1) (c_cf p) (pb + CBLOCK)), st2, (pre0 ++ [pb]), (b :: fl).
      assert (b ∉ pre0 ++ [pb]) as Hbn by (by apply (pool_nd_head _ _ _ _ _ Hwp)).
      assert (NoDup (pre0 ++ [pb])) as Hnd1 by (destruct Hw1 as [H _ _ _ _]; by apply NoDup_app in H as [? _]).
      assert (pb ∉ oth) as Hpo by (apply (pool_nd_oth _ _ _ _ pb Hw1); left; apply elem_of_app; right; left).
      assert (b ∉ oth) as Hbo by (apply (pool_nd_oth _ _ _ _ b Hwp); left; left).
      split; [done|]. split; [|split; [done|]].
      * assert (qrep st2 (c_cf p) (pb + 32) (pre0 ++ [pb]) bs) as Hq2.
        { apply (qrep_pop_block st _ c pb b); auto.
          - by replace (b + 5) with (c_cl p) by lia.
          - intros x Hx. rewrite En2, En1, !lookup_insert_ne; [done| |].
            + intros <-. apply Hbn, elem_of_app. by left.
            + intros <-. apply NoDup_app in Hnd1 as (_&H&_). apply (H _ Hx). left.
          - rewrite En2. apply lookup_insert_eq.
          - congruence. }
        split; [simpl; lia|]. pose proof (qrep_nonempty _ _ _ _ _ Hq2). by destruct bs.
      * eapply untouched_trans; [by eapply (untouched_next st st1 b)|by eapply (untouched_next st1 st2 pb)].
    + assert (bs <> []) as Hne by (intros ->; simpl in Hcc; lia).
      destruct (qrep_pop_room st c b pre (c_cf p) (c_cl p) bs Hq') as [Hq2 _].
      { intros ->. destruct Hq' as (_&?&?&_&_&Hl). rewrite length_app in Hl. simpl in Hl. lia. }
      { lia. }
      exists (Clist (c_cc p - 1) (c_cf p) (c_cl p - 1)), st, (pre ++ [b]), fl.
      split; [done|]. split; [|split; [done|apply untouched_refl]].
      split; [simpl; lia|]. by destruct bs.
Qed.

(** getc() and unputc() disagree on a character above 0177: 255 through the one is -1, the
    value for an empty list, through the other. *)
Theorem unputc_sign_extends fuel p st blks fl oth :
  clist_rep st p blks [255] -> pool_wf st blks fl oth -> (length blks <= fuel)%nat ->
  (exists p' st', getc p st = Ok (255, p', st')) /\ (exists p' st', unputc fuel p st = Ok (-1, p', st')).
Proof.
  intros Hr Hw Hf. split.
  - unfold getc. replace (c_cc p <=? 0) with false by (destruct Hr as [-> _]; done).
    destruct (getc_front_spec _ _ _ _ _ _ _ Hr Hw) as (p'&st'&_&_&->&_). eauto.
  - unfold unputc. destruct Hr as [Hcc Hq]. simpl in Hcc. rewrite Hcc. cbn iota.
    destruct blks as [|b [|b' rest]]; [done| |].
    + destruct Hq as (Ha&?&?&?&[Hc _]&Hl). simpl in Hl. unfold rdc.
      replace (c_cl p - 1) with (c_cf p) by lia. rewrite Hc. kstep. change (1 - 1 <=? 0) with true. cbn iota.
      rewrite (block_of_in b) by (done || lia).
      destruct (give_block_spec _ _ _ _ _ Hw) as (st'&->&_). kstep. eauto.
    + destruct Hq as (_&?&_&bs1&bs2&Hbs&_&Hl&Hq). pose proof (qrep_nonempty _ _ _ _ _ Hq).
      destruct bs1 as [|y [|z bs1]]; [simpl in Hl; lia|by destruct bs2|done].
Qed.

(** ** Witnesses: a pool of three blocks, one list of 29 characters, one free block *)

Definition fresh_mem (bl : list Z) : gmap Z Z :=
  list_to_map ((fun x => (x, 7)) <$> concat ((fun b => (fun i => b + Z.of_nat i) <$> seq 4 28) <$> bl)).
Definition pool3 : cst :=
  Cst (list_to_map [(32, 64); (64, 0); (96, 0)]) (fresh_mem [32; 64; 96]) 96 28 false 0.
Definition line29 : clist := Clist 29 36 69.

Lemma storage_check st b n : cnext st !! b = Some n ->
  forallb (fun i => match cmem st !! (b + Z.of_nat i) with
                    | Some c => (0 <=? c) && (c <? 256) | None => false end) (seq 4 28) = true ->
  storage st b.
Proof.
  intros Hn Hf. split; [by exists n|]. intros a Ha. rewrite forallb_forall in Hf.
  specialize (Hf (Z.to_nat (a - b))). rewrite Z2Nat.id in Hf by lia.
  replace (b + (a - b)) with a in Hf by lia.
  assert (In (Z.to_nat (a - b)) (seq 4 28)) as Hin by (apply in_seq; lia). specialize (Hf Hin).
  destruct (cmem st !! a) as [c|]; [|done]. exists c. split; [done|]. lia.
Qed.

Lemma pool3_wf : pool_wf pool3 [32; 64] [96] [].
Proof.
  split; simpl.
  - repeat (apply NoDup_cons; split; [set_solver|]). constructor.
  - repeat constructor.
  - repeat (apply Forall_cons; split; [eapply storage_check; vm_compute; reflexivity|]). constructor.
  - split; [done|]. split; [done|]. exists 0. done.
  - done.
Qed.

Lemma line29_rep : clist_rep pool3 line29 [32; 64] (replicate 28 7 ++ [7]).
Proof.
  split; [done|]. change (qrep pool3 36 69 [32; 64] (replicate 28 7 ++ [7])).
  split; [done|]. split; [lia|]. split; [done|]. exists (replicate 28 7), [7].
  split; [done|]. split; [vm_compute; repeat split|]. split; [done|].
  split; [done|]. split; [lia|]. split; [lia|]. split; [done|]. split; [vm_compute; repeat split|done].
Qed.

Lemma putc_appends_witness :
  exists p' st' blks', putc 300 line29 pool3 = Ok (0, p', st') /\
    clist_rep st' p' blks' (replicate 28 7 ++ [7; 44]).
Proof.
  destruct (putc_appends 300 line29 pool3 [32; 64] [96] [] _ line29_rep pool3_wf)
    as (r&p'&st'&blks'&fl'&E&_&_&[[-> H]|(_&_&_&H&_)]); [|discriminate H].
  exists p', st', blks'. split; [exact E|exact H].
Defined.

Lemma getc_takes_first_witness :
  exists p' st' blks', getc line29 pool3 = Ok (7, p', st') /\ clist_rep st' p' blks' (replicate 28 7).
Proof.
  destruct (getc_takes_first line29 pool3 [32; 64] [96] [] _ line29_rep pool3_wf)
    as (p'&st'&blks'&fl'&E&H&_).
  exists p', st', blks'. split; [exact E|exact H].
Defined.

Lemma b_to_q_appends_witness :
  exists p' st' blks', b_to_q [1; 2; 3] line29 pool3 = Ok (0, p', st') /\
    clist_rep st' p' blks' (replicate 28 7 ++ [7; 1; 2; 3]).
Proof.
  destruct (b_to_q_appends [1; 2; 3] line29 pool3 [32; 64] [96] [] _ line29_rep pool3_wf)
    as (moved&left&p'&st'&blks'&fl'&Ecs&E&H&_&_&Hl).
  destruct left as [|x left].
  - rewrite app_nil_r in Ecs. subst moved. exists p', st', blks'. split; [exact E|exact H].
  - vm_compute in E. destruct left; discriminate E.
Defined.

Lemma q_to_b_takes_witness :
  exists p' st' blks', q_to_b line29 28 pool3 = Ok (replicate 28 7, p', st') /\
    clist_rep st' p' blks' [7].
Proof.
  destruct (q_to_b_takes line29 28 pool3 [32; 64] [96] [] _ line29_rep pool3_wf)
    as (p'&st'&blks'&fl'&E&H&_).
  exists p', st', blks'. split; [exact E|exact H].
Defined.

Lemma ndflush_drops_witness :
  exists p' st' blks', ndflush 2 line29 28 pool3 = Ok (p', st') /\ clist_rep st' p' blks' [7].
Proof.
  destruct (ndflush_drops 2 line29 28 pool3 [32; 64] [96] [] _ line29_rep pool3_wf)
    as (p'&st'&blks'&fl'&E&H&_); [simpl; lia|lia|].
  exists p', st', blks'. split; [exact E|exact H].
Defined.

Lemma unputc_removes_last_witness :
  exists p' st' blks', unputc 2 line29 pool3 = Ok (7, p', st') /\
    clist_rep st' p' blks' (replicate 28 7).
Proof.
  destruct (unputc_removes_last 2 line29 pool3 [32; 64] [96] [] _ _ line29_rep pool3_wf)
    as (p'&st'&blks'&fl'&E&H&_); [simpl; lia|].
  exists p', st', blks'. split; [exact E|exact H].
Defined.
