(* ===== verification/Dsort.v ===== *)
(** * Seek sort for disks: [src/sun/sys/ufs/ufs_dsort.c]

    The activity queue of a drive is a chain of buffers linked through av_forw, headed by
    b_actf, with b_actl pointing at its last buffer.  A buffer is an index of the store
    [bufs]; b_cylin is a (long) cylinder number.  The abstract queue is the list of the
    buffers on the chain, and the reference definition is a stable insertion into the order
    of a one-way scan. *)

From S2P Require Import Prelude.
From stdpp Require Import prelude list numbers strings.
From Stdlib Require Import ZArith Lia Sorted.

Local Open Scope Z_scope.

Record buf := Buf { av_forw : option nat; b_cylin : Z }.

Record diskhd := Diskhd { bufs : list buf; b_actf : option nat; b_actl : option nat }.

Definition set_forw (dp : diskhd) (i : nat) (f : option nat) : res diskhd :=
  b ← rd (bufs dp) i;
  bs ← wr (bufs dp) i (Buf f (b_cylin b));
  mret (Diskhd bs (b_actf dp) (b_actl dp)).

(** [insert:] put [bp] after [ap]. *)
Definition ds_insert (dp : diskhd) (ap bp : nat) : res diskhd :=
  a ← rd (bufs dp) ap;
  dp1 ← set_forw dp bp (av_forw a);
  dp2 ← set_forw dp1 ap (Some bp);
  mret (if decide (b_actl dp2 = Some ap) then Diskhd (bufs dp2) (b_actf dp2) (Some bp) else dp2).

(** The do-while loop over the second request list, entered with [ap] the end of the first. *)
Fixpoint ds_second (fuel : nat) (dp : diskhd) (ap bp : nat) : res nat :=
  match fuel with
  | O => Fault
  | S f =>
      a ← rd (bufs dp) ap;
      b ← rd (bufs dp) bp;
      match av_forw a with
      | None => mret ap
      | Some n =>
          nb ← rd (bufs dp) n;
          if b_cylin b <? b_cylin nb then mret ap else ds_second f dp n bp
      end
  end.

(** The scan for the inversion, for a request below the current one. *)
Fixpoint ds_inversion (fuel : nat) (dp : diskhd) (ap bp : nat) : res nat :=
  match fuel with
  | O => Fault
  | S f =>
      a ← rd (bufs dp) ap;
      match av_forw a with
      | None => mret ap
      | Some n =>
          nb ← rd (bufs dp) n;
          if b_cylin nb <? b_cylin a then ds_second fuel dp ap bp else ds_inversion f dp n bp
      end
  end.

(** The scan of the first request list, for a request at or after the current one. *)
Fixpoint ds_first (fuel : nat) (dp : diskhd) (ap bp : nat) : res nat :=
  match fuel with
  | O => Fault
  | S f =>
      a ← rd (bufs dp) ap;
      b ← rd (bufs dp) bp;
      match av_forw a with
      | None => mret ap
      | Some n =>
          nb ← rd (bufs dp) n;
          if (b_cylin nb <? b_cylin a) || (b_cylin b <? b_cylin nb) then mret ap
          else ds_first f dp n bp
      end
  end.

Definition disksort (dp : diskhd) (bp : nat) : res diskhd :=
  let fuel := S (length (bufs dp)) in
  match b_actf dp with
  | None =>
      dp1 ← set_forw dp bp None;
      mret (Diskhd (bufs dp1) (Some bp) (Some bp))
  | Some ap =>
      a ← rd (bufs dp) ap;
      b ← rd (bufs dp) bp;
      ip ← (if b_cylin b <? b_cylin a then ds_inversion fuel dp ap bp
            else ds_first fuel dp ap bp);
      ds_insert dp ip bp
  end.

(** ** The queue as a list *)

(** [l] is the chain that starts at [head] in the store. *)
Fixpoint chain (bs : list buf) (head : option nat) (l : list nat) : Prop :=
  match l with
  | [] => head = None
  | x :: l' => head = Some x /\ exists b, bs !! x = Some b /\ chain bs (av_forw b) l'
  end.

Definition queue (dp : diskhd) (l : list nat) : Prop :=
  chain (bufs dp) (b_actf dp) l /\ NoDup l /\ (l <> [] -> b_actl dp = last l).

Definition cyl (dp : diskhd) (i : nat) : Z :=
  match bufs dp !! i with Some b => b_cylin b | None => 0 end.

(** The scan position of a request when the active one is at cylinder [h]: requests at or
    after [h] are served on this sweep, the others on the next, each by cylinder. *)
Definition before (h a b : Z) : bool :=
  if a <? h then (b <? h) && (a <? b) else (b <? h) || (a <? b).

(** Stable insertion behind every request that is not after [x]. *)
Fixpoint scan_insert (dp : diskhd) (h : Z) (x : nat) (l : list nat) : list nat :=
  match l with
  | [] => [x]
  | y :: l' => if before h (cyl dp x) (cyl dp y) then x :: l
               else y :: scan_insert dp h x l'
  end.

(** The queue is in scan order of its first (active) request. *)
Definition in_scan (dp : diskhd) (h : Z) (l : list nat) : Prop :=
  StronglySorted (fun a b => before h (cyl dp b) (cyl dp a) = false) l.

Definition scan_order (dp : diskhd) (l : list nat) : Prop :=
  match l with [] => True | x :: _ => in_scan dp (cyl dp x) l end.

(** ** Lemmas on the order *)

Ltac zb := repeat match goal with
  | H : context [?a <? ?b] |- _ => destruct (Z.ltb_spec a b); simpl in H
  | |- context [?a <? ?b] => destruct (Z.ltb_spec a b); simpl
  end; try done; try lia.

Lemma before_irrefl h c : before h c h = false.
Proof. unfold before. zb. Qed.

Lemma before_trans h a b c : before h b a = false -> before h c b = false -> before h c a = false.
Proof. unfold before. intros. zb. Qed.

Lemma before_asym h a b : before h a b = true -> before h b a = false.
Proof. unfold before. intros. zb. Qed.

Lemma scan_insert_perm dp h x l : scan_insert dp h x l ≡ₚ x :: l.
Proof.
  induction l as [|y l IH]; simpl; [done|]. destruct (before _ _ _); [done|].
  rewrite IH. by rewrite Permutation_swap.
Qed.

Lemma scan_insert_sorted dp h x l : in_scan dp h l -> in_scan dp h (scan_insert dp h x l).
Proof.
  unfold in_scan. induction 1 as [|y l Hs IH Hf]; simpl; [by repeat constructor|].
  destruct (before h (cyl dp x) (cyl dp y)) eqn:E.
  - constructor; [by constructor|]. constructor; [by apply before_asym|].
    eapply Forall_impl; [exact Hf|]. intros z Hz. simpl in *.
    eapply before_trans; [|exact Hz]. by apply before_asym.
  - constructor; [done|]. rewrite scan_insert_perm. by constructor.
Qed.

(** Serving the active request leaves the queue in the scan order of the next one. *)
Lemma scan_order_tail dp x l : scan_order dp (x :: l) -> scan_order dp l.
Proof.
  intros H. destruct l as [|y l]; [done|]. simpl in *. unfold in_scan in *.
  apply StronglySorted_inv in H as [H Hx].
  assert (Forall (fun b => before (cyl dp x) (cyl dp b) (cyl dp y) = false) (y :: l)) as Hy.
  { constructor; [unfold before; zb|]. by apply StronglySorted_inv in H as [? ?]. }
  assert (before (cyl dp x) (cyl dp y) (cyl dp x) = false) as Hxy by apply before_irrefl.
  clear Hx. induction H as [|a l' Hs IH Hf]; [constructor|].
  apply Forall_cons in Hy as [Ha Hy]. constructor; [by apply IH|].
  apply Forall_forall. intros b Hb. rewrite Forall_forall in Hf, Hy.
  specialize (Hf b Hb). specialize (Hy b Hb). simpl in *. unfold before in *. zb.
Qed.

(** ** Lemmas on the chain *)

Lemma buf_chain_frame bs h l i b : i ∉ l -> chain bs h l -> chain (<[i := b]> bs) h l.
Proof.
  revert h. induction l as [|x l IH]; intros h Hi; simpl; [done|].
  intros [-> (c & Hc & Hch)]. apply not_elem_of_cons in Hi as [Hne Hi].
  split; [done|]. exists c. split; [by rewrite list_lookup_insert_ne|]. by apply IH.
Qed.

Lemma chain_insert bs h l1 x l2 bp c bx :
  chain bs h (l1 ++ x :: l2) -> NoDup (l1 ++ x :: l2) -> bp ∉ l1 ++ x :: l2 ->
  (bp < length bs)%nat -> bs !! x = Some bx ->
  chain (<[x := Buf (Some bp) (b_cylin bx)]> (<[bp := Buf (av_forw bx) c]> bs)) h
        (l1 ++ x :: bp :: l2).
Proof.
  intros Hch Hnd Hbp Hlen Hx. revert h Hch. induction l1 as [|y l1 IH]; intros h Hch; simpl in *.
  - destruct Hch as [-> (b & Hb & Hch)]. simplify_eq.
    apply NoDup_cons in Hnd as [Hxl Hnd]. apply not_elem_of_cons in Hbp as [Hne Hbp].
    split; [done|]. eexists. split.
    { apply list_lookup_insert_eq. rewrite length_insert. by eapply lookup_lt_Some. }
    simpl. split; [done|]. eexists. split.
    { rewrite list_lookup_insert_ne by done. by apply list_lookup_insert_eq. }
    simpl. by repeat apply buf_chain_frame.
  - destruct Hch as [-> (b & Hb & Hch)].
    apply NoDup_cons in Hnd as [Hyl Hnd]. apply not_elem_of_cons in Hbp as [Hne Hbp].
    split; [done|]. exists b. split; [|by apply IH].
    assert (x <> y) by (intros ->; apply Hyl, elem_of_app; right; left).
    by rewrite !list_lookup_insert_ne.
Qed.

Lemma set_forw_Ok dp i f b : bufs dp !! i = Some b ->
  set_forw dp i f = Ok (Diskhd (<[i := Buf f (b_cylin b)]> (bufs dp)) (b_actf dp) (b_actl dp)).
Proof.
  intros H. unfold set_forw. rewrite (proj2 (rd_Ok _ _ _) H). kstep.
  unfold wr. rewrite decide_True by (by eapply lookup_lt_Some). done.
Qed.

Lemma last_cons_app {A} (l1 l2 : list A) x y : l2 <> [] -> last (l1 ++ x :: l2) = last (l1 ++ x :: y :: l2).
Proof.
  intros. destruct (exists_last' l2) as [->|(l3 & z & ->)]; [done|].
  rewrite !app_comm_cons, !app_assoc, !last_snoc. done.
Qed.

(** What the goto label does to a queue. *)
Lemma ds_insert_spec dp l1 x l2 bp :
  queue dp (l1 ++ x :: l2) -> bp ∉ l1 ++ x :: l2 -> (bp < length (bufs dp))%nat ->
  exists dp', ds_insert dp x bp = Ok dp' /\ queue dp' (l1 ++ x :: bp :: l2) /\
    (forall i, cyl dp' i = cyl dp i) /\ b_actf dp' = b_actf dp.
Proof.
  intros (Hch & Hnd & Hl) Hbp Hlen.
  assert (exists bx, bufs dp !! x = Some bx) as [bx Hx].
  { clear -Hch. revert Hch. generalize (b_actf dp).
    induction l1 as [|y l1 IH]; simpl; intros o (-> & b & Hb & Hc); eauto. }
  assert (exists bb, bufs dp !! bp = Some bb) as [bb Hb] by (by apply lookup_lt_is_Some).
  assert (x <> bp) by (intros ->; apply Hbp, elem_of_app; right; left).
  unfold ds_insert. rewrite (proj2 (rd_Ok _ _ _) Hx). kstep.
  rewrite (set_forw_Ok _ _ _ _ Hb). kstep.
  erewrite set_forw_Ok by (simpl; by rewrite list_lookup_insert_ne). kstep. simpl.
  eexists. split; [done|].
  assert (last (l1 ++ x :: bp :: l2) = if decide (b_actl dp = Some x) then Some bp else b_actl dp) as E.
  { rewrite Hl by (by destruct l1). destruct (exists_last' l2) as [->|(l3 & z & ->)].
    - rewrite last_snoc, decide_True by done.
      change (x :: [bp]) with ([x] ++ [bp]). by rewrite app_assoc, last_snoc.
    - rewrite <- last_cons_app by (by destruct l3). rewrite app_comm_cons, app_assoc, last_snoc.
      rewrite decide_False; [done|]. intros [= ->].
      apply NoDup_app in Hnd as (_ & _ & Hnd). apply NoDup_cons in Hnd as [Hnd _].
      apply Hnd, elem_of_app. right. left. }
  split; [|split].
  - repeat split.
    + destruct (decide _); simpl; by apply chain_insert.
    + revert Hnd. rewrite !NoDup_app, !NoDup_cons. intros (H1 & H2 & H3 & H4).
      rewrite elem_of_app, elem_of_cons in Hbp.
      repeat split; try done.
      * intros y Hy. specialize (H2 y Hy). rewrite !elem_of_cons in *. naive_solver.
      * rewrite elem_of_cons. naive_solver.
      * naive_solver.
    + intros _. rewrite E. by destruct (decide _).
  - intros i. unfold cyl.
    assert (forall d, bufs (if decide (b_actl dp = Some x) then Diskhd d (b_actf dp) (Some bp) else
      Diskhd d (b_actf dp) (b_actl dp)) = d) as -> by (intros; by destruct (decide _)).
    destruct (decide (i = x)) as [->|].
    + rewrite list_lookup_insert_eq by (rewrite length_insert; by eapply lookup_lt_Some).
      by rewrite Hx.
    + rewrite list_lookup_insert_ne by done. destruct (decide (i = bp)) as [->|].
      * rewrite list_lookup_insert_eq by done. by rewrite Hb.
      * by rewrite list_lookup_insert_ne.
  - by destruct (decide _).
Qed.

(** ** The scans find the place of the reference insertion *)

(** The scan that starts at [x] stops at [ip], behind which the reference insertion into
    the rest [l2] of the chain puts [bp]. *)
Definition finds (dp : diskhd) (h : Z) (bp x : nat) (l2 : list nat) (r : res nat) : Prop :=
  exists ip l1 l3, r = Ok ip /\ x :: l2 = l1 ++ ip :: l3 /\
    x :: scan_insert dp h bp l2 = l1 ++ ip :: bp :: l3.

Lemma finds_here dp h bp x l2 :
  (forall y l3, l2 = y :: l3 -> before h (cyl dp bp) (cyl dp y) = true) ->
  finds dp h bp x l2 (Ok x).
Proof.
  intros H. exists x, [], l2. split; [done|]. split; [done|]. destruct l2 as [|y l3]; [done|].
  simpl. by rewrite (H y l3).
Qed.

Lemma finds_next dp h bp x y l2 r :
  before h (cyl dp bp) (cyl dp y) = false -> finds dp h bp y l2 r -> finds dp h bp x (y :: l2) r.
Proof.
  intros E (ip & l1 & l3 & -> & E1 & E2). exists ip, (x :: l1), l3.
  split; [done|]. simpl. rewrite E. by rewrite E1, E2.
Qed.

Section Scans.
Context (dp : diskhd) (h : Z) (bp : nat) (bb : buf).
Hypothesis Hbp : bufs dp !! bp = Some bb.

Lemma cyl_at i b : bufs dp !! i = Some b -> cyl dp i = b_cylin b.
Proof. unfold cyl. by intros ->. Qed.

Ltac read_at H := rewrite (proj2 (rd_Ok _ _ _) H); kstep.

Lemma ds_second_finds fuel x l2 :
  (length l2 < fuel)%nat -> chain (bufs dp) (Some x) (x :: l2) ->
  b_cylin bb < h -> Forall (fun y => cyl dp y < h) l2 ->
  finds dp h bp x l2 (ds_second fuel dp x bp).
Proof.
  revert x l2. induction fuel as [|f IH]; intros x l2 Hf; [lia|].
  intros (_ & b & Hb & Hch) Hlow Hall. simpl. read_at Hb. read_at Hbp.
  destruct l2 as [|y l2]; simpl in Hch.
  { rewrite Hch. by apply finds_here. }
  destruct Hch as [-> (c & Hc & Hch)]. read_at Hc. apply Forall_cons in Hall as [Hy Hall].
  pose proof (cyl_at _ _ Hbp). pose proof (cyl_at _ _ Hc).
  destruct (Z.ltb_spec (b_cylin bb) (b_cylin c)).
  - apply finds_here. intros ? ? [= <- <-]. unfold before. zb.
  - apply finds_next; [unfold before; zb|]. simpl in Hf. apply IH; [lia| |done|done].
    simpl. eauto.
Qed.

Lemma ds_first_finds fuel x l2 :
  (length l2 < fuel)%nat -> chain (bufs dp) (Some x) (x :: l2) ->
  h <= b_cylin bb -> h <= cyl dp x -> in_scan dp h (x :: l2) ->
  finds dp h bp x l2 (ds_first fuel dp x bp).
Proof.
  revert x l2. induction fuel as [|f IH]; intros x l2 Hf; [lia|].
  intros (_ & b & Hb & Hch) Hhi Hx Hs. simpl. read_at Hb. read_at Hbp.
  destruct l2 as [|y l2]; simpl in Hch.
  { rewrite Hch. by apply finds_here. }
  destruct Hch as [-> (c & Hc & Hch)]. read_at Hc.
  apply StronglySorted_inv in Hs as [Hs Hxs]. apply Forall_cons in Hxs as [Hxy _].
  pose proof (cyl_at _ _ Hb). pose proof (cyl_at _ _ Hbp). pose proof (cyl_at _ _ Hc).
  destruct ((b_cylin c <? b_cylin b) || (b_cylin bb <? b_cylin c)) eqn:E.
  - apply finds_here. intros ? ? [= <- <-]. unfold before in *. zb.
  - simpl in Hf. apply finds_next; [unfold before in *; zb|]. apply IH; [lia|simpl; eauto|done| |done].
    unfold before in *. zb.
Qed.

Lemma ds_inversion_finds fuel x l2 :
  (length l2 < fuel)%nat -> chain (bufs dp) (Some x) (x :: l2) ->
  b_cylin bb < h -> h <= cyl dp x -> in_scan dp h (x :: l2) ->
  finds dp h bp x l2 (ds_inversion fuel dp x bp).
Proof.
  revert x l2. induction fuel as [|f IH]; intros x l2 Hf; [lia|].
  intros Hch0. pose proof Hch0 as (_ & b & Hb & Hch). intros Hlow Hx Hs.
  cbn [ds_inversion]. read_at Hb.
  destruct l2 as [|y l2]; simpl in Hch.
  { rewrite Hch. by apply finds_here. }
  destruct Hch as [-> (c & Hc & Hch)]. read_at Hc.
  apply StronglySorted_inv in Hs as [Hs Hxs]. apply Forall_cons in Hxs as [Hxy _].
  pose proof (cyl_at _ _ Hb). pose proof (cyl_at _ _ Hbp). pose proof (cyl_at _ _ Hc).
  destruct (Z.ltb_spec (b_cylin c) (b_cylin b)).
  - apply ds_second_finds; [done|done|done|].
    apply StronglySorted_inv in Hs as [_ Hys].
    assert (cyl dp y < h) by (unfold before in *; zb).
    constructor; [done|]. eapply Forall_impl; [exact Hys|]. intros z Hz. simpl in Hz.
    unfold before in Hz. zb.
  - simpl in Hf. apply finds_next; [unfold before in *; zb|].
    apply IH; [lia|simpl; eauto|done| |done]. unfold before in *. zb.
Qed.
End Scans.

Lemma chain_lt bs o l : chain bs o l -> Forall (fun i => i < length bs)%nat l.
Proof.
  revert o. induction l as [|x l IH]; intros o; simpl; [by constructor|].
  intros (-> & b & Hb & Hc). constructor; [by eapply lookup_lt_Some|]. by eapply IH.
Qed.

(** A chain without repetition is no longer than its store: the scans' fuel is enough. *)
Lemma chain_length bs o l : chain bs o l -> NoDup l -> (length l <= length bs)%nat.
Proof.
  intros Hc Hnd. apply chain_lt in Hc.
  assert (l ⊆+ seq 0 (length bs)) as H%submseteq_length.
  { apply NoDup_submseteq; [done|]. intros i Hi. rewrite Forall_forall in Hc.
    apply elem_of_seq. specialize (Hc i Hi). lia. }
  by rewrite length_seq in H.
Qed.

Lemma scan_insert_head dp x l bp :
  scan_insert dp (cyl dp x) bp (x :: l) = x :: scan_insert dp (cyl dp x) bp l.
Proof. simpl. replace (before _ _ _) with false; [done|]. symmetry. unfold before. zb. Qed.

Lemma scan_insert_ext dp dp' h x l :
  (forall i, cyl dp' i = cyl dp i) -> scan_insert dp' h x l = scan_insert dp h x l.
Proof. intros H. induction l; simpl; [done|]. by rewrite !H, IHl. Qed.

Lemma in_scan_ext dp dp' h l : (forall i, cyl dp' i = cyl dp i) -> in_scan dp h l -> in_scan dp' h l.
Proof.
  intros H. unfold in_scan. induction 1 as [|a l Hs IH Hf]; constructor; [done|].
  eapply Forall_impl; [exact Hf|]. intros z. by rewrite !H.
Qed.

(** ** Correctness *)

(** C37: disksort keeps a drive's queue in the order of a one-way scan: on a queue in scan
    order of its active request it returns with exactly the stable insertion of the new
    request (behind every request that is not after it), the active request stays first,
    b_actl is the last request, every cylinder number is unchanged and the new queue is
    again in scan order, also once the active request has been served. *)
Theorem disksort_one_way_scan dp l bp :
  queue dp l -> scan_order dp l -> bp ∉ l -> (bp < length (bufs dp))%nat ->
  exists dp', disksort dp bp = Ok dp' /\
    let l' := match l with [] => [bp] | x :: _ => scan_insert dp (cyl dp x) bp l end in
    queue dp' l' /\ (forall i, cyl dp' i = cyl dp i) /\ head l' = head (l ++ [bp]) /\
    scan_order dp' l' /\ scan_order dp' (tail l').
Proof.
  intros Hq Ho Hbp Hlen. destruct (proj2 (lookup_lt_is_Some (bufs dp) bp) Hlen) as [bb Hb].
  destruct l as [|x l].
  - destruct Hq as (Ha & _ & _). simpl in Ha. unfold disksort. rewrite Ha.
    rewrite (set_forw_Ok _ _ _ _ Hb). kstep. eexists. split; [done|]. repeat split; simpl.
    + eexists. split; [by apply list_lookup_insert_eq|done].
    + by apply NoDup_singleton.
    + intros i. unfold cyl. simpl. destruct (decide (i = bp)) as [->|].
      * by rewrite list_lookup_insert_eq, Hb by done.
      * by rewrite list_lookup_insert_ne by done.
    + unfold in_scan. by repeat constructor.
  - pose proof Hq as (Hch & Hnd & _). pose proof (chain_length _ _ _ Hch Hnd) as Hfl.
    assert (b_actf dp = Some x) as Ha by apply Hch. rewrite Ha in Hch.
    pose proof Hch as (_ & a & Hxa & _).
    assert (finds dp (cyl dp x) bp x l
      (if b_cylin bb <? b_cylin a then ds_inversion (S (length (bufs dp))) dp x bp
       else ds_first (S (length (bufs dp))) dp x bp)) as (ip & l1 & l3 & Hr & E1 & E2).
    { pose proof (cyl_at _ _ _ Hxa). simpl in Hfl.
      destruct (Z.ltb_spec (b_cylin bb) (b_cylin a)).
      - eapply ds_inversion_finds; eauto with lia.
      - eapply ds_first_finds; eauto with lia. }
    unfold disksort. rewrite Ha, (proj2 (rd_Ok _ _ _) Hxa). kstep.
    rewrite (proj2 (rd_Ok _ _ _) Hb). kstep. rewrite Hr. kstep.
    rewrite E1 in Hq, Hbp.
    destruct (ds_insert_spec dp l1 ip l3 bp Hq Hbp Hlen) as (dp' & E & Hq' & Hc & _).
    exists dp'. split; [done|]. rewrite scan_insert_head.
    assert (scan_order dp' (x :: scan_insert dp (cyl dp x) bp l)) as Ho'.
    { simpl. rewrite Hc. rewrite <- scan_insert_head. eapply in_scan_ext; [done|].
      by apply scan_insert_sorted. }
    simpl. split; [by rewrite E2|]. split; [done|]. split; [done|]. split; [done|].
    by eapply scan_order_tail.
Qed.

Definition disk0 : diskhd :=
  Diskhd [Buf (Some 1%nat) 30; Buf (Some 2%nat) 50; Buf (Some 3%nat) 10; Buf None 20; Buf None 15]
         (Some 0%nat) (Some 3%nat).

Lemma disksort_one_way_scan_witness :
  scan_insert disk0 30 4 [0;1;2;3]%nat = [0;1;2;4;3]%nat /\
  exists dp', disksort disk0 4 = Ok dp' /\
    let l' := match [0;1;2;3]%nat with [] => [4%nat]
      | x :: _ => scan_insert disk0 (cyl disk0 x) 4 [0;1;2;3]%nat end in
    queue dp' l' /\ (forall i, cyl dp' i = cyl disk0 i) /\ head l' = head ([0;1;2;3]%nat ++ [4%nat]) /\
    scan_order dp' l' /\ scan_order dp' (tail l').
Proof.
  split; [reflexivity|].
  apply (disksort_one_way_scan disk0 [0;1;2;3]%nat 4).
  - split; [|split; [|done]].
    + simpl. repeat (split; [reflexivity|]; eexists; split; [reflexivity|]). reflexivity.
    + apply (bool_decide_unpack (NoDup [0;1;2;3]%nat)). vm_compute. exact I.
  - unfold scan_order, in_scan. repeat constructor.
  - apply (bool_decide_unpack (4%nat ∉ [0;1;2;3]%nat)). vm_compute. exact I.
  - simpl. lia.
Defined.
