(* ===== verification/Dnlc.v ===== *)
(** * The directory name lookup cache: [src/sun/sys/sys/vfs_dnlc.c]

    Cache slots are indices of the table [ncache].  The LRU chain is the list of the slots on
    it from nc_lru.lru_next on; each hash chain is the list of its slots from hash_next on,
    and a slot whose hash links point at itself (NULL_HASH) is on no chain.  Vnodes and
    credentials are their addresses (0 is the null pointer); [v_count] and [cr_ref] are the
    reference counts of the existing ones, [inactive] and [crfreelist] record the calls of
    VOP_INACTIVE and the credentials crfree() gave back. *)

From S2P Require Import Prelude.
From stdpp Require Import prelude list numbers strings gmap.
From Stdlib Require Import ZArith Lia.

Local Open Scope Z_scope.
Local Open Scope kern_scope.

Definition NC_HASH_SIZE := 8%nat.
Definition NC_NAMLEN := 15.
Definition ANYCRED := -1.
Definition NOCRED := 0.

Record nc := Nc { nc_vp : Z; nc_dp : Z; nc_namlen : Z; nc_name : list Z; nc_cred : Z }.

Record ncstats := Ncstats {
  hits : Z; misses : Z; enters : Z; dbl_enters : Z; long_enter : Z; long_look : Z;
  lru_empty : Z; purges : Z
}.

Record dnlc := Dnlc {
  ncache : list nc; nc_lru : list nat; nc_hash : list (list nat);
  v_count : gmap Z Z; inactive : list Z; cr_ref : gmap Z Z; crfreelist : list Z;
  stats : ncstats; doingcache : bool
}.

Section Setters.
Implicit Type st : dnlc.
Definition set_slots st c l h := Dnlc c l h (v_count st) (inactive st) (cr_ref st) (crfreelist st)
  (stats st) (doingcache st).
Definition set_stats st s := Dnlc (ncache st) (nc_lru st) (nc_hash st) (v_count st) (inactive st)
  (cr_ref st) (crfreelist st) s (doingcache st).
Definition set_vnodes st vc ia := Dnlc (ncache st) (nc_lru st) (nc_hash st) vc ia
  (cr_ref st) (crfreelist st) (stats st) (doingcache st).
Definition set_creds st cr fl := Dnlc (ncache st) (nc_lru st) (nc_hash st) (v_count st) (inactive st)
  cr fl (stats st) (doingcache st).
End Setters.

Definition count_hit s := Ncstats (hits s + 1) (misses s) (enters s) (dbl_enters s) (long_enter s)
  (long_look s) (lru_empty s) (purges s).
Definition count_miss s := Ncstats (hits s) (misses s + 1) (enters s) (dbl_enters s) (long_enter s)
  (long_look s) (lru_empty s) (purges s).
Definition count_enter s := Ncstats (hits s) (misses s) (enters s + 1) (dbl_enters s) (long_enter s)
  (long_look s) (lru_empty s) (purges s).
Definition count_dbl s := Ncstats (hits s) (misses s) (enters s) (dbl_enters s + 1) (long_enter s)
  (long_look s) (lru_empty s) (purges s).
Definition count_long_enter s := Ncstats (hits s) (misses s) (enters s) (dbl_enters s) (long_enter s + 1)
  (long_look s) (lru_empty s) (purges s).
Definition count_long_look s := Ncstats (hits s) (misses s) (enters s) (dbl_enters s) (long_enter s)
  (long_look s + 1) (lru_empty s) (purges s).
Definition count_lru_empty s := Ncstats (hits s) (misses s) (enters s) (dbl_enters s) (long_enter s)
  (long_look s) (lru_empty s + 1) (purges s).
Definition count_purge s := Ncstats (hits s) (misses s) (enters s) (dbl_enters s) (long_enter s)
  (long_look s) (lru_empty s) (purges s + 1).

(** ** Reference counts *)

Definition VN_HOLD (st : dnlc) (v : Z) : res dnlc :=
  match v_count st !! v with
  | Some c => Ok (set_vnodes st (<[v := u16 (c + 1)]> (v_count st)) (inactive st))
  | None => Fault
  end.

Definition vn_rele (st : dnlc) (v : Z) : res dnlc :=
  match v_count st !! v with
  | Some c =>
      if c =? 0 then Panic "vn_rele"
      else Ok (set_vnodes st (<[v := u16 (c - 1)]> (v_count st))
                 (if u16 (c - 1) =? 0 then inactive st ++ [v] else inactive st))
  | None => Fault
  end.

Definition crhold (st : dnlc) (c : Z) : res dnlc :=
  match cr_ref st !! c with
  | Some n => Ok (set_creds st (<[c := u16 (n + 1)]> (cr_ref st)) (crfreelist st))
  | None => Fault
  end.

Definition crfree (st : dnlc) (c : Z) : res dnlc :=
  match cr_ref st !! c with
  | Some n => Ok (set_creds st (<[c := u16 (n - 1)]> (cr_ref st))
                    (if u16 (n - 1) =? 0 then c :: crfreelist st else crfreelist st))
  | None => Fault
  end.

(** ** Queues *)

Definition RM_LRU (st : dnlc) (i : nat) : dnlc :=
  set_slots st (ncache st) (unlink i (nc_lru st)) (nc_hash st).
Definition ins_lru_head (st : dnlc) (i : nat) : dnlc :=
  set_slots st (ncache st) (i :: nc_lru st) (nc_hash st).
Definition ins_lru_tail (st : dnlc) (i : nat) : dnlc :=
  set_slots st (ncache st) (nc_lru st ++ [i]) (nc_hash st).
Definition RM_HASH (st : dnlc) (i : nat) : dnlc :=
  set_slots st (ncache st) (nc_lru st) (map (unlink i) (nc_hash st)).
Definition INS_HASH (st : dnlc) (i h : nat) : res dnlc :=
  c ← rd (nc_hash st) h;
  hs ← wr (nc_hash st) h (i :: c);
  mret (set_slots st (ncache st) (nc_lru st) hs).

(** RM_HASH(ncp); INS_HASH(ncp, ncp->hash_prev->hash_prev): one place up its chain. *)
Fixpoint move_up (i : nat) (c : list nat) : list nat :=
  match c with
  | p :: (x :: c'') as c' => if decide (x = i) then x :: p :: c'' else p :: move_up i c'
  | _ => c
  end.

Definition set_nc (st : dnlc) (i : nat) (e : nc) : res dnlc :=
  c ← wr (ncache st) i e;
  mret (set_slots st c (nc_lru st) (nc_hash st)).

(** NC_HASH: the first and last characters (signed chars), the length and the address. *)
Definition NC_HASH (name : list Z) (namlen : Z) (vp : Z) : res nat :=
  c0 ← rd name 0;
  c1 ← rd name (length name - 1);
  mret (Z.to_nat (Z.land (i32 (c0 + c1 + namlen + vp)) (Z.of_nat NC_HASH_SIZE - 1))).

(** bcmp() of the first [namlen] characters, after the check of the first one. *)
Definition same_name (e : nc) (name : list Z) (namlen : Z) : bool :=
  bool_decide (head (nc_name e) = head name) &&
  bool_decide (take (Z.to_nat namlen) (nc_name e) = name).

Fixpoint search_chain (st : dnlc) (dp : Z) (name : list Z) (namlen cred : Z) (c : list nat)
  : res (option nat) :=
  match c with
  | [] => mret None
  | i :: c' =>
      e ← rd (ncache st) i;
      if (nc_dp e =? dp) && (nc_namlen e =? namlen) &&
         ((cred =? ANYCRED) || (nc_cred e =? cred)) && same_name e name namlen
      then mret (Some i) else search_chain st dp name namlen cred c'
  end.

Definition dnlc_search (st : dnlc) (dp : Z) (name : list Z) (namlen : Z) (hash : nat) (cred : Z)
  : res (option nat) :=
  c ← rd (nc_hash st) hash;
  search_chain st dp name namlen cred c.

(** ** Operations *)

Definition dnlc_init (st : dnlc) : dnlc :=
  set_slots st (map (fun e => Nc 0 0 (nc_namlen e) (nc_name e) (nc_cred e)) (ncache st)) (rev (seq 0 (length (ncache st))))
            (replicate NC_HASH_SIZE []).

Definition dnlc_rm (st : dnlc) (i : nat) : res dnlc :=
  e ← rd (ncache st) i;
  let st1 := RM_HASH (RM_LRU st i) i in
  st2 ← vn_rele st1 (nc_dp e);
  st3 ← vn_rele st2 (nc_vp e);
  st4 ← (if nc_cred e =? NOCRED then mret st3 else crfree st3 (nc_cred e));
  st5 ← set_nc st4 i (Nc 0 0 (nc_namlen e) (nc_name e) NOCRED);
  mret (ins_lru_head st5 i).

(** Give slot [i] to a name: drop what it held, hold the vnodes, chain it. *)
Definition enter_slot (st : dnlc) (i : nat) (dp : Z) (name : list Z) (vp cred : Z) (hash : nat)
  : res dnlc :=
  let st1 := RM_HASH (RM_LRU st i) i in
  e ← rd (ncache st) i;
  st2 ← (if nc_dp e =? 0 then mret st1 else vn_rele st1 (nc_dp e));
  st3 ← (if nc_vp e =? 0 then mret st2 else vn_rele st2 (nc_vp e));
  st4 ← VN_HOLD st3 dp;
  st5 ← VN_HOLD st4 vp;
  st6 ← set_nc st5 i
    (Nc vp dp (Z.of_nat (length name)) (name ++ drop (length name) (nc_name e)) cred);
  st7 ← (if cred =? 0 then mret st6 else crhold st6 cred);
  st8 ← INS_HASH (ins_lru_tail st7 i) i hash;
  mret (set_stats st8 (count_enter (stats st8))).

Definition dnlc_enter (st : dnlc) (dp : Z) (name : list Z) (vp cred : Z) : res dnlc :=
  if negb (doingcache st) then mret st else
  let namlen := Z.of_nat (length name) in
  if NC_NAMLEN <? namlen then mret (set_stats st (count_long_enter (stats st))) else
  hash ← NC_HASH name namlen dp;
  found ← dnlc_search st dp name namlen hash cred;
  match found with
  | Some _ => mret (set_stats st (count_dbl (stats st)))
  | None =>
      match nc_lru st with
      | [] => mret (set_stats st (count_lru_empty (stats st)))
      | i :: _ => enter_slot st i dp name vp cred hash
      end
  end.

Definition dnlc_lookup (st : dnlc) (dp : Z) (name : list Z) (cred : Z) : res (dnlc * Z) :=
  if negb (doingcache st) then mret (st, 0) else
  let namlen := Z.of_nat (length name) in
  if NC_NAMLEN <? namlen then mret (set_stats st (count_long_look (stats st)), 0) else
  hash ← NC_HASH name namlen dp;
  found ← dnlc_search st dp name namlen hash cred;
  match found with
  | None => mret (set_stats st (count_miss (stats st)), 0)
  | Some i =>
      let st1 := set_stats st (count_hit (stats st)) in
      let st2 := ins_lru_tail (RM_LRU st1 i) i in
      c ← rd (nc_hash st2) hash;
      hs ← wr (nc_hash st2) hash (move_up i c);
      e ← rd (ncache st2) i;
      mret (set_slots st2 (ncache st2) (nc_lru st2) hs, nc_vp e)
  end.

Fixpoint remove_loop (fuel : nat) (st : dnlc) (dp : Z) (name : list Z) (namlen : Z) (hash : nat)
  : res dnlc :=
  match fuel with
  | O => Fault
  | S f =>
      found ← dnlc_search st dp name namlen hash ANYCRED;
      match found with
      | None => mret st
      | Some i => st' ← dnlc_rm st i; remove_loop f st' dp name namlen hash
      end
  end.

Definition dnlc_remove (st : dnlc) (dp : Z) (name : list Z) : res dnlc :=
  let namlen := Z.of_nat (length name) in
  if NC_NAMLEN <? namlen then mret st else
  hash ← NC_HASH name namlen dp;
  remove_loop (S (length (ncache st))) st dp name namlen hash.

(** The first slot of the first chain that is not empty. *)
Fixpoint first_hashed (hs : list (list nat)) : option nat :=
  match hs with
  | [] => None
  | [] :: hs' => first_hashed hs'
  | (i :: _) :: _ => Some i
  end.

Fixpoint purge_loop (fuel : nat) (st : dnlc) : res dnlc :=
  match fuel with
  | O => Fault
  | S f =>
      match first_hashed (nc_hash st) with
      | None => mret st
      | Some i =>
          e ← rd (ncache st) i;
          if (nc_dp e =? 0) || (nc_vp e =? 0) then Panic "dnlc_purge: zero vp"
          else st' ← dnlc_rm st i; purge_loop f st'
      end
  end.

Definition dnlc_purge (st : dnlc) : res dnlc :=
  purge_loop (S (length (ncache st))) (set_stats st (count_purge (stats st))).

(** The first slot of the LRU chain that satisfies a test. *)
Fixpoint first_lru (p : nc -> bool) (st : dnlc) (c : list nat) : res (option nat) :=
  match c with
  | [] => mret None
  | i :: c' =>
      e ← rd (ncache st) i;
      if p e then mret (Some i) else first_lru p st c'
  end.

Fixpoint purge_vp_loop (fuel : nat) (st : dnlc) (vp : Z) : res dnlc :=
  match fuel with
  | O => Fault
  | S f =>
      found ← first_lru (fun e => (nc_dp e =? vp) || (nc_vp e =? vp)) st (nc_lru st);
      match found with
      | None => mret st
      | Some i => st' ← dnlc_rm st i; purge_vp_loop f st' vp
      end
  end.

Definition dnlc_purge_vp (st : dnlc) (vp : Z) : res dnlc :=
  purge_vp_loop (S (length (ncache st))) st vp.

Definition dnlc_purge1 (st : dnlc) : res (dnlc * bool) :=
  found ← first_lru (fun e => negb (nc_dp e =? 0)) st (nc_lru st);
  match found with
  | None => mret (st, false)
  | Some i => st' ← dnlc_rm st i; mret (st', true)
  end.
