(* ===== verification/DnlcThms.v ===== *)
(** * The name cache implements a bounded least-recently-used map

    The abstract cache is the list of its entries from the least to the most recently used
    one.  [dnlc_wf] is the invariant of the slots, the LRU chain, the hash chains and the
    reference counts; every operation of [Dnlc] keeps it and computes the abstract operation. *)

From S2P Require Import Prelude Dnlc.
From stdpp Require Import prelude list numbers strings gmap.
From Stdlib Require Import ZArith Lia.

Local Open Scope Z_scope.
Local Open Scope kern_scope.

(** ** Abstract cache *)

Definition key : Type := Z * list Z * Z.
Definition entry : Type := key * Z.

Definition key_dp (k : key) : Z := k.1.1.
Definition key_name (k : key) : list Z := k.1.2.

Definition nc_key (e : nc) : key :=
  ((nc_dp e, take (Z.to_nat (nc_namlen e)) (nc_name e)), nc_cred e).

Definition active (e : nc) : Prop := nc_dp e <> 0.
#[export] Instance active_dec e : Decision (active e) := decide (nc_dp e <> 0).

Definition slot (c : list nc) (i : nat) : option entry :=
  e ← c !! i; if decide (active e) then Some (nc_key e, nc_vp e) else None.
Definition view (c : list nc) (l : list nat) : list entry := omap (slot c) l.
Definition abs (st : dnlc) : list entry := view (ncache st) (nc_lru st).

Inductive op : Type :=
| Lookup (dp : Z) (name : list Z) (cred : Z)
| Enter (dp : Z) (name : list Z) (vp cred : Z)
| Remove (dp : Z) (name : list Z)
| Purge
| PurgeVp (vp : Z)
| Purge1.

Definition run (o : op) (st : dnlc) : res (dnlc * Z) :=
  match o with
  | Lookup dp name cred => dnlc_lookup st dp name cred
  | Enter dp name vp cred => st' ← dnlc_enter st dp name vp cred; mret (st', 0)
  | Remove dp name => st' ← dnlc_remove st dp name; mret (st', 0)
  | Purge => st' ← dnlc_purge st; mret (st', 0)
  | PurgeVp vp => st' ← dnlc_purge_vp st vp; mret (st', 0)
  | Purge1 => '(st', b) ← dnlc_purge1 st; mret (st', Z.b2z b)
  end.

Definition find_key (k : key) (l : list entry) : option Z :=
  (fun ie => ie.2.2) <$> list_find (fun e : entry => e.1 = k) l.

Definition long (name : list Z) : bool := bool_decide (15 < length name)%nat.

(** A cache of [n] entries: what each operation does and returns. *)
Definition spec (n : nat) (o : op) (l : list entry) : list entry * Z :=
  match o with
  | Lookup dp name cred =>
      let k := ((dp, name), cred) in
      if long name then (l, 0) else
      match find_key k l with
      | Some vp => (filter (fun e : entry => e.1 <> k) l ++ [(k, vp)], vp)
      | None => (l, 0)
      end
  | Enter dp name vp cred =>
      let k := ((dp, name), cred) in
      if long name then (l, 0) else
      match find_key k l with
      | Some _ => (l, 0)
      | None => if decide (n = 0%nat) then (l, 0)
                else ((if decide (length l = n) then tail l else l) ++ [(k, vp)], 0)
      end
  | Remove dp name =>
      if long name then (l, 0)
      else (filter (fun e : entry => ~ (key_dp e.1 = dp /\ key_name e.1 = name)) l, 0)
  | Purge => ([], 0)
  | PurgeVp vp => (filter (fun e : entry => ~ (key_dp e.1 = vp \/ e.2 = vp)) l, 0)
  | Purge1 => (tail l, match l with [] => 0 | _ => 1 end)
  end.

(** ** Invariant *)

Definition ind (u v : Z) : Z := if decide (u = v) then 1 else 0.
Definition hold1 (v : Z) (e : nc) : Z := ind v (nc_dp e) + ind v (nc_vp e).
Definition holds (c : list nc) (v : Z) : Z := foldr (fun e s => hold1 v e + s) 0 c.

(** The counts [vc] are those of the other holders, [ext], plus [h]. *)
Definition refs (ext : gmap Z Z) (h : Z -> Z) (vc : gmap Z Z) : Prop :=
  forall v, vc !! v = (fun e => e + h v) <$> ext !! v.

Record slot_wf (ext : gmap Z Z) (cr : gmap Z Z) (e : nc) : Prop := {
  sw_len : length (nc_name e) = 15%nat;
  sw_free : nc_dp e = 0 -> nc_vp e = 0;
  sw_vp : nc_dp e <> 0 -> nc_vp e <> 0 /\ is_Some (ext !! nc_dp e) /\ is_Some (ext !! nc_vp e);
  sw_name : nc_dp e <> 0 -> 1 <= nc_namlen e <= 15;
  sw_cred : nc_dp e <> 0 -> nc_cred e <> NOCRED -> is_Some (cr !! nc_cred e)
}.

Definition hash_of (k : key) : res nat :=
  NC_HASH (key_name k) (Z.of_nat (length (key_name k))) (key_dp k).

Definition hash_wf (c : list nc) (hs : list (list nat)) : Prop :=
  length hs = NC_HASH_SIZE /\
  forall h ch, hs !! h = Some ch -> NoDup ch /\
    forall i, i ∈ ch <-> exists e, c !! i = Some e /\ active e /\ hash_of (nc_key e) = Ok h.

(** Free slots come before the used ones. *)
Definition lru_wf (c : list nc) (l : list nat) : Prop :=
  l ≡ₚ seq 0 (length c) /\
  exists f a, l = f ++ a /\ Forall (fun i => slot c i = None) f /\
    Forall (fun i => slot c i <> None) a.

Record dnlc_wf (ext : gmap Z Z) (st : dnlc) : Prop := {
  wf_on : doingcache st = true;
  wf_slots : Forall (slot_wf ext (cr_ref st)) (ncache st);
  wf_lru : lru_wf (ncache st) (nc_lru st);
  wf_hash : hash_wf (ncache st) (nc_hash st);
  wf_uniq : NoDup (abs st).*1;
  wf_refs : refs ext (holds (ncache st)) (v_count st);
  wf_ext : forall v e, ext !! v = Some e ->
             v <> 0 /\ 0 <= e /\ e + 2 * Z.of_nat (length (ncache st)) < 65536
}.

(** What the callers pass: existing vnodes and credentials, a name of one character or more. *)
Definition op_ok (ext : gmap Z Z) (st : dnlc) (o : op) : Prop :=
  match o with
  | Lookup dp name cred => dp <> 0 /\ name <> [] /\ cred <> ANYCRED
  | Enter dp name vp cred => is_Some (ext !! dp) /\ is_Some (ext !! vp) /\ name <> [] /\
      cred <> ANYCRED /\ (cred <> NOCRED -> is_Some (cr_ref st !! cred))
  | Remove dp name => dp <> 0 /\ name <> []
  | PurgeVp vp => vp <> 0
  | Purge | Purge1 => True
  end.

(** ** Reference counts *)

Lemma holds_insert c i e e' v :
  c !! i = Some e -> holds (<[i := e']> c) v = holds c v - hold1 v e + hold1 v e'.
Proof.
  revert i. induction c as [|a c IH]; intros [|i] H; simpl in *; simplify_eq; [lia|].
  rewrite (IH i H). lia.
Qed.

Lemma holds_bound c v : 0 <= holds c v <= 2 * Z.of_nat (length c).
Proof.
  induction c as [|a c IH]; simpl length; simpl holds; [done|].
  unfold hold1, ind in *. repeat case_decide; lia.
Qed.

Lemma holds_ge c i e v : c !! i = Some e -> hold1 v e <= holds c v.
Proof.
  revert i. induction c as [|a c IH]; intros [|i] H; simpl in *; simplify_eq.
  - pose proof (holds_bound c v). lia.
  - specialize (IH i H). unfold hold1, ind in *. repeat case_decide; lia.
Qed.

Section Refs.
Context (ext : gmap Z Z).

Lemma refs_ext h h' vc : (forall v, is_Some (ext !! v) -> h v = h' v) ->
  refs ext h vc -> refs ext h' vc.
Proof.
  intros H Hr v. rewrite Hr. destruct (ext !! v) eqn:E; simpl; [|done]. by rewrite H.
Qed.

Lemma refs_insert h d v e vc : refs ext h vc -> ext !! v = Some e ->
  refs ext (fun u => h u + (if decide (u = v) then d else 0)) (<[v := e + (h v + d)]> vc).
Proof.
  intros Hr He u. destruct (decide (u = v)) as [->|].
  - by rewrite lookup_insert_eq, He.
  - rewrite lookup_insert_ne by done. rewrite Hr. destruct (ext !! u); simpl; [|done].
    f_equal. lia.
Qed.

Lemma vn_rele_spec st h v e :
  refs ext h (v_count st) -> ext !! v = Some e -> 0 <= e -> 0 < h v -> e + h v < 65536 ->
  exists vc ia, vn_rele st v = Ok (set_vnodes st vc ia) /\ refs ext (fun u => h u - ind u v) vc.
Proof.
  intros Hr He H0 Hh Hb. pose proof (Hr v) as Hv. rewrite He in Hv. simpl in Hv.
  unfold vn_rele. rewrite Hv. destruct (Z.eqb_spec (e + h v) 0); [lia|].
  eexists _, _. split; [done|]. rewrite wrapu_small by lia.
  eapply refs_ext; [|replace (e + h v - 1) with (e + (h v + -1)) by lia; by apply refs_insert].
  intros u _. unfold ind. simpl. case_decide; lia.
Qed.

Lemma VN_HOLD_spec st h v e :
  refs ext h (v_count st) -> ext !! v = Some e -> 0 <= e -> 0 <= h v -> e + h v + 1 < 65536 ->
  exists vc, VN_HOLD st v = Ok (set_vnodes st vc (inactive st)) /\ refs ext (fun u => h u + ind u v) vc.
Proof.
  intros Hr He H0 Hh Hb. pose proof (Hr v) as Hv. rewrite He in Hv. simpl in Hv.
  unfold VN_HOLD. rewrite Hv. eexists. split; [done|]. rewrite wrapu_small by lia.
  eapply refs_ext; [|replace (e + h v + 1) with (e + (h v + 1)) by lia; by apply refs_insert].
  intros u _. unfold ind. simpl. case_decide; lia.
Qed.
End Refs.

(** ** The view of the slots through the LRU chain *)

Lemma slot_Some c i e : c !! i = Some e -> active e -> slot c i = Some (nc_key e, nc_vp e).
Proof. unfold slot. intros -> ?. simpl. by rewrite decide_True. Qed.

Lemma slot_free c i e : c !! i = Some e -> nc_dp e = 0 -> slot c i = None.
Proof. unfold slot. intros -> ?. simpl. rewrite decide_False; [done|]. by intros []. Qed.

Lemma slot_inv c i x : slot c i = Some x ->
  exists e, c !! i = Some e /\ active e /\ x = (nc_key e, nc_vp e).
Proof.
  unfold slot. destruct (c !! i) as [e|]; simpl; [|done]. case_decide; [|done].
  intros [= <-]. eauto.
Qed.

Lemma view_app c l1 l2 : view c (l1 ++ l2) = view c l1 ++ view c l2.
Proof. apply omap_app. Qed.

Lemma view_frame c i e l : i ∉ l -> view (<[i := e]> c) l = view c l.
Proof.
  intros Hi. unfold view. apply list_omap_ext. apply Forall2_same_length_lookup.
  split; [done|]. intros j x y Hx Hy. simplify_eq.
  assert (x <> i) by (intros ->; apply Hi; by eapply list_elem_of_lookup_2).
  unfold slot. by rewrite list_lookup_insert_ne.
Qed.

Lemma view_free c l : Forall (fun i => slot c i = None) l -> view c l = [].
Proof. unfold view. induction 1 as [|i l Hi _ IH]; simpl; [done|]. by rewrite Hi. Qed.

Lemma view_used_length c l : Forall (fun i => slot c i <> None) l -> length (view c l) = length l.
Proof.
  unfold view. induction 1 as [|i l Hi _ IH]; simpl; [done|].
  destruct (slot c i); [|done]. simpl. by f_equal.
Qed.

Lemma elem_of_view c l x : x ∈ view c l <-> exists i, i ∈ l /\ slot c i = Some x.
Proof. unfold view. rewrite list_elem_of_omap. done. Qed.

Lemma unlink_mid i l1 l2 : i ∉ l1 -> unlink i (l1 ++ i :: l2) = l1 ++ l2.
Proof.
  induction l1 as [|x l1 IH]; simpl; intros H; [by rewrite decide_True|].
  apply not_elem_of_cons in H as [H1 H2]. rewrite decide_False by done. by rewrite IH.
Qed.

Lemma unlink_notin i l : i ∉ l -> unlink i l = l.
Proof.
  induction l as [|x l IH]; simpl; [done|]. intros [H1 H2]%not_elem_of_cons.
  rewrite decide_False by done. by rewrite IH.
Qed.

(** ** Searching *)

Definition matches (dp : Z) (name : list Z) (cred : Z) (k : key) : Prop :=
  key_dp k = dp /\ key_name k = name /\ (cred = ANYCRED \/ k.2 = cred).

Lemma nc_key_name_length ext cr e : slot_wf ext cr e -> active e ->
  Z.of_nat (length (key_name (nc_key e))) = nc_namlen e.
Proof.
  intros Hw Ha. pose proof (sw_name _ _ _ Hw Ha). pose proof (sw_len _ _ _ Hw).
  unfold nc_key, key_name. simpl. rewrite length_take. lia.
Qed.

Lemma NC_HASH_Ok name n dp : name <> [] -> exists h, NC_HASH name n dp = Ok h /\ (h < NC_HASH_SIZE)%nat.
Proof.
  intros Hn. unfold NC_HASH.
  destruct (lookup_lt_is_Some_2 name 0) as [c0 H0]; [destruct name; simpl; [done|lia]|].
  destruct (lookup_lt_is_Some_2 name (length name - 1)) as [c1 H1]; [destruct name; simpl; [done|lia]|].
  rewrite (proj2 (rd_Ok _ _ _) H0). kstep. rewrite (proj2 (rd_Ok _ _ _) H1). kstep.
  eexists. split; [done|]. unfold NC_HASH_SIZE.
  change (Z.of_nat 8 - 1) with (Z.ones 3). rewrite Z.land_ones by lia.
  pose proof (Z.mod_pos_bound (i32 (c0 + c1 + n + dp)) (2 ^ 3) ltac:(lia)). lia.
Qed.

Lemma search_test ext cr e dp name cred : slot_wf ext cr e -> dp <> 0 -> name <> [] ->
  (nc_dp e =? dp) && (nc_namlen e =? Z.of_nat (length name)) &&
    ((cred =? ANYCRED) || (nc_cred e =? cred)) && same_name e name (Z.of_nat (length name)) = true
  <-> active e /\ matches dp name cred (nc_key e).
Proof.
  intros Hw Hd Hn. unfold same_name, matches, active.
  rewrite !andb_true_iff, orb_true_iff, !Z.eqb_eq, !bool_decide_eq_true. split.
  - intros (((H1 & H2) & H3) & H4 & H5). subst dp. split; [done|]. split; [done|].
    split; [|done]. unfold nc_key, key_name. simpl. by rewrite H2.
  - intros (Ha & H1 & H2 & H3). pose proof (nc_key_name_length _ _ _ Hw Ha) as Hl.
    rewrite H2 in Hl. repeat split; try done.
    + unfold nc_key, key_name in H2. simpl in H2. rewrite <- H2.
      destruct (nc_name e); simpl; [by destruct (Z.to_nat _)|].
      destruct (Z.to_nat (nc_namlen e)) eqn:E; [|done]. destruct name; [done|]. simpl in *. lia.
    + by rewrite Hl.
Qed.

Section Search.
Context (ext : gmap Z Z) (st : dnlc) (dp : Z) (name : list Z) (cred : Z).
Hypothesis Hw : dnlc_wf ext st.
Hypothesis Hd : dp <> 0.
Hypothesis Hn : name <> [].

Lemma slot_at i e : ncache st !! i = Some e -> slot_wf ext (cr_ref st) e.
Proof. intros H. eapply Forall_lookup_1; [apply Hw|done]. Qed.

Lemma search_chain_spec c : Forall (fun i => is_Some (ncache st !! i)) c ->
  exists r, search_chain st dp name (Z.of_nat (length name)) cred c = Ok r /\
    match r with
    | Some i => i ∈ c /\ exists e, ncache st !! i = Some e /\ active e /\ matches dp name cred (nc_key e)
    | None => forall i e, i ∈ c -> ncache st !! i = Some e -> active e -> ~ matches dp name cred (nc_key e)
    end.
Proof.
  induction 1 as [|i c [e He] _ (r & IH & Hr)]; simpl.
  { exists None. split; [done|]. by intros ? ? ?%elem_of_nil. }
  rewrite (proj2 (rd_Ok _ _ _) He). kstep.
  pose proof (search_test _ _ _ dp name cred (slot_at _ _ He) Hd Hn) as Ht.
  destruct (_ && _).
  - exists (Some i). split; [done|]. split; [by left|]. exists e. by destruct (proj1 Ht eq_refl).
  - exists r. split; [done|]. destruct r as [j|].
    + destruct Hr as [? ?]. split; [by right|done].
    + intros j f [->|Hj]%elem_of_cons Hf Ha; [|by eauto]. simplify_eq. intros Hm.
      discriminate (proj2 Ht (conj Ha Hm)).
Qed.

Lemma dnlc_search_spec : (length name <= 15)%nat ->
  exists h ch r, NC_HASH name (Z.of_nat (length name)) dp = Ok h /\ nc_hash st !! h = Some ch /\
    dnlc_search st dp name (Z.of_nat (length name)) h cred = Ok r /\
    match r with
    | Some i => i ∈ ch /\ exists e, ncache st !! i = Some e /\ active e /\ matches dp name cred (nc_key e)
    | None => forall i e, ncache st !! i = Some e -> active e -> ~ matches dp name cred (nc_key e)
    end.
Proof.
  intros Hlen. destruct (NC_HASH_Ok name (Z.of_nat (length name)) dp Hn) as (h & Hh & Hlt).
  destruct (wf_hash _ _ Hw) as [Hl Hhs].
  destruct (lookup_lt_is_Some_2 (nc_hash st) h ltac:(lia)) as [ch Hch].
  destruct (Hhs _ _ Hch) as [_ Hin].
  destruct (search_chain_spec ch) as (r & Hr & Hs).
  { apply Forall_forall. intros i Hi. apply Hin in Hi as (e & -> & _). eauto. }
  exists h, ch, r. split; [done|]. split; [done|]. unfold dnlc_search.
  rewrite (proj2 (rd_Ok _ _ _) Hch). kstep. split; [done|]. destruct r as [i|]; [done|].
  intros i e He Ha Hm. eapply Hs; try done. apply Hin. exists e. split; [done|].
  split; [done|]. destruct Hm as (Hm1 & Hm2 & _). unfold hash_of. by rewrite Hm1, Hm2.
Qed.
End Search.

(** A slot on the LRU chain, and its place in the view. *)
Lemma lru_split c l i e : lru_wf c l -> c !! i = Some e ->
  exists l1 l2, l = l1 ++ i :: l2 /\ NoDup (l1 ++ i :: l2).
Proof.
  intros [Hp _] He. assert (i ∈ l) as Hi.
  { rewrite Hp. apply elem_of_seq. apply lookup_lt_Some in He. lia. }
  apply list_elem_of_split in Hi as (l1 & l2 & ->). exists l1, l2. split; [done|].
  rewrite Hp. apply NoDup_seq.
Qed.

Lemma elem_of_abs ext st x : dnlc_wf ext st ->
  x ∈ abs st <-> exists i e, ncache st !! i = Some e /\ active e /\ x = (nc_key e, nc_vp e).
Proof.
  intros Hw. unfold abs. rewrite elem_of_view. split.
  - intros (i & _ & Hs). apply slot_inv in Hs as (e & ? & ? & ?). eauto.
  - intros (i & e & He & Ha & ->). exists i. split; [|by apply slot_Some].
    destruct (lru_split _ _ _ _ (wf_lru _ _ Hw) He) as (l1 & l2 & -> & _).
    apply elem_of_app. right. left.
Qed.

(** ** Preservation of the parts of the invariant *)

Lemma slot_insert_ne c i j e : j <> i -> slot (<[i := e]> c) j = slot c j.
Proof. intros. unfold slot. by rewrite list_lookup_insert_ne. Qed.

Lemma slot_insert_notin (P : option entry -> Prop) c i e l :
  i ∉ l -> Forall (fun j => P (slot c j)) l -> Forall (fun j => P (slot (<[i := e]> c) j)) l.
Proof.
  intros Hi. rewrite !Forall_forall. intros H j Hj. rewrite slot_insert_ne; [by apply H|].
  by intros ->.
Qed.

Lemma NoDup_mid {A} (l1 l2 : list A) x : NoDup (l1 ++ x :: l2) ->
  x ∉ l1 /\ x ∉ l2 /\ NoDup (l1 ++ l2).
Proof.
  rewrite !NoDup_app, NoDup_cons. intros (H1 & H2 & H3 & H4).
  split; [intros H; apply (H2 x H); by left|]. split; [done|]. split; [done|]. split; [|done].
  intros y Hy ?. apply (H2 y Hy). by right.
Qed.

Lemma lru_used c l1 l2 i : lru_wf c (l1 ++ i :: l2) -> slot c i <> None ->
  exists f a, l1 = f ++ a /\ Forall (fun j => slot c j = None) f /\
    Forall (fun j => slot c j <> None) (a ++ i :: l2).
Proof.
  intros (_ & f & a & E & Hf & Ha) Hi. revert l1 E.
  induction Hf as [|x f Hx _ IH]; simpl; intros l1 E.
  - exists [], l1. split; [done|]. split; [by constructor|]. by rewrite E.
  - destruct l1 as [|y l1]; [by simplify_eq/=|]. injection E as -> E.
    destruct (IH l1 E) as (f' & a' & -> & H1 & H2). exists (x :: f'), a'.
    split; [done|]. split; [by constructor|done].
Qed.

Lemma lru_wf_free c l1 l2 i e e' : lru_wf c (l1 ++ i :: l2) -> NoDup (l1 ++ i :: l2) ->
  c !! i = Some e -> active e -> nc_dp e' = 0 -> lru_wf (<[i := e']> c) (i :: l1 ++ l2).
Proof.
  intros Hl Hnd He Ha He'. apply NoDup_mid in Hnd as (Hi1 & Hi2 & Hnd).
  destruct (lru_used _ _ _ _ Hl) as (f & a & -> & Hf & Hu); [by rewrite (slot_Some _ _ _ He Ha)|].
  destruct Hl as [Hp _]. split.
  { rewrite length_insert, <- Hp. by rewrite Permutation_middle. }
  exists (i :: f), (a ++ l2). rewrite not_elem_of_app in Hi1. destruct Hi1.
  apply Forall_app in Hu as [Hu1 Hu2]. apply Forall_cons in Hu2 as [_ Hu2]. split.
  { simpl. by rewrite <- app_assoc. } split.
  - constructor; [|by apply (slot_insert_notin (fun o => o = None))].
    eapply slot_free; [|exact He']. apply list_lookup_insert_eq. by eapply lookup_lt_Some.
  - apply (slot_insert_notin (fun o => o <> None)); [by rewrite not_elem_of_app|].
    by apply Forall_app.
Qed.

(** Taking slot [i] off the end the next use comes from, and filling it at the other. *)
Lemma lru_wf_fill c l i e' : lru_wf c (i :: l) -> NoDup (i :: l) -> active e' ->
  lru_wf (<[i := e']> c) (l ++ [i]).
Proof.
  intros (Hp & f & a & E & Hf & Ha) Hnd Hact. apply NoDup_cons in Hnd as [Hi _]. split.
  { rewrite length_insert, <- Hp. by rewrite (Permutation_app_comm l). }
  assert (i < length c)%nat as Hlt.
  { assert (i ∈ seq 0 (length c)) as H%elem_of_seq by (rewrite <- Hp; by left). lia. }
  exists (tail f), ((match f with [] => tail a | _ => a end) ++ [i]).
  assert (Forall (fun j => slot c j = None) (tail f)) by (destruct Hf; simpl; [constructor|done]).
  assert (Forall (fun j => slot c j <> None) (match f with [] => tail a | _ => a end)).
  { destruct f; [|done]. by destruct Ha. }
  assert (l = tail f ++ match f with [] => tail a | _ => a end) as El.
  { destruct f as [|x f]; simpl in *; [by rewrite <- E|]. by injection E. }
  rewrite El, not_elem_of_app in Hi. destruct Hi.
  split; [by rewrite El, app_assoc|]. split.
  - by apply (slot_insert_notin (fun o => o = None)).
  - apply Forall_app. split; [by apply (slot_insert_notin (fun o => o <> None))|].
    constructor; [|done]. erewrite slot_Some; [done| |done]. by apply list_lookup_insert_eq.
Qed.

(** A use moves a slot to the far end. *)
Lemma lru_wf_use c l1 l2 i : lru_wf c (l1 ++ i :: l2) -> slot c i <> None ->
  lru_wf c ((l1 ++ l2) ++ [i]).
Proof.
  intros Hl Hi. destruct (lru_used _ _ _ _ Hl Hi) as (f & a & -> & Hf & Hu).
  destruct Hl as [Hp _]. split.
  { rewrite <- Hp, <- Permutation_middle, app_nil_r. by rewrite Permutation_middle. }
  exists f, ((a ++ l2) ++ [i]). split; [by rewrite !app_assoc|]. split; [done|].
  apply Forall_app in Hu as [Hu1 Hu2]. apply Forall_cons in Hu2 as [? Hu2].
  rewrite !Forall_app. repeat split; try done. by constructor.
Qed.

Lemma hash_wf_remove c hs i e' : hash_wf c hs -> ~ active e' ->
  hash_wf (<[i := e']> c) (map (unlink i) hs).
Proof.
  intros [Hl Hh] He'. split; [by rewrite length_map|].
  intros h ch Hch. change (map (unlink i) hs) with (unlink i <$> hs) in Hch.
  rewrite list_lookup_fmap in Hch. apply fmap_Some in Hch as (ch0 & Hch & ->).
  destruct (Hh _ _ Hch) as [Hnd Hin]. destruct (unlink_spec i ch0 Hnd) as [Hnd' Hu].
  split; [done|]. intros j. rewrite Hu, Hin. split.
  - intros [(e & ? & ? & ?) ?]. exists e. by rewrite list_lookup_insert_ne.
  - intros (e & He & ? & ?). destruct (decide (j = i)) as [->|].
    + apply list_lookup_insert_Some in He as [(_ & -> & _)|[? _]]; [done|done].
    + rewrite list_lookup_insert_ne in He by done. eauto 10.
Qed.

(** Filling slot [i], which is on no chain, and putting it on the chain of its hash. *)
Lemma hash_wf_fill c hs i e' h ch : hash_wf c hs -> (i < length c)%nat ->
  (forall e, c !! i = Some e -> ~ active e) -> active e' ->
  hash_of (nc_key e') = Ok h -> hs !! h = Some ch ->
  hash_wf (<[i := e']> c) (<[h := i :: ch]> hs).
Proof.
  intros [Hl Hh] Hi Hfree Ha' Hk Hch. split; [by rewrite length_insert|].
  assert (forall h' ch', hs !! h' = Some ch' -> i ∉ ch') as Hno.
  { intros h' ch' Hc Hin. apply (Hh _ _ Hc) in Hin as (e & He & Ha & _). by apply (Hfree e). }
  intros h' ch' Hc. destruct (decide (h' = h)) as [->|].
  - rewrite list_lookup_insert_eq in Hc by (by eapply lookup_lt_Some). simplify_eq.
    destruct (Hh _ _ Hch) as [Hnd Hin]. split; [constructor; eauto|].
    intros j. rewrite elem_of_cons, Hin. destruct (decide (j = i)) as [->|].
    + rewrite list_lookup_insert_eq by done. split; [eauto 10|by left].
    + rewrite list_lookup_insert_ne by done. naive_solver.
  - rewrite list_lookup_insert_ne in Hc by done. destruct (Hh _ _ Hc) as [Hnd Hin].
    split; [done|]. intros j. rewrite Hin. destruct (decide (j = i)) as [->|].
    + rewrite list_lookup_insert_eq by done. split.
      * intros (e & He & Ha & _). by destruct (Hfree e).
      * intros (e & [= <-] & _ & E). rewrite Hk in E. by simplify_eq.
    + by rewrite list_lookup_insert_ne.
Qed.

Lemma move_up_perm i c : move_up i c ≡ₚ c.
Proof.
  induction c as [|p c IH]; [done|]. simpl. destruct c as [|x c]; [done|].
  destruct (decide (x = i)); [by rewrite Permutation_swap|]. by rewrite IH.
Qed.

Lemma hash_wf_move c hs h ch i : hash_wf c hs -> hs !! h = Some ch ->
  hash_wf c (<[h := move_up i ch]> hs).
Proof.
  intros [Hl Hh] Hch. split; [by rewrite length_insert|]. intros h' ch' Hc.
  destruct (decide (h' = h)) as [->|].
  - rewrite list_lookup_insert_eq in Hc by (by eapply lookup_lt_Some). simplify_eq.
    destruct (Hh _ _ Hch) as [Hnd Hin]. rewrite move_up_perm. split; [done|].
    intros j. by rewrite move_up_perm, Hin.
  - rewrite list_lookup_insert_ne in Hc by done. by apply Hh.
Qed.

(** ** Obliterating an entry *)

Lemma crfree_Ok st c : is_Some (cr_ref st !! c) ->
  exists cr fl, crfree st c = Ok (set_creds st cr fl) /\ dom cr = dom (cr_ref st).
Proof.
  intros [n Hn]. unfold crfree. rewrite Hn. eexists _, _. split; [done|].
  rewrite dom_insert_L. apply elem_of_dom_2 in Hn. set_solver.
Qed.

Lemma crhold_Ok st c : is_Some (cr_ref st !! c) ->
  exists cr, crhold st c = Ok (set_creds st cr (crfreelist st)) /\ dom cr = dom (cr_ref st).
Proof.
  intros [n Hn]. unfold crhold. rewrite Hn. eexists. split; [done|].
  rewrite dom_insert_L. apply elem_of_dom_2 in Hn. set_solver.
Qed.

Lemma slot_wf_dom ext cr cr' e : dom cr' = dom cr -> slot_wf ext cr e -> slot_wf ext cr' e.
Proof.
  intros Hd [H1 H2 H3 H4 H5]. constructor; try done. intros Ha Hc.
  apply elem_of_dom. rewrite Hd. apply elem_of_dom. auto.
Qed.

Lemma slots_wf_insert ext cr cr' c i e : dom cr' = dom cr ->
  Forall (slot_wf ext cr) c -> slot_wf ext cr' e -> Forall (slot_wf ext cr') (<[i := e]> c).
Proof.
  intros Hd Hc He. apply Forall_insert; [|done]. eapply Forall_impl; [done|].
  intros a. by apply slot_wf_dom.
Qed.

Lemma wr_Ok {A} (l : list A) i x y : l !! i = Some y -> wr l i x = Ok (<[i := x]> l).
Proof. intros H. unfold wr. by rewrite decide_True by (by eapply lookup_lt_Some). Qed.

(** The counts two releases leave when the cache drops the entry of a slot. *)
Lemma rele2_spec ext st h v w e f :
  refs ext h (v_count st) -> ext !! v = Some e -> ext !! w = Some f -> 0 <= e -> 0 <= f ->
  (forall u, ind u v + ind u w <= h u) -> (forall u, e + h u < 65536 /\ f + h u < 65536) ->
  exists st' vc ia, vn_rele st v = Ok st' /\
    vn_rele st' w = Ok (set_vnodes st vc ia) /\
    refs ext (fun u => h u - (ind u v + ind u w)) vc.
Proof.
  intros Hr Hv Hw He Hf Hh Hb.
  assert (ind v v = 1 /\ ind w w = 1) as [Iv Iw] by (unfold ind; by rewrite !decide_True).
  assert (forall a b, 0 <= ind a b) as I0 by (intros; unfold ind; case_decide; lia).
  destruct (vn_rele_spec ext st h v e Hr Hv He) as (vc & ia & E1 & Hr1);
    [pose proof (Hh v); pose proof (I0 v w); lia|apply Hb|].
  destruct (vn_rele_spec ext (set_vnodes st vc ia) _ w f Hr1 Hw Hf) as (vc2 & ia2 & E2 & Hr2).
  { pose proof (Hh w). lia. }
  { pose proof (Hb w). pose proof (I0 w v). lia. }
  exists (set_vnodes st vc ia), vc2, ia2. split; [done|]. split; [done|].
  eapply refs_ext; [|exact Hr2]. intros u _. simpl. lia.
Qed.

Lemma ext_of ext st e : dnlc_wf ext st -> slot_wf ext (cr_ref st) e -> active e ->
  exists a b, ext !! nc_dp e = Some a /\ ext !! nc_vp e = Some b /\ 0 <= a /\ 0 <= b /\
    forall u, a + holds (ncache st) u < 65536 /\ b + holds (ncache st) u < 65536.
Proof.
  intros Hw Hs Ha. destruct (sw_vp _ _ _ Hs Ha) as (_ & [a Hva] & [b Hvb]).
  pose proof (wf_ext _ _ Hw _ _ Hva). pose proof (wf_ext _ _ Hw _ _ Hvb).
  exists a, b. split; [done|]. split; [done|]. split; [lia|]. split; [lia|].
  intros u. pose proof (holds_bound (ncache st) u). lia.
Qed.

Lemma NoDup_fst_mid {A B} (l1 l2 : list (A * B)) x :
  NoDup (l1 ++ x :: l2).*1 -> NoDup (l1 ++ l2).*1.
Proof. rewrite !fmap_app. simpl. intros H. by apply NoDup_mid in H as (_ & _ & ?). Qed.

(** The view when slot [i] is in the middle of the chain and in use. *)
Lemma view_mid c l1 i l2 e : c !! i = Some e -> active e ->
  view c (l1 ++ i :: l2) = view c l1 ++ (nc_key e, nc_vp e) :: view c l2.
Proof.
  intros He Ha. rewrite view_app. f_equal. unfold view. simpl.
  by rewrite (slot_Some _ _ _ He Ha).
Qed.

Lemma dnlc_rm_spec ext st i e l1 l2 : dnlc_wf ext st -> ncache st !! i = Some e -> active e ->
  nc_lru st = l1 ++ i :: l2 ->
  exists st', dnlc_rm st i = Ok st' /\ dnlc_wf ext st' /\ length (ncache st') = length (ncache st) /\
    abs st' = view (ncache st) l1 ++ view (ncache st) l2.
Proof.
  intros Hw He Ha El. pose proof (slot_at _ _ Hw _ _ He) as Hs.
  assert (NoDup (l1 ++ i :: l2)) as Hnd.
  { rewrite <- El, (proj1 (wf_lru _ _ Hw)). apply NoDup_seq. }
  pose proof (NoDup_mid _ _ _ Hnd) as (Hi1 & Hi2 & _).
  pose proof (wf_lru _ _ Hw) as Hlru. rewrite El in Hlru.
  destruct (ext_of _ _ _ Hw Hs Ha) as (a & b & Hea & Heb & Ha0 & Hb0 & Hab).
  pose proof (fun u => holds_ge _ _ _ u He) as Hge. unfold hold1 in Hge.
  unfold dnlc_rm. rewrite (proj2 (rd_Ok _ _ _) He). kstep.
  destruct (rele2_spec ext (RM_HASH (RM_LRU st i) i) (holds (ncache st)) (nc_dp e) (nc_vp e) a b)
    as (st2 & vc & ia & -> & E3 & Hr); [apply Hw|done..|]. kstep. rewrite E3. kstep.
  set (e' := Nc 0 0 (nc_namlen e) (nc_name e) NOCRED).
  set (st3 := set_vnodes (RM_HASH (RM_LRU st i) i) vc ia).
  assert (exists cr fl, (if nc_cred e =? NOCRED then mret st3 else crfree st3 (nc_cred e))
    = Ok (set_creds st3 cr fl) /\ dom cr = dom (cr_ref st)) as (cr & fl & E4 & Hdom).
  { destruct (Z.eqb_spec (nc_cred e) NOCRED) as [|Hc].
    - by exists (cr_ref st3), (crfreelist st3).
    - apply (crfree_Ok st3). by apply (sw_cred _ _ _ Hs). }
  rewrite E4. kstep. unfold set_nc. simpl ncache. rewrite (wr_Ok _ _ e' e He). kstep.
  eexists. split; [done|].
  assert (abs (ins_lru_head (set_slots (set_creds st3 cr fl) (<[i:=e']> (ncache st))
     (unlink i (nc_lru st)) (map (unlink i) (nc_hash st))) i)
    = view (ncache st) l1 ++ view (ncache st) l2) as Eabs.
  { unfold abs. simpl. rewrite El, unlink_mid by done. unfold view at 1. simpl.
    rewrite (slot_free _ i e'); [|apply list_lookup_insert_eq; by eapply lookup_lt_Some|done].
    fold (view (<[i:=e']> (ncache st)) (l1 ++ l2)).
    rewrite view_frame by (rewrite not_elem_of_app; done). apply view_app. }
  split; [|split; [simpl; by rewrite length_insert|exact Eabs]].
  constructor; simpl.
  - apply Hw.
  - eapply slots_wf_insert; [exact Hdom|apply Hw|]. constructor; simpl; try done. apply Hs.
  - rewrite El, unlink_mid by done. by eapply lru_wf_free.
  - apply hash_wf_remove; [apply Hw|]. by intros [].
  - rewrite Eabs. pose proof (wf_uniq _ _ Hw) as Hu. unfold abs in Hu.
    rewrite El, (view_mid _ _ _ _ _ He Ha) in Hu. by eapply NoDup_fst_mid.
  - eapply refs_ext; [|exact Hr]. intros u [x Hx]. rewrite (holds_insert _ _ _ _ _ He).
    unfold hold1. simpl. destruct (wf_ext _ _ Hw _ _ Hx) as [? _]. unfold ind at 5 6.
    rewrite !decide_False by done. lia.
  - rewrite length_insert. apply Hw.
Qed.

(** ** Entering a name *)

(** What the slot held is released. *)
Lemma drop_old_spec ext st st1 e i : dnlc_wf ext st -> ncache st !! i = Some e ->
  v_count st1 = v_count st ->
  exists st2 vc ia,
    (if nc_dp e =? 0 then mret st1 else vn_rele st1 (nc_dp e)) = Ok st2 /\
    (if nc_vp e =? 0 then mret st2 else vn_rele st2 (nc_vp e)) = Ok (set_vnodes st1 vc ia) /\
    refs ext (fun u => holds (ncache st) u - hold1 u e) vc.
Proof.
  intros Hw He Hv. pose proof (slot_at _ _ Hw _ _ He) as Hs.
  pose proof (wf_refs _ _ Hw) as Hr. rewrite <- Hv in Hr.
  destruct (Z.eqb_spec (nc_dp e) 0) as [H0|Ha].
  - exists st1, (v_count st1), (inactive st1). rewrite (sw_free _ _ _ Hs H0). split; [done|].
    split; [by destruct st1|]. eapply refs_ext; [|exact Hr]. intros u [x Hx]. simpl.
    destruct (wf_ext _ _ Hw _ _ Hx) as [? _]. unfold hold1, ind.
    rewrite H0, (sw_free _ _ _ Hs H0), !decide_False by done. lia.
  - destruct (ext_of _ _ _ Hw Hs Ha) as (a & b & Hea & Heb & Ha0 & Hb0 & Hab).
    pose proof (fun u => holds_ge _ _ _ u He) as Hge. unfold hold1 in Hge.
    destruct (rele2_spec ext st1 (holds (ncache st)) (nc_dp e) (nc_vp e) a b)
      as (st2 & vc & ia & E2 & E3 & Hr'); [done..|].
    exists st2, vc, ia. split; [done|]. destruct (Z.eqb_spec (nc_vp e) 0) as [H0|].
    + by destruct (sw_vp _ _ _ Hs Ha).
    + by split.
Qed.

Lemma hold2_spec ext st h v w e f :
  refs ext h (v_count st) -> ext !! v = Some e -> ext !! w = Some f -> 0 <= e -> 0 <= f ->
  (forall u, 0 <= h u) ->
  (forall u, e + (h u + (ind u v + ind u w)) < 65536 /\ f + (h u + (ind u v + ind u w)) < 65536) ->
  exists st' vc, VN_HOLD st v = Ok st' /\
    VN_HOLD st' w = Ok (set_vnodes st vc (inactive st)) /\
    refs ext (fun u => h u + (ind u v + ind u w)) vc.
Proof.
  intros Hr Hv Hw He Hf Hh Hb.
  assert (ind v v = 1 /\ ind w w = 1) as [Iv Iw] by (unfold ind; by rewrite !decide_True).
  assert (forall a b, 0 <= ind a b) as I0 by (intros; unfold ind; case_decide; lia).
  destruct (VN_HOLD_spec ext st h v e Hr Hv He (Hh v)) as (vc & E1 & Hr1).
  { pose proof (Hb v). pose proof (I0 v w). lia. }
  destruct (VN_HOLD_spec ext (set_vnodes st vc (inactive st)) _ w f Hr1 Hw Hf) as (vc2 & E2 & Hr2).
  { pose proof (Hh w). pose proof (I0 w v). lia. }
  { pose proof (Hb w). lia. }
  exists (set_vnodes st vc (inactive st)), vc2. split; [done|]. split; [done|].
  eapply refs_ext; [|exact Hr2]. intros u _. simpl. lia.
Qed.

Lemma hash_rm_lookup hs h i : (h < length hs)%nat -> exists ch, map (unlink i) hs !! h = Some ch.
Proof. intros. apply lookup_lt_is_Some. by rewrite length_map. Qed.

Lemma enter_slot_spec ext st i l dp name vp cred h :
  dnlc_wf ext st -> op_ok ext st (Enter dp name vp cred) -> (length name <= 15)%nat ->
  NC_HASH name (Z.of_nat (length name)) dp = Ok h -> nc_lru st = i :: l ->
  (dp, name, cred) ∉ (abs st).*1 ->
  exists st', enter_slot st i dp name vp cred h = Ok st' /\ dnlc_wf ext st' /\
    length (ncache st') = length (ncache st) /\
    abs st' = view (ncache st) l ++ [((dp, name, cred), vp)].
Proof.
  intros Hw ([a Hea] & [b Heb] & Hne & Hany & Hcr) Hlen Hh El Hk.
  assert (NoDup (i :: l)) as Hnd.
  { rewrite <- El, (proj1 (wf_lru _ _ Hw)). apply NoDup_seq. }
  pose proof (wf_lru _ _ Hw) as Hlru. rewrite El in Hlru.
  assert (exists e, ncache st !! i = Some e) as [e He].
  { apply lookup_lt_is_Some. assert (i ∈ seq 0 (length (ncache st))) as H%elem_of_seq; [|lia].
    rewrite <- (proj1 Hlru). by left. }
  pose proof (slot_at _ _ Hw _ _ He) as Hs.
  set (e' := Nc vp dp (Z.of_nat (length name)) (name ++ drop (length name) (nc_name e)) cred).
  destruct (wf_ext _ _ Hw _ _ Hea) as (Hdp & Ha0 & Hab).
  destruct (wf_ext _ _ Hw _ _ Heb) as (Hvp & Hb0 & Hbb).
  assert (active e') as Hact by exact Hdp.
  assert (nc_key e' = (dp, name, cred)) as Ekey.
  { unfold nc_key. simpl. by rewrite Nat2Z.id, take_app_length. }
  pose proof (fun u => holds_insert _ _ _ e' u He) as Hins.
  pose proof (fun u => holds_bound (<[i:=e']> (ncache st)) u) as Hbd. rewrite length_insert in Hbd.
  unfold enter_slot. rewrite (proj2 (rd_Ok _ _ _) He). kstep.
  destruct (drop_old_spec ext st (RM_HASH (RM_LRU st i) i) e i Hw He eq_refl)
    as (st2 & vc & ia & -> & E3 & Hr). kstep. rewrite E3. kstep.
  destruct (hold2_spec ext (set_vnodes (RM_HASH (RM_LRU st i) i) vc ia) _ dp vp a b Hr Hea Heb Ha0 Hb0)
    as (st4 & vc' & -> & E5 & Hr').
  { intros u. pose proof (holds_ge _ _ _ u He). lia. }
  { intros u. specialize (Hins u). specialize (Hbd u).
    unfold hold1 at 2 in Hins. simpl in Hins. lia. }
  kstep. rewrite E5. kstep. unfold set_nc. simpl ncache. fold e'. rewrite (wr_Ok _ _ e' e He). kstep.
  match goal with |- context [if cred =? 0 then mret ?x else _] => set (st6 := x) end.
  assert (exists cr, (if cred =? 0 then mret st6 else crhold st6 cred)
    = Ok (set_creds st6 cr (crfreelist st6)) /\ dom cr = dom (cr_ref st)) as (cr & E7 & Hdom).
  { destruct (Z.eqb_spec cred 0) as [|Hc]; [by exists (cr_ref st6)|].
    apply (crhold_Ok st6). by apply Hcr. }
  rewrite E7. kstep. destruct (wf_hash _ _ Hw) as [Hl8 _].
  destruct (hash_rm_lookup (nc_hash st) h i) as [ch Hch].
  { destruct (NC_HASH_Ok name (Z.of_nat (length name)) dp Hne) as (h' & Hh' & ?).
    rewrite Hl8. congruence. }
  unfold INS_HASH. simpl nc_hash. rewrite (proj2 (rd_Ok _ _ _) Hch). kstep.
  rewrite (wr_Ok _ _ _ _ Hch). kstep. eexists. split; [done|].
  match goal with |- dnlc_wf _ ?x /\ _ => set (st9 := x) end.
  assert (abs st9 = view (ncache st) l ++ [((dp, name, cred), vp)]) as Eabs.
  { unfold abs. simpl. rewrite El. simpl. rewrite decide_True by done. rewrite view_app.
    apply NoDup_cons in Hnd as [Hi _]. rewrite view_frame by done. f_equal.
    unfold view. simpl. erewrite slot_Some; [by rewrite Ekey| |done].
    apply list_lookup_insert_eq. by eapply lookup_lt_Some. }
  split; [|split; [simpl; by rewrite length_insert|exact Eabs]].
  constructor; simpl.
  - apply Hw.
  - eapply slots_wf_insert; [exact Hdom|apply Hw|]. constructor; simpl; try done; try lia.
    + rewrite length_app, length_drop, (sw_len _ _ _ Hs). lia.
    + intros _. destruct name; [done|]. cbn [length] in *. lia.
    + intros _ Hc. apply elem_of_dom. rewrite Hdom. apply elem_of_dom. auto.
  - rewrite El. simpl. rewrite decide_True by done. by apply lru_wf_fill.
  - set (f := Nc 0 0 0 (nc_name e) 0).
    rewrite <- (list_insert_insert_eq (ncache st) i e' f).
    apply hash_wf_fill; [apply hash_wf_remove; [apply Hw|by intros []]| | |done| |done].
    + rewrite length_insert. by eapply lookup_lt_Some.
    + intros g Hg. rewrite list_lookup_insert_eq in Hg by (by eapply lookup_lt_Some).
      simplify_eq. by intros [].
    + unfold hash_of. by rewrite Ekey.
  - rewrite Eabs, fmap_app. simpl. apply NoDup_app. pose proof (wf_uniq _ _ Hw) as Hu.
    unfold abs in Hu, Hk. rewrite El in Hu, Hk. change (i :: l) with ([i] ++ l) in Hu, Hk.
    rewrite view_app, fmap_app in Hu, Hk. apply NoDup_app in Hu as (_ & _ & Hu).
    split; [done|]. split; [|apply NoDup_singleton].
    intros k Hin ->%list_elem_of_singleton. apply Hk. apply elem_of_app. by right.
  - eapply refs_ext; [|exact Hr']. intros u _. simpl. rewrite Hins. unfold hold1 at 3. simpl. lia.
  - rewrite length_insert. apply Hw.
Qed.

(** ** Finding and dropping entries of the abstract cache *)

Lemma find_key_None k l : k ∉ l.*1 -> find_key k l = None.
Proof.
  intros H. unfold find_key. replace (list_find _ l) with (@None (nat * entry)); [done|].
  symmetry. apply list_find_None. apply Forall_forall. intros x Hx E. subst k.
  apply H. apply list_elem_of_fmap. eauto.
Qed.

Lemma find_key_Some l1 k v l2 : NoDup (l1 ++ (k, v) :: l2).*1 ->
  find_key k (l1 ++ (k, v) :: l2) = Some v.
Proof.
  rewrite fmap_app. intros (Hk & _ & _)%NoDup_mid. unfold find_key.
  assert (list_find (fun e : entry => e.1 = k) l1 = None) as E.
  { apply list_find_None, Forall_forall. intros x Hx E. subst k. apply Hk.
    simpl. apply list_elem_of_fmap. eauto. }
  rewrite list_find_app_r by done. simpl. by rewrite decide_True.
Qed.

Lemma filter_others l1 k v l2 : NoDup (l1 ++ (k, v) :: l2).*1 ->
  filter (fun e : entry => e.1 <> k) (l1 ++ (k, v) :: l2) = l1 ++ l2.
Proof.
  rewrite fmap_app. intros (H1 & H2 & _)%NoDup_mid.
  rewrite filter_app, filter_cons_False by (simpl; tauto).
  assert (forall l : list entry, k ∉ l.*1 -> filter (fun e : entry => e.1 <> k) l = l) as H.
  { intros l Hl. apply list_filter_all. apply Forall_forall. intros x Hx E. subst k.
    apply Hl, list_elem_of_fmap. eauto. }
  by rewrite !H.
Qed.

Lemma wf_stats ext st s : dnlc_wf ext st -> dnlc_wf ext (set_stats st s).
Proof. intros [? ? ? ? ? ? ?]. by constructor. Qed.

Lemma abs_length ext st : dnlc_wf ext st -> (length (abs st) <= length (ncache st))%nat.
Proof.
  intros Hw. destruct (wf_lru _ _ Hw) as [Hp _]. apply Permutation_length in Hp.
  rewrite length_seq in Hp. rewrite <- Hp. unfold abs, view. clear.
  induction (nc_lru st) as [|i l IH]; [done|]. simpl in *.
  destruct (slot _ _); simpl; [by apply le_n_S|by apply le_S].
Qed.

(** One removal of a purge loop: the entry goes, the entries kept are the same. *)
Lemma rm_filter ext st i e (P : entry -> Prop) `{!forall x, Decision (P x)} :
  dnlc_wf ext st -> ncache st !! i = Some e -> active e -> ~ P (nc_key e, nc_vp e) ->
  exists st', dnlc_rm st i = Ok st' /\ dnlc_wf ext st' /\ length (ncache st') = length (ncache st) /\
    filter P (abs st') = filter P (abs st) /\ length (abs st) = S (length (abs st')).
Proof.
  intros Hw He Ha HP. destruct (lru_split _ _ _ _ (wf_lru _ _ Hw) He) as (l1 & l2 & El & _).
  destruct (dnlc_rm_spec _ _ _ _ _ _ Hw He Ha El) as (st' & E & Hw' & Hl & Eabs).
  exists st'. split; [done|]. split; [done|]. split; [done|]. rewrite Eabs.
  unfold abs. rewrite El, (view_mid _ _ _ _ _ He Ha). split.
  - by rewrite !filter_app, filter_cons_False.
  - rewrite !length_app. simpl. lia.
Qed.

Lemma kept_all (P : entry -> Prop) `{!forall x, Decision (P x)} ext st : dnlc_wf ext st ->
  (forall i e, ncache st !! i = Some e -> active e -> P (nc_key e, nc_vp e)) ->
  abs st = filter P (abs st).
Proof.
  intros Hw Hall. symmetry. apply list_filter_all. apply Forall_forall. intros x Hx.
  apply (elem_of_abs _ _ _ Hw) in Hx as (i & e & He & Ha & ->). eauto.
Qed.

(** What a removal loop promises. *)
Definition keeps (ext : gmap Z Z) (st : dnlc) (P : entry -> Prop) `{!forall x, Decision (P x)}
  (r : res dnlc) : Prop :=
  exists st', r = Ok st' /\ dnlc_wf ext st' /\ length (ncache st') = length (ncache st) /\
    abs st' = filter P (abs st).

Lemma remove_loop_spec ext dp name h (Hd : dp <> 0) (Hn : name <> []) :
  (length name <= 15)%nat -> NC_HASH name (Z.of_nat (length name)) dp = Ok h ->
  forall fuel st, dnlc_wf ext st -> (length (abs st) < fuel)%nat ->
  keeps ext st (fun e : entry => ~ (key_dp e.1 = dp /\ key_name e.1 = name))
    (remove_loop fuel st dp name (Z.of_nat (length name)) h).
Proof.
  intros Hlen Hh fuel. induction fuel as [|f IH]; intros st Hw Hf; [lia|].
  destruct (dnlc_search_spec ext st dp name ANYCRED Hw Hd Hn Hlen) as (h' & ch & r & Hh' & Hch & Hr & Hs).
  rewrite Hh in Hh'. injection Hh' as <-. simpl. rewrite Hr. kstep. destruct r as [i|].
  - destruct Hs as (_ & e & He & Ha & Hm & Hm' & _).
    destruct (rm_filter ext st i e (fun e : entry => ~ (key_dp e.1 = dp /\ key_name e.1 = name)))
      as (st1 & E & Hw1 & Hl1 & Ef & El); [done..|simpl; tauto|].
    rewrite E. kstep. destruct (IH st1 Hw1 ltac:(lia)) as (st2 & E2 & Hw2 & Hl2 & Ea2).
    exists st2. split; [done|]. split; [done|]. split; [lia|]. by rewrite Ea2.
  - exists st. split; [done|]. split; [done|]. split; [done|]. eapply kept_all; [done|].
    intros i e He Ha [H1 H2]. apply (Hs i e He Ha). split; [done|]. split; [done|]. by left.
Qed.

Lemma first_lru_spec ext st p l : dnlc_wf ext st -> (forall i, i ∈ l -> is_Some (ncache st !! i)) ->
  exists r, first_lru p st l = Ok r /\
  match r with
  | None => forall i e, i ∈ l -> ncache st !! i = Some e -> p e = false
  | Some i => exists l1 l2 e, l = l1 ++ i :: l2 /\ ncache st !! i = Some e /\ p e = true /\
                (forall j f, j ∈ l1 -> ncache st !! j = Some f -> p f = false)
  end.
Proof.
  intros Hw. induction l as [|i l IH]; intros H; simpl.
  { exists None. split; [done|]. by intros ? ? ?%elem_of_nil. }
  destruct (H i ltac:(by left)) as [e He]. rewrite (proj2 (rd_Ok _ _ _) He). kstep.
  destruct (p e) eqn:Ep.
  - exists (Some i). split; [done|]. exists [], l, e. split; [done|]. split; [done|]. split; [done|].
    by intros ? ? ?%elem_of_nil.
  - destruct IH as (r & E & Hr); [intros; apply H; by right|]. exists r. split; [done|].
    destruct r as [j|].
    + destruct Hr as (l1 & l2 & f & -> & Hf & Hp & Hno). exists (i :: l1), l2, f.
      split; [done|]. split; [done|]. split; [done|].
      intros k g [->|Hk]%elem_of_cons Hg; [by simplify_eq|eauto].
    + intros k g [->|Hk]%elem_of_cons Hg; [by simplify_eq|eauto].
Qed.

Lemma lru_slots ext st i : dnlc_wf ext st -> i ∈ nc_lru st <-> is_Some (ncache st !! i).
Proof.
  intros Hw. rewrite (proj1 (wf_lru _ _ Hw)), elem_of_seq. split.
  - intros [_ H]. apply lookup_lt_is_Some. lia.
  - intros H%lookup_lt_is_Some. lia.
Qed.

Lemma purge_vp_loop_spec ext vp : vp <> 0 -> forall fuel st, dnlc_wf ext st ->
  (length (abs st) < fuel)%nat ->
  keeps ext st (fun e : entry => ~ (key_dp e.1 = vp \/ e.2 = vp)) (purge_vp_loop fuel st vp).
Proof.
  intros Hv fuel. induction fuel as [|f IH]; intros st Hw Hf; [lia|]. simpl.
  destruct (first_lru_spec ext st (fun e => (nc_dp e =? vp) || (nc_vp e =? vp)) (nc_lru st) Hw)
    as (r & E & Hr); [intros i; apply (lru_slots _ _ _ Hw)|].
  rewrite E. kstep. destruct r as [i|].
  - destruct Hr as (l1 & l2 & e & El & He & Hp & _).
    apply orb_true_iff in Hp. rewrite !Z.eqb_eq in Hp.
    assert (active e) as Ha.
    { pose proof (sw_free _ _ _ (slot_at _ _ Hw _ _ He)). unfold active. intros H0. lia. }
    destruct (rm_filter ext st i e (fun e : entry => ~ (key_dp e.1 = vp \/ e.2 = vp)))
      as (st1 & E1 & Hw1 & Hl1 & Ef & Elen); [done..|simpl; tauto|].
    rewrite E1. kstep. destruct (IH st1 Hw1 ltac:(lia)) as (st2 & E2 & Hw2 & Hl2 & Ea2).
    exists st2. split; [done|]. split; [done|]. split; [lia|]. by rewrite Ea2.
  - exists st. split; [done|]. split; [done|]. split; [done|]. eapply kept_all; [done|].
    intros i e He Ha H. specialize (Hr i e). rewrite (lru_slots _ _ _ Hw) in Hr.
    specialize (Hr ltac:(eauto) He). apply orb_false_iff in Hr. rewrite !Z.eqb_neq in Hr.
    unfold key_dp, nc_key in H. simpl in H. tauto.
Qed.

Lemma first_hashed_spec hs :
  match first_hashed hs with
  | None => forall h ch, hs !! h = Some ch -> ch = []
  | Some i => exists h ch, hs !! h = Some ch /\ i ∈ ch
  end.
Proof.
  induction hs as [|[|i ch] hs IH]; simpl.
  - done.
  - destruct (first_hashed hs).
    + destruct IH as (h & ch & ? & ?). by exists (S h), ch.
    + intros [|h] ch H; [by injection H|eauto].
  - exists 0%nat, (i :: ch). split; [done|by left].
Qed.

Lemma hash_of_Ok ext cr e : slot_wf ext cr e -> active e ->
  exists h, hash_of (nc_key e) = Ok h /\ (h < NC_HASH_SIZE)%nat.
Proof.
  intros Hs Ha. apply NC_HASH_Ok. pose proof (nc_key_name_length _ _ _ Hs Ha).
  pose proof (sw_name _ _ _ Hs Ha). intros E. rewrite E in *. simpl in *. lia.
Qed.

Lemma purge_loop_spec ext : forall fuel st, dnlc_wf ext st -> (length (abs st) < fuel)%nat ->
  keeps ext st (fun _ => False) (purge_loop fuel st).
Proof.
  intros fuel. induction fuel as [|f IH]; intros st Hw Hf; [lia|]. simpl.
  destruct (wf_hash _ _ Hw) as [Hl8 Hh].
  pose proof (first_hashed_spec (nc_hash st)) as Hr. destruct (first_hashed _) as [i|].
  - destruct Hr as (h & ch & Hch & Hi). apply (Hh _ _ Hch) in Hi as (e & He & Ha & _).
    rewrite (proj2 (rd_Ok _ _ _) He). kstep.
    destruct (sw_vp _ _ _ (slot_at _ _ Hw _ _ He) Ha) as [Hvp _].
    rewrite (proj2 (Z.eqb_neq _ _) Ha), (proj2 (Z.eqb_neq _ _) Hvp). simpl.
    destruct (rm_filter ext st i e (fun _ => False)) as (st1 & E1 & Hw1 & Hl1 & Ef & Elen); [done..|tauto|].
    rewrite E1. kstep. destruct (IH st1 Hw1 ltac:(lia)) as (st2 & E2 & Hw2 & Hl2 & Ea2).
    exists st2. split; [done|]. split; [done|]. split; [lia|]. by rewrite Ea2.
  - exists st. split; [done|]. split; [done|]. split; [done|]. eapply kept_all; [done|].
    intros i e He Ha. destruct (hash_of_Ok _ _ _ (slot_at _ _ Hw _ _ He) Ha) as (h & Eh & Hlt).
    destruct (lookup_lt_is_Some_2 (nc_hash st) h ltac:(lia)) as [ch Hch].
    rewrite (Hr _ _ Hch) in Hch. destruct (Hh _ _ Hch) as [_ Hin].
    apply (not_elem_of_nil i). apply Hin. eauto.
Qed.

(** ** The operations compute the abstract ones *)

Lemma hash_move_wf ext st h hs l :
  dnlc_wf ext st -> hash_wf (ncache st) hs -> lru_wf (ncache st) l -> NoDup (view (ncache st) l).*1 ->
  dnlc_wf ext (set_slots (set_stats st h) (ncache st) l hs).
Proof. intros [? ? ? ? ? ? ?] ???. by constructor. Qed.

(** What an operation on a well-formed cache promises. *)
Definition refines (ext : gmap Z Z) (st : dnlc) (o : op) : Prop :=
  exists st' r, run o st = Ok (st', r) /\ dnlc_wf ext st' /\ length (ncache st') = length (ncache st) /\
    spec (length (ncache st)) o (abs st) = (abs st', r).

Lemma long_ltb name : (NC_NAMLEN <? Z.of_nat (length name)) = long name.
Proof.
  unfold long, NC_NAMLEN. destruct (Z.ltb_spec 15 (Z.of_nat (length name))).
  - rewrite bool_decide_true; [done|lia].
  - rewrite bool_decide_false; [done|lia].
Qed.

Lemma long_false name : long name = false -> (length name <= 15)%nat.
Proof. unfold long. intros H%bool_decide_eq_false. lia. Qed.

Lemma matches_key dp name cred k : cred <> ANYCRED -> matches dp name cred k -> k = (dp, name, cred).
Proof.
  destruct k as [[d n] c]. unfold matches, key_dp, key_name. simpl. intros ? (-> & -> & [?|<-]); done.
Qed.

Lemma not_cached ext st dp name cred : dnlc_wf ext st ->
  (forall i e, ncache st !! i = Some e -> active e -> ~ matches dp name cred (nc_key e)) ->
  (dp, name, cred) ∉ (abs st).*1.
Proof.
  intros Hw Hs (x & E & Hx)%list_elem_of_fmap.
  apply (elem_of_abs _ _ _ Hw) in Hx as (i & e & He & Ha & ->). simpl in E.
  apply (Hs i e He Ha). rewrite <- E. unfold matches, key_dp, key_name. simpl. auto.
Qed.

Lemma lookup_refines ext st dp name cred : dnlc_wf ext st -> op_ok ext st (Lookup dp name cred) ->
  refines ext st (Lookup dp name cred).
Proof.
  intros Hw (Hd & Hn & Hc). unfold refines. simpl. unfold dnlc_lookup.
  rewrite (wf_on _ _ Hw). simpl negb. cbn iota. rewrite long_ltb.
  destruct (long name) eqn:El.
  { eexists _, _. split; [done|]. split; [by apply wf_stats|]. done. }
  apply long_false in El.
  destruct (dnlc_search_spec ext st dp name cred Hw Hd Hn El) as (h & ch & r & -> & Hch & Hr & Hs).
  kstep. rewrite Hr. kstep. destruct r as [i|].
  - destruct Hs as (_ & e & He & Ha & Hm). apply matches_key in Hm; [|done].
    destruct (lru_split _ _ _ _ (wf_lru _ _ Hw) He) as (l1 & l2 & Elru & Hnd).
    pose proof (NoDup_mid _ _ _ Hnd) as (Hi & _ & _).
    pose proof (wf_lru _ _ Hw) as Hlru. rewrite Elru in Hlru.
    pose proof (wf_uniq _ _ Hw) as Hu.
    assert (view (ncache st) ((l1 ++ l2) ++ [i])
      = (view (ncache st) l1 ++ view (ncache st) l2) ++ [((dp, name, cred), nc_vp e)]) as Ev.
    { rewrite !view_app. unfold view at 3. simpl. by rewrite (slot_Some _ _ _ He Ha), Hm. }
    assert (abs st = view (ncache st) l1 ++ ((dp, name, cred), nc_vp e) :: view (ncache st) l2) as Eabs.
    { unfold abs. by rewrite Elru, (view_mid _ _ _ _ _ He Ha), Hm. }
    simpl. rewrite (proj2 (rd_Ok _ _ _) Hch). kstep. rewrite (wr_Ok _ _ _ _ Hch). kstep.
    rewrite (proj2 (rd_Ok _ _ _) He). kstep. rewrite Elru, unlink_mid by done.
    eexists _, _. split; [done|]. rewrite Eabs in *. split; [|split; [done|]].
    + apply (hash_move_wf ext st (count_hit (stats st)));
        [done|apply hash_wf_move; [apply Hw|done]|apply lru_wf_use; [done|by rewrite (slot_Some _ _ _ He Ha)]|].
      rewrite Ev. revert Hu. rewrite !fmap_app. simpl. intros Hu.
      rewrite <- Permutation_cons_append. by rewrite Permutation_middle.
    + unfold abs. simpl. rewrite Ev, find_key_Some, filter_others by done. done.
  - eexists _, _. split; [done|]. split; [by apply wf_stats|]. split; [done|].
    by rewrite find_key_None by (by eapply not_cached).
Qed.

(** The slot that is reused: the oldest entry if the cache is full, a free one if not. *)
Lemma head_view ext st i l : dnlc_wf ext st -> nc_lru st = i :: l ->
  view (ncache st) l = if decide (length (abs st) = length (ncache st)) then tail (abs st) else abs st.
Proof.
  intros Hw El. pose proof (wf_lru _ _ Hw) as Hlru. rewrite El in Hlru.
  pose proof (Permutation_length (proj1 Hlru)) as Hlen. rewrite length_seq in Hlen. simpl in Hlen.
  unfold abs. rewrite El. change (i :: l) with ([i] ++ l). rewrite view_app.
  unfold view at 2 4 6. simpl. destruct (slot (ncache st) i) as [x|] eqn:Es; simpl.
  - destruct (lru_used _ [] l i Hlru ltac:(by rewrite Es)) as (f & a & E & _ & Hu).
    destruct f, a; try done. simpl in Hu. apply Forall_cons in Hu as [_ Hu].
    rewrite decide_True; [done|]. rewrite (view_used_length _ _ Hu). lia.
  - rewrite decide_False; [done|].
    assert (forall c l, length (view c l) <= length l)%nat as Hle.
    { intros c l0. unfold view. clear. induction l0 as [|j l0 IH]; [done|]. simpl in *.
      destruct (slot _ _); simpl; [by apply le_n_S|by apply le_S]. }
    specialize (Hle (ncache st) l). lia.
Qed.

Lemma enter_refines ext st dp name vp cred : dnlc_wf ext st -> op_ok ext st (Enter dp name vp cred) ->
  refines ext st (Enter dp name vp cred).
Proof.
  intros Hw Hok. pose proof Hok as ([a Hea] & _ & Hn & Hc & _).
  destruct (wf_ext _ _ Hw _ _ Hea) as (Hd & _).
  unfold refines. simpl. unfold dnlc_enter.
  rewrite (wf_on _ _ Hw). simpl negb. cbn iota. rewrite long_ltb.
  destruct (long name) eqn:El.
  { eexists _, _. split; [done|]. split; [by apply wf_stats|]. done. }
  apply long_false in El.
  destruct (dnlc_search_spec ext st dp name cred Hw Hd Hn El) as (h & ch & r & Eh & Hch & Hr & Hs).
  rewrite Eh. kstep. rewrite Hr. kstep. destruct r as [i|].
  - destruct Hs as (_ & e & He & Ha & Hm). apply matches_key in Hm; [|done].
    eexists _, _. split; [done|]. split; [by apply wf_stats|]. split; [done|].
    destruct (lru_split _ _ _ _ (wf_lru _ _ Hw) He) as (l1 & l2 & Elru & _).
    pose proof (wf_uniq _ _ Hw) as Hu. unfold abs in *. simpl.
    rewrite Elru, (view_mid _ _ _ _ _ He Ha), Hm in *. by rewrite find_key_Some.
  - pose proof (not_cached _ _ _ _ _ Hw Hs) as Hk. rewrite find_key_None by done.
    pose proof (Permutation_length (proj1 (wf_lru _ _ Hw))) as Hlen. rewrite length_seq in Hlen.
    destruct (nc_lru st) as [|i l] eqn:Elru.
    + eexists _, _. split; [done|]. split; [by apply wf_stats|]. split; [done|].
      simpl in Hlen. by rewrite decide_True.
    + destruct (enter_slot_spec ext st i l dp name vp cred h Hw Hok El Eh Elru Hk)
        as (st' & -> & Hw' & Hl' & Ea). kstep.
      eexists _, _. split; [done|]. split; [done|]. split; [done|]. simpl in Hlen.
      rewrite decide_False by lia. by rewrite Ea, (head_view _ _ _ _ Hw Elru).
Qed.

Lemma keeps_run ext st P `{!forall x, Decision (P x)} (r : res dnlc) :
  keeps ext st P r ->
  exists st', (st1 ← r; mret (st1, 0)) = Ok (st', 0) /\ dnlc_wf ext st' /\
    length (ncache st') = length (ncache st) /\ abs st' = filter P (abs st).
Proof. intros (st' & -> & ?). by exists st'. Qed.

Lemma remove_refines ext st dp name : dnlc_wf ext st -> op_ok ext st (Remove dp name) ->
  refines ext st (Remove dp name).
Proof.
  intros Hw (Hd & Hn). unfold refines. simpl. unfold dnlc_remove. rewrite long_ltb.
  destruct (long name) eqn:El; [by exists st, 0|]. apply long_false in El.
  destruct (NC_HASH_Ok name (Z.of_nat (length name)) dp Hn) as (h & Eh & _). rewrite Eh. kstep.
  pose proof (abs_length _ _ Hw).
  pose proof (remove_loop_spec ext dp name h Hd Hn El Eh (S (length (ncache st))) st Hw ltac:(lia)) as Hk.
  apply keeps_run in Hk as (st' & E & Hw' & Hl & Ea).
  exists st', 0. split; [exact E|]. split; [done|]. split; [done|]. by rewrite Ea.
Qed.

Lemma purge_refines ext st : dnlc_wf ext st -> refines ext st Purge.
Proof.
  intros Hw. pose proof (abs_length _ _ Hw). unfold refines. simpl run. unfold dnlc_purge.
  pose proof (wf_stats _ _ (count_purge (stats st)) Hw) as Hw1.
  pose proof (purge_loop_spec ext (S (length (ncache st))) _ Hw1 ltac:(simpl; unfold abs in *; simpl; lia)) as Hk.
  apply keeps_run in Hk as (st' & E & Hw' & Hl & Ea).
  exists st', 0. split; [exact E|]. split; [done|]. split; [done|]. simpl. rewrite Ea. f_equal.
  generalize (abs (set_stats st (count_purge (stats st)))) as l. clear.
  induction l; [done|]. rewrite filter_cons_False; [done|tauto].
Qed.

Lemma purge_vp_refines ext st vp : dnlc_wf ext st -> vp <> 0 -> refines ext st (PurgeVp vp).
Proof.
  intros Hw Hv. pose proof (abs_length _ _ Hw). unfold refines. simpl run. unfold dnlc_purge_vp.
  pose proof (purge_vp_loop_spec ext vp Hv (S (length (ncache st))) st Hw ltac:(lia)) as Hk.
  apply keeps_run in Hk as (st' & E & Hw' & Hl & Ea).
  exists st', 0. split; [exact E|]. split; [done|]. split; [done|]. simpl. by rewrite Ea.
Qed.

Lemma view_all_free (P : nc -> bool) c l : (forall e, P e = negb (nc_dp e =? 0)) ->
  (forall j f, j ∈ l -> c !! j = Some f -> P f = false) -> view c l = [].
Proof.
  intros HP H. apply view_free. apply Forall_forall. intros j Hj. unfold slot.
  destruct (c !! j) as [f|] eqn:E; simpl; [|done]. specialize (H j f Hj E).
  rewrite HP in H. apply negb_false_iff, Z.eqb_eq in H. rewrite decide_False; [done|]. by intros [].
Qed.

Lemma purge1_refines ext st : dnlc_wf ext st -> refines ext st Purge1.
Proof.
  intros Hw. unfold refines. simpl run. unfold dnlc_purge1.
  destruct (first_lru_spec ext st (fun e => negb (nc_dp e =? 0)) (nc_lru st) Hw)
    as (r & E & Hr); [intros i; apply (lru_slots _ _ _ Hw)|].
  rewrite E. kstep. destruct r as [i|].
  - destruct Hr as (l1 & l2 & e & El & He & Hp & Hno).
    assert (active e) as Ha by (by apply negb_true_iff, Z.eqb_neq in Hp).
    destruct (dnlc_rm_spec _ _ _ _ _ _ Hw He Ha El) as (st' & E1 & Hw' & Hl & Ea).
    rewrite E1. kstep. exists st', 1. split; [done|]. split; [done|]. split; [done|].
    rewrite Ea. unfold abs. rewrite El, (view_mid _ _ _ _ _ He Ha).
    by rewrite (view_all_free _ _ l1 (fun e => eq_refl) Hno).
  - exists st, 0. split; [done|]. split; [done|]. split; [done|].
    unfold abs. rewrite (view_all_free _ _ _ (fun e => eq_refl)) by (intros; by eapply Hr). done.
Qed.

(** C1: the name cache implements a bounded least-recently-used map from (directory, name,
    credential) to vnodes: from a well-formed state every operation (lookup, enter, remove,
    purge, purge of a vnode, purge of one entry) returns, without a panic and in a well-formed
    state, what the abstract operation returns, and leaves exactly its entries in its order;
    the state's invariant includes that each vnode's reference count is that of its other
    holders plus one for each use in the cache. *)
Theorem dnlc_refines_lru ext st o : dnlc_wf ext st -> op_ok ext st o ->
  exists st' r, run o st = Ok (st', r) /\ dnlc_wf ext st' /\ length (ncache st') = length (ncache st) /\
    spec (length (ncache st)) o (abs st) = (abs st', r).
Proof.
  intros Hw Hok. destruct o.
  - by apply lookup_refines.
  - by apply enter_refines.
  - by apply remove_refines.
  - by apply purge_refines.
  - by apply purge_vp_refines.
  - by apply purge1_refines.
Qed.

(** ** Initialisation *)

Lemma dnlc_init_wf ext st :
  doingcache st = true -> Forall (fun e => length (nc_name e) = 15%nat) (ncache st) ->
  v_count st = ext ->
  (forall v e, ext !! v = Some e ->
     v <> 0 /\ 0 <= e /\ e + 2 * Z.of_nat (length (ncache st)) < 65536) ->
  dnlc_wf ext (dnlc_init st) /\ abs (dnlc_init st) = [].
Proof.
  intros Hon Hs Hv He.
  assert (forall i e, ncache (dnlc_init st) !! i = Some e -> nc_dp e = 0) as Hfree.
  { simpl. intros i e H. change (map ?f ?l) with (f <$> l) in H.
    rewrite list_lookup_fmap in H. by apply fmap_Some in H as (x & _ & ->). }
  assert (forall l, Forall (fun i => slot (ncache (dnlc_init st)) i = None) l) as Hsl.
  { intros l. apply Forall_forall. intros i _. unfold slot.
    destruct (ncache (dnlc_init st) !! i) as [e|] eqn:E; [|done]. cbn [mbind option_bind].
    rewrite decide_False; [done|]. intros []. by eapply Hfree. }
  assert (abs (dnlc_init st) = []) as Ea by apply view_free, Hsl.
  split; [|done]. constructor.
  - done.
  - simpl. change (map ?f ?l) with (f <$> l). apply list.Forall_fmap.
    eapply Forall_impl; [exact Hs|]. intros e Hl. by constructor.
  - split.
    + simpl. rewrite length_map. by rewrite <- Permutation_rev.
    + exists (nc_lru (dnlc_init st)), []. split; [by rewrite app_nil_r|]. split; [apply Hsl|constructor].
  - split; [done|]. intros h ch Hch. apply lookup_replicate in Hch as [-> _].
    split; [constructor|]. intros i. rewrite elem_of_nil. split; [done|].
    intros (e & Hi & Ha & _). apply Ha. by eapply Hfree.
  - rewrite Ea. constructor.
  - intros v. simpl. rewrite Hv. destruct (ext !! v) as [e|] eqn:E; [|done]. simpl. f_equal.
    destruct (He _ _ E) as (Hv0 & _). clear -Hv0. induction (ncache st) as [|a l IH]; simpl; [lia|].
    unfold hold1, ind in *. simpl. rewrite !decide_False by done. lia.
  - simpl. rewrite length_map. done.
Qed.

(** ** Examples *)

Definition cache0 (n : nat) : dnlc :=
  dnlc_init (Dnlc (replicate n (Nc 0 0 0 (replicate 15 0) 0)) [] [] (list_to_map [(8, 1); (9, 1)]) []
    (list_to_map [(77, 1)]) [] (Ncstats 0 0 0 0 0 0 0 0) true).

Lemma dnlc_refines_lru_witness :
  exists st' r, run (Enter 8 [46] 9 77) (cache0 2) = Ok (st', r) /\
    dnlc_wf (list_to_map [(8, 1); (9, 1)]) st' /\ length (ncache st') = 2%nat /\
    spec 2 (Enter 8 [46] 9 77) (abs (cache0 2)) = (abs st', r).
Proof.
  apply (dnlc_refines_lru (list_to_map [(8, 1); (9, 1)]) (cache0 2)).
  - apply dnlc_init_wf; [reflexivity|repeat constructor|reflexivity|].
    intros v e H. simpl in H. rewrite lookup_insert_Some in H.
    destruct H as [[<- <-]|[_ H]]; [simpl; lia|].
    rewrite lookup_insert_Some in H. destruct H as [[<- <-]|[_ H]]; [simpl; lia|].
    rewrite lookup_empty in H. discriminate H.
  - simpl. split; [by eexists|]. split; [by eexists|].
    split; [discriminate|]. split; [unfold ANYCRED; lia|]. intros _. by eexists.
Defined.

(** Reusing a slot does not give back the credential of the name it held: with one slot, the
    entry of credential 77 is replaced and the cache then emptied, and 77, with one holder
    outside the cache, is left with a count of two. *)
Theorem dnlc_enter_leaks_cred :
  exists st, (s1 ← dnlc_enter (cache0 1) 8 [97] 9 77; s2 ← dnlc_enter s1 8 [98] 9 NOCRED;
              dnlc_purge s2) = Ok st /\
    abs st = [] /\ cr_ref (cache0 1) !! 77 = Some 1 /\ cr_ref st !! 77 = Some 2.
Proof. eexists. split; [vm_compute; reflexivity|]. repeat split. Qed.
