(* ===== verification/Ufs.v ===== *)
(** * Cylinder-group allocation: [src/sun/sys/ufs]

    Definitions only: the fragment tables of [ufs_tables.c], the block-map operations of
    [ufs_subr.c], the macros of [fs.h] they use, and the allocator of [ufs_alloc.c].  A map is
    a list of bytes; the superblock is its parameters ([fsp], which no operation changes) and
    the fields that change ([fs]); [ufs] is a mounted file system with its cylinder groups.
    bread() of a cylinder group gives the group in [cgs], or fails as [b_error] says; the
    group is written in place, as it is in the buffer.  Counters are exact integers: each is
    bounded by the size of a group or of the file system. *)

From S2P Require Import Prelude.
From stdpp Require Import prelude list numbers strings.
From Stdlib Require Import ZArith Lia.

Local Open Scope Z_scope.
Local Open Scope kern_scope.

(** ** Tables *)

Definition around : list Z := [0x3; 0x7; 0xf; 0x1f; 0x3f; 0x7f; 0xff; 0x1ff; 0x3ff].
Definition inside : list Z := [0x0; 0x2; 0x6; 0xe; 0x1e; 0x3e; 0x7e; 0xfe; 0x1fe].

Definition fragtbl124 : list Z := [
   0x00; 0x16; 0x16; 0x2a; 0x16; 0x16; 0x26; 0x4e; 0x16; 0x16; 0x16; 0x3e; 0x2a; 0x3e; 0x4e; 0x8a;
   0x16; 0x16; 0x16; 0x3e; 0x16; 0x16; 0x36; 0x5e; 0x16; 0x16; 0x16; 0x3e; 0x3e; 0x3e; 0x5e; 0x9e;
   0x16; 0x16; 0x16; 0x3e; 0x16; 0x16; 0x36; 0x5e; 0x16; 0x16; 0x16; 0x3e; 0x3e; 0x3e; 0x5e; 0x9e;
   0x2a; 0x3e; 0x3e; 0x2a; 0x3e; 0x3e; 0x2e; 0x6e; 0x3e; 0x3e; 0x3e; 0x3e; 0x2a; 0x3e; 0x6e; 0xaa;
   0x16; 0x16; 0x16; 0x3e; 0x16; 0x16; 0x36; 0x5e; 0x16; 0x16; 0x16; 0x3e; 0x3e; 0x3e; 0x5e; 0x9e;
   0x16; 0x16; 0x16; 0x3e; 0x16; 0x16; 0x36; 0x5e; 0x16; 0x16; 0x16; 0x3e; 0x3e; 0x3e; 0x5e; 0x9e;
   0x26; 0x36; 0x36; 0x2e; 0x36; 0x36; 0x26; 0x6e; 0x36; 0x36; 0x36; 0x3e; 0x2e; 0x3e; 0x6e; 0xae;
   0x4e; 0x5e; 0x5e; 0x6e; 0x5e; 0x5e; 0x6e; 0x4e; 0x5e; 0x5e; 0x5e; 0x7e; 0x6e; 0x7e; 0x4e; 0xce;
   0x16; 0x16; 0x16; 0x3e; 0x16; 0x16; 0x36; 0x5e; 0x16; 0x16; 0x16; 0x3e; 0x3e; 0x3e; 0x5e; 0x9e;
   0x16; 0x16; 0x16; 0x3e; 0x16; 0x16; 0x36; 0x5e; 0x16; 0x16; 0x16; 0x3e; 0x3e; 0x3e; 0x5e; 0x9e;
   0x16; 0x16; 0x16; 0x3e; 0x16; 0x16; 0x36; 0x5e; 0x16; 0x16; 0x16; 0x3e; 0x3e; 0x3e; 0x5e; 0x9e;
   0x3e; 0x3e; 0x3e; 0x3e; 0x3e; 0x3e; 0x3e; 0x7e; 0x3e; 0x3e; 0x3e; 0x3e; 0x3e; 0x3e; 0x7e; 0xbe;
   0x2a; 0x3e; 0x3e; 0x2a; 0x3e; 0x3e; 0x2e; 0x6e; 0x3e; 0x3e; 0x3e; 0x3e; 0x2a; 0x3e; 0x6e; 0xaa;
   0x3e; 0x3e; 0x3e; 0x3e; 0x3e; 0x3e; 0x3e; 0x7e; 0x3e; 0x3e; 0x3e; 0x3e; 0x3e; 0x3e; 0x7e; 0xbe;
   0x4e; 0x5e; 0x5e; 0x6e; 0x5e; 0x5e; 0x6e; 0x4e; 0x5e; 0x5e; 0x5e; 0x7e; 0x6e; 0x7e; 0x4e; 0xce;
   0x8a; 0x9e; 0x9e; 0xaa; 0x9e; 0x9e; 0xae; 0xce; 0x9e; 0x9e; 0x9e; 0xbe; 0xaa; 0xbe; 0xce; 0x8a].

Definition fragtbl8 : list Z := [
   0x00; 0x01; 0x01; 0x02; 0x01; 0x01; 0x02; 0x04; 0x01; 0x01; 0x01; 0x03; 0x02; 0x03; 0x04; 0x08;
   0x01; 0x01; 0x01; 0x03; 0x01; 0x01; 0x03; 0x05; 0x02; 0x03; 0x03; 0x02; 0x04; 0x05; 0x08; 0x10;
   0x01; 0x01; 0x01; 0x03; 0x01; 0x01; 0x03; 0x05; 0x01; 0x01; 0x01; 0x03; 0x03; 0x03; 0x05; 0x09;
   0x02; 0x03; 0x03; 0x02; 0x03; 0x03; 0x02; 0x06; 0x04; 0x05; 0x05; 0x06; 0x08; 0x09; 0x10; 0x20;
   0x01; 0x01; 0x01; 0x03; 0x01; 0x01; 0x03; 0x05; 0x01; 0x01; 0x01; 0x03; 0x03; 0x03; 0x05; 0x09;
   0x01; 0x01; 0x01; 0x03; 0x01; 0x01; 0x03; 0x05; 0x03; 0x03; 0x03; 0x03; 0x05; 0x05; 0x09; 0x11;
   0x02; 0x03; 0x03; 0x02; 0x03; 0x03; 0x02; 0x06; 0x03; 0x03; 0x03; 0x03; 0x02; 0x03; 0x06; 0x0a;
   0x04; 0x05; 0x05; 0x06; 0x05; 0x05; 0x06; 0x04; 0x08; 0x09; 0x09; 0x0a; 0x10; 0x11; 0x20; 0x40;
   0x01; 0x01; 0x01; 0x03; 0x01; 0x01; 0x03; 0x05; 0x01; 0x01; 0x01; 0x03; 0x03; 0x03; 0x05; 0x09;
   0x01; 0x01; 0x01; 0x03; 0x01; 0x01; 0x03; 0x05; 0x03; 0x03; 0x03; 0x03; 0x05; 0x05; 0x09; 0x11;
   0x01; 0x01; 0x01; 0x03; 0x01; 0x01; 0x03; 0x05; 0x01; 0x01; 0x01; 0x03; 0x03; 0x03; 0x05; 0x09;
   0x03; 0x03; 0x03; 0x03; 0x03; 0x03; 0x03; 0x07; 0x05; 0x05; 0x05; 0x07; 0x09; 0x09; 0x11; 0x21;
   0x02; 0x03; 0x03; 0x02; 0x03; 0x03; 0x02; 0x06; 0x03; 0x03; 0x03; 0x03; 0x02; 0x03; 0x06; 0x0a;
   0x03; 0x03; 0x03; 0x03; 0x03; 0x03; 0x03; 0x07; 0x02; 0x03; 0x03; 0x02; 0x06; 0x07; 0x0a; 0x12;
   0x04; 0x05; 0x05; 0x06; 0x05; 0x05; 0x06; 0x04; 0x05; 0x05; 0x05; 0x07; 0x06; 0x07; 0x04; 0x0c;
   0x08; 0x09; 0x09; 0x0a; 0x09; 0x09; 0x0a; 0x0c; 0x10; 0x11; 0x11; 0x12; 0x20; 0x21; 0x40; 0x80].

Definition fragtbl (frag : Z) : res (list Z) :=
  if (frag =? 1) || (frag =? 2) || (frag =? 4) then Ok fragtbl124
  else if frag =? 8 then Ok fragtbl8 else Fault.

(** ** Data *)

Definition NBBY := 8.
Definition NRPOS := 8.
Definition NDADDR := 12.
Definition CG_MAGIC := 0x090255.
Definition IFMT := 0xF000.
Definition IFDIR := 0x4000.

Record csum := Csum { cs_ndir : Z; cs_nbfree : Z; cs_nifree : Z; cs_nffree : Z }.

Record fsp := Fsp {
  fs_size : Z; fs_ncg : Z; fs_bsize : Z; fs_frag : Z; fs_minfree : Z; fs_dsize : Z;
  fs_rotdelay : Z; fs_rps : Z; fs_fmask : Z; fs_fshift : Z; fs_maxcontig : Z; fs_maxbpg : Z;
  fs_fragshift : Z; fs_nspf : Z; fs_nsect : Z; fs_spc : Z; fs_ipg : Z; fs_fpg : Z;
  fs_cpc : Z; fs_postbl : list (list Z); fs_rotbl : list Z; MAXBPC : Z
}.

Record fs := Fs { fs_cstotal : csum; fs_cs : list csum; fs_fmod : Z; fs_cgrotor : Z }.

Record cg := Cg {
  cg_magic : Z; cg_time : Z; cg_cgx : Z; cg_cs : csum; cg_rotor : Z; cg_frotor : Z;
  cg_irotor : Z; cg_frsum : list Z; cg_btot : list Z; cg_b : list (list Z);
  cg_iused : list Z; cg_free : list Z
}.

Record ufs := Ufs { u_fs : fs; cgs : list cg; b_error : nat -> bool; u_time : Z }.

Section Setters.
Implicit Type c : cg.
Definition set_time c x := Cg (cg_magic c) x (cg_cgx c) (cg_cs c) (cg_rotor c) (cg_frotor c)
  (cg_irotor c) (cg_frsum c) (cg_btot c) (cg_b c) (cg_iused c) (cg_free c).
Definition set_cs c x := Cg (cg_magic c) (cg_time c) (cg_cgx c) x (cg_rotor c) (cg_frotor c)
  (cg_irotor c) (cg_frsum c) (cg_btot c) (cg_b c) (cg_iused c) (cg_free c).
Definition set_rotor c x := Cg (cg_magic c) (cg_time c) (cg_cgx c) (cg_cs c) x (cg_frotor c)
  (cg_irotor c) (cg_frsum c) (cg_btot c) (cg_b c) (cg_iused c) (cg_free c).
Definition set_frotor c x := Cg (cg_magic c) (cg_time c) (cg_cgx c) (cg_cs c) (cg_rotor c) x
  (cg_irotor c) (cg_frsum c) (cg_btot c) (cg_b c) (cg_iused c) (cg_free c).
Definition set_irotor c x := Cg (cg_magic c) (cg_time c) (cg_cgx c) (cg_cs c) (cg_rotor c) (cg_frotor c)
  x (cg_frsum c) (cg_btot c) (cg_b c) (cg_iused c) (cg_free c).
Definition set_frsum c x := Cg (cg_magic c) (cg_time c) (cg_cgx c) (cg_cs c) (cg_rotor c) (cg_frotor c)
  (cg_irotor c) x (cg_btot c) (cg_b c) (cg_iused c) (cg_free c).
Definition set_b c t x := Cg (cg_magic c) (cg_time c) (cg_cgx c) (cg_cs c) (cg_rotor c) (cg_frotor c)
  (cg_irotor c) (cg_frsum c) t x (cg_iused c) (cg_free c).
Definition set_iused c x := Cg (cg_magic c) (cg_time c) (cg_cgx c) (cg_cs c) (cg_rotor c) (cg_frotor c)
  (cg_irotor c) (cg_frsum c) (cg_btot c) (cg_b c) x (cg_free c).
Definition set_free c x := Cg (cg_magic c) (cg_time c) (cg_cgx c) (cg_cs c) (cg_rotor c) (cg_frotor c)
  (cg_irotor c) (cg_frsum c) (cg_btot c) (cg_b c) (cg_iused c) x.
End Setters.

Definition add_nbfree (d : Z) (s : csum) := Csum (cs_ndir s) (cs_nbfree s + d) (cs_nifree s) (cs_nffree s).
Definition add_nffree (d : Z) (s : csum) := Csum (cs_ndir s) (cs_nbfree s) (cs_nifree s) (cs_nffree s + d).
Definition add_nifree (d : Z) (s : csum) := Csum (cs_ndir s) (cs_nbfree s) (cs_nifree s + d) (cs_nffree s).
Definition add_ndir (d : Z) (s : csum) := Csum (cs_ndir s + d) (cs_nbfree s) (cs_nifree s) (cs_nffree s).

(** ** Macros *)

(** [l[i] += d] *)
Definition addz (l : list Z) (i d : Z) : res (list Z) := x ← rdz l i; wrz l i (x + d).

Definition howmany (x y : Z) : Z := Z.quot (x + (y - 1)) y.
Definition setbit (a : list Z) (i : Z) : res (list Z) :=
  b ← rdz a (i / NBBY); wrz a (i / NBBY) (Z.lor b (Z.shiftl 1 (i mod NBBY))).
Definition clrbit (a : list Z) (i : Z) : res (list Z) :=
  b ← rdz a (i / NBBY); wrz a (i / NBBY) (Z.land b (Z.lnot (Z.shiftl 1 (i mod NBBY)))).
Definition isset (a : list Z) (i : Z) : res bool :=
  b ← rdz a (i / NBBY); mret (negb (Z.land b (Z.shiftl 1 (i mod NBBY)) =? 0)).

Section Macros.
Context (p : fsp).
Definition itog (x : Z) : Z := Z.quot x (fs_ipg p).
Definition dtog (d : Z) : Z := Z.quot d (fs_fpg p).
Definition dtogd (d : Z) : Z := Z.rem d (fs_fpg p).
Definition blkmap (m : list Z) (loc : Z) : res Z :=
  b ← rdz m (loc / NBBY);
  mret (Z.land (Z.shiftr b (loc mod NBBY)) (Z.shiftr 0xff (NBBY - fs_frag p))).
Definition cbtocylno (bno : Z) : Z := Z.quot (bno * fs_nspf p) (fs_spc p).
Definition cbtorpos (bno : Z) : Z :=
  Z.quot (Z.rem (Z.rem (bno * fs_nspf p) (fs_spc p)) (fs_nsect p) * NRPOS) (fs_nsect p).
Definition fragoff (loc : Z) : Z := Z.land loc (Z.lnot (fs_fmask p)).
Definition numfrags (loc : Z) : Z := Z.shiftr loc (fs_fshift p).
Definition fragstoblks (frags : Z) : Z := Z.shiftr frags (fs_fragshift p).
Definition blkstofrags (blks : Z) : Z := Z.shiftl blks (fs_fragshift p).
Definition fragnum (fsb : Z) : Z := Z.land fsb (fs_frag p - 1).
Definition blknum (fsb : Z) : Z := Z.land fsb (Z.lnot (fs_frag p - 1)).
Definition NSPB : Z := Z.shiftl (fs_nspf p) (fs_fragshift p).
Definition freespace (s : fs) (percentreserved : Z) : Z :=
  blkstofrags (cs_nbfree (fs_cstotal s)) + cs_nffree (fs_cstotal s)
  - Z.quot (fs_dsize p * percentreserved) 100.

(** ** [ufs_subr.c] *)

(** The inner loop of fragacct(): count the runs of [siz] free fragments. *)
Fixpoint acct_pos (fuel : nat) (blk field subfield siz pos : Z) (fraglist : list Z) (cnt : Z)
  : res (list Z) :=
  match fuel with
  | O => mret fraglist
  | S f =>
      if fs_frag p <? pos then mret fraglist
      else if Z.land blk field =? subfield then
        fl ← addz fraglist siz cnt;
        acct_pos f blk (Z.shiftl (Z.shiftl field siz) 1) (Z.shiftl (Z.shiftl subfield siz) 1)
          siz (pos + siz + 1) fl cnt
      else acct_pos f blk (Z.shiftl field 1) (Z.shiftl subfield 1) siz (pos + 1) fraglist cnt
  end.

Fixpoint acct_siz (fuel : nat) (inblk blk siz : Z) (fraglist : list Z) (cnt : Z) : res (list Z) :=
  match fuel with
  | O => mret fraglist
  | S f =>
      if fs_frag p <=? siz then mret fraglist
      else if Z.land inblk (Z.shiftl 1 (siz + fs_frag p mod NBBY)) =? 0
      then acct_siz f inblk blk (siz + 1) fraglist cnt
      else
        field ← rdz around siz;
        subfield ← rdz inside siz;
        fl ← acct_pos (S (Z.to_nat (fs_frag p))) blk field subfield siz siz fraglist cnt;
        acct_siz f inblk blk (siz + 1) fl cnt
  end.

Definition fragacct (fragmap : Z) (fraglist : list Z) (cnt : Z) : res (list Z) :=
  tbl ← fragtbl (fs_frag p);
  t ← rdz tbl fragmap;
  acct_siz (Z.to_nat (fs_frag p)) (Z.shiftl t 1) (Z.shiftl fragmap 1) 1 fraglist cnt.

Definition badblock (bn : Z) : bool := fs_size p <=? u32 bn.

Definition isblock (cp : list Z) (h : Z) : res bool :=
  if fs_frag p =? 8 then b ← rdz cp h; mret (b =? 0xff)
  else if fs_frag p =? 4 then
    let mask := Z.shiftl 0x0f (Z.shiftl (Z.land h 0x1) 2) in
    b ← rdz cp (Z.shiftr h 1); mret (Z.land b mask =? mask)
  else if fs_frag p =? 2 then
    let mask := Z.shiftl 0x03 (Z.shiftl (Z.land h 0x3) 1) in
    b ← rdz cp (Z.shiftr h 2); mret (Z.land b mask =? mask)
  else if fs_frag p =? 1 then
    let mask := Z.shiftl 0x01 (Z.land h 0x7) in
    b ← rdz cp (Z.shiftr h 3); mret (Z.land b mask =? mask)
  else Panic "isblock".

Definition clrblock (cp : list Z) (h : Z) : res (list Z) :=
  if fs_frag p =? 8 then wrz cp h 0
  else if fs_frag p =? 4 then
    b ← rdz cp (Z.shiftr h 1);
    wrz cp (Z.shiftr h 1) (Z.land b (Z.lnot (Z.shiftl 0x0f (Z.shiftl (Z.land h 0x1) 2))))
  else if fs_frag p =? 2 then
    b ← rdz cp (Z.shiftr h 2);
    wrz cp (Z.shiftr h 2) (Z.land b (Z.lnot (Z.shiftl 0x03 (Z.shiftl (Z.land h 0x3) 1))))
  else if fs_frag p =? 1 then
    b ← rdz cp (Z.shiftr h 3);
    wrz cp (Z.shiftr h 3) (Z.land b (Z.lnot (Z.shiftl 0x01 (Z.land h 0x7))))
  else Panic "clrblock".

Definition setblock (cp : list Z) (h : Z) : res (list Z) :=
  if fs_frag p =? 8 then wrz cp h 0xff
  else if fs_frag p =? 4 then
    b ← rdz cp (Z.shiftr h 1);
    wrz cp (Z.shiftr h 1) (Z.lor b (Z.shiftl 0x0f (Z.shiftl (Z.land h 0x1) 2)))
  else if fs_frag p =? 2 then
    b ← rdz cp (Z.shiftr h 2);
    wrz cp (Z.shiftr h 2) (Z.lor b (Z.shiftl 0x03 (Z.shiftl (Z.land h 0x3) 1)))
  else if fs_frag p =? 1 then
    b ← rdz cp (Z.shiftr h 3);
    wrz cp (Z.shiftr h 3) (Z.lor b (Z.shiftl 0x01 (Z.land h 0x7)))
  else Panic "setblock".
End Macros.

(** ** [ufs_alloc.c] *)

(** scanc(): the bytes left when the first one whose table entry meets the mask is found. *)
Fixpoint scanc (size : nat) (cp table : list Z) (mask : Z) : res Z :=
  match size with
  | O => mret 0
  | S n =>
      match cp with
      | [] => Fault
      | c :: cp' =>
          t ← rdz table c;
          if Z.land t mask =? 0 then scanc n cp' table mask else mret (Z.of_nat size)
      end
  end.

(** skpc() ([subr_xxx.c]): the bytes left at the first one that is not [c]. *)
Fixpoint skpc (c : Z) (len : nat) (cp : list Z) : res Z :=
  match len with
  | O => mret 0
  | S n =>
      match cp with
      | [] => Fault
      | x :: cp' => if x =? c then skpc c n cp' else mret (Z.of_nat len)
      end
  end.

Section Alloc.
Context (p : fsp).

(** The three summaries an operation on group [i] adjusts together. *)
Definition account (f : csum -> csum) (s : fs) (c : cg) (i : Z) : res (fs * cg) :=
  x ← rdz (fs_cs s) i;
  cs ← wrz (fs_cs s) i (f x);
  mret (Fs (f (fs_cstotal s)) cs (fs_fmod s) (fs_cgrotor s), set_cs c (f (cg_cs c))).

Definition fmod (s : fs) : fs := Fs (fs_cstotal s) (fs_cs s) (wraps 8 (fs_fmod s + 1)) (fs_cgrotor s).

(** [cg_b[cylno][rpos] += d; cg_btot[cylno] += d] *)
Definition count_block (c : cg) (bno d : Z) : res cg :=
  row ← rdz (cg_b c) (cbtocylno p bno);
  row' ← addz row (cbtorpos p bno) d;
  b ← wrz (cg_b c) (cbtocylno p bno) row';
  t ← addz (cg_btot c) (cbtocylno p bno) d;
  mret (set_b c t b).

Fixpoint find_pos (fuel : nat) (blk field subfield allocsiz pos : Z) : option Z :=
  match fuel with
  | O => None
  | S f =>
      if fs_frag p - allocsiz <? pos then None
      else if Z.land blk field =? subfield then Some pos
      else find_pos f blk (Z.shiftl field 1) (Z.shiftl subfield 1) allocsiz (pos + 1)
  end.

(** Sift through the byte at [bno] (up to [i]) to find the fragment. *)
Fixpoint sift (fuel : nat) (m : list Z) (allocsiz bno i : Z) : res Z :=
  match fuel with
  | O => Fault
  | S f =>
      if i <=? bno then Panic "alloccg: block not in map"
      else
        blk ← blkmap p m bno;
        field ← rdz around allocsiz;
        subfield ← rdz inside allocsiz;
        match find_pos (S (Z.to_nat (fs_frag p))) (Z.shiftl blk 1) field subfield allocsiz 0 with
        | Some pos => mret (bno + pos)
        | None => sift f m allocsiz (bno + fs_frag p) i
        end
  end.

Definition mapsearch (c : cg) (bpref allocsiz : Z) : res (cg * Z) :=
  let start := if bpref =? 0 then Z.quot (cg_frotor c) NBBY else Z.quot (dtogd p bpref) NBBY in
  let len := howmany (fs_fpg p) NBBY - start in
  table ← fragtbl (fs_frag p);
  let mask := Z.shiftl 1 (allocsiz - 1 + fs_frag p mod NBBY) in
  loc ← scanc (Z.to_nat len) (drop (Z.to_nat start) (cg_free c)) table mask;
  '(start2, len2, loc2) ←
    (if loc =? 0 then
       l2 ← scanc (Z.to_nat (start + 1)) (cg_free c) table mask;
       if l2 =? 0 then Panic "alloccg: map corrupted" else mret (0, start + 1, l2)
     else mret (start, len, loc));
  let bno := (start2 + len2 - loc2) * NBBY in
  let c1 := set_frotor c bno in
  r ← sift 9 (cg_free c1) allocsiz bno (bno + NBBY);
  mret (c1, r).

(** The first rotational position in [i, lim) with a free block. *)
Fixpoint find_rpos (fuel : nat) (cylbp : list Z) (i lim : Z) : res Z :=
  match fuel with
  | O => Fault
  | S f =>
      if lim <=? i then mret i
      else x ← rdz cylbp i; if 0 <? x then mret i else find_rpos f cylbp (i + 1) lim
  end.

(** Follow the blocks of a rotational position. *)
Fixpoint rot_walk (fuel : nat) (m : list Z) (bno i : Z) : res Z :=
  match fuel with
  | O => Fault
  | S f =>
      free ← isblock p m (bno + i);
      if (free : bool) then mret (blkstofrags p (bno + i))
      else
        delta ← rdz (fs_rotbl p) i;
        if (delta <=? 0) || (MAXBPC p - i <? delta) then Panic "alloccgblk: can't find blk in cyl"
        else rot_walk f m bno (i + delta)
  end.

(** [norot:] *)
Definition alloc_norot (c : cg) (bpref : Z) : res (cg * Z) :=
  '(c1, bno) ← mapsearch c bpref (fs_frag p);
  mret (if bno <? 0 then c1 else set_rotor c1 bno, bno).

(** The choice of the block: the group and its address there, negative for none. *)
Definition pick_block (c : cg) (bpref0 : Z) : res (cg * Z) :=
  if bpref0 =? 0 then alloc_norot c (cg_rotor c)
  else
    let bpref := dtogd p (blknum p bpref0) in
    free ← isblock p (cg_free c) (fragstoblks p bpref);
    if (free : bool) then mret (c, bpref)
    else
      let cylno := cbtocylno p bpref in
      tot ← rdz (cg_btot c) cylno;
      if tot =? 0 then alloc_norot c bpref
      else if fs_cpc p =? 0 then alloc_norot c (howmany (fs_spc p * cylno) (fs_nspf p))
      else
        cylbp ← rdz (cg_b c) cylno;
        let pos := cbtorpos p bpref in
        i ← find_rpos 9 cylbp pos NRPOS;
        j ← (if i =? NRPOS then find_rpos 9 cylbp 0 pos else mret i);
        x ← rdz cylbp j;
        if 0 <? x then
          let cpos := Z.rem cylno (fs_cpc p) in
          let bno := Z.quot ((cylno - cpos) * fs_spc p) (NSPB p) in
          row ← rdz (fs_postbl p) cpos;
          first ← rdz row j;
          if first =? -1 then Panic "alloccgblk: cyl groups corrupted"
          else b ← rot_walk (S (length (fs_rotbl p))) (cg_free c) bno first; mret (c, b)
        else alloc_norot c bpref.

Definition alloccgblk (s : fs) (c : cg) (bpref : Z) : res (fs * cg * Z) :=
  '(c1, bno) ← pick_block c bpref;
  if bno <? 0 then mret (s, c1, 0)
  else
    m ← clrblock p (cg_free c1) (fragstoblks p bno);
    '(s1, c2) ← account (add_nbfree (-1)) s (set_free c1 m) (cg_cgx c1);
    c3 ← count_block c2 bno (-1);
    mret (fmod s1, c3, cg_cgx c3 * fs_fpg p + bno).

(** [for (; i < n; i++) setbit(map, base + i)], and the same with clrbit(). *)
Fixpoint set_bits (n : nat) (m : list Z) (k : Z) : res (list Z) :=
  match n with O => mret m | S n' => m' ← setbit m k; set_bits n' m' (k + 1) end.
Fixpoint clr_bits (n : nat) (m : list Z) (k : Z) : res (list Z) :=
  match n with O => mret m | S n' => m' ← clrbit m k; clr_bits n' m' (k + 1) end.

(** [for (allocsiz = frags; allocsiz < fs_frag; allocsiz++) if (cg_frsum[allocsiz]) break;] *)
Fixpoint find_siz (fuel : nat) (frsum : list Z) (siz : Z) : res Z :=
  match fuel with
  | O => Fault
  | S f =>
      if fs_frag p <=? siz then mret siz
      else x ← rdz frsum siz; if x =? 0 then find_siz f frsum (siz + 1) else mret siz
  end.

(** Allocation in a group that has been read and checked. *)
Definition alloc_in (s : fs) (c : cg) (i bpref size : Z) : res (fs * cg * Z) :=
  if size =? fs_bsize p then alloccgblk s c bpref
  else
    let frags := numfrags p size in
    allocsiz ← find_siz 9 (cg_frsum c) frags;
    if allocsiz =? fs_frag p then
      if cs_nbfree (cg_cs c) =? 0 then mret (s, c, 0)
      else
        '(s1, c1, bno) ← alloccgblk s c bpref;
        let bpref' := dtogd p bno in
        m ← set_bits (Z.to_nat (fs_frag p - frags)) (cg_free c1) (bpref' + frags);
        let n := fs_frag p - frags in
        '(s2, c2) ← account (add_nffree n) s1 (set_free c1 m) i;
        fr ← addz (cg_frsum c2) n 1;
        mret (fmod s2, set_frsum c2 fr, bno)
    else
      '(c1, bno) ← mapsearch c bpref allocsiz;
      if bno <? 0 then mret (s, c1, 0)
      else
        m ← clr_bits (Z.to_nat frags) (cg_free c1) bno;
        '(s2, c2) ← account (add_nffree (- frags)) s (set_free c1 m) i;
        fr ← addz (cg_frsum c2) allocsiz (-1);
        fr' ← (if frags =? allocsiz then mret fr else addz fr (allocsiz - frags) 1);
        mret (fmod s2, set_frsum c2 fr', i * fs_fpg p + bno).

(** bread() of group [i] with its magic number checked; the buffer's group is stamped. *)
Definition read_cg (u : ufs) (i : Z) : res (option cg) :=
  c ← rdz (cgs u) i;
  mret (if b_error u (Z.to_nat i) || negb (cg_magic c =? CG_MAGIC) then None else Some c).

Definition put_cg (u : ufs) (i : Z) (s : fs) (c : cg) : res ufs :=
  l ← wrz (cgs u) i c;
  mret (Ufs s l (b_error u) (u_time u)).

Definition alloccg (u : ufs) (i bpref size : Z) : res (ufs * Z) :=
  sum ← rdz (fs_cs (u_fs u)) i;
  if (cs_nbfree sum =? 0) && (size =? fs_bsize p) then mret (u, 0)
  else
    b ← read_cg u i;
    match b with
    | None => mret (u, 0)
    | Some c =>
        if (cs_nbfree (cg_cs c) =? 0) && (size =? fs_bsize p) then mret (u, 0)
        else
          '(s, c', r) ← alloc_in (u_fs u) (set_time c (u_time u)) i bpref size;
          u' ← put_cg u i s c';
          mret (u', r)
    end.

(** The first allocated fragment in [k, k + n), as an offset from [i]. *)
Fixpoint find_clr (n : nat) (m : list Z) (k i : Z) : res Z :=
  match n with
  | O => mret i
  | S n' =>
      b ← isset m (k + i);
      if (b : bool) then find_clr n' m k (i + 1) else mret i
  end.

Definition extend_in (s : fs) (c : cg) (i bprev osize nsize : Z) : res (fs * cg * Z) :=
  let bno := dtogd p bprev in
  let frags := numfrags p nsize in
  let ofrags := numfrags p osize in
  j ← find_clr (Z.to_nat (frags - ofrags)) (cg_free c) bno ofrags;
  if j <? frags then mret (s, c, 0)
  else
    k ← find_clr (Z.to_nat (fs_frag p - fragnum p bprev - frags)) (cg_free c) bno frags;
    fr ← addz (cg_frsum c) (k - ofrags) (-1);
    fr' ← (if k =? frags then mret fr else addz fr (k - frags) 1);
    m ← clr_bits (Z.to_nat (frags - ofrags)) (cg_free c) (bno + ofrags);
    '(s1, c1) ← account (add_nffree (- (frags - ofrags))) s (set_frsum (set_free c m) fr') i;
    mret (fmod s1, c1, bprev).

Definition fragextend (u : ufs) (i bprev osize nsize : Z) : res (ufs * Z) :=
  sum ← rdz (fs_cs (u_fs u)) i;
  if cs_nffree sum <? numfrags p (nsize - osize) then mret (u, 0)
  else if fragnum p (bprev + numfrags p nsize - 1) <? fragnum p bprev then mret (u, 0)
  else
    b ← read_cg u i;
    match b with
    | None => mret (u, 0)
    | Some c =>
        '(s, c', r) ← extend_in (u_fs u) (set_time c (u_time u)) i bprev osize nsize;
        u' ← put_cg u i s c';
        mret (u', r)
    end.

(** The loop of free(): each fragment must be allocated. *)
Fixpoint free_bits (n : nat) (m : list Z) (k : Z) : res (list Z) :=
  match n with
  | O => mret m
  | S n' =>
      b ← isset m k;
      if (b : bool) then Panic "free: freeing free frag"
      else m' ← setbit m k; free_bits n' m' (k + 1)
  end.

Definition free_in (s : fs) (c : cg) (i bno size : Z) : res (fs * cg) :=
  if size =? fs_bsize p then
    free ← isblock p (cg_free c) (fragstoblks p bno);
    if (free : bool) then Panic "free: freeing free block"
    else
      m ← setblock p (cg_free c) (fragstoblks p bno);
      '(s1, c1) ← account (add_nbfree 1) s (set_free c m) i;
      c2 ← count_block c1 bno 1;
      mret (s1, c2)
  else
    let bbase := bno - fragnum p bno in
    blk ← blkmap p (cg_free c) bbase;
    fr ← fragacct p blk (cg_frsum c) (-1);
    let frags := numfrags p size in
    m ← free_bits (Z.to_nat frags) (cg_free c) bno;
    '(s1, c1) ← account (add_nffree frags) s (set_frsum (set_free c m) fr) i;
    blk' ← blkmap p m bbase;
    fr' ← fragacct p blk' (cg_frsum c1) 1;
    let c2 := set_frsum c1 fr' in
    full ← isblock p m (fragstoblks p bbase);
    if (full : bool) then
      '(s2, c3) ← account (add_nffree (- fs_frag p)) s1 c2 i;
      '(s3, c4) ← account (add_nbfree 1) s2 c3 i;
      c5 ← count_block c4 bbase 1;
      mret (s3, c5)
    else mret (s1, c2).

Definition free (u : ufs) (bno size : Z) : res ufs :=
  if (fs_bsize p <? u32 size) || negb (fragoff p size =? 0) then Panic "free: bad size"
  else
    let i := dtog p bno in
    if badblock p bno then mret u
    else
      b ← read_cg u i;
      match b with
      | None => mret u
      | Some c =>
          '(s, c') ← free_in (u_fs u) (set_time c (u_time u)) i (dtogd p bno) size;
          put_cg u i (fmod s) c'
      end.

(** ** Inodes *)

(** The first clear bit of a byte: [for (i = 1; i < (1 << NBBY); i <<= 1, ipref++)]. *)
Fixpoint clear_bit (fuel : nat) (map j ipref : Z) : option Z :=
  match fuel with
  | O => None
  | S f => if Z.land map j =? 0 then Some ipref else clear_bit f map (Z.shiftl j 1) (ipref + 1)
  end.

(** The choice of an inode of the group: the requested one, or the next from the rotor. *)
Definition pick_inode (c : cg) (ipref0 : Z) : res (cg * Z) :=
  let ipref := Z.rem ipref0 (fs_ipg p) in
  used ← (if ipref0 =? 0 then mret true else isset (cg_iused c) ipref);
  if negb used then mret (c, ipref)
  else
    let start := Z.quot (cg_irotor c) NBBY in
    let len := howmany (fs_ipg p - cg_irotor c) NBBY in
    loc ← skpc 0xff (Z.to_nat (u16 len)) (drop (Z.to_nat start) (cg_iused c));
    '(start2, len2, loc2) ←
      (if loc =? 0 then
         l2 ← skpc 0xff (Z.to_nat (u16 (start + 1))) (cg_iused c);
         if l2 =? 0 then Panic "ialloccg: map corrupted" else mret (0, start + 1, l2)
       else mret (start, len, loc));
    let i := start2 + len2 - loc2 in
    map ← rdz (cg_iused c) i;
    match clear_bit 8 map 1 (i * NBBY) with
    | Some ino => mret (set_irotor c ino, ino)
    | None => Panic "ialloccg: block not in map"
    end.

Definition ialloccg (u : ufs) (i ipref mode : Z) : res (ufs * Z) :=
  sum ← rdz (fs_cs (u_fs u)) i;
  if cs_nifree sum =? 0 then mret (u, 0)
  else
    b ← read_cg u i;
    match b with
    | None => mret (u, 0)
    | Some c =>
        if cs_nifree (cg_cs c) =? 0 then mret (u, 0)
        else
          '(c1, ino) ← pick_inode (set_time c (u_time u)) ipref;
          m ← setbit (cg_iused c1) ino;
          '(s1, c2) ← account (add_nifree (-1)) (u_fs u) (set_iused c1 m) i;
          let s2 := fmod s1 in
          '(s3, c3) ← (if Z.land mode IFMT =? IFDIR then account (add_ndir 1) s2 c2 i
                       else mret (s2, c2));
          u' ← put_cg u i s3 c3;
          mret (u', i * fs_ipg p + ino)
    end.

Definition ifree (u : ufs) (ino0 mode : Z) : res ufs :=
  if fs_ipg p * fs_ncg p <=? u32 ino0 then Panic "ifree: range"
  else
    let i := itog p ino0 in
    b ← read_cg u i;
    match b with
    | None => mret u
    | Some c0 =>
        let c := set_time c0 (u_time u) in
        let ino := Z.rem ino0 (fs_ipg p) in
        used ← isset (cg_iused c) ino;
        if negb used then Panic "ifree: freeing free inode"
        else
          m ← clrbit (cg_iused c) ino;
          let c1 := set_iused c m in
          let c2 := if ino <? cg_irotor c1 then set_irotor c1 ino else c1 in
          '(s3, c3) ← account (add_nifree 1) (u_fs u) c2 i;
          '(s4, c4) ← (if Z.land mode IFMT =? IFDIR then account (add_ndir (-1)) s3 c3 i
                       else mret (s3, c3));
          put_cg u i (fmod s4) c4
    end.

(** ** Policy *)

(** hashalloc(): the requested group, then the groups at distances 1, 2, 4, ..., then all of
    them in order.  The allocator takes a state to a state and an address, 0 for none. *)
Section Hashalloc.
Context {S : Type} (allocator : S -> Z -> Z -> Z -> res (S * Z)).

Fixpoint ha_rehash (fuel : nat) (u : S) (c i size : Z) : res (S * Z) :=
  match fuel with
  | O => Fault
  | Datatypes.S f =>
      if fs_ncg p <=? i then mret (u, 0)
      else
        let c1 := c + i in
        let c2 := if fs_ncg p <=? c1 then c1 - fs_ncg p else c1 in
        '(u', r) ← allocator u c2 0 size;
        if r =? 0 then ha_rehash f u' c2 (i * 2) size else mret (u', r)
  end.

Fixpoint ha_brute (fuel : nat) (u : S) (c i size : Z) : res (S * Z) :=
  match fuel with
  | O => Fault
  | Datatypes.S f =>
      if fs_ncg p <=? i then mret (u, 0)
      else
        '(u', r) ← allocator u c 0 size;
        if r =? 0 then ha_brute f u' (if c + 1 =? fs_ncg p then 0 else c + 1) (i + 1) size
        else mret (u', r)
  end.

Definition hashalloc (u : S) (icg pref size : Z) : res (S * Z) :=
  '(u1, r1) ← allocator u icg pref size;
  if negb (r1 =? 0) then mret (u1, r1)
  else
    '(u2, r2) ← ha_rehash 33 u1 icg 1 size;
    if negb (r2 =? 0) then mret (u2, r2)
    else ha_brute (Datatypes.S (Z.to_nat (fs_ncg p))) u2 (Z.rem (icg + 2) (fs_ncg p)) 2 size.
End Hashalloc.

Fixpoint dirpref_loop (l : list csum) (c minndir mincg avgifree : Z) : Z :=
  match l with
  | [] => mincg
  | x :: l' =>
      if (cs_ndir x <? minndir) && (avgifree <=? cs_nifree x)
      then dirpref_loop l' (c + 1) (cs_ndir x) c avgifree
      else dirpref_loop l' (c + 1) minndir mincg avgifree
  end.

Definition dirpref (s : fs) : Z :=
  let avgifree := Z.quot (cs_nifree (fs_cstotal s)) (fs_ncg p) in
  fs_ipg p * dirpref_loop (take (Z.to_nat (fs_ncg p)) (fs_cs s)) 0 (fs_ipg p) 0 avgifree.

(** The first group from [c], below [lim], with at least the average of free blocks. *)
Fixpoint find_group (fuel : nat) (l : list csum) (c lim avgbfree : Z) : res (option Z) :=
  match fuel with
  | O => Fault
  | Datatypes.S f =>
      if lim <=? c then mret None
      else x ← rdz l c;
           if avgbfree <=? cs_nbfree x then mret (Some c) else find_group f l (c + 1) lim avgbfree
  end.

Definition set_cgrotor (s : fs) (c : Z) : fs := Fs (fs_cstotal s) (fs_cs s) (fs_fmod s) c.

Definition blkpref (s : fs) (i_number lbn indx : Z) (bap : list Z) : res (fs * Z) :=
  let goal c := fs_fpg p * c + fs_frag p in
  fresh ← (if Z.rem indx (fs_maxbpg p) =? 0 then mret true
           else x ← rdz bap (indx - 1); mret (x =? 0));
  if (fresh : bool) then
    if lbn <? NDADDR then mret (s, goal (itog p i_number))
    else
      let avg := Z.quot (cs_nbfree (fs_cstotal s)) (fs_ncg p) in
      let fuel := Datatypes.S (Z.to_nat (fs_ncg p)) in
      f1 ← find_group fuel (fs_cs s) (fs_cgrotor s + 1) (fs_ncg p) avg;
      f2 ← match f1 with
           | Some c => mret (Some c)
           | None => find_group fuel (fs_cs s) 0 (fs_cgrotor s + 1) avg
           end;
      mret (match f2 with Some c => (set_cgrotor s c, goal c) | None => (s, 0) end)
  else
    prev ← rdz bap (indx - 1);
    let nextblk := prev + fs_frag p in
    contig ← (if fs_maxcontig p <? indx then
                x ← rdz bap (indx - fs_maxcontig p);
                mret (x + blkstofrags p (fs_maxcontig p) =? nextblk)
              else mret true);
    if negb contig then mret (s, nextblk)
    else if fs_rotdelay p =? 0 then mret (s, nextblk)
    else
      let d := Z.quot (fs_rotdelay p * fs_rps p * fs_nsect p) (fs_nspf p * 1000) in
      mret (s, nextblk + howmany d (fs_frag p) * fs_frag p).
End Alloc.
