(* ===== verification/UfsBits.v ===== *)
(** * The block map as a set of free fragments

    [bit m k] says whether fragment [k] is free in the map [m].  The bit and block operations
    of [Ufs] are specified by it, and [blk] is the value of a block of the map. *)

From S2P Require Import Prelude Ufs.
From stdpp Require Import prelude list numbers strings.
From Stdlib Require Import ZArith Lia.

Local Open Scope Z_scope.
Local Open Scope kern_scope.

Definition byte_ok (b : Z) : Prop := 0 <= b < 256.

Definition bit (m : list Z) (k : Z) : bool :=
  match m !! Z.to_nat (k / 8) with Some b => Z.testbit b (k mod 8) | None => false end.

Definition size_in_bits (m : list Z) : Z := 8 * Z.of_nat (length m).

(** ** Single bits *)

Lemma bit_div k : 0 <= k -> k = 8 * (k / 8) + k mod 8 /\ 0 <= k / 8 /\ 0 <= k mod 8 < 8.
Proof. intros. pose proof (Z.div_mod k 8). pose proof (Z.mod_pos_bound k 8).
  pose proof (Z.div_pos k 8). lia. Qed.

Lemma addz_Ok l i d x : rdz l i = Ok x -> addz l i d = Ok (<[Z.to_nat i := x + d]> l).
Proof.
  intros H. unfold addz. rewrite H. kstep. apply rdz_Ok in H as [? H].
  apply wrz_Ok. apply lookup_lt_Some in H. lia.
Qed.

Lemma bit_index m k : 0 <= k < size_in_bits m -> 0 <= k / 8 < Z.of_nat (length m).
Proof. intros H. pose proof (bit_div k ltac:(lia)). unfold size_in_bits in H. lia. Qed.

(** Changing one byte changes the bits of that byte only. *)
Lemma bit_insert m i b k : 0 <= i < Z.of_nat (length m) -> 0 <= k ->
  bit (<[Z.to_nat i := b]> m) k = if decide (k / 8 = i) then Z.testbit b (k mod 8) else bit m k.
Proof.
  intros Hi Hk. unfold bit. pose proof (bit_div k Hk). case_decide as E.
  - rewrite E, list_lookup_insert_eq by lia. done.
  - rewrite list_lookup_insert_ne by lia. done.
Qed.

Lemma one_bit j n : 0 <= j -> Z.testbit (Z.shiftl 1 j) n = (j =? n).
Proof. intros. rewrite Z.shiftl_1_l. by apply Z.pow2_bits_eqb. Qed.

Lemma mask_bit b j : 0 <= j -> negb (Z.land b (Z.shiftl 1 j) =? 0) = Z.testbit b j.
Proof.
  intros Hj. apply eq_true_iff_eq. rewrite negb_true_iff, Z.eqb_neq. split.
  - intros Hn. destruct (Z.testbit b j) eqn:E; [done|]. destruct Hn.
    apply Z.bits_inj'. intros n Hnn. rewrite Z.land_spec, Z.bits_0, one_bit by done.
    destruct (Z.eqb_spec j n) as [<-|]; [by rewrite E|apply andb_false_r].
  - intros E Hz. apply (f_equal (fun z => Z.testbit z j)) in Hz.
    by rewrite Z.land_spec, one_bit, Z.eqb_refl, E, Z.bits_0 in Hz.
Qed.

Lemma isset_Ok m k : 0 <= k < size_in_bits m -> isset m k = Ok (bit m k).
Proof.
  intros H. pose proof (bit_index _ _ H). pose proof (bit_div k ltac:(lia)) as (_ & _ & Hj).
  unfold isset, bit, NBBY. destruct (rdz_lt m (k / 8) ltac:(lia)) as (b & -> & ->). kstep. f_equal.
  apply mask_bit. lia.
Qed.

(** A byte of the map is changed to [b]: the map that results. *)
Lemma same_byte_bits m k b j : 0 <= k < size_in_bits m -> 0 <= j ->
  bit (<[Z.to_nat (k / 8) := b]> m) j
  = if decide (j / 8 = k / 8) then Z.testbit b (j mod 8) else bit m j.
Proof. intros Hk Hj. apply bit_insert; [by apply bit_index|done]. Qed.

Lemma eqb_split k j : 0 <= k -> 0 <= j -> j / 8 = k / 8 -> (k mod 8 =? j mod 8) = (j =? k).
Proof.
  intros Hk Hj E. destruct (bit_div k Hk) as (Ek & _). destruct (bit_div j Hj) as (Ej & _).
  apply eq_true_iff_eq. rewrite !Z.eqb_eq. lia.
Qed.

Lemma bit_byte m j k b : rdz m (k / 8) = Ok b -> j / 8 = k / 8 -> bit m j = Z.testbit b (j mod 8).
Proof. intros (_ & H)%rdz_Ok E. unfold bit. by rewrite E, H. Qed.

(** [m'] is a map as [m] is, with the bits [f]. *)
Definition agree (m m' : list Z) (f : Z -> bool) : Prop :=
  length m' = length m /\ (Forall byte_ok m -> Forall byte_ok m') /\
  forall j, 0 <= j -> bit m' j = f j.

Lemma byte_ok_bits b : 0 <= b -> (forall n, 8 <= n -> Z.testbit b n = false) -> byte_ok b.
Proof.
  intros H0 H. split; [done|]. assert (b mod 2 ^ 8 = b) as E.
  { apply Z.bits_inj'. intros n Hn. destruct (Z.ltb_spec n 8).
    - by rewrite Z.mod_pow2_bits_low.
    - rewrite Z.mod_pow2_bits_high by lia. by rewrite H. }
  pose proof (Z.mod_pos_bound b (2 ^ 8)). lia.
Qed.

Lemma byte_ok_high b n : byte_ok b -> 8 <= n -> Z.testbit b n = false.
Proof.
  intros [H0 H1] Hn. rewrite <- (Z.mod_small b (2 ^ 8)) by lia. apply Z.mod_pow2_bits_high. lia.
Qed.

Lemma byte_ok_lor b x : byte_ok b -> byte_ok x -> byte_ok (Z.lor b x).
Proof.
  intros Hb Hx. apply byte_ok_bits.
  - apply Z.lor_nonneg. destruct Hb, Hx. done.
  - intros n Hn. by rewrite Z.lor_spec, !byte_ok_high.
Qed.

Lemma byte_ok_land b x : byte_ok b -> byte_ok (Z.land b x).
Proof.
  intros Hb. apply byte_ok_bits.
  - apply Z.land_nonneg. left. apply Hb.
  - intros n Hn. by rewrite Z.land_spec, byte_ok_high.
Qed.

Lemma insert_byte_ok m i b b' : rdz m i = Ok b -> (byte_ok b -> byte_ok b') ->
  Forall byte_ok m -> Forall byte_ok (<[Z.to_nat i := b']> m).
Proof.
  intros (_ & Hb)%rdz_Ok H Hm. apply Forall_insert; [done|]. apply H.
  by eapply (Forall_lookup_1 _ _ _ _ Hm).
Qed.

Lemma byte_ok_bit j : 0 <= j < 8 -> byte_ok (Z.shiftl 1 j).
Proof.
  intros H. apply byte_ok_bits.
  - apply Z.shiftl_nonneg. lia.
  - intros n Hn. rewrite one_bit by lia. apply Z.eqb_neq. lia.
Qed.

Lemma setbit_Ok m k : 0 <= k < size_in_bits m ->
  exists m', setbit m k = Ok m' /\ agree m m' (fun j => (j =? k) || bit m j).
Proof.
  intros H. pose proof (bit_index _ _ H) as Hi. unfold setbit, NBBY.
  destruct (rdz_lt m (k / 8) Hi) as (b & Hb & _). rewrite Hb. kstep. rewrite wrz_Ok by done.
  pose proof (bit_div k ltac:(lia)) as (_ & _ & Hk8).
  eexists. split; [done|]. split; [apply length_insert|]. split.
  { eapply insert_byte_ok; [done|]. intros ?. apply byte_ok_lor; [done|by apply byte_ok_bit]. }
  intros j Hj. rewrite same_byte_bits by done. case_decide as E.
  - rewrite Z.lor_spec, one_bit, eqb_split, (bit_byte _ _ _ _ Hb E) by lia. apply orb_comm.
  - destruct (Z.eqb_spec j k) as [->|]; [done|]. done.
Qed.

Lemma clrbit_Ok m k : 0 <= k < size_in_bits m ->
  exists m', clrbit m k = Ok m' /\ agree m m' (fun j => negb (j =? k) && bit m j).
Proof.
  intros H. pose proof (bit_index _ _ H) as Hi. unfold clrbit, NBBY.
  destruct (rdz_lt m (k / 8) Hi) as (b & Hb & _). rewrite Hb. kstep. rewrite wrz_Ok by done.
  pose proof (bit_div k ltac:(lia)) as (_ & _ & Hk8).
  eexists. split; [done|]. split; [apply length_insert|]. split.
  { eapply insert_byte_ok; [done|]. intros ?. by apply byte_ok_land. }
  intros j Hj. rewrite same_byte_bits by done.
  pose proof (bit_div j Hj) as (_ & _ & Hj8). case_decide as E.
  - rewrite Z.land_spec, Z.lnot_spec, one_bit, eqb_split, (bit_byte _ _ _ _ Hb E) by lia.
    apply andb_comm.
  - destruct (Z.eqb_spec j k) as [->|]; [done|]. done.
Qed.

(** ** Runs of bits *)

Definition in_range (k n j : Z) : bool := (k <=? j) && (j <? k + n).

Lemma agree_size m m' f : agree m m' f -> size_in_bits m' = size_in_bits m.
Proof. intros [H _]. unfold size_in_bits. by rewrite H. Qed.

Lemma set_bits_Ok n m k : 0 <= k -> k + Z.of_nat n <= size_in_bits m ->
  exists m', set_bits n m k = Ok m' /\ agree m m' (fun j => in_range k (Z.of_nat n) j || bit m j).
Proof.
  revert m k. induction n as [|n IH]; intros m k Hk Hn; cbn [set_bits].
  - exists m. split; [done|]. split; [done|]. split; [done|]. intros j Hj. unfold in_range.
    destruct (Z.leb_spec k j), (Z.ltb_spec j (k + Z.of_nat 0)); try done; lia.
  - destruct (setbit_Ok m k ltac:(lia)) as (m1 & -> & Ha). kstep.
    destruct (IH m1 (k + 1) ltac:(lia)) as (m2 & -> & Hl2 & Hk2 & Hb2).
    { rewrite (agree_size _ _ _ Ha). lia. }
    exists m2. split; [done|]. destruct Ha as (Hl1 & Hk1 & Hb1). split; [congruence|]. split; [auto|]. intros j Hj.
    rewrite Hb2, Hb1 by done. unfold in_range. destruct (bit m j); [by rewrite !orb_true_r|].
    rewrite !orb_false_r. apply eq_true_iff_eq.
    rewrite orb_true_iff, !andb_true_iff, !Z.leb_le, !Z.ltb_lt, Z.eqb_eq. lia.
Qed.

Lemma clr_bits_Ok n m k : 0 <= k -> k + Z.of_nat n <= size_in_bits m ->
  exists m', clr_bits n m k = Ok m' /\ agree m m' (fun j => negb (in_range k (Z.of_nat n) j) && bit m j).
Proof.
  revert m k. induction n as [|n IH]; intros m k Hk Hn; cbn [clr_bits].
  - exists m. split; [done|]. split; [done|]. split; [done|]. intros j Hj. unfold in_range.
    destruct (Z.leb_spec k j), (Z.ltb_spec j (k + Z.of_nat 0)); try done; lia.
  - destruct (clrbit_Ok m k ltac:(lia)) as (m1 & -> & Ha). kstep.
    destruct (IH m1 (k + 1) ltac:(lia)) as (m2 & -> & Hl2 & Hk2 & Hb2).
    { rewrite (agree_size _ _ _ Ha). lia. }
    exists m2. split; [done|]. destruct Ha as (Hl1 & Hk1 & Hb1). split; [congruence|]. split; [auto|]. intros j Hj.
    rewrite Hb2, Hb1 by done. unfold in_range. destruct (bit m j); [|by rewrite !andb_false_r].
    rewrite !andb_true_r. apply eq_true_iff_eq.
    rewrite andb_true_iff, !negb_true_iff, !andb_false_iff, !Z.leb_gt, !Z.ltb_ge, Z.eqb_neq. lia.
Qed.

(** free()'s loop: a panic when a fragment is free already. *)
Lemma free_bits_Ok n m k : 0 <= k -> k + Z.of_nat n <= size_in_bits m ->
  (forall j, in_range k (Z.of_nat n) j = true -> bit m j = false) ->
  free_bits n m k = set_bits n m k.
Proof.
  revert m k. induction n as [|n IH]; intros m k Hk Hn Hf; cbn [set_bits free_bits]; [done|].
  rewrite isset_Ok by lia. kstep.
  rewrite Hf by (unfold in_range; destruct (Z.leb_spec k k), (Z.ltb_spec k (k + Z.of_nat (S n))); simpl; try done; lia).
  destruct (setbit_Ok m k ltac:(lia)) as (m1 & -> & Ha). kstep. apply IH; [lia| |].
  - rewrite (agree_size _ _ _ Ha). lia.
  - intros j Hj. unfold in_range in Hj, Hf. apply andb_true_iff in Hj as [H1%Z.leb_le H2%Z.ltb_lt].
    rewrite (proj2 (proj2 Ha)) by lia. destruct (Z.eqb_spec j k); [lia|]. simpl. apply Hf.
    apply andb_true_iff. rewrite Z.leb_le, Z.ltb_lt. lia.
Qed.

(** ** Blocks *)

Definition frag_ok (f : Z) : Prop := f = 1 \/ f = 2 \/ f = 4 \/ f = 8.

Definition byte_at (m : list Z) (i : Z) : Z :=
  match m !! Z.to_nat i with Some b => b | None => 0 end.

(** The value of block [h]: a bit for each of its fragments, set if free. *)
Definition blk (f : Z) (m : list Z) (h : Z) : Z :=
  Z.land (Z.shiftr (byte_at m (f * h / 8)) (f * h mod 8)) (Z.ones f).

(** The values of a block whose fragments are all free, and with those of a range taken or
    freed. *)
Definition full (f : Z) : Z := Z.ones f.
Definition range (pos n : Z) : Z := Z.shiftl (Z.ones n) pos.

Lemma range_bit pos n j : 0 <= pos -> 0 <= n -> 0 <= j -> Z.testbit (range pos n) j = in_range pos n j.
Proof.
  intros. unfold range, in_range. rewrite Z.shiftl_spec by done.
  destruct (Z.leb_spec pos j); simpl.
  - rewrite Z.testbit_ones_nonneg by lia.
    destruct (Z.ltb_spec (j - pos) n), (Z.ltb_spec j (pos + n)); try done; lia.
  - apply Z.testbit_neg_r. lia.
Qed.

Lemma frag_div f h j : frag_ok f -> 0 <= h -> 0 <= j < f ->
  (f * h + j) / 8 = f * h / 8 /\ (f * h + j) mod 8 = f * h mod 8 + j /\
  f * h mod 8 + f <= 8.
Proof. intros [->|[->|[->| ->]]] H1 H2; Z.to_euclidean_division_equations; lia. Qed.

Lemma blk_bit f m h j : frag_ok f -> 0 <= h -> 0 <= j ->
  Z.testbit (blk f m h) j = (j <? f) && bit m (f * h + j).
Proof.
  intros Hf Hh Hj. unfold blk.
  assert (0 <= f) by (unfold frag_ok in Hf; lia).
  rewrite Z.land_spec, Z.shiftr_spec, Z.testbit_ones_nonneg by done.
  destruct (Z.ltb_spec j f); [|apply andb_false_r]. rewrite andb_true_r. simpl.
  destruct (frag_div f h j Hf Hh (conj Hj ltac:(done))) as (E1 & E2 & _).
  unfold bit, byte_at. rewrite E1, E2. destruct (m !! _); [f_equal; lia|apply Z.bits_0].
Qed.

Lemma blk_range f m h : frag_ok f -> 0 <= blk f m h < 2 ^ f.
Proof.
  intros Hf. unfold blk. rewrite Z.land_ones by (unfold frag_ok in Hf; lia).
  apply Z.mod_pos_bound. unfold frag_ok in Hf. lia.
Qed.

(** A block's value is determined by its bits. *)
Lemma blk_ext f m h v : frag_ok f -> 0 <= h ->
  (forall j, 0 <= j < f -> Z.testbit v j = bit m (f * h + j)) ->
  (forall j, f <= j -> Z.testbit v j = false) -> blk f m h = v.
Proof.
  intros Hf Hh H1 H2. apply Z.bits_inj'. intros j Hj. rewrite blk_bit by done.
  destruct (Z.ltb_spec j f); simpl; [by rewrite H1|by rewrite H2].
Qed.

Lemma blk_full f m h : frag_ok f -> 0 <= h ->
  blk f m h = full f <-> forall j, 0 <= j < f -> bit m (f * h + j) = true.
Proof.
  intros Hf Hh. assert (0 <= f) by (unfold frag_ok in Hf; lia). split.
  - intros E j Hj. assert (Z.testbit (blk f m h) j = true) as Ht.
    { rewrite E. unfold full. rewrite Z.testbit_ones_nonneg by lia. apply Z.ltb_lt. lia. }
    rewrite blk_bit in Ht by (done || lia). by apply andb_true_iff in Ht as [_ ?].
  - intros H0. apply blk_ext; [done|done| |].
    + intros j Hj. rewrite H0 by done. unfold full. rewrite Z.testbit_ones_nonneg by lia.
      apply Z.ltb_lt. lia.
    + intros j Hj. unfold full. rewrite Z.testbit_ones_nonneg by lia. apply Z.ltb_ge. lia.
Qed.

Section Blocks.
Context (p : fsp) (m : list Z) (h : Z).
Hypothesis Hf : frag_ok (fs_frag p).
Hypothesis Hh : 0 <= h.
Hypothesis Hm : fs_frag p * h < size_in_bits m.

Let f := fs_frag p.
Let s := f * h mod 8.
Let b := byte_at m (f * h / 8).

Lemma block_byte : rdz m (f * h / 8) = Ok b /\ 0 <= f * h / 8 < Z.of_nat (length m) /\ 0 <= s < 8.
Proof.
  assert (0 <= f * h) as H0 by (unfold frag_ok, f in *; lia).
  pose proof (bit_index m (f * h) ltac:(done)) as Hi.
  destruct (rdz_lt m (f * h / 8) Hi) as (x & Hx & Hl). split.
  - rewrite Hx. unfold b, byte_at. by rewrite Hl.
  - split; [done|]. by apply bit_div.
Qed.

Lemma blkmap_Ok : blkmap p m (f * h) = Ok (blk f m h).
Proof.
  destruct block_byte as (Hb & _ & _). unfold blkmap, NBBY. rewrite Hb. kstep. f_equal.
  unfold blk. fold b. f_equal. unfold f. destruct Hf as [->|[->|[->| ->]]]; reflexivity.
Qed.

(** The byte and the shift the C code computes for a block. *)
Lemma block_index :
  (fs_frag p = 8 -> f * h / 8 = h /\ s = 0) /\
  (fs_frag p = 4 -> f * h / 8 = Z.shiftr h 1 /\ s = Z.shiftl (Z.land h 1) 2) /\
  (fs_frag p = 2 -> f * h / 8 = Z.shiftr h 2 /\ s = Z.shiftl (Z.land h 3) 1) /\
  (fs_frag p = 1 -> f * h / 8 = Z.shiftr h 3 /\ s = Z.land h 7).
Proof.
  change (Z.land h 1) with (Z.land h (Z.ones 1)). change (Z.land h 3) with (Z.land h (Z.ones 2)).
  change (Z.land h 7) with (Z.land h (Z.ones 3)).
  rewrite !Z.land_ones, !Z.shiftr_div_pow2, !Z.shiftl_mul_pow2 by lia.
  unfold s, f. refine (conj _ (conj _ (conj _ _))); intros E; rewrite E; Z.to_euclidean_division_equations; lia.
Qed.

Lemma isblock_Ok : Forall byte_ok m -> isblock p m h = Ok (blk f m h =? full f).
Proof.
  intros Hok. destruct block_byte as (Hb & Hi & Hs). destruct block_index as (I8 & I4 & I2 & I1).
  assert (byte_ok b) as Hbo.
  { apply rdz_Ok in Hb as [_ Hb]. by eapply (Forall_lookup_1 _ _ _ _ Hok). }
  assert (forall a, 0 <= a -> (Z.land b (range s a) =? range s a)
     = (Z.land (Z.shiftr b s) (Z.ones a) =? Z.ones a)) as Hmask.
  { intros a Ha. apply eq_true_iff_eq. rewrite !Z.eqb_eq. split; intros E; apply Z.bits_inj'; intros j Hj.
    - apply (f_equal (fun z => Z.testbit z (j + s))) in E.
      rewrite Z.land_spec, range_bit in E by lia. unfold in_range in E.
      rewrite Z.land_spec, Z.shiftr_spec, Z.testbit_ones_nonneg by lia.
      destruct (Z.leb_spec s (j + s)), (Z.ltb_spec (j + s) (s + a)), (Z.ltb_spec j a); try lia; done.
    - rewrite Z.land_spec, range_bit by lia. unfold in_range.
      destruct (Z.leb_spec s j), (Z.ltb_spec j (s + a)); simpl; rewrite ?andb_false_r; try done.
      apply (f_equal (fun z => Z.testbit z (j - s))) in E.
      rewrite Z.land_spec, Z.shiftr_spec, Z.testbit_ones_nonneg in E by lia.
      replace (j - s + s) with j in E by lia. destruct (Z.ltb_spec (j - s) a); [done|lia]. }
  assert (isblock p m h = Ok (Z.land b (range s f) =? range s f)) as ->.
  { unfold isblock, range. destruct Hf as [E|[E|[E|E]]]; unfold f at 1 2; rewrite E; simpl.
    - destruct (I1 E) as [<- <-]. by rewrite Hb.
    - destruct (I2 E) as [<- <-]. by rewrite Hb.
    - destruct (I4 E) as [<- <-]. by rewrite Hb.
    - destruct (I8 E) as [E1 ->]. rewrite <- E1 at 1. rewrite Hb. kstep. f_equal.
      change (Z.shiftl _ 0) with (Z.ones 8). rewrite Z.land_ones by lia.
      by rewrite Z.mod_small by apply Hbo. }
  rewrite Hmask by (unfold frag_ok, f in *; lia). done.
Qed.
(** The byte of the block is given the value [b'], where the block's bits are [v] and the
    others those of [b]. *)
Lemma block_update (b' : Z) (v : bool) : (byte_ok b -> byte_ok b') ->
  (forall j, 0 <= j < 8 -> Z.testbit b' j = if in_range s f j then v else Z.testbit b j) ->
  agree m (<[Z.to_nat (f * h / 8) := b']> m) (fun j => if in_range (f * h) f j then v else bit m j).
Proof.
  intros Hok Hb'. destruct block_byte as (Hb & Hi & Hs).
  assert (0 <= f * h) as H0 by (unfold frag_ok, f in *; lia).
  destruct (bit_div (f * h) H0) as (Efh & _).
  destruct (frag_div f h 0 Hf Hh ltac:(unfold frag_ok, f in *; lia)) as (_ & _ & Hsf).
  split; [apply length_insert|]. split; [by eapply insert_byte_ok|].
  intros j Hj. rewrite bit_insert by done. destruct (bit_div j Hj) as (Ej & Hj0 & Hj8).
  fold s in Efh, Hsf. case_decide as E.
  - rewrite Hb' by done. rewrite (bit_byte _ _ _ _ Hb E).
    replace (in_range (f * h) f j) with (in_range s f (j mod 8)); [done|].
    unfold in_range. apply eq_true_iff_eq. rewrite !andb_true_iff, !Z.leb_le, !Z.ltb_lt. lia.
  - replace (in_range (f * h) f j) with false; [done|]. symmetry. unfold in_range.
    apply andb_false_iff. rewrite Z.leb_gt, Z.ltb_ge.
    destruct (Z.lt_ge_cases j (f * h)); [by left|right].
    destruct (Z.lt_ge_cases j (f * h + f)); [|done]. exfalso. apply E.
    rewrite Ej, Efh. Z.to_euclidean_division_equations. lia.
Qed.

Lemma range_byte : byte_ok (range s f).
Proof.
  destruct block_byte as (_ & _ & Hs).
  destruct (frag_div f h 0 Hf Hh ltac:(unfold frag_ok, f in *; lia)) as (_ & _ & Hsf). fold s in Hsf.
  assert (0 <= f) by (unfold frag_ok, f in *; lia).
  apply byte_ok_bits.
  - unfold range. apply Z.shiftl_nonneg. rewrite Z.ones_equiv. pose proof (Z.pow_pos_nonneg 2 f). lia.
  - intros n Hn. rewrite range_bit by lia. unfold in_range. apply andb_false_iff. right.
    apply Z.ltb_ge. lia.
Qed.

Lemma clrblock_Ok : exists m', clrblock p m h = Ok m' /\
  agree m m' (fun j => if in_range (f * h) f j then false else bit m j).
Proof.
  destruct block_byte as (Hb & Hi & Hs). destruct block_index as (I8 & I4 & I2 & I1).
  assert (0 <= f) by (unfold frag_ok, f in *; lia).
  assert (exists b', clrblock p m h = Ok (<[Z.to_nat (f * h / 8) := b']> m) /\ (byte_ok b -> byte_ok b') /\
    forall j, 0 <= j < 8 -> Z.testbit b' j = Z.testbit (Z.land b (Z.lnot (range s f))) j)
    as (b' & E & Hok & Hb').
  { unfold clrblock, range. destruct Hf as [E|[E|[E|E]]]; unfold f at 2; rewrite E; simpl.
    - destruct (I1 E) as [<- <-]. rewrite Hb. kstep. rewrite wrz_Ok by done.
      eexists. split; [done|]. split; [apply byte_ok_land|done].
    - destruct (I2 E) as [<- <-]. rewrite Hb. kstep. rewrite wrz_Ok by done.
      eexists. split; [done|]. split; [apply byte_ok_land|done].
    - destruct (I4 E) as [<- <-]. rewrite Hb. kstep. rewrite wrz_Ok by done.
      eexists. split; [done|]. split; [apply byte_ok_land|done].
    - destruct (I8 E) as [E1 ->]. rewrite E1 in Hi |- *. rewrite wrz_Ok by done.
      eexists. split; [done|]. split; [by unfold byte_ok|]. intros j Hj.
      rewrite Z.bits_0, Z.land_spec, Z.lnot_spec by lia. change (Z.shiftl _ 0) with (Z.ones 8).
      rewrite Z.testbit_ones_nonneg by lia. destruct (Z.ltb_spec j 8); [by rewrite andb_false_r|lia]. }
  eexists. split; [exact E|]. apply block_update; [done|]. intros j Hj.
  rewrite Hb', Z.land_spec, Z.lnot_spec, range_bit by lia.
  destruct (in_range s f j); [apply andb_false_r|apply andb_true_r].
Qed.

Lemma setblock_Ok : exists m', setblock p m h = Ok m' /\
  agree m m' (fun j => if in_range (f * h) f j then true else bit m j).
Proof.
  destruct block_byte as (Hb & Hi & Hs). destruct block_index as (I8 & I4 & I2 & I1).
  assert (0 <= f) by (unfold frag_ok, f in *; lia). pose proof range_byte as Hr.
  assert (exists b', setblock p m h = Ok (<[Z.to_nat (f * h / 8) := b']> m) /\ (byte_ok b -> byte_ok b') /\
    forall j, 0 <= j < 8 -> Z.testbit b' j = Z.testbit (Z.lor b (range s f)) j)
    as (b' & E & Hok & Hb').
  { assert (forall x, x = range s f -> byte_ok b -> byte_ok (Z.lor b x)) as Hlor
      by (intros x -> ?; by apply byte_ok_lor).
    unfold setblock. destruct Hf as [E|[E|[E|E]]]; rewrite E; simpl.
    - destruct (I1 E) as [<- <-]. rewrite Hb. kstep. rewrite wrz_Ok by done.
      eexists. split; [done|]. unfold range, f in *. rewrite E in *. split; [by apply Hlor|done].
    - destruct (I2 E) as [<- <-]. rewrite Hb. kstep. rewrite wrz_Ok by done.
      eexists. split; [done|]. unfold range, f in *. rewrite E in *. split; [by apply Hlor|done].
    - destruct (I4 E) as [<- <-]. rewrite Hb. kstep. rewrite wrz_Ok by done.
      eexists. split; [done|]. unfold range, f in *. rewrite E in *. split; [by apply Hlor|done].
    - destruct (I8 E) as [E1 E2]. rewrite E1 in Hi |- *. rewrite wrz_Ok by done.
      eexists. split; [done|]. split; [by unfold byte_ok|]. intros j Hj.
      change 255 with (Z.ones 8). rewrite E2, Z.lor_spec, range_bit by lia.
      rewrite Z.testbit_ones_nonneg by lia. unfold in_range, f. rewrite E.
      destruct (Z.ltb_spec j 8), (Z.leb_spec 0 j), (Z.ltb_spec j (0 + 8)); lia. }
  eexists. split; [exact E|]. apply block_update; [done|]. intros j Hj.
  rewrite Hb', Z.lor_spec, range_bit by lia.
  destruct (in_range s f j); [apply orb_true_r|apply orb_false_r].
Qed.
End Blocks.

(** ** Taking and freeing a range of a block *)

(** The map with the fragments [k .. k + n) all free ([v]) or all taken. *)
Definition put_range (m m' : list Z) (k n : Z) (v : bool) : Prop :=
  agree m m' (fun j => if in_range k n j then v else bit m j).

Lemma agree_ext m m' g g' : (forall j, 0 <= j -> g j = g' j) -> agree m m' g -> agree m m' g'.
Proof. intros H (H1 & H2 & H3). split; [done|]. split; [done|]. intros j Hj. by rewrite <- H, H3. Qed.

Lemma set_range_Ok n m k : 0 <= k -> 0 <= n -> k + n <= size_in_bits m ->
  exists m', set_bits (Z.to_nat n) m k = Ok m' /\ put_range m m' k n true.
Proof.
  intros Hk Hn Hs. destruct (set_bits_Ok (Z.to_nat n) m k) as (m' & E & Ha); [done|lia|].
  exists m'. split; [done|]. eapply agree_ext; [|exact Ha]. intros j _. simpl.
  rewrite Z2Nat.id by done. by destruct (in_range k n j).
Qed.

Lemma clr_range_Ok n m k : 0 <= k -> 0 <= n -> k + n <= size_in_bits m ->
  exists m', clr_bits (Z.to_nat n) m k = Ok m' /\ put_range m m' k n false.
Proof.
  intros Hk Hn Hs. destruct (clr_bits_Ok (Z.to_nat n) m k) as (m' & E & Ha); [done|lia|].
  exists m'. split; [done|]. eapply agree_ext; [|exact Ha]. intros j _. simpl.
  rewrite Z2Nat.id by done. by destruct (in_range k n j).
Qed.

Lemma free_range_Ok n m k : 0 <= k -> 0 <= n -> k + n <= size_in_bits m ->
  (forall j, k <= j < k + n -> bit m j = false) ->
  exists m', free_bits (Z.to_nat n) m k = Ok m' /\ put_range m m' k n true.
Proof.
  intros Hk Hn Hs Hf. rewrite free_bits_Ok; [by apply set_range_Ok|done|lia|].
  intros j Hj. apply Hf. unfold in_range in Hj. apply andb_true_iff in Hj as [H1%Z.leb_le H2%Z.ltb_lt]. lia.
Qed.

Definition upd_blk (v : bool) (x pos n : Z) : Z :=
  if v then Z.lor x (range pos n) else Z.ldiff x (range pos n).

Lemma put_range_blk f m m' h pos n v : frag_ok f -> 0 <= h -> 0 <= pos -> 0 <= n -> pos + n <= f ->
  put_range m m' (f * h + pos) n v ->
  blk f m' h = upd_blk v (blk f m h) pos n /\
  (forall h', 0 <= h' -> h' <> h -> blk f m' h' = blk f m h').
Proof.
  intros Hf Hh Hp Hn Hpn (_ & _ & Hb). assert (0 < f) by (unfold frag_ok in Hf; lia). split.
  - apply blk_ext; [done|done| |].
    + intros j Hj. rewrite Hb by lia. unfold upd_blk.
      replace (in_range (f * h + pos) n (f * h + j)) with (in_range pos n j)
        by (unfold in_range; apply eq_true_iff_eq; rewrite !andb_true_iff, !Z.leb_le, !Z.ltb_lt; lia).
      destruct v.
      * rewrite Z.lor_spec, range_bit, blk_bit by (done || lia).
        destruct (Z.ltb_spec j f); [|lia]. destruct (in_range pos n j); [apply orb_true_r|apply orb_false_r].
      * rewrite Z.ldiff_spec, range_bit, blk_bit by (done || lia).
        destruct (Z.ltb_spec j f); [|lia]. destruct (in_range pos n j); [apply andb_false_r|apply andb_true_r].
    + intros j Hj. assert (in_range pos n j = false) as Hbt.
      { unfold in_range. apply andb_false_iff. right. apply Z.ltb_ge. lia. }
      unfold upd_blk. destruct v.
      * rewrite Z.lor_spec, range_bit, Hbt, blk_bit by (done || lia). destruct (Z.ltb_spec j f); [lia|done].
      * rewrite Z.ldiff_spec, range_bit, Hbt, blk_bit by (done || lia). destruct (Z.ltb_spec j f); [lia|done].
  - intros h' Hh' Hne. apply blk_ext; [done|done| |].
    + intros j Hj. rewrite blk_bit by (done || lia). destruct (Z.ltb_spec j f); [|lia]. simpl.
      rewrite Hb by nia. replace (in_range _ _ _) with false; [done|]. symmetry. unfold in_range.
      apply andb_false_iff. rewrite Z.leb_gt, Z.ltb_ge. nia.
    + intros j Hj. rewrite blk_bit by (done || lia). destruct (Z.ltb_spec j f); [lia|done].
Qed.

Lemma put_range_size m m' k n v : put_range m m' k n v -> size_in_bits m' = size_in_bits m.
Proof. apply agree_size. Qed.
