(* ===== verification/UfsFrag.v ===== *)
(** * Fragments of a block: the tables and fragacct()

    A block of [f] fragments is a value below 2^f, a bit for each free fragment.  [runs f v s]
    counts its runs of exactly [s] free fragments; the tables of [ufs_tables.c] and the masks
    [around] and [inside] are compared with it on every value of a block. *)

From S2P Require Import Prelude Ufs UfsBits.
From stdpp Require Import prelude list numbers strings.
From Stdlib Require Import ZArith Lia.

Local Open Scope Z_scope.
Local Open Scope kern_scope.

(** ** Reference definitions *)

(** The fragments [q .. q + s) of [v] are free and the ones on either side are not. *)
Definition is_run (f v s q : Z) : bool :=
  (q + s <=? f) && (Z.land v (range q s) =? range q s) &&
  negb (Z.testbit v (q - 1)) && negb (Z.testbit v (q + s)).

Definition runs (f v s : Z) : Z :=
  Z.of_nat (length (filter (fun q => is_run f v s q = true) (seqZ 0 f))).

Definition nfrags (f v : Z) : Z :=
  Z.of_nat (length (filter (fun q => Z.testbit v q = true) (seqZ 0 f))).

(** ** Checking every value of a block *)

Definition all_blocks (P : Z -> Z -> bool) : bool :=
  forallb (fun f => forallb (P f) (seqZ 0 (2 ^ f))) [1; 2; 4; 8].

Definition upto (a b : Z) (P : Z -> bool) : bool := forallb P (seqZ a (b - a)).

Lemma upto_spec a b P : upto a b P = true -> forall x, a <= x < b -> P x = true.
Proof.
  unfold upto. rewrite forallb_forall. intros H x Hx. apply H.
  apply list_elem_of_In, elem_of_seqZ. lia.
Qed.

Lemma all_blocks_spec P : all_blocks P = true ->
  forall f v, frag_ok f -> 0 <= v < 2 ^ f -> P f v = true.
Proof.
  unfold all_blocks. rewrite forallb_forall. intros H f v Hf Hv.
  assert (In f [1; 2; 4; 8]) as Hin by (unfold frag_ok in Hf; simpl; intuition).
  specialize (H f Hin). rewrite forallb_forall in H. apply H.
  apply list_elem_of_In, elem_of_seqZ. lia.
Qed.

(** ** fragtbl *)

Definition byte_block (f c b : Z) : Z := Z.land (Z.shiftr c (f * b)) (Z.ones f).

Definition tbl_entry (f c : Z) : Z :=
  match fragtbl f with
  | Ok t => match t !! Z.to_nat c with Some x => x | None => 0 end
  | _ => 0
  end.

(** The table's bit for size [s] of byte [c]: some block of the byte has such a run. *)
Definition tbl_check (f c s : Z) : bool :=
  eqb (Z.testbit (tbl_entry f c) (s - 1 + f mod 8))
      (existsb (fun b => 0 <? runs f (byte_block f c b) s) (seqZ 0 (8 / f))).

Lemma tbl_all : forallb (fun f => upto 0 256 (fun c => upto 1 (f + 1) (tbl_check f c))) [1; 2; 4; 8] = true.
Proof. vm_compute. reflexivity. Qed.

Lemma fragtbl_Ok f : frag_ok f ->
  exists t, fragtbl f = Ok t /\ length t = 256%nat /\ forall c, 0 <= c < 256 -> rdz t c = Ok (tbl_entry f c).
Proof.
  intros Hf. unfold tbl_entry.
  assert (exists t, fragtbl f = Ok t /\ length t = 256%nat) as (t & E & Hl)
    by (destruct Hf as [->|[->|[->| ->]]]; eexists; (split; [reflexivity|reflexivity])).
  exists t. split; [done|]. split; [done|]. intros c Hc.
  destruct (rdz_lt t c ltac:(lia)) as (x & Hx & Hl'). by rewrite E, Hl', Hx.
Qed.

Lemma tbl_bit f c s : frag_ok f -> 0 <= c < 256 -> 1 <= s <= f ->
  Z.testbit (tbl_entry f c) (s - 1 + f mod 8) = true <->
  exists b, 0 <= b < 8 / f /\ 0 < runs f (byte_block f c b) s.
Proof.
  intros Hf Hc Hs. pose proof tbl_all as H. rewrite forallb_forall in H.
  assert (In f [1; 2; 4; 8]) as Hin by (unfold frag_ok in Hf; simpl; intuition).
  specialize (H f Hin). pose proof (upto_spec _ _ _ (upto_spec _ _ _ H c Hc) s ltac:(lia)) as Ht.
  apply eqb_prop in Ht. rewrite Ht, existsb_exists. split.
  - intros (b & Hb & Hr). apply list_elem_of_In, elem_of_seqZ in Hb. apply Z.ltb_lt in Hr.
    exists b. split; [lia|done].
  - intros (b & Hb & Hr). exists b. split; [|by apply Z.ltb_lt].
    apply list_elem_of_In, elem_of_seqZ. lia.
Qed.

(** ** The search for a run in a block *)

Definition first_run (f v s : Z) : option Z :=
  snd <$> list_find (fun q => is_run f v s q = true) (seqZ 0 f).

Definition mask_at (l : list Z) (s : Z) : Z := match l !! Z.to_nat s with Some x => x | None => 0 end.

Definition params (f : Z) : fsp :=
  Fsp 0 0 0 f 0 0 0 0 0 0 0 0 0 0 0 0 0 0 0 [] [] 0.

Definition find_check (f v s : Z) : bool :=
  bool_decide (find_pos (params f) (S (Z.to_nat f)) (Z.shiftl v 1) (mask_at around s) (mask_at inside s) s 0
               = first_run f v s).

Lemma find_all : all_blocks (fun f v => upto 1 (f + 1) (find_check f v)) = true.
Proof. vm_compute. reflexivity. Qed.

Lemma find_pos_frag p q fuel b fi su s pos : fs_frag p = fs_frag q ->
  find_pos p fuel b fi su s pos = find_pos q fuel b fi su s pos.
Proof.
  intros E. revert fi su pos. induction fuel as [|fu IH]; intros; simpl; [done|]. by rewrite E, IH.
Qed.

Lemma masks_Ok s : 1 <= s <= 8 ->
  rdz around s = Ok (mask_at around s) /\ rdz inside s = Ok (mask_at inside s).
Proof.
  intros H. unfold mask_at. destruct (rdz_lt around s ltac:(simpl; lia)) as (x & -> & ->).
  destruct (rdz_lt inside s ltac:(simpl; lia)) as (y & -> & ->). done.
Qed.

Lemma runs_find f v s : match first_run f v s with
  | Some q => is_run f v s q = true /\ 0 <= q < f
  | None => runs f v s = 0
  end.
Proof.
  unfold first_run, runs. destruct (list_find _ _) as [[i q]|] eqn:E; simpl.
  - apply list_find_Some in E as (Hi & Hq & _). split; [done|].
    apply list_elem_of_lookup_2, elem_of_seqZ in Hi. lia.
  - apply list_find_None in E. induction E as [|x l Hx _ IH]; [done|].
    by rewrite filter_cons_False.
Qed.

(** The sifting loop finds a run exactly when there is one. *)
Lemma find_pos_spec p v s : frag_ok (fs_frag p) -> 0 <= v < 2 ^ fs_frag p -> 1 <= s <= fs_frag p ->
  match find_pos p (S (Z.to_nat (fs_frag p))) (Z.shiftl v 1) (mask_at around s) (mask_at inside s) s 0 with
  | Some q => is_run (fs_frag p) v s q = true /\ 0 <= q < fs_frag p
  | None => runs (fs_frag p) v s = 0
  end.
Proof.
  intros Hf Hv Hs. rewrite (find_pos_frag p (params (fs_frag p))) by done.
  pose proof (all_blocks_spec _ find_all _ v Hf Hv) as H.
  pose proof (upto_spec _ _ _ H s ltac:(lia)) as H1. apply bool_decide_eq_true in H1.
  rewrite H1. apply runs_find.
Qed.

(** ** fragacct() *)

(** The number of matches of the inner loop, apart from the counters. *)
Fixpoint pos_count (fuel : nat) (f blk field subfield siz pos : Z) : Z :=
  match fuel with
  | O => 0
  | S n =>
      if f <? pos then 0
      else if Z.land blk field =? subfield
           then 1 + pos_count n f blk (Z.shiftl (Z.shiftl field siz) 1) (Z.shiftl (Z.shiftl subfield siz) 1)
                      siz (pos + siz + 1)
           else pos_count n f blk (Z.shiftl field 1) (Z.shiftl subfield 1) siz (pos + 1)
  end.

(** What the body of the outer loop counts for size [siz]. *)
Definition siz_count (f v siz : Z) : Z :=
  if Z.land (Z.shiftl (tbl_entry f v) 1) (Z.shiftl 1 (siz + f mod 8)) =? 0 then 0
  else pos_count (S (Z.to_nat f)) f (Z.shiftl v 1) (mask_at around siz) (mask_at inside siz) siz siz.

Lemma acct_all : all_blocks (fun f v => upto 1 f (fun s => siz_count f v s =? runs f v s)) = true.
Proof. vm_compute. reflexivity. Qed.

Lemma acct_pos_spec p fuel b fi su s pos l cnt x : rdz l s = Ok x ->
  acct_pos p fuel b fi su s pos l cnt
  = Ok (<[Z.to_nat s := x + cnt * pos_count fuel (fs_frag p) b fi su s pos]> l).
Proof.
  revert fi su pos l x. induction fuel as [|n IH]; intros fi su pos l x Hx; simpl.
  - apply rdz_Ok in Hx as [_ Hx]. rewrite list_insert_id; [done|]. rewrite Hx. f_equal. lia.
  - destruct (fs_frag p <? pos).
    { apply rdz_Ok in Hx as [_ Hx]. rewrite list_insert_id; [done|]. rewrite Hx. f_equal. lia. }
    destruct (Z.land b fi =? su).
    + rewrite (addz_Ok _ _ _ _ Hx). kstep. pose proof Hx as [Hs Hl]%rdz_Ok.
      rewrite (IH _ _ _ _ (x + cnt)).
      * rewrite list_insert_insert_eq. do 2 f_equal. lia.
      * apply rdz_Ok. split; [done|]. apply list_lookup_insert_eq. by eapply lookup_lt_Some.
    + by apply IH.
Qed.

(** The counters after fragacct(): each size below [f] adjusted by its number of runs. *)
Definition acct_done (f v : Z) (l l' : list Z) (cnt lo : Z) : Prop :=
  length l' = length l /\
  forall s, 0 <= s -> l' !! Z.to_nat s =
    (fun x => x + (if bool_decide (lo <= s < f) then cnt * runs f v s else 0)) <$> l !! Z.to_nat s.

Lemma acct_siz_spec p v fuel siz l cnt : frag_ok (fs_frag p) -> 0 <= v < 2 ^ fs_frag p ->
  fs_frag p <= Z.of_nat (length l) -> 1 <= siz -> (Z.to_nat (fs_frag p - siz) < fuel)%nat \/ fs_frag p <= siz ->
  exists l', acct_siz p fuel (Z.shiftl (tbl_entry (fs_frag p) v) 1) (Z.shiftl v 1) siz l cnt = Ok l' /\
    acct_done (fs_frag p) v l l' cnt siz.
Proof.
  intros Hf Hv. set (f := fs_frag p). revert siz l.
  assert (forall siz l, f <= siz -> acct_done f v l l cnt siz) as Hbase.
  { intros siz l H. split; [done|]. intros s Hs. rewrite bool_decide_false by lia.
    destruct (l !! _); simpl; [f_equal; lia|done]. }
  induction fuel as [|n IH]; intros siz l Hl Hs Hfu; cbn [acct_siz]; fold f.
  - exists l. split; [done|]. apply Hbase. lia.
  - destruct (Z.leb_spec f siz); [exists l; split; [done|by apply Hbase]|].
    pose proof (all_blocks_spec _ acct_all f v Hf Hv) as Hc.
    pose proof (upto_spec _ _ _ Hc siz ltac:(lia)) as Hc1. apply Z.eqb_eq in Hc1.
    unfold siz_count in Hc1.
    assert (forall l1 l2, acct_done f v l1 l2 cnt (siz + 1) -> length l1 = length l ->
      (forall s, 0 <= s -> l1 !! Z.to_nat s =
         (fun x => x + (if bool_decide (s = siz) then cnt * runs f v siz else 0)) <$> l !! Z.to_nat s) ->
      acct_done f v l l2 cnt siz) as Hstep.
    { intros l1 l2 [HL H2] Hl1 H1. split; [congruence|]. intros s Hs0. rewrite H2, H1 by done.
      destruct (l !! Z.to_nat s); simpl; [|done]. f_equal.
      destruct (decide (s = siz)) as [->|].
      - rewrite (bool_decide_true (siz = siz)), (bool_decide_false (siz + 1 <= siz < f)),
          (bool_decide_true (siz <= siz < f)) by lia. lia.
      - rewrite (bool_decide_false (s = siz)) by done.
        rewrite (bool_decide_ext (siz + 1 <= s < f) (siz <= s < f)) by lia. lia. }
    destruct (Z.land _ _ =? 0).
    + destruct (IH (siz + 1) l Hl ltac:(lia) ltac:(lia)) as (l' & E & Hd). exists l'. split; [done|].
      eapply Hstep; [done|done|]. intros s Hs0. rewrite <- Hc1. destruct (l !! _); simpl; [|done].
      f_equal. case_bool_decide; lia.
    + destruct (masks_Ok siz) as [-> ->]; [unfold frag_ok, f in *; lia|]. kstep.
      destruct (rdz_lt l siz ltac:(lia)) as (x & Hx & Hlx).
      rewrite (acct_pos_spec _ _ _ _ _ _ _ _ _ _ Hx). kstep. fold f. rewrite Hc1.
      destruct (IH (siz + 1) (<[Z.to_nat siz := x + cnt * runs f v siz]> l)) as (l' & E & Hd);
        [by rewrite length_insert|lia|lia|].
      exists l'. split; [done|]. eapply Hstep; [done|by rewrite length_insert|]. intros s Hs0.
      destruct (decide (s = siz)) as [->|].
      * rewrite list_lookup_insert_eq by lia. rewrite Hlx. simpl. by rewrite bool_decide_true.
      * rewrite list_lookup_insert_ne, bool_decide_false by lia.
        destruct (l !! Z.to_nat s); simpl; [|done]. f_equal. lia.
Qed.

Lemma fragacct_Ok p v l cnt :
  frag_ok (fs_frag p) -> 0 <= v < 2 ^ fs_frag p -> fs_frag p <= Z.of_nat (length l) ->
  exists l', fragacct p v l cnt = Ok l' /\ acct_done (fs_frag p) v l l' cnt 1.
Proof.
  intros Hf Hv Hl. unfold fragacct. destruct (fragtbl_Ok _ Hf) as (t & -> & _ & Ht). kstep.
  rewrite Ht by (unfold frag_ok in Hf; destruct Hf as [E|[E|[E|E]]]; rewrite E in Hv; simpl in Hv; lia).
  kstep. apply acct_siz_spec; try done; lia.
Qed.

(** fragacct() adds [cnt] times the number of runs of exactly [s] free fragments to the
    counter of each size [s] below a block, and touches no other counter: the loop over the
    masks [around] and [inside], with the sizes the table [fragtbl] rules out skipped, counts
    the runs of every value of a block of 1, 2, 4 or 8 fragments. *)
Theorem fragacct_counts_runs p v l cnt :
  frag_ok (fs_frag p) -> 0 <= v < 2 ^ fs_frag p -> fs_frag p <= Z.of_nat (length l) ->
  exists l', fragacct p v l cnt = Ok l' /\ length l' = length l /\
    forall s, 0 <= s -> l' !! Z.to_nat s =
      (fun x => x + (if bool_decide (1 <= s < fs_frag p) then cnt * runs (fs_frag p) v s else 0))
        <$> l !! Z.to_nat s.
Proof. apply fragacct_Ok. Qed.

Lemma fragacct_counts_runs_witness :
  map (runs 8 0xb7) [1; 2; 3] = [1; 1; 1] /\
  exists l', fragacct (params 8) 0xb7 (replicate 8 0) 1 = Ok l' /\ length l' = length (replicate 8 0) /\
    forall s, 0 <= s -> l' !! Z.to_nat s =
      (fun x => x + (if bool_decide (1 <= s < fs_frag (params 8))
                     then 1 * runs (fs_frag (params 8)) 0xb7 s else 0)) <$> replicate 8 0 !! Z.to_nat s.
Proof.
  split; [reflexivity|].
  apply (fragacct_counts_runs (params 8) 0xb7 (replicate 8 0) 1).
  - unfold frag_ok. simpl. lia.
  - simpl. lia.
  - simpl. lia.
Defined.

(** ** What taking and freeing fragments does to the runs of a block *)

Definition one (b : bool) : Z := if b then 1 else 0.

Lemma one_range b : 0 <= one b <= 1.
Proof. destruct b; simpl; lia. Qed.

Lemma one_true b : 0 < one b -> b = true.
Proof. destruct b; simpl; [done|lia]. Qed.


(** Taking the first [n] fragments of a run of [s] leaves a run of [s - n]. *)
Definition take_check (f v : Z) : bool :=
  upto 1 f (fun s => upto 0 f (fun q => if is_run f v s q then
    upto 1 (s + 1) (fun n =>
      let v' := upd_blk false v q n in
      upto 1 f (fun t => runs f v' t =? runs f v t - one (t =? s) + one (t =? s - n)) &&
      (nfrags f v' =? nfrags f v - n) && negb (v =? full f) && negb (v' =? full f)) else true)).

Lemma take_all : all_blocks take_check = true.
Proof. vm_compute. reflexivity. Qed.

Lemma take_run f v s q n : frag_ok f -> 0 <= v < 2 ^ f -> 1 <= s < f -> 0 <= q ->
  is_run f v s q = true -> 1 <= n <= s ->
  (forall t, 1 <= t < f -> runs f (upd_blk false v q n) t = runs f v t - one (t =? s) + one (t =? s - n)) /\
  nfrags f (upd_blk false v q n) = nfrags f v - n /\ v <> full f /\ upd_blk false v q n <> full f.
Proof.
  intros Hf Hv Hs Hq Hr Hn. pose proof (all_blocks_spec _ take_all f v Hf Hv) as H.
  assert (q < f) as Hqf.
  { unfold is_run in Hr. rewrite !andb_true_iff, Z.leb_le in Hr. lia. }
  pose proof (upto_spec _ _ _ H s ltac:(lia)) as H1. simpl in H1.
  pose proof (upto_spec _ _ _ H1 q ltac:(lia)) as H2. simpl in H2. rewrite Hr in H2. simpl in H2.
  pose proof (upto_spec _ _ _ H2 n ltac:(lia)) as H3. simpl in H3.
  rewrite !andb_true_iff, !negb_true_iff, !Z.eqb_neq, Z.eqb_eq in H3.
  destruct H3 as (((H3 & H4) & H5) & H6). split; [|done]. intros t Ht.
  apply Z.eqb_eq. by apply (upto_spec _ _ _ H3 t).
Qed.

(** Breaking up a whole block: the fragments from [n] on stay free. *)
Definition split_check (f v : Z) : bool :=
  upto 1 f (fun n => upto 1 f (fun t =>
     runs f (upd_blk true 0 n (f - n)) t =? one (t =? f - n)) &&
     (nfrags f (upd_blk true 0 n (f - n)) =? f - n) && negb (upd_blk true 0 n (f - n) =? full f)) &&
  upto 1 f (fun t => runs f (full f) t =? 0) && upto 1 f (fun t => runs f 0 t =? 0) && (nfrags f 0 =? 0).

Lemma split_all : all_blocks split_check = true.
Proof. vm_compute. reflexivity. Qed.

Lemma split_block f : frag_ok f ->
  (forall n t, 1 <= n < f -> 1 <= t < f -> runs f (upd_blk true 0 n (f - n)) t = one (t =? f - n)) /\
  (forall n, 1 <= n < f -> nfrags f (upd_blk true 0 n (f - n)) = f - n /\ upd_blk true 0 n (f - n) <> full f) /\
  (forall t, 1 <= t < f -> runs f (full f) t = 0 /\ runs f 0 t = 0) /\ nfrags f 0 = 0.
Proof.
  intros Hf. pose proof (all_blocks_spec _ split_all f 0 Hf) as H.
  specialize (H ltac:(unfold frag_ok in Hf; destruct Hf as [->|[->|[->| ->]]]; simpl; lia)).
  unfold split_check in H. rewrite !andb_true_iff in H. destruct H as (((H1 & H2) & H3) & H4).
  assert (forall n, 1 <= n < f ->
    upto 1 f (fun t => runs f (upd_blk true 0 n (f - n)) t =? one (t =? f - n)) = true /\
    nfrags f (upd_blk true 0 n (f - n)) = f - n /\ upd_blk true 0 n (f - n) <> full f) as H5.
  { intros n Hn. pose proof (upto_spec _ _ _ H1 n Hn) as H5. simpl in H5.
    rewrite !andb_true_iff, negb_true_iff, Z.eqb_neq, Z.eqb_eq in H5. tauto. }
  split; [|split; [|split]].
  - intros n t Hn Ht. apply Z.eqb_eq. by apply (upto_spec _ _ _ (proj1 (H5 n Hn)) t).
  - intros n Hn. apply (H5 n Hn).
  - intros t Ht. split; apply Z.eqb_eq; [by apply (upto_spec _ _ _ H2)|by apply (upto_spec _ _ _ H3)].
  - by apply Z.eqb_eq.
Qed.

(** Freeing taken fragments, fewer than a block. *)
Definition give_check (f v : Z) : bool :=
  upto 0 f (fun q => upto 1 f (fun n =>
    if (q + n <=? f) && (Z.land v (range q n) =? 0)
    then (nfrags f (upd_blk true v q n) =? nfrags f v + n) && negb (v =? full f) else true)) &&
  (nfrags f (full f) =? f).

Lemma give_all : all_blocks give_check = true.
Proof. vm_compute. reflexivity. Qed.

Lemma give_frags f v q n : frag_ok f -> 0 <= v < 2 ^ f -> 0 <= q -> 1 <= n < f -> q + n <= f ->
  Z.land v (range q n) = 0 ->
  nfrags f (upd_blk true v q n) = nfrags f v + n /\ v <> full f /\ nfrags f (full f) = f.
Proof.
  intros Hf Hv Hq Hn Hqn Hz. pose proof (all_blocks_spec _ give_all f v Hf Hv) as H.
  unfold give_check in H. apply andb_true_iff in H as [H H0].
  pose proof (upto_spec _ _ _ H q ltac:(lia)) as H1. simpl in H1.
  pose proof (upto_spec _ _ _ H1 n ltac:(lia)) as H2. simpl in H2.
  rewrite Hz, Z.eqb_refl in H2. destruct (Z.leb_spec (q + n) f); [|lia]. simpl in H2.
  rewrite andb_true_iff, negb_true_iff, Z.eqb_neq, !Z.eqb_eq in H2. apply Z.eqb_eq in H0. tauto.
Qed.

(** ** Sums over the blocks of a map *)

Definition bsum (nb : Z) (g : Z -> Z) : Z := foldr (fun h a => g h + a) 0 (seqZ 0 nb).

Lemma bsum_ext nb g g' : (forall h, 0 <= h < nb -> g h = g' h) -> bsum nb g = bsum nb g'.
Proof.
  intros H. unfold bsum. assert (Forall (fun h => g h = g' h) (seqZ 0 nb)) as Hf.
  { apply Forall_forall. intros h Hh. apply H. apply elem_of_seqZ in Hh. lia. }
  induction Hf as [|h l E _ IH]; simpl; [done|]. by rewrite E, IH.
Qed.

Lemma bsum_upd nb g g' k : 0 <= k < nb -> (forall h, 0 <= h < nb -> h <> k -> g' h = g h) ->
  bsum nb g' = bsum nb g - g k + g' k.
Proof.
  intros Hk H. unfold bsum.
  assert (k ∈ seqZ 0 nb) as Hin by (apply elem_of_seqZ; lia).
  assert (forall h, h ∈ seqZ 0 nb -> h <> k -> g' h = g h) as H'.
  { intros h Hh. apply H. apply elem_of_seqZ in Hh. lia. }
  pose proof (NoDup_seqZ 0 nb) as Hnd. clear H Hk. revert Hin H'.
  induction Hnd as [|x l Hx Hnd IH]; intros Hin H'; [by apply elem_of_nil in Hin|]. simpl.
  destruct (decide (x = k)) as [->|].
  - assert (foldr (fun h a => g' h + a) 0 l = foldr (fun h a => g h + a) 0 l) as ->; [|lia].
    assert (Forall (fun h => g' h = g h) l) as Hf.
    { apply Forall_forall. intros h Hh. apply H'; [by right|]. intros ->. done. }
    clear -Hf. induction Hf as [|h l E _ IH]; simpl; [done|]. by rewrite E, IH.
  - apply elem_of_cons in Hin as [|Hin]; [done|].
    rewrite IH, (H' x) by (done || by left || (intros; apply H'; [by right|done])). lia.
Qed.

Lemma bsum_pos nb g : (forall h, 0 <= h < nb -> 0 <= g h) -> 0 < bsum nb g ->
  exists h, 0 <= h < nb /\ 0 < g h.
Proof.
  intros H0 H. unfold bsum in H.
  assert (forall h, h ∈ seqZ 0 nb -> 0 <= h < nb) as Hr by (intros h Hh; apply elem_of_seqZ in Hh; lia).
  induction (seqZ 0 nb) as [|h l IH]; simpl in H; [lia|].
  destruct (Z.lt_ge_cases 0 (g h)).
  - exists h. split; [apply Hr; by left|done].
  - apply IH; [lia|]. intros x Hx. apply Hr. by right.
Qed.

Lemma bsum_nonneg nb g : (forall h, 0 <= h < nb -> 0 <= g h) -> 0 <= bsum nb g.
Proof.
  intros H0. unfold bsum.
  assert (Forall (fun h => 0 <= g h) (seqZ 0 nb)) as Hf.
  { apply Forall_forall. intros h Hh. apply H0. apply elem_of_seqZ in Hh. lia. }
  induction Hf; simpl; lia.
Qed.

Lemma bsum_ge nb g k : (forall h, 0 <= h < nb -> 0 <= g h) -> 0 <= k < nb -> g k <= bsum nb g.
Proof.
  intros H0 Hk. pose proof (bsum_upd nb g (fun h => if decide (h = k) then 0 else g h) k Hk) as H.
  simpl in H. rewrite decide_True in H by done.
  assert (0 <= bsum nb (fun h => if decide (h = k) then 0 else g h)).
  { apply bsum_nonneg. intros h Hh. case_decide; [lia|by apply H0]. }
  rewrite H in H1; [lia|]. intros h Hh Hne. by rewrite decide_False.
Qed.
