(* ===== verification/UfsSearch.v ===== *)
(** * Searching a group's map: mapsearch()

    The geometry of a file system and the well-formedness of a map; scanc() on the fragment
    table finds a byte of the map with a suitable run, and sifting it finds the run. *)

From S2P Require Import Prelude Ufs UfsBits UfsFrag.
From stdpp Require Import prelude list numbers strings.
From Stdlib Require Import ZArith Lia.

Local Open Scope Z_scope.
Local Open Scope kern_scope.

(** A group has [nb] blocks of [fs_frag] fragments, and the shifts and the disk geometry are
    those mkfs derives. *)
Record geom (p : fsp) (nb : Z) : Prop := {
  g_frag : frag_ok (fs_frag p);
  g_nb : 0 < nb;
  g_fpg : fs_fpg p = fs_frag p * nb;
  g_shift : 0 <= fs_fragshift p;
  g_shift_frag : 2 ^ fs_fragshift p = fs_frag p;
  g_fshift : 0 <= fs_fshift p;
  g_bsize : fs_bsize p = fs_frag p * 2 ^ fs_fshift p;
  g_spc : 0 < fs_spc p;
  g_nspf : 0 < fs_nspf p;
  g_nsect : 0 < fs_nsect p
}.

Record map_wf (p : fsp) (m : list Z) : Prop := {
  m_bytes : Forall byte_ok m;
  m_size : fs_fpg p <= size_in_bits m;
  m_high : forall k, fs_fpg p <= k -> 0 <= k -> bit m k = false
}.

Lemma put_range_wf p m m' k n v : 0 <= k -> (v = true -> k + n <= fs_fpg p) ->
  map_wf p m -> put_range m m' k n v -> map_wf p m'.
Proof.
  intros Hk Hn [H1 H2 H3] (Hl & Hb & Ha). constructor.
  - auto.
  - unfold size_in_bits in *. by rewrite Hl.
  - intros j Hj Hj0. rewrite Ha by done. destruct (in_range k n j) eqn:E; [|by apply H3].
    unfold in_range in E. rewrite andb_true_iff, Z.leb_le, Z.ltb_lt in E.
    destruct v; [specialize (Hn eq_refl); lia|done].
Qed.

(** ** scanc() *)

Lemma scanc_spec table mask n cp (P : Z -> bool) :
  (n <= length cp)%nat ->
  (forall c, c ∈ cp -> exists t, rdz table c = Ok t /\ negb (Z.land t mask =? 0) = P c) ->
  exists r, scanc n cp table mask = Ok r /\
    ((r = 0 /\ forall i c, (i < n)%nat -> cp !! i = Some c -> P c = false) \/
     exists i c, (i < n)%nat /\ r = Z.of_nat (n - i) /\ cp !! i = Some c /\ P c = true).
Proof.
  revert cp. induction n as [|n IH]; intros cp Hn HP; simpl.
  - exists 0. split; [done|]. left. split; [done|]. intros; lia.
  - destruct cp as [|c cp]; simpl in Hn; [lia|].
    destruct (HP c ltac:(by left)) as (t & -> & Ht). kstep.
    destruct (Z.land t mask =? 0) eqn:E; simpl in Ht.
    + destruct (IH cp ltac:(lia)) as (r & -> & Hr); [intros; apply HP; by right|].
      exists r. split; [done|]. destruct Hr as [[-> Hr]|(i & c' & Hi & -> & Hc & Hp)].
      * left. split; [done|]. intros [|i] c' Hi Hc; simpl in Hc; [by simplify_eq|]. apply (Hr i); [lia|done].
      * right. exists (S i), c'. split; [lia|]. done.
    + exists (Z.of_nat (S n)). split; [done|]. right. exists 0%nat, c. split; [lia|]. by rewrite Nat.sub_0_r.
Qed.

(** ** Bytes and blocks *)

Section Search.
Context (p : fsp) (nb : Z).
Hypothesis Hg : geom p nb.
Let f := fs_frag p.

Lemma f_pos : 0 < f <= 8.
Proof. destruct (g_frag _ _ Hg) as [E|[E|[E|E]]]; unfold f; rewrite E; lia. Qed.

Lemma f_div : 8 = f * (8 / f) /\ 0 < 8 / f <= 8.
Proof. destruct (g_frag _ _ Hg) as [E|[E|[E|E]]]; unfold f; rewrite E; split; try reflexivity; split; (reflexivity || discriminate). Qed.

Lemma blk_addr i b : 0 <= b < 8 / f -> f * (8 / f * i + b) = 8 * i + f * b /\ 0 <= f * b < 8.
Proof.
  intros Hb. destruct f_div as [E Hd]. pose proof f_pos. split.
  - rewrite Z.mul_add_distr_l, Z.mul_assoc, <- E. done.
  - split; [nia|]. rewrite E. apply Z.mul_lt_mono_pos_l; lia.
Qed.

Lemma byte_blk m i b : 0 <= i -> 0 <= b < 8 / f ->
  byte_block f (byte_at m i) b = blk f m (8 / f * i + b).
Proof.
  intros Hi Hb. unfold byte_block, blk. destruct f_div as [E Hd]. pose proof f_pos.
  replace (f * (8 / f * i + b)) with (f * b + i * 8) by nia.
  rewrite Z.div_add, Z.mod_add by lia.
  rewrite Z.div_small, Z.mod_small by nia. done.
Qed.

(** Block [h] lies in byte [f * h / 8]. *)
Lemma blk_byte h : 0 <= h -> h = 8 / f * (f * h / 8) + h mod (8 / f) /\ 0 <= h mod (8 / f) < 8 / f /\ 0 <= f * h / 8.
Proof.
  intros Hh. destruct f_div as [E Hd]. pose proof f_pos.
  assert (f * h / 8 = h / (8 / f)) as ->.
  { rewrite E at 1. rewrite Z.div_mul_cancel_l by lia. done. }
  pose proof (Z.div_mod h (8 / f) ltac:(lia)). pose proof (Z.mod_pos_bound h (8 / f) ltac:(lia)).
  pose proof (Z.div_pos h (8 / f) Hh ltac:(lia)). lia.
Qed.

Lemma run_bit v s q : is_run f v s q = true -> 0 <= q -> 1 <= s -> q + s <= f /\
  forall j, q <= j < q + s -> Z.testbit v j = true.
Proof.
  unfold is_run. rewrite !andb_true_iff, Z.leb_le, Z.eqb_eq. intros (((H1 & H2) & _) & _) Hq Hs.
  split; [done|]. intros j Hj. apply (f_equal (fun z => Z.testbit z j)) in H2.
  rewrite Z.land_spec, range_bit in H2 by lia.
  assert (in_range q s j = true) as Hb by (unfold in_range; rewrite andb_true_iff, Z.leb_le, Z.ltb_lt; lia).
  rewrite Hb in H2. by apply andb_true_iff in H2 as [? _].
Qed.

(** A block with a run is a block of the group. *)
Lemma run_in_group m h s q : map_wf p m -> 0 <= h -> 0 <= q -> 1 <= s ->
  is_run f (blk f m h) s q = true -> h < nb.
Proof.
  intros Hm Hh Hq Hs Hr. destruct (run_bit _ _ _ Hr Hq Hs) as [Hqs Hb].
  specialize (Hb q ltac:(lia)). rewrite blk_bit in Hb by (apply Hg || done).
  apply andb_true_iff in Hb as [_ Hb]. destruct (Z.lt_ge_cases h nb); [done|].
  pose proof f_pos. rewrite (m_high _ _ Hm) in Hb; [done| |]; [|nia].
  rewrite (g_fpg _ _ Hg). fold f. nia.
Qed.

Lemma runs_run v s : 0 < runs f v s -> exists q, 0 <= q < f /\ is_run f v s q = true.
Proof.
  intros H. pose proof (runs_find f v s) as Hr. destruct (first_run f v s) as [q|]; [|lia].
  exists q. tauto.
Qed.

Lemma run_runs v s q : 0 <= q -> 1 <= s -> is_run f v s q = true -> 0 < runs f v s.
Proof.
  intros Hq Hs Hr. destruct (run_bit _ _ _ Hr Hq Hs) as [Hqs _]. unfold runs.
  assert (q ∈ filter (fun q => is_run f v s q = true) (seqZ 0 f)) as Hin.
  { apply list_elem_of_filter. split; [done|]. apply elem_of_seqZ. lia. }
  destruct (filter _ _); [by apply elem_of_nil in Hin|]. simpl. lia.
Qed.

(** ** Sifting *)

Lemma sift_spec m s : map_wf p m -> 1 <= s <= f -> forall fuel i b,
  0 <= i -> 0 <= b < 8 / f -> (Z.to_nat (8 / f - b) < fuel)%nat -> 8 * i < size_in_bits m ->
  (exists b', b <= b' < 8 / f /\ 0 < runs f (blk f m (8 / f * i + b')) s) ->
  exists h q, sift p fuel m s (f * (8 / f * i + b)) (8 * i + 8) = Ok (f * h + q) /\
    8 / f * i <= h < 8 / f * i + 8 / f /\ 0 <= q < f /\ is_run f (blk f m h) s q = true.
Proof.
  intros Hm Hs. destruct f_div as [E8 Hd]. pose proof f_pos as Hfp.
  induction fuel as [|n IH]; intros i b Hi Hb Hfu Hsz (b' & Hb' & Hr); [lia|]. cbn [sift].
  destruct (blk_addr i b Hb) as [Ead Hfb].
  destruct (Z.leb_spec (8 * i + 8) (f * (8 / f * i + b))); [lia|].
  pose proof (blkmap_Ok p m (8 / f * i + b) (g_frag _ _ Hg) ltac:(nia)) as Hbm. fold f in Hbm.
  rewrite Hbm by (unfold size_in_bits in *; lia). kstep. destruct (masks_Ok s ltac:(lia)) as [-> ->]. kstep.
  pose proof (find_pos_spec p (blk f m (8 / f * i + b)) s (g_frag _ _ Hg)) as Hfp'. fold f in Hfp'.
  specialize (Hfp' ltac:(apply blk_range, Hg) Hs). destruct (find_pos _ _ _ _ _ _ _) as [q|].
  - exists (8 / f * i + b), q. split; [done|]. split; [lia|]. tauto.
  - assert (b <> b') by (intros ->; lia).
    replace (f * (8 / f * i + b) + fs_frag p) with (f * (8 / f * i + (b + 1))) by (unfold f; lia).
    apply IH; [done|lia|lia|done|]. exists b'. split; [lia|done].
Qed.

(** ** mapsearch() *)

(** Byte [i] of the map has a block with a run of [s]. *)
Definition byte_has (m : list Z) (s i : Z) : Prop :=
  exists b, 0 <= b < 8 / f /\ 0 < runs f (blk f m (8 / f * i + b)) s.

Definition tbl_has (s c : Z) : bool := Z.testbit (tbl_entry f c) (s - 1 + f mod 8).

Lemma tbl_has_byte m s i : map_wf p m -> 1 <= s <= f -> 0 <= i < Z.of_nat (length m) ->
  tbl_has s (byte_at m i) = true <-> byte_has m s i.
Proof.
  intros Hm Hs Hi. unfold tbl_has, byte_has.
  assert (byte_ok (byte_at m i)) as Hok.
  { unfold byte_at. destruct (m !! Z.to_nat i) eqn:E; [|by unfold byte_ok].
    by eapply (Forall_lookup_1 _ _ _ _ (m_bytes _ _ Hm)). }
  rewrite tbl_bit by (apply Hg || done). split; intros (b & Hb & Hr); exists b; (split; [done|]).
  - by rewrite <- byte_blk by (done || lia).
  - by rewrite byte_blk by (done || lia).
Qed.

Lemma scan_from m s table start n : map_wf p m -> 1 <= s <= f -> fragtbl f = Ok table ->
  0 <= start -> (Z.to_nat start + n <= length m)%nat ->
  exists r, scanc n (drop (Z.to_nat start) m) table (Z.shiftl 1 (s - 1 + f mod 8)) = Ok r /\
    ((r = 0 /\ forall i, start <= i < start + Z.of_nat n -> ~ byte_has m s i) \/
     exists i, start <= i < start + Z.of_nat n /\ r = start + Z.of_nat n - i /\ byte_has m s i).
Proof.
  intros Hm Hs Ht H0 Hn. destruct (fragtbl_Ok f (g_frag _ _ Hg)) as (t & Et & _ & Hrd).
  rewrite Ht in Et. injection Et as <-.
  destruct (scanc_spec table (Z.shiftl 1 (s - 1 + f mod 8)) n (drop (Z.to_nat start) m) (tbl_has s))
    as (r & Er & Hr).
  { rewrite length_drop. lia. }
  { intros c Hc. exists (tbl_entry f c). split.
    - apply Hrd. pose proof (m_bytes _ _ Hm) as Hb. rewrite Forall_forall in Hb.
      apply Hb. rewrite <- (take_drop (Z.to_nat start) m). apply elem_of_app. by right.
    - apply mask_bit. pose proof (Z.mod_pos_bound f 8). lia. }
  assert (forall i c, drop (Z.to_nat start) m !! i = Some c -> byte_at m (start + Z.of_nat i) = c /\
    (Z.to_nat start + i < length m)%nat) as Hat.
  { intros i c Hc. rewrite lookup_drop in Hc. split; [|by eapply lookup_lt_Some].
    unfold byte_at. by replace (Z.to_nat (start + Z.of_nat i)) with (Z.to_nat start + i)%nat by lia;
      rewrite Hc. }
  exists r. split; [done|]. destruct Hr as [[-> Hr]|(i & c & Hi & -> & Hc & Hp)].
  - left. split; [done|]. intros i Hi Hb. apply tbl_has_byte in Hb; [|done|done|lia].
    destruct (lookup_lt_is_Some_2 (drop (Z.to_nat start) m) (Z.to_nat (i - start))) as [c Hc].
    { rewrite length_drop. lia. }
    destruct (Hat _ _ Hc) as [E _]. replace (start + Z.of_nat (Z.to_nat (i - start))) with i in E by lia.
    rewrite E, (Hr (Z.to_nat (i - start)) c ltac:(lia) Hc) in Hb. done.
  - right. exists (start + Z.of_nat i). destruct (Hat _ _ Hc) as [E Hlt]. split; [lia|]. split; [lia|].
    apply tbl_has_byte; [done|done|lia|]. by rewrite E.
Qed.

Lemma mapsearch_spec c bpref s h0 : map_wf p (cg_free c) -> 1 <= s <= f -> 0 <= bpref ->
  0 <= cg_frotor c < fs_fpg p -> 0 <= h0 < nb -> 0 < runs f (blk f (cg_free c) h0) s ->
  exists x h q, mapsearch p c bpref s = Ok (set_frotor c x, f * h + q) /\ 0 <= x < fs_fpg p /\
    0 <= h < nb /\ 0 <= q < f /\ is_run f (blk f (cg_free c) h) s q = true.
Proof.
  intros Hm Hs Hbp Hro Hh0 Hr0. set (m := cg_free c) in *. pose proof f_pos as Hfp.
  destruct f_div as [E8 Hd]. pose proof (g_fpg _ _ Hg) as Hfpg. fold f in Hfpg. pose proof (g_nb _ _ Hg).
  unfold mapsearch, NBBY. fold f m.
  destruct (fragtbl_Ok f (g_frag _ _ Hg)) as (table & Et & _). rewrite Et. kstep.
  set (start := if bpref =? 0 then _ else _).
  assert (0 <= start /\ 8 * start < fs_fpg p) as [Hst0 Hst].
  { unfold start, dtogd. destruct (bpref =? 0).
    - rewrite Z.quot_div_nonneg by lia. Z.to_euclidean_division_equations. lia.
    - pose proof (Z.rem_bound_pos bpref (fs_fpg p) ltac:(lia) ltac:(lia)).
      rewrite Z.quot_div_nonneg by lia. Z.to_euclidean_division_equations. lia. }
  assert (howmany (fs_fpg p) 8 = (fs_fpg p + 7) / 8) as Ehm.
  { unfold howmany. rewrite Z.quot_div_nonneg by lia. done. }
  assert (8 * howmany (fs_fpg p) 8 < fs_fpg p + 8 /\ fs_fpg p <= 8 * howmany (fs_fpg p) 8) as [Hhm1 Hhm2].
  { rewrite Ehm. Z.to_euclidean_division_equations. lia. }
  pose proof (m_size _ _ Hm) as Hsz. unfold size_in_bits in Hsz. fold m in Hsz.
  destruct (blk_byte h0 ltac:(lia)) as (Eh0 & Hmod & Hi0).
  assert (byte_has m s (f * h0 / 8)) as Hbh.
  { exists (h0 mod (8 / f)). split; [done|]. by rewrite <- Eh0. }
  assert (8 * (f * h0 / 8) < fs_fpg p) as Hib by (rewrite Hfpg; Z.to_euclidean_division_equations; nia).
  (* the byte the scans end at *)
  assert (forall i, 0 <= i -> 8 * i < fs_fpg p -> byte_has m s i ->
    exists h q, sift p 9 m s (i * 8) (i * 8 + 8) = Ok (f * h + q) /\ 0 <= h < nb /\ 0 <= q < f /\
      is_run f (blk f m h) s q = true) as Hsift.
  { intros i Hi Hi8 (b & Hb & Hr). destruct (sift_spec m s Hm Hs 9 i 0) as (h & q & E & Hh & Hq & Hrun);
      [done|lia|lia|unfold size_in_bits; lia|exists b; split; [lia|done]|].
    exists h, q. split.
    - rewrite <- E. f_equal; [nia|lia].
    - split; [|done]. assert (0 <= h) by nia. split; [done|].
      eapply (run_in_group m h s q); try done; lia. }
  destruct (scan_from m s table start (Z.to_nat (howmany (fs_fpg p) 8 - start)) Hm Hs Et Hst0)
    as (r & Er & Hr); [lia|]. rewrite Er. kstep.
  destruct Hr as [[-> Hno]|(i & Hi & -> & Hbi)].
  - assert (f * h0 / 8 < start) as Hlt.
    { destruct (Z.lt_ge_cases (f * h0 / 8) start); [done|]. exfalso. eapply Hno; [|done].
      split; [done|]. lia. }
    destruct (scan_from m s table 0 (Z.to_nat (start + 1)) Hm Hs Et ltac:(lia)) as (r2 & Er2 & Hr2); [lia|].
    rewrite drop_0 in Er2. rewrite Z.eqb_refl, Er2. kstep.
    destruct Hr2 as [[-> Hno2]|(i & Hi & -> & Hbi)].
    { exfalso. apply (Hno2 (f * h0 / 8)); [lia|done]. }
    destruct (Z.eqb_spec (0 + Z.of_nat (Z.to_nat (start + 1)) - i) 0); [lia|]. kstep.
    replace ((0 + (start + 1) - (0 + Z.of_nat (Z.to_nat (start + 1)) - i)) * 8) with (i * 8) by lia.
    destruct (Hsift i ltac:(lia) ltac:(lia) Hbi) as (h & q & E & Hh & Hq & Hrun).
    simpl cg_free. fold m. rewrite E. kstep. exists (i * 8), h, q. split; [done|]. split; [lia|done].
  - destruct (Z.eqb_spec (start + Z.of_nat (Z.to_nat (howmany (fs_fpg p) 8 - start)) - i) 0); [lia|]. kstep.
    replace ((start + (howmany (fs_fpg p) 8 - start)
      - (start + Z.of_nat (Z.to_nat (howmany (fs_fpg p) 8 - start)) - i)) * 8) with (i * 8) by lia.
    destruct (Hsift i ltac:(lia) ltac:(lia) Hbi) as (h & q & E & Hh & Hq & Hrun).
    simpl cg_free. fold m. rewrite E. kstep. exists (i * 8), h, q. split; [done|]. split; [lia|done].
Qed.
End Search.

(** ** The accounting invariant of a cylinder group

    [cg_wf] relates every count of a group to its free map: the free fragments, the free
    blocks, the runs of each size, and the free blocks of each cylinder and rotational
    position.  The choice of a block and its allocation by alloccgblk() keep it. *)

Section Group.
Context (p : fsp) (nb : Z).
Let f := fs_frag p.

(** ** Invariant *)

Definition cyl_of (h : Z) : Z := cbtocylno p (f * h).
Definition rpos_of (h : Z) : Z := cbtorpos p (f * h).
Definition is_full (v : Z) : Z := one (v =? full f).
Definition loose (v : Z) : Z := if v =? full f then 0 else nfrags f v.

(** A sum over the blocks of a map. *)
Definition msum (m : list Z) (g : Z -> Z -> Z) : Z := bsum nb (fun h => g h (blk f m h)).

Definition at_cyl (cy : Z) (h v : Z) : Z := one (cyl_of h =? cy) * is_full v.
Definition at_rpos (cy r : Z) (h v : Z) : Z := one (rpos_of h =? r) * at_cyl cy h v.

Record cyl_wf (c : cg) : Prop := {
  y_row : forall h, 0 <= h < nb ->
    exists row, rdz (cg_b c) (cyl_of h) = Ok row /\ 0 <= cyl_of h < Z.of_nat (length (cg_btot c));
  y_len : forall cy row, rdz (cg_b c) cy = Ok row -> length row = 8%nat;
  y_b : forall cy row r x, rdz (cg_b c) cy = Ok row -> rdz row r = Ok x ->
    x = msum (cg_free c) (at_rpos cy r);
  y_tot : forall cy x, rdz (cg_btot c) cy = Ok x -> x = msum (cg_free c) (at_cyl cy)
}.

Record cg_wf (c : cg) : Prop := {
  w_map : map_wf p (cg_free c);
  w_len : length (cg_frsum c) = 8%nat;
  w_frsum : forall t, 1 <= t < f ->
    rdz (cg_frsum c) t = Ok (msum (cg_free c) (fun _ v => runs f v t));
  w_nffree : cs_nffree (cg_cs c) = msum (cg_free c) (fun _ => loose);
  w_nbfree : cs_nbfree (cg_cs c) = msum (cg_free c) (fun _ => is_full);
  w_rotor : 0 <= cg_rotor c < fs_fpg p;
  w_frotor : 0 <= cg_frotor c < fs_fpg p;
  w_cyl : cyl_wf c;
  w_boot : cg_cgx c = 0 -> bit (cg_free c) 0 = false
}.

(** The rotational tables: from the head of its position the chain reaches every block. *)
Inductive rot_reach : Z -> Z -> Prop :=
| rr_here i : rot_reach i i
| rr_next i d x : rdz (fs_rotbl p) i = Ok d -> 0 < d <= MAXBPC p - i ->
    rot_reach (i + d) x -> rot_reach i x.

Definition rot_base (cy : Z) : Z := Z.quot ((cy - Z.rem cy (fs_cpc p)) * fs_spc p) (NSPB p).

Definition rot_wf : Prop := fs_cpc p <> 0 -> forall h, 0 <= h < nb ->
  exists row first, rdz (fs_postbl p) (Z.rem (cyl_of h) (fs_cpc p)) = Ok row /\
    rdz row (rpos_of h) = Ok first /\ 0 <= first /\ 0 <= rot_base (cyl_of h) /\
    rot_reach first (h - rot_base (cyl_of h)).

Hypothesis Hg : geom p nb.

(** ** Sums of a map whose block [h] changes *)

Definition changes (m m' : list Z) (h : Z) : Prop :=
  0 <= h < nb /\ forall h', 0 <= h' -> h' <> h -> blk f m' h' = blk f m h'.

Lemma msum_upd m m' h g : changes m m' h ->
  msum m' g = msum m g - g h (blk f m h) + g h (blk f m' h).
Proof.
  intros [Hh H]. unfold msum. apply (bsum_upd nb (fun x => g x (blk f m x)) (fun x => g x (blk f m' x)));
    [done|]. intros x Hx Hne. by rewrite H by lia.
Qed.

Lemma msum_nonneg m g : (forall h v, 0 <= g h v) -> 0 <= msum m g.
Proof. intros H. apply bsum_nonneg. intros. apply H. Qed.

Lemma full_nonzero : full f <> 0.
Proof. unfold full. destruct (g_frag _ _ Hg) as [E|[E|[E|E]]]; unfold f; rewrite E; done. Qed.

Lemma rpos_range h : 0 <= h -> 0 <= rpos_of h < 8.
Proof.
  intros Hh. unfold rpos_of, cbtorpos, NRPOS.
  pose proof (g_nspf _ _ Hg). pose proof (g_spc _ _ Hg). pose proof (g_nsect _ _ Hg).
  pose proof (f_pos p nb Hg). fold f in H2.
  pose proof (Z.rem_bound_pos (f * h * fs_nspf p) (fs_spc p) ltac:(nia) ltac:(lia)) as H3.
  pose proof (Z.rem_bound_pos (Z.rem (f * h * fs_nspf p) (fs_spc p)) (fs_nsect p) ltac:(lia) ltac:(lia)) as H4.
  rewrite Z.quot_div_nonneg by lia. split; [apply Z.div_pos; lia|].
  apply Z.div_lt_upper_bound; lia.
Qed.

(** ** Counting a block in or out *)

(** [count_block] adds [d] to the counts of the block's cylinder and position. *)
Lemma count_block_spec c m h d : cyl_wf c -> changes (cg_free c) m h ->
  is_full (blk f m h) = is_full (blk f (cg_free c) h) + d ->
  exists t b, count_block p (set_free c m) (f * h) d = Ok (set_b (set_free c m) t b) /\
    cyl_wf (set_b (set_free c m) t b).
Proof.
  intros [H1 H2 H3 H4] Hch Hd. pose proof Hch as [Hh _].
  destruct (H1 h Hh) as (row & Hrow & Hcy). pose proof (rpos_range h ltac:(lia)) as Hr.
  pose proof (H2 _ _ Hrow) as Hlen.
  destruct (rdz_lt row (rpos_of h) ltac:(lia)) as (x & Hx & _).
  destruct (rdz_lt (cg_btot c) (cyl_of h) Hcy) as (y & Hy & _).
  unfold count_block. simpl. fold (cyl_of h) (rpos_of h). rewrite Hrow. kstep.
  rewrite (addz_Ok _ _ _ _ Hx). kstep. pose proof (rdz_range _ _ _ Hrow) as Hb.
  rewrite wrz_Ok by done. kstep. rewrite (addz_Ok _ _ _ _ Hy). kstep.
  eexists _, _. split; [done|].
  assert (forall cy r, msum m (at_rpos cy r) = msum (cg_free c) (at_rpos cy r)
    + one (rpos_of h =? r) * (one (cyl_of h =? cy) * d)) as Er.
  { intros cy r. rewrite (msum_upd _ _ _ _ Hch). unfold at_rpos, at_cyl. rewrite Hd. lia. }
  assert (forall cy, msum m (at_cyl cy) = msum (cg_free c) (at_cyl cy) + one (cyl_of h =? cy) * d) as Et.
  { intros cy. rewrite (msum_upd _ _ _ _ Hch). unfold at_cyl. rewrite Hd. lia. }
  constructor; simpl.
  - intros h' Hh'. destruct (H1 h' Hh') as (row' & Hr' & Hc'). rewrite length_insert.
    destruct (rdz_lt (<[Z.to_nat (cyl_of h):=<[Z.to_nat (rpos_of h):=x + d]> row]> (cg_b c)) (cyl_of h'))
      as (z & Hz & _); [rewrite length_insert; by apply rdz_range in Hr'|]. eauto.
  - intros cy row' Hr'. apply rdz_insert in Hr' as [[-> ->]|[_ Hr']]; [by rewrite length_insert|by eauto|done].
  - intros cy row' r z Hr' Hz. rewrite Er.
    apply rdz_insert in Hr' as [[-> ->]|[Hne Hr']]; [|rewrite (H3 _ _ _ _ Hr' Hz)|done].
    + rewrite Z.eqb_refl. apply rdz_insert in Hz as [[-> ->]|[Hne Hz]]; [|rewrite (H3 _ _ _ _ Hrow Hz)|lia].
      * rewrite (H3 _ _ _ _ Hrow Hx), Z.eqb_refl. simpl. lia.
      * rewrite (proj2 (Z.eqb_neq (rpos_of h) r)) by congruence. simpl. lia.
    + rewrite (proj2 (Z.eqb_neq (cyl_of h) cy)) by congruence. simpl. lia.
  - intros cy z Hz. rewrite Et. apply rdz_insert in Hz as [[-> ->]|[Hne Hz]]; [| |done].
    + rewrite (H4 _ _ Hy), Z.eqb_refl. simpl. lia.
    + rewrite (H4 _ _ Hz), (proj2 (Z.eqb_neq (cyl_of h) cy)) by congruence. simpl. lia.
Qed.

(** The cylinder counts do not change when no block becomes or ceases to be free. *)
Lemma cyl_wf_same c c' h : cyl_wf c -> changes (cg_free c) (cg_free c') h ->
  is_full (blk f (cg_free c') h) = is_full (blk f (cg_free c) h) ->
  cg_b c' = cg_b c -> cg_btot c' = cg_btot c -> cyl_wf c'.
Proof.
  intros [H1 H2 H3 H4] Hch Hd Eb Et. constructor; rewrite ?Eb, ?Et; try done.
  - intros cy row r x Hr Hx. rewrite (msum_upd _ _ _ _ Hch). unfold at_rpos, at_cyl. rewrite Hd.
    pose proof (H3 _ _ _ _ Hr Hx). unfold at_rpos, at_cyl in *. lia.
  - intros cy x Hx. rewrite (msum_upd _ _ _ _ Hch). unfold at_cyl. rewrite Hd.
    pose proof (H4 _ _ Hx). unfold at_cyl in *. lia.
Qed.

(** ** Addresses *)

Lemma frag_shift x : Z.shiftl x (fs_fragshift p) = f * x /\ Z.shiftr (f * x) (fs_fragshift p) = x.
Proof.
  rewrite Z.shiftl_mul_pow2, Z.shiftr_div_pow2, (g_shift_frag _ _ Hg) by apply Hg. fold f.
  pose proof (f_pos p nb Hg). fold f in H. split; [lia|]. rewrite Z.mul_comm. apply Z.div_mul. lia.
Qed.

Lemma blknum_spec x : blknum p x = f * (x / f) /\ fragnum p x = x mod f.
Proof.
  unfold blknum, fragnum. fold f.
  assert (f - 1 = Z.ones (fs_fragshift p)) as E.
  { rewrite Z.ones_equiv, (g_shift_frag _ _ Hg). fold f. lia. }
  rewrite E, Z.land_ones, <- Z.ldiff_land, Z.ldiff_ones_r by apply Hg.
  rewrite Z.shiftl_mul_pow2, Z.shiftr_div_pow2, (g_shift_frag _ _ Hg) by apply Hg. fold f. lia.
Qed.

Lemma dtogd_blk y : 0 <= y -> dtogd p (f * y) = f * (y mod nb) /\ 0 <= y mod nb < nb.
Proof.
  intros Hy. pose proof (g_nb _ _ Hg). pose proof (f_pos p nb Hg) as Hf. fold f in Hf.
  split; [|apply Z.mod_pos_bound; lia]. unfold dtogd. rewrite (g_fpg _ _ Hg). fold f.
  rewrite Z.rem_mod_nonneg by nia. rewrite Z.mul_mod_distr_l by lia. done.
Qed.

Lemma blk_size m h : map_wf p m -> 0 <= h < nb -> f * h + f <= size_in_bits m.
Proof.
  intros Hm Hh. pose proof (m_size _ _ Hm). rewrite (g_fpg _ _ Hg) in H. fold f in H.
  pose proof (f_pos p nb Hg) as Hf. fold f in Hf. nia.
Qed.

Lemma isblock_blk m h : map_wf p m -> 0 <= h < nb -> isblock p m h = Ok (blk f m h =? full f).
Proof.
  intros Hm Hh. pose proof (blk_size _ _ Hm Hh). pose proof (f_pos p nb Hg) as Hf. fold f in Hf.
  apply isblock_Ok; [apply Hg|lia|fold f; lia|apply Hm].
Qed.

Definition whole_check (f v : Z) : bool :=
  upto 0 f (fun q => if is_run f v f q then (q =? 0) && (v =? full f) else true) &&
  (0 <? runs f (full f) f).

Lemma whole_all : all_blocks whole_check = true.
Proof. vm_compute. reflexivity. Qed.

Lemma run_whole v q : 0 <= v < 2 ^ f -> 0 <= q < f -> is_run f v f q = true -> q = 0 /\ v = full f.
Proof.
  intros Hv Hq Hr. pose proof (all_blocks_spec _ whole_all f v (g_frag _ _ Hg) Hv) as H.
  unfold whole_check in H. apply andb_true_iff in H as [H _].
  pose proof (upto_spec _ _ _ H q Hq) as H1. simpl in H1. rewrite Hr in H1.
  by rewrite andb_true_iff, !Z.eqb_eq in H1.
Qed.

Lemma runs_whole : 0 < runs f (full f) f.
Proof.
  assert (0 <= 0 < 2 ^ f) as H0.
  { destruct (g_frag _ _ Hg) as [E|[E|[E|E]]]; unfold f; rewrite E; simpl; lia. }
  pose proof (all_blocks_spec _ whole_all f 0 (g_frag _ _ Hg) H0) as H.
  unfold whole_check in H. apply andb_true_iff in H as [_ H]. by apply Z.ltb_lt.
Qed.

(** ** The choice of a block *)

(** Only the rotors of a group have moved. *)
Definition moved (c c' : cg) : Prop :=
  exists x y, c' = set_rotor (set_frotor c x) y /\ 0 <= x < fs_fpg p /\ 0 <= y < fs_fpg p.

Lemma norot_spec c bpref h0 : cg_wf c -> 0 <= bpref -> 0 <= h0 < nb ->
  blk f (cg_free c) h0 = full f ->
  exists c' h, alloc_norot p c bpref = Ok (c', f * h) /\ moved c c' /\ 0 <= h < nb /\
    blk f (cg_free c) h = full f.
Proof.
  intros Hw Hb Hh0 Hfull. pose proof (f_pos p nb Hg) as Hfp. fold f in Hfp.
  destruct (mapsearch_spec p nb Hg c bpref f h0) as (x & h & q & E & Hx & Hh & Hq & Hr);
    [apply Hw|fold f; lia|done|apply Hw|done|fold f; rewrite Hfull; apply runs_whole|].
  fold f in E, Hq, Hr. apply run_whole in Hr as [-> Hv]; [|apply blk_range, Hg|done].
  unfold alloc_norot. fold f. rewrite E. kstep. destruct (Z.ltb_spec (f * h + 0) 0); [nia|].
  replace (f * h + 0) with (f * h) in * by lia.
  eexists _, h. split; [done|]. split; [|done]. exists x, (f * h).
  split; [done|]. split; [done|]. rewrite (g_fpg _ _ Hg). fold f. nia.
Qed.

Lemma find_rpos_spec row fuel i lim : 0 <= i -> i <= lim -> lim <= Z.of_nat (length row) ->
  (Z.to_nat (lim - i) < fuel)%nat ->
  exists j, find_rpos fuel row i lim = Ok j /\ i <= j <= lim /\
    (j = lim /\ (forall k x, i <= k < lim -> rdz row k = Ok x -> x <= 0) \/
     j < lim /\ exists x, rdz row j = Ok x /\ 0 < x).
Proof.
  revert i. induction fuel as [|n IH]; intros i H0 H1 H2 H3; [lia|]. simpl.
  destruct (Z.leb_spec lim i).
  - exists i. split; [done|]. split; [lia|]. left. split; [lia|]. intros; lia.
  - destruct (rdz_lt row i ltac:(lia)) as (x & Hx & _). rewrite Hx. kstep.
    destruct (Z.ltb_spec 0 x).
    + exists i. split; [done|]. split; [lia|]. right. split; [lia|]. eauto.
    + destruct (IH (i + 1)) as (j & E & Hj & Hr); [lia..|]. exists j. split; [done|]. split; [lia|].
      destruct Hr as [[-> Hr]|Hr]; [left|by right]. split; [done|]. intros k y Hk Hy.
      destruct (decide (k = i)) as [->|]; [|by apply (Hr k); [lia|]].
      rewrite Hx in Hy. injection Hy as <-. lia.
Qed.

Lemma rot_reach_le i x : rot_reach i x -> i <= x.
Proof. induction 1; lia. Qed.

Lemma rot_walk_spec m base i x : map_wf p m -> rot_reach i x -> 0 <= i -> 0 <= base ->
  0 <= base + x < nb -> blk f m (base + x) = full f ->
  forall fuel, (length (fs_rotbl p) - Z.to_nat i < fuel)%nat ->
  exists h, rot_walk p fuel m base i = Ok (f * h) /\ 0 <= h < nb /\ blk f m h = full f.
Proof.
  intros Hm Hr. induction Hr as [i|i d x Hd Hdr Hr IH]; intros Hi Hb Hx Hfull [|fuel] Hfu; try lia; simpl.
  - rewrite isblock_blk by done. kstep. rewrite Hfull, Z.eqb_refl.
    eexists. split; [|done]. unfold blkstofrags. by rewrite (proj1 (frag_shift _)).
  - apply rot_reach_le in Hr as Hle.
    rewrite isblock_blk by (done || lia). kstep. destruct (Z.eqb_spec (blk f m (base + i)) (full f)) as [E|].
    + exists (base + i). split; [|split; [lia|done]]. unfold blkstofrags. by rewrite (proj1 (frag_shift _)).
    + rewrite Hd. kstep. destruct (Z.leb_spec d 0); [lia|]. destruct (Z.ltb_spec (MAXBPC p - i) d); [lia|].
      simpl. pose proof (rdz_range _ _ _ Hd). apply IH; (done || lia).
Qed.

Lemma msum_full_pos m g : 0 < msum m g -> (forall h v, 0 <= g h v) ->
  exists h, 0 <= h < nb /\ 0 < g h (blk f m h).
Proof. intros H Hg0. by apply (bsum_pos nb (fun h => g h (blk f m h))). Qed.

Lemma at_rpos_pos cy r h v : 0 < at_rpos cy r h v -> cyl_of h = cy /\ rpos_of h = r /\ v = full f.
Proof.
  unfold at_rpos, at_cyl, is_full.
  destruct (Z.eqb_spec (rpos_of h) r), (Z.eqb_spec (cyl_of h) cy), (Z.eqb_spec v (full f)); simpl; done || lia.
Qed.

Lemma at_rpos_nonneg cy r h v : 0 <= at_rpos cy r h v.
Proof.
  unfold at_rpos, at_cyl, is_full. pose proof (one_range (rpos_of h =? r)).
  pose proof (one_range (cyl_of h =? cy)). pose proof (one_range (v =? full f)). nia.
Qed.

(** With a free block in the group, the choice succeeds: it is a free block of the group,
    and only the rotors have moved. *)
Lemma pick_block_spec c bpref h0 : rot_wf -> cg_wf c -> 0 <= bpref -> 0 <= h0 < nb ->
  blk f (cg_free c) h0 = full f ->
  exists c' h, pick_block p c bpref = Ok (c', f * h) /\ moved c c' /\ 0 <= h < nb /\
    blk f (cg_free c) h = full f.
Proof.
  intros Hrot Hw Hb Hh0 Hfull0. pose proof (w_map _ Hw) as Hm. pose proof (w_cyl _ Hw) as Hy.
  pose proof (f_pos p nb Hg) as Hfp. fold f in Hfp.
  assert (forall b, 0 <= b -> exists c' h, alloc_norot p c b = Ok (c', f * h) /\ moved c c' /\
    0 <= h < nb /\ blk f (cg_free c) h = full f) as Hno by (intros; by eapply norot_spec).
  unfold pick_block. destruct (bpref =? 0); [apply Hno, Hw|].
  destruct (blknum_spec bpref) as [-> _].
  destruct (dtogd_blk (bpref / f)) as [-> Hh]; [apply Z.div_pos; lia|]. set (h1 := (bpref / f) mod nb) in *.
  unfold fragstoblks. rewrite (proj2 (frag_shift h1)), isblock_blk by done. kstep.
  destruct (Z.eqb_spec (blk f (cg_free c) h1) (full f)) as [E|_].
  { exists c, h1. split; [done|]. split; [|done]. exists (cg_frotor c), (cg_rotor c).
    split; [by destruct c|]. split; apply Hw. }
  fold (cyl_of h1) (rpos_of h1). destruct (y_row _ Hy h1 Hh) as (row & Hrow & Hcy).
  destruct (rdz_lt _ _ Hcy) as (tot & -> & _). kstep. destruct (tot =? 0); [apply Hno; nia|].
  destruct (Z.eqb_spec (fs_cpc p) 0) as [|Hcpc].
  { apply Hno. unfold howmany. pose proof (g_nspf _ _ Hg). pose proof (g_spc _ _ Hg).
    rewrite Z.quot_div_nonneg by nia. apply Z.div_pos; nia. }
  rewrite Hrow. kstep. pose proof (rpos_range h1 ltac:(lia)) as Hr. pose proof (y_len _ Hy _ _ Hrow) as Hlen.
  assert (exists j x, (i ← find_rpos 9 row (rpos_of h1) NRPOS;
     if i =? NRPOS then find_rpos 9 row 0 (rpos_of h1) else mret i) = Ok j /\ rdz row j = Ok x)
    as (j & x & Ej & Hx).
  { unfold NRPOS. destruct (find_rpos_spec row 9 (rpos_of h1) 8) as (i & -> & Hi & Hi'); [lia..|]. kstep.
    destruct (Z.eqb_spec i 8) as [->|].
    - destruct (find_rpos_spec row 9 0 (rpos_of h1)) as (j & -> & Hj & _); [lia..|].
      destruct (rdz_lt row j ltac:(lia)) as (x & Hx & _). eauto.
    - destruct (rdz_lt row i ltac:(lia)) as (x & Hx & _). eauto. }
  set (r1 := find_rpos 9 row (rpos_of h1) NRPOS) in *. destruct r1 as [i| |]; try done.
  cbn [mbind res_bind] in Ej. kstep. rewrite Ej. kstep. rewrite Hx. kstep.
  destruct (Z.ltb_spec 0 x) as [Hpos|_]; [|apply Hno; nia].
  rewrite (y_b _ Hy _ _ _ _ Hrow Hx) in Hpos.
  apply msum_full_pos in Hpos as (h2 & Hh2 & Hp2); [|apply at_rpos_nonneg].
  apply at_rpos_pos in Hp2 as (Ecy & Er & Hfull2).
  destruct (Hrot Hcpc h2 Hh2) as (prow & first & Ep & Ef & Hf0 & Hb0 & Hreach).
  rewrite Ecy, Er in *. rewrite Ep. kstep. rewrite Ef. kstep.
  destruct (Z.eqb_spec first (-1)); [lia|]. fold (rot_base (cyl_of h1)).
  destruct (rot_walk_spec (cg_free c) _ _ _ Hm Hreach Hf0 Hb0) with (fuel := S (length (fs_rotbl p)))
    as (h & -> & Hh' & Hfull); [lia|by replace (_ + _) with h2 by lia|lia|].
  kstep. exists c, h. split; [done|]. split; [|done]. exists (cg_frotor c), (cg_rotor c).
  split; [by destruct c|]. split; apply Hw.
Qed.
End Group.
