(* ===== verification/UfsAlloc.v ===== *)
(** * Allocating and freeing blocks and fragments in a group

    The group-level operations keep the accounting invariant, post the same change to the
    group's summary, the file system's copy of it and the total, and change exactly the
    fragments they return or are given. *)

From S2P Require Import Prelude Ufs UfsBits UfsFrag UfsSearch.
From stdpp Require Import prelude list numbers strings.
From Stdlib Require Import ZArith Lia.

Local Open Scope Z_scope.
Local Open Scope kern_scope.

(** ** Summaries *)

Definition cadd (a b c : csum) : csum :=
  Csum (cs_ndir a + cs_ndir b - cs_ndir c) (cs_nbfree a + cs_nbfree b - cs_nbfree c)
       (cs_nifree a + cs_nifree b - cs_nifree c) (cs_nffree a + cs_nffree b - cs_nffree c).

Definition linked (s : fs) (c : cg) (i : Z) : Prop := rdz (fs_cs s) i = Ok (cg_cs c).

(** The change of the group's summary from [c] to [c'] is posted to the file system. *)
Definition posted (i : Z) (s : fs) (c : cg) (s' : fs) (c' : cg) : Prop :=
  fs_cs s' = <[Z.to_nat i := cg_cs c']> (fs_cs s) /\
  fs_cstotal s' = cadd (fs_cstotal s) (cg_cs c') (cg_cs c) /\ fs_cgrotor s' = fs_cgrotor s.

(** What the block and fragment operations leave of a group. *)
Definition kept (c c' : cg) : Prop :=
  cg_magic c' = cg_magic c /\ cg_cgx c' = cg_cgx c /\ cg_iused c' = cg_iused c /\
  cg_irotor c' = cg_irotor c /\ cs_ndir (cg_cs c') = cs_ndir (cg_cs c) /\
  cs_nifree (cg_cs c') = cs_nifree (cg_cs c).

Lemma kept_trans c c1 c2 : kept c c1 -> kept c1 c2 -> kept c c2.
Proof. unfold kept. intuition congruence. Qed.

Lemma csum_ext a b : cs_ndir a = cs_ndir b -> cs_nbfree a = cs_nbfree b ->
  cs_nifree a = cs_nifree b -> cs_nffree a = cs_nffree b -> a = b.
Proof. destruct a, b; simpl; congruence. Qed.

Lemma posted_refl i s c c' : linked s c i -> cg_cs c' = cg_cs c -> posted i s c s c'.
Proof.
  intros H E. pose proof H as [_ Hl]%rdz_Ok. unfold posted. rewrite E. split.
  - symmetry. by apply list_insert_id.
  - split; [|done]. apply csum_ext; simpl; lia.
Qed.

Lemma posted_trans i s c s1 c1 s2 c2 :
  posted i s c s1 c1 -> posted i s1 c1 s2 c2 -> posted i s c s2 c2.
Proof.
  intros (E1 & T1 & R1) (E2 & T2 & R2). split; [|split; [|congruence]].
  - by rewrite E2, E1, list_insert_insert_eq.
  - rewrite T2, T1. apply csum_ext; simpl; lia.
Qed.

Lemma posted_fmod i s c s' c' : posted i s c s' c' -> posted i s c (fmod s') c'.
Proof. done. Qed.

Lemma posted_cs i s c s' c' c0 c0' : cg_cs c0 = cg_cs c -> cg_cs c0' = cg_cs c' ->
  posted i s c s' c' -> posted i s c0 s' c0'.
Proof. unfold posted. by intros -> ->. Qed.

Lemma posted_linked i s c s' c' : linked s c i -> posted i s c s' c' -> linked s' c' i.
Proof.
  intros Hl (E & _). unfold linked. rewrite E. pose proof (rdz_range _ _ _ Hl).
  apply rdz_Ok. split; [lia|]. apply list_lookup_insert_eq. lia.
Qed.

Lemma linked_fmod s c i : linked s c i -> linked (fmod s) c i.
Proof. done. Qed.

(** The adjustments account() is used for. *)
Inductive adjusts : (csum -> csum) -> Prop :=
| adj_nbfree d : adjusts (add_nbfree d)
| adj_nffree d : adjusts (add_nffree d)
| adj_nifree d : adjusts (add_nifree d)
| adj_ndir d : adjusts (add_ndir d).

Lemma account_spec g s c i : adjusts g -> linked s c i ->
  exists s', account g s c i = Ok (s', set_cs c (g (cg_cs c))) /\
    posted i s c s' (set_cs c (g (cg_cs c))).
Proof.
  intros Hg Hl. unfold account. pose proof Hl as Hl'. unfold linked in Hl'. rewrite Hl'. kstep.
  rewrite wrz_Ok by (by eapply rdz_range). kstep. eexists. split; [done|].
  split; [done|]. split; [|done]. simpl. destruct Hg; apply csum_ext; simpl; lia.
Qed.

Section Alloc.
Context (p : fsp) (nb : Z).
Hypothesis Hg : geom p nb.
Local Abbreviation f := (fs_frag p).

Lemma f_range : 0 < f <= 8.
Proof. apply (f_pos p nb Hg). Qed.

(** ** One block changes *)

Lemma cg_wf_step c c' h : cg_wf p nb c -> changes p nb (cg_free c) (cg_free c') h ->
  map_wf p (cg_free c') -> cyl_wf p nb c' -> length (cg_frsum c') = 8%nat ->
  (forall t, 1 <= t < f -> rdz (cg_frsum c') t =
     Ok (msum p nb (cg_free c) (fun _ v => runs f v t)
         - runs f (blk f (cg_free c) h) t + runs f (blk f (cg_free c') h) t)) ->
  cs_nffree (cg_cs c') = cs_nffree (cg_cs c) - loose p (blk f (cg_free c) h) + loose p (blk f (cg_free c') h) ->
  cs_nbfree (cg_cs c') = cs_nbfree (cg_cs c) - is_full p (blk f (cg_free c) h) + is_full p (blk f (cg_free c') h) ->
  0 <= cg_rotor c' < fs_fpg p -> 0 <= cg_frotor c' < fs_fpg p ->
  (cg_cgx c' = 0 -> bit (cg_free c') 0 = false) -> cg_wf p nb c'.
Proof.
  intros Hw Hch Hm Hy Hl Hfr Hnf Hnb Hr Hfo Hboot. constructor; try done.
  - intros t Ht. rewrite Hfr by done. f_equal.
    symmetry. by apply (msum_upd p nb (cg_free c) (cg_free c') h (fun _ v => runs f v t)).
  - rewrite Hnf, (w_nffree _ _ _ Hw). symmetry. by apply (msum_upd p nb (cg_free c) (cg_free c') h (fun _ => loose p)).
  - rewrite Hnb, (w_nbfree _ _ _ Hw). symmetry. by apply (msum_upd p nb (cg_free c) (cg_free c') h (fun _ => is_full p)).
Qed.

Lemma put_range_changes m m' h pos n v : 0 <= h < nb -> 0 <= pos -> 0 <= n -> pos + n <= f ->
  put_range m m' (f * h + pos) n v ->
  changes p nb m m' h /\ blk f m' h = upd_blk v (blk f m h) pos n.
Proof.
  intros Hh Hp Hn Hpn Hpr.
  destruct (put_range_blk f m m' h pos n v (g_frag _ _ Hg)) as [E H]; [lia..|done|].
  split; [|done]. split; [done|]. intros. by apply H.
Qed.

Lemma moved_wf c c' : cg_wf p nb c -> moved p c c' -> cg_wf p nb c' /\ cg_free c' = cg_free c /\
  cg_cs c' = cg_cs c /\ kept c c'.
Proof.
  intros Hw (x & y & -> & Hx & Hy). split; [|done].
  destruct Hw as [H1 H2 H3 H4 H5 H6 H7 [Y1 Y2 Y3 Y4] H9]. constructor; simpl; try done.
Qed.

Lemma cyl_wf_ext c c' : cg_free c' = cg_free c -> cg_b c' = cg_b c -> cg_btot c' = cg_btot c ->
  cyl_wf p nb c -> cyl_wf p nb c'.
Proof. intros E1 E2 E3 [H1 H2 H3 H4]. constructor; rewrite ?E1, ?E2, ?E3; done. Qed.

Lemma upd_whole v : 0 <= v < 2 ^ f -> upd_blk false v 0 f = 0 /\ upd_blk true v 0 f = full f.
Proof.
  intros Hv. unfold upd_blk. pose proof f_range. assert (range 0 f = Z.ones f) as -> by done. split.
  - rewrite Z.ldiff_ones_r by lia. rewrite Z.shiftr_div_pow2, Z.div_small by lia. apply Z.shiftl_0_l.
  - apply Z.bits_inj'. intros j Hj. unfold full. rewrite Z.lor_spec, Z.testbit_ones_nonneg by lia.
    destruct (Z.ltb_spec j f); [apply orb_true_r|]. rewrite orb_false_r.
    rewrite <- (Z.mod_small v (2 ^ f)) by done. apply Z.mod_pow2_bits_high. lia.
Qed.

Lemma is_full_spec v : is_full p v = 1 /\ v = full f \/ is_full p v = 0 /\ v <> full f.
Proof. unfold is_full. destruct (Z.eqb_spec v (full f)); simpl; tauto. Qed.

Lemma loose_full : loose p (full f) = 0.
Proof. unfold loose. by rewrite Z.eqb_refl. Qed.

Lemma loose_other v : v <> full f -> loose p v = nfrags f v.
Proof. intros. unfold loose. by rewrite (proj2 (Z.eqb_neq _ _)). Qed.

(** ** alloccgblk() *)

Lemma clr_boot c m k n : (cg_cgx c = 0 -> bit (cg_free c) 0 = false) ->
  put_range (cg_free c) m k n false -> cg_cgx c = 0 -> bit m 0 = false.
Proof. intros H (_ & _ & Hb) E. rewrite Hb by lia. destruct (in_range k n 0); [done|by apply H]. Qed.

Lemma alloccgblk_spec s c i bpref h0 : rot_wf p nb -> cg_wf p nb c -> linked s c i -> cg_cgx c = i ->
  0 <= bpref -> 0 <= h0 < nb -> blk f (cg_free c) h0 = full f ->
  exists s' c' h, alloccgblk p s c bpref = Ok (s', c', i * fs_fpg p + f * h) /\
    cg_wf p nb c' /\ posted i s c s' c' /\ kept c c' /\ 0 <= h < nb /\
    blk f (cg_free c) h = full f /\ put_range (cg_free c) (cg_free c') (f * h) f false.
Proof.
  intros Hrot Hw Hl Hi Hb Hh0 Hfull0. pose proof f_range as Hf.
  destruct (pick_block_spec p nb Hg c bpref h0 Hrot Hw Hb Hh0 Hfull0) as (c1 & h & Ep & Hmv & Hh & Hfull).
  unfold alloccgblk. rewrite Ep. kstep. destruct (Z.ltb_spec (f * h) 0); [nia|].
  destruct (moved_wf _ _ Hw Hmv) as (Hw1 & Ef & Ecs & Hk). pose proof (w_map _ _ _ Hw1) as Hm1.
  unfold fragstoblks. rewrite (proj2 (frag_shift p nb Hg h)).
  destruct (clrblock_Ok p (cg_free c1) h (g_frag _ _ Hg) ltac:(lia)) as (m & Em & Hpr).
  { pose proof (blk_size p nb Hg _ _ Hm1 Hh). lia. }
  rewrite Em. kstep.
  assert (cg_cgx c1 = i) as -> by (destruct Hk as (_ & Hk & _); congruence).
  destruct (account_spec (add_nbfree (-1)) s (set_free c1 m) i) as (s1 & -> & Hpost);
    [constructor|unfold linked in *; simpl; by rewrite Ecs|]. kstep.
  set (c2 := set_cs _ _) in *.
  destruct (put_range_changes (cg_free c1) m h 0 f false) as [Hch Hblk]; [done|lia..|by rewrite Z.add_0_r|].
  rewrite Ef, Hfull in Hblk. destruct (upd_whole (full f)) as [E0 _].
  { rewrite <- Hfull. apply blk_range, Hg. }
  rewrite E0 in Hblk.
  assert (is_full p (full f) = 1) as F1 by (unfold is_full; fold f; by rewrite Z.eqb_refl).
  assert (is_full p 0 = 0) as F0.
  { pose proof (full_nonzero p nb Hg). unfold is_full. by rewrite (proj2 (Z.eqb_neq _ _)). }
  assert (loose p 0 = 0) as L0.
  { rewrite loose_other by (intros E; by destruct (full_nonzero p nb Hg)). by destruct (split_block f (g_frag _ _ Hg)) as (_ & _ & _ & ?). }
  destruct (count_block_spec p nb Hg (set_cs c1 (cg_cs c2)) m h (-1)) as (t & b & Ecb & Hcy).
  { by eapply cyl_wf_ext, Hw1. }
  { simpl. done. }
  { simpl. rewrite Hblk, Ef, Hfull. lia. }
  assert (set_free (set_cs c1 (cg_cs c2)) m = c2) as Ec2 by done. rewrite Ec2 in *.
  rewrite Ecb. kstep. exists (fmod s1), (set_b c2 t b), h.
  assert (cg_cgx c1 = i) as Ecgx by (destruct Hk as (_ & Hk & _); congruence). simpl. rewrite Ecgx.
  split; [done|]. split; [|split; [|split; [|split; [done|split; [done|]]]]].
  - eapply (cg_wf_step c1 _ h); try done; simpl; rewrite ?Hblk, ?Ef, ?Hfull.
    + eapply (put_range_wf p (cg_free c) m (f * h) f false); [nia|done|by rewrite <- Ef|by rewrite <- Ef].
    + apply Hw1.
    + intros t0 Ht. destruct (split_block f (g_frag _ _ Hg)) as (_ & _ & Hs & _). destruct (Hs t0 Ht) as [-> ->].
      rewrite (w_frsum _ _ _ Hw1 t0 Ht), Ef. f_equal. lia.
    + rewrite loose_full, L0. lia.
    + rewrite F1, F0. lia.
    + apply Hw1.
    + apply Hw1.
    + intros E. eapply (clr_boot c1); [apply Hw1|done|congruence].
  - apply posted_fmod. eapply posted_cs; [| |exact Hpost]; [by rewrite <- Ecs|done].
  - eapply kept_trans; [exact Hk|]. done.
  - simpl. by rewrite <- Ef.
Qed.

(** ** alloccg() in a group *)

Lemma numfrags_size n : numfrags p (n * 2 ^ fs_fshift p) = n.
Proof.
  unfold numfrags. rewrite Z.shiftr_div_pow2 by apply Hg. apply Z.div_mul.
  apply Z.pow_nonzero; [done|apply Hg].
Qed.

Lemma size_whole n : 1 <= n <= f -> (n * 2 ^ fs_fshift p =? fs_bsize p) = (n =? f).
Proof.
  intros Hn. rewrite (g_bsize _ _ Hg). pose proof (Z.pow_pos_nonneg 2 (fs_fshift p) ltac:(lia) (g_fshift _ _ Hg)).
  apply eq_true_iff_eq. rewrite !Z.eqb_eq. nia.
Qed.

Lemma find_siz_spec frsum fuel j : 1 <= j <= f -> length frsum = 8%nat ->
  (Z.to_nat (f - j) < fuel)%nat ->
  exists k, find_siz p fuel frsum j = Ok k /\ j <= k <= f /\
    (forall t x, j <= t < k -> rdz frsum t = Ok x -> x = 0) /\
    (k < f -> exists x, rdz frsum k = Ok x /\ x <> 0).
Proof.
  pose proof f_range as Hf. revert j. induction fuel as [|n IH]; intros j Hj Hl Hfu; [lia|]. simpl.
  destruct (Z.leb_spec f j).
  - exists j. split; [done|]. split; [lia|]. split; intros; lia.
  - destruct (rdz_lt frsum j ltac:(lia)) as (x & Hx & _). rewrite Hx. kstep.
    destruct (Z.eqb_spec x 0) as [->|].
    + destruct (IH (j + 1)) as (k & -> & Hk & H1 & H2); [lia|done|lia|].
      exists k. split; [done|]. split; [lia|]. split; [|done]. intros t y Ht Hy.
      destruct (decide (t = j)) as [->|]; [congruence|]. apply (H1 t); [lia|done].
    + exists j. split; [done|]. split; [lia|]. split; [intros; lia|]. eauto.
Qed.

Lemma runs_nonneg v t : 0 <= runs f v t.
Proof. unfold runs. lia. Qed.

Lemma runs_block m t : msum p nb m (fun _ v => runs f v t) <> 0 ->
  exists h, 0 <= h < nb /\ 0 < runs f (blk f m h) t.
Proof.
  intros H. apply (msum_full_pos p nb m (fun _ v => runs f v t)); [|intros; apply runs_nonneg].
  pose proof (msum_nonneg p nb m (fun _ v => runs f v t) (fun _ v => runs_nonneg v t)). lia.
Qed.

Lemma no_runs m t : msum p nb m (fun _ v => runs f v t) = 0 ->
  forall h, 0 <= h < nb -> runs f (blk f m h) t = 0.
Proof.
  intros H h Hh. pose proof (runs_nonneg (blk f m h) t).
  pose proof (bsum_ge nb (fun h => runs f (blk f m h) t) h (fun x _ => runs_nonneg _ _) Hh) as Hge.
  simpl in Hge. unfold msum in H. lia.
Qed.

Lemma is_full_nonneg v : 0 <= is_full p v.
Proof. unfold is_full. apply one_range. Qed.

Lemma full_block m : msum p nb m (fun _ => is_full p) <> 0 ->
  exists h, 0 <= h < nb /\ blk f m h = full f.
Proof.
  intros H. destruct (msum_full_pos p nb m (fun _ => is_full p)) as (h & Hh & Hp).
  - pose proof (msum_nonneg p nb m (fun _ => is_full p) (fun _ v => is_full_nonneg v)). lia.
  - intros. apply is_full_nonneg.
  - exists h. split; [done|]. destruct (is_full_spec (blk f m h)) as [[_ E]|[E _]]; [done|]. simpl in Hp. lia.
Qed.

Lemma no_full m : msum p nb m (fun _ => is_full p) = 0 ->
  forall h, 0 <= h < nb -> runs f (blk f m h) f = 0.
Proof.
  intros H h Hh. pose proof (bsum_ge nb (fun h => is_full p (blk f m h)) h (fun x _ => is_full_nonneg _) Hh) as Hge.
  simpl in Hge. unfold msum in H. pose proof (is_full_nonneg (blk f m h)) as H0.
  destruct (is_full_spec (blk f m h)) as [[E _]|[_ E]]; [lia|].
  pose proof (runs_find f (blk f m h) f) as Hr. destruct (first_run _ _ _) as [q|]; [|done].
  destruct Hr as [Hr Hq]. apply (run_whole p nb Hg) in Hr as [_ ?]; [done|apply blk_range, Hg|done].
Qed.

(** The counters after [frsum[a]--; if (b > 0) frsum[b]++]. *)
Lemma frsum_move (fr : list Z) a b (cond : bool) (g : Z -> Z) : length fr = 8%nat ->
  (forall t, 1 <= t < f -> rdz fr t = Ok (g t)) -> 1 <= a < f -> 0 <= b < f -> (cond = true -> b = 0) ->
  (cond = false -> 1 <= b) ->
  exists fr1 fr2, addz fr a (-1) = Ok fr1 /\ (if cond then mret fr1 else addz fr1 b 1) = Ok fr2 /\
    length fr2 = 8%nat /\
    forall t, 1 <= t < f -> rdz fr2 t = Ok (g t - one (t =? a) + one (t =? b)).
Proof.
  intros Hl Hfr Ha Hb Hc0 Hc1. pose proof f_range as Hf. pose proof (Hfr a Ha) as Hfa.
  rewrite (addz_Ok _ _ _ _ Hfa). eexists.
  assert (forall t, 1 <= t < f -> rdz (<[Z.to_nat a := g a + -1]> fr) t = Ok (g t - one (t =? a))) as H1.
  { intros t Ht. apply rdz_Ok. split; [lia|]. destruct (Z.eqb_spec t a) as [->|]; simpl.
    - rewrite list_lookup_insert_eq by lia. f_equal; lia.
    - rewrite list_lookup_insert_ne by lia. pose proof (Hfr t Ht) as [_ E]%rdz_Ok. rewrite E. f_equal; lia. }
  destruct cond.
  - rewrite (Hc0 eq_refl). eexists. split; [done|]. split; [done|]. split; [by rewrite length_insert|].
    intros t Ht. rewrite H1 by done. f_equal. destruct (Z.eqb_spec t 0); [lia|]. simpl. lia.
  - specialize (Hc1 eq_refl). rewrite (addz_Ok _ _ _ _ (H1 b ltac:(lia))). eexists.
    split; [done|]. split; [done|]. split; [by rewrite !length_insert|]. intros t Ht.
    apply rdz_Ok. split; [lia|]. destruct (Z.eqb_spec t b) as [->|]; simpl.
    + rewrite list_lookup_insert_eq by (rewrite length_insert; lia). f_equal.
    + rewrite list_lookup_insert_ne by lia. pose proof (H1 t Ht) as [_ E]%rdz_Ok. rewrite E. f_equal; lia.
Qed.

(** Taking [n] fragments off the front of a run: the part alloccg() and fragextend() share. *)
Lemma take_frags s c i h q z n m fr : cg_wf p nb c -> linked s c i -> 0 <= h < nb -> 0 <= q ->
  1 <= z < f -> is_run f (blk f (cg_free c) h) z q = true -> 1 <= n <= z ->
  put_range (cg_free c) m (f * h + q) n false -> length fr = 8%nat ->
  (forall t, 1 <= t < f -> rdz fr t =
    Ok (msum p nb (cg_free c) (fun _ v => runs f v t) - one (t =? z) + one (t =? z - n))) ->
  forall c1, cg_free c1 = m -> cg_cs c1 = add_nffree (- n) (cg_cs c) -> cg_frsum c1 = fr ->
    cg_b c1 = cg_b c -> cg_btot c1 = cg_btot c -> cg_rotor c1 = cg_rotor c ->
    0 <= cg_frotor c1 < fs_fpg p -> cg_cgx c1 = cg_cgx c -> cg_wf p nb c1.
Proof.
  intros Hw Hl Hh Hq Hz Hr Hn Hpr Hlen Hfr c1 Ef Ecs Efr Eb Et Ero Hfro Ecgx. pose proof f_range as Hf.
  destruct (run_bit p _ _ _ Hr Hq ltac:(lia)) as [Hqz _].
  destruct (put_range_changes (cg_free c) m h q n false) as [Hch Hblk]; [done|lia..|done|].
  destruct (take_run f (blk f (cg_free c) h) z q n (g_frag _ _ Hg)) as (Hruns & Hnf & Hv & Hv'); try done.
  { apply blk_range, Hg. }
  rewrite <- Hblk in Hruns, Hnf, Hv'.
  assert (is_full p (blk f m h) = is_full p (blk f (cg_free c) h)) as Efull.
  { destruct (is_full_spec (blk f m h)), (is_full_spec (blk f (cg_free c) h)); lia || tauto. }
  eapply (cg_wf_step c c1 h); rewrite ?Ef, ?Ecs, ?Efr, ?Ero; try done.
  - refine (put_range_wf p (cg_free c) m _ n false _ _ _ Hpr); [nia|done|apply Hw].
  - eapply (cyl_wf_same p nb c c1 h); rewrite ?Ef; try done. apply Hw.
  - intros t Ht. rewrite Hfr by done. f_equal. rewrite Hruns by done. lia.
  - simpl. rewrite !loose_other by done. lia.
  - simpl. rewrite Efull. lia.
  - apply Hw.
  - intros E. eapply (clr_boot c m); [apply Hw|done|congruence].
Qed.

(** What an allocation of [n] fragments in group [i] promises: no room, and nothing changed;
    or the address of [n] fragments of one block, all free before and taken now. *)
Definition allocates (c c' : cg) (i n r : Z) : Prop :=
  (r = 0 /\ cg_free c' = cg_free c /\
   forall h t, 0 <= h < nb -> n <= t <= f -> runs f (blk f (cg_free c) h) t = 0) \/
  exists h q, r = i * fs_fpg p + (f * h + q) /\ 0 <= h < nb /\ 0 <= q /\ q + n <= f /\
    (forall j, f * h + q <= j < f * h + q + n -> bit (cg_free c) j = true) /\
    put_range (cg_free c) (cg_free c') (f * h + q) n false.

Lemma run_bits m h q z n : 0 <= h -> 0 <= q -> 1 <= z -> 1 <= n <= z -> is_run f (blk f m h) z q = true ->
  forall j, f * h + q <= j < f * h + q + n -> bit m j = true.
Proof.
  intros Hh Hq Hz Hn Hr j Hj. destruct (run_bit p _ _ _ Hr Hq Hz) as [Hqz Hb].
  specialize (Hb (j - f * h) ltac:(lia)). rewrite blk_bit in Hb by (apply Hg || lia).
  apply andb_true_iff in Hb as [_ Hb]. by replace (f * h + (j - f * h)) with j in Hb by lia.
Qed.

Lemma full_bits m h : 0 <= h -> blk f m h = full f ->
  forall j, f * h <= j < f * h + f -> bit m j = true.
Proof.
  intros Hh E j Hj. pose proof (proj1 (blk_full f m h (g_frag _ _ Hg) Hh) E (j - f * h) ltac:(lia)) as H.
  by replace (f * h + (j - f * h)) with j in H by lia.
Qed.

(** The case where a smaller run serves. *)
Lemma alloc_frag s c i bpref n z x : cg_wf p nb c -> linked s c i ->
  0 <= bpref -> 1 <= n <= z -> z < f -> rdz (cg_frsum c) z = Ok x -> x <> 0 ->
  exists s' c' r,
    ('(c1, bno) ← mapsearch p c bpref z;
     if bno <? 0 then mret (s, c1, 0)
     else
       m ← clr_bits (Z.to_nat n) (cg_free c1) bno;
       '(s2, c2) ← account (add_nffree (- n)) s (set_free c1 m) i;
       fr ← addz (cg_frsum c2) z (-1);
       fr' ← (if n =? z then mret fr else addz fr (z - n) 1);
       mret (fmod s2, set_frsum c2 fr', i * fs_fpg p + bno)) = Ok (s', c', r) /\
    cg_wf p nb c' /\ posted i s c s' c' /\ kept c c' /\ allocates c c' i n r.
Proof.
  intros Hw Hl Hb Hn Hz Hx Hx0. pose proof f_range as Hf. pose proof (w_map _ _ _ Hw) as Hm.
  rewrite (w_frsum _ _ _ Hw) in Hx by lia. injection Hx as <-.
  destruct (runs_block _ _ Hx0) as (h0 & Hh0 & Hr0).
  destruct (mapsearch_spec p nb Hg c bpref z h0) as (y & h & q & E & Hy & Hh & Hq & Hr);
    [done|lia|done|apply Hw|done|done|].
  rewrite E. kstep. destruct (Z.ltb_spec (f * h + q) 0); [nia|].
  destruct (run_bit p _ _ _ Hr ltac:(lia) ltac:(lia)) as [Hqz _].
  pose proof (blk_size p nb Hg _ _ Hm Hh) as Hsz.
  destruct (clr_range_Ok n (cg_free c) (f * h + q)) as (m & Em & Hpr); [nia|lia|lia|].
  simpl cg_free. rewrite Em. kstep.
  destruct (account_spec (add_nffree (- n)) s (set_free (set_frotor c y) m) i) as (s1 & -> & Hpost);
    [constructor|done|]. kstep.
  destruct (frsum_move (cg_frsum c) z (z - n) (n =? z) (fun t => msum p nb (cg_free c) (fun _ v => runs f v t)))
    as (fr1 & fr2 & E1 & E2 & Hlen & Hfr); [apply Hw|apply Hw|lia|lia|intros ?%Z.eqb_eq; lia|intros ?%Z.eqb_neq; lia|].
  simpl cg_frsum. rewrite E1. kstep. rewrite E2. kstep.
  eexists _, _, _. split; [done|]. split; [|split; [|split; [done|]]].
  - eapply (take_frags s c i h q z n m fr2); done || lia.
  - apply posted_fmod. eapply posted_cs; [| |exact Hpost]; done.
  - right. exists h, q. split; [done|]. split; [done|]. split; [lia|]. split; [lia|]. split; [|done].
    apply (run_bits _ _ _ z); done || lia.
Qed.

(** Fragment [q] of block [h] of group [i]. *)
Lemma group_addr i h q : 0 <= i -> 0 <= h < nb -> 0 <= q < f ->
  dtogd p (i * fs_fpg p + (f * h + q)) = f * h + q /\
  fragnum p (i * fs_fpg p + (f * h + q)) = q /\ dtog p (i * fs_fpg p + (f * h + q)) = i.
Proof.
  intros Hi Hh Hq. pose proof f_range as Hf. pose proof (g_fpg _ _ Hg) as Efpg.
  assert (0 <= f * h + q < fs_fpg p) as Hk by (rewrite Efpg; nia).
  assert (0 <= i * fs_fpg p + (f * h + q)) as H0 by nia.
  unfold dtogd, dtog. rewrite Z.rem_mod_nonneg, Z.quot_div_nonneg by lia.
  rewrite (Z.add_comm (i * fs_fpg p)), Z.mod_add, Z.div_add, Z.div_small, Z.mod_small by lia.
  split; [done|]. split; [|lia]. rewrite (proj2 (blknum_spec p nb Hg _)), Efpg.
  replace (f * h + q + i * (f * nb)) with (q + (i * nb + h) * f) by lia.
  rewrite Z.mod_add by lia. by apply Z.mod_small.
Qed.

(** The case where a whole block is broken up: [n] fragments of it are used. *)
Lemma split_spec s c i bpref n h0 : rot_wf p nb -> cg_wf p nb c -> linked s c i -> cg_cgx c = i ->
  0 <= i -> 0 <= bpref -> 1 <= n < f -> 0 <= h0 < nb -> blk f (cg_free c) h0 = full f ->
  exists s' c' r,
    ('(s1, c1, bno) ← alloccgblk p s c bpref;
     let bpref' := dtogd p bno in
     m ← set_bits (Z.to_nat (f - n)) (cg_free c1) (bpref' + n);
     let k := f - n in
     '(s2, c2) ← account (add_nffree k) s1 (set_free c1 m) i;
     fr ← addz (cg_frsum c2) k 1;
     mret (fmod s2, set_frsum c2 fr, bno)) = Ok (s', c', r) /\
    cg_wf p nb c' /\ posted i s c s' c' /\ kept c c' /\ allocates c c' i n r.
Proof.
  intros Hrot Hw Hl Hi Hi0 Hb Hn Hh0 Hfull0. pose proof f_range as Hf.
  destruct (alloccgblk_spec s c i bpref h0 Hrot Hw Hl Hi Hb Hh0 Hfull0)
    as (s1 & c1 & h & E & Hw1 & Hpost1 & Hk1 & Hh & Hfull & Hpr1).
  rewrite E. kstep. pose proof (posted_linked _ _ _ _ _ Hl Hpost1) as Hl1.
  destruct (group_addr i h 0) as (Ed & _); [lia..|]. rewrite Z.add_0_r in Ed. rewrite Ed. clear Ed.
  pose proof (blk_size p nb Hg _ _ (w_map _ _ _ Hw1) Hh) as Hsz.
  destruct (set_range_Ok (f - n) (cg_free c1) (f * h + n)) as (m & Em & Hpr); [nia|lia|lia|].
  rewrite Em. kstep.
  destruct (account_spec (add_nffree (f - n)) s1 (set_free c1 m) i) as (s2 & -> & Hpost2);
    [constructor|done|]. kstep.
  pose proof (w_frsum _ _ _ Hw1 (f - n) ltac:(lia)) as Hfn. simpl cg_frsum.
  rewrite (addz_Ok _ _ _ _ Hfn). kstep. eexists _, _, _. split; [done|].
  destruct (put_range_changes (cg_free c) (cg_free c1) h 0 f false) as [_ Hblk1];
    [done|lia..|by rewrite Z.add_0_r|].
  rewrite Hfull, (proj1 (upd_whole (full f) ltac:(rewrite <- Hfull; apply blk_range, Hg))) in Hblk1.
  destruct (put_range_changes (cg_free c1) m h n (f - n) true) as [Hch Hblk]; [done|lia..|done|].
  rewrite Hblk1 in Hblk. destruct (split_block f (g_frag _ _ Hg)) as (Hs1 & Hs2 & Hs3 & Hs4).
  destruct (Hs2 n Hn) as [Hnf Hnfull]. rewrite <- Hblk in Hnf, Hnfull.
  assert (0 <> full f) as H0f by (intros E0; by destruct (full_nonzero p nb Hg)).
  assert (is_full p 0 = 0 /\ is_full p (blk f m h) = 0) as [F0 Fm].
  { destruct (is_full_spec 0), (is_full_spec (blk f m h)); split; (tauto || lia). }
  split; [|split; [|split]].
  - eapply (cg_wf_step c1 _ h); simpl; rewrite ?Hblk1; try done.
    + refine (put_range_wf p (cg_free c1) m _ (f - n) true _ _ _ Hpr); [nia| |apply Hw1].
      intros _. rewrite (g_fpg _ _ Hg). nia.
    + eapply (cyl_wf_same p nb c1 _ h); simpl; try done; [apply Hw1|]. by rewrite Hblk1, F0, Fm.
    + rewrite length_insert. apply Hw1.
    + intros t Ht. destruct (Hs3 t Ht) as [_ R0]. rewrite R0, Hblk, (Hs1 n t Hn Ht).
      apply rdz_Ok. split; [lia|]. pose proof (w_len _ _ _ Hw1).
      destruct (Z.eqb_spec t (f - n)) as [->|]; simpl.
      * rewrite list_lookup_insert_eq by lia. f_equal; lia.
      * rewrite list_lookup_insert_ne by lia.
        pose proof (w_frsum _ _ _ Hw1 t Ht) as [_ Et]%rdz_Ok. rewrite Et. f_equal; lia.
    + rewrite !loose_other by done. rewrite Hnf, Hs4. lia.
    + rewrite F0, Fm. lia.
    + apply Hw1.
    + apply Hw1.
    + intros Ec. destruct Hpr as (_ & _ & Hbm). rewrite Hbm by lia.
      unfold in_range. destruct (Z.leb_spec (f * h + n) 0); [nia|]. simpl. by apply (w_boot _ _ _ Hw1).
  - apply posted_fmod. eapply posted_trans; [exact Hpost1|]. eapply posted_cs; [| |exact Hpost2]; done.
  - eapply kept_trans; [exact Hk1|]. done.
  - right. exists h, 0. split; [by rewrite Z.add_0_r|]. split; [done|]. split; [lia|]. split; [lia|].
    rewrite Z.add_0_r. split; [intros j Hj; eapply full_bits; [|done|]; lia|].
    simpl cg_free. destruct Hpr as (L2 & B2 & Hb2), Hpr1 as (L1 & B1 & Hb1).
    split; [congruence|]. split; [auto|]. intros j Hj. rewrite Hb2, Hb1 by done. unfold in_range.
    destruct (Z.leb_spec (f * h + n) j), (Z.leb_spec (f * h) j), (Z.ltb_spec j (f * h + n + (f - n))),
      (Z.ltb_spec j (f * h + f)), (Z.ltb_spec j (f * h + n)); simpl; try lia; try done.
    symmetry. eapply full_bits; [|done|]; lia.
Qed.

(** alloccg() in a group that has been read. *)
Lemma alloc_in_spec s c i bpref n : rot_wf p nb -> cg_wf p nb c -> linked s c i -> cg_cgx c = i ->
  0 <= i -> 0 <= bpref -> 1 <= n <= f -> (n = f -> cs_nbfree (cg_cs c) <> 0) ->
  exists s' c' r, alloc_in p s c i bpref (n * 2 ^ fs_fshift p) = Ok (s', c', r) /\
    cg_wf p nb c' /\ posted i s c s' c' /\ kept c c' /\ allocates c c' i n r.
Proof.
  intros Hrot Hw Hl Hi Hi0 Hb Hn Hnb. pose proof f_range as Hf.
  unfold alloc_in. rewrite size_whole, numfrags_size by done. destruct (Z.eqb_spec n f) as [->|Hnf].
  - rewrite (w_nbfree _ _ _ Hw) in Hnb. destruct (full_block _ (Hnb eq_refl)) as (h0 & Hh0 & Hfull0).
    destruct (alloccgblk_spec s c i bpref h0 Hrot Hw Hl Hi Hb Hh0 Hfull0)
      as (s1 & c1 & h & E & Hw1 & Hpost1 & Hk1 & Hh & Hfull & Hpr1).
    exists s1, c1, (i * fs_fpg p + f * h). split; [done|]. split; [done|]. split; [done|]. split; [done|].
    right. exists h, 0. split; [by rewrite Z.add_0_r|]. split; [done|]. split; [lia|]. split; [lia|].
    rewrite Z.add_0_r. split; [|done]. intros j Hj. eapply full_bits; [|done|]; lia.
  - destruct (find_siz_spec (cg_frsum c) 9 n) as (z & -> & Hz & Hno & Hyes); [lia|apply Hw|lia|]. kstep.
    destruct (Z.eqb_spec z f) as [->|].
    + destruct (Z.eqb_spec (cs_nbfree (cg_cs c)) 0) as [E0|E0].
      * exists s, c, 0. split; [done|]. split; [done|]. split; [by apply posted_refl|]. split; [done|].
        left. split; [done|]. split; [done|]. intros h t Hh Ht. destruct (decide (t = f)) as [->|].
        -- rewrite (w_nbfree _ _ _ Hw) in E0. by apply no_full.
        -- apply no_runs; [|done]. eapply Hno; [|apply Hw]; lia.
      * rewrite (w_nbfree _ _ _ Hw) in E0. destruct (full_block _ E0) as (h0 & Hh0 & Hfull0).
        apply (split_spec s c i bpref n h0); done || lia.
    + destruct (Hyes ltac:(lia)) as (x & Hx & Hx0).
      apply (alloc_frag s c i bpref n z x); done || lia.
Qed.

(** ** free() in a group *)

Lemma set_boot c m k n : 0 <= k -> (cg_cgx c = 0 -> bit (cg_free c) 0 = false) ->
  (cg_cgx c = 0 -> 0 < k) -> put_range (cg_free c) m k n true -> cg_cgx c = 0 -> bit m 0 = false.
Proof.
  intros Hk H Hk0 (_ & _ & Hb) E. rewrite Hb by lia. unfold in_range.
  specialize (Hk0 E). destruct (Z.leb_spec k 0); [lia|]. simpl. by apply H.
Qed.

Lemma taken_block m h q n : 0 <= h -> 0 <= q -> 0 <= n -> q + n <= f ->
  (forall j, f * h + q <= j < f * h + q + n -> bit m j = false) ->
  Z.land (blk f m h) (range q n) = 0.
Proof.
  intros Hh Hq Hn Hqn H. apply Z.bits_inj'. intros j Hj. rewrite Z.land_spec, range_bit, Z.bits_0 by lia.
  destruct (in_range q n j) eqn:E; [|apply andb_false_r]. unfold in_range in E.
  rewrite andb_true_iff, Z.leb_le, Z.ltb_lt in E. rewrite blk_bit by (apply Hg || lia).
  rewrite (H (f * h + j)) by lia. by rewrite andb_false_r.
Qed.

(** A whole block. *)
Lemma free_whole s c i h : cg_wf p nb c -> linked s c i -> cg_cgx c = i -> 0 <= h < nb ->
  (i = 0 -> 0 < f * h) -> (forall j, f * h <= j < f * h + f -> bit (cg_free c) j = false) ->
  exists s' c', free_in p s c i (f * h) (f * 2 ^ fs_fshift p) = Ok (s', c') /\
    cg_wf p nb c' /\ posted i s c s' c' /\ kept c c' /\
    put_range (cg_free c) (cg_free c') (f * h) f true.
Proof.
  intros Hw Hl Hi Hh Hb0 Htaken. pose proof f_range as Hf. pose proof (w_map _ _ _ Hw) as Hm.
  unfold free_in. rewrite size_whole, Z.eqb_refl by lia.
  unfold fragstoblks. rewrite (proj2 (frag_shift p nb Hg h)), (isblock_blk p nb Hg) by done. kstep.
  pose proof (blk_range f (cg_free c) h (g_frag _ _ Hg)) as Hvr.
  assert (blk f (cg_free c) h = 0) as Hv0.
  { pose proof (taken_block (cg_free c) h 0 f ltac:(lia) ltac:(lia) ltac:(lia) ltac:(lia)) as Ht.
    rewrite Z.add_0_r in Ht. specialize (Ht Htaken). unfold range in Ht. rewrite Z.shiftl_0_r in Ht.
    rewrite Z.land_ones, Z.mod_small in Ht by (done || lia). done. }
  rewrite Hv0. assert (0 <> full f) as H0f by (intros E0; by destruct (full_nonzero p nb Hg)).
  rewrite (proj2 (Z.eqb_neq _ _) H0f).
  destruct (setblock_Ok p (cg_free c) h (g_frag _ _ Hg) ltac:(lia)) as (m & Em & Hpr).
  { pose proof (blk_size p nb Hg _ _ Hm Hh). lia. }
  rewrite Em. kstep.
  destruct (account_spec (add_nbfree 1) s (set_free c m) i) as (s1 & -> & Hpost); [constructor|done|]. kstep.
  set (c2 := set_cs _ _) in *.
  destruct (put_range_changes (cg_free c) m h 0 f true) as [Hch Hblk]; [done|lia..|by rewrite Z.add_0_r|].
  rewrite Hv0 in Hblk, Hvr. rewrite (proj2 (upd_whole 0 Hvr)) in Hblk.
  assert (is_full p (full f) = 1) as F1 by (unfold is_full; by rewrite Z.eqb_refl).
  assert (is_full p 0 = 0) as F0 by (unfold is_full; by rewrite (proj2 (Z.eqb_neq _ _))).
  assert (loose p 0 = 0) as L0.
  { rewrite loose_other by done. by destruct (split_block f (g_frag _ _ Hg)) as (_ & _ & _ & ?). }
  destruct (count_block_spec p nb Hg (set_cs c (cg_cs c2)) m h 1) as (t & b & Ecb & Hcy).
  { by eapply cyl_wf_ext, Hw. }
  { done. }
  { simpl. rewrite Hblk, Hv0. lia. }
  assert (set_free (set_cs c (cg_cs c2)) m = c2) as Ec2 by done. rewrite Ec2 in *.
  rewrite Ecb. kstep. exists s1, (set_b c2 t b).
  split; [done|]. split; [|split; [|split; [done|]]].
  - eapply (cg_wf_step c _ h); try done; simpl; rewrite ?Hblk, ?Hv0.
    + refine (put_range_wf p (cg_free c) m (f * h) f true _ _ Hm Hpr); [nia|].
      intros _. rewrite (g_fpg _ _ Hg). nia.
    + apply Hw.
    + intros t0 Ht. destruct (split_block f (g_frag _ _ Hg)) as (_ & _ & Hs & _). destruct (Hs t0 Ht) as [-> ->].
      rewrite (w_frsum _ _ _ Hw t0 Ht). f_equal. lia.
    + rewrite loose_full, L0. lia.
    + rewrite F1, F0. lia.
    + apply Hw.
    + apply Hw.
    + eapply (set_boot c m (f * h) f); [nia|apply Hw|lia|done].
  - eapply posted_cs; [| |exact Hpost]; done.
  - done.
Qed.

(** The counters after the two fragacct() calls around a change of a block. *)
Lemma fragacct_change m (fr : list Z) v v' : length fr = 8%nat -> 0 <= v < 2 ^ f -> 0 <= v' < 2 ^ f ->
  (forall t, 1 <= t < f -> rdz fr t = Ok (msum p nb m (fun _ v => runs f v t))) ->
  exists fr1 fr2, fragacct p v fr (-1) = Ok fr1 /\ fragacct p v' fr1 1 = Ok fr2 /\ length fr2 = 8%nat /\
    forall t, 1 <= t < f -> rdz fr2 t = Ok (msum p nb m (fun _ v => runs f v t) - runs f v t + runs f v' t).
Proof.
  intros Hl Hv Hv' Hfr. pose proof f_range as Hf.
  destruct (fragacct_Ok p v fr (-1) (g_frag _ _ Hg) Hv ltac:(lia)) as (fr1 & E1 & L1 & D1).
  destruct (fragacct_Ok p v' fr1 1 (g_frag _ _ Hg) Hv' ltac:(lia)) as (fr2 & E2 & L2 & D2).
  exists fr1, fr2. split; [done|]. split; [done|]. split; [lia|]. intros t Ht.
  apply rdz_Ok. split; [lia|]. pose proof (Hfr t Ht) as [_ Et]%rdz_Ok.
  rewrite D2, D1, Et by lia. simpl. rewrite bool_decide_true by lia. f_equal. lia.
Qed.

(** Fewer fragments than a block. *)
Lemma free_frags s c i h q n : cg_wf p nb c -> linked s c i -> cg_cgx c = i -> 0 <= h < nb ->
  0 <= q -> 1 <= n < f -> q + n <= f -> (i = 0 -> 0 < f * h + q) ->
  (forall j, f * h + q <= j < f * h + q + n -> bit (cg_free c) j = false) ->
  exists s' c', free_in p s c i (f * h + q) (n * 2 ^ fs_fshift p) = Ok (s', c') /\
    cg_wf p nb c' /\ posted i s c s' c' /\ kept c c' /\
    put_range (cg_free c) (cg_free c') (f * h + q) n true.
Proof.
  intros Hw Hl Hi Hh Hq Hn Hqn Hb0 Htaken. pose proof f_range as Hf. pose proof (w_map _ _ _ Hw) as Hm.
  unfold free_in. rewrite size_whole, numfrags_size, (proj2 (Z.eqb_neq n f)) by lia.
  assert (f * h + q - fragnum p (f * h + q) = f * h) as ->.
  { rewrite (proj2 (blknum_spec p nb Hg _)). replace (f * h + q) with (q + h * f) by lia.
    rewrite Z.mod_add, Z.mod_small by lia. lia. }
  pose proof (blk_size p nb Hg _ _ Hm Hh) as Hsz.
  rewrite blkmap_Ok by (apply Hg || lia). kstep.
  destruct (free_range_Ok n (cg_free c) (f * h + q)) as (m & Em & Hpr); [nia|lia|lia|done|].
  destruct (put_range_changes (cg_free c) m h q n true) as [Hch Hblk]; [done|lia..|done|].
  pose proof (blk_range f (cg_free c) h (g_frag _ _ Hg)) as Hv.
  pose proof (blk_range f m h (g_frag _ _ Hg)) as Hv'.
  destruct (fragacct_change (cg_free c) (cg_frsum c) _ _ (w_len _ _ _ Hw) Hv Hv' (w_frsum _ _ _ Hw))
    as (fr1 & fr2 & E1 & E2 & Hlen & Hfr).
  rewrite E1. kstep. rewrite Em. kstep.
  assert (map_wf p m) as Hm'.
  { refine (put_range_wf p (cg_free c) m _ n true _ _ Hm Hpr); [nia|]. intros _. rewrite (g_fpg _ _ Hg). nia. }
  pose proof (blk_size p nb Hg _ _ Hm' Hh) as Hsz'.
  destruct (account_spec (add_nffree n) s (set_frsum (set_free c m) fr1) i) as (s1 & -> & Hpost);
    [constructor|done|]. kstep.
  rewrite blkmap_Ok by (apply Hg || lia). kstep. simpl cg_frsum. rewrite E2. kstep.
  unfold fragstoblks. rewrite (proj2 (frag_shift p nb Hg h)), (isblock_blk p nb Hg) by done. kstep.
  destruct (give_frags f (blk f (cg_free c) h) q n (g_frag _ _ Hg) Hv Hq Hn Hqn) as (Hnf & Hvf & Hff).
  { apply taken_block; (done || lia). }
  rewrite <- Hblk in Hnf.
  destruct (is_full_spec (blk f (cg_free c) h)) as [[_ ?]|[F0 _]]; [done|].
  assert (cg_cgx c = 0 -> bit m 0 = false) as Hboot.
  { eapply (set_boot c m (f * h + q) n); [nia|apply Hw|lia|done]. }
  destruct (Z.eqb_spec (blk f m h) (full f)) as [Efull|Enf].
  - destruct (account_spec (add_nffree (- f)) s1 (set_frsum (set_cs (set_frsum (set_free c m) fr1)
      (add_nffree n (cg_cs (set_frsum (set_free c m) fr1)))) fr2) i) as (s2 & -> & Hpost2);
      [constructor|by eapply (posted_linked _ _ _ _ _ Hl)|]. kstep.
    match goal with |- context [account (add_nbfree 1) s2 ?c4 i] => set (c4' := c4) in * end.
    destruct (account_spec (add_nbfree 1) s2 c4' i) as (s3 & -> & Hpost3);
      [constructor|eapply posted_linked; [|exact Hpost2]; by eapply (posted_linked _ _ _ _ _ Hl)|]. kstep.
    set (c5 := set_cs c4' _).
    assert (is_full p (full f) = 1) as F1 by (unfold is_full; by rewrite Z.eqb_refl).
    destruct (count_block_spec p nb Hg (set_free c5 (cg_free c)) m h 1) as (t & b & Ecb & Hcy).
    { by eapply cyl_wf_ext, Hw. }
    { done. }
    { simpl. rewrite Efull, F0, F1. lia. }
    assert (set_free (set_free c5 (cg_free c)) m = c5) as Ec5 by done. rewrite Ec5 in *.
    rewrite Ecb. kstep. exists s3, (set_b c5 t b). split; [done|]. split; [|split; [|split; [done|done]]].
    + eapply (cg_wf_step c _ h); try done; simpl; try apply Hw.
      * rewrite Efull in Hnf |- *. rewrite loose_full, loose_other by done. lia.
      * rewrite Efull, F1, F0. lia.
    + eapply posted_trans; [exact Hpost|]. eapply posted_trans; [eapply posted_cs; [| |exact Hpost2]; done|].
      eapply posted_cs; [| |exact Hpost3]; done.
  - destruct (is_full_spec (blk f m h)) as [[_ ?]|[Fm _]]; [done|].
    eexists _, _. split; [done|]. split; [|split; [|split; [done|done]]].
    + eapply (cg_wf_step c _ h); try done; simpl; try apply Hw.
      * eapply (cyl_wf_same p nb c _ h); simpl; try done; [apply Hw|]. by rewrite F0, Fm.
      * rewrite !loose_other by done. lia.
      * rewrite F0, Fm. lia.
    + eapply posted_cs; [| |exact Hpost]; done.
Qed.

(** ** fragextend() in a group *)

Lemma find_clr_spec m k n i : 0 <= k + i -> k + i + Z.of_nat n <= size_in_bits m ->
  exists j, find_clr n m k i = Ok j /\ i <= j <= i + Z.of_nat n /\
    (forall x, i <= x < j -> bit m (k + x) = true) /\
    (j < i + Z.of_nat n -> bit m (k + j) = false).
Proof.
  revert i. induction n as [|n IH]; intros i H0 H1; simpl.
  - exists i. split; [done|]. split; [lia|]. split; intros; lia.
  - rewrite isset_Ok by lia. kstep. destruct (bit m (k + i)) eqn:E.
    + destruct (IH (i + 1)) as (j & -> & Hj & H2 & H3); [lia|lia|]. exists j. split; [done|].
      split; [lia|]. split; [|intros; apply H3; lia]. intros x Hx.
      destruct (decide (x = i)) as [->|]; [done|apply H2; lia].
    + exists i. split; [done|]. split; [lia|]. split; [intros; lia|done].
Qed.

(** Extending the fragment of [o] at [f * h + q] to [n]. *)
Lemma extend_in_spec s c i h q o n : cg_wf p nb c -> linked s c i -> cg_cgx c = i -> 0 <= i ->
  0 <= h < nb -> 0 <= q -> 1 <= o < n -> q + n <= f -> bit (cg_free c) (f * h + q + o - 1) = false ->
  exists s' c' r, extend_in p s c i (i * fs_fpg p + (f * h + q)) (o * 2 ^ fs_fshift p) (n * 2 ^ fs_fshift p)
      = Ok (s', c', r) /\
    cg_wf p nb c' /\ posted i s c s' c' /\ kept c c' /\
    (r = 0 /\ cg_free c' = cg_free c /\
       (exists j, f * h + q + o <= j < f * h + q + n /\ bit (cg_free c) j = false) \/
     r = i * fs_fpg p + (f * h + q) /\
       (forall j, f * h + q + o <= j < f * h + q + n -> bit (cg_free c) j = true) /\
       put_range (cg_free c) (cg_free c') (f * h + q + o) (n - o) false).
Proof.
  intros Hw Hl Hi Hi0 Hh Hq Hon Hqn Htaken. pose proof f_range as Hf. pose proof (w_map _ _ _ Hw) as Hm.
  pose proof (blk_size p nb Hg _ _ Hm Hh) as Hsz. unfold extend_in. rewrite !numfrags_size.
  destruct (group_addr i h q) as (-> & -> & _); [lia..|].
  destruct (find_clr_spec (cg_free c) (f * h + q) (Z.to_nat (n - o)) o) as (j & -> & Hj & Hset & Hclr); [nia|lia|].
  kstep. destruct (Z.ltb_spec j n) as [Hjn|Hjn].
  { exists s, c, 0. split; [done|]. split; [done|]. split; [by apply posted_refl|]. split; [done|].
    left. split; [done|]. split; [done|]. exists (f * h + q + j). split; [lia|]. apply Hclr. lia. }
  assert (j = n) as -> by lia.
  destruct (find_clr_spec (cg_free c) (f * h + q) (Z.to_nat (f - q - n)) n) as (k & -> & Hk & Hset2 & Hclr2); [nia|lia|].
  kstep.
  (* the run extended into: [k - o] fragments from [q + o] *)
  assert (is_run f (blk f (cg_free c) h) (k - o) (q + o) = true) as Hrun.
  { unfold is_run. rewrite !andb_true_iff, Z.leb_le, Z.eqb_eq, !negb_true_iff. repeat split.
    - lia.
    - apply Z.bits_inj'. intros x Hx. rewrite Z.land_spec, range_bit by lia.
      destruct (in_range (q + o) (k - o) x) eqn:Er; [|apply andb_false_r]. rewrite andb_true_r.
      unfold in_range in Er. rewrite andb_true_iff, Z.leb_le, Z.ltb_lt in Er.
      rewrite blk_bit by (apply Hg || lia). destruct (Z.ltb_spec x f); [|lia]. simpl.
      replace (f * h + x) with (f * h + q + (x - q)) by lia.
      destruct (Z.lt_ge_cases (x - q) n); [apply Hset; lia|apply Hset2; lia].
    - rewrite blk_bit by (apply Hg || lia). destruct (Z.ltb_spec (q + o - 1) f); [|done]. simpl.
      by replace (f * h + (q + o - 1)) with (f * h + q + o - 1) by lia.
    - rewrite blk_bit by (apply Hg || lia). destruct (Z.ltb_spec (q + o + (k - o)) f); [|done]. simpl.
      replace (f * h + (q + o + (k - o))) with (f * h + q + k) by lia. apply Hclr2. lia. }
  destruct (frsum_move (cg_frsum c) (k - o) (k - n) (k =? n) (fun t => msum p nb (cg_free c) (fun _ v => runs f v t)))
    as (fr1 & fr2 & E1 & E2 & Hlen & Hfr); [apply Hw|apply Hw|lia|lia|intros ?%Z.eqb_eq; lia|intros ?%Z.eqb_neq; lia|].
  rewrite E1. kstep. rewrite E2. kstep.
  destruct (clr_range_Ok (n - o) (cg_free c) (f * h + q + o)) as (m & Em & Hpr); [nia|lia|lia|].
  rewrite Em. kstep.
  destruct (account_spec (add_nffree (- (n - o))) s (set_frsum (set_free c m) fr2) i) as (s1 & -> & Hpost);
    [constructor|done|]. kstep.
  eexists _, _, _. split; [done|]. split; [|split; [|split; [done|]]].
  - eapply (take_frags s c i h (q + o) (k - o) (n - o) m fr2); try done; try lia.
    + by replace (f * h + (q + o)) with (f * h + q + o) by lia.
    + intros t Ht. rewrite Hfr by done. do 3 f_equal. lia.
    + apply Hw.
  - apply posted_fmod. eapply posted_cs; [| |exact Hpost]; done.
  - right. split; [done|]. split; [|done]. intros x Hx.
    replace x with (f * h + q + (x - f * h - q)) by lia. apply Hset. lia.
Qed.
End Alloc.
