(* ===== verification/UfsThms.v ===== *)
(** * A mounted file system: allocation and freeing keep its accounting

    [ufs_wf] says that every cylinder group satisfies the accounting invariant of [UfsSearch],
    that the file system's summary of each group is the group's own, and that the totals are
    the sums.  alloccg(), fragextend() and free() keep it and change exactly the fragments
    they allocate or are given. *)

From S2P Require Import Prelude Ufs UfsBits UfsFrag UfsSearch UfsAlloc.
From stdpp Require Import prelude list numbers strings.
From Stdlib Require Import ZArith Lia.

Local Open Scope Z_scope.
Local Open Scope kern_scope.

(** ** Invariant *)

Definition czero : csum := Csum 0 0 0 0.
Definition cplus (a b : csum) : csum :=
  Csum (cs_ndir a + cs_ndir b) (cs_nbfree a + cs_nbfree b)
       (cs_nifree a + cs_nifree b) (cs_nffree a + cs_nffree b).
Definition csums (l : list csum) : csum := foldr cplus czero l.

(** The inode map of a group: whole bytes, the free count, and inode 0 never free. *)
Definition ifree_count (c : cg) (ipg : Z) : Z :=
  bsum ipg (fun k => one (negb (bit (cg_iused c) k))).

Record ino_wf (p : fsp) (c : cg) : Prop := {
  i_bytes : Forall byte_ok (cg_iused c);
  i_ipg : 0 < fs_ipg p <= 65528 /\ fs_ipg p mod 8 = 0 /\ fs_ipg p <= size_in_bits (cg_iused c);
  i_rotor : 0 <= cg_irotor c < fs_ipg p;
  i_count : cs_nifree (cg_cs c) = ifree_count c (fs_ipg p);
  i_boot : cg_cgx c = 0 -> bit (cg_iused c) 0 = true
}.

Record ufs_wf (p : fsp) (nb : Z) (u : ufs) : Prop := {
  uw_geom : geom p nb;
  uw_rot : rot_wf p nb;
  uw_len : Z.of_nat (length (cgs u)) = fs_ncg p /\ length (fs_cs (u_fs u)) = length (cgs u);
  uw_cg : forall i c, cgs u !! i = Some c ->
    cg_wf p nb c /\ ino_wf p c /\ cg_cgx c = Z.of_nat i /\ cg_magic c = CG_MAGIC /\
    fs_cs (u_fs u) !! i = Some (cg_cs c);
  uw_total : fs_cstotal (u_fs u) = csums (fs_cs (u_fs u))
}.

Lemma csums_insert l i x y : l !! i = Some x -> csums (<[i := y]> l) = cadd (csums l) y x.
Proof.
  revert i. induction l as [|a l IH]; intros [|i] H; simpl in *; simplify_eq.
  - apply csum_ext; simpl; lia.
  - unfold csums in *. simpl. rewrite (IH i H). apply csum_ext; simpl; lia.
Qed.

Lemma ino_wf_kept p c c' : kept c c' -> ino_wf p c -> ino_wf p c'.
Proof.
  intros (E1 & E2 & E3 & E4 & E5 & E6) [H1 H2 H3 H4 H5].
  constructor; unfold ifree_count in *; rewrite ?E2, ?E3, ?E4, ?E6; try done.
Qed.

Lemma kept_time c t : kept c (set_time c t).
Proof. done. Qed.

Section Fs.
Context (p : fsp) (nb : Z) (u : ufs).
Hypothesis Hw : ufs_wf p nb u.

Lemma group_at i : 0 <= i < fs_ncg p ->
  exists c, cgs u !! Z.to_nat i = Some c /\ rdz (cgs u) i = Ok c /\ linked (u_fs u) c i /\ cg_cgx c = i.
Proof.
  intros Hi. destruct (uw_len _ _ _ Hw) as [Hl _]. destruct (rdz_lt (cgs u) i ltac:(lia)) as (c & Hc & Hlk).
  exists c. destruct (uw_cg _ _ _ Hw _ _ Hlk) as (_ & _ & Hx & _ & Hcs).
  split; [done|]. split; [done|]. split; [|lia]. apply rdz_Ok. split; [lia|done].
Qed.

Lemma stamped i c : cgs u !! i = Some c -> cg_wf p nb (set_time c (u_time u)).
Proof.
  intros Hc. destruct (uw_cg _ _ _ Hw _ _ Hc) as ([H1 H2 H3 H4 H5 H6 H7 [Y1 Y2 Y3 Y4] H9] & _).
  by constructor.
Qed.

(** Writing back a group whose change has been posted. *)
Lemma put_cg_wf i c s' c' : 0 <= i -> cgs u !! Z.to_nat i = Some c -> cg_wf p nb c' -> ino_wf p c' ->
  posted i (u_fs u) c s' c' -> cg_cgx c' = i -> cg_magic c' = CG_MAGIC ->
  exists u', put_cg u i s' c' = Ok u' /\ ufs_wf p nb u' /\ cgs u' = <[Z.to_nat i := c']> (cgs u) /\
    b_error u' = b_error u /\ u_fs u' = s'.
Proof.
  intros Hi Hc Hc' Hi' (Ecs & Et & _) Hx Hm. pose proof (lookup_lt_Some _ _ _ Hc) as Hlt.
  destruct (uw_len _ _ _ Hw) as [Hl Hl2]. destruct (uw_cg _ _ _ Hw _ _ Hc) as (_ & _ & _ & _ & Hsum).
  unfold put_cg. rewrite wrz_Ok by lia. kstep. eexists. split; [done|]. split; [|done].
  constructor; simpl; try apply Hw.
  - rewrite Ecs, !length_insert. split; [lia|done].
  - intros k d Hd. rewrite Ecs. destruct (decide (k = Z.to_nat i)) as [->|Hne].
    + rewrite list_lookup_insert_eq in Hd by done. injection Hd as <-.
      rewrite list_lookup_insert_eq by lia. split; [done|]. split; [done|]. split; [lia|done].
    + rewrite list_lookup_insert_ne in Hd by done. rewrite list_lookup_insert_ne by done.
      by apply (uw_cg _ _ _ Hw).
  - rewrite Et, Ecs, (uw_total _ _ _ Hw). symmetry. by apply csums_insert.
Qed.

Lemma read_cg_Ok i c : cgs u !! Z.to_nat i = Some c -> 0 <= i ->
  read_cg u i = Ok (if b_error u (Z.to_nat i) then None else Some c).
Proof.
  intros Hc Hi. unfold read_cg. rewrite (proj2 (rdz_Ok _ _ _) (conj Hi Hc)). kstep.
  destruct (uw_cg _ _ _ Hw _ _ Hc) as (_ & _ & _ & -> & _). rewrite Z.eqb_refl. by rewrite orb_false_r.
Qed.

(** Two states that differ in group [i] only, whose map goes from [m] to [m']. *)
Definition only_group (u' : ufs) (i : Z) (m m' : list Z) : Prop :=
  b_error u' = b_error u /\
  (exists c, cgs u !! Z.to_nat i = Some c /\ cg_free c = m) /\
  (exists c, cgs u' !! Z.to_nat i = Some c /\ cg_free c = m') /\
  forall j, j <> Z.to_nat i -> cgs u' !! j = cgs u !! j.

Lemma only_group_put i c c' u' : cgs u !! Z.to_nat i = Some c -> cgs u' = <[Z.to_nat i := c']> (cgs u) ->
  b_error u' = b_error u -> only_group u' i (cg_free c) (cg_free c').
Proof.
  intros Hc E Eb. split; [done|]. split; [eauto|]. rewrite E. split.
  - exists c'. split; [|done]. apply list_lookup_insert_eq. by eapply lookup_lt_Some.
  - intros j Hj. by apply list_lookup_insert_ne.
Qed.
End Fs.

(** ** alloccg() *)

(** What an allocation of [n] fragments in group [i] may do: return 0 with no map changed,
    because the group could not be read or has no run of [n] free fragments; or return the
    non-zero address of [n] fragments of one block of the group, all free before, and change
    the group's map in those fragments only. *)
Definition grants (p : fsp) (nb : Z) (u u' : ufs) (i n r : Z) : Prop :=
  let f := fs_frag p in
  exists m m', only_group u u' i m m' /\
    (r = 0 /\ m' = m /\
       (b_error u (Z.to_nat i) = true \/
        forall h t, 0 <= h < nb -> n <= t <= f -> runs f (blk f m h) t = 0) \/
     r <> 0 /\ exists h q, r = i * fs_fpg p + (f * h + q) /\ 0 <= h < nb /\ 0 <= q /\ q + n <= f /\
       (forall j, f * h + q <= j < f * h + q + n -> bit m j = true) /\
       put_range m m' (f * h + q) n false).

Section Alloccg.
Context (p : fsp) (nb : Z) (u : ufs) (i n : Z) (c : cg).
Hypothesis Hw : ufs_wf p nb u.
Hypothesis Hi : 0 <= i < fs_ncg p.
Hypothesis Hn : 1 <= n <= fs_frag p.
Hypothesis Hc : cgs u !! Z.to_nat i = Some c.

(** Nothing is granted, and nothing has changed. *)
Lemma grants_none :
  b_error u (Z.to_nat i) = true \/ (forall h t, 0 <= h < nb -> n <= t <= fs_frag p ->
    runs (fs_frag p) (blk (fs_frag p) (cg_free c) h) t = 0) ->
  exists u' r, Ok (u, 0) = Ok (u', r) /\ ufs_wf p nb u' /\ grants p nb u u' i n r.
Proof.
  intros H. exists u, 0. split; [done|]. split; [done|]. exists (cg_free c), (cg_free c).
  split; [|by left]. split; [done|]. split; [eauto|]. split; [eauto|done].
Qed.

(** Fragment 0 of the file system is never free. *)
Lemma address_nonzero h q : 0 <= h < nb -> 0 <= q -> q + n <= fs_frag p ->
  bit (cg_free c) (fs_frag p * h + q) = true -> i * fs_fpg p + (fs_frag p * h + q) <> 0.
Proof.
  intros Hh Hq Hqn Hb E. pose proof (uw_geom _ _ _ Hw) as Hg. pose proof (f_range p nb Hg).
  destruct (uw_cg _ _ _ Hw _ _ Hc) as (Hcw & _ & Hx & _). pose proof (g_nb _ _ Hg).
  assert (0 < fs_fpg p) by (rewrite (g_fpg _ _ Hg); nia).
  assert (0 <= fs_frag p * h) by nia. assert (i = 0) as -> by nia.
  assert (fs_frag p * h + q = 0) as E0 by lia. rewrite E0, (w_boot _ _ _ Hcw) in Hb; [done|lia].
Qed.

Lemma alloc_read bpref : 0 <= bpref -> linked (u_fs u) c i -> cg_cgx c = i ->
  (n = fs_frag p -> cs_nbfree (cg_cs c) <> 0) ->
  exists u' r,
    ('(s, c', r) ← alloc_in p (u_fs u) (set_time c (u_time u)) i bpref (n * 2 ^ fs_fshift p);
     u' ← put_cg u i s c'; mret (u', r)) = Ok (u', r) /\ ufs_wf p nb u' /\ grants p nb u u' i n r.
Proof.
  intros Hb Hl Hx Hnb. pose proof (uw_geom _ _ _ Hw) as Hg.
  destruct (uw_cg _ _ _ Hw _ _ Hc) as (Hcw & Hiw & _ & Hmag & _).
  destruct (alloc_in_spec p nb Hg (u_fs u) (set_time c (u_time u)) i bpref n)
    as (s' & c' & r & -> & Hcw' & Hpost & Hk & Hal);
    [apply Hw|by apply (stamped p nb u Hw _ _ Hc)|done|done|lia|done|done|done|]. kstep.
  destruct (put_cg_wf p nb u Hw i c s' c') as (u' & -> & Hw' & Ecgs & Eerr & _);
    [lia|done|done|by eapply (ino_wf_kept p c)|by eapply posted_cs; [| |exact Hpost]|
     destruct Hk as (_ & E & _); by rewrite E|destruct Hk as (E & _); by rewrite E|]. kstep.
  exists u', r. split; [done|]. split; [done|]. exists (cg_free c), (cg_free c').
  split; [by eapply only_group_put|].
  destruct Hal as [(-> & Ef & Hno)|(h & q & -> & Hh & Hq & Hqn & Hbits & Hpr)].
  - left. split; [done|]. split; [done|]. by right.
  - right. split; [|by exists h, q]. apply (address_nonzero h q); try done. apply Hbits. lia.
Qed.
End Alloccg.

Lemma alloccg_Ok p nb u i bpref n :
  ufs_wf p nb u -> 0 <= i < fs_ncg p -> 0 <= bpref -> 1 <= n <= fs_frag p ->
  exists u' r, alloccg p u i bpref (n * 2 ^ fs_fshift p) = Ok (u', r) /\ ufs_wf p nb u' /\
    grants p nb u u' i n r.
Proof.
  intros Hw Hi Hb Hn. pose proof (uw_geom _ _ _ Hw) as Hg.
  destruct (group_at p nb u Hw i Hi) as (c & Hc & Hrd & Hl & Hx).
  destruct (uw_cg _ _ _ Hw _ _ Hc) as (Hcw & _).
  unfold alloccg. pose proof Hl as Hl'. unfold linked in Hl'. rewrite Hl'. kstep.
  rewrite (size_whole p nb Hg) by done.
  destruct ((cs_nbfree (cg_cs c) =? 0) && (n =? fs_frag p)) eqn:E.
  { apply andb_true_iff in E as [E0%Z.eqb_eq ->%Z.eqb_eq].
    apply (grants_none p nb u i _ c); [done|done|]. right. intros h t Hh Ht.
    assert (t = fs_frag p) as -> by lia.
    rewrite (w_nbfree _ _ _ Hcw) in E0. by apply (no_full p nb Hg). }
  rewrite (read_cg_Ok p nb u Hw i c Hc) by lia. kstep.
  destruct (b_error u (Z.to_nat i)) eqn:Eb.
  { apply (grants_none p nb u i _ c); [done|done|by left]. }
  rewrite E. apply (alloc_read p nb u i n c); try done.
  intros -> E0. by rewrite E0, !Z.eqb_refl in E.
Qed.

(** C18: alloccg() on a well-formed file system returns, without a panic, in a well-formed file
    system (every count of every group, the run counts by size, the counts by cylinder and
    rotational position and the totals again exact).  Asked for [n] fragments (a block when
    [n] is fs_frag) it returns either 0, having changed no map, when the group could not be
    read or has no run of [n] free fragments, or the non-zero address of [n] fragments of
    one block of the group that were all free, and the group's map differs from before in
    those fragments only. *)
Theorem alloccg_sound p nb u i bpref n :
  ufs_wf p nb u -> 0 <= i < fs_ncg p -> 0 <= bpref -> 1 <= n <= fs_frag p ->
  exists u' r, alloccg p u i bpref (n * 2 ^ fs_fshift p) = Ok (u', r) /\ ufs_wf p nb u' /\
    grants p nb u u' i n r.
Proof. apply alloccg_Ok. Qed.

(** ** free() *)

Lemma numfrags_mod p nb n : geom p nb -> fragoff p (n * 2 ^ fs_fshift p) = 0 \/ fs_fmask p <> - 2 ^ fs_fshift p.
Proof.
  intros Hg. destruct (decide (fs_fmask p = - 2 ^ fs_fshift p)) as [E|]; [left|by right].
  unfold fragoff. rewrite E. replace (Z.lnot (- 2 ^ fs_fshift p)) with (Z.ones (fs_fshift p)).
  - rewrite Z.land_ones by apply Hg. apply Z.mod_mul. apply Z.pow_nonzero; [done|apply Hg].
  - rewrite Z.ones_equiv. unfold Z.lnot. lia.
Qed.

(** C19: free() of [n] fragments at an address inside the file system other than 0 (which stands for no
    block), all allocated and in one block, returns in a well-formed file system, also when the last group is cut short; when the group can be read, its map differs
    in those fragments only, which are free afterwards; a whole block reassembled from
    fragments is counted as a block. Otherwise nothing has changed. *)
Theorem free_sound p nb u i h q n :
  ufs_wf p nb u -> fs_fmask p = - 2 ^ fs_fshift p -> fs_bsize p < 2 ^ 32 ->
  fs_size p < 2 ^ 32 ->
  0 <= i < fs_ncg p -> 0 <= h < nb -> 0 <= q -> 1 <= n -> q + n <= fs_frag p ->
  0 < i * fs_fpg p + (fs_frag p * h + q) < fs_size p ->
  (forall c j, cgs u !! Z.to_nat i = Some c ->
     fs_frag p * h + q <= j < fs_frag p * h + q + n -> bit (cg_free c) j = false) ->
  exists u', free p u (i * fs_fpg p + (fs_frag p * h + q)) (n * 2 ^ fs_fshift p) = Ok u' /\
    ufs_wf p nb u' /\
    if b_error u (Z.to_nat i) then u' = u
    else exists m m', only_group u u' i m m' /\ put_range m m' (fs_frag p * h + q) n true.
Proof.
  intros Hw Hmask Hbs Hsize Hi Hh Hq Hn Hqn Haddr Htaken. pose proof (uw_geom _ _ _ Hw) as Hg.
  pose proof (f_range p nb Hg) as Hf. pose proof (g_fpg _ _ Hg) as Efpg.
  pose proof (Z.pow_pos_nonneg 2 (fs_fshift p) ltac:(lia) (g_fshift _ _ Hg)) as Hpow.
  pose proof (g_bsize _ _ Hg) as Ebs.
  assert (0 <= fs_frag p * h + q < fs_fpg p) as Hk by (rewrite Efpg; nia).
  destruct (group_addr p nb Hg i h q) as (Ed & _ & Eg); [lia..|].
  destruct (group_at p nb u Hw i Hi) as (c & Hc & Hrd & Hl & Hx).
  destruct (uw_cg _ _ _ Hw _ _ Hc) as (Hcw & Hiw & _ & Hmag & _).
  unfold free. unfold wrapu at 1. rewrite Z.mod_small by nia.
  destruct (Z.ltb_spec (fs_bsize p) (n * 2 ^ fs_fshift p)); [nia|].
  destruct (numfrags_mod p nb n Hg) as [->|]; [|done]. simpl. rewrite Ed, Eg.
  unfold badblock, wrapu. rewrite Z.mod_small by nia.
  destruct (Z.leb_spec (fs_size p) (i * fs_fpg p + (fs_frag p * h + q))); [nia|].
  rewrite (read_cg_Ok p nb u Hw i c Hc) by lia. kstep.
  destruct (b_error u (Z.to_nat i)); [by exists u|].
  assert (exists s' c', free_in p (u_fs u) (set_time c (u_time u)) i (fs_frag p * h + q) (n * 2 ^ fs_fshift p)
      = Ok (s', c') /\ cg_wf p nb c' /\ posted i (u_fs u) (set_time c (u_time u)) s' c' /\
      kept (set_time c (u_time u)) c' /\
      put_range (cg_free (set_time c (u_time u))) (cg_free c') (fs_frag p * h + q) n true)
    as (s' & c' & -> & Hcw' & Hpost & Hk' & Hpr).
  { pose proof (stamped p nb u Hw _ _ Hc) as Hst. destruct (decide (n = fs_frag p)) as [->|].
    - assert (q = 0) as -> by lia. rewrite Z.add_0_r in *.
      apply (free_whole p nb Hg); try done; [lia|]. intros j Hj. by apply (Htaken c).
    - apply (free_frags p nb Hg); try done; try lia. intros j Hj. by apply (Htaken c). }
  kstep. destruct (put_cg_wf p nb u Hw i c (fmod s') c') as (u' & -> & Hw' & Ecgs & Eerr & _);
    [lia|done|done|by eapply (ino_wf_kept p c)|by eapply posted_cs; [| |exact Hpost]|
     destruct Hk' as (_ & E & _); by rewrite E|destruct Hk' as (E & _); by rewrite E|].
  exists u'. split; [done|]. split; [done|]. exists (cg_free c), (cg_free c').
  split; [by eapply only_group_put|done].
Qed.

(** ** fragextend() *)

(** fragextend() of an allocated fragment of [o] to [n] fragments within its block returns
    in a well-formed file system: either 0 and no map has changed, or the fragment's own
    address, when all the [n - o] fragments behind it were free; then exactly they are taken. *)
Theorem fragextend_sound p nb u i h q o n :
  ufs_wf p nb u -> 0 <= i < fs_ncg p -> 0 <= h < nb -> 0 <= q -> 1 <= o < n -> q + n <= fs_frag p ->
  (forall c, cgs u !! Z.to_nat i = Some c -> bit (cg_free c) (fs_frag p * h + q + o - 1) = false) ->
  let a := i * fs_fpg p + (fs_frag p * h + q) in
  exists u' r, fragextend p u i a (o * 2 ^ fs_fshift p) (n * 2 ^ fs_fshift p) = Ok (u', r) /\
    ufs_wf p nb u' /\ exists m m', only_group u u' i m m' /\
      (r = 0 /\ m' = m \/
       r = a /\ (forall j, fs_frag p * h + q + o <= j < fs_frag p * h + q + n -> bit m j = true) /\
         put_range m m' (fs_frag p * h + q + o) (n - o) false).
Proof.
  intros Hw Hi Hh Hq Hon Hqn Htaken a. pose proof (uw_geom _ _ _ Hw) as Hg.
  pose proof (f_range p nb Hg) as Hf.
  destruct (group_at p nb u Hw i Hi) as (c & Hc & Hrd & Hl & Hx).
  destruct (uw_cg _ _ _ Hw _ _ Hc) as (Hcw & Hiw & _ & Hmag & _).
  assert (exists u' r, Ok (u, 0) = Ok (u', r) /\ ufs_wf p nb u' /\ exists m m', only_group u u' i m m' /\
      (r = 0 /\ m' = m \/
       r = a /\ (forall j, fs_frag p * h + q + o <= j < fs_frag p * h + q + n -> bit m j = true) /\
         put_range m m' (fs_frag p * h + q + o) (n - o) false)) as Hnone.
  { exists u, 0. split; [done|]. split; [done|]. exists (cg_free c), (cg_free c).
    split; [split; [done|split; [eauto|split; [eauto|done]]]|by left]. }
  unfold fragextend. pose proof Hl as Hl'. unfold linked in Hl'. rewrite Hl'. kstep.
  destruct (_ <? _); [done|]. rewrite (numfrags_size p nb Hg).
  destruct (group_addr p nb Hg i h q) as (_ & Efn & _); [lia..|].
  destruct (group_addr p nb Hg i h (q + n - 1)) as (_ & Efn2 & _); [lia..|].
  unfold a. rewrite Efn. replace (i * fs_fpg p + (fs_frag p * h + q) + n - 1)
    with (i * fs_fpg p + (fs_frag p * h + (q + n - 1))) by lia. rewrite Efn2.
  destruct (Z.ltb_spec (q + n - 1) q); [done|].
  rewrite (read_cg_Ok p nb u Hw i c Hc) by lia. kstep.
  destruct (b_error u (Z.to_nat i)); [done|].
  destruct (extend_in_spec p nb Hg (u_fs u) (set_time c (u_time u)) i h q o n)
    as (s' & c' & r & -> & Hcw' & Hpost & Hk & Hr);
    [by apply (stamped p nb u Hw _ _ Hc)|done|done|lia|done|done|done|done|exact (Htaken c Hc)|]. kstep.
  destruct (put_cg_wf p nb u Hw i c s' c') as (u' & -> & Hw' & Ecgs & Eerr & _);
    [lia|done|done|by eapply (ino_wf_kept p c)|by eapply posted_cs; [| |exact Hpost]|
     destruct Hk as (_ & E & _); by rewrite E|destruct Hk as (E & _); by rewrite E|]. kstep.
  exists u', r. split; [done|]. split; [done|]. exists (cg_free c), (cg_free c').
  split; [by eapply only_group_put|].
  destruct Hr as [(-> & -> & _)|(-> & Hb & Hpr)]; [by left|by right].
Qed.
