(* ===== verification/UfsWitness.v ===== *)
(** * A small file system the theorems of [UfsThms] apply to

    One group of two 8-fragment blocks on a drive of one cylinder of 16 sectors: of block 0
    the first four fragments are in use, block 1 is free. *)

From S2P Require Import Prelude Ufs UfsBits UfsFrag UfsSearch UfsAlloc UfsThms.
From stdpp Require Import prelude list numbers strings.
From Stdlib Require Import ZArith Lia.

Local Open Scope Z_scope.
Local Open Scope kern_scope.

Definition p0 : fsp :=
  Fsp 16 1 8192 8 10 16 0 60 (-1024) 10 1 1 3 1 16 16 8 16 1 [[0; -1; -1; -1; 1; -1; -1; -1]] [0; 0] 6812.

Definition sum0 : csum := Csum 1 1 5 4.

Definition cg0 : cg :=
  Cg CG_MAGIC 0 0 sum0 0 0 0 [0; 0; 0; 0; 1; 0; 0; 0] [1] [[0; 0; 0; 0; 1; 0; 0; 0]] [0x07] [0xf0; 0xff].

Definition ufs0 : ufs := Ufs (Fs sum0 [sum0] 0 0) [cg0] (fun _ => false) 100.

(** Enumerate a bounded integer. *)
Ltac pick_Z x hi :=
  match hi with
  | 0 => exfalso; lia
  | _ => let lo := eval vm_compute in (hi - 1) in destruct (decide (x = lo)) as [->|]; [|pick_Z x lo]
  end.

Lemma geom0 : geom p0 2.
Proof. constructor; simpl; try lia. by right; right; right. Qed.

Lemma map0 : map_wf p0 [0xf0; 0xff].
Proof.
  constructor.
  - repeat constructor; done.
  - done.
  - intros k Hk Hk0. unfold bit. simpl in Hk.
    assert (2 <= k / 8) by (apply Z.div_le_lower_bound; lia).
    destruct (Z.to_nat (k / 8)) as [|[|n]] eqn:E; [lia|lia|done].
Qed.

Lemma cyl0 : cyl_wf p0 2 cg0.
Proof.
  constructor.
  - intros h Hh. pick_Z h 2; (eexists; split; [reflexivity|split; done]).
  - intros cy row Hr. pose proof (rdz_range _ _ _ Hr) as H. simpl in H. pick_Z cy 1.
    injection Hr as <-. done.
  - intros cy row r x Hr Hx. pose proof (rdz_range _ _ _ Hr) as H. simpl in H. pick_Z cy 1.
    injection Hr as <-. pose proof (rdz_range _ _ _ Hx) as H1. simpl in H1.
    pick_Z r 8; injection Hx as <-; reflexivity.
  - intros cy x Hx. pose proof (rdz_range _ _ _ Hx) as H. simpl in H. pick_Z cy 1.
    injection Hx as <-. reflexivity.
Qed.

Lemma group0 : cg_wf p0 2 cg0.
Proof.
  constructor; try done; [apply map0| |apply cyl0].
  intros t Ht. simpl in Ht. pick_Z t 8; first [exfalso; lia|reflexivity].
Qed.

Lemma inodes0 : ino_wf p0 cg0.
Proof. constructor; simpl; try done. repeat constructor; done. Qed.

Lemma rot0 : rot_wf p0 2.
Proof.
  intros _ h Hh.
  pick_Z h 2; (eexists _, _; split; [reflexivity|split; [reflexivity|split; [done|split; [done|]]]]); constructor.
Qed.

Lemma ufs0_wf : ufs_wf p0 2 ufs0.
Proof.
  constructor; [apply geom0|apply rot0|done| |reflexivity].
  intros [|i] c Hc; [|done]. injection Hc as <-.
  split; [apply group0|]. split; [apply inodes0|]. done.
Qed.

Lemma alloccg_sound_witness :
  exists u' r, alloccg p0 ufs0 0 0 (2 * 2 ^ fs_fshift p0) = Ok (u', r) /\ ufs_wf p0 2 u' /\
    grants p0 2 ufs0 u' 0 2 r.
Proof. apply (alloccg_sound p0 2 ufs0 0 0 2); [apply ufs0_wf|simpl; lia..]. Defined.

Example alloccg_takes_run :
  (r ← alloccg p0 ufs0 0 0 (2 * 2 ^ fs_fshift p0);
   mret (r.2, cg_free <$> head (cgs r.1), cg_frsum <$> head (cgs r.1)))
  = Ok (4, Some [0xc0; 0xff], Some [0; 0; 1; 0; 0; 0; 0; 0]).
Proof. reflexivity. Qed.

Lemma bit_of_group0 c : cgs ufs0 !! Z.to_nat 0 = Some c -> cg_free c = [0xf0; 0xff].
Proof. by intros [= <-]. Qed.

Lemma free_sound_witness :
  exists u', free p0 ufs0 (0 * fs_fpg p0 + (fs_frag p0 * 0 + 1)) (3 * 2 ^ fs_fshift p0) = Ok u' /\
    ufs_wf p0 2 u' /\
    if b_error ufs0 (Z.to_nat 0) then u' = ufs0
    else exists m m', only_group ufs0 u' 0 m m' /\ put_range m m' (fs_frag p0 * 0 + 1) 3 true.
Proof.
  apply (free_sound p0 2 ufs0 0 0 1 3); [apply ufs0_wf|reflexivity|simpl; lia..|].
  intros c j Hc Hj. rewrite (bit_of_group0 c Hc). simpl in Hj. pick_Z j 4; first [exfalso; lia|reflexivity].
Defined.

Lemma fragextend_sound_witness :
  let a := 0 * fs_fpg p0 + (fs_frag p0 * 0 + 2) in
  exists u' r, fragextend p0 ufs0 0 a (2 * 2 ^ fs_fshift p0) (5 * 2 ^ fs_fshift p0) = Ok (u', r) /\
    ufs_wf p0 2 u' /\ exists m m', only_group ufs0 u' 0 m m' /\
      (r = 0 /\ m' = m \/
       r = a /\ (forall j, fs_frag p0 * 0 + 2 + 2 <= j < fs_frag p0 * 0 + 2 + 5 -> bit m j = true) /\
         put_range m m' (fs_frag p0 * 0 + 2 + 2) (5 - 2) false).
Proof.
  apply (fragextend_sound p0 2 ufs0 0 0 2 2 5); [apply ufs0_wf|simpl; lia..|].
  intros c Hc. rewrite (bit_of_group0 c Hc). reflexivity.
Defined.

Example fragextend_extends :
  (r ← fragextend p0 ufs0 0 2 (2 * 2 ^ fs_fshift p0) (5 * 2 ^ fs_fshift p0);
   mret (r.2, cg_free <$> head (cgs r.1), cg_frsum <$> head (cgs r.1)))
  = Ok (2, Some [0x80; 0xff], Some [0; 1; 0; 0; 0; 0; 0; 0]).
Proof. reflexivity. Qed.
