(* ===== verification/UfsPolicy.v ===== *)
(** * The overflow policy: hashalloc() finds space whenever a group has it

    hashalloc() is proved against an interface of its allocator: a state invariant, and what
    a failed try establishes of a group.  alloccg() is an instance. *)

From S2P Require Import Prelude Ufs UfsBits UfsFrag UfsSearch UfsAlloc UfsThms UfsWitness.
From stdpp Require Import prelude list numbers strings.
From Stdlib Require Import ZArith Lia.

Local Open Scope Z_scope.
Local Open Scope kern_scope.

(** What hashalloc() relies on: from a state with [Inv] the allocator returns on any group of
    the file system; a failure keeps [Inv], establishes [Tried] of the group and keeps it of
    the others. *)
Class Allocator {S : Type} (p : fsp) (allocator : S -> Z -> Z -> Z -> res (S * Z)) (size : Z)
  (Inv : S -> Prop) (Tried : Z -> S -> Prop) := {
  alloc_total : forall s c pref, Inv s -> 0 <= c < fs_ncg p -> 0 <= pref ->
    exists s' r, allocator s c pref size = Ok (s', r) /\
      (r = 0 -> Inv s' /\ Tried c s' /\ forall j, Tried j s -> Tried j s')
}.

Section Hashalloc.
Context {S : Type} (p : fsp) (allocator : S -> Z -> Z -> Z -> res (S * Z)) (size : Z).
Context (Inv : S -> Prop) (Tried : Z -> S -> Prop).
Context {Ha : Allocator p allocator size Inv Tried}.

(** A call of the allocator that succeeded, from a state with the invariant. *)
Definition granted (s' : S) (r : Z) : Prop :=
  exists s c pref, Inv s /\ 0 <= c < fs_ncg p /\ 0 <= pref /\ allocator s c pref size = Ok (s', r).

(** The outcome of a series of tries that started in [s]. *)
Definition outcome (s : S) (done : Z -> Prop) (res : res (S * Z)) : Prop :=
  exists s' r, res = Ok (s', r) /\
    (r = 0 -> Inv s' /\ (forall j, Tried j s -> Tried j s') /\ forall j, done j -> Tried j s') /\
    (r <> 0 -> granted s' r).

Lemma outcome_none s : Inv s -> outcome s (fun _ => False) (mret (s, 0)).
Proof. intros Hi. exists s, 0. split; [done|]. split; [|done]. intros _. split; [done|]. done. Qed.

(** One try, and the rest of the series if it fails. *)
Lemma outcome_try s c pref (done done' : Z -> Prop) (rest : S -> res (S * Z)) :
  Inv s -> 0 <= c < fs_ncg p -> 0 <= pref ->
  (forall s', Inv s' -> outcome s' done' (rest s')) ->
  (forall j, done j -> j = c \/ done' j) ->
  outcome s done ('(s', r) ← allocator s c pref size; if r =? 0 then rest s' else mret (s', r)).
Proof.
  intros Hi Hc Hp Hrest Hd. destruct (alloc_total s c pref Hi Hc Hp) as (s1 & r1 & E & H0).
  rewrite E. kstep. destruct (Z.eqb_spec r1 0) as [->|Hr].
  - destruct (H0 eq_refl) as (Hi1 & Ht1 & Hk1).
    destruct (Hrest s1 Hi1) as (s2 & r2 & -> & H2 & H3). exists s2, r2. split; [done|]. split; [|done].
    intros E2. destruct (H2 E2) as (Hi2 & Hk2 & Hd2). split; [done|]. split; [eauto|].
    intros j Hj. destruct (Hd j Hj) as [->|]; eauto.
  - exists s1, r1. split; [done|]. split; [done|]. intros _. exists s, c, pref. done.
Qed.

(** The quadratic rehash tries at least the group behind the requested one. *)
Lemma rehash_outcome fuel : forall s c i, Inv s -> 0 <= c < fs_ncg p -> 0 < i ->
  fs_ncg p <= i * 2 ^ (Z.of_nat fuel - 1) -> (0 < fuel)%nat ->
  outcome s (fun j => i < fs_ncg p /\ j = (c + i) mod fs_ncg p) (ha_rehash p allocator fuel s c i size).
Proof.
  induction fuel as [|n IH]; intros s c i Hi Hc Hi0 Hf Hfu; [lia|]. cbn [ha_rehash].
  destruct (Z.leb_spec (fs_ncg p) i).
  { destruct (outcome_none s Hi) as (s' & r & E & H1 & H2). exists s', r. split; [done|].
    split; [|done]. intros E0. destruct (H1 E0) as (? & ? & _). split; [done|]. split; [done|]. lia. }
  set (c2 := if fs_ncg p <=? c + i then c + i - fs_ncg p else c + i).
  assert (0 <= c2 < fs_ncg p /\ c2 = (c + i) mod fs_ncg p) as [Hc2 Ec2].
  { unfold c2. destruct (Z.leb_spec (fs_ncg p) (c + i)).
    - split; [lia|]. rewrite <- (Z.mod_small (c + i - fs_ncg p) (fs_ncg p)) by lia.
      rewrite <- (Z.mod_add (c + i - fs_ncg p) 1) by lia. f_equal. lia.
    - split; [lia|]. by rewrite Z.mod_small by lia. }
  destruct n as [|n]; [simpl in Hf; lia|].
  eapply (outcome_try s c2 0 _ (fun j => i * 2 < fs_ncg p /\ j = (c2 + i * 2) mod fs_ncg p)); try done.
  - intros s' Hi'. apply IH; [done|done|lia| |lia].
    replace (Z.of_nat (Datatypes.S (Datatypes.S n)) - 1) with (Z.succ (Z.of_nat n)) in Hf by lia.
    rewrite Z.pow_succ_r in Hf by lia.
    replace (Z.of_nat (Datatypes.S n) - 1) with (Z.of_nat n) by lia. lia.
  - intros j [_ ->]. by left.
Qed.

(** The brute force search tries [n] groups in order from [c]. *)
Lemma brute_outcome fuel : forall s c i, Inv s -> 0 <= c < fs_ncg p -> 2 <= i ->
  (Z.to_nat (fs_ncg p - i) < fuel)%nat ->
  outcome s (fun j => exists k, 0 <= k < fs_ncg p - i /\ j = (c + k) mod fs_ncg p)
          (ha_brute p allocator fuel s c i size).
Proof.
  induction fuel as [|n IH]; intros s c i Hi Hc Hi0 Hf; [lia|]. cbn [ha_brute].
  destruct (Z.leb_spec (fs_ncg p) i).
  { destruct (outcome_none s Hi) as (s' & r & E & H1 & H2). exists s', r. split; [done|].
    split; [|done]. intros E0. destruct (H1 E0) as (? & ? & _). split; [done|]. split; [done|].
    intros j (k & ? & _). lia. }
  set (c2 := if c + 1 =? fs_ncg p then 0 else c + 1).
  assert (0 <= c2 < fs_ncg p /\ forall k, (c2 + k) mod fs_ncg p = (c + (k + 1)) mod fs_ncg p) as [Hc2 Ec2].
  { unfold c2. destruct (Z.eqb_spec (c + 1) (fs_ncg p)).
    - split; [lia|]. intros k. replace (c + (k + 1)) with (0 + k + 1 * fs_ncg p) by lia.
      by rewrite Z.mod_add by lia.
    - split; [lia|]. intros k. f_equal. lia. }
  eapply (outcome_try s c 0 _ (fun j => exists k, 0 <= k < fs_ncg p - (i + 1) /\ j = (c2 + k) mod fs_ncg p)); try done.
  - intros s' Hi'. apply IH; [done|done|lia|lia].
  - intros j (k & Hk & ->). destruct (decide (k = 0)) as [->|].
    + left. rewrite Z.add_0_r. by apply Z.mod_small.
    + right. exists (k - 1). split; [lia|]. rewrite Ec2. f_equal. lia.
Qed.

(** A failure of hashalloc() means that every group has been tried. *)
Lemma hashalloc_outcome s icg pref : Inv s -> 0 <= icg < fs_ncg p -> 0 <= pref ->
  fs_ncg p < 2 ^ 31 ->
  outcome s (fun j => 0 <= j < fs_ncg p) (hashalloc p allocator s icg pref size).
Proof.
  intros Hi Hc Hp Hn. unfold hashalloc.
  assert (0 <= Z.rem (icg + 2) (fs_ncg p) < fs_ncg p) as Hrem by (apply Z.rem_bound_pos; lia).
  destruct (alloc_total s icg pref Hi Hc Hp) as (s1 & r1 & E & H0). rewrite E. kstep.
  destruct (Z.eqb_spec r1 0) as [->|Hr]; simpl negb; cbn iota.
  2: { exists s1, r1. split; [done|]. split; [done|]. intros _. exists s, icg, pref. done. }
  destruct (H0 eq_refl) as (Hi1 & Ht1 & Hk1).
  destruct (rehash_outcome 33 s1 icg 1 Hi1 Hc) as (s2 & r2 & -> & H2 & H3); [lia|simpl; lia|lia|]. kstep.
  destruct (Z.eqb_spec r2 0) as [->|Hr]; simpl negb; cbn iota.
  2: { exists s2, r2. split; [done|]. split; [done|]. auto. }
  destruct (H2 eq_refl) as (Hi2 & Hk2 & Hd2).
  destruct (brute_outcome (Datatypes.S (Z.to_nat (fs_ncg p))) s2 _ 2 Hi2 Hrem) as (s3 & r3 & -> & H4 & H5);
    [lia|lia|].
  exists s3, r3. split; [done|]. split; [|done]. intros E3. destruct (H4 E3) as (Hi3 & Hk3 & Hd3).
  split; [done|]. split; [eauto|]. intros j Hj.
  (* the distance of [j] from the requested group *)
  set (k := (j - icg) mod fs_ncg p).
  assert (0 <= k < fs_ncg p) as Hk by (apply Z.mod_pos_bound; lia).
  assert (j = (icg + k) mod fs_ncg p) as Ej.
  { unfold k. rewrite Zplus_mod_idemp_r. replace (icg + (j - icg)) with j by lia. by rewrite Z.mod_small. }
  destruct (decide (k = 0)) as [E0|]; [|destruct (decide (k = 1)) as [E1|]].
  - apply Hk3, Hk2. rewrite Ej, E0, Z.add_0_r, Z.mod_small by lia. done.
  - apply Hk3, Hd2. split; [lia|]. by rewrite Ej, E1.
  - apply Hd3. exists (k - 2). split; [lia|]. rewrite Z.rem_mod_nonneg by lia.
    rewrite Zplus_mod_idemp_l, Ej. f_equal. lia.
Qed.
End Hashalloc.

(** ** alloccg() under hashalloc() *)

(** No map differs between two states. *)
Definition same_maps (u u' : ufs) : Prop :=
  b_error u' = b_error u /\ forall j, cg_free <$> cgs u' !! j = cg_free <$> cgs u !! j.

(** Group [j] cannot be read, or has no run of [n] fragments. *)
Definition no_room (p : fsp) (nb n : Z) (j : Z) (u : ufs) : Prop :=
  b_error u (Z.to_nat j) = true \/
  forall m, cg_free <$> cgs u !! Z.to_nat j = Some m ->
    forall h t, 0 <= h < nb -> n <= t <= fs_frag p -> runs (fs_frag p) (blk (fs_frag p) m h) t = 0.

Lemma grants_same p nb u u' i n : grants p nb u u' i n 0 -> same_maps u u' /\ no_room p nb n i u'.
Proof.
  intros (m & m' & (Eb & (c & Hc & Em) & (c' & Hc' & Em') & Ho) & [(_ & -> & Hno)|[? _]]); [|done].
  split.
  - split; [done|]. intros j. destruct (decide (j = Z.to_nat i)) as [->|]; [|by rewrite Ho].
    rewrite Hc, Hc'. simpl. congruence.
  - unfold no_room. rewrite Eb, Hc'. simpl. destruct Hno as [|Hno]; [by left|right].
    intros m0 [= <-]. by rewrite Em'.
Qed.

Lemma same_maps_trans u u1 u2 : same_maps u u1 -> same_maps u1 u2 -> same_maps u u2.
Proof. intros [E1 H1] [E2 H2]. split; [congruence|]. intros j. by rewrite H2, H1. Qed.

Lemma no_room_same p nb n j u u' : same_maps u u' -> no_room p nb n j u -> no_room p nb n j u'.
Proof. intros [E H]. unfold no_room. by rewrite E, H. Qed.

Section BlockAlloc.
Context (p : fsp) (nb n : Z) (u0 : ufs).
Hypothesis Hn : 1 <= n <= fs_frag p.

#[local] Instance alloccg_allocator :
  Allocator p (alloccg p) (n * 2 ^ fs_fshift p) (fun u => ufs_wf p nb u /\ same_maps u0 u) (no_room p nb n).
Proof.
  constructor. intros u c pref [Hw Hs] Hc Hp.
  destruct (alloccg_Ok p nb u c pref n Hw Hc Hp Hn) as (u' & r & E & Hw' & Hgr).
  exists u', r. split; [done|]. intros ->. apply grants_same in Hgr as [Hs' Hno].
  split; [split; [done|by eapply same_maps_trans]|]. split; [done|]. intros j. by apply no_room_same.
Qed.

Lemma hashalloc_alloccg icg bpref : ufs_wf p nb u0 -> 0 <= icg < fs_ncg p -> 0 <= bpref ->
  fs_ncg p < 2 ^ 31 ->
  exists u' r, hashalloc p (alloccg p) u0 icg bpref (n * 2 ^ fs_fshift p) = Ok (u', r) /\
    ufs_wf p nb u' /\
    (r = 0 /\ same_maps u0 u' /\ (forall j, 0 <= j < fs_ncg p -> no_room p nb n j u0) \/
     exists u1 j, same_maps u0 u1 /\ 0 <= j < fs_ncg p /\ r <> 0 /\ grants p nb u1 u' j n r).
Proof.
  intros Hw Hi Hb Hncg.
  destruct (hashalloc_outcome p (alloccg p) (n * 2 ^ fs_fshift p) (fun u => ufs_wf p nb u /\ same_maps u0 u)
    (no_room p nb n) u0 icg bpref) as (u' & r & E & H0 & H1); [split; [done|by split]|done|done|done|].
  exists u', r. split; [done|]. destruct (decide (r = 0)) as [Er|Er].
  - destruct (H0 Er) as ((Hw' & Hs) & _ & Ht). split; [done|]. left. split; [done|]. split; [done|].
    intros j Hj. apply (no_room_same p nb n j u' u0); [|by apply Ht].
    destruct Hs as [E1 E2]. split; [done|]. intros k. by rewrite E2.
  - destruct (H1 Er) as (u1 & j & pref & (Hw1 & Hs1) & Hj & Hp & E1).
    destruct (alloccg_Ok p nb u1 j pref n Hw1 Hj Hp Hn) as (u2 & r2 & E2 & Hw2 & Hgr).
    rewrite E1 in E2. injection E2 as <- <-. split; [done|]. right. exists u1, j. done.
Qed.
End BlockAlloc.

(** C40: hashalloc() over alloccg() fails only when the file system is full: it returns, without
    a panic and in a well-formed file system, either 0 with no map changed, and then no group
    that can be read has [n] free fragments in one block, or the address of fragments granted
    in one of the groups while no other map has changed.  The quadratic rehash and the brute
    force search together reach every group, whatever the number of groups. *)
Theorem hashalloc_exhaustive p nb n u icg bpref :
  ufs_wf p nb u -> 1 <= n <= fs_frag p -> 0 <= icg < fs_ncg p -> 0 <= bpref -> fs_ncg p < 2 ^ 31 ->
  exists u' r, hashalloc p (alloccg p) u icg bpref (n * 2 ^ fs_fshift p) = Ok (u', r) /\
    ufs_wf p nb u' /\
    (r = 0 /\ same_maps u u' /\ (forall j, 0 <= j < fs_ncg p -> no_room p nb n j u) \/
     exists u1 j, same_maps u u1 /\ 0 <= j < fs_ncg p /\ r <> 0 /\ grants p nb u1 u' j n r).
Proof. intros Hw Hn. by apply hashalloc_alloccg. Qed.

Lemma hashalloc_exhaustive_witness :
  exists u' r, hashalloc p0 (alloccg p0) ufs0 0 8 (8 * 2 ^ fs_fshift p0) = Ok (u', r) /\
    ufs_wf p0 2 u' /\
    (r = 0 /\ same_maps ufs0 u' /\ (forall j, 0 <= j < fs_ncg p0 -> no_room p0 2 8 j ufs0) \/
     exists u1 j, same_maps ufs0 u1 /\ 0 <= j < fs_ncg p0 /\ r <> 0 /\ grants p0 2 u1 u' j 8 r).
Proof. apply (hashalloc_exhaustive p0 2 8 ufs0 0 8); [apply ufs0_wf|simpl; lia..]. Defined.

(** ** dirpref() and blkpref() *)

(** The group dirpref() chooses: it has at least the average of free inodes, and none of those
    has fewer directories. *)
Lemma dirpref_loop_spec l : forall c minndir mincg avg,
  let r := dirpref_loop l c minndir mincg avg in
  (r = mincg /\ forall x, x ∈ l -> avg <= cs_nifree x -> minndir <= cs_ndir x) \/
  exists k x, l !! k = Some x /\ r = c + Z.of_nat k /\ avg <= cs_nifree x /\ cs_ndir x < minndir /\
    forall y, y ∈ l -> avg <= cs_nifree y -> cs_ndir x <= cs_ndir y.
Proof.
  induction l as [|x l IH]; intros c minndir mincg avg; simpl.
  { left. split; [done|]. by intros y ?%elem_of_nil. }
  destruct ((cs_ndir x <? minndir) && (avg <=? cs_nifree x)) eqn:E.
  - apply andb_true_iff in E as [E1%Z.ltb_lt E2%Z.leb_le]. right.
    destruct (IH (c + 1) (cs_ndir x) c avg) as [[-> Hmin]|(k & y & Hy & -> & Hav & Hlt & Hmin)].
    + exists 0%nat, x. split; [done|]. split; [lia|]. split; [done|]. split; [done|].
      intros y [->|Hy]%elem_of_cons Ha; [lia|by apply Hmin].
    + exists (S k), y. split; [done|]. split; [lia|]. split; [done|]. split; [lia|].
      intros z [->|Hz]%elem_of_cons Ha; [lia|by apply Hmin].
  - destruct (IH (c + 1) minndir mincg avg) as [[-> Hmin]|(k & y & Hy & -> & Hav & Hlt & Hmin)].
    + left. split; [done|]. intros y [->|Hy]%elem_of_cons Ha; [|by apply Hmin].
      apply andb_false_iff in E as [E%Z.ltb_ge|E%Z.leb_gt]; lia.
    + right. exists (S k), y. split; [done|]. split; [lia|]. split; [done|]. split; [done|].
      intros z [->|Hz]%elem_of_cons Ha; [|by apply Hmin].
      apply andb_false_iff in E as [E%Z.ltb_ge|E%Z.leb_gt]; lia.
Qed.
