(* ===== verification/UfsInode.v ===== *)
(** * Inodes: ialloccg() and ifree()

    A set bit of cg_iused is an inode in use.  ialloccg() takes a free inode of the group, the
    preferred one if it is free, and ifree() gives one back; both keep the file system's
    accounting. *)

From S2P Require Import Prelude Ufs UfsBits UfsFrag UfsSearch UfsAlloc UfsThms UfsWitness.
From stdpp Require Import prelude list numbers strings.
From Stdlib Require Import ZArith Lia.

Local Open Scope Z_scope.
Local Open Scope kern_scope.

(** ** Scanning the map *)

Lemma skpc_spec ch n cp : (n <= length cp)%nat ->
  exists r, skpc ch n cp = Ok r /\
    ((r = 0 /\ forall i x, (i < n)%nat -> cp !! i = Some x -> x = ch) \/
     exists i x, (i < n)%nat /\ r = Z.of_nat (n - i) /\ cp !! i = Some x /\ x <> ch).
Proof.
  revert cp. induction n as [|n IH]; intros cp Hn; simpl.
  - exists 0. split; [done|]. left. split; [done|]. intros; lia.
  - destruct cp as [|c cp]; simpl in Hn; [lia|]. destruct (Z.eqb_spec c ch) as [->|Hne].
    + destruct (IH cp ltac:(lia)) as (r & -> & Hr). exists r. split; [done|].
      destruct Hr as [[-> Hr]|(i & x & Hi & -> & Hx & Hp)].
      * left. split; [done|]. intros [|i] x Hi Hx; simpl in Hx; [by simplify_eq|]. apply (Hr i); [lia|done].
      * right. exists (S i), x. split; [lia|]. done.
    + exists (Z.of_nat (S n)). split; [done|]. right. exists 0%nat, c. split; [lia|]. by rewrite Nat.sub_0_r.
Qed.

(** The first clear bit of a byte. *)
Definition clear_check (b : Z) : bool :=
  match clear_bit 8 b 1 0 with
  | Some j => (0 <=? j) && (j <? 8) && negb (Z.testbit b j)
  | None => b =? 0xff
  end.

Lemma clear_all : upto 0 256 clear_check = true.
Proof. vm_compute. reflexivity. Qed.

Lemma clear_bit_shift fuel b j x : clear_bit fuel b j x = (fun y => y + x) <$> clear_bit fuel b j 0.
Proof.
  revert j x. induction fuel as [|n IH]; intros j x; simpl; [done|]. destruct (_ =? 0); [done|].
  rewrite (IH _ (x + 1)), (IH _ 1). destruct (clear_bit n b _ 0); simpl; [f_equal; lia|done].
Qed.

Lemma clear_bit_spec b x : byte_ok b -> b <> 0xff ->
  exists j, clear_bit 8 b 1 x = Some (x + j) /\ 0 <= j < 8 /\ Z.testbit b j = false.
Proof.
  intros Hb Hne. pose proof (upto_spec _ _ _ clear_all b Hb) as H. unfold clear_check in H.
  rewrite clear_bit_shift. destruct (clear_bit 8 b 1 0) as [j|].
  - rewrite !andb_true_iff, negb_true_iff, Z.leb_le, Z.ltb_lt in H. exists j. simpl.
    split; [f_equal; lia|]. done.
  - by apply Z.eqb_eq in H.
Qed.

Section Inodes.
Context (p : fsp) (nb : Z).
Local Abbreviation ipg := (fs_ipg p).

(** A byte with a clear bit, when some inode of the group is free. *)
Lemma free_byte c k : ino_wf p c -> 0 <= k < ipg -> bit (cg_iused c) k = false ->
  exists b, cg_iused c !! Z.to_nat (k / 8) = Some b /\ b <> 0xff.
Proof.
  intros Hw Hk Hb. destruct (i_ipg _ _ Hw) as (_ & _ & Hs).
  pose proof (bit_index (cg_iused c) k ltac:(lia)) as Hi.
  destruct (rdz_lt (cg_iused c) (k / 8) Hi) as (b & _ & Hlb). exists b. split; [done|].
  intros ->. unfold bit in Hb. rewrite Hlb in Hb. pose proof (bit_div k ltac:(lia)) as (_ & _ & Hm).
  change 255 with (Z.ones 8) in Hb. rewrite Z.testbit_ones_nonneg in Hb by lia.
  apply Z.ltb_ge in Hb. lia.
Qed.

(** The choice of an inode when one is free. *)
Lemma pick_inode_spec c ipref k0 : ino_wf p c -> 0 <= ipref -> 0 <= k0 < ipg ->
  bit (cg_iused c) k0 = false ->
  exists x k, pick_inode p c ipref = Ok (set_irotor c x, k) /\ 0 <= x < ipg /\ 0 <= k < ipg /\
    bit (cg_iused c) k = false /\
    (ipref <> 0 -> bit (cg_iused c) (ipref mod ipg) = false -> k = ipref mod ipg).
Proof.
  intros Hw Hip Hk0 Hb0. destruct (i_ipg _ _ Hw) as (Hpos & Hm8 & Hs). pose proof (i_rotor _ _ Hw) as Hro.
  unfold pick_inode. rewrite Z.rem_mod_nonneg by lia.
  pose proof (Z.mod_pos_bound ipref ipg ltac:(lia)) as Hpm.
  assert ((if ipref =? 0 then mret true else isset (cg_iused c) (ipref mod ipg))
    = Ok (if ipref =? 0 then true else bit (cg_iused c) (ipref mod ipg))) as ->.
  { destruct (ipref =? 0); [done|]. by rewrite isset_Ok by lia. }
  kstep. destruct (if ipref =? 0 then true else _) eqn:Eu; simpl.
  2: { destruct (Z.eqb_spec ipref 0); [done|]. exists (cg_irotor c), (ipref mod ipg).
       split; [by destruct c|]. done. }
  assert (forall k, 0 <= k < ipg -> bit (cg_iused c) k = false ->
    ipref <> 0 -> bit (cg_iused c) (ipref mod ipg) = false -> k = ipref mod ipg) as Hpref.
  { intros k _ _ Hne Hf. destruct (Z.eqb_spec ipref 0); [done|]. congruence. }
  (* the search from the rotor *)
  assert (forall i b, 0 <= i -> 8 * i < ipg -> cg_iused c !! Z.to_nat i = Some b -> b <> 0xff ->
    exists x k, (map ← rdz (cg_iused c) i;
       match clear_bit 8 map 1 (i * NBBY) with
       | Some ino => mret (set_irotor c ino, ino)
       | None => Panic "ialloccg: block not in map"
       end) = Ok (set_irotor c x, k) /\ 0 <= x < ipg /\ 0 <= k < ipg /\ bit (cg_iused c) k = false /\
       (ipref <> 0 -> bit (cg_iused c) (ipref mod ipg) = false -> k = ipref mod ipg)) as Hpick.
  { intros i b Hi Hi8 Hlb Hbne. rewrite (proj2 (rdz_Ok _ _ _) (conj Hi Hlb)). kstep.
    destruct (clear_bit_spec b (i * NBBY)) as (j & -> & Hj & Hbj); [|done|].
    { by eapply (Forall_lookup_1 _ _ _ _ (i_bytes _ _ Hw)). }
    unfold NBBY in *. assert (i * 8 + j < ipg) by (Z.to_euclidean_division_equations; lia).
    assert (bit (cg_iused c) (i * 8 + j) = false) as Hkb.
    { unfold bit. replace (i * 8 + j) with (j + i * 8) by lia.
      rewrite Z.div_add, Z.mod_add, Z.div_small, Z.mod_small by lia.
      rewrite Z.add_0_l. by rewrite Hlb. }
    exists (i * 8 + j), (i * 8 + j). split; [done|]. split; [lia|]. split; [lia|]. split; [done|].
    apply Hpref; [lia|done]. }
  rewrite Z.quot_div_nonneg by (unfold NBBY; lia). change NBBY with 8 in *.
  set (start := cg_irotor c / 8).
  assert (0 <= start /\ howmany (ipg - cg_irotor c) 8 = ipg / 8 - start /\ start < ipg / 8) as (Hst & Ehm & Hst8).
  { unfold start, howmany. rewrite Z.quot_div_nonneg by lia. Z.to_euclidean_division_equations. lia. }
  assert (ipg / 8 <= 8191 /\ ipg = 8 * (ipg / 8)) as [H16 E8] by (Z.to_euclidean_division_equations; lia).
  unfold size_in_bits in Hs. rewrite Ehm. rewrite !wrapu_small by lia.
  destruct (free_byte c k0 Hw Hk0 Hb0) as (b0 & Hlb0 & Hb0ne).
  assert (k0 / 8 < ipg / 8) as Hk08 by (apply Z.div_lt_upper_bound; lia).
  destruct (skpc_spec 0xff (Z.to_nat (ipg / 8 - start)) (drop (Z.to_nat start) (cg_iused c)))
    as (r & -> & Hr); [rewrite length_drop; lia|]. kstep.
  destruct Hr as [[-> Hall]|(i & x & Hi & -> & Hx & Hxne)].
  - simpl. destruct (skpc_spec 0xff (Z.to_nat (start + 1)) (cg_iused c)) as (r2 & -> & Hr2); [lia|]. kstep.
    destruct Hr2 as [[-> Hall2]|(i & x & Hi & -> & Hx & Hxne)].
    + exfalso. destruct (Z.lt_ge_cases (k0 / 8) start).
      * apply Hb0ne. apply (Hall2 (Z.to_nat (k0 / 8))); [lia|done].
      * apply Hb0ne. apply (Hall (Z.to_nat (k0 / 8 - start))); [lia|]. rewrite lookup_drop.
        replace (Z.to_nat start + Z.to_nat (k0 / 8 - start))%nat with (Z.to_nat (k0 / 8)) by lia. done.
    + destruct (Z.eqb_spec (Z.of_nat (Z.to_nat (start + 1) - i)) 0); [lia|]. kstep.
      replace (0 + (start + 1) - Z.of_nat (Z.to_nat (start + 1) - i)) with (Z.of_nat i) by lia.
      apply (Hpick (Z.of_nat i) x); [lia|lia|by rewrite Nat2Z.id|done].
  - destruct (Z.eqb_spec (Z.of_nat (Z.to_nat (ipg / 8 - start) - i)) 0); [lia|]. kstep.
    replace (start + (ipg / 8 - start) - Z.of_nat (Z.to_nat (ipg / 8 - start) - i)) with (start + Z.of_nat i) by lia.
    rewrite lookup_drop in Hx.
    apply (Hpick (start + Z.of_nat i) x); [lia|lia| |done].
    by replace (Z.to_nat (start + Z.of_nat i)) with (Z.to_nat start + i)%nat by lia.
Qed.

(** ** Accounting *)

Lemma cg_wf_ino c c' : cg_free c' = cg_free c -> cg_frsum c' = cg_frsum c -> cg_b c' = cg_b c ->
  cg_btot c' = cg_btot c -> cg_rotor c' = cg_rotor c -> cg_frotor c' = cg_frotor c ->
  cg_cgx c' = cg_cgx c -> cs_nffree (cg_cs c') = cs_nffree (cg_cs c) ->
  cs_nbfree (cg_cs c') = cs_nbfree (cg_cs c) -> cg_wf p nb c -> cg_wf p nb c'.
Proof.
  intros E1 E2 E3 E4 E5 E6 E7 E8 E9 [H1 H2 H3 H4 H5 H6 H7 H8 H9].
  constructor; rewrite ?E1, ?E2, ?E3, ?E4, ?E5, ?E6, ?E7, ?E8, ?E9; try done.
  by eapply (cyl_wf_ext p nb c).
Qed.

(** The inode map with inode [k] marked [v]. *)
Definition marks (m m' : list Z) (k : Z) (v : bool) : Prop :=
  agree m m' (fun j => if decide (j = k) then v else bit m j).

Lemma ino_wf_mark c c' k v d : ino_wf p c -> 0 <= k < ipg -> bit (cg_iused c) k = negb v ->
  marks (cg_iused c) (cg_iused c') k v -> d = (if v then -1 else 1) ->
  cs_nifree (cg_cs c') = cs_nifree (cg_cs c) + d -> 0 <= cg_irotor c' < ipg ->
  cg_cgx c' = cg_cgx c -> (v = false -> cg_cgx c = 0 -> k <> 0) -> ino_wf p c'.
Proof.
  intros [H1 H2 H3 H4 H5] Hk Hb (Hl & Hby & Hm) Ed En Hr Ex Hk0. constructor.
  - auto.
  - unfold size_in_bits in *. by rewrite Hl.
  - done.
  - rewrite En, H4. unfold ifree_count. symmetry.
    rewrite (bsum_upd ipg (fun j => one (negb (bit (cg_iused c) j))) _ k Hk).
    + rewrite Hm by lia. rewrite decide_True by done. rewrite Hb, Ed. destruct v; simpl; lia.
    + intros j Hj Hne. rewrite Hm by lia. by rewrite decide_False.
  - rewrite Ex. intros E. rewrite Hm by lia. case_decide as E0; [|by apply H5].
    destruct v; [done|]. exfalso. by apply Hk0.
Qed.

Lemma setbit_marks m k : 0 <= k < size_in_bits m -> exists m', setbit m k = Ok m' /\ marks m m' k true.
Proof.
  intros H. destruct (setbit_Ok m k H) as (m' & E & Ha). exists m'. split; [done|].
  eapply agree_ext; [|exact Ha]. intros j _. simpl. by destruct (Z.eqb_spec j k), (decide (j = k)).
Qed.

Lemma clrbit_marks m k : 0 <= k < size_in_bits m -> exists m', clrbit m k = Ok m' /\ marks m m' k false.
Proof.
  intros H. destruct (clrbit_Ok m k H) as (m' & E & Ha). exists m'. split; [done|].
  eapply agree_ext; [|exact Ha]. intros j _. simpl. by destruct (Z.eqb_spec j k), (decide (j = k)).
Qed.

(** Group [i] changes in its inode map alone: inode [k] becomes used or free, and a directory
    is counted. *)
Definition inode_change (u u' : ufs) (i k : Z) (v dir : bool) : Prop :=
  exists c c', cgs u !! Z.to_nat i = Some c /\ cgs u' !! Z.to_nat i = Some c' /\
    bit (cg_iused c) k = negb v /\ marks (cg_iused c) (cg_iused c') k v /\ cg_free c' = cg_free c /\
    cs_ndir (cg_cs c') = cs_ndir (cg_cs c) + (if dir then if v then 1 else -1 else 0) /\
    forall j, j <> Z.to_nat i -> cgs u' !! j = cgs u !! j.

Lemma count_free c : ino_wf p c -> cs_nifree (cg_cs c) <> 0 ->
  exists k, 0 <= k < ipg /\ bit (cg_iused c) k = false.
Proof.
  intros Hw Hn. rewrite (i_count _ _ Hw) in Hn. unfold ifree_count in Hn.
  assert (forall k, 0 <= k < ipg -> 0 <= one (negb (bit (cg_iused c) k))) as H0
    by (intros; apply one_range).
  destruct (bsum_pos ipg (fun k => one (negb (bit (cg_iused c) k))) H0) as (k & Hk & Hp).
  { pose proof (bsum_nonneg ipg (fun k => one (negb (bit (cg_iused c) k))) H0). lia. }
  exists k. split; [done|]. apply one_true in Hp. by apply negb_true_iff.
Qed.

Lemma count_none c : ino_wf p c -> cs_nifree (cg_cs c) = 0 ->
  forall k, 0 <= k < ipg -> bit (cg_iused c) k = true.
Proof.
  intros Hw Hn k Hk. rewrite (i_count _ _ Hw) in Hn. unfold ifree_count in Hn.
  assert (forall k, 0 <= k < ipg -> 0 <= one (negb (bit (cg_iused c) k))) as H0
    by (intros; apply one_range).
  pose proof (bsum_ge ipg (fun k => one (negb (bit (cg_iused c) k))) k H0 Hk) as Hge. simpl in Hge.
  destruct (bit (cg_iused c) k); [done|]. simpl in Hge. lia.
Qed.

Definition is_dir (mode : Z) : bool := Z.land mode IFMT =? IFDIR.

(** Writing back a group whose inode map, counts and rotor have changed. *)
Lemma inode_put u i c s' c' (k : Z) (v dir : bool) : ufs_wf p nb u -> 0 <= i -> cgs u !! Z.to_nat i = Some c ->
  cg_wf p nb c' -> ino_wf p c' -> posted i (u_fs u) c s' c' -> cg_cgx c' = cg_cgx c ->
  cg_magic c' = cg_magic c -> bit (cg_iused c) k = negb v -> marks (cg_iused c) (cg_iused c') k v ->
  cg_free c' = cg_free c ->
  cs_ndir (cg_cs c') = cs_ndir (cg_cs c) + (if dir then if v then 1 else -1 else 0) ->
  exists u', put_cg u i s' c' = Ok u' /\ ufs_wf p nb u' /\ inode_change u u' i k v dir.
Proof.
  intros Hw Hi Hc Hcw Hiw Hpost Hx Hm Hb Hmk Hf Hd.
  destruct (uw_cg _ _ _ Hw _ _ Hc) as (_ & _ & Hcx & Hmag & _).
  destruct (put_cg_wf p nb u Hw i c s' c') as (u' & E & Hw' & Ecgs & _);
    [done|done|done|done|done|lia|congruence|].
  exists u'. split; [done|]. split; [done|]. exists c, c'. split; [done|].
  rewrite Ecgs. split; [apply list_lookup_insert_eq; by eapply lookup_lt_Some|].
  split; [done|]. split; [done|]. split; [done|]. split; [done|].
  intros j Hj. by apply list_lookup_insert_ne.
Qed.

(** Counting a directory. *)
Lemma account_dir b d s c i : linked s c i ->
  exists s' c', (if b : bool then account (add_ndir d) s c i else mret (s, c)) = Ok (s', c') /\
    posted i s c s' c' /\ c' = set_cs c (add_ndir (if b then d else 0) (cg_cs c)).
Proof.
  intros Hl. destruct b.
  - destruct (account_spec (add_ndir d) s c i) as (s' & -> & Hp); [constructor|done|].
    by exists s', (set_cs c (add_ndir d (cg_cs c))).
  - exists s, c. split; [done|]. split; [by apply posted_refl|].
    destruct c as [? ? ? [] ? ? ? ? ? ? ? ?]. unfold set_cs, add_ndir. simpl. by rewrite Z.add_0_r.
Qed.

(** The counts of a change of one inode, posted. *)
Lemma account_inode b d e s c i : linked s c i ->
  exists s1 c1 s2 c2, account (add_nifree d) s c i = Ok (s1, c1) /\
    (if b : bool then account (add_ndir e) s1 c1 i else mret (s1, c1)) = Ok (s2, c2) /\
    (if b : bool then account (add_ndir e) (fmod s1) c1 i else mret (fmod s1, c1)) = Ok (fmod s2, c2) /\
    posted i s c s2 c2 /\ c2 = set_cs c (add_ndir (if b then e else 0) (add_nifree d (cg_cs c))).
Proof.
  intros Hl. destruct (account_spec (add_nifree d) s c i) as (s1 & E1 & Hp1); [constructor|done|].
  destruct (account_dir b e s1 (set_cs c (add_nifree d (cg_cs c))) i) as (s2 & c2 & E2 & Hp2 & Ec2);
    [by eapply posted_linked|].
  exists s1, (set_cs c (add_nifree d (cg_cs c))), s2, c2. split; [done|]. split; [done|].
  split; [|split; [by eapply posted_trans|done]].
  destruct b; [|by injection E2 as -> ->]. unfold account in *. simpl in *.
  destruct (rdz (fs_cs s1) i); [|done..]. simpl in *. destruct (wrz (fs_cs s1) i _); [|done..].
  by injection E2 as <- <-.
Qed.
End Inodes.

(** ** The two operations *)

(** C39: ialloccg() in a well-formed file system returns in a well-formed one.  It returns 0 and
    changes nothing when the group cannot be read or has no free inode; otherwise the non-zero
    number of an inode of the group that was free and is now used, the preferred one if that
    was free, with the directory count following the mode. *)
Theorem ialloccg_sound p nb u i ipref mode : ufs_wf p nb u -> 0 <= i < fs_ncg p -> 0 <= ipref ->
  exists u' r, ialloccg p u i ipref mode = Ok (u', r) /\ ufs_wf p nb u' /\
    if b_error u (Z.to_nat i) then r = 0 /\ u' = u
    else
    (r = 0 /\ u' = u /\ (forall c k, cgs u !! Z.to_nat i = Some c -> 0 <= k < fs_ipg p -> bit (cg_iused c) k = true) \/
     r <> 0 /\ exists k, r = i * fs_ipg p + k /\ 0 <= k < fs_ipg p /\
       inode_change u u' i k true (is_dir mode) /\
       (forall c, cgs u !! Z.to_nat i = Some c -> ipref <> 0 ->
          bit (cg_iused c) (ipref mod fs_ipg p) = false -> k = ipref mod fs_ipg p)).
Proof.
  intros Hw Hi Hip. destruct (group_at p nb u Hw i Hi) as (c & Hc & _ & Hl & Hx).
  destruct (uw_cg _ _ _ Hw _ _ Hc) as (Hcw & Hiw & _ & Hmag & _).
  unfold ialloccg. pose proof Hl as Hl'. unfold linked in Hl'. rewrite Hl'. kstep.
  destruct (Z.eqb_spec (cs_nifree (cg_cs c)) 0) as [E0|Hn0].
  { exists u, 0. split; [done|]. split; [done|]. destruct (b_error u (Z.to_nat i)); [done|]. left. split; [done|]. split; [done|].
    intros c' k Hc' Hk. simplify_eq. by apply (count_none p c). }
  rewrite (read_cg_Ok p nb u Hw i c Hc) by lia. kstep.
  destruct (b_error u (Z.to_nat i)) eqn:Eb.
  { by exists u, 0. }
  destruct (Z.eqb_spec (cs_nifree (cg_cs c)) 0) as [|_]; [done|].
  destruct (count_free p c Hiw Hn0) as (k0 & Hk0 & Hb0).
  destruct (pick_inode_spec p (set_time c (u_time u)) ipref k0) as (x & k & -> & Hx' & Hk & Hb & Hpref);
    [by apply (ino_wf_kept p c)|done|done|done|]. kstep.
  destruct (i_ipg _ _ Hiw) as (_ & _ & Hs).
  destruct (setbit_marks (cg_iused c) k) as (m & Em & Hmk); [lia|]. simpl. rewrite Em. kstep.
  destruct (account_inode (is_dir mode) (-1) 1 (u_fs u)
    (set_iused (set_irotor (set_time c (u_time u)) x) m) i Hl) as (s1 & c1 & s2 & c2 & E1 & _ & E2 & Hpost & Ec2).
  rewrite E1. kstep. unfold is_dir in E2 |- *. rewrite E2. kstep. fold (is_dir mode) in *.
  destruct (inode_put p nb u i c (fmod s2) c2 k true (is_dir mode)) as (u' & -> & Hw' & Hch);
    try (subst c2; done); [lia|subst c2; by apply (cg_wf_ino p nb c)| |].
  { subst c2. eapply (ino_wf_mark p c _ k true); [done|done|done|done|done|simpl; lia|done|done|done]. }
  kstep. exists u', (i * fs_ipg p + k). split; [done|]. split; [done|]. right. split.
  - intros E. assert (i = 0 /\ k = 0) as [Ei Ek] by nia. subst k. pose proof (i_boot _ _ Hiw). simpl in Hb.
    rewrite H in Hb; [done|lia].
  - exists k. split; [done|]. split; [done|]. split; [done|]. intros c' Hc' Hne Hf. simplify_eq. by apply Hpref.
Qed.

(** ifree() of a used inode of a well-formed file system, inode 0 apart, returns in a
    well-formed one: if the group cannot be read nothing changes, otherwise exactly that inode
    becomes free and the directory count follows the mode. *)
Theorem ifree_sound p nb u i k mode : ufs_wf p nb u -> 0 <= i < fs_ncg p -> 0 <= k < fs_ipg p ->
  let ino := i * fs_ipg p + k in
  ino <> 0 -> ino < 2 ^ 32 ->
  (forall c, cgs u !! Z.to_nat i = Some c -> bit (cg_iused c) k = true) ->
  exists u', ifree p u ino mode = Ok u' /\ ufs_wf p nb u' /\
    if b_error u (Z.to_nat i) then u' = u else inode_change u u' i k false (is_dir mode).
Proof.
  intros Hw Hi Hk ino Hne Hlt Hused. destruct (group_at p nb u Hw i Hi) as (c & Hc & _ & Hl & Hx).
  destruct (uw_cg _ _ _ Hw _ _ Hc) as (Hcw & Hiw & _ & Hmag & _). specialize (Hused c Hc).
  assert (0 <= ino) as Hino by (unfold ino; nia). unfold ifree. rewrite wrapu_small by lia.
  destruct (Z.leb_spec (fs_ipg p * fs_ncg p) ino); [unfold ino in *; nia|].
  assert (itog p ino = i /\ Z.rem ino (fs_ipg p) = k) as [-> ->].
  { unfold itog. rewrite Z.quot_div_nonneg, Z.rem_mod_nonneg by lia. unfold ino.
    rewrite Z.add_comm, Z.div_add, Z.mod_add, Z.div_small, Z.mod_small by lia. lia. }
  rewrite (read_cg_Ok p nb u Hw i c Hc) by lia. kstep.
  destruct (b_error u (Z.to_nat i)) eqn:Eb; [by exists u|].
  destruct (i_ipg _ _ Hiw) as (_ & _ & Hs). pose proof (i_rotor _ _ Hiw) as Hro.
  simpl. rewrite isset_Ok, Hused by lia. kstep.
  destruct (clrbit_marks (cg_iused c) k) as (m & Em & Hmk); [lia|]. simpl. rewrite Em. kstep.
  set (c2 := if k <? cg_irotor c then _ else _).
  assert (cg_cs c2 = cg_cs c /\ cg_iused c2 = m /\ 0 <= cg_irotor c2 < fs_ipg p /\ cg_wf p nb c2 /\
    cg_cgx c2 = cg_cgx c /\ cg_magic c2 = cg_magic c /\ cg_free c2 = cg_free c) as (F1 & F2 & F3 & F4 & F5 & F6 & F7).
  { unfold c2. destruct (k <? cg_irotor c); (do 6 (split; [first [done|by apply (cg_wf_ino p nb c)]|])); done. }
  destruct (account_inode (is_dir mode) 1 (-1) (u_fs u) c2 i) as (s1 & c3 & s2 & c4 & E1 & E2 & _ & Hpost & Ec4).
  { unfold linked. by rewrite F1. }
  rewrite E1. kstep. unfold is_dir in E2 |- *. rewrite E2. kstep. fold (is_dir mode) in *.
  destruct (inode_put p nb u i c (fmod s2) c4 k false (is_dir mode)) as (u' & -> & Hw' & Hch);
    try (subst c4; simpl; rewrite ?F1, ?F2; done); [lia|subst c4; by apply (cg_wf_ino p nb c2)| | |].
  { subst c4. eapply (ino_wf_mark p c _ k false); try done; simpl.
    - by rewrite F2.
    - by rewrite F1.
    - intros _ E ->. unfold ino in *. lia. }
  { by eapply posted_cs; [|reflexivity|exact Hpost]. }
  by exists u'.
Qed.

Lemma ialloccg_sound_witness :
  exists u' r, ialloccg p0 ufs0 0 5 IFDIR = Ok (u', r) /\ ufs_wf p0 2 u' /\
    if b_error ufs0 (Z.to_nat 0) then r = 0 /\ u' = ufs0
    else
    (r = 0 /\ u' = ufs0 /\ (forall c k, cgs ufs0 !! Z.to_nat 0 = Some c -> 0 <= k < fs_ipg p0 -> bit (cg_iused c) k = true) \/
     r <> 0 /\ exists k, r = 0 * fs_ipg p0 + k /\ 0 <= k < fs_ipg p0 /\
       inode_change ufs0 u' 0 k true (is_dir IFDIR) /\
       (forall c, cgs ufs0 !! Z.to_nat 0 = Some c -> 5 <> 0 ->
          bit (cg_iused c) (5 mod fs_ipg p0) = false -> k = 5 mod fs_ipg p0)).
Proof. apply (ialloccg_sound p0 2 ufs0 0 5 IFDIR); [apply ufs0_wf|simpl; lia..]. Defined.

Lemma ifree_sound_witness :
  exists u', ifree p0 ufs0 (0 * fs_ipg p0 + 2) IFDIR = Ok u' /\ ufs_wf p0 2 u' /\
    if b_error ufs0 (Z.to_nat 0) then u' = ufs0 else inode_change ufs0 u' 0 2 false (is_dir IFDIR).
Proof.
  apply (ifree_sound p0 2 ufs0 0 2 IFDIR); [apply ufs0_wf|simpl; lia..|].
  intros c [= <-]. reflexivity.
Defined.

Example ialloccg_prefers :
  (r ← ialloccg p0 ufs0 0 5 IFDIR; mret (r.2, cg_iused <$> head (cgs r.1), cs_ndir (fs_cstotal (u_fs r.1))))
  = Ok (5, Some [0x27], 2).
Proof. reflexivity. Qed.
