(* ===== verification/Kmem.v ===== *)
(** * The kernel heap: [src/sun/sys/sys/heap_kmem.c]

    Definitions only.  The free blocks form a Cartesian tree: ordered by address from left to
    right, and by size from the root down.  The tree's nodes are headers kept apart from the
    blocks; a header is on one tree or on the list of free headers, never on two, so a tree is
    a value ([NIL], or a [Node] with the header's address) and a pointer to a link of the tree
    is the path to it.  Pages come from a resource map through [Alloc.ResMap].  Addresses lie
    in the region [usrpt, usrpt + USRPTSIZE * NBPG) of the sun3, so their sums do not wrap. *)

From S2P Require Import Prelude Rmap.
From stdpp Require Import prelude list numbers strings.
From Stdlib Require Import ZArith Lia.

Local Open Scope Z_scope.
Local Open Scope kern_scope.

(** ** Results: a routine may also go to sleep in getpages(), waiting for pages *)

Inductive kres (A : Type) :=
| KOk (a : A)
| KPanic (msg : string)
| KFault
| KSleep.
Arguments KOk {A} a.
Arguments KPanic {A} msg.
Arguments KFault {A}.
Arguments KSleep {A}.

#[export] Instance kres_ret : MRet kres := fun A a => KOk a.
#[export] Instance kres_bind : MBind kres := fun A B f m =>
  match m with
  | KOk a => f a
  | KPanic s => KPanic s
  | KFault => KFault
  | KSleep => KSleep
  end.

Definition lift {A} (r : res A) : kres A :=
  match r with Ok a => KOk a | Panic s => KPanic s | Fault => KFault end.

(** ** Data *)

Definition NBPG := 8192.
Definition PGSHIFT := 13.
Definition CLSIZE := 1.
Definition USRPTSIZE := 0x980000 / NBPG.
Definition SMALLEST_BLK := 1.
(** sizeof (struct freehdr), sizeof (struct need_to_free) *)
Definition HDRSIZE := 16.
Definition NTFSIZE := 8.

Inductive freehdr :=
| NIL
| Node (hdr block size : Z) (left right : freehdr).

(** [need_to_free_list] is the chain threaded through the blocks themselves. *)
Record kmem_info (M : Type) := Kmem {
  free_root : freehdr; free_hdr_list : list Z; kmap : M;
  need_to_free_list : list (Z * Z); need_to_free : list (Z * Z)
}.
Arguments Kmem {M}.
Arguments free_root {M}. Arguments free_hdr_list {M}. Arguments kmap {M}.
Arguments need_to_free_list {M}. Arguments need_to_free {M}.

(** ** Trees *)

Definition weight (x : freehdr) : Z := match x with NIL => 0 | Node _ _ s _ _ => s end.

Definition ALIGNMORE (addr : Z) : Z := 4 - Z.land addr 3.

(** The block starts off a word boundary and reaches the next one. *)
Definition skewed (block size : Z) : bool :=
  negb (Z.land block 3 =? 0) && (ALIGNMORE block <? size).
Definition mweight (x : freehdr) : Z :=
  match x with
  | NIL => 0
  | Node _ b s _ _ => if skewed b s then s - ALIGNMORE b else s
  end.

Fixpoint nodes (x : freehdr) : nat :=
  match x with NIL => 0 | Node _ _ _ l r => S (nodes l + nodes r) end.

(** insert()'s root insertion: the nodes below and above [p]. *)
Fixpoint cleave (p : Z) (x : freehdr) : freehdr * freehdr :=
  match x with
  | NIL => (NIL, NIL)
  | Node h b s l r =>
      if b <? p then let '(a, c) := cleave p r in (Node h b s l a, c)
      else let '(a, c) := cleave p l in (a, Node h b s c r)
  end.

(** insert(): down to the first node lighter than [len], which the new node [h] displaces. *)
Fixpoint tree_insert (h p len : Z) (x : freehdr) : freehdr :=
  match x with
  | Node hx b s l r =>
      if len <=? s then
        if p <? b then Node hx b s (tree_insert h p len l) r
        else Node hx b s l (tree_insert h p len r)
      else let '(a, c) := cleave p x in Node h p len a c
  | NIL => Node h p len NIL NIL
  end.

(** delete()'s loop: merge the subtrees of the deleted node, the heavier one above. *)
Fixpoint promote (fuel : nat) (left_branch right_branch : freehdr) : res freehdr :=
  match fuel with
  | O => Fault
  | S f =>
      match left_branch, right_branch with
      | NIL, NIL => mret NIL
      | _, _ =>
          if weight right_branch <=? weight left_branch then
            match left_branch with
            | NIL => Fault
            | Node h b s l r => t ← promote f r right_branch; mret (Node h b s l t)
            end
          else
            match right_branch with
            | NIL => Fault
            | Node h b s l r => t ← promote f left_branch l; mret (Node h b s t r)
            end
      end
  end.

(** delete(): the tree in place of the node. *)
Definition tree_delete (left_branch right_branch : freehdr) : res freehdr :=
  promote (S (nodes left_branch + nodes right_branch)) left_branch right_branch.

(** demote() of the node ([h], [b], [wx]) above two subtrees. *)
Fixpoint demote_loop (fuel : nat) (h b wx : Z) (left_branch right_branch : freehdr) : res freehdr :=
  match fuel with
  | O => Fault
  | S f =>
      if (wx <? weight left_branch) || (wx <? weight right_branch) then
        if weight right_branch <=? weight left_branch then
          match left_branch with
          | NIL => Fault
          | Node h1 b1 s1 l r => t ← demote_loop f h b wx r right_branch; mret (Node h1 b1 s1 l t)
          end
        else
          match right_branch with
          | NIL => Fault
          | Node h1 b1 s1 l r => t ← demote_loop f h b wx left_branch l; mret (Node h1 b1 s1 t r)
          end
      else mret (Node h b wx left_branch right_branch)
  end.
Definition demote (h b wx : Z) (left_branch right_branch : freehdr) : res freehdr :=
  demote_loop (S (nodes left_branch + nodes right_branch)) h b wx left_branch right_branch.

(** kmem_free()'s search: absorb the neighbours of [ptr, ptr + nbytes) on the way down; the
    headers of absorbed blocks go to the list [hl]. *)
Fixpoint free_walk (fuel : nat) (np : freehdr) (ptr nbytes : Z) (hl : list Z)
    : res (freehdr * Z * Z * list Z) :=
  match fuel with
  | O => Fault
  | S f =>
      match np with
      | NIL => mret (NIL, ptr, nbytes, hl)
      | Node h b s l r =>
          if ptr <? b then
            if ptr + nbytes =? b then
              t ← tree_delete l r; free_walk f t ptr (nbytes + s) (h :: hl)
            else if b <? ptr + nbytes then Panic "kmem_free: free block overlap"
            else
              w ← free_walk f l ptr nbytes hl;
              mret (Node h b s w.1.1.1 r, w.1.1.2, w.1.2, w.2)
          else if b <? ptr then
            if b + s =? ptr then
              t ← tree_delete l r; free_walk f t b (nbytes + s) (h :: hl)
            else if ptr <? b + s then Panic "kmem_free block already free"
            else
              w ← free_walk f r ptr nbytes hl;
              mret (Node h b s l w.1.1.1, w.1.1.2, w.1.2, w.2)
          else Panic "kmem_free: block already free as neighbor"
      end
  end.

(** kmem_alloc()'s descent to the better fitting child ([false]: left). *)
Fixpoint choose (nbytes : Z) (a : freehdr) : list bool :=
  match a with
  | NIL => []
  | Node _ _ _ l r =>
      let lw := mweight l in
      let rw := mweight r in
      if (nbytes <=? lw) || (nbytes <=? rw) then
        if lw <=? rw then
          if nbytes <=? lw then false :: choose nbytes l else true :: choose nbytes r
        else
          if nbytes <=? rw then true :: choose nbytes r else false :: choose nbytes l
      else []
  end.

(** [*p], and [*p = t], for the link at a path. *)
Fixpoint at_path (x : freehdr) (p : list bool) {struct p} : freehdr :=
  match p, x with
  | d :: p', Node _ _ _ l r => at_path (if d then r else l) p'
  | _, _ => x
  end.
Fixpoint put_path (x : freehdr) (p : list bool) (t : freehdr) {struct p} : freehdr :=
  match p, x with
  | d :: p', Node h b s l r =>
      if d then Node h b s l (put_path r p' t) else Node h b s (put_path l p' t) r
  | _, _ => t
  end.

Section Heap.
Context {M : Type} `{RM : !ResMap M} (usrpt : Z) (intsvc : bool).
Implicit Type st : kmem_info M.

Definition set_root st t : kmem_info M :=
  Kmem t (free_hdr_list st) (kmap st) (need_to_free_list st) (need_to_free st).
Definition set_hdrs st l : kmem_info M :=
  Kmem (free_root st) l (kmap st) (need_to_free_list st) (need_to_free st).
Definition set_kmap st (m : M) : kmem_info M :=
  Kmem (free_root st) (free_hdr_list st) m (need_to_free_list st) (need_to_free st).
Definition set_pending st l a : kmem_info M :=
  Kmem (free_root st) (free_hdr_list st) (kmap st) l a.

Definition kmem_init (m : M) : kmem_info M := Kmem NIL [] m [] (replicate 10 (0, 0)).

(** ** Pages and headers *)

(** The pages' frames (vmemall, vmaccess) are not part of the model. *)
Definition getpages (npages : Z) st : kres (Z * kmem_info M) :=
  '(x, m) ← lift (rm_alloc (kmap st) npages);
  if x =? 0 then if intsvc then KPanic "getpages called at interrupt level" else KSleep
  else mret (usrpt + Z.shiftl x PGSHIFT, set_kmap st m).

Definition put_hdr (h : Z) st : kmem_info M := set_hdrs st (h :: free_hdr_list st).

(** [for (n = 1; n < CLBYTES / sizeof ( *r); n++) freehdr(&r[n])] *)
Fixpoint push_hdrs (k : nat) (r n : Z) (l : list Z) : list Z :=
  match k with O => l | S k => push_hdrs k r (n + 1) ((r + n * HDRSIZE) :: l) end.

Definition getfreehdr st : kres (Z * kmem_info M) :=
  match free_hdr_list st with
  | h :: l => mret (h, set_hdrs st l)
  | [] =>
      '(r, st) ← getpages CLSIZE st;
      if r =? 0 then KPanic "getfreehdr"
      else mret (r, set_hdrs st (push_hdrs (Z.to_nat (CLSIZE * NBPG / HDRSIZE - 1)) r 1 []))
  end.

(** ** Freeing *)

Definition kmem_insert (p len : Z) st : kres (kmem_info M) :=
  if len <=? 0 then KFault
  else '(h, st) ← getfreehdr st; mret (set_root st (tree_insert h p len (free_root st))).

Definition kmem_free (ptr nbytes : Z) st : kres (kmem_info M) :=
  if nbytes =? 0 then mret st
  else if (ptr <? usrpt) || (usrpt + USRPTSIZE * NBPG <? ptr) then KPanic "kmem_free"
  else
    '(t, p, n, hl) ← lift (free_walk (S (nodes (free_root st))) (free_root st) ptr nbytes
                             (free_hdr_list st));
    kmem_insert p n (set_hdrs (set_root st t) hl).

(** The first unused entry of the array. *)
Fixpoint intr_slot (l : list (Z * Z)) (ptr nbytes : Z) : option (list (Z * Z)) :=
  match l with
  | [] => None
  | e :: l' => if e.1 =? 0 then Some ((ptr, nbytes) :: l') else cons e <$> intr_slot l' ptr nbytes
  end.

(** kmem_free_intr() of a block that is small or starts on a word boundary. *)
Definition intr_put (ptr nbytes : Z) st : kres (kmem_info M) :=
  if NTFSIZE <=? nbytes then
    mret (set_pending st ((ptr, nbytes) :: need_to_free_list st) (need_to_free st))
  else
    match intr_slot (need_to_free st) ptr nbytes with
    | Some a => mret (set_pending st (need_to_free_list st) a)
    | None => KPanic "kmem_free_intr"
    end.
Definition kmem_free_intr (ptr nbytes : Z) st : kres (kmem_info M) :=
  if (NTFSIZE <=? nbytes) && negb (Z.land ptr 3 =? 0) then
    st ← intr_put ptr (ALIGNMORE ptr) st;
    intr_put (ptr + ALIGNMORE ptr) (nbytes - ALIGNMORE ptr) st
  else intr_put ptr nbytes st.

(** The first used entry of the array, and the array without it. *)
Fixpoint take_slot (l : list (Z * Z)) : option (Z * Z * list (Z * Z)) :=
  match l with
  | [] => None
  | e :: l' =>
      if e.1 =? 0 then (fun r => (r.1, e :: r.2)) <$> take_slot l'
      else Some (e, (0, e.2) :: l')
  end.

Fixpoint check_need_to_free (fuel : nat) st : kres (kmem_info M) :=
  match fuel with
  | O => KFault
  | S f =>
      match need_to_free_list st with
      | (addr, nbytes) :: l =>
          st ← kmem_free addr nbytes (set_pending st l (need_to_free st));
          check_need_to_free f st
      | [] =>
          match take_slot (need_to_free st) with
          | Some (addr, nbytes, a) =>
              st ← kmem_free addr nbytes (set_pending st [] a);
              check_need_to_free f st
          | None => mret st
          end
      end
  end.

(** ** Allocation *)

Definition morecore (nbytes : Z) st : kres (kmem_info M) :=
  let nbytes := u32 (nbytes + (CLSIZE * NBPG - 1)) / (CLSIZE * NBPG) * (CLSIZE * NBPG) in
  '(p, st) ← getpages (nbytes / NBPG) st;
  if p =? 0 then KPanic "kmem_alloc" else kmem_free p nbytes st.

(** Take [nbytes] of the node at [path]. *)
Definition take_node (nbytes : Z) (path : list bool) st : kres (Z * kmem_info M) :=
  match at_path (free_root st) path with
  | NIL => KFault
  | Node h b s l r =>
      if u32 (s - nbytes) <? SMALLEST_BLK then
        t ← lift (tree_delete l r);
        mret (b, put_hdr h (set_root st (put_path (free_root st) path t)))
      else
        '(x, st) ← getfreehdr st;
        if skewed b s then
          let nb := nbytes + ALIGNMORE b in
          t ← lift (demote x b (ALIGNMORE b) l r);
          let st := set_root st (put_path (free_root st) path t) in
          st ← (if nb <? s then kmem_free (b + nb) (s - nb) st else mret st);
          mret (b + ALIGNMORE b, put_hdr h st)
        else
          t ← lift (demote x (b + nbytes) (s - nbytes) l r);
          mret (b, put_hdr h (set_root st (put_path (free_root st) path t)))
  end.

(** kmem_alloc(): the null pointer for no bytes. *)
Definition kmem_alloc (nbytes : Z) st : kres (Z * kmem_info M) :=
  if nbytes =? 0 then mret (0, st)
  else
    st ← check_need_to_free (S (length (need_to_free_list st) + length (need_to_free st))) st;
    st ← (if mweight (free_root st) <=? nbytes then morecore nbytes st else mret st);
    take_node nbytes (choose nbytes (free_root st)) st.
End Heap.
