(* ===== verification/KmemTree.v ===== *)
(** * The heap's Cartesian tree

    A tree is read as the list of its free blocks in address order.  Insertion, deletion and
    demotion keep the order of the list and the vertical ordering of sizes; kmem_free()'s
    walk absorbs exactly the neighbours of the block, or detects an overlap. *)

From S2P Require Import Prelude Rmap Kmem.
From stdpp Require Import prelude list numbers strings.
From Stdlib Require Import ZArith Lia Sorted.

Local Open Scope Z_scope.
Local Open Scope kern_scope.

(** ** Trees and lists of blocks *)

#[export] Instance freehdr_eq_dec : EqDecision freehdr.
Proof. solve_decision. Defined.

(** The free blocks (address, size), and the headers of the nodes. *)
Fixpoint inorder (t : freehdr) : list (Z * Z) :=
  match t with NIL => [] | Node _ b s l r => inorder l ++ (b, s) :: inorder r end.
Fixpoint headers (t : freehdr) : list Z :=
  match t with NIL => [] | Node h _ _ l r => headers l ++ h :: headers r end.

(** Sizes are positive and decrease with depth. *)
Fixpoint heap (t : freehdr) : Prop :=
  match t with
  | NIL => True
  | Node _ _ s l r => 0 < s /\ weight l <= s /\ weight r <= s /\ heap l /\ heap r
  end.

(** Blocks in address order, with room between them: adjacent blocks have been merged. *)
Definition apart (x y : Z * Z) : Prop := x.1 + x.2 < y.1.
Definition spaced (l : list (Z * Z)) : Prop :=
  StronglySorted apart l /\ Forall (fun x => 0 < x.2) l.

Definition in_block (x : Z * Z) (a : Z) : Prop := x.1 <= a < x.1 + x.2.
Definition covers (l : list (Z * Z)) (a : Z) : Prop := Exists (fun x => in_block x a) l.

Lemma heap_weight t : heap t -> 0 <= weight t.
Proof. destruct t; simpl; lia. Qed.

Lemma heap_nil t : heap t -> weight t <= 0 -> t = NIL.
Proof. destruct t; simpl; [done|lia]. Qed.

Lemma heap_inorder t : heap t -> Forall (fun x => 0 < x.2 <= weight t) (inorder t).
Proof.
  induction t as [|h b s l IHl r IHr]; simpl; [constructor|]. intros (Hs & Hl & Hr & Hhl & Hhr).
  apply Forall_app. split; [|constructor; [simpl; lia|]].
  - eapply Forall_impl; [exact (IHl Hhl)|]. simpl. lia.
  - eapply Forall_impl; [exact (IHr Hhr)|]. simpl. lia.
Qed.

Lemma covers_app l1 l2 a : covers (l1 ++ l2) a <-> covers l1 a \/ covers l2 a.
Proof. apply Exists_app. Qed.
Lemma covers_cons x l a : covers (x :: l) a <-> in_block x a \/ covers l a.
Proof. apply Exists_cons. Qed.
Lemma covers_nil a : covers [] a <-> False.
Proof. apply Exists_nil. Qed.

Lemma covers_in x l a : x ∈ l -> in_block x a -> covers l a.
Proof. intros. apply Exists_exists. eauto. Qed.

Lemma spaced_app l1 l2 : spaced (l1 ++ l2) <->
  spaced l1 /\ spaced l2 /\ forall x y, x ∈ l1 -> y ∈ l2 -> apart x y.
Proof.
  unfold spaced. rewrite Forall_app. induction l1 as [|z l1 IH]; simpl.
  - split; [|tauto]. intros (H1 & H2 & H3). repeat split; try done; [constructor|].
    intros x y Hx. by apply not_elem_of_nil in Hx.
  - rewrite !Forall_cons. split.
    + intros (Hs & (Hz & H1) & H2). apply StronglySorted_inv in Hs as [Hs Hz1].
      apply Forall_app in Hz1 as [Hz1 Hz2]. destruct IH as [IH _].
      destruct (IH (conj Hs (conj H1 H2))) as ((Ha & _) & Hb & Hc).
      split; [split; [by constructor|done]|]. split; [done|].
      intros x y [->|Hx]%elem_of_cons Hy; [|auto]. rewrite Forall_forall in Hz2. auto.
    + intros ((Hs & Hz & H1) & (H2 & H3) & Hc). apply StronglySorted_inv in Hs as [Hs Hz1].
      split; [|done]. constructor.
      * apply IH. split; [done|]. split; [done|]. intros. apply Hc; [by right|done].
      * apply Forall_app. split; [done|]. apply Forall_forall. intros y Hy. apply Hc; [by left|done].
Qed.

Lemma spaced_cons x l : spaced (x :: l) <-> 0 < x.2 /\ spaced l /\ Forall (apart x) l.
Proof.
  unfold spaced. rewrite Forall_cons. split.
  - intros (Hs & Hx & Hl). apply StronglySorted_inv in Hs as [? ?]. done.
  - intros (Hx & (Hs & Hl) & Ha). split; [by constructor|done].
Qed.

(** The blocks of the three parts of a node. *)
Lemma spaced_node l b s r : spaced (inorder l ++ (b, s) :: inorder r) <->
  spaced (inorder l) /\ spaced (inorder r) /\ 0 < s /\
  Forall (fun x => x.1 + x.2 < b) (inorder l) /\ Forall (fun x => b + s < x.1) (inorder r).
Proof.
  rewrite spaced_app, spaced_cons. unfold apart. rewrite !Forall_forall. simpl. split.
  - intros (Hl & (Hs & Hr & Hbr) & Hlr). split; [done|]. split; [done|]. split; [done|].
    split; [|done]. intros x Hx. apply (Hlr x (b, s) Hx). by left.
  - intros (Hl & Hr & Hs & Hlb & Hbr). split; [done|]. split; [done|].
    intros x y Hx [->|Hy]%elem_of_cons; [by apply Hlb|].
    pose proof (Hlb _ Hx). pose proof (Hbr _ Hy). simpl in *. lia.
Qed.

Lemma spaced_merge l b s r : spaced (inorder l ++ (b, s) :: inorder r) -> spaced (inorder l ++ inorder r).
Proof.
  rewrite spaced_node, spaced_app. intros (Hl & Hr & Hs & Hlb & Hbr). split; [done|]. split; [done|].
  rewrite Forall_forall in Hlb. rewrite Forall_forall in Hbr. intros x y Hx Hy. unfold apart.
  pose proof (Hlb _ Hx). pose proof (Hbr _ Hy). lia.
Qed.

(** Spaced blocks are determined by the bytes they cover. *)
Lemma spaced_first x l a : spaced (x :: l) -> covers (x :: l) a -> x.1 <= a.
Proof.
  rewrite spaced_cons. intros (Hx & Hl & Ha) [H|H]%covers_cons; [apply H|].
  apply Exists_exists in H as (y & Hy & Hin). rewrite Forall_forall in Ha.
  specialize (Ha y Hy). unfold apart, in_block in *. lia.
Qed.

Lemma spaced_gap x l : spaced (x :: l) -> ~ covers (x :: l) (x.1 + x.2).
Proof.
  rewrite spaced_cons. intros (Hx & Hl & Ha) [H|H]%covers_cons; [unfold in_block in H; lia|].
  apply Exists_exists in H as (y & Hy & Hin). rewrite Forall_forall in Ha.
  specialize (Ha y Hy). unfold apart, in_block in *. lia.
Qed.

Lemma spaced_head l1 l2 x y : spaced (x :: l1) -> spaced (y :: l2) ->
  (forall a, covers (x :: l1) a <-> covers (y :: l2) a) -> x = y.
Proof.
  intros H1 H2 Hc. pose proof H1 as (P1 & _)%spaced_cons. pose proof H2 as (P2 & _)%spaced_cons.
  assert (x.1 = y.1) as E.
  { assert (covers (y :: l2) x.1) as A1 by (apply Hc, covers_cons; left; unfold in_block; lia).
    assert (covers (x :: l1) y.1) as A2 by (apply Hc, covers_cons; left; unfold in_block; lia).
    pose proof (spaced_first _ _ _ H2 A1). pose proof (spaced_first _ _ _ H1 A2). lia. }
  assert (x.2 = y.2) as E2.
  { destruct (Z.lt_trichotomy x.2 y.2) as [Hlt|[?|Hlt]]; [|done|].
    - exfalso. apply (spaced_gap x l1 H1), Hc, covers_cons. left. unfold in_block. lia.
    - exfalso. apply (spaced_gap y l2 H2), Hc, covers_cons. left. unfold in_block. lia. }
  destruct x, y; simpl in *; congruence.
Qed.

Lemma spaced_unique l1 l2 : spaced l1 -> spaced l2 ->
  (forall a, covers l1 a <-> covers l2 a) -> l1 = l2.
Proof.
  revert l2. induction l1 as [|x l1 IH]; intros [|y l2] H1 H2 Hc; [done| | |].
  - pose proof H2 as (P & _)%spaced_cons. destruct (Hc y.1) as [_ H]. exfalso.
    apply (proj1 (covers_nil y.1)), H, covers_cons. left. unfold in_block. lia.
  - pose proof H1 as (P & _)%spaced_cons. destruct (Hc x.1) as [H _]. exfalso.
    apply (proj1 (covers_nil x.1)), H, covers_cons. left. unfold in_block. lia.
  - pose proof (spaced_head _ _ _ _ H1 H2 Hc) as ->. f_equal.
    pose proof H1 as (P & S1 & F1)%spaced_cons. pose proof H2 as (_ & S2 & F2)%spaced_cons.
    apply IH; [done|done|]. intros a. specialize (Hc a). rewrite !covers_cons in Hc.
    assert (forall l, Forall (apart y) l -> covers l a -> ~ in_block y a) as Hd.
    { intros l Hf (z & Hz & Hin)%Exists_exists. rewrite Forall_forall in Hf.
      specialize (Hf z Hz). unfold apart, in_block in *. lia. }
    split; intros H; [pose proof (Hd _ F1 H)|pose proof (Hd _ F2 H)]; tauto.
Qed.

(** ** Insertion *)

(** Insertion of a block into a list in address order. *)
Fixpoint place (x : Z * Z) (l : list (Z * Z)) : list (Z * Z) :=
  match l with
  | [] => [x]
  | y :: l' => if y.1 <? x.1 then y :: place x l' else x :: l
  end.

Lemma place_right x l1 l2 : Forall (fun y => y.1 < x.1) l1 -> place x (l1 ++ l2) = l1 ++ place x l2.
Proof.
  induction 1 as [|y l Hy Hl IH]; simpl; [done|]. destruct (Z.ltb_spec y.1 x.1); [|lia]. by rewrite IH.
Qed.

Lemma place_left x l1 y l2 : x.1 <= y.1 -> place x (l1 ++ y :: l2) = place x l1 ++ y :: l2.
Proof.
  intros H. induction l1 as [|z l1 IH]; simpl.
  - destruct (Z.ltb_spec y.1 x.1); [lia|done].
  - destruct (z.1 <? x.1); simpl; [by rewrite IH|done].
Qed.

Lemma place_elem x l y : y ∈ place x l <-> y = x \/ y ∈ l.
Proof.
  induction l as [|z l IH]; simpl.
  - rewrite elem_of_cons, !elem_of_nil. tauto.
  - destruct (z.1 <? x.1).
    + rewrite !elem_of_cons, IH. tauto.
    + by rewrite elem_of_cons.
Qed.

(** A block with room on both sides. *)
Definition clear_of (p n : Z) (l : list (Z * Z)) : Prop :=
  Forall (fun y => y.1 + y.2 < p \/ p + n < y.1) l.

Lemma place_spaced p n l : 0 < n -> spaced l -> clear_of p n l -> spaced (place (p, n) l).
Proof.
  intros Hn. induction l as [|y l IH]; simpl; intros Hs Hc.
  - apply spaced_cons. split; [done|]. split; [split; constructor|constructor].
  - apply Forall_cons in Hc as [Hy Hc]. pose proof Hs as (Py & Sl & Fl)%spaced_cons.
    destruct (Z.ltb_spec y.1 p).
    + apply spaced_cons. split; [done|]. split; [by apply IH|]. apply Forall_forall.
      intros z [->|Hz]%place_elem; [unfold apart; simpl; lia|]. rewrite Forall_forall in Fl. by apply Fl.
    + apply spaced_cons. split; [done|]. split; [done|]. apply Forall_cons. split; [unfold apart; simpl; lia|].
      eapply Forall_impl; [exact Fl|]. unfold apart. simpl. lia.
Qed.

Lemma place_covers p n l a : covers (place (p, n) l) a <-> in_block (p, n) a \/ covers l a.
Proof.
  unfold covers. rewrite !Exists_exists. split.
  - intros (x & [->|Hx]%place_elem & Hin); eauto.
  - intros [H|(x & Hx & Hin)].
    + exists (p, n). split; [|done]. apply place_elem. by left.
    + exists x. split; [|done]. apply place_elem. by right.
Qed.

Lemma place_node p n l b s r : spaced (inorder l ++ (b, s) :: inorder r) -> b < p ->
  place (p, n) (inorder l ++ (b, s) :: inorder r) = inorder l ++ (b, s) :: place (p, n) (inorder r).
Proof.
  intros ([_ Hl] & _ & _ & Hb & _)%spaced_node Hp. rewrite place_right.
  - simpl. destruct (Z.ltb_spec b p); [done|lia].
  - apply Forall_forall. intros x Hx. rewrite Forall_forall in Hb, Hl.
    specialize (Hb x Hx). specialize (Hl x Hx). simpl in *. lia.
Qed.

Lemma cleave_spec p n t : heap t -> spaced (inorder t) ->
  let '(a, c) := cleave p t in
  heap a /\ heap c /\ weight a <= weight t /\ weight c <= weight t /\
  inorder a ++ (p, n) :: inorder c = place (p, n) (inorder t) /\
  headers a ++ headers c ≡ₚ headers t.
Proof.
  induction t as [|h b s l IHl r IHr]; simpl; [done|]. intros (Hs & Hl & Hr & Hhl & Hhr) Hsp.
  pose proof Hsp as (Sl & Sr & _)%spaced_node. destruct (Z.ltb_spec b p).
  - specialize (IHr Hhr Sr). destruct (cleave p r) as [a c]. destruct IHr as (Ha & Hc & Wa & Wc & E & Eh).
    simpl. split_and!; try done; try lia.
    + rewrite <- app_assoc. simpl. by rewrite E, place_node.
    + by rewrite <- Eh, <- app_assoc.
  - specialize (IHl Hhl Sl). destruct (cleave p l) as [a c]. destruct IHl as (Ha & Hc & Wa & Wc & E & Eh).
    simpl. split_and!; try done; try lia.
    + rewrite (app_comm_cons (inorder c)), app_assoc, E, place_left; [done|simpl; lia].
    + by rewrite <- Eh, <- app_assoc.
Qed.

Lemma clear_node p n l b s r : clear_of p n (inorder l ++ (b, s) :: inorder r) <->
  clear_of p n (inorder l) /\ (b + s < p \/ p + n < b) /\ clear_of p n (inorder r).
Proof. unfold clear_of. rewrite Forall_app, Forall_cons. done. Qed.

Lemma tree_insert_spec h p n t : 0 < n -> heap t -> spaced (inorder t) -> clear_of p n (inorder t) ->
  heap (tree_insert h p n t) /\ weight (tree_insert h p n t) <= Z.max (weight t) n /\
  inorder (tree_insert h p n t) = place (p, n) (inorder t) /\
  headers (tree_insert h p n t) ≡ₚ h :: headers t.
Proof.
  intros Hn. induction t as [|hx b s l IHl r IHr]; intros Hh Hsp Hcl; [simpl; split_and!; by first [done|lia]|].
  unfold tree_insert; fold tree_insert. destruct (Z.leb_spec n s) as [Hle|Hlt].
  - simpl in Hh, Hsp, Hcl. destruct Hh as (Hs & Hl & Hr & Hhl & Hhr).
    pose proof Hsp as (Sl & Sr & _)%spaced_node. apply clear_node in Hcl as (Cl & Cb & Cr).
    destruct (Z.ltb_spec p b); simpl.
    + destruct (IHl Hhl Sl Cl) as (H1 & H2 & H3 & H4).
      split_and!; try done; try lia.
      * rewrite H3, place_left; [done|simpl; lia].
      * by rewrite H4.
    + destruct (IHr Hhr Sr Cr) as (H1 & H2 & H3 & H4).
      split_and!; try done; try lia.
      * rewrite H3, place_node; [done|done|lia].
      * rewrite H4, <- !Permutation_middle. apply Permutation_swap.
  - pose proof (cleave_spec p n (Node hx b s l r) Hh Hsp) as Hc. destruct (cleave _ _) as [a c].
    destruct Hc as (Ha & Hc & Wa & Wc & E & Eh). simpl weight in *.
    simpl. split_and!; try done; try lia.
    rewrite <- Permutation_middle. by rewrite Eh.
Qed.

(** ** Deletion and demotion *)

Lemma promote_spec fuel l r : heap l -> heap r -> (nodes l + nodes r < fuel)%nat ->
  exists t, promote fuel l r = Ok t /\ heap t /\ weight t <= Z.max (weight l) (weight r) /\
    inorder t = inorder l ++ inorder r /\ nodes t = (nodes l + nodes r)%nat /\
    headers t ≡ₚ headers l ++ headers r.
Proof.
  revert l r. induction fuel as [|f IH]; intros l r Hl Hr Hf; [lia|]. simpl.
  destruct (decide (l = NIL /\ r = NIL)) as [[-> ->]|Hne]; [by exists NIL|].
  assert (promote (S f) l r = if weight r <=? weight l then
            match l with NIL => Fault | Node h b s l' r' => t ← promote f r' r; mret (Node h b s l' t) end
          else match r with NIL => Fault | Node h b s l' r' => t ← promote f l l'; mret (Node h b s t r') end) as E.
  { destruct l, r; [|done..]. by destruct Hne. }
  simpl in E. rewrite E. clear E. pose proof (heap_weight l Hl). pose proof (heap_weight r Hr).
  destruct (Z.leb_spec (weight r) (weight l)).
  - destruct l as [|h b s l1 l2]; [destruct Hne; split; [done|by apply heap_nil]|]. simpl in *.
    destruct (IH l2 r) as (t & -> & Ht & Hw & Ei & En & Eh); [tauto|done|lia|]. kstep. eexists. split; [done|]. simpl.
    split_and!; try tauto; try lia.
    + by rewrite Ei, <- app_assoc.
    + by rewrite Eh, <- app_assoc.
  - destruct r as [|h b s r1 r2]; [simpl in *; lia|]. simpl in *.
    destruct (IH l r1) as (t & -> & Ht & Hw & Ei & En & Eh); [done|tauto|lia|]. kstep. eexists. split; [done|]. simpl.
    split_and!; try tauto; try lia.
    + by rewrite Ei, <- app_assoc.
    + by rewrite Eh, <- app_assoc.
Qed.

Lemma tree_delete_spec l r : heap l -> heap r ->
  exists t, tree_delete l r = Ok t /\ heap t /\ weight t <= Z.max (weight l) (weight r) /\
    inorder t = inorder l ++ inorder r /\ nodes t = (nodes l + nodes r)%nat /\
    headers t ≡ₚ headers l ++ headers r.
Proof. intros. apply promote_spec; [done|done|lia]. Qed.

Lemma demote_loop_spec fuel h b s l r : 0 < s -> heap l -> heap r -> (nodes l + nodes r < fuel)%nat ->
  exists t, demote_loop fuel h b s l r = Ok t /\ heap t /\
    weight t <= Z.max s (Z.max (weight l) (weight r)) /\
    inorder t = inorder l ++ (b, s) :: inorder r /\ headers t ≡ₚ h :: headers l ++ headers r.
Proof.
  intros Hs. revert l r. induction fuel as [|f IH]; intros l r Hl Hr Hf; [lia|]. simpl.
  pose proof (heap_weight l Hl). pose proof (heap_weight r Hr).
  destruct (Z.ltb_spec s (weight l)), (Z.ltb_spec s (weight r)); simpl.
  4: { eexists. split; [done|]. simpl. split_and!; try done; try lia. by rewrite Permutation_middle. }
  all: destruct (Z.leb_spec (weight r) (weight l)); try lia.
  all: match goal with
       | |- context [match ?x with NIL => Fault | _ => _ end] => destruct x as [|h1 b1 s1 x1 x2]; [simpl in *; lia|]
       end; simpl in *.
  - destruct (IH x2 r) as (t & -> & Ht & Hw & Ei & Eh); [tauto|done|lia|]. kstep. eexists. split; [done|]. simpl.
    split_and!; try tauto; try lia; [by rewrite Ei, <- app_assoc|].
    rewrite Eh, <- app_assoc. simpl. by rewrite (Permutation_swap h h1), <- (Permutation_middle (headers x1) _ h).
  - destruct (IH l x1) as (t & -> & Ht & Hw & Ei & Eh); [done|tauto|lia|]. kstep. eexists. split; [done|]. simpl.
    split_and!; try tauto; try lia; [by rewrite Ei, <- app_assoc|].
    rewrite Eh. simpl. by rewrite <- app_assoc.
  - destruct (IH x2 r) as (t & -> & Ht & Hw & Ei & Eh); [tauto|done|lia|]. kstep. eexists. split; [done|]. simpl.
    split_and!; try tauto; try lia; [by rewrite Ei, <- app_assoc|].
    rewrite Eh, <- app_assoc. simpl. by rewrite (Permutation_swap h h1), <- (Permutation_middle (headers x1) _ h).
  - destruct (IH l x1) as (t & -> & Ht & Hw & Ei & Eh); [done|tauto|lia|]. kstep. eexists. split; [done|]. simpl.
    split_and!; try tauto; try lia; [by rewrite Ei, <- app_assoc|].
    rewrite Eh. simpl. by rewrite <- app_assoc.
Qed.

Lemma demote_spec h b s l r : 0 < s -> heap l -> heap r ->
  exists t, demote h b s l r = Ok t /\ heap t /\
    weight t <= Z.max s (Z.max (weight l) (weight r)) /\
    inorder t = inorder l ++ (b, s) :: inorder r /\ headers t ≡ₚ h :: headers l ++ headers r.
Proof. intros. apply demote_loop_spec; [done|done|done|lia]. Qed.

(** ** The walk of kmem_free() *)

Lemma covers_below l hi : spaced l -> Forall (fun x => x.1 + x.2 < hi) l <->
  forall a, covers l a -> a + 1 < hi.
Proof.
  intros [_ Hp]. rewrite Forall_forall in Hp. rewrite Forall_forall. split.
  - intros H a (x & Hx & Hin)%Exists_exists. specialize (H x Hx). unfold in_block in Hin. lia.
  - intros H x Hx. specialize (Hp x Hx). simpl in Hp.
    assert (covers l (x.1 + x.2 - 1)) as Hc by (eapply covers_in; [done|]; unfold in_block; lia).
    specialize (H _ Hc). lia.
Qed.

Lemma covers_above l lo : spaced l -> Forall (fun x => lo < x.1) l <->
  forall a, covers l a -> lo < a.
Proof.
  intros [_ Hp]. rewrite Forall_forall in Hp. rewrite Forall_forall. split.
  - intros H a (x & Hx & Hin)%Exists_exists. specialize (H x Hx). unfold in_block in Hin. lia.
  - intros H x Hx. specialize (Hp x Hx). simpl in Hp.
    apply (H x.1). eapply covers_in; [done|]. unfold in_block. lia.
Qed.

Definition disjoint_block (p n : Z) (l : list (Z * Z)) : Prop :=
  forall a, in_block (p, n) a -> ~ covers l a.

(** What the walk gives back: a tree without the neighbours, and the block with them. *)
Definition absorbed (t : freehdr) (ptr n : Z) (hl : list Z) (w : freehdr * Z * Z * list Z) : Prop :=
  let '(t', p', n', hl') := w in
  heap t' /\ weight t' <= weight t /\ spaced (inorder t') /\ clear_of p' n' (inorder t') /\ 0 < n' /\
  (forall a, in_block (p', n') a \/ covers (inorder t') a <-> in_block (ptr, n) a \/ covers (inorder t) a) /\
  headers t' ++ hl' ≡ₚ headers t ++ hl /\ (forall x, x ∈ inorder t' -> x ∈ inorder t) /\
  exists k, hl' = k ++ hl.

(** A node is absorbed: the walk goes on in the merged subtrees. *)
Lemma absorbed_node h b s l r t ptr n hl p1 w : heap (Node h b s l r) ->
  inorder t = inorder l ++ inorder r -> weight t <= Z.max (weight l) (weight r) ->
  headers t ≡ₚ headers l ++ headers r -> 0 < n -> 0 < s ->
  (ptr + n = b /\ p1 = ptr \/ b + s = ptr /\ p1 = b) ->
  absorbed t p1 (n + s) (h :: hl) w -> absorbed (Node h b s l r) ptr n hl w.
Proof.
  intros (Hs & Hl & Hr & _) Ei Hw Eh Hn _ Hp Ha. destruct w as [[[t' p'] n'] hl'].
  destruct Ha as (H1 & H2 & H3 & H4 & H5 & H6 & H7 & H8 & k & H9). simpl. split_and!; try done; [lia| | | |].
  - intros a. rewrite (H6 a), Ei, !covers_app, covers_cons. unfold in_block. simpl.
    assert (p1 <= a < p1 + (n + s) <-> ptr <= a < ptr + n \/ b <= a < b + s) as -> by lia. tauto.
  - rewrite H7, Eh, <- !app_assoc. simpl. by rewrite <- Permutation_middle.
  - intros x Hx%H8. rewrite Ei in Hx. rewrite elem_of_app, elem_of_cons in *. tauto.
  - exists (k ++ [h]). by rewrite H9, <- app_assoc.
Qed.

(** The walk goes on in one subtree. *)
Lemma absorbed_left h b s l r ptr n hl w : heap (Node h b s l r) ->
  spaced (inorder l ++ (b, s) :: inorder r) -> ptr + n < b ->
  absorbed l ptr n hl w -> absorbed (Node h b s l r) ptr n hl (Node h b s w.1.1.1 r, w.1.1.2, w.1.2, w.2).
Proof.
  intros (Hs & Hl & Hr & Hhl & Hhr) (Sl & Sr & _ & Fl & Fr)%spaced_node Hb Ha.
  destruct w as [[[t' p'] n'] hl']. destruct Ha as (H1 & H2 & H3 & H4 & H5 & H6 & H7 & H8 & k & H9). simpl.
  assert (forall a, in_block (p', n') a \/ covers (inorder t') a -> a + 1 < b) as Hlt.
  { intros a [Hin|Hc]%H6; [unfold in_block in Hin; simpl in Hin; lia|].
    by apply (proj1 (covers_below (inorder l) b Sl) Fl). }
  assert (p' + n' < b) as Hpb.
  { pose proof (Hlt (p' + n' - 1) ltac:(left; unfold in_block; simpl; lia)). lia. }
  split_and!; try done; try lia.
  - apply spaced_node. split_and!; try done. apply covers_below; [done|]. auto.
  - apply clear_node. split_and!; [done|simpl; lia|]. eapply Forall_impl; [exact Fr|]. simpl. lia.
  - intros a. rewrite !covers_app, !covers_cons. specialize (H6 a). tauto.
  - rewrite <- !app_assoc. simpl. rewrite <- !Permutation_middle, (Permutation_app_comm (headers r)), app_assoc, H7.
    by rewrite <- app_assoc, (Permutation_app_comm hl).
  - intros x. rewrite !elem_of_app, !elem_of_cons. specialize (H8 x). tauto.
  - eauto.
Qed.

Lemma absorbed_right h b s l r ptr n hl w : heap (Node h b s l r) ->
  spaced (inorder l ++ (b, s) :: inorder r) -> b + s < ptr ->
  absorbed r ptr n hl w -> absorbed (Node h b s l r) ptr n hl (Node h b s l w.1.1.1, w.1.1.2, w.1.2, w.2).
Proof.
  intros (Hs & Hl & Hr & Hhl & Hhr) (Sl & Sr & _ & Fl & Fr)%spaced_node Hb Ha.
  destruct w as [[[t' p'] n'] hl']. destruct Ha as (H1 & H2 & H3 & H4 & H5 & H6 & H7 & H8 & k & H9). simpl.
  assert (forall a, in_block (p', n') a \/ covers (inorder t') a -> b + s < a) as Hlt.
  { intros a [Hin|Hc]%H6; [unfold in_block in Hin; simpl in Hin; lia|].
    by apply (proj1 (covers_above (inorder r) (b + s) Sr) Fr). }
  assert (b + s < p') as Hpb by (apply Hlt; left; unfold in_block; simpl; lia).
  split_and!; try done; try lia.
  - apply spaced_node. split_and!; try done. apply covers_above; [done|]. auto.
  - apply clear_node. split_and!; [|simpl; lia|done]. eapply Forall_impl; [exact Fl|]. simpl. lia.
  - intros a. rewrite !covers_app, !covers_cons. specialize (H6 a). tauto.
  - rewrite <- !app_assoc. simpl. by rewrite H7.
  - intros x. rewrite !elem_of_app, !elem_of_cons. specialize (H8 x). tauto.
  - eauto.
Qed.

Lemma disjoint_node p n l b s r : disjoint_block p n (inorder l ++ (b, s) :: inorder r) <->
  disjoint_block p n (inorder l) /\ disjoint_block p n (inorder r) /\
  (forall a, in_block (p, n) a -> ~ in_block (b, s) a).
Proof.
  unfold disjoint_block. split.
  - intros H. split_and!; intros a Ha Hc; apply (H a Ha); rewrite covers_app, covers_cons; tauto.
  - intros (H1 & H2 & H3) a Ha. rewrite covers_app, covers_cons. specialize (H1 a Ha).
    specialize (H2 a Ha). specialize (H3 a Ha). tauto.
Qed.

(** The grown block stays clear of the subtrees of the absorbed node. *)
Lemma disjoint_grow ptr n b s l r p1 : spaced (inorder l ++ (b, s) :: inorder r) ->
  disjoint_block ptr n (inorder l ++ (b, s) :: inorder r) ->
  (ptr + n = b /\ p1 = ptr \/ b + s = ptr /\ p1 = b) ->
  disjoint_block p1 (n + s) (inorder l ++ inorder r).
Proof.
  intros Hsp (Dl & Dr & _)%disjoint_node Hp a Ha.
  pose proof Hsp as (Sl & Sr & Hs & Fl & Fr)%spaced_node. intros Hc.
  assert (in_block (ptr, n) a \/ in_block (b, s) a) as [Hin|Hin] by (unfold in_block in *; simpl in *; lia).
  - apply covers_app in Hc as [Hc|Hc]; [by apply (Dl a)|by apply (Dr a)].
  - unfold in_block in Hin. simpl in Hin. apply covers_app in Hc as [Hc|Hc].
    + pose proof (proj1 (covers_below _ _ Sl) Fl a Hc). lia.
    + pose proof (proj1 (covers_above _ _ Sr) Fr a Hc). lia.
Qed.

Lemma free_walk_spec fuel t ptr n hl : heap t -> spaced (inorder t) -> 0 < n ->
  disjoint_block ptr n (inorder t) -> (nodes t < fuel)%nat ->
  exists w, free_walk fuel t ptr n hl = Ok w /\ absorbed t ptr n hl w.
Proof.
  revert t ptr n hl. induction fuel as [|f IH]; intros t ptr n hl Hh Hsp Hn Hd Hf; [lia|].
  destruct t as [|h b s l r].
  { exists (NIL, ptr, n, hl). split; [done|]. simpl. split_and!; try done; [by apply Forall_nil|by exists []]. }
  simpl in Hsp, Hd, Hf. pose proof Hh as (Hs & _ & _ & Hhl & Hhr).
  pose proof Hsp as (Sl & Sr & _)%spaced_node. pose proof Hd as (Dl & Dr & Db)%disjoint_node.
  destruct (tree_delete_spec l r Hhl Hhr) as (t & Et & Ht & Hw & Ei & En & Eh).
  assert (forall p1, (ptr + n = b /\ p1 = ptr \/ b + s = ptr /\ p1 = b) ->
    exists w, free_walk f t p1 (n + s) (h :: hl) = Ok w /\ absorbed (Node h b s l r) ptr n hl w) as Hgrow.
  { intros p1 Hp. destruct (IH t p1 (n + s) (h :: hl)) as (w & Ew & Ha); [done| |lia| |lia|].
    - rewrite Ei. by eapply spaced_merge.
    - rewrite Ei. by eapply disjoint_grow.
    - exists w. split; [done|]. by eapply absorbed_node. }
  simpl. destruct (Z.ltb_spec ptr b).
  - destruct (Z.eqb_spec (ptr + n) b); [rewrite Et; kstep; apply Hgrow; lia|].
    destruct (Z.ltb_spec b (ptr + n)); [exfalso; apply (Db b); unfold in_block; simpl; lia|].
    destruct (IH l ptr n hl) as (w & -> & Ha); [done|done|done|done|lia|]. kstep.
    eexists. split; [done|]. apply absorbed_left; [done|done|lia|done].
  - destruct (Z.ltb_spec b ptr).
    + destruct (Z.eqb_spec (b + s) ptr); [rewrite Et; kstep; apply Hgrow; lia|].
      destruct (Z.ltb_spec ptr (b + s)); [exfalso; apply (Db ptr); unfold in_block; simpl; lia|].
      destruct (IH r ptr n hl) as (w & -> & Ha); [done|done|done|done|lia|]. kstep.
      eexists. split; [done|]. apply absorbed_right; [done|done|lia|done].
    + exfalso. apply (Db b); unfold in_block; simpl; lia.
Qed.

Lemma free_walk_overlap fuel t ptr n hl a : heap t -> spaced (inorder t) -> 0 < n ->
  in_block (ptr, n) a -> covers (inorder t) a -> (nodes t < fuel)%nat ->
  exists msg, free_walk fuel t ptr n hl = Panic msg.
Proof.
  revert t ptr n hl. induction fuel as [|f IH]; intros t ptr n hl Hh Hsp Hn Hb Hc Hf; [lia|].
  destruct t as [|h b s l r]; [by apply covers_nil in Hc|]. simpl in Hsp, Hc, Hf.
  pose proof Hh as (Hs & _ & _ & Hhl & Hhr). pose proof Hsp as (Sl & Sr & _ & Fl & Fr)%spaced_node.
  destruct (tree_delete_spec l r Hhl Hhr) as (t & Et & Ht & Hw & Ei & En & Eh).
  assert (forall p1, (ptr + n = b /\ p1 = ptr \/ b + s = ptr /\ p1 = b) ->
    exists msg, free_walk f t p1 (n + s) (h :: hl) = Panic msg) as Hgrow.
  { intros p1 Hp. apply IH; [done|rewrite Ei; by eapply spaced_merge|lia| | |lia].
    - unfold in_block in *. simpl in *. lia.
    - rewrite Ei. rewrite covers_app, covers_cons in *. unfold in_block in *. simpl in *.
      destruct Hc as [?|[?|?]]; [by left|lia|by right]. }
  apply covers_app in Hc as [Hc|Hc]; [pose proof (proj1 (covers_below _ _ Sl) Fl a Hc) as Hlt|
    apply covers_cons in Hc as [Hc|Hc]; [|pose proof (proj1 (covers_above _ _ Sr) Fr a Hc) as Hgt]];
    unfold in_block in *; simpl in *; destruct (Z.ltb_spec ptr b);
    try (destruct (Z.eqb_spec (ptr + n) b); [rewrite Et; kstep; apply Hgrow; lia|]);
    try (destruct (Z.ltb_spec b (ptr + n)); [by eexists|]); try (exfalso; lia);
    try (destruct (Z.ltb_spec b ptr); [|by eexists]);
    try (destruct (Z.eqb_spec (b + s) ptr); [rewrite Et; kstep; apply Hgrow; lia|]);
    try (destruct (Z.ltb_spec ptr (b + s)); [by eexists|]); try (exfalso; lia).
  - destruct (IH l ptr n hl) as (msg & ->); [done|done|done|done|done|lia|]. by exists msg.
  - destruct (IH r ptr n hl) as (msg & ->); [done|done|done|done|done|lia|]. by exists msg.
Qed.

(** ** Links as paths *)

Lemma path_spec t p : exists A B HA HB,
  (forall u, inorder (put_path t p u) = A ++ inorder u ++ B) /\
  inorder t = A ++ inorder (at_path t p) ++ B /\
  (forall u, headers (put_path t p u) = HA ++ headers u ++ HB) /\
  headers t = HA ++ headers (at_path t p) ++ HB.
Proof.
  assert (forall t, exists A B HA HB : list _, (forall u, inorder u = A ++ inorder u ++ B) /\
    inorder t = A ++ inorder t ++ B /\ (forall u, headers u = HA ++ headers u ++ HB) /\
    headers t = HA ++ headers t ++ HB) as H0.
  { intros t0. exists [], [], [], []. split_and!; intros; by rewrite app_nil_r. }
  revert t. induction p as [|d p IH]; intros t; [apply H0|]. destruct t as [|h b s l r]; [apply H0|].
  destruct d; simpl.
  - destruct (IH r) as (A & B & HA & HB & E1 & E2 & E3 & E4).
    exists (inorder l ++ (b, s) :: A), B, (headers l ++ h :: HA), HB.
    split_and!; intros; rewrite ?E1, ?E3, <- app_assoc; simpl; by rewrite <- ?E2, <- ?E4.
  - destruct (IH l) as (A & B & HA & HB & E1 & E2 & E3 & E4).
    exists A, (B ++ (b, s) :: inorder r), HA, (HB ++ h :: headers r).
    split_and!; intros; rewrite ?E1, ?E2, ?E3, ?E4; by rewrite <- !app_assoc.
Qed.

Lemma path_heap t p : heap t -> heap (at_path t p) /\ weight (at_path t p) <= weight t /\
  forall u, heap u -> weight u <= weight (at_path t p) ->
    heap (put_path t p u) /\ weight (put_path t p u) <= weight t.
Proof.
  revert t. induction p as [|d p IH]; intros t Ht; [by split_and!|].
  destruct t as [|h b s l r]; [by split_and!|]. pose proof Ht as (Hs & Hl & Hr & Hhl & Hhr). destruct d; simpl.
  - destruct (IH r Hhr) as (H1 & H2 & H3). split_and!; [done|lia|]. intros u Hu Hwu.
    destruct (H3 u Hu Hwu). split_and!; try done; lia.
  - destruct (IH l Hhl) as (H1 & H2 & H3). split_and!; [done|lia|]. intros u Hu Hwu.
    destruct (H3 u Hu Hwu). split_and!; try done; lia.
Qed.

(** The descent ends at a node that is large enough, if it starts at one. *)
Lemma choose_spec n t : 0 < n -> n <= mweight t ->
  exists h b s l r, at_path t (choose n t) = Node h b s l r /\ n <= mweight (Node h b s l r).
Proof.
  intros Hn. induction t as [|h b s l IHl r IHr]; intros Hw; [simpl in Hw; lia|].
  cbn [choose]. destruct (Z.leb_spec n (mweight l)), (Z.leb_spec n (mweight r));
    destruct (Z.leb_spec (mweight l) (mweight r)); cbn [orb at_path]; try lia; auto;
    by exists h, b, s, l, r.
Qed.

Lemma ALIGNMORE_range a : 1 <= ALIGNMORE a <= 4.
Proof.
  unfold ALIGNMORE. assert (Z.land a 3 = a mod 4) as -> by (apply (Z.land_ones a 2); lia).
  pose proof (Z.mod_pos_bound a 4 ltac:(lia)). lia.
Qed.

Lemma ALIGNMORE_aligns a : Z.land (a + ALIGNMORE a) 3 = 0.
Proof.
  unfold ALIGNMORE. rewrite !(Z.land_ones _ 2) by lia. change (2 ^ 2) with 4.
  pose proof (Z.div_mod a 4 ltac:(lia)). apply Z.mod_divide; [lia|]. exists (a / 4 + 1). lia.
Qed.
