(* ===== verification/KmemThms.v ===== *)
(** * The kernel heap keeps its memory apart

    Every byte of the region belongs to at most one of: a free block, a header, an unused page
    of the map, a block waiting to be freed; all other bytes are the callers'.  kmem_free()
    and kmem_alloc() keep this and move exactly the block between the caller and the free
    bytes. *)

From S2P Require Import Prelude Rmap Kmem KmemTree.
From stdpp Require Import prelude list numbers strings.
From Stdlib Require Import ZArith Lia Sorted.

Local Open Scope Z_scope.
Local Open Scope kern_scope.

Lemma wrapu_zero_iff z : 0 <= z < 2 ^ 32 -> (wrapu 32 z <? 1) = (z =? 0).
Proof. intros H. rewrite wrapu_small by done. lia. Qed.

Section Thms.
Context {M : Type} `{RM : !ResMap M} (usrpt : Z) (intsvc : bool).
Hypothesis Hbase : 0 < usrpt /\ usrpt + USRPTSIZE * NBPG <= 2 ^ 32 /\ usrpt mod 4 = 0.
Implicit Type st : kmem_info M.

Local Abbreviation kfree := (kmem_free usrpt intsvc).
Local Abbreviation kalloc := (kmem_alloc usrpt intsvc).

(** ** Who owns a byte *)

Definition arena (a : Z) : Prop := usrpt <= a < usrpt + USRPTSIZE * NBPG.
Definition page (u a : Z) : Prop := usrpt + u * NBPG <= a < usrpt + (u + 1) * NBPG.

Definition hdrs_at (hs : list Z) (a : Z) : Prop := Exists (fun h => h <= a < h + HDRSIZE) hs.

Definition free_at st (a : Z) : Prop := covers (inorder (free_root st)) a.
Definition hdr_at st (a : Z) : Prop := hdrs_at (headers (free_root st) ++ free_hdr_list st) a.
Definition page_at st (a : Z) : Prop := exists u, rm_unit (kmap st) u /\ page u a.
Definition pending st : list (Z * Z) :=
  need_to_free_list st ++ filter (fun e => e.1 <> 0) (need_to_free st).
Definition pend_at st (a : Z) : Prop := covers (pending st) a.

Definition owned st (a : Z) : Prop := free_at st a \/ hdr_at st a \/ page_at st a \/ pend_at st a.

Definition exclusive st : Prop := forall a,
  (free_at st a -> ~ hdr_at st a /\ ~ page_at st a /\ ~ pend_at st a) /\
  (hdr_at st a -> ~ page_at st a /\ ~ pend_at st a) /\ (page_at st a -> ~ pend_at st a).

(** The blocks waiting to be freed do not overlap. *)
Fixpoint separate (l : list (Z * Z)) : Prop :=
  match l with
  | [] => True
  | x :: l' => 0 <= x.2 /\ (forall a, in_block x a -> arena a /\ ~ covers l' a) /\
               arena x.1 /\ separate l'
  end.

(** Headers do not overlap, and lie in the region. *)
Definition hdrs_ok (hs : list Z) : Prop :=
  NoDup hs /\ Forall (fun h => (h - usrpt) mod HDRSIZE = 0) hs /\ forall a, hdrs_at hs a -> arena a.

Record kmem_wf st : Prop := {
  k_map : rm_inv (kmap st);
  k_units : forall u, rm_unit (kmap st) u -> u < USRPTSIZE;
  k_heap : heap (free_root st);
  k_spaced : spaced (inorder (free_root st));
  k_arena : forall a, free_at st a -> arena a;
  k_hdrs : hdrs_ok (headers (free_root st) ++ free_hdr_list st);
  k_pend : separate (pending st);
  k_excl : exclusive st
}.

(** A block of the caller. *)
Definition lent st (p n : Z) : Prop := forall a, in_block (p, n) a -> arena a /\ ~ owned st a.

(** ** Results: the routine blocks in getpages, or returns with [Q] *)

Definition blocked {A} (r : kres A) : Prop :=
  r = if intsvc then KPanic "getpages called at interrupt level" else KSleep.
Definition yields {A} (c : Prop) (r : kres A) (Q : A -> Prop) : Prop :=
  (c /\ blocked r) \/ exists a, r = KOk a /\ Q a.

Lemma yields_bind {A B} c (r : kres A) (k : A -> kres B) Q Q' :
  yields c r Q -> (forall a, Q a -> yields c (k a) Q') -> yields c (r ≫= k) Q'.
Proof.
  intros [[Hc Hb]|(a & -> & Ha)] Hk; [|by apply Hk]. left. split; [done|].
  unfold blocked in *. rewrite Hb. by destruct intsvc.
Qed.

Lemma yields_ret {A} c (a : A) (Q : A -> Prop) : Q a -> yields c (KOk a) Q.
Proof. intros. right. eauto. Qed.

Lemma yields_weaken {A} (c c' : Prop) (r : kres A) (Q Q' : A -> Prop) :
  yields c r Q -> (c -> c') -> (forall a, Q a -> Q' a) -> yields c' r Q'.
Proof. intros [[Hc Hb]|(a & -> & Ha)] H1 H2; [left; auto|right; eauto]. Qed.

(** ** Pages and headers *)

Lemma page_in u a : 0 < u < USRPTSIZE -> page u a -> arena a.
Proof. unfold page, arena, USRPTSIZE, NBPG. simpl. lia. Qed.

Lemma page_of a : arena a -> exists u, 0 <= u < USRPTSIZE /\ page u a.
Proof.
  intros H. exists ((a - usrpt) / NBPG). unfold arena, page, USRPTSIZE, NBPG in *.
  pose proof (Z.div_mod (a - usrpt) 8192 ltac:(lia)). pose proof (Z.mod_pos_bound (a - usrpt) 8192 ltac:(lia)).
  simpl in *. lia.
Qed.

(** The state after some pages have been taken from the map: they are the caller's. *)
Lemma getpages_spec n st : kmem_wf st -> 0 < n ->
  yields True (getpages usrpt intsvc n st) (fun r =>
    let '(va, st') := r in exists m, st' = set_kmap st m /\ kmem_wf st' /\ 0 < va /\ (va - usrpt) mod NBPG = 0 /\
      (forall a, in_block (va, n * NBPG) a -> arena a /\ page_at st a /\ ~ owned st' a) /\
      (forall a, owned st' a -> owned st a)).
Proof.
  intros Hw Hn. unfold getpages.
  destruct (rm_alloc_spec (kmap st) n (k_map _ Hw) Hn) as (x & m & -> & Hi & Hx). simpl.
  destruct Hx as [[-> ->]|(Hx & Hu & Hu')]; [left; split; [done|]; unfold blocked; by destruct intsvc|].
  destruct (Z.eqb_spec x 0); [lia|]. apply yields_ret. exists m. split; [done|].
  rewrite Z.shiftl_mul_pow2 by (unfold PGSHIFT; lia). change (2 ^ PGSHIFT) with NBPG.
  destruct Hbase as (Hb & _). assert (0 < NBPG) as HN by done.
  assert (forall a, page_at (set_kmap st m) a -> page_at st a /\ ~ in_block (usrpt + x * NBPG, n * NBPG) a) as Hpg.
  { intros a (u & Hum & Hp). destruct (Hu' u Hum) as [Hus Hne]. split; [by exists u|].
    unfold page, in_block in *. simpl. intros Ha. apply Hne. nia. }
  assert (forall a, in_block (usrpt + x * NBPG, n * NBPG) a -> page_at st a) as Hin.
  { intros a Ha. exists ((a - usrpt) / NBPG). unfold in_block, page in *. simpl in Ha.
    pose proof (Z.div_mod (a - usrpt) NBPG ltac:(lia)). pose proof (Z.mod_pos_bound (a - usrpt) NBPG HN).
    split; [|nia]. apply Hu. nia. }
  split; [|split; [nia|split; [|split]]].
  - destruct Hw as [W1 W2 W3 W4 W5 W6 W7 W8]. constructor; simpl; try done.
    + intros u Hum. by apply W2, Hu'.
    + intros a. destruct (W8 a) as (X1 & X2 & X3). specialize (Hpg a). unfold free_at, hdr_at, pend_at in *.
      simpl in *. unfold pending in *. simpl in *. tauto.
  - rewrite Z.add_simpl_l. by apply Z_mod_mult.
  - intros a Ha. pose proof (Hin a Ha) as Hp. destruct Hp as (u & Hus & Hp). split; [|split; [by exists u|]].
    + apply (page_in u); [|done]. split; [by eapply rm_unit_pos, Hus; apply Hw|by apply (k_units _ Hw)].
    + assert (page_at st a) as Hpa by (by exists u). destruct (k_excl _ Hw a) as (X1 & X2 & X3).
      specialize (Hpg a). unfold owned, free_at, hdr_at, pend_at, pending in *. simpl in *. tauto.
  - intros a. specialize (Hpg a). unfold owned, free_at, hdr_at, pend_at, pending. simpl. tauto.
Qed.

Lemma push_hdrs_elem k r n l x : x ∈ push_hdrs k r n l <->
  x ∈ l \/ exists i, n <= i < n + Z.of_nat k /\ x = r + i * HDRSIZE.
Proof.
  revert n l. induction k as [|k IH]; intros n l; simpl.
  - split; [by left|]. intros [?|(i & Hi & _)]; [done|lia].
  - rewrite IH, elem_of_cons. split.
    + intros [[->|?]|(i & Hi & ->)]; [right|by left|right]; eexists; (split; [|done]); lia.
    + intros [?|(i & Hi & ->)]; [by left; right|]. destruct (decide (i = n)) as [->|]; [by left; left|].
      right. exists i. split; [lia|done].
Qed.

Lemma push_hdrs_NoDup k r n l : NoDup l -> (forall i, n <= i -> r + i * HDRSIZE ∉ l) -> NoDup (push_hdrs k r n l).
Proof.
  revert n l. induction k as [|k IH]; intros n l Hd Hl; simpl; [done|]. apply IH.
  - constructor; [apply Hl; lia|done].
  - intros i Hi [E|Hin]%elem_of_cons; [unfold HDRSIZE in E; lia|]. apply (Hl i); [lia|done].
Qed.

Lemma hdrs_at_cons h hs a : hdrs_at (h :: hs) a <-> h <= a < h + HDRSIZE \/ hdrs_at hs a.
Proof. apply Exists_cons. Qed.

Lemma hdrs_at_app h1 h2 a : hdrs_at (h1 ++ h2) a <-> hdrs_at h1 a \/ hdrs_at h2 a.
Proof. apply Exists_app. Qed.

Lemma hdrs_at_perm h1 h2 a : h1 ≡ₚ h2 -> hdrs_at h1 a <-> hdrs_at h2 a.
Proof. intros E. unfold hdrs_at. by rewrite E. Qed.

#[export] Instance hdrs_ok_proper : Proper ((≡ₚ) ==> iff) hdrs_ok.
Proof.
  intros h1 h2 E. unfold hdrs_ok. rewrite E. split; intros (H1 & H2 & H3); (split; [done|split; [done|]]);
    intros a Ha; apply H3; by apply (hdrs_at_perm _ _ a E).
Qed.

(** A header's bytes are its own. *)
Lemma hdrs_ok_cons h hs : hdrs_ok (h :: hs) <->
  hdrs_ok hs /\ (h - usrpt) mod HDRSIZE = 0 /\ forall a, h <= a < h + HDRSIZE -> arena a /\ ~ hdrs_at hs a.
Proof.
  unfold hdrs_ok. rewrite NoDup_cons, Forall_cons. split.
  - intros ((Hn & Hd) & (Hm & Hms) & Ha). split_and!; [done|done| |done|].
    + intros a Hin. apply Ha, hdrs_at_cons. by right.
    + intros a Hin. split; [apply Ha, hdrs_at_cons; by left|]. intros (x & Hx & Hin')%Exists_exists.
      rewrite Forall_forall in Hms. specialize (Hms x Hx). apply Hn. replace h with x; [done|].
      unfold HDRSIZE in *. Z.to_euclidean_division_equations. lia.
  - intros ((Hd & Hms & Ha) & Hm & Hb). split_and!; try done.
    + intros Hin. apply (Hb h); [unfold HDRSIZE; lia|]. apply Exists_exists. exists h. split; [done|].
      unfold HDRSIZE. lia.
    + intros a [H|H]%hdrs_at_cons; [by apply Hb|by apply Ha].
Qed.

(** A header for the caller: it is the start of 16 bytes nobody owns. *)
Definition spare st (h : Z) : Prop := (h - usrpt) mod HDRSIZE = 0 /\ lent st h HDRSIZE.

Definition same_pending st st' : Prop :=
  need_to_free_list st' = need_to_free_list st /\ need_to_free st' = need_to_free st.

(** A fresh page, cut into headers. *)
Lemma page_hdrs r : (r - usrpt) mod NBPG = 0 -> (forall a, in_block (r, NBPG) a -> arena a) ->
  let l := push_hdrs (Z.to_nat (CLSIZE * NBPG / HDRSIZE - 1)) r 1 [] in
  hdrs_ok (r :: l) /\ forall a, hdrs_at (r :: l) a -> in_block (r, NBPG) a.
Proof.
  intros Hm Ha l.
  assert (forall x, x ∈ r :: l -> exists i, 0 <= i < 512 /\ x = r + i * HDRSIZE) as Hel.
  { intros x [->|Hx]%elem_of_cons; [exists 0; unfold HDRSIZE; lia|].
    apply push_hdrs_elem in Hx as [Hx|(i & Hi & ->)]; [by apply not_elem_of_nil in Hx|].
    exists i. split; [|done]. change (Z.of_nat (Z.to_nat (CLSIZE * NBPG / HDRSIZE - 1))) with 511 in Hi. lia. }
  assert (forall a, hdrs_at (r :: l) a -> in_block (r, NBPG) a) as Hin.
  { intros a (x & Hx & Hb)%Exists_exists. destruct (Hel x Hx) as (i & Hi & ->).
    unfold in_block, HDRSIZE, NBPG in *. simpl. lia. }
  split; [|done]. split; [|split].
  - constructor.
    + intros [Hx|(i & Hi & E)]%push_hdrs_elem; [by apply not_elem_of_nil in Hx|unfold HDRSIZE in E; lia].
    + apply push_hdrs_NoDup; [constructor|]. intros i _ Hx. by apply not_elem_of_nil in Hx.
  - apply Forall_forall. intros x Hx. destruct (Hel x Hx) as (i & Hi & ->).
    unfold HDRSIZE, NBPG in *. Z.to_euclidean_division_equations. lia.
  - intros a H. by apply Ha, Hin.
Qed.

Lemma set_hdrs_wf st l : kmem_wf st -> hdrs_ok (headers (free_root st) ++ l) ->
  (forall a, hdrs_at l a -> ~ free_at st a /\ ~ page_at st a /\ ~ pend_at st a) ->
  kmem_wf (set_hdrs st l).
Proof.
  intros [W1 W2 W3 W4 W5 W6 W7 W8] Hok Hl. constructor; simpl; try done.
  intros a. destruct (W8 a) as (X1 & X2 & X3). unfold hdr_at, free_at, page_at, pend_at, pending in *. simpl in *.
  rewrite hdrs_at_app in *. specialize (Hl a). tauto.
Qed.

(** The first header of a fresh page of the caller, the others going on the empty list. *)
Lemma fresh_hdrs st r : kmem_wf st -> free_hdr_list st = [] -> (r - usrpt) mod NBPG = 0 ->
  (forall a, in_block (r, NBPG) a -> arena a /\ ~ owned st a) ->
  let st' := set_hdrs st (push_hdrs (Z.to_nat (CLSIZE * NBPG / HDRSIZE - 1)) r 1 []) in
  kmem_wf st' /\ spare st' r /\ (forall a, r <= a < r + HDRSIZE -> in_block (r, NBPG) a) /\
  (forall a, owned st' a -> owned st a \/ in_block (r, NBPG) a).
Proof.
  intros Hw El Hm Hno. destruct (page_hdrs r Hm) as (Hok & Hin); [intros a Ha; by apply Hno|]. simpl in Hin.
  set (l := push_hdrs _ r 1 []) in *. pose proof Hw as [_ _ _ _ _ W6 _ _]. rewrite El, app_nil_r in W6.
  pose proof Hok as (Hokl & Hmr & Hself)%hdrs_ok_cons.
  assert (hdrs_ok (headers (free_root st) ++ l)) as Hok2.
  { destruct W6 as (D1 & F1 & A1), Hokl as (D2 & F2 & A2). split_and!.
    - apply NoDup_app. split_and!; [done| |done]. intros x Hx Hxl.
      assert (forall k, x ∈ k -> hdrs_at k x) as Hat.
      { intros k Hk. apply Exists_exists. exists x. unfold HDRSIZE. split; [done|lia]. }
      apply (Hno x); [by apply Hin, hdrs_at_cons; right; apply Hat|].
      right. left. apply hdrs_at_app. left. by apply Hat.
    - by apply Forall_app.
    - intros a [H|H]%hdrs_at_app; auto. }
  simpl. split_and!.
  - apply set_hdrs_wf; [done|done|]. intros a Ha.
    pose proof (proj2 (Hno a (Hin a ltac:(apply hdrs_at_cons; by right)))). unfold owned in *. tauto.
  - split; [done|]. intros a Ha. destruct (Hself a Ha) as [Haa Hnl]. split; [done|].
    pose proof (proj2 (Hno a (Hin a ltac:(apply hdrs_at_cons; by left)))) as Hn.
    unfold owned, hdr_at, free_at, page_at, pend_at, pending in *. simpl in *. rewrite hdrs_at_app in *. tauto.
  - intros a Ha. apply Hin, hdrs_at_cons. by left.
  - intros a. specialize (Hin a). rewrite hdrs_at_cons in Hin.
    unfold owned, hdr_at, free_at, page_at, pend_at, pending in *. simpl in *. rewrite !hdrs_at_app. tauto.
Qed.

Lemma getfreehdr_spec st : kmem_wf st ->
  yields (free_hdr_list st = []) (getfreehdr usrpt intsvc st) (fun r =>
    let '(h, st') := r in kmem_wf st' /\ spare st' h /\ free_root st' = free_root st /\
      same_pending st st' /\ (forall a, h <= a < h + HDRSIZE -> hdr_at st a \/ page_at st a) /\
      (forall a, owned st' a -> owned st a) /\ (free_hdr_list st' = [] -> free_hdr_list st = [h])).
Proof.
  intros Hw. unfold getfreehdr. destruct (free_hdr_list st) as [|h l] eqn:El.
  - eapply yields_bind; [eapply yields_weaken; [apply (getpages_spec CLSIZE st Hw); done|done|intros r Hr; exact Hr]|].
    intros [r st1] (m & -> & Hw1 & Hr & Hm & Hblk & Hown). rewrite (proj2 (Z.eqb_neq r 0)) by lia.
    apply yields_ret. change (CLSIZE * NBPG) with NBPG in Hblk.
    destruct (fresh_hdrs (set_kmap st m) r Hw1 El Hm) as (Hw2 & Hsp & Hin & Hown2).
    { intros a Ha. by destruct (Hblk a Ha) as (? & _ & ?). }
    split_and!; try done.
    + intros a Ha. right. by apply Hblk, Hin.
    + intros a [Ha|Ha]%Hown2; [by apply Hown|]. right. right. left. by apply Hblk.
  - apply yields_ret. pose proof Hw as [W1 W2 W3 W4 W5 W6 W7 W8]. rewrite El in W6.
    rewrite <- Permutation_middle in W6. apply hdrs_ok_cons in W6 as (Hok & Hm & Hself).
    assert (forall a, hdrs_at l a -> hdr_at st a) as Hl.
    { intros a Ha. unfold hdr_at. rewrite El. apply hdrs_at_app. right. apply hdrs_at_cons. by right. }
    assert (forall a, h <= a < h + HDRSIZE -> hdr_at st a) as Hh.
    { intros a Ha. unfold hdr_at. rewrite El. apply hdrs_at_app. right. apply hdrs_at_cons. by left. }
    split; [|split; [|split; [done|split; [done|split; [|split]]]]].
    + apply set_hdrs_wf; [done|done|]. intros a Ha. specialize (Hl a Ha). destruct (W8 a). tauto.
    + split; [done|]. intros a Ha. destruct (Hself a Ha) as [Haa Hnl]. split; [done|].
      specialize (Hh a Ha). destruct (W8 a) as (X1 & X2 & X3).
      unfold owned, free_at, hdr_at, page_at, pend_at, pending in *. simpl in *. tauto.
    + auto.
    + intros a. unfold owned, hdr_at, free_at, page_at, pend_at, pending. simpl. rewrite El.
      rewrite !hdrs_at_app, hdrs_at_cons. tauto.
    + simpl. by intros ->.
Qed.

(** ** Freeing *)

(** A block of the caller joins the tree, under a spare header. *)
Lemma add_node st h p n t : kmem_wf st -> spare st h -> lent st p n ->
  (forall a, in_block (p, n) a -> ~ (h <= a < h + HDRSIZE)) ->
  heap t -> spaced (inorder t) -> headers t ≡ₚ h :: headers (free_root st) ->
  (forall a, covers (inorder t) a <-> in_block (p, n) a \/ free_at st a) ->
  kmem_wf (set_root st t) /\
  forall a, owned (set_root st t) a -> owned st a \/ in_block (p, n) a \/ h <= a < h + HDRSIZE.
Proof.
  intros Hw [Hm Hh] Hl Hd Ht Hs Eh Hc.
  assert (forall a, hdr_at (set_root st t) a <-> h <= a < h + HDRSIZE \/ hdr_at st a) as Hhd.
  { intros a. unfold hdr_at. simpl. rewrite (hdrs_at_perm _ _ a (Permutation_app_tail _ Eh)). simpl.
    apply hdrs_at_cons. }
  split; [|intros a; unfold owned, free_at, page_at, pend_at, pending in *; simpl in *; rewrite Hhd, Hc; tauto].
  destruct Hw as [W1 W2 W3 W4 W5 W6 W7 W8]. constructor; simpl; try done.
  - intros a [Ha|Ha]%Hc; [by apply Hl|by apply W5].
  - rewrite Eh. simpl. apply hdrs_ok_cons. split; [done|]. split; [done|]. intros a Ha.
    destruct (Hh a Ha) as [Haa Hn]. split; [done|]. intros Hin. apply Hn. right. by left.
  - intros a. specialize (Hhd a). specialize (Hc a). specialize (Hh a). specialize (Hl a). specialize (Hd a).
    destruct (W8 a) as (X1 & X2 & X3).
    unfold in_block, owned, free_at, page_at, pend_at, pending in *. simpl in *. tauto.
Qed.

Definition freed st (p n : Z) st' : Prop :=
  kmem_wf st' /\ (forall a, free_at st' a <-> free_at st a \/ in_block (p, n) a) /\
  (forall a, owned st' a -> owned st a \/ in_block (p, n) a) /\ same_pending st st'.

Lemma kmem_insert_spec p n st : kmem_wf st -> lent st p n -> 0 < n ->
  clear_of p n (inorder (free_root st)) ->
  yields (free_hdr_list st = []) (kmem_insert usrpt intsvc p n st) (freed st p n).
Proof.
  intros Hw Hl Hn Hc. unfold kmem_insert. destruct (Z.leb_spec n 0); [lia|].
  eapply yields_bind; [by apply getfreehdr_spec|].
  intros [h st1] (Hw1 & Hsp & Er & Hpd & Hsrc & Hown & _). apply yields_ret. rewrite Er.
  destruct (tree_insert_spec h p n (free_root st) Hn (k_heap _ Hw) (k_spaced _ Hw) Hc) as (H1 & _ & H3 & H4).
  set (t := tree_insert h p n (free_root st)) in *.
  assert (forall a, covers (inorder t) a <-> in_block (p, n) a \/ free_at st a) as Hcov.
  { intros a. rewrite H3. apply place_covers. }
  assert (forall a, free_at st1 a <-> free_at st a) as Hf by (intros a; unfold free_at; by rewrite Er).
  destruct (add_node st1 h p n t) as [Hw2 Hown2]; try done.
  - intros a Ha. destruct (Hl a Ha) as [? Hno]. split; [done|]. auto.
  - intros a Ha Hha. destruct (Hl a Ha) as [_ Hno]. apply Hno.
    destruct (Hsrc a Hha); [right; by left|right; right; by left].
  - rewrite H3. by apply place_spaced; [..|apply Hw|].
  - by rewrite Er.
  - intros a. rewrite Hf. apply Hcov.
  - split; [done|]. split; [|split].
    + intros a. unfold free_at at 1. simpl. rewrite Hcov. tauto.
    + intros a [Ha|[Ha|Ha]]%Hown2; [left; auto|by right|]. left.
      destruct (Hsrc a Ha); [right; by left|right; right; by left].
    + done.
Qed.

(** kmem_free() of a block of the caller: it joins the free bytes, and nothing else changes
    hands. *)
Lemma kmem_free_spec p n st : kmem_wf st -> 0 <= n -> lent st p n ->
  usrpt <= p <= usrpt + USRPTSIZE * NBPG ->
  yields (free_hdr_list st = []) (kfree p n st) (freed st p n).
Proof.
  intros Hw Hn Hl Hp. unfold kmem_free. destruct (Z.eqb_spec n 0) as [->|Hnz].
  { apply yields_ret. split; [done|]. split; [|split; [by left|done]]. intros a.
    unfold in_block. simpl. split; [by left|]. intros [?|?]; [done|lia]. }
  destruct (Z.ltb_spec p usrpt); [lia|]. destruct (Z.ltb_spec (usrpt + USRPTSIZE * NBPG) p); [lia|]. cbn [orb].
  destruct (free_walk_spec (S (nodes (free_root st))) (free_root st) p n (free_hdr_list st))
    as ([[[t p'] n'] hl] & -> & H1 & H2 & H3 & H4 & H5 & H6 & H7 & H8 & k & H9);
    [apply Hw|apply Hw|lia| |lia|].
  { intros a Ha Hc. apply (Hl a Ha). by left. }
  cbn [lift mbind kres_bind]. set (st1 := set_hdrs (set_root st t) hl).
  assert (forall a, covers (inorder t) a -> free_at st a) as Hsub.
  { intros a (x & Hx & Hin)%Exists_exists. eapply covers_in; [by apply H8|done]. }
  assert (forall a, hdr_at st1 a <-> hdr_at st a) as Hhd by (intros a; by apply hdrs_at_perm).
  assert (kmem_wf st1) as Hw1.
  { destruct Hw as [W1 W2 W3 W4 W5 W6 W7 W8]. constructor; simpl; try done.
    - intros a Ha. by apply W5, Hsub.
    - by rewrite H7.
    - intros a. specialize (Hhd a). specialize (Hsub a). destruct (W8 a) as (X1 & X2 & X3).
      unfold free_at, page_at, pend_at, pending in *. simpl in *. tauto. }
  assert (forall a, owned st1 a -> owned st a) as Hown.
  { intros a. specialize (Hhd a). specialize (Hsub a).
    unfold owned, free_at, page_at, pend_at, pending in *. simpl in *. tauto. }
  eapply yields_weaken; [apply kmem_insert_spec; try done| |].
  - intros a Ha. destruct (proj1 (H6 a) (or_introl Ha)) as [Hb|Hb].
    + destruct (Hl a Hb) as [? Hno]. split; [done|]. auto.
    + split; [by apply (k_arena _ Hw)|]. assert (~ covers (inorder t) a) as Hnc.
      { intros (x & Hx & Hin)%Exists_exists. unfold clear_of in H4. rewrite Forall_forall in H4.
        specialize (H4 x Hx). unfold in_block in *. simpl in *. lia. }
      destruct (k_excl _ Hw a) as (X1 & _). specialize (X1 Hb). specialize (Hhd a).
      unfold owned, free_at, page_at, pend_at, pending in *. simpl in *. tauto.
  - simpl. intros E. rewrite E in H9. by destruct k, (free_hdr_list st).
  - intros st' (Hw' & Hf & Ho & Hpd). split; [done|]. split; [|split; [|done]].
    + intros a. rewrite (Hf a). specialize (H6 a). unfold free_at at 1. simpl. unfold free_at. tauto.
    + intros a [Ha|Ha]%Ho; [left; auto|]. destruct (proj1 (H6 a) (or_introl Ha)); [by right|left; by left].
Qed.

(** ** The blocks freed at interrupt level *)

Lemma take_slot_spec l : match take_slot l with
  | Some (addr, n, l') => filter (fun e => e.1 <> 0) l = (addr, n) :: filter (fun e => e.1 <> 0) l'
  | None => filter (fun e : Z * Z => e.1 <> 0) l = []
  end.
Proof.
  induction l as [|[a n] l IH]; simpl; [done|]. destruct (Z.eqb_spec a 0) as [->|Hne].
  - rewrite filter_cons_False by (simpl; lia). destruct (take_slot l) as [[[addr m] l']|]; simpl in *; [|done].
    by rewrite filter_cons_False by (simpl; lia).
  - rewrite filter_cons_True by (simpl; lia). rewrite (filter_cons_False _ (0, n)) by (simpl; lia). done.
Qed.

(** The next waiting block goes to the caller. *)
Lemma pending_next st x l a : kmem_wf st -> pending st = x :: pending (set_pending st l a) ->
  kmem_wf (set_pending st l a) /\ 0 <= x.2 /\ arena x.1 /\ lent (set_pending st l a) x.1 x.2 /\
  (forall b, owned st b <-> owned (set_pending st l a) b \/ in_block x b).
Proof.
  intros [W1 W2 W3 W4 W5 W6 W7 W8] E. rewrite E in W7. simpl in W7. destruct W7 as (Hn & Hx & Ha & Hs).
  assert (forall b, pend_at st b <-> in_block x b \/ pend_at (set_pending st l a) b) as Hpd.
  { intros b. unfold pend_at. rewrite E. apply covers_cons. }
  set (st' := set_pending st l a) in *. split_and!; try done.
  - constructor; try done. intros b. specialize (Hpd b). destruct (W8 b) as (X1 & X2 & X3).
    unfold free_at, hdr_at, page_at in *. simpl in *. tauto.
  - intros b Hb. replace (x.1, x.2) with x in Hb by (by destruct x). destruct (Hx b Hb) as [Har Hn2].
    split; [done|]. specialize (Hpd b). destruct (W8 b) as (X1 & X2 & X3). unfold pend_at in *.
    unfold owned, free_at, hdr_at, page_at, pend_at in *. simpl in *. tauto.
  - intros b. specialize (Hpd b). unfold owned, free_at, hdr_at, page_at in *. simpl in *. tauto.
Qed.

(** All waiting blocks have been freed. *)
Definition settled st st' : Prop :=
  kmem_wf st' /\ pending st' = [] /\ (forall a, free_at st' a <-> free_at st a \/ pend_at st a) /\
  (forall a, owned st' a -> owned st a).

Lemma settle_step st x l a k : kmem_wf st -> pending st = x :: pending (set_pending st l a) ->
  (forall st', same_pending (set_pending st l a) st' -> kmem_wf st' -> yields True (k st') (settled st')) ->
  yields True (st' ← kfree x.1 x.2 (set_pending st l a); k st') (settled st).
Proof.
  intros Hw E Hk. destruct (pending_next st x l a Hw E) as (Hw' & Hn & Ha & Hl & Ho).
  eapply yields_bind; [eapply yields_weaken; [apply kmem_free_spec; try done|done|intros ? H; exact H]|].
  { unfold arena in Ha. lia. }
  intros st' (H1 & H2 & H3 & H4). eapply yields_weaken; [by apply Hk|done|].
  intros st2 (S1 & S2 & S3 & S4). split; [done|]. split; [done|]. destruct H4 as [P1 P2].
  assert (pending st' = pending (set_pending st l a)) as Ep by (unfold pending; by rewrite P1, P2).
  split.
  - intros b. rewrite S3, H2. unfold pend_at. rewrite Ep, E, covers_cons. replace (x.1, x.2) with x by (by destruct x).
    unfold free_at. simpl. tauto.
  - intros b Hb. apply Ho. replace x with (x.1, x.2) by (by destruct x). auto.
Qed.

Lemma check_need_to_free_spec fuel st : kmem_wf st -> (length (pending st) < fuel)%nat ->
  yields True (check_need_to_free usrpt intsvc fuel st) (settled st).
Proof.
  revert st. induction fuel as [|f IH]; intros st Hw Hf; [lia|]. simpl.
  destruct (need_to_free_list st) as [|[addr n] l] eqn:El.
  - pose proof (take_slot_spec (need_to_free st)) as Ht. destruct (take_slot _) as [[[addr n] a]|].
    + assert (pending st = (addr, n) :: pending (set_pending st [] a)) as E.
      { unfold pending. rewrite El, Ht. done. }
      apply (settle_step st (addr, n) [] a); [done|done|]. intros st' [P1 P2] Hw'. apply IH; [done|].
      rewrite E in Hf. simpl in Hf. unfold pending. rewrite P1, P2. unfold pending in Hf. simpl in *. lia.
    + assert (pending st = []) as E by (unfold pending; by rewrite El, Ht).
      apply yields_ret. split_and!; try done. intros a. unfold pend_at. rewrite E, covers_nil. tauto.
  - assert (pending st = (addr, n) :: pending (set_pending st l (need_to_free st))) as E.
    { unfold pending. by rewrite El. }
    apply (settle_step st (addr, n) l); [done|done|]. intros st' [P1 P2] Hw'. apply IH; [done|].
    rewrite E in Hf. simpl in Hf. unfold pending. rewrite P1, P2. unfold pending in Hf. simpl in *. lia.
Qed.
End Thms.
