(* ===== verification/KmemAlloc.v ===== *)
(** * kmem_alloc(): the block handed out is free memory, and large enough

    [carve] replaces a node of the tree by a smaller piece of its block; [take_node_spec] is
    the tail of kmem_alloc() once a node is chosen, [morecore_spec] the extension of the heap,
    and the properties of kmem_alloc() and kmem_free() as a pair follow. *)

From S2P Require Import Prelude Rmap Kmem KmemTree KmemThms.
From stdpp Require Import prelude list numbers strings.
From Stdlib Require Import ZArith Lia Sorted.

Local Open Scope Z_scope.
Local Open Scope kern_scope.

Section Alloc.
Context {M : Type} `{RM : !ResMap M} (usrpt : Z) (intsvc : bool).
Hypothesis Hbase : 0 < usrpt /\ usrpt + USRPTSIZE * NBPG <= 2 ^ 32 /\ usrpt mod 4 = 0.
Implicit Type st : kmem_info M.

Local Abbreviation kfree := (kmem_free usrpt intsvc).
Local Abbreviation kalloc := (kmem_alloc usrpt intsvc).
Local Abbreviation wf := (kmem_wf usrpt).
Local Abbreviation own := (owned usrpt).
Local Abbreviation region := (arena usrpt).
Local Abbreviation gives := (yields intsvc).

(** ** Replacing a node *)

(** What is left of the block ([b], [s]): nothing, or a piece. *)
Definition piece_of (b s : Z) (l : list (Z * Z)) : Prop :=
  l = [] \/ exists b' s', l = [(b', s')] /\ b <= b' /\ b' + s' <= b + s /\ 0 < s'.

Lemma piece_spaced b s pcs A B : piece_of b s pcs -> spaced (A ++ (b, s) :: B) -> spaced (A ++ pcs ++ B).
Proof.
  intros [->|(b' & s' & -> & H1 & H2 & H3)] Hs; cbn [app].
  - apply spaced_app in Hs as (HA & (Hb & HB & HbB)%spaced_cons & HAB). apply spaced_app.
    split_and!; [done..|]. intros x y Hx Hy. apply HAB; [done|by right].
  - apply spaced_app in Hs as (HA & (Hb & HB & HbB)%spaced_cons & HAB). rewrite spaced_app, spaced_cons.
    split_and!; [done|done|done| |].
    + rewrite Forall_forall in *. intros y Hy. specialize (HbB y Hy). unfold apart in *. simpl in *. lia.
    + intros x y Hx [->|Hy]%elem_of_cons; [|by apply HAB; [|right]].
      specialize (HAB x (b, s) Hx ltac:(by left)). unfold apart in *. simpl in *. lia.
Qed.

Lemma piece_in b s pcs a : piece_of b s pcs -> covers pcs a -> in_block (b, s) a.
Proof.
  intros [->|(b' & s' & -> & H1 & H2 & H3)] Hc; [by apply covers_nil in Hc|].
  apply covers_cons in Hc as [Hc|Hc]; [|by apply covers_nil in Hc]. unfold in_block in *. simpl in *. lia.
Qed.

(** The free bytes after the block ([b], [s]) has been cut down to the pieces. *)
Lemma piece_covers b s pcs A B a : piece_of b s pcs -> spaced (A ++ (b, s) :: B) ->
  covers (A ++ pcs ++ B) a <-> covers (A ++ (b, s) :: B) a /\ (in_block (b, s) a -> covers pcs a).
Proof.
  intros Hp Hs. rewrite !covers_app, covers_cons. pose proof (piece_in b s pcs a Hp).
  apply spaced_app in Hs as (HA & (Hb & HB & HbB)%spaced_cons & HAB). split; [|tauto].
  assert (covers A a -> ~ in_block (b, s) a).
  { intros (x & Hx & Hin)%Exists_exists. specialize (HAB x (b, s) Hx ltac:(by left)).
    unfold apart, in_block in *. simpl in *. lia. }
  assert (covers B a -> ~ in_block (b, s) a).
  { intros (x & Hx & Hin)%Exists_exists. rewrite Forall_forall in HbB. specialize (HbB x Hx).
    unfold apart, in_block in *. simpl in *. lia. }
  tauto.
Qed.

(** The node at [p] gives way to [t], which keeps the pieces under the spare headers [hs];
    its own header [h] becomes spare. *)
Lemma carve st p h b s l r t hs pcs : wf st -> at_path (free_root st) p = Node h b s l r ->
  heap t -> weight t <= s -> inorder t = inorder l ++ pcs ++ inorder r -> piece_of b s pcs ->
  headers t ≡ₚ hs ++ headers l ++ headers r -> (hs = [] \/ exists x, hs = [x] /\ spare usrpt st x) ->
  let st' := set_root st (put_path (free_root st) p t) in
  wf st' /\ spare usrpt st' h /\ (forall a, in_block (b, s) a -> free_at st a) /\
  (forall a, free_at st' a <-> free_at st a /\ (in_block (b, s) a -> covers pcs a)) /\
  (forall a, own st' a -> (own st a \/ hdrs_at hs a) /\ (in_block (b, s) a -> covers pcs a)).
Proof.
  intros Hw Ep Ht Hwt Ei Hp Eh Hhs st'. destruct (path_spec (free_root st) p) as (A & B & HA & HB & P1 & P2 & P3 & P4).
  destruct (path_heap (free_root st) p (k_heap _ _ Hw)) as (_ & _ & Hput). rewrite Ep in P2, P4, Hput.
  specialize (P1 t). specialize (P3 t). destruct (Hput t Ht Hwt) as [Hh' _]. simpl in P2, P4.
  pose proof Hw as [W1 W2 W3 W4 W5 W6 W7 W8].
  assert (inorder (free_root st) = (A ++ inorder l) ++ (b, s) :: (inorder r ++ B)) as Er by (rewrite P2; by simplify_list_eq).
  assert (inorder (free_root st') = (A ++ inorder l) ++ pcs ++ (inorder r ++ B)) as Er'.
  { simpl. rewrite P1, Ei. by simplify_list_eq. }
  rewrite Er in W4. assert (forall a, free_at st' a <-> free_at st a /\ (in_block (b, s) a -> covers pcs a)) as Hf.
  { intros a. unfold free_at. rewrite Er, Er'. by apply piece_covers. }
  assert (forall a, in_block (b, s) a -> free_at st a) as Hin.
  { intros a Ha. unfold free_at. rewrite Er. rewrite covers_app, covers_cons. tauto. }
  set (rest := HA ++ headers l ++ headers r ++ HB).
  assert (headers (free_root st) ≡ₚ h :: rest) as E1.
  { rewrite P4. unfold rest. simplify_list_eq. by rewrite <- !Permutation_middle. }
  assert (headers (free_root st') ≡ₚ hs ++ rest) as E2.
  { simpl. rewrite P3, Eh. unfold rest. solve_Permutation. }
  rewrite E1 in W6. cbn [app] in W6. apply hdrs_ok_cons in W6 as (Hok & Hm & Hself).
  assert (forall a, hdr_at st a <-> h <= a < h + HDRSIZE \/ hdrs_at (rest ++ free_hdr_list st) a) as Hh1.
  { intros a. unfold hdr_at. rewrite (hdrs_at_perm _ _ a (Permutation_app_tail _ E1)). apply hdrs_at_cons. }
  assert (forall a, hdr_at st' a <-> hdrs_at hs a \/ hdrs_at (rest ++ free_hdr_list st) a) as Hh2.
  { intros a. unfold hdr_at. rewrite (hdrs_at_perm _ _ a (Permutation_app_tail _ E2)), <- app_assoc.
    apply hdrs_at_app. }
  assert (forall a, hdrs_at hs a -> region a /\ ~ own st a) as Hhs'.
  { intros a Ha. destruct Hhs as [->|(x & -> & Hx)]; [by apply Exists_nil in Ha|].
    apply hdrs_at_cons in Ha as [Ha|Ha]; [by apply Hx|by apply Exists_nil in Ha]. }
  assert (forall a, free_at st a -> ~ hdr_at st a /\ ~ page_at usrpt st a /\ ~ pend_at st a) as X0 by apply W8.
  split; [|split; [split; [done|]|split; [done|split; [done|]]]].
  - constructor; try done.
    + rewrite Er'. by eapply piece_spaced.
    + intros a Ha. apply W5. by apply Hf.
    + change (free_hdr_list st') with (free_hdr_list st). rewrite E2.
      destruct Hhs as [->|(x & -> & Hxm & Hx)]; [done|]. apply hdrs_ok_cons. split; [done|]. split; [done|].
      intros a Ha. destruct (Hx a Ha) as [? Hno]. split; [done|]. intros Hc. apply Hno. right. left.
      apply Hh1. by right.
    + intros a. specialize (Hf a). specialize (Hh1 a). specialize (Hh2 a). specialize (Hhs' a).
      destruct (W8 a) as (X1 & X2 & X3). unfold owned, page_at, pend_at, pending in *. simpl in *. tauto.
  - intros a Ha. destruct (Hself a Ha) as [Haa Hnl]. split; [done|].
    specialize (Hf a). specialize (Hh1 a). specialize (Hh2 a). specialize (Hhs' a).
    destruct (W8 a) as (X1 & X2 & X3). unfold in_block, owned, page_at, pend_at, pending in *. simpl in *. tauto.
  - intros a. specialize (Hf a). specialize (Hh1 a). specialize (Hh2 a). specialize (Hhs' a). specialize (X0 a).
    specialize (Hin a). unfold owned, page_at, pend_at, pending in *. simpl in *. tauto.
Qed.

(** A spare header goes to the list. *)
Lemma put_hdr_spec st h : wf st -> spare usrpt st h ->
  wf (put_hdr h st) /\ forall a, own (put_hdr h st) a -> own st a \/ h <= a < h + HDRSIZE.
Proof.
  intros Hw [Hm Hh]. split.
  - apply set_hdrs_wf; [done|done| |].
    + rewrite <- Permutation_middle. apply hdrs_ok_cons. split; [apply Hw|]. split; [done|].
      intros a Ha. destruct (Hh a Ha) as [? Hno]. split; [done|]. intros Hc. apply Hno. right. by left.
    + intros a [Ha|Ha]%hdrs_at_cons; [destruct (Hh a Ha) as [_ Hno]; unfold owned in Hno; tauto|].
      assert (hdr_at st a) as Hha by (apply hdrs_at_app; by right).
      destruct (k_excl _ _ Hw a) as (X1 & X2 & X3). tauto.
  - intros a. unfold owned, hdr_at, free_at, page_at, pend_at, pending. simpl.
    rewrite !hdrs_at_app, hdrs_at_cons. tauto.
Qed.
(** ** Taking from a node *)

(** [n] bytes at [a] have gone from the free bytes to the caller; the bytes the heap owns
    are among [O]. *)
Definition taken (O : Z -> Prop) (n : Z) st (r : Z * kmem_info M) : Prop :=
  let '(a, st') := r in
  wf st' /\ (forall x, in_block (a, n) x -> free_at st x) /\
  (forall x, free_at st' x <-> free_at st x /\ ~ in_block (a, n) x) /\
  (forall x, own st' x -> O x /\ ~ in_block (a, n) x) /\
  same_pending st st' /\ (Z.land a 3 = 0 \/ n < 4) /\ free_hdr_list st' <> [].

Lemma free_hdr_disjoint st h a : spare usrpt st h -> free_at st a -> ~ (h <= a < h + HDRSIZE).
Proof. intros [_ Hh] Hf Ha. apply (Hh a Ha). by left. Qed.

Lemma covers_one b s a : covers [(b, s)] a <-> in_block (b, s) a.
Proof. rewrite covers_cons, covers_nil. tauto. Qed.

(** The header of the node is put on the list once the block has been cut. *)
Lemma taken_put (O : Z -> Prop) st st' h a n : wf st' -> spare usrpt st' h ->
  (forall x, in_block (a, n) x -> free_at st x) ->
  (forall x, h <= x < h + HDRSIZE -> O x /\ ~ free_at st x) ->
  (forall x, free_at st' x <-> free_at st x /\ ~ in_block (a, n) x) ->
  (forall x, own st' x -> O x /\ ~ in_block (a, n) x) ->
  same_pending st st' -> Z.land a 3 = 0 \/ n < 4 -> taken O n st (a, put_hdr h st').
Proof.
  intros Hw Hsp Hin Hh Hf Ho Hpd Hal. destruct (put_hdr_spec st' h Hw Hsp) as [Hw' Ho'].
  split_and!; try done; try apply Hpd; try apply Hal.
  all: intros x Hx; try (by apply Hf). all: apply Ho' in Hx as [Hx|Hx]; [by apply Ho|]; destruct (Hh x Hx); auto.
Qed.

Section Node.
Variables (st : kmem_info M) (p : list bool) (h b s : Z) (l r : freehdr) (n : Z).
Hypotheses (Hw : wf st) (Ep : at_path (free_root st) p = Node h b s l r) (Hn : 0 < n).

Lemma node_heap : 0 < s /\ weight l <= s /\ weight r <= s /\ heap l /\ heap r.
Proof.
  destruct (path_heap (free_root st) p (k_heap _ _ Hw)) as (H & _). by rewrite Ep in H.
Qed.

Lemma node_hdr x : h <= x < h + HDRSIZE -> own st x /\ ~ free_at st x.
Proof.
  intros Hx. assert (hdr_at st x) as Hh.
  { destruct (path_spec (free_root st) p) as (A & B & HA & HB & _ & _ & _ & P4). rewrite Ep in P4.
    unfold hdr_at. rewrite P4. simpl. apply Exists_exists. exists h. split; [set_solver|done]. }
  split; [right; by left|]. intros Hf. destruct (k_excl _ _ Hw x) as (X1 & _). tauto.
Qed.

Lemma node_block x : in_block (b, s) x -> free_at st x.
Proof.
  intros Hx. destruct (path_spec (free_root st) p) as (A & B & HA & HB & _ & P2 & _ & _). rewrite Ep in P2.
  unfold free_at. rewrite P2. simpl. rewrite !covers_app, covers_cons. tauto.
Qed.

Lemma node_size : 0 < s < 2 ^ 32.
Proof.
  destruct node_heap as (Hs & _). split; [done|].
  assert (region b) as H1 by (apply (k_arena _ _ Hw), node_block; unfold in_block; simpl; lia).
  assert (region (b + s - 1)) as H2 by (apply (k_arena _ _ Hw), node_block; unfold in_block; simpl; lia).
  unfold arena in *. lia.
Qed.

Variable O : Z -> Prop.
Hypothesis HO : forall a, own st a -> O a.

Lemma take_exact : s = n -> Z.land b 3 = 0 \/ n < 4 ->
  exists t, tree_delete l r = Ok t /\
    taken O n st (b, put_hdr h (set_root st (put_path (free_root st) p t))).
Proof.
  intros E Hal. destruct node_heap as (Hs & H1 & H2 & H3 & H4). rewrite <- E in Hal |- *.
  destruct (tree_delete_spec l r H3 H4) as (t & -> & Ht & Hwt & Ei & _ & Eh). exists t. split; [done|].
  destruct (carve st p h b s l r t [] [] Hw Ep Ht) as (C1 & C2 & C3 & C4 & C5); try done; [lia|by left|by left|].
  apply taken_put; try done.
  - intros x Hx. destruct (node_hdr x Hx). auto.
  - intros x. rewrite C4, covers_nil. tauto.
  - intros x Hx%C5. rewrite covers_nil in Hx. destruct Hx as [[?|Hx] ?]; [auto|by apply Exists_nil in Hx].
Qed.

Variable x : Z.
Hypotheses (Hx : spare usrpt st x) (HxO : forall a, x <= a < x + HDRSIZE -> O a).

(** Cutting the node down to one piece, under the new header [x]. *)
Lemma take_piece b' s' : b <= b' -> b' + s' <= b + s -> 0 < s' ->
  exists t, demote x b' s' l r = Ok t /\
    let st' := set_root st (put_path (free_root st) p t) in
    wf st' /\ spare usrpt st' h /\
    (forall a, free_at st' a <-> free_at st a /\ (in_block (b, s) a -> in_block (b', s') a)) /\
    (forall a, own st' a -> O a /\ (in_block (b, s) a -> in_block (b', s') a)).
Proof.
  intros Hb Hbs Hs'. destruct node_heap as (Hs & H1 & H2 & H3 & H4).
  destruct (demote_spec x b' s' l r Hs' H3 H4) as (t & -> & Ht & Hwt & Ei & Eh). exists t. split; [done|].
  destruct (carve st p h b s l r t [x] [(b', s')] Hw Ep Ht) as (C1 & C2 & C3 & C4 & C5); try done; [lia|..].
  { right. by eauto 6 with lia. }
  { right. by eauto 6 with lia. }
  split; [done|]. split; [done|]. split; intros a; [rewrite C4, covers_one; done|].
  intros Ha. apply C5 in Ha as [Ha Hc]. rewrite covers_one in Hc. split; [|done].
  destruct Ha as [?|[?|Ha]%hdrs_at_cons]; [by apply HO|by apply HxO|by apply Exists_nil in Ha].
Qed.

Lemma take_plain : n < s -> Z.land b 3 = 0 \/ n < 4 ->
  exists t, demote x (b + n) (s - n) l r = Ok t /\
    taken O n st (b, put_hdr h (set_root st (put_path (free_root st) p t))).
Proof.
  intros Hns Hal. destruct (take_piece (b + n) (s - n)) as (t & -> & C1 & C2 & C3 & C4); [lia..|].
  exists t. split; [done|]. apply taken_put; try done.
  - intros a Ha. apply node_block. unfold in_block in *. simpl in *. lia.
  - intros a Ha. destruct (node_hdr a Ha). auto.
  - intros a. rewrite C3. pose proof (node_block a). unfold in_block in *. simpl in *. split; [intros []|intros []];
      (split; [done|]); lia.
  - intros a [Ha Hc]%C4. split; [done|]. unfold in_block in *. simpl in *. lia.
Qed.

(** A block off a word boundary: the bytes before the boundary stay in the tree, the rest after
    the [n] bytes is freed again. *)
Lemma take_skewed : let k := ALIGNMORE b in n + k <= s ->
  exists t, demote x b k l r = Ok t /\
    let st' := set_root st (put_path (free_root st) p t) in
    gives (free_hdr_list st = []) (if n + k <? s then kfree (b + (n + k)) (s - (n + k)) st' else KOk st')
      (fun st' => taken O n st (b + k, put_hdr h st')).
Proof.
  intros k Hk. pose proof (ALIGNMORE_range b). fold k in H.
  destruct (take_piece b k) as (t & -> & C1 & C2 & C3 & C4); [lia..|]. exists t. split; [done|]. cbn zeta in *.
  set (st2 := set_root st (put_path (free_root st) p t)) in *.
  assert (forall a, in_block (b, s) a -> region a) as Har by (intros a Ha; by apply (k_arena _ _ Hw), node_block).
  assert (gives (free_hdr_list st = []) (if n + k <? s then kfree (b + (n + k)) (s - (n + k)) st2 else KOk st2)
    (freed usrpt st2 (b + (n + k)) (s - (n + k)))) as Hfr.
  { destruct (Z.ltb_spec (n + k) s).
    - eapply yields_weaken; [apply kmem_free_spec; try done; [lia| |]|done|by intros].
      + intros a Ha. split; [apply Har|intros [_ Hc]%C4]; unfold in_block in *; simpl in *; lia.
      + specialize (Har (b + (n + k))). unfold in_block, arena in Har. simpl in Har. lia.
    - right. exists st2. split; [done|]. split; [done|]. split; [|by split; [auto|]].
      intros a. unfold in_block. simpl. split; [auto|]. intros [?|?]; [done|lia]. }
  eapply yields_weaken; [exact Hfr|done|]. intros st3 (F1 & F2 & F3 & F4).
  assert (forall a, h <= a < h + HDRSIZE -> O a /\ ~ free_at st a) as Hh.
  { intros a Ha. destruct (node_hdr a Ha). auto. }
  apply taken_put; try done.
  - split; [apply C2|]. intros a Ha. destruct C2 as [_ C2]. destruct (C2 a Ha) as [? Hno]. split; [done|].
    intros [Hc|Hc]%F3; [done|]. apply (Hh a); [done|]. apply node_block. unfold in_block in *. simpl in *. lia.
  - intros a Ha. apply node_block. unfold in_block in *. simpl in *. lia.
  - intros a. rewrite F2, C3. pose proof (node_block a). unfold in_block in *. simpl in *.
    split; [intros [[]|]|intros []]; [split; [done|lia]|split; [auto with lia|lia]|].
    destruct (decide (b + k + n <= a < b + s)); [right; lia|left; split; [done|lia]].
  - intros a [Ha|Ha]%F3.
    + apply C4 in Ha as [Ha Hc]. split; [done|]. unfold in_block in *. simpl in *. lia.
    + split; [apply HO; left; apply node_block|]; unfold in_block in *; simpl in *; lia.
  - left. apply ALIGNMORE_aligns.
Qed.
End Node.

(** ** The tail of kmem_alloc() *)

Lemma skewed_false b s : skewed b s = false -> Z.land b 3 = 0 \/ s < 4.
Proof.
  unfold skewed. destruct (Z.eqb_spec (Z.land b 3) 0); [by left|]. cbn [negb andb]. intros H%Z.ltb_ge.
  right. unfold ALIGNMORE in H. assert (0 <= Z.land b 3) by (apply Z.land_nonneg; right; lia). lia.
Qed.

Lemma taken_root n st st' r : free_root st' = free_root st -> same_pending st st' ->
  taken (own st) n st' r -> taken (own st) n st r.
Proof.
  destruct r as [a st2]. intros E [E1 E2] (T1 & T2 & T3 & T4 & [T5 T6] & T7). unfold taken, free_at, same_pending in *.
  rewrite E in *. rewrite E1, E2 in *. done.
Qed.

Lemma take_node_spec n st : wf st -> 0 < n -> n <= mweight (free_root st) ->
  gives (length (free_hdr_list st) <= 1)%nat (take_node usrpt intsvc n (choose n (free_root st)) st)
    (taken (own st) n st).
Proof.
  intros Hw Hn Hm. destruct (choose_spec n (free_root st) Hn Hm) as (h & b & s & l & r & Ep & Hns).
  set (p := choose n (free_root st)) in *. unfold take_node. rewrite Ep.
  pose proof (node_size st p h b s l r Hw Ep) as Hs. pose proof (ALIGNMORE_range b) as Hk. simpl in Hns.
  assert (n <= s) by (destruct (skewed b s); lia). rewrite wrapu_zero_iff by lia.
  destruct (Z.eqb_spec (s - n) 0).
  - destruct (skewed b s) eqn:Esk; [lia|]. apply skewed_false in Esk.
    destruct (take_exact st p h b s l r n Hw Ep Hn (own st)) as (t & -> & Ht); [auto|lia|destruct Esk; [by left|right; lia]|].
    by apply yields_ret.
  - eapply yields_bind; [eapply yields_weaken; [by apply getfreehdr_spec|intros ->; simpl; lia|intros ? H1; exact H1]|].
    intros [x st1] (Hw1 & Hsp & Er & Hpd & Hsrc & Hown & Hl1). rewrite <- Er in Ep.
    assert (forall a, x <= a < x + HDRSIZE -> own st a) as HxO.
    { intros a Ha. destruct (Hsrc a Ha); [right; by left|right; right; by left]. }
    destruct (skewed b s) eqn:Esk.
    + destruct (take_skewed st1 p h b s l r n Hw1 Ep Hn (own st) Hown x Hsp HxO) as (t & -> & Ht); [lia|].
      kstep. cbn [lift mbind kres_bind].
      eapply yields_bind; [eapply yields_weaken; [exact Ht|intros E; by rewrite (Hl1 E)|intros ? H1; exact H1]|]. intros st3 H3. apply yields_ret. by eapply taken_root.
    + apply skewed_false in Esk.
      destruct (take_plain st1 p h b s l r n Hw1 Ep Hn (own st) Hown x Hsp HxO) as (t & -> & Ht);
        [lia|destruct Esk; [by left|right; lia]|].
      kstep. cbn [lift mbind kres_bind]. apply yields_ret. by eapply taken_root.
Qed.
(** ** More memory *)

Definition page_round (n : Z) : Z := (n + (NBPG - 1)) / NBPG * NBPG.

Lemma page_round_bounds n : n <= page_round n <= n + 8191.
Proof.
  unfold page_round, NBPG. change (8192 - 1) with 8191. pose proof (Z.div_mod (n + 8191) 8192 ltac:(lia)).
  pose proof (Z.mod_pos_bound (n + 8191) 8192 ltac:(lia)). lia.
Qed.

(** Consecutive free bytes are in one block, so the root is at least as heavy. *)
Lemma run_weight t p n : heap t -> spaced (inorder t) -> 0 < n ->
  (forall a, in_block (p, n) a -> covers (inorder t) a) -> n <= weight t.
Proof.
  intros Hh Hs Hn Hc. assert (in_block (p, n) p) as Hp by (unfold in_block; simpl; lia).
  pose proof (Hc p Hp) as (x & Hx & Hin)%Exists_exists.
  assert (x.1 <= p) by (unfold in_block in Hin; lia).
  assert (p + n <= x.1 + x.2).
  { destruct (Z.le_gt_cases (p + n) (x.1 + x.2)) as [?|Hlt]; [done|].
    assert (covers (inorder t) (x.1 + x.2)) as Hcov by (apply Hc; unfold in_block in *; simpl; lia).
    exfalso. apply list_elem_of_split in Hx as (l1 & l2 & El). rewrite El in Hs, Hcov.
    apply spaced_app in Hs as (H1 & H2 & H3). apply covers_app in Hcov as [(z & Hz & Hinz)%Exists_exists|Hcov].
    - specialize (H3 z x Hz ltac:(by left)). unfold apart, in_block in *. lia.
    - by apply (spaced_gap x l2 H2). }
  pose proof (heap_inorder t Hh) as Hf. rewrite Forall_forall in Hf. specialize (Hf x Hx). simpl in Hf. lia.
Qed.

Lemma mweight_bounds t : weight t - 3 <= mweight t <= weight t.
Proof.
  destruct t as [|h b s l r]; simpl; [lia|]. destruct (skewed b s) eqn:E; [|lia].
  unfold skewed in E. apply andb_prop in E as [E _]. pose proof (ALIGNMORE_range b).
  unfold ALIGNMORE in *. destruct (Z.eqb_spec (Z.land b 3) 0); [done|].
  assert (0 <= Z.land b 3) by (apply Z.land_nonneg; right; lia). lia.
Qed.

(** All free bytes have gone up by a run of fresh bytes from the map. *)
Definition grown (n : Z) st st' : Prop :=
  wf st' /\ (forall a, free_at st a -> free_at st' a) /\
  (forall a, free_at st' a -> free_at st a \/ page_at usrpt st a) /\
  (forall a, own st' a -> own st a) /\ same_pending st st' /\
  exists p, 0 < p /\ (p - usrpt) mod NBPG = 0 /\
    forall a, free_at st' a <-> free_at st a \/ in_block (p, page_round n) a.

Lemma morecore_spec n st : wf st -> 0 < n <= 2 ^ 32 - NBPG ->
  gives True (morecore usrpt intsvc n st) (grown n st).
Proof.
  intros Hw Hn. unfold morecore. change (CLSIZE * NBPG) with NBPG. change (2 ^ 32 - NBPG) with 4294959104 in Hn.
  rewrite wrapu_small by (change (2 ^ 32) with 4294967296; unfold NBPG; lia).
  fold (page_round n). pose proof (page_round_bounds n).
  assert (page_round n / NBPG * NBPG = page_round n) as Er by (unfold page_round; by rewrite Z.div_mul).
  assert (0 < page_round n / NBPG) by (unfold NBPG in *; lia).
  eapply yields_bind; [by apply getpages_spec|]. intros [p st1] (m & E & Hw1 & Hp & Hm & Hblk & Hown).
  rewrite Er in Hblk. rewrite (proj2 (Z.eqb_neq p 0)) by lia.
  assert (region p) as Hrp by (apply Hblk; unfold in_block; simpl; lia).
  eapply yields_weaken; [apply kmem_free_spec; try done; [lia| |]|done|].
  - intros a Ha. destruct (Hblk a Ha) as (? & _ & ?). done.
  - unfold arena in Hrp. lia.
  - intros st' (F1 & F2 & F3 & F4). assert (forall a, free_at st1 a <-> free_at st a) as Ef by (by rewrite E).
    split; [done|split; [|split; [|split; [|split; [split|exists p; split_and!; [lia|done|]]]]]].
    + intros a Ha. apply F2. left. by apply Ef.
    + intros a [Ha|Ha]%F2; [left; by apply Ef|right]. by apply Hblk.
    + intros a [Ha|Ha]%F3; [by apply Hown|]. right. right. left. by apply Hblk.
    + destruct F4 as [F4 _]. by rewrite F4, E.
    + destruct F4 as [_ F4]. by rewrite F4, E.
    + intros a. by rewrite F2, Ef.
Qed.
(** ** Whole words *)

Definition whole_words (P : Z -> Prop) : Prop := forall a b, a / 4 = b / 4 -> P a -> P b.

(** When memory is free by words, no block starts off a word boundary. *)
Lemma words_mweight t : spaced (inorder t) -> whole_words (covers (inorder t)) -> mweight t = weight t.
Proof.
  intros Hs Hwd. destruct t as [|h b s l r]; simpl; [done|]. simpl in *.
  assert (skewed b s = false) as ->; [|done]. unfold skewed.
  assert (Z.land b 3 = b mod 4) as -> by (apply (Z.land_ones b 2); lia).
  destruct (Z.eqb_spec (b mod 4) 0); [done|]. exfalso.
  apply spaced_node in Hs as (Sl & Sr & Hs & Fl & Fr).
  assert (covers (inorder l ++ (b, s) :: inorder r) (b - 1)) as Hc.
  { apply (Hwd b); [Z.to_euclidean_division_equations; lia|]. rewrite covers_app, covers_cons. right. left.
    unfold in_block. simpl. lia. }
  rewrite covers_app, covers_cons in Hc. destruct Hc as [Hc|[Hc|Hc]].
  - pose proof (proj1 (covers_below _ _ Sl) Fl _ Hc). lia.
  - unfold in_block in Hc. simpl in Hc. lia.
  - pose proof (proj1 (covers_above _ _ Sr) Fr _ Hc). lia.
Qed.

Lemma page_words p n : (p - usrpt) mod NBPG = 0 -> whole_words (in_block (p, page_round n)).
Proof.
  intros Hm a b E. unfold in_block, page_round, NBPG in *. simpl. destruct Hbase as (_ & _ & Hb).
  set (k := (n + (8192 - 1)) / 8192). Z.to_euclidean_division_equations. lia.
Qed.

(** The request fits after morecore(): the last page has room to spare, or there is nothing
    to skip. *)
Definition fits (n : Z) st : Prop :=
  n + 3 <= page_round n \/ whole_words (fun a => free_at st a \/ pend_at st a).

Lemma grown_fits n st st' : 0 < n -> grown n st st' ->
  n + 3 <= page_round n \/ whole_words (free_at st) -> n <= mweight (free_root st').
Proof.
  intros Hn (Hw & _ & _ & _ & _ & p & Hp & Hm & Hf) Hfit. pose proof (page_round_bounds n).
  assert (page_round n <= weight (free_root st')).
  { apply (run_weight _ p); [apply Hw|apply Hw|lia|]. intros a Ha. apply Hf. by right. }
  destruct Hfit as [Hfit|Hwd]; [pose proof (mweight_bounds (free_root st')); lia|].
  rewrite words_mweight; [lia|apply Hw|]. intros a b E Ha. apply Hf. apply Hf in Ha as [Ha|Ha].
  - left. by apply (Hwd a).
  - right. by apply (page_words p n Hm a).
Qed.

(** ** kmem_alloc() *)

(** [n] bytes of the heap have become the caller's; no free byte has been lost, and nothing
    of another caller's has been touched. *)
Definition allocated (n : Z) st (r : Z * kmem_info M) : Prop :=
  let '(a, st') := r in
  wf st' /\ pending st' = [] /\ lent usrpt st' a n /\ (Z.land a 3 = 0 \/ n < 4) /\
  (forall x, in_block (a, n) x -> own st x) /\ (forall x, own st' x -> own st x) /\
  (forall x, free_at st x \/ pend_at st x -> free_at st' x \/ in_block (a, n) x).

Lemma taken_allocated n st st' r : wf st' -> (forall x, own st' x -> own st x) ->
  (forall x, free_at st x \/ pend_at st x -> free_at st' x) -> pending st' = [] ->
  taken (own st') n st' r -> allocated n st r.
Proof.
  destruct r as [a st2]. intros Hw Ho Hf Hp (T1 & T2 & T3 & T4 & [T5 T6] & T7 & _).
  split_and!; try done; try apply T7.
  - unfold pending in *. by rewrite T5, T6.
  - intros x Hx. split; [by apply (k_arena _ _ Hw), T2|]. intros Hc. by apply (T4 x Hc).
  - intros x Hx. apply Ho. left. by apply T2.
  - intros x Hx. apply Ho. by apply T4.
  - intros x Hx%Hf. destruct (decide (a <= x < a + n)) as [?|Hne]; [by right|left]. by apply T3.
Qed.

(** kmem_alloc() with nothing waiting and a block to spare. *)
Lemma kmem_alloc_quick n st : wf st -> pending st = [] -> 0 < n < mweight (free_root st) ->
  gives (length (free_hdr_list st) <= 1)%nat (kalloc n st) (taken (own st) n st).
Proof.
  intros Hw Hp Hn. unfold kmem_alloc. rewrite (proj2 (Z.eqb_neq n 0)) by lia.
  assert (check_need_to_free usrpt intsvc (S (length (need_to_free_list st) + length (need_to_free st))) st
    = KOk st) as ->.
  { unfold pending in Hp. apply app_eq_nil in Hp as [E1 E2]. simpl. rewrite E1.
    pose proof (take_slot_spec (need_to_free st)) as Ht. rewrite E2 in Ht.
    by destruct (take_slot _) as [[[a m] l]|]. }
  cbn [mbind kres_bind]. destruct (Z.leb_spec (mweight (free_root st)) n); [lia|]. cbn [mret kres_ret].
  apply take_node_spec; [done|lia|lia].
Qed.

(** The heap as it is can serve the request: nothing waits to be freed, a block is larger than it and there are headers. *)
Definition served (n : Z) st : Prop := pending st = [] /\ n < mweight (free_root st) /\ (2 <= length (free_hdr_list st))%nat.

(** kmem_alloc() where it may have to get pages. *)
Lemma kmem_alloc_any n st : wf st -> 0 < n <= 2 ^ 32 - NBPG -> fits n st ->
  gives True (kalloc n st) (allocated n st).
Proof.
  intros Hw Hn Hfit. unfold kmem_alloc. rewrite (proj2 (Z.eqb_neq n 0)) by lia.
  eapply yields_bind; [apply check_need_to_free_spec; [done|done|]|].
  { unfold pending. rewrite length_app. pose proof (length_filter (fun e : Z * Z => e.1 <> 0) (need_to_free st)). lia. }
  intros st1 (Hw1 & Hp1 & Hf1 & Ho1).
  assert (gives True (if mweight (free_root st1) <=? n then morecore usrpt intsvc n st1 else mret st1)
    (fun st2 => wf st2 /\ pending st2 = [] /\ n <= mweight (free_root st2) /\
       (forall x, own st2 x -> own st x) /\ (forall x, free_at st1 x -> free_at st2 x))) as Hmore.
  { destruct (Z.leb_spec (mweight (free_root st1)) n); [|apply yields_ret; split_and!; by try lia].
    eapply yields_weaken; [by apply morecore_spec|done|]. intros st2 Hg.
    pose proof Hg as (G1 & G2 & G3 & G4 & [G5 G6] & _). split_and!; [done| | |auto|done].
    - unfold pending in *. by rewrite G5, G6.
    - eapply grown_fits; [lia|exact Hg|]. destruct Hfit as [?|Hwd]; [by left|right].
      intros a b E Ha. apply Hf1. apply (Hwd a); [done|]. by apply Hf1. }
  eapply yields_bind; [exact Hmore|]. intros st2 (Hw2 & Hp2 & Hn2 & Ho2 & Hf2).
  eapply yields_weaken; [apply take_node_spec; [done|lia|done]|done|]. intros r Hr.
  eapply taken_allocated; [exact Hw2|exact Ho2| |exact Hp2|exact Hr].
  intros x Hx. apply Hf2. by apply Hf1.
Qed.

(** C17: kmem_alloc(n) of a sound heap, n being positive and rounded up to pages a number of 32 bits, when morecore() makes room for n bytes (its last page has three to spare, or
    memory is free, or waits to be, by whole words),
    gives a block of n bytes of the heap that no caller had, on a word boundary unless it is shorter than a word; the heap stays sound,
    every block that waited is freed, no byte that was free is lost and nothing that a caller had becomes the heap's.  Or it sleeps for pages (at interrupt
    level: panics), but not when nothing waits to be freed, a larger block is free and two headers are. *)
Theorem kmem_alloc_sound n st : wf st -> 0 < n <= 2 ^ 32 - NBPG -> fits n st ->
  gives (~ served n st) (kalloc n st) (allocated n st).
Proof.
  intros Hw Hn Hfit. destruct (decide (pending st = [] /\ n < mweight (free_root st) /\ (2 <= length (free_hdr_list st))%nat)) as [(Hp & Hm & Hl)|Hs].
  - destruct (kmem_alloc_quick n st Hw Hp ltac:(lia)) as [[? _]|(r & -> & Ht)]; [lia|]. right. exists r. split; [done|].
    apply (taken_allocated n st st); auto. intros x [Hx|Hx]; [done|]. unfold pend_at in Hx. by rewrite Hp, covers_nil in Hx.
  - destruct (kmem_alloc_any n st Hw Hn Hfit) as [[_ Hb]|Hr]; [by left|by right].
Qed.

(** kmem_free() puts back what kmem_alloc() took. *)
Lemma taken_freed n st a st' : wf st -> 0 < n -> taken (own st) n st (a, st') ->
  exists st'', kfree a n st' = KOk st'' /\ wf st'' /\ inorder (free_root st'') = inorder (free_root st) /\
    forall x, own st'' x -> own st x.
Proof.
  intros Hw Hn (T1 & T2 & T3 & T4 & _ & _ & Hl).
  assert (forall x, in_block (a, n) x -> region x) as Har by (intros x Hx; by apply (k_arena _ _ Hw), T2).
  destruct (kmem_free_spec usrpt intsvc Hbase a n st') as [[E _]|(st'' & -> & F1 & F2 & F3 & _)]; try done; [lia| | |].
  - intros x Hx. split; [by apply Har|]. intros Hc. by apply (T4 x Hc).
  - specialize (Har a). unfold in_block, arena in Har. simpl in Har. lia.
  - exists st''. split; [done|]. split; [done|]. split.
    + apply spaced_unique; [apply F1|apply Hw|]. intros x. unfold free_at in *. rewrite F2, T3.
      pose proof (T2 x). destruct (decide (a <= x < a + n)); unfold in_block in *; simpl in *; tauto.
    + intros x [Hx|Hx]%F3; [by apply T4|]. left. by apply T2.
Qed.

(** kmem_free() undoes kmem_alloc(): with nothing waiting to be freed, two headers on the
    list and a block larger than the request, both return without sleeping, and the free list is
    the one before, block for block: the neighbours that were split are merged again. *)
Theorem kmem_alloc_free_roundtrip n st : wf st -> pending st = [] -> (2 <= length (free_hdr_list st))%nat ->
  0 < n < mweight (free_root st) ->
  exists a st' st'', kalloc n st = KOk (a, st') /\ kfree a n st' = KOk st'' /\
    inorder (free_root st'') = inorder (free_root st) /\ wf st'' /\ forall x, own st'' x -> own st x.
Proof.
  intros Hw Hp Hl Hn. destruct (kmem_alloc_quick n st Hw Hp Hn) as [[? _]|([a st'] & E & Ht)]; [lia|].
  destruct (taken_freed n st a st' Hw ltac:(lia) Ht) as (st'' & Ef & Hw' & Hi & Ho).
  by exists a, st', st''.
Qed.

(** kmem_free() of a block within the region, with a header on the list, panics exactly
    when a byte of the block is already free; it never corrupts the free list. *)
Theorem kmem_free_panics_iff p n st : wf st -> 0 < n -> usrpt <= p <= usrpt + USRPTSIZE * NBPG ->
  free_hdr_list st <> [] ->
  (exists msg, kfree p n st = KPanic msg) <-> exists a, in_block (p, n) a /\ free_at st a.
Proof.
  intros Hw Hn Hp Hl. unfold kmem_free. destruct (Z.eqb_spec n 0); [lia|].
  destruct (Z.ltb_spec p usrpt); [lia|]. destruct (Z.ltb_spec (usrpt + USRPTSIZE * NBPG) p); [lia|]. cbn [orb].
  split.
  - intros [msg E]. destruct (decide (Exists (fun x => x.1 < p + n /\ p < x.1 + x.2) (inorder (free_root st)))) as [Hx|Hx].
    + apply Exists_exists in Hx as (x & Hx & H1 & H2).
      pose proof (proj2 (k_spaced _ _ Hw)) as Hpos. rewrite Forall_forall in Hpos. specialize (Hpos x Hx). simpl in Hpos.
      exists (Z.max p x.1). split; [unfold in_block; simpl; lia|].
      eapply covers_in; [exact Hx|unfold in_block; lia].
    + exfalso. destruct (free_walk_spec (S (nodes (free_root st))) (free_root st) p n (free_hdr_list st))
        as ([[[t p'] n'] hl] & Ew & H1 & H2 & H3 & H4 & H5 & H6 & H7 & H8 & k & H9); [apply Hw|apply Hw|done| |lia|].
      { intros a Ha (x & Hx' & Hin)%Exists_exists. apply Hx, Exists_exists. exists x. split; [done|].
        unfold in_block in *. simpl in *. lia. }
      rewrite Ew in E. cbn [lift mbind kres_bind] in E. unfold kmem_insert in E. destruct (Z.leb_spec n' 0); [lia|].
      unfold getfreehdr in E. simpl in E. destruct hl as [|h hl]; [|done].
      symmetry in H9. by apply app_eq_nil in H9 as [_ ?].
  - intros (a & Ha & Hf). destruct (free_walk_overlap (S (nodes (free_root st))) (free_root st) p n (free_hdr_list st) a)
      as (msg & ->); [apply Hw|apply Hw|done|done|done|lia|]. by exists msg.
Qed.

(** ** Freeing at interrupt level *)

Lemma intr_slot_spec l p n : p <> 0 -> match intr_slot l p n with
  | Some l' => exists A B, filter (fun e => e.1 <> 0) l = A ++ B /\ filter (fun e : Z * Z => e.1 <> 0) l' = A ++ (p, n) :: B
  | None => Forall (fun e => e.1 <> 0) l
  end.
Proof.
  intros Hp. induction l as [|e l IH]; simpl; [done|]. destruct (Z.eqb_spec e.1 0) as [E|E].
  - exists [], (filter (fun e => e.1 <> 0) l). rewrite filter_cons_False by lia. by rewrite filter_cons_True.
  - destruct (intr_slot l p n) as [l'|]; simpl; [|by constructor]. destruct IH as (A & B & E1 & E2).
    exists (e :: A), B. rewrite !filter_cons_True by done. by rewrite E1, E2.
Qed.

Lemma separate_app A B : separate usrpt (A ++ B) <-> separate usrpt A /\ separate usrpt B /\
  forall a, covers A a -> ~ covers B a.
Proof.
  induction A as [|x A IH]; simpl.
  - split; [intros ?; split_and!; [done|done|]|tauto]. intros a Ha. by apply covers_nil in Ha.
  - rewrite IH. split.
    + intros (H1 & H2 & H3 & H4 & H5 & H6). split_and!; try done.
      * intros a Ha. destruct (H2 a Ha) as [? Hc]. split; [done|]. rewrite covers_app in Hc. tauto.
      * intros a [Ha|Ha]%covers_cons; [|by apply H6]. destruct (H2 a Ha) as [_ Hc]. rewrite covers_app in Hc. tauto.
    + intros ((H1 & H2 & H3 & H4) & H5 & H6). split_and!; try done.
      * intros a Ha. destruct (H2 a Ha) as [? Hc]. split; [done|]. rewrite covers_app. intros [?|Hc']; [done|].
        apply (H6 a); [apply covers_cons; by left|done].
      * intros a Ha. apply H6, covers_cons. by right.
Qed.

Lemma separate_insert A B x : separate usrpt (A ++ x :: B) <-> separate usrpt (x :: A ++ B).
Proof.
  simpl. rewrite !separate_app. simpl. split.
  - intros (HA & (H1 & H2 & H3 & H4) & H5). split_and!; try done.
    + intros a Ha. destruct (H2 a Ha). split; [done|]. rewrite covers_app. intros [Hc|Hc]; [|done].
      apply (H5 a Hc), covers_cons. by left.
    + intros a Ha Hc. apply (H5 a Ha), covers_cons. by right.
  - intros (H1 & H2 & H3 & HA & H4 & H5). split_and!; try done.
    + intros a Ha. destruct (H2 a Ha) as [? Hc]. split; [done|]. rewrite covers_app in Hc. tauto.
    + intros a Ha [Hc|Hc]%covers_cons; [|by apply (H5 a)]. destruct (H2 a Hc) as [_ Hn]. apply Hn, covers_app. by left.
Qed.

(** The block waits to be freed; the tree, the headers and the map are as before. *)
Definition deferred (p n : Z) st st' : Prop :=
  wf st' /\ (forall a, pend_at st' a <-> pend_at st a \/ in_block (p, n) a) /\
  free_root st' = free_root st /\ free_hdr_list st' = free_hdr_list st /\ kmap st' = kmap st.

Lemma deferred_own p n st st' a : deferred p n st st' -> own st' a <-> own st a \/ in_block (p, n) a.
Proof.
  intros (_ & Hp & E1 & E2 & E3). specialize (Hp a). unfold owned, free_at, hdr_at, page_at.
  rewrite E1, E2, E3. tauto.
Qed.

Lemma defer st l k p n A B : wf st -> 0 < n -> lent usrpt st p n -> pending st = A ++ B ->
  pending (set_pending st l k) = A ++ (p, n) :: B -> deferred p n st (set_pending st l k).
Proof.
  intros Hw Hn Hl E E'. assert (in_block (p, n) p) as Hp by (unfold in_block; simpl; lia).
  assert (forall a, pend_at (set_pending st l k) a <-> pend_at st a \/ in_block (p, n) a) as Hpd.
  { intros a. unfold pend_at. rewrite E, E', !covers_app, covers_cons. tauto. }
  split; [|split; [done|done]]. destruct Hw as [W1 W2 W3 W4 W5 W6 W7 W8]. constructor; try done.
  - rewrite E', separate_insert. rewrite E in W7. simpl. split_and!; [lia| |by apply Hl|done].
    intros a Ha. destruct (Hl a Ha) as [? Hno]. split; [done|]. rewrite <- E. intros Hc. apply Hno. by right; right; right.
  - intros a. specialize (Hpd a). specialize (Hl a). destruct (W8 a) as (X1 & X2 & X3).
    unfold owned, free_at, hdr_at, page_at in *. simpl in *. tauto.
Qed.

Lemma intr_put_spec st p n : wf st -> 0 < n -> lent usrpt st p n ->
  (intr_put p n st = KPanic "kmem_free_intr" /\ n < NTFSIZE /\ Forall (fun e => e.1 <> 0) (need_to_free st)) \/
  exists st', intr_put p n st = KOk st' /\ deferred p n st st'.
Proof.
  intros Hw Hn Hl. unfold intr_put. destruct (Z.leb_spec NTFSIZE n).
  - right. eexists. split; [done|]. by eapply (defer _ _ _ _ _ []).
  - assert (p <> 0) as Hp.
    { destruct (Hl p) as [Hr _]; [unfold in_block; simpl; lia|]. unfold arena in Hr. lia. }
    pose proof (intr_slot_spec (need_to_free st) p n Hp) as Hs. destruct (intr_slot _ p n) as [l'|]; [|left; done].
    right. destruct Hs as (A & B & E1 & E2). eexists. split; [done|].
    apply (defer _ _ _ _ _ (need_to_free_list st ++ A) B); [done..| |]; unfold pending; simpl;
      rewrite ?E1, ?E2; by rewrite <- app_assoc.
Qed.

(** kmem_free_intr() of a block of the caller either makes it wait, whole, to be freed by
    the next kmem_alloc(), leaving tree, headers and map untouched; or panics, and then all
    ten entries of the array for small pieces are in use. *)
Theorem kmem_free_intr_sound st p n : wf st -> 0 < n -> lent usrpt st p n ->
  (exists st', kmem_free_intr p n st = KOk st' /\ deferred p n st st') \/
  kmem_free_intr p n st = KPanic "kmem_free_intr" /\
    exists st', Forall (fun e => e.1 <> 0) (need_to_free st') /\ (st' = st \/ exists k, deferred p k st st').
Proof.
  intros Hw Hn Hl. unfold kmem_free_intr. destruct (Z.leb_spec NTFSIZE n), (Z.eqb_spec (Z.land p 3) 0); cbn [andb negb].
  2: { pose proof (ALIGNMORE_range p) as Hk. unfold NTFSIZE in *.
    destruct (intr_put_spec st p (ALIGNMORE p)) as [(-> & _ & Hf)|(st1 & -> & D1)]; [done|lia| |right; eauto|].
    { intros a Ha. apply Hl. unfold in_block in *. simpl in *. lia. }
    pose proof D1 as (Hw1 & Hp1 & E1). cbn [mbind kres_bind].
    destruct (intr_put_spec st1 (p + ALIGNMORE p) (n - ALIGNMORE p)) as [(-> & _ & Hf)|(st2 & -> & D2)];
      [done|lia| |right; split; [done|]; exists st1; eauto|].
    { intros a Ha. destruct (Hl a) as [? Hno]; [unfold in_block in *; simpl in *; lia|]. split; [done|].
      rewrite (deferred_own _ _ _ _ a D1). unfold in_block in *. simpl in *. intros [?|?]; [done|lia]. }
    left. exists st2. split; [done|]. destruct D2 as (Hw2 & Hp2 & E2 & E3 & E4), E1 as (F1 & F2 & F3).
    split_and!; [done| |congruence..]. intros a. rewrite Hp2, Hp1. unfold in_block. simpl.
    split; [intros [[?|?]|?]; [by left|right; lia..]|intros [?|?]; [by left; left|]].
    destruct (decide (a < p + ALIGNMORE p)); [left; right; lia|right; lia]. }
  all: destruct (intr_put_spec st p n) as [(-> & _ & Hf)|(st1 & -> & D1)]; [done|done|done|right|left]; eauto.
Qed.
End Alloc.
