(* ===== verification/KmemWitness.v ===== *)
(** * The kernel heap on concrete memory

    The state after kmem_init() is well formed; the theorems of [KmemAlloc] at concrete
    states reached from it, over the resource maps of [Rmap]; and two runs that show where
    kmem_alloc() parts from its comments. *)

From S2P Require Import Prelude Rmap Kmem KmemTree KmemThms KmemAlloc.
From stdpp Require Import prelude list numbers strings.
From Stdlib Require Import ZArith Lia.

Local Open Scope Z_scope.
Local Open Scope kern_scope.

Lemma kmem_init_wf {M} `{RM : !ResMap M} usrpt (m : M) : rm_inv m ->
  (forall u, rm_unit m u -> u < USRPTSIZE) -> kmem_wf usrpt (kmem_init m).
Proof.
  intros Hm Hu. assert (forall a, ~ free_at (kmem_init m) a) as Hf by (intros a Ha; by apply covers_nil in Ha).
  assert (forall a, ~ pend_at (kmem_init m) a) as Hp by (intros a Ha; by apply covers_nil in Ha).
  assert (forall a, ~ hdr_at (kmem_init m) a) as Hh by (intros a Ha; by apply Exists_nil in Ha).
  constructor; try done.
  - by split; constructor.
  - intros a Ha. by destruct (Hf a).
  - split; [constructor|split; [constructor|]]. intros a Ha. by destruct (Hh a).
  - intros a. specialize (Hf a). specialize (Hp a). specialize (Hh a). tauto.
Qed.

Definition base := 0x100000.
Lemma base_ok : 0 < base /\ base + USRPTSIZE * NBPG <= 2 ^ 32 /\ base mod 4 = 0.
Proof. by vm_compute. Qed.

(** Ten pages; the heap after kmem_init(), with a page of free memory, and with a block lent. *)
Definition k0 : kmem_info rmap := kmem_init map2full.
Definition k1 : kmem_info rmap :=
  match morecore base false 100 k0 with KOk st => st | _ => k0 end.
Definition k2 : kmem_info rmap :=
  match kmem_alloc base false 100 k1 with KOk (_, st) => st | _ => k1 end.
Definition p2 : Z := base + 10 * NBPG.

Lemma k0_wf : kmem_wf base k0.
Proof.
  apply kmem_init_wf; [split; [done|exists segs2; apply map2full_wf]|].
  intros u. cbn [rm_unit rmap_resmap]. rewrite (rmap_unit_wf _ _ _ map2full_wf).
  unfold segs2. rewrite !seg_free_cons, seg_free_nil.
  unfold Rmap.covers. cbn [m_addr m_size]. change USRPTSIZE with 1216. lia.
Qed.

Lemma k1_wf : kmem_wf base k1.
Proof.
  unfold k1. destruct (morecore_spec base false base_ok 100 k0 k0_wf) as [[_ H]|(st & -> & H)]; [done|done|apply H].
Qed.

Lemma k2_alloc : kmem_alloc base false 100 k1 = KOk (p2, k2).
Proof. vm_compute. reflexivity. Qed.

Lemma k2_taken : taken base (owned base k1) 100 k1 (p2, k2).
Proof.
  destruct (kmem_alloc_quick base false base_ok 100 k1 k1_wf) as [[H _]|([a st] & E & H)];
    [done|by vm_compute|exfalso; revert H; vm_compute; lia|]. rewrite k2_alloc in E. by injection E as <- <-.
Qed.

(** A caller takes 6 pages, gives back two blocks of 8192 bytes that start off a word boundary,
    and keeps the rest; a request for 8190 bytes is then given a block whose last byte
    (p + 8200 + 8189 = p + 8197 + 8192) is past the end of the free block it is cut from, and
    still the caller's.  morecore() does make a block that fits, but insert() hangs it below the
    two, which are as large though not once aligned, and the descent stops at the root without
    having found room. *)
Example kmem_alloc_overruns :
  ('(p, st) ← kmem_alloc base false (6 * NBPG) k0;
   st ← kmem_free base false (p + 8197) NBPG st;
   st ← kmem_free base false (p + 1) NBPG st;
   '(q, st) ← kmem_alloc base false 8190 st;
   mret (q - p)) = KOk 8200.
Proof. vm_compute. reflexivity. Qed.

(** A free piece of two bytes off a word boundary is handed out as it is. *)
Example kmem_alloc_unaligned :
  ('(p, st) ← kmem_alloc base false NBPG k0;
   st ← kmem_free base false (p + 1) 2 st;
   st ← kmem_free base false (p + 5) 3 st;
   '(q, st) ← kmem_alloc base false 2 st;
   mret (q - p)) = KOk 1.
Proof. vm_compute. reflexivity. Qed.

(** ** Witnesses *)

Lemma kmem_alloc_sound_witness :
  exists a st, kmem_alloc base false 100 k0 = KOk (a, st) /\ allocated base 100 k0 (a, st).
Proof.
  destruct (kmem_alloc_sound base false base_ok 100 k0 k0_wf) as [[_ H]|([a st] & E & H)];
    [by vm_compute|left; by vm_compute|exfalso; vm_compute in H; discriminate H|]. by exists a, st.
Defined.

Lemma kmem_alloc_free_roundtrip_witness :
  exists a st' st'', kmem_alloc base false 100 k1 = KOk (a, st') /\
    kmem_free base false a 100 st' = KOk st'' /\ inorder (free_root st'') = inorder (free_root k1).
Proof.
  destruct (kmem_alloc_free_roundtrip base false base_ok 100 k1 k1_wf) as (a & st' & st'' & H1 & H2 & H3 & _);
    [by vm_compute|vm_compute; lia|by vm_compute|]. by exists a, st', st''.
Defined.

(** Freeing twice. *)
Lemma kmem_free_panics_iff_witness : exists msg, kmem_free base false 0x115ff0 32 k1 = KPanic msg.
Proof.
  apply (kmem_free_panics_iff base false 0x115ff0 32 k1 k1_wf); [lia|by vm_compute|by vm_compute|].
  exists 0x115ff0. split; [by vm_compute|]. apply Exists_cons. left. by vm_compute.
Defined.

Lemma kmem_free_intr_sound_witness : exists st,
  kmem_free_intr p2 100 k2 = KOk st /\ deferred base p2 100 k2 st.
Proof.
  pose proof k2_taken as (T1 & T2 & T3 & T4 & _).
  destruct (kmem_free_intr_sound base base_ok k2 p2 100 T1) as [H|[H _]]; [lia| |done|].
  - intros x Hx. split; [by apply (k_arena _ _ k1_wf), T2|]. intros Hc. by apply (T4 x Hc).
  - exfalso. vm_compute in H. discriminate H.
Defined.
