(* ===== verification/Msg.v ===== *)
(** * System V messages: [src/sun/sys/sys/ipc_msg.c]

    Definitions only.  The facility's tables are one record: the queues [msgque], the message
    headers [msgh] with the chain of free ones [msgfp], the pool of text [msgpool] and the map
    [msgmap] of its segments (any implementation of [Alloc.ResMap]).  Headers are indices; a
    chain linked through [msg_next] (a queue from [msg_first] to [msg_last], the free list) is
    the list of the indices on it, in order.  A call that must sleep gives back the channel,
    and [msgsnd_woken] or [msgrcv_woken] resumes it. *)

From S2P Require Import Prelude Rmap Ipc.
From stdpp Require Import prelude list numbers strings.
From Stdlib Require Import ZArith Lia.

Local Open Scope Z_scope.
Local Open Scope kern_scope.

Definition ENOMSG := 75.
Definition MSG_NOERROR := 0x1000.
Definition MSG_R := 0x100.
Definition MSG_W := 0x80.
Definition MSG_RWAIT := 0x200.
Definition MSG_WWAIT := 0x400.

Record msginfo := Msginfo {
  msgmax : Z; msgmnb : Z; msgmni : Z; msgssz : Z; msgtql : nat; msgseg : Z
}.

Record msqid_ds := MsqidDs {
  msg_perm : ipc_perm; msg_q : list nat; msg_cbytes : Z; msg_qnum : Z; msg_qbytes : Z;
  msg_lspid : Z; msg_lrpid : Z; msg_stime : Z; msg_rtime : Z; msg_ctime : Z
}.

Record msg := Msg { msg_type : Z; msg_ts : Z; msg_spot : Z }.

(** Sleep channels: a queue, its [msg_qnum], [&msgfp], [msgmap]. *)
Inductive msgchan := ChQueue (i : nat) | ChQnum (i : nat) | ChHdr | ChMap.

(** What copyout hands to the user. *)
Inductive msgout := OutType (t : Z) | OutText (bs : list Z) | OutQueue (qp : msqid_ds).

Record msgst (M : Type) := Msgst {
  msgque : list msqid_ds; msgh : list msg; msgfp : list nat; msgmap : M; msgpool : list Z;
  m_error : Z; m_rval1 : Z; m_wakes : list msgchan; m_out : list msgout
}.
Arguments Msgst {M}.
Arguments msgque {M}. Arguments msgh {M}. Arguments msgfp {M}. Arguments msgmap {M}.
Arguments msgpool {M}. Arguments m_error {M}. Arguments m_rval1 {M}. Arguments m_wakes {M}.
Arguments m_out {M}.

Definition with_mperm (qp : msqid_ds) (pm : ipc_perm) : msqid_ds :=
  MsqidDs pm (msg_q qp) (msg_cbytes qp) (msg_qnum qp) (msg_qbytes qp) (msg_lspid qp)
    (msg_lrpid qp) (msg_stime qp) (msg_rtime qp) (msg_ctime qp).
Definition mmode (qp : msqid_ds) : Z := pmode (msg_perm qp).
Definition with_mmode (qp : msqid_ds) (m : Z) : msqid_ds := with_mperm qp (perm_mode (msg_perm qp) m).

(** The queue's messages, bytes and count. *)
Definition with_q (qp : msqid_ds) (q : list nat) (cbytes qnum : Z) : msqid_ds :=
  MsqidDs (msg_perm qp) q (u16 cbytes) (u16 qnum) (msg_qbytes qp) (msg_lspid qp)
    (msg_lrpid qp) (msg_stime qp) (msg_rtime qp) (msg_ctime qp).
Definition with_sent (qp : msqid_ds) (pid t : Z) : msqid_ds :=
  MsqidDs (msg_perm qp) (msg_q qp) (msg_cbytes qp) (msg_qnum qp) (msg_qbytes qp) (u16 pid)
    (msg_lrpid qp) t (msg_rtime qp) (msg_ctime qp).
Definition with_rcvd (qp : msqid_ds) (pid t : Z) : msqid_ds :=
  MsqidDs (msg_perm qp) (msg_q qp) (msg_cbytes qp) (msg_qnum qp) (msg_qbytes qp) (msg_lspid qp)
    (u16 pid) (msg_stime qp) t (msg_ctime qp).

Section Msg.
Context {M : Type} `{RM : !ResMap M}.
Implicit Type st : msgst M.

Definition set_que st x : msgst M := Msgst x (msgh st) (msgfp st) (msgmap st) (msgpool st)
  (m_error st) (m_rval1 st) (m_wakes st) (m_out st).
Definition set_hdrs st x fp : msgst M := Msgst (msgque st) x fp (msgmap st) (msgpool st)
  (m_error st) (m_rval1 st) (m_wakes st) (m_out st).
Definition set_mmap st (x : M) : msgst M := Msgst (msgque st) (msgh st) (msgfp st) x (msgpool st)
  (m_error st) (m_rval1 st) (m_wakes st) (m_out st).
Definition set_pool st x : msgst M := Msgst (msgque st) (msgh st) (msgfp st) (msgmap st) x
  (m_error st) (m_rval1 st) (m_wakes st) (m_out st).
Definition set_error st e : msgst M := Msgst (msgque st) (msgh st) (msgfp st) (msgmap st) (msgpool st)
  e (m_rval1 st) (m_wakes st) (m_out st).
Definition set_rval st v : msgst M := Msgst (msgque st) (msgh st) (msgfp st) (msgmap st) (msgpool st)
  (m_error st) v (m_wakes st) (m_out st).
Definition add_wake st c : msgst M := Msgst (msgque st) (msgh st) (msgfp st) (msgmap st) (msgpool st)
  (m_error st) (m_rval1 st) (m_wakes st ++ [c]) (m_out st).
Definition add_out st o : msgst M := Msgst (msgque st) (msgh st) (msgfp st) (msgmap st) (msgpool st)
  (m_error st) (m_rval1 st) (m_wakes st) (m_out st ++ [o]).

Definition put_que st (i : nat) (qp : msqid_ds) : res (msgst M) :=
  l ← wr (msgque st) i qp; mret (set_que st l).

(** Bytes to segments. *)
Definition btoq (mi : msginfo) (x : Z) : Z := (x + msgssz mi - 1) / msgssz mi.

Definition msgconv (mi : msginfo) (id : Z) st : option nat :=
  if id <? 0 then None
  else
    match msgque st !! Z.to_nat (id mod msgmni mi) with
    | None => None
    | Some qp =>
        if negb (allocated_perm (msg_perm qp)) || negb (id / msgmni mi =? pseq (msg_perm qp))
        then None else Some (Z.to_nat (id mod msgmni mi))
    end.

(** msgfree() of the [k]th message of queue [i]. *)
Definition msgfree (mi : msginfo) (i k : nat) st : res (msgst M) :=
  qp ← rd (msgque st) i;
  mp ← rd (msg_q qp) k;
  let qp := with_q qp (delete k (msg_q qp)) (msg_cbytes qp) (msg_qnum qp - 1) in
  st ← (if has_flag (mmode qp) MSG_WWAIT
        then st ← put_que st i (with_mmode qp (Z.land (mmode qp) (Z.lnot MSG_WWAIT)));
             mret (add_wake st (ChQueue i))
        else put_que st i qp);
  x ← rd (msgh st) mp;
  st ← (if msg_ts x =? 0 then mret st
        else m ← rm_release (msgmap st) (btoq mi (msg_ts x)) (msg_spot x + 1);
             mret (set_mmap st m));
  let st := match msgfp st with [] => add_wake st ChHdr | _ => st end in
  mret (set_hdrs st (msgh st) (mp :: msgfp st)).

(** ** msgctl, msgget, msginit *)

Definition msg_owner (u : ucred) (qp : msqid_ds) : option Z :=
  if negb (u_uid u =? uid (msg_perm qp)) && negb (u_uid u =? cuid (msg_perm qp))
  then suser u else None.

(** [while (qp->msg_first) msgfree(qp, NULL, qp->msg_first);] *)
Fixpoint rmid_loop (fuel : nat) (mi : msginfo) (i : nat) st : res (msgst M) :=
  match fuel with
  | O => Fault
  | S f =>
      qp ← rd (msgque st) i;
      match msg_q qp with
      | [] => mret st
      | _ :: _ => st ← msgfree mi i 0 st; rmid_loop f mi i st
      end
  end.

Definition msg_rmid (mi : msginfo) (id : Z) (i : nat) st : res (msgst M) :=
  qp ← rd (msgque st) i;
  st ← rmid_loop (S (length (msg_q qp))) mi i st;
  qp ← rd (msgque st) i;
  let pm := msg_perm qp in
  let pm := if i32 (id + msgmni mi) <? 0 then perm_seq pm 0 else perm_seq pm (pseq pm + 1) in
  let st := if has_flag (pmode pm) MSG_RWAIT then add_wake st (ChQnum i) else st in
  let st := if has_flag (pmode pm) MSG_WWAIT then add_wake st (ChQueue i) else st in
  put_que st i (with_mperm (with_q qp (msg_q qp) 0 (msg_qnum qp)) (perm_mode pm 0)).

(** IPC_SET: the queue with what copyin() delivered. *)
Definition msg_set (qp ds : msqid_ds) (now : Z) : msqid_ds :=
  let pm := msg_perm qp in
  MsqidDs (IpcPerm (uid (msg_perm ds)) (gid (msg_perm ds)) (cuid pm) (cgid pm)
             (Z.lor (Z.land (pmode pm) (Z.lnot 0x1ff)) (Z.land (pmode (msg_perm ds)) 0x1ff))
             (pseq pm) (key pm))
    (msg_q qp) (msg_cbytes qp) (msg_qnum qp) (msg_qbytes ds) (msg_lspid qp) (msg_lrpid qp)
    (msg_stime qp) (msg_rtime qp) now.

(** [ds] is what copyin() delivers, or its error; [oerr] the error of copyout(), or 0. *)
Definition msgctl (mi : msginfo) (u : ucred) (now id cmd : Z) (ds : msqid_ds + Z) (oerr : Z) st
    : res (msgst M) :=
  match msgconv mi id st with
  | None => mret (set_error st EINVAL)
  | Some i =>
      qp ← rd (msgque st) i;
      let st := set_rval st 0 in
      if cmd =? IPC_RMID then
        match msg_owner u qp with
        | Some e => mret (set_error st e)
        | None => msg_rmid mi id i st
        end
      else if cmd =? IPC_SET then
        match msg_owner u qp, ds with
        | Some e, _ => mret (set_error st e)
        | None, inr e => mret (set_error st e)
        | None, inl ds =>
            match (if msg_qbytes qp <? msg_qbytes ds then suser u else None) with
            | Some e => mret (set_error st e)
            | None => put_que st i (msg_set qp ds now)
            end
        end
      else if cmd =? IPC_STAT then
        match ipcaccess u (msg_perm qp) MSG_R with
        | Some e => mret (set_error st e)
        | None => mret (if oerr =? 0 then add_out st (OutQueue qp) else set_error st oerr)
        end
      else mret (set_error st EINVAL)
  end.

Definition msgget (mi : msginfo) (u : ucred) (now k flg : Z) st : res (msgst M) :=
  match ipcget u k flg (msg_perm <$> msgque st) with
  | (IpcError e, _) => mret (set_error st e)
  | (IpcFound i, _) =>
      qp ← rd (msgque st) i;
      mret (set_rval st (pseq (msg_perm qp) * msgmni mi + Z.of_nat i))
  | (IpcNew i, ps) =>
      let st := set_que st (zip_with with_mperm (msgque st) ps) in
      qp ← rd (msgque st) i;
      st ← put_que st i (MsqidDs (msg_perm qp) [] (msg_cbytes qp) 0 (u16 (msgmnb mi)) 0 0 0 0 now);
      mret (set_rval st (pseq (msg_perm qp) * msgmni mi + Z.of_nat i))
  end.

(** The map is initialised by the caller with rminit(msgmap, msgseg, 1, "msgmap", msgmap). *)
Definition msginit (mi : msginfo) (m : M) : msgst M :=
  Msgst (replicate (Z.to_nat (msgmni mi)) (MsqidDs (IpcPerm 0 0 0 0 0 0 0) [] 0 0 0 0 0 0 0 0))
    (replicate (msgtql mi) (Msg 0 0 0)) (seq 0 (msgtql mi)) m
    (replicate (Z.to_nat (msgseg mi * msgssz mi)) 0) 0 0 [] [].

(** ** msgrcv *)

(** The loop of [findmsg1:]; [smp] is the best message so far. *)
Fixpoint find_loop (msgtyp : Z) (ms : list Z) (k : nat) (smp : option (nat * Z)) : option nat :=
  match ms with
  | [] => fst <$> smp
  | t :: ms' =>
      if 0 <? msgtyp then
        if negb (msgtyp =? t) then find_loop msgtyp ms' (S k) smp else Some k
      else if t <=? i32 (- msgtyp) then
        match smp with
        | Some (_, t') => if t' <=? t then find_loop msgtyp ms' (S k) smp
                          else find_loop msgtyp ms' (S k) (Some (k, t))
        | None => find_loop msgtyp ms' (S k) (Some (k, t))
        end
      else find_loop msgtyp ms' (S k) smp
  end.
Definition find_msg (msgtyp : Z) (ms : list Z) : option nat :=
  if msgtyp =? 0 then match ms with [] => None | _ => Some 0%nat end
  else find_loop msgtyp ms 0 None.

(** The text of a message. *)
Definition msg_text (mi : msginfo) (pool : list Z) (x : msg) (sz : Z) : list Z :=
  take (Z.to_nat sz) (drop (Z.to_nat (msgssz mi * msg_spot x)) pool).

(** Deliver the [k]th message of queue [i]; [oerr] are the errors of the two copyouts. *)
Definition msg_deliver (mi : msginfo) (u : ucred) (now : Z) (i k : nat) (msgsz flg : Z)
    (oerr : Z * Z) st : res (msgst M) :=
  qp ← rd (msgque st) i;
  mp ← rd (msg_q qp) k;
  x ← rd (msgh st) mp;
  if (msgsz <? msg_ts x) && negb (has_flag flg MSG_NOERROR) then mret (set_error st E2BIG)
  else
    let sz := if msgsz <? msg_ts x then msgsz else msg_ts x in
    if negb (oerr.1 =? 0) then mret (set_error st oerr.1)
    else
      let st := add_out st (OutType (msg_type x)) in
      if negb (sz =? 0) && negb (oerr.2 =? 0) then mret (set_error st oerr.2)
      else
        let st := if sz =? 0 then st else add_out st (OutText (msg_text mi (msgpool st) x sz)) in
        let st := set_rval st sz in
        st ← put_que st i (with_rcvd (with_q qp (msg_q qp) (msg_cbytes qp - msg_ts x) (msg_qnum qp))
                             (u_pid u) now);
        msgfree mi i k st.

(** From [findmsg:] on ([again]) or from [findmsg1:]; [inl]: the process goes to sleep. *)
Definition msgrcv_find (mi : msginfo) (u : ucred) (now id : Z) (i : nat) (again : bool)
    (msgsz msgtyp flg : Z) (oerr : Z * Z) st : res ((msgchan * msgst M) + msgst M) :=
  if again && negb (bool_decide (msgconv mi id st = Some i)) then mret (inr (set_error st EIDRM))
  else
    qp ← rd (msgque st) i;
    match find_msg msgtyp ((fun mp => msg_type (default (Msg 0 0 0) (msgh st !! mp))) <$> msg_q qp) with
    | Some k => inr <$> msg_deliver mi u now i k msgsz flg oerr st
    | None =>
        if has_flag flg IPC_NOWAIT then mret (inr (set_error st ENOMSG))
        else
          st ← put_que st i (with_mmode qp (Z.lor (mmode qp) MSG_RWAIT));
          mret (inl (ChQnum i, st))
    end.

Definition msgrcv (mi : msginfo) (u : ucred) (now id msgsz msgtyp flg : Z) (oerr : Z * Z) st
    : res ((msgchan * msgst M) + msgst M) :=
  match msgconv mi id st with
  | None => mret (inr (set_error st EINVAL))
  | Some i =>
      qp ← rd (msgque st) i;
      match ipcaccess u (msg_perm qp) MSG_R with
      | Some e => mret (inr (set_error st e))
      | None =>
          if msgsz <? 0 then mret (inr (set_error st EINVAL))
          else msgrcv_find mi u now id i false msgsz msgtyp flg oerr st
      end
  end.

(** sleep() returned, with a signal ([intr]) or not. *)
Definition msgrcv_woken (mi : msginfo) (u : ucred) (now id : Z) (i : nat) (intr : bool)
    (msgsz msgtyp flg : Z) (oerr : Z * Z) st : res ((msgchan * msgst M) + msgst M) :=
  if intr then mret (inr (set_error st EINTR))
  else msgrcv_find mi u now id i true msgsz msgtyp flg oerr st.

(** ** msgsnd *)

(** [msgfp = mp->msg_next], the copy of the text, and the message at the end of the queue;
    [text] is what copyin() delivers. *)
Definition msg_enqueue (mi : msginfo) (u : ucred) (now : Z) (i mp : nat) (fp : list nat)
    (cnt type spot : Z) (text : list Z + Z) st : res (msgst M) :=
  let st := set_hdrs st (msgh st) fp in
  let spot := if cnt =? 0 then spot else spot - 1 in
  let off := Z.to_nat (msgssz mi * spot) in
  match (if cnt =? 0 then inl [] else text) with
  | inr e =>
      m ← rm_release (msgmap st) (btoq mi cnt) (spot + 1);
      let st := set_mmap (set_error st e) m in
      let st := match msgfp st with [] => add_wake st ChHdr | _ => st end in
      mret (set_hdrs st (msgh st) (mp :: msgfp st))
  | inl bs =>
      if (off + length bs <=? length (msgpool st))%nat || (cnt =? 0) then
        let st := if cnt =? 0 then st
                  else set_pool st (take off (msgpool st) ++ bs ++ drop (off + length bs) (msgpool st)) in
        qp ← rd (msgque st) i;
        h ← wr (msgh st) mp (Msg type (u16 cnt) (if cnt =? 0 then u16 (-1) else u16 spot));
        let st := set_hdrs st h (msgfp st) in
        let qp := with_sent (with_q qp (msg_q qp ++ [mp]) (msg_cbytes qp + cnt) (msg_qnum qp + 1))
                    (u_pid u) now in
        st ← (if has_flag (mmode qp) MSG_RWAIT
              then st ← put_que st i (with_mmode qp (Z.land (mmode qp) (Z.lnot MSG_RWAIT)));
                   mret (add_wake st (ChQnum i))
              else put_que st i qp);
        mret (set_rval st 0)
      else Fault
  end.

(** Something is missing: EAGAIN, or sleep on [c]. *)
Definition msg_wait (flg : Z) (c : msgchan) st : res ((msgchan * msgst M) + msgst M) :=
  mret (if has_flag flg IPC_NOWAIT then inr (set_error st EAGAIN) else inl (c, st)).

(** From [getres:] on ([again]) or from [getres1:]. *)
Definition msgsnd_try (mi : msginfo) (u : ucred) (now id : Z) (i : nat) (again : bool)
    (cnt type flg : Z) (text : list Z + Z) st : res ((msgchan * msgst M) + msgst M) :=
  if again && negb (bool_decide (msgconv mi id st = Some i)) then mret (inr (set_error st EIDRM))
  else
    qp ← rd (msgque st) i;
    if msg_qbytes qp <? cnt + msg_cbytes qp then
      if has_flag flg IPC_NOWAIT then mret (inr (set_error st EAGAIN))
      else
        st ← put_que st i (with_mmode qp (Z.lor (mmode qp) MSG_WWAIT));
        mret (inl (ChQueue i, st))
    else
      match msgfp st with
      | [] => msg_wait flg ChHdr st
      | mp :: fp =>
          if cnt =? 0 then inr <$> msg_enqueue mi u now i mp fp cnt type 0 text st
          else
            '(spot, m) ← rm_alloc (msgmap st) (btoq mi cnt);
            if spot =? 0 then
              if has_flag flg IPC_NOWAIT then mret (inr (set_error st EAGAIN))
              else m ← rm_want (msgmap st); mret (inl (ChMap, set_mmap st m))
            else inr <$> msg_enqueue mi u now i mp fp cnt type spot text (set_mmap st m)
      end.

(** [type] and [text] are what copyin() delivers. *)
Definition msgsnd (mi : msginfo) (u : ucred) (now id msgsz flg : Z) (type : Z + Z)
    (text : list Z + Z) st : res ((msgchan * msgst M) + msgst M) :=
  match msgconv mi id st with
  | None => mret (inr (set_error st EINVAL))
  | Some i =>
      qp ← rd (msgque st) i;
      match ipcaccess u (msg_perm qp) MSG_W with
      | Some e => mret (inr (set_error st e))
      | None =>
          if (msgsz <? 0) || (msgmax mi <? msgsz) then mret (inr (set_error st EINVAL))
          else
            match type with
            | inr e => mret (inr (set_error st e))
            | inl type =>
                if type <? 1 then mret (inr (set_error st EINVAL))
                else msgsnd_try mi u now id i false msgsz type flg text st
            end
      end
  end.

(** sleep() on [c] returned, with a signal ([intr]) or not. *)
Definition msgsnd_woken (mi : msginfo) (u : ucred) (now id : Z) (i : nat) (c : msgchan) (intr : bool)
    (cnt type flg : Z) (text : list Z + Z) st : res ((msgchan * msgst M) + msgst M) :=
  if intr then
    let st := set_error st EINTR in
    match c with
    | ChQueue _ =>
        if bool_decide (msgconv mi id st = Some i) then
          qp ← rd (msgque st) i;
          st ← put_que st i (with_mmode qp (Z.land (mmode qp) (Z.lnot MSG_WWAIT)));
          mret (inr (add_wake st (ChQueue i)))
        else mret (inr st)
    | _ => mret (inr st)
    end
  else msgsnd_try mi u now id i true cnt type flg text st.
End Msg.
