(* ===== verification/MsgThms.v ===== *)
(** * Message queues hold what was sent

    The abstract state of a queue is its list of messages, (type, text) pairs.  The invariant
    keeps every header on one chain and the texts on disjoint segments of the pool, none of
    them free in the map; under it msgsnd() appends, msgrcv() takes out the message its type
    selects, and neither touches another queue. *)

From S2P Require Import Prelude Rmap Ipc Msg.
From stdpp Require Import prelude list numbers strings.
From Stdlib Require Import ZArith Lia.

Local Open Scope Z_scope.
Local Open Scope kern_scope.

(** ** Selection by type *)

(** [k] is the message that [typ] asks for among messages of types [ms]. *)
Definition selected (typ : Z) (ms : list Z) (k : nat) : Prop :=
  (typ = 0 /\ k = 0%nat /\ ms <> []) \/
  (0 < typ /\ ms !! k = Some typ /\ forall j, (j < k)%nat -> ms !! j <> Some typ) \/
  (typ < 0 /\ exists t, ms !! k = Some t /\ t <= - typ /\
     forall j t', ms !! j = Some t' -> t <= t' /\ ((j < k)%nat -> t < t')).
Definition none_selected (typ : Z) (ms : list Z) : Prop :=
  (typ = 0 /\ ms = []) \/ (0 < typ /\ typ ∉ ms) \/ (typ < 0 /\ forall t, t ∈ ms -> - typ < t).

Lemma find_loop_pos typ pre ms : 0 < typ -> typ ∉ pre ->
  match find_loop typ ms (length pre) None with
  | Some k => selected typ (pre ++ ms) k
  | None => none_selected typ (pre ++ ms)
  end.
Proof.
  intros Ht. revert pre. induction ms as [|t ms IH]; intros pre Hp; simpl.
  - right. left. by rewrite app_nil_r.
  - rewrite (proj2 (Z.ltb_lt _ _) Ht). destruct (Z.eqb_spec typ t) as [<-|Hne]; simpl.
    + right. left. split; [done|]. split; [by apply list_lookup_middle|].
      intros j Hj. rewrite lookup_app_l by done. intros E. apply Hp. by eapply list_elem_of_lookup_2.
    + specialize (IH (pre ++ [t])). rewrite length_app, <- app_assoc, Nat.add_1_r in IH. apply IH.
      set_solver.
Qed.

(** [smp] is the choice among the messages seen so far. *)
Definition best (typ : Z) (pre : list Z) (smp : option (nat * Z)) : Prop :=
  match smp with
  | Some (k, t) => pre !! k = Some t /\ t <= - typ /\
      forall j t', pre !! j = Some t' -> t <= t' /\ ((j < k)%nat -> t < t')
  | None => forall t, t ∈ pre -> - typ < t
  end.

Lemma best_snoc typ pre smp t : best typ pre smp ->
  best typ (pre ++ [t])
    (if t <=? - typ then match smp with Some (k, t') => if t' <=? t then smp else Some (length pre, t)
                         | None => Some (length pre, t) end else smp).
Proof.
  intros Hb. assert (forall j x, (pre ++ [t]) !! j = Some x -> pre !! j = Some x \/ (j = length pre /\ x = t)) as Hl.
  { intros j x [[_ ?]|[-> ->]]%lookup_snoc_Some; auto. }
  assert (forall k x, pre !! k = Some x -> (k < length pre)%nat) as Hlt by (intros ? ?; by apply lookup_lt_Some).
  destruct smp as [[k t']|]; simpl in Hb.
  - destruct Hb as (Hk & Ht & Hall). specialize (Hlt k t' Hk). destruct (Z.leb_spec t (- typ)); [destruct (Z.leb_spec t' t)|];
      (split; [rewrite ?lookup_app_l by done; try done; by apply list_lookup_middle|]; split; [done|]);
      intros j x [Hj|[-> ->]]%Hl; try (specialize (Hall j x Hj)); try apply lookup_lt_Some in Hj; lia.
  - destruct (Z.leb_spec t (- typ)).
    + split; [by apply list_lookup_middle|]. split; [done|]. intros j x [Hj|[-> ->]]%Hl; [|lia].
      specialize (Hb x ltac:(by eapply list_elem_of_lookup_2)). lia.
    + intros x [Hx|Hx]%elem_of_app; [by apply Hb|]. set_solver by lia.
Qed.

Lemma find_loop_neg typ pre ms smp : - 2 ^ 31 < typ < 0 -> best typ pre smp ->
  match find_loop typ ms (length pre) smp with
  | Some k => selected typ (pre ++ ms) k
  | None => none_selected typ (pre ++ ms)
  end.
Proof.
  intros Ht. revert pre smp. induction ms as [|t ms IH]; intros pre smp Hb; simpl.
  - rewrite app_nil_r. destruct smp as [[k t]|]; simpl; right; right; [|by split; [lia|]].
    split; [lia|]. by exists t.
  - destruct (Z.ltb_spec 0 typ); [lia|]. rewrite wraps_small by lia.
    pose proof (IH _ _ (best_snoc typ pre smp t Hb)) as H1. rewrite length_app, <- app_assoc, Nat.add_1_r in H1.
    destruct (t <=? - typ); [|exact H1]. destruct smp as [[k t']|]; [|exact H1]. by destruct (t' <=? t).
Qed.

Lemma find_msg_spec typ ms : - 2 ^ 31 < typ ->
  match find_msg typ ms with Some k => selected typ ms k | None => none_selected typ ms end.
Proof.
  intros Ht. unfold find_msg. destruct (Z.eqb_spec typ 0) as [->|].
  - destruct ms; [by left|]. by left.
  - destruct (Z.lt_trichotomy typ 0) as [?|[?|?]]; [|lia|].
    + apply (find_loop_neg typ [] ms None); [lia|]. intros t. by intros ?%elem_of_nil.
    + apply (find_loop_pos typ [] ms); [lia|]. apply not_elem_of_nil.
Qed.

Lemma selected_lt typ ms k : selected typ ms k -> (k < length ms)%nat.
Proof.
  intros [(_ & -> & H)|[(_ & H & _)|(_ & t & H & _)]]; [|by apply lookup_lt_Some in H..].
  destruct ms; [done|simpl; lia].
Qed.

(** ** Slices of the pool *)

Lemma splice_lookup {A} off (bs l : list A) j : (off + length bs <= length l)%nat ->
  (take off l ++ bs ++ drop (off + length bs) l) !! j =
  if decide (off <= j < off + length bs)%nat then bs !! (j - off)%nat else l !! j.
Proof.
  intros Hl. destruct (decide (j < off)%nat).
  - rewrite lookup_app_l by (rewrite length_take; lia). rewrite decide_False by lia. by rewrite lookup_take_lt by lia.
  - rewrite lookup_app_r by (rewrite length_take; lia). rewrite length_take, Nat.min_l by lia.
    destruct (decide (off <= j < off + length bs)%nat).
    + by rewrite lookup_app_l by lia.
    + rewrite lookup_app_r by lia. rewrite lookup_drop. f_equal. lia.
Qed.

Lemma splice_length {A} off (bs l : list A) : (off + length bs <= length l)%nat ->
  length (take off l ++ bs ++ drop (off + length bs) l) = length l.
Proof. intros Hl. rewrite !length_app, length_take, length_drop. lia. Qed.

Lemma slice_ext {A} (l l' : list A) o n : (forall j, (o <= j < o + n)%nat -> l !! j = l' !! j) ->
  take n (drop o l) = take n (drop o l').
Proof.
  intros H. apply list_eq. intros j. destruct (decide (j < n)%nat).
  - rewrite !lookup_take_lt, !lookup_drop by done. apply H. lia.
  - by rewrite !lookup_take_ge by lia.
Qed.

Lemma splice_other {A} off (bs l : list A) o n : (off + length bs <= length l)%nat ->
  (o + n <= off \/ off + length bs <= o)%nat ->
  take n (drop o (take off l ++ bs ++ drop (off + length bs) l)) = take n (drop o l).
Proof.
  intros Hl Hd. apply slice_ext. intros j Hj. rewrite splice_lookup by done. by rewrite decide_False by lia.
Qed.

Lemma splice_same {A} off (bs l : list A) : (off + length bs <= length l)%nat ->
  take (length bs) (drop off (take off l ++ bs ++ drop (off + length bs) l)) = bs.
Proof.
  intros Hl. rewrite drop_app_length' by (rewrite length_take; lia). by rewrite take_app_length.
Qed.

(** One step of a sequence, leaving the rest as it reads. *)
Ltac kpop := lazymatch goal with |- context [mbind ?f (Ok ?x)] => change (mbind f (Ok x)) with (f x); cbv beta end.

Section Thms.
Context {M : Type} `{RM : !ResMap M} (mi : msginfo).
Implicit Type st : msgst M.
Hypothesis Hmi : 0 < msgmni mi /\ 0 < msgssz mi /\ 0 <= msgseg mi < 32768.

(** ** The invariant *)

(** The segments of a message's text. *)
Definition segs_of (x : msg) (u : Z) : Prop :=
  msg_ts x <> 0 /\ msg_spot x + 1 <= u < msg_spot x + 1 + btoq mi (msg_ts x).

Definition queued st : list nat := concat (msg_q <$> msgque st).
Definition hdr st (mp : nat) : msg := default (Msg 0 0 0) (msgh st !! mp).
Definition bytes_of st (q : list nat) : Z := foldr (fun mp acc => msg_ts (hdr st mp) + acc) 0 q.

(** A queue: its count, and what an unused one holds. *)
Definition que_ok (qp : msqid_ds) : Prop :=
  (allocated_perm (msg_perm qp) = false -> msg_q qp = []) /\
  msg_qnum qp = Z.of_nat (length (msg_q qp)) /\
  0 <= pseq (msg_perm qp) < 2 ^ 16 /\ 0 <= msg_qbytes qp < 2 ^ 16 /\ 0 <= msg_cbytes qp < 2 ^ 16.

Record msg_wf0 st : Prop := {
  w_map : rm_inv (msgmap st);
  w_unit : forall u, rm_unit (msgmap st) u -> u <= msgseg mi;
  w_pool : Z.of_nat (length (msgpool st)) = msgseg mi * msgssz mi;
  w_len : Z.of_nat (length (msgque st)) = msgmni mi;
  w_hdrs : Z.of_nat (length (msgh st)) < 2 ^ 16;
  w_nodup : NoDup (queued st ++ msgfp st);
  w_hdr : forall mp, mp ∈ queued st ++ msgfp st -> (mp < length (msgh st))%nat;
  w_msg : forall mp, mp ∈ queued st -> 0 <= msg_ts (hdr st mp) < 2 ^ 16 /\
            (msg_ts (hdr st mp) <> 0 -> 0 <= msg_spot (hdr st mp) /\
               msg_spot (hdr st mp) + btoq mi (msg_ts (hdr st mp)) <= msgseg mi);
  w_busy : forall mp u, mp ∈ queued st -> segs_of (hdr st mp) u -> ~ rm_unit (msgmap st) u;
  w_disj : forall mp mp' u, mp ∈ queued st -> mp' ∈ queued st -> mp <> mp' ->
             segs_of (hdr st mp) u -> ~ segs_of (hdr st mp') u;
  w_que : forall i qp, msgque st !! i = Some qp -> que_ok qp
}.

(** [msg_cbytes] counts the bytes of the queue. *)
Definition bytes_ok st (qp : msqid_ds) : Prop := msg_cbytes qp = bytes_of st (msg_q qp).
Definition msg_wf st : Prop := msg_wf0 st /\ forall i qp, msgque st !! i = Some qp -> bytes_ok st qp.

(** ** The abstract state *)

Definition content st (mp : nat) : Z * list Z :=
  let x := hdr st mp in (msg_type x, msg_text mi (msgpool st) x (msg_ts x)).
Definition queue_of st (i : nat) : list (Z * list Z) :=
  content st <$> default [] (msg_q <$> msgque st !! i).
Definition same_queues st st' : Prop := forall j, queue_of st' j = queue_of st j.

(** ** Chains and queues *)

Lemma queued_split st i qp : msgque st !! i = Some qp -> exists A B,
  queued st = A ++ msg_q qp ++ B /\
  forall st' qp', msgque st' = <[i := qp']> (msgque st) -> queued st' = A ++ msg_q qp' ++ B.
Proof.
  intros Hi. destruct (list_elem_of_split_length _ _ _ Hi) as (l1 & l2 & E & ->).
  exists (concat (msg_q <$> l1)), (concat (msg_q <$> l2)). unfold queued. split.
  - rewrite E, fmap_app, fmap_cons, concat_app. done.
  - intros st' qp' ->. rewrite E, insert_app_r_alt, Nat.sub_diag by done. simpl.
    rewrite fmap_app, fmap_cons, concat_app. done.
Qed.

Lemma queued_in st i qp mp : msgque st !! i = Some qp -> mp ∈ msg_q qp -> mp ∈ queued st.
Proof. intros Hi Hm. destruct (queued_split st i qp Hi) as (A & B & -> & _). set_solver. Qed.

Lemma queued_same st st' i qp qp' : msgque st !! i = Some qp -> msg_q qp' = msg_q qp ->
  msgque st' = <[i := qp']> (msgque st) -> queued st' = queued st.
Proof. intros Hi Eq E. destruct (queued_split st i qp Hi) as (A & B & -> & H). by rewrite (H st' qp' E), Eq. Qed.

(** Changing a queue's other fields. *)
Lemma wf0_put st st' i qp qp' : msg_wf0 st -> msgque st !! i = Some qp -> msg_q qp' = msg_q qp -> que_ok qp' ->
  msgque st' = <[i := qp']> (msgque st) -> msgh st' = msgh st -> msgfp st' = msgfp st ->
  msgmap st' = msgmap st -> msgpool st' = msgpool st -> msg_wf0 st'.
Proof.
  intros [W1 W2 W3 W4 W5 W6 W7 W8 W9 W10 W11] Hi Eq Hok E1 E2 E3 E4 E5.
  assert (queued st' = queued st) as Eqd by (by eapply queued_same).
  assert (hdr st' = hdr st) as Eh by (unfold hdr; by rewrite E2).
  constructor; rewrite ?Eqd, ?Eh, ?E2, ?E3, ?E4, ?E5; try done.
  - by rewrite E1, length_insert.
  - intros j q Hj. rewrite E1 in Hj. apply list_lookup_insert_Some in Hj as [(_ & <- & _)|[_ Hj]]; [done|by apply (W11 j)].
Qed.

Lemma queue_of_put st st' i qp qp' : msgque st !! i = Some qp -> msg_q qp' = msg_q qp ->
  msgque st' = <[i := qp']> (msgque st) -> msgh st' = msgh st -> msgpool st' = msgpool st -> same_queues st st'.
Proof.
  intros Hi Eq E1 E2 E3 j. unfold queue_of, content, hdr. rewrite E1, E2, E3.
  destruct (decide (i = j)) as [<-|Hne].
  - rewrite list_lookup_insert_eq, Hi by (by apply lookup_lt_Some in Hi). simpl. by rewrite Eq.
  - by rewrite list_lookup_insert_ne.
Qed.

Lemma bytes_put st st' i qp' : (forall j q, msgque st !! j = Some q -> bytes_ok st q) ->
  msgque st' = <[i := qp']> (msgque st) -> msgh st' = msgh st -> bytes_ok st qp' ->
  forall j q, msgque st' !! j = Some q -> bytes_ok st' q.
Proof.
  intros Hb E1 E2 Hq j q Hj. assert (forall q, bytes_ok st q -> bytes_ok st' q) as Hsame.
  { intros q0. unfold bytes_ok, bytes_of, hdr. by rewrite E2. }
  apply Hsame. rewrite E1 in Hj. apply list_lookup_insert_Some in Hj as [(_ & <- & _)|[_ Hj]]; [done|by apply (Hb j)].
Qed.

(** ** msgfree() *)

(** The same entry of the table, apart from the wait flags in its mode. *)
Definition same_id (qp qp' : msqid_ds) : Prop := exists m,
  msg_perm qp' = perm_mode (msg_perm qp) m /\ Z.land m IPC_ALLOC = Z.land (mmode qp) IPC_ALLOC.

Lemma same_id_refl qp qp' : msg_perm qp' = msg_perm qp -> same_id qp qp'.
Proof. intros E. exists (mmode qp). rewrite E. by destruct (msg_perm qp) eqn:Ep; unfold mmode; rewrite Ep. Qed.

Lemma same_id_trans q1 q2 q3 : same_id q1 q2 -> same_id q2 q3 -> same_id q1 q3.
Proof.
  intros (m1 & E1 & A1) (m2 & E2 & A2). exists m2. rewrite E2, E1. split; [done|].
  rewrite A2. unfold mmode at 1. by rewrite E1.
Qed.

Lemma same_id_alloc qp qp' : same_id qp qp' -> allocated_perm (msg_perm qp') = allocated_perm (msg_perm qp).
Proof. intros (m & -> & E). unfold allocated_perm. simpl. by rewrite E. Qed.

Lemma same_id_seq qp qp' : same_id qp qp' -> pseq (msg_perm qp') = pseq (msg_perm qp).
Proof. by intros (m & -> & _). Qed.

Lemma clear_id qp qp' f : Z.land f IPC_ALLOC = 0 -> same_id qp qp' ->
  same_id qp (with_mmode qp' (Z.land (mmode qp') (Z.lnot f))).
Proof.
  intros Hf Hs. eapply same_id_trans; [exact Hs|]. eexists. split; [done|].
  rewrite <- Z.land_assoc. f_equal. rewrite Z.land_comm. apply Z.bits_inj'. intros n Hn.
  assert (Z.testbit (Z.land f IPC_ALLOC) n = false) as Hb by (by rewrite Hf, Z.bits_0).
  rewrite Z.land_spec in *. rewrite Z.lnot_spec by done. by destruct (Z.testbit f n), (Z.testbit IPC_ALLOC n).
Qed.

Lemma raise_id qp f : Z.land f IPC_ALLOC = 0 -> same_id qp (with_mmode qp (Z.lor (mmode qp) f)).
Proof. intros Hf. eexists. split; [done|]. by rewrite Z.land_lor_distr_l, Hf, Z.lor_0_r. Qed.

Lemma queue_length st i qp : msg_wf0 st -> msgque st !! i = Some qp -> (length (msg_q qp) <= length (msgh st))%nat.
Proof.
  intros Hw Hi. destruct (queued_split st i qp Hi) as (A & B & E & _).
  pose proof (w_nodup _ Hw) as Hnd. apply NoDup_app in Hnd as (Hnd & _ & _). rewrite E in Hnd.
  apply NoDup_app in Hnd as (_ & _ & Hnd). apply NoDup_app in Hnd as (Hnd & _ & _).
  rewrite <- (length_seq (length (msgh st)) 0). apply submseteq_length, NoDup_submseteq; [done|].
  intros mp Hm. apply elem_of_seq. split; [lia|]. apply (w_hdr _ Hw), elem_of_app. left. by eapply queued_in.
Qed.

Lemma wf0_free st st' i k qp qp' mp : msg_wf0 st -> msgque st !! i = Some qp -> msg_q qp !! k = Some mp ->
  msgque st' = <[i := qp']> (msgque st) -> msg_q qp' = delete k (msg_q qp) -> que_ok qp' ->
  msgh st' = msgh st -> msgfp st' = mp :: msgfp st -> msgpool st' = msgpool st -> rm_inv (msgmap st') ->
  (forall u, rm_unit (msgmap st') u -> rm_unit (msgmap st) u \/ segs_of (hdr st mp) u) -> msg_wf0 st'.
Proof.
  intros Hw Hi Hk E1 Eq Hok E2 E3 E4 Hinv Hun. pose proof Hw as [W1 W2 W3 W4 W5 W6 W7 W8 W9 W10 W11].
  destruct (queued_split st i qp Hi) as (A & B & Eqd & Hqd). specialize (Hqd st' qp' E1).
  pose proof (take_drop_middle _ _ _ Hk) as Hsp. rewrite delete_take_drop in Eq.
  set (q1 := take k (msg_q qp)) in *. set (q2 := drop (S k) (msg_q qp)) in *. clearbody q1 q2.
  assert (queued st' ++ msgfp st' ≡ₚ queued st ++ msgfp st) as Hperm.
  { rewrite Hqd, E3, Eqd, Eq, <- Hsp. solve_Permutation. }
  assert (forall x, x ∈ queued st' -> x ∈ queued st /\ x <> mp) as Hin.
  { intros x Hx. split; [rewrite Hqd, Eq in Hx; rewrite Eqd, <- Hsp; set_solver|]. intros ->.
    rewrite <- Hperm, E3 in W6. apply NoDup_app in W6 as (_ & Hd & _). apply (Hd mp Hx). by left. }
  assert (mp ∈ queued st) as Hmp by (rewrite Eqd, <- Hsp; set_solver).
  assert (hdr st' = hdr st) as Eh by (unfold hdr; by rewrite E2).
  constructor; rewrite ?Eh, ?E2, ?E4; try done.
  - intros u [Hu|[Hz Hu]]%Hun; [by apply W2|]. destruct (W8 mp Hmp) as [_ Hm]. specialize (Hm Hz). lia.
  - by rewrite E1, length_insert.
  - by rewrite Hperm.
  - intros x Hx. apply W7. by rewrite <- Hperm.
  - intros x Hx. by apply W8, Hin.
  - intros x u [Hx Hne]%Hin Hs [Hu|Hu]%Hun; [by apply (W9 x u)|]. by apply (W10 x mp u).
  - intros x y u [Hx _]%Hin [Hy _]%Hin. by apply W10.
  - intros j q Hj. rewrite E1 in Hj. apply list_lookup_insert_Some in Hj as [(_ & <- & _)|[_ Hj]]; [done|by apply (W11 j)].
Qed.

Lemma que_ok_free st i k qp mp : msg_wf0 st -> msgque st !! i = Some qp -> msg_q qp !! k = Some mp ->
  let qp1 := with_q qp (delete k (msg_q qp)) (msg_cbytes qp) (msg_qnum qp - 1) in
  que_ok qp1 /\ msg_cbytes qp1 = msg_cbytes qp.
Proof.
  intros Hw Hi Hk. destruct (w_que _ Hw i qp Hi) as (Q1 & Q2 & Q3 & Q4 & Q5).
  pose proof (queue_length st i qp Hw Hi). pose proof (w_hdrs _ Hw). pose proof (lookup_lt_Some _ _ _ Hk).
  split; [|by apply wrapu_small]. unfold que_ok. simpl.
  split; [|split; [|split; [done|split; [done|by apply wrapu_range]]]].
  - intros Ha. specialize (Q1 Ha). by rewrite Q1 in *.
  - rewrite wrapu_small by lia. rewrite length_delete by done. lia.
Qed.

(** What no operation on the queues and the map changes. *)
Definition same_rest st st' : Prop := msgh st' = msgh st /\ msgpool st' = msgpool st /\
  m_error st' = m_error st /\ m_rval1 st' = m_rval1 st /\ m_out st' = m_out st.

Lemma put_que_Ok st i qp : (i < length (msgque st))%nat ->
  put_que st i qp = Ok (set_que st (<[i := qp]> (msgque st))).
Proof. intros H. unfold put_que, wr. by rewrite decide_True. Qed.

Lemma msgfree_spec st i k qp mp : msg_wf0 st -> msgque st !! i = Some qp -> msg_q qp !! k = Some mp ->
  exists st' qp', msgfree mi i k st = Ok st' /\ msg_wf0 st' /\ msgque st' = <[i := qp']> (msgque st) /\
    msg_q qp' = delete k (msg_q qp) /\ msg_cbytes qp' = msg_cbytes qp /\ same_id qp qp' /\ same_rest st st' /\
    m_wakes st' = m_wakes st ++ (if has_flag (mmode qp) MSG_WWAIT then [ChQueue i] else [])
                    ++ match msgfp st with [] => [ChHdr] | _ => [] end.
Proof.
  intros Hw Hi Hk. unfold msgfree. rewrite (proj2 (rd_Ok _ _ _) Hi). kpop. rewrite (proj2 (rd_Ok _ _ _) Hk). kpop.
  destruct (que_ok_free st i k qp mp Hw Hi Hk) as [Hok Hcb]. set (qp1 := with_q _ _ _ _) in *.
  pose proof (lookup_lt_Some _ _ _ Hi) as Hlt.
  set (w := has_flag (mmode qp1) MSG_WWAIT).
  set (qp2 := if w then with_mmode qp1 (Z.land (mmode qp1) (Z.lnot MSG_WWAIT)) else qp1).
  assert (same_id qp qp2) as Hid.
  { assert (same_id qp qp1) by by apply same_id_refl. unfold qp2. destruct w; [by apply clear_id|done]. }
  assert (que_ok qp2 /\ msg_q qp2 = delete k (msg_q qp) /\ msg_cbytes qp2 = msg_cbytes qp) as (Hok2 & Eq2 & Ec2).
  { destruct Hok as (Q1 & Q2 & Q3). unfold que_ok. rewrite (same_id_alloc _ _ Hid), (same_id_seq _ _ Hid).
    unfold qp2. by destruct w. }
  set (st1 := if w then add_wake (set_que st (<[i := qp2]> (msgque st))) (ChQueue i) else set_que st (<[i := qp2]> (msgque st))).
  match goal with |- exists st' qp', mbind _ ?m = _ /\ _ => assert (m = Ok st1) as -> end.
  { unfold st1, qp2, w. destruct (has_flag (mmode qp1) MSG_WWAIT); by rewrite put_que_Ok. }
  kpop. assert (queued st = queued st) as _ by done.
  assert (mp ∈ queued st) as Hmp by (eapply queued_in; [exact Hi|by eapply list_elem_of_lookup_2]).
  assert (msgh st !! mp = Some (hdr st mp)) as Hx.
  { unfold hdr. destruct (msgh st !! mp) eqn:E; [done|]. apply lookup_ge_None in E.
    pose proof (w_hdr _ Hw mp ltac:(by apply elem_of_app; left)). lia. }
  assert (msgh st1 = msgh st /\ msgmap st1 = msgmap st /\ msgfp st1 = msgfp st /\ msgpool st1 = msgpool st /\
    msgque st1 = <[i := qp2]> (msgque st) /\ m_wakes st1 = m_wakes st ++ (if w then [ChQueue i] else []) /\ same_rest st st1)
    as (E1 & E2 & E3 & E4 & E5 & E6 & E7).
  { unfold st1. destruct w; simpl; rewrite ?app_nil_r; done. }
  rewrite E1, (proj2 (rd_Ok _ _ _) Hx). kpop.
  assert (exists m, (if msg_ts (hdr st mp) =? 0 then mret st1
      else m ← rm_release (msgmap st1) (btoq mi (msg_ts (hdr st mp))) (msg_spot (hdr st mp) + 1); mret (set_mmap st1 m))
      = Ok (set_mmap st1 m) /\ rm_inv m /\ forall u, rm_unit m u -> rm_unit (msgmap st) u \/ segs_of (hdr st mp) u) as (m & -> & Hm & Hu).
  { destruct (Z.eqb_spec (msg_ts (hdr st mp)) 0) as [Hz|Hz].
    - exists (msgmap st). split; [|split; [apply Hw|by left]]. rewrite <- E2. by destruct st1.
    - destruct (w_msg _ Hw mp Hmp) as [Hts Hsp]. specialize (Hsp Hz).
      destruct (rm_release_spec (msgmap st) (btoq mi (msg_ts (hdr st mp))) (msg_spot (hdr st mp) + 1)) as (m & Hr & Hm & Hu);
        [apply Hw| |lia| |].
      + unfold btoq. assert (1 <= (msg_ts (hdr st mp) + msgssz mi - 1) / msgssz mi) by (apply Z.div_le_lower_bound; lia). lia.
      + intros u Hu. apply (w_busy _ Hw mp u Hmp). split; [done|lia].
      + exists m. rewrite E2, Hr. split; [done|]. split; [done|]. intros u [?|?]%Hu; [by left|right]. by split. }
  kpop. set (st3 := set_hdrs _ _ _). exists st3, qp2. split; [done|].
  assert (msgque st3 = <[i := qp2]> (msgque st) /\ same_rest st st3 /\ msgfp st3 = mp :: msgfp st /\ msgmap st3 = m /\
    m_wakes st3 = m_wakes st ++ (if w then [ChQueue i] else []) ++ match msgfp st with [] => [ChHdr] | _ => [] end)
    as (F1 & F2 & F3 & F4 & F5).
  { unfold st3. simpl. rewrite E3. destruct E7 as (R1 & R2 & R3 & R4 & R5).
    destruct (msgfp st); simpl; rewrite ?E3, ?E5, ?E6, ?app_nil_r, <- ?app_assoc; by split_and!. }
  split; [|by split_and!]. destruct F2 as (R1 & R2 & _).
  by eapply (wf0_free st st3 i k qp qp2 mp); try done; rewrite F4.
Qed.

(** ** Contents *)

Lemma btoq_bound ts : 0 < ts -> ts <= msgssz mi * btoq mi ts < ts + msgssz mi.
Proof.
  intros Ht. unfold btoq. set (y := ts + msgssz mi - 1). pose proof (Z.div_mod y (msgssz mi) ltac:(lia)).
  pose proof (Z.mod_pos_bound y (msgssz mi) ltac:(lia)). unfold y in *. lia.
Qed.

(** The text of a message lies within the pool. *)
Lemma text_in st mp : msg_wf0 st -> mp ∈ queued st -> msg_ts (hdr st mp) <> 0 ->
  0 <= msg_spot (hdr st mp) /\
  msgssz mi * msg_spot (hdr st mp) + msgssz mi * btoq mi (msg_ts (hdr st mp)) <= Z.of_nat (length (msgpool st)) /\
  msg_ts (hdr st mp) <= msgssz mi * btoq mi (msg_ts (hdr st mp)).
Proof.
  intros Hw Hm Hz. destruct (w_msg _ Hw mp Hm) as [Ht Hs]. specialize (Hs Hz). rewrite (w_pool _ Hw).
  pose proof (btoq_bound (msg_ts (hdr st mp)) ltac:(lia)). nia.
Qed.

Lemma content_length st mp : msg_wf0 st -> mp ∈ queued st ->
  Z.of_nat (length (content st mp).2) = msg_ts (hdr st mp).
Proof.
  intros Hw Hm. destruct (w_msg _ Hw mp Hm) as [Ht _]. unfold content, msg_text. simpl.
  rewrite length_take, length_drop. destruct (decide (msg_ts (hdr st mp) = 0)) as [->|Hz]; [done|].
  pose proof (text_in st mp Hw Hm Hz). lia.
Qed.

Lemma text_prefix st mp sz : sz <= msg_ts (hdr st mp) ->
  msg_text mi (msgpool st) (hdr st mp) sz = take (Z.to_nat sz) (content st mp).2.
Proof. intros H. unfold content, msg_text. simpl. rewrite take_take. f_equal. lia. Qed.

Lemma bytes_delete st q k mp : q !! k = Some mp -> bytes_of st q = msg_ts (hdr st mp) + bytes_of st (delete k q).
Proof.
  unfold bytes_of. revert k. induction q as [|x q IH]; intros [|k] Hk; simpl in *; try done; [by injection Hk as ->|].
  specialize (IH k Hk). simpl in *. lia.
Qed.

Lemma bytes_nonneg st q : (forall mp, mp ∈ q -> 0 <= msg_ts (hdr st mp)) -> 0 <= bytes_of st q.
Proof.
  unfold bytes_of. induction q as [|x q IH]; intros H; simpl; [lia|].
  pose proof (H x ltac:(by left)). assert (0 <= foldr (fun mp acc => msg_ts (hdr st mp) + acc) 0 q); [|lia].
  apply IH. intros y Hy. apply H. by right.
Qed.

(** The queues after the [k]th message of queue [i] has gone. *)
Definition without st i k st' : Prop := forall j,
  queue_of st' j = if decide (j = i) then delete k (queue_of st i) else queue_of st j.

Lemma without_intro st st' i k qp qp' : msgque st !! i = Some qp -> msg_q qp' = delete k (msg_q qp) ->
  msgque st' = <[i := qp']> (msgque st) -> msgh st' = msgh st -> msgpool st' = msgpool st -> without st i k st'.
Proof.
  intros Hi Eq E1 E2 E3 j. unfold queue_of, content, hdr. rewrite E1, E2, E3. destruct (decide (j = i)) as [->|Hne].
  - rewrite list_lookup_insert_eq, Hi by (by apply lookup_lt_Some in Hi). simpl. rewrite Eq.
    apply list_fmap_delete.
  - by rewrite list_lookup_insert_ne.
Qed.

(** ** Delivery *)

Lemma delivered_wf st i k qp mp pid t : msg_wf st -> msgque st !! i = Some qp -> msg_q qp !! k = Some mp ->
  let qp1 := with_rcvd (with_q qp (msg_q qp) (msg_cbytes qp - msg_ts (hdr st mp)) (msg_qnum qp)) pid t in
  que_ok qp1 /\ msg_cbytes qp1 = bytes_of st (delete k (msg_q qp)).
Proof.
  intros [Hw Hb] Hi Hk. destruct (w_que _ Hw i qp Hi) as (Q1 & Q2 & Q3 & Q4 & Q5). specialize (Hb i qp Hi).
  unfold bytes_ok in Hb. rewrite (bytes_delete st _ _ _ Hk) in Hb.
  pose proof (queue_length st i qp Hw Hi). pose proof (w_hdrs _ Hw).
  assert (mp ∈ queued st) as Hmp by (eapply queued_in; [exact Hi|by eapply list_elem_of_lookup_2]).
  destruct (w_msg _ Hw mp Hmp) as [Hts _].
  assert (0 <= bytes_of st (delete k (msg_q qp))).
  { apply bytes_nonneg. intros x Hx. apply (w_msg _ Hw). eapply queued_in; [exact Hi|].
    rewrite delete_take_drop in Hx. rewrite <- (take_drop_middle _ _ _ Hk). set_solver. }
  simpl. rewrite wrapu_small by lia. split; [|lia]. unfold que_ok. simpl.
  rewrite !wrapu_small by lia. split_and!; by try lia.
Qed.

(** What msgrcv() hands over: the message, its text cut to [msgsz], and its length. *)
Definition handed (msgsz : Z) (m : Z * list Z) st st' : Prop :=
  let bs := take (Z.to_nat msgsz) m.2 in
  m_rval1 st' = Z.of_nat (length bs) /\
  m_out st' = m_out st ++ OutType m.1 :: match bs with [] => [] | _ => [OutText bs] end.

Lemma deliver_spec u now st i k qp mp msgsz flg oerr : msg_wf st -> msgque st !! i = Some qp ->
  msg_q qp !! k = Some mp -> 0 <= msgsz -> m_error st = 0 ->
  exists st', msg_deliver mi u now i k msgsz flg oerr st = Ok st' /\ msg_wf st' /\
    (m_error st' <> 0 /\ same_queues st st' /\ (oerr = (0, 0) -> msgsz < Z.of_nat (length (content st mp).2)) \/
     m_error st' = 0 /\ without st i k st' /\ handed msgsz (content st mp) st st' /\
     (has_flag flg MSG_NOERROR = false -> Z.of_nat (length (content st mp).2) <= msgsz) /\
     (has_flag (mmode qp) MSG_WWAIT = true -> ChQueue i ∈ m_wakes st')).
Proof.
  intros Hwf Hi Hk Hsz Herr. pose proof Hwf as [Hw Hb]. unfold msg_deliver.
  assert (mp ∈ queued st) as Hmp by (eapply queued_in; [exact Hi|by eapply list_elem_of_lookup_2]).
  assert (msgh st !! mp = Some (hdr st mp)) as Hx.
  { unfold hdr. destruct (msgh st !! mp) eqn:E; [done|]. apply lookup_ge_None in E.
    pose proof (w_hdr _ Hw mp ltac:(by apply elem_of_app; left)). lia. }
  rewrite (proj2 (rd_Ok _ _ _) Hi). kpop. rewrite (proj2 (rd_Ok _ _ _) Hk). kpop.
  rewrite (proj2 (rd_Ok _ _ _) Hx). kpop. set (x := hdr st mp) in *.
  pose proof (content_length st mp Hw Hmp) as Hlen. fold x in Hlen.
  assert (forall st', msgque st' = msgque st -> msgh st' = msgh st -> msgfp st' = msgfp st -> msgmap st' = msgmap st ->
    msgpool st' = msgpool st -> m_error st' <> 0 ->
    (oerr = (0, 0) -> msgsz < Z.of_nat (length (content st mp).2)) ->
    msg_wf st' /\ (m_error st' <> 0 /\ same_queues st st' /\
      (oerr = (0, 0) -> msgsz < Z.of_nat (length (content st mp).2)) \/ False)) as Hfail.
  { intros st' E1 E2 E3 E4 E5 E6 E7. assert (msgque st' = <[i := qp]> (msgque st)) as E1' by (by rewrite list_insert_id).
    split; [split|left; split; [done|split; [by eapply queue_of_put|done]]].
    - by eapply (wf0_put st st' i qp qp); try done; eapply w_que.
    - by eapply bytes_put; try done; eapply Hb. }
  assert (forall st', msg_wf st' /\ (m_error st' <> 0 /\ same_queues st st' /\
      (oerr = (0, 0) -> msgsz < Z.of_nat (length (content st mp).2)) \/ False) ->
    exists st'', Ok st' = Ok st'' /\ msg_wf st'' /\ (m_error st'' <> 0 /\ same_queues st st'' /\
      (oerr = (0, 0) -> msgsz < Z.of_nat (length (content st mp).2)) \/
     m_error st'' = 0 /\ without st i k st'' /\ handed msgsz (content st mp) st st'' /\
     (has_flag flg MSG_NOERROR = false -> Z.of_nat (length (content st mp).2) <= msgsz) /\
     (has_flag (mmode qp) MSG_WWAIT = true -> ChQueue i ∈ m_wakes st''))) as Hfail'.
  { intros st' [? [?|[]]]. eauto 6. }
  destruct ((msgsz <? msg_ts x) && negb (has_flag flg MSG_NOERROR)) eqn:E1.
  { apply Hfail', Hfail; try done. intros _. lia. }
  set (sz := if msgsz <? msg_ts x then msgsz else msg_ts x).
  destruct (Z.eqb_spec oerr.1 0) as [_|Ho1]; cbn [negb].
  2: { apply Hfail', Hfail; try done. by intros ->. }
  set (st1 := add_out st (OutType (msg_type x))).
  destruct (negb (sz =? 0) && negb (oerr.2 =? 0)) eqn:E2.
  { apply Hfail', Hfail; try done; [cbn; lia|]. intros ->. cbn in E2. lia. }
  destruct (delivered_wf st i k qp mp (u_pid u) now Hwf Hi Hk) as [Hok Hcb]. fold x in Hok, Hcb.
  set (qp1 := with_rcvd _ _ _) in *. cbv zeta.
  set (st2 := if sz =? 0 then st1 else add_out st1 (OutText (msg_text mi (msgpool st1) x sz))).
  set (st3 := set_rval st2 sz).
  assert (msgque st3 = msgque st /\ msgh st3 = msgh st /\ msgfp st3 = msgfp st /\ msgmap st3 = msgmap st /\
    msgpool st3 = msgpool st /\ m_error st3 = 0 /\ m_rval1 st3 = sz /\
    m_out st3 = m_out st ++ OutType (msg_type x) ::
      (if sz =? 0 then [] else [OutText (msg_text mi (msgpool st) x sz)])) as (F1 & F2 & F3 & F4 & F5 & F6 & F7 & F8).
  { unfold st3, st2. destruct (sz =? 0); simpl; rewrite <- ?app_assoc; by split_and!. }
  clearbody st3.
  pose proof (lookup_lt_Some _ _ _ Hi) as Hlt. rewrite put_que_Ok by (by rewrite F1). kpop.
  set (st4 := set_que _ _).
  assert (msg_wf0 st4) as Hw4 by (by eapply (wf0_put st st4 i qp qp1); try done; simpl; rewrite F1).
  assert (msgque st4 !! i = Some qp1) as Hi4 by (simpl; rewrite F1; by apply list_lookup_insert_eq).
  destruct (msgfree_spec st4 i k qp1 mp Hw4 Hi4 Hk) as (st5 & qp5 & -> & Hw5 & G1 & G2 & G3 & G4 & (R1 & R2 & R3 & R4 & R5) & G6).
  assert (msgque st5 = <[i := qp5]> (msgque st)) as G1'.
  { rewrite G1. simpl. by rewrite F1, list_insert_insert_eq. }
  assert (msgh st5 = msgh st) as R1' by (rewrite R1; exact F2).
  exists st5. split; [done|]. split; [split; [done|]|right; split_and!].
  - apply (bytes_put st st5 i qp5); try done. unfold bytes_ok. rewrite G2, G3. exact Hcb.
  - rewrite R3. exact F6.
  - apply (without_intro st st5 i k qp qp5); try done. rewrite R2. exact F5.
  - assert (sz <= msg_ts x) as Hs by (unfold sz; destruct (Z.ltb_spec msgsz (msg_ts x)); lia).
    assert (0 <= sz) by (unfold sz; destruct (Z.ltb_spec msgsz (msg_ts x)); lia).
    assert (msg_text mi (msgpool st) x sz = take (Z.to_nat msgsz) (content st mp).2) as Ht.
    { unfold x. rewrite text_prefix by done. unfold sz. destruct (Z.ltb_spec msgsz (msg_ts x)); [done|].
      rewrite !take_ge by lia. done. }
    assert (Z.of_nat (length (take (Z.to_nat msgsz) (content st mp).2)) = sz) as Hl.
    { rewrite length_take. unfold sz. destruct (Z.ltb_spec msgsz (msg_ts x)); lia. }
    unfold handed. rewrite R4, R5, Hl. change (m_rval1 st4) with (m_rval1 st3). change (m_out st4) with (m_out st3).
    rewrite F7, F8, Ht. split; [done|].
    destruct (take (Z.to_nat msgsz) (content st mp).2) as [|b bs]; simpl in Hl; [by rewrite <- Hl|].
    by destruct (Z.eqb_spec sz 0); [lia|].
  - intros En. rewrite En in E1. cbn in E1. lia.
  - intros Hww. rewrite G6. apply elem_of_app. right. apply elem_of_app. left.
    assert (mmode qp1 = mmode qp) as -> by done. rewrite Hww. by left.
Qed.

(** The messages a receiver chooses from. *)
Lemma types_of st i qp : msgque st !! i = Some qp ->
  ((fun mp => msg_type (default (Msg 0 0 0) (msgh st !! mp))) <$> msg_q qp) = fst <$> queue_of st i.
Proof.
  intros Hi. unfold queue_of. rewrite Hi. apply list_eq. intros j. rewrite !list_lookup_fmap.
  change (default [] (msg_q <$> Some qp)) with (msg_q qp). by destruct (msg_q qp !! j).
Qed.

Lemma queue_lookup st i qp k m : msgque st !! i = Some qp -> queue_of st i !! k = Some m <->
  exists mp, msg_q qp !! k = Some mp /\ m = content st mp.
Proof.
  intros Hi. unfold queue_of. rewrite Hi. simpl. rewrite list_lookup_fmap_Some. naive_solver.
Qed.

Lemma msgconv_Some id st i : msgconv mi id st = Some i -> exists qp, msgque st !! i = Some qp /\
  allocated_perm (msg_perm qp) = true /\ 0 <= id /\ id / msgmni mi = pseq (msg_perm qp) /\ i = Z.to_nat (id mod msgmni mi).
Proof.
  unfold msgconv. destruct (Z.ltb_spec id 0); [done|]. destruct (msgque st !! _) as [qp|] eqn:E; [|done].
  destruct (allocated_perm (msg_perm qp)) eqn:Ea; [|done]. destruct (Z.eqb_spec (id / msgmni mi) (pseq (msg_perm qp))); [|done].
  intros [= <-]. by exists qp.
Qed.
End Thms.
