(* ===== verification/MsgOps.v ===== *)
(** * The message calls against the abstract queues

    msgsnd() appends and msgrcv() removes, msgctl(IPC_RMID) empties; what the receiver gets is
    what the sender gave.  Calls that must sleep leave the queues alone. *)

From S2P Require Import Prelude Rmap Ipc Msg MsgThms.
From stdpp Require Import prelude list numbers strings.
From Stdlib Require Import ZArith Lia.

Local Open Scope Z_scope.
Local Open Scope kern_scope.

Section Ops.
Context {M : Type} `{RM : !ResMap M} (mi : msginfo).
Implicit Type st : msgst M.
Hypothesis Hmi : 0 < msgmni mi /\ 0 < msgssz mi /\ 0 <= msgseg mi < 32768.

Local Abbreviation wf := (msg_wf mi).
Local Abbreviation queue := (queue_of mi).

(** Calls that leave the tables alone. *)
Lemma wf_frame st st' : wf st -> msgque st' = msgque st -> msgh st' = msgh st -> msgfp st' = msgfp st ->
  msgmap st' = msgmap st -> msgpool st' = msgpool st -> wf st' /\ same_queues mi st st'.
Proof.
  intros [Hw Hb] E1 E2 E3 E4 E5.
  assert (queued st' = queued st) as Eq by (unfold queued; by rewrite E1).
  assert (hdr st' = hdr st) as Eh by (unfold hdr; by rewrite E2). split; [split|].
  - destruct Hw. constructor; by rewrite ?Eq, ?Eh, ?E1, ?E2, ?E3, ?E4, ?E5.
  - intros i qp Hi. rewrite E1 in Hi. specialize (Hb i qp Hi). unfold bytes_ok, bytes_of in *. by rewrite Eh.
  - intros j. unfold queue_of, content. by rewrite E1, E5, Eh.
Qed.

(** Calls that only change a queue's mode. *)
Lemma wf_mode st st' i qp m : wf st -> msgque st !! i = Some qp -> Z.land m IPC_ALLOC = Z.land (mmode qp) IPC_ALLOC ->
  msgque st' = <[i := with_mmode qp m]> (msgque st) -> msgh st' = msgh st -> msgfp st' = msgfp st ->
  msgmap st' = msgmap st -> msgpool st' = msgpool st -> wf st' /\ same_queues mi st st'.
Proof.
  intros [Hw Hb] Hi Em E1 E2 E3 E4 E5. split; [split|by apply (queue_of_put mi st st' i qp (with_mmode qp m))].
  - eapply (wf0_put mi st st' i qp (with_mmode qp m)); try done.
    destruct (w_que _ _ Hw i qp Hi) as (Q1 & Q2 & Q3). unfold que_ok.
    rewrite (same_id_alloc qp (with_mmode qp m)) by (exists m; by split). done.
  - eapply bytes_put; [exact Hb|exact E1|done|]. exact (Hb i qp Hi).
Qed.

(** ** msgrcv() *)

(** A call that is over: it failed and the queues are as before, or [P]. *)
Definition over st (P : msgst M -> Prop) st' : Prop :=
  wf st' /\ (m_error st' <> 0 /\ same_queues mi st st' \/ m_error st' = 0 /\ P st').

Lemma over_fail st e P : wf st -> e <> 0 -> over st P (set_error st e).
Proof. intros Hw He. destruct (wf_frame st (set_error st e)) as [? ?]; try done. split; [done|]. by left. Qed.

Definition received (i : nat) (msgsz msgtyp flg : Z) st st' : Prop := exists k m,
  queue st i !! k = Some m /\ selected msgtyp (fst <$> queue st i) k /\ without mi st i k st' /\
  handed msgsz m st st' /\ (has_flag flg MSG_NOERROR = false -> Z.of_nat (length m.2) <= msgsz).

(** A receiver that sleeps: no message for it, and the next msgsnd() will wake it. *)
Definition rcv_sleeps (i : nat) (msgtyp : Z) st (c : msgchan) st' : Prop :=
  c = ChQnum i /\ wf st' /\ same_queues mi st st' /\ m_error st' = 0 /\
  none_selected msgtyp (fst <$> queue st i) /\
  exists qp, msgque st' !! i = Some qp /\ has_flag (mmode qp) MSG_RWAIT = true.

Lemma raised m f : f <> 0 -> has_flag (Z.lor m f) f = true.
Proof.
  intros Hf. unfold has_flag. assert (Z.land (Z.lor m f) f = f) as ->; [|by destruct (Z.eqb_spec f 0)].
  apply Z.bits_inj'. intros n _. rewrite Z.land_spec, Z.lor_spec. by destruct (Z.testbit m n), (Z.testbit f n).
Qed.

Lemma msgrcv_find_spec u now id i again msgsz msgtyp flg oerr st qp : wf st -> m_error st = 0 ->
  - 2 ^ 31 < msgtyp -> 0 <= msgsz -> msgque st !! i = Some qp ->
  exists r, msgrcv_find mi u now id i again msgsz msgtyp flg oerr st = Ok r /\
    match r with
    | inl (c, st') => rcv_sleeps i msgtyp st c st'
    | inr st' => over st (received i msgsz msgtyp flg st) st'
    end.
Proof.
  intros Hw He Ht Hs Hi. unfold msgrcv_find.
  destruct (again && _); [eexists; split; [done|by apply over_fail]|].
  rewrite (proj2 (rd_Ok _ _ _) Hi). kpop. rewrite (types_of mi st i qp Hi).
  pose proof (find_msg_spec msgtyp (fst <$> queue st i) Ht) as Hf. destruct (find_msg msgtyp _) as [k|].
  - destruct (queue st i !! k) as [m|] eqn:Ek.
    2: { apply lookup_ge_None in Ek. pose proof (selected_lt _ _ _ Hf). rewrite length_fmap in *. lia. }
    pose proof Ek as (mp & Hk & ->)%(queue_lookup mi Hmi st i qp k m Hi).
    destruct (deliver_spec mi Hmi u now st i k qp mp msgsz flg oerr Hw Hi Hk Hs He) as (st' & -> & Hw' & Hcase).
    eexists. split; [done|]. split; [done|]. destruct Hcase as [(? & ? & _)|(H1 & H2 & H3 & H4 & _)]; [by left|right].
    split; [done|]. exists k, (content mi st mp). by split_and!.
  - destruct (has_flag flg IPC_NOWAIT); [eexists; split; [done|by apply over_fail]|].
    pose proof (lookup_lt_Some _ _ _ Hi). rewrite put_que_Ok by done. eexists. split; [done|].
    destruct (wf_mode st (set_que st (<[i := with_mmode qp (Z.lor (mmode qp) MSG_RWAIT)]> (msgque st))) i qp
      (Z.lor (mmode qp) MSG_RWAIT)) as [Hw' Hq]; try done; [by rewrite Z.land_lor_distr_l, Z.lor_0_r|].
    split; [done|]. split; [done|]. split; [done|]. split; [done|]. split; [done|].
    eexists. split; [by apply list_lookup_insert_eq|]. by apply raised.
Qed.

(** C32: msgrcv() never faults.  It gives back the first message its type argument selects (any;
    of that type; of the lowest type not above the magnitude), cut to the size asked for only
    with MSG_NOERROR, takes exactly that message off the queue and touches no other queue; an
    error leaves every queue as it was; and it sleeps only when no message is selected, with the
    flag raised that makes the next msgsnd() wake it. *)
Theorem msgrcv_sound u now id msgsz msgtyp flg oerr st : wf st -> m_error st = 0 -> - 2 ^ 31 < msgtyp ->
  exists r, msgrcv mi u now id msgsz msgtyp flg oerr st = Ok r /\
    match r with
    | inl (c, st') => exists i, msgconv mi id st = Some i /\ rcv_sleeps i msgtyp st c st'
    | inr st' => over st (fun st' => exists i, msgconv mi id st = Some i /\ received i msgsz msgtyp flg st st') st'
    end.
Proof.
  intros Hw He Ht. unfold msgrcv. destruct (msgconv mi id st) as [i|] eqn:Ec; [|eexists; split; [done|by apply over_fail]].
  pose proof Ec as (qp & Hi & _)%msgconv_Some. rewrite (proj2 (rd_Ok _ _ _) Hi). kpop.
  destruct (ipcaccess u (msg_perm qp) MSG_R) as [e|] eqn:Ea.
  { eexists. split; [done|]. apply over_fail; [done|]. unfold ipcaccess in Ea.
    repeat case_match; by simplify_eq. }
  destruct (Z.ltb_spec msgsz 0); [eexists; split; [done|by apply over_fail]|].
  destruct (msgrcv_find_spec u now id i false msgsz msgtyp flg oerr st qp) as (r & -> & Hr); try done.
  exists r. split; [done|]. destruct r as [[c st']|st']; [by exists i|].
  destruct Hr as [Hw' [?|[? ?]]]; (split; [done|]); [by left|right; split; [done|]]. by exists i.
Qed.

(** ** msgsnd() *)

(** A message joins a queue: header [mp] leaves the free list with contents [x], whose segments
    leave the map, and [bs] goes into them. *)
Record joins st i qp mp fp x bs off st' qp' : Prop := {
  j_que : msgque st !! i = Some qp;
  j_alloc : allocated_perm (msg_perm qp) = true;
  j_fp : msgfp st = mp :: fp;
  j_ts : msg_ts x = Z.of_nat (length bs);
  j_off : msg_ts x <> 0 -> 0 <= msg_spot x /\ Z.of_nat off = msgssz mi * msg_spot x /\
            forall u, segs_of mi x u -> rm_unit (msgmap st) u;
  j_map : rm_inv (msgmap st') /\
            forall u, rm_unit (msgmap st') u -> rm_unit (msgmap st) u /\ ~ segs_of mi x u;
  j_que' : msgque st' = <[i := qp']> (msgque st);
  j_q : msg_q qp' = msg_q qp ++ [mp];
  j_ok : que_ok qp';
  j_bytes : msg_cbytes qp' = msg_cbytes qp + msg_ts x;
  j_h : msgh st' = <[mp := x]> (msgh st);
  j_fp' : msgfp st' = fp;
  j_pool : msgpool st' = if msg_ts x =? 0 then msgpool st
             else take off (msgpool st) ++ bs ++ drop (off + length bs) (msgpool st)
}.

Section Join.
Context st i qp mp fp x bs off st' qp' (J : joins st i qp mp fp x bs off st' qp') (Hw : wf st).

Lemma join_segs : msg_ts x <> 0 -> 0 < msg_ts x /\ msg_ts x <= msgssz mi * btoq mi (msg_ts x) /\
  msg_spot x + btoq mi (msg_ts x) <= msgseg mi /\ (off + length bs <= length (msgpool st))%nat /\ 0 < btoq mi (msg_ts x).
Proof.
  intros Hz. destruct J. assert (0 < msg_ts x) as Hpos by lia. destruct (j_off0 Hz) as (H0 & H1 & H2).
  pose proof (btoq_bound mi Hmi (msg_ts x) Hpos) as Hb.
  assert (0 < btoq mi (msg_ts x)) as Hq by nia.
  assert (msg_spot x + btoq mi (msg_ts x) <= msgseg mi) as Hs.
  { apply (w_unit _ _ (proj1 Hw)), H2. split; [done|lia]. }
  split_and!; try done; [lia|]. pose proof (w_pool _ _ (proj1 Hw)). nia.
Qed.

Lemma join_fresh y : y ∈ queued st -> y <> mp /\ hdr st' y = hdr st y.
Proof.
  intros Hy. destruct J. pose proof (w_nodup _ _ (proj1 Hw)) as Hnd. rewrite j_fp0 in Hnd.
  apply NoDup_app in Hnd as (_ & Hnd & _). assert (y <> mp) as Hne by (intros ->; apply (Hnd mp Hy); by left).
  split; [done|]. unfold hdr. rewrite j_h0. by rewrite list_lookup_insert_ne.
Qed.

Lemma join_hdr : hdr st' mp = x.
Proof.
  destruct J. unfold hdr. rewrite j_h0, list_lookup_insert_eq; [done|].
  apply (w_hdr _ _ (proj1 Hw)). rewrite j_fp0. apply elem_of_app. right. by left.
Qed.

(** The texts already there stay. *)
Lemma join_content y : y ∈ queued st -> content mi st' y = content mi st y.
Proof.
  intros Hy. destruct (join_fresh y Hy) as [Hne Eh]. unfold content. rewrite Eh. f_equal. unfold msg_text.
  destruct (decide (msg_ts (hdr st y) = 0)) as [E|Hzy]; [by rewrite E|].
  rewrite (j_pool _ _ _ _ _ _ _ _ _ _ J). destruct (Z.eqb_spec (msg_ts x) 0) as [|Hz]; [done|].
  destruct (join_segs Hz) as (Hpos & Hb & Hs & Hl & Hq). destruct (j_off _ _ _ _ _ _ _ _ _ _ J Hz) as (H0 & H1 & H2).
  destruct (text_in mi Hmi st y (proj1 Hw) Hy Hzy) as (G0 & G1 & G2).
  destruct (w_msg _ _ (proj1 Hw) y Hy) as [Ht _].
  assert (0 < btoq mi (msg_ts (hdr st y))) by nia. pose proof (j_ts _ _ _ _ _ _ _ _ _ _ J).
  assert (msg_spot x + btoq mi (msg_ts x) <= msg_spot (hdr st y) \/
          msg_spot (hdr st y) + btoq mi (msg_ts (hdr st y)) <= msg_spot x) as Hd.
  { destruct (Z.le_gt_cases (msg_spot x + btoq mi (msg_ts x)) (msg_spot (hdr st y))) as [?|?]; [by left|right].
    destruct (Z.le_gt_cases (msg_spot (hdr st y) + btoq mi (msg_ts (hdr st y))) (msg_spot x)) as [?|?]; [done|].
    exfalso. apply (w_busy _ _ (proj1 Hw) y (Z.max (msg_spot x) (msg_spot (hdr st y)) + 1)); [done|split; [done|lia]|].
    apply H2. split; [done|lia]. }
  apply splice_other; [done|]. destruct Hd; [right|left]; nia.
Qed.

Lemma join_text : content mi st' mp = (msg_type x, bs).
Proof.
  unfold content. rewrite join_hdr. f_equal. unfold msg_text. pose proof (j_ts _ _ _ _ _ _ _ _ _ _ J) as Hts.
  rewrite (j_pool _ _ _ _ _ _ _ _ _ _ J). destruct (Z.eqb_spec (msg_ts x) 0) as [E|Hz].
  - rewrite E. assert (bs = []) as -> by (apply nil_length_inv; lia). done.
  - destruct (join_segs Hz) as (Hpos & Hb & Hs & Hl & Hq). destruct (j_off _ _ _ _ _ _ _ _ _ _ J Hz) as (H0 & H1 & H2).
    rewrite <- H1, Hts, !Nat2Z.id. by apply splice_same.
Qed.

Lemma join_queue j : queue st' j = if decide (j = i) then queue st i ++ [(msg_type x, bs)] else queue st j.
Proof.
  pose proof J as [Hi _ _ _ _ _ Eq Eq' _ _ _ _ _]. pose proof (lookup_lt_Some _ _ _ Hi) as Hlt.
  assert (forall k q, msgque st !! k = Some q -> content mi st' <$> msg_q q = content mi st <$> msg_q q) as Hsame.
  { intros k q Hk. apply list_fmap_ext. intros n y Hy. apply join_content. eapply (queued_in mi Hmi); [exact Hk|].
    by eapply list_elem_of_lookup_2. }
  unfold queue_of. rewrite Eq. destruct (decide (j = i)) as [->|Hne].
  - rewrite list_lookup_insert_eq, Hi by done. cbn. rewrite Eq', fmap_app, (Hsame i qp Hi). cbn.
    by rewrite join_text.
  - rewrite list_lookup_insert_ne by done. destruct (msgque st !! j) as [q|] eqn:Ej; [|done]. by apply (Hsame j).
Qed.

Lemma join_queued : queued st' ≡ₚ mp :: queued st.
Proof.
  pose proof J as [Hi _ _ _ _ _ Eq Eq' _ _ _ _ _]. destruct (queued_split st i qp Hi) as (A & B & E & E').
  rewrite (E' st' qp' Eq), E, Eq'. solve_Permutation.
Qed.

Lemma join_wf : wf st'.
Proof.
  pose proof J as [Hi Ha Hfp Hts Hoff [Hm1 Hm2] Eq Eq' Hok Hb Eh Efp Ep]. pose proof Hw as [Hw0 Hbytes].
  pose proof Hw0 as [W1 W2 W3 W4 W5 W6 W7 W8 W9 W10 W11]. pose proof join_queued as Hq.
  assert (forall y, y ∈ queued st' -> y = mp /\ hdr st' y = x \/ y ∈ queued st /\ y <> mp /\ hdr st' y = hdr st y) as Hin.
  { intros y. rewrite Hq. intros [->|Hy]%elem_of_cons; [left; by rewrite join_hdr|right]. by destruct (join_fresh y Hy). }
  assert (forall y u, y ∈ queued st -> segs_of mi (hdr st y) u -> ~ segs_of mi x u) as Hdis.
  { intros y u Hy Hs Hx. destruct (Hoff ltac:(by destruct Hx)) as (_ & _ & H2). by apply (W9 y u Hy Hs), H2. }
  split; [constructor|].
  - done.
  - intros u Hu. by apply W2, Hm2.
  - rewrite <- W3, Ep. destruct (Z.eqb_spec (msg_ts x) 0) as [|Hz]; [done|]. f_equal. apply splice_length.
    by destruct (join_segs Hz) as (_ & _ & _ & ? & _).
  - by rewrite Eq, length_insert.
  - by rewrite Eh, length_insert.
  - rewrite Hq, Efp. rewrite Hfp in W6. by rewrite <- Permutation_middle in W6.
  - intros y Hy. rewrite Eh, length_insert. apply W7. rewrite Hfp. rewrite Hq, Efp in Hy. set_solver.
  - intros y [[-> ->]|(Hy & _ & ->)]%Hin; [|by apply W8].
    destruct Hok as (_ & _ & _ & Hqb & Hcb). assert (0 <= bytes_of st (msg_q qp)) as Hpos.
    { apply bytes_nonneg. intros z Hz. apply W8. eapply (queued_in mi Hmi); done. }
    specialize (Hbytes i qp Hi). unfold bytes_ok in Hbytes. split; [lia|]. intros Hz.
    destruct (join_segs Hz) as (_ & _ & ? & _). by destruct (Hoff Hz).
  - intros y u [[-> ->]|(Hy & _ & ->)]%Hin Hs [Hu Hn]%Hm2; [done|]. by apply (W9 y u).
  - intros y z u [[-> ->]|(Hy & _ & ->)]%Hin [[-> ->]|(Hz & _ & ->)]%Hin Hne Hs Hs'; [done| | |].
    + by apply (Hdis z u).
    + by apply (Hdis y u).
    + by apply (W10 y z u).
  - intros j q Hj. rewrite Eq in Hj. apply list_lookup_insert_Some in Hj as [(_ & <- & _)|[_ Hj]]; [done|by apply (W11 j)].
  - assert (forall k q, msgque st !! k = Some q -> bytes_of st' (msg_q q) = bytes_of st (msg_q q)) as Hsame.
    { intros k q Hk. assert (forall z, z ∈ msg_q q -> z ∈ queued st) as Hsub.
      { intros z Hz. eapply (queued_in mi Hmi); done. }
      clear - Hsub Hw J. unfold bytes_of. induction (msg_q q) as [|z l IH]; [done|]. cbn.
      rewrite IH by set_solver. by destruct (join_fresh z ltac:(apply Hsub; by left)) as [_ ->]. }
    intros j q Hj. rewrite Eq in Hj. unfold bytes_ok. apply list_lookup_insert_Some in Hj as [(_ & Eqq & _)|[_ Hj]].
    + rewrite <- Eqq, Hb, Eq'. assert (bytes_of st' (msg_q qp ++ [mp]) = bytes_of st' (msg_q qp) + msg_ts (hdr st' mp)) as ->.
      { unfold bytes_of. clear. induction (msg_q qp) as [|z l IH]; cbn; [lia|]. cbn in IH. lia. }
      rewrite join_hdr, (Hsame i qp Hi). f_equal. by apply (Hbytes i).
    + rewrite (Hsame j q Hj). by apply (Hbytes j).
Qed.
End Join.

Lemma wf_map st st' : wf st -> msgque st' = msgque st -> msgh st' = msgh st -> msgfp st' = msgfp st ->
  msgpool st' = msgpool st -> rm_inv (msgmap st') ->
  (forall u, rm_unit (msgmap st') u -> rm_unit (msgmap st) u) -> wf st' /\ same_queues mi st st'.
Proof.
  intros [Hw Hb] E1 E2 E3 E4 Hinv Hsub.
  assert (queued st' = queued st) as Eq by (unfold queued; by rewrite E1).
  assert (hdr st' = hdr st) as Eh by (unfold hdr; by rewrite E2). split; [split|].
  - destruct Hw as [W1 W2 W3 W4 W5 W6 W7 W8 W9 W10 W11].
    constructor; rewrite ?Eq, ?Eh, ?E1, ?E2, ?E3, ?E4; try done.
    + auto.
    + intros y u Hy Hs Hu. by apply (W9 y u), Hsub.
  - intros i qp Hi. rewrite E1 in Hi. specialize (Hb i qp Hi). unfold bytes_ok, bytes_of in *. by rewrite Eh.
  - intros j. unfold queue_of, content. by rewrite E1, E4, Eh.
Qed.

(** An entry that stays what it is keeps its identifier. *)
Lemma conv_same st st' i qp qp' id : msgque st !! i = Some qp -> same_id qp qp' ->
  msgque st' = <[i := qp']> (msgque st) -> msgconv mi id st' = msgconv mi id st.
Proof.
  intros Hi Hid E. unfold msgconv. rewrite E. destruct (id <? 0); [done|].
  destruct (decide (i = Z.to_nat (id mod msgmni mi))) as [<-|Hne].
  - rewrite list_lookup_insert_eq, Hi by (by apply lookup_lt_Some in Hi).
    by rewrite (same_id_alloc _ _ Hid), (same_id_seq _ _ Hid).
  - by rewrite list_lookup_insert_ne.
Qed.

(** The message is the last of the queue, the others are as before, and a waiting receiver
    has been woken. *)
Definition sent (i : nat) (type : Z) (bs : list Z) st st' : Prop :=
  (forall j, queue st' j = if decide (j = i) then queue st i ++ [(type, bs)] else queue st j) /\ m_rval1 st' = 0 /\
  (forall id, msgconv mi id st' = msgconv mi id st) /\
  (forall qp, msgque st !! i = Some qp -> has_flag (mmode qp) MSG_RWAIT = true -> ChQnum i ∈ m_wakes st').

(** The free list of headers and the free units of the pool are what they were. *)
Definition gave_back st st' : Prop := msgfp st' = msgfp st /\ forall u, rm_unit (msgmap st') u <-> rm_unit (msgmap st) u.

(** What rmalloc() did to the map for [cnt] bytes. *)
Definition got (cnt spot : Z) (m : M) st : Prop :=
  if cnt =? 0 then m = msgmap st /\ spot = 0
  else rm_alloc (msgmap st) (btoq mi cnt) = Ok (spot, m) /\ 0 < spot /\ rm_inv m /\ (forall u, spot <= u < spot + btoq mi cnt -> rm_unit (msgmap st) u) /\
       (forall u, rm_unit m u -> rm_unit (msgmap st) u /\ ~ (spot <= u < spot + btoq mi cnt)).

Lemma que_ok_join st i qp mp fp cnt pid now : wf st -> msgque st !! i = Some qp ->
  allocated_perm (msg_perm qp) = true -> msgfp st = mp :: fp -> 0 <= cnt -> cnt + msg_cbytes qp <= msg_qbytes qp ->
  let qp1 := with_sent (with_q qp (msg_q qp ++ [mp]) (msg_cbytes qp + cnt) (msg_qnum qp + 1)) pid now in
  que_ok qp1 /\ msg_cbytes qp1 = msg_cbytes qp + cnt.
Proof.
  intros [Hw _] Hi Ha Hfp Hc Hb. destruct (w_que _ _ Hw i qp Hi) as (Q1 & Q2 & Q3 & Q4 & Q5).
  assert (length (msg_q qp ++ [mp]) <= length (msgh st))%nat as Hlen.
  { pose proof (w_nodup _ _ Hw) as Hnd. rewrite Hfp in Hnd.
    assert (NoDup (msg_q qp ++ [mp])) as Hnd'.
    { apply NoDup_app in Hnd as (Hn1 & Hn2 & _). destruct (queued_split st i qp Hi) as (A & B & E & _). rewrite E in Hn1.
      apply NoDup_app in Hn1 as (_ & _ & Hn1). apply NoDup_app in Hn1 as (Hn1 & _ & _). apply NoDup_app.
      split_and!; [done| |apply NoDup_singleton]. intros y Hy ->%list_elem_of_singleton.
      apply (Hn2 mp); [by eapply (queued_in mi Hmi)|by left]. }
    rewrite <- (length_seq (length (msgh st)) 0). apply submseteq_length, NoDup_submseteq; [done|].
    intros y Hy. apply elem_of_seq. split; [lia|]. apply (w_hdr _ _ Hw), elem_of_app.
    apply elem_of_app in Hy as [Hy| ->%list_elem_of_singleton]; [left; by eapply (queued_in mi Hmi)|right; rewrite Hfp; by left]. }
  rewrite length_app in Hlen. simpl in Hlen. pose proof (w_hdrs _ _ Hw). simpl.
  rewrite !wrapu_small by lia. split; [|done]. unfold que_ok. simpl. rewrite !wrapu_small, length_app by lia. simpl.
  split_and!; try done; try lia. intros E. congruence.
Qed.

Lemma enqueue_spec u now st i qp mp fp cnt type spot bs m : wf st -> m_error st = 0 -> msgque st !! i = Some qp ->
  allocated_perm (msg_perm qp) = true -> msgfp st = mp :: fp -> cnt = Z.of_nat (length bs) ->
  cnt + msg_cbytes qp <= msg_qbytes qp -> got cnt spot m st ->
  exists st', msg_enqueue mi u now i mp fp cnt type spot (inl bs) (set_mmap st m) = Ok st' /\
    wf st' /\ m_error st' = 0 /\ sent i type bs st st'.
Proof.
  intros Hw He Hi Ha Hfp Hc Hb Hgot. unfold msg_enqueue.
  assert ((if cnt =? 0 then inl [] else inl bs) = inl bs :> (list Z + Z)) as ->.
  { destruct (Z.eqb_spec cnt 0); [|done]. f_equal. symmetry. apply nil_length_inv. lia. }
  set (spot1 := if cnt =? 0 then spot else spot - 1). cbv zeta. set (off := Z.to_nat (msgssz mi * spot1)).
  set (x := Msg type (u16 cnt) (if cnt =? 0 then u16 (-1) else u16 spot1)).
  destruct (w_que _ _ (proj1 Hw) i qp Hi) as (_ & _ & _ & Hq1 & Hq2).
  assert (msg_ts x = cnt) as Hts by (simpl; apply wrapu_small; lia).
  assert (cnt <> 0 -> rm_inv m /\ 0 <= spot1 /\ msg_spot x = spot1 /\ Z.of_nat off = msgssz mi * spot1 /\
    (off + length bs <= length (msgpool st))%nat /\ forall u, segs_of mi x u <-> spot <= u < spot + btoq mi cnt) as Hx.
  { intros Hz. unfold got in Hgot. destruct (Z.eqb_spec cnt 0); [done|]. destruct Hgot as (_ & G1 & G2 & G3 & G4).
    pose proof (btoq_bound mi Hmi cnt ltac:(lia)). assert (0 < btoq mi cnt) by nia.
    pose proof (w_unit _ _ (proj1 Hw) _ (G3 (spot + btoq mi cnt - 1) ltac:(lia))).
    assert (spot1 = spot - 1) as Es1 by (unfold spot1; by destruct (Z.eqb_spec cnt 0)).
    assert (msg_spot x = spot1) as Es. { cbn. destruct (Z.eqb_spec cnt 0); [done|]. apply wrapu_small. lia. }
    pose proof (w_pool _ _ (proj1 Hw)). split_and!; try done; [lia|unfold off; nia|unfold off; nia|].
    intros v. unfold segs_of. rewrite Es, Hts. split; [lia|]. intros Hv. split; [done|lia]. }
  set (st1 := set_hdrs (set_mmap st m) _ fp). assert ((off + length bs <=? length (msgpool st1))%nat || (cnt =? 0) = true) as ->.
  { destruct (Z.eqb_spec cnt 0) as [|Hz]; [by rewrite orb_true_r|]. destruct (Hx Hz) as (_ & _ & _ & _ & Hl & _). simpl.
    rewrite orb_false_r. by apply Nat.leb_le. }
  set (st2 := if cnt =? 0 then st1 else set_pool st1 (take off (msgpool st1) ++ bs ++ drop (off + length bs) (msgpool st1))).
  assert (msgque st2 = msgque st /\ msgh st2 = msgh st /\ msgfp st2 = fp /\ msgmap st2 = m /\ m_error st2 = 0 /\
    m_wakes st2 = m_wakes st /\ msgpool st2 = if cnt =? 0 then msgpool st
      else take off (msgpool st) ++ bs ++ drop (off + length bs) (msgpool st)) as (F1 & F2 & F3 & F4 & F5 & F6 & F7).
  { unfold st2. destruct (cnt =? 0); by split_and!. }
  clearbody st2. pose proof (lookup_lt_Some _ _ _ Hi) as Hlt.
  rewrite F1, (proj2 (rd_Ok _ _ _) Hi). kpop.
  assert (mp < length (msgh st))%nat as Hmp.
  { apply (w_hdr _ _ (proj1 Hw)). rewrite Hfp. apply elem_of_app. right. by left. }
  unfold wr at 1. rewrite F2, decide_True by done. kpop.
  destruct (que_ok_join st i qp mp fp cnt (u_pid u) now Hw Hi Ha Hfp ltac:(lia) Hb) as [Hok Hcb].
  set (qp1 := with_sent _ _ _) in *. rewrite F3. set (st3 := set_hdrs st2 _ fp).
  set (w := has_flag (mmode qp1) MSG_RWAIT).
  set (qp2 := if w then with_mmode qp1 (Z.land (mmode qp1) (Z.lnot MSG_RWAIT)) else qp1).
  assert (same_id qp1 qp2) as Hid.
  { unfold qp2. destruct w; [apply clear_id; [done|by apply same_id_refl]|by apply same_id_refl]. }
  set (st4 := if w then add_wake (set_que st3 (<[i := qp2]> (msgque st))) (ChQnum i) else set_que st3 (<[i := qp2]> (msgque st))).
  match goal with |- exists st', mbind _ ?c = _ /\ _ => assert (c = Ok st4) as -> end.
  { unfold st4, qp2, w. destruct (has_flag (mmode qp1) MSG_RWAIT); rewrite put_que_Ok by (simpl; by rewrite F1);
      unfold st3; simpl; by rewrite F1. }
  kpop. set (st5 := set_rval st4 0).
  assert (joins st i qp mp fp x bs off st5 qp2) as HJ.
  { assert (msg_q qp2 = msg_q qp1 /\ msg_cbytes qp2 = msg_cbytes qp1 /\ msg_qnum qp2 = msg_qnum qp1 /\ msg_qbytes qp2 = msg_qbytes qp1)
      as (D1 & D2 & D3 & D4) by (unfold qp2; by destruct w).
    assert (msgque st5 = <[i := qp2]> (msgque st) /\ msgh st5 = <[mp := x]> (msgh st) /\ msgfp st5 = fp /\ msgmap st5 = m /\
      msgpool st5 = msgpool st2) as (G1 & G2 & G3 & G4 & G5) by (unfold st5, st4; destruct w; by split_and!).
    constructor; try done.
    - by rewrite Hts.
    - rewrite Hts. intros Hz. destruct (Hx Hz) as (_ & X1 & X2 & X3 & _ & X4). rewrite X2. split; [done|]. split; [done|].
      intros v Hv%X4. unfold got in Hgot. destruct (Z.eqb_spec cnt 0); [done|].
      destruct Hgot as (_ & _ & _ & G6 & _). by apply G6.
    - rewrite G4. unfold got in Hgot. destruct (Z.eqb_spec cnt 0) as [E0|Hz].
      + destruct Hgot as [-> _]. split; [apply Hw|]. intros v Hv. split; [done|]. unfold segs_of. rewrite Hts, E0. tauto.
      + destruct (Hx Hz) as (X0 & _ & _ & _ & _ & X4). split; [done|]. intros v Hv. rewrite X4.
        destruct Hgot as (_ & _ & _ & _ & G7). by apply G7.
    - unfold que_ok in *. rewrite D1, D3, D4, D2, (same_id_alloc _ _ Hid), (same_id_seq _ _ Hid). done.
    - by rewrite D2, Hcb, Hts.
    - by rewrite G5, F7, Hts. }
  exists st5. split; [done|]. split; [by eapply join_wf|].
  split; [unfold st5, st4; destruct w; exact F5|]. split; [by eapply (join_queue st i qp mp fp x)|]. split; [done|].
  split.
  { intros id. eapply (conv_same st st5 i qp qp2); [done| |by apply HJ].
    eapply same_id_trans; [by apply (same_id_refl qp qp1)|done]. }
  intros q Hq Hwk. rewrite Hi in Hq. injection Hq as <-. assert (w = true) as Ew by done.
  unfold st5, st4. rewrite Ew. simpl. apply elem_of_app. right. by left.
Qed.

(** The text could not be copied in: the segments go back. *)
Lemma enqueue_err u now st i mp fp cnt type spot e m : wf st -> 0 < cnt -> e <> 0 -> msgfp st = mp :: fp -> got cnt spot m st ->
  exists st', msg_enqueue mi u now i mp fp cnt type spot (inr e) (set_mmap st m) = Ok st' /\
    wf st' /\ m_error st' = e /\ same_queues mi st st' /\ gave_back st st'.
Proof.
  intros Hw Hc He Hfp Hgot. unfold msg_enqueue, got in *. destruct (Z.eqb_spec cnt 0); [lia|].
  destruct Hgot as (G0 & G1 & G2 & G3 & G4). pose proof (btoq_bound mi Hmi cnt Hc). assert (0 < btoq mi cnt) by nia.
  cbv zeta. simpl msgmap. replace (spot - 1 + 1) with spot by lia.
  destruct (rm_release_spec m (btoq mi cnt) spot) as (m' & Er & Hm & Hu); [done|done|done| |].
  { intros v Hv Hc'. by destruct (G4 v Hc') as [_ ?]. }
  pose proof (rm_undo _ _ _ _ m' (w_map _ _ (proj1 Hw)) ltac:(done) G0 ltac:(lia) Er) as Hundo.
  cbn [msgmap set_hdrs set_mmap]. rewrite Er. kpop. eexists. split; [done|].
  set (st1 := match msgfp _ with [] => _ | _ => _ end). set (st' := set_hdrs st1 _ _).
  assert (msgque st' = msgque st /\ msgh st' = msgh st /\ msgfp st' = msgfp st /\ msgpool st' = msgpool st /\
    msgmap st' = m' /\ m_error st' = e) as (F1 & F2 & F3 & F4 & F5 & F6) by (rewrite Hfp; unfold st', st1; cbn [msgfp set_hdrs set_mmap set_error]; by destruct fp).
  destruct (wf_map st st') as [? ?]; try done; [by rewrite F5|by rewrite F5; intros v; rewrite Hundo|]. split; [done|]. split; [done|]. split; [done|]. split; [done|]. by rewrite F5.
Qed.

(** A sender that sleeps waits for room on the queue (and has raised the flag that makes the
    receiver wake it), for a header, or for room in the pool. *)
Definition snd_sleeps (i : nat) st (c : msgchan) st' : Prop :=
  wf st' /\ same_queues mi st st' /\ m_error st' = 0 /\
  (c = ChHdr /\ msgfp st' = [] \/ c = ChMap \/
   c = ChQueue i /\ exists qp, msgque st' !! i = Some qp /\ has_flag (mmode qp) MSG_WWAIT = true).

(** What copyin() delivers: [msgsz] bytes, or an error. *)
Definition copied (msgsz : Z) (text : list Z + Z) : Prop :=
  match text with inl bs => Z.of_nat (length bs) = msgsz | inr e => e <> 0 end.

Definition snd_post (i : nat) (msgsz type : Z) (text : list Z + Z) st (r : (msgchan * msgst M) + msgst M) : Prop :=
  match r with
  | inl (c, st') => snd_sleeps i st c st' /\ gave_back st st'
  | inr st' => over st (fun st' => exists bs, (msgsz = 0 /\ bs = [] \/ text = inl bs) /\
                 Z.of_nat (length bs) = msgsz /\ sent i type bs st st') st' /\ (m_error st' <> 0 -> gave_back st st')
  end.

Lemma enqueue_post u now st i qp mp fp cnt type spot text m : wf st -> m_error st = 0 -> msgque st !! i = Some qp ->
  allocated_perm (msg_perm qp) = true -> msgfp st = mp :: fp -> 0 <= cnt -> copied cnt text ->
  cnt + msg_cbytes qp <= msg_qbytes qp -> got cnt spot m st ->
  exists r, inr <$> msg_enqueue mi u now i mp fp cnt type spot text (set_mmap st m) = Ok r /\
    snd_post i cnt type text st r.
Proof.
  intros Hw He Hi Ha Hfp Hc Ht Hb Hgot. destruct text as [bs|e].
  - destruct (enqueue_spec u now st i qp mp fp cnt type spot bs m) as (st' & -> & H1 & H2 & H3); try done.
    eexists. split; [done|]. split; [|done]. split; [done|]. right. split; [done|]. exists bs. split_and!; [by right|done|done..].
  - destruct (decide (cnt = 0)) as [->|Hz].
    + destruct (enqueue_spec u now st i qp mp fp 0 type spot [] m) as (st' & E & H1 & H2 & H3); try done.
      eexists. split; [unfold msg_enqueue in *; simpl in E |- *; by rewrite E|].
      split; [|done]. split; [done|]. right. split; [done|]. exists []. split_and!; [by left|done|done..].
    + destruct (enqueue_err u now st i mp fp cnt type spot e m) as (st' & -> & H1 & H2 & H3 & H4); try done; [lia|].
      eexists. split; [done|]. split; [|done]. split; [done|]. left. split; [by rewrite H2|done].
Qed.

Lemma msgsnd_try_spec u now id st i qp again cnt type flg text : wf st -> m_error st = 0 ->
  msgque st !! i = Some qp -> allocated_perm (msg_perm qp) = true -> 0 <= cnt -> copied cnt text ->
  exists r, msgsnd_try mi u now id i again cnt type flg text st = Ok r /\ snd_post i cnt type text st r.
Proof.
  intros Hw He Hi Ha Hc Ht. unfold msgsnd_try.
  destruct (again && _); [eexists; split; [done|split; [by apply over_fail|by split]]|].
  rewrite (proj2 (rd_Ok _ _ _) Hi). kpop. pose proof (lookup_lt_Some _ _ _ Hi) as Hlt.
  destruct (Z.ltb_spec (msg_qbytes qp) (cnt + msg_cbytes qp)) as [Hfull|Hroom].
  - destruct (has_flag flg IPC_NOWAIT); [eexists; split; [done|split; [by apply over_fail|by split]]|].
    rewrite put_que_Ok by done. kpop. eexists. split; [done|].
    destruct (wf_mode st (set_que st (<[i := with_mmode qp (Z.lor (mmode qp) MSG_WWAIT)]> (msgque st))) i qp
      (Z.lor (mmode qp) MSG_WWAIT)) as [Hw' Hq]; try done; [by rewrite Z.land_lor_distr_l, Z.lor_0_r|].
    split; [|by split]. split; [done|]. split; [done|]. split; [done|]. right. right. split; [done|].
    eexists. split; [by apply list_lookup_insert_eq|]. by apply raised.
  - destruct (msgfp st) as [|mp fp] eqn:Efp.
    + unfold msg_wait. destruct (has_flag flg IPC_NOWAIT); [eexists; split; [done|split; [by apply over_fail|by split]]|].
      eexists. split; [done|]. destruct (wf_frame st st) as [? ?]; try done. split; [|by split]. split_and!; try done. by left.
    + destruct (Z.eqb_spec cnt 0) as [->|Hz].
      * assert (set_mmap st (msgmap st) = st) as E by (by destruct st).
        pose proof (enqueue_post u now st i qp mp fp 0 type 0 text (msgmap st)) as Hp. rewrite E in Hp. by apply Hp.
      * pose proof (btoq_bound mi Hmi cnt ltac:(lia)).
        destruct (rm_alloc_spec (msgmap st) (btoq mi cnt)) as (spot & m & Eal & Hm & Hcase); [apply Hw|nia|]. rewrite Eal. kpop.
        destruct Hcase as [[-> ->]|(Hpos & G3 & G4)]; simpl.
        -- destruct (has_flag flg IPC_NOWAIT); [eexists; split; [done|split; [by apply over_fail|by split]]|].
           destruct (rm_want_spec (msgmap st)) as (m & -> & Hm' & Hu); [apply Hw|]. kpop. eexists. split; [done|].
           destruct (wf_map st (set_mmap st m)) as [? ?]; try done; [intros v; apply Hu|].
           split; [split_and!; try done; by right; left|]. by split.
        -- destruct (Z.eqb_spec spot 0); [lia|]. eapply enqueue_post; try done.
           unfold got. by destruct (Z.eqb_spec cnt 0).
Qed.

(** C31: msgsnd() never faults.  When it succeeds the message, with exactly the bytes copied in,
    is the last of its queue and no other queue has changed, although all texts share one pool;
    an error, and going to sleep for want of room, a header or pool space, leaves every queue
    as it was and gives back what was allocated: the free headers and the free units of the pool are those of before. *)
Theorem msgsnd_sound u now id msgsz flg type text st : wf st -> m_error st = 0 -> copied msgsz text ->
  (forall e, type = inr e -> e <> 0) ->
  exists r, msgsnd mi u now id msgsz flg type text st = Ok r /\
    match r with
    | inl (c, st') => (exists i, msgconv mi id st = Some i /\ snd_sleeps i st c st') /\ gave_back st st'
    | inr st' => over st (fun st' => exists i t bs, msgconv mi id st = Some i /\ type = inl t /\ 1 <= t /\
                   (msgsz = 0 /\ bs = [] \/ text = inl bs) /\ Z.of_nat (length bs) = msgsz /\
                   sent i t bs st st') st' /\ (m_error st' <> 0 -> gave_back st st')
    end.
Proof.
  intros Hw He Ht Hty. assert (forall e P, e <> 0 -> over st P (set_error st e) /\ (m_error (set_error st e) <> 0 -> gave_back st (set_error st e))) as Hfail by (intros e P Hne; split; [by apply over_fail|by split]).
  unfold msgsnd. destruct (msgconv mi id st) as [i|] eqn:Ec; [|eexists; split; [done|by apply Hfail]].
  pose proof Ec as (qp & Hi & Ha & _)%msgconv_Some. rewrite (proj2 (rd_Ok _ _ _) Hi). kpop.
  destruct (ipcaccess u (msg_perm qp) MSG_W) as [e|] eqn:Ea.
  { eexists. split; [done|]. apply Hfail. unfold ipcaccess in Ea. repeat case_match; by simplify_eq. }
  destruct ((msgsz <? 0) || (msgmax mi <? msgsz)) eqn:Eb; [eexists; split; [done|by apply Hfail]|].
  destruct type as [t|e]; [|eexists; split; [done|by apply Hfail, Hty]].
  destruct (Z.ltb_spec t 1); [eexists; split; [done|by apply Hfail]|].
  destruct (msgsnd_try_spec u now id st i qp false msgsz t flg text) as (r & -> & Hr); try done; [lia|].
  exists r. split; [done|]. destruct r as [[c st']|st']; [destruct Hr; split; [by exists i|done]|].
  destruct Hr as [[Hw' [?|(? & bs & ? & ? & ?)]] Hg]; (split; [|done]); (split; [done|]); [by left|right; split; [done|]]. by exists i, t, bs.
Qed.

(** ** Removal *)

Lemma rmid_loop_spec fuel st i qp : msg_wf0 mi st -> msgque st !! i = Some qp -> (length (msg_q qp) < fuel)%nat ->
  exists st' qp', rmid_loop fuel mi i st = Ok st' /\ msg_wf0 mi st' /\ msgque st' = <[i := qp']> (msgque st) /\
    msg_q qp' = [] /\ same_id qp qp' /\ same_rest st st'.
Proof.
  revert st qp. induction fuel as [|f IH]; intros st qp Hw Hi Hf; [lia|]. cbn [rmid_loop].
  rewrite (proj2 (rd_Ok _ _ _) Hi). kpop. destruct (msg_q qp) as [|mp q] eqn:Eq.
  - exists st, qp. split_and!; try done; [by rewrite list_insert_id|by apply same_id_refl].
  - destruct (msgfree_spec mi Hmi st i 0 qp mp Hw Hi ltac:(by rewrite Eq)) as (st1 & qp1 & -> & Hw1 & E1 & E2 & _ & Hid & R1 & _).
    kpop. pose proof (lookup_lt_Some _ _ _ Hi) as Hlt. rewrite Eq in E2. simpl in E2, Hf.
    destruct (IH st1 qp1 Hw1) as (st2 & qp2 & -> & Hw2 & E3 & E4 & Hid2 & R2);
      [rewrite E1; by apply list_lookup_insert_eq|rewrite E2; lia|].
    exists st2, qp2. split_and!; try done.
    + by rewrite E3, E1, list_insert_insert_eq.
    + by eapply same_id_trans.
    + destruct R1 as (? & ? & ? & ? & ?), R2 as (? & ? & ? & ? & ?). split_and!; congruence.
Qed.

(** msgctl(IPC_RMID) by an owner empties the queue, giving headers and pool segments back
    (the invariant holds), leaves the other queues alone and retires the identifier: it stops
    being valid, every other identifier stays what it was. *)
Theorem msgctl_rmid_sound u now id ds oerr st i qp : wf st -> msgconv mi id st = Some i ->
  msgque st !! i = Some qp -> msg_owner u qp = None ->
  exists st', msgctl mi u now id IPC_RMID ds oerr st = Ok st' /\ wf st' /\ m_error st' = m_error st /\
    (forall j, queue st' j = if decide (j = i) then [] else queue st j) /\
    msgconv mi id st' = None /\ (forall id', msgconv mi id' st <> Some i -> msgconv mi id' st' = msgconv mi id' st).
Proof.
  intros Hwf Hc Hi Ho. pose proof Hwf as [Hw Hb]. unfold msgctl. rewrite Hc, (proj2 (rd_Ok _ _ _) Hi). kpop.
  change (IPC_RMID =? IPC_RMID) with true. cbv iota. rewrite Ho. unfold msg_rmid.
  pose proof (lookup_lt_Some _ _ _ Hi) as Hlt. change (msgque (set_rval st 0)) with (msgque st).
  rewrite (proj2 (rd_Ok _ _ _) Hi). kpop.
  destruct (wf_frame st (set_rval st 0) Hwf) as [[Hw0 _] _]; try done.
  destruct (rmid_loop_spec (S (length (msg_q qp))) (set_rval st 0) i qp Hw0 Hi ltac:(lia))
    as (st1 & qp1 & -> & Hw1 & E1 & E2 & Hid & R1 & R2 & R3 & R4 & R5). kpop.
  assert (msgque st1 !! i = Some qp1) as Hi1 by (rewrite E1; by apply list_lookup_insert_eq).
  rewrite (proj2 (rd_Ok _ _ _) Hi1). kpop.
  set (pm := if _ <? 0 then perm_seq (msg_perm qp1) 0 else _).
  set (qp2 := with_mperm _ _). set (st2 := if has_flag (pmode pm) MSG_WWAIT then _ else _).
  assert (msgque st2 = msgque st1 /\ msgh st2 = msgh st1 /\ msgfp st2 = msgfp st1 /\ msgmap st2 = msgmap st1 /\
    msgpool st2 = msgpool st1 /\ m_error st2 = m_error st1) as (F1 & F2 & F3 & F4 & F5 & F6).
  { unfold st2. by destruct (has_flag _ _), (has_flag _ _). }
  clearbody st2. rewrite put_que_Ok by (rewrite F1, E1, length_insert; done). eexists. split; [done|].
  set (st3 := set_que st2 _).
  assert (msgque st3 = <[i := qp2]> (msgque st)) as E3.
  { simpl. rewrite F1, E1. by rewrite list_insert_insert_eq. }
  assert (0 <= pseq pm < 2 ^ 16) as Hseq by (unfold pm; destruct (_ <? 0); by apply wrapu_range).
  destruct (w_que _ _ Hw1 i qp1 Hi1) as (Q1 & Q2 & Q3 & Q4 & Q5).
  assert (que_ok qp2) as Hok.
  { unfold que_ok. simpl. rewrite E2 in *. simpl in Q2. rewrite Q2. split; [done|]. split; [done|]. split; [done|]. by split. }
  split_and!.
  - split.
    + eapply (wf0_put mi st1 st3 i qp1 qp2); try done. simpl. by rewrite F1.
    + eapply (bytes_put st st3 i qp2); [done|done| |].
      * simpl. rewrite F2, R1. done.
      * unfold bytes_ok. simpl. by rewrite E2.
  - simpl. rewrite F6, R3. done.
  - intros j. unfold queue_of. rewrite E3. destruct (decide (j = i)) as [->|Hne].
    + rewrite list_lookup_insert_eq by done. simpl. by rewrite E2.
    + rewrite list_lookup_insert_ne by done. unfold content, hdr. simpl. by rewrite F2, F5, R1, R2.
  - pose proof Hc as (qp' & Hi' & Ha & Hid0 & Hseq' & Ei)%msgconv_Some.
    unfold msgconv. destruct (id <? 0); [done|]. rewrite E3, <- Ei, list_lookup_insert_eq by done.
    assert (allocated_perm (msg_perm qp2) = false) as -> by done. done.
  - intros id' Hne. unfold msgconv. rewrite E3. destruct (id' <? 0) eqn:En; [done|].
    destruct (decide (i = Z.to_nat (id' mod msgmni mi))) as [Ei|Hnei]; [|by rewrite list_lookup_insert_ne].
    rewrite <- Ei, list_lookup_insert_eq, Hi by done. unfold msgconv in Hne. rewrite En, <- Ei, Hi in Hne.
    assert (allocated_perm (msg_perm qp2) = false) as -> by done. simpl.
    by destruct (_ || _).
Qed.

(** ** Creation *)

Lemma conv_id st i qp : wf st -> msgque st !! i = Some qp -> allocated_perm (msg_perm qp) = true ->
  msgconv mi (pseq (msg_perm qp) * msgmni mi + Z.of_nat i) st = Some i.
Proof.
  intros [Hw _] Hi Ha. destruct (w_que _ _ Hw i qp Hi) as (_ & _ & Hq & _). pose proof (w_len _ _ Hw).
  pose proof (lookup_lt_Some _ _ _ Hi). unfold msgconv.
  replace (pseq (msg_perm qp) * msgmni mi + Z.of_nat i <? 0) with false by nia.
  rewrite (Z.add_comm (_ * _)), Z.mod_add, Z.mod_small, Nat2Z.id, Hi by lia.
  rewrite Z.div_add, Z.div_small, Ha by lia. simpl. by rewrite Z.eqb_refl.
Qed.

(** msgget() keeps every queue's messages and either fails, with all identifiers as they
    were, or returns an identifier that msgconv() accepts, having touched only that entry. *)
Theorem msgget_sound u now k flg st : wf st -> m_error st = 0 ->
  exists st', msgget mi u now k flg st = Ok st' /\ wf st' /\ same_queues mi st st' /\
    (m_error st' <> 0 /\ (forall id, msgconv mi id st' = msgconv mi id st) \/
     m_error st' = 0 /\ exists i, msgconv mi (m_rval1 st') st' = Some i /\
       forall j, j <> i -> msgque st' !! j = msgque st !! j).
Proof.
  intros Hwf He. pose proof Hwf as [Hw Hb]. unfold msgget. rewrite ipcget_eq.
  destruct (ipcget_find k flg (msg_perm <$> msgque st)) as [e|i|i] eqn:Ef.
  - assert (e <> 0) as Hne by (apply (ipcget_err u k flg (msg_perm <$> msgque st) e (msg_perm <$> msgque st)); by rewrite ipcget_eq, Ef).
    destruct (wf_frame st (set_error st e)) as [? ?]; try done. eexists. split; [done|]. split; [done|]. split; [done|]. by left.
  - apply ipcget_found in Ef as (pm & Hi & Ha & _). rewrite list_lookup_fmap in Hi.
    destruct (msgque st !! i) as [qp|] eqn:Hqp; [|done]. injection Hi as <-. rewrite (proj2 (rd_Ok _ _ _) Hqp). kpop.
    eexists. split; [done|]. set (st' := set_rval _ _). destruct (wf_frame st st') as [Hw' ?]; try done.
    split; [done|]. split; [done|]. right. split; [done|]. exists i. split; [|done]. by apply conv_id.
  - apply ipcget_new_free in Ef as (pm & Hi & Ha). rewrite list_lookup_fmap in Hi.
    destruct (msgque st !! i) as [qp|] eqn:Hqp; [|done]. injection Hi as <-. pose proof (lookup_lt_Some _ _ _ Hqp) as Hlt.
    rewrite (zip_perms_insert msg_perm with_mperm (ipcget_init u k flg) i (msgque st) qp) by (done || by intros []).
    cbv zeta. set (st1 := set_que st _).
    assert (msgque st1 !! i = Some (with_mperm qp (ipcget_init u k flg (msg_perm qp)))) as -> %rd_Ok
      by (by apply list_lookup_insert_eq).
    kpop. rewrite put_que_Ok by (simpl; by rewrite length_insert). kpop. eexists. split; [done|].
    set (qp2 := MsqidDs _ _ _ _ _ _ _ _ _ _). set (st2 := set_rval _ _).
    assert (msgque st2 = <[i := qp2]> (msgque st)) as E2 by (simpl; by rewrite list_insert_insert_eq).
    destruct (w_que _ _ Hw i qp Hqp) as (Q1 & Q2 & Q3 & Q4 & Q5). specialize (Q1 Ha).
    assert (wf st2) as Hw2.
    { split.
      - eapply (wf0_put mi st st2 i qp qp2); try done. unfold que_ok. simpl. split; [done|]. split; [done|].
        split; [done|]. split; [by apply wrapu_range|done].
      - eapply (bytes_put st st2 i qp2); try done. specialize (Hb i qp Hqp). unfold bytes_ok in *. rewrite Q1 in Hb. exact Hb. }
    split; [done|]. split; [by eapply (queue_of_put mi st st2 i qp qp2)|]. right. split; [done|]. exists i. split.
    + apply (conv_id st2 i qp2); [done|rewrite E2; by apply list_lookup_insert_eq|apply ipcget_init_allocated].
    + intros j Hj. rewrite E2. by rewrite list_lookup_insert_ne.
Qed.

(** ** There and back *)

(** what msgsnd() put on a queue, msgrcv() hands over, and everything is as before: a
    message of a type not yet on the queue, received by that type with room for its text. *)
Theorem msg_roundtrip u u' now now' id id' msgsz msgsz' flg flg' t text st st1 i : wf st -> m_error st = 0 ->
  copied msgsz text -> msgconv mi id st = Some i -> t ∉ fst <$> queue st i ->
  msgsnd mi u now id msgsz flg (inl t) text st = Ok (inr st1) -> m_error st1 = 0 ->
  msgconv mi id' st = Some i ->
  (forall qp, msgque st1 !! i = Some qp -> ipcaccess u' (msg_perm qp) MSG_R = None) -> msgsz <= msgsz' ->
  exists st2 bs, msgrcv mi u' now' id' msgsz' t flg' (0, 0) st1 = Ok (inr st2) /\ m_error st2 = 0 /\
    (msgsz = 0 /\ bs = [] \/ text = inl bs) /\ handed msgsz' (t, bs) st1 st2 /\ m_rval1 st2 = msgsz /\
    same_queues mi st st2.
Proof.
  intros Hw He Ht Hc Hnew Hsnd He1 Hc' Hacc Hsz. unfold msgsnd in Hsnd. rewrite Hc in Hsnd.
  pose proof Hc as (qp & Hi & Ha & _)%msgconv_Some. rewrite (proj2 (rd_Ok _ _ _) Hi) in Hsnd.
  cbn [mbind res_bind] in Hsnd.
  assert (forall e, e <> 0 -> Ok (inr (set_error st e)) <> Ok (inr st1) :> res ((msgchan * msgst M) + msgst M)) as Hno.
  { intros e Hne E. injection E as E. rewrite <- E in He1. done. }
  destruct (ipcaccess u (msg_perm qp) MSG_W) as [e|] eqn:Ea.
  { exfalso. apply (Hno e); [|done]. unfold ipcaccess in Ea. repeat case_match; by simplify_eq. }
  destruct ((msgsz <? 0) || (msgmax mi <? msgsz)) eqn:Eb; [exfalso; by apply (Hno EINVAL)|].
  destruct (Z.ltb_spec t 1); [exfalso; by apply (Hno EINVAL)|].
  destruct (msgsnd_try_spec u now id st i qp false msgsz t flg text) as (r & Er & Hr); try done; [lia|].
  rewrite Er in Hsnd. injection Hsnd as ->. destruct Hr as [[Hw1 [[? _]|(_ & bs & Hbs & Hlen & Hq & Hrv & Hconv & _)]] _]; [done|].
  pose proof Hc' as Hc1. rewrite <- Hconv in Hc1. pose proof Hc1 as (qp1 & Hi1 & _)%msgconv_Some.
  unfold msgrcv. rewrite Hc1, (proj2 (rd_Ok _ _ _) Hi1). kpop. rewrite (Hacc qp1 Hi1).
  destruct (Z.ltb_spec msgsz' 0); [lia|]. unfold msgrcv_find. cbn [andb]. rewrite (proj2 (rd_Ok _ _ _) Hi1). kpop.
  rewrite (types_of mi st1 i qp1 Hi1). pose proof (Hq i) as Hqi. rewrite decide_True in Hqi by done.
  pose proof (find_msg_spec t (fst <$> queue st1 i) ltac:(lia)) as Hf. rewrite Hqi, fmap_app in Hf |- *. cbn in Hf |- *.
  destruct (find_msg t _) as [k|].
  2: { exfalso. destruct Hf as [[? _]|[[_ Hf]|[? _]]]; [lia| |lia]. apply Hf. set_solver. }
  assert (k = length (queue st i)) as ->.
  { destruct Hf as [[? _]|[(_ & Hk & _)|[? _]]]; [lia| |lia]. apply lookup_snoc_Some in Hk as [[_ Hk]|[-> _]].
    - exfalso. apply Hnew. by eapply list_elem_of_lookup_2.
    - by rewrite length_fmap. }
  assert (queue st1 i !! length (queue st i) = Some (t, bs)) as Hk by (rewrite Hqi; by apply list_lookup_middle).
  pose proof Hk as (mp & Hmp & Em)%(queue_lookup mi Hmi st1 i qp1 _ _ Hi1).
  destruct (deliver_spec mi Hmi u' now' st1 i _ qp1 mp msgsz' flg' (0, 0) Hw1 Hi1 Hmp ltac:(lia) He1) as (st2 & E2 & Hw2 & Hcase).
  destruct Hcase as [(_ & _ & Hbad)|(H1 & H2 & H3 & _ & _)].
  { exfalso. specialize (Hbad eq_refl). rewrite <- Em in Hbad. simpl in Hbad. lia. }
  rewrite <- Em in H3. exists st2, bs. split; [by rewrite E2|]. split; [done|]. split; [done|]. split; [done|].
  split; [destruct H3 as [-> _]; simpl; rewrite take_ge; lia|].
  intros j. rewrite (H2 j). destruct (decide (j = i)) as [->|Hne]; [|by rewrite Hq, decide_False]. rewrite Hqi.
  rewrite delete_take_drop, take_app_length. rewrite drop_ge, app_nil_r; [done|]. rewrite length_app. simpl. lia.
Qed.
End Ops.
