(* ===== verification/MsgWitness.v ===== *)
(** * A message facility the theorems apply to *)

From S2P Require Import Prelude Rmap Ipc Msg MsgThms MsgOps.
From stdpp Require Import prelude list numbers strings.
From Stdlib Require Import ZArith Lia.

Local Open Scope Z_scope.
Local Open Scope kern_scope.

(** The tables msginit() leaves behind are well formed. *)
Lemma msginit_wf {M} `{RM : !ResMap M} mi (m : M) : 0 < msgmni mi -> 0 < msgssz mi -> 0 <= msgseg mi ->
  Z.of_nat (msgtql mi) < 2 ^ 16 -> rm_inv m -> (forall u, rm_unit m u -> u <= msgseg mi) ->
  msg_wf mi (msginit mi m).
Proof.
  intros H1 H2 H3 H4 Hm Hu.
  assert (forall i qp, msgque (msginit mi m) !! i = Some qp -> qp = MsqidDs (IpcPerm 0 0 0 0 0 0 0) [] 0 0 0 0 0 0 0 0) as Hq.
  { intros i qp Hi. cbn [msginit msgque] in Hi. by apply lookup_replicate in Hi as [-> _]. }
  assert (queued (msginit mi m) = []) as Eq.
  { unfold queued. cbn [msginit msgque]. induction (Z.to_nat (msgmni mi)) as [|n IH]; [done|]. exact IH. }
  split; [constructor; rewrite ?Eq; cbn [app msginit msgmap msgpool msgque msgh msgfp]; rewrite ?length_replicate;
    try done; try nia|].
  - apply NoDup_seq.
  - intros mp Hmp%elem_of_seq. lia.
  - intros mp Hmp. by apply not_elem_of_nil in Hmp.
  - intros mp u Hmp. by apply not_elem_of_nil in Hmp.
  - intros mp mp' u Hmp. by apply not_elem_of_nil in Hmp.
  - intros i qp ->%Hq. by vm_compute.
  - intros i qp ->%Hq. done.
Qed.

Definition mi2 : msginfo := Msginfo 100 64 2 8 4 30.
Lemma mi2_ok : 0 < msgmni mi2 /\ 0 < msgssz mi2 /\ 0 <= msgseg mi2 < 32768.
Proof. by vm_compute. Qed.
Definition super : ucred := Ucred 0 0 [] 0 100.

(** After msginit(), and after a msgget() for key 5. *)
Definition m0 : msgst rmap := msginit mi2 map2full.
Definition m1 : msgst rmap := match msgget mi2 super 7 5 (Z.lor IPC_CREAT 0x1b6) m0 with Ok st => st | _ => m0 end.

Lemma m0_wf : msg_wf mi2 m0.
Proof.
  apply msginit_wf; try done; [split; [done|exists segs2; apply map2full_wf]|].
  intros u. cbn [rm_unit rmap_resmap]. rewrite (rmap_unit_wf _ _ _ map2full_wf).
  unfold segs2. rewrite !seg_free_cons, seg_free_nil. unfold Rmap.covers. cbn [m_addr m_size msgseg mi2]. lia.
Qed.

(** The state after msgget() differs from that after msginit() in one unused queue. *)
Lemma m1_wf : msg_wf mi2 m1.
Proof.
  set (qp := MsqidDs (IpcPerm 0 0 0 0 (Z.lor IPC_ALLOC 0x1b6) 0 5) [] 0 0 64 0 0 0 0 7).
  assert (m1 = set_rval (set_que m0 (<[0%nat := qp]> (msgque m0))) 0) as -> by (by vm_compute).
  destruct m0_wf as [Hw Hb]. split.
  - by eapply (wf0_put mi2 m0 _ 0 _ qp Hw).
  - eapply (bytes_put m0 _ 0 qp Hb); done.
Qed.

Definition hello : list Z := [104; 101; 108; 108; 111; 32; 119; 111; 114; 108; 100].
Definition m2 : msgst rmap :=
  match msgsnd mi2 super 8 0 11 0 (inl 3) (inl hello) m1 with Ok (inr st) => st | _ => m1 end.

Lemma m2_wf : msg_wf mi2 m2 /\ queue_of mi2 m2 0 = [(3, hello)].
Proof.
  split; [|by vm_compute].
  destruct (msgsnd_try_spec mi2 mi2_ok super 8 0 m1 0 (default (MsqidDs (IpcPerm 0 0 0 0 0 0 0) [] 0 0 0 0 0 0 0 0) (msgque m1 !! 0%nat))
    false 11 3 0 (inl hello) m1_wf) as (r & Er & Hr); [by vm_compute..|].
  assert (r = inr m2) as -> by (vm_compute in Er |- *; congruence). apply Hr.
Qed.

Lemma msgsnd_sound_witness : exists st', msgsnd mi2 super 8 0 11 0 (inl 3) (inl hello) m1 = Ok (inr st') /\
  msg_wf mi2 st' /\ queue_of mi2 st' 0 = queue_of mi2 m1 0 ++ [(3, hello)].
Proof.
  destruct (msgsnd_sound mi2 mi2_ok super 8 0 11 0 (inl 3) (inl hello) m1 m1_wf) as (r & Er & Hr); [done|done|done|].
  assert (r = inr m2) as -> by (vm_compute in Er |- *; congruence). exists m2. split; [exact Er|].
  destruct Hr as [[Hw [[He _]|[_ (i & t & bs & Hc & Ht & _ & Hbs & _ & Hs & _)]]] _]; [by destruct He|].
  split; [done|]. assert (i = 0%nat) as -> by (vm_compute in Hc; congruence). injection Ht as <-.
  destruct Hbs as [[? _]|Hbs]; [done|]. injection Hbs as <-. apply (Hs 0%nat).
Defined.

Lemma msgrcv_sound_witness : exists st', msgrcv mi2 super 9 0 20 (-5) 0 (0, 0) m2 = Ok (inr st') /\
  msg_wf mi2 st' /\ m_out st' = [OutType 3; OutText hello].
Proof.
  destruct (msgrcv_sound mi2 mi2_ok super 9 0 20 (-5) 0 (0, 0) m2 (proj1 m2_wf)) as (r & Er & Hr); [done|lia|].
  destruct r as [[c st']|st']; [vm_compute in Er; discriminate Er|]. exists st'. split; [exact Er|].
  destruct Hr as [Hw _]. split; [exact Hw|]. vm_compute in Er. injection Er as <-. reflexivity.
Defined.

Lemma msg_roundtrip_witness : exists st2, msgrcv mi2 super 9 0 20 3 0 (0, 0) m2 = Ok (inr st2) /\
  same_queues mi2 m1 st2 /\ handed 20 (3, hello) m2 st2.
Proof.
  destruct (msg_roundtrip mi2 mi2_ok super super 8 9 0 0 11 20 0 0 3 (inl hello) m1 m2 0 m1_wf)
    as (st2 & bs & H1 & H2 & H3 & H4 & H5 & H6); [done|done|done|by vm_compute; apply not_elem_of_nil|by vm_compute|done|done| |lia|].
  - intros qp _. done.
  - exists st2. split; [exact H1|]. split; [exact H6|]. destruct H3 as [[? _]|H3]; [done|]. by injection H3 as <-.
Defined.

Lemma msgctl_rmid_sound_witness : exists st', msgctl mi2 super 9 0 IPC_RMID (inr 0) 0 m2 = Ok st' /\
  msg_wf mi2 st' /\ queue_of mi2 st' 0 = [] /\ msgconv mi2 0 st' = None.
Proof.
  destruct (msgctl_rmid_sound mi2 mi2_ok super 9 0 (inr 0) 0 m2 0
    (default (MsqidDs (IpcPerm 0 0 0 0 0 0 0) [] 0 0 0 0 0 0 0 0) (msgque m2 !! 0%nat)) (proj1 m2_wf))
    as (st' & H1 & H2 & _ & H4 & H5 & _); [by vm_compute..|].
  exists st'. split; [exact H1|]. split; [exact H2|]. split; [exact (H4 0%nat)|exact H5].
Defined.

Lemma msgget_sound_witness : exists st', msgget mi2 super 7 5 (Z.lor IPC_CREAT 0x1b6) m0 = Ok st' /\ msg_wf mi2 st'.
Proof.
  destruct (msgget_sound mi2 mi2_ok super 7 5 (Z.lor IPC_CREAT 0x1b6) m0 m0_wf) as (st' & H1 & H2 & _); [done|].
  by exists st'.
Defined.
