(* ===== verification/Mbuf.v ===== *)
(** * Network memory buffers: [src/sun/sys/sys/uipc_mbuf.c], [h/mbuf.h]

    Definitions only.  An mbuf is known by its address, a multiple of MSIZE in the arena at
    [mbutl]; its header is a record and its bytes are in the memory [core].  The data of an mbuf
    lies in the mbuf itself or, when [m_off] reaches past it, in a cluster shared by reference
    count or in somebody else's storage ("funny" mbufs).  A chain linked through [m_next] is
    the list of the addresses on it, in order, the null pointer the empty list; so are the
    free lists.  The union of an mbuf's own data with the fields that describe a cluster is kept
    apart: the fields are read only when the data is elsewhere.  Pages come from a map ([Alloc.ResMap]); the frames behind them ([memall]), the
    kernel heap ([kalloc]) and the page exchange of funny mbufs ([clswp]) are parameters. *)

From S2P Require Import Prelude Rmap.
From stdpp Require Import prelude list numbers strings gmap.
From Stdlib Require Import ZArith Lia.

Local Open Scope Z_scope.
Local Open Scope kern_scope.

Definition MSIZE := 128.
Definition MMINOFF := 12.
Definition MTAIL := 4.
Definition MMAXOFF := MSIZE - MTAIL.
Definition MLEN := MSIZE - MMINOFF - MTAIL.
Definition NMBCLUSTERS := 256.
Definition MT_FREE := 0.
Definition MT_DATA := 1.
Definition MT_SONAME := 8.
Definition MPG_MBUFS := 0.
Definition MPG_CLUSTERS := 1.
Definition M_COPYALL := 1000000000.
Definition MCLBYTES := 1024.
Definition btomcl (x : Z) : Z := (x + MCLBYTES - 1) / MCLBYTES.
Definition NBPG := 8192.
Definition CLSHIFT := 13.
(** Bytes to pages, rounded up. *)
Definition btoc (x : Z) : Z := Z.shiftr (u32 (x + (NBPG - 1))) 13.

Record mbuf := Mbuf {
  m_off : Z; m_len : Z; m_type : Z; m_cltype : Z; m_clfun : Z; m_clarg : Z; m_clswp : Z; m_act : Z
}.
Record mbstats := Mbstat {
  m_mbufs : Z; m_mbfree : Z; m_clusters : Z; m_clfree : Z; m_drops : Z; m_mtypes : gmap Z Z
}.
(** The call of a funny mbuf's free routine. *)
Inductive mbevent := MbCall (fn arg : Z).

Record mbst (M H : Type) := Mbst {
  mbs : gmap Z mbuf; mfree : list Z; mclfree : list Z; mclrefcnt : list Z; core : Z -> Z;
  mbmap : M; heap : H; mbstat : mbstats; mb_events : list mbevent
}.
Arguments Mbst {M H}.
Arguments mbs {M H}. Arguments mfree {M H}. Arguments mclfree {M H}. Arguments mclrefcnt {M H}.
Arguments core {M H}. Arguments mbmap {M H}. Arguments heap {M H}. Arguments mbstat {M H}.
Arguments mb_events {M H}.

(** ** Headers and memory *)

Definition set_off (x : mbuf) (v : Z) : mbuf :=
  Mbuf (u32 v) (m_len x) (m_type x) (m_cltype x) (m_clfun x) (m_clarg x) (m_clswp x) (m_act x).
Definition set_len (x : mbuf) (v : Z) : mbuf :=
  Mbuf (m_off x) (i16 v) (m_type x) (m_cltype x) (m_clfun x) (m_clarg x) (m_clswp x) (m_act x).
Definition set_type (x : mbuf) (v : Z) : mbuf :=
  Mbuf (m_off x) (m_len x) v (m_cltype x) (m_clfun x) (m_clarg x) (m_clswp x) (m_act x).
Definition set_act (x : mbuf) (v : Z) : mbuf :=
  Mbuf (m_off x) (m_len x) (m_type x) (m_cltype x) (m_clfun x) (m_clarg x) (m_clswp x) v.
Definition set_cl (x : mbuf) (t fn arg swp : Z) : mbuf :=
  Mbuf (m_off x) (m_len x) (m_type x) t fn arg swp (m_act x).

Definition load (c : Z -> Z) (p n : Z) : list Z := (fun i => c (p + i)) <$> seqZ 0 n.
Definition store (c : Z -> Z) (p : Z) (bs : list Z) : Z -> Z := fun q =>
  if (p <=? q) && (q <? p + Z.of_nat (length bs)) then default 0 (bs !! Z.to_nat (q - p)) else c q.
(** The four bytes of an int. *)
Definition int_bytes (v : Z) : list Z :=
  [Z.land (Z.shiftr v 24) 255; Z.land (Z.shiftr v 16) 255; Z.land (Z.shiftr v 8) 255; Z.land v 255].

(** A field of [n] bytes in memory, most significant first. *)
Definition field (c : Z -> Z) (p n : Z) : Z := foldl (fun v b => v * 256 + b) 0 (load c p n).
(** The header of an mbuf as the page it is made in happens to hold it. *)
Definition raw_header (c : Z -> Z) (a : Z) : mbuf :=
  Mbuf (u32 (field c (a + 4) 4)) (i16 (field c (a + 8) 2)) (i16 (field c (a + 10) 2)) (i16 (field c (a + 12) 2))
    (u32 (field c (a + 14) 4)) (u32 (field c (a + 18) 4)) (u32 (field c (a + 22) 4)) (u32 (field c (a + 124) 4)).

(** The address of an mbuf's data. *)
Definition mtod (a : Z) (x : mbuf) : Z := u32 (a + m_off x).

Section Mbuf.
Context {M H : Type} `{RM : !ResMap M}.
Context (mbutl : Z) (memall : Z -> Z -> bool) (kalloc : Z -> H -> res (Z * H)).
Context (clswp : Z -> Z -> Z -> Z -> (Z -> Z) -> option (Z -> Z)).
Implicit Type st : mbst M H.

Definition set_mbs st v : mbst M H := Mbst v (mfree st) (mclfree st) (mclrefcnt st) (core st)
  (mbmap st) (heap st) (mbstat st) (mb_events st).
Definition set_mfree st v : mbst M H := Mbst (mbs st) v (mclfree st) (mclrefcnt st) (core st)
  (mbmap st) (heap st) (mbstat st) (mb_events st).
Definition set_mcl st v r : mbst M H := Mbst (mbs st) (mfree st) v r (core st)
  (mbmap st) (heap st) (mbstat st) (mb_events st).
Definition set_core st v : mbst M H := Mbst (mbs st) (mfree st) (mclfree st) (mclrefcnt st) v
  (mbmap st) (heap st) (mbstat st) (mb_events st).
Definition set_mbmap st v : mbst M H := Mbst (mbs st) (mfree st) (mclfree st) (mclrefcnt st) (core st)
  v (heap st) (mbstat st) (mb_events st).
Definition set_heap st v : mbst M H := Mbst (mbs st) (mfree st) (mclfree st) (mclrefcnt st) (core st)
  (mbmap st) v (mbstat st) (mb_events st).
Definition set_stat st v : mbst M H := Mbst (mbs st) (mfree st) (mclfree st) (mclrefcnt st) (core st)
  (mbmap st) (heap st) v (mb_events st).
Definition add_event st e : mbst M H := Mbst (mbs st) (mfree st) (mclfree st) (mclrefcnt st) (core st)
  (mbmap st) (heap st) (mbstat st) (mb_events st ++ [e]).

Definition get_mb (a : Z) st : res mbuf := match mbs st !! a with Some x => Ok x | None => Fault end.
Definition put_mb (a : Z) (x : mbuf) st : mbst M H := set_mbs st (<[a := x]> (mbs st)).

Definition bcopy (src dst n : Z) st : res (mbst M H) :=
  if n <? 0 then Fault else mret (set_core st (store (core st) dst (load (core st) src n))).

(** [mbstat.m_mtypes[t] += d], and the other counters. *)
Definition count_type (t d : Z) st : mbst M H :=
  let s := mbstat st in
  set_stat st (Mbstat (m_mbufs s) (m_mbfree s) (m_clusters s) (m_clfree s) (m_drops s)
                 (<[t := i16 (default 0 (m_mtypes s !! t) + d)]> (m_mtypes s))).
Definition count_free (mb cl : Z) st : mbst M H :=
  let s := mbstat st in
  set_stat st (Mbstat (m_mbufs s) (i16 (m_mbfree s + mb)) (m_clusters s) (i16 (m_clfree s + cl))
                 (m_drops s) (m_mtypes s)).
Definition count_new (mb cl dr : Z) st : mbst M H :=
  let s := mbstat st in
  set_stat st (Mbstat (i16 (m_mbufs s + mb)) (m_mbfree s) (i16 (m_clusters s + cl)) (m_clfree s)
                 (i16 (m_drops s + dr)) (m_mtypes s)).

(** ** Freeing *)

(** The cluster index of an address in the arena. *)
Definition mtoclx (p : Z) : Z := Z.quot (p - mbutl) MCLBYTES.
Definition get_ref (k : Z) st : res Z := if k <? 0 then Fault else rd (mclrefcnt st) (Z.to_nat k).

Definition mclput (a : Z) st : res (mbst M H) :=
  x ← get_mb a st;
  if m_cltype x =? 1 then
    let c := Z.land (mtod a x) (Z.lnot (MCLBYTES - 1)) in
    r ← get_ref (mtoclx c) st;
    let r := wraps 8 (r - 1) in
    l ← wr (mclrefcnt st) (Z.to_nat (mtoclx c)) r;
    if r =? 0 then mret (count_free 0 1 (set_mcl st (c :: mclfree st) l))
    else mret (set_mcl st (mclfree st) l)
  else if m_cltype x =? 2 then mret (add_event st (MbCall (m_clfun x) (m_clarg x)))
  else Panic "mclput".

Definition MFREE (a : Z) st : res (mbst M H) :=
  x ← get_mb a st;
  if m_type x =? MT_FREE then Panic "mfree"
  else
    let st := count_type (m_type x) (-1) st in
    let x := set_type x MT_FREE in
    let st := put_mb a x st in
    st ← (if MSIZE <? m_off x then mclput a st else mret st);
    mret (count_free 1 0 (set_mfree (put_mb a (set_act (set_off x 0) 0) st) (a :: mfree st))).

Definition m_free (m : list Z) st : res (list Z * mbst M H) :=
  match m with
  | [] => Fault
  | a :: n => st ← MFREE a st; mret (n, st)
  end.

Fixpoint m_freem (m : list Z) st : res (mbst M H) :=
  match m with
  | [] => mret st
  | a :: n => st ← MFREE a st; m_freem n st
  end.

(** ** Allocation *)

(** The page's [i] clusters from [m] on go to the free list. *)
Fixpoint cl_loop (i : nat) (m : Z) st : mbst M H :=
  match i with
  | O => st
  | S i => cl_loop i (m + MCLBYTES) (count_free 0 1 (set_mcl st (m :: mclfree st) (mclrefcnt st)))
  end.

(** The page's [i] mbufs from [m] on. *)
Fixpoint mb_loop (i : nat) (m : Z) st : res (mbst M H) :=
  match i with
  | O => mret st
  | S i =>
      let st := put_mb m (set_type (set_off (raw_header (core st) m) 0) MT_DATA) st in
      st ← MFREE m (count_new 1 0 0 (count_type MT_DATA 1 st));
      mb_loop i (m + MSIZE) st
  end.

Definition m_clalloc (ncl how : Z) st : res (option Z * mbst M H) :=
  let npg := btoc (ncl * MCLBYTES) in
  let ncl := btomcl (npg * NBPG) in
  '(mbx, m) ← rm_alloc (mbmap st) npg;
  if mbx =? 0 then mret (None, set_mbmap st m)
  else if negb (memall mbx npg) then
    m ← rm_release m npg mbx; mret (None, set_mbmap st m)
  else
    let st := set_mbmap st m in
    let m := mbutl + Z.shiftl mbx CLSHIFT in
    if how =? MPG_CLUSTERS then
      mret (Some (m + ncl * MCLBYTES), count_new 0 ncl 0 (cl_loop (Z.to_nat ncl) m st))
    else if how =? MPG_MBUFS then
      st ← mb_loop (Z.to_nat (ncl * MCLBYTES / MSIZE)) m st;
      mret (Some (m + ncl * MCLBYTES), st)
    else mret (Some m, st).

Definition m_expand st : res (bool * mbst M H) :=
  '(r, st) ← m_clalloc 1 MPG_MBUFS st;
  mret (match r with Some _ => true | None => false end, st).

(** MGET, with what it does when the free list is empty. *)
Definition MGET (more : mbst M H -> res (option Z * mbst M H)) (t : Z) st : res (option Z * mbst M H) :=
  match mfree st with
  | a :: fl =>
      x ← get_mb a st;
      if negb (m_type x =? MT_FREE) then Panic "mget"
      else mret (Some a, set_mfree (put_mb a (set_off (set_type x t) MMINOFF)
                           (count_type t 1 (count_free (-1) 0 st))) fl)
  | [] => more st
  end.

Definition m_more (t : Z) st : res (option Z * mbst M H) :=
  '(ok, st) ← m_expand st;
  if negb ok then mret (None, count_new 0 0 1 st)
  else MGET (fun _ => Panic "m_more") t st.

Definition m_get (t : Z) st : res (option Z * mbst M H) := MGET (m_more t) t st.

Definition m_getclr (t : Z) st : res (option Z * mbst M H) :=
  '(r, st) ← m_get t st;
  match r with
  | None => mret (None, st)
  | Some a =>
      x ← get_mb a st;
      mret (Some a, set_core st (store (core st) (mtod a x) (replicate (Z.to_nat MLEN) 0)))
  end.

Definition mbinit st : res (mbst M H) :=
  '(r, st) ← m_clalloc (btomcl 4096) MPG_MBUFS st;
  match r with
  | None => Panic "mbinit"
  | Some _ =>
      '(r, st) ← m_clalloc (btomcl (4 * 4096)) MPG_CLUSTERS st;
      match r with None => Panic "mbinit" | Some _ => mret st end
  end.

(** ** Clusters *)

Definition mclget (a : Z) st : res (bool * mbst M H) :=
  st ← (match mclfree st with [] => '(_, st) ← m_clalloc 1 MPG_CLUSTERS st; mret st | _ => mret st end);
  match mclfree st with
  | [] => mret (false, st)
  | p :: fl =>
      r ← get_ref (mtoclx p) st;
      l ← wr (mclrefcnt st) (Z.to_nat (mtoclx p)) (wraps 8 (r + 1));
      x ← get_mb a st;
      let x := set_off (set_len x MCLBYTES) (p - a) in
      mret (true, put_mb a (set_cl x 1 (m_clfun x) (m_clarg x) (m_clswp x))
                    (count_free 0 (-1) (set_mcl st fl l)))
  end.

Definition mclgetx (fn arg addr len : Z) st : res (option Z * mbst M H) :=
  '(r, st) ← m_get MT_DATA st;
  match r with
  | None => mret (None, st)
  | Some a =>
      x ← get_mb a st;
      mret (Some a, put_mb a (set_cl (set_len (set_off x (addr - a)) len) 2 fn arg 0) st)
  end.

(** [buffree] stands for the address of buffree(), which calls kmem_free_intr(). *)
Definition buffree := 1.

Definition mcldup (m n off : Z) st : res (mbst M H) :=
  x ← get_mb m st;
  y ← get_mb n st;
  if m_cltype x =? 1 then
    let p := mtod m x in
    r ← get_ref (mtoclx p) st;
    l ← wr (mclrefcnt st) (Z.to_nat (mtoclx p)) (wraps 8 (r + 1));
    let y := set_off y (p - n) in
    mret (put_mb n (set_cl y 1 (m_clfun y) (m_clarg y) (m_clswp y)) (set_mcl st (mclfree st) l))
  else if m_cltype x =? 2 then
    '(buf, h) ← kalloc (m_len y + 4) (heap st);
    let st := set_heap st h in
    let st := set_core st (store (core st) buf (int_bytes (m_len y + 4))) in
    st ← bcopy (mtod m x + off) (buf + 4) (m_len y) st;
    mret (put_mb n (set_cl (set_off y (buf + 4 - n - off)) 2 buffree buf 0) st)
  else Panic "mcldup".

(** ** m_copy *)

(** The mbuf the copy starts in, and the offset into it. *)
Fixpoint copy_skip (m : list Z) (off : Z) st : res (list Z * Z) :=
  if 0 <? off then
    match m with
    | [] => Panic "m_copy"
    | a :: m' =>
        x ← get_mb a st;
        if off <? m_len x then mret (m, off) else copy_skip m' (off - m_len x) st
    end
  else mret (m, off).

(** One mbuf of the copy: [n] takes over from byte [off] of [a]. *)
Definition copy_one (a n off len : Z) st : res (mbst M H) :=
  x ← get_mb a st;
  y ← get_mb n st;
  let y := set_len y (Z.min len (m_len x - off)) in
  let st := put_mb n y st in
  if (MMAXOFF <? m_off x) && (MLEN <? m_len y) then
    st ← mcldup a n off st;
    y ← get_mb n st;
    mret (put_mb n (set_off y (m_off y + off)) st)
  else bcopy (mtod a x + off) (mtod n y) (m_len y) st.

(** [top]: the copy so far. *)
Fixpoint copy_loop (m : list Z) (t off len : Z) (top : list Z) st : res (list Z * mbst M H) :=
  if len <=? 0 then mret (top, st)
  else
    match m with
    | [] => if negb (len =? M_COPYALL) then Panic "m_copy" else mret (top, st)
    | a :: m' =>
        '(r, st) ← m_get t st;
        match r with
        | None => st ← m_freem top st; mret ([], st)
        | Some n =>
            st ← copy_one a n off len st;
            y ← get_mb n st;
            copy_loop m' t 0 (if len =? M_COPYALL then len else len - m_len y) (top ++ [n]) st
        end
    end.

Definition m_copy (m : list Z) (off len : Z) st : res (list Z * mbst M H) :=
  if len =? 0 then mret ([], st)
  else if (off <? 0) || (len <? 0) then Panic "m_copy"
  else
    match m with
    | [] => Fault
    | a :: _ =>
        x ← get_mb a st;
        '(m, off) ← copy_skip m off st;
        copy_loop m (m_type x) off len [] st
    end.

(** ** m_cat, m_adj *)

(** The rest of [n] after [m], the last mbuf of the first chain, has absorbed what fits. *)
Fixpoint cat_loop (m : Z) (n : list Z) st : res (list Z * mbst M H) :=
  match n with
  | [] => mret ([], st)
  | b :: n' =>
      x ← get_mb m st;
      y ← get_mb b st;
      if (MMAXOFF <=? m_off x) || (MMAXOFF <? m_off x + m_len x + m_len y) then mret (n, st)
      else
        st ← bcopy (mtod b y) (mtod m x + m_len x) (m_len y) st;
        st ← MFREE b (put_mb m (set_len x (m_len x + m_len y)) st);
        cat_loop m n' st
  end.

Definition m_cat (m n : list Z) st : res (list Z * mbst M H) :=
  match last m with
  | None => Fault
  | Some a => '(r, st) ← cat_loop a n st; mret (m ++ r, st)
  end.

Fixpoint adj_front (m : list Z) (len : Z) st : res (mbst M H) :=
  match m with
  | [] => mret st
  | a :: m' =>
      if len <=? 0 then mret st
      else
        x ← get_mb a st;
        if m_len x <=? len then adj_front m' (len - m_len x) (put_mb a (set_len x 0) st)
        else mret (put_mb a (set_off (set_len x (m_len x - len)) (m_off x + len)) st)
  end.

(** [while (m != NULL && m->m_len != 0) { n = m; m = m->m_next; }] *)
Fixpoint adj_last (m : list Z) (n : option Z) st : res (option Z) :=
  match m with
  | [] => mret n
  | a :: m' => x ← get_mb a st; if m_len x =? 0 then mret n else adj_last m' (Some a) st
  end.

Fixpoint adj_back (fuel : nat) (mp : list Z) (len : Z) st : res (mbst M H) :=
  match fuel with
  | O => Fault
  | S f =>
      if len <=? 0 then mret st
      else
        n ← adj_last mp None st;
        match n with
        | None => mret st
        | Some a =>
            x ← get_mb a st;
            if m_len x <=? len then adj_back f mp (len - m_len x) (put_mb a (set_len x 0) st)
            else mret (put_mb a (set_len x (m_len x - len)) st)
        end
  end.

Definition m_adj (mp : list Z) (len : Z) st : res (mbst M H) :=
  match mp with
  | [] => mret st
  | _ :: _ => if 0 <=? len then adj_front mp len st else adj_back (S (length mp)) mp (- len) st
  end.

(** ** m_pullup *)

(** The loop: [m] collects from the chain [n]. *)
Fixpoint pull_loop (m : Z) (n : list Z) (len : Z) st : res (list Z * Z * mbst M H) :=
  match n with
  | [] => mret ([], len, st)
  | b :: n' =>
      x ← get_mb m st;
      y ← get_mb b st;
      let count := Z.min (Z.min (MLEN - m_len x) len) (m_len y) in
      r ← (if 0 <? count then
             st ← bcopy (mtod b y) (mtod m x + m_len x) count st;
             let st := put_mb m (set_len x (m_len x + count)) st in
             let y := set_len (set_off y (m_off y + count)) (m_len y - count) in
             mret (len - count, y, put_mb b y st)
           else mret (len, y, st));
      let '(len, y, st) := r in
      if 0 <? m_len y then mret (n, len, st)
      else st ← MFREE b st; pull_loop m n' len st
  end.

Definition m_pullup (m0 : list Z) (len : Z) st : res (list Z * mbst M H) :=
  if MLEN <? len then st ← m_freem m0 st; mret ([], st)
  else
    match m0 with
    | [] => Fault
    | a :: _ =>
        x ← get_mb a st;
        '(r, st) ← m_get (m_type x) st;
        match r with
        | None => st ← m_freem m0 st; mret ([], st)
        | Some m =>
            y ← get_mb m st;
            '(n, len, st) ← pull_loop m m0 len (put_mb m (set_len y 0) st);
            if negb (len =? 0) then
              st ← MFREE m st; st ← m_freem n st; mret ([], st)
            else mret (m :: n, st)
        end
    end.

(** ** Copies to and from contiguous memory *)

Fixpoint cpy_skip (m : list Z) (off : Z) st : res (list Z * Z) :=
  match m with
  | [] => mret ([], off)
  | a :: m' =>
      if off =? 0 then mret (m, off)
      else x ← get_mb a st; if m_len x <=? off then cpy_skip m' (off - m_len x) st else mret (m, off)
  end.

(** [while (len && m)]: whole mbufs. *)
Fixpoint cpy_loop (m : list Z) (len cp : Z) st : res (Z * mbst M H) :=
  match m with
  | [] => mret (len, st)
  | a :: m' =>
      if len =? 0 then mret (len, st)
      else
        x ← get_mb a st;
        st ← bcopy (mtod a x) cp (m_len x) st;
        cpy_loop m' (len - m_len x) (cp + m_len x) st
  end.

Definition m_cpytoc (m : list Z) (off len cp : Z) st : res (Z * mbst M H) :=
  if bool_decide (m = []) || (off <? 0) || (len <? 0) || (cp =? 0) then Panic "m_cpytoc"
  else
    '(m, off) ← cpy_skip m off st;
    match m with
    | [] => mret (len, st)
    | a :: m' =>
        x ← get_mb a st;
        let ml := Z.min len (m_len x - off) in
        st ← bcopy (mtod a x + off) cp ml st;
        cpy_loop m' (len - ml) (cp + ml) st
    end.

Definition m_cappend (cp len m : Z) st : res (mbst M H) :=
  x ← get_mb m st;
  st ← bcopy cp (mtod m x + m_len x) len st;
  mret (put_mb m (set_len x (m_len x + len)) st).

(** sballoc() of the whole chain on an empty sockbuf. *)
Fixpoint tally (m : list Z) (cc mbcnt : Z) st : res (Z * Z) :=
  match m with
  | [] => mret (cc, mbcnt)
  | a :: m' =>
      x ← get_mb a st;
      let mbcnt := i16 (mbcnt + MSIZE) in
      tally m' (i16 (cc + m_len x)) (if MMAXOFF <? m_off x then i16 (mbcnt + MCLBYTES) else mbcnt) st
  end.

(** The new values of [*cc] and [*mbcnt]. *)
Definition m_tally (m : list Z) (op cc mbcnt : Z) st : res (Z * Z) :=
  '(c, b) ← tally m 0 0 st;
  mret (if op =? -1 then (cc - c, mbcnt - b)
        else if op =? 0 then (c, b)
        else if op =? 1 then (cc + c, mbcnt + b) else (cc, mbcnt)).

Fixpoint m_movtoc (m : list Z) (to count : Z) st : res (Z * mbst M H) :=
  match m with
  | [] => mret (count, st)
  | a :: m' =>
      x ← get_mb a st;
      let i := Z.min (m_len x) count in
      let from := mtod a x in
      let swapped :=
        if (MCLBYTES <=? i) && (m_cltype x =? 2) && negb (m_clswp x =? 0)
           && (Z.land (Z.lor from to) (MCLBYTES - 1) =? 0)
        then clswp (m_clswp x) (m_clarg x) from to (core st) else None in
      let '(i, from, to, st) :=
        match swapped with
        | Some c => (i - MCLBYTES, from + MCLBYTES, to + MCLBYTES, set_core st c)
        | None => (i, from, to, st)
        end in
      r ← (if 0 <? i then st ← bcopy from to i st; mret (count - i, to + i, st)
           else mret (count, to, st));
      let '(count, to, st) := r in
      st ← MFREE a st;
      m_movtoc m' to count st
  end.
End Mbuf.
