(* ===== verification/MbufThms.v ===== *)
(** * The mbuf pool

    The invariant of the pool: which mbufs are free, where the data of the others lies, and that
    no cluster is on the free list, nor its page reused, while an mbuf refers to it.  MGET and
    MFREE keep it and leave the data of every other mbuf alone. *)

From S2P Require Import Prelude Rmap Mbuf.
From stdpp Require Import prelude list numbers strings gmap.
From Stdlib Require Import ZArith Lia.

Local Open Scope Z_scope.
Local Open Scope kern_scope.

(** ** Memory *)

Lemma load_length c p n : 0 <= n -> Z.of_nat (length (load c p n)) = n.
Proof. intros Hn. unfold load. rewrite length_fmap, length_seqZ. lia. Qed.

Lemma load_lookup c p n i : (Z.of_nat i < n) -> load c p n !! i = Some (c (p + Z.of_nat i)).
Proof. intros Hi. unfold load. rewrite list_lookup_fmap, lookup_seqZ_lt by lia. done. Qed.

Lemma load_ext c c' p n : (forall q, p <= q < p + n -> c q = c' q) -> load c p n = load c' p n.
Proof.
  intros H. unfold load. apply list_fmap_ext. intros i x Hx. apply lookup_seqZ in Hx as [-> Hi]. apply H. lia.
Qed.

Lemma load_app c p n1 n2 : 0 <= n1 -> 0 <= n2 -> load c p (n1 + n2) = load c p n1 ++ load c (p + n1) n2.
Proof.
  intros H1 H2. unfold load. rewrite seqZ_app, fmap_app by lia. f_equal.
  apply list_eq. intros i. rewrite !list_lookup_fmap. destruct (decide (Z.of_nat i < n2)).
  - rewrite !lookup_seqZ_lt by lia. cbn. f_equal. f_equal. lia.
  - by rewrite !lookup_seqZ_ge by lia.
Qed.

Lemma load_nil c p : load c p 0 = [].
Proof. done. Qed.

Lemma load_take c p n k : 0 <= k <= n -> take (Z.to_nat k) (load c p n) = load c p k.
Proof.
  intros Hk. replace n with (k + (n - k)) by lia. rewrite load_app by lia.
  apply take_app_length'. pose proof (load_length c p k ltac:(lia)). lia.
Qed.

Lemma load_drop c p n k : 0 <= k <= n -> drop (Z.to_nat k) (load c p n) = load c (p + k) (n - k).
Proof.
  intros Hk. replace n with (k + (n - k)) at 1 by lia. rewrite load_app by lia.
  apply drop_app_length'. pose proof (load_length c p k ltac:(lia)). lia.
Qed.

Lemma load_store_same c p bs : load (store c p bs) p (Z.of_nat (length bs)) = bs.
Proof.
  apply list_eq. intros i. destruct (decide (i < length bs)%nat) as [Hi|Hi].
  - rewrite load_lookup by lia. unfold store. rewrite (proj2 (Z.leb_le _ _)), (proj2 (Z.ltb_lt _ _)) by lia. simpl.
    replace (p + Z.of_nat i - p) with (Z.of_nat i) by lia. rewrite Nat2Z.id.
    destruct (lookup_lt_is_Some_2 bs i Hi) as [b ->]. done.
  - rewrite !lookup_ge_None_2; [done|lia|]. pose proof (load_length (store c p bs) p (Z.of_nat (length bs)) ltac:(lia)). lia.
Qed.

Lemma load_store_other c p bs q n : q + n <= p \/ p + Z.of_nat (length bs) <= q ->
  load (store c p bs) q n = load c q n.
Proof.
  intros Hd. apply load_ext. intros r Hr. unfold store.
  destruct (Z.leb_spec p r), (Z.ltb_spec r (p + Z.of_nat (length bs))); cbn [andb]; try done. lia.
Qed.

Lemma wrapu_add a z : wrapu 32 (a + wrapu 32 z) = wrapu 32 (a + z).
Proof. unfold wrapu. by rewrite Zplus_mod_idemp_r. Qed.

(** The bind of a known result, leaving the rest as it reads. *)
Ltac kpop := lazymatch goal with |- context [mbind ?f (Ok ?x)] => change (mbind f (Ok x)) with (f x); cbv beta end.

Section Thms.
Context {M H : Type} `{RM : !ResMap M}.
Context (mbutl : Z).
Hypothesis Hbase : 0 < mbutl /\ mbutl mod NBPG = 0 /\ mbutl + NMBCLUSTERS * NBPG <= 2 ^ 32.
Implicit Type st : mbst M H.

(** ** The invariant *)

Definition in_use st (a : Z) (x : mbuf) : Prop := mbs st !! a = Some x /\ m_type x <> MT_FREE.

Definition inline (x : mbuf) : Prop := MMINOFF <= m_off x <= MMAXOFF.
(** The cluster of an mbuf, as an index. *)
Definition clx (a : Z) (x : mbuf) : Z := (mtod a x - mbutl) / MCLBYTES.
Definition clustered (a : Z) (x : mbuf) : Prop := MSIZE <= m_off x < 2 ^ 32 /\ m_cltype x = 1.
Definition funny (x : mbuf) : Prop := MSIZE <= m_off x < 2 ^ 32 /\ m_cltype x = 2.
Definition in_arena (p : Z) : Prop := mbutl <= p < mbutl + NMBCLUSTERS * NBPG.

Definition points (k : Z) (e : Z * mbuf) : Prop :=
  m_type e.2 <> MT_FREE /\ clustered e.1 e.2 /\ clx e.1 e.2 = k.
#[local] Instance points_dec k e : Decision (points k e).
Proof. unfold points, clustered. apply _. Defined.
(** How many mbufs refer to cluster [k]. *)
Definition refs st (k : Z) : nat := size (filter (points k) (mbs st)).

Definition cladr (k : Z) : Z := mbutl + k * MCLBYTES.
Definition refcnt st (k : Z) : Z := default 0 (mclrefcnt st !! Z.to_nat k).
(** The pages: of mbufs, of clusters, or still in the map. *)
Definition pageno (p : Z) : Z := (p - mbutl) / NBPG.
Definition is_cluster st (k : Z) : Prop := cladr k ∈ mclfree st \/ 0 < refcnt st k.

Definition NCL : Z := NMBCLUSTERS * NBPG / MCLBYTES.

Record mb_wf st : Prop := {
  b_map : rm_inv (mbmap st);
  b_unit : forall u, rm_unit (mbmap st) u -> u < NMBCLUSTERS;
  b_slot : forall a x, mbs st !! a = Some x -> in_arena a /\ (a - mbutl) mod MSIZE = 0;
  b_free : NoDup (mfree st) /\ forall a, a ∈ mfree st <-> exists x, mbs st !! a = Some x /\ m_type x = MT_FREE;
  b_use : forall a x, in_use st a x -> inline x \/ (clustered a x /\ in_arena (mtod a x)) \/ funny x;
  b_cl : NoDup (mclfree st) /\ forall c, c ∈ mclfree st -> exists k, 0 <= k < NCL /\ c = cladr k /\ refcnt st k = 0;
  b_len : Z.of_nat (length (mclrefcnt st)) = NCL;
  b_ref : forall k, 0 <= k < NCL -> Z.of_nat (refs st k) <= refcnt st k < 128;
  b_sep : forall a x k, mbs st !! a = Some x -> 0 <= k < NCL -> is_cluster st k -> pageno a <> k / 8;
  b_page : forall u, rm_unit (mbmap st) u -> (forall a x, mbs st !! a = Some x -> pageno a <> u) /\
             (forall k, 0 <= k < NCL -> is_cluster st k -> k / 8 <> u)
}.

(** The data of an mbuf lies where it should. *)
Definition sized (a : Z) (x : mbuf) : Prop := 0 <= m_len x < 2 ^ 15 /\
  (inline x /\ m_off x + m_len x <= MMAXOFF \/
   clustered a x /\ mtod a x + m_len x <= cladr (clx a x) + MCLBYTES \/
   funny x /\ (mtod a x + m_len x <= mbutl \/ mbutl + NMBCLUSTERS * NBPG <= mtod a x)).

Definition data st (a : Z) (x : mbuf) : list Z := load (core st) (mtod a x) (m_len x).

(** Every mbuf in use, outside [X], is as before. *)
Definition kept (X : Z -> Prop) st st' : Prop := forall a x, in_use st a x -> ~ X a ->
  in_use st' a x /\ (sized a x -> data st' a x = data st a x).

Lemma kept_refl X st : kept X st st.
Proof. by intros a x. Qed.

Lemma mbkept_trans (X : Z -> Prop) st1 st2 st3 : kept X st1 st2 -> kept X st2 st3 -> kept X st1 st3.
Proof.
  intros H1 H2 a x Hu Hn. destruct (H1 a x Hu Hn) as [Hu2 Hd2]. destruct (H2 a x Hu2 Hn) as [Hu3 Hd3].
  split; [done|]. intros Hs. rewrite Hd3; auto.
Qed.

Lemma kept_trans_or (X Y : Z -> Prop) st1 st2 st3 : kept X st1 st2 -> kept Y st2 st3 -> kept (fun a => X a \/ Y a) st1 st3.
Proof.
  clear Hbase. intros K1 K2. apply (mbkept_trans _ st1 st2 st3); intros a x Hu Hn; [apply K1|apply K2]; tauto.
Qed.

Lemma kept_weaken (X Y : Z -> Prop) st st' : (forall a x, in_use st a x -> X a -> Y a) -> kept X st st' -> kept Y st st'.
Proof. intros HXY Hk a x Hu Hn. apply Hk; [done|]. eauto. Qed.

(** ** Where data lies *)

Lemma slot_apart st a b x y : mb_wf st -> mbs st !! a = Some x -> mbs st !! b = Some y -> a <> b ->
  a + MSIZE <= b \/ b + MSIZE <= a.
Proof.
  intros Hw Ha Hb Hne. destruct (b_slot _ Hw a x Ha) as [_ H1], (b_slot _ Hw b y Hb) as [_ H2].
  clear Hbase. unfold MSIZE in *. Z.to_euclidean_division_equations. lia.
Qed.

Lemma slot_bounds a : in_arena a -> (a - mbutl) mod MSIZE = 0 ->
  mbutl + pageno a * NBPG <= a /\ a + MSIZE <= mbutl + (pageno a + 1) * NBPG /\ 0 <= pageno a < NMBCLUSTERS.
Proof.
  clear Hbase. unfold in_arena, pageno, MSIZE, NMBCLUSTERS, NBPG. intros H1 H2.
  Z.to_euclidean_division_equations. lia.
Qed.

Lemma slot_end st a x : mb_wf st -> mbs st !! a = Some x ->
  mbutl + pageno a * NBPG <= a /\ a + MSIZE <= mbutl + (pageno a + 1) * NBPG /\ 0 <= pageno a < NMBCLUSTERS.
Proof. intros Hw Ha. destruct (b_slot _ Hw a x Ha). by apply slot_bounds. Qed.

Lemma inline_mtod st a x : mb_wf st -> mbs st !! a = Some x -> inline x -> mtod a x = a + m_off x.
Proof.
  intros Hw Ha Hi. destruct (slot_end st a x Hw Ha) as (H1 & H2 & H3).
  unfold mtod, inline, MMAXOFF, MMINOFF, MSIZE, MTAIL, NMBCLUSTERS, NBPG in *. apply wrapu_small. lia.
Qed.

Lemma clx_bounds a x : in_arena (mtod a x) ->
  0 <= clx a x < NCL /\ cladr (clx a x) <= mtod a x < cladr (clx a x) + MCLBYTES.
Proof.
  clear Hbase. unfold in_arena, clx, cladr, NCL, MCLBYTES, NMBCLUSTERS, NBPG. change (256 * 8192 / 1024) with 2048.
  intros Hr. Z.to_euclidean_division_equations. lia.
Qed.

Lemma clx_unique a x k : cladr k <= mtod a x < cladr k + MCLBYTES -> clx a x = k.
Proof. clear Hbase. unfold clx, cladr, MCLBYTES. intros E. Z.to_euclidean_division_equations. lia. Qed.

Lemma refs_pos st a x k : mbs st !! a = Some x -> points k (a, x) -> (0 < refs st k)%nat.
Proof.
  intros Ha Hp. unfold refs. assert (filter (points k) (mbs st) !! a = Some x) as Hf by (by apply map_lookup_filter_Some).
  destruct (size (filter (points k) (mbs st))) eqn:E; [|lia]. apply map_size_empty_inv in E. by rewrite E in Hf.
Qed.

Lemma cluster_bounds st a x : mb_wf st -> in_use st a x -> clustered a x ->
  0 <= clx a x < NCL /\ cladr (clx a x) <= mtod a x < cladr (clx a x) + MCLBYTES /\ 0 < refcnt st (clx a x).
Proof.
  intros Hw Hu Hc. destruct (b_use _ Hw a x Hu) as [Hi|[[_ Hr]|Hf]].
  - unfold inline, clustered, MMAXOFF, MSIZE, MTAIL in *. lia.
  - pose proof (clx_bounds a x Hr) as [Hk Hb]. split_and!; try apply Hk; try apply Hb.
    pose proof (b_ref _ Hw _ Hk) as [Hle _]. destruct Hu as [Ha Ht].
    pose proof (refs_pos st a x (clx a x) Ha ltac:(done)). lia.
  - unfold funny, clustered in *. lia.
Qed.

(** A cluster is in another page than any mbuf. *)
Lemma cluster_off_page k a : 0 <= k < NCL -> in_arena a -> (a - mbutl) mod MSIZE = 0 -> pageno a <> k / 8 ->
  cladr k + MCLBYTES <= a \/ a + MSIZE <= cladr k.
Proof.
  clear Hbase. intros Hk Ha Hm Hpg. pose proof (slot_bounds a Ha Hm) as (E1 & E2 & _). set (pageno a) in *.
  unfold cladr, MCLBYTES, NBPG in *. Z.to_euclidean_division_equations. lia.
Qed.

(** A write inside an mbuf leaves the data of the others alone. *)
Lemma inline_apart st a x b y p n : mb_wf st -> mbs st !! a = Some x -> in_use st b y -> sized b y -> a <> b ->
  a <= p -> p + n <= a + MSIZE -> 0 <= n ->
  mtod b y + m_len y <= p \/ p + n <= mtod b y.
Proof.
  intros Hw Ha Hu [Hl Hs] Hne Hp Hpn Hn. pose proof (slot_end st a x Hw Ha) as (E1 & E2 & E3).
  destruct Hs as [[Hi Hs]|[[Hc Hs]|[Hf Hs]]].
  - rewrite (inline_mtod st b y Hw (proj1 Hu) Hi). destruct (slot_apart st a b x y Hw Ha (proj1 Hu) Hne);
      unfold inline, MMAXOFF, MMINOFF, MSIZE, MTAIL in *; lia.
  - destruct (cluster_bounds st b y Hw Hu Hc) as (K1 & K2 & K3), (b_slot _ Hw a x Ha) as [S1 S2].
    destruct (cluster_off_page (clx b y) a K1 S1 S2 (b_sep _ Hw a x _ Ha K1 (or_intror K3))); lia.
  - unfold NMBCLUSTERS, NBPG in *. lia.
Qed.

(** ** Reference counts *)

Lemma refs_split (P : Z * mbuf -> Prop) `{!forall e, Decision (P e)} (m : gmap Z mbuf) a :
  size (filter P m) = (size (filter P (delete a m)) +
    match m !! a with Some x => if decide (P (a, x)) then 1 else 0 | None => 0 end)%nat.
Proof.
  destruct (m !! a) as [x|] eqn:E.
  - rewrite <- (insert_id m a x E) at 1. rewrite <- insert_delete_eq. destruct (decide (P (a, x))).
    + rewrite map_filter_insert_True by done. rewrite map_size_insert_None; [lia|].
      apply map_lookup_filter_None. left. apply lookup_delete_eq.
    + rewrite map_filter_insert_False by done. rewrite delete_delete_eq. lia.
  - rewrite delete_id by done. lia.
Qed.

Definition one (P : Prop) `{!Decision P} : nat := if decide P then 1 else 0.

Lemma clrefs_insert st st' a x y k : mbs st !! a = Some x -> mbs st' = <[a := y]> (mbs st) ->
  (refs st' k + one (points k (a, x)) = refs st k + one (points k (a, y)))%nat.
Proof.
  intros Ha E. unfold refs. rewrite E, (refs_split _ (<[a := y]> (mbs st)) a), (refs_split _ (mbs st) a).
  rewrite lookup_insert_eq, Ha, delete_insert_eq. unfold one. destruct (decide _), (decide _); lia.
Qed.

Lemma refs_new st st' a y k : mbs st !! a = None -> mbs st' = <[a := y]> (mbs st) -> ~ points k (a, y) ->
  refs st' k = refs st k.
Proof.
  intros Ha E Hp. unfold refs. rewrite E, (refs_split _ (<[a := y]> (mbs st)) a), (refs_split _ (mbs st) a).
  rewrite lookup_insert_eq, Ha, delete_insert_eq. rewrite decide_False by done. lia.
Qed.

(** ** Changing one mbuf *)

Lemma wf_change st st' a x y : mb_wf st -> mbs st !! a = Some x ->
  mbs st' = <[a := y]> (mbs st) -> mbmap st' = mbmap st ->
  NoDup (mfree st') -> (forall b, b ∈ mfree st' <-> b <> a /\ b ∈ mfree st \/ b = a /\ m_type y = MT_FREE) ->
  (m_type y <> MT_FREE -> inline y \/ (clustered a y /\ in_arena (mtod a y)) \/ funny y) ->
  NoDup (mclfree st') ->
  (forall c, c ∈ mclfree st' -> exists k, 0 <= k < NCL /\ c = cladr k /\ refcnt st' k = 0) ->
  Z.of_nat (length (mclrefcnt st')) = NCL ->
  (forall k, 0 <= k < NCL -> Z.of_nat (refs st' k) <= refcnt st' k < 128) ->
  (forall k, 0 <= k < NCL -> is_cluster st' k -> is_cluster st k) -> mb_wf st'.
Proof.
  intros Hw Ha Em Ep Hf1 Hf2 Hy Hc1 Hc2 Hl Hr Hic. destruct (b_free _ Hw) as [_ Hfr].
  assert (forall b z, mbs st' !! b = Some z -> b = a /\ z = y \/ b <> a /\ mbs st !! b = Some z) as Hlook.
  { intros b z. rewrite Em. destruct (decide (b = a)) as [->|]; [rewrite lookup_insert_eq; naive_solver|].
    rewrite lookup_insert_ne by done. auto. }
  assert (forall b z, mbs st' !! b = Some z -> exists z', mbs st !! b = Some z') as Hdom.
  { intros b z Hb. destruct (Hlook b z Hb) as [[-> _]|[_ Hz]]; eauto. }
  split; try done.
  - rewrite Ep. apply Hw.
  - rewrite Ep. apply Hw.
  - intros b z (z' & Hz)%Hdom. by apply (b_slot _ Hw b z').
  - split; [done|]. intros b. rewrite Hf2, Hfr, Em. destruct (decide (b = a)) as [->|Hne].
    + rewrite lookup_insert_eq. naive_solver.
    + rewrite lookup_insert_ne by done. naive_solver.
  - intros b z [Hb Ht]. destruct (Hlook b z Hb) as [[-> ->]|[_ Hz]]; [by apply Hy|]. by apply (b_use _ Hw b z).
  - intros b z k (z' & Hz)%Hdom Hk Hcl. apply (b_sep _ Hw b z' k Hz Hk). auto.
  - rewrite Ep. intros u Hu. destruct (b_page _ Hw u Hu) as [H1 H2]. split.
    + intros b z (z' & Hz)%Hdom. eauto.
    + intros k Hk Hcl. eauto.
Qed.

Lemma inline_points k a y : inline y -> ~ points k (a, y).
Proof. clear Hbase. intros Hi (_ & [Hc _] & _). simpl in Hc. unfold inline, MMAXOFF, MSIZE, MTAIL in *. lia. Qed.

Lemma refcnt_same st st' k : mclrefcnt st' = mclrefcnt st -> refcnt st' k = refcnt st k.
Proof. intros E. unfold refcnt. by rewrite E. Qed.

(** The same, the clusters being left alone. *)
Lemma wf_header st st' a x y : mb_wf st -> mbs st !! a = Some x ->
  mbs st' = <[a := y]> (mbs st) -> mbmap st' = mbmap st ->
  NoDup (mfree st') -> (forall b, b ∈ mfree st' <-> b <> a /\ b ∈ mfree st \/ b = a /\ m_type y = MT_FREE) ->
  (m_type y <> MT_FREE -> inline y \/ (clustered a y /\ in_arena (mtod a y)) \/ funny y) ->
  (forall k, points k (a, y) -> points k (a, x)) ->
  mclfree st' = mclfree st -> mclrefcnt st' = mclrefcnt st -> mb_wf st'.
Proof.
  intros Hw Ha Em Ep Hf1 Hf2 Hy Hpt Ec Er. destruct (b_cl _ Hw) as [Hc1 Hc2].
  apply (wf_change st st' a x y Hw Ha Em Ep Hf1 Hf2 Hy).
  - by rewrite Ec.
  - intros c. rewrite Ec. intros (k & Hk & E1 & E2)%Hc2. exists k. by rewrite (refcnt_same _ _ _ Er).
  - rewrite Er. apply Hw.
  - intros k Hk. rewrite (refcnt_same _ _ _ Er). pose proof (clrefs_insert st st' a x y k Ha Em).
    pose proof (b_ref _ Hw k Hk). specialize (Hpt k). unfold one in *. destruct (decide _), (decide _); first [exfalso; by auto|lia].
  - intros k _. unfold is_cluster. by rewrite Ec, (refcnt_same _ _ _ Er).
Qed.

Lemma get_mb_Ok st a x : mbs st !! a = Some x -> get_mb a st = Ok x.
Proof. intros Ha. unfold get_mb. by rewrite Ha. Qed.

(** What allocation leaves alone: data, mbufs in use, clusters. *)
Definition quiet st st' : Prop := core st' = core st /\ heap st' = heap st /\ mb_events st' = mb_events st /\
  mclfree st' = mclfree st /\ mclrefcnt st' = mclrefcnt st /\ (forall a x, in_use st a x -> in_use st' a x).

Lemma quiet_refl st : quiet st st.
Proof. by split_and!. Qed.

Lemma quiet_trans st1 st2 st3 : quiet st1 st2 -> quiet st2 st3 -> quiet st1 st3.
Proof.
  intros (A1&A2&A3&A4&A5&A6) (B1&B2&B3&B4&B5&B6). split_and!; [congruence..|auto].
Qed.

Lemma quiet_use st st' a x : quiet st st' -> in_use st a x -> in_use st' a x.
Proof. intros (_&_&_&_&_&H6). apply H6. Qed.

Lemma quiet_kept X st st' : quiet st st' -> kept X st st'.
Proof. intros (A1&_&_&_&_&A6) a x Hu _. split; [auto|]. intros _. unfold data. by rewrite A1. Qed.

(** A new mbuf: not in use before, and nothing else has changed. *)
Definition newly (t : Z) st st' (a : Z) : Prop :=
  (forall x, ~ in_use st a x) /\ (exists y, in_use st' a y /\ m_off y = MMINOFF /\ m_type y = t) /\
  (forall b z, in_use st' b z -> b = a \/ in_use st b z).

Lemma MGET_take more t a fl st : mb_wf st -> t <> MT_FREE -> mfree st = a :: fl ->
  exists st', MGET more t st = Ok (Some a, st') /\ mb_wf st' /\ quiet st st' /\ newly t st st' a /\ mfree st' = fl.
Proof.
  intros Hw Ht Hfl. destruct (b_free _ Hw) as [Hnd Hfr]. rewrite Hfl in Hnd. apply NoDup_cons in Hnd as [Hna Hnd].
  destruct (proj1 (Hfr a)) as (x & Ha & Hx). { rewrite Hfl. by left. }
  unfold MGET. rewrite Hfl, (get_mb_Ok _ _ _ Ha). kstep. rewrite (proj2 (Z.eqb_eq _ _) Hx). cbn [negb].
  eexists. split; [reflexivity|].
  set (y := set_off (set_type x t) MMINOFF).
  assert (inline y) as Hi by (unfold inline, y; simpl; unfold MMAXOFF, MMINOFF, MSIZE, MTAIL, wrapu; split; [done|done]).
  split_and!.
  - eapply (wf_header st _ a x y Hw Ha); simpl; try done.
    + intros b. rewrite Hfl, elem_of_cons. split; [intros Hb; left; split; [by intros ->|by right]|].
      intros [[Hne [->|Hb]]|[_ E]]; [done|done|]. unfold y in E. simpl in E. done.
    + by left.
    + intros k Hp. by apply inline_points in Hp.
  - split_and!; try done. intros b z [Hb Hz]. split; [|done]. simpl. rewrite lookup_insert_ne; [done|].
    intros ->. rewrite Ha in Hb. naive_solver.
  - split_and!.
    + intros z [Hz Hz2]. rewrite Ha in Hz. naive_solver.
    + exists y. split; [|done]. split; [apply lookup_insert_eq|done].
    + intros b z [Hb Hz]. simpl in Hb. destruct (decide (b = a)) as [->|]; [by left|].
      rewrite lookup_insert_ne in Hb by done. by right.
  - done.
Qed.

(** ** Freeing *)

(** MFREE gives back cluster [k]: its test is [m_off > MSIZE]. *)
Definition releases (k a : Z) (x : mbuf) : Prop := MSIZE < m_off x /\ m_cltype x = 1 /\ clx a x = k.
#[global] Instance releases_dec k a x : Decision (releases k a x).
Proof. unfold releases. apply _. Defined.
Definition freed_call (x : mbuf) : list mbevent :=
  if decide (MSIZE < m_off x /\ m_cltype x = 2) then [MbCall (m_clfun x) (m_clarg x)] else [].

Lemma get_ref_Ok st k : mb_wf st -> 0 <= k < NCL -> get_ref k st = Ok (refcnt st k).
Proof.
  intros Hw Hk. unfold get_ref, refcnt. destruct (Z.ltb_spec k 0); [lia|]. unfold rd.
  destruct (mclrefcnt st !! Z.to_nat k) eqn:E; [done|]. apply lookup_ge_None in E. pose proof (b_len _ Hw). lia.
Qed.

Lemma wr_ref_Ok st k v : mb_wf st -> 0 <= k < NCL ->
  wr (mclrefcnt st) (Z.to_nat k) v = Ok (<[Z.to_nat k := v]> (mclrefcnt st)).
Proof. intros Hw Hk. pose proof (b_len _ Hw). unfold wr. by rewrite decide_True by lia. Qed.

Lemma refcnt_insert st st' k v j : mb_wf st -> 0 <= k < NCL -> 0 <= j ->
  mclrefcnt st' = <[Z.to_nat k := v]> (mclrefcnt st) -> refcnt st' j = if decide (j = k) then v else refcnt st j.
Proof.
  intros Hw Hk Hj E. pose proof (b_len _ Hw). unfold refcnt. rewrite E. destruct (decide (j = k)) as [->|].
  - by rewrite list_lookup_insert_eq by lia.
  - by rewrite list_lookup_insert_ne by lia.
Qed.

Lemma cladr_mod k : 0 <= k -> Z.land (cladr k) (Z.lnot (MCLBYTES - 1)) = cladr k.
Proof.
  intros Hk. rewrite <- Z.ldiff_land. change (MCLBYTES - 1) with (Z.ones 10). rewrite Z.ldiff_ones_r by lia.
  rewrite Z.shiftr_div_pow2, Z.shiftl_mul_pow2 by lia. change (2 ^ 10) with 1024.
  unfold cladr, MCLBYTES, NBPG in *. Z.to_euclidean_division_equations. lia.
Qed.

Lemma cl_mask p k : 0 <= k -> cladr k <= p < cladr k + MCLBYTES -> Z.land p (Z.lnot (MCLBYTES - 1)) = cladr k.
Proof.
  intros Hk Hp. rewrite <- (cladr_mod k Hk), <- !Z.ldiff_land. change (MCLBYTES - 1) with (Z.ones 10).
  rewrite !Z.ldiff_ones_r, !Z.shiftl_mul_pow2, !Z.shiftr_div_pow2 by lia. change (2 ^ 10) with 1024.
  f_equal. unfold cladr, MCLBYTES, NBPG in *. Z.to_euclidean_division_equations. lia.
Qed.

Lemma mtoclx_cladr k : 0 <= k -> mtoclx mbutl (cladr k) = k.
Proof.
  clear Hbase. intros Hk. unfold mtoclx, cladr, MCLBYTES. replace (mbutl + k * 1024 - mbutl) with (k * 1024) by lia.
  by rewrite Z.quot_mul by lia.
Qed.

Lemma mtoclx_clx p k : 0 <= k -> cladr k <= p < cladr k + MCLBYTES -> mtoclx mbutl p = k.
Proof.
  clear Hbase. intros Hk. unfold mtoclx, cladr, MCLBYTES. intros Hp. rewrite Z.quot_div_nonneg by lia.
  Z.to_euclidean_division_equations. lia.
Qed.

Lemma cladr_inj j k : cladr j = cladr k -> j = k.
Proof. clear Hbase. unfold cladr, MCLBYTES. lia. Qed.

(** Only the clusters differ. *)
Definition same_mbs st st' : Prop := mbs st' = mbs st /\ mfree st' = mfree st /\ core st' = core st /\
  mbmap st' = mbmap st /\ heap st' = heap st.

(** The cluster of [x] loses a reference that [x] held. *)
Lemma mclput_cluster st a x st1 : mb_wf st -> in_use st a x -> clustered a x ->
  mbs st1 !! a = Some (set_type x MT_FREE) -> mclfree st1 = mclfree st -> mclrefcnt st1 = mclrefcnt st ->
  exists st2, mclput mbutl a st1 = Ok st2 /\ same_mbs st1 st2 /\ mb_events st2 = mb_events st1 /\
    mclrefcnt st2 = <[Z.to_nat (clx a x) := refcnt st (clx a x) - 1]> (mclrefcnt st) /\
    mclfree st2 = (if decide (refcnt st (clx a x) = 1) then [cladr (clx a x)] else []) ++ mclfree st.
Proof.
  intros Hw Hu Hc Ha Ef Er. destruct (cluster_bounds st a x Hw Hu Hc) as (K1 & K2 & K3).
  pose proof (b_ref _ Hw _ K1) as [_ K4]. unfold mclput. rewrite (get_mb_Ok _ _ _ Ha). kstep.
  change (m_cltype (set_type x MT_FREE)) with (m_cltype x). rewrite (proj2 Hc). cbn [Z.eqb Pos.eqb].
  change (mtod a (set_type x MT_FREE)) with (mtod a x). rewrite (cl_mask _ _ (proj1 K1) K2), mtoclx_cladr by lia.
  assert (get_ref (clx a x) st1 = Ok (refcnt st (clx a x))) as ->.
  { rewrite <- (get_ref_Ok st (clx a x) Hw K1). unfold get_ref. by rewrite Er. }
  kstep. rewrite Er, wr_ref_Ok by done. kstep. rewrite (wraps_small 8) by lia. rewrite Ef.
  destruct (decide (refcnt st (clx a x) = 1)) as [E|E]; [rewrite (proj2 (Z.eqb_eq _ _)) by lia|rewrite (proj2 (Z.eqb_neq _ _)) by lia];
    eexists; (split; [reflexivity|]); done.
Qed.

(** The tail of MFREE, on the state [st2] the release left. *)
Lemma wf_freed st st2 a x : mb_wf st -> in_use st a x -> mbs st2 = <[a := set_type x MT_FREE]> (mbs st) ->
  mfree st2 = mfree st -> mbmap st2 = mbmap st ->
  (releases (clx a x) a x /\ clustered a x /\
     mclrefcnt st2 = <[Z.to_nat (clx a x) := refcnt st (clx a x) - 1]> (mclrefcnt st) /\
     mclfree st2 = (if decide (refcnt st (clx a x) = 1) then [cladr (clx a x)] else []) ++ mclfree st \/
   ~ releases (clx a x) a x /\ mclrefcnt st2 = mclrefcnt st /\ mclfree st2 = mclfree st) ->
  let f := set_act (set_off (set_type x MT_FREE) 0) 0 in
  mb_wf (count_free 1 0 (set_mfree (put_mb a f st2) (a :: mfree st2))).
Proof.
  intros Hw [Ha Ht] Em Efl Ep Hcl f. destruct (b_free _ Hw) as [Hnd Hfr], (b_cl _ Hw) as [Hc1 Hc2].
  set (st' := count_free 1 0 _). assert (mbs st' = <[a := f]> (mbs st)) as Em'.
  { unfold st'. simpl. by rewrite Em, insert_insert_eq. }
  assert (a ∉ mfree st) as Hna. { intros (z & Hz & ?)%Hfr. rewrite Ha in Hz. naive_solver. }
  assert (mfree st' = a :: mfree st) as Ef' by (unfold st'; simpl; by rewrite Efl).
  assert (forall b, b ∈ mfree st' <-> b <> a /\ b ∈ mfree st \/ b = a /\ m_type f = MT_FREE) as Hmem.
  { intros b. rewrite Ef', elem_of_cons. split; [|naive_solver]. intros [->|Hb]; [by right|]. left. split; [by intros ->|done]. }
  assert (forall k, ~ points k (a, f)) as Hnp by (intros k [Hp _]; by apply Hp).
  destruct Hcl as [(Hrel & Hc & Er & Ecf)|(_ & Er & Ecf)].
  2:{ eapply (wf_header st st' a x f Hw Ha); try done; [by rewrite Ef'; constructor|]. intros k Hp. by apply Hnp in Hp. }
  destruct (cluster_bounds st a x Hw (conj Ha Ht) Hc) as (K1 & K2 & K3). set (k0 := clx a x) in *.
  assert (forall k, 0 <= k -> refcnt st' k = if decide (k = k0) then refcnt st k0 - 1 else refcnt st k) as Hrc.
  { intros k Hk. by apply (refcnt_insert st st' k0). }
  assert (mclfree st' = (if decide (refcnt st k0 = 1) then [cladr k0] else []) ++ mclfree st) as Ecf' by done.
  assert (cladr k0 ∉ mclfree st) as Hnc.
  { intros (k & Hk & E%cladr_inj & E0)%Hc2. subst k. lia. }
  eapply (wf_change st st' a x f Hw Ha); try done.
  - by rewrite Ef'; constructor.
  - rewrite Ecf'. destruct (decide _); simpl; [by constructor|done].
  - intros c. rewrite Ecf', elem_of_app. intros [Hc'|(k & Hk & E & E0)%Hc2].
    + destruct (decide (refcnt st k0 = 1)); [|by apply elem_of_nil in Hc']. apply list_elem_of_singleton in Hc' as ->.
      exists k0. split_and!; try lia. rewrite Hrc by lia. rewrite decide_True by done. lia.
    + exists k. split_and!; try lia. rewrite Hrc by lia. destruct (decide (k = k0)) as [->|]; lia.
  - transitivity (Z.of_nat (length (mclrefcnt st))); [|apply Hw]. change (mclrefcnt st') with (mclrefcnt st2).
    by rewrite Er, length_insert.
  - intros k Hk. rewrite Hrc by lia. pose proof (clrefs_insert st st' a x f k Ha Em') as Hre. pose proof (b_ref _ Hw k Hk).
    unfold one in Hre. rewrite (decide_False (P := points k (a, f))) in Hre by done.
    destruct (decide (k = k0)) as [->|]; [|destruct (decide _); lia].
    rewrite decide_True in Hre by (split_and!; [done|apply Hc..|done]). lia.
  - intros k Hk [Hin|Hpos].
    + rewrite Ecf', elem_of_app in Hin. destruct Hin as [Hin|Hin]; [|by left]. right.
      destruct (decide (refcnt st k0 = 1)); [|by apply elem_of_nil in Hin]. apply list_elem_of_singleton, cladr_inj in Hin. subst k. lia.
    + right. rewrite Hrc in Hpos by lia. destruct (decide (k = k0)) as [->|]; lia.
Qed.

Lemma mclput_funny st a x : mbs st !! a = Some (set_type x MT_FREE) -> m_cltype x = 2 ->
  mclput mbutl a st = Ok (add_event st (MbCall (m_clfun x) (m_clarg x))).
Proof. clear Hbase. intros Ha Hc. unfold mclput. rewrite (get_mb_Ok _ _ _ Ha). kstep. simpl. by rewrite Hc. Qed.

Lemma use_kind st a x : mb_wf st -> in_use st a x -> MSIZE < m_off x ->
  clustered a x /\ releases (clx a x) a x \/ m_cltype x = 2.
Proof.
  clear Hbase. intros Hw Hu Hm. destruct (b_use _ Hw a x Hu) as [Hi|[[Hc _]|Hf]].
  - unfold inline, MMAXOFF, MSIZE, MTAIL in *. lia.
  - left. split; [done|]. by destruct Hc.
  - right. apply Hf.
Qed.

Lemma not_release_small k a x : m_off x <= MSIZE -> ~ releases k a x.
Proof. clear Hbase. intros Hm [Hr _]. lia. Qed.

(** What MFREE does to a pool. *)
Record freed (st st' : mbst M H) (a : Z) (x : mbuf) : Prop := {
  fr_wf : mb_wf st';
  fr_mbs : mbs st' = <[a := set_act (set_off (set_type x MT_FREE) 0) 0]> (mbs st);
  fr_rest : core st' = core st /\ heap st' = heap st /\ mbmap st' = mbmap st;
  fr_list : mfree st' = a :: mfree st;
  fr_ref : forall k, 0 <= k -> refcnt st' k = refcnt st k - Z.of_nat (one (releases k a x));
  fr_calls : mb_events st' = mb_events st ++ freed_call x;
  fr_cl : forall k, 0 <= k -> is_cluster st k -> is_cluster st' k
}.

Lemma MFREE_spec st a x : mb_wf st -> in_use st a x -> exists st', MFREE mbutl a st = Ok st' /\ freed st st' a x.
Proof.
  intros Hw Hu. pose proof Hu as [Ha Ht]. unfold MFREE. rewrite (get_mb_Ok _ _ _ Ha). kstep.
  rewrite (proj2 (Z.eqb_neq _ _) Ht). set (st1 := put_mb a (set_type x MT_FREE) _).
  change (m_off (set_type x MT_FREE)) with (m_off x).
  assert (mbs st1 !! a = Some (set_type x MT_FREE)) as Ha1 by (unfold st1; simpl; apply lookup_insert_eq).
  assert (mbs st1 = <[a := set_type x MT_FREE]> (mbs st)) as Em1 by done.
  destruct (Z.ltb_spec MSIZE (m_off x)) as [Hm|Hm].
  - destruct (use_kind st a x Hw Hu Hm) as [[Hc Hrel]|Hf].
    + destruct (mclput_cluster st a x st1 Hw Hu Hc Ha1 eq_refl eq_refl) as (st2 & -> & (E1 & E2 & E3 & E4 & E5) & Ee & Er & Ec).
      kstep. eexists. split; [reflexivity|]. split; simpl.
      * apply (wf_freed st st2 a x Hw Hu); [by rewrite E1|by rewrite E2|by rewrite E4|]. left. by split_and!.
      * by rewrite E1, Em1, insert_insert_eq.
      * by rewrite E3, E4, E5.
      * by rewrite E2.
      * intros k Hk. destruct (cluster_bounds st a x Hw Hu Hc) as (K1 & _).
        rewrite (refcnt_insert st _ (clx a x) (refcnt st (clx a x) - 1)) by done.
        unfold one. destruct (decide (k = clx a x)) as [->|Hne]; [by rewrite decide_True by done|].
        rewrite decide_False; [lia|]. intros (_ & _ & E). by symmetry in E.
      * rewrite Ee. unfold freed_call. rewrite decide_False by (destruct Hc as [_ Hc]; lia). by rewrite app_nil_r.
      * intros k Hk Hcl. destruct (cluster_bounds st a x Hw Hu Hc) as (K1 & _).
        unfold is_cluster. rewrite (refcnt_insert st _ (clx a x) (refcnt st (clx a x) - 1)) by done. simpl. rewrite Ec, elem_of_app.
        destruct Hcl as [?|Hpos]; [by left; right|]. destruct (decide (k = clx a x)) as [->|]; [|by right].
        destruct (decide (refcnt st (clx a x) = 1)); [left; left; by left|right; lia].
    + rewrite (mclput_funny st1 a x Ha1 Hf). kstep. eexists. split; [reflexivity|].
      assert (forall k, ~ releases k a x) as Hnr by (intros k (_ & E & _); lia).
      split; simpl; try done.
      * apply (wf_freed st (add_event st1 _) a x Hw Hu); try done. right. by split_and!.
      * by rewrite insert_insert_eq.
      * intros k _. unfold one. rewrite decide_False by done. rewrite Z.sub_0_r. by apply refcnt_same.
      * unfold freed_call. by rewrite decide_True.
  - kstep. eexists. split; [reflexivity|]. split; simpl; try done.
    + apply (wf_freed st st1 a x Hw Hu); try done. right. split_and!; try done. by apply not_release_small.
    + by rewrite insert_insert_eq.
    + intros k _. unfold one. rewrite decide_False by (by apply not_release_small). rewrite Z.sub_0_r. by apply refcnt_same.
    + unfold freed_call. rewrite decide_False by lia. by rewrite app_nil_r.
Qed.

Lemma freed_use st st' a x : freed st st' a x -> forall b z, in_use st' b z <-> b <> a /\ in_use st b z.
Proof.
  clear Hbase. intros Hf b z. unfold in_use. rewrite (fr_mbs _ _ _ _ Hf). destruct (decide (b = a)) as [->|].
  - rewrite lookup_insert_eq. split; [intros [E Hz]; injection E as <-; done|tauto].
  - rewrite lookup_insert_ne by done. tauto.
Qed.

Lemma freed_kept st st' a x : freed st st' a x -> kept (fun b => b = a) st st'.
Proof.
  clear Hbase. intros Hf b z Hu Hb. split; [by apply (freed_use _ _ _ _ Hf)|]. intros _. unfold data.
  by rewrite (proj1 (fr_rest _ _ _ _ Hf)).
Qed.

(** ** Growing the pool *)

(** Page [u] belongs to nobody yet. *)
Definition vacant st (u : Z) : Prop := ~ rm_unit (mbmap st) u /\ forall k, 0 <= k < NCL -> is_cluster st k -> k / 8 <> u.
Definition no_slot st (lo hi : Z) : Prop := forall b, lo <= b < hi -> mbs st !! b = None.

Lemma wf_add_slot st st' a f : mb_wf st -> in_arena a -> (a - mbutl) mod MSIZE = 0 -> mbs st !! a = None ->
  vacant st (pageno a) -> m_type f = MT_FREE ->
  mbs st' = <[a := f]> (mbs st) -> mfree st' = a :: mfree st ->
  mbmap st' = mbmap st -> mclfree st' = mclfree st -> mclrefcnt st' = mclrefcnt st -> mb_wf st'.
Proof.
  clear Hbase. intros Hw Har Hal Hn [Hv1 Hv2] Hf Em Efl Ep Ec Er. destruct (b_free _ Hw) as [Hnd Hfr], (b_cl _ Hw) as [Hc1 Hc2].
  assert (forall b z, mbs st' !! b = Some z -> b = a /\ z = f \/ b <> a /\ mbs st !! b = Some z) as Hlook.
  { intros b z. rewrite Em. destruct (decide (b = a)) as [->|]; [rewrite lookup_insert_eq; naive_solver|].
    rewrite lookup_insert_ne by done. auto. }
  assert (forall k, is_cluster st' k <-> is_cluster st k) as Hic.
  { intros k. unfold is_cluster. by rewrite Ec, (refcnt_same _ _ _ Er). }
  split.
  - rewrite Ep. apply Hw.
  - rewrite Ep. apply Hw.
  - intros b z [[-> _]|[_ Hb]]%Hlook; [done|]. by apply (b_slot _ Hw b z).
  - rewrite Efl. split.
    + constructor; [|done]. intros (z & Hz & _)%Hfr. by rewrite Hn in Hz.
    + intros b. rewrite elem_of_cons, Hfr, Em. destruct (decide (b = a)) as [->|].
      * rewrite lookup_insert_eq. naive_solver.
      * rewrite lookup_insert_ne by done. naive_solver.
  - intros b z [Hb Ht]. destruct (Hlook b z Hb) as [[-> ->]|[_ Hz]]; [done|]. by apply (b_use _ Hw b z).
  - rewrite Ec. split; [done|]. intros c (k & Hk)%Hc2. exists k. by rewrite (refcnt_same _ _ _ Er).
  - rewrite Er. apply Hw.
  - intros k Hk. rewrite (refcnt_same _ _ _ Er), (refs_new st st' a f k Hn Em); [by apply Hw|]. intros [Hp _]. by apply Hp.
  - intros b z k Hb Hk Hcl%Hic. destruct (Hlook b z Hb) as [[-> _]|[_ Hz]]; [|by apply (b_sep _ Hw b z)].
    intros E. symmetry in E. by apply (Hv2 k Hk Hcl).
  - rewrite Ep. intros u Hu. destruct (b_page _ Hw u Hu) as [H1 H2]. split.
    + intros b z [[-> _]|[_ Hz]]%Hlook; [by intros <-|eauto].
    + intros k Hk Hcl%Hic. eauto.
Qed.

Lemma wf_add_cluster st st' k0 : mb_wf st -> 0 <= k0 < NCL -> ~ is_cluster st k0 ->
  ~ rm_unit (mbmap st) (k0 / 8) -> (forall a x, mbs st !! a = Some x -> pageno a <> k0 / 8) ->
  mbs st' = mbs st -> mfree st' = mfree st -> mbmap st' = mbmap st ->
  mclfree st' = cladr k0 :: mclfree st -> mclrefcnt st' = mclrefcnt st -> mb_wf st'.
Proof.
  clear Hbase. intros Hw Hk0 Hnc Hnu Hns Em Efl Ep Ec Er. destruct (b_cl _ Hw) as [Hc1 Hc2].
  assert (forall k, is_cluster st' k -> k = k0 \/ is_cluster st k) as Hic.
  { intros k. unfold is_cluster. rewrite Ec, (refcnt_same _ _ _ Er), elem_of_cons.
    intros [[->%cladr_inj|]|]; auto. }
  assert (forall b z, in_use st' b z <-> in_use st b z) as Hu by (intros; unfold in_use; by rewrite Em).
  split; rewrite ?Em, ?Efl, ?Ep.
  1-4: apply Hw.
  - intros b z Hz%Hu. by apply (b_use _ Hw).
  - rewrite Ec. split.
    + constructor; [|done]. intros Hin. apply Hnc. by left.
    + intros c. rewrite elem_of_cons. intros [->|(k & Hk)%Hc2]; [exists k0|exists k]; rewrite (refcnt_same _ _ _ Er); [|done].
      split_and!; try done; try lia. pose proof (b_ref _ Hw k0 Hk0). unfold is_cluster in Hnc. lia.
  - rewrite Er. apply Hw.
  - intros k Hk. rewrite (refcnt_same _ _ _ Er). unfold refs. rewrite Em. by apply (b_ref _ Hw).
  - intros b z k Hb Hk [->|Hcl]%Hic; [eauto|]. by apply (b_sep _ Hw b z).
  - intros u Hu'. destruct (b_page _ Hw u Hu') as [H1 H2]. split; [done|].
    intros k Hk [->|Hcl]%Hic; [by intros <-|eauto].
Qed.

(** What growth leaves alone. *)
Definition grown st st' : Prop := core st' = core st /\ heap st' = heap st /\ mb_events st' = mb_events st /\
  mclrefcnt st' = mclrefcnt st /\ (forall a x, in_use st' a x <-> in_use st a x).

Lemma grown_trans st1 st2 st3 : grown st1 st2 -> grown st2 st3 -> grown st1 st3.
Proof.
  intros (A1&A2&A3&A4&A5) (B1&B2&B3&B4&B5). split_and!; try congruence. intros a x. by rewrite B5, A5.
Qed.

Lemma grown_quiet st st' : grown st st' -> mclfree st' = mclfree st -> quiet st st'.
Proof. intros (A1&A2&A3&A4&A5) E. split_and!; try done. intros a x. apply A5. Qed.

Lemma mb_loop_spec i : forall m st, mb_wf st -> (m - mbutl) mod MSIZE = 0 -> mbutl <= m ->
  m + Z.of_nat i * MSIZE <= mbutl + NMBCLUSTERS * NBPG -> no_slot st m (m + Z.of_nat i * MSIZE) ->
  (forall b, m <= b < m + Z.of_nat i * MSIZE -> vacant st (pageno b)) ->
  exists st', mb_loop mbutl i m st = Ok st' /\ mb_wf st' /\ grown st st' /\ mbmap st' = mbmap st /\
    mclfree st' = mclfree st /\ length (mfree st') = (i + length (mfree st))%nat.
Proof.
  induction i as [|i IH]; intros m st Hw Hal Hlo Hhi Hns Hv; [exists st; by split_and!|].
  cbn [mb_loop]. unfold MFREE at 1. set (x0 := set_type (set_off (raw_header (core st) m) 0) MT_DATA). set (st1 := put_mb m x0 st).
  rewrite (get_mb_Ok _ m x0) by (simpl; apply lookup_insert_eq). kstep.
  change (m_type x0 =? MT_FREE) with false. cbn iota. change (MSIZE <? m_off (set_type x0 MT_FREE)) with false. cbn iota. kstep.
  set (st2 := count_free 1 0 _).
  assert (mbs st !! m = None) as Hn by (apply Hns; unfold MSIZE; lia).
  assert (mbs st2 = <[m := set_act (set_off (set_type x0 MT_FREE) 0) 0]> (mbs st)) as Em.
  { unfold st2, st1. simpl. by rewrite !insert_insert_eq. }
  assert (mb_wf st2) as Hw2.
  { apply (wf_add_slot st st2 m (set_act (set_off (set_type x0 MT_FREE) 0) 0) Hw) ; try done; [|apply Hv; unfold MSIZE; lia]. unfold in_arena. unfold MSIZE in *. lia. }
  assert (grown st st2) as Hg.
  { split_and!; try done. intros b z. unfold in_use. rewrite Em. destruct (decide (b = m)) as [->|].
    - rewrite lookup_insert_eq, Hn. split; [intros [E Hz]; by injection E as <-|intros [E _]; done].
    - by rewrite lookup_insert_ne. }
  destruct (IH (m + MSIZE) st2 Hw2) as (st' & Hr & Hw' & Hg' & Ep & Ec & El).
  - unfold MSIZE in *. clear -Hal. Z.to_euclidean_division_equations. lia.
  - unfold MSIZE. lia.
  - unfold MSIZE in *. lia.
  - intros b Hb. rewrite Em, lookup_insert_ne by (unfold MSIZE in *; lia). apply Hns. unfold MSIZE in *. lia.
  - intros b Hb. apply Hv. unfold MSIZE in *. lia.
  - exists st'. split_and!; try done; [by eapply grown_trans|]. rewrite El. simpl. lia.
Qed.

Lemma cl_loop_spec i : forall k st, mb_wf st -> 0 <= k -> k + Z.of_nat i <= NCL ->
  (forall j, k <= j < k + Z.of_nat i -> ~ is_cluster st j /\ ~ rm_unit (mbmap st) (j / 8) /\
     forall a x, mbs st !! a = Some x -> pageno a <> j / 8) ->
  let st' := cl_loop i (cladr k) st in
  mb_wf st' /\ grown st st' /\ mbmap st' = mbmap st /\ length (mclfree st') = (i + length (mclfree st))%nat /\
  mfree st' = mfree st.
Proof.
  induction i as [|i IH]; intros k st Hw Hk Hhi Hv; [by split_and!|]. intros st'.
  set (st1 := count_free 0 1 (set_mcl st (cladr k :: mclfree st) (mclrefcnt st))).
  assert (st' = cl_loop i (cladr k + MCLBYTES) st1) as Est by done. clearbody st'.
  destruct (Hv k ltac:(lia)) as (V1 & V2 & V3).
  assert (mb_wf st1) as Hw1 by (eapply (wf_add_cluster st st1 k); try done; lia).
  destruct (IH (k + 1) st1 Hw1) as (Hw' & Hg & Ep & El & Ef); [lia|lia| |].
  - intros j Hj. destruct (Hv j ltac:(lia)) as (W1 & W2 & W3). split_and!; [|done|done].
    intros [Hin|Hpos]; [|apply W1; by right]. simpl in Hin. apply elem_of_cons in Hin as [E%cladr_inj|Hin]; [lia|].
    apply W1. by left.
  - replace (cladr (k + 1)) with (cladr k + MCLBYTES) in * by (unfold cladr; lia).
    rewrite <- Est in *.
    split_and!; try done. rewrite El. simpl. lia.
Qed.

(** The counters do not matter. *)
Lemma wf_same st st' : mb_wf st -> mbs st' = mbs st -> mfree st' = mfree st -> mclfree st' = mclfree st ->
  mclrefcnt st' = mclrefcnt st -> mbmap st' = mbmap st -> mb_wf st'.
Proof.
  clear Hbase. intros Hw E1 E2 E3 E4 E5. assert (forall k, refcnt st' k = refcnt st k) as Hr by (intros; by apply refcnt_same).
  assert (forall a x, in_use st' a x <-> in_use st a x) as Hu by (intros; unfold in_use; by rewrite E1).
  split; rewrite ?E1, ?E2, ?E3, ?E4, ?E5; try apply Hw.
  - intros a x Hx%Hu. by apply (b_use _ Hw).
  - destruct (b_cl _ Hw) as [H1 H2]. split; [done|]. intros c (k & Hk)%H2. exists k. by rewrite Hr.
  - intros k Hk. rewrite Hr. unfold refs. rewrite E1. by apply (b_ref _ Hw).
  - intros a x k Ha Hk Hc. apply (b_sep _ Hw a x k Ha Hk). unfold is_cluster in *. by rewrite <- E3, <- Hr.
  - intros u Hu'. destruct (b_page _ Hw u Hu') as [P1 P2]. split; [done|]. intros k Hk Hc. apply P2; [done|].
    unfold is_cluster in *. by rewrite <- E3, <- Hr.
Qed.

(** Pages that leave the map belong to nobody. *)
Lemma wf_mbmap st m' : mb_wf st -> rm_inv m' -> (forall u, rm_unit m' u -> rm_unit (mbmap st) u) -> mb_wf (set_mbmap st m').
Proof.
  clear Hbase. intros Hw Hi Hu. split; try (by apply Hw).
  - done.
  - intros u Hu'. by apply (b_unit _ Hw), Hu.
  - intros u Hu'. by apply (b_page _ Hw), Hu.
Qed.

Definition unclaimed st (u : Z) : Prop := 0 < u < NMBCLUSTERS /\ vacant st u /\ forall a x, mbs st !! a = Some x -> pageno a <> u.

Lemma take_pages st n : mb_wf st -> 0 < n -> exists a m', rm_alloc (mbmap st) n = Ok (a, m') /\
  mb_wf (set_mbmap st m') /\ (forall u, rm_unit m' u -> rm_unit (mbmap st) u) /\
  (a = 0 /\ m' = mbmap st \/ 0 < a /\ (forall u, a <= u < a + n -> unclaimed (set_mbmap st m') u /\ rm_unit (mbmap st) u)).
Proof.
  clear Hbase. intros Hw Hn. destruct (rm_alloc_spec (mbmap st) n (b_map _ Hw) Hn) as (a & m' & Hr & Hi & Hc).
  assert (forall u, rm_unit m' u -> rm_unit (mbmap st) u) as Hsub.
  { intros u Hu. destruct Hc as [[_ ->]|(_ & _ & Hc)]; [done|]. by apply Hc. }
  exists a, m'. split; [done|]. split; [by apply wf_mbmap|]. split; [done|].
  destruct Hc as [Hc|(Ha & H1 & H2)]; [by left|]. right. split; [done|]. intros u Hu. specialize (H1 u Hu).
  destruct (b_page _ Hw u H1) as [P1 P2]. split; [|done]. split; [|split; [split|]; try done].
  - split; [exact (rm_unit_pos _ _ (b_map _ Hw) H1)|by apply (b_unit _ Hw)].
  - intros Hu'. by apply (H2 u Hu').
Qed.

Lemma btoc_pages n : 1 <= n <= NCL -> let npg := btoc (n * MCLBYTES) in 0 < npg /\ btomcl (npg * NBPG) = 8 * npg.
Proof.
  clear Hbase. intros Hn npg. assert (1 <= n <= 2048) as Hn2 by done.
  assert (npg = (n * 1024 + 8191) / 8192) as ->.
  { unfold npg, btoc, MCLBYTES, NBPG. rewrite wrapu_small by lia. by rewrite Z.shiftr_div_pow2 by lia. }
  unfold btomcl, MCLBYTES, NBPG. clear -Hn2. Z.to_euclidean_division_equations. lia.
Qed.

(** The pages from [a] on, as addresses and as clusters. *)
Lemma pages_addr st a npg b : (forall u, a <= u < a + npg -> unclaimed st u) ->
  mbutl + a * NBPG <= b < mbutl + (a + npg) * NBPG -> vacant st (pageno b) /\ mbs st !! b = None.
Proof.
  clear Hbase. intros Hu Hb. assert (a <= pageno b < a + npg) as Hp.
  { unfold pageno, NBPG in *. Z.to_euclidean_division_equations. lia. }
  destruct (Hu _ Hp) as (_ & Hv & Hs). split; [done|]. destruct (mbs st !! b) as [x|] eqn:E; [|done]. by destruct (Hs b x E).
Qed.

Lemma pages_cl st a npg j : (forall u, a <= u < a + npg -> unclaimed st u) -> 0 <= a -> a * 8 <= j < (a + npg) * 8 ->
  0 <= j < NCL /\ ~ is_cluster st j /\ ~ rm_unit (mbmap st) (j / 8) /\ (forall b x, mbs st !! b = Some x -> pageno b <> j / 8).
Proof.
  clear Hbase. intros Hu Ha Hj. destruct (Hu (j / 8)) as (Hr & [Hv1 Hv2] & Hs). { Z.to_euclidean_division_equations. lia. }
  assert (0 <= j < NCL) as Hjr.
  { unfold NCL, NMBCLUSTERS, NBPG, MCLBYTES in *. change (256 * 8192 / 1024) with 2048. Z.to_euclidean_division_equations. lia. }
  split_and!; try done; try lia. intros Hc. by apply (Hv2 j Hjr Hc).
Qed.

Context (memall : Z -> Z -> bool).

(** The two uses of m_clalloc: mbufs, and clusters. *)
Lemma m_clalloc_spec n how st : mb_wf st -> 1 <= n <= NCL -> how = MPG_MBUFS \/ how = MPG_CLUSTERS ->
  exists r st', m_clalloc mbutl memall n how st = Ok (r, st') /\ mb_wf st' /\ grown st st' /\
    (how = MPG_MBUFS -> mclfree st' = mclfree st /\ (r <> None -> mfree st' <> [])) /\
    (how = MPG_CLUSTERS -> mfree st' = mfree st /\ (r <> None -> mclfree st' <> [])).
Proof.
  intros Hw Hn Hhow. destruct (btoc_pages n Hn) as [Hp Hcl]. unfold m_clalloc. rewrite Hcl. set (npg := btoc _) in *.
  destruct (take_pages st npg Hw Hp) as (a & m' & -> & Hw' & Hsub & Hc). kstep.
  destruct Hc as [[-> ->]|[Ha Hu]]; [by exists None, (set_mbmap st (mbmap st)); split_and!|].
  rewrite (proj2 (Z.eqb_neq a 0)) by lia. destruct (memall a npg); cbn [negb].
  2:{ destruct (rm_release_spec m' npg a (b_map _ Hw') Hp Ha) as (m2 & -> & Hi2 & Hu2).
      { intros u Hu' Hu3. by apply (Hu u Hu'). }
      kstep. eexists None, _. split; [reflexivity|]. split_and!; try done. apply wf_mbmap; [done|done|].
      intros u [Hu'|Hu']%Hu2; [by apply Hsub|by apply Hu]. }
  set (st1 := set_mbmap st m') in *. rewrite Z.shiftl_mul_pow2 by (unfold CLSHIFT; lia).
  change (2 ^ CLSHIFT) with NBPG. set (m := mbutl + a * NBPG).
  assert (forall u, a <= u < a + npg -> unclaimed st1 u) as Hu1 by (intros u Hr; by apply Hu).
  assert (a + npg <= NMBCLUSTERS) as Hmax by (destruct (Hu1 (a + npg - 1) ltac:(lia)) as [Hr _]; lia).
  destruct Hhow as [-> | ->]; [change (MPG_MBUFS =? MPG_CLUSTERS) with false; change (MPG_MBUFS =? MPG_MBUFS) with true
                              |change (MPG_CLUSTERS =? MPG_CLUSTERS) with true]; cbn iota.
  - replace (8 * npg * MCLBYTES / MSIZE) with (64 * npg).
    2:{ unfold MCLBYTES, MSIZE. Z.to_euclidean_division_equations. lia. }
    assert (Z.of_nat (Z.to_nat (64 * npg)) * MSIZE = npg * NBPG) as Hsz by (rewrite Z2Nat.id by lia; unfold MSIZE, NBPG; lia).
    destruct (mb_loop_spec (Z.to_nat (64 * npg)) m st1) as (st' & -> & Hw2 & Hg & _ & Ec & El); rewrite ?Hsz; try done.
    + unfold m, NBPG, MSIZE. replace (mbutl + a * 8192 - mbutl) with (a * 64 * 128) by lia. by apply Z.mod_mul.
    + unfold m, NBPG. lia.
    + unfold m, NBPG in *. lia.
    + intros b Hb. apply (pages_addr st1 a npg b Hu1). unfold m, NBPG in *. lia.
    + intros b Hb. apply (pages_addr st1 a npg b Hu1). unfold m, NBPG in *. lia.
    + kstep. eexists _, st'. split; [reflexivity|]. split_and!; try done. intros _. split; [done|]. intros _ E.
      rewrite E in El. simpl in El. lia.
  - replace m with (cladr (a * 8)) by (unfold m, cladr, MCLBYTES, NBPG; lia).
    destruct (cl_loop_spec (Z.to_nat (8 * npg)) (a * 8) st1) as (Hw2 & Hg & _ & El & Ef); [done|lia| | |].
    + unfold NCL, NMBCLUSTERS, NBPG, MCLBYTES in *. change (256 * 8192 / 1024) with 2048. lia.
    + intros j Hj. apply (pages_cl st1 a npg j Hu1); lia.
    + eexists _, _. split; [reflexivity|]. set (st' := cl_loop _ _ _) in *. split_and!; try done.
      * eapply wf_same; [exact Hw2|done..].
      * intros _. split; [done|]. intros _ E. change (mclfree st' = []) in E. rewrite E in El. simpl in El. lia.
Qed.
End Thms.
