(* ===== verification/MbufOps.v ===== *)
(** * Operations on mbuf chains

    Getting and freeing mbufs, clusters, and the routines that copy, trim, join and straighten
    chains, each stated on the bytes a chain holds ([content]). *)

From S2P Require Import Prelude Rmap Mbuf MbufThms.
From stdpp Require Import prelude list numbers strings gmap.
From Stdlib Require Import ZArith Lia.

Local Open Scope Z_scope.
Local Open Scope kern_scope.

Section Ops.
Context {M H : Type} `{RM : !ResMap M}.
Context (mbutl : Z).
Hypothesis Hbase : 0 < mbutl /\ mbutl mod NBPG = 0 /\ mbutl + NMBCLUSTERS * NBPG <= 2 ^ 32.
Implicit Type st : mbst M H.

Local Notation wf := (mb_wf mbutl).
Local Notation sized := (sized mbutl).
Local Notation kept := (kept mbutl).

(** ** m_get, m_freem *)

Section Get.
Context (memall : Z -> Z -> bool).

Lemma m_more_spec t st : wf st -> t <> MT_FREE -> exists r st', m_more mbutl memall t st = Ok (r, st') /\
  wf st' /\ quiet st st' /\
  match r with Some a => newly t st st' a | None => forall b z, in_use st' b z -> in_use st b z end.
Proof.
  intros Hw Ht. unfold m_more, m_expand.
  destruct (m_clalloc_spec mbutl Hbase memall 1 MPG_MBUFS st Hw) as (r & st1 & -> & Hw1 & Hg & Hmb & _);
    [unfold NCL, NMBCLUSTERS, NBPG, MCLBYTES; split; [done|done]|by left|]. kstep.
  destruct (Hmb eq_refl) as [Ec Hne]. pose proof (grown_quiet _ _ Hg Ec) as Hq.
  destruct Hg as (_ & _ & _ & _ & Hgu). destruct r as [p|]; cbn [negb].
  - destruct (mfree st1) as [|a fl] eqn:E; [by destruct Hne|].
    destruct (MGET_take mbutl Hbase (fun _ => Panic "m_more") t a fl st1 Hw1 Ht E) as (st' & -> & Hw' & Hq' & (F1 & F2 & F3) & _).
    exists (Some a), st'. split_and!; try done; [by eapply quiet_trans|]. split_and!; [|done|].
    + intros x Hx. by apply (F1 x), Hgu.
    + intros b z [->|Hu]%F3; [by left|right]. by apply Hgu.
  - exists None, (count_new 0 0 1 st1). split_and!; try done.
    + by eapply wf_same.
    + intros b z Hu. by apply Hgu.
Qed.

(** m_get fails only when the free list is empty. *)
Lemma m_get_spec t st : wf st -> t <> MT_FREE -> exists r st', m_get mbutl memall t st = Ok (r, st') /\
  wf st' /\ quiet st st' /\
  match r with
  | Some a => newly t st st' a /\ (S (length (mfree st')) = length (mfree st) \/ mfree st = [])
  | None => mfree st = [] /\ forall b z, in_use st' b z -> in_use st b z
  end.
Proof.
  intros Hw Ht. unfold m_get. destruct (mfree st) as [|a fl] eqn:E.
  - unfold MGET. rewrite E. destruct (m_more_spec t st Hw Ht) as (r & st' & -> & Hw' & Hq & Hr).
    exists r, st'. split_and!; try done. destruct r; [split; [done|by right]|done].
  - destruct (MGET_take mbutl Hbase (m_more mbutl memall t) t a fl st Hw Ht E) as (st' & -> & Hw' & Hq & Hf & Ef).
    exists (Some a), st'. split_and!; try done. left. by rewrite Ef.
Qed.

End Get.

(** ** Chains *)

Definition chain st (m : list Z) : Prop := NoDup m /\ forall a, a ∈ m -> exists x, in_use st a x /\ sized a x.

Definition bytes st (a : Z) : list Z := match mbs st !! a with Some x => data st a x | None => [] end.
Definition content st (m : list Z) : list Z := concat (bytes st <$> m).

Lemma bytes_data st a x : in_use st a x -> bytes st a = data st a x.
Proof. intros [Ha _]. unfold bytes. by rewrite Ha. Qed.

Lemma bytes_length st a x : in_use st a x -> sized a x -> Z.of_nat (length (bytes st a)) = m_len x.
Proof. clear Hbase. intros Hu [Hs _]. rewrite (bytes_data _ _ _ Hu). apply load_length. lia. Qed.

Lemma content_app st m1 m2 : content st (m1 ++ m2) = content st m1 ++ content st m2.
Proof. unfold content. by rewrite fmap_app, concat_app. Qed.

Lemma content_cons st a m : content st (a :: m) = bytes st a ++ content st m.
Proof. done. Qed.

Lemma chain_cons st a m : chain st (a :: m) <-> a ∉ m /\ (exists x, in_use st a x /\ sized a x) /\ chain st m.
Proof.
  unfold chain. rewrite NoDup_cons. split.
  - intros [[H1 H2] H3]. split_and!; [done|apply H3; by left|done|]. intros b Hb. apply H3. by right.
  - intros (H1 & H2 & H3 & H4). split_and!; [done|done|]. intros b [->|Hb]%elem_of_cons; auto.
Qed.

Lemma chain_app st m1 m2 : chain st m1 -> chain st m2 -> (forall a, a ∈ m1 -> a ∉ m2) -> chain st (m1 ++ m2).
Proof.
  intros [H1 H2] [H3 H4] Hd. split; [by apply NoDup_app|]. intros a [Ha|Ha]%elem_of_app; auto.
Qed.

Lemma kept_chain (X : Z -> Prop) st st' m : kept X st st' -> chain st m -> (forall a, a ∈ m -> ~ X a) ->
  chain st' m /\ content st' m = content st m.
Proof.
  intros Hk [Hnd Hc] Hx. split.
  - split; [done|]. intros a Ha. destruct (Hc a Ha) as (x & Hu & Hs). exists x. split; [|done]. by apply (Hk a x Hu), Hx.
  - unfold content. f_equal. apply list_fmap_ext. intros i a Ha%list_elem_of_lookup_2.
    destruct (Hc a Ha) as (x & Hu & Hs). destruct (Hk a x Hu (Hx a Ha)) as [Hu' Hd].
    rewrite (bytes_data _ _ _ Hu), (bytes_data _ _ _ Hu'). by apply Hd.
Qed.

(** How many of [m] hold, and give back, cluster [k]; the free routines they call. *)
Definition held st (k : Z) (m : list Z) : nat :=
  sum_list ((fun a => match mbs st !! a with Some x => one (releases mbutl k a x) | None => O end) <$> m).
Definition calls st (m : list Z) : list mbevent :=
  concat ((fun a => match mbs st !! a with Some x => freed_call x | None => [] end) <$> m).

Lemma held_ext st st' k m : (forall a, a ∈ m -> mbs st' !! a = mbs st !! a) -> held st' k m = held st k m /\ calls st' m = calls st m.
Proof.
  clear Hbase. intros He. unfold held, calls. split; f_equal; apply list_fmap_ext; intros i a Ha%list_elem_of_lookup_2; by rewrite He.
Qed.

Lemma held_cons st k a x m : mbs st !! a = Some x -> held st k (a :: m) = (one (releases mbutl k a x) + held st k m)%nat.
Proof. clear Hbase. intros Ha. unfold held. simpl. by rewrite Ha. Qed.

(** Freeing a chain of mbufs in use gives each back once. *)
Lemma m_freem_spec m : forall st, wf st -> NoDup m -> (forall a, a ∈ m -> exists x, in_use st a x) ->
  exists st', m_freem mbutl m st = Ok st' /\ wf st' /\ core st' = core st /\
    (forall a x, in_use st' a x <-> a ∉ m /\ in_use st a x) /\
    mfree st' = reverse m ++ mfree st /\ mb_events st' = mb_events st ++ calls st m /\
    (forall k, 0 <= k -> refcnt st' k = refcnt st k - Z.of_nat (held st k m)) /\
    (forall k, 0 <= k -> is_cluster mbutl st k -> is_cluster mbutl st' k).
Proof.
  induction m as [|a m IH]; intros st Hw Hnd Hc.
  - exists st. split_and!; try done.
    + intros b z. rewrite elem_of_nil. tauto.
    + by rewrite app_nil_r.
    + intros k _. change (held st k []) with O. lia.
  - apply NoDup_cons in Hnd as [Hna Hnd]. destruct (Hc a ltac:(by left)) as (x & Hu). cbn [m_freem].
    destruct (MFREE_spec mbutl Hbase st a x Hw Hu) as (st1 & -> & Hf). kstep.
    destruct (IH st1 (fr_wf _ _ _ _ _ Hf) Hnd) as (st' & -> & Hw' & Hco & Hus & Hfl & Hev & Hre & Hcl).
    { intros b Hb. destruct (Hc b ltac:(by right)) as (y & Hy). exists y. apply (freed_use _ _ _ _ _ Hf). split; [by intros ->|done]. }
    destruct (held_ext st st1 0 m) as [_ Hcalls].
    { intros b Hb. rewrite (fr_mbs _ _ _ _ _ Hf). apply lookup_insert_ne. by intros ->. }
    exists st'. split_and!; [done|done|..].
    + rewrite Hco. apply (fr_rest _ _ _ _ _ Hf).
    + intros b z. rewrite Hus, (freed_use _ _ _ _ _ Hf b z), not_elem_of_cons. tauto.
    + by rewrite Hfl, (fr_list _ _ _ _ _ Hf), reverse_cons, <- app_assoc.
    + rewrite Hev, (fr_calls _ _ _ _ _ Hf), Hcalls, <- app_assoc. unfold calls at 2. simpl. by rewrite (proj1 Hu).
    + intros k Hk. rewrite Hre, (fr_ref _ _ _ _ _ Hf) by done.
      rewrite (proj1 (held_ext st st1 k m ltac:(intros b Hb; rewrite (fr_mbs _ _ _ _ _ Hf); apply lookup_insert_ne; by intros ->))).
      rewrite (held_cons st k a x m (proj1 Hu)). lia.
    + intros k Hk Hk'. apply Hcl; [done|]. by apply (fr_cl _ _ _ _ _ Hf).
Qed.

(** m_freem returns each mbuf of a chain to the free list once, and nothing else; each cluster
    loses exactly the references the chain gave back and goes on the cluster free list exactly
    when none is left; the free routine of each funny mbuf is called once, in order.  A cluster
    mbuf gives its reference back only if [m_off > MSIZE]. *)
Theorem m_freem_sound m st : wf st -> NoDup m -> (forall a, a ∈ m -> exists x, in_use st a x) ->
  exists st', m_freem mbutl m st = Ok st' /\ wf st' /\ core st' = core st /\
    mfree st' = reverse m ++ mfree st /\ (forall a x, in_use st' a x <-> a ∉ m /\ in_use st a x) /\
    mb_events st' = mb_events st ++ calls st m /\
    (forall k, 0 <= k < NCL -> is_cluster mbutl st k -> refcnt st' k = refcnt st k - Z.of_nat (held st k m) /\
       (cladr mbutl k ∈ mclfree st' <-> refcnt st' k = 0)).
Proof.
  intros Hw Hnd Hc. destruct (m_freem_spec m st Hw Hnd Hc) as (st' & Hr & Hw' & Hco & Hus & Hfl & Hev & Hre & Hcl).
  exists st'. split_and!; try done. intros k Hk Hisc. split; [apply Hre; lia|].
  destruct (Hcl k ltac:(lia) Hisc) as [Hin|Hpos]; (split; [|intros E; try done; lia]).
  - intros _. destruct (proj2 (b_cl _ _ Hw') _ Hin) as (j & _ & E%cladr_inj & E0). by subst j.
  - intros Hin. destruct (proj2 (b_cl _ _ Hw') _ Hin) as (j & _ & E%cladr_inj & E0). subst j. lia.
Qed.

Lemma m_freem_kept (m : list Z) st st' : core st' = core st -> (forall a x, in_use st' a x <-> a ∉ m /\ in_use st a x) ->
  kept (fun a => a ∈ m) st st'.
Proof. clear Hbase. intros Hc Hu a x Ha Hm. split; [by apply Hu|]. intros _. unfold data. by rewrite Hc. Qed.

(** ** One mbuf *)

Lemma bcopy_Ok src dst n st : 0 <= n -> bcopy src dst n st = Ok (set_core st (store (core st) dst (load (core st) src n))).
Proof. clear Hbase. intros Hn. unfold bcopy. by rewrite (proj2 (Z.ltb_ge _ _)) by lia. Qed.

Definition only (n : Z) : Z -> Prop := fun b => b = n.

(** Writing inside mbuf [n]. *)
Lemma store_inline st n y p bs : wf st -> mbs st !! n = Some y -> n <= p -> p + Z.of_nat (length bs) <= n + MSIZE ->
  wf (set_core st (store (core st) p bs)) /\ kept (only n) st (set_core st (store (core st) p bs)).
Proof.
  intros Hw Hn Hp Hpn. split; [by eapply wf_same|]. intros b z Hu Hb. split; [done|]. intros Hs. unfold data. simpl.
  apply load_store_other. destruct (inline_apart mbutl Hbase st n y b z p (Z.of_nat (length bs)) Hw Hn Hu Hs) as [?|?];
    [by intros -> |lia..|lia|lia].
Qed.

(** A new header for [n], of the same type, that refers to no other cluster. *)
Lemma put_header st n y y' : wf st -> in_use st n y ->
  inline y' \/ (clustered n y' /\ in_arena mbutl (mtod n y')) \/ funny y' ->
  (forall k, points mbutl k (n, y') -> points mbutl k (n, y)) -> m_type y' = m_type y ->
  wf (put_mb n y' st) /\ kept (only n) st (put_mb n y' st) /\ in_use (put_mb n y' st) n y' /\
  (forall b z, b <> n -> in_use (put_mb n y' st) b z <-> in_use st b z).
Proof.
  intros Hw [Hn Ht] Hi Hpt Hty. destruct (b_free _ _ Hw) as [Hnd Hfr]. split_and!.
  - eapply (wf_header mbutl Hbase st _ n y y' Hw Hn); simpl; try done.
    intros b. split; [|by intros [[_ Hb]|[_ E]]; [|congruence]]. intros Hb. left. split; [|done]. intros ->.
    apply Hfr in Hb as (z & Hz & ?). rewrite Hn in Hz. naive_solver.
  - intros b z [Hb Hz] Hne. unfold in_use. simpl. rewrite lookup_insert_ne by (intros ->; by apply Hne). by split.
  - split; [apply lookup_insert_eq|by rewrite Hty].
  - intros b z Hne. unfold in_use. simpl. by rewrite lookup_insert_ne.
Qed.

Lemma put_inline st n y y' : wf st -> in_use st n y -> inline y' -> m_type y' = m_type y ->
  wf (put_mb n y' st) /\ kept (only n) st (put_mb n y' st) /\ in_use (put_mb n y' st) n y' /\
  (forall b z, in_use (put_mb n y' st) b z -> b = n \/ in_use st b z).
Proof.
  intros Hw Hu Hi Hty. destruct (put_header st n y y' Hw Hu) as (H1 & H2 & H3 & H4); [by left| |done|].
  - intros k Hp. by apply inline_points in Hp.
  - split_and!; try done; try apply H3. intros b z Hb. destruct (decide (b = n)); [by left|right]. by apply H4.
Qed.

(** An offset that points into a cluster does so whatever the mbuf. *)
Lemma point_to n k P : in_arena mbutl n -> (n - mbutl) mod MSIZE = 0 -> 0 <= k < NCL -> pageno mbutl n <> k / 8 ->
  cladr mbutl k <= P < cladr mbutl k + MCLBYTES ->
  MSIZE <= wrapu 32 (P - n) < 2 ^ 32 /\ wrapu 32 (n + wrapu 32 (P - n)) = P /\ wrapu 32 P = P.
Proof.
  intros Har Hal Hk Hpg HP. destruct (cluster_off_page mbutl k n Hk Har Hal Hpg) as [Hd|Hd].
  all: pose proof (slot_bounds mbutl n Har Hal) as (B1 & B2 & B3).
  all: assert (0 <= P < 2 ^ 32) as HP32 by
    (unfold cladr, NCL, NMBCLUSTERS, NBPG, MCLBYTES in *; change (256 * 8192 / 1024) with 2048 in *; lia).
  all: assert (0 <= n <= 2 ^ 32 - MSIZE) as Hn32 by (unfold in_arena, MSIZE, NMBCLUSTERS, NBPG in *; lia).
  all: rewrite wrapu_add; replace (n + (P - n)) with P by lia; rewrite (wrapu_small 32 P) by lia; split; [|done].
  - assert (wrapu 32 (P - n) = P - n + 2 ^ 32) as ->.
    { unfold wrapu. rewrite <- (Z.mod_add _ 1), Z.mod_small by (unfold MSIZE in *; lia). lia. }
    unfold MSIZE in *. lia.
  - rewrite wrapu_small by (unfold MSIZE in *; lia). unfold MSIZE in *. lia.
Qed.

(** ** Sharing a cluster *)

(** [n] takes a reference to the cluster [k], pointing at [P]. *)
Lemma wf_point st st' n y y' k P : wf st -> in_use st n y -> inline y -> m_type y' = m_type y ->
  0 <= k < NCL -> 0 < refcnt st k < 127 \/ cladr mbutl k ∈ mclfree st -> cladr mbutl k <= P < cladr mbutl k + MCLBYTES ->
  m_off y' = wrapu 32 (P - n) -> m_cltype y' = 1 ->
  mbs st' = <[n := y']> (mbs st) -> mfree st' = mfree st -> mbmap st' = mbmap st ->
  mclrefcnt st' = <[Z.to_nat k := refcnt st k + 1]> (mclrefcnt st) ->
  mclfree st' = (if decide (refcnt st k = 0) then tail (mclfree st) else mclfree st) ->
  (refcnt st k = 0 -> exists fl, mclfree st = cladr mbutl k :: fl) ->
  wf st' /\ clustered n y' /\ mtod n y' = P /\ clx mbutl n y' = k.
Proof.
  intros Hw [Hn Ht] Hi Hty Hk Hcl HP Hoff Hct Em Efl Ep Er Ec Hhd.
  destruct (b_free _ _ Hw) as [Hnd Hfr], (b_cl _ _ Hw) as [Hc1 Hc2], (b_slot _ _ Hw n y Hn) as [S1 S2].
  assert (is_cluster mbutl st k) as Hisc by (destruct Hcl as [Hr|]; [right; lia|by left]).
  destruct (point_to n k P S1 S2 Hk (b_sep _ _ Hw n y k Hn Hk Hisc) HP) as (O1 & O2 & O3).
  assert (mtod n y' = P) as Hm by (unfold mtod; by rewrite Hoff).
  assert (clx mbutl n y' = k) as Hx by (apply clx_unique; by rewrite Hm).
  assert (clustered n y') as Hc by (split; [by rewrite Hoff|done]).
  split; [|done].
  assert (0 <= refcnt st k < 127) as Hrk.
  { destruct Hcl as [Hr|Hin]; [lia|]. destruct (Hc2 _ Hin) as (k' & _ & E%cladr_inj & E0). subst k'. lia. }
  assert (forall j, 0 <= j -> refcnt st' j = if decide (j = k) then refcnt st k + 1 else refcnt st j) as Hrc.
  { intros j Hj. by apply (refcnt_insert mbutl st st' k). }
  apply (wf_change mbutl Hbase st st' n y y' Hw Hn Em Ep).
  - by rewrite Efl.
  - intros b. rewrite Efl. split; [|intros [[_ ?]|[_ E]]; congruence]. intros Hb. left. split; [|done]. intros ->.
    apply Hfr in Hb as (z & Hz & ?). rewrite Hn in Hz. naive_solver.
  - intros _. right. left. split; [done|]. rewrite Hm. clear -HP Hk. unfold in_arena, cladr, NCL, NMBCLUSTERS, NBPG, MCLBYTES in *.
    change (256 * 8192 / 1024) with 2048 in *. lia.
  - rewrite Ec. destruct (decide _); [|done]. destruct Hhd as (fl & E); [done|]. rewrite E in Hc1 |- *. by apply NoDup_cons in Hc1 as [_ ?].
  - intros c Hin. assert (c ∈ mclfree st /\ c <> cladr mbutl k) as [Hin' Hne].
    { rewrite Ec in Hin. destruct (decide _) as [E0|E0].
      - destruct (Hhd E0) as (fl & E). rewrite E in Hin, Hc1 |- *. simpl in Hin. apply NoDup_cons in Hc1 as [Hno _].
        split; [by right|]. by intros ->.
      - split; [done|]. intros ->. destruct (Hc2 _ Hin) as (k' & _ & E%cladr_inj & E1). subst k'. lia. }
    destruct (Hc2 _ Hin') as (k' & Hk' & -> & E1). exists k'. split_and!; try lia. rewrite Hrc by lia.
    rewrite decide_False; [done|]. by intros ->.
  - rewrite Er, length_insert. apply Hw.
  - intros j Hj. rewrite Hrc by lia. pose proof (clrefs_insert mbutl st st' n y y' j Hn Em) as Hre. pose proof (b_ref _ _ Hw j Hj).
    unfold one in Hre. rewrite (decide_False (P := points mbutl j (n, y))) in Hre by (by apply inline_points).
    destruct (decide (j = k)) as [->|Hne]; [destruct (decide (points mbutl k (n, y'))); lia|]. rewrite decide_False in Hre; [lia|].
    intros (_ & _ & E). simpl in E. congruence.
  - intros j Hj [Hin|Hpos].
    + left. rewrite Ec in Hin. destruct (decide _) as [E0|E0]; [|done]. destruct (Hhd E0) as (fl & E). rewrite E in Hin |- *. by right.
    + rewrite Hrc in Hpos by lia. destruct (decide (j = k)) as [->|]; [done|by right].
Qed.

Section Mclget.
Context (memall : Z -> Z -> bool).

Lemma mclget_take st a x p fl : wf st -> in_use st a x -> inline x -> mclfree st = p :: fl ->
  exists x' st', mclget mbutl memall a st = Ok (true, st') /\ wf st' /\ core st' = core st /\ mbs st' = <[a := x']> (mbs st) /\
    m_type x' = m_type x /\ sized a x' /\ clustered a x' /\ m_len x' = MCLBYTES /\ mtod a x' = cladr mbutl (clx mbutl a x') /\
    refcnt st (clx mbutl a x') = 0 /\ refcnt st' (clx mbutl a x') = 1 /\ 0 <= clx mbutl a x' < NCL.
Proof.
  intros Hw Hu Hi E. destruct (b_cl _ _ Hw) as [_ Hc2]. destruct (Hc2 p) as (k & Hk & -> & E0). { rewrite E. by left. }
  unfold mclget. rewrite E. kstep. rewrite E, (mtoclx_cladr mbutl k), (get_ref_Ok mbutl st k Hw Hk) by lia. kstep.
  rewrite (wr_ref_Ok mbutl st k _ Hw Hk). kstep. rewrite (get_mb_Ok _ _ _ (proj1 Hu)). kstep. rewrite E0.
  change (wraps 8 (0 + 1)) with 1. eexists _, _. split; [reflexivity|]. set (y := set_cl _ _ _ _ _). set (st' := put_mb a y _).
  destruct (wf_point st st' a x y k (cladr mbutl k) Hw Hu Hi) as (Hw' & Hc & Hm & Hx); try done.
  - right. rewrite E. by left.
  - unfold MCLBYTES. lia.
  - by rewrite E0.
  - rewrite decide_True, E by done. done.
  - by exists fl.
  - rewrite Hx. split_and!; try done; try apply Hc; try lia.
    + split; [done|]. right. left. split; [done|]. fold y. rewrite Hx, Hm. change (m_len y) with MCLBYTES. lia.
    + rewrite (refcnt_insert mbutl st st' k 1) by (done || lia). by rewrite decide_True.
Qed.

(** mclget gives an mbuf a cluster that no other mbuf refers to, with one reference and
    [m_len] the whole cluster; it fails only when no cluster is free and the pool cannot grow,
    and then changes no mbuf.  Other mbufs keep their data. *)
Theorem mclget_sound a x st : wf st -> in_use st a x -> inline x ->
  exists ok st', mclget mbutl memall a st = Ok (ok, st') /\ wf st' /\ kept (only a) st st' /\
    (ok = false /\ mclfree st = [] /\ (forall b z, in_use st' b z <-> in_use st b z) \/
     ok = true /\ exists x', in_use st' a x' /\ sized a x' /\ clustered a x' /\ m_len x' = MCLBYTES /\
       mtod a x' = cladr mbutl (clx mbutl a x') /\ refcnt st' (clx mbutl a x') = 1 /\
       forall b z, b <> a -> in_use st' b z -> clustered b z -> clx mbutl b z <> clx mbutl a x').
Proof.
  intros Hw Hu Hi.
  assert (forall st1 p fl, wf st1 -> kept (only a) st st1 -> in_use st1 a x -> mclfree st1 = p :: fl ->
    exists st', mclget mbutl memall a st1 = Ok (true, st') /\ wf st' /\ kept (only a) st st' /\
     exists x', in_use st' a x' /\ sized a x' /\ clustered a x' /\ m_len x' = MCLBYTES /\
       mtod a x' = cladr mbutl (clx mbutl a x') /\ refcnt st' (clx mbutl a x') = 1 /\
       forall b z, b <> a -> in_use st' b z -> clustered b z -> clx mbutl b z <> clx mbutl a x') as Hgo.
  { intros st1 p fl Hw1 Hk1 Hu1 E. destruct (mclget_take st1 a x p fl Hw1 Hu1 Hi E)
      as (x' & st' & -> & Hw' & Eco & Em & Hty & Hs & Hc & Hl & Hm & R0 & R1 & Rk).
    exists st'. split; [done|]. split; [done|]. split.
    - apply (mbkept_trans mbutl _ _ _ _ Hk1). intros b z [Hb Hz] Hne. unfold only in Hne. split.
      + split; [|done]. by rewrite Em, lookup_insert_ne by done.
      + intros _. unfold data. by rewrite Eco.
    - exists x'. split; [split; [by rewrite Em, lookup_insert_eq|rewrite Hty; apply Hu]|]. split_and!; try done; try apply Hs; try apply Hc.
      intros b z Hne [Hb Hz] Hcz Ex. rewrite Em, lookup_insert_ne in Hb by done.
      pose proof (refs_pos mbutl st1 b z _ Hb ltac:(split_and!; [done|apply Hcz..|exact Ex])).
      pose proof (b_ref _ _ Hw1 _ Rk). lia. }
  destruct (mclfree st) as [|p fl] eqn:E.
  2:{ destruct (Hgo st p fl Hw (kept_refl mbutl _ st) Hu E) as (st' & Hr & Hw' & Hk & Hx). exists true, st'. split_and!; try done. by right. }
  destruct (m_clalloc_spec mbutl Hbase memall 1 MPG_CLUSTERS st Hw) as (r & st1 & Hr & Hw1 & Hg & _ & Hcl);
    [unfold NCL, NMBCLUSTERS, NBPG, MCLBYTES; split; [done|done]|by right|].
  assert (mclget mbutl memall a st = mclget mbutl memall a st1 \/ mclfree st1 = [] /\ mclget mbutl memall a st = Ok (false, st1)) as Hrun.
  { unfold mclget. rewrite E, Hr. kstep. destruct (mclfree st1) as [|p fl] eqn:E1; [by right|left].
    kstep. by rewrite E1. }
  assert (in_use st1 a x) as Hu1 by (by apply Hg).
  assert (kept (only a) st st1) as Hk1.
  { destruct Hg as (Eco & _ & _ & _ & Hgu). intros b z Hb _. split; [by apply Hgu|]. intros _. unfold data. by rewrite Eco. }
  destruct (mclfree st1) as [|p fl] eqn:E1.
  - assert (mclget mbutl memall a st = Ok (false, st1)) as ->.
    { destruct Hrun as [_|[_ ?]]; [|done]. unfold mclget. rewrite E, Hr. kstep. by rewrite E1. }
    exists false, st1. split_and!; try done. left. split_and!; try done; apply Hg.
  - destruct Hrun as [->|[? _]]; [|done]. destruct (Hgo st1 p fl Hw1 Hk1 Hu1 E1) as (st' & Hr' & Hw' & Hk & Hx).
    exists true, st'. split_and!; try done. by right.
Qed.

(** mbinit on a well-formed pool leaves one well-formed, with free mbufs and free clusters and
    the mbufs in use as they were, or panics for want of pages. *)
Theorem mbinit_sound st : wf st -> mbinit mbutl memall st = Panic "mbinit" \/
  exists st', mbinit mbutl memall st = Ok st' /\ wf st' /\ grown st st' /\ mfree st' <> [] /\ mclfree st' <> [].
Proof.
  intros Hw. unfold mbinit.
  destruct (m_clalloc_spec mbutl Hbase memall (btomcl 4096) MPG_MBUFS st Hw) as (r & st1 & -> & Hw1 & Hg1 & Hm1 & _);
    [by vm_compute|by left|]. kstep. destruct r as [p|]; [|by left].
  destruct (m_clalloc_spec mbutl Hbase memall (btomcl (4 * 4096)) MPG_CLUSTERS st1 Hw1) as (r & st2 & -> & Hw2 & Hg2 & _ & Hm2);
    [by vm_compute|by right|]. kstep. destruct r as [q|]; [|by left]. right.
  exists st2. split_and!; try done; [by apply (grown_trans st st1)|..].
  - destruct (Hm2 eq_refl) as [-> _]. by apply Hm1.
  - by apply Hm2.
Qed.
End Mclget.

Context (kalloc : Z -> H -> res (Z * H)).

Lemma share_spec st a x n y off : wf st -> in_use st a x -> clustered a x -> in_use st n y -> inline y ->
  0 <= off -> 0 < m_len y < 2 ^ 15 -> mtod a x + off + m_len y <= cladr mbutl (clx mbutl a x) + MCLBYTES ->
  refcnt st (clx mbutl a x) < 127 ->
  exists st' y', (st ← mcldup mbutl kalloc a n off st; y ← get_mb n st; mret (put_mb n (set_off y (m_off y + off)) st)) = Ok st' /\
    wf st' /\ mbs st' = <[n := y']> (mbs st) /\ core st' = core st /\ mfree st' = mfree st /\
    clustered n y' /\ m_type y' = m_type y /\ m_len y' = m_len y /\ mtod n y' = mtod a x + off /\
    clx mbutl n y' = clx mbutl a x /\ forall k, 0 <= k -> refcnt st' k <= refcnt st k + 1.
Proof.
  intros Hw Hu Hc Hun Hi Hoff Hly Hend Hrf. pose proof (cluster_bounds mbutl st a x Hw Hu Hc) as (K1 & K2 & K3).
  set (k := clx mbutl a x) in *. unfold mcldup.
  rewrite (get_mb_Ok _ _ _ (proj1 Hu)), (get_mb_Ok _ _ _ (proj1 Hun)). kstep. rewrite (proj2 Hc). change (1 =? 1) with true. cbn iota.
  rewrite (mtoclx_clx mbutl (mtod a x) k) by lia. rewrite (get_ref_Ok mbutl st k Hw K1). kstep.
  rewrite (wr_ref_Ok mbutl st k _ Hw K1). kstep. rewrite (wraps_small 8) by lia.
  set (y1 := set_cl _ _ _ _ _). rewrite (get_mb_Ok _ n y1) by (simpl; apply lookup_insert_eq). kstep.
  set (y2 := set_off y1 (m_off y1 + off)). set (st' := put_mb n y2 _).
  assert (mbs st' = <[n := y2]> (mbs st)) as Em by (unfold st'; simpl; by rewrite insert_insert_eq).
  assert (m_off y2 = wrapu 32 (mtod a x + off - n)) as Eo.
  { unfold y2, y1. simpl. rewrite Z.add_comm, wrapu_add. f_equal. lia. }
  destruct (wf_point st st' n y y2 k (mtod a x + off) Hw Hun Hi) as (Hw' & Hc' & Hm & Hx); try done; [by left|lia| | |].
  - by rewrite decide_False by lia.
  - lia.
  - exists st', y2. split_and!; try done. intros j Hj. rewrite (refcnt_insert mbutl st st' k (refcnt st k + 1)) by done.
    destruct (decide _) as [->|]; lia.
Qed.

(** ** Copying *)

Lemma load_slice c p n off len : 0 <= off <= n -> 0 <= len ->
  take (Z.to_nat len) (drop (Z.to_nat off) (load c p n)) = load c (p + off) (Z.min len (n - off)).
Proof.
  clear Hbase. intros Ho Hl. rewrite load_drop by lia. destruct (Z.le_gt_cases len (n - off)).
  - rewrite load_take by lia. f_equal. lia.
  - rewrite take_ge; [f_equal; lia|]. pose proof (load_length c (p + off) (n - off) ltac:(lia)). lia.
Qed.

(** The bytes of an mbuf the copy may take: a funny mbuf must fit inline (the copy of a longer
    one goes to the kernel heap). *)
Definition plain (x : mbuf) : Prop := funny x -> m_len x <= MLEN.

(** [st'] is [st] but for [n]. *)
Definition only_new (n : Z) st st' : Prop := kept (only n) st st' /\ mfree st' = mfree st /\
  (forall b z, in_use st' b z -> b = n \/ in_use st b z) /\ (forall k, 0 <= k -> refcnt st' k <= refcnt st k + 1).

Lemma copy_one_spec st a x n y off len : wf st -> in_use st a x -> sized a x -> plain x -> in_use st n y ->
  m_off y = MMINOFF -> a <> n -> 0 <= off <= m_len x -> 0 <= len -> (forall k, 0 <= k < NCL -> refcnt st k < 127) ->
  exists st' y', copy_one mbutl kalloc a n off len st = Ok st' /\ wf st' /\ only_new n st st' /\
    in_use st' n y' /\ sized n y' /\ m_type y' = m_type y /\ m_len y' = Z.min len (m_len x - off) /\
    data st' n y' = take (Z.to_nat len) (drop (Z.to_nat off) (data st a x)).
Proof.
  intros Hw Hu Hs Hpl Hun Ho Hne Hoff Hlen Hrf. set (k := Z.min len (m_len x - off)).
  assert (0 <= k < 2 ^ 15) as Hk by (destruct Hs; lia).
  unfold copy_one. rewrite (get_mb_Ok _ _ _ (proj1 Hu)), (get_mb_Ok _ _ _ (proj1 Hun)). kstep.
  set (y1 := set_len y _). assert (m_len y1 = k) as Hl1 by (unfold y1; simpl; apply wraps_small; fold k; lia).
  rewrite Hl1. assert (inline y1) as Hi1 by (unfold inline; change (m_off y1) with (m_off y); rewrite Ho; done).
  destruct (put_inline st n y y1 Hw Hun Hi1 eq_refl) as (Hw1 & Hk1 & Hun1 & Hb1). set (st1 := put_mb n y1 st) in *.
  destruct (Hk1 a x Hu Hne) as [Hu1 Hd1]. specialize (Hd1 Hs).
  assert (forall j, refcnt st1 j = refcnt st j) as Hr1 by done.
  destruct ((MMAXOFF <? m_off x) && (MLEN <? k)) eqn:Eb.
  - apply andb_true_iff in Eb as [E1%Z.ltb_lt E2%Z.ltb_lt].
    assert (clustered a x /\ mtod a x + m_len x <= cladr mbutl (clx mbutl a x) + MCLBYTES) as [Hc Hend].
    { destruct Hs as [_ [[Hi _]|[Hc|[Hf _]]]]; [unfold inline in Hi; lia|done|]. specialize (Hpl Hf). lia. }
    destruct (share_spec st1 a x n y1 off) as (st' & y' & Hrun & Hw' & Em & Eco & Efl & Hc' & Ety & Ely & Emt & Ecx & Hrc); try done.
    { lia. } { rewrite Hl1. unfold MLEN, MSIZE, MMINOFF, MTAIL in *. lia. } { rewrite Hl1. lia. }
    { rewrite Hr1. apply Hrf. by apply (cluster_bounds mbutl st a x). }
    exists st', y'. rewrite Hl1 in Ely. split; [exact Hrun|]. split; [done|].
    assert (in_use st' n y') as Hun' by (split; [by rewrite Em, lookup_insert_eq|rewrite Ety; apply Hun1]).
    unfold only_new. split_and!; try done.
    + apply (mbkept_trans mbutl _ st st1 st' Hk1). intros b z [Hb Hz] Hnb. split.
      * split; [|done]. rewrite Em, lookup_insert_ne; [done|]. intros ->. by apply Hnb.
      * intros _. unfold data. by rewrite Eco.
    + intros b z [Hb Hz]. rewrite Em in Hb. destruct (decide (b = n)) as [->|]; [by left|].
      rewrite lookup_insert_ne in Hb by done. apply Hb1. by split.
    + split; [lia|]. right. left. split; [done|]. rewrite Ecx, Emt, Ely. lia.
    + unfold data in *. rewrite Eco, Emt, Ely. rewrite load_slice by lia. done.
  - assert (k <= MLEN) as Hkl.
    { apply andb_false_iff in Eb as [E%Z.ltb_ge|E%Z.ltb_ge]; [|done]. destruct Hs as [_ [[Hi Hs]|[[[Hc _] _]|[[Hf _] _]]]].
      - unfold inline, MMAXOFF, MLEN, MMINOFF, MTAIL, MSIZE in *. lia.
      - unfold MMAXOFF, MSIZE, MTAIL in *. lia.
      - unfold MMAXOFF, MSIZE, MTAIL in *. lia. }
    rewrite bcopy_Ok by lia. rewrite (inline_mtod mbutl Hbase st1 n y1 Hw1 (proj1 Hun1) Hi1).
    change (m_off y1) with (m_off y). rewrite Ho.
    set (bs := load (core st1) (mtod a x + off) k).
    assert (Z.of_nat (length bs) = k) as Hbs by (apply load_length; lia).
    destruct (store_inline st1 n y1 (n + MMINOFF) bs Hw1 (proj1 Hun1)) as [Hw' Hk']; [unfold MMINOFF; lia|rewrite Hbs; unfold MLEN in Hkl; unfold MMINOFF, MSIZE, MTAIL in *; lia|].
    eexists _, y1. split; [reflexivity|]. split; [done|]. unfold only_new. split_and!; try done.
    + exact (mbkept_trans mbutl _ _ _ _ Hk1 Hk').
    + intros j _. change (refcnt st j <= refcnt st j + 1). lia.
    + split; [lia|]. left. split; [done|]. rewrite Hl1. change (m_off y1) with (m_off y). rewrite Ho. unfold MMAXOFF, MLEN in *. lia.
    + unfold data at 1. cbn [core set_core]. rewrite (inline_mtod mbutl Hbase st1 n y1 Hw1 (proj1 Hun1) Hi1).
      change (m_off y1) with (m_off y). rewrite Ho, Hl1, <- Hbs, load_store_same. unfold bs, data.
      rewrite load_slice by lia. done.
Qed.
End Ops.
