(* ===== verification/MbufCopy.v ===== *)
(** * m_copy

    The copy of a range of a chain: the bytes asked for, in new mbufs, cluster data shared by
    reference count, and every other mbuf's data left as it was. *)

From S2P Require Import Prelude Rmap Mbuf MbufThms MbufOps.
From stdpp Require Import prelude list numbers strings gmap.
From Stdlib Require Import ZArith Lia.

Local Open Scope Z_scope.
Local Open Scope kern_scope.

Section Copy.
Context {M H : Type} `{RM : !ResMap M}.
Context (mbutl : Z) (memall : Z -> Z -> bool) (kalloc : Z -> H -> res (Z * H)).
Hypothesis Hbase : 0 < mbutl /\ mbutl mod NBPG = 0 /\ mbutl + NMBCLUSTERS * NBPG <= 2 ^ 32.
Implicit Type st : mbst M H.

Local Notation wf := (mb_wf mbutl).
Local Notation sized := (sized mbutl).
Local Notation kept := (kept mbutl).
Local Notation chain := (chain mbutl).

(** The bytes a length selects: all of them for [M_COPYALL]. *)
Definition upto (len : Z) (l : list Z) : list Z := if decide (len = M_COPYALL) then l else take (Z.to_nat len) l.

Lemma upto_step off len da C : 0 <= off <= Z.of_nat (length da) -> Z.of_nat (length da) < M_COPYALL -> 0 <= len <= M_COPYALL ->
  take (Z.to_nat len) (drop (Z.to_nat off) da) ++
    upto (if len =? M_COPYALL then len else len - Z.min len (Z.of_nat (length da) - off)) C =
  upto len (drop (Z.to_nat off) (da ++ C)).
Proof.
  clear Hbase. intros Ho Hd Hl. rewrite drop_app_le by lia. unfold upto. destruct (Z.eqb_spec len M_COPYALL) as [->|Hne].
  - rewrite !decide_True by done. rewrite take_ge; [done|]. rewrite length_drop. lia.
  - rewrite (decide_False (P := len = M_COPYALL)) by done. rewrite take_app, length_drop.
    destruct (decide _) as [E|_]; [unfold M_COPYALL in *; lia|].
    do 2 f_equal. lia.
Qed.

Lemma copy_skip_spec m : forall st off, chain st m -> 0 <= off <= Z.of_nat (length (content st m)) ->
  exists m1 m2 off', m = m1 ++ m2 /\ copy_skip m off st = Ok (m2, off') /\ 0 <= off' /\
    off = Z.of_nat (length (content st m1)) + off' /\ (m2 = [] -> off' = 0) /\
    (forall a m' x, m2 = a :: m' -> in_use st a x -> off' <= m_len x).
Proof.
  clear Hbase. induction m as [|a m IH]; intros st off Hc Ho.
  - exists [], [], 0. simpl in Ho. replace off with 0 by lia. by split_and!.
  - cbn [copy_skip]. apply chain_cons in Hc as (Hna & (x & Hu & Hs) & Hc). rewrite content_cons, length_app in Ho.
    pose proof (bytes_length mbutl st a x Hu Hs) as Hlen.
    assert (forall b y m', a :: m = b :: m' -> in_use st b y -> y = x) as Hhd.
    { intros b y m' [= <- _] [Hy _]. destruct Hu as [Hx _]. rewrite Hx in Hy. by injection Hy as <-. }
    destruct (Z.ltb_spec 0 off); [|exists [], (a :: m), off].
    2:{ split_and!; try done; [simpl; lia|]. intros b m' y E Hy. rewrite (Hhd b y m' E Hy). destruct Hs; lia. }
    rewrite (get_mb_Ok _ _ _ (proj1 Hu)). kstep. destruct (Z.ltb_spec off (m_len x)).
    + exists [], (a :: m), off. split_and!; try done; try lia. intros b m' y E Hy. rewrite (Hhd b y m' E Hy). lia.
    + destruct (IH st (off - m_len x) Hc ltac:(lia)) as (m1 & m2 & off' & -> & -> & P1 & P2 & P3 & P4).
      exists (a :: m1), m2, off'. split_and!; try done. rewrite content_cons, length_app. lia.
Qed.

Definition all_plain st (m : list Z) : Prop := forall a x, a ∈ m -> in_use st a x -> plain x.

Lemma copy_loop_spec t m : t <> MT_FREE -> forall st off len top, wf st -> chain st m -> chain st top ->
  (forall a, a ∈ m -> a ∉ top) -> all_plain st m -> 0 <= off ->
  (m = [] -> off = 0) -> (forall a m' x, m = a :: m' -> in_use st a x -> off <= m_len x) ->
  0 <= len <= M_COPYALL -> len = M_COPYALL \/ off + len <= Z.of_nat (length (content st m)) ->
  (forall k, 0 <= k < NCL -> refcnt st k + Z.of_nat (length m) < 128) ->
  exists r st', copy_loop mbutl memall kalloc m t off len top st = Ok (r, st') /\ wf st' /\ kept (fun a => a ∈ top) st st' /\
    (r = [] /\ (length (mfree st) < length m)%nat /\ (forall b z, in_use st' b z -> in_use st b z /\ b ∉ top) \/
     chain st' r /\ content st' r = content st top ++ upto len (drop (Z.to_nat off) (content st m)) /\
     (forall a, a ∈ r -> a ∈ top \/ forall x, ~ in_use st a x) /\ (length r <= length top + length m)%nat).
Proof.
  intros Ht. induction m as [|a m IH]; intros st off len top Hw Hc Htop Hdj Hpl Ho Hnil Hhd Hlen Hend Hrf.
  { cbn [copy_loop]. rewrite Hnil by done.
    assert (content st top ++ upto len (drop (Z.to_nat 0) (content st [])) = content st top) as Eup.
    { unfold upto. simpl. destruct (decide _); rewrite ?take_nil; apply app_nil_r. }
    destruct (Z.leb_spec len 0).
    - exists top, st. split_and!; try done. right. rewrite Eup. split_and!; auto; simpl; lia.
    - simpl in Hend. destruct (Z.eqb_spec len M_COPYALL); [|lia]. cbn [negb].
      exists top, st. split_and!; try done. right. rewrite Eup. split_and!; auto; simpl; lia. }
  pose proof Hc as (Hna & (x & Hu & Hs) & Hcm)%chain_cons. cbn [copy_loop].
  destruct (Z.leb_spec len 0).
  { exists top, st. split_and!; try done. right. replace len with 0 by lia.
    unfold upto. rewrite decide_False by done. rewrite take_0, app_nil_r. split_and!; auto; simpl; lia. }
  destruct (m_get_spec mbutl Hbase memall t st Hw Ht) as (r & st1 & -> & Hw1 & Hq & Hr). kstep.
  assert (forall b, b ∈ top -> ~ (fun _ => False) b) as Hfalse by auto.
  pose proof (quiet_kept mbutl (fun _ => False) _ _ Hq) as Hk01.
  destruct r as [n|].
  2:{ destruct Hr as [Hfl Hback]. destruct Htop as [Htn Htc].
      destruct (m_freem_spec mbutl Hbase top st1 Hw1 Htn) as (st' & -> & Hw' & Hco & Hus & _).
      { intros b Hb. destruct (Htc b Hb) as (y & Hy & _). exists y. by apply (quiet_use st). }
      kstep. exists [], st'. split_and!; try done; [|left; split; [done|]; split; [rewrite Hfl; simpl; lia|intros b z [? ?]%Hus; auto]].
      eapply kept_weaken; [|exact (kept_trans_or mbutl _ _ _ _ _ Hk01 (m_freem_kept mbutl top _ _ Hco Hus))]. naive_solver. }
  destruct Hr as [(N1 & (y & Huy & Hoy & Hty) & N3) Hcnt].
  assert (a <> n) as Hane by (intros ->; by apply (N1 x)).
  assert (in_use st1 a x) as Hu1 by by apply (quiet_use st).
  assert (forall k, refcnt st1 k = refcnt st k) as Hr01.
  { intros k. apply refcnt_same. by destruct Hq as (_ & _ & _ & _ & ? & _). }
  assert (off <= m_len x) as Hox by (by apply (Hhd a m x)).
  destruct (copy_one_spec mbutl Hbase kalloc st1 a x n y off len) as (st2 & y' & -> & Hw2 & (Hk12 & Efl2 & Hb2 & Hrc2) & Huy' & Hsy' & _ & Hly' & Hdy');
    try done; [exact (Hpl a x ltac:(by left) Hu)|lia|..].
  { intros k Hk. rewrite Hr01. specialize (Hrf k Hk). simpl in Hrf. lia. }
  kstep. rewrite (get_mb_Ok _ _ _ (proj1 Huy')). kstep. rewrite Hly'.
  assert (forall b, (exists z, in_use st b z) -> b <> n) as Hnn by (intros b [z Hz] ->; by apply (N1 z)).
  assert (n ∉ m /\ n ∉ top) as [Hnm Hnt].
  { split; intros Hin; [destruct (proj2 Hcm n Hin) as (z & Hz & _)|destruct (proj2 Htop n Hin) as (z & Hz & _)]; by apply (N1 z). }
  pose proof (kept_trans_or mbutl _ _ _ _ _ Hk01 Hk12) as Hk02.
  destruct (kept_chain mbutl _ _ _ m Hk02 Hcm) as [Hcm2 Ecm2]. { intros b Hb [[]|E]. unfold only in E. by subst b. }
  destruct (kept_chain mbutl _ _ _ top Hk02 Htop) as [Htop2 Etop2]. { intros b Hb [[]|E]. unfold only in E. by subst b. }
  pose proof (bytes_length mbutl st a x Hu Hs) as Hlx. rewrite content_cons, length_app in Hend.
  assert (data st1 a x = data st a x) as Hda by exact (proj2 (Hk01 a x Hu (fun f => f)) Hs).
  set (len' := if len =? M_COPYALL then len else len - Z.min len (m_len x - off)).
  assert (chain st2 (top ++ [n])) as Htop2'.
  { apply chain_app; [done| |].
    - split; [apply NoDup_singleton|]. intros b ->%list_elem_of_singleton. eauto.
    - intros b Hb ->%list_elem_of_singleton. done. }
  destruct (IH st2 0 len' (top ++ [n])) as (r & st' & -> & Hw' & Hk' & Hres); try done.
  { intros b Hb [Hb'| ->%list_elem_of_singleton]%elem_of_app; [|done]. apply (Hdj b); [by right|done]. }
  { intros b z Hb Hz. apply (Hpl b z); [by right|]. destruct (Hb2 b z Hz) as [->|[->|?]%N3]; [done..|done]. }
  { intros b m' z -> Hz. destruct (proj2 Hcm2 b ltac:(by left)) as (z' & Hz' & [? _]). destruct Hz as [Hz _], Hz' as [Hz' _].
    rewrite Hz in Hz'. injection Hz' as <-. lia. }
  { unfold len'. destruct (Z.eqb_spec len M_COPYALL); lia. }
  { unfold len'. rewrite Ecm2. destruct (Z.eqb_spec len M_COPYALL); [by left|]. right. lia. }
  { intros k Hk. specialize (Hrf k Hk). specialize (Hrc2 k ltac:(lia)). rewrite Hr01 in Hrc2. simpl in Hrf. lia. }
  exists r, st'. split_and!; try done.
  { eapply kept_weaken; [|exact (kept_trans_or mbutl _ _ _ _ _ Hk02 Hk')]. simpl. intros b z Hz.
    pose proof (Hnn b ltac:(eauto)). unfold only. rewrite elem_of_app, list_elem_of_singleton. tauto. }
  destruct Hres as [(-> & Hfl & Hback)|(Hcr & Ecr & Hnew & Hlr)].
  - left. split; [done|]. rewrite Efl2 in Hfl. split; [simpl; destruct Hcnt as [?| ->]; [lia|simpl; lia]|]. intros b z Hz. apply Hback in Hz as [Hz Hb].
    rewrite elem_of_app, list_elem_of_singleton in Hb. apply Hb2 in Hz as [->|[->|Hz]%N3]; [tauto..|]. split; [done|tauto].
  - right. split; [done|]. split; [|split; [|rewrite length_app in Hlr; simpl in *; lia]].
    + rewrite Ecr, content_app, Etop2, Ecm2, <- app_assoc. f_equal. rewrite (content_cons st a m), <- upto_step; [|lia| |lia].
      2:{ destruct Hs as [[_ ?] _]. unfold M_COPYALL. lia. }
      rewrite Hlx. fold len'. rewrite drop_0. f_equal.
      unfold content. simpl. rewrite app_nil_r, (bytes_data _ _ _ Huy'), Hdy', Hda, (bytes_data _ _ _ Hu). done.
    + intros b Hb. destruct (Hnew b Hb) as [[?| ->%list_elem_of_singleton]%elem_of_app|Hno]; [by left|by right|].
      right. intros z Hz. apply (Hno z). apply (Hk02 b z Hz). intros [[]|E]. unfold only in E. subst b. by apply (N1 z).
Qed.

Lemma m_copy_spec m off len st : wf st -> chain st m -> m <> [] -> all_plain st m ->
  0 <= off -> 0 <= len <= M_COPYALL ->
  len = M_COPYALL /\ off <= Z.of_nat (length (content st m)) \/ off + len <= Z.of_nat (length (content st m)) ->
  (forall k, 0 <= k < NCL -> refcnt st k + Z.of_nat (length m) < 128) ->
  exists r st', m_copy mbutl memall kalloc m off len st = Ok (r, st') /\ wf st' /\ kept (fun _ => False) st st' /\
    (r = [] /\ (length (mfree st) < length m)%nat /\ (forall a x, in_use st' a x <-> in_use st a x) \/
     chain st' r /\ content st' r = upto len (drop (Z.to_nat off) (content st m)) /\
     (forall a, a ∈ r -> forall x, ~ in_use st a x) /\ (length r <= length m)%nat).
Proof.
  intros Hw Hc Hne Hpl Ho Hlen Hend Hrf. unfold m_copy. destruct (Z.eqb_spec len 0) as [->|Hl0].
  { exists [], st. split_and!; try done. right. split_and!; try done; [split; [constructor|]| |simpl; lia]; by intros a ?%elem_of_nil. }
  rewrite (proj2 (Z.ltb_ge off 0)), (proj2 (Z.ltb_ge len 0)) by lia. cbn [orb].
  destruct m as [|a m0]; [done|]. destruct (proj2 Hc a ltac:(by left)) as (x & Hu & Hs).
  rewrite (get_mb_Ok _ _ _ (proj1 Hu)). kstep.
  destruct (copy_skip_spec (a :: m0) st off Hc ltac:(lia)) as (m1 & m2 & off' & Em & -> & P1 & P2 & P3 & P4). kstep.
  rewrite Em in *. destruct Hc as [(Hn1 & Hd & Hn2)%NoDup_app Hc].
  assert (chain st m2) as Hc2 by (split; [done|]; intros b Hb; apply Hc, elem_of_app; by right).
  rewrite content_app, length_app in Hend.
  destruct (copy_loop_spec (m_type x) m2 (proj2 Hu) st off' len []) as (r & st' & -> & Hw' & Hk & Hr); try done.
  - split; [constructor|]. by intros b ?%elem_of_nil.
  - intros b _ ?%elem_of_nil. done.
  - intros b z Hb. apply Hpl, elem_of_app. by right.
  - lia.
  - intros k Hk. specialize (Hrf k Hk). rewrite length_app in Hrf. lia.
  - exists r, st'. split_and!; try done.
    + eapply kept_weaken; [|exact Hk]. intros b z _ ?%elem_of_nil. done.
    + destruct Hr as [(-> & Hl & Hback)|(Hcr & Ecr & Hnew & Hlr)]; [left; rewrite length_app; split; [done|]; split; [lia|]; intros b z; split; [by intros [? _]%Hback|intros Hz; apply (Hk b z Hz); by intros ?%elem_of_nil]|right].
      split_and!; [done| | |rewrite length_app; simpl in Hlr; lia].
      * rewrite Ecr, content_app, P2. simpl. f_equal. rewrite Z2Nat.inj_add, Nat2Z.id by lia. by rewrite drop_app_add.
      * intros b Hb. by destruct (Hnew b Hb) as [?%elem_of_nil|?].
Qed.

(** C33: m_copy of a chain of mbufs returns new mbufs holding exactly the [len] bytes at offset
    [off], which the chain must have, all the rest for M_COPYALL, inline or sharing the original's clusters; every mbuf in
    use keeps its data.  It returns the null chain for want of mbufs only when the pool has fewer free mbufs than
    the chain is long, and then has given back the mbufs it took: those in use are the ones of before.  The reference counts must have
    room (they are chars), and data that is neither inline nor in a cluster must fit into an mbuf. *)
Theorem m_copy_sound m off len st : wf st -> chain st m -> m <> [] -> all_plain st m ->
  0 <= off -> 0 <= len <= M_COPYALL ->
  len = M_COPYALL /\ off <= Z.of_nat (length (content st m)) \/ off + len <= Z.of_nat (length (content st m)) ->
  (forall k, 0 <= k < NCL -> refcnt st k + Z.of_nat (length m) < 128) ->
  exists r st', m_copy mbutl memall kalloc m off len st = Ok (r, st') /\ wf st' /\ kept (fun _ => False) st st' /\
    (r = [] /\ (length (mfree st) < length m)%nat /\ (forall a x, in_use st' a x <-> in_use st a x) \/
     chain st' r /\ content st' r = upto len (drop (Z.to_nat off) (content st m)) /\
     forall a, a ∈ r -> forall x, ~ in_use st a x).
Proof.
  intros Hw Hc Hne Hpl Ho Hlen Hend Hrf.
  destruct (m_copy_spec m off len st Hw Hc Hne Hpl Ho Hlen Hend Hrf) as (r & st' & Hr & Hw' & Hk & [Hf|(Hc' & Ec & Hn & _)]);
    exists r, st'; auto 10.
Qed.
End Copy.
