(* ===== verification/MbufTrim.v ===== *)
(** * Trimming, joining and straightening chains

    m_adj, m_cat and m_pullup, and the contiguous copies. *)

From S2P Require Import Prelude Rmap Mbuf MbufThms MbufOps.
From stdpp Require Import prelude list numbers strings gmap.
From Stdlib Require Import ZArith Lia.

Local Open Scope Z_scope.
Local Open Scope kern_scope.

Section Trim.
Context {M H : Type} `{RM : !ResMap M}.
Context (mbutl : Z).
Hypothesis Hbase : 0 < mbutl /\ mbutl mod NBPG = 0 /\ mbutl + NMBCLUSTERS * NBPG <= 2 ^ 32.
Implicit Type st : mbst M H.

Local Notation wf := (mb_wf mbutl).
Local Notation sized := (sized mbutl).
Local Notation kept := (kept mbutl).
Local Notation chain := (chain mbutl).

(** ** The header of a trimmed mbuf *)

(** The first [d] bytes and the last [e] taken off; all of a cluster must not go from the front. *)
Definition trimmed (x : mbuf) (d e : Z) : mbuf := set_off (set_len x (m_len x - d - e)) (m_off x + d).

Definition movable (a : Z) (x : mbuf) (d : Z) : Prop :=
  inline x \/ clustered a x /\ mtod a x + d < cladr mbutl (clx mbutl a x) + MCLBYTES \/ d = 0.

Lemma off_range st a x : wf st -> in_use st a x -> 0 <= m_off x < 2 ^ 32.
Proof.
  clear Hbase. intros Hw Hu. destruct (b_use _ _ Hw a x Hu) as [Hi|[[[Hc _] _]|[Hc _]]].
  - unfold inline, MMINOFF, MMAXOFF, MSIZE, MTAIL in *. lia.
  - unfold MSIZE in *. lia.
  - unfold MSIZE in *. lia.
Qed.

Lemma trimmed_spec st a x d e : wf st -> in_use st a x -> sized a x -> 0 <= d -> 0 <= e -> d + e <= m_len x -> movable a x d ->
  let y := trimmed x d e in
  wf (put_mb a y st) /\ kept (only a) st (put_mb a y st) /\ in_use (put_mb a y st) a y /\
  (forall b z, b <> a -> in_use (put_mb a y st) b z <-> in_use st b z) /\
  sized a y /\ mtod a y = mtod a x + d /\ m_len y = m_len x - d - e /\ (inline y <-> inline x).
Proof.
  intros Hw Hu Hs Hd He Hde Hmv y.
  assert (m_len y = m_len x - d - e) as Hly by (unfold y; simpl; apply wraps_small; destruct Hs; lia).
  assert (m_type y = m_type x /\ m_cltype y = m_cltype x) as [Hty Hct] by done.
  pose proof (off_range st a x Hw Hu) as Hor.
  destruct (decide (d = 0)) as [->|Hd0].
  - assert (m_off y = m_off x) as Hoy by (unfold y; simpl; rewrite Z.add_0_r; by apply wrapu_small).
    assert (mtod a y = mtod a x) as Hm by (unfold mtod; by rewrite Hoy).
    assert (clx mbutl a y = clx mbutl a x) as Hx by (unfold clx; by rewrite Hm).
    destruct (put_header mbutl Hbase st a x y Hw Hu) as (W1 & W2 & W3 & W4).
    + unfold inline, clustered, funny. rewrite Hoy, Hct, Hm. apply (b_use _ _ Hw a x Hu).
    + intros k. unfold points, clustered. cbn [fst snd]. by rewrite Hty, Hct, Hoy, Hx.
    + done.
    + split_and!; try done; try apply W3; try lia; [|unfold inline; by rewrite Hoy..]. destruct Hs as [Hs1 Hs2]. split; [lia|].
      unfold inline, clustered, funny in *. rewrite Hoy, Hct, Hm, Hx, Hly. lia.
  - destruct Hmv as [Hi|[[Hc Hcl]|?]]; [| |done].
    + assert (m_off x + m_len x <= MMAXOFF) as Hol.
      { destruct Hs as [_ [[_ Hs]|[[[[Hc _] _] _]|[[[Hc _] _] _]]]]; [done|..]; unfold inline, MMAXOFF, MSIZE, MTAIL in *; lia. }
      assert (m_off y = m_off x + d) as Hoy.
      { unfold y. simpl. apply wrapu_small. unfold inline, MMINOFF, MMAXOFF, MSIZE, MTAIL in *. lia. }
      assert (inline y) as Hiy by (unfold inline in *; lia).
      destruct (put_header mbutl Hbase st a x y Hw Hu) as (W1 & W2 & W3 & W4); [by left| |done|].
      { intros k Hp. by apply inline_points in Hp. }
      split_and!; try done; try apply W3.
      * split; [destruct Hs; lia|]. left. split; [done|]. lia.
      * rewrite (inline_mtod mbutl Hbase _ a y W1 (proj1 W3) Hiy), (inline_mtod mbutl Hbase _ a x Hw (proj1 Hu) Hi). lia.
    + destruct (cluster_bounds mbutl st a x Hw Hu Hc) as (K1 & K2 & K3). set (k := clx mbutl a x) in *.
      destruct (b_slot _ _ Hw a x (proj1 Hu)) as [S1 S2].
      destruct (point_to mbutl Hbase a k (mtod a x + d) S1 S2 K1) as (O1 & O2 & O3);
        [exact (b_sep _ _ Hw a x k (proj1 Hu) K1 (or_intror K3))|lia|].
      assert (m_off y = wrapu 32 (mtod a x + d - a)) as Hoy.
      { unfold y. simpl. unfold mtod. replace (wrapu 32 (a + m_off x) + d - a) with (wrapu 32 (a + m_off x) + (d - a)) by lia.
        unfold wrapu. rewrite Zplus_mod_idemp_l. f_equal. lia. }
      assert (mtod a y = mtod a x + d) as Hm by (unfold mtod at 1; by rewrite Hoy).
      assert (clx mbutl a y = k) as Hx by (apply clx_unique; rewrite Hm; lia).
      assert (clustered a y) as Hcy by (split; [rewrite Hoy; done|rewrite Hct; apply Hc]).
      destruct (put_header mbutl Hbase st a x y Hw Hu) as (W1 & W2 & W3 & W4); [|..|done|].
      { right. left. split; [done|]. rewrite Hm. clear -K1 K2 Hcl Hd.
        unfold in_arena, cladr, NCL, NMBCLUSTERS, NBPG, MCLBYTES in *. change (256 * 8192 / 1024) with 2048 in *. lia. }
      { intros j (P1 & P2 & P3). simpl in P3. split_and!; [apply Hu|apply Hc..|]. simpl. fold k. congruence. }
      split_and!; try done; try apply W3; [split; [destruct Hs; lia|]|..].
      2:{ split; intros Hi; exfalso.
          - apply (inline_points mbutl k a y Hi). split_and!; [apply Hu|apply Hcy..|exact Hx].
          - apply (inline_points mbutl k a x Hi). split_and!; [apply Hu|apply Hc..|done]. }
      right. left. split; [done|]. rewrite Hx, Hm, Hly.
      destruct Hs as [_ [[[_ Hi] _]|[[_ Hs]|[[_ Hf] _]]]]; [|fold k in Hs; lia|destruct Hc; lia].
      destruct Hc as [[Hc _] _]. unfold MMAXOFF, MSIZE, MTAIL in *. lia.
Qed.

(** The bytes of a trimmed mbuf. *)
Lemma trimmed_data a x d e c : sized a x -> 0 <= d -> 0 <= e -> d + e <= m_len x ->
  mtod a (trimmed x d e) = mtod a x + d -> m_len (trimmed x d e) = m_len x - d - e ->
  load c (mtod a (trimmed x d e)) (m_len (trimmed x d e)) =
  take (Z.to_nat (m_len x - d - e)) (drop (Z.to_nat d) (load c (mtod a x) (m_len x))).
Proof. clear Hbase. intros _ Hd He Hde -> ->. by rewrite load_drop, load_take by lia. Qed.

Lemma set_off_same x : 0 <= m_off x < 2 ^ 32 -> forall l, set_off (set_len x l) (m_off x + 0) = set_len x l.
Proof. clear Hbase. intros Ho l. unfold set_off, set_len. simpl. rewrite Z.add_0_r, wrapu_small by done. done. Qed.

Lemma trimmed_back x e : 0 <= m_off x < 2 ^ 32 -> trimmed x 0 e = set_len x (m_len x - e).
Proof. clear Hbase. intros Ho. unfold trimmed. rewrite set_off_same by done. by rewrite Z.sub_0_r. Qed.

Lemma trimmed_front x d : trimmed x d 0 = set_off (set_len x (m_len x - d)) (m_off x + d).
Proof. clear Hbase. unfold trimmed. by rewrite Z.sub_0_r. Qed.

(** ** Changing headers only *)

(** [st'] differs from [st] in the headers of [m] alone. *)
Definition reheaded (m : list Z) st st' : Prop := core st' = core st /\
  forall b z, b ∉ m -> in_use st' b z <-> in_use st b z.

Lemma reheaded_kept (m : list Z) st st' : reheaded m st st' -> kept (fun a => a ∈ m) st st'.
Proof. clear Hbase. intros [Hc Hu] a x Ha Hm. split; [by apply Hu|]. intros _. unfold data. by rewrite Hc. Qed.

Lemma reheaded_trans m1 m2 st1 st2 st3 : reheaded m1 st1 st2 -> reheaded m2 st2 st3 -> reheaded (m1 ++ m2) st1 st3.
Proof.
  clear Hbase. intros [C1 U1] [C2 U2]. split; [congruence|]. intros b z [Hb1 Hb2]%not_elem_of_app. by rewrite U2, U1.
Qed.

(** The chain has no funny mbuf. *)
Definition no_funny st (m : list Z) : Prop := forall a x, a ∈ m -> in_use st a x -> inline x \/ clustered a x.

Lemma in_use_eq st a x y : in_use st a x -> in_use st a y -> x = y.
Proof. clear Hbase. intros [Hx _] [Hy _]. rewrite Hx in Hy. by injection Hy. Qed.

(** Trimming the head of a chain. *)
Lemma trim_head st a m x d e : wf st -> chain st (a :: m) -> in_use st a x -> 0 <= d -> 0 <= e -> d + e <= m_len x ->
  movable a x d -> let st' := put_mb a (trimmed x d e) st in
  wf st' /\ reheaded [a] st st' /\ chain st' (a :: m) /\ content st' m = content st m /\
  in_use st' a (trimmed x d e) /\ m_len (trimmed x d e) = m_len x - d - e /\
  bytes st' a = take (Z.to_nat (m_len x - d - e)) (drop (Z.to_nat d) (bytes st a)) /\ (inline (trimmed x d e) <-> inline x).
Proof.
  intros Hw (Hna & (x' & Hu' & Hs) & Hc)%chain_cons Hu Hd He Hde Hmv st'.
  rewrite <- (in_use_eq st a x x' Hu Hu') in Hs.
  destruct (trimmed_spec st a x d e Hw Hu Hs Hd He Hde Hmv) as (W1 & W2 & W3 & W4 & W5 & W6 & W7 & W8).
  destruct (kept_chain mbutl _ _ _ m W2 Hc) as [Hc' Ec']. { intros b Hb E. unfold only in E. by subst b. }
  split_and!; try done; try apply W3.
  - split; [done|]. intros b z Hb. apply W4. intros ->. apply Hb. by left.
  - apply chain_cons. split_and!; [done|by exists (trimmed x d e)|done].
  - rewrite (bytes_data st' a _ W3), (bytes_data _ _ _ Hu). unfold data. by apply trimmed_data.
Qed.

(** ** m_adj *)

(** A header changed in place does not become funny. *)
Lemma nf_head st a x y : wf st -> in_use st a y -> (inline y <-> inline x) -> m_cltype y = m_cltype x ->
  inline x \/ clustered a x -> inline y \/ clustered a y.
Proof.
  clear Hbase. intros Hw Hu Hi Hct [Hx|[_ Hc]]; [left; by apply Hi|]. destruct (b_use _ _ Hw a y Hu) as [?|[[? _]|[_ Hf]]]; [by left|by right|congruence].
Qed.

Lemma adj_front_spec m : forall len st, wf st -> chain st m -> no_funny st m -> 0 <= len ->
  exists st', adj_front m len st = Ok st' /\ wf st' /\ reheaded m st st' /\ chain st' m /\
    content st' m = drop (Z.to_nat len) (content st m) /\ no_funny st' m.
Proof.
  induction m as [|a m IH]; intros len st Hw Hc Hnf Hlen; cbn [adj_front].
  { exists st. change (content st []) with (@nil Z). rewrite drop_nil. by split_and!. }
  pose proof Hc as (Hna & (x & Hu & Hs) & Hcm)%chain_cons. pose proof (off_range st a x Hw Hu) as Hor.
  pose proof (bytes_length mbutl st a x Hu Hs) as Hlx.
  destruct (Z.leb_spec len 0). { exists st. replace len with 0 by lia. by split_and!. }
  rewrite (get_mb_Ok _ _ _ (proj1 Hu)). kstep. destruct (Z.leb_spec (m_len x) len).
  - destruct (trim_head st a m x 0 (m_len x) Hw Hc Hu) as (W1 & W2 & W3 & W4 & W5 & W6 & W7 & W8); try lia.
    { by right; right. }
    rewrite trimmed_back, Z.sub_diag in * by done. set (st1 := put_mb a (set_len x 0) st) in *.
    pose proof W3 as (_ & (y & Huy & Hsy) & Hcm1)%chain_cons.
    destruct (IH (len - m_len x) st1 W1 Hcm1) as (st' & -> & Hw' & Hre & Hc' & Ec' & Hnf'); [|lia|].
    { intros b z Hb Hz. apply (Hnf b z); [by right|]. apply W2; [|done]. intros ->%list_elem_of_singleton. done. }
    exists st'. split_and!; try done.
    + apply (reheaded_trans [a] m _ _ _ W2 Hre).
    + apply chain_cons. split_and!; [done| |done]. exists y. split; [by apply Hre|done].
    + assert (in_use st' a (set_len x 0)) as Hua by (by apply Hre).
      rewrite content_cons, (bytes_data _ _ _ Hua). unfold data. change (m_len (set_len x 0)) with 0. rewrite load_nil. cbn [app].
      rewrite Ec', W4, content_cons, drop_app_ge by lia. f_equal. lia.
    + intros b z [->|Hb]%elem_of_cons Hz; [|by apply (Hnf' b z)]. apply Hre in Hz; [|done]. rewrite (in_use_eq _ _ _ _ Hz W5).
      eapply nf_head; [exact W1|exact W5|exact W8|done|apply (Hnf a x); [by left|done]].
  - destruct (trim_head st a m x len 0 Hw Hc Hu) as (W1 & W2 & W3 & W4 & W5 & W6 & W7 & W8); try lia.
    { destruct (Hnf a x ltac:(by left) Hu) as [?|Hcl]; [by left|right; left]. split; [done|].
      destruct Hs as [_ [[Hi _]|[[_ Hs]|[[_ Hf] _]]]]; [|lia|destruct Hcl; lia].
      destruct Hcl as [[Hcl _] _]. unfold inline, MMAXOFF, MSIZE, MTAIL in *. lia. }
    rewrite trimmed_front in *. eexists. split; [reflexivity|]. split_and!; try done.
    + split; [apply W2|]. intros b z Hb. apply W2. intros ->%list_elem_of_singleton. apply Hb. by left.
    + rewrite !content_cons, W4, W7, drop_app_le by lia. f_equal. rewrite take_ge; [done|]. rewrite length_drop. lia.
    + intros b z Hb Hz. destruct (decide (b = a)) as [->|Hn].
      * rewrite (in_use_eq _ _ _ _ Hz W5). eapply nf_head; [exact W1|exact W5|exact W8|done|apply (Hnf a x); [by left|done]].
      * apply (Hnf b z Hb). apply W2; [|done]. by intros ->%list_elem_of_singleton.
Qed.

Definition all_len (P : Z -> Prop) st (m : list Z) : Prop := forall a x, a ∈ m -> in_use st a x -> P (m_len x).

Lemma adj_last_spec m1 m2 o st : chain st (m1 ++ m2) -> all_len (fun l => 0 < l) st m1 -> all_len (fun l => l = 0) st m2 ->
  adj_last (m1 ++ m2) o st = Ok (match last m1 with Some a => Some a | None => o end).
Proof.
  clear Hbase. revert o. induction m1 as [|a m1 IH]; intros o Hc H1 H2; simpl app in *.
  - destruct m2 as [|b m2]; [done|]. apply chain_cons in Hc as (_ & (x & Hu & _) & _). cbn [adj_last].
    rewrite (get_mb_Ok _ _ _ (proj1 Hu)). kstep. by rewrite (H2 b x ltac:(by left) Hu).
  - apply chain_cons in Hc as (_ & (x & Hu & _) & Hc). cbn [adj_last]. rewrite (get_mb_Ok _ _ _ (proj1 Hu)). kstep.
    pose proof (H1 a x ltac:(by left) Hu) as Hpos. cbn beta in Hpos. rewrite (proj2 (Z.eqb_neq _ _)) by lia.
    rewrite IH; [|done| |done]; [|intros b y Hb; apply H1; by right]. f_equal. rewrite last_cons. by destruct (last m1).
Qed.

Lemma content_zero st m : chain st m -> all_len (fun l => l = 0) st m -> content st m = [].
Proof.
  clear Hbase. induction m as [|a m IH]; intros Hc H0; [done|]. apply chain_cons in Hc as (_ & (x & Hu & _) & Hc).
  rewrite content_cons, IH; [|done|intros b y Hb; apply H0; by right].
  rewrite (bytes_data _ _ _ Hu). unfold data. by rewrite (H0 a x ltac:(by left) Hu).
Qed.

(** Being a chain of mbufs in use does not depend on the order. *)
#[global] Instance chain_Permutation st : Proper (Permutation ==> iff) (chain st).
Proof. clear Hbase. intros m1 m2 E. unfold MbufOps.chain. rewrite E. by setoid_rewrite E. Qed.

(** A mbuf in the middle of a chain. *)
Lemma chain_mid st m1 a m2 : chain st (m1 ++ a :: m2) <-> chain st (a :: m1 ++ m2).
Proof. clear Hbase. by rewrite Permutation_middle. Qed.

Lemma adj_back_spec m1 : forall m2 len st fuel, wf st -> chain st (m1 ++ m2) -> 0 <= len ->
  all_len (fun l => 0 < l) st m1 -> all_len (fun l => l = 0) st m2 -> (length m1 < fuel)%nat ->
  exists st', adj_back fuel (m1 ++ m2) len st = Ok st' /\ wf st' /\ reheaded (m1 ++ m2) st st' /\ chain st' (m1 ++ m2) /\
    content st' (m1 ++ m2) = take (length (content st (m1 ++ m2)) - Z.to_nat len) (content st (m1 ++ m2)).
Proof.
  induction m1 as [|a m1 IH] using rev_ind; intros m2 len st fuel Hw Hc Hlen H1 H2 Hfuel.
  all: destruct fuel as [|fuel]; [simpl in Hfuel; lia|]; cbn [adj_back].
  all: destruct (Z.leb_spec len 0); [exists st; replace len with 0 by lia; split_and!; try done; by rewrite Nat.sub_0_r, firstn_all|].
  all: rewrite (adj_last_spec _ _ _ _ Hc H1 H2); kstep.
  { cbn [last]. kstep. exists st. split_and!; try done. simpl app in *. by rewrite (content_zero st m2), take_nil. }
  rewrite last_snoc. kstep. rewrite <- app_assoc in Hc |- *. cbn [app] in Hc |- *.
  pose proof (proj1 (chain_mid st m1 a m2) Hc) as Hc'.
  pose proof Hc' as (Hna & (x & Hu & Hs) & Hcm)%chain_cons. pose proof (off_range st a x Hw Hu) as Hor.
  pose proof (bytes_length mbutl st a x Hu Hs) as Hlx.
  pose proof (H1 a x ltac:(set_solver) Hu) as Hpos. cbn beta in Hpos.
  rewrite (get_mb_Ok _ _ _ (proj1 Hu)). kstep.
  assert (forall s, chain s (a :: m1 ++ m2) -> all_len (fun l => l = 0) s m2 -> content s m2 = []) as Hz.
  { intros s (_ & _ & [Hnd Hi])%chain_cons Hall. apply content_zero; [|done]. apply NoDup_app in Hnd as (_ & _ & Hnd).
    split; [done|]. intros b Hb. apply Hi, elem_of_app. by right. }
  pose proof (Hz st Hc' H2) as E2.
  rewrite content_app, content_cons, E2, app_nil_r, length_app.
  destruct (Z.leb_spec (m_len x) len).
  - destruct (trim_head st a (m1 ++ m2) x 0 (m_len x) Hw Hc' Hu) as (W1 & W2 & W3 & W4 & W5 & W6 & W7 & _); try lia; [by right; right|].
    rewrite trimmed_back, Z.sub_diag in * by done. set (st1 := put_mb a (set_len x 0) st) in *.
    assert (forall (b : Z) z, b ∈ m1 ++ m2 -> in_use st1 b z -> in_use st b z) as Hback.
    { intros b z Hb Hz'. apply W2; [|done]. by intros ->%list_elem_of_singleton. }
    assert (all_len (fun l => l = 0) st1 m2) as H2'.
    { intros b z Hb Hz'. apply (H2 b z Hb). apply Hback; [set_solver|done]. }
    destruct (IH (a :: m2) (len - m_len x) st1 fuel) as (st' & -> & Hw' & Hre & Hc2 & Ec2); try done.
    + by apply chain_mid.
    + lia.
    + intros b z Hb Hz'. apply (H1 b z); [set_solver|]. apply Hback; [set_solver|done].
    + intros b z [->|Hb]%elem_of_cons Hz'; [by rewrite <- (in_use_eq _ _ _ _ W5 Hz')|by apply (H2' b z)].
    + rewrite length_app in Hfuel. simpl in Hfuel. lia.
    + exists st'. split_and!; try done.
      * destruct (reheaded_trans _ _ _ _ _ W2 Hre) as [R1 R2]. split; [done|]. intros b z Hb. apply R2. set_solver.
      * rewrite !content_app, E2, (Hz st1 W3 H2'), !app_nil_r in W4. rewrite Ec2, !content_app, content_cons, (Hz st1 W3 H2'), W4, W7.
        cbn [Z.to_nat]. rewrite Z.sub_0_r, Z.sub_diag, take_0, !app_nil_r, take_app_le by lia. f_equal. lia.
  - destruct (trim_head st a (m1 ++ m2) x 0 len Hw Hc' Hu) as (W1 & W2 & W3 & W4 & W5 & W6 & W7 & _); try lia; [by right; right|].
    rewrite trimmed_back in * by done. eexists. split; [reflexivity|]. set (st1 := put_mb a _ st) in *.
    assert (all_len (fun l => l = 0) st1 m2) as H2'.
    { intros b z Hb Hz'. apply (H2 b z Hb). apply W2; [|done]. intros ->%list_elem_of_singleton. apply Hna. set_solver. }
    split_and!; try done.
    + split; [apply W2|]. intros b z Hb. apply W2. intros ->%list_elem_of_singleton. apply Hb. set_solver.
    + by apply chain_mid.
    + rewrite !content_app, E2, (Hz st1 W3 H2'), !app_nil_r in W4.
      rewrite content_app, content_cons, (Hz st1 W3 H2'), W4, W7, app_nil_r, take_app.
      rewrite (take_ge (content st m1)) by lia. cbn [Z.to_nat]. rewrite drop_0. do 2 f_equal. lia.
Qed.

(** The mbufs with data come first. *)
Definition packed st (m : list Z) : Prop := exists m1 m2, m = m1 ++ m2 /\ all_len (fun l => 0 < l) st m1 /\ all_len (fun l => l = 0) st m2.

(** m_adj takes exactly [len] bytes off the front of a chain, or [- len] off its end when [len]
    is negative, all of them when the chain is shorter; the mbufs stay.  The end is found by the
    first empty mbuf, so trimming the end needs the mbufs with data to come first. *)
Theorem m_adj_sound m len st : wf st -> chain st m -> no_funny st m -> (len < 0 -> packed st m) ->
  exists st', m_adj m len st = Ok st' /\ wf st' /\ kept (fun a => a ∈ m) st st' /\ chain st' m /\
    content st' m = (if decide (0 <= len) then drop (Z.to_nat len) (content st m)
                     else take (length (content st m) - Z.to_nat (- len)) (content st m)).
Proof.
  intros Hw Hc Hnf Hpk. unfold m_adj. destruct m as [|a m].
  { exists st. split_and!; try done. change (content st []) with (@nil Z). destruct (decide _); by rewrite ?drop_nil, ?take_nil. }
  destruct (decide (0 <= len)) as [Hl|Hl].
  - rewrite (proj2 (Z.leb_le _ _) Hl). destruct (adj_front_spec (a :: m) len st Hw Hc Hnf Hl) as (st' & Hr & Hw' & Hre & Hc' & Ec' & _).
    exists st'. split_and!; try done. by apply reheaded_kept.
  - rewrite (proj2 (Z.leb_gt _ _)) by lia. destruct (Hpk ltac:(lia)) as (m1 & m2 & E & H1 & H2). rewrite E in *.
    destruct (adj_back_spec m1 m2 (- len) st (S (length (m1 ++ m2))) Hw Hc) as (st' & Hr & Hw' & Hre & Hc' & Ec'); try done; [lia| |].
    { rewrite length_app. lia. }
    exists st'. split_and!; try done. by apply reheaded_kept.
Qed.

(** ** m_cat *)

(** An inline mbuf takes [k] bytes from [src] at its end. *)
Definition absorbed (m src k : Z) (x : mbuf) st : mbst M H :=
  put_mb m (set_len x (m_len x + k)) (set_core st (store (core st) (mtod m x + m_len x) (load (core st) src k))).

Lemma absorb_spec st m x src k : wf st -> in_use st m x -> inline x -> sized m x -> 0 <= k -> m_off x + m_len x + k <= MMAXOFF ->
  wf (absorbed m src k x st) /\ kept (only m) st (absorbed m src k x st) /\
  in_use (absorbed m src k x st) m (set_len x (m_len x + k)) /\ m_len (set_len x (m_len x + k)) = m_len x + k /\
  sized m (set_len x (m_len x + k)) /\ (forall b z, b <> m -> in_use (absorbed m src k x st) b z <-> in_use st b z) /\
  bytes (absorbed m src k x st) m = bytes st m ++ load (core st) src k /\ mfree (absorbed m src k x st) = mfree st.
Proof.
  intros Hw Hu Hi Hs Hk Hfit. set (bs := load (core st) src k). assert (Z.of_nat (length bs) = k) as Hbs by (by apply load_length).
  pose proof (inline_mtod mbutl Hbase st m x Hw (proj1 Hu) Hi) as Hm. pose proof (proj1 Hs) as [Hl0 _].
  assert (inline x /\ 0 <= m_len x + k < 2 ^ 15) as [_ Hl1].
  { split; [done|]. unfold inline, MMINOFF, MMAXOFF, MSIZE, MTAIL in *. lia. }
  destruct (store_inline mbutl Hbase st m x (mtod m x + m_len x) bs Hw (proj1 Hu)) as [W1 W2].
  { unfold inline, MMINOFF in *. lia. } { unfold inline, MMINOFF, MMAXOFF, MSIZE, MTAIL in *. lia. }
  set (st1 := set_core st _) in *. set (y := set_len x (m_len x + k)).
  assert (m_len y = m_len x + k) as Hly by (unfold y; simpl; apply wraps_small; lia).
  destruct (put_header mbutl Hbase st1 m x y W1 Hu) as (V1 & V2 & V3 & V4); [by left|by intros j Hp%inline_points|done|].
  change (absorbed m src k x st) with (put_mb m y st1). split_and!; try done; try apply V3.
  - exact (mbkept_trans mbutl _ _ _ _ W2 V2).
  - split; [lia|]. left. split; [done|]. rewrite Hly. change (m_off y) with (m_off x). lia.
  - rewrite (bytes_data _ _ _ V3), (bytes_data _ _ _ Hu). unfold data. rewrite Hly. change (mtod m y) with (mtod m x).
    change (core (put_mb m y st1)) with (core st1). rewrite load_app by lia. unfold st1. cbn [core set_core]. f_equal.
    + apply load_store_other. lia.
    + transitivity (load (store (core st) (mtod m x + m_len x) bs) (mtod m x + m_len x) (Z.of_nat (length bs)));
        [by rewrite Hbs|apply load_store_same].
Qed.

(** Freeing the next mbuf of a chain. *)
Lemma free_next st m b n : wf st -> chain st (m :: b :: n) ->
  exists st', MFREE mbutl b st = Ok st' /\ wf st' /\ kept (only b) st st' /\ chain st' (m :: n) /\
    content st' (m :: n) = content st (m :: n) /\ (forall a z, in_use st' a z <-> a <> b /\ in_use st a z).
Proof.
  intros Hw Hc. pose proof Hc as (Hmn & (xm & Hum & Hsm) & (Hbn & (y & Hu & Hs) & Hcn)%chain_cons)%chain_cons.
  destruct (MFREE_spec mbutl Hbase st b y Hw Hu) as (st' & -> & Hf). exists st'.
  pose proof (freed_kept mbutl _ _ _ _ Hf) as Hk.
  assert (chain st (m :: n)) as Hc' by (apply chain_cons; split_and!; [set_solver|eauto|done]).
  destruct (kept_chain mbutl _ _ _ (m :: n) Hk Hc') as [C1 C2].
  { intros a [->|Ha]%elem_of_cons ->; set_solver. }
  split_and!; try done; [by apply (fr_wf _ _ _ _ _ Hf)|exact (freed_use _ _ _ _ _ Hf)].
Qed.

Lemma cat_loop_spec m n : forall st, wf st -> chain st (m :: n) ->
  exists r st', cat_loop mbutl m n st = Ok (r, st') /\ wf st' /\ kept (fun a => a ∈ m :: n) st st' /\
    chain st' (m :: r) /\ content st' (m :: r) = content st (m :: n) /\ exists gone, n = gone ++ r.
Proof.
  induction n as [|b n IH]; intros st Hw Hc; cbn [cat_loop].
  { exists [], st. split_and!; try done. by exists []. }
  pose proof Hc as (Hmn & (x & Hu & Hs) & Hcn)%chain_cons. pose proof Hcn as (Hbn & (y & Huy & Hsy) & Hcn')%chain_cons.
  rewrite (get_mb_Ok _ _ _ (proj1 Hu)), (get_mb_Ok _ _ _ (proj1 Huy)). kstep.
  destruct ((MMAXOFF <=? m_off x) || (MMAXOFF <? m_off x + m_len x + m_len y)) eqn:E.
  { exists (b :: n), st. split_and!; try done. by exists []. }
  apply orb_false_iff in E as [E1%Z.leb_gt E2%Z.ltb_ge].
  assert (inline x) as Hi.
  { destruct (b_use _ _ Hw m x Hu) as [?|[[[[Hc' _] _] _]|[[Hc' _] _]]]; [done|..]; unfold MMAXOFF, MSIZE, MTAIL in *; lia. }
  rewrite bcopy_Ok by (destruct Hsy; lia). kstep.
  destruct (absorb_spec st m x (mtod b y) (m_len y) Hw Hu Hi Hs ltac:(destruct Hsy; lia) E2) as (W1 & W2 & W3 & W4 & W5 & W6 & W7 & _).
  change (put_mb m (set_len x (m_len x + m_len y)) _) with (absorbed m (mtod b y) (m_len y) x st).
  set (st1 := absorbed m (mtod b y) (m_len y) x st) in *.
  assert (chain st1 (m :: b :: n)) as Hc1.
  { apply chain_cons. split_and!; [done|eauto|]. apply (kept_chain mbutl _ _ _ (b :: n) W2 Hcn). intros a Ha E. unfold only in E. by subst a. }
  assert (content st1 (m :: n) = content st (m :: b :: n)) as Ec1.
  { rewrite !content_cons, W7, (bytes_data _ _ _ Huy), <- app_assoc. do 2 f_equal.
    apply (kept_chain mbutl _ _ _ n W2 Hcn'). intros a Ha E. unfold only in E. subst a. set_solver. }
  destruct (free_next st1 m b n W1 Hc1) as (st2 & -> & V1 & V2 & V3 & V4 & V5). kstep.
  destruct (IH st2 V1 V3) as (r & st' & -> & Hw' & Hk' & Hc' & Ec' & gone & ->).
  exists r, st'. split_and!; try done.
  - eapply kept_weaken; [|exact (kept_trans_or mbutl _ _ _ _ _ (kept_trans_or mbutl _ _ _ _ _ W2 V2) Hk')].
    unfold only. intros a z _. set_solver.
  - by rewrite Ec', V4.
  - by exists (b :: gone).
Qed.

(** m_cat joins two chains: the bytes are those of the first followed by those of the second,
    what fits in the last mbuf of the first being moved there and its mbufs freed; other mbufs
    keep their data. *)
Theorem m_cat_sound m n st : wf st -> chain st (m ++ n) -> m <> [] ->
  exists r st', m_cat mbutl m n st = Ok (m ++ r, st') /\ wf st' /\ kept (fun a => a ∈ m ++ n) st st' /\
    chain st' (m ++ r) /\ content st' (m ++ r) = content st (m ++ n) /\ exists gone, n = gone ++ r.
Proof.
  intros Hw Hc Hne. destruct (exists_last' m) as [?|(m0 & a & ->)]; [done|]. unfold m_cat. rewrite last_snoc.
  rewrite <- !app_assoc in *. cbn [app] in *.
  assert (chain st m0 /\ chain st (a :: n) /\ forall b, b ∈ m0 -> b ∉ a :: n) as (Hc0 & Hc1 & Hd).
  { destruct Hc as [(N1 & N2 & N3)%NoDup_app Hi]. split_and!; [| |done]; (split; [done|]); intros b Hb; apply Hi; set_solver. }
  destruct (cat_loop_spec a n st Hw Hc1) as (r & st' & -> & Hw' & Hk' & Hc' & Ec' & gone & ->). kstep.
  rewrite <- app_assoc. cbn [app].
  destruct (kept_chain mbutl _ _ _ m0 Hk' Hc0 Hd) as [Hc0' Ec0].
  exists r, st'. rewrite <- app_assoc. cbn [app]. split_and!; try done.
  - eapply kept_weaken; [|exact Hk']. intros b z _. set_solver.
  - apply chain_app; [done|done|]. intros b Hb. specialize (Hd b Hb). set_solver.
  - by rewrite !content_app, Ec', Ec0.
  - by exists gone.
Qed.

(** ** m_pullup *)

(** No cluster's data reaches the cluster's very end: m_pullup moves [m_off] past what it has
    taken, and mclput would then find the next cluster. *)
Definition loose st (m : list Z) : Prop := forall b y, b ∈ m -> in_use st b y -> clustered b y ->
  mtod b y + m_len y < cladr mbutl (clx mbutl b y) + MCLBYTES.

Lemma chain_swap st a b m : chain st (a :: b :: m) <-> chain st (b :: a :: m).
Proof. clear Hbase. exact (chain_mid st [a] b m). Qed.

(** One mbuf of the loop: [m] takes [k] bytes from [b]. *)
Lemma pull_one st m x b y n k : wf st -> chain st (m :: b :: n) -> in_use st m x -> in_use st b y -> inline x ->
  0 <= k <= m_len y -> m_off x + m_len x + k <= MMAXOFF -> movable b y k ->
  let st' := put_mb b (trimmed y k 0) (absorbed m (mtod b y) k x st) in
  wf st' /\ kept (fun a => a = m \/ a = b) st st' /\ chain st' (m :: b :: n) /\ content st' (m :: b :: n) = content st (m :: b :: n) /\
  in_use st' m (set_len x (m_len x + k)) /\ m_len (set_len x (m_len x + k)) = m_len x + k /\ in_use st' b (trimmed y k 0) /\
  m_len (trimmed y k 0) = m_len y - k /\ (forall a z, a <> m -> a <> b -> in_use st' a z <-> in_use st a z) /\
  content st' n = content st n.
Proof.
  intros Hw Hc Hu Huy Hi Hk Hfit Hmv st'.
  pose proof Hc as (Hmn & (x' & Hu' & Hs) & Hcn)%chain_cons. rewrite <- (in_use_eq _ _ _ _ Hu Hu') in Hs. clear x' Hu'.
  pose proof Hcn as (Hbn & (y' & Hu' & Hsy) & Hcn')%chain_cons. rewrite <- (in_use_eq _ _ _ _ Huy Hu') in Hsy. clear y' Hu'.
  assert (m <> b /\ m ∉ n) as [Hmb Hmn'] by set_solver.
  destruct (absorb_spec st m x (mtod b y) k Hw Hu Hi Hs ltac:(lia) Hfit) as (W1 & W2 & W3 & W4 & W5 & W6 & W7 & _).
  set (st1 := absorbed m (mtod b y) k x st) in *.
  destruct (kept_chain mbutl _ _ _ (b :: n) W2 Hcn) as [C1 _]. { intros a Ha E. unfold only in E. by subst a. }
  destruct (kept_chain mbutl _ _ _ n W2 Hcn') as [_ E1]. { intros a Ha E. unfold only in E. by subst a. }
  assert (in_use st1 b y) as Huy1 by (by apply W6).
  assert (bytes st1 b = bytes st b) as Eb.
  { rewrite (bytes_data _ _ _ Huy1), (bytes_data _ _ _ Huy). by apply (W2 b y Huy ltac:(by intros E; apply Hmb)). }
  assert (chain st1 (b :: m :: n)) as C2 by (apply chain_swap, chain_cons; split_and!; eauto).
  destruct (trim_head st1 b (m :: n) y k 0 W1 C2 Huy1) as (V1 & V2 & V3 & V4 & V5 & V6 & V7 & _); try lia; [done|].
  fold st' in V1, V2, V3, V4, V5, V6, V7.
  pose proof (bytes_length mbutl st b y Huy Hsy) as Hlb.
  assert (in_use st' m (set_len x (m_len x + k))) as Hum by (apply V2; [set_solver|done]).
  assert (content st' n = content st n /\ bytes st' m = bytes st1 m) as [En Em].
  { assert (bytes st' m = bytes st1 m) as Em.
    { rewrite (bytes_data _ _ _ Hum), (bytes_data _ _ _ W3). unfold data. by rewrite (proj1 V2). }
    split; [|done]. rewrite !content_cons, Em in V4. apply app_inv_head in V4. by rewrite V4. }
  split_and!; try done; try lia.
  - eapply kept_weaken; [|exact (kept_trans_or mbutl _ _ _ _ _ W2 (reheaded_kept _ _ _ V2))].
    simpl. intros a z _ [->| ->%list_elem_of_singleton]; auto.
  - by apply chain_swap.
  - rewrite !content_cons, Em, En, V7, W7, Eb, <- app_assoc. f_equal. rewrite app_assoc. f_equal.
    rewrite (bytes_data _ _ _ Huy). unfold data. rewrite load_drop, load_take by lia. replace (m_len y - k - 0) with (m_len y - k) by lia.
    rewrite <- load_app by lia. f_equal. lia.
  - intros a z Ham Hab. rewrite (proj2 V2 a z) by set_solver. by apply W6.
Qed.

(** What the loop leaves: [len'] bytes are still wanted only when the chain has run out. *)
Record pulled (m : Z) (n : list Z) (len : Z) (x : mbuf) st (r : list Z) (len' : Z) (x' : mbuf) st' : Prop := {
  pu_wf : wf st';
  pu_kept : kept (fun a => a ∈ m :: n) st st';
  pu_chain : chain st' (m :: r);
  pu_content : content st' (m :: r) = content st (m :: n);
  pu_head : in_use st' m x' /\ m_off x' = MMINOFF /\ m_len x' = m_len x + (len - len');
  pu_len : len' = len - Z.min len (Z.of_nat (length (content st n))) /\ (len' = 0 \/ r = []);
  pu_rest : exists gone, n = gone ++ r /\ (forall a z, a ∈ gone -> ~ in_use st' a z);
  pu_new : forall a z, a ∉ m :: n -> in_use st' a z -> in_use st a z
}.

Lemma pull_loop_spec m n : forall len st x, wf st -> chain st (m :: n) -> in_use st m x -> m_off x = MMINOFF ->
  0 <= len -> m_len x + len <= MLEN -> no_funny st n -> loose st n ->
  exists r len' x' st', pull_loop mbutl m n len st = Ok (r, len', st') /\ pulled m n len x st r len' x' st'.
Proof.
  induction n as [|b n IH]; intros len st x Hw Hc Hu Hox Hlen Hfit Hnf Hlo; cbn [pull_loop].
  { exists [], len, x, st. split; [done|]. split; try done.
    - split_and!; [apply Hu..|done|lia].
    - split; [simpl; lia|by right].
    - exists []. split; [done|]. by intros a z ?%elem_of_nil. }
  pose proof Hc as (Hmn & _ & (Hbn & (y & Huy & Hsy) & Hcn)%chain_cons)%chain_cons.
  rewrite (get_mb_Ok _ _ _ (proj1 Hu)), (get_mb_Ok _ _ _ (proj1 Huy)). kstep.
  pose proof (bytes_length mbutl st b y Huy Hsy) as Hlb. pose proof (proj1 Hsy) as [Hly0 Hly1].
  replace (Z.min (Z.min (MLEN - m_len x) len) (m_len y)) with (Z.min len (m_len y)) by lia. set (k := Z.min len (m_len y)).
  assert (inline x) as Hi by (unfold inline; rewrite Hox; done).
  assert (movable b y k) as Hmv.
  { destruct (Hnf b y ltac:(by left) Huy) as [?|Hcl]; [by left|]. right. left. split; [done|].
    pose proof (Hlo b y ltac:(by left) Huy Hcl). unfold k. lia. }
  assert (exists st1 x1 y1,
    (if 0 <? k then
       st0 ← bcopy (mtod b y) (mtod m x + m_len x) k st;
       mret (len - k, set_len (set_off y (m_off y + k)) (m_len y - k),
         put_mb b (set_len (set_off y (m_off y + k)) (m_len y - k)) (put_mb m (set_len x (m_len x + k)) st0))
     else mret (len, y, st)) = Ok (len - k, y1, st1) /\
    wf st1 /\ kept (fun a => a = m \/ a = b) st st1 /\ chain st1 (m :: b :: n) /\ content st1 (m :: b :: n) = content st (m :: b :: n) /\
    in_use st1 m x1 /\ m_off x1 = MMINOFF /\ m_len x1 = m_len x + k /\ in_use st1 b y1 /\ m_len y1 = m_len y - k /\
    (forall a z, a <> m -> a <> b -> in_use st1 a z <-> in_use st a z) /\ content st1 n = content st n)
    as (st1 & x1 & y1 & -> & W1 & W2 & W3 & W4 & W5 & W6 & W7 & W8 & W9 & W10 & W11).
  { destruct (Z.ltb_spec 0 k).
    - rewrite bcopy_Ok by lia. kstep.
      destruct (pull_one st m x b y n k Hw Hc Hu Huy Hi) as (V1 & V2 & V3 & V4 & V5 & V6 & V7 & V8 & V9 & V10); [lia| |done|].
      { rewrite Hox. unfold MLEN, MMINOFF, MMAXOFF, MTAIL, MSIZE in *. lia. }
      rewrite trimmed_front in *. by eexists _, _, _.
    - exists st, x, y. replace (len - k) with len by lia. split; [done|]. split_and!; try done; try apply Hu; try apply Huy; try lia. }
  kstep. destruct (Z.ltb_spec 0 (m_len y1)).
  - assert (len - k = 0) as Ek by lia. exists (b :: n), (len - k), x1, st1. split; [done|].
    split; try done.
    + eapply kept_weaken; [|exact W2]. simpl. intros a z _. set_solver.
    + split_and!; [apply W5..|done|lia].
    + rewrite content_cons, length_app. split; [lia|by left].
    + exists []. split; [done|]. by intros a z ?%elem_of_nil.
    + intros a z Ha. apply W10; set_solver.
  - assert (k = m_len y) as Ek by lia.
    destruct (free_next st1 m b n W1 W3) as (st2 & -> & V1 & V2 & V3 & V4 & V5). kstep.
    assert (in_use st2 m x1) as Hu2 by (apply V5; split; [set_solver|done]).
    assert (bytes st1 b = []) as Eb.
    { rewrite (bytes_data _ _ _ W8). unfold data. replace (m_len y1) with 0 by lia. done. }
    destruct (kept_chain mbutl _ _ _ n V2 ltac:(by apply (chain_cons mbutl st1 b n), (chain_cons mbutl st1 m (b :: n)))) as [_ En2].
    { intros a Ha ->. done. }
    assert (forall a z, a ∈ n -> in_use st2 a z -> in_use st a z) as Hback.
    { intros a z Ha Hz. apply W10; [set_solver..|]. by apply V5. }
    destruct (IH (len - k) st2 x1 V1 V3 Hu2 W6) as (r & len' & x' & st' & -> & P); [lia|lia| | |].
    { intros a z Ha Hz. apply (Hnf a z); [by right|]. auto. }
    { intros a z Ha Hz. apply (Hlo a z); [by right|]. auto. }
    exists r, len', x', st'. split; [done|]. destruct P as [P1 P2 P3 P4 P5 P6 P7 P8]. split; try done.
    + eapply kept_weaken; [|exact (kept_trans_or mbutl _ _ _ _ _ (kept_trans_or mbutl _ _ _ _ _ W2 V2) P2)].
      unfold only. simpl. intros a z _. set_solver.
    + rewrite P4, V4, <- W4, !content_cons, Eb. done.
    + destruct P5 as (Q1 & Q2 & Q3). split_and!; [apply Q1..|done|]. lia.
    + destruct P6 as [Q1 Q2]. split; [|done]. rewrite Q1, En2, W11, content_cons, length_app. lia.
    + destruct P7 as (gone & -> & Hg). exists (b :: gone). split; [done|].
      intros a z [->|Ha]%elem_of_cons; [|by apply Hg]. intros Hz.
      apply (P8 b z) in Hz; [|set_solver]. by apply V5 in Hz as [? _].
    + intros a z Ha Hz. apply W10; [set_solver..|]. apply (V5 a z). apply P8; [set_solver|done].
Qed.

(** Freeing all of a chain. *)
Lemma free_all st m : wf st -> chain st m -> exists st', m_freem mbutl m st = Ok st' /\ wf st' /\ kept (fun a => a ∈ m) st st' /\
  forall a z, in_use st' a z <-> a ∉ m /\ in_use st a z.
Proof.
  intros Hw [Hnd Hc]. destruct (m_freem_spec mbutl Hbase m st Hw Hnd) as (st' & Hr & Hw' & Hco & Hus & _).
  { intros a Ha. destruct (Hc a Ha) as (x & Hu & _). eauto. }
  exists st'. split_and!; try done. by apply m_freem_kept.
Qed.

Context (memall : Z -> Z -> bool).

(** C34: m_pullup(m0, len) of a chain whose data is inline or in clusters, none of them filled to its very end (there it would free another cluster),
    returns a chain with the bytes of [m0] whose first mbuf holds the first
    [len] of them contiguously in its own storage; when [len] exceeds MLEN, the chain is too
    short or there is no mbuf, it frees the whole chain, and nothing else, and returns null.
    Other mbufs keep their data. *)
Theorem m_pullup_sound m0 len st : wf st -> chain st m0 -> m0 <> [] -> no_funny st m0 -> loose st m0 -> 0 <= len ->
  exists r st', m_pullup mbutl memall m0 len st = Ok (r, st') /\ wf st' /\ kept (fun a => a ∈ m0) st st' /\
    (r = [] /\ (MLEN < len \/ Z.of_nat (length (content st m0)) < len \/ mfree st = []) /\
       (forall a z, in_use st' a z -> a ∉ m0 /\ in_use st a z) \/
     len <= MLEN /\ len <= Z.of_nat (length (content st m0)) /\ chain st' r /\ content st' r = content st m0 /\
       exists a m' x, r = a :: m' /\ in_use st' a x /\ inline x /\ m_len x = len).
Proof.
  intros Hw Hc Hne Hnf Hlo Hlen. unfold m_pullup. destruct (Z.ltb_spec MLEN len).
  { destruct (free_all st m0 Hw Hc) as (st' & -> & Hw' & Hk & Hus). kstep. exists [], st'. split_and!; try done.
    left. split_and!; try done; [by left|]. intros a z. apply Hus. }
  destruct m0 as [|b m0]; [done|]. destruct (proj2 Hc b ltac:(by left)) as (x0 & Hu0 & Hs0).
  rewrite (get_mb_Ok _ _ _ (proj1 Hu0)). kstep.
  destruct (m_get_spec mbutl Hbase memall (m_type x0) st Hw (proj2 Hu0)) as (g & st1 & -> & Hw1 & Hq & Hg). kstep.
  pose proof (quiet_kept mbutl (fun _ => False) _ _ Hq) as Hk01.
  destruct (kept_chain mbutl _ _ _ (b :: m0) Hk01 Hc) as [Hc1 Ec1]; [by intros a _ []|].
  set (m1 := b :: m0) in *. destruct g as [m|].
  2:{ destruct Hg as [Hfl Hback]. destruct (free_all st1 m1 Hw1 Hc1) as (st' & -> & Hw' & Hk & Hus). kstep.
      exists [], st'. split_and!; try done.
      - eapply kept_weaken; [|exact (kept_trans_or mbutl _ _ _ _ _ Hk01 Hk)]. simpl. tauto.
      - left. split_and!; try done; [by right; right|]. intros a z [? ?]%Hus. auto. }
  destruct Hg as [(N1 & (y & Huy & Hoy & Hty) & N3) _].
  rewrite (get_mb_Ok _ _ _ (proj1 Huy)). kstep. set (x := set_len y 0).
  assert (m_off x = MMINOFF /\ m_len x = 0) as [Hox Hlx] by done.
  destruct (put_inline mbutl Hbase st1 m y x Hw1 Huy) as (W1 & W2 & W3 & W4); [unfold inline; by rewrite Hox|done|].
  set (st2 := put_mb m x st1) in *.
  assert (m ∉ m1) as Hmn. { intros Hin. destruct (proj2 Hc m Hin) as (z & Hz & _). by apply (N1 z). }
  destruct (kept_chain mbutl _ _ _ m1 W2 Hc1) as [Hc2 Ec2]. { intros a Ha E. unfold only in E. by subst a. }
  assert (forall a z, a <> m -> in_use st2 a z -> in_use st a z) as Hback.
  { intros a z Ha Hz. destruct (W4 a z Hz) as [?|[?|?]%N3]; done. }
  assert (chain st2 (m :: m1)) as Hcm.
  { apply chain_cons. split_and!; [done| |done]. exists x. split; [done|]. split; [done|]. left. unfold inline. rewrite Hox. split_and!; done. }
  destruct (pull_loop_spec m m1 len st2 x W1 Hcm W3 Hox Hlen) as (r & len' & x' & st' & -> & [P1 P2 P3 P4 P5 P6 P7 P8]); [lia| | |].
  { intros a z Ha Hz. apply (Hnf a z Ha). apply Hback; [by intros ->|done]. }
  { intros a z Ha Hz. apply (Hlo a z Ha). apply Hback; [by intros ->|done]. }
  kstep. assert (kept (fun a => a ∈ m1) st st') as Hk.
  { eapply kept_weaken; [|exact (kept_trans_or mbutl _ _ _ _ _ (kept_trans_or mbutl _ _ _ _ _ Hk01 W2) P2)].
    unfold only. intros a z Hz [[[]|E]|[E|?]%elem_of_cons]; [| |done]; subst a; by destruct (N1 z). }
  rewrite Ec2, Ec1 in P6. destruct P5 as (Q1 & Q2 & Q3). destruct (Z.eqb_spec len' 0) as [E0|E0]; cbn [negb].
  - exists (m :: r), st'. split_and!; try done. right. split_and!; try done; [lia| |].
    + rewrite P4, content_cons, Ec2, Ec1, (bytes_data _ _ _ W3). done.
    + exists m, r, x'. split; [done|]. split; [done|]. split; [unfold inline; by rewrite Q2|].
      rewrite Q3, E0, Hlx. lia.
  - destruct P6 as [E1 [?| ->]]; [done|].
    destruct (MFREE_spec mbutl Hbase st' m x' P1 Q1) as (st3 & -> & Hf). kstep. cbn [m_freem]. kstep.
    pose proof (freed_kept mbutl _ _ _ _ Hf) as Hk3.
    exists [], st3. split_and!; try done; [by apply (fr_wf _ _ _ _ _ Hf)| |].
    + eapply kept_weaken; [|exact (kept_trans_or mbutl _ _ _ _ _ Hk Hk3)]. simpl. intros a z Hz [?| ->]; [done|]. by destruct (N1 z).
    + left. split_and!; try done; [right; left; lia|]. intros a z [Ham Hz]%(freed_use _ _ _ _ _ Hf).
      destruct P7 as (gone & Eg & Hgone). rewrite app_nil_r in Eg. subst gone.
      assert (a ∉ m1) as Ha by (intros Ha; by apply (Hgone a z)). split; [done|].
      apply Hback; [done|]. apply P8; [|done]. by apply not_elem_of_cons.
Qed.
End Trim.
