(* ===== verification/MbufWitness.v ===== *)
(** * A pool of mbufs the theorems apply to

    The state before mbinit() is well formed and mbinit() keeps it so; chains built with m_get()
    and m_cappend() over the maps of [Rmap]; and runs that show where the code parts from its
    comments. *)

From S2P Require Import Prelude Rmap Mbuf MbufThms MbufOps MbufCopy MbufTrim.
From stdpp Require Import prelude list numbers strings gmap.
From Stdlib Require Import ZArith Lia.

Local Open Scope Z_scope.
Local Open Scope kern_scope.

Definition boot {M H} (m : M) (h : H) (c : Z -> Z) : mbst M H :=
  Mbst ∅ [] [] (replicate 2048 0) c m h (Mbstat 0 0 0 0 0 ∅) [].

Lemma pool_boot_wf {M H} `{RM : !ResMap M} mbutl (m : M) (h : H) c : rm_inv m ->
  (forall u, rm_unit m u -> u < NMBCLUSTERS) -> mb_wf mbutl (boot m h c).
Proof.
  intros Hm Hu. assert (forall k, refcnt (boot m h c) k = 0) as Hr.
  { intros k. unfold refcnt. cbn [boot mclrefcnt]. destruct (replicate 2048 0 !! Z.to_nat k) eqn:E; [|done].
    by apply lookup_replicate in E as [-> _]. }
  assert (forall k, ~ is_cluster mbutl (boot m h c) k) as Hnc.
  { intros k [Hin%elem_of_nil|Hpos]; [done|]. rewrite Hr in Hpos. lia. }
  split; try done.
  - split; [constructor|]. intros a. split; [by intros ?%elem_of_nil|by intros (x & Hx & _)].
  - intros a x [Hx _]. done.
  - split; [constructor|]. by intros c0 ?%elem_of_nil.
  - intros k _. rewrite Hr. unfold refs. cbn [boot mbs]. rewrite map_filter_empty, map_size_empty. lia.
  - intros u _. split; [by intros a x|]. intros k _ Hk. by apply Hnc in Hk.
Qed.

Definition base := 0x100000.
Lemma pool_base_ok : 0 < base /\ base mod NBPG = 0 /\ base + NMBCLUSTERS * NBPG <= 2 ^ 32.
Proof. by vm_compute. Qed.
Definition mem (p n : Z) : bool := true.
Definition noheap (n : Z) (h : unit) : res (Z * unit) := Panic "kmem_alloc".

(** Before mbinit(), after it, and with a chain of two mbufs of 20 and 100 bytes. *)
Definition p0 : mbst rmap unit := boot map2full tt (fun q => Z.land q 255).
Definition p1 : mbst rmap unit := match mbinit base mem p0 with Ok st => st | _ => p0 end.
Lemma p1_run : mbinit base mem p0 = Ok p1.
Proof. vm_compute. reflexivity. Qed.

Lemma p0_wf : mb_wf base p0.
Proof.
  apply pool_boot_wf; [split; [done|exists segs2; apply map2full_wf]|].
  intros u. cbn [rm_unit rmap_resmap]. rewrite (rmap_unit_wf _ _ _ map2full_wf).
  unfold segs2. rewrite !seg_free_cons, seg_free_nil. unfold Rmap.covers. cbn [m_addr m_size]. change NMBCLUSTERS with 256. lia.
Qed.

Lemma Ok_inj {A} (a b : A) : Ok a = Ok b -> a = b.
Proof. by intros [= ->]. Qed.

Lemma p1_wf : mb_wf base p1.
Proof.
  destruct (m_clalloc_spec base pool_base_ok mem 4 MPG_MBUFS p0 p0_wf) as (r1 & st1 & E1 & W1 & _); [by split|by left|].
  destruct (m_clalloc_spec base pool_base_ok mem 16 MPG_CLUSTERS st1 W1) as (r2 & st2 & E2 & W2 & _); [by split|by right|].
  assert (mbinit base mem p0 = match r1 with None => Panic "mbinit" | Some _ =>
    match r2 with None => Panic "mbinit" | Some _ => Ok st2 end end) as Hr.
  { unfold mbinit. change (btomcl 4096) with 4. change (btomcl (4 * 4096)) with 16. rewrite E1. kstep.
    destruct r1; [|done]. rewrite E2. kstep. by destruct r2. }
  rewrite p1_run in Hr. destruct r1; [|discriminate Hr]. destruct r2; [|discriminate Hr]. apply Ok_inj in Hr. rewrite Hr. exact W2.
Qed.

(** A caller gets an mbuf and fills it from memory. *)
Definition fill (src len : Z) (st : mbst rmap unit) : res (Z * mbst rmap unit) :=
  '(r, st) ← m_get base mem MT_DATA st;
  match r with
  | Some a =>
      x ← get_mb a st;
      st ← m_cappend src len a (put_mb a (set_len x 0) st);
      mret (a, st)
  | None => Fault
  end.

Lemma fill_wf src len st a st' : mb_wf base st -> 0 <= len <= MLEN -> fill src len st = Ok (a, st') -> mb_wf base st'.
Proof.
  intros Hw Hlen Hr. unfold fill in Hr.
  destruct (m_get_spec base pool_base_ok mem MT_DATA st Hw) as (r & st1 & E & W1 & _ & Hn); [done|].
  rewrite E in Hr. cbn [mbind res_bind] in Hr. destruct r as [b|]; [|done].
  destruct Hn as [(_ & (y & Hu & Ho & _) & _) _]. rewrite (get_mb_Ok _ _ _ (proj1 Hu)) in Hr. cbn [mbind res_bind] in Hr.
  set (x := set_len y 0) in *. assert (inline x) as Hi by (unfold inline; change (m_off x) with (m_off y); rewrite Ho; done).
  destruct (put_inline base pool_base_ok st1 b y x W1 Hu Hi eq_refl) as (W2 & _ & Hu2 & _). set (st2 := put_mb b x st1) in *.
  assert (m_off x = MMINOFF /\ m_len x = 0) as [Hox Hlx] by done.
  assert (sized base b x) as Hs.
  { split; [rewrite Hlx; done|]. left. split; [done|]. rewrite Hox, Hlx. done. }
  destruct (absorb_spec base pool_base_ok st2 b x src len W2 Hu2 Hi Hs) as [W3 _]; [lia| |].
  { rewrite Hox, Hlx. unfold MLEN, MMINOFF, MMAXOFF, MTAIL, MSIZE in *. lia. }
  unfold m_cappend in Hr. rewrite (get_mb_Ok _ _ _ (proj1 Hu2)) in Hr. cbn [mbind res_bind] in Hr.
  rewrite bcopy_Ok in Hr by lia. cbn [mbind res_bind mret res_ret] in Hr. apply Ok_inj in Hr. injection Hr as <- <-. exact W3.
Qed.

Definition after (r : res (Z * mbst rmap unit)) (st : mbst rmap unit) : mbst rmap unit := match r with Ok (_, s) => s | _ => st end.
Definition p2 : mbst rmap unit := after (fill 500 20 p1) p1.
Definition p3 : mbst rmap unit := after (fill 1000 100 p2) p2.
Definition ma : Z := 1138560.
Definition mb : Z := 1138432.

(** The address alone is computed: the memory is a function, and is not normalised. *)
Lemma after_run (r : res (Z * mbst rmap unit)) st a :
  match r with Ok (b, _) => Some b | _ => None end = Some a -> r = Ok (a, after r st).
Proof. destruct r as [[b s]| |]; [|discriminate..]. by intros [= ->]. Qed.

Lemma p2_run : fill 500 20 p1 = Ok (ma, p2).
Proof. apply after_run. vm_compute. reflexivity. Qed.
Lemma p3_run : fill 1000 100 p2 = Ok (mb, p3).
Proof. apply after_run. vm_compute. reflexivity. Qed.
Lemma p3_wf : mb_wf base p3.
Proof.
  refine (fill_wf 1000 100 p2 mb p3 _ _ p3_run); [|by vm_compute].
  refine (fill_wf 500 20 p1 ma p2 p1_wf _ p2_run). by vm_compute.
Qed.

Definition xa : mbuf := Mbuf 12 20 1 (-29555) 2391773329 2459145365 2526517401 0.
Definition xb : mbuf := Mbuf 12 100 1 3085 235868177 303240213 370612249 0.
Lemma p3_headers : mbs p3 !! ma = Some xa /\ mbs p3 !! mb = Some xb.
Proof. by vm_compute. Qed.
Lemma p3_use a x : a ∈ [ma; mb] -> in_use p3 a x -> x = xa \/ x = xb.
Proof.
  destruct p3_headers as [E1 E2]. intros Ha [Hx _]. apply elem_of_cons in Ha as [E|Ha].
  - left. rewrite E, E1 in Hx. by injection Hx as ->.
  - apply list_elem_of_singleton in Ha. right. rewrite Ha, E2 in Hx. by injection Hx as ->.
Qed.
Lemma p3_chain : chain base p3 [ma; mb].
Proof.
  split; [apply NoDup_cons; split; [by intros E%list_elem_of_singleton|apply NoDup_singleton]|]. destruct p3_headers as [E1 E2].
  intros a Ha. apply elem_of_cons in Ha as [E|Ha]; [exists xa|exists xb].
  - rewrite E. split; [split; [exact E1|clear; discriminate]|]. clear. split; [by vm_compute|left; by vm_compute].
  - apply list_elem_of_singleton in Ha. rewrite Ha.
    split; [split; [exact E2|clear; discriminate]|]. clear. split; [by vm_compute|left; by vm_compute].
Qed.
Lemma p3_refs : mclrefcnt p3 = replicate 2048 0.
Proof. by vm_compute. Qed.
Lemma p3_room k : refcnt p3 k + 2 < 128.
Proof.
  unfold refcnt. rewrite p3_refs. destruct (replicate 2048 0 !! Z.to_nat k) eqn:E; [|done].
  apply lookup_replicate in E as [-> _]. done.
Qed.
Lemma p3_inline a x : a ∈ [ma; mb] -> in_use p3 a x -> inline x /\ 0 < m_len x.
Proof. intros Ha Hu. destruct (p3_use a x Ha Hu) as [-> | ->]; clear; by vm_compute. Qed.
Lemma inline_small x : inline x -> ~ MSIZE <= m_off x.
Proof. unfold inline, MMAXOFF, MSIZE, MTAIL. lia. Qed.
Lemma p3_plain : all_plain p3 [ma; mb].
Proof. intros a x Ha Hu [[Hf _] _]. destruct (p3_inline a x Ha Hu) as [Hi _]. by apply inline_small in Hi. Qed.
Lemma p3_no_funny : no_funny p3 [ma; mb].
Proof. intros a x Ha Hu. left. by apply (p3_inline a x Ha Hu). Qed.
Lemma p3_loose : loose base p3 [ma; mb].
Proof. intros a x Ha Hu [[Hf _] _]. destruct (p3_inline a x Ha Hu) as [Hi _]. by apply inline_small in Hi. Qed.

(** ** Witnesses *)

Lemma m_copy_sound_witness :
  exists r st', m_copy base mem noheap [ma; mb] 5 50 p3 = Ok (r, st') /\ chain base st' r /\
    content st' r = take 50 (drop 5 (content p3 [ma; mb])).
Proof.
  destruct (m_copy_sound base mem noheap pool_base_ok [ma; mb] 5 50 p3 p3_wf p3_chain)
    as (r & st' & E & _ & _ & [(_ & Hf & _)|(Hc & Ec & _)]).
  - discriminate.
  - exact p3_plain.
  - lia.
  - unfold M_COPYALL. lia.
  - right. by vm_compute.
  - intros k _. apply p3_room.
  - exfalso. revert Hf. clear. vm_compute. lia.
  - exists r, st'. split; [exact E|]. split; [exact Hc|exact Ec].
Defined.

Lemma m_adj_sound_witness :
  exists st', m_adj [ma; mb] (-110) p3 = Ok st' /\ content st' [ma; mb] = take 10 (content p3 [ma; mb]).
Proof.
  destruct (m_adj_sound base pool_base_ok [ma; mb] (-110) p3 p3_wf p3_chain p3_no_funny) as (st' & E & _ & _ & _ & Ec).
  - intros _. exists [ma; mb], []. split; [reflexivity|]. split; [|by intros a x ?%elem_of_nil].
    intros a x Ha Hu. exact (proj2 (p3_inline a x Ha Hu)).
  - exists st'. split; [exact E|]. rewrite Ec. clear. by vm_compute.
Defined.

Lemma m_cat_sound_witness :
  exists r st', m_cat base [ma] [mb] p3 = Ok ([ma] ++ r, st') /\ content st' ([ma] ++ r) = content p3 [ma; mb].
Proof.
  destruct (m_cat_sound base pool_base_ok [ma] [mb] p3 p3_wf p3_chain ltac:(discriminate)) as (r & st' & E & _ & _ & _ & Ec & _).
  exists r, st'. split; [exact E|exact Ec].
Defined.

Lemma m_pullup_sound_witness :
  exists r st', m_pullup base mem [ma; mb] 60 p3 = Ok (r, st') /\ content st' r = content p3 [ma; mb] /\
    exists a m' x, r = a :: m' /\ in_use st' a x /\ inline x /\ m_len x = 60.
Proof.
  destruct (m_pullup_sound base pool_base_ok mem [ma; mb] 60 p3 p3_wf p3_chain ltac:(discriminate) p3_no_funny p3_loose ltac:(lia))
    as (r & st' & E & _ & _ & [(_ & [F|[F|F]] & _)|(_ & _ & _ & Ec & He)]).
  - by vm_compute in F.
  - by vm_compute in F.
  - exfalso. apply (f_equal length) in F. by vm_compute in F.
  - exists r, st'. split; [exact E|]. split; [exact Ec|exact He].
Defined.

Lemma m_freem_sound_witness :
  exists st', m_freem base [ma; mb] p3 = Ok st' /\ mfree st' = [mb; ma] ++ mfree p3.
Proof.
  destruct (m_freem_sound base pool_base_ok [ma; mb] p3 p3_wf (proj1 p3_chain)) as (st' & E & _ & _ & Ef & _).
  - intros a Ha. destruct (proj2 p3_chain a Ha) as (x & Hu & _). exists x. exact Hu.
  - exists st'. split; [exact E|exact Ef].
Defined.

Lemma mclget_sound_witness :
  exists st', mclget base mem ma p3 = Ok (true, st') /\ mb_wf base st'.
Proof.
  destruct (mclget_sound base pool_base_ok mem ma xa p3 p3_wf) as (ok & st' & E & Hw & _ & [(_ & Hc & _)|[-> _]]).
  - split; [exact (proj1 p3_headers)|discriminate].
  - clear. by vm_compute.
  - exfalso. apply (f_equal length) in Hc. by vm_compute in Hc.
  - exists st'. split; [exact E|exact Hw].
Defined.

Lemma mbinit_sound_witness : exists st', mbinit base mem p0 = Ok st' /\ mb_wf base st' /\ mclfree st' <> [].
Proof.
  destruct (mbinit_sound base pool_base_ok mem p0 p0_wf) as [E|(st' & E & Hw & _ & _ & Hne)].
  - rewrite p1_run in E. discriminate E.
  - exists st'. split; [exact E|]. split; [exact Hw|exact Hne].
Defined.

(** ** Runs *)

Definition get1 (st : mbst rmap unit) : res (Z * mbst rmap unit) :=
  '(r, st) ← m_get base mem MT_DATA st;
  match r with Some a => mret (a, st) | None => Fault end.
Fixpoint take_clusters (n : nat) (st : mbst rmap unit) : res (mbst rmap unit) :=
  match n with
  | O => mret st
  | S n => '(a, st) ← get1 st; '(_, st) ← mclget base mem a st; take_clusters n st
  end.
Definition kref (st : mbst rmap unit) (a : Z) : option Z := mclrefcnt st !! Z.to_nat (mtoclx base a).

(** After mbinit() the last mbuf of its page lies right before the first cluster: given that
    cluster its m_off is MSIZE, and MFREE, which tests m_off > MSIZE, never releases it. *)
Example MFREE_loses_cluster :
  ('(a, st) ← get1 p1; st ← take_clusters 15 st; '(_, st) ← mclget base mem a st;
   x ← get_mb a st; st ← MFREE base a st;
   mret (m_off x, kref st (mtod a x), bool_decide (mtod a x ∈ mclfree st))) = Ok (128, Some 1, false).
Proof. vm_compute. reflexivity. Qed.

(** Two mbufs with a cluster each; m_pullup() of the last 24 bytes of the second's moves m_off to the
    end of the cluster, and MFREE releases the next cluster, which the first still uses. *)
Example m_pullup_frees_neighbour :
  ('(a, st) ← get1 p1; '(_, st) ← mclget base mem a st; '(b, st) ← get1 st; '(_, st) ← mclget base mem b st;
   x ← get_mb a st; y ← get_mb b st; st ← m_adj [b] 1000 st;
   '(r, st) ← m_pullup base mem [b] 24 st;
   mret (kref st (mtod a x), bool_decide (mtod a x ∈ mclfree st), kref st (mtod b y))) = Ok (Some 0, true, Some 1).
Proof. vm_compute. reflexivity. Qed.

(** m_cpytoc() of 30 bytes of a chain of 20 and 100 copies 120. *)
Example m_cpytoc_overruns : (r ← m_cpytoc [ma; mb] 0 30 2000 p3; mret r.1) = Ok (-90).
Proof. vm_compute. reflexivity. Qed.

(** m_adj() by -10 of a chain of 20, 0 and 100 bytes takes the 10 bytes off the first mbuf. *)
Example m_adj_trims_before_empty :
  ('(c, st) ← get1 p3; x ← get_mb c st; st ← m_adj [ma; c; mb] (-10) (put_mb c (set_len x 0) st);
   x ← get_mb ma st; y ← get_mb mb st; mret (m_len x, m_len y)) = Ok (10, 100).
Proof. vm_compute. reflexivity. Qed.
