(* ===== verification/Flags.v ===== *)
(** * Words of flags

    The C idioms [x & F], [x |= F], [x &= ~F] on a word of flags, read bit by bit; [flags] brings a
    statement about them down to booleans.  Definitions and lemmas shared by the components that
    keep their state in such a word. *)

From S2P Require Import Prelude.
From stdpp Require Import prelude.
From Stdlib Require Import ZArith Lia.

Local Open Scope Z_scope.

(** [x & f] as a condition, [x |= f], [x &= ~f]. *)
Definition has (x f : Z) : bool := negb (Z.land x f =? 0).
Definition with_bits (x f : Z) : Z := Z.lor x f.
Definition without (x f : Z) : Z := Z.land x (Z.lnot f).

Lemma has_false x f : has x f = false <-> Z.land x f = 0.
Proof. unfold has. rewrite negb_false_iff. apply Z.eqb_eq. Qed.

(** A flag of one bit. *)
Lemma has_bit x k : 0 <= k -> has x (2 ^ k) = Z.testbit x k.
Proof.
  intros Hk. apply eq_true_iff_eq. unfold has. rewrite negb_true_iff, Z.eqb_neq. split.
  - intros Hn. destruct (Z.testbit x k) eqn:E; [done|]. destruct Hn. apply Z.bits_inj_0. intros n.
    rewrite Z.land_spec, Z.pow2_bits_eqb by done. destruct (Z.eqb_spec k n) as [<-|]; [by rewrite E|by rewrite andb_false_r].
  - intros E Hz. apply (f_equal (fun z => Z.testbit z k)) in Hz.
    by rewrite Z.land_spec, E, Z.pow2_bits_true, Z.bits_0 in Hz.
Qed.

(** Several flags at once. *)
Lemma has_lor x f g : has x (Z.lor f g) = has x f || has x g.
Proof.
  unfold has. rewrite Z.land_lor_distr_r. destruct (Z.eqb_spec (Z.land x f) 0) as [->|E].
  - by rewrite Z.lor_0_l.
  - cbn. rewrite (proj2 (Z.eqb_neq _ _)); [done|]. by intros [? _]%Z.lor_eq_0_iff.
Qed.

Lemma with_bits_spec x f k : Z.testbit (with_bits x f) k = Z.testbit x k || Z.testbit f k.
Proof. apply Z.lor_spec. Qed.
Lemma without_spec x f k : 0 <= k -> Z.testbit (without x f) k = Z.testbit x k && negb (Z.testbit f k).
Proof. intros Hk. unfold without. by rewrite Z.land_spec, Z.lnot_spec. Qed.

Lemma with_bits_nonneg x f : 0 <= x -> 0 <= f -> 0 <= with_bits x f.
Proof. intros Hx Hf. by apply Z.lor_nonneg. Qed.
Lemma without_nonneg x f : 0 <= x -> 0 <= without x f.
Proof. intros Hx. apply Z.land_nonneg. by left. Qed.
Lemma with_bits_id x f : Z.land x f = f -> with_bits x f = x.
Proof. intros <-. apply Z.bits_inj'. intros n _. unfold with_bits. rewrite Z.lor_spec, Z.land_spec. by destruct (Z.testbit x n), (Z.testbit f n). Qed.

(** [has x F] for a numeral [F] of one bit becomes a bit of [x]. *)
Ltac flag_bits :=
  repeat match goal with
  | |- context [has ?x ?f] =>
      let k := eval vm_compute in (Z.log2 f) in
      change (has x f) with (has x (2 ^ k)); rewrite (has_bit x k) by done
  | H : context [has ?x ?f] |- _ =>
      let k := eval vm_compute in (Z.log2 f) in
      change (has x f) with (has x (2 ^ k)) in H; rewrite (has_bit x k) in H by done
  end.
Ltac const_bits :=
  repeat match goal with
  | |- context [Z.testbit ?c ?k] =>
      let v := eval vm_compute in (Z.testbit c k) in
      match v with true => idtac | false => idtac end; change (Z.testbit c k) with v
  | H : context [Z.testbit ?c ?k] |- _ =>
      let v := eval vm_compute in (Z.testbit c k) in
      match v with true => idtac | false => idtac end; change (Z.testbit c k) with v in H
  end.
Ltac push_bits :=
  repeat match goal with
  | |- context [Z.testbit (with_bits _ _) _] => rewrite with_bits_spec
  | |- context [Z.testbit (without _ _) _] => rewrite without_spec by done
  | H : context [Z.testbit (with_bits _ _) _] |- _ => rewrite with_bits_spec in H
  | H : context [Z.testbit (without _ _) _] |- _ => rewrite without_spec in H by done
  end.
Ltac flags :=
  flag_bits; push_bits; const_bits; cbn [orb andb negb] in *;
  rewrite ?orb_true_r, ?orb_false_r, ?andb_true_r, ?andb_false_r in *.

Example flags_small x : has (without (with_bits x 6) 4) 2 = true /\ has (without (with_bits x 6) 4) 4 = false.
Proof. flags. done. Qed.
