(* ===== verification/Sockbuf.v ===== *)
(** * Socket buffers: [src/sun/sys/sys/uipc_socket2.c], [h/socketvar.h]

    Definitions only.  A socket buffer holds a chain of mbufs of the pool of [Mbuf], the counts
    of its bytes and of the storage it takes, and the flags of its lock and its waiters.  The
    end of a record is marked by [m_act] in the last mbuf of the record.  Sleeping is a cut
    point: sblock() and sbwait() return what the process sleeps on. *)

From S2P Require Import Prelude Flags Rmap Mbuf.
From stdpp Require Import prelude list numbers strings gmap.
From Stdlib Require Import ZArith Lia.

Local Open Scope Z_scope.
Local Open Scope kern_scope.

Definition SB_LOCK := 1.
Definition SB_WANT := 2.
Definition SB_WAIT := 4.
Definition SB_COLL := 16.
Definition SB_MAXCOUNT := 32767.
Definition ENOBUFS := 55.
Definition SOCKADDR_SIZE := 16.

Record sockbuf := Sockbuf {
  sb_cc : Z; sb_hiwat : Z; sb_mbcnt : Z; sb_mbmax : Z; sb_lowat : Z; sb_timeo : Z;
  sb_mb : list Z; sb_sel : option nat; sb_flags : Z
}.

(** What a routine asks of the scheduler: wakeup of the sleepers on [sb_cc] (all, or one for the
    NFS server), of those on [sb_flags], and selwakeup. *)
Inductive sbevent := SbWakeup (one : bool) | SbUnlocked | SbSelwakeup (p : nat) (coll : bool).
(** Where a process sleeps. *)
Inductive sbchan := OnCc | OnFlags.

Definition with_counts (sb : sockbuf) (cc mbcnt : Z) : sockbuf :=
  Sockbuf (i16 cc) (sb_hiwat sb) (i16 mbcnt) (sb_mbmax sb) (sb_lowat sb) (sb_timeo sb) (sb_mb sb) (sb_sel sb) (sb_flags sb).
Definition with_mb (sb : sockbuf) (m : list Z) : sockbuf :=
  Sockbuf (sb_cc sb) (sb_hiwat sb) (sb_mbcnt sb) (sb_mbmax sb) (sb_lowat sb) (sb_timeo sb) m (sb_sel sb) (sb_flags sb).
Definition with_flags (sb : sockbuf) (f : Z) : sockbuf :=
  Sockbuf (sb_cc sb) (sb_hiwat sb) (sb_mbcnt sb) (sb_mbmax sb) (sb_lowat sb) (sb_timeo sb) (sb_mb sb) (sb_sel sb) f.
Definition with_sel (sb : sockbuf) (p : option nat) : sockbuf :=
  Sockbuf (sb_cc sb) (sb_hiwat sb) (sb_mbcnt sb) (sb_mbmax sb) (sb_lowat sb) (sb_timeo sb) (sb_mb sb) p (sb_flags sb).
Definition with_limits (sb : sockbuf) (h m : Z) : sockbuf :=
  Sockbuf (sb_cc sb) (i16 h) (sb_mbcnt sb) (i16 m) (sb_lowat sb) (sb_timeo sb) (sb_mb sb) (sb_sel sb) (sb_flags sb).

Definition flagged (sb : sockbuf) (f : Z) : bool := has (sb_flags sb) f.

(** ** The macros *)

Definition sbspace (sb : sockbuf) : Z := Z.min (sb_hiwat sb - sb_cc sb) (sb_mbmax sb - sb_mbcnt sb).

(** The storage of an mbuf, its cluster included. *)
Definition mbsize (x : mbuf) : Z := if MMAXOFF <? m_off x then MSIZE + MCLBYTES else MSIZE.
Definition sballoc (sb : sockbuf) (x : mbuf) : sockbuf := with_counts sb (sb_cc sb + m_len x) (sb_mbcnt sb + mbsize x).
Definition sbfree (sb : sockbuf) (x : mbuf) : sockbuf := with_counts sb (sb_cc sb - m_len x) (sb_mbcnt sb - mbsize x).

(** One pass of the loop of sblock(): the lock, or a sleep. *)
Definition sblock (sb : sockbuf) : sockbuf * option sbchan :=
  if flagged sb SB_LOCK then (with_flags sb (with_bits (sb_flags sb) SB_WANT), Some OnFlags)
  else (with_flags sb (with_bits (sb_flags sb) SB_LOCK), None).

Definition sbunlock (sb : sockbuf) : sockbuf * list sbevent :=
  let sb := with_flags sb (without (sb_flags sb) SB_LOCK) in
  if flagged sb SB_WANT then (with_flags sb (without (sb_flags sb) SB_WANT), [SbUnlocked]) else (sb, []).

(** ** Waiting and waking *)

(** [selecting p]: process [p] sleeps on [selwait]; [self] is the caller. *)
Definition sbselqueue (selecting : nat -> bool) (self : nat) (sb : sockbuf) : sockbuf :=
  match sb_sel sb with
  | Some p => if selecting p then with_flags sb (with_bits (sb_flags sb) SB_COLL) else with_sel sb (Some self)
  | None => with_sel sb (Some self)
  end.

Definition sbwait (sb : sockbuf) : sockbuf * option sbchan := (with_flags sb (with_bits (sb_flags sb) SB_WAIT), Some OnCc).

(** [nfsd]: nfs_wakeup_one_nfsd is 1. *)
Definition sbwakeup (nfsd : bool) (sb : sockbuf) : sockbuf * list sbevent :=
  let '(sb, ev) :=
    match sb_sel sb with
    | Some p => (with_flags (with_sel sb None) (without (sb_flags sb) SB_COLL), [SbSelwakeup p (flagged sb SB_COLL)])
    | None => (sb, [])
    end in
  if flagged sb SB_WAIT then (with_flags sb (without (sb_flags sb) SB_WAIT), ev ++ [SbWakeup nfsd]) else (sb, ev).

(** ** Reservation *)

Definition sbreserve (sb : sockbuf) (cc : Z) : sockbuf :=
  let sb := with_limits sb cc (i32 (Z.shiftl cc 1)) in
  let sb := if sb_hiwat sb <=? 0 then with_limits sb SB_MAXCOUNT (sb_mbmax sb) else sb in
  if sb_mbmax sb <=? 0 then with_limits sb (sb_hiwat sb) SB_MAXCOUNT else sb.

Section Sockbuf.
Context {M H : Type} `{RM : !ResMap M}.
Context (mbutl : Z) (memall : Z -> Z -> bool) (kalloc : Z -> H -> res (Z * H)).
Implicit Type st : mbst M H.

(** ** Adding data *)

(** The loop of sbappend(): [sb_mb sb], of which [last] is the code's [n], takes the mbufs of [m]. *)
Fixpoint sbappend_loop (m : list Z) (sb : sockbuf) st : res (sockbuf * mbst M H) :=
  match m with
  | [] => mret (sb, st)
  | a :: m' =>
      x ← get_mb a st;
      if (m_len x =? 0) && (m_act x =? 0) then st ← MFREE mbutl a st; sbappend_loop m' sb st
      else
        r ← match last (sb_mb sb) with
            | None => mret None
            | Some n =>
                y ← get_mb n st;
                mret (if (m_off y <=? MMAXOFF) && (m_off x <=? MMAXOFF) && (m_act y =? 0) && (m_act x =? 0)
                         && (m_off y + m_len y + m_len x <=? MMAXOFF) then Some (n, y) else None)
            end;
        match r with
        | Some (n, y) =>
            st ← bcopy (mtod a x) (mtod n y + m_len y) (m_len x) st;
            let st := put_mb n (set_len y (m_len y + m_len x)) st in
            let sb := with_counts sb (sb_cc sb + m_len x) (sb_mbcnt sb) in
            st ← MFREE mbutl a st;
            sbappend_loop m' sb st
        | None => let sb := sballoc sb x in sbappend_loop m' (with_mb sb (sb_mb sb ++ [a])) st
        end
  end.
Definition sbappend (sb : sockbuf) (m : list Z) st : res (sockbuf * mbst M H) := sbappend_loop m sb st.

(** The bytes of a datagram, its last mbuf being marked as the end of a record. *)
Fixpoint mark_last (m : list Z) (len : Z) st : res (Z * mbst M H) :=
  match m with
  | [] => mret (len, st)
  | a :: m' =>
      x ← get_mb a st;
      let len := len + m_len x in
      match m' with
      | [] => mret (len, put_mb a (set_act x 1) st)
      | _ :: _ => mark_last m' len st
      end
  end.

(** The rights that go with a datagram: a copy, or an empty mbuf. *)
Definition copy_rights (rights0 : list Z) st : res (list Z * mbst M H) :=
  match rights0 with
  | r0 :: _ =>
      x ← get_mb r0 st;
      if m_len x =? 0 then
        '(r, st) ← m_get mbutl memall MT_SONAME st;
        match r with
        | Some a => y ← get_mb a st; mret ([a], put_mb a (set_len y 0) st)
        | None => mret ([], st)
        end
      else m_copy mbutl memall kalloc rights0 0 (m_len x) st
  | [] =>
      '(r, st) ← m_get mbutl memall MT_SONAME st;
      match r with
      | Some a => y ← get_mb a st; mret ([a], put_mb a (set_len y 0) st)
      | None => mret ([], st)
      end
  end.

(** [rights->m_act = 1; m->m_next = rights; rights->m_next = m0]: what followed the first mbuf of the
    copy is let go. *)
Definition sbappendaddr (sb : sockbuf) (asa : list Z) (m0 rights0 : list Z) (rightsflag : bool) st
    : res (bool * sockbuf * mbst M H) :=
  rlen ← match rights0 with r0 :: _ => x ← get_mb r0 st; mret (m_len x) | [] => mret 0 end;
  if bool_decide (m0 = []) then Panic "sbappendaddr"
  else
    '(len, st) ← mark_last m0 (SOCKADDR_SIZE + rlen) st;
    if sbspace sb <? len then mret (false, sb, st)
    else
      '(r, st) ← m_get mbutl memall MT_SONAME st;
      match r with
      | None => mret (false, sb, st)
      | Some m =>
          y ← get_mb m st;
          let y := set_act (set_len y SOCKADDR_SIZE) 1 in
          let st := put_mb m y st in
          let st := set_core st (store (core st) (mtod m y) asa) in
          if rightsflag then
            '(rights, st) ← copy_rights rights0 st;
            match rights with
            | [] => st ← m_freem mbutl [m] st; mret (false, sb, st)
            | r :: _ =>
                z ← get_mb r st;
                let st := put_mb r (set_act z 1) st in
                '(sb, st) ← sbappend sb (m :: r :: m0) st;
                mret (true, sb, st)
            end
          else
            '(sb, st) ← sbappend sb (m :: m0) st;
            mret (true, sb, st)
      end.

(** ** Removing data *)

(** The loop of sbdrop(): the chain left. *)
Fixpoint sbdrop_loop (m : list Z) (len : Z) (sb : sockbuf) st : res (list Z * sockbuf * mbst M H) :=
  match m with
  | [] => if 0 <? len then Panic "sbdrop" else mret ([], sb, st)
  | a :: m' =>
      x ← get_mb a st;
      if (0 <? len) || (m_len x =? 0) then
        if len <? m_len x then
          mret (m, with_counts sb (sb_cc sb - len) (sb_mbcnt sb),
                put_mb a (set_off (set_len x (m_len x - len)) (m_off x + len)) st)
        else
          let sb := sbfree sb x in
          st ← MFREE mbutl a st;
          sbdrop_loop m' (len - m_len x) sb st
      else mret (m, sb, st)
  end.

Definition sbdrop (sb : sockbuf) (len : Z) st : res (sockbuf * mbst M H) :=
  '(m, sb, st) ← sbdrop_loop (sb_mb sb) len sb st;
  mret (with_mb sb m, st).

Definition sbflush (sb : sockbuf) st : res (sockbuf * mbst M H) :=
  if flagged sb SB_LOCK then Panic "sbflush"
  else
    '(sb, st) ← (if sb_cc sb =? 0 then mret (sb, st) else sbdrop sb (sb_cc sb) st);
    if negb (sb_cc sb =? 0) || negb (sb_mbcnt sb =? 0) || negb (bool_decide (sb_mb sb = []))
    then Panic "sbflush 2" else mret (sb, st).

Definition sbrelease (sb : sockbuf) st : res (sockbuf * mbst M H) :=
  '(sb, st) ← sbflush sb st;
  mret (with_limits sb 0 0, st).

(** sbreserve() of both buffers of a socket; it does not fail. *)
Definition soreserve (snd rcv : sockbuf) (sndcc rcvcc : Z) : sockbuf * sockbuf := (sbreserve snd sndcc, sbreserve rcv rcvcc).
End Sockbuf.
