(* ===== verification/SockbufThms.v ===== *)
(** * Socket buffers against the stream of bytes and record marks they hold

    The abstraction of a socket buffer is a list of tokens, the bytes of its mbufs with a mark
    after each mbuf that ends a record.  sbappend adds exactly the tokens of what it is given,
    whatever it merges or drops; sbdrop removes bytes from the front; the two counters follow. *)

From S2P Require Import Prelude Flags Rmap Mbuf MbufThms MbufOps MbufCopy MbufTrim Sockbuf.
From stdpp Require Import prelude list numbers strings gmap.
From Stdlib Require Import ZArith Lia.

Local Open Scope Z_scope.
Local Open Scope kern_scope.

(** ** The lock, the limits *)

(** the lock of a socket buffer: sblock takes it exactly when it is free, and otherwise leaves a
    want behind; sbunlock frees it and, exactly when someone wants it, wakes the sleepers and
    clears the want; nothing else of the buffer changes. *)
Theorem sblock_sound sb : let '(sb', sl) := sblock sb in let '(sb'', ev) := sbunlock sb' in
  flagged sb' SB_LOCK = true /\ flagged sb'' SB_LOCK = false /\ flagged sb'' SB_WANT = false /\
  (sl = Some OnFlags <-> flagged sb SB_LOCK = true) /\
  (ev = [SbUnlocked] <-> flagged sb SB_LOCK = true \/ flagged sb SB_WANT = true) /\
  flagged sb'' SB_WAIT = flagged sb SB_WAIT /\ flagged sb'' SB_COLL = flagged sb SB_COLL /\
  sb'' = with_flags sb (sb_flags sb'').
Proof.
  unfold sblock, sbunlock, flagged, SB_LOCK, SB_WANT, SB_WAIT, SB_COLL. destruct sb as [? ? ? ? ? ? ? ? f].
  cbn [sb_flags with_flags]. destruct (has f 1) eqn:E1; cbn [sb_flags with_flags];
    (match goal with |- context [if ?b then _ else _] => destruct b eqn:E2 end); cbn [sb_flags with_flags] in *;
    flags; naive_solver congruence.
Qed.

(** sbreserve never leaves a limit that is not positive or does not fit a short, and grants what
    it is asked when twice that fits a short. *)
Theorem sbreserve_limits sb cc : let sb' := sbreserve sb cc in
  0 < sb_hiwat sb' <= SB_MAXCOUNT /\ 0 < sb_mbmax sb' <= SB_MAXCOUNT /\
  (0 < cc < 2 ^ 14 -> sb_hiwat sb' = cc /\ sb_mbmax sb' = 2 * cc).
Proof.
  pose proof (wraps_range 16 cc ltac:(done)) as H1. pose proof (wraps_range 16 (i32 (Z.shiftl cc 1)) ltac:(done)) as H2.
  unfold sbreserve. cbn [sb_hiwat sb_mbmax with_limits].
  assert (0 < cc < 2 ^ 14 -> i16 cc = cc /\ i16 (i32 (Z.shiftl cc 1)) = 2 * cc) as Hs.
  { intros Hc. rewrite Z.shiftl_mul_pow2, (wraps_small 32) by lia. split; [apply wraps_small; lia|].
    rewrite wraps_small; lia. }
  assert (i16 SB_MAXCOUNT = SB_MAXCOUNT) as Hm by done.
  destruct (Z.leb_spec (i16 cc) 0); cbn [sb_hiwat sb_mbmax with_limits]; rewrite ?wraps_idem, ?Hm by done;
    (destruct (Z.leb_spec (i16 (i32 (Z.shiftl cc 1))) 0)); cbn [sb_hiwat sb_mbmax with_limits]; rewrite ?wraps_idem, ?Hm by done;
    unfold SB_MAXCOUNT in *; split_and!; lia.
Qed.

Inductive tok := Byte (b : Z) | Eor.

Section Thms.
Context {M H : Type} `{RM : !ResMap M}.
Context (mbutl : Z).
Hypothesis Hbase : 0 < mbutl /\ mbutl mod NBPG = 0 /\ mbutl + NMBCLUSTERS * NBPG <= 2 ^ 32.
Implicit Type st : mbst M H.

Local Notation wf := (mb_wf mbutl).
Local Notation sized := (sized mbutl).
Local Notation kept := (kept mbutl).
Local Notation chain := (chain mbutl).

(** ** Streams and counts *)

Definition toks st (a : Z) : list tok :=
  match mbs st !! a with
  | Some x => (Byte <$> data st a x) ++ (if m_act x =? 0 then [] else [Eor])
  | None => []
  end.
Definition stream st (m : list Z) : list tok := concat (toks st <$> m).

Definition size_of st (a : Z) : Z := match mbs st !! a with Some x => mbsize x | None => 0 end.
Definition storage st (m : list Z) : Z := foldr (fun a s => size_of st a + s) 0 m.

Lemma toks_use st a x : in_use st a x -> toks st a = (Byte <$> data st a x) ++ (if m_act x =? 0 then [] else [Eor]).
Proof. clear Hbase. intros [Ha _]. unfold toks. by rewrite Ha. Qed.

Lemma stream_app st m1 m2 : stream st (m1 ++ m2) = stream st m1 ++ stream st m2.
Proof. clear Hbase. unfold stream. by rewrite fmap_app, concat_app. Qed.

Lemma stream_cons st a m : stream st (a :: m) = toks st a ++ stream st m.
Proof. done. Qed.

Lemma storage_app st m1 m2 : storage st (m1 ++ m2) = storage st m1 + storage st m2.
Proof. clear Hbase. induction m1 as [|a m1 IH]; simpl; [done|]. rewrite IH. lia. Qed.

Lemma kept_stream (X : Z -> Prop) st st' m : kept X st st' -> chain st m -> (forall a, a ∈ m -> ~ X a) ->
  chain st' m /\ stream st' m = stream st m /\ content st' m = content st m /\ storage st' m = storage st m.
Proof.
  clear Hbase. intros Hk Hc Hx. destruct (kept_chain mbutl X st st' m Hk Hc Hx) as [Hc' Ec]. split; [done|].
  assert (forall a, a ∈ m -> toks st' a = toks st a /\ size_of st' a = size_of st a) as Ht.
  { intros a Ha. destruct (proj2 Hc a Ha) as (x & Hu & Hs). destruct (Hk a x Hu (Hx a Ha)) as [Hu' Hd].
    split; [by rewrite (toks_use _ _ _ Hu), (toks_use _ _ _ Hu'), Hd|].
    unfold size_of. by rewrite (proj1 Hu), (proj1 Hu'). }
  split_and!; [|done|].
  - unfold stream. f_equal. apply list_fmap_ext. intros i a Ha%list_elem_of_lookup_2. by apply Ht.
  - clear Hc Hc' Ec Hx. induction m as [|a m IH]; [done|]. simpl. rewrite (proj2 (Ht a ltac:(by left))), IH; [done|].
    intros b Hb. apply Ht. by right.
Qed.

(** The counters are the sums, in 16 bits. *)
Definition counted sb st (m : list Z) : Prop :=
  sb_cc sb = i16 (Z.of_nat (length (content st m))) /\ sb_mbcnt sb = i16 (storage st m).
Definition sb_ok sb st : Prop := chain st (sb_mb sb) /\ counted sb st (sb_mb sb).

(** The rest of the buffer is left alone. *)
Definition same_sb (sb sb' : sockbuf) : Prop := sb_hiwat sb' = sb_hiwat sb /\ sb_mbmax sb' = sb_mbmax sb /\
  sb_flags sb' = sb_flags sb /\ sb_sel sb' = sb_sel sb.

Lemma same_sb_trans s1 s2 s3 : same_sb s1 s2 -> same_sb s2 s3 -> same_sb s1 s3.
Proof. clear Hbase. intros (A1&A2&A3&A4) (B1&B2&B3&B4). split_and!; congruence. Qed.

(** Taking one mbuf out of a chain by freeing it. *)
Lemma free_one st l1 a l2 : wf st -> chain st (l1 ++ a :: l2) ->
  exists st', MFREE mbutl a st = Ok st' /\ wf st' /\ kept (only a) st st' /\ chain st' (l1 ++ l2) /\
    stream st' (l1 ++ l2) = stream st (l1 ++ l2) /\ content st' (l1 ++ l2) = content st (l1 ++ l2) /\
    stream st' l1 = stream st l1 /\ content st' l1 = content st l1 /\ storage st' l1 = storage st l1 /\
    (forall b z, in_use st' b z <-> b <> a /\ in_use st b z).
Proof.
  intros Hw Hc. pose proof (proj1 (chain_mid mbutl st l1 a l2) Hc) as (Hna & (x & Hu & Hs) & Hc')%chain_cons.
  destruct (MFREE_spec mbutl Hbase st a x Hw Hu) as (st' & -> & Hf). exists st'.
  pose proof (freed_kept mbutl _ _ _ _ Hf) as Hk.
  assert (forall b, b ∈ l1 ++ l2 -> b <> a) as Hne by (intros b Hb ->; done).
  destruct (kept_stream _ _ _ (l1 ++ l2) Hk Hc' Hne) as (C1 & C2 & C3 & _).
  assert (chain st l1) as Hc1.
  { destruct Hc' as [(N1 & _ & _)%NoDup_app Hi]. split; [done|]. intros b Hb. apply Hi, elem_of_app. by left. }
  destruct (kept_stream _ _ _ l1 Hk Hc1) as (_ & D1 & D2 & D3). { intros b Hb. apply Hne, elem_of_app. by left. }
  split_and!; try done; [by apply (fr_wf _ _ _ _ _ Hf)|exact (freed_use _ _ _ _ _ Hf)].
Qed.

(** ** sbappend *)

(** Merging [a] into the last mbuf [n] of the buffer. *)
Lemma merge_spec st q n y a x m : wf st -> chain st ((q ++ [n]) ++ a :: m) -> in_use st n y -> in_use st a x ->
  m_off y <= MMAXOFF -> m_act y = 0 -> m_act x = 0 -> m_off y + m_len y + m_len x <= MMAXOFF ->
  exists st', (st ← bcopy (mtod a x) (mtod n y + m_len y) (m_len x) st;
    MFREE mbutl a (put_mb n (set_len y (m_len y + m_len x)) st)) = Ok st' /\ wf st' /\
    kept (fun b => b = n \/ b = a) st st' /\ chain st' ((q ++ [n]) ++ m) /\
    stream st' ((q ++ [n]) ++ m) = stream st ((q ++ [n]) ++ a :: m) /\
    length (content st' (q ++ [n])) = (length (content st (q ++ [n])) + Z.to_nat (m_len x))%nat /\
    storage st' (q ++ [n]) = storage st (q ++ [n]) /\
    (forall b z, b ∉ (q ++ [n]) ++ a :: m -> in_use st' b z -> in_use st b z).
Proof.
  intros Hw Hc Hun Hua Hoy Hay Hax Hfit.
  assert ((q ++ [n]) ++ a :: m ≡ₚ n :: a :: q ++ m) as E.
  { rewrite <- (Permutation_middle (q ++ [n]) m a), <- app_assoc. simpl. by rewrite <- (Permutation_middle q m n), perm_swap. }
  pose proof Hc as Hc1. rewrite E in Hc1.
  pose proof Hc1 as (Hna & (y' & Hu' & Hsy) & Hc2)%chain_cons. rewrite <- (in_use_eq _ _ _ _ Hun Hu') in Hsy. clear y' Hu'.
  pose proof Hc2 as (Haq & (x' & Hu' & Hsx) & Hc3)%chain_cons. rewrite <- (in_use_eq _ _ _ _ Hua Hu') in Hsx. clear x' Hu'.
  pose proof (proj1 Hsx) as [Hx0 _].
  assert (inline y) as Hi.
  { destruct (b_use _ _ Hw n y Hun) as [?|[[[[Ho _] _] _]|[[Ho _] _]]]; [done|..]; unfold MMAXOFF, MSIZE, MTAIL in *; lia. }
  rewrite bcopy_Ok by lia. kpop.
  destruct (absorb_spec mbutl Hbase st n y (mtod a x) (m_len x) Hw Hun Hi Hsy Hx0 Hfit) as (W1 & W2 & W3 & W4 & W5 & W6 & W7 & _).
  set (st1 := absorbed n (mtod a x) (m_len x) y st) in *. change (put_mb n _ _) with st1.
  destruct (kept_stream _ _ _ (a :: q ++ m) W2 Hc2) as (C1 & C2 & _ & _). { intros b Hb ->. done. }
  assert (chain st1 ((q ++ [n]) ++ a :: m)) as Hc1' by (rewrite E; apply chain_cons; split_and!; eauto).
  assert (forall l, l ⊆ a :: q ++ m -> NoDup l -> stream st1 l = stream st l /\ content st1 l = content st l /\ storage st1 l = storage st l) as Hsub.
  { intros l Hl Hnd. destruct (kept_stream _ _ _ l W2) as (_ & ? & ? & ?); [|by intros b Hb%Hl ->|done].
    split; [done|]. intros b Hb%Hl. by apply Hc2. }
  assert (NoDup q /\ NoDup m) as [Nq Nm] by (by destruct Hc3 as [(? & _ & ?)%NoDup_app _]).
  destruct (Hsub q ltac:(set_solver) Nq) as (Q1 & Q2 & Q3). destruct (Hsub m ltac:(set_solver) Nm) as (R1 & R2 & R3).
  destruct (free_one st1 (q ++ [n]) a m W1 Hc1') as (st' & -> & V1 & V2 & V3 & V4 & V5 & V6 & V7 & V8 & V9).
  pose proof (bytes_length mbutl st a x Hua Hsx) as Hla.
  assert (toks st1 n = toks st n ++ toks st a) as Etok.
  { rewrite (toks_use _ _ _ W3), (toks_use _ _ _ Hun), (toks_use _ _ _ Hua). change (m_act (set_len y _)) with (m_act y).
    rewrite Hay, Hax. change (0 =? 0) with true. cbn iota. rewrite !app_nil_r, <- fmap_app. f_equal.
    rewrite <- (bytes_data _ _ _ W3), W7, (bytes_data _ _ _ Hun). done. }
  exists st'. split_and!; try done.
  - eapply kept_weaken; [|exact (kept_trans_or mbutl _ _ _ _ _ W2 V2)]. by intros b z _ [->| ->]; auto.
  - rewrite V4, !stream_app, Q1, R1, <- !app_assoc. f_equal. unfold stream. simpl. rewrite Etok, !app_nil_r, <- app_assoc. done.
  - rewrite V7, !content_app, !length_app, Q2. unfold content. simpl. rewrite !app_nil_r, W7, length_app.
    pose proof (load_length (core st) (mtod a x) (m_len x) Hx0). lia.
  - rewrite V8, !storage_app, Q3. simpl. unfold size_of. by rewrite (proj1 W3), (proj1 Hun).
  - intros b z Hb Hz. apply W6; [intros ->; apply Hb; set_solver|]. by apply V9.
Qed.

(** Everything sbappend promises: [m] has been taken over, [X] are the mbufs it could touch. *)
Lemma sbappend_loop_spec m : forall sb st, wf st -> chain st (sb_mb sb ++ m) -> counted sb st (sb_mb sb) ->
  exists sb' st', sbappend_loop mbutl m sb st = Ok (sb', st') /\ wf st' /\
    kept (fun a => a ∈ sb_mb sb ++ m) st st' /\ sb_ok sb' st' /\ same_sb sb sb' /\
    stream st' (sb_mb sb') = stream st (sb_mb sb ++ m) /\ sb_mb sb' ⊆ sb_mb sb ++ m /\
    (forall b z, b ∉ sb_mb sb ++ m -> in_use st' b z -> in_use st b z).
Proof.
  induction m as [|a m IH]; intros sb st Hw Hc Hcnt; cbn [sbappend_loop].
  { exists sb, st. rewrite app_nil_r in *. split_and!; try done; apply Hcnt. }
  pose proof (proj1 (chain_mid mbutl st (sb_mb sb) a m) Hc) as (Hna & (x & Hu & Hs) & Hcm)%chain_cons.
  rewrite (get_mb_Ok _ _ _ (proj1 Hu)). kpop. pose proof (proj1 Hs) as [Hx0 _].
  destruct ((m_len x =? 0) && (m_act x =? 0)) eqn:E0.
  - apply andb_true_iff in E0 as [El%Z.eqb_eq Ea%Z.eqb_eq].
    destruct (free_one st (sb_mb sb) a m Hw Hc) as (st1 & -> & W1 & W2 & W3 & W4 & W5 & W6 & W7 & W8 & W9). kpop.
    destruct (IH sb st1 W1 W3) as (sb' & st' & -> & V1 & V2 & V3 & V4 & V5 & V6 & V7).
    { split; [rewrite W7; apply Hcnt|rewrite W8; apply Hcnt]. }
    exists sb', st'. split_and!; try done; try apply V3.
    + eapply kept_weaken; [|exact (kept_trans_or mbutl _ _ _ _ _ W2 V2)]. unfold only. intros b z _. set_solver.
    + rewrite V5, W4, !stream_app, stream_cons, (toks_use _ _ _ Hu), Ea. unfold data. by rewrite El.
    + set_solver.
    + intros b z Hb Hz. apply (W9 b z). apply V7; [set_solver|done].
  - assert (exists sb' st', sbappend_loop mbutl m (with_mb (sballoc sb x) (sb_mb sb ++ [a])) st = Ok (sb', st') /\ wf st' /\
      kept (fun b => b ∈ sb_mb sb ++ a :: m) st st' /\ sb_ok sb' st' /\ same_sb sb sb' /\
      stream st' (sb_mb sb') = stream st (sb_mb sb ++ a :: m) /\ sb_mb sb' ⊆ sb_mb sb ++ a :: m /\
      (forall b z, b ∉ sb_mb sb ++ a :: m -> in_use st' b z -> in_use st b z)) as Htake.
    { assert ((sb_mb sb ++ [a]) ++ m = sb_mb sb ++ a :: m) as E1 by (by rewrite <- app_assoc).
      destruct (IH (with_mb (sballoc sb x) (sb_mb sb ++ [a])) st Hw) as (sb' & st' & Hr & V1 & V2 & V3 & V4 & V5 & V6 & V7).
      - cbn [sb_mb with_mb]. by rewrite E1.
      - cbn [sb_mb with_mb]. unfold counted in *. cbn [sb_cc sb_mbcnt with_mb sballoc with_counts].
        rewrite (proj1 Hcnt), (proj2 Hcnt), !wraps_add_l, content_app, storage_app, length_app by done.
        unfold content at 3. simpl. rewrite app_nil_r. unfold size_of. rewrite (proj1 Hu).
        pose proof (bytes_length mbutl st a x Hu Hs). split; f_equal; lia.
      - cbn [sb_mb with_mb] in *. rewrite E1 in *. by exists sb', st'. }
    destruct (exists_last' (sb_mb sb)) as [Eq|(q & n & Eq)].
    + assert (last (sb_mb sb) = None) as -> by (by rewrite Eq). kstep. exact Htake.
    + assert (last (sb_mb sb) = Some n) as -> by (by rewrite Eq, last_snoc).
      assert (n ∈ sb_mb sb) as Hn by (rewrite Eq; set_solver).
      destruct (proj2 Hc n) as (y & Hun & Hsy); [apply elem_of_app; by left|].
      rewrite (get_mb_Ok _ _ _ (proj1 Hun)). kstep.
      destruct (_ && _) eqn:E in |- *; [|exact Htake].
      rewrite !andb_true_iff, !Z.leb_le, !Z.eqb_eq in E. destruct E as ((((O1 & O2) & A1) & A2) & O3).
      rewrite Eq in Hc. destruct (merge_spec st q n y a x m Hw Hc Hun Hu O1 A1 A2 O3) as (st1 & Hr & W1 & W2 & W3 & W4 & W5 & W6 & W7).
      rewrite bcopy_Ok in Hr |- * by lia. kstep. cbn [mbind res_bind] in Hr. rewrite Hr. kstep. rewrite <- Eq in *.
      destruct (IH (with_counts sb (sb_cc sb + m_len x) (sb_mbcnt sb)) st1 W1 W3) as (sb' & st' & -> & V1 & V2 & V3 & V4 & V5 & V6 & V7).
      { unfold counted. cbn [sb_cc sb_mbcnt with_counts sb_mb]. rewrite W5, W6, (proj1 Hcnt), (proj2 Hcnt), wraps_add_l by done.
        split; [f_equal; lia|]. pose proof (wraps_add_l 16 (storage st (sb_mb sb)) 0 ltac:(done)) as Ew. by rewrite !Z.add_0_r in Ew. }
      cbn [sb_mb with_counts] in *. exists sb', st'. split_and!; try done; try apply V3.
      * eapply kept_weaken; [|exact (kept_trans_or mbutl _ _ _ _ _ W2 V2)]. simpl. intros b z _ [[->| ->]|Hb]; set_solver.
      * by rewrite V5.
      * set_solver.
      * intros b z Hb Hz. apply W7; [done|]. apply V7; [set_solver|done].
Qed.

(** C7: sbappend adds to a socket buffer exactly the bytes and the record marks of the chain it
    is given, in order, whatever it merges into the last mbuf or frees; the two counters stay
    the sums of what is held, modulo 2^16; other mbufs keep their data. *)
Theorem sbappend_sound sb m st : wf st -> sb_ok sb st -> chain st (sb_mb sb ++ m) ->
  exists sb' st', sbappend mbutl sb m st = Ok (sb', st') /\ wf st' /\ sb_ok sb' st' /\
    stream st' (sb_mb sb') = stream st (sb_mb sb) ++ stream st m /\ same_sb sb sb' /\
    kept (fun a => a ∈ sb_mb sb ++ m) st st'.
Proof.
  intros Hw [_ Hcnt] Hc. destruct (sbappend_loop_spec m sb st Hw Hc Hcnt) as (sb' & st' & Hr & V1 & V2 & V3 & V4 & V5 & _).
  exists sb', st'. rewrite <- stream_app. split_and!; try done; try apply V3; apply V4.
Qed.

(** ** sbdrop *)

(** [n] bytes off the front of a stream, and the marks before the next byte. *)
Fixpoint drop_bytes (n : nat) (l : list tok) : list tok :=
  match l with
  | [] => []
  | Eor :: l' => drop_bytes n l'
  | Byte _ :: l' => match n with O => l | S n' => drop_bytes n' l' end
  end.

Lemma drop_bytes_over n l (b : bool) r : (length l <= n)%nat ->
  drop_bytes n ((Byte <$> l) ++ (if b then [] else [Eor]) ++ r) = drop_bytes (n - length l) r.
Proof.
  clear Hbase. revert n. induction l as [|c l IH]; intros n Hn; simpl in *.
  - rewrite Nat.sub_0_r. by destruct b.
  - destruct n as [|n]; [lia|]. apply IH. lia.
Qed.

Lemma drop_bytes_in n l r : (n < length l)%nat -> drop_bytes n ((Byte <$> l) ++ r) = (Byte <$> drop n l) ++ r.
Proof.
  clear Hbase. revert n. induction l as [|c l IH]; intros n Hn; simpl in *; [lia|].
  destruct n as [|n]; [done|]. apply IH. lia.
Qed.

Lemma mbsize_inline st a x y : wf st -> in_use st a x -> (inline y <-> inline x) -> 0 <= m_off y ->
  (inline y \/ MSIZE <= m_off y) -> mbsize y = mbsize x.
Proof.
  intros Hw Hu Hiff Hy0 Hy. unfold mbsize.
  assert (inline x \/ MSIZE <= m_off x) as Hx.
  { destruct (b_use _ _ Hw a x Hu) as [?|[[[? _] _]|[? _]]]; [by left|right; lia|right; lia]. }
  unfold inline in *. unfold MMINOFF, MMAXOFF, MSIZE, MTAIL in *.
  destruct (Z.ltb_spec (128 - 4) (m_off y)), (Z.ltb_spec (128 - 4) (m_off x)); try done; lia.
Qed.

Lemma sbdrop_loop_spec m : forall len sb st, wf st -> chain st m -> no_funny st m -> counted sb st m -> 0 <= len ->
  if decide (len <= Z.of_nat (length (content st m))) then
    exists m' sb' st', sbdrop_loop mbutl m len sb st = Ok (m', sb', st') /\ wf st' /\ kept (fun a => a ∈ m) st st' /\
      chain st' m' /\ counted sb' st' m' /\ same_sb sb sb' /\ stream st' m' = drop_bytes (Z.to_nat len) (stream st m) /\
      Z.of_nat (length (content st' m')) = Z.of_nat (length (content st m)) - len /\
      (exists gone, m = gone ++ m' /\ forall a z, a ∈ gone -> ~ in_use st' a z) /\
      (forall a m'' z, m' = a :: m'' -> in_use st' a z -> 0 < m_len z) /\
      (forall b z, b ∉ m -> in_use st' b z -> in_use st b z)
  else sbdrop_loop mbutl m len sb st = Panic "sbdrop".
Proof.
  induction m as [|a m IH]; intros len sb st Hw Hc Hnf Hcnt Hlen; cbn [sbdrop_loop].
  { destruct (Z.ltb_spec 0 len).
    - rewrite decide_False by (simpl; lia). done.
    - rewrite decide_True by (simpl; lia). exists [], sb, st. replace len with 0 by lia. split_and!; try done; try apply Hcnt.
      exists []. split; [done|]. by intros a z ?%elem_of_nil. }
  pose proof Hc as (Hna & (x & Hu & Hs) & Hcm)%chain_cons. pose proof (bytes_length mbutl st a x Hu Hs) as Hlx.
  rewrite content_cons, length_app. rewrite (get_mb_Ok _ _ _ (proj1 Hu)). kstep.
  rewrite stream_cons, (toks_use _ _ _ Hu), <- app_assoc. rewrite (bytes_data _ _ _ Hu) in Hlx |- *.
  assert (forall sb1, counted sb1 st (a :: m) -> counted (sbfree sb1 x) st m) as Hfree.
  { intros sb1 [C1 C2]. unfold counted. cbn [sb_cc sb_mbcnt sbfree with_counts]. rewrite C1, C2, !wraps_sub_l by done.
    rewrite content_cons, length_app, (bytes_data _ _ _ Hu). simpl. unfold size_of. rewrite (proj1 Hu). split; f_equal; lia. }
  destruct ((0 <? len) || (m_len x =? 0)) eqn:E.
  - destruct (Z.ltb_spec len (m_len x)) as [Hlt|Hge].
    + rewrite decide_True by lia.
      destruct (trim_head mbutl Hbase st a m x len 0 Hw Hc Hu) as (W1 & W2 & W3 & W4 & W5 & W6 & W7 & W8); try lia.
      { destruct (Hnf a x ltac:(by left) Hu) as [?|Hcl]; [by left|right; left]. split; [done|].
        destruct Hs as [_ [[Hi _]|[[_ Hs]|[[_ Hf] _]]]]; [|lia|destruct Hcl; lia].
        destruct Hcl as [[Hcl _] _]. unfold inline, MMAXOFF, MSIZE, MTAIL in *. lia. }
      rewrite trimmed_front in *. set (y := set_off _ _) in *. set (st1 := put_mb a y st) in *.
      eexists _, _, _. split; [reflexivity|].
      pose proof (reheaded_kept mbutl _ _ _ W2) as Hk.
      destruct (kept_stream _ _ _ m Hk Hcm) as (_ & R1 & R2 & R3). { intros b Hb ->%list_elem_of_singleton. done. }
      assert (bytes st1 a = drop (Z.to_nat len) (data st a x)) as Eb.
      { rewrite W7, (bytes_data _ _ _ Hu), take_ge; [done|]. rewrite length_drop. lia. }
      assert (mbsize y = mbsize x) as Esz.
      { apply (mbsize_inline st a x y Hw Hu W8); [pose proof (off_range mbutl st1 a y W1 W5); lia|].
        destruct (b_use _ _ W1 a y W5) as [?|[[[? _] _]|[? _]]]; [by left|right; lia|right; lia]. }
      assert (Z.of_nat (length (content st1 (a :: m))) = Z.of_nat (length (data st a x) + length (content st m)) - len) as El.
      { rewrite content_cons, length_app, Eb, length_drop, W4. lia. }
      split_and!; try done; try apply W3.
      * eapply kept_weaken; [|exact Hk]. intros b z _ ->%list_elem_of_singleton. by left.
      * split; cbn [sb_cc sb_mbcnt with_counts].
        -- rewrite (proj1 Hcnt), wraps_sub_l by done. f_equal. rewrite El, content_cons, length_app, (bytes_data _ _ _ Hu). lia.
        -- rewrite (proj2 Hcnt). simpl. unfold size_of at 1 2. rewrite (proj1 Hu), (proj1 W5), Esz, R3.
           pose proof (wraps_add_l 16 (mbsize x + storage st m) 0 ltac:(done)) as Ew. by rewrite !Z.add_0_r in Ew.
      * rewrite drop_bytes_in by lia. rewrite stream_cons, (toks_use _ _ _ W5), R1, <- app_assoc.
        rewrite <- (bytes_data _ _ _ W5), Eb. done.
      * exists []. split; [done|]. by intros b z ?%elem_of_nil.
      * intros b m'' z [= <- <-] Hz. rewrite <- (in_use_eq _ _ _ _ W5 Hz). lia.
      * intros b z Hb Hz. apply W2; [set_solver|done].
    + destruct (free_one st [] a m Hw Hc) as (st1 & -> & V1 & V2 & V3 & V4 & V5 & _ & _ & _ & V9). kstep. cbn [app] in V3, V4, V5.
      assert (counted (sbfree sb x) st1 m) as Hc1.
      { destruct (kept_stream _ _ _ m V2 Hcm) as (_ & _ & _ & R3); [by intros b Hb -> |].
        destruct (Hfree sb Hcnt) as [D1 D2]. split; [by rewrite V5|by rewrite R3]. }
      specialize (IH (len - m_len x) (sbfree sb x) st1 V1 V3).
      assert (no_funny st1 m) as Hnf1.
      { intros b z Hb Hz. apply (Hnf b z); [by right|]. by apply V9. }
      specialize (IH Hnf1 Hc1 ltac:(lia)). rewrite V5 in IH.
      destruct (decide (len - m_len x <= Z.of_nat (length (content st m)))).
      * rewrite decide_True by lia. destruct IH as (m' & sb' & st' & -> & P1 & P2 & P3 & P4 & P5 & P6 & P7 & (gone & -> & P8) & P9 & P10).
        exists m', sb', st'. split_and!; try done; try apply P4; try apply P5.
        -- eapply kept_weaken; [|exact (kept_trans_or mbutl _ _ _ _ _ V2 P2)]. unfold only. intros b z _ [->|Hb]; [by left|by right].
        -- rewrite P6, V4, drop_bytes_over by lia. f_equal. lia.
        -- lia.
        -- exists (a :: gone). split; [done|]. intros b z [->|Hb]%elem_of_cons; [|by apply P8].
           intros Hz%P10; [|done]. by apply V9 in Hz as [? _].
        -- intros b z Hb Hz. apply (V9 b z). apply P10; [set_solver|done].
      * rewrite decide_False by lia. exact IH.
  - apply orb_false_iff in E as [E1%Z.ltb_ge E2%Z.eqb_neq]. pose proof (proj1 Hs). rewrite decide_True by lia.
    exists (a :: m), sb, st. replace len with 0 by lia. split_and!; try done; try apply Hcnt.
    + rewrite drop_bytes_in by (simpl; lia). rewrite drop_0, stream_cons, (toks_use _ _ _ Hu), <- app_assoc. done.
    + rewrite content_cons, length_app, (bytes_data _ _ _ Hu). lia.
    + exists []. split; [done|]. by intros b z ?%elem_of_nil.
    + intros b m'' z [= <- <-] Hz. rewrite <- (in_use_eq _ _ _ _ Hu Hz). lia.
Qed.

(** C24: sbdrop takes exactly [len] bytes off the front of a socket buffer, with the record marks
    before the next byte, and frees the mbufs it has emptied, the empty ones that follow
    included, so that the buffer starts with a byte; the counters follow; asked for more than
    there is, it panics. *)
Theorem sbdrop_sound sb len st : wf st -> sb_ok sb st -> no_funny st (sb_mb sb) -> 0 <= len ->
  if decide (len <= Z.of_nat (length (content st (sb_mb sb)))) then
    exists sb' st', sbdrop mbutl sb len st = Ok (sb', st') /\ wf st' /\ sb_ok sb' st' /\ same_sb sb sb' /\
      stream st' (sb_mb sb') = drop_bytes (Z.to_nat len) (stream st (sb_mb sb)) /\
      kept (fun a => a ∈ sb_mb sb) st st' /\
      (exists gone, sb_mb sb = gone ++ sb_mb sb' /\ forall a z, a ∈ gone -> ~ in_use st' a z) /\
      (forall a m z, sb_mb sb' = a :: m -> in_use st' a z -> 0 < m_len z)
  else sbdrop mbutl sb len st = Panic "sbdrop".
Proof.
  intros Hw [Hc Hcnt] Hnf Hlen. pose proof (sbdrop_loop_spec (sb_mb sb) len sb st Hw Hc Hnf Hcnt Hlen) as Hd. unfold sbdrop.
  destruct (decide _); [|by rewrite Hd].
  destruct Hd as (m' & sb' & st' & -> & P1 & P2 & P3 & P4 & P5 & P6 & P7 & P8 & P9 & _). kstep.
  exists (with_mb sb' m'), st'. split_and!; try done; apply P5.
Qed.

(** ** sbflush *)

(** sbflush frees every mbuf of a socket buffer and leaves both counters 0; it panics exactly
    when the buffer is locked, or when it holds mbufs but no byte (an empty record, or an empty
    mbuf of rights), which it does not drop. *)
Theorem sbflush_sound sb st : wf st -> sb_ok sb st -> no_funny st (sb_mb sb) ->
  Z.of_nat (length (content st (sb_mb sb))) < 2 ^ 15 ->
  if flagged sb SB_LOCK then sbflush mbutl sb st = Panic "sbflush"
  else if decide (content st (sb_mb sb) = [] /\ sb_mb sb <> []) then sbflush mbutl sb st = Panic "sbflush 2"
  else exists sb' st', sbflush mbutl sb st = Ok (sb', st') /\ wf st' /\ sb_mb sb' = [] /\ sb_cc sb' = 0 /\ sb_mbcnt sb' = 0 /\
    same_sb sb sb' /\ kept (fun a => a ∈ sb_mb sb) st st' /\ forall a z, a ∈ sb_mb sb -> ~ in_use st' a z.
Proof.
  intros Hw [Hc Hcnt] Hnf Hsz. unfold sbflush. destruct (flagged sb SB_LOCK); [done|].
  assert (sb_cc sb = Z.of_nat (length (content st (sb_mb sb)))) as Ecc by (rewrite (proj1 Hcnt); apply wraps_small; lia).
  destruct (Z.eqb_spec (sb_cc sb) 0) as [E0|E0].
  - assert (content st (sb_mb sb) = []) as En by (apply nil_length_inv; lia). kstep.
    destruct (decide _) as [[_ Hne]|Hne].
    + rewrite (bool_decide_false _ Hne), orb_true_r. done.
    + assert (sb_mb sb = []) as Em. { destruct (sb_mb sb) eqn:E; [done|]. exfalso. by apply Hne. }
      rewrite (bool_decide_true _ Em). assert (sb_mbcnt sb = 0) as -> by (by rewrite (proj2 Hcnt), Em). rewrite E0. cbn.
      exists sb, st. rewrite Em. split_and!; try done; [by rewrite (proj2 Hcnt), Em|]. by intros a z ?%elem_of_nil.
  - destruct (decide _) as [[En _]|_]; [rewrite En in Ecc; simpl in Ecc; lia|].
    pose proof (sbdrop_loop_spec (sb_mb sb) (sb_cc sb) sb st Hw Hc Hnf Hcnt ltac:(lia)) as Hd. unfold sbdrop.
    rewrite decide_True in Hd by lia.
    destruct Hd as (m' & sb' & st' & -> & P1 & P2 & P3 & P4 & P5 & P6 & P7 & (gone & Eg & P8) & P9 & _). kstep.
    assert (m' = []) as ->.
    { destruct m' as [|a m']; [done|]. pose proof P3 as (_ & (z & Hz & Hsz') & _)%chain_cons. pose proof (P9 a m' z eq_refl Hz).
      pose proof (bytes_length mbutl st' a z Hz Hsz'). rewrite content_cons, length_app in P7. lia. }
    destruct P4 as [C1 C2]. cbn [sb_cc sb_mbcnt sb_mb with_mb]. rewrite C1, C2. cbn.
    exists (with_mb sb' []), st'. rewrite app_nil_r in Eg. subst gone. split_and!; try done; apply P5.
Qed.
End Thms.
