(* ===== verification/SockbufAddr.v ===== *)
(** * Datagrams in a socket buffer: sbappendaddr()

    A datagram goes in as records: its sender's address, the rights that came with it (when the
    protocol passes rights), its bytes. *)

From S2P Require Import Prelude Rmap Mbuf MbufThms MbufOps MbufCopy MbufTrim MbufWitness Flags Sockbuf SockbufThms.
From stdpp Require Import prelude list numbers strings gmap.
From Stdlib Require Import ZArith Lia.

Local Open Scope Z_scope.
Local Open Scope kern_scope.

Section Addr.
Context {M H : Type} `{RM : !ResMap M}.
Context (mbutl : Z).
Hypothesis Hbase : 0 < mbutl /\ mbutl mod NBPG = 0 /\ mbutl + NMBCLUSTERS * NBPG <= 2 ^ 32.
Context (memall : Z -> Z -> bool) (kalloc : Z -> H -> res (Z * H)).
Implicit Type st : mbst M H.

Local Notation wf := (mb_wf mbutl).
Local Notation sized := (sized mbutl).
Local Notation kept := (kept mbutl).
Local Notation chain := (chain mbutl).
Local Notation sb_ok := (sb_ok mbutl).

(** No mbuf of [m] ends a record. *)
Definition unmarked st (m : list Z) : Prop := forall a x, a ∈ m -> in_use st a x -> m_act x = 0.

Lemma stream_unmarked st m : chain st m -> unmarked st m -> stream st m = Byte <$> content st m.
Proof.
  clear Hbase. induction m as [|a m IH]; intros Hc Hm; [done|]. pose proof Hc as (_ & (x & Hu & _) & Hc')%chain_cons.
  rewrite stream_cons, content_cons, fmap_app, IH; [|done|by intros b y Hb; apply Hm; right].
  rewrite (toks_use _ _ _ Hu), (Hm a x ltac:(by left) Hu), (bytes_data _ _ _ Hu). by rewrite app_nil_r.
Qed.

(** Marking one mbuf. *)
Lemma set_act_spec st a x : wf st -> in_use st a x -> sized a x ->
  let st' := put_mb a (set_act x 1) st in
  wf st' /\ kept (only a) st st' /\ in_use st' a (set_act x 1) /\ sized a (set_act x 1) /\
  (forall b z, b <> a -> in_use st' b z <-> in_use st b z) /\ toks st' a = (Byte <$> bytes st a) ++ [Eor] /\ bytes st' a = bytes st a.
Proof.
  intros Hw Hu Hs st'. destruct (put_header mbutl Hbase st a x (set_act x 1) Hw Hu) as (W1 & W2 & W3 & W4); [|done|done|].
  { exact (b_use _ _ Hw a x Hu). }
  fold st' in W1, W2, W3, W4. split_and!; try done.
  - by rewrite (toks_use _ _ _ W3), (bytes_data _ _ _ Hu).
  - by rewrite (bytes_data _ _ _ W3), (bytes_data _ _ _ Hu).
Qed.

Lemma mark_last_spec m : forall st len, wf st -> chain st m -> m <> [] -> unmarked st m ->
  exists st', mark_last m len st = Ok (len + Z.of_nat (length (content st m)), st') /\ wf st' /\
    kept (fun b => b ∈ m) st st' /\ chain st' m /\ content st' m = content st m /\
    stream st' m = (Byte <$> content st m) ++ [Eor] /\
    (forall b z, b ∉ m -> in_use st' b z <-> in_use st b z) /\ (forall b, (exists z, in_use st' b z) -> exists z, in_use st b z) /\
    mfree st' = mfree st /\ mclrefcnt st' = mclrefcnt st /\ core st' = core st.
Proof.
  induction m as [|a m IH]; intros st len Hw Hc Hne Hm; [done|]. cbn [mark_last].
  pose proof Hc as (Hna & (x & Hu & Hs) & Hcm)%chain_cons. pose proof (bytes_length mbutl st a x Hu Hs) as Hl.
  rewrite (get_mb_Ok _ _ _ (proj1 Hu)). kstep. rewrite content_cons, length_app. destruct m as [|b m].
  - destruct (set_act_spec st a x Hw Hu Hs) as (W1 & W2 & W3 & W4 & W5 & W6 & W7).
    exists (put_mb a (set_act x 1) st). split_and!; try done.
    + do 2 f_equal. simpl. lia.
    + eapply kept_weaken; [|exact W2]. intros b z _ ->. by left.
    + apply chain_cons. split_and!; [done|eauto|]. split; [constructor|]. by intros b ?%elem_of_nil.
    + rewrite !content_cons, W7. done.
    + rewrite stream_cons, W6. unfold stream, content. simpl. by rewrite !app_nil_r.
    + intros b z Hb. apply W5. set_solver.
    + intros b [z Hz]. destruct (decide (b = a)) as [->|Hba]; [by exists x|]. exists z. by apply (W5 b z).
  - destruct (IH st (len + m_len x) Hw Hcm ltac:(done)) as (st' & -> & V1 & V2 & V3 & V4 & V5 & V6 & V7 & V8 & V9 & V10).
    { intros c z Hcin. apply Hm. by right. }
    set (m' := b :: m) in *. destruct (V2 a x Hu Hna) as [Hu' Hd].
    exists st'. split_and!; try done.
    + do 2 f_equal. lia.
    + eapply kept_weaken; [|exact V2]. intros c z _ ?. by right.
    + apply chain_cons. split_and!; eauto.
    + by rewrite !content_cons, V4, (bytes_data _ _ _ Hu), (bytes_data _ _ _ Hu'), Hd.
    + rewrite stream_cons, V5, (toks_use _ _ _ Hu'), (Hm a x ltac:(by left) Hu), (bytes_data _ _ _ Hu), Hd by done.
      simpl. by rewrite app_nil_r, fmap_app, app_assoc.
    + intros c z Hcn. apply V6. set_solver.
Qed.

(** A new mbuf of a socket name, with [bs] for bytes and marked. *)
Lemma name_mbuf st r st1 bs : wf st -> m_get mbutl memall MT_SONAME st = Ok (Some r, st1) -> Z.of_nat (length bs) <= MLEN ->
  exists y, get_mb r st1 = Ok y /\
    let y' := set_act (set_len y (Z.of_nat (length bs))) 1 in
    let st2 := set_core (put_mb r y' st1) (store (core (put_mb r y' st1)) (mtod r y') bs) in
    wf st2 /\ kept (fun _ => False) st st2 /\ chain st2 [r] /\ bytes st2 r = bs /\ toks st2 r = (Byte <$> bs) ++ [Eor] /\
    (forall z, ~ in_use st r z) /\ (forall b z, in_use st2 b z -> b = r \/ in_use st b z) /\
    (S (length (mfree st2)) = length (mfree st) \/ mfree st = []) /\ mclrefcnt st2 = mclrefcnt st.
Proof.
  intros Hw E Hn. destruct (m_get_spec mbutl Hbase memall MT_SONAME st Hw) as (r0 & st0 & E0 & Hw1 & Hq & Hr); [done|].
  rewrite E in E0. injection E0 as <- <-. destruct Hr as [(N1 & (y & Huy & Hoy & Hty) & N3) Hfl].
  exists y. split; [by rewrite (get_mb_Ok _ _ _ (proj1 Huy))|]. intros y' st2.
  destruct (put_inline mbutl Hbase st1 r y y' Hw1 Huy) as (W1 & W2 & W3 & W4); [unfold inline; cbn; by rewrite Hoy|done|].
  assert (m_off y' = MMINOFF) as Hoy' by done.
  assert (m_len y' = Z.of_nat (length bs)) as Hly'.
  { unfold MLEN, MMAXOFF, MSIZE, MMINOFF, MTAIL in Hn. cbn. apply wraps_small; lia. }
  assert (mtod r y' = r + MMINOFF) as Em.
  { rewrite <- Hoy'. apply (inline_mtod mbutl Hbase _ _ _ W1 (proj1 W3)). unfold inline. by rewrite Hoy'. }
  unfold MLEN, MMAXOFF, MSIZE, MMINOFF, MTAIL in Hn.
  destruct (store_inline mbutl Hbase (put_mb r y' st1) r y' (mtod r y') bs W1 (proj1 W3)) as [V1 V2].
  { rewrite Em. unfold MMINOFF. lia. }
  { rewrite Em. unfold MMINOFF, MSIZE. lia. }
  fold st2 in V1, V2. assert (in_use st2 r y') as Hu2 by exact W3.
  assert (bytes st2 r = bs) as Hb2.
  { rewrite (bytes_data _ _ _ Hu2). unfold data, st2. cbn [core set_core]. rewrite Hly'. apply load_store_same. }
  split_and!; try done.
  - intros b z Hu _. assert (b <> r) as Hbr by (intros ->; by apply (N1 z)).
    destruct (quiet_kept mbutl (fun _ => False) _ _ Hq b z Hu) as [K1 K2]; [tauto|].
    destruct (W2 b z K1 Hbr) as [K3 K4]. destruct (V2 b z K3 Hbr) as [K5 K6]. split; [done|]. intros Hs. by rewrite K6, K4, K2.
  - apply chain_cons. split_and!; [by intros ?%elem_of_nil| |split; [constructor|by intros b ?%elem_of_nil]].
    exists y'. split; [done|]. split; [rewrite Hly'; lia|]. left. unfold inline. rewrite Hoy', Hly'. unfold MMINOFF, MMAXOFF, MSIZE, MTAIL. lia.
  - by rewrite (toks_use _ _ _ Hu2), <- (bytes_data _ _ _ Hu2), Hb2.
  - intros b z Hz. destruct (W4 b z Hz) as [->|Hz']; [by left|]. apply N3, Hz'.
  - by destruct Hq as (_ & _ & _ & _ & ? & _).
Qed.
(** Rights are at most one mbuf. *)
Definition rights_ok st (r : list Z) : Prop := chain st r /\ all_plain st r /\ (length r <= 1)%nat /\
  (forall k, 0 <= k < NCL -> refcnt st k < 127).

Lemma copy_rights_spec rights0 st : wf st -> rights_ok st rights0 ->
  exists r st', copy_rights mbutl memall kalloc rights0 st = Ok (r, st') /\ wf st' /\ kept (fun _ => False) st st' /\
    (r = [] /\ mfree st = [] \/
     exists a, r = [a] /\ chain st' [a] /\ bytes st' a = content st rights0 /\ forall x, ~ in_use st a x).
Proof.
  intros Hw (Hc & Hp & Hl & Hrf).
  assert (content st rights0 = [] -> exists r st', ('(r, st) ← m_get mbutl memall MT_SONAME st;
        match r with
        | Some a => y ← get_mb a st; mret ([a], put_mb a (set_len y 0) st)
        | None => mret ([], st)
        end) = Ok (r, st') /\ wf st' /\ kept (fun _ => False) st st' /\
    (r = [] /\ mfree st = [] \/
     exists a, r = [a] /\ chain st' [a] /\ bytes st' a = content st rights0 /\ forall x, ~ in_use st a x)) as Hempty.
  { intros ->. destruct (m_get_spec mbutl Hbase memall MT_SONAME st Hw) as (g & st1 & -> & Hw1 & Hq & Hg); [done|]. kstep.
    pose proof (quiet_kept mbutl (fun _ => False) _ _ Hq) as Hk. destruct g as [a|].
    2:{ exists [], st1. split_and!; try done. left. by destruct Hg. }
    destruct Hg as [(N1 & (y & Huy & Hoy & _) & N3) _]. rewrite (get_mb_Ok _ _ _ (proj1 Huy)). kstep.
    destruct (put_inline mbutl Hbase st1 a y (set_len y 0) Hw1 Huy) as (W1 & W2 & W3 & W4); [unfold inline; cbn; by rewrite Hoy|done|].
    eexists [a], _. split; [reflexivity|]. split_and!; try done.
    - eapply kept_weaken; [|exact (kept_trans_or mbutl _ _ _ _ _ Hk W2)]. intros b z Hz [[]| ->]. by apply (N1 z).
    - right. exists a. split_and!; try done; [|by rewrite (bytes_data _ _ _ W3)].
      apply chain_cons. split_and!; [by intros ?%elem_of_nil| |split; [constructor|by intros b ?%elem_of_nil]].
      eexists. split; [exact W3|]. split; [by cbn|left]. unfold inline. cbn. by rewrite Hoy. }
  unfold copy_rights. destruct rights0 as [|r0 [|r1 rs]]; [by apply Hempty| |simpl in Hl; lia].
  destruct (proj2 Hc r0 ltac:(by left)) as (x & Hu & Hs). pose proof (bytes_length mbutl st r0 x Hu Hs) as Hlx.
  assert (content st [r0] = bytes st r0) as Ec by (unfold content; simpl; by rewrite app_nil_r).
  rewrite (get_mb_Ok _ _ _ (proj1 Hu)). kstep. pose proof (proj1 Hs) as [Hx0 Hx1]. destruct (Z.eqb_spec (m_len x) 0) as [E0|E0].
  { apply Hempty. rewrite Ec. apply nil_length_inv. lia. }
  destruct (m_copy_spec mbutl memall kalloc Hbase [r0] 0 (m_len x) st) as (r & st' & -> & Hw' & Hk & Hr); try done.
  { unfold M_COPYALL. lia. } { right. rewrite Ec. lia. } { intros k Hkc. specialize (Hrf k Hkc). simpl. lia. }
  exists r, st'. split_and!; try done. destruct Hr as [(-> & Hf & _)|(Hc' & Ec' & Hn & Hlr)].
  - left. split; [done|]. destruct (mfree st); [done|simpl in Hf; lia].
  - right. rewrite drop_0, Ec in Ec'. unfold upto in Ec'.
    assert (content st' r = bytes st r0) as Er.
    { rewrite Ec'. destruct (decide _); [done|]. apply take_ge. lia. }
    destruct r as [|a [|? ?]]; [|exists a; split_and!; try done; [|intros z; apply Hn; by left]|simpl in Hlr; lia].
    + assert (length (bytes st r0) = O) by (by rewrite <- Er). lia.
    + rewrite Ec, <- Er. unfold content. simpl. by rewrite app_nil_r.
Qed.

(** The records of a datagram. *)
Definition datagram (asa : list Z) (rights : option (list Z)) (bs : list Z) : list tok :=
  (Byte <$> asa) ++ [Eor] ++ match rights with Some r => (Byte <$> r) ++ [Eor] | None => [] end ++ (Byte <$> bs) ++ [Eor].

(** The end of sbappendaddr(): [pre], the mbufs of the name and the rights, go in before the data. *)
Lemma sbappend_records sb st pre m0 : wf st -> sb_ok sb st -> chain st (sb_mb sb ++ m0) -> chain st pre ->
  (forall a, a ∈ pre -> a ∉ sb_mb sb ++ m0) ->
  exists sb' st', sbappend mbutl sb (pre ++ m0) st = Ok (sb', st') /\ wf st' /\ sb_ok sb' st' /\ same_sb sb sb' /\
    stream st' (sb_mb sb') = stream st (sb_mb sb) ++ stream st pre ++ stream st m0 /\
    kept (fun a => a ∈ sb_mb sb ++ pre ++ m0) st st'.
Proof.
  intros Hw [_ Hcnt] Hc Hcp Hd.
  assert (chain st (sb_mb sb ++ pre ++ m0)) as Hall.
  { rewrite (Permutation_app_swap_app (sb_mb sb) pre m0). by apply chain_app. }
  destruct (sbappend_loop_spec mbutl Hbase (pre ++ m0) sb st Hw Hall Hcnt) as (sb' & st' & Hr & V1 & V2 & V3 & V4 & V5 & _).
  exists sb', st'. rewrite <- !stream_app. split_and!; try done; apply V3 || apply V4.
Qed.

(** What sbappendaddr promises of its result [(ok, sb', st')], [need] being the bytes it adds up. *)
Definition addr_result sb asa (r : option (list Z)) (need : Z) (m0 : list Z) st (ok : bool) sb' st' : Prop :=
  wf st' /\ kept (fun a => a ∈ sb_mb sb ++ m0) st st' /\ sb_ok sb' st' /\
  if ok then need <= sbspace sb /\ same_sb sb sb' /\
    stream st' (sb_mb sb') = stream st (sb_mb sb) ++ datagram asa r (content st m0)
  else (sbspace sb < need \/ (length (mfree st) < 2)%nat) /\ sb' = sb /\ chain st' m0 /\
    content st' m0 = content st m0 /\ stream st' (sb_mb sb) = stream st (sb_mb sb).

(** The state once the datagram has been marked: the buffer is as it was, the datagram is a record. *)
Definition marked sb m0 st st1 : Prop := kept (fun b => b ∈ m0) st st1 /\ sb_ok sb st1 /\
  chain st1 m0 /\ (forall a, a ∈ sb_mb sb -> a ∉ m0) /\
  content st1 m0 = content st m0 /\ stream st1 m0 = (Byte <$> content st m0) ++ [Eor] /\
  stream st1 (sb_mb sb) = stream st (sb_mb sb) /\ (forall b z, b ∉ m0 -> in_use st1 b z -> in_use st b z).

Lemma marked_kept sb m0 st st1 st' : marked sb m0 st st1 -> kept (fun _ => False) st1 st' ->
  sb_ok sb st' /\ chain st' (sb_mb sb ++ m0) /\ chain st' m0 /\ content st' m0 = content st m0 /\ stream st' m0 = (Byte <$> content st m0) ++ [Eor] /\
  stream st' (sb_mb sb) = stream st (sb_mb sb) /\ kept (fun a => a ∈ sb_mb sb ++ m0) st st'.
Proof.
  clear Hbase. intros (K1 & [C1 Hcnt] & C2 & Hsm & E1 & S1 & S2 & _) Hk.
  destruct (kept_stream mbutl _ _ _ (sb_mb sb) Hk C1) as (C1' & S1' & D1' & T1'); [by intros a _ []|].
  destruct (kept_stream mbutl _ _ _ m0 Hk C2) as (C2' & S2' & D2' & T2'); [by intros a _ []|].
  split_and!; try congruence; [split; [done|]; unfold counted; by rewrite D1', T1'|by apply chain_app|].
  eapply kept_weaken; [|exact (kept_trans_or mbutl _ _ _ _ _ K1 Hk)]. intros a z _ [?|[]]. set_solver.
Qed.

(** The outcomes: nothing more was done than to mark, or the records [pre] and the data go in. *)
Lemma addr_fail sb asa r need m0 st st1 st' : marked sb m0 st st1 -> wf st' -> kept (fun _ => False) st1 st' ->
  sbspace sb < need \/ (length (mfree st) < 2)%nat -> addr_result sb asa r need m0 st false sb st'.
Proof. clear Hbase. intros Hm Hw Hk Hwhy. by destruct (marked_kept _ _ _ _ _ Hm Hk) as (? & ? & ? & ? & ? & ? & ?). Qed.

Lemma addr_done sb asa r need m0 st st1 st' pre : marked sb m0 st st1 -> wf st' -> kept (fun _ => False) st1 st' ->
  need <= sbspace sb -> chain st' pre -> (forall a x, a ∈ pre -> ~ in_use st1 a x) ->
  stream st' pre ++ (Byte <$> content st m0) ++ [Eor] = datagram asa r (content st m0) ->
  exists sb' st'', sbappend mbutl sb (pre ++ m0) st' = Ok (sb', st'') /\ addr_result sb asa r need m0 st true sb' st''.
Proof.
  intros Hm Hw Hk Hsp Hcp Hnew Es. destruct (marked_kept _ _ _ _ _ Hm Hk) as (Hok & Hc & Hcm & E & S & S' & Kst).
  destruct Hm as (K1 & [C1 _] & C2 & _).
  destruct (sbappend_records sb st' pre m0 Hw Hok Hc Hcp) as (sb' & st'' & Hr & V1 & V2 & V3 & V4 & V5).
  { intros a Ha [Hin|Hin]%elem_of_app; [destruct (proj2 C1 a Hin) as (x & Hx & _)|destruct (proj2 C2 a Hin) as (x & Hx & _)]; by apply (Hnew a x). }
  exists sb', st''. split; [done|]. unfold addr_result. rewrite V4, S, S', Es. split_and!; try done.
  eapply kept_weaken; [|exact (kept_trans_or mbutl _ _ _ _ _ Kst V5)].
  intros a z Hz [?|Ha]; [done|]. rewrite !elem_of_app in *. destruct Ha as [?|[Ha|?]]; [by left| |by right].
  destruct (decide (a ∈ m0)) as [?|Hn]; [by right|]. exfalso. apply (Hnew a z Ha). by apply (K1 a z Hz).
Qed.

(** The copy of the rights sees them as they were. *)
Lemma rights_marked sb m0 rights0 st st1 st2 r : marked sb m0 st st1 -> mclrefcnt st2 = mclrefcnt st -> rights_ok st rights0 ->
  (forall a, a ∈ rights0 -> a ∉ m0) -> kept (fun _ => False) st1 st2 -> (forall z, ~ in_use st1 r z) ->
  (forall b z, in_use st2 b z -> b = r \/ in_use st1 b z) -> rights_ok st2 rights0 /\ content st2 rights0 = content st rights0.
Proof.
  clear Hbase. intros (K1 & _ & _ & _ & _ & _ & _ & U1) R2 (Hc & Hp & Hl & Hrf) Hdj K2 N2 U2.
  destruct (kept_chain mbutl _ _ _ rights0 K1 Hc) as [C1 E1]; [by intros a Ha; apply Hdj|].
  destruct (kept_chain mbutl _ _ _ rights0 K2 C1) as [C2 E2]; [by intros a _ []|]. split; [|congruence]. split_and!; try done.
  - intros a x Ha Hx. apply (Hp a x Ha). apply U1; [by apply Hdj|]. destruct (U2 a x Hx) as [->|?]; [|done].
    destruct (proj2 C1 r Ha) as (z & Hz & _). by destruct (N2 z).
  - intros k Hk. by rewrite (refcnt_same st st2); [apply Hrf|].
Qed.

(** The rights of the datagram, marked, after the name in mbuf [r]. *)
Lemma rights_mbuf sb asa rights0 need m0 st st1 st2 r : marked sb m0 st st1 -> wf st2 -> kept (fun _ => False) st1 st2 -> chain st2 [r] ->
  toks st2 r = (Byte <$> asa) ++ [Eor] -> (forall z, ~ in_use st1 r z) -> rights_ok st2 rights0 ->
  need <= sbspace sb -> (mfree st2 = [] -> (length (mfree st) < 2)%nat) ->
  exists ok sb' st', ('(rights, st) ← copy_rights mbutl memall kalloc rights0 st2;
    match rights with
    | [] => st ← m_freem mbutl [r] st; mret (false, sb, st)
    | a :: _ =>
        z ← get_mb a st;
        let st := put_mb a (set_act z 1) st in
        '(sb, st) ← sbappend mbutl sb (r :: a :: m0) st;
        mret (true, sb, st)
    end) = Ok (ok, sb', st') /\ addr_result sb asa (Some (content st2 rights0)) need m0 st ok sb' st'.
Proof.
  intros Hm W2 K2 C2 T2 N2 Hri2 Hsp Hlow.
  destruct (copy_rights_spec rights0 st2 W2 Hri2) as (g & st3 & -> & W3 & K3 & Hg3). kstep.
  pose proof (kept_trans_or mbutl _ _ _ _ _ K2 K3) as K13. destruct Hg3 as [[-> Hf]|(a & -> & C3 & B3 & N3)].
  - destruct (m_freem_spec mbutl Hbase [r] st3 W3) as (st4 & -> & W4 & Hco & Hus & _); [apply NoDup_singleton|..].
    { intros b ->%list_elem_of_singleton. destruct (proj2 C2 r ltac:(by left)) as (z & Hz & _). exists z. exact (proj1 (K3 r z Hz (fun f => f))). }
    kstep. exists false, sb, st4. split; [done|]. apply (addr_fail _ _ _ _ _ _ st1); auto.
    eapply kept_weaken; [|exact (kept_trans_or mbutl _ _ _ _ _ K13 (m_freem_kept mbutl [r] _ _ Hco Hus))].
    intros b z Hz [[[]|[]]| ->%list_elem_of_singleton]. by apply (N2 z).
  - destruct (proj2 C3 a ltac:(by left)) as (z & Hz & Hsz). rewrite (get_mb_Ok _ _ _ (proj1 Hz)). kstep.
    destruct (set_act_spec st3 a z W3 Hz Hsz) as (W4 & K4 & Hz4 & Hs4 & U4 & T4 & _). set (st4 := put_mb a (set_act z 1) st3) in *.
    assert (r <> a) as Hra. { intros <-. destruct (proj2 C2 r ltac:(by left)) as (w & Hw2 & _). by apply (N3 w). }
    destruct (kept_stream mbutl _ _ _ [r] K3 C2) as (C3r & S3r & _ & _); [by intros b _ []|].
    destruct (kept_stream mbutl _ _ _ [r] K4 C3r) as (C4r & S4r & _ & _); [by intros b ->%list_elem_of_singleton|].
    destruct (addr_done sb asa (Some (content st2 rights0)) need m0 st st1 st4 [r; a]) as (sb' & st' & Hr & Hres); try done.
    + eapply kept_weaken; [|exact (kept_trans_or mbutl _ _ _ _ _ K13 K4)].
      intros b w Hw1 [[[]|[]]| ->]. apply (N3 w). apply (K2 a w Hw1). tauto.
    + apply (chain_app mbutl st4 [r] [a]); [done| |by intros b ->%list_elem_of_singleton ?%list_elem_of_singleton].
      apply chain_cons. split_and!; [by intros ?%elem_of_nil|eauto|split; [constructor|by intros b ?%elem_of_nil]].
    + intros b w [->| ->%list_elem_of_singleton]%elem_of_cons Hb; [by apply (N2 w)|]. apply (N3 w). apply (K2 a w Hb). tauto.
    + unfold stream in S3r, S4r. simpl in S3r, S4r. rewrite !app_nil_r in S3r, S4r.
      unfold stream, datagram. simpl. by rewrite S4r, S3r, T2, T4, B3, app_nil_r, <- !app_assoc.
    + cbn [app] in Hr. rewrite Hr. kstep. by exists true, sb', st'.
Qed.

(** sbappendaddr puts a datagram in a socket buffer as records, its sender's address, then the
    rights that came with it (when asked to), then its bytes, each ended by a mark; it does so
    or, when there is no room for the whole (the rights counted) or no mbuf, returns 0 and leaves the
    buffer as it was and the datagram to the caller. *)
Theorem sbappendaddr_sound sb asa m0 rights0 (flag : bool) st : wf st -> sb_ok sb st -> chain st (sb_mb sb ++ m0) -> m0 <> [] ->
  unmarked st m0 -> Z.of_nat (length asa) = SOCKADDR_SIZE -> rights_ok st rights0 -> (forall a, a ∈ rights0 -> a ∉ m0) ->
  let need := SOCKADDR_SIZE + Z.of_nat (length (content st rights0)) + Z.of_nat (length (content st m0)) in
  exists ok sb' st', sbappendaddr mbutl memall kalloc sb asa m0 rights0 flag st = Ok (ok, sb', st') /\
    addr_result sb asa (if flag then Some (content st rights0) else None) need m0 st ok sb' st'.
Proof.
  intros Hw Hok Hc Hne Hum Hasa Hri Hdj need. unfold sbappendaddr.
  assert (chain st m0 /\ chain st (sb_mb sb) /\ forall a, a ∈ sb_mb sb -> a ∉ m0) as (Hcm & Hcs & Hsm).
  { destruct Hc as [(N1 & N2 & N3)%NoDup_app Hi]. split_and!; [split; [done|]; set_solver|split; [done|]; set_solver|done]. }
  assert (match rights0 with r0 :: _ => x ← get_mb r0 st; mret (m_len x) | [] => mret 0 end =
    Ok (Z.of_nat (length (content st rights0)))) as ->.
  { destruct Hri as (Hcr & _ & Hl & _). destruct rights0 as [|r0 [|? ?]]; [done| |simpl in Hl; lia].
    destruct (proj2 Hcr r0 ltac:(by left)) as (x & Hu & Hs). rewrite (get_mb_Ok _ _ _ (proj1 Hu)). kstep.
    unfold content. simpl. by rewrite app_nil_r, (bytes_length mbutl st r0 x Hu Hs). }
  kstep. rewrite (bool_decide_false _ Hne).
  destruct (mark_last_spec m0 st (SOCKADDR_SIZE + Z.of_nat (length (content st rights0))) Hw Hcm Hne Hum)
    as (st1 & -> & W1 & K1 & C1 & E1 & S1 & U1 & _ & F1 & R1 & _). kstep. fold need.
  destruct (kept_stream mbutl _ _ _ (sb_mb sb) K1 Hcs Hsm) as (C1' & S1' & D1' & T1').
  assert (marked sb m0 st st1) as Hm.
  { split_and!; try done; [split; [done|]; unfold counted; rewrite D1', T1'; apply Hok|]. intros b z Hb. by apply U1. }
  destruct (Z.ltb_spec (sbspace sb) need) as [Hsp|Hsp].
  { exists false, sb, st1. split; [done|]. apply (addr_fail _ _ _ _ _ _ st1); auto using kept_refl. }
  destruct (m_get_spec mbutl Hbase memall MT_SONAME st1 W1) as (g & st1' & Eg & W1' & Q1 & Hg); [done|]. rewrite Eg. kstep.
  destruct g as [r|].
  2:{ exists false, sb, st1'. split; [done|]. apply (addr_fail _ _ _ _ _ _ st1); auto using quiet_kept.
      right. destruct Hg as [Hg _]. rewrite <- F1, Hg. simpl. lia. }
  destruct (name_mbuf st1 r st1' asa W1 Eg) as (y & -> & Hname); [rewrite Hasa; unfold SOCKADDR_SIZE, MLEN, MMAXOFF, MSIZE, MMINOFF, MTAIL; lia|].
  rewrite Hasa in Hname. kstep. cbv zeta in Hname. match type of Hname with wf ?s /\ _ => set (st2 := s) in * end.
  destruct Hname as (W2 & K2 & C2 & B2 & T2 & N2 & U2 & F2 & R2). destruct flag.
  - destruct (rights_marked sb m0 rights0 st st1 st2 r Hm) as [Hri2 Ecr]; try done; [congruence|]. rewrite <- Ecr.
    apply (rights_mbuf sb asa rights0 need m0 st st1 st2 r); try done.
    intros Hf. rewrite Hf, F1 in F2. simpl in F2. destruct F2 as [<-| ->]; simpl; lia.
  - destruct (addr_done sb asa None need m0 st st1 st2 [r]) as (sb' & st' & Hr & Hres); try done.
    + by intros a x ->%list_elem_of_singleton.
    + unfold stream, datagram. simpl. by rewrite T2, app_nil_r, <- app_assoc.
    + cbn [app] in Hr. rewrite Hr. kstep. by exists true, sb', st'.
Qed.
End Addr.

(** ** Socket buffers on a concrete pool

    The theorems of [SockbufThms] and [SockbufAddr] on the pool of [MbufWitness], and runs that show
    what the 16-bit limits of a buffer do. *)

(** Buffers of 4 kilobytes over the chain of [p3]: the first mbuf, or both. *)
Definition buf (m : list Z) (cc mbcnt : Z) : sockbuf := sbreserve (Sockbuf cc 0 mbcnt 0 0 0 m None 0) 4096.
Definition bufa : sockbuf := buf [ma] 20 128.
Definition bufab : sockbuf := buf [ma; mb] 120 256.

Lemma p3_chain_a : chain base p3 [ma].
Proof. exact (conj (proj1 (proj1 (NoDup_app [ma] [mb]) (proj1 p3_chain))) (fun a Ha => proj2 p3_chain a (proj2 (elem_of_app [ma] [mb] a) (or_introl Ha)))). Qed.

Lemma bufab_ok : sb_ok base bufab p3.
Proof. split; [exact p3_chain|]. split; by vm_compute. Qed.
Lemma bufa_ok : sb_ok base bufa p3.
Proof. split; [exact p3_chain_a|]. split; by vm_compute. Qed.

Lemma sbappend_sound_witness : exists sb' st', sbappend base bufa [mb] p3 = Ok (sb', st') /\
  stream st' (sb_mb sb') = stream p3 [ma] ++ stream p3 [mb] /\ sb_ok base sb' st'.
Proof.
  destruct (sbappend_sound base pool_base_ok bufa [mb] p3 p3_wf bufa_ok p3_chain) as (sb' & st' & E & _ & Hok & Es & _).
  exists sb', st'. split; [exact E|]. split; [exact Es|exact Hok].
Defined.

Lemma sbdrop_sound_witness : exists sb' st', sbdrop base bufab 30 p3 = Ok (sb', st') /\
  stream st' (sb_mb sb') = drop_bytes 30 (stream p3 [ma; mb]) /\ sb_ok base sb' st'.
Proof.
  pose proof (sbdrop_sound base pool_base_ok bufab 30 p3 p3_wf bufab_ok p3_no_funny ltac:(lia)) as H.
  assert (length (content p3 (sb_mb bufab)) = 120%nat) as E by (clear; by vm_compute). rewrite E in H.
  destruct (decide _) as [_|n] in H; [|exfalso; apply n; clear; lia].
  destruct H as (sb' & st' & E' & _ & Hok & _ & Es & _). exists sb', st'. split; [exact E'|]. split; [exact Es|exact Hok].
Defined.

Lemma sbflush_sound_witness : exists sb' st', sbflush base bufab p3 = Ok (sb', st') /\ sb_mb sb' = [] /\ sb_cc sb' = 0.
Proof.
  assert (length (content p3 (sb_mb bufab)) = 120%nat) as E by (clear; by vm_compute).
  pose proof (sbflush_sound base pool_base_ok bufab p3 p3_wf bufab_ok p3_no_funny ltac:(rewrite E; clear; lia)) as H.
  assert (flagged bufab SB_LOCK = false) as Ef by (clear; by vm_compute). rewrite Ef in H.
  destruct (decide _) as [[n _]|_] in H; [exfalso; rewrite n in E; discriminate E|].
  destruct H as (sb' & st' & E' & _ & Em & Ec & _). exists sb', st'. split; [exact E'|]. split; [exact Em|exact Ec].
Defined.

(** A datagram of the bytes of [mb] from the address 1..16, with the bytes of [ma] for rights. *)
Definition bufe : sockbuf := buf [] 0 0.
Lemma sbappendaddr_sound_witness :
  let asa := Z.of_nat <$> seq 1 16 in
  exists ok sb' st', sbappendaddr base mem noheap bufe asa [mb] [ma] true p3 = Ok (ok, sb', st') /\
    addr_result base bufe asa (Some (content p3 [ma])) 136 [mb] p3 ok sb' st'.
Proof.
  intros asa.
  assert (chain base p3 [mb]) as Hcb by exact (proj2 (proj2 (proj1 (chain_cons base p3 ma [mb]) p3_chain))).
  assert (sb_ok base bufe p3) as Hok by (split; [split; [constructor|by intros a ?%elem_of_nil]|by split]).
  assert (unmarked p3 [mb]) as Hum.
  { intros a x Ha Hu. destruct (p3_use a x ltac:(by right) Hu) as [-> | ->]; reflexivity. }
  assert (rights_ok base p3 [ma]) as Hri.
  { split; [exact p3_chain_a|]. split; [intros a x Ha; apply p3_plain; clear -Ha; set_solver|]. split; [clear; simpl; lia|].
    intros k _. pose proof (p3_room k) as Hk. clear -Hk. lia. }
  destruct (sbappendaddr_sound base pool_base_ok mem noheap bufe asa [mb] [ma] true p3 p3_wf Hok Hcb ltac:(discriminate) Hum eq_refl Hri)
    as (ok & sb' & st' & E & Hr); [intros a ->%list_elem_of_singleton ?%list_elem_of_singleton; discriminate|].
  assert (Z.of_nat (length (content p3 [ma])) = 20) as E1 by (clear; by vm_compute).
  assert (Z.of_nat (length (content p3 [mb])) = 100) as E2 by (clear; by vm_compute).
  rewrite E1, E2 in Hr. exists ok, sb', st'. split; [exact E|exact Hr].
Defined.

(** ** Runs *)

(** The datagram goes in as three records, of 16, 20 and 100 bytes. *)
Example sbappendaddr_records :
  ('(ok, sb, st) ← sbappendaddr base mem noheap bufe (Z.of_nat <$> seq 1 16) [mb] [ma] true p3;
   mret (ok, length (sb_mb sb), sb_cc sb, sb_mbcnt sb, (fun a => match mbs st !! a with Some x => (m_len x, m_act x) | None => (0, 0) end) <$> sb_mb sb))
  = Ok (true, 3%nat, 136, 384, [(16, 1); (20, 1); (100, 1)]).
Proof. vm_compute. reflexivity. Qed.

(** Asked for 33000 bytes, sbreserve grants 32767 bytes in 464 of storage: three mbufs. *)
Example sbreserve_33000 : let sb := sbreserve bufe 33000 in (sb_hiwat sb, sb_mbmax sb, sbspace sb) = (32767, 464, 464).
Proof. vm_compute. reflexivity. Qed.

(** An mbuf without bytes that ends a record: sbflush drops nothing and panics. *)
Example sbflush_empty_record :
  ('(a, st) ← get1 p1; x ← get_mb a st;
   '(sb, st) ← sbappend base bufe [a] (put_mb a (set_act (set_len x 0) 1) st); sbflush base sb st) = Panic "sbflush 2".
Proof. vm_compute. reflexivity. Qed.
