(* ===== verification/Sock.v ===== *)
(** * Sockets: [src/sun/sys/sys/uipc_socket.c], [sys/uipc_socket2.c], [h/socketvar.h]

    Definitions only.  The state of a socket, its flags, the queues of connections of a listening
    socket, and the routines of the layer between the system calls and a protocol; soreceive and
    sosend are in [SockIO].  Sockets live at addresses in mbufs of the pool of [Mbuf], 0 being the
    null pointer.  The user request routine of a protocol is a function pointer in the code and
    an argument here, as is what the protocol keeps ([P]).  Sleeping is a cut point. *)

From S2P Require Import Prelude Flags Rmap Mbuf Sockbuf.
From stdpp Require Import prelude list numbers strings gmap.
From Stdlib Require Import ZArith Lia.

Local Open Scope Z_scope.
Local Open Scope kern_scope.

Definition SS_NOFDREF := 1.
Definition SS_ISCONNECTED := 2.
Definition SS_ISCONNECTING := 4.
Definition SS_ISDISCONNECTING := 8.
Definition SS_CANTSENDMORE := 16.
Definition SS_CANTRCVMORE := 32.
Definition SS_RCVATMARK := 64.
Definition SS_PRIV := 128.
Definition SS_NBIO := 256.
Definition SS_ASYNC := 512.

Definition SO_DEBUG := 1.
Definition SO_ACCEPTCONN := 2.
Definition SO_REUSEADDR := 4.
Definition SO_KEEPALIVE := 8.
Definition SO_DONTROUTE := 16.
Definition SO_USELOOPBACK := 64.
Definition SO_LINGER := 128.
Definition SO_DONTLINGER := -129.
Definition SOL_SOCKET := 65535.
Definition SOMAXCONN := 5.
Definition SOCK_STREAM := 1.
Definition SOCK_DGRAM := 2.
Definition AF_UNIX := 1.

Definition PR_ATOMIC := 1.
Definition PR_ADDR := 2.
Definition PR_CONNREQUIRED := 4.
Definition PR_WANTRCVD := 8.
Definition PR_RIGHTS := 16.

Definition PRU_ATTACH := 0.
Definition PRU_DETACH := 1.
Definition PRU_BIND := 2.
Definition PRU_LISTEN := 3.
Definition PRU_CONNECT := 4.
Definition PRU_ACCEPT := 5.
Definition PRU_DISCONNECT := 6.
Definition PRU_SHUTDOWN := 7.
Definition PRU_RCVD := 8.
Definition PRU_SEND := 9.
Definition PRU_ABORT := 10.
Definition PRU_RCVOOB := 13.
Definition PRU_SENDOOB := 14.
Definition PRU_CONNECT2 := 17.

Definition SIGPIPE := 13.
Definition SIGURG := 16.
Definition SIGIO := 23.
Definition EINVAL := 22.
Definition EPROTOTYPE := 41.
Definition ENOPROTOOPT := 42.
Definition EPROTONOSUPPORT := 43.
Definition EISCONN := 56.
Definition ENOTCONN := 57.
Definition EALREADY := 37.
Definition EWOULDBLOCK := 35.
Definition ECONNABORTED := 53.
Definition MT_SOCKET := 3.

(** What of a protocol the code reads; [pr_id] tells the request routines apart. *)
Record protosw := Protosw { pr_id : Z; pr_type : Z; pr_family : Z; pr_flags : Z }.

Record socket := Socket {
  so_type : Z; so_options : Z; so_linger : Z; so_state : Z; so_pcb : Z; so_proto : protosw;
  so_head : Z; so_q0 : Z; so_q0len : Z; so_q : Z; so_qlen : Z; so_qlimit : Z;
  so_rcv : sockbuf; so_snd : sockbuf; so_timeo : Z; so_error : Z; so_oobmark : Z; so_pgrp : Z
}.

Definition set_options (v : Z) (s : socket) : socket :=
  Socket (so_type s) (i16 v) (so_linger s) (so_state s) (so_pcb s) (so_proto s) (so_head s) (so_q0 s) (so_q0len s) (so_q s) (so_qlen s) (so_qlimit s) (so_rcv s) (so_snd s) (so_timeo s) (so_error s) (so_oobmark s) (so_pgrp s).
Definition set_linger (v : Z) (s : socket) : socket :=
  Socket (so_type s) (so_options s) (i16 v) (so_state s) (so_pcb s) (so_proto s) (so_head s) (so_q0 s) (so_q0len s) (so_q s) (so_qlen s) (so_qlimit s) (so_rcv s) (so_snd s) (so_timeo s) (so_error s) (so_oobmark s) (so_pgrp s).
Definition set_state (v : Z) (s : socket) : socket :=
  Socket (so_type s) (so_options s) (so_linger s) v (so_pcb s) (so_proto s) (so_head s) (so_q0 s) (so_q0len s) (so_q s) (so_qlen s) (so_qlimit s) (so_rcv s) (so_snd s) (so_timeo s) (so_error s) (so_oobmark s) (so_pgrp s).
Definition set_pcb (v : Z) (s : socket) : socket :=
  Socket (so_type s) (so_options s) (so_linger s) (so_state s) v (so_proto s) (so_head s) (so_q0 s) (so_q0len s) (so_q s) (so_qlen s) (so_qlimit s) (so_rcv s) (so_snd s) (so_timeo s) (so_error s) (so_oobmark s) (so_pgrp s).
Definition set_head (v : Z) (s : socket) : socket :=
  Socket (so_type s) (so_options s) (so_linger s) (so_state s) (so_pcb s) (so_proto s) v (so_q0 s) (so_q0len s) (so_q s) (so_qlen s) (so_qlimit s) (so_rcv s) (so_snd s) (so_timeo s) (so_error s) (so_oobmark s) (so_pgrp s).
Definition set_q0 (v : Z) (s : socket) : socket :=
  Socket (so_type s) (so_options s) (so_linger s) (so_state s) (so_pcb s) (so_proto s) (so_head s) v (so_q0len s) (so_q s) (so_qlen s) (so_qlimit s) (so_rcv s) (so_snd s) (so_timeo s) (so_error s) (so_oobmark s) (so_pgrp s).
Definition set_q0len (v : Z) (s : socket) : socket :=
  Socket (so_type s) (so_options s) (so_linger s) (so_state s) (so_pcb s) (so_proto s) (so_head s) (so_q0 s) (i16 v) (so_q s) (so_qlen s) (so_qlimit s) (so_rcv s) (so_snd s) (so_timeo s) (so_error s) (so_oobmark s) (so_pgrp s).
Definition set_q (v : Z) (s : socket) : socket :=
  Socket (so_type s) (so_options s) (so_linger s) (so_state s) (so_pcb s) (so_proto s) (so_head s) (so_q0 s) (so_q0len s) v (so_qlen s) (so_qlimit s) (so_rcv s) (so_snd s) (so_timeo s) (so_error s) (so_oobmark s) (so_pgrp s).
Definition set_qlen (v : Z) (s : socket) : socket :=
  Socket (so_type s) (so_options s) (so_linger s) (so_state s) (so_pcb s) (so_proto s) (so_head s) (so_q0 s) (so_q0len s) (so_q s) (i16 v) (so_qlimit s) (so_rcv s) (so_snd s) (so_timeo s) (so_error s) (so_oobmark s) (so_pgrp s).
Definition set_qlimit (v : Z) (s : socket) : socket :=
  Socket (so_type s) (so_options s) (so_linger s) (so_state s) (so_pcb s) (so_proto s) (so_head s) (so_q0 s) (so_q0len s) (so_q s) (so_qlen s) v (so_rcv s) (so_snd s) (so_timeo s) (so_error s) (so_oobmark s) (so_pgrp s).
Definition set_rcv (v : sockbuf) (s : socket) : socket :=
  Socket (so_type s) (so_options s) (so_linger s) (so_state s) (so_pcb s) (so_proto s) (so_head s) (so_q0 s) (so_q0len s) (so_q s) (so_qlen s) (so_qlimit s) v (so_snd s) (so_timeo s) (so_error s) (so_oobmark s) (so_pgrp s).
Definition set_snd (v : sockbuf) (s : socket) : socket :=
  Socket (so_type s) (so_options s) (so_linger s) (so_state s) (so_pcb s) (so_proto s) (so_head s) (so_q0 s) (so_q0len s) (so_q s) (so_qlen s) (so_qlimit s) (so_rcv s) v (so_timeo s) (so_error s) (so_oobmark s) (so_pgrp s).
Definition set_error (v : Z) (s : socket) : socket :=
  Socket (so_type s) (so_options s) (so_linger s) (so_state s) (so_pcb s) (so_proto s) (so_head s) (so_q0 s) (so_q0len s) (so_q s) (so_qlen s) (so_qlimit s) (so_rcv s) (so_snd s) (so_timeo s) v (so_oobmark s) (so_pgrp s).
Definition set_oobmark (v : Z) (s : socket) : socket :=
  Socket (so_type s) (so_options s) (so_linger s) (so_state s) (so_pcb s) (so_proto s) (so_head s) (so_q0 s) (so_q0len s) (so_q s) (so_qlen s) (so_qlimit s) (so_rcv s) (so_snd s) (so_timeo s) (so_error s) (i16 v) (so_pgrp s).

(** Where a process sleeps; what is asked of the scheduler and of the signals. *)
Inductive sockchan := OnTimeo (so : Z) | OnSb (so : Z) (rcv : bool) (c : sbchan).
Inductive sockev := EvTimeo (so : Z) | EvSb (so : Z) (rcv : bool) (e : sbevent) | EvGsignal (pgrp sig : Z) | EvPsignal (pid sig : Z).
(** A routine returns, or puts the process to sleep on the way. *)
Inductive slept (A : Type) := Done (a : A) | Asleep (c : sockchan).
Arguments Done {A} _.
Arguments Asleep {A} _.

Record sockst (M H P : Type) := Sockst { socks : gmap Z socket; smb : mbst M H; spcb : P; sev : list sockev }.
Arguments Sockst {M H P}.
Arguments socks {M H P}.
Arguments smb {M H P}.
Arguments spcb {M H P}.
Arguments sev {M H P}.

(** What usrreq takes for a name: a chain, or the other socket (PRU_CONNECT2). *)
Inductive namarg := Nam (l : list Z) | Peer (so : Z).

(** The address of the mbuf of a structure. *)
Definition dtom (x : Z) : Z := Z.land x (Z.lnot (MSIZE - 1)).

Definition sb0 : sockbuf := Sockbuf 0 0 0 0 0 0 [] None 0.
Definition nopr : protosw := Protosw 0 0 0 0.
Definition so0 : socket := Socket 0 0 0 0 0 nopr 0 0 0 0 0 0 sb0 sb0 0 0 0 0.

Definition qnext (q : bool) (s : socket) : Z := if q then so_q s else so_q0 s.
Definition qlen (q : bool) (s : socket) : Z := if q then so_qlen s else so_q0len s.
Definition set_qnext (q : bool) (v : Z) (s : socket) : socket := if q then set_q v s else set_q0 v s.
Definition add_qlen (q : bool) (d : Z) (s : socket) : socket := if q then set_qlen (so_qlen s + d) s else set_q0len (so_q0len s + d) s.
Definition buffer (rcv : bool) (s : socket) : sockbuf := if rcv then so_rcv s else so_snd s.
Definition set_buffer (rcv : bool) (sb : sockbuf) (s : socket) : socket := if rcv then set_rcv sb s else set_snd sb s.

Section Sock.
Context {M H P : Type} `{RM : !ResMap M}.
Implicit Type st : sockst M H P.

Definition set_socks st v : sockst M H P := Sockst v (smb st) (spcb st) (sev st).
Definition set_smb st v : sockst M H P := Sockst (socks st) v (spcb st) (sev st).
Definition set_spcb st v : sockst M H P := Sockst (socks st) (smb st) v (sev st).
Definition add_sev st e : sockst M H P := Sockst (socks st) (smb st) (spcb st) (sev st ++ e).
Definition get_so (so : Z) st : res socket := match socks st !! so with Some s => Ok s | None => Fault end.
Definition put_so (so : Z) (s : socket) st : sockst M H P := set_socks st (<[so := s]> (socks st)).
(** [so->f = ...] *)
Definition upd_so (so : Z) (f : socket -> socket) st : res (sockst M H P) := s ← get_so so st; mret (put_so so (f s) st).

(** [nfsd]: nfs_wakeup_one_nfsd is 1; [alive]: pfind() finds the process; the pool of mbufs. *)
Context (nfsd : bool) (alive : Z -> bool) (mbutl : Z) (memall : Z -> Z -> bool).
(** pr_usrreq(so, req, m, nam, rights), of the protocol. *)
Context (usrreq : protosw -> Z -> Z -> list Z -> namarg -> list Z -> sockst M H P -> res (Z * sockst M H P)).
(** unp_discard() of a file: its message count goes down and it is closed. *)
Context (discard : Z -> sockst M H P -> res (sockst M H P)).

(** ** Waking *)

Definition sowakeup (so : Z) (rcv : bool) st : res (sockst M H P) :=
  s ← get_so so st;
  let '(sb, ev) := sbwakeup nfsd (buffer rcv s) in
  let st := add_sev (put_so so (set_buffer rcv sb s) st) (EvSb so rcv <$> ev) in
  mret (if has (so_state s) SS_ASYNC then
    if so_pgrp s =? 0 then st
    else if 0 <? so_pgrp s then add_sev st [EvGsignal (so_pgrp s) SIGIO]
    else if alive (- so_pgrp s) then add_sev st [EvPsignal (- so_pgrp s) SIGIO]
    else st
  else st).
Definition sorwakeup (so : Z) := sowakeup so true.
Definition sowwakeup (so : Z) := sowakeup so false.
Definition wakeup_timeo (so : Z) st : sockst M H P := add_sev st [EvTimeo so].

(** ** The queues of connections *)

Definition soqinsque (head so : Z) (q : bool) st : res (sockst M H P) :=
  st ← upd_so so (set_head head) st;
  st ← upd_so head (add_qlen q 1) st;
  h ← get_so head st;
  st ← upd_so so (set_qnext q (qnext q h)) st;
  upd_so head (set_qnext q so) st.

(** The socket before [so] on the queue of [head]; [fuel] sockets at most are looked at. *)
Fixpoint soqremque_prev (fuel : nat) (q : bool) (so head prev : Z) st : res (option Z) :=
  match fuel with
  | O => Fault
  | S fuel =>
      p ← get_so prev st;
      if qnext q p =? so then mret (Some prev)
      else if qnext q p =? head then mret None
      else soqremque_prev fuel q so head (qnext q p) st
  end.

Definition soqremque (so : Z) (q : bool) st : res (bool * sockst M H P) :=
  s ← get_so so st;
  let head := so_head s in
  r ← soqremque_prev (S (size (socks st))) q so head head st;
  match r with
  | None => mret (false, st)
  | Some prev =>
      st ← upd_so prev (set_qnext q (qnext q s)) st;
      st ← upd_so head (add_qlen q (-1)) st;
      st ← upd_so so (fun s => set_head 0 (set_q0 0 (set_q 0 s))) st;
      mret (true, st)
  end.

(** ** The state flags *)

Definition soisconnecting (so : Z) st : res (sockst M H P) :=
  st ← upd_so so (fun s => set_state (with_bits (without (so_state s) (Z.lor SS_ISCONNECTED SS_ISDISCONNECTING)) SS_ISCONNECTING) s) st;
  mret (wakeup_timeo so st).

Definition soisconnected (so : Z) st : res (sockst M H P) :=
  s ← get_so so st;
  let head := so_head s in
  st ← (if negb (head =? 0) then
          '(ok, st) ← soqremque so false st;
          if negb ok then Panic "soisconnected"
          else
            st ← soqinsque head so true st;
            st ← sorwakeup head st;
            mret (wakeup_timeo head st)
        else mret st);
  st ← upd_so so (fun s => set_state (with_bits (without (so_state s) (Z.lor SS_ISCONNECTING SS_ISDISCONNECTING)) SS_ISCONNECTED) s) st;
  st ← sorwakeup so (wakeup_timeo so st);
  sowwakeup so st.

Definition soisdisconnecting (so : Z) st : res (sockst M H P) :=
  st ← upd_so so (fun s => set_state (with_bits (without (so_state s) SS_ISCONNECTING)
                   (Z.lor SS_ISDISCONNECTING (Z.lor SS_CANTRCVMORE SS_CANTSENDMORE))) s) st;
  st ← sowwakeup so (wakeup_timeo so st);
  sorwakeup so st.

Definition soisdisconnected (so : Z) st : res (sockst M H P) :=
  st ← upd_so so (fun s => set_state (with_bits (without (so_state s) (Z.lor SS_ISCONNECTING (Z.lor SS_ISCONNECTED SS_ISDISCONNECTING)))
                   (Z.lor SS_CANTRCVMORE SS_CANTSENDMORE)) s) st;
  st ← sowwakeup so (wakeup_timeo so st);
  sorwakeup so st.

Definition socantsendmore (so : Z) st : res (sockst M H P) :=
  st ← upd_so so (fun s => set_state (with_bits (so_state s) SS_CANTSENDMORE) s) st; sowwakeup so st.
Definition socantrcvmore (so : Z) st : res (sockst M H P) :=
  st ← upd_so so (fun s => set_state (with_bits (so_state s) SS_CANTRCVMORE) s) st; sorwakeup so st.

(** ** New sockets *)

(** A cleared mbuf for a structure: the address of the structure. *)
Definition getclr_struct (t : Z) st : res (option Z * sockst M H P) :=
  '(r, mb) ← m_getclr mbutl memall t (smb st);
  match r with
  | None => mret (None, set_smb st mb)
  | Some m => x ← get_mb m mb; mret (Some (mtod m x), set_smb st mb)
  end.

Definition sonewconn (head : Z) st : res (option Z * sockst M H P) :=
  h ← get_so head st;
  if 3 * so_qlimit h / 2 <? so_qlen h + so_q0len h then mret (None, st)
  else
    '(r, st) ← getclr_struct MT_SOCKET st;
    match r with
    | None => mret (None, st)
    | Some so =>
        let s := Socket (so_type h) (without (so_options h) SO_ACCEPTCONN) (so_linger h) (with_bits (so_state h) SS_NOFDREF) 0 (so_proto h)
                   0 0 0 0 0 0 sb0 sb0 (so_timeo h) 0 0 (so_pgrp h) in
        st ← soqinsque head so false (put_so so s st);
        '(e, st) ← usrreq (so_proto h) so PRU_ATTACH [] (Nam []) [] st;
        if negb (e =? 0) then
          '(_, st) ← soqremque so false st;
          mb ← MFREE mbutl (dtom so) (smb st);
          mret (None, set_socks (set_smb st mb) (delete so (socks st)))
        else mret (Some so, st)
    end.

(** ** Freeing *)

(** unp_scan(): the files in the rights of the datagrams of a buffer, to [op]. *)
Fixpoint scan_rights (op : Z -> sockst M H P -> res (sockst M H P)) (n : nat) (rp : Z) st : res (sockst M H P) :=
  match n with
  | O => mret st
  | S n => st ← op (field (core (smb st)) rp 4) st; scan_rights op n (rp + 4) st
  end.
(** [do m = m->m_next; while (m->m_act == 0)]: what is after the datagram whose rights head [m]. *)
Fixpoint scan_skip (m : list Z) st : res (list Z) :=
  match m with
  | [] => Panic "unp_gcscan"
  | _ :: [] => Panic "unp_gcscan"
  | _ :: ((a :: _) as m') => x ← get_mb a (smb st); if m_act x =? 0 then scan_skip m' st else mret (tail m')
  end.
Fixpoint unp_scan (fuel : nat) (op : Z -> sockst M H P -> res (sockst M H P)) (m : list Z) st : res (sockst M H P) :=
  match fuel with
  | O => Fault
  | S fuel =>
      match m with
      | [] => mret st
      | _ :: [] => Panic "unp_gcscan"
      | _ :: ((r :: _) as m') =>
          x ← get_mb r (smb st);
          st ← (if m_len x =? 0 then mret st else scan_rights op (Z.to_nat (m_len x / 4)) (mtod r x) st);
          m ← scan_skip m' st;
          unp_scan fuel op m st
      end
  end.

(** The receive buffer is given up: a sleep when it is locked. *)
Definition sorflush (so : Z) st : res (slept unit * sockst M H P) :=
  s ← get_so so st;
  let '(sb, sl) := sblock (so_rcv s) in
  let st := put_so so (set_rcv sb s) st in
  match sl with
  | Some c => mret (Asleep (OnSb so true c), st)
  | None =>
      st ← socantrcvmore so st;
      s ← get_so so st;
      let '(asb, ev) := sbunlock (so_rcv s) in
      let st := add_sev (put_so so (set_rcv sb0 s) st) (EvSb so true <$> ev) in
      st ← (if (pr_family (so_proto s) =? AF_UNIX) && has (pr_flags (so_proto s)) PR_RIGHTS
            then unp_scan (S (length (sb_mb asb))) discard (sb_mb asb) st else mret st);
      '(_, mb) ← sbrelease mbutl asb (smb st);
      mret (Done tt, set_smb st mb)
  end.

Definition so_free (so : Z) st : res (sockst M H P) :=
  mb ← MFREE mbutl (dtom so) (smb st);
  mret (set_socks (set_smb st mb) (delete so (socks st))).

Definition sofree (so : Z) st : res (slept unit * sockst M H P) :=
  s ← get_so so st;
  st ← (if negb (so_head s =? 0) then
          '(ok, st) ← soqremque so false st;
          '(ok, st) ← (if negb ok then soqremque so true st else mret (true, st));
          if negb ok then Panic "sofree dq" else upd_so so (set_head 0) st
        else mret st);
  if negb (so_pcb s =? 0) || negb (has (so_state s) SS_NOFDREF) then mret (Done tt, st)
  else
    s ← get_so so st;
    '(sb, mb) ← sbrelease mbutl (so_snd s) (smb st);
    '(r, st) ← sorflush so (put_so so (set_snd sb s) (set_smb st mb));
    match r with
    | Asleep c => mret (Asleep c, st)
    | Done _ => st ← so_free so st; mret (Done tt, st)
    end.

(** ** The system calls *)

(** [prp]: what pffindproto() or pffindtype() finds; [root]: the user is the super-user. *)
Definition socreate (prp : option protosw) (root : bool) (type : Z) st : res (Z * option Z * sockst M H P) :=
  match prp with
  | None => mret (EPROTONOSUPPORT, None, st)
  | Some prp =>
      if negb (pr_type prp =? type) then mret (EPROTOTYPE, None, st)
      else
        '(r, st) ← getclr_struct MT_SOCKET st;
        match r with
        | None => mret (ENOBUFS, None, st)
        | Some so =>
            let s := Socket type 0 0 (if root then SS_PRIV else 0) 0 prp 0 0 0 0 0 0 sb0 sb0 0 0 0 0 in
            '(e, st) ← usrreq prp so PRU_ATTACH [] (Nam []) [] (put_so so s st);
            if negb (e =? 0) then
              st ← upd_so so (fun s => set_state (with_bits (so_state s) SS_NOFDREF) s) st;
              '(_, st) ← sofree so st;
              mret (e, None, st)
            else mret (0, Some so, st)
        end
  end.

Definition req (so r : Z) (m : list Z) (nam : namarg) (rights : list Z) st : res (Z * sockst M H P) :=
  s ← get_so so st; usrreq (so_proto s) so r m nam rights st.

Definition sobind (so : Z) (nam : list Z) st : res (Z * sockst M H P) := req so PRU_BIND [] (Nam nam) [] st.

Definition solisten (so backlog : Z) st : res (Z * sockst M H P) :=
  '(e, st) ← req so PRU_LISTEN [] (Nam []) [] st;
  if negb (e =? 0) then mret (e, st)
  else
    st ← upd_so so (fun s =>
      let s := if so_q s =? 0 then set_options (with_bits (so_options s) SO_ACCEPTCONN) (set_q0 so (set_q so s)) else s in
      set_qlimit (Z.min (if backlog <? 0 then 0 else backlog) SOMAXCONN) s) st;
    mret (0, st).

Definition soabort (so : Z) st : res (Z * sockst M H P) := req so PRU_ABORT [] (Nam []) [] st.

(** The loops of soclose() over the queues: at most [fuel] aborts. *)
Fixpoint abort_queue (fuel : nat) (q : bool) (so : Z) st : res (sockst M H P) :=
  s ← get_so so st;
  if qnext q s =? so then mret st
  else
    match fuel with
    | O => Fault
    | S fuel => '(_, st) ← soabort (qnext q s) st; abort_queue fuel q so st
    end.

Definition sodisconnect (so : Z) (nam : list Z) st : res (Z * sockst M H P) :=
  s ← get_so so st;
  if negb (has (so_state s) SS_ISCONNECTED) then mret (ENOTCONN, st)
  else if has (so_state s) SS_ISDISCONNECTING then mret (EALREADY, st)
  else req so PRU_DISCONNECT [] (Nam nam) [] st.

Definition soclose_discard (so error : Z) st : res (slept Z * sockst M H P) :=
  s ← get_so so st;
  if has (so_state s) SS_NOFDREF then Panic "soclose: NOFDREF"
  else
    st ← upd_so so (fun s => set_state (with_bits (so_state s) SS_NOFDREF) s) st;
    '(r, st) ← sofree so st;
    mret (match r with Done _ => Done error | Asleep c => Asleep c end, st).

Definition soclose_drop (so error : Z) st : res (slept Z * sockst M H P) :=
  s ← get_so so st;
  if negb (so_pcb s =? 0) then
    '(e2, st) ← req so PRU_DETACH [] (Nam []) [] st;
    soclose_discard so (if error =? 0 then e2 else error) st
  else soclose_discard so error st.

(** [while (so->so_state & SS_ISCONNECTED) sleep(...)], then [drop:]. *)
Definition soclose_linger (so error : Z) st : res (slept Z * sockst M H P) :=
  s ← get_so so st;
  if has (so_state s) SS_ISCONNECTED then mret (Asleep (OnTimeo so), st) else soclose_drop so error st.

(** [junk]: what the uninitialised [error] holds. *)
Definition soclose (fuel : nat) (junk so : Z) st : res (slept Z * sockst M H P) :=
  s ← get_so so st;
  st ← (if has (so_options s) SO_ACCEPTCONN then st ← abort_queue fuel false so st; abort_queue fuel true so st else mret st);
  s ← get_so so st;
  if so_pcb s =? 0 then soclose_discard so junk st
  else if has (so_state s) SS_ISCONNECTED then
    '(e, st) ← (if negb (has (so_state s) SS_ISDISCONNECTING) then sodisconnect so [] st else mret (junk, st));
    let failed := negb (has (so_state s) SS_ISDISCONNECTING) && negb (e =? 0) in
    s ← get_so so st;
    if failed then soclose_drop so e st
    else if has (so_options s) SO_LINGER then
      if has (so_state s) SS_ISDISCONNECTING && has (so_state s) SS_NBIO then soclose_drop so e st
      else soclose_linger so e st
    else soclose_drop so e st
  else soclose_drop so junk st.

Definition soaccept (so : Z) (nam : list Z) st : res (Z * sockst M H P) :=
  s ← get_so so st;
  if negb (has (so_state s) SS_NOFDREF) then Panic "soaccept: !NOFDREF"
  else
    st ← upd_so so (fun s => set_state (without (so_state s) SS_NOFDREF) s) st;
    req so PRU_ACCEPT [] (Nam nam) [] st.

(** The part of accept() between the look-up of the descriptor and its allocation, and the taking of the
    connection: an error, a sleep, or the new socket. *)
Definition accept_ready (so : Z) st : res (slept Z * sockst M H P) :=
  s ← get_so so st;
  if negb (has (so_options s) SO_ACCEPTCONN) then mret (Done EINVAL, st)
  else if has (so_state s) SS_NBIO && (so_qlen s =? 0) then mret (Done EWOULDBLOCK, st)
  else if (so_qlen s =? 0) && (so_error s =? 0) then
    if has (so_state s) SS_CANTRCVMORE then st ← upd_so so (set_error ECONNABORTED) st; mret (Done ECONNABORTED, st)
    else mret (Asleep (OnTimeo so), st)
  else mret (Done (so_error s), st).
Definition accept_take (so : Z) (nam : list Z) st : res (Z * sockst M H P) :=
  s ← get_so so st;
  let aso := so_q s in
  '(ok, st) ← soqremque aso true st;
  if negb ok then Panic "accept"
  else '(_, st) ← soaccept aso nam st; mret (aso, st).

Definition soconnect (so : Z) (nam : list Z) st : res (Z * sockst M H P) :=
  s ← get_so so st;
  if has (so_state s) (Z.lor SS_ISCONNECTED SS_ISCONNECTING) then mret (EISCONN, st)
  else req so PRU_CONNECT [] (Nam nam) [] st.

Definition soconnect2 (so1 so2 : Z) st : res (Z * sockst M H P) := req so1 PRU_CONNECT2 [] (Peer so2) [] st.

(** [how] is 0, 1 or 2; one more has FREAD, FWRITE for bits. *)
Definition soshutdown (so how : Z) st : res (slept Z * sockst M H P) :=
  '(r, st) ← (if has (how + 1) 1 then sorflush so st else mret (Done tt, st));
  match r with
  | Asleep c => mret (Asleep c, st)
  | Done _ => if has (how + 1) 2 then '(e, st) ← req so PRU_SHUTDOWN [] (Nam []) [] st; mret (Done e, st) else mret (Done 0, st)
  end.

(** [*mtod(m, int * )] *)
Definition mbuf_int (m : Z) st : res Z := x ← get_mb m (smb st); mret (i32 (field (core (smb st)) (mtod m x) 4)).

Definition sosetopt (so level optname : Z) (m : option Z) st : res (Z * sockst M H P) :=
  if negb (level =? SOL_SOCKET) then mret (EINVAL, st)
  else if bool_decide (optname ∈ [SO_DEBUG; SO_KEEPALIVE; SO_DONTROUTE; SO_USELOOPBACK; SO_REUSEADDR]) then
    st ← upd_so so (fun s => set_options (with_bits (so_options s) optname) s) st; mret (0, st)
  else if optname =? SO_LINGER then
    match m with
    | None => mret (EINVAL, st)
    | Some m =>
        x ← get_mb m (smb st);
        if negb (m_len x =? 4) then mret (EINVAL, st)
        else v ← mbuf_int m st;
             st ← upd_so so (fun s => set_linger v (set_options (with_bits (so_options s) SO_LINGER) s)) st; mret (0, st)
    end
  else if optname =? SO_DONTLINGER then
    st ← upd_so so (fun s => set_linger 0 (set_options (without (so_options s) SO_LINGER) s)) st; mret (0, st)
  else mret (EINVAL, st).

Definition sogetopt (so level optname : Z) (m : option Z) st : res (Z * sockst M H P) :=
  if negb (level =? SOL_SOCKET) then mret (EINVAL, st)
  else if bool_decide (optname ∈ [SO_USELOOPBACK; SO_DONTROUTE; SO_DEBUG; SO_KEEPALIVE; SO_LINGER; SO_REUSEADDR]) then
    s ← get_so so st;
    if negb (has (so_options s) optname) then mret (ENOPROTOOPT, st)
    else
      match m with
      | Some m =>
          if optname =? SO_LINGER then
            x ← get_mb m (smb st);
            mret (0, set_smb st (put_mb m (set_len x 4) (set_core (smb st) (store (core (smb st)) (mtod m x) (int_bytes (so_linger s))))))
          else mret (0, st)
      | None => mret (0, st)
      end
  else mret (EINVAL, st).

Definition sohasoutofband (so : Z) st : res (sockst M H P) :=
  s ← get_so so st;
  mret (if so_pgrp s =? 0 then st
        else if 0 <? so_pgrp s then add_sev st [EvGsignal (so_pgrp s) SIGURG]
        else if alive (- so_pgrp s) then add_sev st [EvPsignal (- so_pgrp s) SIGURG]
        else st).
End Sock.
