(* ===== verification/SockThms.v ===== *)
(** * The queues of a listening socket

    A listening socket keeps two circular lists of sockets, of the connections in progress and of
    those to be accepted.  The abstraction is a pair of lists; the routines that link and unlink
    are operations on them, for every queue of any length. *)

From S2P Require Import Prelude Flags Rmap Mbuf Sockbuf Sock.
From stdpp Require Import prelude list numbers strings gmap.
From Stdlib Require Import ZArith Lia.

Local Open Scope Z_scope.
Local Open Scope kern_scope.

Lemma fmap_eq_some {A B} (f : A -> B) (o o' : option A) : f <$> o = f <$> o' -> is_Some o <-> is_Some o'.
Proof. intros E. by rewrite <- (fmap_is_Some f o), E, fmap_is_Some. Qed.

Section Queues.
Context {M H P : Type} `{RM : !ResMap M}.
Implicit Type st : sockst M H P.

(** From [a] through [l] to [z]. *)
Fixpoint linked st (q : bool) (a : Z) (l : list Z) (z : Z) : Prop :=
  match l with
  | [] => qnext q <$> socks st !! a = Some z
  | b :: l => qnext q <$> socks st !! a = Some b /\ linked st q b l z
  end.

Definition sel (q : bool) (l0 l1 : list Z) : list Z := if q then l1 else l0.

(** [h] listens, with the connections [l0] in progress and [l1] to be accepted. *)
Record listening st (h : Z) (l0 l1 : list Z) : Prop := {
  ls_null : h <> 0;
  ls_nodup : NoDup (h :: l0 ++ l1);
  ls_ring : forall q, linked st q h (sel q l0 l1) h;
  ls_len : forall q s, socks st !! h = Some s -> qlen q s = i16 (Z.of_nat (length (sel q l0 l1)));
  ls_head : forall a, a ∈ l0 ++ l1 -> so_head <$> socks st !! a = Some h
}.

(** The socket but for its place in queues. *)
Definition body (s : socket) : socket := set_head 0 (set_q0 0 (set_q 0 (set_q0len 0 (set_qlen 0 s)))).
(** [st'] is [st] but for the places in the queues of the sockets in [X]. *)
Definition relinked (X : list Z) st st' : Prop := smb st' = smb st /\ spcb st' = spcb st /\ sev st' = sev st /\
  (forall a, body <$> socks st' !! a = body <$> socks st !! a) /\ (forall a, a ∉ X -> socks st' !! a = socks st !! a).

Lemma relinked_refl X st : relinked X st st.
Proof. done. Qed.
Lemma relinked_trans X st1 st2 st3 : relinked X st1 st2 -> relinked X st2 st3 -> relinked X st1 st3.
Proof.
  intros (A1 & A2 & A3 & A4 & A5) (B1 & B2 & B3 & B4 & B5). split_and!; try congruence.
  intros a Ha. by rewrite B5, A5.
Qed.
Lemma relinked_weaken X Y st st' : X ⊆ Y -> relinked X st st' -> relinked Y st st'.
Proof. intros Hs (A1 & A2 & A3 & A4 & A5). split_and!; try done. intros a Ha. apply A5. set_solver. Qed.

(** [so->f = ...] as an update of the store. *)
Definition alt (so : Z) (f : socket -> socket) st : sockst M H P := set_socks st (alter f so (socks st)).

Lemma alt_relinked so f st : (forall s, body (f s) = body s) -> relinked [so] st (alt so f st).
Proof.
  intros Hf. split_and!; try done; intros a; cbn.
  - destruct (decide (a = so)) as [->|]; [rewrite lookup_alter_eq|by rewrite lookup_alter_ne].
    destruct (socks st !! so); cbn; [by rewrite Hf|done].
  - intros Ha. apply lookup_alter_ne. set_solver.
Qed.

Lemma alt_relinked_in so X f st : so ∈ X -> (forall s, body (f s) = body s) -> relinked X st (alt so f st).
Proof. intros Hin Hf. eapply relinked_weaken; [|by apply alt_relinked]. intros a ->%list_elem_of_singleton. done. Qed.

(** What [f] leaves of a socket, and every other socket, is as it was. *)
Lemma alt_proj {A} (pi : socket -> A) so f st b : (forall s, pi (f s) = pi s) \/ b <> so ->
  pi <$> socks (alt so f st) !! b = pi <$> socks st !! b.
Proof.
  intros Hf. cbn. destruct (decide (b = so)) as [->|]; [rewrite lookup_alter_eq|by rewrite lookup_alter_ne].
  destruct Hf as [Hf|?]; [|done]. destruct (socks st !! so); cbn; [by rewrite Hf|done].
Qed.
Lemma alt_at {A} (pi : socket -> A) so f st : pi <$> socks (alt so f st) !! so = (fun s => pi (f s)) <$> socks st !! so.
Proof. cbn. rewrite lookup_alter_eq. by destruct (socks st !! so). Qed.
Lemma alt_some so f st b : is_Some (socks (alt so f st) !! b) <-> is_Some (socks st !! b).
Proof. cbn. apply lookup_alter_is_Some. Qed.

Lemma get_so_Ok so s st : socks st !! so = Some s -> get_so so st = Ok s.
Proof. intros Hs. unfold get_so. by rewrite Hs. Qed.
Lemma upd_so_Ok so f st : is_Some (socks st !! so) -> upd_so so f st = Ok (alt so f st).
Proof.
  intros [s Hs]. unfold upd_so. rewrite (get_so_Ok _ _ _ Hs). kstep. unfold alt, put_so. do 2 f_equal.
  apply map_eq. intros b. destruct (decide (b = so)) as [->|].
  - by rewrite lookup_insert_eq, lookup_alter_eq, Hs.
  - by rewrite lookup_insert_ne, lookup_alter_ne.
Qed.

(** A ring is read through the links of its members only. *)
Lemma linked_ext st st' q a a' l z : qnext q <$> socks st' !! a' = qnext q <$> socks st !! a ->
  (forall b, b ∈ l -> qnext q <$> socks st' !! b = qnext q <$> socks st !! b) -> linked st q a l z -> linked st' q a' l z.
Proof.
  revert a a'. induction l as [|b l IH]; intros a a' Ha He; cbn; [by rewrite Ha|].
  intros [Hb Hl]. split; [by rewrite Ha|]. apply (IH b); [apply He; by left| |done]. intros c Hc. apply He. by right.
Qed.

Lemma linked_app st q a l1 b l2 z : linked st q a (l1 ++ b :: l2) z <-> linked st q a l1 b /\ linked st q b l2 z.
Proof.
  revert a. induction l1 as [|c l1 IH]; intros a; cbn; [done|]. rewrite IH. tauto.
Qed.

Lemma linked_in st q a l z b : linked st q a l z -> b ∈ a :: l -> is_Some (socks st !! b).
Proof.
  revert a. induction l as [|c l IH]; intros a; cbn.
  - intros Ha ->%list_elem_of_singleton. destruct (socks st !! a); [by eexists|done].
  - intros [Ha Hl] [->|Hb]%elem_of_cons; [destruct (socks st !! a); [by eexists|done]|]. by apply (IH c).
Qed.

(** A list of distinct sockets is no longer than the store. *)
Lemma ring_fuel st l : NoDup l -> (forall a, a ∈ l -> is_Some (socks st !! a)) -> (length l <= size (socks st))%nat.
Proof.
  intros Hnd Hin. rewrite <- (size_list_to_set (C := gset Z) l Hnd), <- size_dom. apply subseteq_size.
  intros a Ha%elem_of_list_to_set. by apply elem_of_dom, Hin.
Qed.

(** ** soqinsque *)

Lemma queues_add (q : bool) (so : Z) l0 l1 : (if q then l0 else so :: l0) ++ (if q then so :: l1 else l1) ≡ₚ so :: l0 ++ l1.
Proof. destruct q; [by rewrite <- Permutation_middle|done]. Qed.
Lemma queue_apart (h so : Z) l0 l1 (q : bool) b : NoDup (h :: l0 ++ l1) -> so ∉ h :: l0 ++ l1 -> b ∈ sel q l0 l1 -> b <> so /\ b <> h.
Proof.
  intros [Hh _]%NoDup_cons [_ Hso]%not_elem_of_cons Hb.
  assert (b ∈ l0 ++ l1) as Hin by (apply elem_of_app; destruct q; [by right|by left]). by split; intros ->.
Qed.

Lemma soqinsque_spec st h l0 l1 so (q : bool) : listening st h l0 l1 -> is_Some (socks st !! so) -> so ∉ h :: l0 ++ l1 ->
  exists st', soqinsque h so q st = Ok st' /\ relinked [h; so] st st' /\
    listening st' h (if q then l0 else so :: l0) (if q then so :: l1 else l1).
Proof.
  intros [Hz Hnd Hr Hlen Hhd] Hs Hn. assert (so <> h /\ so ∉ l0 /\ so ∉ l1) as (Hne & Hn0 & Hn1) by set_solver.
  assert (is_Some (socks st !! h)) as Hh by (apply (linked_in _ _ _ _ _ h (Hr q)); by left).
  unfold soqinsque. rewrite upd_so_Ok by done. kstep. set (st1 := alt so (set_head h) st).
  rewrite upd_so_Ok by by apply alt_some. kstep. set (st2 := alt h (add_qlen q 1) st1).
  destruct (proj2 (alt_some h (add_qlen q 1) st1 h)) as [h2 Hh2]; [by apply alt_some|]. change (alt h _ st1) with st2 in Hh2.
  rewrite (get_so_Ok _ _ _ Hh2). kstep.
  rewrite upd_so_Ok by by apply alt_some, alt_some. kstep. set (st3 := alt so (set_qnext q (qnext q h2)) st2).
  rewrite upd_so_Ok by by apply alt_some, alt_some, alt_some. kstep. set (st4 := alt h (set_qnext q so) st3).
  assert (qnext q <$> socks st !! h = Some (qnext q h2)) as Hq2.
  { transitivity (qnext q <$> socks st2 !! h); [|by rewrite Hh2]. unfold st2. rewrite alt_proj by (left; by destruct q).
    unfold st1. by rewrite alt_proj by (left; by destruct q). }
  assert (forall b (pi : socket -> Z), b <> so -> b <> h -> pi <$> socks st4 !! b = pi <$> socks st !! b) as Hoth.
  { intros b pi ? ?. unfold st4, st3, st2, st1. by rewrite !alt_proj by by right. }
  exists st4. split_and!; [done|..].
  - apply (relinked_trans _ _ st1); [apply alt_relinked_in; [right; by left|done]|].
    apply (relinked_trans _ _ st2); [apply alt_relinked_in; [by left|by destruct q]|].
    apply (relinked_trans _ _ st3); (apply alt_relinked_in; [|by destruct q]); [right; by left|by left].
  - split; [done|..].
    + rewrite queues_add. apply NoDup_cons in Hnd as [Hnh Hnd]. rewrite !NoDup_cons. split_and!; [|by apply not_elem_of_cons in Hn as [_ ?]|done].
      apply not_elem_of_cons. by split; [intros ->|].
    + intros q'. destruct (decide (q' = q)) as [->|Hq].
      * replace (sel q _ _) with (so :: sel q l0 l1) by by destruct q. split.
        -- unfold st4. rewrite alt_at. destruct (proj2 (alt_some so (set_qnext q (qnext q h2)) st2 h)) as [s3 Hs3]; [by eexists|].
           change (alt so _ st2) with st3 in Hs3. rewrite Hs3. by destruct q.
        -- apply (linked_ext st st4 q h so); [|intros b Hb; destruct (queue_apart h so l0 l1 _ b Hnd Hn Hb); by apply Hoth|apply Hr].
           rewrite Hq2. unfold st4. rewrite alt_proj by by right. unfold st3. rewrite alt_at.
           destruct (proj2 (alt_some h (add_qlen q 1) st1 so)) as [s2 Hs2]; [by apply alt_some|].
           change (alt h _ st1) with st2 in Hs2. rewrite Hs2. by destruct q.
      * replace (sel q' _ _) with (sel q' l0 l1) by by destruct q, q'.
        apply (linked_ext st st4 q' h h); [|intros b Hb; destruct (queue_apart h so l0 l1 _ b Hnd Hn Hb); by apply Hoth|apply Hr].
        unfold st4, st3, st2, st1. by rewrite !alt_proj by (left; by destruct q, q').
    + intros q' s Hs4. assert (qlen q' <$> socks st4 !! h = Some (qlen q' s)) as E by by rewrite Hs4.
      unfold st4, st3 in E. rewrite !alt_proj in E by (left; by destruct q, q'). unfold st2 in E. rewrite alt_at in E.
      unfold st1 in E. cbn in E. rewrite lookup_alter_ne in E by done. destruct Hh as [sh Hh]. rewrite Hh in E. cbn in E. injection E as <-.
      specialize (Hlen q' sh Hh). destruct q, q'; cbn in *; try done; rewrite Hlen, wraps_add_l by done; f_equal; lia.
    + intros a. rewrite queues_add. intros Ha%elem_of_cons. destruct (decide (a = so)) as [->|Has].
      * unfold st4, st3, st2. rewrite !alt_proj by (left; by destruct q). unfold st1. rewrite alt_at. by destruct Hs as [s ->].
      * destruct Ha as [?|Ha]; [done|]. rewrite Hoth; [by apply Hhd|done|]. intros ->. by apply NoDup_cons in Hnd as [Hnh _].
Qed.

(** ** soqremque *)

Lemma soqremque_prev_spec st q so h l : forall fuel a, linked st q a l h -> h <> so -> (length l < fuel)%nat -> NoDup l -> h ∉ l ->
  (so ∉ l -> soqremque_prev fuel q so h a st = Ok None) /\
  (forall pre post, l = pre ++ so :: post -> soqremque_prev fuel q so h a st = Ok (Some (default a (last pre)))).
Proof.
  induction l as [|b l IH]; intros fuel a Hl Hne Hf Hnd Hn; (destruct fuel as [|fuel]; [simpl in Hf; lia|]); cbn [soqremque_prev].
  - cbn in Hl. destruct (socks st !! a) as [s|] eqn:E; [|done]. cbn in Hl. injection Hl as Hl.
    rewrite (get_so_Ok _ _ _ E). kstep. rewrite Hl, (proj2 (Z.eqb_neq _ _) Hne), Z.eqb_refl.
    split; [done|]. intros [|??] post ?; done.
  - cbn in Hl. destruct Hl as [Ha Hl]. destruct (socks st !! a) as [s|] eqn:E; [|done]. cbn in Ha. injection Ha as Ha.
    rewrite (get_so_Ok _ _ _ E). kstep. rewrite Ha. apply NoDup_cons in Hnd as [Hb Hnd]. apply not_elem_of_cons in Hn as [Hhb Hn].
    destruct (IH fuel b Hl Hne ltac:(simpl in Hf; lia) Hnd Hn) as [I1 I2]. destruct (Z.eqb_spec b so) as [->|Hbs].
    + split; [intros Hx; destruct Hx; by left|]. intros [|c pre] post E2; [done|]. injection E2 as <- E2. exfalso. apply Hb. rewrite E2. set_solver.
    + rewrite (proj2 (Z.eqb_neq b h)) by done. split.
      * intros Hn'. apply I1. set_solver.
      * intros [|c pre] post E2; [by injection E2 as ? ?|]. injection E2 as <- E2. rewrite (I2 pre post E2). rewrite last_cons. by destruct (last pre).
Qed.

(** The socket before the one taken off: the head, or the last of those before it. *)
Lemma last_or (h : Z) pre : let p := default h (last pre) in p = h /\ pre = [] \/ exists pre', pre = pre' ++ [p].
Proof. destruct (exists_last' pre) as [->|(l & x & ->)]; [by left|right]. exists l. by rewrite last_snoc. Qed.

Lemma last_or_apart (h so : Z) pre post : so <> h -> h ∉ pre ++ so :: post -> NoDup (pre ++ so :: post) ->
  let p := default h (last pre) in p <> so /\ p ∈ h :: pre /\ p ∉ post /\ so ∉ h :: pre ++ post /\ (forall pre', pre = pre' ++ [p] -> p ∉ h :: pre').
Proof.
  intros Hne Hh (N1 & N2 & [N3 N4]%NoDup_cons)%NoDup_app p.
  assert (forall pre', pre = pre' ++ [p] -> p ∉ h :: pre') as Hlast.
  { intros pre' E. rewrite E in N1, Hh. apply NoDup_app in N1 as (_ & N1 & _). intros [->|Hp]%elem_of_cons; [set_solver|]. apply (N1 p Hp). by left. }
  assert (p ∈ h :: pre) as Hp by (destruct (last_or h pre) as [[E _]|(pre' & E)]; fold p in E; [rewrite E; by left|right; rewrite E; set_solver]).
  assert (so ∉ pre) as Hso by (intros Hx; apply (N2 so Hx); by left).
  split_and!; [| | |set_solver|done]; [set_solver|done|]. apply elem_of_cons in Hp as [->|Hp]; [set_solver|]. intros Hx. apply (N2 p Hp). by right.
Qed.

(** Unlinking [so] from a ring: only the link of the socket before it changes. *)
Lemma ring_remove st st' q h so pre post : so <> h -> h ∉ pre ++ so :: post -> NoDup (pre ++ so :: post) -> linked st q h (pre ++ so :: post) h ->
  let p := default h (last pre) in qnext q <$> socks st' !! p = qnext q <$> socks st !! so ->
  (forall b, b <> so -> b <> p -> qnext q <$> socks st' !! b = qnext q <$> socks st !! b) -> linked st' q h (pre ++ post) h.
Proof.
  intros Hne Hh Hnd [R1 R2]%linked_app p Hp Hoth.
  destruct (last_or_apart h so pre post Hne Hh Hnd) as (_ & _ & Hpp & Hso & Hpl). fold p in Hpp, Hpl.
  assert (forall b, b ∈ post -> qnext q <$> socks st' !! b = qnext q <$> socks st !! b) as Hpost.
  { intros b Hb. apply Hoth; intros ->; [|done]. apply Hso. right. apply elem_of_app. by right. }
  destruct (last_or h pre) as [[E ->]|(pre' & E)].
  - unfold p in Hp. apply (linked_ext st st' q so h); [|done..]. exact Hp.
  - fold p in E. specialize (Hpl pre' E). rewrite E in R1 |- *. rewrite <- app_assoc. cbn [app]. apply linked_app in R1 as [R1 _]. apply linked_app. split.
    + assert (forall b, b ∈ h :: pre' -> qnext q <$> socks st' !! b = qnext q <$> socks st !! b) as Hpre.
      { intros b Hb. apply Hoth; intros ->; [|done]. apply Hso. rewrite E, <- app_assoc, app_comm_cons. apply elem_of_app. by left. }
      apply (linked_ext st st' q h h); [apply Hpre; by left| |done]. intros b Hb. apply Hpre. by right.
    + by apply (linked_ext st st' q so p).
Qed.

Lemma queues_remove (q : bool) (so : Z) l0 l1 pre post : sel q l0 l1 = pre ++ so :: post ->
  l0 ++ l1 ≡ₚ so :: (if q then l0 else pre ++ post) ++ (if q then pre ++ post else l1).
Proof.
  destruct q; cbn; intros ->; rewrite <- Permutation_middle; [|done]. rewrite (Permutation_app_comm l0 (so :: pre ++ post)), <- app_comm_cons.
  by rewrite (Permutation_app_comm l0).
Qed.

(** Off the queue: true, and the socket is of no queue; not on the queue: false, and nothing changes. *)
Lemma soqremque_spec st h l0 l1 so (q : bool) : listening st h l0 l1 -> so <> h -> so_head <$> socks st !! so = Some h ->
  (so ∉ sel q l0 l1 -> soqremque so q st = Ok (false, st)) /\
  (forall pre post, sel q l0 l1 = pre ++ so :: post -> exists st', soqremque so q st = Ok (true, st') /\
    relinked (h :: so :: pre) st st' /\ listening st' h (if q then l0 else pre ++ post) (if q then pre ++ post else l1) /\
    (so_head <$> socks st' !! so = Some 0 /\ so_q0 <$> socks st' !! so = Some 0 /\ so_q <$> socks st' !! so = Some 0)).
Proof.
  intros [Hz Hnd Hr Hlen Hhd] Hne Hso. destruct (socks st !! so) as [s|] eqn:Es; [|done]. cbn in Hso. injection Hso as Hso.
  set (l := sel q l0 l1) in *.
  assert (NoDup l /\ h ∉ l /\ h ∉ sel (negb q) l0 l1) as (Hndl & Hhl & Hhl').
  { apply NoDup_cons in Hnd as [? [? [? ?]]%NoDup_app]. unfold l. destruct q; cbn; set_solver. }
  unfold soqremque. rewrite (get_so_Ok _ _ _ Es). kstep. rewrite Hso.
  destruct (soqremque_prev_spec st q so h l (S (size (socks st))) h (Hr q)) as [P1 P2]; try done.
  { enough (length l <= size (socks st))%nat by lia. apply ring_fuel; [done|].
    intros a Ha. apply (linked_in _ _ _ _ _ a (Hr q)). by right. }
  split; [intros Hn; by rewrite (P1 Hn)|]. intros pre post El. rewrite (P2 pre post El). kstep. clear P1 P2.
  fold l in Hr. pose proof (Hr q) as Hrq. fold l in Hrq. rewrite El in Hndl, Hhl, Hrq.
  destruct (last_or_apart h so pre post Hne Hhl Hndl) as (Hps & Hpin & _ & Hson & _). set (p := default h (last pre)) in *.
  assert (is_Some (socks st !! p)) as Hsp.
  { apply (linked_in _ _ _ _ _ p Hrq). rewrite app_comm_cons. apply elem_of_app. by left. }
  assert (is_Some (socks st !! h)) as Hsh by (apply (linked_in _ _ _ _ _ h Hrq); by left).
  rewrite upd_so_Ok by done. kstep. set (st1 := alt p (set_qnext q (qnext q s)) st).
  rewrite upd_so_Ok by by apply alt_some. kstep. set (st2 := alt h (add_qlen q (-1)) st1).
  rewrite upd_so_Ok by (apply alt_some, alt_some; by eexists). kstep.
  set (clear := fun s => set_head 0 (set_q0 0 (set_q 0 s))). set (st3 := alt so clear st2).
  assert (forall b, b <> so -> b <> p -> qnext q <$> socks st3 !! b = qnext q <$> socks st !! b) as Hoth.
  { intros b ? ?. unfold st3. rewrite alt_proj by by right. unfold st2. rewrite alt_proj by (left; by destruct q).
    unfold st1. by rewrite alt_proj by by right. }
  assert (qnext q <$> socks st3 !! p = qnext q <$> socks st !! so) as Hp3.
  { unfold st3. rewrite alt_proj by by right. unfold st2. rewrite alt_proj by (left; by destruct q).
    unfold st1. rewrite alt_at, Es. destruct Hsp as [sp ->]. by destruct q. }
  assert (is_Some (socks st2 !! so)) as Hs2 by (apply alt_some, alt_some; by eexists).
  exists st3. split_and!; [done|..].
  - apply (relinked_trans _ _ st1); [apply alt_relinked_in; [|by destruct q]|].
    { apply elem_of_cons in Hpin as [->|?]; [by left|by right; right]. }
    apply (relinked_trans _ _ st2); (apply alt_relinked_in; [|by destruct q]); [by left|right; by left].
  - pose proof (queues_remove q so l0 l1 pre post El) as Hperm. rewrite Hperm in Hnd.
    apply NoDup_cons in Hnd as [Hnh [Hnso Hnd]%NoDup_cons]. apply not_elem_of_cons in Hnh as [_ Hnh]. split; [done|by apply NoDup_cons|..].
    + intros q'. destruct (decide (q' = q)) as [->|Hq].
      * replace (sel q _ _) with (pre ++ post) by by destruct q. by apply (ring_remove st st3 q h so).
      * replace (sel q' _ _) with (sel q' l0 l1) by by destruct q, q'.
        assert (so ∉ sel q' l0 l1) as Hso'.
        { intros Hx. apply Hnso, elem_of_app. destruct q, q'; cbn in *; try done; [by left|by right]. }
        assert (forall b, b ∈ h :: sel q' l0 l1 -> qnext q' <$> socks st3 !! b = qnext q' <$> socks st !! b) as Hq'.
        { intros b Hb. unfold st3. rewrite alt_proj by (right; intros ->; set_solver). unfold st2, st1. by rewrite !alt_proj by (left; by destruct q, q'). }
        apply (linked_ext st st3 q' h h); [apply Hq'; by left|intros b Hb; apply Hq'; by right|apply Hr].
    + intros q' s3 Hs3. assert (qlen q' <$> socks st3 !! h = Some (qlen q' s3)) as E by by rewrite Hs3.
      unfold st3 in E. rewrite alt_proj in E by (right; congruence). unfold st2 in E. rewrite alt_at in E.
      assert ((fun s => qlen q' (add_qlen q (-1) s)) <$> socks st1 !! h = (fun s => qlen q' (add_qlen q (-1) s)) <$> socks st !! h) as E1.
      { unfold st1. apply alt_proj. left. by destruct q, q'. }
      rewrite E1 in E. destruct Hsh as [sh Hsh]. rewrite Hsh in E. cbn in E. injection E as <-.
      specialize (Hlen q' sh Hsh). unfold l in El. destruct q, q'; cbn in *; try done; rewrite Hlen, wraps_add_l, El, !length_app by done; f_equal; simpl; lia.
    + intros a Ha. assert (a <> so) as Ha2 by (by intros ->). assert (a ∈ l0 ++ l1) as Ha1 by (rewrite Hperm; by right).
      unfold st3. rewrite alt_proj by by right. unfold st2, st1. rewrite !alt_proj by (left; by destruct q). by apply Hhd.
  - unfold st3. rewrite alt_at. by destruct Hs2 as [s2 ->].
  - unfold st3. rewrite alt_at. by destruct Hs2 as [s2 ->].
  - unfold st3. rewrite alt_at. by destruct Hs2 as [s2 ->].
Qed.
End Queues.
