(* ===== verification/SockState.v ===== *)
(** * The state of a socket: flags, wakeups and the passage between queues

    What the routines that protocols call do to the flags of a socket and to the queues of the socket
    that listens, and the invariant of the flags over any sequence of them. *)

From S2P Require Import Prelude Flags Rmap Mbuf Sockbuf Sock SockThms.
From stdpp Require Import prelude list numbers strings gmap.
From Stdlib Require Import ZArith Lia.

Local Open Scope Z_scope.
Local Open Scope kern_scope.

Section State.
Context {M H P : Type} `{RM : !ResMap M}.
Context (nfsd : bool) (alive : Z -> bool).
Implicit Type st : sockst M H P.

(** A buffer, a socket, but for the waiters on its buffers. *)
Definition still (sb : sockbuf) : sockbuf := with_flags (with_sel sb None) 0.
Definition asleep (s : socket) : socket := set_rcv (still (so_rcv s)) (set_snd (still (so_snd s)) s).
(** Waking changes nothing else. *)
Definition calm st st' : Prop := smb st' = smb st /\ spcb st' = spcb st /\
  (forall a, asleep <$> socks st' !! a = asleep <$> socks st !! a) /\ exists e, sev st' = sev st ++ e.

Lemma calm_refl st : calm st st.
Proof. split_and!; try done. exists []. by rewrite app_nil_r. Qed.
Lemma calm_trans st1 st2 st3 : calm st1 st2 -> calm st2 st3 -> calm st1 st3.
Proof.
  intros (A1 & A2 & A3 & e1 & A4) (B1 & B2 & B3 & e2 & B4). split_and!; try congruence.
  exists (e1 ++ e2). by rewrite B4, A4, app_assoc.
Qed.

(** A field that [asleep] keeps is kept. *)
Lemma calm_proj {A} (pi : socket -> A) st st' a : (forall s, pi (asleep s) = pi s) -> calm st st' -> pi <$> socks st' !! a = pi <$> socks st !! a.
Proof.
  intros Hpi (_ & _ & Ha & _). specialize (Ha a). apply (f_equal (fmap pi)) in Ha. rewrite <- !option_fmap_compose in Ha.
  destruct (socks st' !! a), (socks st !! a); cbn in *; rewrite ?Hpi in Ha; done.
Qed.
Lemma calm_some st st' a : calm st st' -> is_Some (socks st' !! a) <-> is_Some (socks st !! a).
Proof. intros Hc. by apply (fmap_eq_some so_type), calm_proj. Qed.

Lemma still_sbwakeup sb : still (sbwakeup nfsd sb).1 = still sb.
Proof. unfold sbwakeup. destruct sb as [? ? ? ? ? ? ? [p|] f]; cbn; by destruct (flagged _ SB_WAIT). Qed.

Lemma sowakeup_calm so rcv st : is_Some (socks st !! so) -> exists st', sowakeup nfsd alive so rcv st = Ok st' /\ calm st st'.
Proof.
  intros [s Hs]. unfold sowakeup. rewrite (get_so_Ok _ _ _ Hs). kstep.
  destruct (sbwakeup nfsd (buffer rcv s)) as [sb ev] eqn:E. set (st1 := add_sev _ _).
  assert (calm st st1) as Hc.
  { split_and!; [done|done| |by eexists]. intros a. cbn. destruct (decide (a = so)) as [->|]; [|by rewrite lookup_insert_ne].
    rewrite lookup_insert_eq, Hs. cbn. f_equal. pose proof (still_sbwakeup (buffer rcv s)) as Hb. rewrite E in Hb. cbn in Hb.
    destruct rcv; unfold asleep; cbn in *; by rewrite Hb. }
  destruct (has (so_state s) SS_ASYNC); [|by eexists].
  assert (forall e, calm st (add_sev st1 e)) as Hadd.
  { intros e. apply (calm_trans _ st1); [done|]. split_and!; try done. by eexists. }
  destruct (so_pgrp s =? 0); [by eexists|]. destruct (0 <? so_pgrp s); [by eexists|]. destruct (alive _); by eexists.
Qed.

(** What waking the readers or writers of a buffer comes to: those who sleep and who select, and the signal to the owner of the socket. *)
Definition woken (so : Z) (rcv : bool) (s : socket) : list sockev :=
  (EvSb so rcv <$> (sbwakeup nfsd (buffer rcv s)).2) ++
  (if has (so_state s) SS_ASYNC then
     if so_pgrp s =? 0 then [] else if 0 <? so_pgrp s then [EvGsignal (so_pgrp s) SIGIO] else if alive (- so_pgrp s) then [EvPsignal (- so_pgrp s) SIGIO] else []
   else []).
Lemma sowakeup_exact so rcv s st : socks st !! so = Some s ->
  sowakeup nfsd alive so rcv st = Ok (Sockst (<[so := set_buffer rcv (sbwakeup nfsd (buffer rcv s)).1 s]> (socks st)) (smb st) (spcb st) (sev st ++ woken so rcv s)).
Proof.
  intros Hs. unfold sowakeup, woken. rewrite (get_so_Ok _ _ _ Hs). kstep. destruct (sbwakeup nfsd (buffer rcv s)) as [sb ev]. cbn [fst snd].
  destruct (has (so_state s) SS_ASYNC); [|by rewrite app_nil_r]. destruct (so_pgrp s =? 0); [by rewrite app_nil_r|].
  destruct (0 <? so_pgrp s); [by rewrite app_assoc|]. destruct (alive _); [by rewrite app_assoc|by rewrite app_nil_r].
Qed.

Lemma timeo_calm so st : calm st (wakeup_timeo so st).
Proof. split_and!; try done. by eexists. Qed.

(** ** Flags *)

(** [st'] is [st] with new flags for [so], and some have been woken. *)
Definition reflagged (so : Z) (f : Z -> Z) st st' : Prop := calm (alt so (fun s => set_state (f (so_state s)) s) st) st'.

Lemma reflagged_state so f st st' a : reflagged so f st st' ->
  so_state <$> socks st' !! a = (fun s => if decide (a = so) then f (so_state s) else so_state s) <$> socks st !! a.
Proof.
  intros Hc. rewrite (calm_proj so_state _ _ a ltac:(done) Hc). cbn. destruct (decide (a = so)) as [->|].
  - rewrite lookup_alter_eq. by destruct (socks st !! so).
  - by rewrite lookup_alter_ne.
Qed.
Lemma reflagged_proj {A} (pi : socket -> A) so f st st' a : (forall s v, pi (set_state v s) = pi s) -> (forall s, pi (asleep s) = pi s) ->
  reflagged so f st st' -> pi <$> socks st' !! a = pi <$> socks st !! a.
Proof. intros H1 H2 Hc. rewrite (calm_proj pi _ _ a H2 Hc). apply alt_proj. left. intros s. apply H1. Qed.

(** A change of flags, then a sequence of wakeups of buffers that exist. *)
Fixpoint wakes (l : list (Z * bool)) st : res (sockst M H P) :=
  match l with
  | [] => mret st
  | (so, rcv) :: l => match l with [] => sowakeup nfsd alive so rcv st | _ :: _ => st ← sowakeup nfsd alive so rcv st; wakes l st end
  end.
Lemma wakes_calm l : forall st, (forall so rcv, (so, rcv) ∈ l -> is_Some (socks st !! so)) -> exists st', wakes l st = Ok st' /\ calm st st'.
Proof.
  induction l as [|[so rcv] l IH]; intros st Hl; cbn; [exists st; split; [done|apply calm_refl]|].
  destruct (sowakeup_calm so rcv st) as (st1 & -> & H1); [apply (Hl so rcv); by left|]. destruct l; [by exists st1|]. kstep.
  destruct (IH st1) as (st' & Hr & H2). { intros so' rcv' Hin. apply (calm_some _ _ _ H1). apply (Hl so' rcv'). by right. }
  exists st'. split; [exact Hr|by eapply calm_trans].
Qed.

Lemma reflag_wakes so f l st : is_Some (socks st !! so) -> (forall a rcv, (a, rcv) ∈ l -> is_Some (socks st !! a)) ->
  exists st', (st ← upd_so so (fun s => set_state (f (so_state s)) s) st; wakes l (wakeup_timeo so st)) = Ok st' /\ reflagged so f st st'.
Proof.
  intros Hs Hl. rewrite upd_so_Ok by done. kstep. destruct (wakes_calm l (wakeup_timeo so (alt so (fun s => set_state (f (so_state s)) s) st))) as (st' & -> & Hc).
  { intros a rcv Hin. apply alt_some. by apply (Hl a rcv). }
  exists st'. split; [done|]. eapply calm_trans; [|done]. apply timeo_calm.
Qed.

(** What the routines do to a word of flags. *)
Definition connecting (x : Z) : Z := with_bits (without x (Z.lor SS_ISCONNECTED SS_ISDISCONNECTING)) SS_ISCONNECTING.
Definition connected (x : Z) : Z := with_bits (without x (Z.lor SS_ISCONNECTING SS_ISDISCONNECTING)) SS_ISCONNECTED.
Definition disconnecting (x : Z) : Z := with_bits (without x SS_ISCONNECTING) (Z.lor SS_ISDISCONNECTING (Z.lor SS_CANTRCVMORE SS_CANTSENDMORE)).
Definition disconnected (x : Z) : Z :=
  with_bits (without x (Z.lor SS_ISCONNECTING (Z.lor SS_ISCONNECTED SS_ISDISCONNECTING))) (Z.lor SS_CANTRCVMORE SS_CANTSENDMORE).

Ltac reflag so f l :=
  match goal with
  | Hs : is_Some (socks ?st !! so) |- _ =>
      let Hr := fresh "Hr" in
      destruct (reflag_wakes so f l st Hs) as (?st' & Hr & ?);
      [let Hin := fresh in intros ? ? Hin; repeat (apply elem_of_cons in Hin as [[= -> ->]|Hin]; [done|]); by apply elem_of_nil in Hin
      |cbn [wakes] in Hr]
  end.

Lemma soisconnecting_spec so st : is_Some (socks st !! so) -> exists st', soisconnecting so st = Ok st' /\ reflagged so connecting st st'.
Proof. intros Hs. reflag so connecting (@nil (Z * bool)). by eexists. Qed.
Lemma soisdisconnecting_spec so st : is_Some (socks st !! so) ->
  exists st', soisdisconnecting nfsd alive so st = Ok st' /\ reflagged so disconnecting st st'.
Proof. intros Hs. reflag so disconnecting [(so, false); (so, true)]. eexists. split; [exact Hr|done]. Qed.
Lemma soisdisconnected_spec so st : is_Some (socks st !! so) ->
  exists st', soisdisconnected nfsd alive so st = Ok st' /\ reflagged so disconnected st st'.
Proof. intros Hs. reflag so disconnected [(so, false); (so, true)]. eexists. split; [exact Hr|done]. Qed.

Lemma cantmore_spec so (rcv : bool) st : is_Some (socks st !! so) ->
  exists st' : sockst M H P, (if rcv then socantrcvmore nfsd alive so st else socantsendmore nfsd alive so st) = Ok st' /\
    reflagged so (fun x => with_bits x (if rcv then SS_CANTRCVMORE else SS_CANTSENDMORE)) st st'.
Proof.
  intros Hs. destruct rcv; unfold socantrcvmore, socantsendmore; rewrite upd_so_Ok by done; kstep; match goal with |- context [alt so ?f st] => set (st1 := alt so f st) end;
    (destruct (sowakeup_calm so true st1) as (st' & E & Hc); [by apply alt_some|]);
    (destruct (sowakeup_calm so false st1) as (st'' & E' & Hc'); [by apply alt_some|]); unfold sorwakeup, sowwakeup; rewrite ?E, ?E'; by eexists.
Qed.

(** ** Becoming connected *)

(** The fields that place a socket in queues. *)
Definition place (s : socket) : Z * Z * Z * Z * Z := (so_head s, so_q0 s, so_q s, so_q0len s, so_qlen s).

Lemma place_proj st st' a (pi : socket -> Z) g : (forall s, pi s = g (place s)) -> place <$> socks st' !! a = place <$> socks st !! a ->
  pi <$> socks st' !! a = pi <$> socks st !! a.
Proof.
  intros Hg E. apply (f_equal (fmap g)) in E. rewrite <- !option_fmap_compose in E.
  destruct (socks st' !! a), (socks st !! a); cbn in *; rewrite ?Hg; done.
Qed.

Lemma listening_place st st' h l0 l1 : (forall a, a ∈ h :: l0 ++ l1 -> place <$> socks st' !! a = place <$> socks st !! a) ->
  listening st h l0 l1 -> listening st' h l0 l1.
Proof.
  intros Hp [Hz Hnd Hr Hlen Hhd].
  assert (forall q b, b ∈ h :: l0 ++ l1 -> qnext q <$> socks st' !! b = qnext q <$> socks st !! b) as Hn.
  { intros q b Hb. specialize (Hp b Hb). destruct q; [apply (place_proj _ _ _ _ (fun p => p.1.1.2))|apply (place_proj _ _ _ _ (fun p => p.1.1.1.2))]; done. }
  split; [done|done|..].
  - intros q. apply (linked_ext st st' q h h); [apply Hn; by left| |done]. intros b Hb. apply Hn. right. apply elem_of_app. destruct q; [by right|by left].
  - intros q s' Hs'. pose proof (Hp h ltac:(by left)) as E. rewrite Hs' in E. destruct (socks st !! h) as [s|] eqn:Es; [|done].
    cbn in E. injection E as E1 E2 E3 E4 E5. rewrite <- (Hlen q s eq_refl). by destruct q.
  - intros a Ha. rewrite <- (Hhd a Ha). apply (place_proj _ _ _ _ (fun p => p.1.1.1.1)); [done|]. apply Hp. by right.
Qed.

Lemma listening_some st h l0 l1 a : listening st h l0 l1 -> a ∈ h :: l0 ++ l1 -> is_Some (socks st !! a).
Proof.
  intros Hl [->|[Ha|Ha]%elem_of_app]%elem_of_cons; [apply (linked_in _ _ _ _ _ h (ls_ring _ _ _ _ Hl true)); by left|..].
  - apply (linked_in _ _ _ _ _ a (ls_ring _ _ _ _ Hl false)). by right.
  - apply (linked_in _ _ _ _ _ a (ls_ring _ _ _ _ Hl true)). by right.
Qed.

Lemma reflagged_place so f st st' a : reflagged so f st st' -> place <$> socks st' !! a = place <$> socks st !! a.
Proof. by apply reflagged_proj. Qed.
Lemma calm_place st st' a : calm st st' -> place <$> socks st' !! a = place <$> socks st !! a.
Proof. by apply calm_proj. Qed.

Lemma relinked_proj {A} (pi : socket -> A) X st st' a : (forall s, pi (body s) = pi s) -> relinked X st st' -> pi <$> socks st' !! a = pi <$> socks st !! a.
Proof.
  intros Hpi (_ & _ & _ & Ha & _). specialize (Ha a). apply (f_equal (fmap pi)) in Ha. rewrite <- !option_fmap_compose in Ha.
  destruct (socks st' !! a), (socks st !! a); cbn in *; rewrite ?Hpi in Ha; done.
Qed.
Lemma relinked_some X st st' a : relinked X st st' -> is_Some (socks st' !! a) <-> is_Some (socks st !! a).
Proof. intros Hc. by eapply (fmap_eq_some so_type), relinked_proj. Qed.

(** Those who wait for the connection of [so], and its readers and writers. *)
Definition connected_events (so : Z) (s : socket) : list sockev :=
  let s := set_state (connected (so_state s)) s in EvTimeo so :: woken so true s ++ woken so false s.
Lemma connected_exact so s st st' : socks st !! so = Some s ->
  (st ← upd_so so (fun s => set_state (connected (so_state s)) s) st; wakes [(so, true); (so, false)] (wakeup_timeo so st)) = Ok st' ->
  sev st' = sev st ++ connected_events so s /\ forall a, a <> so -> socks st' !! a = socks st !! a.
Proof.
  intros Hs. rewrite upd_so_Ok by (by eexists). kstep. cbn [wakes]. set (s1 := set_state (connected (so_state s)) s). set (st1 := wakeup_timeo so _). assert (socks st1 !! so = Some s1) as H1 by (cbn; by rewrite lookup_alter_eq, Hs).
  rewrite (sowakeup_exact so true s1 st1 H1). kstep. set (st2 := Sockst _ _ _ _). rewrite (sowakeup_exact so false (set_buffer true (sbwakeup nfsd (buffer true s1)).1 s1) st2) by (cbn; by rewrite lookup_insert_eq). intros [= <-].
  split; [cbn; rewrite <- !app_assoc; done|]. intros a Ha. cbn. rewrite !lookup_insert_ne, lookup_alter_ne by done. done.
Qed.
Lemma woken_body so rcv s : woken so rcv (body s) = woken so rcv s.
Proof. by destruct rcv. Qed.

Lemma soisconnected_moves st so h l1 pre post : listening st h (pre ++ so :: post) l1 -> so <> h -> so_head <$> socks st !! so = Some h ->
  exists st', soisconnected nfsd alive so st = Ok st' /\ listening st' h (pre ++ post) (so :: l1) /\
    (forall a, so_state <$> socks st' !! a = (fun s => if decide (a = so) then connected (so_state s) else so_state s) <$> socks st !! a) /\
    (forall a, a ∉ h :: so :: pre -> place <$> socks st' !! a = place <$> socks st !! a) /\
    (forall sh s, socks st !! h = Some sh -> socks st !! so = Some s ->
       sev st' = sev st ++ woken h true sh ++ EvTimeo h :: connected_events so s /\ so_rcv <$> socks st' !! h = Some (sbwakeup nfsd (so_rcv sh)).1).
Proof.
  intros Hl Hne Hh. destruct (soqremque_spec st h _ l1 so false Hl Hne Hh) as [_ Q2]. cbn [sel] in Q2.
  destruct (socks st !! so) as [s|] eqn:Es; [|done]. cbn in Hh. injection Hh as Hh. unfold soisconnected. rewrite (get_so_Ok _ _ _ Es). kstep.
  rewrite Hh, (proj2 (Z.eqb_neq h 0) (ls_null _ _ _ _ Hl)). cbn [negb].
  destruct (Q2 pre post eq_refl) as (st1 & -> & R1 & L1 & _). kstep. cbn [negb].
  assert (so ∉ h :: (pre ++ post) ++ l1) as Hn1.
  { pose proof (ls_nodup _ _ _ _ Hl) as Hnd. rewrite (queues_remove false so _ l1 pre post eq_refl) in Hnd.
    apply NoDup_cons in Hnd as [_ [Hnd _]%NoDup_cons]. by apply not_elem_of_cons. }
  destruct (soqinsque_spec st1 h (pre ++ post) l1 so true L1) as (st2 & -> & R2 & L2); [by apply (relinked_some _ _ _ _ R1); by eexists|done|]. kstep.
  assert (is_Some (socks st2 !! h)) as Hh2 by (apply (linked_in _ _ _ _ _ h (ls_ring _ _ _ _ L2 true)); by left).
  destruct (sowakeup_calm h true st2 Hh2) as (st3 & E3 & C3). unfold sorwakeup. rewrite E3. kstep.
  pose proof (calm_trans _ _ _ C3 (timeo_calm h st3)) as C4. set (st4 := wakeup_timeo h st3) in *.
  assert (is_Some (socks st4 !! so)) as Hs4.
  { apply (calm_some _ _ _ C4), (relinked_some _ _ _ _ R2), (relinked_some _ _ _ _ R1). by eexists. }
  reflag so connected [(so, true); (so, false)]. exists st'. split; [exact Hr|]. match goal with H : reflagged _ _ _ _ |- _ => rename H into Hf end. split_and!.
  + apply (listening_place st2); [|exact L2]. intros a _. rewrite (reflagged_place _ _ _ _ a Hf). by apply calm_place.
  + intros a. rewrite (reflagged_state _ _ _ _ a Hf).
    set (pi := fun s => if decide (a = so) then connected (so_state s) else so_state s).
    rewrite (calm_proj pi _ _ a ltac:(done) C4), (relinked_proj pi _ _ _ a ltac:(done) R2). by apply (relinked_proj pi _ _ _ a ltac:(done) R1).
  + intros a Ha. rewrite (reflagged_place _ _ _ _ a Hf), (calm_place _ _ a C4). f_equal.
    destruct R1 as (_ & _ & _ & _ & R1), R2 as (_ & _ & _ & _ & R2). rewrite R2, R1; [done|done|]. set_solver.
  + intros sh s' Esh [= <-]. pose proof R1 as (_ & _ & V1 & B1 & _). pose proof R2 as (_ & _ & V2 & B2 & _). destruct Hh2 as [sh2 Esh2].
    assert (body sh2 = body sh) as Eb by (specialize (B2 h); rewrite B1, Esh, Esh2 in B2; exact (Some_inj _ _ B2)).
    rewrite (sowakeup_exact h true sh2 st2 Esh2) in E3. injection E3 as <-.
    assert (exists s4, socks st4 !! so = Some s4 /\ body s4 = body s) as (s4 & Es4 & Eb4).
    { specialize (B2 so). rewrite B1, Es in B2. subst st4. cbn. rewrite lookup_insert_ne by done. destruct (socks st2 !! so) as [s4|]; [|done]. exists s4. split; [done|]. exact (Some_inj _ _ B2). }
    destruct (connected_exact so s4 st4 st' Es4 Hr) as [-> Hoth]. rewrite (Hoth h) by done. subst st4. cbn [wakeup_timeo add_sev sev socks]. rewrite lookup_insert_eq, V2, V1, <- (woken_body h true sh2), Eb, woken_body, <- !app_assoc. split.
    * do 2 f_equal. cbn [app]. f_equal. unfold connected_events. f_equal.
      assert (forall rcv v x y, body x = body y -> woken so rcv (set_state (v (so_state x)) x) = woken so rcv (set_state (v (so_state y)) y)) as Hw.
      { intros rcv v x y E. rewrite <- (woken_body _ _ (set_state (v (so_state x)) x)), <- (woken_body _ _ (set_state (v (so_state y)) y)). f_equal.
        assert (so_state x = so_state y) as -> by exact (f_equal so_state E). exact (f_equal (set_state (v (so_state y))) E). }
      by rewrite !(Hw _ connected s4 s).
    * cbn. f_equal. do 2 f_equal. exact (f_equal so_rcv Eb).
Qed.

(** C9: soisconnected of a socket that is on the queue of connections in progress of [h] takes it off
    that queue and makes it the first of the connections to be accepted, wakes the readers of
    [h] (who sleep, select or asked for a signal) and then those who wait in accept(), then those who wait for the connection and the readers and
    writers of the socket, and marks it connected and no longer connecting or disconnecting; of a socket
    that no one accepts it changes the flags and wakes those who wait for it; a socket with a head whose connection is no
    longer in progress is a panic. *)
Theorem soisconnected_sound st so s : socks st !! so = Some s ->
  (so_head s = 0 -> exists st', soisconnected nfsd alive so st = Ok st' /\ reflagged so connected st st' /\ sev st' = sev st ++ connected_events so s) /\
  (forall h sh l0 l1, listening st h l0 l1 -> so <> h -> so_head s = h -> socks st !! h = Some sh ->
    (so ∉ l0 -> soisconnected nfsd alive so st = Panic "soisconnected") /\
    (forall pre post, l0 = pre ++ so :: post -> exists st', soisconnected nfsd alive so st = Ok st' /\
      listening st' h (pre ++ post) (so :: l1) /\
      (forall a, so_state <$> socks st' !! a = (fun s => if decide (a = so) then connected (so_state s) else so_state s) <$> socks st !! a) /\
      (forall a, a ∉ h :: so :: pre -> place <$> socks st' !! a = place <$> socks st !! a) /\
      sev st' = sev st ++ woken h true sh ++ EvTimeo h :: connected_events so s /\ so_rcv <$> socks st' !! h = Some (sbwakeup nfsd (so_rcv sh)).1)).
Proof.
  intros Es. assert (is_Some (socks st !! so)) as Hs by (by eexists). split.
  - intros Hh. unfold soisconnected. rewrite (get_so_Ok _ _ _ Es). kstep. rewrite Hh. cbn [negb Z.eqb]. kstep.
    reflag so connected [(so, true); (so, false)]. eexists. split; [exact Hr|]. split; [done|]. by apply (connected_exact so s st _ Es).
  - intros h sh l0 l1 Hl Hne Hh Esh. assert (so_head <$> socks st !! so = Some h) as Hh' by (rewrite Es; cbn; by rewrite Hh).
    split; [|intros pre post ->; destruct (soisconnected_moves st so h l1 pre post Hl Hne Hh') as (st' & E & L & S & Pl & Ev); exists st'; split; [done|]; split; [done|]; split; [done|]; split; [done|by apply Ev]].
    destruct (soqremque_spec st h l0 l1 so false Hl Hne Hh') as [Q1 _]. intros Hn. specialize (Q1 Hn). unfold soisconnected. rewrite (get_so_Ok _ _ _ Es). kstep.
    rewrite Hh, (proj2 (Z.eqb_neq h 0) (ls_null _ _ _ _ Hl)). cbn [negb]. by rewrite Q1.
Qed.

(** ** Sequences of state changes *)

(** One call of a routine above on some socket, a new socket (of socreate, or with the flags of the one it was
    spawned from), or a change of the other flags of a socket. *)
Definition phase_bits : Z := 62.
Inductive so_step (st st' : sockst M H P) : Prop :=
| StConnecting so : soisconnecting so st = Ok st' -> so_step st st'
| StConnected so : soisconnected nfsd alive so st = Ok st' -> so_step st st'
| StDisconnecting so : soisdisconnecting nfsd alive so st = Ok st' -> so_step st st'
| StDisconnected so : soisdisconnected nfsd alive so st = Ok st' -> so_step st st'
| StCantSend so : socantsendmore nfsd alive so st = Ok st' -> so_step st st'
| StCantRcv so : socantrcvmore nfsd alive so st = Ok st' -> so_step st st'
| StCreate so s : socks st !! so = None -> so_state s = 0 \/ so_state s = SS_PRIV -> st' = put_so so s st -> so_step st st'
| StSpawn so s h sh : socks st !! so = None -> socks st !! h = Some sh -> so_state s = with_bits (so_state sh) SS_NOFDREF ->
    st' = put_so so s st -> so_step st st'
| StOther so s v : socks st !! so = Some s -> Z.land v phase_bits = Z.land (so_state s) phase_bits -> st' = put_so so (set_state v s) st -> so_step st st'.

(** A word of flags that makes sense: one phase of a connection at most, and a socket that is being
    disconnected neither sends nor receives. *)
Definition flags_ok (x : Z) : Prop :=
  ~ (has x SS_ISCONNECTED = true /\ has x SS_ISCONNECTING = true) /\
  ~ (has x SS_ISCONNECTING = true /\ has x SS_ISDISCONNECTING = true) /\
  (has x SS_ISDISCONNECTING = true -> has x SS_CANTSENDMORE = true /\ has x SS_CANTRCVMORE = true).
Definition all_flags_ok st : Prop := forall a s, socks st !! a = Some s -> flags_ok (so_state s).

Ltac fl := unfold flags_ok, connecting, connected, disconnecting, disconnected, SS_NOFDREF, SS_ISCONNECTED, SS_ISCONNECTING,
  SS_ISDISCONNECTING, SS_CANTSENDMORE, SS_CANTRCVMORE, SS_PRIV in *; cbn [Z.lor Pos.lor] in *; flags.

Lemma flags_connecting x : flags_ok (connecting x).
Proof. fl. naive_solver. Qed.
Lemma flags_connected x : flags_ok (connected x).
Proof. fl. naive_solver. Qed.
Lemma flags_disconnecting x : flags_ok (disconnecting x).
Proof. fl. naive_solver. Qed.
Lemma flags_disconnected x : flags_ok (disconnected x).
Proof. fl. naive_solver. Qed.
Lemma flags_cantmore x (rcv : bool) : flags_ok x -> flags_ok (with_bits x (if rcv then SS_CANTRCVMORE else SS_CANTSENDMORE)).
Proof. destruct rcv; fl; naive_solver. Qed.
Lemma flags_spawn x : flags_ok x -> flags_ok (with_bits x SS_NOFDREF).
Proof. by fl. Qed.
Lemma flags_other x v : Z.land v phase_bits = Z.land x phase_bits -> flags_ok x -> flags_ok v.
Proof.
  intros E. assert (forall k, 0 <= k -> Z.testbit phase_bits k = true -> Z.testbit v k = Z.testbit x k) as Hk.
  { intros k _ Hb. apply (f_equal (fun z => Z.testbit z k)) in E. by rewrite !Z.land_spec, Hb, !andb_true_r in E. }
  pose proof (Hk 1 ltac:(done) eq_refl) as H1. pose proof (Hk 2 ltac:(done) eq_refl) as H2. pose proof (Hk 3 ltac:(done) eq_refl) as H3.
  pose proof (Hk 4 ltac:(done) eq_refl) as H4. pose proof (Hk 5 ltac:(done) eq_refl) as H5. clear Hk E. fl. by rewrite H1, H2, H3, H4, H5.
Qed.
Lemma flags_new : flags_ok 0 /\ flags_ok SS_PRIV.
Proof. split; vm_compute; naive_solver. Qed.

(** The steps that succeed, seen on the flags of every socket. *)
Lemma upd_so_inv so f st st' : upd_so so f st = Ok st' -> is_Some (socks st !! so) /\ st' = alt so f st.
Proof.
  intros E. assert (is_Some (socks st !! so)) as Hs.
  { unfold upd_so, get_so in E. destruct (socks st !! so); [by eexists|done]. }
  split; [done|]. rewrite upd_so_Ok in E by done. by injection E.
Qed.
Lemma sowakeup_inv so rcv st st' : sowakeup nfsd alive so rcv st = Ok st' -> calm st st'.
Proof.
  intros E. assert (is_Some (socks st !! so)) as Hs.
  { unfold sowakeup, get_so in E. destruct (socks st !! so); [by eexists|done]. }
  destruct (sowakeup_calm so rcv st Hs) as (st1 & E1 & Hc). rewrite E in E1. by injection E1 as ->.
Qed.

Lemma so_state_alt so f st a : (forall s, so_state (f s) = so_state s) -> so_state <$> socks (alt so f st) !! a = so_state <$> socks st !! a.
Proof. intros Hf. apply alt_proj. by left. Qed.

Lemma soqinsque_state head so q st st' a : soqinsque head so q st = Ok st' -> so_state <$> socks st' !! a = so_state <$> socks st !! a.
Proof.
  unfold soqinsque. intros E. repeat match type of E with
  | mbind _ ?r = Ok _ => let r' := fresh "r" in destruct r as [r'| |] eqn:?; cbn [mbind res_bind] in E; [|discriminate E..]
  end.
  repeat match goal with H : upd_so _ _ _ = Ok _ |- _ => apply upd_so_inv in H as [_ ->] end.
  by rewrite !so_state_alt by (intros s; by destruct q).
Qed.
Lemma soqremque_state so q st b st' a : soqremque so q st = Ok (b, st') -> so_state <$> socks st' !! a = so_state <$> socks st !! a.
Proof.
  unfold soqremque. intros E. destruct (get_so so st) as [s| |]; cbn [mbind res_bind] in E; try discriminate E.
  destruct (soqremque_prev _ _ _ _ _ _) as [[p|]| |]; cbn [mbind res_bind] in E; try discriminate E; [|by injection E as _ <-].
  repeat match type of E with
  | mbind _ ?r = Ok _ => let r' := fresh "r" in destruct r as [r'| |] eqn:?; cbn [mbind res_bind] in E; [|discriminate E..]
  end.
  injection E as _ <-. repeat match goal with H : upd_so _ _ _ = Ok _ |- _ => apply upd_so_inv in H as [_ ->] end.
  by rewrite !so_state_alt by (intros s'; by destruct q).
Qed.

Lemma soisconnected_state so st st' a : soisconnected nfsd alive so st = Ok st' ->
  so_state <$> socks st' !! a = (fun s => if decide (a = so) then connected (so_state s) else so_state s) <$> socks st !! a.
Proof.
  intros E. assert (exists s st1, socks st !! so = Some s /\ is_Some (socks st1 !! so) /\
    (forall b, so_state <$> socks st1 !! b = so_state <$> socks st !! b) /\
    (st1 ← upd_so so (fun s => set_state (connected (so_state s)) s) st1; st1 ← sorwakeup nfsd alive so (wakeup_timeo so st1); sowwakeup nfsd alive so st1) = Ok st')
    as (s & st1 & Es & Hs1 & Hst & E').
  { unfold soisconnected in E. destruct (socks st !! so) as [s|] eqn:Es; [|by unfold get_so in E; rewrite Es in E].
    rewrite (get_so_Ok _ _ _ Es) in E. cbn [mbind res_bind] in E. exists s. destruct (so_head s =? 0); cbn [negb mbind res_bind mret res_ret] in E.
    { by exists st. }
    destruct (soqremque so false st) as [[ok st1]| |] eqn:E1; cbn [mbind res_bind] in E; try discriminate E. destruct ok; cbn [negb] in E; [|done].
    destruct (soqinsque _ _ _ _) as [st2| |] eqn:E2; cbn [mbind res_bind] in E; try discriminate E.
    destruct (sorwakeup _ _ _ _) as [st3| |] eqn:E3; cbn [mbind res_bind mret res_ret] in E; try discriminate E.
    apply sowakeup_inv in E3. pose proof (calm_trans _ _ _ E3 (timeo_calm (so_head s) st3)) as C4. exists (wakeup_timeo (so_head s) st3).
    assert (forall b, so_state <$> socks (wakeup_timeo (so_head s) st3) !! b = so_state <$> socks st !! b) as Hst.
    { intros b. rewrite (calm_proj so_state _ _ b ltac:(done) C4), (soqinsque_state _ _ _ _ _ b E2). exact (soqremque_state _ _ _ _ _ b E1). }
    split_and!; try done. pose proof (Hst so) as Hx. rewrite Es in Hx. destruct (socks (wakeup_timeo _ _) !! so); [by eexists|done]. }
  clear E. reflag so connected [(so, true); (so, false)]. unfold sorwakeup, sowwakeup in E'.
  rewrite E' in Hr. injection Hr as <-. match goal with H : reflagged _ _ _ _ |- _ => rename H into Hf end. rewrite (reflagged_state _ _ _ _ a Hf).
  specialize (Hst a). destruct (socks st1 !! a), (socks st !! a); cbn in Hst |- *; try done. injection Hst as ->. done.
Qed.

(** How one step may change the flags of a socket, and the flags it may give a new one. *)
Definition flag_rel (x y : Z) : Prop :=
  y = connecting x \/ y = connected x \/ y = disconnecting x \/ y = disconnected x \/
  (exists rcv : bool, y = with_bits x (if rcv then SS_CANTRCVMORE else SS_CANTSENDMORE)) \/ Z.land y phase_bits = Z.land x phase_bits.
Definition flag_new st (y : Z) : Prop := y = 0 \/ y = SS_PRIV \/ exists h sh, socks st !! h = Some sh /\ y = with_bits (so_state sh) SS_NOFDREF.

(** A step changes the flags of one socket. *)
Definition changes_one st st' : Prop := exists so,
  (forall a, a <> so -> so_state <$> socks st' !! a = so_state <$> socks st !! a) /\
  exists s', socks st' !! so = Some s' /\
    match socks st !! so with Some s => flag_rel (so_state s) (so_state s') | None => flag_new st (so_state s') end.

Lemma reflagged_changes so f st st' s : socks st !! so = Some s -> flag_rel (so_state s) (f (so_state s)) -> reflagged so f st st' -> changes_one st st'.
Proof.
  intros Hs Hf Hr. exists so. split.
  - intros a Ha. rewrite (reflagged_state _ _ _ _ a Hr). by destruct (decide (a = so)).
  - pose proof (reflagged_state _ _ _ _ so Hr) as E. rewrite Hs in E. cbn in E. rewrite decide_True in E by done. rewrite Hs.
    destruct (socks st' !! so) as [s'|]; [|done]. exists s'. split; [done|]. by injection E as ->.
Qed.
Lemma put_changes so s' st : match socks st !! so with Some s => flag_rel (so_state s) (so_state s') | None => flag_new st (so_state s') end ->
  changes_one st (put_so so s' st).
Proof.
  intros Hs. exists so. split; [intros a Ha; cbn; by rewrite lookup_insert_ne|]. exists s'. cbn. by rewrite lookup_insert_eq.
Qed.

Lemma so_step_changes st st' : so_step st st' -> changes_one st st'.
Proof.
  unfold flag_rel, flag_new.
  intros [so E|so E|so E|so E|so E|so E|so s En Hv ->|so s h sh En Hh Hv ->|so s v Es Hv ->];
    [destruct (socks st !! so) as [s|] eqn:Es; [|exfalso; revert E;
       unfold soisconnecting, soisconnected, soisdisconnecting, soisdisconnected, socantsendmore, socantrcvmore, upd_so, get_so; by rewrite Es].. | | |].
  - destruct (soisconnecting_spec so st) as (st1 & E1 & Hr); [by eexists|]. rewrite E in E1. injection E1 as <-.
    eapply reflagged_changes; [exact Es| |exact Hr]. by left.
  - exists so. pose proof (fun a => soisconnected_state so st st' a E) as Ea. split.
    + intros a Ha. rewrite Ea. by destruct (decide (a = so)).
    + specialize (Ea so). rewrite Es in Ea |- *. cbn in Ea. rewrite decide_True in Ea by done. destruct (socks st' !! so) as [s'|]; [|done].
      exists s'. split; [done|]. injection Ea as ->. right. by left.
  - destruct (soisdisconnecting_spec so st) as (st1 & E1 & Hr); [by eexists|]. rewrite E in E1. injection E1 as <-.
    eapply reflagged_changes; [exact Es| |exact Hr]. do 2 right. by left.
  - destruct (soisdisconnected_spec so st) as (st1 & E1 & Hr); [by eexists|]. rewrite E in E1. injection E1 as <-.
    eapply reflagged_changes; [exact Es| |exact Hr]. do 3 right. by left.
  - destruct (cantmore_spec so false st) as (st1 & E1 & Hr); [by eexists|]. rewrite E in E1. injection E1 as <-.
    eapply reflagged_changes; [exact Es| |exact Hr]. do 4 right. left. by exists false.
  - destruct (cantmore_spec so true st) as (st1 & E1 & Hr); [by eexists|]. rewrite E in E1. injection E1 as <-.
    eapply reflagged_changes; [exact Es| |exact Hr]. do 4 right. left. by exists true.
  - apply put_changes. rewrite En. unfold flag_new. naive_solver.
  - apply put_changes. rewrite En. unfold flag_new. eauto 10.
  - apply put_changes. rewrite Es. by do 5 right.
Qed.

(** C26: in every state that any sequence of these steps leads to from one where it holds (such as no
    sockets at all), no socket is connected and connecting, or connecting and disconnecting, at
    once, and one that is disconnecting can neither send nor receive more. *)
Theorem flags_invariant st st' : rtc so_step st st' -> all_flags_ok st -> all_flags_ok st'.
Proof.
  induction 1 as [|st1 st2 st3 Hstep _ IH]; [done|]. intros Hok. apply IH. intros a s2 Hs2.
  destruct (so_step_changes st1 st2 Hstep) as (so & Hoth & s' & Hs' & Hrel). destruct (decide (a = so)) as [->|Ha].
  - rewrite Hs' in Hs2. injection Hs2 as <-. destruct (socks st1 !! so) as [s|] eqn:Es.
    + pose proof (Hok so s Es) as Hs. destruct Hrel as [->|[->|[->|[->|[[rcv ->]|E]]]]]; eauto using flags_connecting, flags_connected,
        flags_disconnecting, flags_disconnected, flags_cantmore, flags_other.
    + destruct Hrel as [->|[->|(h & sh & Eh & ->)]]; [apply flags_new..|]. eapply flags_spawn, Hok, Eh.
  - specialize (Hoth a Ha). rewrite Hs2 in Hoth. destruct (socks st1 !! a) as [s1|] eqn:E1; [|done]. injection Hoth as ->. by apply (Hok a).
Qed.

(** that a socket can send, or receive, no more is for good: no sequence of steps takes it back. *)
Theorem cantmore_stays st st' so f : f = SS_CANTSENDMORE \/ f = SS_CANTRCVMORE -> rtc so_step st st' ->
  forall s, socks st !! so = Some s -> has (so_state s) f = true -> exists s', socks st' !! so = Some s' /\ has (so_state s') f = true.
Proof.
  intros Hf. induction 1 as [st|st1 st2 st3 Hstep _ IH]; [eauto|]. intros s Hs Hset.
  assert (exists s2, socks st2 !! so = Some s2 /\ has (so_state s2) f = true) as (s2 & Hs2 & Hset2); [|by eapply IH].
  destruct (so_step_changes st1 st2 Hstep) as (a & Hoth & s' & Hs' & Hrel). destruct (decide (so = a)) as [->|Ha].
  - exists s'. split; [done|]. rewrite Hs in Hrel. revert Hset. destruct Hrel as [->|[->|[->|[->|[[rcv ->]|E]]]]]; [..|].
    1-5: destruct Hf as [->| ->]; try destruct rcv; fl; naive_solver.
    assert (forall k, Z.testbit phase_bits k = true -> Z.testbit (so_state s') k = Z.testbit (so_state s) k) as Hk.
    { intros k Hb. apply (f_equal (fun z => Z.testbit z k)) in E. by rewrite !Z.land_spec, Hb, !andb_true_r in E. }
    pose proof (Hk 4 eq_refl) as H4. pose proof (Hk 5 eq_refl) as H5. clear Hk E Hoth. destruct Hf as [->| ->]; fl; by rewrite ?H4, ?H5.
  - specialize (Hoth so Ha). rewrite Hs in Hoth. destruct (socks st2 !! so) as [s2|]; [|done]. injection Hoth as E. exists s2. by rewrite E.
Qed.
End State.
