(* ===== verification/SockQueue.v ===== *)
(** * Connections: from sonewconn to accept and to soclose

    A socket lives in an mbuf of the pool; a new one is at an address no socket has.  What a
    protocol may do to queues in its request routine is the class [Protocol]; the theorems are
    proved against it. *)

From S2P Require Import Prelude Flags Rmap Mbuf MbufThms MbufOps Sockbuf Sock SockThms SockState.
From stdpp Require Import prelude list numbers strings gmap.
From Stdlib Require Import ZArith Lia.

Local Open Scope Z_scope.
Local Open Scope kern_scope.

Section Queue.
Context {M H P : Type} `{RM : !ResMap M}.
Context (mbutl : Z).
Hypothesis Hbase : 0 < mbutl /\ mbutl mod NBPG = 0 /\ mbutl + NMBCLUSTERS * NBPG <= 2 ^ 32.
Context (memall : Z -> Z -> bool).
Implicit Type st : sockst M H P.

(** ** Where sockets live *)

Lemma dtom_align x : dtom x = x - x mod MSIZE.
Proof.
  clear Hbase. unfold dtom. change (Z.lnot (MSIZE - 1)) with (Z.lnot (Z.ones 7)). rewrite <- Z.ldiff_land, Z.ldiff_ones_r by done.
  rewrite Z.shiftr_div_pow2, Z.shiftl_mul_pow2 by done. change (2 ^ 7) with MSIZE. pose proof (Z.div_mod x MSIZE ltac:(done)). lia.
Qed.

(** Every mbuf starts at a multiple of its size. *)
Lemma mbuf_align (mb : mbst M H) a x : mb_wf mbutl mb -> mbs mb !! a = Some x -> a mod MSIZE = 0.
Proof.
  intros Hw Ha. destruct (b_slot _ _ Hw a x Ha) as [_ Hs]. destruct Hbase as (_ & Hb & _). unfold MSIZE, NBPG in *.
  Z.to_euclidean_division_equations. lia.
Qed.
Lemma dtom_mbuf (mb : mbst M H) a x : mb_wf mbutl mb -> mbs mb !! a = Some x -> dtom (a + MMINOFF) = a.
Proof.
  intros Hw Ha. pose proof (mbuf_align mb a x Hw Ha) as Hm. rewrite dtom_align. unfold MSIZE, MMINOFF in *.
  Z.to_euclidean_division_equations. lia.
Qed.

(** The sockets are the data of mbufs in use. *)
Definition housed st : Prop := mb_wf mbutl (smb st) /\
  forall a, is_Some (socks st !! a) -> a = dtom a + MMINOFF /\ exists x, in_use (smb st) (dtom a) x.

Lemma getclr_struct_spec t st : mb_wf mbutl (smb st) -> t <> MT_FREE ->
  exists r st', getclr_struct mbutl memall t st = Ok (r, st') /\ socks st' = socks st /\ spcb st' = spcb st /\ sev st' = sev st /\
    mb_wf mbutl (smb st') /\ (forall b z, in_use (smb st) b z -> in_use (smb st') b z) /\
    match r with
    | Some so => so = dtom so + MMINOFF /\ so <> 0 /\ (exists x, in_use (smb st') (dtom so) x) /\ (forall x, ~ in_use (smb st) (dtom so) x)
    | None => mfree (smb st) = []
    end.
Proof.
  intros Hw Ht. unfold getclr_struct, m_getclr.
  destruct (m_get_spec mbutl Hbase memall t (smb st) Hw Ht) as (g & mb1 & -> & W1 & Hq & Hg). kstep. destruct g as [a|].
  2:{ exists None, (set_smb st mb1). split_and!; try done; [by intros b z; apply quiet_use|by destruct Hg]. }
  destruct Hg as [(N1 & (y & Huy & Hoy & Hty) & N3) _]. rewrite (get_mb_Ok _ _ _ (proj1 Huy)). kstep.
  assert (mtod a y = a + MMINOFF) as Em.
  { rewrite <- Hoy. apply (inline_mtod mbutl Hbase _ _ _ W1 (proj1 Huy)). unfold inline. by rewrite Hoy. }
  destruct (store_inline mbutl Hbase mb1 a y (mtod a y) (replicate (Z.to_nat MLEN) 0) W1 (proj1 Huy)) as [W2 K2].
  { rewrite Em. unfold MMINOFF. lia. }
  { rewrite Em, length_replicate. unfold MLEN, MMAXOFF, MSIZE, MMINOFF, MTAIL. lia. }
  set (mb2 := set_core mb1 _) in *. assert (in_use mb2 a y) as Hu2 by exact Huy. rewrite (get_mb_Ok _ _ _ (proj1 Hu2)). kstep.
  eexists _, (set_smb st mb2). split; [reflexivity|]. rewrite Em.
  pose proof (dtom_mbuf mb2 a y W2 (proj1 Hu2)) as Ed. rewrite Ed. split_and!; try done.
  - intros b z Hb. by apply (quiet_use (smb st) mb1).
  - destruct (b_slot _ _ W2 a y (proj1 Hu2)) as [[Ha _] _]. destruct Hbase as [? _]. unfold MMINOFF. lia.
  - by exists y.
Qed.

(** ** What protocols promise *)

(** The sockets, their queues and flags are as they were, and so are the mbufs that hold sockets. *)
Definition undisturbed st st' : Prop :=
  (forall a, place <$> socks st' !! a = place <$> socks st !! a) /\ (forall a, so_state <$> socks st' !! a = so_state <$> socks st !! a) /\
  (forall a, so_options <$> socks st' !! a = so_options <$> socks st !! a) /\ (housed st -> housed st').

Definition request := protosw -> Z -> Z -> list Z -> namarg -> list Z -> sockst M H P -> res (Z * sockst M H P).

(** PRU_ATTACH and PRU_ACCEPT do not meddle with queues; PRU_ABORT takes its socket off the queue it is on, leaving
    the other sockets of that queue in order. *)
Class Protocol (usrreq : request) : Prop := {
  attach_returns : forall pr so st, housed st -> is_Some (socks st !! so) ->
    exists e st', usrreq pr so PRU_ATTACH [] (Nam []) [] st = Ok (e, st') /\ undisturbed st st';
  accept_undisturbed : forall pr so nam st e st', usrreq pr so PRU_ACCEPT [] (Nam nam) [] st = Ok (e, st') -> undisturbed st st'
}.
Class Dequeues (usrreq : request) : Prop :=
  abort_dequeues : forall pr so st h l0 l1 (q : bool) rest, listening st h l0 l1 -> sel q l0 l1 = so :: rest ->
    exists e st', usrreq pr so PRU_ABORT [] (Nam []) [] st = Ok (e, st') /\ listening st' h (if q then l0 else rest) (if q then rest else l1).

(** ** New connections *)

Section New.
Context (usrreq : request) `{!Protocol usrreq}.

Lemma undisturbed_listening st st' h l0 l1 : undisturbed st st' -> listening st h l0 l1 -> listening st' h l0 l1.
Proof. clear Hbase. intros (Hp & _). by apply listening_place. Qed.
Lemma undisturbed_some st st' a : undisturbed st st' -> is_Some (socks st' !! a) <-> is_Some (socks st !! a).
Proof. clear Hbase. intros (_ & Hs & _). by apply (fmap_eq_some so_state). Qed.

Lemma put_new_listening st so s h l0 l1 : socks st !! so = None -> listening st h l0 l1 -> listening (put_so so s st) h l0 l1 /\ so ∉ h :: l0 ++ l1.
Proof.
  clear Hbase. intros Hn Hl.
  assert (so ∉ h :: l0 ++ l1) as Hso. { intros Ha. destruct (listening_some _ _ _ _ _ Hl Ha) as [? E]. by rewrite Hn in E. }
  split; [|done]. apply (listening_place st); [|done]. intros a Ha. cbn. rewrite lookup_insert_ne; [done|]. by intros ->.
Qed.

Lemma housed_relinked X st st' : relinked X st st' -> housed st -> housed st'.
Proof.
  clear Hbase. intros Hr [Hw Hh]. pose proof Hr as (Em & _). unfold housed. rewrite Em. split; [done|].
  intros a Ha%(relinked_some _ _ _ _ Hr). by apply Hh.
Qed.
Lemma housed_put st so s : housed st -> so = dtom so + MMINOFF -> (exists x, in_use (smb st) (dtom so) x) -> housed (put_so so s st).
Proof.
  clear Hbase. intros [Hw Hh] E Hx. split; [done|]. intros a [s' Ha]. cbn in Ha. destruct (decide (a = so)) as [->|]; [done|].
  rewrite lookup_insert_ne in Ha by done. apply Hh. by eexists.
Qed.

(** The end of a connection that could not be attached. *)
Lemma unspawn st h l0 l1 so : housed st -> listening st h (so :: l0) l1 ->
  exists st1 mb, soqremque so false st = Ok (true, st1) /\ MFREE mbutl (dtom so) (smb st1) = Ok mb /\
    let st' := set_socks (set_smb st1 mb) (delete so (socks st1)) in
    listening st' h l0 l1 /\ housed st' /\ (forall a, a <> so -> body <$> socks st' !! a = body <$> socks st !! a) /\ socks st' !! so = None.
Proof.
  intros Hh Hl. pose proof (ls_nodup _ _ _ _ Hl) as Hnd.
  assert (so <> h) as Hne by (intros ->; by apply NoDup_cons in Hnd as [[]%not_elem_of_cons _]).
  destruct (soqremque_spec st h (so :: l0) l1 so false Hl Hne) as [_ Hq]; [apply (ls_head _ _ _ _ Hl); by left|].
  destruct (Hq [] l0 eq_refl) as (st1 & E1 & R1 & L1 & _). pose proof (housed_relinked _ _ _ R1 Hh) as [W1 H1].
  assert (is_Some (socks st1 !! so)) as Hs1 by (apply (relinked_some _ _ _ _ R1), (listening_some _ _ _ _ _ Hl); right; by left).
  destruct (H1 so Hs1) as (Eso & x & Hx). destruct (MFREE_spec mbutl Hbase (smb st1) (dtom so) x W1 Hx) as (mb & Em & Hf).
  exists st1, mb. split; [done|]. split; [done|]. intros st'. cbn [app] in L1.
  assert (so ∉ h :: l0 ++ l1) as Hso.
  { change (h :: (so :: l0) ++ l1) with ([h] ++ so :: l0 ++ l1) in Hnd. rewrite <- Permutation_middle in Hnd. by apply NoDup_cons in Hnd as [? _]. }
  split_and!.
  - apply (listening_place st1); [|done]. intros a Ha. cbn. rewrite lookup_delete_ne; [done|]. by intros ->.
  - split; [apply (fr_wf _ _ _ _ _ Hf)|]. intros a Ha. cbn in Ha. destruct (decide (a = so)) as [->|Has]; [by rewrite lookup_delete_eq in Ha; destruct Ha|].
    rewrite lookup_delete_ne in Ha by done. destruct (H1 a Ha) as (Ea & y & Hy). split; [done|]. exists y.
    apply (freed_use _ _ _ _ _ Hf). split; [|done]. intros E. apply Has. lia.
  - intros a Ha. cbn. rewrite lookup_delete_ne by done. apply R1.
  - cbn. apply lookup_delete_eq.
Qed.

(** What the routines of a socket keep: everything but its place. *)
Lemma put_listening_head st h l0 l1 : listening st h l0 l1 -> exists sh, socks st !! h = Some sh.
Proof. clear Hbase. intros Hl. destruct (listening_some _ _ _ _ h Hl) as [sh Hsh]; [by left|]. by exists sh. Qed.

(** C25: sonewconn of a listening socket [h] gives a new connection only when at most one and a half times its limit of connections wait,
    in progress or to be accepted, and then one more waits; the new socket is at an address that had none, is the first of the
    connections in progress, has the flags of [h] but no file, cannot itself listen; when there is no
    room, no mbuf or the protocol refuses, nothing is queued and no socket is left over. *)
Theorem sonewconn_sound st h sh l0 l1 : housed st -> listening st h l0 l1 -> socks st !! h = Some sh ->
  exists r st', sonewconn mbutl memall usrreq h st = Ok (r, st') /\ housed st' /\
    match r with
    | Some so => so_qlen sh + so_q0len sh <= 3 * so_qlimit sh / 2 /\ socks st !! so = None /\ listening st' h (so :: l0) l1 /\
        so_state <$> socks st' !! so = Some (with_bits (so_state sh) SS_NOFDREF) /\
        so_options <$> socks st' !! so = Some (without (so_options sh) SO_ACCEPTCONN) /\
        (forall sh', socks st' !! h = Some sh' -> so_qlen sh' = so_qlen sh /\ so_q0len sh' = i16 (so_q0len sh + 1))
    | None => listening st' h l0 l1 /\ (forall a, is_Some (socks st' !! a) <-> is_Some (socks st !! a)) /\
        (3 * so_qlimit sh / 2 < so_qlen sh + so_q0len sh -> st' = st)
    end.
Proof.
  intros Hh Hl Hsh. unfold sonewconn. rewrite (get_so_Ok _ _ _ Hsh). kstep.
  destruct (Z.ltb_spec (3 * so_qlimit sh / 2) (so_qlen sh + so_q0len sh)) as [Hlim|Hlim]; [by exists None, st|].
  destruct (getclr_struct_spec MT_SOCKET st (proj1 Hh) ltac:(done)) as (g & st1 & -> & E1 & E2 & E3 & W1 & K1 & Hg). kstep.
  assert (housed st1) as Hh1.
  { split; [done|]. intros a. rewrite E1. intros Ha. destruct (proj2 Hh a Ha) as (Ea & x & Hx). eauto. }
  assert (listening st1 h l0 l1) as L1 by (apply (listening_place st); [intros a _; by rewrite E1|done]).
  destruct g as [so|].
  2:{ exists None, st1. split; [done|]. split; [done|]. split; [done|]. split; [by intros a; rewrite E1|lia]. }
  destruct Hg as (Eso & _ & Hx & Hnew).
  assert (socks st !! so = None) as Hn.
  { destruct (socks st !! so) as [s|] eqn:Es; [|done]. destruct (proj2 Hh so) as (_ & x & Hx'); [by eexists|]. by destruct (Hnew x). }
  match goal with |- context [put_so so ?s st1] => set (s0 := s); set (st2 := put_so so s0 st1) end.
  destruct (put_new_listening st1 so s0 h l0 l1) as [L2 Hso]; [by rewrite E1|done|]. fold st2 in L2.
  pose proof (housed_put st1 so s0 Hh1 Eso Hx) as Hh2. fold st2 in Hh2.
  destruct (soqinsque_spec st2 h l0 l1 so false L2) as (st3 & -> & R3 & L3); [by exists s0; cbn; rewrite lookup_insert_eq|done|]. kstep.
  pose proof (housed_relinked _ _ _ R3 Hh2) as Hh3.
  destruct (attach_returns (so_proto sh) so st3 Hh3) as (e & st4 & -> & U4).
  { apply (listening_some _ _ _ _ _ L3). right. by left. }
  kstep. pose proof (undisturbed_listening _ _ _ _ _ U4 L3) as L4. pose proof U4 as (_ & Us & Uo & Uh). specialize (Uh Hh3).
  destruct (Z.eqb_spec e 0) as [->|He]; cbn [negb].
  - exists (Some so), st4. split; [done|]. split; [done|]. split_and!; try done.
    + rewrite Us, (relinked_proj so_state _ _ _ so ltac:(done) R3). cbn. by rewrite lookup_insert_eq.
    + rewrite Uo, (relinked_proj so_options _ _ _ so ltac:(done) R3). cbn. by rewrite lookup_insert_eq.
    + intros sh' Hsh'. pose proof (ls_len _ _ _ _ Hl false sh Hsh). pose proof (ls_len _ _ _ _ Hl true sh Hsh). pose proof (ls_len _ _ _ _ L4 false sh' Hsh'). pose proof (ls_len _ _ _ _ L4 true sh' Hsh'). cbn [sel qlen length] in *. split; [congruence|]. replace (so_q0len sh) with (i16 (Z.of_nat (length l0))) by done. rewrite wraps_add_l by done. etransitivity; [eassumption|]. f_equal. lia.
  - destruct (unspawn st4 h l0 l1 so Uh L4) as (st5 & mb & -> & Em & L5 & H5 & B5 & D5). kstep. rewrite Em. kstep.
    eexists None, _. split; [reflexivity|]. split; [exact H5|]. split; [exact L5|]. split; [|lia].
    intros a. destruct (decide (a = so)) as [->|Ha]; [rewrite D5, Hn; by split; intros [? ?]|].
    etransitivity; [apply (fmap_eq_some body), B5, Ha|]. rewrite (undisturbed_some _ _ _ U4), (relinked_some _ _ _ _ R3). cbn.
    by rewrite lookup_insert_ne, E1.
Qed.

(** accept() of a connection: it leaves the queue and gets a file.  That the protocol gives the
    name of the peer is a hypothesis. *)
Lemma accept_take_spec st h l0 so l1 nam : listening st h l0 (so :: l1) -> has (default 0 (so_state <$> socks st !! so)) SS_NOFDREF = true ->
  (forall pr st1, is_Some (socks st1 !! so) -> exists e st2, usrreq pr so PRU_ACCEPT [] (Nam nam) [] st1 = Ok (e, st2)) ->
  exists st', accept_take usrreq h nam st = Ok (so, st') /\ listening st' h l0 l1 /\
    so_head <$> socks st' !! so = Some 0 /\ so_state <$> socks st' !! so = (fun s => without (so_state s) SS_NOFDREF) <$> socks st !! so.
Proof.
  intros Hl Hf Hret. destruct (put_listening_head st h _ _ Hl) as [sh Hsh]. unfold accept_take. rewrite (get_so_Ok _ _ _ Hsh). kstep.
  assert (so_q sh = so) as ->. { pose proof (ls_ring _ _ _ _ Hl true) as [E _]. rewrite Hsh in E. by injection E. }
  assert (so <> h) as Hne.
  { pose proof (ls_nodup _ _ _ _ Hl) as [Hnd _]%NoDup_cons. intros ->. apply Hnd, elem_of_app. right. by left. }
  destruct (soqremque_spec st h l0 (so :: l1) so true Hl Hne) as [_ Hq]; [apply (ls_head _ _ _ _ Hl), elem_of_app; right; by left|].
  destruct (Hq [] l1 eq_refl) as (st1 & -> & R1 & L1 & Hh1 & _). kstep. cbn [negb app] in *.
  pose proof (relinked_proj so_state _ _ _ so ltac:(done) R1) as Es. destruct (socks st !! so) as [s|] eqn:E0; [|done].
  destruct (socks st1 !! so) as [s1|] eqn:E1; [|done]. cbn in Es, Hf. injection Es as Es.
  unfold soaccept. rewrite (get_so_Ok _ _ _ E1). kstep. rewrite Es, Hf. cbn [negb]. rewrite upd_so_Ok by by eexists. kstep.
  match goal with |- context [alt so ?f st1] => set (st2 := alt so f st1) end.
  assert (is_Some (socks st2 !! so)) as [s2 Hs2] by (apply alt_some; by eexists). unfold req. rewrite (get_so_Ok _ _ _ Hs2). kstep.
  destruct (Hret (so_proto s2) st2) as (e & st3 & E3); [by eexists|]. rewrite E3. kstep. apply accept_undisturbed in E3 as U3.
  exists st3. split; [done|]. assert (listening st2 h l0 l1) as L2 by (apply (listening_place st1); [intros a _; unfold st2; by apply alt_proj; left|done]).
  split; [by apply (undisturbed_listening st2)|]. destruct U3 as (Up & Us & _). split.
  - rewrite (place_proj _ _ so so_head (fun p => p.1.1.1.1) ltac:(done) (Up so)). unfold st2. rewrite alt_proj by by left. by rewrite E1.
  - rewrite Us. unfold st2. rewrite alt_at, E1. cbn. by rewrite Es.
Qed.

Context (nfsd : bool) (alive : Z -> bool).

(** of two connections of a listening socket, [a] completed before [b], accept takes [b]: the queue of
    connections to be accepted is a stack. *)
Theorem accept_newest_first st h l0 l1 a b nam : listening st h l0 l1 -> a <> b -> a ∈ l0 -> b ∈ l0 ->
  has (default 0 (so_state <$> socks st !! b)) SS_NOFDREF = true ->
  (forall pr st1, is_Some (socks st1 !! b) -> exists e st2, usrreq pr b PRU_ACCEPT [] (Nam nam) [] st1 = Ok (e, st2)) ->
  exists st1 st2 st3 l0', soisconnected nfsd alive a st = Ok st1 /\ soisconnected nfsd alive b st1 = Ok st2 /\
    accept_take usrreq h nam st2 = Ok (b, st3) /\ listening st3 h l0' (a :: l1) /\ l0 ≡ₚ a :: b :: l0'.
Proof.
  intros Hl Hab Ha Hb Hf Hret. assert (forall so, so ∈ l0 -> so <> h) as Hne.
  { intros so Hso ->. pose proof (ls_nodup _ _ _ _ Hl) as [Hnd _]%NoDup_cons. apply Hnd, elem_of_app. by left. }
  apply list_elem_of_split in Ha as Ha'. destruct Ha' as (p1 & q1 & E1). rewrite E1 in Hl.
  destruct (soisconnected_moves nfsd alive st a h l1 p1 q1 Hl) as (st1 & -> & L1 & S1 & _ & _); [by apply Hne|apply (ls_head _ _ _ _ Hl); set_solver|].
  assert (b ∈ p1 ++ q1) as Hb1 by (rewrite E1 in Hb; set_solver). apply list_elem_of_split in Hb1 as Hb2. destruct Hb2 as (p2 & q2 & E2). rewrite E2 in L1.
  destruct (soisconnected_moves nfsd alive st1 b h (a :: l1) p2 q2 L1) as (st2 & E & L2 & S2 & _ & _); [by apply Hne|apply (ls_head _ _ _ _ L1); set_solver|].
  assert (so_state <$> socks st2 !! b = (fun s => connected (so_state s)) <$> socks st !! b) as Sb.
  { specialize (S1 b). specialize (S2 b). destruct (decide (b = b)); [|done]. destruct (decide (b = a)); [by subst|]. rewrite S2.
    destruct (socks st1 !! b), (socks st !! b); cbn in S1 |- *; try done. by injection S1 as ->. }
  destruct (accept_take_spec st2 h (p2 ++ q2) b (a :: l1) nam L2) as (st3 & E3 & L3 & _); [|done|].
  - rewrite Sb. destruct (socks st !! b) as [s|]; [|done]. cbn in Hf |- *.
    unfold connected, SS_NOFDREF, SS_ISCONNECTED, SS_ISCONNECTING, SS_ISDISCONNECTING in *. cbn [Z.lor Pos.lor]. flags. exact Hf.
  - exists st1, st2, st3, (p2 ++ q2). split_and!; try done. rewrite E1, <- Permutation_middle, E2. by rewrite <- Permutation_middle.
Qed.
End New.

(** ** Closing a listening socket *)

Section Close.
Context (usrreq : request) `{!Dequeues usrreq}.

Lemma abort_queue_spec (q : bool) h fuel : forall st l0 l1, listening st h l0 l1 -> (length (sel q l0 l1) <= fuel)%nat ->
  exists st', abort_queue usrreq fuel q h st = Ok st' /\ listening st' h (if q then l0 else []) (if q then [] else l1).
Proof.
  clear Hbase. induction fuel as [|fuel IH]; intros st l0 l1 Hl Hf; destruct (put_listening_head st h l0 l1 Hl) as [sh Hsh];
    pose proof (ls_ring _ _ _ _ Hl q) as Hr; cbn [abort_queue]; rewrite (get_so_Ok _ _ _ Hsh); kstep;
    (destruct (sel q l0 l1) as [|so rest] eqn:El; cbn in Hf, Hr; [rewrite Hsh in Hr; injection Hr as ->; rewrite Z.eqb_refl;
      exists st; split; [done|]; by destruct q; cbn in El; rewrite El in Hl|]); [lia|].
  destruct Hr as [Hr _]. rewrite Hsh in Hr. injection Hr as Hr. rewrite Hr.
  assert (so ∈ h :: l0 ++ l1 /\ so <> h) as [Hin Hne].
  { assert (so ∈ l0 ++ l1) as Hin by (apply elem_of_app; destruct q; cbn in El; rewrite El; [right|left]; by left). split; [by right|].
    intros ->. by pose proof (ls_nodup _ _ _ _ Hl) as [? _]%NoDup_cons. }
  rewrite (proj2 (Z.eqb_neq _ _) Hne). destruct (listening_some _ _ _ _ so Hl Hin) as [s Hs].
  unfold soabort, req. rewrite (get_so_Ok _ _ _ Hs). kstep.
  destruct (abort_dequeues (so_proto s) so st h l0 l1 q rest Hl El) as (e & st1 & -> & L1). kstep.
  destruct (IH st1 _ _ L1) as (st' & -> & L'); [by destruct q; cbn in *; lia|]. exists st'. split; [done|]. by destruct q.
Qed.

(** when a protocol's abort takes a connection off its queue, the two loops of soclose end after
    as many aborts as connections wait, with no connection waiting. *)
Theorem soclose_aborts_all st h l0 l1 fuel : listening st h l0 l1 -> (length l0 + length l1 <= fuel)%nat ->
  exists st', (st ← abort_queue usrreq fuel false h st; abort_queue usrreq fuel true h st) = Ok st' /\ listening st' h [] [].
Proof.
  clear Hbase. intros Hl Hf. destruct (abort_queue_spec false h fuel st l0 l1 Hl ltac:(simpl; lia)) as (st1 & -> & L1). kstep.
  by apply (abort_queue_spec true h fuel st1 [] l1 L1 ltac:(simpl; lia)).
Qed.
End Close.
End Queue.
