(* ===== verification/Unp.v ===== *)
(** * Unix domain sockets: [src/sun/sys/sys/uipc_usrreq.c], [h/unpcb.h]

    Definitions only.  The request routine of the unix domain: connections between control blocks,
    data appended straight to the receive buffer of the peer, file descriptors passed as rights,
    the collector of files that only messages refer to.  What the file system answers for a name
    (vn_create, lookupname) and closef() are arguments. *)

From S2P Require Import Prelude Flags Rmap Mbuf Sockbuf Sock.
From stdpp Require Import prelude list numbers strings gmap.
From Stdlib Require Import ZArith Lia.

Local Open Scope Z_scope.
Local Open Scope kern_scope.

Definition EBADF := 9.
Definition EEXIST := 17.
Definition ENOTSOCK := 38.
Definition EMSGSIZE := 40.
Definition EOPNOTSUPP := 45.
Definition EADDRINUSE := 48.
Definition ECONNRESET := 54.
Definition ECONNREFUSED := 61.
Definition MT_PCB := 4.
Definition VSOCK := 6.
Definition NOFILE := 30.
Definition DTYPE_SOCKET := 2.
Definition FMARK := 16.
Definition FDEFER := 32.

Definition PRU_CONTROL := 11.
Definition PRU_SENSE := 12.
Definition PRU_SOCKADDR := 15.
Definition PRU_PEERADDR := 16.
Definition PRU_SLOWTIMO := 19.

(** The two protocols of the domain ([unixsw]). *)
Definition unix_stream : protosw := Protosw 0 SOCK_STREAM AF_UNIX (Z.lor PR_CONNREQUIRED PR_WANTRCVD).
Definition unix_dgram : protosw := Protosw 1 SOCK_DGRAM AF_UNIX (Z.lor PR_ATOMIC (Z.lor PR_ADDR PR_RIGHTS)).

Record unpcb := Unpcb {
  unp_socket : Z; unp_vnode : Z; unp_conn : Z; unp_refs : Z; unp_nextref : Z; unp_remaddr : list Z
}.
Definition unp0 : unpcb := Unpcb 0 0 0 0 0 [].
Definition set_vnode (v : Z) (u : unpcb) : unpcb := Unpcb (unp_socket u) v (unp_conn u) (unp_refs u) (unp_nextref u) (unp_remaddr u).
Definition set_conn (v : Z) (u : unpcb) : unpcb := Unpcb (unp_socket u) (unp_vnode u) v (unp_refs u) (unp_nextref u) (unp_remaddr u).
Definition set_refs (v : Z) (u : unpcb) : unpcb := Unpcb (unp_socket u) (unp_vnode u) (unp_conn u) v (unp_nextref u) (unp_remaddr u).
Definition set_nextref (v : Z) (u : unpcb) : unpcb := Unpcb (unp_socket u) (unp_vnode u) (unp_conn u) (unp_refs u) v (unp_remaddr u).
Definition set_remaddr (v : list Z) (u : unpcb) : unpcb := Unpcb (unp_socket u) (unp_vnode u) (unp_conn u) (unp_refs u) (unp_nextref u) v.

(** An entry of the file table. *)
Record file := File { f_flag : Z; f_type : Z; f_count : Z; f_msgcount : Z; f_data : Z }.
Definition set_fflag (v : Z) (f : file) : file := File v (f_type f) (f_count f) (f_msgcount f) (f_data f).
Definition set_counts (c m : Z) (f : file) : file := File (f_flag f) (f_type f) (i16 c) (i16 m) (f_data f).

(** The control blocks; the type and the socket of a vnode; the vnodes released; the file table, by address and in order;
    [u.u_ofile], 0 for a free descriptor; the counters of the collector. *)
Record unpst := Unpst {
  unpcbs : gmap Z unpcb; vnodes : gmap Z (Z * Z); released : list Z;
  files : gmap Z file; ftab : list Z; ofile : list Z; unp_defer : Z; unp_gcing : bool
}.

Section Unp.
Context {M H : Type} `{RM : !ResMap M}.
Implicit Type st : sockst M H unpst.

Definition set_unpcbs st v : sockst M H unpst := let u := spcb st in
  set_spcb st (Unpst v (vnodes u) (released u) (files u) (ftab u) (ofile u) (unp_defer u) (unp_gcing u)).
Definition set_vnodes st v r : sockst M H unpst := let u := spcb st in
  set_spcb st (Unpst (unpcbs u) v r (files u) (ftab u) (ofile u) (unp_defer u) (unp_gcing u)).
Definition set_files st v o : sockst M H unpst := let u := spcb st in
  set_spcb st (Unpst (unpcbs u) (vnodes u) (released u) v (ftab u) o (unp_defer u) (unp_gcing u)).
Definition set_gc st d g : sockst M H unpst := let u := spcb st in
  set_spcb st (Unpst (unpcbs u) (vnodes u) (released u) (files u) (ftab u) (ofile u) d g).

Definition get_unp (a : Z) st : res unpcb := match unpcbs (spcb st) !! a with Some u => Ok u | None => Fault end.
Definition put_unp (a : Z) (u : unpcb) st : sockst M H unpst := set_unpcbs st (<[a := u]> (unpcbs (spcb st))).
Definition upd_unp (a : Z) (f : unpcb -> unpcb) st : res (sockst M H unpst) := u ← get_unp a st; mret (put_unp a (f u) st).
Definition get_file (a : Z) st : res file := match files (spcb st) !! a with Some f => Ok f | None => Fault end.
Definition put_file (a : Z) (f : file) st : sockst M H unpst := set_files st (<[a := f]> (files (spcb st))) (ofile (spcb st)).
Definition upd_file (a : Z) (g : file -> file) st : res (sockst M H unpst) := f ← get_file a st; mret (put_file a (g f) st).
Definition vn_rele (vp : Z) st : sockst M H unpst := set_vnodes st (vnodes (spcb st)) (released (spcb st) ++ [vp]).

Context (nfsd : bool) (alive : Z -> bool) (mbutl : Z) (memall : Z -> Z -> bool) (kalloc : Z -> H -> res (Z * H)).
(** What the file system finds or creates under a name: a vnode or an error. *)
Context (vn_create lookupname : list Z -> Z + Z).
Context (closef : Z -> sockst M H unpst -> res (sockst M H unpst)).

(** ** Control blocks *)

Definition unp_sendspace := 1024 * 2.
Definition unp_recvspace := 1024 * 2.

Definition unp_attach (so : Z) st : res (Z * sockst M H unpst) :=
  s ← get_so so st;
  let '(snd, rcv) := soreserve (so_snd s) (so_rcv s) unp_sendspace unp_recvspace in
  let st := put_so so (set_rcv rcv (set_snd snd s)) st in
  '(r, st) ← getclr_struct mbutl memall MT_PCB st;
  match r with
  | None => mret (ENOBUFS, st)
  | Some unp =>
      st ← upd_so so (set_pcb unp) st;
      mret (0, put_unp unp (Unpcb so 0 0 0 0 []) st)
  end.

(** The socket before [unp] on a list of references. *)
Fixpoint unp_prevref (fuel : nat) (unp unp2 : Z) st : res Z :=
  match fuel with
  | O => Fault
  | S fuel =>
      if unp2 =? 0 then Panic "unp_disconnect"
      else u2 ← get_unp unp2 st; if unp_nextref u2 =? unp then mret unp2 else unp_prevref fuel unp (unp_nextref u2) st
  end.

Definition unp_disconnect (unp : Z) st : res (sockst M H unpst) :=
  u ← get_unp unp st;
  let unp2 := unp_conn u in
  if unp2 =? 0 then mret st
  else
    st ← upd_unp unp (set_conn 0) st;
    s ← get_so (unp_socket u) st;
    if so_type s =? SOCK_DGRAM then
      u2 ← get_unp unp2 st;
      st ← (if unp_refs u2 =? unp then upd_unp unp2 (set_refs (unp_nextref u)) st
            else
              p ← unp_prevref (S (size (unpcbs (spcb st)))) unp (unp_refs u2) st;
              upd_unp p (set_nextref (unp_nextref u)) st);
      upd_unp unp (set_nextref 0) st
    else if so_type s =? SOCK_STREAM then
      st ← soisdisconnected nfsd alive (unp_socket u) st;
      st ← upd_unp unp2 (set_conn 0) st;
      u2 ← get_unp unp2 st;
      soisdisconnected nfsd alive (unp_socket u2) st
    else mret st.

Definition unp_drop (unp errno : Z) st : res (sockst M H unpst) :=
  u ← get_unp unp st;
  st ← upd_so (unp_socket u) (set_error errno) st;
  unp_disconnect unp st.

(** [while (unp->unp_refs) unp_drop(unp->unp_refs, ECONNRESET)], at most [fuel] times. *)
Fixpoint drop_refs (fuel : nat) (unp : Z) st : res (sockst M H unpst) :=
  u ← get_unp unp st;
  if unp_refs u =? 0 then mret st
  else match fuel with O => Fault | S fuel => st ← unp_drop (unp_refs u) ECONNRESET st; drop_refs fuel unp st end.

Definition unp_detach (unp : Z) st : res (sockst M H unpst) :=
  u ← get_unp unp st;
  let st := if unp_vnode u =? 0 then st else vn_rele (unp_vnode u) st in
  st ← upd_unp unp (set_vnode 0) st;
  st ← (if unp_conn u =? 0 then mret st else unp_disconnect unp st);
  st ← drop_refs (S (size (unpcbs (spcb st)))) unp st;
  u ← get_unp unp st;
  st ← soisdisconnected nfsd alive (unp_socket u) st;
  st ← upd_so (unp_socket u) (set_pcb 0) st;
  mb ← m_freem mbutl (unp_remaddr u) (smb st);
  mb ← MFREE mbutl (dtom unp) mb;
  mret (set_unpcbs (set_smb st mb) (delete unp (unpcbs (spcb st)))).

(** ** Names *)

(** The bytes of a string in memory, up to its end and to [n] of them. *)
Fixpoint cstring (c : Z -> Z) (p : Z) (n : nat) : list Z :=
  match n with O => [] | S n => if c p =? 0 then [] else c p :: cstring c (p + 1) n end.

(** [*(mtod(nam, caddr_t) + nam->m_len) = 0], and the path in a sockaddr_un. *)
Definition terminate (nam : Z) st : res (list Z * sockst M H unpst) :=
  x ← get_mb nam (smb st);
  let c := store (core (smb st)) (mtod nam x + m_len x) [0] in
  mret (cstring c (mtod nam x + 2) (Z.to_nat MSIZE), set_smb st (set_core (smb st) c)).

Definition unp_bind (unp : Z) (nam : list Z) st : res (Z * sockst M H unpst) :=
  match nam with
  | [] => Fault
  | n :: _ =>
      x ← get_mb n (smb st);
      if m_len x =? MLEN then mret (EINVAL, st)
      else
        '(path, st) ← terminate n st;
        match vn_create path with
        | inl e => mret (if e =? EEXIST then EADDRINUSE else e, st)
        | inr vp =>
            u ← get_unp unp st;
            let st := set_vnodes st (<[vp := (VSOCK, unp_socket u)]> (vnodes (spcb st))) (released (spcb st)) in
            st ← upd_unp unp (set_vnode vp) st;
            mret (0, st)
        end
  end.

(** ** Connections *)

Definition unp_connect2 (so : Z) (sonam : list Z) (so2 : Z) st : res (Z * sockst M H unpst) :=
  s ← get_so so st;
  s2 ← get_so so2 st;
  if negb (so_type s2 =? so_type s) then mret (EPROTOTYPE, st)
  else
    let unp := so_pcb s in
    let unp2 := so_pcb s2 in
    st ← upd_unp unp (set_conn unp2) st;
    if so_type s =? SOCK_DGRAM then
      u2 ← get_unp unp2 st;
      st ← upd_unp unp (set_nextref (unp_refs u2)) st;
      st ← upd_unp unp2 (set_refs unp) st;
      mret (0, st)
    else if so_type s =? SOCK_STREAM then
      st ← upd_unp unp2 (set_conn unp) st;
      st ← (match sonam with
            | [] => mret st
            | _ :: _ =>
                '(r, mb) ← m_copy mbutl memall kalloc sonam 0 M_COPYALL (smb st);
                upd_unp unp2 (set_remaddr r) (set_smb st mb)
            end);
      st ← soisconnected nfsd alive so2 st;
      st ← soisconnected nfsd alive so st;
      mret (0, st)
    else Panic "unp_connect2".

(** PRU_ATTACH, as sonewconn() asks for it. *)
Definition uipc_attach (so : Z) (m : list Z) st : res (Z * sockst M H unpst) :=
  s ← get_so so st;
  '(e, st) ← (if negb (so_pcb s =? 0) then mret (EISCONN, st) else unp_attach so st);
  mb ← m_freem mbutl m (smb st);
  mret (e, set_smb st mb).

Definition unp_newconn (head : Z) st : res (option Z * sockst M H unpst) :=
  sonewconn mbutl memall (fun _ so _ m _ _ st => uipc_attach so m st) head st.

Definition unp_connect (so : Z) (nam : list Z) st : res (Z * sockst M H unpst) :=
  match nam with
  | [] => Fault
  | n :: _ =>
      x ← get_mb n (smb st);
      if m_len x + (m_off x - MMINOFF) =? MLEN then mret (EMSGSIZE, st)
      else
        '(path, st) ← terminate n st;
        match lookupname path with
        | inl e => mret (e, st)
        | inr vp =>
            v ← (match vnodes (spcb st) !! vp with Some v => Ok v | None => Fault end);
            if negb (v.1 =? VSOCK) then mret (ENOTSOCK, vn_rele vp st)
            else if v.2 =? 0 then mret (ECONNREFUSED, vn_rele vp st)
            else
              s ← get_so so st;
              s2 ← get_so v.2 st;
              if negb (so_type s =? so_type s2) then mret (EPROTOTYPE, vn_rele vp st)
              else if has (pr_flags (so_proto s)) PR_CONNREQUIRED then
                if negb (has (so_options s2) SO_ACCEPTCONN) then mret (ECONNREFUSED, vn_rele vp st)
                else
                  '(r, st) ← unp_newconn v.2 st;
                  match r with
                  | None => mret (ECONNREFUSED, vn_rele vp st)
                  | Some so2 => '(e, st) ← unp_connect2 so nam so2 st; mret (e, vn_rele vp st)
                  end
              else '(e, st) ← unp_connect2 so nam v.2 st; mret (e, vn_rele vp st)
        end
  end.

(** ** Rights *)

Definition getf (fd : Z) st : option Z :=
  if (0 <=? fd) && (fd <? NOFILE) then
    match ofile (spcb st) !! Z.to_nat fd with Some fp => if fp =? 0 then None else Some fp | None => None end
  else None.
Definition ufalloc st : option nat := (list_find (fun fp => fp = 0) (ofile (spcb st))) ≫= fun p => Some p.1.
Definition ufavail st : Z := Z.of_nat (length (filter (fun fp => fp = 0) (ofile (spcb st)))).

(** A word of the data of an mbuf read as a descriptor or as a pointer; a word written. *)
Definition rd_word (p : Z) st : Z := field (core (smb st)) p 4.
Definition wr_word (p v : Z) st : sockst M H unpst := set_smb st (set_core (smb st) (store (core (smb st)) p (int_bytes v))).

Definition unp_discard (fp : Z) st : res (sockst M H unpst) :=
  st ← upd_file fp (fun f => set_counts (f_count f) (f_msgcount f - 1) f) st;
  closef fp st.

Fixpoint all_open (n : nat) (rp : Z) st : bool :=
  match n with O => true | S n => match getf (i32 (rd_word rp st)) st with Some _ => all_open n (rp + 4) st | None => false end end.
Fixpoint intern (n : nat) (rp : Z) st : res (sockst M H unpst) :=
  match n with
  | O => mret st
  | S n =>
      match getf (i32 (rd_word rp st)) st with
      | None => Fault
      | Some fp =>
          st ← upd_file fp (fun f => set_counts (f_count f + 1) (f_msgcount f + 1) f) (wr_word rp fp st);
          intern n (rp + 4) st
      end
  end.
(** [rights] heads the descriptors; they become pointers. *)
Definition unp_internalize (rights : Z) st : res (Z * sockst M H unpst) :=
  x ← get_mb rights (smb st);
  let n := Z.to_nat (m_len x / 4) in
  if negb (all_open n (mtod rights x) st) then mret (EBADF, st)
  else st ← intern n (mtod rights x) st; mret (0, st).

Fixpoint discard_all (n : nat) (rp : Z) st : res (sockst M H unpst) :=
  match n with
  | O => mret st
  | S n => st ← unp_discard (rd_word rp st) st; discard_all n (rp + 4) (wr_word rp 0 st)
  end.
Fixpoint extern (n : nat) (rp : Z) st : res (sockst M H unpst) :=
  match n with
  | O => mret st
  | S n =>
      match ufalloc st with
      | None => Panic "unp_externalize"
      | Some f =>
          let fp := rd_word rp st in
          let st := set_files st (files (spcb st)) (<[f := fp]> (ofile (spcb st))) in
          st ← upd_file fp (fun f => set_counts (f_count f) (f_msgcount f - 1) f) st;
          extern n (rp + 4) (wr_word rp (Z.of_nat f) st)
      end
  end.
Definition unp_externalize (rights : Z) st : res (Z * sockst M H unpst) :=
  x ← get_mb rights (smb st);
  let newfds := m_len x / 4 in
  if ufavail st <? newfds then st ← discard_all (Z.to_nat newfds) (mtod rights x) st; mret (EMSGSIZE, st)
  else st ← extern (Z.to_nat newfds) (mtod rights x) st; mret (0, st).

(** ** Requests *)

(** [struct sockaddr sun_noname = { AF_UNIX }] *)
Definition sun_noname : list Z := [0; AF_UNIX] ++ replicate 14 0.

Definition set_sbmax (sb : sockbuf) (h m : Z) : sockbuf := with_limits sb h m.

(** What the reader has taken goes back to the writer. *)
Definition unp_rcvd (so so2 : Z) st : res (sockst M H unpst) :=
  s ← get_so so st;
  let rcv := so_rcv s in
  st ← upd_so so2 (fun s2 => let snd := so_snd s2 in
        set_snd (set_sbmax snd (sb_hiwat snd + (sb_hiwat rcv - sb_cc rcv)) (sb_mbmax snd + (sb_mbmax rcv - sb_mbcnt rcv))) s2) st;
  st ← upd_so so (fun s => set_rcv (set_sbmax rcv (sb_cc rcv) (sb_mbcnt rcv)) s) st;
  sowakeup nfsd alive so2 false st.

(** Data of a stream go to the peer's buffer, with the resources to hold them. *)
Definition unp_send (so so2 : Z) (m : list Z) st : res (sockst M H unpst) :=
  s2 ← get_so so2 st;
  '(rcv, mb) ← sbappend mbutl (so_rcv s2) m (smb st);
  let st := put_so so2 (set_rcv rcv s2) (set_smb st mb) in
  st ← upd_so so (fun s => let snd := so_snd s in
        set_snd (set_sbmax snd (sb_hiwat snd - (sb_cc rcv - sb_hiwat rcv)) (sb_mbmax snd - (sb_mbcnt rcv - sb_mbmax rcv))) s) st;
  st ← upd_so so2 (fun s2 => set_rcv (set_sbmax rcv (sb_cc rcv) (sb_mbcnt rcv)) s2) st;
  sowakeup nfsd alive so2 true st.

(** A datagram to the socket [unp] is connected to: the error, and whether the datagram was taken. *)
Definition unp_dgram (unp : Z) (m rights : list Z) st : res (Z * bool * sockst M H unpst) :=
  u ← get_unp unp st;
  u2 ← get_unp (unp_conn u) st;
  let so2 := unp_socket u2 in
  '(e, st) ← (match rights with r :: _ => unp_internalize r st | [] => mret (0, st) end);
  if negb (e =? 0) then mret (e, true, st)
  else
    s2 ← get_so so2 st;
    if 0 <? sbspace (so_rcv s2) then
      '(_, sb, mb) ← sbappendaddr mbutl memall kalloc (so_rcv s2) sun_noname m rights (has (pr_flags (so_proto s2)) PR_RIGHTS) (smb st);
      let '(sb, ev) := sbwakeup nfsd sb in
      mret (0, false, add_sev (put_so so2 (set_rcv sb s2) (set_smb st mb)) (EvSb so2 true <$> ev))
    else mret (0, false, st).

(** PRU_SEND of a datagram.  [m = 0] follows the switch on the type whatever happened: the datagram is
    never freed at [release]. *)
Definition unp_send_dgram (so unp : Z) (m : list Z) (nam rights : list Z) st : res (Z * sockst M H unpst) :=
  u ← get_unp unp st;
  match nam with
  | _ :: _ =>
      if negb (unp_conn u =? 0) then mret (EISCONN, st)
      else
        '(e, st) ← unp_connect so nam st;
        if negb (e =? 0) then mret (e, st)
        else
          '(e, broke, st) ← unp_dgram unp m rights st;
          if broke : bool then mret (e, st) else st ← unp_disconnect unp st; mret (e, st)
  | [] =>
      if unp_conn u =? 0 then mret (ENOTCONN, st)
      else '(e, _, st) ← unp_dgram unp m rights st; mret (e, st)
  end.

(** The switch of uipc_usrreq(): the error, what is left of [m] to free, the state; PRU_CONTROL returns at once. *)
Definition uipc_request (so req unp : Z) (u : unpcb) (m : list Z) (nam : namarg) (rights : list Z) st : res (Z * list Z * sockst M H unpst) :=
  s ← get_so so st;
  let name := match nam with Nam l => l | Peer _ => [] end in
  if req =? PRU_DETACH then st ← unp_detach unp st; mret (0, m, st)
  else if req =? PRU_BIND then '(e, st) ← unp_bind unp name st; mret (e, m, st)
  else if req =? PRU_LISTEN then mret (if unp_vnode u =? 0 then EINVAL else 0, m, st)
  else if req =? PRU_CONNECT then '(e, st) ← unp_connect so name st; mret (e, m, st)
  else if req =? PRU_CONNECT2 then
    match nam with Peer so2 => '(e, st) ← unp_connect2 so [] so2 st; mret (e, m, st) | Nam _ => Fault end
  else if req =? PRU_DISCONNECT then st ← unp_disconnect unp st; mret (0, m, st)
  else if req =? PRU_ACCEPT then
    match name, unp_remaddr u with
    | n :: _, r :: _ =>
        x ← get_mb n (smb st);
        y ← get_mb r (smb st);
        mb ← bcopy (mtod r y) (mtod n x) (m_len y) (put_mb n (set_len x (m_len y)) (smb st));
        mret (0, m, set_smb st mb)
    | _, _ => Fault
    end
  else if req =? PRU_SHUTDOWN then st ← socantsendmore nfsd alive so st; mret (0, m, st)
  else if req =? PRU_RCVD then
    if so_type s =? SOCK_DGRAM then Panic "uipc 1"
    else if so_type s =? SOCK_STREAM then
      if unp_conn u =? 0 then mret (0, m, st)
      else u2 ← get_unp (unp_conn u) st; st ← unp_rcvd so (unp_socket u2) st; mret (0, m, st)
    else Panic "uipc 2"
  else if req =? PRU_SEND then
    if so_type s =? SOCK_DGRAM then '(e, st) ← unp_send_dgram so unp m name rights st; mret (e, [], st)
    else if so_type s =? SOCK_STREAM then
      n ← (match rights with r :: _ => x ← get_mb r (smb st); mret (m_len x) | [] => mret 0 end);
      if negb (n =? 0) then mret (EOPNOTSUPP, [], st)
      else if unp_conn u =? 0 then Panic "uipc 3"
      else u2 ← get_unp (unp_conn u) st; st ← unp_send so (unp_socket u2) m st; mret (0, [], st)
    else Panic "uipc 4"
  else if req =? PRU_ABORT then st ← unp_drop unp ECONNABORTED st; mret (0, m, st)
  else if req =? PRU_SENSE then mret (EOPNOTSUPP, m, st)
  else if bool_decide (req ∈ [PRU_RCVOOB; PRU_SENDOOB; PRU_SOCKADDR; PRU_PEERADDR; PRU_SLOWTIMO]) then mret (0, m, st)
  else Panic "piusrreq".

Definition uipc_usrreq (pr : protosw) (so req : Z) (m : list Z) (nam : namarg) (rights : list Z) st : res (Z * sockst M H unpst) :=
  s ← get_so so st;
  let unp := so_pcb s in
  n ← (match rights with r :: _ => x ← get_mb r (smb st); mret (m_len x) | [] => mret 0 end);
  '(e, m, st) ←
    (if negb (req =? PRU_SEND) && negb (n =? 0) then mret (EOPNOTSUPP, m, st)
     else if (unp =? 0) && negb (req =? PRU_ATTACH) then mret (EINVAL, m, st)
     else if req =? PRU_ATTACH then
       '(e, st) ← (if negb (unp =? 0) then mret (EISCONN, st) else unp_attach so st); mret (e, m, st)
     else if req =? PRU_CONTROL then mret (EOPNOTSUPP, [], st)
     else u ← get_unp unp st; uipc_request so req unp u m nam rights st);
  mb ← m_freem mbutl m (smb st);
  mret (e, set_smb st mb).
End Unp.
