(* ===== verification/UnpThms.v ===== *)
(** * Unix domain sockets: what the protocol promises the socket layer, and streams

    The request routine is an instance of the class [Protocol]; it does not take an aborted connection off
    its queue, so soclose of a listening socket with connections never ends.  A write to a
    stream goes, whole and in order, to the end of the peer's buffer, and the space of the
    writer is what the reader has not yet to read. *)

From S2P Require Import Prelude Rmap Mbuf MbufThms MbufOps MbufTrim Flags Sockbuf SockbufThms Sock SockThms SockState SockQueue Unp.
From stdpp Require Import prelude list numbers strings gmap.
From Stdlib Require Import ZArith Lia.

Local Open Scope Z_scope.
Local Open Scope kern_scope.

Section Unix.
Context {M H : Type} `{RM : !ResMap M}.
Context (mbutl : Z).
Hypothesis Hbase : 0 < mbutl /\ mbutl mod NBPG = 0 /\ mbutl + NMBCLUSTERS * NBPG <= 2 ^ 32.
Context (nfsd : bool) (alive : Z -> bool) (memall : Z -> Z -> bool) (kalloc : Z -> H -> res (Z * H)).
Context (vn_create lookupname : list Z -> Z + Z) (closef : Z -> sockst M H unpst -> res (sockst M H unpst)).
Implicit Type st : sockst M H unpst.

Local Notation usrreq := (uipc_usrreq nfsd alive mbutl memall kalloc vn_create lookupname).

Lemma undisturbed_refl st : undisturbed mbutl st st.
Proof. by split_and!. Qed.
Lemma undisturbed_trans st1 st2 st3 : undisturbed mbutl st1 st2 -> undisturbed mbutl st2 st3 -> undisturbed mbutl st1 st3.
Proof.
  intros (A1 & A2 & A3 & A4) (B1 & B2 & B3 & B4). split_and!; [intros a; by rewrite B1|intros a; by rewrite B2|intros a; by rewrite B3|auto].
Qed.

Lemma housed_alt so f st : housed mbutl st -> housed mbutl (alt so f st).
Proof. clear Hbase. intros [Hw Hh]. split; [done|]. intros a Ha%alt_some. by apply Hh. Qed.

Lemma undisturbed_alt so f st : (forall s, place (f s) = place s /\ so_state (f s) = so_state s /\ so_options (f s) = so_options s) ->
  undisturbed mbutl st (alt so f st).
Proof.
  clear Hbase. intros Hf. split_and!; [intros a; apply alt_proj; left; apply Hf..|apply housed_alt].
Qed.
Lemma undisturbed_same st st' : socks st' = socks st -> (housed mbutl st -> housed mbutl st') -> undisturbed mbutl st st'.
Proof. clear Hbase. intros E Hh. split_and!; [intros a; by rewrite E..|done]. Qed.

Lemma put_so_alt so s (f : socket -> socket) st : socks st !! so = Some s -> put_so so (f s) st = alt so f st.
Proof.
  clear Hbase. intros Hs. unfold alt, put_so. f_equal. apply map_eq. intros b. destruct (decide (b = so)) as [->|].
  - by rewrite lookup_insert_eq, lookup_alter_eq, Hs.
  - by rewrite lookup_insert_ne, lookup_alter_ne.
Qed.

Lemma unp_attach_returns so st : housed mbutl st -> is_Some (socks st !! so) ->
  exists e st', unp_attach mbutl memall so st = Ok (e, st') /\ undisturbed mbutl st st' /\
    (e = 0 -> exists unp, unp <> 0 /\ so_pcb <$> socks st' !! so = Some unp /\ unpcbs (spcb st') = <[unp := Unpcb so 0 0 0 0 []]> (unpcbs (spcb st))).
Proof.
  intros Hh [s Hs]. unfold unp_attach. rewrite (get_so_Ok _ _ _ Hs). kstep. cbn [soreserve].
  set (f := fun s => set_rcv (sbreserve (so_rcv s) unp_recvspace) (set_snd (sbreserve (so_snd s) unp_sendspace) s)).
  change (put_so so _ st) with (put_so so (f s) st). rewrite (put_so_alt so s f st Hs). set (st1 := alt so f st).
  assert (undisturbed mbutl st st1) as U1 by (by apply undisturbed_alt). pose proof (proj2 (proj2 (proj2 U1)) Hh) as Hh1.
  destruct (getclr_struct_spec mbutl Hbase memall MT_PCB st1 (proj1 Hh1) ltac:(done)) as (g & st2 & -> & E1 & E2 & E3 & W2 & K2 & Hg). kstep.
  assert (housed mbutl st2) as Hh2.
  { split; [done|]. intros a. rewrite E1. intros Ha. destruct (proj2 Hh1 a Ha) as (Ea & x & Hx). eauto. }
  assert (undisturbed mbutl st st2) as U2 by (eapply undisturbed_trans; [exact U1|by apply undisturbed_same]).
  destruct g as [unp|]; [|by exists ENOBUFS, st2].
  assert (is_Some (socks st2 !! so)) as Hs2 by (rewrite E1; apply alt_some; by eexists).
  rewrite upd_so_Ok by done. kstep. eexists 0, _. split; [reflexivity|]. split.
  - eapply undisturbed_trans; [exact U2|]. eapply undisturbed_trans; [by apply (undisturbed_alt so (set_pcb unp))|]. by apply undisturbed_same.
  - intros _. exists unp. destruct Hg as (_ & Hu0 & _). split; [done|]. split.
    + change (so_pcb <$> socks (alt so (set_pcb unp) st2) !! so = Some unp). rewrite alt_at. by destruct Hs2 as [s2 ->].
    + cbn. by rewrite E2.
Qed.

(** A new length leaves the pool well formed, and a copy into it too. *)
Lemma wf_put_len (mb : mbst M H) n x v : mb_wf mbutl mb -> mbs mb !! n = Some x ->
  mb_wf mbutl (put_mb n (set_len x v) mb) /\ forall b, (exists z, in_use mb b z) -> exists z, in_use (put_mb n (set_len x v) mb) b z.
Proof.
  intros Hw Hn. destruct (b_free _ _ Hw) as [Hnd Hfr]. split.
  - eapply (wf_header mbutl Hbase mb _ n x (set_len x v) Hw Hn); try done.
    + intros b. cbn. split; [|intros [[_ ?]|[-> Ht]]; [done|apply Hfr; eauto]]. intros Hb. destruct (decide (b = n)) as [->|]; [right|by left].
      split; [done|]. apply Hfr in Hb as (y & Hy & Ht). rewrite Hn in Hy. by injection Hy as <-.
    + intros Ht. by apply (b_use _ _ Hw n x).
  - intros b [z [Hz Ht]]. destruct (decide (b = n)) as [->|Hb].
    + exists (set_len x v). split; [cbn; apply lookup_insert_eq|]. rewrite Hn in Hz. by injection Hz as <-.
    + exists z. split; [cbn; by rewrite lookup_insert_ne|done].
Qed.

Lemma housed_smb st mb : housed mbutl st -> mb_wf mbutl mb -> (forall b, (exists z, in_use (smb st) b z) -> exists z, in_use mb b z) ->
  housed mbutl (set_smb st mb).
Proof. clear Hbase. intros [Hw Hh] Hw' Hu. split; [done|]. intros a Ha. destruct (Hh a Ha) as [Ea Hx]. split; [done|by apply Hu]. Qed.

Lemma set_smb_id st : undisturbed mbutl st (set_smb st (smb st)).
Proof. clear Hbase. by apply undisturbed_same. Qed.

#[export] Instance unix_protocol : Protocol mbutl usrreq.
Proof.
  split.
  - intros pr so st Hh Hs. pose proof Hs as [s Es]. unfold uipc_usrreq. rewrite (get_so_Ok _ _ _ Es). kstep. cbn [Z.eqb negb andb PRU_ATTACH PRU_SEND].
    rewrite andb_false_r. destruct (Z.eqb_spec (so_pcb s) 0) as [E0|E0]; cbn [negb]; kstep.
    + destruct (unp_attach_returns so st Hh Hs) as (e & st' & -> & Hu & _). kstep. cbn [m_freem]. kstep.
      exists e, (set_smb st' (smb st')). split; [done|]. eapply undisturbed_trans; [exact Hu|apply set_smb_id].
    + cbn [m_freem]. kstep. eexists _, _. split; [reflexivity|]. apply set_smb_id.
  - intros pr so nam st e st'. unfold uipc_usrreq. destruct (get_so so st) as [s| |]; cbn [mbind res_bind]; [|done..].
    cbn [Z.eqb negb andb PRU_ATTACH PRU_SEND PRU_ACCEPT PRU_CONTROL Pos.eqb mret res_ret]. rewrite andb_true_r.
    destruct (so_pcb s =? 0); cbn [mbind res_bind mret res_ret m_freem].
    { intros [= <- <-]. apply set_smb_id. }
    destruct (get_unp (so_pcb s) st) as [u| |]; cbn [mbind res_bind]; [|done..]. unfold uipc_request.
    destruct (get_so so st); cbn [mbind res_bind]; [|done..]. cbn [Z.eqb Pos.eqb PRU_ACCEPT PRU_DETACH PRU_BIND PRU_LISTEN PRU_CONNECT PRU_CONNECT2 PRU_DISCONNECT].
    destruct nam as [|n nam]; [done|]. destruct (unp_remaddr u) as [|r rs]; [done|].
    destruct (get_mb n (smb st)) as [x| |] eqn:Ex; cbn [mbind res_bind]; [|done..].
    destruct (get_mb r (smb st)) as [y| |] eqn:Ey; cbn [mbind res_bind]; [|done..]. unfold get_mb in Ex.
    destruct (mbs (smb st) !! n) as [x'|] eqn:Hn; [|done]. injection Ex as ->. unfold bcopy.
    destruct (m_len y <? 0); cbn [mbind res_bind mret res_ret m_freem]; [done|]. intros [= <- <-].
    apply undisturbed_same; [done|]. intros Hh. destruct (wf_put_len (smb st) n x (m_len y) (proj1 Hh) Hn) as [W1 U1].
    apply (housed_smb st _ Hh); [by eapply wf_same|exact U1].
Qed.

(** ** An aborted connection stays on its queue *)

Lemma get_unp_Ok a u st : unpcbs (spcb st) !! a = Some u -> get_unp a st = Ok u.
Proof. clear Hbase. intros E. unfold get_unp. by rewrite E. Qed.
Lemma upd_unp_Ok a u f st : unpcbs (spcb st) !! a = Some u -> upd_unp a f st = Ok (put_unp a (f u) st).
Proof. clear Hbase. intros E. unfold upd_unp. by rewrite (get_unp_Ok _ _ _ E). Qed.

(** A stream socket and its control block; its peer, if it has one, has a socket. *)
Definition stream_pcb st (so unp : Z) : Prop := unp <> 0 /\ exists u, unpcbs (spcb st) !! unp = Some u /\ unp_socket u = so /\
  so_pcb <$> socks st !! so = Some unp /\ so_type <$> socks st !! so = Some SOCK_STREAM /\
  (unp_conn u <> 0 -> unp_conn u <> unp /\ exists u2, unpcbs (spcb st) !! unp_conn u = Some u2 /\ is_Some (socks st !! unp_socket u2)).

Lemma disconnected_idem x : disconnected (disconnected x) = disconnected x.
Proof.
  clear Hbase. unfold disconnected. generalize (Z.lor SS_ISCONNECTING (Z.lor SS_ISCONNECTED SS_ISDISCONNECTING)) (Z.lor SS_CANTRCVMORE SS_CANTSENDMORE).
  intros f g. apply Z.bits_inj'. intros n Hn. push_bits.
  repeat match goal with |- context [Z.testbit ?c n] => destruct (Z.testbit c n) end; done.
Qed.

(** Disconnecting a stream socket that has a peer: both ends are disconnected and forget each other. *)
Lemma unp_disconnect_stream st so unp u : unpcbs (spcb st) !! unp = Some u -> unp_socket u = so -> stream_pcb st so unp -> unp_conn u <> 0 ->
  exists st' u2, unp_disconnect nfsd alive unp st = Ok st' /\ unpcbs (spcb st) !! unp_conn u = Some u2 /\
    (forall a, place <$> socks st' !! a = place <$> socks st !! a) /\ (forall a, so_pcb <$> socks st' !! a = so_pcb <$> socks st !! a) /\
    (forall a, so_type <$> socks st' !! a = so_type <$> socks st !! a) /\
    (forall a, so_state <$> socks st' !! a =
      (fun s => if decide (a = so \/ a = unp_socket u2) then disconnected (so_state s) else so_state s) <$> socks st !! a) /\
    unpcbs (spcb st') = <[unp_conn u := set_conn 0 u2]> (<[unp := set_conn 0 u]> (unpcbs (spcb st))).
Proof.
  clear Hbase. intros Hu Eso (Hz & u' & Hu' & _ & Hpcb & Hty & Hpeer) Hc. rewrite Hu in Hu'. injection Hu' as <-.
  destruct (Hpeer Hc) as (Hne & u2 & Hu2 & Hs2). unfold unp_disconnect. rewrite (get_unp_Ok _ _ _ Hu). kstep.
  rewrite (proj2 (Z.eqb_neq _ _) Hc), (upd_unp_Ok _ _ _ _ Hu). kstep. set (st1 := put_unp unp (set_conn 0 u) st).
  destruct (socks st !! so) as [s|] eqn:Es; [|done]. cbn in Hty. injection Hty as Hty.
  assert (get_so so st1 = Ok s) as Eg by (unfold get_so; cbn; by rewrite Es). rewrite Eso, Eg. kstep. rewrite Hty. cbn [Z.eqb Pos.eqb SOCK_STREAM SOCK_DGRAM].
  destruct (soisdisconnected_spec nfsd alive so st1) as (st2 & -> & R2); [by cbn; rewrite Es; eexists|]. kstep.
  assert (spcb st2 = spcb st1) as Ep2 by apply R2.
  assert (unpcbs (spcb st2) !! unp_conn u = Some u2) as Hu2' by (rewrite Ep2; cbn; by rewrite lookup_insert_ne).
  rewrite (upd_unp_Ok _ _ _ _ Hu2'). kstep. set (st3 := put_unp (unp_conn u) (set_conn 0 u2) st2).
  assert (unpcbs (spcb st3) !! unp_conn u = Some (set_conn 0 u2)) as Hu3 by (cbn; by rewrite lookup_insert_eq).
  rewrite (get_unp_Ok _ _ _ Hu3). kstep. cbn [unp_socket set_conn].
  assert (forall (pi : socket -> Z) a, (forall s v, pi (set_state v s) = pi s) -> (forall s, pi (asleep s) = pi s) -> pi <$> socks st3 !! a = pi <$> socks st !! a) as Hpi.
  { intros pi a H1 H2. change (socks st3 !! a) with (socks st2 !! a). by rewrite (reflagged_proj pi so disconnected st1 st2 a H1 H2 R2). }
  destruct (soisdisconnected_spec nfsd alive (unp_socket u2) st3) as (st4 & E4 & R4).
  { apply (fmap_eq_some so_type _ (socks st !! unp_socket u2)); [by apply Hpi|done]. }
  exists st4, u2. split; [exact E4|]. split; [done|]. split_and!.
  - intros a. rewrite (reflagged_place _ _ _ _ a R4). change (socks st3 !! a) with (socks st2 !! a). by rewrite (reflagged_place _ _ _ _ a R2).
  - intros a. rewrite (reflagged_proj so_pcb _ _ _ _ a ltac:(done) ltac:(done) R4). by apply Hpi.
  - intros a. rewrite (reflagged_proj so_type _ _ _ _ a ltac:(done) ltac:(done) R4). by apply Hpi.
  - intros a. rewrite (reflagged_state _ _ _ _ a R4). change (socks st3 !! a) with (socks st2 !! a).
    pose proof (reflagged_state _ _ _ _ a R2) as E. change (socks st1 !! a) with (socks st !! a) in E.
    destruct (socks st2 !! a), (socks st !! a); cbn in E |- *; try done. injection E as ->. f_equal. clear.
    destruct (decide (a = so)), (decide (a = unp_socket u2)), (decide (a = so \/ a = unp_socket u2)); rewrite ?disconnected_idem; tauto.
  - destruct R4 as (_ & -> & _). cbn. by rewrite Ep2.
Qed.

Lemma abort_returns st so unp h l0 l1 pr : stream_pcb st so unp -> listening st h l0 l1 ->
  exists e st', usrreq pr so PRU_ABORT [] (Nam []) [] st = Ok (e, st') /\ stream_pcb st' so unp /\ listening st' h l0 l1.
Proof.
  clear Hbase. intros Hs Hl. pose proof Hs as (Hz & u & Hu & Eso & Hpcb & Hty & Hpeer).
  destruct (socks st !! so) as [s|] eqn:Es; [|done]. cbn in Hpcb. injection Hpcb as Hpcb.
  unfold uipc_usrreq. rewrite (get_so_Ok _ _ _ Es). kstep. cbn [Z.eqb negb andb PRU_ATTACH PRU_SEND PRU_ABORT PRU_CONTROL Pos.eqb].
  rewrite Hpcb, (proj2 (Z.eqb_neq _ _) Hz). cbn [andb]. rewrite (get_unp_Ok _ _ _ Hu). kstep. unfold uipc_request. rewrite (get_so_Ok _ _ _ Es). kstep.
  cbn [Z.eqb Pos.eqb PRU_ABORT PRU_ACCEPT PRU_DETACH PRU_BIND PRU_LISTEN PRU_CONNECT PRU_CONNECT2 PRU_DISCONNECT PRU_SHUTDOWN PRU_RCVD PRU_SEND].
  unfold unp_drop. rewrite (get_unp_Ok _ _ _ Hu). kstep. rewrite Eso, upd_so_Ok by (rewrite Es; by eexists). kstep.
  set (st1 := alt so (set_error ECONNABORTED) st). assert (unpcbs (spcb st1) !! unp = Some u) as Hu1 by exact Hu.
  assert (forall (pi : socket -> Z) a, (forall s v, pi (set_error v s) = pi s) -> pi <$> socks st1 !! a = pi <$> socks st !! a) as Hpi.
  { intros pi a Hp. apply alt_proj. left. intros s1. apply Hp. }
  assert (stream_pcb st1 so unp) as Hs1.
  { split; [done|]. exists u. split_and!; try done; [rewrite (Hpi so_pcb) by done; by rewrite Es; cbn; rewrite Hpcb|rewrite (Hpi so_type) by done; by rewrite Es|].
    intros Hc. destruct (Hpeer Hc) as (? & u2 & ? & ?). split; [done|]. exists u2. split; [done|]. by apply alt_some. }
  assert (listening st1 h l0 l1) as Hl1 by (apply (listening_place st); [intros a _; by apply alt_proj; left|done]).
  destruct (decide (unp_conn u = 0)) as [Ec|Ec].
  - unfold unp_disconnect. rewrite (get_unp_Ok _ _ _ Hu1). kstep. rewrite Ec. cbn [Z.eqb m_freem]. kstep.
    exists 0, (set_smb st1 (smb st1)). split; [done|]. split; [exact Hs1|]. by apply (listening_place st1).
  - destruct (unp_disconnect_stream st1 so unp u Hu1 Eso Hs1 Ec) as (st2 & u2 & -> & Hu2 & Hp2 & Hb2 & Ht2 & _ & Eu2). kstep. cbn [m_freem]. kstep.
    exists 0, (set_smb st2 (smb st2)). split; [done|]. assert (unp_conn u <> unp) as Hne by apply (Hpeer Ec).
    split; [|apply (listening_place st1); [intros a _; apply Hp2|exact Hl1]].
    split; [done|]. exists (set_conn 0 u). split_and!; try done.
    + change (unpcbs (spcb st2) !! unp = Some (set_conn 0 u)). rewrite Eu2, lookup_insert_ne by done. by rewrite lookup_insert_eq.
    + change (so_pcb <$> socks st2 !! so = Some unp). rewrite Hb2, (Hpi so_pcb) by done. by rewrite Es; cbn; rewrite Hpcb.
    + change (so_type <$> socks st2 !! so = Some SOCK_STREAM). rewrite Ht2, (Hpi so_type) by done. by rewrite Es.
Qed.

(** soclose of a unix-domain socket that listens, with a connection on either queue, never ends: to abort a
    connection disconnects it but leaves it first on its queue, so the loop runs out of any
    number of turns. *)
Theorem soclose_unix_hangs st h l0 l1 (q : bool) so unp rest fuel : listening st h l0 l1 -> sel q l0 l1 = so :: rest -> stream_pcb st so unp ->
  abort_queue usrreq fuel q h st = Fault.
Proof.
  clear Hbase. revert st. induction fuel as [|fuel IH]; intros st Hl El Hs; destruct (put_listening_head st h l0 l1 Hl) as [sh Hsh];
    pose proof (ls_ring _ _ _ _ Hl q) as Hr; rewrite El in Hr; destruct Hr as [Hr _]; rewrite Hsh in Hr; injection Hr as Hr;
    cbn [abort_queue]; rewrite (get_so_Ok _ _ _ Hsh); kstep; rewrite Hr.
  all: assert (so <> h) as Hne by (intros ->; pose proof (ls_nodup _ _ _ _ Hl) as [Hnd _]%NoDup_cons; apply Hnd, elem_of_app;
         destruct q; cbn in El; rewrite El; [right|left]; by left).
  all: rewrite (proj2 (Z.eqb_neq _ _) Hne).
  { done. }
  unfold soabort, req. pose proof Hs as (_ & u & _ & _ & Hpcb & _). destruct (socks st !! so) as [s|] eqn:Es; [|done].
  rewrite (get_so_Ok _ _ _ Es). kstep. destruct (abort_returns st so unp h l0 l1 (so_proto s) Hs Hl) as (e & st' & -> & Hs' & Hl'). kstep. by apply IH.
Qed.
End Unix.

(** ** Streams of the unix domain: data and credit

    PRU_SEND appends to the buffer of the peer and takes from the writer's limits what the
    reader's must hold; PRU_RCVD gives back what has been read.  The sum of the two limits is
    constant, and after either the writer's space is the sum less what is unread. *)

Section Stream.
Context {M H : Type} `{RM : !ResMap M}.
Context (mbutl : Z).
Hypothesis Hbase : 0 < mbutl /\ mbutl mod NBPG = 0 /\ mbutl + NMBCLUSTERS * NBPG <= 2 ^ 32.
Context (nfsd : bool) (alive : Z -> bool).
Implicit Type st : sockst M H unpst.

(** The limits of the two ends of one direction, bytes and storage. *)
Definition credit st (so so2 : Z) (c d : Z) : Prop := exists s s2, socks st !! so = Some s /\ socks st !! so2 = Some s2 /\
  i16 (sb_hiwat (so_snd s) + sb_hiwat (so_rcv s2)) = i16 c /\ i16 (sb_mbmax (so_snd s) + sb_mbmax (so_rcv s2)) = i16 d.
(** The reader's limits are what it holds, the writer's what is left. *)
Definition settled st (so so2 : Z) (c d : Z) : Prop := exists s s2, socks st !! so = Some s /\ socks st !! so2 = Some s2 /\
  sb_hiwat (so_rcv s2) = i16 (sb_cc (so_rcv s2)) /\ sb_mbmax (so_rcv s2) = i16 (sb_mbcnt (so_rcv s2)) /\
  sb_hiwat (so_snd s) = i16 (c - sb_cc (so_rcv s2)) /\ sb_mbmax (so_snd s) = i16 (d - sb_mbcnt (so_rcv s2)).

Lemma i16_cong a b c : i16 a = i16 b -> i16 (a - c) = i16 (b - c).
Proof. clear Hbase. intros E. rewrite <- (wraps_sub_l 16 a), E, wraps_sub_l by done. done. Qed.
Lemma i16_add_r a b : i16 (a + i16 b) = i16 (a + b).
Proof. clear Hbase. rewrite (Z.add_comm a), wraps_add_l by done. f_equal. lia. Qed.

Lemma settled_credit st so so2 c d : settled st so so2 c d -> credit st so so2 c d.
Proof.
  clear Hbase. intros (s & s2 & Hs & Hs2 & E1 & E2 & E3 & E4). exists s, s2. split; [done|]. split; [done|].
  rewrite E1, E2, E3, E4, !i16_add_r, !wraps_add_l by done. split; f_equal; lia.
Qed.

(** Waking changes no counter and no limit. *)
Lemma settled_calm st st' so so2 c d : calm st st' -> settled st so so2 c d -> settled st' so so2 c d.
Proof.
  clear Hbase. intros Hc (s & s2 & Hs & Hs2 & E).
  destruct (proj2 (calm_some _ _ so Hc)) as [s' Hs']; [by eexists|]. destruct (proj2 (calm_some _ _ so2 Hc)) as [s2' Hs2']; [by eexists|].
  assert (forall pi : socket -> Z, (forall s, pi (asleep s) = pi s) -> pi s' = pi s /\ pi s2' = pi s2) as Hpi.
  { intros pi Hp. pose proof (calm_proj pi st st' so Hp Hc) as A. pose proof (calm_proj pi st st' so2 Hp Hc) as B.
    rewrite Hs, Hs' in A. rewrite Hs2, Hs2' in B. by injection A; injection B. }
  exists s', s2'. split; [done|]. split; [done|].
  rewrite (proj2 (Hpi (fun s => sb_hiwat (so_rcv s)) ltac:(done))), (proj2 (Hpi (fun s => sb_cc (so_rcv s)) ltac:(done))),
    (proj2 (Hpi (fun s => sb_mbmax (so_rcv s)) ltac:(done))), (proj2 (Hpi (fun s => sb_mbcnt (so_rcv s)) ltac:(done))),
    (proj1 (Hpi (fun s => sb_hiwat (so_snd s)) ltac:(done))), (proj1 (Hpi (fun s => sb_mbmax (so_snd s)) ltac:(done))). exact E.
Qed.

Lemma unp_rcvd_spec st so so2 c d : so <> so2 -> credit st so2 so c d ->
  exists st', unp_rcvd nfsd alive so so2 st = Ok st' /\ settled st' so2 so c d /\ smb st' = smb st /\
    (forall a, a <> so -> a <> so2 -> is_Some (socks st !! a) -> asleep <$> socks st' !! a = asleep <$> socks st !! a).
Proof.
  clear Hbase. intros Hne (s2 & s & Hs2 & Hs & E1 & E2). unfold unp_rcvd. rewrite (get_so_Ok _ _ _ Hs). kstep.
  rewrite upd_so_Ok by by eexists. kstep. match goal with |- context [alt so2 ?f st] => set (f1 := f); set (st1 := alt so2 f1 st) end.
  rewrite upd_so_Ok by (apply alt_some; by eexists). kstep. match goal with |- context [alt so ?f st1] => set (f2 := f); set (st2 := alt so f2 st1) end.
  assert (socks st2 !! so = Some (f2 s)) as Hs'.
  { cbn. rewrite lookup_alter_eq, lookup_alter_ne by done. by rewrite Hs. }
  assert (socks st2 !! so2 = Some (f1 s2)) as Hs2'.
  { cbn. rewrite lookup_alter_ne by done. rewrite lookup_alter_eq. by rewrite Hs2. }
  destruct (sowakeup_calm nfsd alive so2 false st2) as (st' & -> & Hc); [by eexists|]. exists st'. split; [done|].
  assert (settled st2 so2 so c d) as Hset.
  { exists (f1 s2), (f2 s). split; [done|]. split; [done|]. unfold f1, f2.
    cbn [so_rcv so_snd set_rcv set_snd set_sbmax with_limits sb_hiwat sb_cc sb_mbmax sb_mbcnt].
    split_and!; [done..| |]; rewrite Z.add_sub_assoc; by apply i16_cong. }
  split; [by eapply settled_calm|]. split; [by destruct Hc|].
  intros a Ha Ha2 _. destruct Hc as (_ & _ & Hc & _). rewrite Hc. cbn. by rewrite !lookup_alter_ne.
Qed.

Lemma unp_send_spec st so so2 s2 m c d : so <> so2 -> credit st so so2 c d -> socks st !! so2 = Some s2 ->
  mb_wf mbutl (smb st) -> sb_ok mbutl (so_rcv s2) (smb st) -> chain mbutl (smb st) (sb_mb (so_rcv s2) ++ m) ->
  exists st' s2', unp_send nfsd alive mbutl so so2 m st = Ok st' /\ settled st' so so2 c d /\ socks st' !! so2 = Some s2' /\
    mb_wf mbutl (smb st') /\ sb_ok mbutl (so_rcv s2') (smb st') /\
    stream (smb st') (sb_mb (so_rcv s2')) = stream (smb st) (sb_mb (so_rcv s2) ++ m) /\
    kept mbutl (fun a => a ∈ sb_mb (so_rcv s2) ++ m) (smb st) (smb st').
Proof.
  intros Hne (s & s2' & Hs & Hs2' & E1 & E2) Hs2 Hw [Hc0 Hcnt] Hc. rewrite Hs2 in Hs2'. injection Hs2' as <-.
  unfold unp_send. rewrite (get_so_Ok _ _ _ Hs2). kstep. unfold sbappend.
  destruct (sbappend_loop_spec mbutl Hbase m (so_rcv s2) (smb st) Hw Hc Hcnt) as (rcv & mb & -> & W1 & K1 & Hok & (L1 & L2 & L3 & L4) & S1 & _). kstep.
  change (put_so so2 (set_rcv rcv s2) (set_smb st mb)) with (put_so so2 ((fun s => set_rcv rcv s) s2) (set_smb st mb)).
  rewrite put_so_alt by exact Hs2. set (st1 := alt so2 (set_rcv rcv) (set_smb st mb)).
  rewrite upd_so_Ok by (apply alt_some; by eexists). kstep. match goal with |- context [alt so ?f st1] => set (f2 := f); set (st2 := alt so f2 st1) end.
  rewrite upd_so_Ok by (apply alt_some, alt_some; by eexists). kstep. match goal with |- context [alt so2 ?f st2] => set (f3 := f); set (st3 := alt so2 f3 st2) end.
  assert (socks st3 !! so = Some (f2 s)) as H3.
  { cbn. rewrite lookup_alter_ne, lookup_alter_eq, lookup_alter_ne by done. by rewrite Hs. }
  assert (socks st3 !! so2 = Some (f3 (set_rcv rcv s2))) as H3'.
  { cbn. rewrite lookup_alter_eq, lookup_alter_ne, lookup_alter_eq by done. by rewrite Hs2. }
  destruct (sowakeup_calm nfsd alive so2 true st3) as (st' & E' & Hcalm); [by eexists|].
  assert (settled st3 so so2 c d) as Hset.
  { exists (f2 s), (f3 (set_rcv rcv s2)). split; [done|]. split; [done|]. unfold f2, f3.
    cbn [so_rcv so_snd set_rcv set_snd set_sbmax with_limits sb_hiwat sb_cc sb_mbmax sb_mbcnt].
    split_and!; [done..| |]; rewrite ?L1, ?L2.
    - rewrite <- (i16_cong _ _ (sb_cc rcv) E1). f_equal. lia.
    - rewrite <- (i16_cong _ _ (sb_mbcnt rcv) E2). f_equal. lia. }
  destruct (proj2 (calm_some _ _ so2 Hcalm)) as [s2' Hs2']; [by eexists|]. exists st', s2'. split; [exact E'|].
  assert (forall A (pi : socket -> A), (forall s, pi (asleep s) = pi s) -> pi s2' = pi (f3 (set_rcv rcv s2))) as Hpi.
  { intros A pi Hp. pose proof (calm_proj pi st3 st' so2 Hp Hcalm) as B. rewrite H3', Hs2' in B. by injection B. }
  assert (smb st' = mb) as -> by (destruct Hcalm as (-> & _); done).
  assert (sb_mb (so_rcv s2') = sb_mb rcv) as Em by apply (Hpi _ (fun s => sb_mb (so_rcv s)) ltac:(done)).
  split; [by eapply settled_calm|]. split; [done|]. split; [done|]. rewrite Em. split; [|by split].
  destruct Hok as [Hch [D1 D2]]. split; [by rewrite Em|]. unfold counted.
  rewrite (Hpi _ (fun s => sb_cc (so_rcv s)) ltac:(done)), (Hpi _ (fun s => sb_mbcnt (so_rcv s)) ltac:(done)), Em. done.
Qed.

(** C8: a write to a stream of the unix domain puts exactly the bytes of the chain, in order, at the end of what
    the peer has to read, wherever they end up; afterwards the peer's limits are what it holds
    and the writer's are the credit of the pair less what is unread. *)
Theorem unp_send_sound st so so2 s2 m c d : so <> so2 -> credit st so so2 c d -> socks st !! so2 = Some s2 ->
  mb_wf mbutl (smb st) -> sb_ok mbutl (so_rcv s2) (smb st) -> chain mbutl (smb st) (sb_mb (so_rcv s2) ++ m) ->
  exists st' s2', unp_send nfsd alive mbutl so so2 m st = Ok st' /\ settled st' so so2 c d /\ socks st' !! so2 = Some s2' /\
    mb_wf mbutl (smb st') /\ sb_ok mbutl (so_rcv s2') (smb st') /\
    stream (smb st') (sb_mb (so_rcv s2')) = stream (smb st) (sb_mb (so_rcv s2)) ++ stream (smb st) m.
Proof.
  intros Hne Hcr Hs2 Hw Hok Hc. destruct (unp_send_spec st so so2 s2 m c d Hne Hcr Hs2 Hw Hok Hc) as (st' & s2' & E & Hset & Hs2' & Hw' & Hok' & Es & _).
  rewrite stream_app in Es. by exists st', s2'.
Qed.

(** ** Any sequence of writes and reads of one direction *)

(** The writer sends, the reader takes bytes (its limits stay), the reader's side gives back what was taken. *)
Inductive flow_step (so so2 : Z) (st st' : sockst M H unpst) : Prop :=
| FlowSend m s2 : socks st !! so2 = Some s2 -> mb_wf mbutl (smb st) -> sb_ok mbutl (so_rcv s2) (smb st) ->
    chain mbutl (smb st) (sb_mb (so_rcv s2) ++ m) -> unp_send nfsd alive mbutl so so2 m st = Ok st' -> flow_step so so2 st st'
| FlowRead s2 rcv mb : socks st !! so2 = Some s2 -> same_sb (so_rcv s2) rcv -> st' = put_so so2 (set_rcv rcv s2) (set_smb st mb) -> flow_step so so2 st st'
| FlowRcvd : unp_rcvd nfsd alive so2 so st = Ok st' -> flow_step so so2 st st'.

Lemma flow_step_credit so so2 st st' c d : so <> so2 -> flow_step so so2 st st' -> credit st so so2 c d -> credit st' so so2 c d.
Proof.
  intros Hne [m s2 Hs2 Hw Hok Hc E|s2 rcv mb Hs2 (L1 & L2 & _) ->|E] Hcr.
  - destruct (unp_send_spec st so so2 s2 m c d Hne Hcr Hs2 Hw Hok Hc) as (st1 & s2' & E' & Hset & _). rewrite E in E'. injection E' as <-.
    by apply settled_credit.
  - destruct Hcr as (s & s2' & Hs & Hs2' & E1 & E2). rewrite Hs2 in Hs2'. injection Hs2' as <-.
    exists s, (set_rcv rcv s2). cbn. rewrite lookup_insert_ne, lookup_insert_eq, L1, L2 by done. by split_and!.
  - destruct (unp_rcvd_spec st so2 so c d ltac:(done) Hcr) as (st1 & E' & Hset & _). rewrite E in E'. injection E' as <-. by apply settled_credit.
Qed.

(** C23: whatever writes, reads and acknowledgements one direction of a stream sees, the limits of its two ends
    add up to the same credit (in the 16 bits of a limit), so that right after an acknowledgement the
    writer has exactly the credit less what is unread: space is neither lost nor made. *)
Theorem stream_credit_conserved so so2 st st1 st2 c d : so <> so2 -> credit st so so2 c d -> rtc (flow_step so so2) st st1 ->
  credit st1 so so2 c d /\ (unp_rcvd nfsd alive so2 so st1 = Ok st2 -> settled st2 so so2 c d).
Proof.
  intros Hne Hcr Hsteps. assert (credit st1 so so2 c d) as Hcr1.
  { revert Hcr. induction Hsteps as [|? ? ? Hstep _ IH]; [done|]. intros Hcr. apply IH. by eapply flow_step_credit. }
  split; [done|]. intros E. destruct (unp_rcvd_spec st1 so2 so c d ltac:(done) Hcr1) as (st' & E' & Hset & _). rewrite E in E'. by injection E' as <-.
Qed.
End Stream.
