(* ===== verification/SockWitness.v ===== *)
(** * Sockets the theorems apply to

    A listening socket with two connections in progress, put together by hand; a run of the unix domain
    from an empty state through socket, bind, listen and connect; and runs that show where the
    code parts from what it means to do. *)

From S2P Require Import Prelude Flags Rmap Mbuf MbufThms MbufOps MbufCopy MbufTrim MbufWitness Sockbuf SockbufThms SockbufAddr.
From S2P Require Import SockbufAddr Sock SockThms SockState SockQueue Unp UnpThms.
From stdpp Require Import prelude list numbers strings gmap.
From Stdlib Require Import ZArith Lia.

Local Open Scope Z_scope.
Local Open Scope kern_scope.

(** ** By hand *)

Definition noproc (p : Z) : bool := false.
Definition sock (head q0 q0len q qlen state : Z) : socket :=
  Socket SOCK_STREAM (if head =? 0 then SO_ACCEPTCONN else 0) 0 state 0 unix_stream head q0 q0len q qlen 5 sb0 sb0 0 0 0 0.
Definition hh : Z := 1000.
Definition sa : Z := 1200.
Definition sb : Z := 1400.
(** [hh] listens; [sa] and [sb] are connecting. *)
Definition w0 : sockst rmap unit unpst :=
  Sockst {[hh := sock 0 sa 2 hh 0 SS_NBIO; sa := sock hh sb 0 0 0 (SS_NOFDREF + SS_ISCONNECTING); sb := sock hh hh 0 0 0 (SS_NOFDREF + SS_ISCONNECTING)]}
    p1 (Unpst ∅ ∅ [] ∅ [] [] 0 false) [].

Lemma w0_listening : listening w0 hh [sa; sb] [].
Proof.
  split.
  - discriminate.
  - apply (bool_decide_unpack _). vm_compute. exact I.
  - intros [|]; repeat split.
  - intros q s [= <-]. by destruct q.
  - intros a [->|[->|[]%elem_of_nil]%elem_of_cons]%elem_of_cons; reflexivity.
Qed.

Lemma soisconnected_sound_witness : exists st', soisconnected false noproc sa w0 = Ok st' /\ listening st' hh [sb] [sa].
Proof.
  destruct (soisconnected_sound false noproc w0 sa _ eq_refl) as [_ H].
  destruct (H hh _ [sa; sb] [] w0_listening ltac:(discriminate) eq_refl eq_refl) as [_ H2].
  destruct (H2 [] [sb] eq_refl) as (st' & E & L & _). exists st'. split; [exact E|exact L].
Defined.

(** A protocol that does nothing: every request succeeds. *)
Definition idle : request (M := rmap) (H := unit) (P := unpst) := fun _ _ _ _ _ _ st => Ok (0, st).
#[export] Instance idle_protocol : Protocol base idle.
Proof. split; [intros pr so st _ _; exists 0, st; split; [done|apply undisturbed_refl]|]. intros pr so nam st e st' [= <- <-]. apply undisturbed_refl. Qed.

Lemma accept_newest_first_witness : exists st1 st2 st3, soisconnected false noproc sa w0 = Ok st1 /\
  soisconnected false noproc sb st1 = Ok st2 /\ accept_take idle hh [] st2 = Ok (sb, st3).
Proof.
  destruct (accept_newest_first base pool_base_ok mem idle false noproc w0 hh [sa; sb] [] sa sb [] w0_listening) as (st1 & st2 & st3 & l & E1 & E2 & E3 & _).
  - discriminate.
  - by left.
  - right. by left.
  - reflexivity.
  - intros pr st1 _. exists 0, st1. reflexivity.
  - exists st1, st2, st3. split; [exact E1|]. split; [exact E2|exact E3].
Defined.

Lemma flags_invariant_witness : exists st', soisconnected false noproc sa w0 = Ok st' /\ all_flags_ok st'.
Proof.
  assert (all_flags_ok w0) as H0.
  { intros a s Hs. assert (a ∈ [hh; sa; sb]) as Ha.
    { apply elem_of_dom_2 in Hs. cbn in Hs. set_solver. }
    apply elem_of_cons in Ha as [->|[->|[->|[]%elem_of_nil]%elem_of_cons]%elem_of_cons]; injection Hs as <-; vm_compute; naive_solver. }
  destruct (soisconnected false noproc sa w0) as [st'| |] eqn:E; [|discriminate E..].
  exists st'. split; [reflexivity|]. apply (flags_invariant false noproc w0 st'); [|exact H0]. apply rtc_once. exact (StConnected _ _ _ _ sa E).
Defined.

Lemma cantmore_stays_witness : exists st' s', socantsendmore false noproc sa w0 = Ok st' /\ socks st' !! sa = Some s' /\ has (so_state s') SS_CANTSENDMORE = true /\
  exists st2 s2, soisconnected false noproc sa st' = Ok st2 /\ socks st2 !! sa = Some s2 /\ has (so_state s2) SS_CANTSENDMORE = true.
Proof.
  destruct (socantsendmore false noproc sa w0) as [st'| |] eqn:E; [|discriminate E..]. injection E as <-.
  eexists _, _. split; [reflexivity|]. split; [reflexivity|]. split; [reflexivity|].
  match goal with |- context [soisconnected false noproc sa ?s] => set (st' := s); destruct (soisconnected false noproc sa st') as [st2| |] eqn:E; [|discriminate E..] end.
  destruct (cantmore_stays false noproc st' st2 sa SS_CANTSENDMORE) with (s := set_state 21 (sock hh sb 0 0 0 0)) as (s2 & H1 & H2).
  - left. reflexivity.
  - apply rtc_once. exact (StConnected _ _ _ _ sa E).
  - reflexivity.
  - reflexivity.
  - exists st2, s2. split; [reflexivity|]. split; [exact H1|exact H2].
Defined.

(** ** A run of the unix domain *)

(** Every name is that of vnode 7. *)
Definition anyname (path : list Z) : Z + Z := inr 7.
Definition nodiscard (fp : Z) (st : sockst rmap unit unpst) : res (sockst rmap unit unpst) := Ok st.
Definition usr : request (M := rmap) (H := unit) (P := unpst) := uipc_usrreq false noproc base mem noheap anyname anyname.
Definition u0 : sockst rmap unit unpst := Sockst ∅ p1 (Unpst ∅ ∅ [] ∅ [] (replicate 30 0) 0 false) [].

Definition create (pr : protosw) (st : sockst rmap unit unpst) : res (Z * sockst rmap unit unpst) :=
  '(e, r, st) ← socreate false noproc base mem usr nodiscard (Some pr) true (pr_type pr) st;
  match r with Some so => mret (so, st) | None => Fault end.
(** An mbuf with the address [AF_UNIX] and the name "s". *)
Definition mkname (st : sockst rmap unit unpst) : res (Z * sockst rmap unit unpst) :=
  '(r, mb) ← m_get base mem MT_SONAME (smb st);
  match r with
  | Some a => x ← get_mb a mb; mret (a, set_smb st (set_core (put_mb a (set_len x 3) mb) (store (core mb) (mtod a x) [0; 1; 115])))
  | None => Fault
  end.

(** A server listens on a name, a client connects to it. *)
Definition serve (st : sockst rmap unit unpst) : res (Z * Z * sockst rmap unit unpst) :=
  '(so, st) ← create unix_stream st;
  '(n, st) ← mkname st;
  '(e1, st) ← sobind usr so [n] st;
  '(e2, st) ← solisten usr so 5 st;
  mret (so, n, st).
Definition client (n : Z) (st : sockst rmap unit unpst) : res (Z * Z * sockst rmap unit unpst) :=
  '(c, st) ← create unix_stream st;
  '(e, st) ← soconnect usr c [n] st;
  mret (c, e, st).

Definition u2 : sockst rmap unit unpst := match ('(so, n, st) ← serve u0; client n st) with Ok (_, _, st) => st | _ => u0 end.
Definition server : Z := 1138572.
Definition caller : Z := 1138188.
Definition pending : Z := 1137932.
Definition ppcb : Z := 1137804.

Lemma u2_listening : listening u2 server [] [pending].
Proof.
  split.
  - discriminate.
  - apply (bool_decide_unpack _). vm_compute. exact I.
  - intros [|]; vm_compute; repeat split.
  - intros q s E. assert (qlen q <$> socks u2 !! server = Some (i16 (Z.of_nat (length (sel q [] [pending]))))) as E'.
    { clear. destruct q; vm_compute; reflexivity. }
    rewrite E in E'. injection E' as E'. exact E'.
  - intros a Ha. apply list_elem_of_singleton in Ha. rewrite Ha. clear. vm_compute. reflexivity.
Qed.

Lemma u2_pending : stream_pcb u2 pending ppcb.
Proof.
  split; [discriminate|]. exists (Unpcb pending 0 1138060 0 0 [1137664]). split; [vm_compute; reflexivity|]. split; [reflexivity|].
  split; [vm_compute; reflexivity|]. split; [vm_compute; reflexivity|]. intros _. split; [discriminate|].
  exists (Unpcb caller 0 ppcb 0 0 []). split; [vm_compute; reflexivity|]. apply (fmap_is_Some so_type). exists SOCK_STREAM. vm_compute. reflexivity.
Qed.

Lemma soclose_unix_hangs_witness : abort_queue usr 1000 true server u2 = Fault.
Proof. exact (soclose_unix_hangs base false noproc mem noheap anyname anyname u2 server [] [pending] true pending ppcb [] 1000 u2_listening eq_refl u2_pending). Defined.

(** ** Over the pool with two mbufs in use *)

(** A listening socket in the mbuf [ma]. *)
Definition ls : Z := 1138572.
Definition w1 : sockst rmap unit unpst := Sockst {[ls := sock 0 ls 0 ls 0 SS_NBIO]} p3 (Unpst ∅ ∅ [] ∅ [] [] 0 false) [].
Lemma w1_listening : listening w1 ls [] [].
Proof.
  split; [discriminate|apply NoDup_singleton|by intros [|]| |by intros a ?%elem_of_nil].
  intros q s [= <-]. by destruct q.
Qed.
Lemma w1_housed : housed base w1.
Proof.
  split; [exact p3_wf|]. intros a [s Hs]. cbn in Hs. apply lookup_singleton_Some in Hs as [<- _]. split; [reflexivity|].
  exists xa. split; [exact (proj1 p3_headers)|discriminate].
Qed.
#[local] Instance usr_protocol : Protocol base usr.
Proof. apply unix_protocol. exact pool_base_ok. Qed.
Lemma sonewconn_sound_witness : exists r st', sonewconn base mem usr ls w1 = Ok (r, st') /\ housed base st'.
Proof.
  destruct (sonewconn_sound base pool_base_ok mem usr w1 ls (sock 0 ls 0 ls 0 SS_NBIO) [] [] w1_housed w1_listening eq_refl) as (r & st' & E & Hh & _).
  exists r, st'. split; [exact E|exact Hh].
Defined.

(** A protocol whose abort takes the connection off its queue. *)
Definition polite : request (M := rmap) (H := unit) (P := unpst) := fun _ so req _ _ _ st =>
  if req =? PRU_ABORT then
    '(ok, st) ← soqremque so false st;
    '(_, st) ← (if negb ok then soqremque so true st else Ok (ok, st));
    Ok (0, st)
  else Ok (0, st).
#[export] Instance polite_dequeues : Dequeues polite.
Proof.
  intros pr so st h l0 l1 q rest Hl El. pose proof (ls_nodup _ _ _ _ Hl) as [Hh Hnd]%NoDup_cons.
  assert (so ∈ l0 ++ l1) as Hin by (apply elem_of_app; destruct q; cbn in El; rewrite El; [right|left]; by left).
  assert (so <> h) as Hne by (by intros ->). pose proof (ls_head _ _ _ _ Hl so Hin) as Hso. unfold polite. cbn [Z.eqb PRU_ABORT Pos.eqb].
  destruct (soqremque_spec st h l0 l1 so false Hl Hne Hso) as [F1 F2]. destruct (soqremque_spec st h l0 l1 so true Hl Hne Hso) as [_ T2]. destruct q.
  - rewrite F1; [|intros Hf; cbn in El; rewrite El in Hnd; apply NoDup_app in Hnd as (_ & Hd & _); apply (Hd so Hf); by left].
    kstep. cbn [negb]. destruct (T2 [] rest El) as (st' & -> & _ & L & _). kstep. by exists 0, st'.
  - destruct (F2 [] rest El) as (st' & -> & _ & L & _). kstep. cbn [negb]. kstep. by exists 0, st'.
Qed.
Lemma soclose_aborts_all_witness : exists st', (st ← abort_queue polite 2 false hh w0; abort_queue polite 2 true hh st) = Ok st' /\ listening st' hh [] [].
Proof. exact (soclose_aborts_all polite w0 hh [sa; sb] [] 2 w0_listening ltac:(simpl; lia)). Defined.

(** A pair of stream sockets, nothing sent yet, with the limits of unp_attach. *)
Definition reserved : sockbuf := sbreserve sb0 unp_sendspace.
Definition pair_sock : socket := Socket SOCK_STREAM 0 0 SS_ISCONNECTED 0 unix_stream 0 0 0 0 0 0 reserved reserved 0 0 0 0.
Definition fresh_pair : sockst rmap unit unpst :=
  Sockst {[hh := pair_sock; sa := pair_sock]} p3 (Unpst ∅ ∅ [] ∅ [] [] 0 false) [].
Lemma pair_credit : credit fresh_pair hh sa 4096 8192.
Proof. eexists _, _. split; [reflexivity|]. split; [reflexivity|]. split; reflexivity. Qed.
Lemma reserved_ok : sb_ok base reserved p3.
Proof. split; [split; [constructor|by intros a ?%elem_of_nil]|by split]. Qed.

Lemma unp_send_sound_witness : exists st' s2', unp_send false noproc base hh sa [ma; mb] fresh_pair = Ok st' /\ socks st' !! sa = Some s2' /\ stream (smb st') (sb_mb (so_rcv s2')) = [] ++ stream p3 [ma; mb] /\ settled st' hh sa 4096 8192.
Proof.
  destruct (unp_send_sound base pool_base_ok false noproc fresh_pair hh sa pair_sock [ma; mb] 4096 8192 ltac:(discriminate) pair_credit eq_refl p3_wf reserved_ok p3_chain)
    as (st' & s2' & E & Hset & Hs & _ & _ & Es).
  exists st', s2'. split; [exact E|]. split; [exact Hs|]. split; [exact Es|exact Hset].
Defined.

Lemma stream_credit_conserved_witness : exists st1 st2, unp_send false noproc base hh sa [ma; mb] fresh_pair = Ok st1 /\ unp_rcvd false noproc sa hh st1 = Ok st2 /\ settled st2 hh sa 4096 8192.
Proof.
  destruct (unp_send_spec base pool_base_ok false noproc fresh_pair hh sa pair_sock [ma; mb] 4096 8192 ltac:(discriminate) pair_credit eq_refl p3_wf reserved_ok p3_chain)
    as (st1 & s2' & E & Hset & _).
  destruct (unp_rcvd_spec false noproc st1 sa hh 4096 8192 ltac:(discriminate) (settled_credit _ _ _ _ _ Hset)) as (st2 & E2 & _).
  exists st1, st2. split; [exact E|]. split; [exact E2|].
  apply (stream_credit_conserved base pool_base_ok false noproc hh sa fresh_pair st1 st2 4096 8192 ltac:(discriminate) pair_credit); [|exact E2].
  apply rtc_once. exact (FlowSend base false noproc hh sa fresh_pair st1 [ma; mb] pair_sock eq_refl p3_wf reserved_ok p3_chain E).
Defined.

(** ** Runs *)

(** The server is closed before its caller connects; its name still leads to the socket that was freed. *)
Example connect_after_close :
  ('(so, n, st) ← serve u0;
   '(c, st) ← create unix_stream st;
   '(r, st) ← soclose false noproc base usr nodiscard 10 0 so st;
   mret (bool_decide (socks st !! so = None), (vnodes (spcb st) !! 7) ≫= (fun v => Some (bool_decide (v.2 = so))), soconnect usr c [n] st))
  ≫= (fun '(gone, name, r) => mret (gone, name, match r with Fault => true | _ => false end)) = Ok (true, Some true, true).
Proof. vm_compute. reflexivity. Qed.

(** soclose of a socket that was never connected returns what its local happened to hold. *)
Example soclose_returns_junk :
  ('(so, st) ← create unix_stream u0; '(r, st) ← soclose false noproc base usr nodiscard 10 12345 so st; mret r) = Ok (Done 12345).
Proof. vm_compute. reflexivity. Qed.

(** A datagram of 100 bytes to a buffer with room for 60: the send succeeds, nothing is received, and the
    mbuf is neither in the buffer nor free. *)
Definition a_datagram (st : sockst rmap unit unpst) : res (Z * sockst rmap unit unpst) :=
  '(a, mb) ← fill 1000 100 (smb st); mret (a, set_smb st mb).
Example unp_send_loses_datagram :
  ('(so, st) ← create unix_dgram u0;
   '(so2, st) ← create unix_dgram st;
   '(e1, st) ← soconnect2 usr so so2 st;
   st ← upd_so so2 (fun s => set_rcv (with_limits (so_rcv s) 60 120) s) st;
   '(m, st) ← a_datagram st;
   '(e, st) ← req usr so PRU_SEND [m] (Nam []) [] st;
   x ← get_mb m (smb st);
   s2 ← get_so so2 st;
   mret (e, sb_mb (so_rcv s2), m_type x, bool_decide (m ∈ mfree (smb st)))) = Ok (0, [], MT_DATA, false).
Proof. vm_compute. reflexivity. Qed.

(** A datagram to a name, with a descriptor that is not open for rights: EBADF, and the socket stays connected, so that
    the next datagram to a name is refused with EISCONN. *)
Example bad_rights_stay_connected :
  ('(so2, st) ← create unix_dgram u0;
   '(n, st) ← mkname st;
   '(_, st) ← sobind usr so2 [n] st;
   '(so, st) ← create unix_dgram st;
   '(m, st) ← a_datagram st;
   '(r, st) ← a_datagram st;
   x ← get_mb r (smb st);
   let st := set_smb st (set_core (put_mb r (set_len x 4) (smb st)) (store (core (smb st)) (mtod r x) [0; 0; 0; 9])) in
   '(e, st) ← req usr so PRU_SEND [m] (Nam [n]) [r] st;
   '(m2, st) ← a_datagram st;
   '(e2, st) ← req usr so PRU_SEND [m2] (Nam [n]) [] st;
   mret (e, e2)) = Ok (EBADF, EISCONN).
Proof. vm_compute. reflexivity. Qed.

(** The two sockets of a pair of datagram sockets: the first can send to the second, not the second to the first. *)
Example dgram_pair_one_way :
  ('(so, st) ← create unix_dgram u0;
   '(so2, st) ← create unix_dgram st;
   '(e, st) ← soconnect2 usr so so2 st;
   '(m, st) ← a_datagram st;
   '(e1, st) ← req usr so PRU_SEND [m] (Nam []) [] st;
   '(m2, st) ← a_datagram st;
   '(e2, st) ← req usr so2 PRU_SEND [m2] (Nam []) [] st;
   mret (e, e1, e2)) = Ok (0, 0, ENOTCONN).
Proof. vm_compute. reflexivity. Qed.
