(* ===== verification/UnpGc.v ===== *)
(** * Files in flight: what the collector marks

    Descriptors sent and not yet received are counted in [f_msgcount]; a file all of whose references
    are in flight can be reached only by receiving them.  The collector of [sys/uipc_usrreq.c]
    marks from the files some process has open, through the rights queued on their sockets, and
    shuts the sockets that are left.  The reference definition is reachability. *)

From S2P Require Import Prelude Flags Rmap Mbuf MbufThms Sockbuf Sock Unp.
From stdpp Require Import prelude list numbers strings gmap relations.
From Stdlib Require Import ZArith Lia.

Local Open Scope Z_scope.
Local Open Scope kern_scope.

(** The words of a piece of memory. *)
Fixpoint words (n : nat) (rp : Z) (c : Z -> Z) : list Z :=
  match n with O => [] | S n => field c rp 4 :: words n (rp + 4) c end.

Section Gc.
Context {M H : Type} `{RM : !ResMap M}.
Implicit Type st : sockst M H unpst.

(** ** The collector *)

Definition add_defer (d : Z) st : sockst M H unpst := set_gc st (unp_defer (spcb st) + d) (unp_gcing (spcb st)).

Definition unp_mark (fp : Z) st : res (sockst M H unpst) :=
  f ← get_file fp st;
  if has (f_flag f) FMARK then mret st
  else mret (put_file fp (set_fflag (with_bits (f_flag f) (Z.lor FMARK FDEFER)) f) (add_defer 1 st)).

(** The rights queued on the socket of a file: a sleep when its buffer is locked. *)
Definition gc_scan (f : file) st : res (slept unit * sockst M H unpst) :=
  if negb (f_type f =? DTYPE_SOCKET) then mret (Done tt, st)
  else
    so ← get_so (f_data f) st;
    if negb (pr_family (so_proto so) =? AF_UNIX) || negb (has (pr_flags (so_proto so)) PR_ADDR) then mret (Done tt, st)
    else if flagged (so_rcv so) SB_LOCK then
      let '(sb, c) := sbwait (so_rcv so) in
      let st := put_so (f_data f) (set_rcv sb so) st in
      mret (match c with Some c => Asleep (OnSb (f_data f) true c) | None => Done tt end, st)
    else st ← unp_scan (S (length (sb_mb (so_rcv so)))) unp_mark (sb_mb (so_rcv so)) st; mret (Done tt, st).

Definition gc_file (fp : Z) st : res (slept unit * sockst M H unpst) :=
  f ← get_file fp st;
  if f_count f =? 0 then mret (Done tt, st)
  else if has (f_flag f) FDEFER then
    gc_scan f (add_defer (-1) (put_file fp (set_fflag (without (f_flag f) FDEFER) f) st))
  else if has (f_flag f) FMARK then mret (Done tt, st)
  else if f_count f =? f_msgcount f then mret (Done tt, st)
  else gc_scan f (put_file fp (set_fflag (with_bits (f_flag f) FMARK) f) st).

(** One pass over the table of files; the passes, while any file is deferred. *)
Fixpoint gc_pass (l : list Z) st : res (slept unit * sockst M H unpst) :=
  match l with
  | [] => mret (Done tt, st)
  | fp :: l => '(r, st) ← gc_file fp st; match r with Done _ => gc_pass l st | Asleep c => mret (Asleep c, st) end
  end.
Fixpoint gc_marking (fuel : nat) st : res (slept unit * sockst M H unpst) :=
  match fuel with
  | O => Fault
  | S fuel =>
      '(r, st) ← gc_pass (ftab (spcb st)) st;
      match r with
      | Asleep c => mret (Asleep c, st)
      | Done _ => if unp_defer (spcb st) =? 0 then mret (Done tt, st) else gc_marking fuel st
      end
  end.

Fixpoint gc_clear (l : list Z) st : res (sockst M H unpst) :=
  match l with
  | [] => mret st
  | fp :: l => st ← upd_file fp (fun f => set_fflag (without (f_flag f) (Z.lor FMARK FDEFER)) f) st; gc_clear l st
  end.

Definition gc_mark st : res (slept unit * sockst M H unpst) :=
  st ← gc_clear (ftab (spcb st)) st;
  gc_marking (S (2 * length (ftab (spcb st)))) st.

End Gc.

Section Sweep.
Context {M H : Type} `{RM : !ResMap M}.
Context (nfsd : bool) (alive : Z -> bool) (mbutl : Z) (memall : Z -> Z -> bool) (kalloc : Z -> H -> res (Z * H)).
Context (vn_create lookupname : list Z -> Z + Z) (closef : Z -> sockst M H unpst -> res (sockst M H unpst)).
Implicit Type st : sockst M H unpst.

(** The sockets no mark has reached are shut for reading. *)
Fixpoint gc_sweep (l : list Z) st : res (slept unit * sockst M H unpst) :=
  match l with
  | [] => mret (Done tt, st)
  | fp :: l =>
      f ← get_file fp st;
      if f_count f =? 0 then gc_sweep l st
      else if (f_count f =? f_msgcount f) && negb (has (f_flag f) FMARK) then
        if negb (f_type f =? DTYPE_SOCKET) then Panic "unp_gc"
        else
          '(r, st) ← soshutdown nfsd alive mbutl (uipc_usrreq nfsd alive mbutl memall kalloc vn_create lookupname) (unp_discard closef) (f_data f) 0 st;
          match r with Done _ => gc_sweep l st | Asleep c => mret (Asleep c, st) end
      else gc_sweep l st
  end.

(** From [restart] on. *)
Definition gc_restart st : res (slept unit * sockst M H unpst) :=
  '(r, st) ← gc_mark (set_gc st 0 true);
  match r with
  | Asleep c => mret (Asleep c, st)
  | Done _ =>
      '(r, st) ← gc_sweep (ftab (spcb st)) st;
      match r with
      | Asleep c => mret (Asleep c, st)
      | Done _ => mret (Done tt, set_gc st (unp_defer (spcb st)) false)
      end
  end.
Definition unp_gc st : res (slept unit * sockst M H unpst) :=
  if unp_gcing (spcb st) then mret (Done tt, st) else gc_restart st.

End Sweep.

Section Marks.
Context {M H : Type} `{RM : !ResMap M}.
Implicit Type st : sockst M H unpst.

(** ** Reachability *)

(** The rights queued in a buffer, as unp_scan() goes through them. *)
Fixpoint queued (fuel : nat) (m : list Z) st : res (list Z) :=
  match fuel with
  | O => Fault
  | S fuel =>
      match m with
      | [] => mret []
      | _ :: [] => Panic "unp_gcscan"
      | _ :: ((r :: _) as m') =>
          x ← get_mb r (smb st);
          m ← scan_skip m' st;
          l ← queued fuel m st;
          mret (words (Z.to_nat (m_len x / 4)) (mtod r x) (core (smb st)) ++ l)
      end
  end.

Definition carries (so : socket) : bool := (pr_family (so_proto so) =? AF_UNIX) && has (pr_flags (so_proto so)) PR_ADDR.
(** The files a file leads to. *)
Definition held st (f : file) : list Z :=
  if f_type f =? DTYPE_SOCKET then
    match socks st !! f_data f with
    | Some so => if carries so then match queued (S (length (sb_mb (so_rcv so)))) (sb_mb (so_rcv so)) st with Ok l => l | _ => [] end else []
    | None => []
    end
  else [].
Definition refers st (a b : Z) : Prop := exists f, files (spcb st) !! a = Some f /\ b ∈ held st f.
(** Some process has it open: not all its references are in flight. *)
Definition root st (a : Z) : Prop := a ∈ ftab (spcb st) /\ exists f, files (spcb st) !! a = Some f /\ f_count f <> 0 /\ f_count f <> f_msgcount f.
Definition reachable st (a : Z) : Prop := exists r, root st r /\ rtc (refers st) r a.

Definition in_table st (a : Z) : Prop := a ∈ ftab (spcb st) /\ exists f, files (spcb st) !! a = Some f /\ f_count f <> 0.
(** The table holds each file once; the queues of rights are well formed and hold files in use; no
    buffer is locked. *)
Record gc_ok st : Prop := {
  gc_nodup : NoDup (ftab (spcb st));
  gc_files a : a ∈ ftab (spcb st) -> is_Some (files (spcb st) !! a);
  gc_sockets a f : files (spcb st) !! a = Some f -> a ∈ ftab (spcb st) -> f_count f <> 0 -> f_type f = DTYPE_SOCKET ->
    exists so, socks st !! f_data f = Some so /\ (carries so = true -> flagged (so_rcv so) SB_LOCK = false /\
      exists l, queued (S (length (sb_mb (so_rcv so)))) (sb_mb (so_rcv so)) st = Ok l /\ Forall (in_table st) l)
}.

(** ** Painting *)

Definition paint (W G : gset Z) (a : Z) (f : file) : file :=
  set_fflag (with_bits (with_bits (f_flag f) (if decide (a ∈ W) then FMARK else 0)) (if decide (a ∈ G) then FDEFER else 0)) f.
(** [st] with the files of [W] marked, those of [G] deferred. *)
Definition repaint st (W G : gset Z) : sockst M H unpst :=
  set_gc (set_files st (map_imap (fun a f => Some (paint W G a f)) (files (spcb st))) (ofile (spcb st))) (Z.of_nat (size G)) (unp_gcing (spcb st)).

(** A state in which no file is marked. *)
Definition blank st : Prop := forall a f, files (spcb st) !! a = Some f -> a ∈ ftab (spcb st) -> has (f_flag f) FMARK = false /\ has (f_flag f) FDEFER = false.

Lemma paint_flags W G a f : has (f_flag f) FMARK = false -> has (f_flag f) FDEFER = false ->
  has (f_flag (paint W G a f)) FMARK = bool_decide (a ∈ W) /\ has (f_flag (paint W G a f)) FDEFER = bool_decide (a ∈ G).
Proof.
  intros E1 E2. unfold paint, FMARK, FDEFER in *. cbn [f_flag set_fflag]. destruct (decide (a ∈ W)), (decide (a ∈ G)); flags; rewrite ?E1, ?E2;
    split; symmetry; rewrite ?bool_decide_eq_true, ?bool_decide_eq_false; done.
Qed.
Lemma paint_with W G a f : paint W G a f = set_fflag (f_flag (paint W G a f)) f.
Proof. done. Qed.
Lemma bits_eq x y : (forall k, 0 <= k -> Z.testbit x k = Z.testbit y k) -> x = y.
Proof. intros E. by apply Z.bits_inj'. Qed.
Lemma set_fflag_twice x y f : set_fflag x (set_fflag y f) = set_fflag x f.
Proof. done. Qed.

Lemma repaint_get st W G a f : files (spcb st) !! a = Some f -> get_file a (repaint st W G) = Ok (paint W G a f).
Proof. intros E. unfold get_file, repaint. cbn. by rewrite map_lookup_imap, E. Qed.

(** Painting one more file. *)
Lemma repaint_put st W G W' G' a f f' : files (spcb st) !! a = Some f -> f' = paint W' G' a f ->
  (forall b, b <> a -> (b ∈ W' <-> b ∈ W) /\ (b ∈ G' <-> b ∈ G)) ->
  put_file a f' (set_gc (repaint st W G) (Z.of_nat (size G')) (unp_gcing (spcb st))) = repaint st W' G'.
Proof.
  intros E -> Hb. unfold put_file, repaint, set_files, set_gc. cbn in *. do 2 f_equal.
  apply map_eq. intros b. rewrite map_lookup_imap. destruct (decide (b = a)) as [->|Hn].
  - by rewrite lookup_insert_eq, E.
  - rewrite lookup_insert_ne, map_lookup_imap by done. destruct (files (spcb st) !! b) as [g|]; cbn; [|done]. f_equal. unfold paint.
    destruct (Hb b Hn) as [[] []]. do 3 f_equal; [f_equal|]; repeat destruct decide; tauto.
Qed.

Lemma mark_repaint st W G a f : blank st -> files (spcb st) !! a = Some f -> a ∈ ftab (spcb st) -> G ⊆ W ->
  unp_mark a (repaint st W G) = Ok (if decide (a ∈ W) then repaint st W G else repaint st ({[a]} ∪ W) ({[a]} ∪ G)).
Proof.
  intros Hb E Ha HG. unfold unp_mark. rewrite (repaint_get _ _ _ _ _ E). kstep. destruct (Hb a f E Ha) as [E1 E2].
  rewrite (proj1 (paint_flags W G a f E1 E2)). destruct (decide (a ∈ W)) as [Hw|Hw].
  - by rewrite bool_decide_eq_true_2.
  - rewrite bool_decide_eq_false_2 by done. f_equal. assert (a ∉ G) as Hg by (intros ?; by apply Hw, HG).
    rewrite <- (repaint_put st W G ({[a]} ∪ W) ({[a]} ∪ G) a f _ E eq_refl) by (intros b ?; rewrite !elem_of_union, !elem_of_singleton; tauto).
    unfold add_defer. rewrite size_union by (intros b ->%elem_of_singleton; done). rewrite size_singleton.
    replace (Z.of_nat (1 + size G)) with (unp_defer (spcb (repaint st W G)) + 1) by (cbn; lia). f_equal.
    unfold paint. rewrite !decide_False, !decide_True by (done || apply elem_of_union_l; by apply elem_of_singleton).
    cbn [f_flag set_fflag]. unfold set_fflag; cbn. f_equal. unfold FMARK, FDEFER, with_bits. rewrite !Z.lor_0_r. by rewrite <- Z.lor_assoc.
Qed.

Lemma defer_repaint st W G a f : blank st -> files (spcb st) !! a = Some f -> a ∈ ftab (spcb st) -> a ∈ G ->
  add_defer (-1) (put_file a (set_fflag (without (f_flag (paint W G a f)) FDEFER) (paint W G a f)) (repaint st W G)) = repaint st W (G ∖ {[a]}).
Proof.
  intros Hb E Ha HG. rewrite <- (repaint_put st W G W (G ∖ {[a]}) a f _ E eq_refl) by (intros b ?; rewrite elem_of_difference, elem_of_singleton; tauto).
  destruct (Hb a f E Ha) as [E1 E2].
  replace (set_fflag _ _) with (paint W (G ∖ {[a]}) a f).
  - unfold add_defer, put_file, set_files, set_gc. cbn. do 2 f_equal. rewrite size_difference by (by intros b ->%elem_of_singleton).
    rewrite size_singleton. assert (size G <> 0%nat) by (intros ?%size_empty_inv; set_solver). lia.
  - unfold paint. rewrite (decide_False (P := a ∈ G ∖ {[a]})) by (rewrite elem_of_difference, elem_of_singleton; tauto). rewrite (decide_True (P := a ∈ G)) by done.
    unfold set_fflag. cbn. f_equal. apply bits_eq. intros k Hk. unfold FMARK, FDEFER in *. push_bits.
    rewrite Z.bits_0, orb_false_r. change 32 with (2 ^ 5). rewrite Z.pow2_bits_eqb by lia.
    change 32 with (2 ^ 5) in E2. rewrite has_bit in E2 by lia.
    destruct (Z.eqb_spec 5 k) as [<-|]; cbn [orb andb negb]; [|by rewrite orb_false_r, andb_true_r]. rewrite E2. by destruct (decide (a ∈ W)).
Qed.

Lemma root_repaint st W G a f : blank st -> files (spcb st) !! a = Some f -> a ∈ ftab (spcb st) -> a ∉ W -> a ∉ G ->
  put_file a (set_fflag (with_bits (f_flag (paint W G a f)) FMARK) (paint W G a f)) (repaint st W G) = repaint st ({[a]} ∪ W) G.
Proof.
  intros Hb E Ha Hw Hg. rewrite <- (repaint_put st W G ({[a]} ∪ W) G a f _ E eq_refl) by (intros b ?; rewrite elem_of_union, elem_of_singleton; tauto).
  f_equal. unfold paint. rewrite !(decide_False (P := a ∈ G)), (decide_False (P := a ∈ W)), decide_True by (done || apply elem_of_union_l; by apply elem_of_singleton).
  unfold set_fflag. cbn. f_equal. unfold with_bits. by rewrite !Z.lor_0_r.
Qed.

(** ** A scan marks what the file holds *)

Definition marked (W : gset Z) (l : list Z) : gset Z := list_to_set l ∪ W.
Definition deferred (W G : gset Z) (l : list Z) : gset Z := (list_to_set l ∖ W) ∪ G.

Lemma elem_of_marked W l x : x ∈ marked W l <-> x ∈ l \/ x ∈ W.
Proof. unfold marked. by rewrite elem_of_union, elem_of_list_to_set. Qed.
Lemma elem_of_deferred W G l x : x ∈ deferred W G l <-> (x ∈ l /\ x ∉ W) \/ x ∈ G.
Proof. unfold deferred. by rewrite elem_of_union, elem_of_difference, elem_of_list_to_set. Qed.
Lemma marked_app W l1 l2 : marked (marked W l1) l2 = marked W (l1 ++ l2).
Proof. apply set_eq. intros x. unfold marked. rewrite list_to_set_app_L, !elem_of_union. tauto. Qed.
Lemma deferred_app W G l1 l2 : deferred (marked W l1) (deferred W G l1) l2 = deferred W G (l1 ++ l2).
Proof.
  apply set_eq. intros x. unfold deferred, marked. rewrite list_to_set_app_L, !elem_of_union, !elem_of_difference, !elem_of_union.
  destruct (decide (x ∈@{gset Z} list_to_set l1)), (decide (x ∈ W)); tauto.
Qed.
Lemma marked_subset W G l : G ⊆ W -> deferred W G l ⊆ marked W l.
Proof. intros HG x. unfold deferred, marked. rewrite !elem_of_union, elem_of_difference. intros [[]|]; auto. Qed.

Fixpoint each {S A} (op : A -> S -> res S) (l : list A) (s : S) : res S :=
  match l with [] => mret s | a :: l => s ← op a s; each op l s end.
Lemma each_app {S A} (op : A -> S -> res S) l1 l2 s : each op (l1 ++ l2) s = (s ← each op l1 s; each op l2 s).
Proof. revert s. induction l1 as [|a l1 IH]; intros s; [done|]. cbn. destruct (op a s); cbn; [apply IH|done..]. Qed.

Lemma marks_repaint st W G l : blank st -> Forall (in_table st) l -> G ⊆ W ->
  each unp_mark l (repaint st W G) = Ok (repaint st (marked W l) (deferred W G l)).
Proof.
  intros Hb Hl. revert W G. induction Hl as [|a l (Ha & f & E & _) _ IH]; intros W G HG; cbn.
  - f_equal. unfold marked, deferred. cbn. f_equal; apply set_eq; intros x; rewrite ?elem_of_union, ?elem_of_difference, elem_of_empty; tauto.
  - rewrite (mark_repaint st W G a f) by done. kstep. change (a :: l) with ([a] ++ l). rewrite <- marked_app, <- deferred_app.
    assert (marked W [a] = {[a]} ∪ W) as -> by (unfold marked; cbn; by rewrite union_empty_r_L).
    destruct (decide (a ∈ W)) as [Hw|Hw].
    + replace ({[a]} ∪ W) with W by (apply set_eq; intros x; rewrite elem_of_union, elem_of_singleton; split; [tauto|by intros [->|]]).
      replace (deferred W G [a]) with G; [by apply IH|]. apply set_eq. intros x. unfold deferred. cbn.
      rewrite elem_of_union, elem_of_difference, elem_of_union, elem_of_singleton, elem_of_empty. split; [tauto|]. intros [[[->|[]] ?]|]; done.
    + replace (deferred W G [a]) with ({[a]} ∪ G); [apply IH|]; [intros x; rewrite !elem_of_union; intros [|]; auto|].
      apply set_eq. intros x. unfold deferred. cbn.
      rewrite !elem_of_union, elem_of_difference, elem_of_union, elem_of_singleton, elem_of_empty. split; [|tauto]. intros [->|]; auto.
Qed.

Lemma scan_rights_repaint n : forall rp st W G, blank st -> Forall (in_table st) (words n rp (core (smb st))) -> G ⊆ W ->
  scan_rights unp_mark n rp (repaint st W G) = Ok (repaint st (marked W (words n rp (core (smb st)))) (deferred W G (words n rp (core (smb st))))).
Proof.
  intros rp st W G Hb Hl HG. rewrite <- marks_repaint by done. revert rp W G HG Hl. induction n as [|n IH]; intros rp W G HG Hl; [done|].
  cbn [scan_rights words each]. apply Forall_cons in Hl as [(Ha & f & E & ?) Hl].
  change (field (core (smb (repaint st W G))) rp 4) with (field (core (smb st)) rp 4). rewrite (mark_repaint st W G _ f) by done. kstep.
  destruct decide; apply IH; auto. intros x. rewrite !elem_of_union. intros []; auto.
Qed.

Lemma scan_skip_repaint m : forall st W G, scan_skip m (repaint st W G) = scan_skip m st.
Proof. induction m as [|a [|b m] IH]; intros st W G; [done..|]. cbn [scan_skip]. unfold get_mb. cbn. destruct (mbs (smb st) !! b); cbn; [|done]. destruct (m_act _ =? 0); [apply IH|done]. Qed.

Lemma unp_scan_repaint fuel : forall m st W G l, blank st -> queued fuel m st = Ok l -> Forall (in_table st) l -> G ⊆ W ->
  unp_scan fuel unp_mark m (repaint st W G) = Ok (repaint st (marked W l) (deferred W G l)).
Proof.
  induction fuel as [|fuel IH]; intros m st W G l Hb Hq Hl HG; [done|]. destruct m as [|a [|r m]]; cbn [queued] in Hq; [|done|].
  - injection Hq as <-. cbn. f_equal. unfold marked, deferred. cbn. f_equal; apply set_eq; intros x; rewrite ?elem_of_union, ?elem_of_difference, elem_of_empty; tauto.
  - cbn [unp_scan]. change (smb (repaint st W G)) with (smb st). destruct (get_mb r (smb st)) as [x| |] eqn:Ex; [|done..]. cbn [mbind res_bind mret res_ret] in Hq. kstep.
    destruct (scan_skip (r :: m) st) as [m2| |] eqn:Em; [|done..]. cbn [mbind res_bind mret res_ret] in Hq. destruct (queued fuel m2 st) as [l2| |] eqn:Eq; [|done..]. cbn [mbind res_bind mret res_ret] in Hq. injection Hq as <-.
    set (w := words _ _ _) in *. apply Forall_app in Hl as [Hw Hl2].
    assert ((if m_len x =? 0 then mret (repaint st W G) else scan_rights unp_mark (Z.to_nat (m_len x / 4)) (mtod r x) (repaint st W G)) =
      Ok (repaint st (marked W w) (deferred W G w))) as ->.
    { subst w. rewrite <- scan_rights_repaint by done. destruct (Z.eqb_spec (m_len x) 0) as [->|]; done. }
    kstep. rewrite scan_skip_repaint, Em. kstep. rewrite <- marked_app, <- deferred_app. by apply IH; [..|apply marked_subset].
Qed.

(** ** One file, one pass *)

Lemma gc_scan_repaint st W G a f f' : blank st -> gc_ok st -> files (spcb st) !! a = Some f -> a ∈ ftab (spcb st) -> f_count f <> 0 -> G ⊆ W ->
  f_type f' = f_type f -> f_data f' = f_data f ->
  gc_scan f' (repaint st W G) = Ok (Done tt, repaint st (marked W (held st f)) (deferred W G (held st f))).
Proof.
  intros Hb Hok E Ha Hc HG Et Ed. unfold gc_scan, held. rewrite Et, Ed.
  assert (forall W G, repaint st (marked W []) (deferred W G []) = repaint st W G) as Hnil.
  { intros W0 G0. unfold marked, deferred. cbn. f_equal; apply set_eq; intros x; rewrite ?elem_of_union, ?elem_of_difference, elem_of_empty; tauto. }
  destruct (Z.eqb_spec (f_type f) DTYPE_SOCKET) as [Hs|]; cbn [negb]; [|by rewrite Hnil].
  destruct (gc_sockets st Hok a f E Ha Hc Hs) as (so & Eso & Hq). unfold get_so. change (socks (repaint st W G)) with (socks st). rewrite Eso. kstep.
  unfold carries in *. destruct (pr_family (so_proto so) =? AF_UNIX), (has (pr_flags (so_proto so)) PR_ADDR); cbn [negb orb andb] in *; rewrite ?Hnil; try done.
  destruct (Hq eq_refl) as (-> & l & El & Hl). rewrite El, (unp_scan_repaint _ _ _ _ _ l) by done. done.
Qed.

Section Reach.
Context st (Hb : blank st) (Hok : gc_ok st).

Lemma held_table a f : files (spcb st) !! a = Some f -> a ∈ ftab (spcb st) -> f_count f <> 0 -> Forall (in_table st) (held st f).
Proof.
  intros E Ha Hc. unfold held. destruct (Z.eqb_spec (f_type f) DTYPE_SOCKET) as [Hs|]; [|done].
  destruct (gc_sockets st Hok a f E Ha Hc Hs) as (so & -> & Hq). destruct (carries so); [|done]. destruct (Hq eq_refl) as (_ & l & -> & Hl). done.
Qed.

(** What is marked is reachable; what is marked and no longer deferred has all it leads to marked,
    but for the files of [X]. *)
Record painted (X W G : gset Z) : Prop := {
  pt_sub : G ⊆ W;
  pt_reach a : a ∈ W -> in_table st a /\ reachable st a;
  pt_closed a b : a ∈ W -> a ∉ G -> a ∉ X -> refers st a b -> b ∈ W
}.
Definition weight (W G : gset Z) : Z := 2 * (Z.of_nat (length (ftab (spcb st))) - Z.of_nat (size W)) + Z.of_nat (size G).

Lemma weight_nonneg X W G : painted X W G -> Z.of_nat (size G) <= weight W G.
Proof.
  intros HP. unfold weight. enough (size W <= length (ftab (spcb st)))%nat by lia.
  rewrite <- (size_list_to_set (C := gset Z) (ftab (spcb st))) by apply Hok. apply subseteq_size. intros x Hx%(pt_reach _ _ _ HP).
  apply elem_of_list_to_set, Hx.
Qed.

Lemma weight_scan W G l : G ⊆ W -> weight (marked W l) (deferred W G l) <= weight W G.
Proof.
  intros HG. unfold weight, marked, deferred. set (L := list_to_set l : gset Z).
  replace (L ∪ W) with ((L ∖ W) ∪ W) by (apply set_eq; intros x; rewrite !elem_of_union, elem_of_difference; destruct (decide (x ∈ W)); tauto).
  rewrite (size_union (L ∖ W) W), (size_union (L ∖ W) G); [lia|intros x [_ ?]%elem_of_difference; auto..].
Qed.

(** Scanning a marked file. *)
Lemma scan_painted W G a f : painted {[a]} W G -> a ∈ W -> files (spcb st) !! a = Some f -> painted ∅ (marked W (held st f)) (deferred W G (held st f)).
Proof.
  intros [HG HR HC] Ha E. destruct (HR a Ha) as [(Ht & g & Eg & Hc) (r & Hr & Hra)]. rewrite E in Eg. injection Eg as <-.
  split.
  - by apply marked_subset.
  - intros b [Hl|]%elem_of_marked; [|auto]. split; [by eapply Forall_forall; [apply (held_table a f)|]|].
    exists r. split; [done|]. eapply rtc_r; [done|]. by exists f.
  - intros x y Hx HxG _ Hxy. rewrite elem_of_deferred in HxG.
    assert (x ∈ W) as HxW. { destruct (decide (x ∈ W)); [done|]. apply elem_of_marked in Hx as [|]; tauto. }
    apply elem_of_marked. destruct (decide (x = a)) as [->|Hn].
    + left. destruct Hxy as (g & Eg & Hy). rewrite E in Eg. injection Eg as <-. done.
    + right. apply (HC x y); [tauto..| |done]. by rewrite elem_of_singleton.
Qed.

Lemma gc_file_painted W G a : painted ∅ W G -> a ∈ ftab (spcb st) -> exists W' G',
  gc_file a (repaint st W G) = Ok (Done tt, repaint st W' G') /\ painted ∅ W' G' /\ W ⊆ W' /\ G ∖ {[a]} ⊆ G' /\
  (root st a -> a ∈ W') /\ weight W' G' <= weight W G /\ (a ∈ G -> weight W' G' < weight W G).
Proof.
  intros HP Ha. pose proof (pt_sub _ _ _ HP) as HG. destruct (gc_files st Hok a Ha) as [f E]. unfold gc_file. rewrite (repaint_get _ _ _ _ _ E). kstep.
  change (f_count (paint W G a f)) with (f_count f). change (f_msgcount (paint W G a f)) with (f_msgcount f).
  destruct (Hb a f E Ha) as [E1 E2]. destruct (paint_flags W G a f E1 E2) as [-> ->].
  assert ((root st a -> a ∈ W) -> a ∉ G -> exists W' G', mret (Done tt, repaint st W G) = Ok (Done tt, repaint st W' G') /\
    painted ∅ W' G' /\ W ⊆ W' /\ G ∖ {[a]} ⊆ G' /\ (root st a -> a ∈ W') /\ weight W' G' <= weight W G /\ (a ∈ G -> weight W' G' < weight W G)) as Hsame.
  { intros Hr Hg. exists W, G. split_and!; [done..|by intros x [? _]%elem_of_difference|done|lia|done]. }
  destruct (Z.eqb_spec (f_count f) 0) as [Hc|Hc].
  { apply Hsame; [intros (_ & g & Eg & Hg & _)|intros Hg]; [congruence|]. destruct (pt_reach _ _ _ HP a (HG a Hg)) as [(_ & g & Eg & ?) _]. congruence. }
  destruct (decide (a ∈ G)) as [Hg|Hg].
  - rewrite bool_decide_eq_true_2 by done. rewrite defer_repaint by done.
    assert (painted {[a]} W (G ∖ {[a]})) as HP'.
    { destruct HP as [? HR HC]. split; [intros x [? _]%elem_of_difference; auto|done|]. intros x y Hx Hx1 Hx2. apply HC; [done| |apply not_elem_of_empty].
      rewrite elem_of_difference in Hx1. tauto. }
    pose proof (pt_sub _ _ _ HP') as HS'. rewrite (gc_scan_repaint st W (G ∖ {[a]}) a f) by done. eexists _, _. split; [done|].
    pose proof (weight_scan W (G ∖ {[a]}) (held st f) HS').
    assert (weight W (G ∖ {[a]}) < weight W G).
    { unfold weight. rewrite size_difference by (by intros x ->%elem_of_singleton). rewrite size_singleton.
      assert (size G <> 0%nat) by (intros Hz%size_empty_inv; by apply Hz, elem_of_empty in Hg). lia. }
    split_and!; [by apply (scan_painted W _ a f HP'); [apply HG|]|by intros ? ?; apply elem_of_marked; right|by intros ? ?; apply elem_of_deferred; right| |lia|lia].
    intros _. apply elem_of_marked. auto.
  - rewrite bool_decide_eq_false_2 by done. destruct (decide (a ∈ W)) as [Hw|Hw].
    { rewrite bool_decide_eq_true_2 by done. by apply Hsame. }
    rewrite bool_decide_eq_false_2 by done. destruct (Z.eqb_spec (f_count f) (f_msgcount f)) as [Hm|Hm].
    { apply Hsame; [|done]. intros (_ & g & Eg & _ & ?). congruence. }
    rewrite root_repaint by done.
    assert (painted {[a]} ({[a]} ∪ W) G) as HP'.
    { destruct HP as [? HR HC]. split; [intros x ?; apply elem_of_union_r; auto| |].
      - intros x [->%elem_of_singleton|]%elem_of_union; [|auto]. split; [split; eauto|]. exists a. split; [split; eauto|done].
      - intros x y [->%elem_of_singleton|]%elem_of_union Hx1 Hx2 Hxy; [by rewrite elem_of_singleton in Hx2|]. apply elem_of_union_r. eapply HC; eauto. apply not_elem_of_empty. }
    pose proof (pt_sub _ _ _ HP') as HS'. rewrite (gc_scan_repaint st ({[a]} ∪ W) G a f) by done. eexists _, _. split; [done|].
    pose proof (weight_scan ({[a]} ∪ W) G (held st f) HS').
    assert (weight ({[a]} ∪ W) G <= weight W G).
    { unfold weight. rewrite size_union by (by intros x ->%elem_of_singleton). lia. }
    split_and!; [|by intros ? ?; apply elem_of_marked; right; apply elem_of_union_r|by intros ? [? _]%elem_of_difference; apply elem_of_deferred; right| |lia|done].
    + apply (scan_painted ({[a]} ∪ W) G a f HP'); [|done]. by apply elem_of_union_l, elem_of_singleton.
    + intros _. apply elem_of_marked. right. by apply elem_of_union_l, elem_of_singleton.
Qed.

Lemma gc_pass_painted l : forall W G, painted ∅ W G -> (forall a, a ∈ l -> a ∈ ftab (spcb st)) -> exists W' G',
  gc_pass l (repaint st W G) = Ok (Done tt, repaint st W' G') /\ painted ∅ W' G' /\ W ⊆ W' /\
  (forall a, a ∈ l -> root st a -> a ∈ W') /\ weight W' G' <= weight W G /\ (forall a, a ∈ l -> a ∈ G -> weight W' G' < weight W G).
Proof.
  induction l as [|a l IH]; intros W G HP Hl.
  - exists W, G. split_and!; [done..|by intros ? ?%not_elem_of_nil|lia|by intros ? ?%not_elem_of_nil].
  - destruct (gc_file_painted W G a HP (Hl a ltac:(left))) as (W1 & G1 & E1 & HP1 & S1 & D1 & R1 & L1 & T1).
    destruct (IH W1 G1 HP1 ltac:(intros; apply Hl; by right)) as (W2 & G2 & E2 & HP2 & S2 & R2 & L2 & T2).
    exists W2, G2. cbn [gc_pass]. rewrite E1. kstep. split_and!; [done..|by intros x ?; apply S2, S1| |lia|].
    + intros x [->|Hx]%elem_of_cons Hr; [by apply S2, R1|by apply R2].
    + intros x Hx HG. destruct (decide (x = a)) as [->|Hn]; [specialize (T1 HG); lia|].
      apply elem_of_cons in Hx as [|Hx]; [done|]. enough (weight W2 G2 < weight W1 G1) by lia. apply (T2 x Hx), D1.
      rewrite elem_of_difference, elem_of_singleton. done.
Qed.

Lemma gc_marking_painted fuel : forall W G, painted ∅ W G -> weight W G + (if decide (G = ∅) then 1 else 0) <= Z.of_nat fuel ->
  exists W', gc_marking fuel (repaint st W G) = Ok (Done tt, repaint st W' ∅) /\ painted ∅ W' ∅ /\ forall a, root st a -> a ∈ W'.
Proof.
  induction fuel as [|fuel IH]; intros W G HP Hw; pose proof (weight_nonneg _ _ _ HP) as H0.
  - destruct (decide (G = ∅)) as [|HG]; [lia|]. destruct HG. apply leibniz_equiv, size_empty_inv. lia.
  - cbn [gc_marking]. change (ftab (spcb (repaint st W G))) with (ftab (spcb st)).
    destruct (gc_pass_painted (ftab (spcb st)) W G HP ltac:(done)) as (W' & G' & -> & HP' & _ & HR & Hle & Hlt). kstep.
    change (unp_defer (spcb (repaint st W' G'))) with (Z.of_nat (size G')). destruct (Z.eqb_spec (Z.of_nat (size G')) 0) as [Hz|Hz].
    + assert (size G' = 0%nat) as Hs%size_empty_inv by lia. apply leibniz_equiv in Hs as ->. exists W'. split_and!; [done..|].
      intros a Ha. by apply HR; [apply Ha|].
    + apply IH; [done|]. rewrite (decide_False (P := G' = ∅)) by (intros ->; by rewrite size_empty in Hz).
      destruct (decide (G = ∅)) as [->|HG]; [lia|]. apply set_choose_L in HG as [x Hx]. enough (weight W' G' < weight W G) by lia.
      apply (Hlt x); [|done]. by apply (pt_reach _ _ _ HP), (pt_sub _ _ _ HP).
Qed.

Lemma marked_reachable W : painted ∅ W ∅ -> (forall a, root st a -> a ∈ W) -> forall a, a ∈ W <-> reachable st a.
Proof.
  intros HP HR a. split; [apply HP|]. intros (r & Hr & Hra). apply HR in Hr. clear HR. induction Hra as [|x y z Hxy _ IH]; [done|].
  apply IH. eapply (pt_closed _ _ _ HP); eauto; apply not_elem_of_empty.
Qed.

Lemma repaint_blank : unp_defer (spcb st) = 0 -> repaint st ∅ ∅ = st.
Proof.
  clear Hb Hok. intros Hd. unfold repaint, set_gc, set_files. destruct st as [so mb u ev]. cbn in *. f_equal.
  replace (map_imap _ (files u)) with (files u); [destruct u; cbn in *; by subst|]. apply map_eq. intros a. rewrite map_lookup_imap.
  destruct (files u !! a) as [f|]; [|done]. cbn. f_equal. unfold paint. rewrite !decide_False by apply not_elem_of_empty.
  unfold with_bits. rewrite !Z.lor_0_r. by destruct f.
Qed.
End Reach.

(** ** Starting over *)

Definition unpainted (f : file) : file := set_fflag (without (f_flag f) (Z.lor FMARK FDEFER)) f.
(** The same files and rights, whatever the marks. *)
Record same_graph st st' : Prop := {
  sg_socks : socks st' = socks st; sg_smb : smb st' = smb st; sg_sev : sev st' = sev st; sg_tab : ftab (spcb st') = ftab (spcb st);
  sg_pcbs : unpcbs (spcb st') = unpcbs (spcb st); sg_ofile : ofile (spcb st') = ofile (spcb st);
  sg_files a : set_fflag 0 <$> files (spcb st') !! a = set_fflag 0 <$> files (spcb st) !! a
}.

Lemma same_graph_file st st' a f : same_graph st st' -> files (spcb st') !! a = Some f ->
  exists g, files (spcb st) !! a = Some g /\ f_count f = f_count g /\ f_msgcount f = f_msgcount g /\ f_type f = f_type g /\ f_data f = f_data g.
Proof.
  intros HS E. pose proof (sg_files _ _ HS a) as Ea. rewrite E in Ea. destruct (files (spcb st) !! a) as [g|]; [|done]. injection Ea as ?. exists g. destruct f, g. cbn in *. naive_solver.
Qed.
Lemma same_graph_sym st st' : same_graph st st' -> same_graph st' st.
Proof. intros []. by split. Qed.
Lemma same_graph_trans st1 st2 st3 : same_graph st1 st2 -> same_graph st2 st3 -> same_graph st1 st3.
Proof. intros [] []. split; congruence. Qed.

Lemma scan_skip_same st st' m : smb st' = smb st -> scan_skip m st' = scan_skip m st.
Proof. intros E. induction m as [|a [|b m] IH]; [done..|]. cbn [scan_skip] in IH |- *. rewrite E in IH |- *. destruct (get_mb b (smb st)); [|done..]. kstep. destruct (m_act _ =? 0); [apply IH|done]. Qed.
Lemma rights_queued_same st st' fuel : forall m, smb st' = smb st -> queued fuel m st' = queued fuel m st.
Proof.
  induction fuel as [|fuel IH]; intros m E; [done|]. destruct m as [|a [|r m]]; [done..|]. cbn [queued]. rewrite E. destruct (get_mb r (smb st)); [|done..]. kstep.
  rewrite (scan_skip_same st st') by done. destruct (scan_skip (r :: m) st); [|done..]. kstep. by rewrite IH.
Qed.
Lemma held_same st st' f g : same_graph st st' -> f_type f = f_type g -> f_data f = f_data g -> held st' f = held st g.
Proof.
  intros HS Et Ed. unfold held. rewrite Et, Ed, (sg_socks _ _ HS). destruct (f_type g =? _); [|done]. destruct (socks st !! f_data g) as [so|]; [|done].
  by rewrite (rights_queued_same st st') by apply HS.
Qed.

Lemma refers_same st st' a b : same_graph st st' -> refers st a b -> refers st' a b.
Proof.
  intros HS (f & E & Hb). destruct (same_graph_file st' st a f (same_graph_sym _ _ HS) E) as (g & Eg & _ & _ & Et & Ed).
  exists g. split; [done|]. by rewrite (held_same st st' g f).
Qed.
Lemma root_same st st' a : same_graph st st' -> root st a -> root st' a.
Proof.
  intros HS (Ha & f & E & Hc & Hm). destruct (same_graph_file st' st a f (same_graph_sym _ _ HS) E) as (g & Eg & ? & ? & _).
  split; [by rewrite (sg_tab _ _ HS)|]. exists g. split_and!; [done|congruence..].
Qed.
Lemma in_table_same st st' a : same_graph st st' -> in_table st a -> in_table st' a.
Proof.
  intros HS (Ha & f & E & Hc). destruct (same_graph_file st' st a f (same_graph_sym _ _ HS) E) as (g & Eg & ? & _).
  split; [by rewrite (sg_tab _ _ HS)|]. exists g. split; [done|congruence].
Qed.
Lemma reachable_same st st' a : same_graph st st' -> reachable st a -> reachable st' a.
Proof.
  intros HS (r & Hr & Hra). exists r. split; [by eapply root_same|]. clear Hr. induction Hra; [done|]. eapply rtc_l; [by eapply refers_same|done].
Qed.
Lemma gc_ok_same st st' : same_graph st st' -> gc_ok st -> gc_ok st'.
Proof.
  intros HS [H1 H2 H3]. split; rewrite ?(sg_tab _ _ HS); [done| |].
  - intros a Ha. destruct (H2 a Ha) as [g Eg]. destruct (same_graph_file st' st a g (same_graph_sym _ _ HS) Eg) as (f & E & _). eauto.
  - intros a f E Ha Hc Ht. destruct (same_graph_file st st' a f HS E) as (g & Eg & Ec & _ & Et & Ed). rewrite Ed, (sg_socks _ _ HS).
    destruct (H3 a g Eg Ha ltac:(congruence) ltac:(congruence)) as (so & Eso & Hq). exists so. split; [done|]. intros Hca. destruct (Hq Hca) as (Hl & l & El & Hl2).
    split; [done|]. exists l. split; [by rewrite (rights_queued_same st st') by apply HS|]. eapply Forall_impl; [done|]. intros x. by apply in_table_same.
Qed.
Lemma repaint_same st W G : same_graph st (repaint st W G).
Proof. split; [done..|]. intros a. cbn. rewrite map_lookup_imap. by destruct (files (spcb st) !! a). Qed.

Lemma gc_clear_spec l : forall st, NoDup l -> (forall a, a ∈ l -> is_Some (files (spcb st) !! a)) -> exists fs, gc_clear l st = Ok (set_files st fs (ofile (spcb st))) /\
  forall a, fs !! a = (fun f => if decide (a ∈ l) then unpainted f else f) <$> files (spcb st) !! a.
Proof.
  induction l as [|b l IH]; intros st Hn Hl.
  - exists (files (spcb st)). cbn. split; [destruct st as [? ? [] ?]; done|]. intros a. by destruct (files (spcb st) !! a).
  - apply NoDup_cons in Hn as [Hbl Hn]. cbn [gc_clear]. destruct (Hl b ltac:(left)) as [f E]. unfold upd_file, get_file. rewrite E. kstep.
    set (st1 := put_file _ _ _). destruct (IH st1 Hn) as (fs & -> & Hfs).
    { intros a Ha. unfold st1, put_file, set_files. cbn. apply lookup_insert_is_Some'. right. apply Hl. by right. }
    exists fs. split; [done|]. intros a. rewrite Hfs. unfold st1, put_file, set_files. cbn. destruct (decide (a = b)) as [->|Hab].
    + rewrite lookup_insert_eq, E. cbn. rewrite decide_False by done. by rewrite decide_True by left.
    + rewrite lookup_insert_ne by done. destruct (files (spcb st) !! a); [|done]. cbn. f_equal. repeat destruct decide; try done.
      * exfalso. by match goal with Hx : a ∉ b :: l |- _ => apply Hx; right end.
      * exfalso. match goal with Hx : a ∈ b :: l |- _ => apply elem_of_cons in Hx as []; done end.
Qed.

(** ** The marks *)

Lemma gc_mark_spec st : gc_ok st -> unp_defer (spcb st) = 0 -> exists st', gc_mark st = Ok (Done tt, st') /\ same_graph st st' /\
  unp_defer (spcb st') = 0 /\ unp_gcing (spcb st') = unp_gcing (spcb st) /\
  forall a f, a ∈ ftab (spcb st) -> files (spcb st') !! a = Some f -> has (f_flag f) FDEFER = false /\ (has (f_flag f) FMARK = true <-> reachable st a).
Proof.
  intros Hok Hd. unfold gc_mark. destruct (gc_clear_spec (ftab (spcb st)) st (gc_nodup _ Hok) (gc_files _ Hok)) as (fs & -> & Hfs). kstep.
  set (st1 := set_files st fs (ofile (spcb st))).
  assert (same_graph st st1) as HS.
  { split; [done..|]. intros a. cbn. rewrite Hfs. destruct (files (spcb st) !! a); [|done]. cbn. by destruct decide. }
  assert (blank st1) as Hb.
  { intros a f E Ha. cbn in E, Ha. rewrite Hfs in E. destruct (files (spcb st) !! a); [|done]. cbn in E. rewrite decide_True in E by done. injection E as <-.
    unfold unpainted, FMARK, FDEFER. cbn [f_flag set_fflag]. flags. done. }
  pose proof (gc_ok_same _ _ HS Hok) as Hok1. rewrite <- (repaint_blank st1 Hd). rewrite (sg_tab _ _ (repaint_same st1 ∅ ∅)), (sg_tab _ _ HS).
  destruct (gc_marking_painted st1 Hb Hok1 (S (2 * length (ftab (spcb st)))) ∅ ∅) as (W & -> & HP & HR).
  { split; [done|intros a []%elem_of_empty|intros a b []%elem_of_empty]. }
  { unfold weight. rewrite decide_True, size_empty by done. cbn [ftab spcb st1 set_files set_spcb]. lia. }
  exists (repaint st1 W ∅). split_and!; [done|by eapply same_graph_trans, repaint_same|done..|]. intros a f Ha E.
  cbn in E. rewrite map_lookup_imap in E. change (files (spcb st1)) with fs in E. destruct (fs !! a) as [g|] eqn:Eg; [|done]. injection E as <-.
  destruct (Hb a g Eg Ha) as [E1 E2]. destruct (paint_flags W ∅ a g E1 E2) as [-> ->]. split; [by apply bool_decide_eq_false_2, not_elem_of_empty|].
  rewrite bool_decide_eq_true, (marked_reachable st1 W HP HR). split; apply reachable_same; [by apply same_graph_sym|done].
Qed.

(** C10: the marking of the collector ends, and marks exactly the files that can still be reached: those some
    process has open, and those whose rights are queued, at any depth, on the sockets of such
    files.  Nothing but the marks changes. *)
Theorem gc_marks_reachable st : gc_ok st -> unp_defer (spcb st) = 0 -> exists st', gc_mark st = Ok (Done tt, st') /\
  (forall a, set_fflag 0 <$> files (spcb st') !! a = set_fflag 0 <$> files (spcb st) !! a) /\ socks st' = socks st /\ smb st' = smb st /\
  forall a f, a ∈ ftab (spcb st) -> files (spcb st') !! a = Some f -> (has (f_flag f) FMARK = true <-> reachable st a).
Proof.
  intros Hok Hd. destruct (gc_mark_spec st Hok Hd) as (st' & E & HS & _ & _ & Hf). exists st'. split_and!; [done|apply HS..|].
  intros a f Ha Ea. by apply Hf.
Qed.

(** A file all of whose references are in flight and which nothing leads to. *)
Definition garbage st (a : Z) : Prop := exists f, files (spcb st) !! a = Some f /\ f_count f <> 0 /\ f_count f = f_msgcount f /\ ~ reachable st a.

End Marks.

Section Spares.
Context {M H : Type} `{RM : !ResMap M}.
Context (nfsd : bool) (alive : Z -> bool) (mbutl : Z) (memall : Z -> Z -> bool) (kalloc : Z -> H -> res (Z * H)).
Context (vn_create lookupname : list Z -> Z + Z) (closef : Z -> sockst M H unpst -> res (sockst M H unpst)).
Implicit Type st : sockst M H unpst.

Local Notation sweep := (gc_sweep nfsd alive mbutl memall kalloc vn_create lookupname closef).
Local Notation collect := (unp_gc nfsd alive mbutl memall kalloc vn_create lookupname closef).

Lemma gc_sweep_none st l : (forall a, a ∈ l -> exists f, files (spcb st) !! a = Some f /\
    (f_count f = 0 \/ f_count f <> f_msgcount f \/ has (f_flag f) FMARK = true)) ->
  sweep l st = Ok (Done tt, st).
Proof.
  induction l as [|a l IH]; intros Hl; [done|]. cbn [gc_sweep]. destruct (Hl a ltac:(left)) as (f & E & Hf). unfold get_file. rewrite E. kstep.
  assert (sweep l st = Ok (Done tt, st)) as -> by (apply IH; intros; apply Hl; by right).
  destruct (Z.eqb_spec (f_count f) 0); [done|]. destruct (Z.eqb_spec (f_count f) (f_msgcount f)); [|done]. destruct Hf as [ | [ | ->]]; done.
Qed.

(** a run of the collector when every file in use is reachable ends with every socket, buffer and file as
    it was, but for the marks: no right that can still be received is lost. *)
Theorem unp_gc_spares st : gc_ok st -> unp_gcing (spcb st) = false -> (forall a, a ∈ ftab (spcb st) -> ~ garbage st a) ->
  exists st', collect st = Ok (Done tt, st') /\ same_graph st st' /\ unp_gcing (spcb st') = false.
Proof.
  intros Hok Hg Hn. unfold unp_gc, gc_restart. rewrite Hg. set (st0 := set_gc st 0 true).
  assert (same_graph st st0) as HS0 by done.
  destruct (gc_mark_spec st0 (gc_ok_same _ _ HS0 Hok) eq_refl) as (st1 & -> & HS1 & Hd1 & _ & Hf). kstep. rewrite (sg_tab _ _ HS1), (sg_tab _ _ HS0).
  pose proof (same_graph_trans _ _ _ HS0 HS1) as HS.
  rewrite gc_sweep_none.
  - kstep. eexists. split; [done|]. split; [|done]. eapply same_graph_trans; [done|]. done.
  - intros a Ha. destruct (gc_files _ Hok a Ha) as [g Eg]. destruct (same_graph_file st1 st a g (same_graph_sym _ _ HS) Eg) as (f & E & Ec & Em & _).
    exists f. split; [done|]. destruct (decide (f_count f = 0)); [by left|right]. destruct (decide (f_count f = f_msgcount f)); [|by left]. right.
    destruct (has (f_flag f) FMARK) eqn:Em'; [done|]. destruct (Hn a Ha). exists g. split_and!; [done|congruence..|].
    intros Hr. apply (reachable_same st st0 a HS0), (Hf a f Ha E) in Hr. congruence.
Qed.
End Spares.
