(* ===== verification/UnpRights.v ===== *)
(** * Rights: descriptors sent and received

    unp_internalize turns the descriptors in a control message into references to files in flight,
    or fails and leaves everything as it was; unp_externalize turns them into descriptors of the
    process that receives them.  Together they hand over exactly the files that were sent. *)

From S2P Require Import Prelude Flags Rmap Mbuf MbufThms Sockbuf Sock Unp UnpGc.
From stdpp Require Import prelude list numbers strings gmap.
From Stdlib Require Import ZArith Lia.

Local Open Scope Z_scope.
Local Open Scope kern_scope.

Lemma field_int c p v : field (store c p (int_bytes v)) p 4 = wrapu 32 v.
Proof.
  unfold field. change 4 with (Z.of_nat (length (int_bytes v))). rewrite load_store_same. cbn [foldl int_bytes].
  change 255 with (Z.ones 8). rewrite !Z.land_ones, !Z.shiftr_div_pow2 by lia. unfold wrapu.
  change (2 ^ 32) with (2 ^ 8 * (2 ^ 8 * (2 ^ 8 * 2 ^ 8))). change (2 ^ 24) with (2 ^ 8 * (2 ^ 8 * 2 ^ 8)). change (2 ^ 16) with (2 ^ 8 * 2 ^ 8).
  rewrite !Z.rem_mul_r by lia. rewrite !Z.div_div by lia. change 256 with (2 ^ 8). ring_simplify. rewrite !Z.mul_assoc. lia.
Qed.
Lemma words_outside n : forall rp c p bs, p + Z.of_nat (length bs) <= rp \/ rp + 4 * Z.of_nat n <= p -> words n rp (store c p bs) = words n rp c.
Proof.
  induction n as [|n IH]; intros rp c p bs Hd; [done|]. cbn [words]. f_equal; [|apply IH; lia]. unfold field. rewrite load_store_other; [done|lia].
Qed.
Lemma words_ext n : forall rp c c', (forall q, rp <= q < rp + 4 * Z.of_nat n -> c q = c' q) -> words n rp c = words n rp c'.
Proof.
  induction n as [|n IH]; intros rp c c' Hc; [done|]. cbn [words]. f_equal; [|apply IH; intros; apply Hc; lia].
  unfold field. f_equal. apply load_ext. intros. apply Hc. lia.
Qed.

Definition occurs (a : Z) (l : list Z) : nat := length (filter (fun x => x = a) l).
Arguments occurs : simpl never.
Lemma occurs_cons a x l : occurs a (x :: l) = if decide (x = a) then S (occurs a l) else occurs a l.
Proof. unfold occurs. rewrite filter_cons. by destruct (decide (x = a)). Qed.

Section Rights.
Context {M H : Type} `{RM : !ResMap M}.
Implicit Type st : sockst M H unpst.

Definition with_core st (c : Z -> Z) : sockst M H unpst := set_smb st (set_core (smb st) c).
Definition bump (dc dm : Z) (f : file) : file := set_counts (f_count f + dc) (f_msgcount f + dm) f.

Lemma all_open_spec n : forall rp st, all_open n rp st = true <-> Forall (fun w => is_Some (getf (i32 w) st)) (words n rp (core (smb st))).
Proof.
  induction n as [|n IH]; intros rp st; [done|]. cbn [all_open words]. unfold rd_word. rewrite Forall_cons, <- IH.
  destruct (getf _ st); [naive_solver|]. split; [done|]. by intros [[] _].
Qed.

Lemma intern_spec n : forall rp st fps, mapM (fun w => getf (i32 w) st) (words n rp (core (smb st))) = Some fps ->
  Forall (fun fp => 0 <= fp < 2 ^ 32 /\ is_Some (files (spcb st) !! fp)) fps ->
  exists c fs, intern n rp st = Ok (set_files (with_core st c) fs (ofile (spcb st))) /\ words n rp c = fps /\
    (forall q, q < rp \/ rp + 4 * Z.of_nat n <= q -> c q = core (smb st) q) /\
    forall a, fs !! a = Nat.iter (occurs a fps) (bump 1 1) <$> files (spcb st) !! a.
Proof.
  induction n as [|n IH]; intros rp st fps Hm Hf; cbn [words mapM] in Hm.
  - injection Hm as <-. exists (core (smb st)), (files (spcb st)). split_and!; [cbn|done..|].
    + f_equal. by destruct st as [? [] [] ?].
    + intros a. change (occurs a _) with 0%nat. by destruct (files (spcb st) !! a).
  - destruct (getf (i32 (field (core (smb st)) rp 4)) st) as [fp|] eqn:Eg; [|done]. cbn in Hm.
    destruct (mapM _ _) as [fps'|] eqn:Em in Hm; [|done]. injection Hm as <-. apply Forall_cons in Hf as [[Hr [f E]] Hf].
    cbn [intern]. unfold rd_word. rewrite Eg. unfold upd_file, get_file. change (files (spcb (wr_word rp fp st))) with (files (spcb st)). rewrite E. kstep.
    set (st1 := put_file _ _ _). assert (words n (rp + 4) (core (smb st1)) = words n (rp + 4) (core (smb st))) as Ew by (apply words_outside; cbn; lia).
    destruct (IH (rp + 4) st1 fps') as (c & fs & E1 & E2 & E3 & E4).
    + by rewrite Ew.
    + eapply Forall_impl; [done|]. intros a [? ?]. split; [done|]. cbn. apply lookup_insert_is_Some'. auto.
    + exists c, fs. split_and!.
      * rewrite E1. done.
      * cbn [words]. rewrite E2. f_equal. transitivity (field (core (smb st1)) rp 4).
        { unfold field. f_equal. apply load_ext. intros q Hq. apply E3. lia. }
        cbn. rewrite field_int. apply wrapu_small. lia.
      * intros q Hq. rewrite E3 by lia. cbn. unfold store. cbn [length int_bytes]. change (Z.of_nat 4) with 4.
        destruct (Z.leb_spec rp q), (Z.ltb_spec q (rp + 4)); cbn [andb]; try done. lia.
      * intros a. rewrite E4, occurs_cons. cbn. destruct (decide (fp = a)) as [->|Hn].
        -- rewrite lookup_insert_eq, E. cbn [fmap option_fmap option_map]. rewrite Nat.iter_succ_r. done.
        -- by rewrite lookup_insert_ne.
Qed.

(** ** Receiving *)

Definition frees (ot : list Z) : nat := length (filter (fun fp => fp = 0) ot).

Lemma ufalloc_spec st : (0 < frees (ofile (spcb st)))%nat -> exists k, ufalloc st = Some k /\ ofile (spcb st) !! k = Some 0 /\
  forall fp, fp <> 0 -> S (frees (<[k := fp]> (ofile (spcb st)))) = frees (ofile (spcb st)).
Proof.
  intros Hf. unfold ufalloc. destruct (list_find _ (ofile (spcb st))) as [[k fp]|] eqn:E.
  - apply list_find_Some in E as (E & -> & _). exists k. split_and!; [done..|]. intros fp Hfp. unfold frees.
    pose proof (lookup_lt_Some _ _ _ E) as Hlt. rewrite insert_take_drop by done. rewrite <- (take_drop_middle (ofile (spcb st)) k 0 E) at 3.
    rewrite !filter_app, !filter_cons, !length_app. rewrite decide_False, decide_True by done. cbn [length]. lia.
  - apply list_find_None in E. unfold frees in Hf. destruct (filter _ _) as [|x l] eqn:Ef; [cbn in Hf; lia|].
    assert (x ∈ filter (fun fp => fp = 0) (ofile (spcb st))) as [Hx Hin]%list_elem_of_filter by (rewrite Ef; left).
    rewrite Forall_forall in E. by destruct (E x Hin).
Qed.

Lemma extern_spec n : forall rp st, (n <= frees (ofile (spcb st)))%nat ->
  Forall (fun fp => fp <> 0 /\ is_Some (files (spcb st) !! fp)) (words n rp (core (smb st))) ->
  Z.of_nat (length (ofile (spcb st))) < 2 ^ 32 ->
  let fps := words n rp (core (smb st)) in
  exists c fs ot (fds : list nat), extern n rp st = Ok (set_files (with_core st c) fs ot) /\ words n rp c = Z.of_nat <$> fds /\ NoDup fds /\
    Forall2 (fun fd fp => ofile (spcb st) !! fd = Some 0 /\ ot !! fd = Some fp) fds fps /\
    (forall k, k ∉ fds -> ot !! k = ofile (spcb st) !! k) /\ length ot = length (ofile (spcb st)) /\
    (forall q, q < rp \/ rp + 4 * Z.of_nat n <= q -> c q = core (smb st) q) /\
    forall a, fs !! a = Nat.iter (occurs a fps) (bump 0 (-1)) <$> files (spcb st) !! a.
Proof.
  induction n as [|n IH]; intros rp st Hn Hf Hlen fps.
  - exists (core (smb st)), (files (spcb st)), (ofile (spcb st)), []. split_and!; try done; [cbn|constructor..|].
    + f_equal. by destruct st as [? [] [] ?].
    + intros a. change (occurs a _) with 0%nat. by destruct (files (spcb st) !! a).
  - subst fps. cbn [words] in *. apply Forall_cons in Hf as [[H0 [f E]] Hf]. destruct (ufalloc_spec st ltac:(lia)) as (k & Ek & Hk & Hfr).
    cbn [extern]. rewrite Ek. unfold rd_word. set (fp := field (core (smb st)) rp 4) in *. unfold upd_file, get_file.
    change (files (spcb (set_files st (files (spcb st)) (<[k:=fp]> (ofile (spcb st)))))) with (files (spcb st)). rewrite E. kstep.
    set (st1 := wr_word _ _ _). assert (words n (rp + 4) (core (smb st1)) = words n (rp + 4) (core (smb st))) as Ew by (apply words_outside; cbn; lia).
    change (ofile (spcb st1)) with (<[k:=fp]> (ofile (spcb st))) in *. specialize (Hfr fp H0).
    destruct (IH (rp + 4) st1) as (c & fs & ot & fds & E1 & E2 & E3 & E4 & E5 & E6 & E7 & E8).
    + change (ofile (spcb st1)) with (<[k:=fp]> (ofile (spcb st))). lia.
    + rewrite Ew. eapply Forall_impl; [done|]. intros a [? ?]. split; [done|]. cbn. apply lookup_insert_is_Some'. auto.
    + cbn. by rewrite length_insert.
    + rewrite Ew in E4, E8. cbn in E4, E5, E6. pose proof (lookup_lt_Some _ _ _ Hk) as Hlt. rewrite length_insert in E6.
      assert (k ∉ fds) as Hkf.
      { intros Hin. apply list_elem_of_lookup in Hin as [i Hi]. destruct (Forall2_lookup_l _ _ _ _ _ E4 Hi) as (y & _ & Hy & _).
        rewrite list_lookup_insert_eq in Hy by done. injection Hy as ?. done. }
      exists c, fs, ot, (k :: fds). split_and!.
      * rewrite E1. done.
      * cbn [words fmap list_fmap]. rewrite E2. f_equal. transitivity (field (core (smb st1)) rp 4).
        { unfold field. f_equal. apply load_ext. intros q Hq. apply E7. lia. }
        cbn. rewrite field_int. apply wrapu_small. lia.
      * by constructor.
      * constructor; [split; [done|]; rewrite E5 by done; by rewrite list_lookup_insert_eq|].
        eapply Forall2_impl; [done|]. intros fd fp' [Hfd ?]. split; [|done]. destruct (decide (fd = k)) as [->|]; [|by rewrite list_lookup_insert_ne in Hfd].
        rewrite list_lookup_insert_eq in Hfd by done. injection Hfd as ?. done.
      * intros j Hj. rewrite E5 by (intros ?; apply Hj; by right). rewrite list_lookup_insert_ne; [done|]. intros ->. apply Hj. left.
      * done.
      * intros q Hq. rewrite E7 by lia. cbn. unfold store. cbn [length int_bytes]. change (Z.of_nat 4) with 4.
        destruct (Z.leb_spec rp q), (Z.ltb_spec q (rp + 4)); cbn [andb]; try done. lia.
      * intros a. rewrite E8, occurs_cons. cbn. destruct (decide (fp = a)) as [->|Hn'].
        -- rewrite lookup_insert_eq, E. cbn [fmap option_fmap option_map]. rewrite Nat.iter_succ_r.
           unfold bump. by rewrite Z.add_0_r.
        -- by rewrite lookup_insert_ne.
Qed.

(** ** The two together *)

Lemma bump_iter dc dm f k : i16 (f_count f) = f_count f -> i16 (f_msgcount f) = f_msgcount f ->
  Nat.iter k (bump dc dm) f = set_counts (f_count f + Z.of_nat k * dc) (f_msgcount f + Z.of_nat k * dm) f.
Proof.
  intros Hc Hm. induction k as [|k IH].
  - cbn. rewrite !Z.add_0_r. unfold set_counts. rewrite Hc, Hm. by destruct f.
  - cbn [Nat.iter nat_rect]. change (nat_rect _ _ _ k) with (Nat.iter k (bump dc dm) f). rewrite IH. unfold bump, set_counts. cbn. rewrite !wraps_add_l by lia.
    f_equal; f_equal; lia.
Qed.

Lemma getf_lookup st fd fp : getf fd st = Some fp <-> 0 <= fd < NOFILE /\ ofile (spcb st) !! Z.to_nat fd = Some fp /\ fp <> 0.
Proof.
  unfold getf. destruct (Z.leb_spec 0 fd), (Z.ltb_spec fd NOFILE); cbn [andb]; try (split; [done|lia]).
  destruct (_ !! _) as [y|]; [|naive_solver]. destruct (Z.eqb_spec y 0); naive_solver.
Qed.

(** Every open descriptor is a file of the table, at a 32-bit address; the counts of the files fit. *)
Definition open_ok st : Prop := (forall fd fp, getf fd st = Some fp -> 0 <= fp < 2 ^ 32 /\ is_Some (files (spcb st) !! fp)) /\
  forall a f, files (spcb st) !! a = Some f -> i16 (f_count f) = f_count f /\ i16 (f_msgcount f) = f_msgcount f.

Definition sent st (r : Z) (x : mbuf) : list Z := words (Z.to_nat (m_len x / 4)) (mtod r x) (core (smb st)).

Lemma internalize_spec st r x fps : open_ok st -> mbs (smb st) !! r = Some x -> mapM (fun w => getf (i32 w) st) (sent st r x) = Some fps ->
  exists c fs, unp_internalize r st = Ok (0, set_files (with_core st c) fs (ofile (spcb st))) /\ words (Z.to_nat (m_len x / 4)) (mtod r x) c = fps /\
    (forall q, q < mtod r x \/ mtod r x + 4 * Z.of_nat (Z.to_nat (m_len x / 4)) <= q -> c q = core (smb st) q) /\
    forall a, fs !! a = (fun f => set_counts (f_count f + Z.of_nat (occurs a fps)) (f_msgcount f + Z.of_nat (occurs a fps)) f) <$> files (spcb st) !! a.
Proof.
  intros [Ho Hs] E Hm. apply mapM_Some in Hm as Hm'.
  destruct (intern_spec _ (mtod r x) st fps Hm) as (c & fs & E1 & E2 & E3 & E4).
  { apply Forall_forall. intros fp Hin. apply list_elem_of_lookup in Hin as [i Hi]. destruct (Forall2_lookup_r _ _ _ _ _ Hm' Hi) as (w & _ & Hg). by apply (Ho (i32 w)). }
  exists c, fs. split_and!; [|done..|].
  - unfold unp_internalize, get_mb. rewrite E. kstep. rewrite (proj2 (all_open_spec _ _ _)); [by rewrite E1|].
    fold (sent st r x). clear - Hm'. induction Hm'; constructor; eauto.
  - intros a. rewrite E4. destruct (files (spcb st) !! a) as [f|] eqn:Ea; [|done]. cbn. f_equal. destruct (Hs a f Ea). by rewrite bump_iter, !Z.mul_1_r.
Qed.

(** C30: unp_internalize is all or nothing: when some descriptor is not open it fails with EBADF and nothing has
    changed; otherwise each word becomes the address of the file it was a descriptor of, each
    file has as many more references, all of them in flight, and no other memory changes. *)
Theorem internalize_sound st r x : open_ok st -> mbs (smb st) !! r = Some x ->
  match mapM (fun w => getf (i32 w) st) (sent st r x) with
  | None => unp_internalize r st = Ok (EBADF, st)
  | Some fps => exists st', unp_internalize r st = Ok (0, st') /\ sent st' r x = fps /\ ofile (spcb st') = ofile (spcb st) /\
      (forall q, q < mtod r x \/ mtod r x + 4 * Z.of_nat (Z.to_nat (m_len x / 4)) <= q -> core (smb st') q = core (smb st) q) /\
      forall a, files (spcb st') !! a = (fun f => set_counts (f_count f + Z.of_nat (occurs a fps)) (f_msgcount f + Z.of_nat (occurs a fps)) f) <$> files (spcb st) !! a
  end.
Proof.
  intros Ho E. destruct (mapM _ (sent st r x)) as [fps|] eqn:Em.
  - destruct (internalize_spec st r x fps Ho E Em) as (c & fs & E1 & E2 & E3 & E4). eexists. split_and!; [done..|]. done.
  - unfold unp_internalize, get_mb. rewrite E. kstep. destruct (all_open _ _ _) eqn:Ea; [|done]. apply all_open_spec in Ea.
    assert (is_Some (mapM (fun w => getf (i32 w) st) (sent st r x))) as [? ?]; [by apply mapM_is_Some|]. congruence.
Qed.

(** C29: descriptors sent and received give the receiver the files that were sent: when the words a sender's
    unp_internalize wrote arrive in a process with room for them, unp_externalize turns them into new descriptors
    of that process, in order, for the same files; its open descriptors stay, every file has as many
    more references as it was sent times, and none of these is in flight any more. *)
Theorem rights_roundtrip (closef : Z -> sockst M H unpst -> res (sockst M H unpst)) st r x fps : open_ok st -> mbs (smb st) !! r = Some x -> mapM (fun w => getf (i32 w) st) (sent st r x) = Some fps ->
  exists st1, unp_internalize r st = Ok (0, st1) /\
  forall st2 r2 x2, files (spcb st2) = files (spcb st1) -> mbs (smb st2) !! r2 = Some x2 -> m_len x2 = m_len x -> sent st2 r2 x2 = sent st1 r x ->
    Z.of_nat (length fps) <= ufavail st2 -> Z.of_nat (length (ofile (spcb st2))) = NOFILE ->
  exists st3, unp_externalize closef r2 st2 = Ok (0, st3) /\
    mapM (fun w => getf (i32 w) st3) (sent st3 r2 x2) = Some fps /\
    (forall fd fp, getf fd st2 = Some fp -> getf fd st3 = Some fp) /\
    forall a f, files (spcb st) !! a = Some f -> files (spcb st3) !! a = Some (set_counts (f_count f + Z.of_nat (occurs a fps)) (f_msgcount f) f).
Proof.
  intros Ho E Hm. destruct (internalize_spec st r x fps Ho E Hm) as (c & fs & E1 & E2 & E3 & E4). eexists. split; [done|].
  intros st2 r2 x2 Hf E5 El Hw Hav Hlen. assert (sent st2 r2 x2 = fps) as Hs by (rewrite Hw; exact E2). clear Hw.
  assert (length fps = Z.to_nat (m_len x2 / 4)) as Hn.
  { rewrite <- Hs. unfold sent. generalize (mtod r2 x2). induction (Z.to_nat (m_len x2 / 4)) as [|n IH]; intros p; [done|]. cbn. by rewrite IH. }
  cbn in Hf. apply mapM_Some in Hm as Hm'. unfold unp_externalize, get_mb. rewrite E5. kstep. rewrite (proj2 (Z.ltb_ge _ _)) by lia.
  destruct (extern_spec (Z.to_nat (m_len x2 / 4)) (mtod r2 x2) st2) as (c' & fs' & ot & fds & F1 & F2 & F3 & F4 & F5 & F6 & F7 & F8).
  { unfold ufavail in Hav. unfold frees. lia. }
  { fold (sent st2 r2 x2). rewrite Hs, Hf. apply Forall_forall. intros fp Hin. apply list_elem_of_lookup in Hin as [i Hi].
    destruct (Forall2_lookup_r _ _ _ _ _ Hm' Hi) as (w & _ & Hg). destruct (proj1 Ho _ _ Hg) as [_ Hin]. apply getf_lookup in Hg as (_ & _ & H0).
    split; [done|]. rewrite E4. by apply fmap_is_Some. }
  { unfold NOFILE in Hlen. lia. }
  fold (sent st2 r2 x2) in F4, F8. rewrite Hs in F4, F8.
  assert (Forall2 (fun fd fp => getf (i32 (Z.of_nat fd)) (set_files (with_core st2 c') fs' ot) = Some fp) fds fps) as HG.
  { apply Forall2_same_length_lookup. split; [by eapply Forall2_length|]. intros i fd fp Hfd Hfp. destruct (Forall2_lookup_lr _ _ _ _ _ _ F4 Hfd Hfp) as [Hz Ht].
    assert (fp <> 0) as H0. { destruct (Forall2_lookup_r _ _ _ _ _ Hm' Hfp) as (w & _ & Hg). by apply getf_lookup in Hg as (_ & _ & ?). }
    pose proof (lookup_lt_Some _ _ _ Hz) as Hlt. unfold NOFILE in *. rewrite wraps_small by lia. apply getf_lookup. unfold NOFILE. cbn. rewrite Nat2Z.id. split_and!; [lia..|done|done]. }
  eexists. split_and!.
  - rewrite F1. done.
  - apply mapM_Some. unfold sent. change (core (smb (set_files (with_core st2 c') fs' ot))) with c'. rewrite F2. by apply Forall2_fmap_l.
  - intros fd fp Hg. apply getf_lookup in Hg as (Hfd & Hl & H0). apply getf_lookup. split_and!; [lia..| |done]. cbn. rewrite F5; [done|].
    intros Hin. apply list_elem_of_lookup in Hin as [i Hi]. destruct (Forall2_lookup_l _ _ _ _ _ F4 Hi) as (y & _ & Hz & _). congruence.
  - intros a f Ea. cbn. rewrite F8, Hf, E4, Ea. cbn. f_equal. destruct (proj2 Ho a f Ea) as [Hc Hg].
    rewrite bump_iter by (cbn; apply wraps_idem; lia). unfold set_counts. cbn. rewrite !wraps_add_l by lia. f_equal; f_equal; lia.
Qed.
End Rights.
