(* ===== verification/GcWitness.v ===== *)
(** * Files in flight the theorems apply to

    A descriptor is sent over a pair of datagram sockets and closed by its sender, so that its file lives in
    flight only; another file has all its references in flight and nothing leads to it. *)

From S2P Require Import Prelude Flags Rmap Mbuf MbufThms MbufWitness Sockbuf Sock Unp SockWitness UnpGc UnpRights.
From stdpp Require Import prelude list numbers strings gmap relations.
From Stdlib Require Import ZArith Lia.

Local Open Scope Z_scope.
Local Open Scope kern_scope.

(** The files 5000 (the receiving socket), 5100 (some vnode) and 5200 (the sending socket, as if its descriptor
    were in flight and lost). *)
Definition with_files (so so2 : Z) (st : sockst rmap unit unpst) : sockst rmap unit unpst :=
  set_spcb st (Unpst (unpcbs (spcb st)) ∅ []
    {[5000 := File 3 DTYPE_SOCKET 1 0 so2; 5100 := File 3 1 1 0 9; 5200 := File (3 + FMARK) DTYPE_SOCKET 1 1 so]} [5000; 5100; 5200]
    ([5000; 5100] ++ replicate 28 0) 0 false).
(** The pair, and an mbuf with the descriptor 1. *)
Definition pair_ready : res (Z * Z * Z * sockst rmap unit unpst) :=
  '(so, st) ← create unix_dgram u0;
  '(so2, st) ← create unix_dgram st;
  '(e, st) ← soconnect2 usr so so2 st;
  '(r, st) ← a_datagram (with_files so so2 st);
  x ← get_mb r (smb st);
  mret (so, so2, r, set_smb st (set_core (put_mb r (set_len x 4) (smb st)) (store (core (smb st)) (mtod r x) (int_bytes 1)))).

Definition g1 : sockst rmap unit unpst := match pair_ready with Ok (_, _, _, st) => st | _ => u0 end.
Definition gs : Z := match pair_ready with Ok (so, _, _, _) => so | _ => 0 end.
Definition gs2 : Z := match pair_ready with Ok (_, so2, _, _) => so2 | _ => 0 end.
Definition gr : Z := match pair_ready with Ok (_, _, r, _) => r | _ => 0 end.
(** Sent, and closed by the sender. *)
Definition g2 : sockst rmap unit unpst :=
  match ('(m, st) ← a_datagram g1;
         '(e, st) ← req usr gs PRU_SEND [m] (Nam []) [gr] st;
         st ← upd_file 5100 (fun f => set_counts (f_count f - 1) (f_msgcount f) f) st;
         mret (set_files st (files (spcb st)) (<[1%nat := 0]> (ofile (spcb st))))) with Ok st => st | _ => u0 end.

Example g2_in_flight : files (spcb g2) !! 5100 = Some (File 3 1 1 1 9) /\ (s ← get_so gs2 g2; mret (length (sb_mb (so_rcv s)), queued 9 (sb_mb (so_rcv s)) g2)) = Ok (3%nat, Ok [5100]).
Proof. split; vm_compute; reflexivity. Qed.

Lemma g2_files a : is_Some (files (spcb g2) !! a) -> a ∈ [5000; 5100; 5200].
Proof.
  intros [f E]. assert (dom (files (spcb g2)) = list_to_set [5000; 5100; 5200]) as Ed by (apply (bool_decide_unpack _); vm_compute; exact I).
  apply elem_of_dom_2 in E. rewrite Ed in E. by apply elem_of_list_to_set in E.
Qed.

Lemma g2_in_table a : a ∈ [5000; 5100; 5200] -> in_table g2 a.
Proof.
  intros Ha. split; [exact Ha|]. rewrite !elem_of_cons in Ha. destruct Ha as [->|[->|[->|[]%not_elem_of_nil]]]; vm_compute; eexists; (split; [reflexivity|discriminate]).
Qed.

Lemma g2_ok : gc_ok g2.
Proof.
  split.
  - apply (bool_decide_unpack _). vm_compute. exact I.
  - intros a Ha. destruct (g2_in_table a Ha) as (_ & f & E & _). by exists f.
  - intros a f E Ha _ Ht. change (ftab (spcb g2)) with [5000; 5100; 5200] in Ha. rewrite !elem_of_cons in Ha.
    destruct Ha as [->|[->|[->|[]%not_elem_of_nil]]]; vm_compute in E; injection E as <-; [|discriminate Ht|].
    + eexists. split; [vm_compute; reflexivity|]. intros _. split; [vm_compute; reflexivity|]. exists [5100]. split; [vm_compute; reflexivity|].
      constructor; [|constructor]. apply g2_in_table. do 2 constructor.
    + eexists. split; [vm_compute; reflexivity|]. intros _. split; [vm_compute; reflexivity|]. exists []. split; [vm_compute; reflexivity|constructor].
Qed.

Lemma gc_marks_reachable_witness : exists st', gc_mark g2 = Ok (Done tt, st') /\ forall a f, a ∈ ftab (spcb g2) -> files (spcb st') !! a = Some f ->
  (has (f_flag f) FMARK = true <-> reachable g2 a).
Proof. destruct (gc_marks_reachable g2 g2_ok eq_refl) as (st' & E & _ & _ & _ & Hf). exists st'. split; [exact E|exact Hf]. Defined.

(** The marks: the file in flight is kept, the lost one is not. *)
Example g2_marks : ('(_, st) ← gc_mark g2; mret ((fun a => has (f_flag (default (File 0 0 0 0 0) (files (spcb st) !! a))) FMARK) <$> [5000; 5100; 5200])) = Ok [true; true; false].
Proof. vm_compute. reflexivity. Qed.

(** With the lost file out of use. *)
Definition g3 : sockst rmap unit unpst := match upd_file 5200 (set_counts 0 0) g2 with Ok st => st | _ => u0 end.

Lemma g3_ok : gc_ok g3.
Proof.
  split.
  - apply (bool_decide_unpack _). vm_compute. exact I.
  - intros a Ha. change (ftab (spcb g3)) with [5000; 5100; 5200] in Ha. rewrite !elem_of_cons in Ha.
    destruct Ha as [->|[->|[->|[]%not_elem_of_nil]]]; vm_compute; eexists; reflexivity.
  - intros a f E Ha Hc Ht. change (ftab (spcb g3)) with [5000; 5100; 5200] in Ha. rewrite !elem_of_cons in Ha.
    destruct Ha as [->|[->|[->|[]%not_elem_of_nil]]]; vm_compute in E; injection E as <-; [|discriminate Ht|by destruct Hc].
    eexists. split; [vm_compute; reflexivity|]. intros _. split; [vm_compute; reflexivity|]. exists [5100]. split; [vm_compute; reflexivity|].
    constructor; [|constructor]. split; [change (5100 ∈ [5000; 5100; 5200]); right; left|]. vm_compute. eexists. split; [reflexivity|discriminate].
Qed.

Lemma g3_no_garbage a : a ∈ ftab (spcb g3) -> ~ garbage g3 a.
Proof.
  intros Ha (f & E & Hc & Hm & Hr). change (ftab (spcb g3)) with [5000; 5100; 5200] in Ha. rewrite !elem_of_cons in Ha.
  destruct Ha as [->|[->|[->|[]%not_elem_of_nil]]]; vm_compute in E; injection E as <-; [discriminate Hm| |by destruct Hc].
  apply Hr. exists 5000. split.
  - split; [change (5000 ∈ [5000; 5100; 5200]); left|]. vm_compute. eexists. split; [reflexivity|]. split; discriminate.
  - apply rtc_once. eexists. split; [vm_compute; reflexivity|]. vm_compute. left.
Qed.

Definition noclose (fp : Z) (st : sockst rmap unit unpst) : res (sockst rmap unit unpst) := Ok st.
Lemma unp_gc_spares_witness : exists st', unp_gc false noproc base mem noheap anyname anyname noclose g3 = Ok (Done tt, st') /\ same_graph g3 st'.
Proof.
  destruct (unp_gc_spares false noproc base mem noheap anyname anyname noclose g3 g3_ok eq_refl g3_no_garbage) as (st' & E & HS & _).
  exists st'. split; [exact E|exact HS].
Defined.

(** The lost file's socket is shut: the sending socket of [g2]. *)
Example g2_collected : ('(_, st) ← unp_gc false noproc base mem noheap anyname anyname noclose g2; s ← get_so gs st; mret (has (so_state s) SS_CANTRCVMORE)) = Ok true.
Proof. vm_compute. reflexivity. Qed.

(** ** Rights *)

Lemma g1_open : open_ok g1.
Proof.
  split.
  - intros fd fp (Hfd & E & Hz)%getf_lookup. change (ofile (spcb g1)) with ([5000; 5100] ++ replicate 28 0) in E.
    apply lookup_app_Some in E as [E|[Hge E]].
    + apply list_elem_of_lookup_2 in E. rewrite !elem_of_cons in E. destruct E as [->|[->|[]%not_elem_of_nil]]; (split; [lia|]; vm_compute; eexists; reflexivity).
    + apply lookup_replicate in E as [-> _]. by destruct Hz.
  - intros a f E. assert (a ∈ [5000; 5100; 5200]) as Ha.
    { assert (dom (files (spcb g1)) = list_to_set [5000; 5100; 5200]) as Ed by (apply (bool_decide_unpack _); vm_compute; exact I).
      apply elem_of_dom_2 in E. rewrite Ed in E. by apply elem_of_list_to_set in E. }
    rewrite !elem_of_cons in Ha. destruct Ha as [->|[->|[->|[]%not_elem_of_nil]]]; vm_compute in E; injection E as <-; split; reflexivity.
Qed.

Definition grx : mbuf := default (Mbuf 0 0 0 0 0 0 0 0) (mbs (smb g1) !! gr).
Lemma gr_mbuf : mbs (smb g1) !! gr = Some grx.
Proof. vm_compute. reflexivity. Qed.

Lemma internalize_sound_witness : exists st', unp_internalize gr g1 = Ok (0, st') /\ sent st' gr grx = [5100].
Proof.
  assert (mapM (fun w => getf (wraps 32 w) g1) (sent g1 gr grx) = Some [5100]) as E by (vm_compute; reflexivity).
  pose proof (internalize_sound g1 gr grx g1_open gr_mbuf) as HI. rewrite E in HI. destruct HI as (st' & H1 & H2 & _). exists st'. split; [exact H1|exact H2].
Defined.

(** The same process receives it: descriptor 2. *)
Lemma rights_roundtrip_witness : exists st1 st3, unp_internalize gr g1 = Ok (0, st1) /\ unp_externalize noclose gr st1 = Ok (0, st3) /\
  mapM (fun w => getf (wraps 32 w) st3) (sent st3 gr grx) = Some [5100].
Proof.
  destruct (rights_roundtrip noclose g1 gr grx [5100] g1_open gr_mbuf) as (st1 & E1 & HR); [vm_compute; reflexivity|].
  exists st1. assert (st1 = match unp_internalize gr g1 with Ok (_, st) => st | _ => g1 end) as Es by (rewrite E1; reflexivity).
  destruct (HR st1 gr grx) as (st3 & E3 & Hm & _).
  - reflexivity.
  - rewrite Es. vm_compute. reflexivity.
  - reflexivity.
  - reflexivity.
  - rewrite Es. vm_compute. discriminate.
  - rewrite Es. vm_compute. reflexivity.
  - exists st3. split; [exact E1|]. split; [exact E3|exact Hm].
Defined.
