(* ===== verification/Cksum.v ===== *)
(** * The internet checksum

    in_cksum of [sun/in_cksum.c] over an mbuf chain, with the assembler routine ocsum of [sun/ocsum.s], against the
    definition: the ones' complement of the ones' complement sum of the big-endian 16-bit
    words of the bytes, the last one padded with zero.  The code adds whole pieces of mbufs, at any
    alignment, 32 bits at a time; a piece that starts at an odd byte of the packet is added
    with the bytes of its sum swapped. *)

From S2P Require Import Prelude Rmap Mbuf MbufThms MbufOps MbufWitness.
From stdpp Require Import prelude list numbers strings gmap.
From Stdlib Require Import ZArith Lia.

Local Open Scope Z_scope.
Local Open Scope kern_scope.

(** ** The code *)

(** [addl l,d1] and, on a carry, [addql #1,d1]. *)
Definition addl_carry (d1 l : Z) : Z := if 2 ^ 32 <=? d1 + l then u32 (d1 + l) + 1 else d1 + l.
Fixpoint ocsum_longs (c : Z -> Z) (p : Z) (n : nat) (d1 : Z) : Z :=
  match n with O => d1 | S n => ocsum_longs c (p + 4) n (addl_carry d1 (field c p 4)) end.
(** The sum of [n] words at [p]; the count of longs is the low half of a register. *)
Definition ocsum (c : Z -> Z) (p n : Z) : Z :=
  let longs := u16 (Z.shiftr n 1) in
  let d1 := ocsum_longs c p (Z.to_nat longs) 0 in
  let d1 := if Z.testbit n 0 then addl_carry d1 (field c (p + 4 * longs) 2) else d1 in
  let s := Z.shiftr d1 16 + u16 d1 in
  if 2 ^ 16 <=? s then u16 (u16 s + 1) else s.

Definition swab16 (v : Z) : Z := Z.lor (Z.shiftl (Z.land v 255) 8) (Z.shiftr v 8).

(** The [mlen] bytes at [w], the first of them the high byte of a word: what the sum becomes, whether a byte is left
    (the code's [mlen == -1]). *)
Definition cksum_piece (c : Z -> Z) (w mlen sum : Z) : Z * bool :=
  if 0 <? mlen then
    if Z.land w 1 =? 0 then
      let sum := i32 (sum + ocsum c w (Z.shiftr mlen 1)) in
      if Z.land mlen 1 =? 0 then (sum, false)
      else (i32 (sum + Z.shiftl (c (w + 2 * Z.shiftr mlen 1)) 8), true)
    else
      let sum := i32 (sum + Z.shiftl (c w) 8) in
      let mlen := mlen - 1 in
      let w := w + 1 in
      let sum := i32 (sum + swab16 (ocsum c w (Z.shiftr mlen 1))) in
      if Z.land mlen 1 =? 0 then (sum, true)
      else (i32 (sum + c (w + 2 * Z.shiftr mlen 1)), false)
  else (sum, mlen =? -1).

(** One trip around the loop of in_cksum(): an mbuf of [m_len] bytes at [w]; [odd]: a byte is left from the last
    segment.  What the sum becomes, whether a byte is left, what is left of [len]. *)
Definition cksum_seg (c : Z -> Z) (w m_len sum : Z) (odd : bool) (len : Z) : Z * bool * Z :=
  let '(sum, w, mlen, len) := if odd then (i32 (sum + c w), w + 1, m_len - 1, len - 1) else (sum, w, m_len, len) in
  let mlen := if len <? mlen then len else mlen in
  (cksum_piece c w mlen sum, len - mlen).

Definition cksum_done (sum : Z) : Z :=
  let sum := i32 (Z.land sum 65535 + Z.shiftr sum 16) in
  let sum := i32 (Z.land sum 65535 + Z.shiftr sum 16) in
  Z.land (Z.lnot sum) 65535.

Section Cksum.
Context {M H : Type} `{RM : !ResMap M}.
Implicit Type st : mbst M H.

(** The next block with some data, and on from there; the flag is the printf() that the data are out. *)
Fixpoint cksum_next (m : list Z) (sum : Z) (odd : bool) (len : Z) st : res (Z * bool) :=
  match m with
  | [] => mret (cksum_done sum, true)
  | a :: m =>
      x ← get_mb a st;
      if m_len x =? 0 then cksum_next m sum odd len st
      else
        let '(sum, odd, len) := cksum_seg (core st) (mtod a x) (m_len x) sum odd len in
        if len =? 0 then mret (cksum_done sum, false) else cksum_next m sum odd len st
  end.

Definition in_cksum (m : list Z) (len : Z) st : res (Z * bool) :=
  match m with
  | [] => Fault
  | a :: m =>
      x ← get_mb a st;
      if (len <=? m_len x) && (Z.land len 1 =? 0) then mret (Z.land 65535 (Z.lnot (ocsum (core st) (mtod a x) (Z.shiftr len 1))), false)
      else
        let '(sum, odd, len) := cksum_seg (core st) (mtod a x) (m_len x) 0 false len in
        if len =? 0 then mret (cksum_done sum, false) else cksum_next m sum odd len st
  end.
End Cksum.

(** ** The definition *)

(** The sum of the 16-bit words of bytes whose first is the high ([even]) or the low byte of a word. *)
Fixpoint word_sum (even : bool) (bs : list Z) : Z :=
  match bs with [] => 0 | b :: bs => (if even then 256 * b else b) + word_sum (negb even) bs end.
(** The value of a sum in ones' complement of 16 bits: carries come around. *)
Definition ones (s : Z) : Z := if s =? 0 then 0 else (s - 1) mod 65535 + 1.
Definition checksum (bs : list Z) : Z := 65535 - ones (word_sum true bs).

Definition is_byte (b : Z) : Prop := 0 <= b < 256.
#[export] Instance is_byte_dec b : Decision (is_byte b).
Proof. unfold is_byte. apply _. Defined.

(** ** Sums that are the same in ones' complement *)

Definition same_oc (a b : Z) : Prop := 0 <= a /\ 0 <= b /\ (a = 0 <-> b = 0) /\ a mod 65535 = b mod 65535.

Lemma same_oc_refl a : 0 <= a -> same_oc a a.
Proof. unfold same_oc. lia. Qed.
Lemma same_oc_trans a b c : same_oc a b -> same_oc b c -> same_oc a c.
Proof. unfold same_oc. intros (? & ? & ? & ?) (? & ? & ? & ?). split_and!; [done..|lia|congruence]. Qed.
Lemma same_oc_add a b c d : same_oc a b -> same_oc c d -> same_oc (a + c) (b + d).
Proof.
  unfold same_oc. intros (? & ? & ? & E1) (? & ? & ? & E2). split_and!; [lia..|]. by rewrite Zplus_mod, E1, E2, <- Zplus_mod.
Qed.
Lemma same_oc_ones a b : same_oc a b -> ones a = ones b.
Proof.
  intros (? & ? & H0 & E). unfold ones. destruct (Z.eqb_spec a 0), (Z.eqb_spec b 0); [done|tauto..|].
  f_equal. by rewrite Zminus_mod, E, <- Zminus_mod.
Qed.
Lemma ones_same a : 0 <= a -> same_oc (ones a) a /\ 0 <= ones a <= 65535.
Proof.
  intros Ha. unfold ones, same_oc. destruct (Z.eqb_spec a 0) as [->|]; [lia|]. pose proof (Z.mod_pos_bound (a - 1) 65535 ltac:(lia)).
  split_and!; try lia. rewrite Zplus_mod_idemp_l. f_equal. lia.
Qed.
(** Taking 65535 away from more than that. *)
Lemma same_oc_sub a : 65535 < a -> same_oc (a - 65535) a.
Proof. intros Ha. split_and!; [lia..|]. rewrite <- (Z_mod_plus_full (a - 65535) 1 65535). f_equal. lia. Qed.

Lemma word_sum_nonneg e bs : Forall is_byte bs -> 0 <= word_sum e bs.
Proof. intros HF. revert e. induction HF as [|b bs Hb _ IH]; intros e; [done|]. cbn. specialize (IH (negb e)). unfold is_byte in Hb. destruct e; lia. Qed.
Lemma word_sum_app e l1 l2 : word_sum e (l1 ++ l2) = word_sum e l1 + word_sum (xorb e (Nat.odd (length l1))) l2.
Proof.
  revert e. induction l1 as [|b l1 IH]; intros e; [by destruct e|]. cbn [app word_sum length]. rewrite IH, Nat.odd_succ, <- Nat.negb_odd.
  destruct e, (Nat.odd (length l1)); cbn; lia.
Qed.

(** ** ocsum *)

Definition byte_range (c : Z -> Z) (p n : Z) : Prop := forall q, p <= q < p + n -> is_byte (c q).
Lemma byte_range_load c p n : byte_range c p n -> Forall is_byte (load c p n).
Proof. intros Hb. apply Forall_fmap, Forall_forall. intros i Hi%elem_of_seqZ. apply Hb. lia. Qed.

Lemma addl_carry_same d1 l a b : d1 < 2 ^ 32 -> l < 2 ^ 32 -> same_oc d1 a -> same_oc l b -> addl_carry d1 l < 2 ^ 32 /\ same_oc (addl_carry d1 l) (a + b).
Proof.
  intros Hd Hl Ha Hb. pose proof (same_oc_add _ _ _ _ Ha Hb) as Hab. unfold addl_carry. destruct (Z.leb_spec (2 ^ 32) (d1 + l)); [|done].
  destruct Ha as (? & _), Hb as (? & _). unfold wrapu. rewrite <- (Z_mod_plus_full (d1 + l) (-1) (2 ^ 32)), Z.mod_small by lia. split; [lia|].
  eapply same_oc_trans; [|done]. split_and!; [lia..|]. rewrite <- (Z_mod_plus_full _ 65537 65535). f_equal. lia.
Qed.

Lemma field2 c p : field c p 2 = word_sum true (load c p 2).
Proof. unfold field, load. change (seqZ 0 2) with [0; 1]; change (seqZ 0 4) with [0; 1; 2; 3]; cbn. rewrite ?Z.add_0_r. lia. Qed.
Lemma field4_same c p : byte_range c p 4 -> field c p 4 < 2 ^ 32 /\ same_oc (field c p 4) (word_sum true (load c p 4)).
Proof.
  intros Hb. unfold field, load. change (seqZ 0 2) with [0; 1]; change (seqZ 0 4) with [0; 1; 2; 3]; cbn. rewrite ?Z.add_0_r. assert (forall k, 0 <= k < 4 -> 0 <= c (p + k) < 256) as Hk by (intros; apply Hb; lia).
  pose proof (Hk 0 ltac:(lia)) as H0. rewrite Z.add_0_r in H0. pose proof (Hk 1 ltac:(lia)). pose proof (Hk 2 ltac:(lia)). pose proof (Hk 3 ltac:(lia)).
  split; [lia|]. split_and!; [lia..|]. rewrite <- (Z_mod_plus_full (256 * c p + _) (256 * c p + c (p + 1)) 65535). f_equal. lia.
Qed.

Lemma ocsum_longs_same c n : forall p d1 a, byte_range c p (4 * Z.of_nat n) -> d1 < 2 ^ 32 -> same_oc d1 a ->
  ocsum_longs c p n d1 < 2 ^ 32 /\ same_oc (ocsum_longs c p n d1) (a + word_sum true (load c p (4 * Z.of_nat n))).
Proof.
  induction n as [|n IH]; intros p d1 a Hb Hd Ha; cbn [ocsum_longs].
  - rewrite load_nil. cbn. by rewrite Z.add_0_r.
  - destruct (field4_same c p) as [Hl Hs]; [intros q Hq; apply Hb; lia|]. destruct (addl_carry_same _ _ _ _ Hd Hl Ha Hs) as [Hd' Ha'].
    destruct (IH (p + 4) _ _ ltac:(intros q Hq; apply Hb; lia) Hd' Ha') as [H1 H2]. split; [done|]. eapply same_oc_trans; [done|].
    replace (4 * Z.of_nat (S n)) with (4 + 4 * Z.of_nat n) by lia. rewrite load_app, word_sum_app by lia.
    replace (length (load c p 4)) with 4%nat by (pose proof (load_length c p 4); lia). cbn [Nat.odd Nat.even negb xorb]. rewrite Z.add_assoc. apply same_oc_refl.
    destruct Ha as (_ & ? & _). pose proof (word_sum_nonneg true _ (byte_range_load c p 4 ltac:(intros q Hq; apply Hb; lia))).
    pose proof (word_sum_nonneg true _ (byte_range_load c (p + 4) (4 * Z.of_nat n) ltac:(intros q Hq; apply Hb; lia))). lia.
Qed.

Lemma ocsum_same c p n : 0 <= n < 2 ^ 16 -> byte_range c p (2 * n) -> same_oc (ocsum c p n) (word_sum true (load c p (2 * n))) /\ ocsum c p n <= 65535.
Proof.
  intros Hn Hb. unfold ocsum. rewrite (Z.shiftr_div_pow2 n 1) by lia. change (2 ^ 1) with 2. rewrite (wrapu_small 16) by (split; [apply Z.div_pos; lia|apply Z.div_lt_upper_bound; lia]). rewrite Z.bit0_odd.
  set (k := n / 2). pose proof (Zdiv2_odd_eqn n) as Hodd. rewrite Z.div2_div in Hodd. fold k in Hodd. assert (0 <= k) by (apply Z.div_pos; lia).
  destruct (ocsum_longs_same c (Z.to_nat k) p 0 0) as [H1 H2]; [intros q Hq; apply Hb; destruct (Z.odd n); lia|lia|by apply same_oc_refl|].
  rewrite Z2Nat.id in H2 by lia. set (d := ocsum_longs _ _ _ _) in *. rewrite Z.add_0_l in H2.
  set (d1 := if Z.odd n then _ else d). assert (d1 < 2 ^ 32 /\ same_oc d1 (word_sum true (load c p (2 * n)))) as [Hd1 Hs1].
  { unfold d1. destruct (Z.odd n).
    - replace (2 * n) with (4 * k + 2) by lia. rewrite load_app, word_sum_app by lia.
      assert (Nat.odd (length (load c p (4 * k))) = false) as -> by (replace (length (load c p (4 * k))) with (2 * Z.to_nat (2 * k))%nat by (pose proof (load_length c p (4 * k)); lia); by rewrite Nat.odd_mul).
      change (xorb true false) with true. rewrite <- field2. assert (0 <= field c (p + 4 * k) 2 < 65536).
      { rewrite field2. unfold load. change (seqZ 0 2) with [0; 1]. cbn. rewrite ?Z.add_0_r. assert (forall q, 0 <= q < 2 -> 0 <= c (p + 4 * k + q) < 256) as Hk by (intros; apply Hb; lia).
        pose proof (Hk 0 ltac:(lia)) as H0. rewrite Z.add_0_r in H0. pose proof (Hk 1 ltac:(lia)). lia. }
      apply addl_carry_same; [done|lia|done|]. apply same_oc_refl. lia.
    - replace (2 * n) with (4 * k) by lia. done. }
  clearbody d1. unfold wrapu. rewrite Z.shiftr_div_pow2 by lia.
  pose proof (Z.div_mod d1 (2 ^ 16) ltac:(lia)). pose proof (Z.mod_pos_bound d1 (2 ^ 16) ltac:(lia)). destruct Hs1 as (Hd0 & Hs1).
  assert (0 <= d1 / 2 ^ 16 < 2 ^ 16) by (split; [apply Z.div_pos; lia|apply Z.div_lt_upper_bound; lia]).
  set (s := d1 / 2 ^ 16 + d1 mod 2 ^ 16). assert (same_oc s d1) as Hs.
  { split_and!; [lia..|]. rewrite <- (Z_mod_plus_full s (d1 / 2 ^ 16) 65535). f_equal. lia. }
  assert (same_oc d1 (word_sum true (load c p (2 * n)))) as Hs2 by done. assert (s <= 131070) by lia. clearbody s.
  destruct (Z.leb_spec (2 ^ 16) s).
  - rewrite <- (Z_mod_plus_full s (-1) (2 ^ 16)), (Z.mod_small (s + _)) by lia. rewrite Z.mod_small by lia. split; [|lia].
    eapply same_oc_trans; [|done]. eapply same_oc_trans; [|done]. replace (s + -1 * 2 ^ 16 + 1) with (s - 65535) by lia. apply same_oc_sub. lia.
  - split; [by eapply same_oc_trans|lia].
Qed.

Lemma lor_byte h l : 0 <= l < 2 ^ 8 -> Z.lor (h * 2 ^ 8) l = h * 2 ^ 8 + l.
Proof.
  intros Hl. rewrite <- Z.add_lor_land. replace (Z.land (h * 2 ^ 8) l) with 0; [lia|]. symmetry. apply Z.bits_inj_0. intros n.
  rewrite Z.land_spec. destruct (Z.ltb_spec n 8); [by rewrite Z.mul_pow2_bits_low by lia|].
  rewrite <- (Z.mod_small l (2 ^ 8)) by lia. rewrite Z.mod_pow2_bits_high by lia. by rewrite andb_false_r.
Qed.

Lemma swab_same v a : 0 <= v <= 65535 -> same_oc v a -> same_oc (swab16 v) (256 * a) /\ swab16 v <= 65535.
Proof.
  intros Hv (_ & Ha & H0 & E). unfold swab16. change 255 with (Z.ones 8). rewrite Z.land_ones, Z.shiftl_mul_pow2, Z.shiftr_div_pow2 by lia.
  pose proof (Z.div_mod v (2 ^ 8) ltac:(lia)). pose proof (Z.mod_pos_bound v (2 ^ 8) ltac:(lia)). assert (0 <= v / 2 ^ 8 < 2 ^ 8) by (split; [apply Z.div_pos; lia|apply Z.div_lt_upper_bound; lia]).
  rewrite lor_byte by lia. split; [|lia]. split_and!; [lia..|]. rewrite (Z.mul_mod 256 a), <- E, <- Z.mul_mod by lia.
  rewrite <- (Z_mod_plus_full (v mod 2 ^ 8 * 2 ^ 8 + v / 2 ^ 8) (v / 2 ^ 8) 65535). f_equal. lia.
Qed.

(** ** in_cksum *)

Lemma odd_length {A} (l : list A) k : Z.of_nat (length l) = k -> Nat.odd (length l) = Z.odd k.
Proof. intros <-. apply eq_true_iff_eq. rewrite Nat.odd_spec, Z.odd_spec. split; intros [m Hm]; [exists (Z.of_nat m)|exists (Z.to_nat m)]; lia. Qed.

Lemma load_cons c p n : 0 < n -> load c p n = c p :: load c (p + 1) (n - 1).
Proof. intros Hn. replace n with (1 + (n - 1)) at 1 by lia. rewrite load_app by lia. unfold load at 1. change (seqZ 0 1) with [0]. cbn. by rewrite Z.add_0_r. Qed.
Lemma load_snoc c p n : 0 <= n -> load c p (n + 1) = load c p n ++ [c (p + n)].
Proof. intros Hn. rewrite load_app by lia. unfold load at 2. change (seqZ 0 1) with [0]. cbn. by rewrite Z.add_0_r. Qed.


(** The same bytes one place further: 256 times as much. *)
Lemma word_sum_swap bs : (exists k, 256 * word_sum true bs = word_sum false bs + 65535 * k) /\ exists k, 256 * word_sum false bs = word_sum true bs + 65535 * k.
Proof.
  induction bs as [|b bs [[k Hk] [k' Hk']]]; [by split; exists 0|]. cbn. split; [exists (b + k')|exists k]; lia.
Qed.
Lemma swap_same bs : Forall is_byte bs -> same_oc (256 * word_sum true bs) (word_sum false bs).
Proof.
  intros Hb. pose proof (word_sum_nonneg true _ Hb). pose proof (word_sum_nonneg false _ Hb). split_and!; [lia..| |].
  - assert (word_sum true bs = 0 <-> word_sum false bs = 0); [|lia]. clear H H0. induction Hb as [|b bs Hb Hbs IH]; [done|]. cbn.
    pose proof (word_sum_nonneg true _ Hbs). pose proof (word_sum_nonneg false _ Hbs). unfold is_byte in Hb. lia.
  - destruct (proj1 (word_sum_swap bs)) as [k ->]. rewrite Z.mul_comm. by rewrite Z_mod_plus_full.
Qed.

Lemma land1 x : (Z.land x 1 =? 0) = negb (Z.odd x).
Proof. change 1 with (Z.ones 1). rewrite Z.land_ones by lia. change (2 ^ 1) with 2. rewrite Zmod_odd. by destruct (Z.odd x). Qed.
Lemma shiftr1 x : 2 * Z.shiftr x 1 = x - (if Z.odd x then 1 else 0).
Proof. rewrite <- Z.div2_spec. pose proof (Zdiv2_odd_eqn x). destruct (Z.odd x); lia. Qed.

Lemma add_small sum S v b k : same_oc sum S -> same_oc v b -> v <= k -> sum + k < 2 ^ 31 -> i32 (sum + v) = sum + v /\ same_oc (sum + v) (S + b).
Proof. intros Hs Hv Hk Hsum. split; [|by apply same_oc_add]. destruct Hs as (? & _), Hv as (? & _). apply wraps_small; lia. Qed.

Lemma piece_spec c w k sum S : 0 <= k < 2 ^ 15 -> byte_range c w k -> same_oc sum S -> sum + 131070 < 2 ^ 31 ->
  exists sum', cksum_piece c w k sum = (sum', Z.odd k) /\ same_oc sum' (S + word_sum true (load c w k)) /\ sum' <= sum + 131070.
Proof.
  intros Hk Hb Hs Hlt. unfold cksum_piece. destruct (Z.ltb_spec 0 k) as [H0|].
  2: { assert (k = 0) as -> by lia. rewrite load_nil. exists sum. cbn. rewrite Z.add_0_r. split_and!; [done..|lia]. }
  assert (forall q, w <= q < w + k -> 0 <= c q < 256) as Hc by apply Hb. rewrite !land1. destruct (Z.odd w); cbn [negb].
  - rewrite load_cons by lia. cbn [word_sum negb]. set (k' := k - 1). set (n := Z.shiftr k' 1). pose proof (shiftr1 k') as Hn. fold n in Hn.
    rewrite Z.shiftl_mul_pow2 by lia. pose proof (Hc w ltac:(lia)).
    destruct (ocsum_same c (w + 1) n) as [Ho Ho2]; [destruct (Z.odd k'); lia|intros q Hq; apply Hb; destruct (Z.odd k'); lia|].
    destruct (swab_same _ _ (conj (proj1 Ho) Ho2) Ho) as [Hw Hw2].
    assert (Forall is_byte (load c (w + 1) (2 * n))) as Hbl by (apply byte_range_load; intros q Hq; apply Hb; destruct (Z.odd k'); lia).
    assert (same_oc (swab16 (ocsum c (w + 1) n)) (word_sum false (load c (w + 1) (2 * n)))) as Hw' by (eapply same_oc_trans; [done|by apply swap_same]).
    destruct (add_small sum S (c w * 2 ^ 8) (256 * c w) 65280 Hs) as [-> Hs1]; [rewrite Z.mul_comm; apply same_oc_refl; lia|lia..|].
    destruct (add_small _ _ _ _ 65535 Hs1 Hw') as [-> Hs2]; [lia..|].
    assert (Z.odd k = negb (Z.odd k')) as -> by (unfold k'; rewrite Z.odd_sub; by destruct (Z.odd k)).
    destruct (Z.odd k') eqn:Eo; cbn [negb].
    + assert (0 <= c (w + 1 + 2 * n) < 256) by (apply Hc; lia).
      destruct (add_small _ _ (c (w + 1 + 2 * n)) (c (w + 1 + 2 * n)) 255 Hs2) as [-> Hs3]; [apply same_oc_refl; lia|lia..|].
      eexists. split; [done|]. split; [|lia]. replace k' with (2 * n + 1) by lia. rewrite load_snoc, word_sum_app by lia.
      rewrite (odd_length _ (2 * n)) by (apply load_length; lia). rewrite Z.odd_mul. cbn. by rewrite Z.add_0_r, !Z.add_assoc in *.
    + eexists. split; [done|]. split; [|lia]. replace k' with (2 * n) by lia. by rewrite !Z.add_assoc in *.
  - set (n := Z.shiftr k 1). pose proof (shiftr1 k) as Hn. fold n in Hn.
    destruct (ocsum_same c w n) as [Ho Ho2]; [destruct (Z.odd k); lia|intros q Hq; apply Hb; destruct (Z.odd k); lia|].
    destruct (add_small _ _ _ _ 65535 Hs Ho) as [-> Hs2]; [lia..|].
    destruct (Z.odd k) eqn:Eo; cbn [negb].
    + rewrite Z.shiftl_mul_pow2 by lia. assert (0 <= c (w + 2 * n) < 256) by (apply Hc; lia).
      destruct (add_small _ _ (c (w + 2 * n) * 2 ^ 8) (256 * c (w + 2 * n)) 65280 Hs2) as [-> Hs3]; [rewrite Z.mul_comm; apply same_oc_refl; lia|lia..|].
      eexists. split; [done|]. split; [|lia]. replace k with (2 * n + 1) by lia. rewrite load_snoc, word_sum_app by lia.
      rewrite (odd_length _ (2 * n)) by (apply load_length; lia). rewrite Z.odd_mul. cbn [Z.odd andb xorb word_sum]. by rewrite Z.add_0_r, !Z.add_assoc in *.
    + eexists. split; [done|]. split; [|lia]. by replace k with (2 * n) by lia.
Qed.

Lemma seg_spec c w n sum (odd : bool) len S : 0 <= n < 2 ^ 15 -> (odd = true -> 0 < n) -> 0 < len -> byte_range c w n -> same_oc sum S -> sum + 131325 < 2 ^ 31 ->
  exists sum', cksum_seg c w n sum odd len = (sum', xorb odd (Z.odd (Z.min len n)), len - Z.min len n) /\
    same_oc sum' (S + word_sum (negb odd) (load c w (Z.min len n))) /\ sum' <= sum + 131325.
Proof.
  intros Hn Ho Hl Hb Hs Hlt. unfold cksum_seg. destruct odd; cbn [negb].
  - specialize (Ho eq_refl). assert (is_byte (c w)) as Hcw by (apply Hb; lia). unfold is_byte in Hcw.
    destruct (add_small sum S (c w) (c w) 255 Hs) as [-> Hs1]; [apply same_oc_refl; lia|lia..|].
    replace (if len - 1 <? n - 1 then len - 1 else n - 1) with (Z.min len n - 1) by (destruct (Z.ltb_spec (len - 1) (n - 1)); lia). set (k := Z.min len n - 1).
    destruct (piece_spec c (w + 1) k _ _ ltac:(lia) ltac:(intros q Hq; apply Hb; lia) Hs1 ltac:(lia)) as (sum' & -> & Hs' & Hle).
    exists sum'. split_and!; [|rewrite load_cons by lia; cbn; by rewrite Z.add_assoc|lia].
    f_equal; [f_equal|lia]. replace (Z.min len n) with (k + 1) by lia. rewrite Z.odd_add. by destruct (Z.odd k).
  - replace (if len <? n then len else n) with (Z.min len n) by (destruct (Z.ltb_spec len n); lia).
    destruct (piece_spec c w (Z.min len n) _ _ ltac:(lia) ltac:(intros q Hq; apply Hb; lia) Hs ltac:(lia)) as (sum' & -> & Hs' & Hle).
    exists sum'. split_and!; [by destruct (Z.odd _)|done|lia].
Qed.

Lemma ones_small x : 0 <= x <= 65535 -> ones x = x.
Proof. intros Hx. unfold ones. destruct (Z.eqb_spec x 0); [lia|]. rewrite Z.mod_small; lia. Qed.

Lemma fold16 s : 0 <= s < 2 ^ 31 -> i32 (Z.land s 65535 + Z.shiftr s 16) = s mod 2 ^ 16 + s / 2 ^ 16 /\ same_oc (s mod 2 ^ 16 + s / 2 ^ 16) s.
Proof.
  intros Hs. change 65535 with (Z.ones 16). rewrite Z.land_ones, Z.shiftr_div_pow2 by lia. change (Z.ones 16) with 65535.
  pose proof (Z.div_mod s (2 ^ 16) ltac:(lia)). pose proof (Z.mod_pos_bound s (2 ^ 16) ltac:(lia)).
  assert (0 <= s / 2 ^ 16 < 2 ^ 15) by (split; [apply Z.div_pos; lia|apply Z.div_lt_upper_bound; lia]).
  split; [apply wraps_small; lia|]. split_and!; [lia..|]. rewrite <- (Z_mod_plus_full (_ + _) (s / 2 ^ 16) 65535). f_equal. lia.
Qed.

Lemma done_spec s S : s < 2 ^ 31 -> same_oc s S -> cksum_done s = 65535 - ones S.
Proof.
  intros Hs HS. assert (0 <= s) as H0 by apply HS. unfold cksum_done. destruct (fold16 s) as [-> H1]; [lia|]. set (s1 := s mod _ + _) in *.
  assert (0 <= s1 <= 98302).
  { unfold s1. pose proof (Z.mod_pos_bound s (2 ^ 16) ltac:(lia)). assert (0 <= s / 2 ^ 16 < 2 ^ 15) by (split; [apply Z.div_pos; lia|apply Z.div_lt_upper_bound; lia]). lia. }
  destruct (fold16 s1) as [-> H2]; [lia|]. assert (same_oc (s1 mod 2 ^ 16 + s1 / 2 ^ 16) S) as H3 by (eapply same_oc_trans; [done|]; by eapply same_oc_trans).
  set (s2 := s1 mod _ + _) in *. assert (0 <= s2 <= 65535).
  { unfold s2. pose proof (Z.div_mod s1 (2 ^ 16) ltac:(lia)). pose proof (Z.mod_pos_bound s1 (2 ^ 16) ltac:(lia)).
    assert (0 <= s1 / 2 ^ 16 < 2) by (split; [apply Z.div_pos; lia|apply Z.div_lt_upper_bound; lia]). lia. }
  rewrite <- (same_oc_ones _ _ H3), ones_small by lia. change 65535 with (Z.ones 16) at 1. rewrite Z.land_ones by lia. unfold Z.lnot.
  rewrite <- (Z_mod_plus_full _ 1 (2 ^ 16)), Z.mod_small; lia.
Qed.

Section Sound.
Context {M H : Type} `{RM : !ResMap M}.
Context (mbutl : Z).
Implicit Type st : mbst M H.

Lemma seg_content st a x m len : in_use st a x -> sized mbutl a x -> 0 < len ->
  take (Z.to_nat len) (content st (a :: m)) = load (core st) (mtod a x) (Z.min len (m_len x)) ++ (if len <=? m_len x then [] else take (Z.to_nat (len - m_len x)) (content st m)) /\
  Z.of_nat (length (content st (a :: m))) = m_len x + Z.of_nat (length (content st m)).
Proof.
  intros Hu [Hs _] Hl. rewrite content_cons, (bytes_data _ _ _ Hu), length_app. unfold data. pose proof (load_length (core st) (mtod a x) (m_len x) ltac:(lia)).
  split; [|lia]. destruct (Z.leb_spec len (m_len x)).
  - rewrite Z.min_l, app_nil_r by done. rewrite take_app_le by lia. apply load_take. lia.
  - rewrite Z.min_r by lia. rewrite take_app_ge by lia. do 2 f_equal. lia.
Qed.

(** What the loop has to give for a chain [m], from a sum the same as [S]. *)
Definition sums st (m : list Z) (r : Z -> bool -> Z -> res (Z * bool)) : Prop := forall sum odd len S, Forall is_byte (content st m) -> 0 < len -> same_oc sum S ->
  sum + 131325 * Z.of_nat (length m) < 2 ^ 31 ->
  r sum odd len = Ok (65535 - ones (S + word_sum (negb odd) (take (Z.to_nat len) (content st m))), bool_decide (Z.of_nat (length (content st m)) < len)).

Lemma trip_spec st a x m sum (odd : bool) len S : in_use st a x -> sized mbutl a x -> sums st m (fun sum odd len => cksum_next m sum odd len st) ->
  Forall is_byte (content st (a :: m)) -> 0 < len -> same_oc sum S -> sum + 131325 * Z.of_nat (length (a :: m)) < 2 ^ 31 -> (odd = true -> 0 < m_len x) ->
  (let '(sum, odd, len) := cksum_seg (core st) (mtod a x) (m_len x) sum odd len in
   if len =? 0 then mret (cksum_done sum, false) else cksum_next m sum odd len st) =
  Ok (65535 - ones (S + word_sum (negb odd) (take (Z.to_nat len) (content st (a :: m)))), bool_decide (Z.of_nat (length (content st (a :: m))) < len)).
Proof.
  intros Hu Hx IH Hb Hl Hs Hlt Ho. destruct (seg_content st a x m len Hu Hx Hl) as [Et El]. rewrite Et, El.
  rewrite content_cons, (bytes_data _ _ _ Hu) in Hb. apply Forall_app in Hb as [Hbx Hb]. assert (0 <= m_len x < 2 ^ 15) as Hmx by apply Hx. cbn [length] in Hlt.
  assert (byte_range (core st) (mtod a x) (m_len x)) as Hbr.
  { intros q Hq. unfold data, load in Hbx. rewrite Forall_fmap in Hbx. rewrite Forall_forall in Hbx. specialize (Hbx (q - mtod a x)). cbn in Hbx.
    replace (mtod a x + (q - mtod a x)) with q in Hbx by lia. apply Hbx, elem_of_seqZ. lia. }
  destruct (seg_spec (core st) (mtod a x) (m_len x) sum odd len S) as (sum' & -> & Hs' & Hle); [done..|lia|].
  destruct (Z.eqb_spec (len - Z.min len (m_len x)) 0) as [Ez|Ez].
  - rewrite (proj2 (Z.leb_le _ _)) by lia. rewrite app_nil_r, bool_decide_eq_false_2 by lia. by rewrite (done_spec sum' _ ltac:(lia) Hs').
  - assert (m_len x < len) by lia. rewrite (proj2 (Z.leb_gt _ _)) by lia. rewrite Z.min_r in * by lia. rewrite (IH sum' _ (len - m_len x) _ Hb ltac:(lia) Hs') by lia.
    rewrite word_sum_app, (odd_length _ (m_len x)) by (apply load_length; lia). rewrite Z.add_assoc. f_equal. f_equal; [|apply bool_decide_ext; lia].
    by rewrite negb_xorb_l.
Qed.

Lemma next_spec st m : chain mbutl st m -> sums st m (fun sum odd len => cksum_next m sum odd len st).
Proof.
  induction m as [|a m IH]; intros Hc sum odd len S Hb Hl Hs Hlt; cbn [cksum_next].
  - rewrite (done_spec sum S) by (done || cbn in Hlt; lia). change (content st []) with (@nil Z). rewrite take_nil. cbn. rewrite Z.add_0_r, bool_decide_eq_true_2 by done. done.
  - apply chain_cons in Hc as (Ha & (x & Hu & Hx) & Hc). unfold get_mb. rewrite (proj1 Hu). kstep. pose proof (proj1 Hx).
    destruct (Z.eqb_spec (m_len x) 0) as [E0|E0]; [|by apply trip_spec; auto; lia].
    destruct (seg_content st a x m len Hu Hx Hl) as [Et El]. rewrite Et, El, E0, Z.min_r, load_nil, (proj2 (Z.leb_gt _ _)), Z.sub_0_r by lia.
    rewrite content_cons in Hb. apply Forall_app in Hb as [_ Hb]. apply IH; [done..|cbn [length] in Hlt; lia].
Qed.

Lemma in_cksum_spec st m len : chain mbutl st m -> Forall is_byte (content st m) -> m <> [] -> 0 <= len -> Z.of_nat (length m) <= 16000 ->
  in_cksum m len st = Ok (checksum (take (Z.to_nat len) (content st m)), bool_decide (Z.of_nat (length (content st m)) < len)).
Proof.
  intros Hch Hb Hm Hl Hlt. destruct m as [|a m]; [done|]. pose proof Hch as (Ha & (x & Hu & Hx) & Hc)%chain_cons. unfold in_cksum, get_mb. rewrite (proj1 Hu). kstep.
  pose proof (proj1 Hx) as Hmx. rewrite land1. destruct ((len <=? m_len x) && negb (Z.odd len)) eqn:Ef.
  - apply andb_true_iff in Ef as [Hle%Z.leb_le Ho%negb_true_iff]. pose proof (shiftr1 len) as Hn. rewrite Ho in Hn. set (n := Z.shiftr len 1) in *.
    assert (Forall is_byte (take (Z.to_nat len) (content st (a :: m)))) as Hbt by by apply Forall_take.
    assert (take (Z.to_nat len) (content st (a :: m)) = load (core st) (mtod a x) (2 * n)) as Et.
    { rewrite Hn, Z.sub_0_r. rewrite content_cons, (bytes_data _ _ _ Hu). unfold data. pose proof (load_length (core st) (mtod a x) (m_len x) ltac:(lia)).
      rewrite take_app_le by lia. apply load_take. lia. }
    rewrite Et in *. destruct (ocsum_same (core st) (mtod a x) n) as [Hs Hle']; [lia| |].
    { intros q Hq. unfold load in Hbt. rewrite Forall_fmap in Hbt. rewrite Forall_forall in Hbt. specialize (Hbt (q - mtod a x)). cbn in Hbt.
      replace (mtod a x + (q - mtod a x)) with q in Hbt by lia. apply Hbt, elem_of_seqZ. lia. }
    assert (0 <= ocsum (core st) (mtod a x) n) by apply Hs.
    rewrite bool_decide_eq_false_2 by (destruct (decide (len = 0)); [lia|destruct (seg_content st a x m len Hu Hx ltac:(lia)) as [_ ->]; lia]).
    unfold checksum. rewrite <- (same_oc_ones _ _ Hs), ones_small by lia. do 2 f_equal. rewrite Z.land_comm. change 65535 with (Z.ones 16) at 1. rewrite Z.land_ones by lia.
    unfold Z.lnot. rewrite <- (Z_mod_plus_full _ 1 (2 ^ 16)), Z.mod_small; lia.
  - apply andb_false_iff in Ef as Ef'. assert (0 < len). { destruct (decide (len = 0)) as [->|]; [|lia]. destruct Ef' as [?%Z.leb_gt|]; [lia|done]. }
    unfold checksum. rewrite <- (Z.add_0_l (word_sum true _)). apply (trip_spec st a x m 0 false len 0); try done; [by apply next_spec|]. cbn [length] in *. lia.
Qed.

Lemma checksum_range bs : Forall is_byte bs -> 0 <= checksum bs <= 65535.
Proof. intros Hb. unfold checksum. destruct (ones_same _ (word_sum_nonneg true _ Hb)). lia. Qed.

Lemma word_sum_mid l1 a b l2 : Nat.even (length l1) = true -> word_sum true (l1 ++ [a; b] ++ l2) = word_sum true l1 + (256 * a + b) + word_sum true l2.
Proof. intros He. rewrite !word_sum_app. rewrite <- Nat.negb_even, He. cbn. lia. Qed.

Lemma ones_zero s : 0 <= s -> ones s = 65535 <-> s <> 0 /\ s mod 65535 = 0.
Proof.
  intros Hs. destruct (ones_same s Hs) as [(_ & _ & H0 & E) Hr]. split.
  - intros E1. rewrite E1 in *. split; [lia|]. rewrite <- E. done.
  - intros [Hn E0]. rewrite E0 in E. assert (ones s <> 0) by tauto. pose proof (Z.div_mod (ones s) 65535 ltac:(lia)). lia.
Qed.

(** The checksum put where zeros were makes the checksum zero. *)
Lemma checksum_self l1 l2 : Nat.even (length l1) = true -> Forall is_byte l1 -> Forall is_byte l2 ->
  let v := checksum (l1 ++ [0; 0] ++ l2) in checksum (l1 ++ [v / 256; v mod 256] ++ l2) = 0.
Proof.
  intros He H1 H2 v. assert (0 <= v <= 65535) as Hv by (apply checksum_range; repeat (apply Forall_app; split); auto; do 2 (constructor; [done|]); constructor).
  pose proof (word_sum_nonneg true _ H1) as Hn1. pose proof (word_sum_nonneg true _ H2) as Hn2. unfold checksum at 1. rewrite word_sum_mid by done.
  pose proof (Z.div_mod v 256 ltac:(lia)) as Hdm. rewrite <- Hdm. set (s := word_sum true l1 + word_sum true l2).
  assert (v = 65535 - ones s) as Ev by (unfold v, checksum; rewrite word_sum_mid by done; do 2 f_equal; lia).
  destruct (ones_same s) as [(_ & _ & H0 & E) Hr]; [lia|]. replace (word_sum true l1 + v + word_sum true l2) with (s + v) by lia.
  enough (ones (s + v) = 65535) by lia. apply ones_zero; [lia|]. split; [rewrite Ev; lia|].
  rewrite Ev. rewrite <- Zplus_mod_idemp_l, <- E, Zplus_mod_idemp_l. by replace (ones s + (65535 - ones s)) with 65535 by lia.
Qed.

(** C12: in_cksum computes the internet checksum of the first [len] bytes of a chain, wherever its mbufs end and
    whatever their alignment: the complement of the ones' complement sum of the 16-bit words.  When the chain is
    shorter it says so and sums all of it.  (The number of mbufs bounds the sum, an int.) *)
Theorem in_cksum_sound st m len : chain mbutl st m -> Forall is_byte (content st m) -> m <> [] -> 0 <= len -> Z.of_nat (length m) <= 16000 ->
  in_cksum m len st = Ok (checksum (take (Z.to_nat len) (content st m)), bool_decide (Z.of_nat (length (content st m)) < len)).
Proof. apply in_cksum_spec. Qed.

Lemma whole_cksum st m : chain mbutl st m -> Forall is_byte (content st m) -> m <> [] -> Z.of_nat (length m) <= 16000 ->
  in_cksum m (Z.of_nat (length (content st m))) st = Ok (checksum (content st m), false).
Proof.
  intros Hc Hb Hne Hm. rewrite in_cksum_spec by (done || lia). rewrite Nat2Z.id, take_ge by lia. by rewrite bool_decide_eq_false_2 by lia.
Qed.

(** C13: a packet that carries its own checksum checks: with the result of in_cksum put, as a word, in the place of a
    word that was zero, in_cksum gives 0. *)
Theorem in_cksum_verifies st st1 m l1 l2 v : chain mbutl st m -> chain mbutl st1 m -> Z.of_nat (length m) <= 16000 -> Forall is_byte (content st m) ->
  content st m = l1 ++ [0; 0] ++ l2 -> Nat.even (length l1) = true -> in_cksum m (Z.of_nat (length (content st m))) st = Ok (v, false) ->
  content st1 m = l1 ++ [v / 256; v mod 256] ++ l2 -> in_cksum m (Z.of_nat (length (content st1 m))) st1 = Ok (0, false).
Proof.
  intros Hc Hc1 Hm Hb E He Hr E1. assert (m <> []) as Hne by (intros ->; by destruct l1).
  rewrite (whole_cksum st m) in Hr by done. injection Hr as Ev. pose proof (checksum_range _ Hb) as Hv. rewrite Ev in Hv. rewrite E in Hb.
  apply Forall_app in Hb as [H1 Hb]. apply Forall_app in Hb as [_ H2].
  rewrite whole_cksum; [|done| |done..].
  - rewrite E1. pose proof (checksum_self l1 l2 He H1 H2) as Hs. cbv zeta in Hs. rewrite <- E, Ev in Hs. by rewrite Hs.
  - rewrite E1. apply Forall_app. split; [done|]. constructor; [split; [apply Z.div_pos; lia|apply Z.div_lt_upper_bound; lia]|]. constructor; [apply Z.mod_pos_bound; lia|done].
Qed.

(** corruption shows: two packets that differ in one word, by anything but a multiple of 65535, do not both check. *)
Theorem in_cksum_detects st1 st2 m k1 k2 a b a' b' : chain mbutl st1 m -> chain mbutl st2 m -> Z.of_nat (length m) <= 16000 ->
  Forall is_byte (content st1 m) -> Forall is_byte (content st2 m) -> content st1 m = k1 ++ [a; b] ++ k2 -> content st2 m = k1 ++ [a'; b'] ++ k2 ->
  Nat.even (length k1) = true -> (256 * a + b) mod 65535 <> (256 * a' + b') mod 65535 ->
  in_cksum m (Z.of_nat (length (content st1 m))) st1 = Ok (0, false) ->
  exists w, in_cksum m (Z.of_nat (length (content st2 m))) st2 = Ok (w, false) /\ w <> 0.
Proof.
  intros Hc1 Hc2 Hm B1 B2 E1 E2 He Hab. assert (m <> []) as Hne by (intros ->; by destruct k1).
  rewrite !whole_cksum by done. intros [= H0]. eexists. split; [done|]. intros H0'. apply Hab.
  unfold checksum in H0, H0'.
  destruct (proj1 (ones_zero _ (word_sum_nonneg true _ B1)) ltac:(lia)) as [_ Z1]. destruct (proj1 (ones_zero _ (word_sum_nonneg true _ B2)) ltac:(lia)) as [_ Z2].
  rewrite E1, word_sum_mid in Z1 by done. rewrite E2, word_sum_mid in Z2 by done.
  replace (256 * a + b) with ((256 * a' + b') + ((word_sum true k1 + (256 * a + b) + word_sum true k2) - (word_sum true k1 + (256 * a' + b') + word_sum true k2))) by lia.
  rewrite Zplus_mod, Zminus_mod, Z1, Z2. cbn. rewrite Z.add_0_r. apply Z.mod_mod. lia.
Qed.
End Sound.

(** ** Checksums of a chain the theorems apply to

    Nineteen bytes and a hundred: the second mbuf starts in the low byte of a word, and its pieces are
    summed the wrong way round. *)

(** [p3] with a byte less in [ma], and [bs] written at byte 10 of it. *)
Definition xa19 : mbuf := set_len xa 19.
Definition packet (bs : list Z) : mbst rmap unit := set_core (put_mb ma xa19 p3) (store (core p3) (mtod ma xa19 + 10) bs).
Definition blank : mbst rmap unit := packet [0; 0].
Definition ck : Z := match in_cksum [ma; mb] 119 blank with Ok (v, _) => v | _ => 0 end.
Definition signed : mbst rmap unit := packet [ck / 256; ck mod 256].

Lemma packet_chain bs : chain base (packet bs) [ma; mb].
Proof.
  split; [exact (proj1 p3_chain)|]. intros a Ha. destruct p3_headers as [_ E2]. apply elem_of_cons in Ha as [E|Ha].
  - rewrite E. exists xa19. split; [split; [vm_compute; reflexivity|discriminate]|]. clear. split; [by vm_compute|left; by vm_compute].
  - apply list_elem_of_singleton in Ha. rewrite Ha. exists xb. split; [split; [|discriminate]|clear; split; [by vm_compute|left; by vm_compute]].
    change (<[ma:=xa19]> (mbs p3) !! mb = Some xb). rewrite lookup_insert_ne; [exact E2|discriminate].
Qed.

Lemma packet_bytes bs : bs = [0; 0] \/ bs = [ck / 256; ck mod 256] -> Forall is_byte (content (packet bs) [ma; mb]).
Proof. intros [E|E]; rewrite E; apply (bool_decide_unpack _); vm_compute; exact I. Qed.

Lemma in_cksum_sound_witness : in_cksum [ma; mb] 119 blank = Ok (checksum (take 119 (content blank [ma; mb])), false).
Proof.
  assert (Z.of_nat (length (content blank [ma; mb])) = 119) as El by (vm_compute; reflexivity).
  rewrite (in_cksum_sound base blank [ma; mb] 119 (packet_chain _) (packet_bytes _ (or_introl eq_refl))); [|discriminate|discriminate|discriminate].
  rewrite El. reflexivity.
Defined.

Definition front : list Z := take 10 (content blank [ma; mb]).
Definition back : list Z := drop 12 (content blank [ma; mb]).

Lemma in_cksum_verifies_witness : in_cksum [ma; mb] 119 signed = Ok (0, false).
Proof.
  assert (Z.of_nat (length (content signed [ma; mb])) = 119) as El by (vm_compute; reflexivity). rewrite <- El.
  apply (in_cksum_verifies base blank signed [ma; mb] front back ck (packet_chain _) (packet_chain _)).
  - discriminate.
  - apply packet_bytes. left. reflexivity.
  - vm_compute. reflexivity.
  - vm_compute. reflexivity.
  - vm_compute. reflexivity.
  - vm_compute. reflexivity.
Defined.

(** The same with another word in the place of the checksum. *)
Lemma in_cksum_detects_witness : exists w, in_cksum [ma; mb] 119 blank = Ok (w, false) /\ w <> 0.
Proof.
  assert (Z.of_nat (length (content blank [ma; mb])) = 119) as El by (vm_compute; reflexivity). rewrite <- El.
  apply (in_cksum_detects base signed blank [ma; mb] front back (ck / 256) (ck mod 256) 0 0 (packet_chain _) (packet_chain _)).
  - discriminate.
  - apply packet_bytes. right. reflexivity.
  - apply packet_bytes. left. reflexivity.
  - vm_compute. reflexivity.
  - vm_compute. reflexivity.
  - vm_compute. reflexivity.
  - vm_compute. discriminate.
  - vm_compute. reflexivity.
Defined.
