(* ===== verification/Reass.v ===== *)
(** * Reassembly queues

    TCP and IP keep what arrives out of order in the same way ([tcp_reass] of [netinet/tcp_input.c], [ip_reass] of
    [netinet/ip_input.c]): a list of pieces sorted by where they begin, no two of which overlap.  A new
    piece gives up what the one before it has, takes what it overlaps off those after it, and
    frees those it covers.  They differ in the arithmetic of positions, which is a class.

    The theorem of this file is that the queue stays sorted, apart and true to one stream of bytes,
    and holds after an insertion exactly the places it held before and those of the new piece. *)

From S2P Require Import Prelude Flags Rmap Mbuf MbufThms MbufOps MbufTrim.
From stdpp Require Import prelude list numbers strings gmap sorting.
From Stdlib Require Import ZArith Lia Sorted.

Local Open Scope Z_scope.
Local Open Scope kern_scope.

(** ** Positions *)

(** [gap x y]: [x - y] as the code computes it; [adv x n]: [x + n] as it is stored. *)
Class SeqOps := { gap : Z -> Z -> Z; adv : Z -> Z -> Z }.

(** A window of places of a stream: [sq_at o] is how place [o] is written, [sq_pl] reads it back. *)
Class SeqSpace (SO : SeqOps) := {
  sq_at : Z -> Z; sq_pl : Z -> Z;
  sq_lo : Z; sq_hi : Z;
  sq_pl_at o : sq_lo <= o <= sq_hi -> sq_pl (sq_at o) = o;
  sq_gap a n b : sq_lo <= a -> 0 <= n -> a + n <= sq_hi -> sq_lo <= b <= sq_hi -> gap (sq_at a + n) (sq_at b) = a + n - b;
  sq_adv a n : sq_lo <= a -> 0 <= n -> a + n <= sq_hi -> adv (sq_at a) n = sq_at (a + n)
}.

(** ** The queue *)

(** What a header in the first mbuf of a piece says: its place, its length, its flags; the mbufs, the first of
    which is [dtom] of the header. *)
Record seg := Seg { sg_seq : Z; sg_len : Z; sg_flag : Z; sg_m : list Z }.

Section Queue.
Context {M H : Type} `{RM : !ResMap M} `{SO : !SeqOps}.
Context (mbutl : Z).
Implicit Type st : mbst M H.

(** The pieces that begin before [seq] or there, and the others. *)
Fixpoint before (seq : Z) (l : list seg) : list seg * list seg :=
  match l with
  | [] => ([], [])
  | q :: l' => if 0 <? gap (sg_seq q) seq then ([], l) else let '(a, b) := before seq l' in (q :: a, b)
  end.

(** [s->seq += i; s->len -= i], and the data. *)
Definition cut (i : Z) (s : seg) : seg := Seg (adv (sg_seq s) i) (i16 (sg_len s - i)) (sg_flag s) (sg_m s).

(** What the piece before has is dropped; nothing may be left. *)
Definition trim_new (pre : list seg) (ti : seg) st : res (option seg * mbst M H) :=
  match last pre with
  | None => mret (Some ti, st)
  | Some q =>
      let i := gap (sg_seq q + sg_len q) (sg_seq ti) in
      if 0 <? i then
        if sg_len ti <=? i then st ← m_freem mbutl (sg_m ti) st; mret (None, st)
        else st ← m_adj (sg_m ti) i st; mret (Some (cut i ti), st)
      else mret (Some ti, st)
  end.

(** What the new piece has of those after it is taken off them. *)
Fixpoint trim_old (ti : seg) (l : list seg) st : res (list seg * mbst M H) :=
  match l with
  | [] => mret ([], st)
  | q :: l' =>
      let i := gap (sg_seq ti + sg_len ti) (sg_seq q) in
      if i <=? 0 then mret (l, st)
      else if i <? sg_len q then st ← m_adj (sg_m q) i st; mret (cut i q :: l', st)
      else st ← m_freem mbutl (sg_m q) st; trim_old ti l' st
  end.

(** The new queue, and whether the piece is in it. *)
Definition reass_insert (ti : seg) (l : list seg) st : res (bool * list seg * mbst M H) :=
  let '(pre, post) := before (sg_seq ti) l in
  '(r, st) ← trim_new pre ti st;
  match r with
  | None => mret (false, l, st)
  | Some ti => '(post, st) ← trim_old ti post st; mret (true, pre ++ ti :: post, st)
  end.
End Queue.

(** ** Chains that do not share mbufs *)

Section Owned.
Context {M H : Type} `{RM : !ResMap M}.
Context (mbutl : Z).
Implicit Type st : mbst M H.

(** The mbufs of [m] are neither funny nor the end of a record. *)
Definition plain st (m : list Z) : Prop := forall a x, a ∈ m -> in_use st a x -> (inline x \/ clustered a x) /\ m_act x = 0.
(** The first mbuf of [m] is small, and has room for the header before its data. *)
Definition headed st (m : list Z) : Prop := exists a m', m = a :: m' /\ forall x, in_use st a x -> inline x /\ MMINOFF + 20 <= m_off x.
(** The chains [ls], apart from each other and from the mbufs [b]. *)
Definition owned st (b : list Z) (ls : list (list Z)) : Prop :=
  mb_wf mbutl st /\ chain mbutl st (b ++ concat ls) /\ plain st (concat ls) /\ Forall (headed st) ls.
Definition same_content st st' (ls : list (list Z)) : Prop := forall m, m ∈ ls -> content st' m = content st m.

Lemma plain_funny st m : plain st m -> no_funny st m.
Proof. intros Hp a x Ha Hu. by apply (Hp a x). Qed.

Lemma chain_perm st m1 m2 : m1 ≡ₚ m2 -> chain mbutl st m1 -> chain mbutl st m2.
Proof. intros Hp [H1 H2]. split; [by rewrite <- Hp|]. intros a Ha. apply H2. by rewrite Hp. Qed.
Lemma owned_perm st b ls ls' : ls ≡ₚ ls' -> owned st b ls -> owned st b ls'.
Proof.
  intros Hp (Hw & Hc & Hn & Hh). assert (concat ls ≡ₚ concat ls') as Hp' by (by rewrite Hp).
  split_and!; [done|eapply chain_perm; [|done]; by rewrite Hp'| |by rewrite <- Hp]. intros a x Ha. apply Hn. by rewrite Hp'.
Qed.

Lemma owned_split st b m ls : owned st b (m :: ls) <-> mb_wf mbutl st /\ chain mbutl st m /\ plain st m /\ chain mbutl st (b ++ concat ls) /\ plain st (concat ls) /\
  (forall a, a ∈ m -> a ∉ b ++ concat ls) /\ headed st m /\ Forall (headed st) ls.
Proof.
  unfold owned. cbn [concat]. split.
  - intros (Hw & Hc & Hn & [Hh Hhs]%Forall_cons). assert (chain mbutl st (m ++ (b ++ concat ls))) as [(N1 & N2 & N3)%NoDup_app Hu].
    { eapply chain_perm; [|done]. rewrite !app_assoc. by rewrite (Permutation_app_comm b m). }
    split_and!; [done|split; [done|]; intros a Ha; apply Hu; apply elem_of_app; by left|intros a x Ha; apply Hn; apply elem_of_app; by left|
      split; [done|]; intros a Ha; apply Hu; apply elem_of_app; by right|intros a x Ha; apply Hn; apply elem_of_app; by right|done..].
  - intros (Hw & Hm & Hnm & Hc & Hn & Hd & Hh & Hhs). split_and!; [done| |intros a x [Ha|Ha]%elem_of_app; [by apply Hnm|by apply Hn]|by constructor].
    eapply (chain_perm st (m ++ (b ++ concat ls))); [rewrite !app_assoc; by rewrite (Permutation_app_comm b m)|]. by apply chain_app.
Qed.

Lemma chain_in st b ls m : chain mbutl st (b ++ concat ls) -> m ∈ b :: ls -> chain mbutl st m /\ forall a, a ∈ m -> a ∈ b ++ concat ls.
Proof.
  intros [(N1 & _ & N3)%NoDup_app Hu] Hm. assert (forall a, a ∈ m -> a ∈ b ++ concat ls) as Hsub.
  { intros a Ha. apply elem_of_app. apply elem_of_cons in Hm as [->|Hm]; [by left|right]. apply list_elem_of_split in Hm as (l1 & l2 & ->).
    rewrite concat_app. cbn. rewrite !elem_of_app. by right; left. }
  split; [|done]. split; [|by intros a Ha%Hsub; apply Hu]. apply elem_of_cons in Hm as [->|Hm]; [done|].
  apply list_elem_of_split in Hm as (l1 & l2 & ->). rewrite concat_app in N3. cbn in N3. apply NoDup_app in N3 as (_ & _ & N3). by apply NoDup_app in N3 as (N3 & _).
Qed.

Lemma kept_plain (X : Z -> Prop) st st' m : kept mbutl X st st' -> chain mbutl st m -> plain st m -> (forall a, a ∈ m -> ~ X a) -> plain st' m.
Proof.
  intros Hk [_ Hc] Hp Hx a x Ha Hu. destruct (Hc a Ha) as (y & Hy & _). destruct (Hk a y Hy (Hx a Ha)) as [Hy' _].
  rewrite (in_use_eq _ _ _ _ Hu Hy'). by apply (Hp a).
Qed.

Lemma kept_headed (X : Z -> Prop) st st' m : kept mbutl X st st' -> chain mbutl st m -> headed st m -> (forall a, a ∈ m -> ~ X a) -> headed st' m.
Proof.
  intros Hk [_ Hc] (a & m' & -> & Hh) Hx. exists a, m'. split; [done|]. intros x Hu. destruct (Hc a ltac:(by left)) as (y & Hy & _).
  destruct (Hk a y Hy (Hx a ltac:(by left))) as [Hy' _]. rewrite (in_use_eq _ _ _ _ Hu Hy'). by apply Hh.
Qed.

Lemma kept_owned (X : Z -> Prop) st st' b ls : kept mbutl X st st' -> mb_wf mbutl st' -> chain mbutl st (b ++ concat ls) -> plain st (concat ls) -> Forall (headed st) ls ->
  (forall a, a ∈ b ++ concat ls -> ~ X a) -> owned st' b ls /\ same_content st st' (b :: ls).
Proof.
  intros Hk Hw Hc Hn Hh Hx. destruct (kept_chain mbutl X st st' _ Hk Hc Hx) as [Hc' _]. split; [split_and!; [done..| |]|].
  - eapply kept_plain; [done| |done|intros a Ha; apply Hx, elem_of_app; by right]. destruct Hc as [(_ & _ & N3)%NoDup_app Hu].
    split; [done|]. intros a Ha. apply Hu, elem_of_app. by right.
  - rewrite Forall_forall in Hh. apply Forall_forall. intros m Hm. destruct (chain_in _ _ _ m Hc) as [Hcm Hsub]; [by right|]. eapply kept_headed; eauto.
  - intros m Hm. destruct (chain_in _ _ _ _ Hc Hm) as [Hcm Hsub]. apply (kept_chain mbutl X st st' m Hk Hcm). auto.
Qed.

(** What m_adj does to a header. *)
Definition within_mbuf (x : mbuf) : Prop := 0 <= m_len x < 2 ^ 15 /\ inline x /\ m_off x + m_len x <= MMAXOFF.
Lemma adj_front_head m : forall len st st', adj_front m len st = Ok st' -> forall a x', in_use st' a x' ->
  exists x, in_use st a x /\ m_act x = m_act x' /\ (within_mbuf x -> within_mbuf x' /\ m_off x <= m_off x').
Proof.
  induction m as [|b m IH]; intros len st st' Hr a x' Hu; cbn [adj_front] in Hr; [injection Hr as <-; by exists x'|].
  destruct (Z.leb_spec len 0); [injection Hr as <-; by exists x'|]. destruct (get_mb b st) as [y| |] eqn:Hb; [|done..]. cbn in Hr.
  assert (forall z x', m_act z = m_act y -> m_type z = m_type y -> (within_mbuf y -> within_mbuf z /\ m_off y <= m_off z) -> in_use (put_mb b z st) a x' ->
    exists x, in_use st a x /\ m_act x = m_act x' /\ (within_mbuf x -> within_mbuf x' /\ m_off x <= m_off x')) as Hput.
  { clear Hu x'. intros z x' Hz Ht Ho [Hl Htx]. unfold get_mb in Hb. destruct (mbs st !! b) as [y'|] eqn:Eb; [injection Hb as ->|done].
    destruct (decide (a = b)) as [->|Hne].
    - exists y. cbn in Hl. rewrite lookup_insert_eq in Hl. injection Hl as <-. split; [split; [done|by rewrite <- Ht]|done].
    - exists x'. cbn in Hl. by rewrite lookup_insert_ne in Hl by done. }
  destruct (Z.leb_spec (m_len y) len).
  - destruct (IH _ _ _ Hr a x' Hu) as (z & Hz & E1 & E2).
    destruct (Hput (set_len y 0) z eq_refl eq_refl) as (x & Hx & E4 & E5); [|done|].
    { intros ([K1 K2] & K3 & K4). unfold within_mbuf. change (m_len (set_len y 0)) with 0. change (m_off (set_len y 0)) with (m_off y). change (inline (set_len y 0)) with (inline y). split; [|lia]. split; [lia|]. split; [done|lia]. }
    exists x. split_and!; [done|congruence|]. intros [W1 W2]%E5. destruct (E2 W1). split; [done|lia].
  - injection Hr as <-. revert Hu. apply Hput; try done. intros ([K1 K2] & K3 & K4). unfold within_mbuf, inline in *. cbn [set_len set_off m_off m_len].
    unfold MMAXOFF, MMINOFF, MSIZE, MTAIL in *. rewrite (wraps_small 16), (wrapu_small 32) by lia. lia.
Qed.

Context (Hbase : 0 < mbutl /\ mbutl mod NBPG = 0 /\ mbutl + NMBCLUSTERS * NBPG <= 2 ^ 32).

Lemma owned_adj st b m ls i : owned st b (m :: ls) -> 0 <= i -> exists st', m_adj m i st = Ok st' /\ owned st' b (m :: ls) /\
  content st' m = drop (Z.to_nat i) (content st m) /\ same_content st st' (b :: ls) /\ kept mbutl (fun a => a ∈ m) st st'.
Proof.
  intros (Hw & Hm & Hnm & Hc & Hn & Hd & Hh & Hhs)%owned_split Hi.
  destruct (adj_front_spec mbutl Hbase m i st Hw Hm (plain_funny _ _ Hnm) Hi) as (st' & Hr & Hw' & Hre & Hm' & Ec & Hnm').
  destruct (kept_owned (fun a => a ∈ m) st st' b ls (reheaded_kept mbutl m _ _ Hre) Hw' Hc Hn Hhs) as [(_ & Hc' & Hn' & Hhs') Hs]; [intros a Ha Hin; by apply (Hd a)|].
  exists st'. split_and!; [|apply owned_split; split_and!; try done|done..|by apply reheaded_kept].
  - unfold m_adj. destruct m; [cbn in Hr; done|]. by rewrite (proj2 (Z.leb_le _ _) Hi).
  - intros a x Ha Hu. split; [by apply (Hnm' a)|]. destruct (adj_front_head _ _ _ _ Hr a x Hu) as (y & Hy & <- & _). by apply (Hnm a).
  - destruct Hh as (a & m' & -> & Hh). exists a, m'. split; [done|]. intros x Hu. destruct (adj_front_head _ _ _ _ Hr a x Hu) as (y & Hy & _ & Hw2).
    destruct (Hh y Hy) as [Hi' Hr']. destruct (proj2 Hm a ltac:(by left)) as (z & Hz & [Hz1 Hz2]). rewrite (in_use_eq _ _ _ _ Hz Hy) in Hz1, Hz2.
    destruct Hw2 as [(_ & Hi2 & _) Ho2]; [|split; [done|lia]]. split; [done|]. split; [done|].
    destruct Hz2 as [[_ Hz2]|[[[[Hc0 _] _] _]|[[[Hc0 _] _] _]]]; unfold inline, MMAXOFF, MSIZE, MTAIL in *; lia.
Qed.

Lemma owned_free st b m ls : owned st b (m :: ls) -> exists st', m_freem mbutl m st = Ok st' /\ owned st' b ls /\ same_content st st' (b :: ls) /\ kept mbutl (fun a => a ∈ m) st st'.
Proof.
  intros (Hw & Hm & Hnm & Hc & Hn & Hd & Hh & Hhs)%owned_split.
  destruct (m_freem_spec mbutl Hbase m st Hw (proj1 Hm)) as (st' & Hr & Hw' & Hco & Hus & _).
  { intros a Ha. destruct (proj2 Hm a Ha) as (x & Hx & _). eauto. }
  pose proof (m_freem_kept mbutl m st st' Hco Hus) as Hk. exists st'. split; [done|]. apply and_assoc. split; [|done].
  apply (kept_owned (fun a => a ∈ m)); [done..|]. intros a Ha Hin. by apply (Hd a).
Qed.
End Owned.

(** ** What a queue holds *)

Section Insert.
Context {M H : Type} `{RM : !ResMap M} `{SP : !SeqSpace SO}.
Context (mbutl : Z) (Hbase : 0 < mbutl /\ mbutl mod NBPG = 0 /\ mbutl + NMBCLUSTERS * NBPG <= 2 ^ 32).
(** The stream, what may be said of where a piece ends, and where the stream ends. *)
Context (D : Z -> Z) (ends : Z -> Z -> Prop) (E : Z).
Implicit Type st : mbst M H.

Definition place (s : seg) : Z := sq_pl (sg_seq s).
Definition stop (s : seg) : Z := place s + sg_len s.
Definition slice (o n : Z) : list Z := D <$> seqZ o n.

Record piece st (s : seg) : Prop := {
  pc_at : sg_seq s = sq_at (place s);
  pc_in : sq_lo <= place s /\ stop s <= sq_hi /\ stop s <= E;
  pc_len : 0 <= sg_len s < 2 ^ 15;
  pc_none : sg_len s = 0 -> stop s = E;
  pc_data : content st (sg_m s) = slice (place s) (sg_len s);
  pc_ends : ends (stop s) (sg_flag s)
}.

(** Sorted and without overlap. *)
Definition apart (l : list seg) : Prop := StronglySorted (fun s t => stop s <= place t) l.
Definition has_place (o : Z) (s : seg) : Prop := place s <= o < stop s.
Definition holds (l : list seg) (o : Z) : Prop := Exists (has_place o) l.

Lemma piece_same st st' s : piece st s -> content st' (sg_m s) = content st (sg_m s) -> piece st' s.
Proof. intros [] E1. split; try done. by rewrite E1. Qed.
Lemma pieces_same st st' b l : Forall (piece st) l -> same_content st st' (b :: map sg_m l) -> Forall (piece st') l.
Proof.
  intros Hp Hs. apply Forall_forall. intros s Hin. rewrite Forall_forall in Hp. apply (piece_same st); [by apply Hp|].
  apply Hs. right. apply list_elem_of_fmap. eauto.
Qed.

Lemma kept_mono (X Y : Z -> Prop) st st' : (forall a, X a -> Y a) -> kept mbutl X st st' -> kept mbutl Y st st'.
Proof. intros HXY Hk a x Hu Hn. apply Hk; auto. Qed.
(** Nothing but the mbufs of [ls] has changed. *)
Definition within (ls : list (list Z)) st st' : Prop := kept mbutl (fun a => a ∈ concat ls) st st'.
Lemma within_sub ls ls' st st' : concat ls ⊆ concat ls' -> within ls st st' -> within ls' st st'.
Proof. intros Hs. by apply kept_mono. Qed.

Lemma slice_drop o n i : 0 <= i <= n -> drop (Z.to_nat i) (slice o n) = slice (o + i) (n - i).
Proof.
  intros Hi. unfold slice. rewrite <- fmap_drop. f_equal. replace n with (i + (n - i)) at 1 by lia. rewrite seqZ_app by lia.
  rewrite drop_app_length' ; [done|]. rewrite length_seqZ. lia.
Qed.

(** How far the piece [s] goes past the place where [t] begins. *)
Lemma piece_gap st s t : piece st s -> piece st t -> gap (sg_seq s + sg_len s) (sg_seq t) = stop s - place t.
Proof.
  intros [S1 S2 S3 _ _ _] [T1 T2 T3 _ _ _]. rewrite S1, T1. unfold stop in *. rewrite sq_gap by lia. done.
Qed.
Lemma piece_gap0 st s t : piece st s -> piece st t -> gap (sg_seq s) (sg_seq t) = place s - place t.
Proof.
  intros [S1 S2 S3 _ _ _] [T1 T2 T3 _ _ _]. unfold stop in *. rewrite S1, T1. pose proof (sq_gap (place s) 0 (place t)) as Hg.
  rewrite !Z.add_0_r in Hg. apply Hg; lia.
Qed.

Lemma cut_piece st st' i s : piece st s -> 0 < i <= sg_len s -> (i = sg_len s -> stop s = E) -> content st' (sg_m s) = drop (Z.to_nat i) (content st (sg_m s)) ->
  piece st' (cut i s) /\ place (cut i s) = place s + i /\ stop (cut i s) = stop s.
Proof.
  intros [S1 S2 S3 S4 S5 S6] Hi Hie Hc. unfold stop in *.
  assert (sg_seq (cut i s) = sq_at (place s + i)) as Es by (cbn; rewrite S1; apply sq_adv; lia).
  assert (place (cut i s) = place s + i) as Ep by (unfold place at 1; rewrite Es; apply sq_pl_at; lia).
  assert (sg_len (cut i s) = sg_len s - i) as El by (cbn; apply (wraps_small 16); lia).
  assert (stop (cut i s) = stop s) as Et by (unfold stop; lia). split; [|done]. unfold stop in *.
  split; rewrite ?Ep, ?El; unfold stop; rewrite ?Ep, ?El; try lia; try done.
  - cbn [sg_m cut]. rewrite Hc, S5. apply slice_drop. lia.
  - cbn [sg_flag cut]. by replace (place s + i + (sg_len s - i)) with (place s + sg_len s) by lia.
Qed.

Lemma before_spec st ti l pre post : piece st ti -> Forall (piece st) l -> apart l -> before (sg_seq ti) l = (pre, post) ->
  l = pre ++ post /\ Forall (fun s => place s <= place ti) pre /\ Forall (fun s => place ti < place s) post.
Proof.
  intros Ht. revert pre post. induction l as [|q l IH]; intros pre post Hp Ha Hb; cbn [before] in Hb.
  { by injection Hb as <- <-. }
  apply Forall_cons in Hp as [Hq Hp]. apply StronglySorted_inv in Ha as [Ha Hs].
  rewrite (piece_gap0 st q ti Hq Ht) in Hb. destruct (Z.ltb_spec 0 (place q - place ti)) as [Hgt|Hle].
  - injection Hb as <- <-. split_and!; [done..|]. constructor; [lia|]. eapply Forall_impl; [done|]. cbn. intros s Hle. pose proof (pc_len _ _ Hq). unfold stop in Hle. lia.
  - destruct (before (sg_seq ti) l) as [a b] eqn:Eb. injection Hb as <- <-. destruct (IH a b Hp Ha eq_refl) as (-> & H1 & H2).
    split_and!; [done|constructor; [lia|done]|done].
Qed.

(** What [trim_new] leaves of the new piece. *)
Lemma apart_last st pre q : Forall (piece st) pre -> apart pre -> last pre = Some q -> q ∈ pre /\ Forall (fun s => stop s <= stop q) pre.
Proof.
  intros Hp Ha Hl. induction pre as [|s pre IH]; [done|]. apply Forall_cons in Hp as [Hs Hp]. apply StronglySorted_inv in Ha as [Ha Hle].
  destruct pre as [|t pre].
  - injection Hl as <-. split; [by left|]. by constructor.
  - destruct (IH Hp Ha Hl) as [Hin Hmax]. split; [by right|]. constructor; [|done]. rewrite Forall_forall in Hle, Hp.
    specialize (Hle q Hin). pose proof (pc_len _ _ (Hp q Hin)). unfold stop at 2. lia.
Qed.

Lemma holds_cons s l o : holds (s :: l) o <-> has_place o s \/ holds l o.
Proof. unfold holds. apply Exists_cons. Qed.
Lemma holds_app l1 l2 o : holds (l1 ++ l2) o <-> holds l1 o \/ holds l2 o.
Proof. unfold holds. apply Exists_app. Qed.
Lemma holds_in s l o : s ∈ l -> has_place o s -> holds l o.
Proof. intros Hs Ho. apply Exists_exists. eauto. Qed.

Lemma trim_new_spec st b pre ti rest : owned mbutl st b (sg_m ti :: map sg_m (pre ++ rest)) -> Forall (piece st) (pre ++ rest) -> piece st ti -> apart pre ->
  Forall (fun s => place s <= place ti) pre ->
  exists r st', trim_new mbutl pre ti st = Ok (r, st') /\ same_content st st' (b :: map sg_m (pre ++ rest)) /\ within [sg_m ti] st st' /\
    match r with
    | None => owned mbutl st' b (map sg_m (pre ++ rest)) /\ forall o, has_place o ti -> holds pre o
    | Some t => owned mbutl st' b (sg_m t :: map sg_m (pre ++ rest)) /\ piece st' t /\ stop t = stop ti /\ place ti <= place t /\ sg_flag t = sg_flag ti /\ sg_m t = sg_m ti /\
        (place t = place ti \/ exists q, q ∈ pre /\ place t = stop q) /\ Forall (fun s => stop s <= place t) pre /\ forall o, holds (ti :: pre) o <-> holds (t :: pre) o
    end.
Proof.
  intros Ho Hp Ht Ha Hle. unfold trim_new. destruct (last pre) as [q|] eqn:El.
  2: { apply last_None in El as ->. exists (Some ti), st. split_and!; try done. by left. }
  apply Forall_app in Hp as [Hpp Hpr]. destruct (apart_last st pre q Hpp Ha El) as [Hq Hmax].
  rewrite Forall_forall in Hpp, Hle. pose proof (Hpp q Hq) as Pq. pose proof (Hle q Hq) as Lq. rewrite (piece_gap st q ti Pq Ht).
  destruct (Z.ltb_spec 0 (stop q - place ti)) as [Hi|Hi].
  2: { exists (Some ti), st. split_and!; try done; [by left|]. eapply Forall_impl; [done|]. cbn. intros s Hs. lia. }
  destruct (Z.leb_spec (sg_len ti) (stop q - place ti)) as [Hc|Hc].
  - destruct (owned_free mbutl Hbase st b _ _ Ho) as (st' & -> & Ho' & Hs & Hk). kpop. exists None, st'. split_and!; try done.
    { eapply kept_mono; [|exact Hk]. cbn. intros a. by rewrite app_nil_r. }
    intros o Hot. apply (holds_in q); [done|]. unfold has_place, stop in *. lia.
  - destruct (owned_adj mbutl Hbase st b _ _ (stop q - place ti) Ho ltac:(lia)) as (st' & -> & Ho' & Ec & Hs & Hk). kpop.
    destruct (cut_piece st st' (stop q - place ti) ti Ht ltac:(lia) ltac:(lia) Ec) as (Pc & Ep & Et).
    exists (Some (cut (stop q - place ti) ti)), st'. split_and!; try done; [eapply kept_mono; [|exact Hk]; cbn; intros a; by rewrite app_nil_r|lia|right; exists q; split; [done|lia]| |].
    + eapply Forall_impl; [done|]. cbn beta. intros s Hs'. lia.
    + intros o. rewrite !holds_cons. unfold has_place at 1 2. rewrite Ep, Et. split; [|intros [?|?]; [left; lia|by right]].
      intros [Hot|?]; [|by right]. destruct (decide (o < stop q)); [|left; lia]. right. apply (holds_in q); [done|]. unfold has_place. lia.
Qed.

Lemma trim_old_spec b rest l ti : forall st, owned mbutl st b (sg_m ti :: map sg_m (l ++ rest)) -> Forall (piece st) (l ++ rest) -> piece st ti -> apart l ->
  Forall (fun s => place ti <= place s) l ->
  exists l' st', trim_old mbutl ti l st = Ok (l', st') /\ owned mbutl st' b (sg_m ti :: map sg_m (l' ++ rest)) /\ same_content st st' (b :: sg_m ti :: map sg_m rest) /\ within (map sg_m l) st st' /\ concat (map sg_m l') ⊆ concat (map sg_m l) /\
    Forall (piece st') (l' ++ rest) /\ piece st' ti /\ apart l' /\ Forall (fun s => stop ti <= place s) l' /\ forall o, holds (ti :: l) o <-> holds (ti :: l') o.
Proof.
  induction l as [|q l IH]; intros st Ho Hp Ht Ha Hle; cbn [trim_old].
  { exists [], st. split_and!; try done. }
  pose proof Hp as [Hq Hpl]%Forall_cons. apply StronglySorted_inv in Ha as [Ha Hs]. apply Forall_cons in Hle as [Lq Hle].
  rewrite (piece_gap st ti q Ht Hq). destruct (Z.leb_spec (stop ti - place q) 0) as [Hi|Hi].
  { exists (q :: l), st. split_and!; try done; [by constructor|]. constructor; [lia|]. eapply Forall_impl; [exact Hs|]. cbn beta. intros s Hs'.
    pose proof (pc_len _ _ Hq). unfold stop in *. lia. }
  assert (owned mbutl st b (sg_m q :: sg_m ti :: map sg_m (l ++ rest))) as Ho1 by (eapply owned_perm; [|done]; cbn; apply perm_swap).
  destruct (Z.ltb_spec (stop ti - place q) (sg_len q)) as [Hc|Hc].
  - destruct (owned_adj mbutl Hbase st b _ _ (stop ti - place q) Ho1 ltac:(lia)) as (st' & -> & Ho' & Ec & Hsm & Hk). kpop.
    destruct (cut_piece st st' (stop ti - place q) q Hq ltac:(lia) ltac:(lia) Ec) as (Pc & Ep & Et).
    exists (cut (stop ti - place q) q :: l), st'. split_and!; try done.
    + eapply owned_perm; [|done]. cbn. apply perm_swap.
    + intros m Hm. apply Hsm. rewrite map_app. set_solver.
    + eapply kept_mono; [|exact Hk]. cbn. intros a Hin. apply elem_of_app. auto.
    + cbn. constructor; [done|]. apply (pieces_same st st' b _ Hpl). intros m Hm. apply Hsm. set_solver.
    + apply (piece_same st); [done|]. apply Hsm. set_solver.
    + constructor; [done|]. by rewrite Et.
    + constructor; [lia|]. eapply Forall_impl; [exact Hs|]. cbn beta. intros s Hs'. unfold stop in *. lia.
    + intros o. rewrite !holds_cons. unfold has_place at 2 4. rewrite Ep, Et. unfold has_place. split; [intros [?|[?|?]]|intros [?|[?|?]]]; try tauto; [|right; left; lia].
      destruct (decide (o < stop ti)); [left; lia|right; left; lia].
  - destruct (owned_free mbutl Hbase st b _ _ Ho1) as (st1 & -> & Ho' & Hsm & Hk). kpop.
    destruct (IH st1) as (l' & st' & -> & V1 & V2 & Vk & Vs & V3 & V4 & V5 & V6 & V7); try done.
    { apply (pieces_same st st1 b _ Hpl). intros m Hm. apply Hsm. set_solver. }
    { apply (piece_same st); [done|]. apply Hsm. set_solver. }
    exists l', st'. split_and!; try done.
    + intros m Hm. rewrite V2 by done. apply Hsm. rewrite map_app. set_solver.
    + eapply mbkept_trans; eapply kept_mono; [|exact Hk| |exact Vk]; cbn; intros a Hin; apply elem_of_app; auto.
    + cbn. intros c Hin. apply elem_of_app. right. by apply Vs.
    + intros o. rewrite <- V7, !holds_cons. unfold has_place, stop in *. split; [intros [?|[?|?]]; try tauto; left; lia|tauto].
Qed.

(** The piece [ti] against a queue: it stays sorted and apart, and holds what it held and what [ti] has. *)
Lemma reass_insert_spec st b ti l : owned mbutl st b (sg_m ti :: map sg_m l) -> Forall (piece st) l -> piece st ti -> apart l ->
  exists (ins : bool) l' st', reass_insert mbutl ti l st = Ok (ins, l', st') /\ owned mbutl st' b (map sg_m l') /\ within (map sg_m (ti :: l)) st st' /\
    Forall (piece st') l' /\ apart l' /\ (forall o, holds l' o <-> holds (ti :: l) o) /\ concat (map sg_m l') ⊆ concat (map sg_m (ti :: l)) /\
    (if ins then exists pre t post, l' = pre ++ t :: post /\ stop t = stop ti /\ sg_flag t = sg_flag ti else l' = l).
Proof.
  intros Ho Hp Ht Ha. unfold reass_insert. destruct (before (sg_seq ti) l) as [pre post] eqn:Eb.
  destruct (before_spec st ti l pre post Ht Hp Ha Eb) as (-> & Hle & Hgt). apply StronglySorted_app in Ha as (Hx & Ha1 & Ha2).
  destruct (trim_new_spec st b pre ti post Ho Hp Ht Ha1 Hle) as (r & st1 & -> & Hs1 & Hk1 & Hr). kpop. cbv iota.
  destruct r as [t|].
  2: { destruct Hr as [Ho1 Hc]. exists false, (pre ++ post), st1. split_and!; try done.
    - eapply within_sub; [|exact Hk1]. cbn. set_solver.
    - eapply pieces_same; [done|]. intros m Hm. by apply Hs1.
    - by apply StronglySorted_app.
    - intros o. rewrite holds_cons, holds_app. split; [tauto|]. intros [?%Hc|?]; tauto.
    - cbn. intros c Hin. apply elem_of_app. by right. }
  destruct Hr as (Ho1 & Pt & Et & Lt & Ft & Mt & Hw & Hpre & Hh).
  assert (Forall (piece st1) (pre ++ post)) as Hp1 by (eapply pieces_same; [done|]; intros m Hm; by apply Hs1).
  assert (Forall (fun s => place t <= place s) post) as Hpost.
  { apply Forall_forall. intros s Hs. destruct Hw as [->|(q & Hq & ->)]; [|by apply Hx]. rewrite Forall_forall in Hgt. specialize (Hgt s Hs). lia. }
  destruct (trim_old_spec b pre post t st1) as (post' & st' & -> & Ho' & Hs2 & Hk2 & Hsub2 & Hp' & Pt' & Ha' & Hge & Hh2); try done.
  { eapply owned_perm; [|done]. by rewrite (Permutation_app_comm pre post). }
  { by rewrite (Permutation_app_comm post pre). }
  kpop. cbv iota. apply Forall_app in Hp' as [Hpo Hpp].
  assert (forall s, s ∈ post' -> stop t <= place s) as Hge' by (by apply Forall_forall).
  assert (forall s, s ∈ pre -> stop s <= place t) as Hpre' by (by apply Forall_forall).
  exists true, (pre ++ t :: post'), st'. split_and!; try done.
  - eapply owned_perm; [|done]. rewrite !map_app. cbn. by rewrite (Permutation_app_comm (map sg_m post')), Permutation_middle.
  - eapply mbkept_trans; eapply within_sub; [|exact Hk1| |exact Hk2]; cbn; rewrite map_app, concat_app; set_solver.
  - apply Forall_app. split; [done|]. by constructor.
  - apply StronglySorted_app. split_and!; [|done|by constructor].
    intros s u Hs [->|Hu]%elem_of_cons; [by apply Hpre'|]. specialize (Hge' u Hu). specialize (Hpre' s Hs). pose proof (pc_len _ _ Pt). unfold stop in Hge'. lia.
  - intros o. specialize (Hh o). specialize (Hh2 o). rewrite holds_app, !holds_cons in *. rewrite holds_app. tauto.
  - intros c. cbn. rewrite !map_app, !concat_app. cbn. rewrite !elem_of_app, Mt. intros [?|[?|?%Hsub2]]; auto.
  - by exists pre, t, post'.
Qed.
End Insert.
