(* ===== verification/Tcp.v ===== *)
(** * TCP input: what arrives, in order

    The receiving half of tcp_input ([netinet/tcp_input.c]): the receive window, the part of a segment that lies in
    it, the queue of segments that came early (tcp_reass and its in-line form TCP_REASS), and the FIN.  Sequence
    numbers are 32 bits; a segment is its header fields and its mbufs. *)

From S2P Require Import Prelude Flags Rmap Mbuf Sockbuf Sock Reass.
From stdpp Require Import prelude list numbers strings gmap.
From Stdlib Require Import ZArith Lia.

Local Open Scope Z_scope.
Local Open Scope kern_scope.

Definition TH_FIN : Z := 1.
Definition TH_SYN : Z := 2.
Definition TH_RST : Z := 4.
Definition TH_PUSH : Z := 8.
Definition TH_ACK : Z := 16.
Definition TH_URG : Z := 32.

Definition TCPS_SYN_RECEIVED : Z := 3.
Definition TCPS_ESTABLISHED : Z := 4.
Definition TCPS_CLOSE_WAIT : Z := 5.
Definition TCPS_FIN_WAIT_1 : Z := 6.
Definition TCPS_CLOSING : Z := 7.
Definition TCPS_FIN_WAIT_2 : Z := 9.
Definition TCPS_TIME_WAIT : Z := 10.
Definition TCPS_HAVERCVDSYN (s : Z) : bool := TCPS_SYN_RECEIVED <=? s.
Definition TCPS_HAVERCVDFIN (s : Z) : bool := TCPS_TIME_WAIT <=? s.

Definition TF_ACKNOW : Z := 1.
Definition TF_DELACK : Z := 2.

Definition TCPT_NTIMERS : nat := 4.
Definition TCPT_2MSL : nat := 3.
Definition TCPTV_MSL : Z := 30.

(** [SEQ_GT(a,b)] and the differences of sequence numbers go through an int. *)
Definition tcp_seqops : SeqOps := {| gap x y := i32 (x - y); adv x n := u32 (x + n) |}.
#[local] Existing Instance tcp_seqops.

(** The fields of a struct tcpcb the input of data uses: the queue [seg_next .. seg_prev], the rest as named. *)
Record tcpcb := Tcpcb {
  seg_q : list seg; t_state : Z; t_timer : list Z; t_flags : Z;
  rcv_wnd : Z; rcv_nxt : Z; rcv_adv : Z; max_rcvd : Z
}.
Definition set_segq (l : list seg) (tp : tcpcb) : tcpcb :=
  Tcpcb l (t_state tp) (t_timer tp) (t_flags tp) (rcv_wnd tp) (rcv_nxt tp) (rcv_adv tp) (max_rcvd tp).
Definition set_tstate (v : Z) (tp : tcpcb) : tcpcb :=
  Tcpcb (seg_q tp) v (t_timer tp) (t_flags tp) (rcv_wnd tp) (rcv_nxt tp) (rcv_adv tp) (max_rcvd tp).
Definition set_timers (l : list Z) (tp : tcpcb) : tcpcb :=
  Tcpcb (seg_q tp) (t_state tp) l (t_flags tp) (rcv_wnd tp) (rcv_nxt tp) (rcv_adv tp) (max_rcvd tp).
Definition set_tflags (v : Z) (tp : tcpcb) : tcpcb :=
  Tcpcb (seg_q tp) (t_state tp) (t_timer tp) v (rcv_wnd tp) (rcv_nxt tp) (rcv_adv tp) (max_rcvd tp).
Definition set_rcvwnd (v : Z) (tp : tcpcb) : tcpcb :=
  Tcpcb (seg_q tp) (t_state tp) (t_timer tp) (t_flags tp) (u16 v) (rcv_nxt tp) (rcv_adv tp) (max_rcvd tp).
Definition set_rcvnxt (v : Z) (tp : tcpcb) : tcpcb :=
  Tcpcb (seg_q tp) (t_state tp) (t_timer tp) (t_flags tp) (rcv_wnd tp) (u32 v) (rcv_adv tp) (max_rcvd tp).
Definition set_maxrcvd (v : Z) (tp : tcpcb) : tcpcb :=
  Tcpcb (seg_q tp) (t_state tp) (t_timer tp) (t_flags tp) (rcv_wnd tp) (rcv_nxt tp) (rcv_adv tp) (u16 v).

Definition set_seglen (v : Z) (s : seg) : seg := Seg (sg_seq s) (i16 v) (sg_flag s) (sg_m s).

(** The amount of space in the receive window. *)
Definition tcp_rcvwin (sb : sockbuf) (tp : tcpcb) : tcpcb :=
  let win := sbspace sb in
  let win := if win <? 0 then 0 else win in
  set_rcvwnd (Z.max win (i32 (rcv_adv tp - rcv_nxt tp))) tp.

Section Tcp.
Context {M H P : Type} `{RM : !ResMap M}.
Context (nfsd : bool) (alive : Z -> bool) (mbutl : Z).
Implicit Type st : sockst M H P.

(** ** The window *)

(** Bytes off the end of a segment: the first mbuf, if it is empty, had the header and is passed over. *)
Definition tcp_trim_end (m : list Z) (todrop : Z) (mb : mbst M H) : res (mbst M H) :=
  match m with
  | [] => Fault
  | a :: m' => x ← get_mb a mb; if m_len x =? 0 then m_adj m' (- todrop) mb else m_adj m (- todrop) mb
  end.

(** What the code does to the start of a segment that begins before [rcv_nxt]; [None]: [goto dropafterack]. *)
Definition tcp_trim_front (tp : tcpcb) (ti : seg) (urp tiflags : Z) (mb : mbst M H) : res (option (seg * Z * Z) * mbst M H) :=
  let todrop := gap (rcv_nxt tp) (sg_seq ti) in
  if 0 <? todrop then
    let '(ti, urp, tiflags, todrop) :=
      if has tiflags TH_SYN then
        let tiflags := without tiflags TH_SYN in
        let ti := Seg (adv (sg_seq ti) 1) (sg_len ti) (sg_flag ti) (sg_m ti) in
        if 1 <? urp then (ti, urp - 1, tiflags, todrop - 1) else (ti, urp, without tiflags TH_URG, todrop - 1)
      else (ti, urp, tiflags, todrop) in
    if (sg_len ti <? todrop) || (todrop =? sg_len ti) && negb (has tiflags TH_FIN) then mret (None, mb)
    else
      mb ← m_adj (sg_m ti) todrop mb;
      let ti := cut todrop ti in
      mret (Some (if todrop <? urp then (ti, urp - todrop, tiflags) else (ti, 0, without tiflags TH_URG)), mb)
  else mret (Some (ti, urp, tiflags), mb).

(** What lies past the window is dropped. *)
Definition tcp_trim_back (tp : tcpcb) (ti : seg) (urp tiflags : Z) (mb : mbst M H) : res (option (seg * Z * Z) * mbst M H) :=
  let todrop := gap (sg_seq ti + sg_len ti) (rcv_nxt tp + rcv_wnd tp) in
  if 0 <? todrop then
    if sg_len ti <=? todrop then mret (None, mb)
    else
      mb ← tcp_trim_end (sg_m ti) todrop mb;
      mret (Some (set_seglen (sg_len ti - todrop) ti, urp, without tiflags (Z.lor TH_PUSH TH_FIN)), mb)
  else mret (Some (ti, urp, tiflags), mb).

Definition tcp_trim (tp : tcpcb) (ti : seg) (urp tiflags : Z) (mb : mbst M H) : res (option (seg * Z * Z) * mbst M H) :=
  if rcv_wnd tp =? 0 then
    if negb (rcv_nxt tp =? sg_seq ti) then mret (None, mb)
    else if 0 <? sg_len ti then
      mb ← m_adj (sg_m ti) (sg_len ti) mb;
      mret (Some (set_seglen 0 ti, urp, without tiflags (Z.lor TH_PUSH TH_FIN)), mb)
    else mret (Some (ti, urp, tiflags), mb)
  else
    '(r, mb) ← tcp_trim_front tp ti urp tiflags mb;
    match r with
    | None => mret (None, mb)
    | Some (ti, urp, tiflags) => tcp_trim_back tp ti urp tiflags mb
    end.

(** ** The queue *)

(** [sbappend] or, if nobody will read it, [m_freem]. *)
Definition tcp_give (so : Z) (m : list Z) st : res (sockst M H P) :=
  s ← get_so so st;
  if has (so_state s) SS_CANTRCVMORE then mb ← m_freem mbutl m (smb st); mret (set_smb st mb)
  else '(sb, mb) ← sbappend mbutl (so_rcv s) m (smb st); mret (put_so so (set_rcv sb s) (set_smb st mb)).

(** The loop at [present]: the flags, what stays queued, [rcv_nxt]. *)
Fixpoint tcp_drain (so : Z) (l : list seg) (flags nxt : Z) st : res (Z * list seg * Z * sockst M H P) :=
  match l with
  | [] => mret (flags, [], nxt, st)
  | ti :: l' =>
      if sg_seq ti =? nxt then
        st ← tcp_give so (sg_m ti) st;
        tcp_drain so l' (Z.land (sg_flag ti) TH_FIN) (adv nxt (sg_len ti)) st
      else mret (flags, l, nxt, st)
  end.

Definition tcp_present (so : Z) (tp : tcpcb) st : res (Z * tcpcb * sockst M H P) :=
  if negb (TCPS_HAVERCVDSYN (t_state tp)) then mret (0, tp, st)
  else
    match seg_q tp with
    | [] => mret (0, tp, st)
    | ti :: _ =>
        if negb (sg_seq ti =? rcv_nxt tp) then mret (0, tp, st)
        else if (t_state tp =? TCPS_SYN_RECEIVED) && negb (sg_len ti =? 0) then mret (0, tp, st)
        else
          '(flags, l, nxt, st) ← tcp_drain so (seg_q tp) 0 (rcv_nxt tp) st;
          st ← sorwakeup nfsd alive so st;
          mret (flags, set_rcvnxt nxt (set_segq l tp), st)
    end.

(** [None]: the call with [ti == 0]. *)
Definition tcp_reass (so : Z) (tp : tcpcb) (ti : option seg) st : res (Z * tcpcb * sockst M H P) :=
  match ti with
  | None => tcp_present so tp st
  | Some ti =>
      '(ins, l, mb) ← reass_insert mbutl ti (seg_q tp) (smb st);
      let st := set_smb st mb in
      if (ins : bool) then tcp_present so (set_segq l tp) st else mret (0, tp, st)
  end.

Definition TCP_REASS (so : Z) (tp : tcpcb) (ti : seg) st : res (Z * tcpcb * sockst M H P) :=
  if (sg_seq ti =? rcv_nxt tp) && bool_decide (seg_q tp = []) && (t_state tp =? TCPS_ESTABLISHED) then
    s ← get_so so st;
    '(sb, mb) ← sbappend mbutl (so_rcv s) (sg_m ti) (smb st);
    st ← sorwakeup nfsd alive so (put_so so (set_rcv sb s) (set_smb st mb));
    mret (Z.land (sg_flag ti) TH_FIN, set_rcvnxt (adv (rcv_nxt tp) (sg_len ti)) tp, st)
  else tcp_reass so tp (Some ti) st.

(** [dodata]: the text of a segment; what becomes of [tiflags]. *)
Definition tcp_dodata (tcpnodelack : Z) (so : Z) (tp : tcpcb) (ti : seg) (tiflags : Z) st : res (Z * tcpcb * sockst M H P) :=
  if (negb (sg_len ti =? 0) || has tiflags TH_FIN) && negb (TCPS_HAVERCVDFIN (t_state tp)) then
    '(tiflags, tp, st) ← TCP_REASS so tp ti st;
    let tp := set_tflags (with_bits (t_flags tp) (if tcpnodelack =? 0 then TF_DELACK else TF_ACKNOW)) tp in
    s ← get_so so st;
    let len := i32 (sb_hiwat (so_rcv s) - (rcv_nxt tp - rcv_adv tp)) in
    mret (tiflags, if max_rcvd tp <? len then set_maxrcvd len tp else tp, st)
  else
    mb ← m_freem mbutl (sg_m ti) (smb st);
    mret (without tiflags TH_FIN, tp, set_smb st mb).

(** ** The FIN *)

Definition tcp_canceltimers (tp : tcpcb) : tcpcb := set_timers (replicate TCPT_NTIMERS 0) tp.
Definition start_2msl (tp : tcpcb) : tcpcb := set_timers (<[TCPT_2MSL := 2 * TCPTV_MSL]> (t_timer tp)) tp.

(** "If FIN is received ACK the FIN and let the user know that the connection is closing." *)
Definition tcp_fin (so : Z) (tp : tcpcb) (tiflags : Z) st : res (tcpcb * sockst M H P) :=
  if has tiflags TH_FIN then
    '(tp, st) ←
      (if TCPS_HAVERCVDFIN (t_state tp) then mret (tp, st)
       else
         st ← socantrcvmore nfsd alive so st;
         mret (set_rcvnxt (rcv_nxt tp + 1) (set_tflags (with_bits (t_flags tp) TF_ACKNOW) tp), st));
    if (t_state tp =? TCPS_SYN_RECEIVED) || (t_state tp =? TCPS_ESTABLISHED) then mret (set_tstate TCPS_CLOSE_WAIT tp, st)
    else if t_state tp =? TCPS_FIN_WAIT_1 then mret (set_tstate TCPS_CLOSING tp, st)
    else if t_state tp =? TCPS_FIN_WAIT_2 then
      st ← soisdisconnected nfsd alive so st;
      mret (start_2msl (tcp_canceltimers (set_tstate TCPS_TIME_WAIT tp)), st)
    else if t_state tp =? TCPS_TIME_WAIT then mret (start_2msl tp, st)
    else mret (tp, st)
  else mret (tp, st).
End Tcp.
