(* ===== verification/TcpThms.v ===== *)
(** * TCP input against the stream the peer sends

    Pieces of one stream, in any order, with any repetition and overlap, come out of the queue as the stream:
    tcp_reass gives the socket exactly the bytes up to the first place nothing has come for, and keeps the
    rest; the in-line form does the same; with the window before it, so does any list of segments. *)

From S2P Require Import Prelude Flags Rmap Mbuf MbufThms MbufOps MbufTrim Sockbuf SockbufThms Sock SockThms SockState Reass Tcp.
From stdpp Require Import prelude list numbers strings gmap sorting.
From Stdlib Require Import ZArith Lia Sorted.

Local Open Scope Z_scope.
Local Open Scope kern_scope.
#[local] Existing Instance tcp_seqops.

(** ** Sequence numbers: a window of half the space *)

Definition WIN : Z := 2 ^ 31 - 1.

Lemma u32_diff a b : - 2 ^ 31 <= a - b < 2 ^ 31 -> i32 (u32 a - u32 b) = a - b.
Proof.
  intros Hr. unfold wraps, wrapu. pose proof (Z.mod_eq a (2 ^ 32) ltac:(done)). pose proof (Z.mod_eq b (2 ^ 32) ltac:(done)).
  set (x := a mod 2 ^ 32) in *. set (y := b mod 2 ^ 32) in *.
  replace (x - y + 2 ^ (32 - 1)) with (a - b + 2 ^ 31 + (b / 2 ^ 32 - a / 2 ^ 32) * 2 ^ 32) by lia.
  rewrite Z_mod_plus_full, Z.mod_small by lia. lia.
Qed.
Lemma u32_add_l a n : u32 (u32 a + n) = u32 (a + n).
Proof. unfold wrapu. by rewrite Zplus_mod_idemp_l. Qed.
Lemma i32_add_u32 a n b : i32 (u32 a + n - u32 b) = i32 (u32 (a + n) - u32 b).
Proof.
  unfold wraps, wrapu. f_equal. pose proof (Z.mod_eq a (2 ^ 32) ltac:(done)). pose proof (Z.mod_eq (a + n) (2 ^ 32) ltac:(done)).
  replace (a mod 2 ^ 32 + n - b mod 2 ^ 32 + 2 ^ (32 - 1)) with ((a + n) mod 2 ^ 32 - b mod 2 ^ 32 + 2 ^ (32 - 1) + ((a + n) / 2 ^ 32 - a / 2 ^ 32) * 2 ^ 32) by lia.
  apply Z_mod_plus_full.
Qed.

(** The places from [lo] on. *)
Program Definition tcp_space (lo : Z) : SeqSpace tcp_seqops :=
  {| sq_at o := u32 o; sq_pl s := lo + u32 (s - u32 lo); sq_lo := lo; sq_hi := lo + WIN |}.
Next Obligation.
  intros lo o Ho. cbv beta. unfold WIN in *. assert (u32 (u32 o - u32 lo) = o - lo) as ->; [|lia].
  unfold wrapu. rewrite <- Zminus_mod. apply Z.mod_small. lia.
Qed.
Next Obligation.
  intros lo a n b Ha Hn Hs Hb. cbn. unfold WIN in *. rewrite i32_add_u32. apply u32_diff. lia.
Qed.
Next Obligation. intros lo a n _ _ _. cbn. apply u32_add_l. Qed.

Section Thms.
Context {M H P : Type} `{RM : !ResMap M}.
Context (nfsd : bool) (alive : Z -> bool) (mbutl : Z).
Context (Hbase : 0 < mbutl /\ mbutl mod NBPG = 0 /\ mbutl + NMBCLUSTERS * NBPG <= 2 ^ 32).
(** The stream of the peer, and the place of its FIN. *)
Context (D : Z -> Z) (E : Z).
Implicit Type st : sockst M H P.
Implicit Type mb : mbst M H.

Definition fin_ends (e f : Z) : Prop := has f TH_FIN = true -> e = E.
Local Notation piece n := (piece (SP := tcp_space n) D fin_ends E).
Local Notation place n := (place (SP := tcp_space n)).
Local Notation stop n := (stop (SP := tcp_space n)).
Local Notation apart n := (apart (SP := tcp_space n)).
Local Notation holds n := (holds (SP := tcp_space n)).
Local Notation owned := (owned mbutl).

(** *** The window moves *)

Lemma place_move a b s : sg_seq s = u32 (place a s) -> b <= place a s <= b + WIN -> place b s = place a s.
Proof.
  intros Hs Hb. unfold Reass.place at 1. rewrite Hs. by apply (sq_pl_at (SeqSpace := tcp_space b)).
Qed.
Lemma piece_move a b mb s : piece a mb s -> b <= place a s -> stop a s <= b + WIN -> piece b mb s /\ place b s = place a s.
Proof.
  intros [P1 P2 P3 P4 P5 P6] Hl Hh. cbn [sq_at sq_lo sq_hi tcp_space] in P1, P2. unfold Reass.stop in *.
  assert (place b s = place a s) as Ep by (apply place_move; [done|lia]). split; [|done].
  split; unfold Reass.stop; rewrite ?Ep; cbn [sq_at sq_lo sq_hi tcp_space]; try done; lia.
Qed.
Lemma pieces_move a b mb l : Forall (piece a mb) l -> Forall (fun s => b <= place a s) l -> a <= b ->
  Forall (piece b mb) l /\ (apart a l -> apart b l) /\ (forall o, holds b l o <-> holds a l o) /\ Forall (fun s => place b s = place a s) l.
Proof.
  intros Hp Hb Hab. assert (Forall (fun s => piece b mb s /\ place b s = place a s) l) as Hm.
  { rewrite Forall_forall in Hp, Hb. apply Forall_forall. intros s Hs. apply piece_move; [auto..|]. pose proof (pc_in _ _ _ _ _ (Hp s Hs)) as Hi. cbn [sq_lo sq_hi tcp_space] in Hi. lia. }
  clear Hb Hp. induction Hm as [|s l [Hs Es] Hl IH].
  { split_and!; try by constructor. intros o. split; intros Hx; by apply Exists_nil in Hx. }
  destruct IH as (I1 & I2 & I3 & I4).
  split_and!; [by constructor| | |by constructor].
  - intros [Ha Hle]%StronglySorted_inv. constructor; [by apply I2|]. rewrite Forall_forall in *. intros t Ht. unfold Reass.stop in *. rewrite Es, (I4 t Ht). by apply Hle.
  - intros o. rewrite !holds_cons, I3. unfold has_place, Reass.stop. by rewrite Es.
Qed.

(** *** Plain bytes in a socket buffer *)

Lemma plain_stream mb m : chain mbutl mb m -> plain mb m -> stream mb m = Byte <$> content mb m.
Proof.
  intros [_ Hc] Hp. induction m as [|a m IH]; [done|]. rewrite stream_cons, content_cons, fmap_app.
  destruct (Hc a ltac:(by left)) as (x & Hu & _). rewrite (toks_use _ _ _ Hu), (bytes_data _ _ _ Hu), (proj2 (Hp a x ltac:(by left) Hu)), app_nil_r.
  rewrite IH; [done| |]; intros b; [intros Hb; apply Hc|intros y Hb; apply Hp]; by right.
Qed.

(** The buffer [sb] and the queued segments [l]. *)
Definition held_by mb (sb : sockbuf) (l : list (list Z)) : Prop := (sb_ok mbutl sb mb /\ sb_hiwat sb < 2 ^ 15) /\ owned mb (sb_mb sb) l.

Lemma append_held mb sb m ls : held_by mb sb (m :: ls) ->
  exists sb' mb', sbappend mbutl sb m mb = Ok (sb', mb') /\ held_by mb' sb' ls /\ stream mb' (sb_mb sb') = stream mb (sb_mb sb) ++ (Byte <$> content mb m) /\
    same_sb sb sb' /\ same_content mb mb' ls.
Proof.
  intros [[[Hsb Hcnt] Hhi] (Hw & Hm & Hpm & Hc & Hp & Hd & _ & Hhd)%owned_split]. unfold sbappend.
  pose proof (chain_perm mbutl mb (sb_mb sb ++ concat ls) (concat ls ++ sb_mb sb) ltac:(apply Permutation_app_comm) Hc) as Hc2.
  assert (forall a, a ∈ sb_mb sb -> a ∉ concat ls) as Hdb by (by destruct Hc as [(_ & HH & _)%NoDup_app _]).
  destruct (sbappend_loop_spec mbutl Hbase m sb mb Hw) as (sb' & mb' & Hr & W1 & K1 & Hok & Hsame & S1 & Hsub & _); [|done|].
  { apply chain_app; [done..|]. intros a Ha Hin. apply (Hd a Hin), elem_of_app. by left. }
  exists sb', mb'. split; [done|].
  assert (chain mbutl mb (concat ls)) as Hcl.
  { destruct Hc as [(_ & _ & N3)%NoDup_app Hu]. split; [done|]. intros a Ha. apply Hu, elem_of_app. by right. }
  assert (forall a, a ∈ concat ls -> ~ a ∈ sb_mb sb ++ m) as Hout.
  { intros a Ha [Hb|Hb]%elem_of_app; [by apply (Hdb a)|]. apply (Hd a Hb), elem_of_app. by right. }
  destruct (kept_owned mbutl (fun a => a ∈ sb_mb sb ++ m) mb mb' [] ls K1 W1 Hcl Hp Hhd Hout) as [(_ & Hc' & Hp' & Hhd') Hsc].
  split_and!.
  - split; [split; [done|]; by rewrite (proj1 Hsame)|]. split_and!; [done| |done..]. apply chain_app; [apply Hok|done|]. intros a Ha Hin. apply (Hout a Hin). by apply Hsub.
  - by rewrite S1, stream_app, (plain_stream mb m).
  - done.
  - intros x Hx. apply Hsc. by right.
Qed.

(** *** Delivery *)

(** A socket that can receive, with the segments [ls] beside it. *)
Definition open_so st (so : Z) (s : socket) (ls : list (list Z)) : Prop :=
  socks st !! so = Some s /\ has (so_state s) SS_CANTRCVMORE = false /\ held_by (smb st) (so_rcv s) ls.
(** What the reader of the socket will find. *)
Definition unread st (s : socket) : list tok := stream (smb st) (sb_mb (so_rcv s)).

Lemma give_spec st so s m ls : open_so st so s (m :: ls) ->
  exists st' s', tcp_give mbutl so m st = Ok st' /\ open_so st' so s' ls /\ same_content (smb st) (smb st') ls /\
    unread st' s' = unread st s ++ (Byte <$> content (smb st) m) /\ same_sb (so_rcv s) (so_rcv s').
Proof.
  intros (Hs & Hr & Hh). unfold tcp_give. rewrite (get_so_Ok _ _ _ Hs). kstep. rewrite Hr.
  destruct (append_held _ _ _ _ Hh) as (sb & mb & -> & Hh' & Es & Hsame & Hsc). kstep.
  exists (put_so so (set_rcv sb s) (set_smb st mb)), (set_rcv sb s). split_and!; try done.
  split; [by cbn; rewrite lookup_insert_eq|done].
Qed.

Lemma open_calm st st' so s ls : calm st st' -> open_so st so s ls ->
  exists s', open_so st' so s' ls /\ unread st' s' = unread st s /\ same_content (smb st) (smb st') ls.
Proof.
  intros Hcalm (Hs & Hr & [[[Hc [C1 C2]] Hhi] Ho]). destruct (proj2 (calm_some _ _ so Hcalm)) as [s' Hs']; [by eexists|].
  assert (forall A (pi : socket -> A), (forall s, pi (asleep s) = pi s) -> pi s' = pi s) as Hpi.
  { intros A pi Hp. pose proof (calm_proj pi st st' so Hp Hcalm) as B. rewrite Hs, Hs' in B. by injection B. }
  assert (smb st' = smb st) as Em by apply Hcalm.
  assert (sb_mb (so_rcv s') = sb_mb (so_rcv s)) as Eb by apply (Hpi _ (fun s => sb_mb (so_rcv s)) ltac:(done)).
  exists s'. unfold open_so, held_by, unread, same_content, sb_ok, counted. rewrite Em, Eb. split_and!; try done.
  - by rewrite (Hpi _ so_state ltac:(done)).
  - by rewrite (Hpi _ (fun s => sb_cc (so_rcv s)) ltac:(done)).
  - by rewrite (Hpi _ (fun s => sb_mbcnt (so_rcv s)) ltac:(done)).
  - by rewrite (Hpi _ (fun s => sb_hiwat (so_rcv s)) ltac:(done)).
Qed.

Lemma pieces_same2 n mb mb' l ls : Forall (piece n mb) l -> same_content mb mb' (map sg_m l ++ ls) -> Forall (piece n mb') l.
Proof.
  intros Hp Hs. apply (pieces_same (SP := tcp_space n) D fin_ends E mb mb' [] l Hp). intros m [->|Hm]%elem_of_cons; [done|].
  apply Hs, elem_of_app. by left.
Qed.

Lemma slice_app o n k : 0 <= n -> 0 <= k -> slice D o (n + k) = slice D o n ++ slice D (o + n) k.
Proof. intros Hn Hk. unfold slice. by rewrite seqZ_app, fmap_app by done. Qed.

(** From place [n] on, what is in order is delivered; the first place not delivered is not held. *)
Lemma drain_spec a so l : forall n fl st s ls, open_so st so s (map sg_m l ++ ls) -> Forall (piece a (smb st)) l -> apart a l ->
  Forall (fun q => n <= place a q) l -> a <= n <= a + WIN -> (fl <> 0 -> n = E) ->
  exists n' l' fl' st' s', tcp_drain mbutl so l fl (u32 n) st = Ok (fl', l', u32 n', st') /\ open_so st' so s' (map sg_m l' ++ ls) /\
    same_content (smb st) (smb st') (map sg_m l' ++ ls) /\ unread st' s' = unread st s ++ (Byte <$> slice D n (n' - n)) /\
    n <= n' <= a + WIN /\ (n = n' \/ n' <= E) /\ Forall (piece a (smb st')) l' /\ apart a l' /\ Forall (fun q => n' < place a q) l' /\
    (forall o, n <= o -> holds a l o <-> o < n' \/ holds a l' o) /\ (fl' <> 0 -> n' = E) /\ l' `suffix_of` l.
Proof.
  induction l as [|q l IH]; intros n fl st s ls Ho Hp Ha Hn Hna Hfl; cbn [tcp_drain].
  { exists n, [], fl, st, s. rewrite Z.sub_diag. split_and!; try done; [by rewrite app_nil_r|lia..|by left|]. intros o Hon. split; [intros Hx; by apply Exists_nil in Hx|].
    intros [?|Hx]; [lia|by apply Exists_nil in Hx]. }
  pose proof Hp as [Hq Hpl]%Forall_cons. apply StronglySorted_inv in Ha as [Ha Hs]. apply Forall_cons in Hn as [Hnq Hnl].
  pose proof (pc_in _ _ _ _ _ Hq) as Hin. pose proof (pc_len _ _ _ _ _ Hq) as Hlen. cbn [sq_lo sq_hi tcp_space] in Hin.
  rewrite (pc_at _ _ _ _ _ Hq). cbn [sq_at tcp_space].
  destruct (Z.eqb_spec (u32 (place a q)) (u32 n)) as [Heq|Hne].
  - assert (place a q = n) as Epn.
    { pose proof (sq_pl_at (SeqSpace := tcp_space a) (place a q) ltac:(cbn [sq_lo sq_hi tcp_space]; unfold Reass.stop in Hin; lia)) as P1.
      pose proof (sq_pl_at (SeqSpace := tcp_space a) n ltac:(cbn [sq_lo sq_hi tcp_space]; lia)) as P2.
      cbn [sq_at tcp_space] in P1, P2. rewrite Heq in P1. by rewrite <- P1, P2. }
    destruct (give_spec st so s (sg_m q) (map sg_m l ++ ls) Ho) as (st1 & s1 & -> & Ho1 & Hsc & Eu & _). kstep.
    change (adv (u32 n) (sg_len q)) with (u32 (u32 n + sg_len q)). rewrite u32_add_l.
    assert (stop a q = n + sg_len q) as Est by (unfold Reass.stop; lia).
    destruct (IH (n + sg_len q) (Z.land (sg_flag q) TH_FIN) st1 s1 ls) as (n' & l' & fl' & st' & s' & -> & V1 & V2 & V3 & V4 & V5 & V6 & V7 & V8 & V9 & V10 & V11); try done.
    { by eapply pieces_same2. }
    { eapply Forall_impl; [exact Hs|]. cbn beta. intros t. by rewrite Est. }
    { lia. }
    { intros Hf. rewrite <- Est. apply (pc_ends _ _ _ _ _ Hq). unfold has. by apply negb_true_iff, Z.eqb_neq. }
    exists n', l', fl', st', s'. split_and!; try done; [| |lia|lia|lia| |by apply suffix_cons_r].
    + intros m Hm. rewrite V2 by done. apply Hsc. destruct V11 as [l1 ->]. rewrite map_app, !elem_of_app in *. tauto.
    + rewrite V3, Eu, (pc_data _ _ _ _ _ Hq), <- app_assoc, <- fmap_app, Epn. do 2 f_equal. rewrite <- slice_app by lia. f_equal. lia.
    + intros o Hon. rewrite holds_cons. unfold has_place. rewrite Epn, Est. destruct (decide (o < n + sg_len q)).
      * split; [intros _; left; lia|intros _; left; lia].
      * rewrite V9 by lia. tauto || (split; [intros [?|?]; [lia|done]|by right]).
  - exists n, (q :: l), fl, st, s. rewrite Z.sub_diag. assert (n < place a q) as Hlt by (assert (n <> place a q) by congruence; lia).
    split_and!; try done; [by rewrite app_nil_r|lia..|by left|by constructor| |].
    + constructor; [done|]. eapply Forall_impl; [exact Hs|]. cbn beta. unfold Reass.stop. intros t Ht. lia.
    + intros o Hon. split; [by right|]. intros [?|?]; [lia|done].
Qed.
(** *** tcp_reass *)

(** A change of the chains [l1] alone, to chains [l2], leaves the buffer and [ls] as they are. *)
Lemma held_swap mb mb' sb l1 l2 ls : held_by mb sb (l1 ++ ls) -> owned mb (sb_mb sb ++ concat ls) l1 /\
  (owned mb' (sb_mb sb ++ concat ls) l2 -> within mbutl l1 mb mb' ->
   held_by mb' sb (l2 ++ ls) /\ stream mb' (sb_mb sb) = stream mb (sb_mb sb) /\ same_content mb mb' ls).
Proof.
  clear nfsd alive D E Hbase. intros [[[Hsb Hcnt] Hhi] (Hw & Hc & Hp & [Hh1 Hhl]%Forall_app)]. rewrite concat_app in Hc, Hp.
  assert (forall l, (sb_mb sb ++ concat ls) ++ concat l ≡ₚ sb_mb sb ++ concat (l ++ ls)) as Hperm.
  { intros l. rewrite concat_app, <- app_assoc. by rewrite (Permutation_app_comm (concat ls)). }
  split. { split_and!; [done| |intros a x Ha; apply Hp, elem_of_app; by left|done]. eapply chain_perm; [|exact Hc]. by rewrite <- concat_app, Hperm. }
  intros (Hw' & Hc' & Hp' & Hh2) Hk. pose proof (chain_perm _ _ _ _ (Hperm l2) Hc') as Hc2.
  destruct (chain_in mbutl mb [] [sb_mb sb; concat ls; concat l1] (sb_mb sb)) as [_ _].
  { cbn. rewrite app_nil_r. eapply chain_perm; [|exact Hc]. by rewrite (Permutation_app_comm (concat l1)). } { set_solver. }
  assert (forall a, a ∈ sb_mb sb \/ a ∈ concat ls -> a ∉ concat l1) as Hout.
  { intros a Ha Hin. destruct Hc as [(_ & N2 & (_ & N4 & _)%NoDup_app)%NoDup_app _]. destruct Ha as [Ha|Ha]; [apply (N2 a Ha), elem_of_app; by left|by apply (N4 a)]. }
  assert (chain mbutl mb (concat ls)) as Hcl.
  { destruct Hc as [(_ & _ & (_ & _ & N3)%NoDup_app)%NoDup_app Hu]. split; [done|]. intros a Ha. apply Hu. rewrite !elem_of_app. auto. }
  destruct (kept_stream mbutl _ _ _ _ Hk Hsb) as (Hsb' & E1 & E2 & E3); [auto|].
  split_and!; [|done|].
  - split; [split; [split; [done|unfold counted; by rewrite E2, E3]|done]|]. destruct (kept_owned mbutl _ mb mb' [] ls Hk Hw' Hcl) as [(_ & _ & _ & Hhl') _]; [intros b y Hb; apply Hp, elem_of_app; by right|done|auto|].
    split_and!; [done..| |by apply Forall_app]. rewrite concat_app. intros a x [Ha|Ha]%elem_of_app Hu; [by apply (Hp' a)|].
    apply (kept_plain mbutl _ _ _ (concat ls) Hk Hcl) with (a := a); [|auto|done|done]. intros b y Hb. apply Hp, elem_of_app. by right.
  - destruct (kept_owned mbutl _ mb mb' [] ls Hk Hw' Hcl) as [_ Hs]; [|done|auto|intros m Hm; apply Hs; by right].
    intros b y Hb. apply Hp, elem_of_app. by right.
Qed.

(** A connection that has received the stream up to place [n]: nothing queued begins before [n], or at [n] unless [b]. *)
Record rcv_ok (b : bool) (n : Z) (tp : tcpcb) st (so : Z) (s : socket) (ls : list (list Z)) : Prop := {
  rk_nxt : rcv_nxt tp = u32 n;
  rk_so : open_so st so s (map sg_m (seg_q tp) ++ ls);
  rk_q : Forall (piece n (smb st)) (seg_q tp);
  rk_apart : apart n (seg_q tp);
  rk_gap : b = true -> Forall (fun q => n < place n q) (seg_q tp)
}.

(** From [n] to [n'] the stream has been delivered, [n'] being the first place not held. *)
Definition advanced (n n' : Z) (tp tp' : tcpcb) st st' (so : Z) (s s' : socket) (ls : list (list Z)) : Prop :=
  n <= n' /\ (n = n' \/ n' <= E) /\ rcv_ok true n' tp' st' so s' ls /\ unread st' s' = unread st s ++ (Byte <$> slice D n (n' - n)) /\
  same_content (smb st) (smb st') ls /\ tp' = set_rcvnxt n' (set_segq (seg_q tp') tp).

Lemma pieces_ge n mb l : Forall (piece n mb) l -> Forall (fun q => n <= place n q) l.
Proof. intros Hp. eapply Forall_impl; [exact Hp|]. intros q Hq. apply (pc_in _ _ _ _ _ Hq). Qed.

Lemma present_spec n tp st so s ls : rcv_ok false n tp st so s ls -> 3 < t_state tp ->
  exists n' fl tp' st' s', tcp_present nfsd alive mbutl so tp st = Ok (fl, tp', st') /\ advanced n n' tp tp' st st' so s s' ls /\
    (forall o, n <= o -> holds n (seg_q tp) o <-> o < n' \/ holds n' (seg_q tp') o) /\ (fl <> 0 -> n' = E).
Proof.
  intros [R1 R2 R3 R4 _] Hst. unfold tcp_present. assert (TCPS_HAVERCVDSYN (t_state tp) = true) as -> by (apply Z.leb_le; unfold TCPS_SYN_RECEIVED; lia).
  assert ((t_state tp =? TCPS_SYN_RECEIVED) = false) as -> by (apply Z.eqb_neq; unfold TCPS_SYN_RECEIVED; lia). cbn [negb andb].
  assert (tp = set_rcvnxt n (set_segq (seg_q tp) tp)) as Etp by (destruct tp; cbn in *; by rewrite R1).
  assert (unread st s = unread st s ++ (Byte <$> slice D n (n - n))) as Eu by (by rewrite Z.sub_diag; cbn; rewrite app_nil_r).
  destruct (seg_q tp) as [|q l] eqn:Eq.
  { exists n, 0, tp, st, s. split; [done|]. split; [|split; [|done]].
    - split_and!; [lia|by left|by split; rewrite ?Eq|done..|by rewrite Eq].
    - rewrite Eq. intros o Ho. split; [by right|]. intros [?|?]; [lia|done]. }
  destruct (Z.eqb_spec (sg_seq q) (rcv_nxt tp)) as [Heq|Hne]; cbn [negb].
  2: { exists n, 0, tp, st, s. rewrite <- Eq in R2, R3, R4. split; [done|]. split; [|split; [|done]].
    - split_and!; [lia|by left|split; [done..|]|done|done|by rewrite Eq]. intros _. rewrite Eq in *. apply Forall_cons in R3 as [Hq _].
      apply StronglySorted_inv in R4 as [_ Hs]. pose proof (pc_at _ _ _ _ _ Hq) as Hat. pose proof (pc_in _ _ _ _ _ Hq) as [Hin _]. pose proof (pc_len _ _ _ _ _ Hq).
      cbn [sq_at sq_lo tcp_space] in Hat, Hin. assert (place n q <> n) by congruence. constructor; [lia|]. eapply Forall_impl; [exact Hs|]. cbn beta.
      unfold Reass.stop. intros t Ht. lia.
    - rewrite Eq. intros o Ho. split; [by right|]. intros [?|?]; [lia|done]. }
  rewrite <- Eq in *. pose proof (pieces_ge _ _ _ R3) as Hge. rewrite R1.
  destruct (drain_spec n so (seg_q tp) n 0 st s ls R2 R3 R4 Hge ltac:(unfold WIN; lia) ltac:(done))
    as (n' & l' & fl' & st1 & s1 & -> & V1 & V2 & V3 & V4 & V5 & V6 & V7 & V8 & V9 & V10 & _). kstep.
  destruct (pieces_move n n' (smb st1) l' V6) as (M1 & M2 & M3 & M4); [eapply Forall_impl; [exact V8|]; cbn beta; lia|lia|].
  assert (Forall (fun q => n' < place n' q) l') as Hgap.
  { rewrite Forall_forall in M4, V8. apply Forall_forall. intros t Ht. rewrite (M4 t Ht). by apply V8. }
  assert (same_content (smb st) (smb st1) ls) as Hsc by (intros m Hm; apply V2, elem_of_app; by right).
  destruct (sowakeup_calm nfsd alive so true st1) as (st2 & E2 & Hcalm); [eexists; apply V1|].
  unfold sorwakeup. rewrite E2. kstep. destruct (open_calm _ _ _ _ _ Hcalm V1) as (s2 & W1 & W2 & W3).
  assert (smb st2 = smb st1) as Em by apply Hcalm.
  assert (u32 (u32 n') = u32 n') as Ew by (unfold wrapu; by rewrite Z.mod_mod).
  exists n', fl', (set_rcvnxt (u32 n') (set_segq l' tp)), st2, s2. split; [done|]. split; [split_and!|split; [|done]].
  - lia.
  - done.
  - split; cbn [seg_q set_rcvnxt set_segq rcv_nxt]; [done..|by rewrite Em|by apply M2|done].
  - by rewrite W2.
  - by rewrite Em.
  - cbn [seg_q set_rcvnxt set_segq]. unfold set_rcvnxt. by rewrite Ew.
  - cbn [seg_q set_rcvnxt set_segq]. intros o Ho. by rewrite M3, V9.
Qed.

Lemma reass_spec n tp st so s ls ti : rcv_ok true n tp st so s (sg_m ti :: ls) -> piece n (smb st) ti -> 3 < t_state tp ->
  exists n' fl tp' st' s', tcp_reass nfsd alive mbutl so tp (Some ti) st = Ok (fl, tp', st') /\ advanced n n' tp tp' st st' so s s' ls /\
    (forall o, n <= o -> holds n (ti :: seg_q tp) o <-> o < n' \/ holds n' (seg_q tp') o) /\ (fl <> 0 -> n' = E).
Proof.
  intros [R1 (S1 & S2 & S3) R3 R4 R5] Hti Hst. specialize (R5 eq_refl). unfold tcp_reass.
  assert (held_by (smb st) (so_rcv s) ((sg_m ti :: map sg_m (seg_q tp)) ++ ls)) as Hh.
  { destruct S3 as [Hsb Ho]. split; [done|]. eapply owned_perm; [|exact Ho]. cbn. by rewrite Permutation_middle. }
  destruct (held_swap (smb st) (smb st) (so_rcv s) _ [] ls Hh) as [Ho _].
  destruct (reass_insert_spec (SP := tcp_space n) mbutl Hbase D fin_ends E (smb st) _ ti (seg_q tp) Ho R3 Hti R4)
    as (ins & l' & mb & -> & Ho' & Hk & Hp' & Ha' & Hh' & _ & Hins). kstep.
  destruct (held_swap (smb st) mb (so_rcv s) _ (map sg_m l') ls Hh) as [_ Hsw]. destruct (Hsw Ho' Hk) as (T1 & T2 & T3).
  destruct ins.
  - destruct (present_spec n (set_segq l' tp) (set_smb st mb) so s ls) as (n' & fl & tp' & st' & s' & -> & (A1 & A2 & A3 & A4 & A5 & A6) & Hc & Hf).
    { by split. } { done. }
    exists n', fl, tp', st', s'. split; [done|]. split; [split_and!|split; [|done]]; try done.
    + rewrite A4. unfold unread. cbn [smb set_smb]. by rewrite T2.
    + intros m Hm. rewrite A5 by done. by apply T3.
    + intros o Hon. rewrite <- Hh'. by apply Hc.
  - subst l'. exists n, 0, tp, (set_smb st mb), s. split; [done|]. split; [split_and!|split; [|done]]; try done.
    + by left.
    + unfold unread. cbn [smb set_smb]. by rewrite T2, Z.sub_diag, app_nil_r.
    + destruct tp; cbn in *; by rewrite R1.
    + intros o Hon. rewrite <- Hh'. split; [by right|]. intros [?|?]; [lia|done].
Qed.

(** what arrives, in any order, comes out as the stream: after tcp_reass of a piece of the stream the reader has
    exactly the bytes up to the first place that nothing has come for; the rest stays queued, sorted and without overlap; no place
    that had come is lost; a FIN is reported only when the stream is complete. *)
Theorem tcp_reass_sound n tp st so s ls ti : rcv_ok true n tp st so s (sg_m ti :: ls) -> piece n (smb st) ti -> 3 < t_state tp ->
  exists n' fl tp' st' s', tcp_reass nfsd alive mbutl so tp (Some ti) st = Ok (fl, tp', st') /\ rcv_ok true n' tp' st' so s' ls /\
    unread st' s' = unread st s ++ (Byte <$> slice D n (n' - n)) /\
    (forall o, n <= o -> holds n (ti :: seg_q tp) o <-> o < n' \/ holds n' (seg_q tp') o) /\ (fl <> 0 -> n' = E).
Proof.
  intros Hr Hti Hst. destruct (reass_spec n tp st so s ls ti Hr Hti Hst) as (n' & fl & tp' & st' & s' & R & (_ & _ & A3 & A4 & _) & Hc & Hf).
  by exists n', fl, tp', st', s'.
Qed.

Lemma TCP_REASS_eq so tp ti st s : socks st !! so = Some s -> has (so_state s) SS_CANTRCVMORE = false ->
  TCP_REASS nfsd alive mbutl so tp ti st = tcp_reass nfsd alive mbutl so tp (Some ti) st.
Proof.
  intros Hs Hr. unfold TCP_REASS. destruct (Z.eqb_spec (sg_seq ti) (rcv_nxt tp)) as [Hn|]; [|done]. destruct (bool_decide_reflect (seg_q tp = [])) as [Hq|]; [|done].
  destruct (Z.eqb_spec (t_state tp) TCPS_ESTABLISHED) as [Ht|]; [|done]. cbn [andb tcp_reass]. rewrite Hq. unfold reass_insert. cbn [before].
  cbn [trim_new trim_old last]. kstep. unfold tcp_present. cbn [t_state set_segq seg_q app rcv_nxt]. rewrite Ht, Hn, Z.eqb_refl. cbn [negb andb TCPS_HAVERCVDSYN].
  change (TCPS_HAVERCVDSYN TCPS_ESTABLISHED) with true. change (TCPS_ESTABLISHED =? TCPS_SYN_RECEIVED) with false. cbn [negb andb tcp_drain].
  rewrite Hn, Z.eqb_refl. unfold tcp_give. replace (set_smb st (smb st)) with st by (by destruct st). rewrite (get_so_Ok _ _ _ Hs). kstep. rewrite Hr.
  destruct (sbappend mbutl (so_rcv s) (sg_m ti) (smb st)) as [[sb mb]| |]; [|done..]. kstep.
  destruct (sorwakeup nfsd alive so _) as [st2| |]; [|done..]. kstep. do 2 f_equal.
  destruct tp. cbn in *. by subst.
Qed.

(** the in-line form TCP_REASS is tcp_reass, as long as the socket can receive. *)
Theorem TCP_REASS_equiv so tp ti st s : socks st !! so = Some s -> has (so_state s) SS_CANTRCVMORE = false ->
  TCP_REASS nfsd alive mbutl so tp ti st = tcp_reass nfsd alive mbutl so tp (Some ti) st.
Proof. apply TCP_REASS_eq. Qed.
End Thms.
