(* ===== verification/TcpStream.v ===== *)
(** * TCP input: any list of segments

    The window in front of the queue (tcp_rcvwin, tcp_trim), the text of a segment (tcp_dodata), and what a reader
    sees of a list of segments of a peer that keeps to the window it was given. *)

From S2P Require Import Prelude Flags Rmap Mbuf MbufThms MbufOps MbufTrim Sockbuf SockbufThms Sock SockThms SockState Reass Tcp TcpThms.
From stdpp Require Import prelude list numbers strings gmap sorting.
From Stdlib Require Import ZArith Lia Sorted.

Local Open Scope Z_scope.
Local Open Scope kern_scope.
#[local] Existing Instance tcp_seqops.

Section Segments.
Context {M H P : Type} `{RM : !ResMap M}.
Context (nfsd : bool) (alive : Z -> bool) (mbutl tcpnodelack : Z).

(** What the receiving half does with a segment that acknowledges nothing new, and of a list of them up to a FIN; what is
    dropped by [goto dropafterack] goes to tcp_respond. *)
Definition tcp_receive (so : Z) (tp : tcpcb) (ti : seg) (urp : Z) (st : sockst M H P) : res (Z * tcpcb * sockst M H P) :=
  s ← get_so so st;
  let tp := tcp_rcvwin (so_rcv s) tp in
  '(r, mb) ← tcp_trim tp ti urp (sg_flag ti) (smb st);
  let st := set_smb st mb in
  match r with
  | None => mret (0, tp, st)
  | Some (ti, _, tiflags) => tcp_dodata nfsd alive mbutl tcpnodelack so tp ti tiflags st
  end.
Fixpoint tcp_receives (so : Z) (tp : tcpcb) (l : list (seg * Z)) (st : sockst M H P) : res (Z * tcpcb * sockst M H P) :=
  match l with
  | [] => mret (0, tp, st)
  | (ti, urp) :: l =>
      '(fl, tp, st) ← tcp_receive so tp ti urp st;
      if has fl TH_FIN then mret (fl, tp, st) else tcp_receives so tp l st
  end.
End Segments.

Lemma u32_lin a x b y : - 2 ^ 31 <= a + x - (b + y) < 2 ^ 31 -> i32 (u32 a + x - (u32 b + y)) = a + x - (b + y).
Proof.
  intros Hr. replace (u32 a + x - (u32 b + y)) with (u32 a + (x - y) - u32 b) by lia. rewrite i32_add_u32, u32_diff by lia. lia.
Qed.

Section Thms.
Context {M H P : Type} `{RM : !ResMap M}.
Context (nfsd : bool) (alive : Z -> bool) (mbutl tcpnodelack : Z).
Context (Hbase : 0 < mbutl /\ mbutl mod NBPG = 0 /\ mbutl + NMBCLUSTERS * NBPG <= 2 ^ 32).
Context (D : Z -> Z) (E : Z).
Implicit Type st : sockst M H P.
Implicit Type mb : mbst M H.

Local Notation piece n := (piece (SP := tcp_space n) D (fin_ends E) E).
Local Notation place n := (place (SP := tcp_space n)).
Local Notation stop n := (stop (SP := tcp_space n)).
Local Notation holds n := (holds (SP := tcp_space n)).
Local Notation has_place n := (has_place (SP := tcp_space n)).
Local Notation owned := (owned mbutl).
Local Notation rcv_ok := (rcv_ok mbutl D E).

(** The places of a segment are read in a window about [A], the edge that was advertised. *)
Definition FAR : Z := 2 ^ 30.

Lemma trim_front_spec A n tp ti urp fl mb b ls : rcv_nxt tp = u32 n -> piece (A - FAR) mb ti -> A - 2 ^ 16 < n <= A -> stop (A - FAR) ti <= A ->
  owned mb b (sg_m ti :: ls) -> has fl TH_SYN = false -> has fl TH_FIN = has (sg_flag ti) TH_FIN ->
  exists r mb', tcp_trim_front tp ti urp fl mb = Ok (r, mb') /\ within mbutl [sg_m ti] mb mb' /\
    match r with
    | None => owned mb' b ls /\ stop (A - FAR) ti <= n
    | Some (t, _, fl') => owned mb' b (sg_m t :: ls) /\ piece (A - FAR) mb' t /\ n <= place (A - FAR) t /\ sg_m t = sg_m ti /\
        stop (A - FAR) t = stop (A - FAR) ti /\ (forall o, n <= o -> has_place (A - FAR) o t <-> has_place (A - FAR) o ti) /\
        sg_flag t = sg_flag ti /\ has fl' TH_FIN = has fl TH_FIN
    end.
Proof.
  intros Hn Ht HA Hst Ho Hsyn Hfin. unfold tcp_trim_front. pose proof (pc_at _ _ _ _ _ Ht) as Hat. pose proof (pc_in _ _ _ _ _ Ht) as Hin.
  pose proof (pc_len _ _ _ _ _ Ht) as Hlen. cbn [sq_at sq_lo sq_hi tcp_space] in Hat, Hin.
  assert (gap (rcv_nxt tp) (sg_seq ti) = n - place (A - FAR) ti) as ->.
  { change (gap (rcv_nxt tp) (sg_seq ti)) with (i32 (rcv_nxt tp - sg_seq ti)). unfold Reass.stop in *. set (p := place (A - FAR) ti) in *.
    rewrite Hn, Hat. apply u32_diff. unfold FAR in *. lia. }
  destruct (Z.ltb_spec 0 (n - place (A - FAR) ti)) as [Hpos|Hpos].
  2: { exists (Some (ti, urp, fl)), mb. split_and!; try done; lia. }
  rewrite Hsyn. destruct ((sg_len ti <? n - place (A - FAR) ti) || _) eqn:Edrop.
  { exists None, mb. split_and!; try done.
    - apply owned_split in Ho as (Hw & _ & _ & Hc & Hp & _ & _ & Hhd). by split_and!.
    - unfold Reass.stop. apply orb_true_iff in Edrop as [?%Z.ltb_lt|[?%Z.eqb_eq _]%andb_true_iff]; lia. }
  apply orb_false_iff in Edrop as [Hle%Z.ltb_ge Hd].
  destruct (owned_adj mbutl Hbase mb b (sg_m ti) ls (n - place (A - FAR) ti) Ho ltac:(lia)) as (mb' & -> & Ho' & Ec & _ & Hk). kstep.
  destruct (cut_piece (SP := tcp_space (A - FAR)) D (fin_ends E) E mb mb' (n - place (A - FAR) ti) ti Ht ltac:(lia)) as (Pc & Ep & Et); [|done|].
  { intros El. apply (pc_ends _ _ _ _ _ Ht). rewrite <- Hfin. rewrite El, Z.eqb_refl in Hd. by apply negb_false_iff in Hd. }
  exists (Some (if n - place (A - FAR) ti <? urp then (cut (n - place (A - FAR) ti) ti, urp - (n - place (A - FAR) ti), fl)
           else (cut (n - place (A - FAR) ti) ti, 0, without fl TH_URG))), mb'.
  split; [by destruct (_ <? urp)|]. split.
  { eapply kept_mono; [|exact Hk]. cbn. intros a. by rewrite app_nil_r. }
  assert (forall fl', has fl' TH_FIN = has fl TH_FIN -> owned mb' b (sg_m (cut (n - place (A - FAR) ti) ti) :: ls) /\ piece (A - FAR) mb' (cut (n - place (A - FAR) ti) ti) /\
    n <= place (A - FAR) (cut (n - place (A - FAR) ti) ti) /\ sg_m (cut (n - place (A - FAR) ti) ti) = sg_m ti /\
    stop (A - FAR) (cut (n - place (A - FAR) ti) ti) = stop (A - FAR) ti /\
    (forall o, n <= o -> has_place (A - FAR) o (cut (n - place (A - FAR) ti) ti) <-> has_place (A - FAR) o ti) /\
    sg_flag (cut (n - place (A - FAR) ti) ti) = sg_flag ti /\ has fl' TH_FIN = has fl TH_FIN) as Hall.
  { intros fl' Hfl'. split_and!; try done; [lia|]. intros o Hno. unfold Reass.has_place. rewrite Ep, Et. lia. }
  destruct (_ <? urp); apply Hall; [done|]. unfold TH_FIN, TH_URG. clear. flags. done.
Qed.

Lemma trim_spec A n tp ti urp mb b ls : rcv_nxt tp = u32 n -> piece (A - FAR) mb ti -> A - 2 ^ 16 < n <= A -> stop (A - FAR) ti <= A -> A - n <= rcv_wnd tp < 2 ^ 16 ->
  owned mb b (sg_m ti :: ls) -> has (sg_flag ti) TH_SYN = false ->
  exists r mb', tcp_trim tp ti urp (sg_flag ti) mb = Ok (r, mb') /\ within mbutl [sg_m ti] mb mb' /\
    match r with
    | None => owned mb' b ls /\ stop (A - FAR) ti <= n
    | Some (t, _, fl') => owned mb' b (sg_m t :: ls) /\ piece n mb' t /\ n <= place n t /\ sg_m t = sg_m ti /\
        (forall o, n <= o -> has_place n o t <-> has_place (A - FAR) o ti) /\ sg_flag t = sg_flag ti /\ has fl' TH_FIN = has (sg_flag ti) TH_FIN
    end.
Proof.
  intros Hn Ht HA Hst Hw Ho Hsyn. unfold tcp_trim.
  assert (forall mb' t, piece (A - FAR) mb' t -> n <= place (A - FAR) t -> stop (A - FAR) t <= A ->
    piece n mb' t /\ n <= place n t /\ (forall o, has_place n o t <-> has_place (A - FAR) o t) /\ gap (sg_seq t + sg_len t) (rcv_nxt tp + rcv_wnd tp) <= 0) as Hmove.
  { intros mb' t Hpt Hnt Hta. destruct (piece_move D E (A - FAR) n mb' t Hpt Hnt) as [Hp' Ep]; [unfold WIN; lia|]. split_and!; [done|lia|..].
    - intros o. unfold Reass.has_place, Reass.stop. by rewrite Ep.
    - pose proof (pc_at _ _ _ _ _ Hpt) as Hat. pose proof (pc_len _ _ _ _ _ Hpt) as Hlen. cbn [sq_at tcp_space] in Hat. unfold Reass.stop in Hta.
      change (gap (sg_seq t + sg_len t) (rcv_nxt tp + rcv_wnd tp)) with (i32 (sg_seq t + sg_len t - (rcv_nxt tp + rcv_wnd tp))).
      set (p := place (A - FAR) t) in *. rewrite Hn, Hat, u32_lin by lia. lia. }
  destruct (Z.eqb_spec (rcv_wnd tp) 0) as [Hw0|Hw0].
  - destruct (Z.eqb_spec (rcv_nxt tp) (sg_seq ti)) as [Heq|Hne]; cbn [negb].
    + pose proof (pc_at _ _ _ _ _ Ht) as Hat. pose proof (pc_in _ _ _ _ _ Ht) as Hin. cbn [sq_at sq_lo sq_hi tcp_space] in Hat, Hin. pose proof (pc_len _ _ _ _ _ Ht) as Hlen.
      assert (place (A - FAR) ti = n) as Ep.
      { unfold Reass.place at 1. rewrite <- Heq, Hn. apply (sq_pl_at (SeqSpace := tcp_space (A - FAR))). cbn [sq_lo sq_hi tcp_space]. unfold FAR, WIN. lia. }
      unfold Reass.stop in Hst. rewrite (proj2 (Z.ltb_ge 0 (sg_len ti))) by lia. destruct (Hmove mb ti Ht) as (M1 & M2 & M3 & _); [lia|unfold Reass.stop; lia|].
      exists (Some (ti, urp, sg_flag ti)), mb. by split_and!.
    + exists None, mb. split_and!; try done; [|lia]. apply owned_split in Ho as (Hw' & _ & _ & Hc & Hp & _ & _ & Hhd). by split_and!.
  - destruct (trim_front_spec A n tp ti urp (sg_flag ti) mb b ls Hn Ht HA Hst Ho Hsyn eq_refl) as (r & mb' & -> & Hk & Hr). kstep.
    destruct r as [[[t urp'] fl']|]; [|by exists None, mb'].
    destruct Hr as (Ho' & Pt & Hnt & Em & Es & Hh & Ef & Hf). destruct (Hmove mb' t Pt Hnt ltac:(lia)) as (M1 & M2 & M3 & M4).
    unfold tcp_trim_back. rewrite (proj2 (Z.ltb_ge _ _) M4). exists (Some (t, urp', fl')), mb'. split_and!; try done. intros o Hno. by rewrite M3, Hh.
Qed.

Lemma rcv_ok_fields n tp tp' st so s ls : seg_q tp' = seg_q tp -> rcv_nxt tp' = rcv_nxt tp -> rcv_ok true n tp st so s ls -> rcv_ok true n tp' st so s ls.
Proof. intros E1 E2 [R1 R2 R3 R4 R5]. split; rewrite ?E1, ?E2; done. Qed.

(** Between the calls: the state, the advertised edge [A], nothing held past it. *)
Definition recving (A n : Z) (tp : tcpcb) st (so : Z) (s : socket) (ls : list (list Z)) : Prop :=
  rcv_ok true n tp st so s ls /\ rcv_adv tp = u32 A /\ A - 2 ^ 16 < n <= A /\ 3 < t_state tp < 10 /\ (forall o, A <= o -> ~ holds n (seg_q tp) o).

Lemma dodata_spec A n tp st so s ls t fl : recving A n tp st so s (sg_m t :: ls) -> piece n (smb st) t -> (forall o, A <= o -> ~ has_place n o t) ->
  n <= place n t -> has fl TH_FIN = has (sg_flag t) TH_FIN ->
  exists n' fl' tp' st' s', tcp_dodata nfsd alive mbutl tcpnodelack so tp t fl st = Ok (fl', tp', st') /\ recving A n' tp' st' so s' ls /\ n <= n' /\
    unread st' s' = unread st s ++ (Byte <$> slice D n (n' - n)) /\ same_content (smb st) (smb st') ls /\
    (forall o, n <= o -> holds n (t :: seg_q tp) o <-> o < n' \/ holds n' (seg_q tp') o) /\ (has fl' TH_FIN = true -> n' = E).
Proof.
  intros (Hr & Hadv & HA & Hts & Hpast) Ht Hpt Hn Hfin. unfold tcp_dodata.
  assert (TCPS_HAVERCVDFIN (t_state tp) = false) as -> by (apply Z.leb_gt; unfold TCPS_TIME_WAIT; lia). cbn [negb]. rewrite andb_true_r.
  destruct (negb (sg_len t =? 0) || has fl TH_FIN) eqn:Eb.
  - pose proof (rk_so _ _ _ _ _ _ _ _ _ _ Hr) as (Hs & Hcr & _). rewrite (TCP_REASS_eq nfsd alive mbutl so tp t st s Hs Hcr).
    destruct (reass_spec nfsd alive mbutl Hbase D E n tp st so s ls t Hr Ht ltac:(lia)) as (n' & fl' & tp1 & st1 & s1 & -> & (A1 & A2 & A3 & A4 & A5 & A6) & Hc & Hf). kstep.
    pose proof (rk_so _ _ _ _ _ _ _ _ _ _ A3) as (Hs1 & _). rewrite (get_so_Ok _ _ _ Hs1). kstep.
    match goal with |- context [set_tflags ?x tp1] => set (tp2 := set_tflags x tp1) end.
    match goal with |- context [if ?c then set_maxrcvd ?x tp2 else tp2] => set (tp3 := if c then set_maxrcvd x tp2 else tp2) end.
    assert (seg_q tp3 = seg_q tp1 /\ rcv_nxt tp3 = rcv_nxt tp1 /\ rcv_adv tp3 = rcv_adv tp1 /\ t_state tp3 = t_state tp1) as (B1 & B2 & B3 & B4).
    { unfold tp3. by destruct (_ <? _). }
    assert (rcv_adv tp1 = rcv_adv tp /\ t_state tp1 = t_state tp) as [B5 B6] by (rewrite A6; done).
    assert (forall o, A <= o -> ~ holds n (t :: seg_q tp) o) as Hpast' by (intros o Ho; rewrite holds_cons; intros [Hx|Hx]; [by apply (Hpt o)|by apply (Hpast o)]).
    assert (n' <= A) as HnA.
    { destruct (decide (n' <= A)) as [|Hgt]; [done|]. exfalso. apply (Hpast' A ltac:(lia)). apply Hc; [lia|]. left. lia. }
    exists n', fl', tp3, st1, s1. split_and!; try done; [split_and!|..].
    + by eapply rcv_ok_fields.
    + by rewrite B3, B5.
    + lia.
    + lia.
    + by rewrite B4, B6; lia.
    + rewrite B4, B6. lia.
    + intros o Ho Hx. apply (Hpast' o Ho). apply Hc; [lia|]. right. by rewrite <- B1.
    + by rewrite B1.
    + intros Hfl. apply Hf. unfold has in Hfl. apply negb_true_iff, Z.eqb_neq in Hfl. intros ->. done.
  - apply orb_false_iff in Eb as [El%negb_false_iff%Z.eqb_eq Ef]. destruct Hr as [R1 (S1 & S2 & [Hsb Ho]) R3 R4 R5].
    pose proof (owned_perm mbutl (smb st) (sb_mb (so_rcv s)) _ (sg_m t :: map sg_m (seg_q tp) ++ ls) ltac:(by rewrite Permutation_middle) Ho) as Ho1.
    destruct (held_swap mbutl (smb st) (smb st) (so_rcv s) [sg_m t] [] (map sg_m (seg_q tp) ++ ls)) as [Ho2 _]; [by split|].
    destruct (owned_free mbutl Hbase (smb st) _ _ _ Ho2) as (mb & -> & Ho3 & _ & Hk). kstep.
    destruct (held_swap mbutl (smb st) mb (so_rcv s) [sg_m t] [] (map sg_m (seg_q tp) ++ ls)) as [_ Hsw]; [by split|].
    destruct (Hsw Ho3) as (T1 & T2 & T3). { eapply kept_mono; [|exact Hk]. cbn. intros a. by rewrite app_nil_r. }
    assert (sg_len t = 0 -> forall o, ~ has_place n o t) as Hno by (intros E0 o; unfold Reass.has_place, Reass.stop; lia).
    exists n, (without fl TH_FIN), tp, (set_smb st mb), s. split_and!; try done; try lia; [split_and!; try done; try lia|..].
    + split; try done. eapply pieces_same2; [exact R3|exact T3].
    + unfold unread. cbn [smb set_smb]. by rewrite T2, Z.sub_diag, app_nil_r.
    + intros m Hm. apply T3, elem_of_app. by right.
    + intros o Hon. rewrite holds_cons. split; [intros [?%Hno|?]; [done|done|by right]|]. intros [?|?]; [lia|by right].
    + unfold TH_FIN. intros Hf. exfalso. revert Hf. clear. flags. done.
Qed.

(** A segment of a peer that keeps to the window: a piece of its stream, within the advertised edge. *)
Definition honest (A : Z) mb (t : seg) : Prop := piece (A - FAR) mb t /\ stop (A - FAR) t <= A /\ has (sg_flag t) TH_SYN = false.

Lemma rcvwin_spec A n tp sb mb : sb_ok mbutl sb mb -> sb_hiwat sb < 2 ^ 15 -> rcv_nxt tp = u32 n -> rcv_adv tp = u32 A -> A - 2 ^ 16 < n <= A ->
  A - n <= rcv_wnd (tcp_rcvwin sb tp) < 2 ^ 16.
Proof.
  intros [_ [Hcc _]] Hhi Hn Ha HA. unfold tcp_rcvwin. cbn [set_rcvwnd rcv_wnd]. rewrite Hn, Ha, u32_diff by lia.
  pose proof (wraps_range 16 (Z.of_nat (length (content mb (sb_mb sb)))) ltac:(done)) as Hr. rewrite <- Hcc in Hr.
  assert (sbspace sb < 2 ^ 16) as Hsp by (unfold sbspace; lia). rewrite wrapu_small by (destruct (_ <? _); lia). destruct (_ <? _); lia.
Qed.

Lemma receive_spec A n tp st so s ls t urp : recving A n tp st so s (sg_m t :: ls) -> honest A (smb st) t ->
  exists n' fl tp' st' s', tcp_receive nfsd alive mbutl tcpnodelack so tp t urp st = Ok (fl, tp', st') /\ recving A n' tp' st' so s' ls /\ n <= n' /\
    unread st' s' = unread st s ++ (Byte <$> slice D n (n' - n)) /\ same_content (smb st) (smb st') ls /\
    (forall o, n <= o -> holds n (seg_q tp) o \/ has_place (A - FAR) o t <-> o < n' \/ holds n' (seg_q tp') o) /\ (has fl TH_FIN = true -> n' = E).
Proof.
  intros (Hr & Hadv & HA & Hts & Hpast) (Ht & Hst & Hsyn). unfold tcp_receive. destruct Hr as [R1 (S1 & S2 & [[Hsb Hhi] Ho]) R3 R4 R5].
  rewrite (get_so_Ok _ _ _ S1). kstep. pose proof (rcvwin_spec A n tp (so_rcv s) (smb st) Hsb Hhi R1 Hadv HA) as Hw.
  set (tp1 := tcp_rcvwin (so_rcv s) tp) in *. assert (3 < t_state tp1 < 10) as [Hts1 Hts2] by exact Hts.
  assert (held_by mbutl (smb st) (so_rcv s) ([sg_m t] ++ (map sg_m (seg_q tp) ++ ls))) as Hh.
  { split; [done|]. eapply owned_perm; [|exact Ho]. cbn. by rewrite Permutation_middle. }
  destruct (held_swap mbutl (smb st) (smb st) (so_rcv s) _ [] _ Hh) as [Ho1 _].
  destruct (trim_spec A n tp1 t urp (smb st) _ [] R1 Ht HA Hst Hw Ho1 Hsyn) as (r & mb & -> & Hk & Hres). kstep.
  destruct r as [[[t' urp'] fl']|].
  - destruct Hres as (Ho2 & Pt & Hnt & Em & Hh' & Ef & Hf).
    destruct (held_swap mbutl (smb st) mb (so_rcv s) [sg_m t] [sg_m t'] _ Hh) as [_ Hsw]. destruct (Hsw Ho2 Hk) as (T1 & T2 & T3).
    destruct (dodata_spec A n tp1 (set_smb st mb) so s ls t' fl') as (n' & fl2 & tp' & st' & s' & -> & V1 & V2 & V3 & V4 & V5 & V6).
    + split_and!; try done; try lia. split; try done.
      * split; [done|]. split; [done|]. destruct T1 as [T0 T1]. split; [done|]. eapply owned_perm; [|exact T1]. cbn. by rewrite Permutation_middle.
      * eapply pieces_same2; [exact R3|exact T3].
    + done.
    + intros o HoA Hx%Hh'; [|lia]. unfold Reass.has_place in Hx. lia.
    + done.
    + by rewrite Hf, Ef.
    + exists n', fl2, tp', st', s'. split; [done|]. split_and!; try done.
      * rewrite V3. unfold unread. cbn [smb set_smb]. by rewrite T2.
      * intros m Hm. rewrite V4 by done. apply T3, elem_of_app. by right.
      * intros o Hon. rewrite <- V5, holds_cons by done. rewrite <- (Hh' o Hon). tauto.
  - destruct Hres as [Ho2 Hle]. destruct (held_swap mbutl (smb st) mb (so_rcv s) [sg_m t] [] _ Hh) as [_ Hsw]. destruct (Hsw Ho2 Hk) as (T1 & T2 & T3).
    exists n, 0, tp1, (set_smb st mb), s. split; [done|]. split_and!; try done; try lia; [split_and!; try done; try lia|..].
    + split; try done. eapply pieces_same2; [exact R3|exact T3].
    + unfold unread. cbn [smb set_smb]. by rewrite T2, Z.sub_diag, app_nil_r.
    + intros m Hm. apply T3, elem_of_app. by right.
    + intros o Hon. split; [intros [?|Hx]; [by right|unfold Reass.has_place in Hx; lia]|intros [?|?]; [lia|by left]].
Qed.

Lemma receives_spec A l : forall n tp st so s ls, recving A n tp st so s (map (sg_m ∘ fst) l ++ ls) -> Forall (honest A (smb st) ∘ fst) l ->
  exists n' fl tp' st' s', tcp_receives nfsd alive mbutl tcpnodelack so tp l st = Ok (fl, tp', st') /\ n <= n' /\
    unread st' s' = unread st s ++ (Byte <$> slice D n (n' - n)) /\ socks st' !! so = Some s' /\
    if has fl TH_FIN then n' = E
    else recving A n' tp' st' so s' ls /\
      forall o, n <= o -> holds n (seg_q tp) o \/ Exists (fun t => has_place (A - FAR) o t.1) l <-> o < n' \/ holds n' (seg_q tp') o.
Proof.
  induction l as [|[t urp] l IH]; intros n tp st so s ls Hr Hl; cbn [tcp_receives].
  { exists n, 0, tp, st, s. split_and!; try done.
    - by rewrite Z.sub_diag, app_nil_r.
    - apply Hr.
    - cbn [has]. change (has 0 TH_FIN) with false. cbn iota. split; [done|]. intros o Ho. split; [intros [?|Hx]; [by right|by apply Exists_nil in Hx]|intros [?|?]; [lia|by left]]. }
  apply Forall_cons in Hl as [Ht Hl].
  destruct (receive_spec A n tp st so s _ t urp Hr Ht) as (n1 & fl & tp1 & st1 & s1 & -> & V1 & V2 & V3 & V4 & V5 & V6). kstep.
  destruct (has fl TH_FIN) eqn:Ef.
  { exists n1, fl, tp1, st1, s1. split_and!; try done; [apply V1|]. rewrite Ef. by apply V6. }
  destruct (IH n1 tp1 st1 so s1 ls V1) as (n' & fl' & tp' & st' & s' & -> & W1 & W2 & W3 & W4).
  { rewrite Forall_forall in Hl |- *. intros x Hx. destruct (Hl x Hx) as (P1 & P2 & P3). split; [|done]. eapply piece_same; [exact P1|].
    apply V4, elem_of_app. left. by apply (list_elem_of_fmap_2 (sg_m ∘ fst)). }
  exists n', fl', tp', st', s'. split; [done|]. split_and!; [lia| |done|].
  - rewrite W2, V3, <- app_assoc, <- fmap_app. do 2 f_equal. replace (n' - n) with ((n1 - n) + (n' - n1)) by lia. rewrite slice_app by lia. do 2 f_equal. lia.
  - destruct (has fl' TH_FIN); [done|]. destruct W4 as [W4 W5]. split; [done|]. intros o Ho. rewrite Exists_cons. cbn [fst].
    destruct (decide (n1 <= o)) as [Hge|Hlt].
    + rewrite <- W5 by done. specialize (V5 o Ho). assert (o < n1 <-> False) as HF by lia. tauto.
    + split; [intros _; left; lia|]. intros _. assert (o < n1) as HT by lia. specialize (V5 o Ho). tauto.
Qed.

(** ** The FIN *)

(** Where a FIN takes a connection. *)
Definition fin_state (v : Z) : Z :=
  if (v =? TCPS_SYN_RECEIVED) || (v =? TCPS_ESTABLISHED) then TCPS_CLOSE_WAIT
  else if v =? TCPS_FIN_WAIT_1 then TCPS_CLOSING else if v =? TCPS_FIN_WAIT_2 then TCPS_TIME_WAIT else v.

Lemma reflagged_has so f st st' : is_Some (socks st !! so) -> reflagged so f st st' -> smb st' = smb st /\ exists s s', socks st !! so = Some s /\ socks st' !! so = Some s' /\ so_state s' = f (so_state s).
Proof.
  intros [s Hs] Hr. split; [by destruct Hr as (-> & _)|]. pose proof (reflagged_state so f st st' so Hr) as E1. rewrite Hs in E1. cbn in E1. rewrite decide_True in E1 by done.
  destruct (socks st' !! so) as [s'|] eqn:E2; [|done]. injection E1 as E1. by exists s, s'.
Qed.

(** C21: in any state from SYN_RECEIVED to LAST_ACK a FIN takes one sequence number, asks for an acknowledgement at once and ends what the
    socket can receive; it moves the connection along RFC 793 (SYN_RECEIVED and ESTABLISHED to CLOSE_WAIT, FIN_WAIT_1 to CLOSING,
    FIN_WAIT_2 to TIME_WAIT, where only the timer of twice the segment lifetime runs) and leaves it in CLOSE_WAIT, CLOSING and LAST_ACK, where a further FIN
    is taken like the first; in TIME_WAIT, where it is a repetition, it only restarts the timer.  The queue of segments and the mbufs stay. *)
Theorem tcp_fin_sound so tp fl st : is_Some (socks st !! so) -> has fl TH_FIN = true -> 3 <= t_state tp <= 10 ->
  exists tp' st', tcp_fin nfsd alive so tp fl st = Ok (tp', st') /\ t_state tp' = fin_state (t_state tp) /\ seg_q tp' = seg_q tp /\ smb st' = smb st /\
    if decide (t_state tp = TCPS_TIME_WAIT) then tp' = start_2msl tp /\ st' = st
    else rcv_nxt tp' = u32 (rcv_nxt tp + 1) /\ has (t_flags tp') TF_ACKNOW = true /\
      (exists s', socks st' !! so = Some s' /\ has (so_state s') SS_CANTRCVMORE = true) /\
      t_timer tp' = if decide (t_state tp = TCPS_FIN_WAIT_2) then [0; 0; 0; 2 * TCPTV_MSL] else t_timer tp.
Proof.
  intros Hs Hf Ht. unfold tcp_fin. rewrite Hf. unfold TCPS_HAVERCVDFIN, TCPS_TIME_WAIT.
  destruct (Z.leb_spec 10 (t_state tp)) as [Hge|Hlt].
  { assert (t_state tp = 10) as E10 by lia. kstep. exists (start_2msl tp), st. destruct (decide (t_state tp = 10)); [|done]. rewrite E10. by split_and!. }
  destruct (cantmore_spec nfsd alive so true st Hs) as (st1 & E1 & R1). rewrite E1. kstep. destruct (reflagged_has so _ st st1 Hs R1) as (M1 & s & s1 & Hs0 & Hs1 & F1).
  set (tp1 := set_rcvnxt _ _). change (t_state tp1) with (t_state tp).
  assert (has (so_state s1) SS_CANTRCVMORE = true) as Hc1 by (rewrite F1; unfold SS_CANTRCVMORE; clear; flags; done).
  assert (has (t_flags tp1) TF_ACKNOW = true) as Ha1 by (cbn; unfold TF_ACKNOW; clear; flags; done).
  unfold fin_state. destruct (decide (t_state tp = 10)) as [|_]; [lia|].
  destruct ((t_state tp =? TCPS_SYN_RECEIVED) || (t_state tp =? TCPS_ESTABLISHED)) eqn:E34.
  { exists (set_tstate TCPS_CLOSE_WAIT tp1), st1. apply orb_true_iff in E34 as [E3%Z.eqb_eq|E4%Z.eqb_eq]; rewrite decide_False by (rewrite ?E3, ?E4; done); split_and!; try done; by exists s1. }
  destruct (Z.eqb_spec (t_state tp) TCPS_FIN_WAIT_1) as [E6|N6].
  { exists (set_tstate TCPS_CLOSING tp1), st1. rewrite decide_False by (by rewrite E6). split_and!; try done; by exists s1. }
  destruct (Z.eqb_spec (t_state tp) TCPS_FIN_WAIT_2) as [E9|N9].
  - destruct (decide (t_state tp = TCPS_FIN_WAIT_2)); [|done]. destruct (soisdisconnected_spec nfsd alive so st1 ltac:(by eexists)) as (st2 & E2 & R2). rewrite E2. kstep.
    destruct (reflagged_has so _ st1 st2 ltac:(by eexists) R2) as (M2 & s1' & s2 & Hs1' & Hs2 & F2). rewrite Hs1 in Hs1'. injection Hs1' as <-.
    exists (start_2msl (tcp_canceltimers (set_tstate TCPS_TIME_WAIT tp1))), st2. split_and!; try done; [by rewrite M2|].
    exists s2. split; [done|]. rewrite F2. unfold disconnected, SS_CANTRCVMORE, SS_CANTSENDMORE, SS_ISCONNECTING, SS_ISCONNECTED, SS_ISDISCONNECTING. clear. flags. done.
  - destruct (decide (t_state tp = TCPS_FIN_WAIT_2)); [done|]. assert ((t_state tp =? 10) = false) as -> by (apply Z.eqb_neq; lia).
    exists tp1, st1. split_and!; try done; by exists s1.
Qed.

(** C4: the reader sees the stream: whatever segments of its stream a peer sends within the window it was given, in
    whatever order, overlapping and repeated as they may be, the socket receives exactly the bytes up to the first place that has not
    come, and a FIN is reported only after all of them. *)
Theorem tcp_receives_stream A l n tp st so s ls : recving A n tp st so s (map (sg_m ∘ fst) l ++ ls) -> Forall (honest A (smb st) ∘ fst) l ->
  exists n' fl tp' st' s', tcp_receives nfsd alive mbutl tcpnodelack so tp l st = Ok (fl, tp', st') /\ n <= n' /\
    socks st' !! so = Some s' /\ unread st' s' = unread st s ++ (Byte <$> slice D n (n' - n)) /\
    if has fl TH_FIN then n' = E
    else (forall o, n <= o < n' -> holds n (seg_q tp) o \/ Exists (fun t => has_place (A - FAR) o t.1) l) /\
      ~ holds n (seg_q tp) n' /\ ~ Exists (fun t => has_place (A - FAR) n' t.1) l.
Proof.
  intros Hr Hl. destruct (receives_spec A l n tp st so s ls Hr Hl) as (n' & fl & tp' & st' & s' & V1 & V2 & V3 & V4 & V5).
  exists n', fl, tp', st', s'. split_and!; try done. destruct (has fl TH_FIN); [done|]. destruct V5 as [V5 V6].
  split; [intros o Ho; apply V6; [lia|left; lia]|]. assert (~ (n' < n' \/ holds n' (seg_q tp') n')) as Hno; [|rewrite <- V6 in Hno by lia; tauto]. intros [?|Hx]; [lia|].
  destruct V5 as ([_ _ _ _ R5] & _). specialize (R5 eq_refl). apply Exists_exists in Hx as (q & Hq & Hx). rewrite Forall_forall in R5. specialize (R5 q Hq). unfold Reass.has_place in Hx. lia.
Qed.
End Thms.
