(* ===== verification/TcpWitness.v ===== *)
(** * Segments the theorems apply to

    A connection whose sequence numbers are about to wrap, with an empty queue, and three segments of one stream: the
    middle, the end with the FIN, the beginning.  Runs that show where the code parts from what it means to do. *)

From S2P Require Import Prelude Flags Rmap Mbuf MbufThms MbufOps MbufTrim MbufWitness Sockbuf SockbufThms Sock SockThms Reass Tcp TcpThms TcpStream.
From stdpp Require Import prelude list numbers strings gmap sorting.
From Stdlib Require Import ZArith Lia Sorted.

Local Open Scope Z_scope.
Local Open Scope kern_scope.

(** ** Chains of small mbufs, by computation *)

Definition snug (st : mbst rmap unit) (a : Z) : bool :=
  match mbs st !! a with
  | Some x => bool_decide (m_type x <> MT_FREE /\ 0 <= m_len x < 2 ^ 15 /\ MMINOFF <= m_off x <= MMAXOFF /\ m_off x + m_len x <= MMAXOFF /\ m_act x = 0)
  | None => false
  end.
Lemma snug_chain st m : NoDup m -> forallb (snug st) m = true -> chain base st m /\ plain st m.
Proof.
  intros Hnd Hm. assert (forall a, a ∈ m -> exists x, mbs st !! a = Some x /\ m_type x <> MT_FREE /\ 0 <= m_len x < 2 ^ 15 /\ MMINOFF <= m_off x <= MMAXOFF /\
    m_off x + m_len x <= MMAXOFF /\ m_act x = 0) as Hx.
  { intros a Ha. rewrite forallb_forall in Hm. specialize (Hm a ltac:(by apply list_elem_of_In)). unfold snug in Hm.
    destruct (mbs st !! a) as [x|]; [|done]. exists x. split; [done|]. by apply bool_decide_eq_true in Hm. }
  split.
  - split; [done|]. intros a Ha. destruct (Hx a Ha) as (x & E1 & E2 & E3 & E4 & E5 & _). exists x. split; [by split|]. split; [done|]. left. by split.
  - intros a x Ha [Hl _]. destruct (Hx a Ha) as (y & E1 & _ & _ & E4 & _ & E6). rewrite E1 in Hl. injection Hl as <-. split; [by left|done].
Qed.

(** ** A connection *)

(** The stream: byte [o] at place [o]; it starts a little before the numbers wrap, at [t0], and has 23 bytes. *)
Definition t0 : Z := 2 ^ 32 - 5.
Definition bytes_of (o : Z) : Z := Z.land o 255.
(** A packet of a header of 40 bytes and [n] bytes of the stream from [o], with the header dropped. *)
Definition packet (o n : Z) (st : mbst rmap unit) : res (Z * mbst rmap unit) :=
  '(a, st) ← fill (o - 40) (40 + n) st; st ← m_adj [a] 40 st; mret (a, st).
Definition s1 : mbst rmap unit := after (packet (t0 + 10) 10 p1) p1.
Definition s2 : mbst rmap unit := after (packet (t0 + 15) 8 s1) s1.
Definition s3 : mbst rmap unit := after (packet t0 15 s2) s2.
Definition at_of (r : res (Z * mbst rmap unit)) : Z := match r with Ok (a, _) => a | _ => 0 end.
Definition ga : Z := Eval vm_compute in at_of (packet (t0 + 10) 10 p1).
Definition gb : Z := Eval vm_compute in at_of (packet (t0 + 15) 8 s1).
Definition gc : Z := Eval vm_compute in at_of (packet t0 15 s2).

Lemma packet_wf o n st a st1 st2 : mb_wf base st -> 0 <= n <= 72 -> fill (o - 40) (40 + n) st = Ok (a, st1) -> snug st1 a = true -> packet o n st = Ok (a, st2) -> mb_wf base st2.
Proof.
  intros Hw Hn Hf Hs Hr. pose proof (fill_wf (o - 40) (40 + n) st a st1 Hw ltac:(change MLEN with 112; lia) Hf) as W1.
  destruct (snug_chain st1 [a]) as [Hc Hp]; [apply NoDup_singleton|by cbn; rewrite Hs|].
  destruct (adj_front_spec base pool_base_ok [a] 40 st1 W1 Hc (plain_funny st1 [a] Hp) ltac:(lia)) as (st3 & E & W3 & _).
  unfold packet in Hr. rewrite Hf in Hr. kstep. cbn [mbind res_bind m_adj] in Hr. change (0 <=? 40) with true in Hr. cbv iota in Hr. rewrite E in Hr. cbn in Hr.
  by injection Hr as <-.
Qed.

Lemma s1_run : packet (t0 + 10) 10 p1 = Ok (ga, s1).
Proof. apply after_run. vm_compute. reflexivity. Qed.
Lemma s2_run : packet (t0 + 15) 8 s1 = Ok (gb, s2).
Proof. apply after_run. vm_compute. reflexivity. Qed.
Lemma s3_run : packet t0 15 s2 = Ok (gc, s3).
Proof. apply after_run. vm_compute. reflexivity. Qed.
Lemma s3_wf : mb_wf base s3.
Proof.
  refine (packet_wf t0 15 s2 gc (after (fill (t0 - 40) (40 + 15) s2) s2) s3 _ _ _ _ s3_run); [|by vm_compute|apply after_run; vm_compute; reflexivity|vm_compute; reflexivity].
  refine (packet_wf (t0 + 15) 8 s1 gb (after (fill (t0 + 15 - 40) (40 + 8) s1) s1) s2 _ _ _ _ s2_run); [|by vm_compute|apply after_run; vm_compute; reflexivity|vm_compute; reflexivity].
  refine (packet_wf (t0 + 10) 10 p1 ga (after (fill (t0 + 10 - 40) (40 + 10) p1) p1) s1 p1_wf _ _ _ s1_run); [by vm_compute|apply after_run; vm_compute; reflexivity|vm_compute; reflexivity].
Qed.

Definition middle : seg := Seg (u32 (t0 + 10)) 10 TH_ACK [ga].
Definition ending : seg := Seg (u32 (t0 + 15)) 8 (TH_ACK + TH_FIN) [gb].
Definition beginning : seg := Seg (u32 t0) 15 TH_ACK [gc].
Definition t_end : Z := t0 + 23.

Definition inet : protosw := Protosw SOCK_STREAM 0 0 0.
Definition tso : Z := 5000.
Definition tsock (state : Z) : socket := Socket SOCK_STREAM 0 0 state 0 inet 0 0 0 0 0 0 (Sockbuf 0 2048 0 4096 0 0 [] None 0) sb0 0 0 0 0.
Definition conn (state : Z) : sockst rmap unit unit := Sockst {[tso := tsock state]} s3 tt [].
(** A window of 100 bytes has been advertised. *)
Definition tp0 : tcpcb := Tcpcb [] TCPS_ESTABLISHED [0; 0; 0; 0] 0 0 (u32 t0) (u32 (t0 + 100)) 0.

(** The first mbuf of a chain has room for a header. *)
Definition roomy (st : mbst rmap unit) (m : list Z) : bool :=
  match m with a :: _ => match mbs st !! a with Some x => bool_decide (inline x /\ MMINOFF + 20 <= m_off x) | None => false end | [] => false end.
Lemma roomy_headed st m : roomy st m = true -> headed st m.
Proof.
  destruct m as [|a m]; [done|]. cbn. destruct (mbs st !! a) as [y|] eqn:E; [|done]. intros Hy%bool_decide_eq_true. exists a, m. split; [done|].
  intros x [Hx _]. rewrite E in Hx. by injection Hx as <-.
Qed.
Definition all_good (st : mbst rmap unit) (l : list (list Z)) : bool := bool_decide (NoDup (concat l)) && forallb (snug st) (concat l) && forallb (roomy st) l.
Lemma good_owned st l : mb_wf base st -> all_good st l = true -> owned base st [] l.
Proof.
  intros Hw [[Hn%bool_decide_eq_true Hs]%andb_true_iff Hr]%andb_true_iff. destruct (snug_chain st _ Hn Hs) as [Hc Hp]. split_and!; [done..|].
  apply Forall_forall. intros m Hm. apply roomy_headed. rewrite forallb_forall in Hr. apply Hr. by apply list_elem_of_In.
Qed.

Lemma conn_ready l : all_good s3 l = true -> rcv_ok base bytes_of t_end true t0 tp0 (conn SS_ISCONNECTED) tso (tsock SS_ISCONNECTED) l.
Proof.
  intros Hg. split; [reflexivity| |constructor|constructor|intros _; constructor].
  split; [reflexivity|]. split; [reflexivity|]. split; [|by apply good_owned; [exact s3_wf|]].
  split; [|reflexivity]. split; [|split; reflexivity]. split; [constructor|]. intros a Ha. by apply elem_of_nil in Ha.
Qed.
Lemma conn_recving l : all_good s3 l = true -> recving base bytes_of t_end (t0 + 100) t0 tp0 (conn SS_ISCONNECTED) tso (tsock SS_ISCONNECTED) l.
Proof.
  intros Hg. split_and!; [by apply conn_ready|reflexivity|unfold t0; lia|unfold t0; lia|done|done|]. intros o _ Hx. by apply Exists_nil in Hx.
Qed.

(** A piece, by computation. *)
Lemma piece_check lo t : sg_seq t = u32 (place (SP := tcp_space lo) t) -> lo <= place (SP := tcp_space lo) t -> stop (SP := tcp_space lo) t <= t_end -> t_end <= lo + WIN ->
  0 < sg_len t < 2 ^ 15 -> content s3 (sg_m t) = slice bytes_of (place (SP := tcp_space lo) t) (sg_len t) ->
  has (sg_flag t) TH_FIN = false \/ stop (SP := tcp_space lo) t = t_end -> piece (SP := tcp_space lo) bytes_of (fin_ends t_end) t_end s3 t.
Proof.
  intros H1 H2 H3 H4 H5 H6 H7. split; cbn [sq_at sq_lo sq_hi tcp_space]; try done; try lia. unfold fin_ends. intros Hf. destruct H7; [congruence|done].
Qed.
Ltac piece_tac := apply piece_check; [vm_compute; reflexivity|vm_compute; discriminate|vm_compute; discriminate|vm_compute; discriminate|vm_compute; split; reflexivity || discriminate|vm_compute; reflexivity|
  (left; vm_compute; reflexivity) || (right; vm_compute; reflexivity)].

Lemma tcp_reass_sound_witness : exists fl tp' st', tcp_reass false (fun _ => false) base tso tp0 (Some middle) (conn SS_ISCONNECTED) = Ok (fl, tp', st').
Proof.
  destruct (tcp_reass_sound false (fun _ => false) base pool_base_ok bytes_of t_end t0 tp0 (conn SS_ISCONNECTED) tso (tsock SS_ISCONNECTED) [[gb]] middle)
    as (n' & fl & tp' & st' & s' & E & _).
  - apply conn_ready. vm_compute. reflexivity.
  - piece_tac.
  - reflexivity.
  - exists fl, tp', st'. exact E.
Defined.

Lemma TCP_REASS_equiv_witness : TCP_REASS false (fun _ => false) base tso tp0 beginning (conn SS_ISCONNECTED) = tcp_reass false (fun _ => false) base tso tp0 (Some beginning) (conn SS_ISCONNECTED).
Proof. exact (TCP_REASS_equiv false (fun _ => false) base tso tp0 beginning (conn SS_ISCONNECTED) (tsock SS_ISCONNECTED) eq_refl eq_refl). Defined.

Lemma middle_honest : honest bytes_of t_end (t0 + 100) s3 middle.
Proof. split; [piece_tac|split; [vm_compute; discriminate|reflexivity]]. Qed.
Lemma ending_honest : honest bytes_of t_end (t0 + 100) s3 ending.
Proof. split; [piece_tac|split; [vm_compute; discriminate|reflexivity]]. Qed.
Lemma beginning_honest : honest bytes_of t_end (t0 + 100) s3 beginning.
Proof. split; [piece_tac|split; [vm_compute; discriminate|reflexivity]]. Qed.

Lemma tcp_receives_stream_witness : exists fl tp' st' s' n', tcp_receives false (fun _ => false) base 0 tso tp0 [(middle, 0); (ending, 0); (beginning, 0)] (conn SS_ISCONNECTED) = Ok (fl, tp', st') /\
  socks st' !! tso = Some s' /\ unread st' s' = Byte <$> slice bytes_of t0 (n' - t0).
Proof.
  destruct (tcp_receives_stream false (fun _ => false) base 0 pool_base_ok bytes_of t_end (t0 + 100) [(middle, 0); (ending, 0); (beginning, 0)] t0 tp0 (conn SS_ISCONNECTED) tso
    (tsock SS_ISCONNECTED) []) as (n' & fl & tp' & st' & s' & E & _ & Es & Eu & _).
  - apply conn_recving. vm_compute. reflexivity.
  - constructor; [exact middle_honest|constructor; [exact ending_honest|constructor; [exact beginning_honest|constructor]]].
  - exists fl, tp', st', s', n'. split; [exact E|]. split; [exact Es|exact Eu].
Defined.

(** The run itself: all 23 bytes, in order, and the FIN. *)
Example arrivals_run :
  (match tcp_receives false (fun _ => false) base 0 tso tp0 [(middle, 0); (ending, 0); (beginning, 0)] (conn SS_ISCONNECTED) with
   | Ok (fl, tp, st) => (fun s => (fl, rcv_nxt tp, seg_q tp, content (smb st) (sb_mb (so_rcv s)))) <$> (socks st !! tso)
   | _ => None end) = Some (TH_FIN, 18, [], slice bytes_of t0 23).
Proof. vm_compute. reflexivity. Qed.

Lemma tcp_fin_sound_witness : exists tp' st', tcp_fin false (fun _ => false) tso tp0 TH_FIN (conn SS_ISCONNECTED) = Ok (tp', st') /\ t_state tp' = TCPS_CLOSE_WAIT.
Proof.
  destruct (tcp_fin_sound false (fun _ => false) tso tp0 TH_FIN (conn SS_ISCONNECTED)) as (tp' & st' & E & Es & _).
  - exists (tsock SS_ISCONNECTED). reflexivity.
  - reflexivity.
  - split; discriminate.
  - exists tp', st'. split; [exact E|exact Es].
Defined.

(** ** Where the code parts from what it means to do *)

Definition look (r : res (Z * tcpcb * sockst rmap unit unit)) : option (Z * list seg * list Z) :=
  match r with Ok (fl, tp, st) => (fun s => (fl, seg_q tp, content (smb st) (sb_mb (so_rcv s)))) <$> (socks st !! tso) | _ => None end.

(** A segment with a FIN that reaches past the window is cut and its FIN taken off [tiflags]; TCP_REASS looks at
    [ti_flags], and reports the FIN after 10 of the 15 bytes. *)
Definition tight (st : sockst rmap unit unit) : sockst rmap unit unit := put_so tso (set_rcv (Sockbuf 0 10 0 4096 0 0 [] None 0) (tsock SS_ISCONNECTED)) st.
Definition tp10 : tcpcb := Tcpcb [] TCPS_ESTABLISHED [0; 0; 0; 0] 0 0 (u32 t0) (u32 (t0 + 10)) 0.
Example fin_of_a_cut_segment :
  look (tcp_receive false (fun _ => false) base 0 tso tp10 (Seg (u32 t0) 15 (TH_ACK + TH_FIN) [gc]) 0 (tight (conn SS_ISCONNECTED))) = Some (TH_FIN, [], slice bytes_of t0 10).
Proof. vm_compute. reflexivity. Qed.

(** After shutdown() of the receiving side tcp_reass() frees what comes; TCP_REASS goes on filling the buffer. *)
Example TCP_REASS_ignores_shutdown :
  look (TCP_REASS false (fun _ => false) base tso tp0 beginning (conn (SS_ISCONNECTED + SS_CANTRCVMORE))) = Some (0, [], slice bytes_of t0 15) /\
  look (tcp_reass false (fun _ => false) base tso tp0 (Some beginning) (conn (SS_ISCONNECTED + SS_CANTRCVMORE))) = Some (0, [], []).
Proof. vm_compute. split; reflexivity. Qed.

(** 18 bytes off the front empty two mbufs; the 5 bytes past the window should come off the end, but m_adj() looks for the end
    behind the first mbuf and meets the second, empty one: the length says 10, the mbufs hold 15. *)
Definition wide : seg := Seg (u32 t0) 33 TH_ACK [ga; gb; gc].
Definition tp18 : tcpcb := Tcpcb [] TCPS_ESTABLISHED [0; 0; 0; 0] 0 10 (u32 (t0 + 18)) (u32 (t0 + 28)) 0.
Example tcp_trim_leaves_data :
  match tcp_trim tp18 wide 0 TH_ACK s3 with Ok (Some (t, _, _), mb) => Some (sg_len t, Z.of_nat (length (content mb (sg_m t)))) | _ => None end = Some (10, 15).
Proof. vm_compute. reflexivity. Qed.
