(* ===== verification/Ip.v ===== *)
(** * Fragments of IP datagrams

    The reassembly of [netinet/ip_input.c]: the queues of fragments (ip_reass, ip_freef, ip_slowtimo, ip_drain) and what
    ipintr does around them.  A fragment is its header fields, in host order, and its mbufs; a queue is the mbuf
    of its struct ipq with the fields, and its fragments in order. *)

From S2P Require Import Prelude Flags Rmap Mbuf Reass.
From stdpp Require Import prelude list numbers strings gmap.
From Stdlib Require Import ZArith Lia.

Local Open Scope Z_scope.
Local Open Scope kern_scope.

Definition IP_MF : Z := 0x2000.
Definition IPFRAGTTL : Z := 15.
Definition MT_FTABLE : Z := 11.
Definition IPHDR : Z := 20.

(** Offsets are shorts, compared as ints. *)
Definition ip_seqops : SeqOps := {| gap x y := x - y; adv x n := i16 (x + n) |}.
#[local] Existing Instance ip_seqops.

(** A struct ip, with the mbufs of the packet. *)
Record ippkt := Ippkt { ip_hl : Z; ip_len : Z; ip_id : Z; ip_off : Z; ip_p : Z; ip_src : Z; ip_dst : Z; ip_m : list Z }.
(** A struct ipq, in mbuf [ipq_m]; a fragment is a [seg] of [ip_off], [ip_len] and [ipf_mff]. *)
Record ipqent := Ipq { ipq_m : Z; ipq_ttl : Z; ipq_p : Z; ipq_id : Z; ipq_src : Z; ipq_dst : Z; ipq_frags : list seg }.
Definition set_frags (l : list seg) (q : ipqent) : ipqent := Ipq (ipq_m q) (ipq_ttl q) (ipq_p q) (ipq_id q) (ipq_src q) (ipq_dst q) l.
Definition set_ttl (v : Z) (q : ipqent) : ipqent := Ipq (ipq_m q) (u8 v) (ipq_p q) (ipq_id q) (ipq_src q) (ipq_dst q) (ipq_frags q).

(** [ipq.next .. ipq.prev], and the mbufs. *)
Record ipst (M H : Type) := Ipst { ipqs : list ipqent; ipmb : mbst M H }.
Arguments Ipst {M H}.
Arguments ipqs {M H}.
Arguments ipmb {M H}.

(** "Look for queue of fragments of this datagram." *)
Definition ip_same (ip : ippkt) (q : ipqent) : bool :=
  (ip_id ip =? ipq_id q) && (ip_src ip =? ipq_src q) && (ip_dst ip =? ipq_dst q) && (ip_p ip =? ipq_p q).
Fixpoint ip_find (ip : ippkt) (l : list ipqent) : option nat :=
  match l with
  | [] => None
  | q :: l => if ip_same ip q then Some O else S <$> ip_find ip l
  end.

(** The fragments from offset [next] on without a hole: where they end. *)
Fixpoint ip_scan (l : list seg) (next : Z) : option Z :=
  match l with
  | [] => Some next
  | q :: l => if sg_seq q =? next then ip_scan l (next + sg_len q) else None
  end.

Section Ip.
Context {M H : Type} `{RM : !ResMap M}.
Context (mbutl : Z) (memall : Z -> Z -> bool).
Implicit Type st : ipst M H.

(** m_cat() of the chain and the fragments after the first. *)
Fixpoint ip_concat (m : list Z) (l : list seg) (mb : mbst M H) : res (list Z * mbst M H) :=
  match l with
  | [] => mret (m, mb)
  | q :: l => '(m, mb) ← m_cat mbutl m (sg_m q) mb; ip_concat m l mb
  end.

(** The end of ip_reass(), for queue [i]: the datagram when it is complete: length, addresses, mbufs with the header visible. *)
Definition ip_complete (i : nat) st : res (option (Z * Z * Z * list Z) * ipst M H) :=
  match ipqs st !! i with
  | None => Fault
  | Some fp =>
      match ip_scan (ipq_frags fp) 0, last (ipq_frags fp), ipq_frags fp with
      | Some next, Some q, f :: rest =>
          if negb (sg_flag q =? 0) then mret (None, st)
          else
            match sg_m f with
            | [] => Fault
            | a :: t =>
                '(m, mb) ← m_cat mbutl [a] t (ipmb st);
                '(m, mb) ← ip_concat m rest mb;
                mb ← MFREE mbutl (ipq_m fp) mb;
                x ← get_mb a mb;
                let mb := put_mb a (set_off (set_len x (m_len x + IPHDR)) (m_off x - IPHDR)) mb in
                mret (Some (i16 next, ipq_src fp, ipq_dst fp, m), Ipst (delete i (ipqs st)) mb)
            end
      | _, _, _ => mret (None, st)
      end
  end.

(** ip_reass() of a fragment with [ipf_mff] [mff], for the queue [fp] if there is one. *)
Definition ip_reass (ip : ippkt) (mff : Z) (fp : option nat) st : res (option (Z * Z * Z * list Z) * ipst M H) :=
  match ip_m ip with
  | [] => Fault
  | a :: _ =>
      let hlen := Z.shiftl (ip_hl ip) 2 in
      x ← get_mb a (ipmb st);
      let mb := put_mb a (set_len (set_off x (m_off x + hlen)) (m_len x - hlen)) (ipmb st) in
      let f := Seg (ip_off ip) (ip_len ip) mff (ip_m ip) in
      match fp with
      | None =>
          '(t, mb) ← m_get mbutl memall MT_FTABLE mb;
          match t with
          | None => mb ← m_freem mbutl (ip_m ip) mb; mret (None, Ipst (ipqs st) mb)
          | Some t => ip_complete 0 (Ipst (Ipq t IPFRAGTTL (ip_p ip) (ip_id ip) (ip_src ip) (ip_dst ip) [f] :: ipqs st) mb)
          end
      | Some i =>
          match ipqs st !! i with
          | None => Fault
          | Some q =>
              '(ins, l, mb) ← reass_insert mbutl f (ipq_frags q) mb;
              if (ins : bool) then ip_complete i (Ipst (<[i := set_frags l q]> (ipqs st)) mb) else mret (None, Ipst (ipqs st) mb)
          end
      end
  end.

Fixpoint free_frags (l : list seg) (mb : mbst M H) : res (mbst M H) :=
  match l with
  | [] => mret mb
  | q :: l => mb ← m_freem mbutl (sg_m q) mb; free_frags l mb
  end.
(** ip_freef() of a queue that leaves the list. *)
Definition ip_freef (q : ipqent) (mb : mbst M H) : res (mbst M H) :=
  mb ← free_frags (ipq_frags q) mb; MFREE mbutl (ipq_m q) mb.

(** ipintr from [found] on: what goes to the protocol, length and mbufs. *)
Definition ip_deliver (ip : ippkt) st : res (option (Z * list Z) * ipst M H) :=
  let fp := ip_find ip (ipqs st) in
  let len := i16 (ip_len ip - Z.shiftl (ip_hl ip) 2) in
  let mff := if has (ip_off ip) IP_MF then 1 else 0 in
  let off := i16 (Z.shiftl (ip_off ip) 3) in
  let ip := Ippkt (ip_hl ip) len (ip_id ip) off (ip_p ip) (ip_src ip) (ip_dst ip) (ip_m ip) in
  if negb (mff =? 0) || negb (off =? 0) then
    '(r, st) ← ip_reass ip mff fp st;
    mret (match r with Some (len, _, _, m) => Some (len, m) | None => None end, st)
  else
    match fp with
    | None => mret (Some (len, ip_m ip), st)
    | Some i =>
        match ipqs st !! i with
        | None => Fault
        | Some q => mb ← ip_freef q (ipmb st); mret (Some (len, ip_m ip), Ipst (delete i (ipqs st)) mb)
        end
    end.

(** The queues that are left after a tick. *)
Fixpoint slow_loop (l : list ipqent) (mb : mbst M H) : res (list ipqent * mbst M H) :=
  match l with
  | [] => mret ([], mb)
  | q :: l =>
      let q := set_ttl (ipq_ttl q - 1) q in
      if ipq_ttl q =? 0 then mb ← ip_freef q mb; slow_loop l mb
      else '(l, mb) ← slow_loop l mb; mret (q :: l, mb)
  end.
Definition ip_slowtimo st : res (ipst M H) := '(l, mb) ← slow_loop (ipqs st) (ipmb st); mret (Ipst l mb).

Fixpoint drain_loop (l : list ipqent) (mb : mbst M H) : res (mbst M H) :=
  match l with
  | [] => mret mb
  | q :: l => mb ← ip_freef q mb; drain_loop l mb
  end.
Definition ip_drain st : res (ipst M H) := mb ← drain_loop (ipqs st) (ipmb st); mret (Ipst [] mb).
End Ip.
