(* ===== verification/IpThms.v ===== *)
(** * Reassembly of a datagram

    The fragments of one datagram, in any order and overlapping, give the datagram, when and only when none is
    missing; queues that stay incomplete are freed by the timer. *)

From S2P Require Import Prelude Rmap Mbuf MbufThms MbufOps MbufTrim MbufWitness Flags Reass TcpWitness Ip.
From stdpp Require Import prelude list numbers strings gmap sorting.
From Stdlib Require Import ZArith Lia Sorted.

Local Open Scope Z_scope.
Local Open Scope kern_scope.

#[local] Existing Instance ip_seqops.

(** Offsets up to what a short holds. *)
Program Definition ip_space : SeqSpace ip_seqops := {| sq_at o := o; sq_pl s := s; sq_lo := 0; sq_hi := 2 ^ 15 - 1 |}.
Next Obligation. done. Qed.
Next Obligation. done. Qed.
Next Obligation. intros a n Ha Hn Hs. cbn in *. apply wraps_small; lia. Qed.
#[local] Existing Instance ip_space.

Lemma delete_insert_list {A} (l : list A) i x : delete i (<[i := x]> l) = delete i l.
Proof. revert i. induction l as [|y l IH]; intros [|i]; cbn; [done..|]. f_equal. apply IH. Qed.

Section Thms.
Context {M H : Type} `{RM : !ResMap M}.
Context (mbutl : Z).
Context (Hbase : 0 < mbutl /\ mbutl mod NBPG = 0 /\ mbutl + NMBCLUSTERS * NBPG <= 2 ^ 32).
Implicit Type mb : mbst M H.
Implicit Type st : ipst M H.

(** ** Headers of first mbufs *)

Lemma put_chain mb c a x y : mb_wf mbutl mb -> chain mbutl mb c -> in_use mb a x -> inline y -> m_type y = m_type x -> sized mbutl a y ->
  let mb' := put_mb a y mb in mb_wf mbutl mb' /\ chain mbutl mb' c /\ kept mbutl (only a) mb mb' /\ in_use mb' a y.
Proof.
  intros Hw [Hnd Hc] Hu Hi Ht Hs mb'. destruct (put_inline mbutl Hbase mb a x y Hw Hu Hi Ht) as (W & K & U & _). split_and!; try done.
  split; [done|]. intros c0 Hc0. destruct (decide (c0 = a)) as [->|Hne]; [by exists y|]. destruct (Hc c0 Hc0) as (z & Hz & Hsz). exists z. split; [|done]. by apply (K c0 z Hz).
Qed.

(** The header goes: [m_off += n; m_len -= n]. *)
Definition strip (x : mbuf) (n : Z) : mbuf := set_len (set_off x (m_off x + n)) (m_len x - n).
Definition unstrip (x : mbuf) (n : Z) : mbuf := set_off (set_len x (m_len x + n)) (m_off x - n).

Lemma inline_sized a x : inline x -> sized mbutl a x -> 0 <= m_len x /\ m_off x + m_len x <= MMAXOFF /\ MMINOFF <= m_off x.
Proof.
  intros Hi [Hl Hs]. split; [lia|]. split; [|apply Hi]. destruct Hs as [[_ ?]|[[[[Hc _] _] _]|[[[Hc _] _] _]]]; [done|..]; unfold inline, MMAXOFF, MSIZE, MTAIL in *; lia.
Qed.

Lemma strip_spec a x n : inline x -> sized mbutl a x -> 0 <= n <= m_len x ->
  m_off (strip x n) = m_off x + n /\ m_len (strip x n) = m_len x - n /\ inline (strip x n) /\ sized mbutl a (strip x n).
Proof.
  intros Hi Hs Hn. destruct (inline_sized a x Hi Hs) as (L1 & L2 & L3). unfold MMAXOFF, MMINOFF, MSIZE, MTAIL in *.
  assert (m_off (strip x n) = m_off x + n) as E1 by (cbn [strip set_len set_off m_off]; apply wrapu_small; lia).
  assert (m_len (strip x n) = m_len x - n) as E2 by (cbn [strip set_len set_off m_len]; apply wraps_small; lia).
  split_and!; [done..| |]; unfold sized, inline, MMAXOFF, MMINOFF, MSIZE, MTAIL; rewrite E1, ?E2; [lia|]. split; [lia|]. left. lia.
Qed.
Lemma unstrip_spec a x n : inline x -> sized mbutl a x -> 0 <= n -> MMINOFF + n <= m_off x ->
  m_off (unstrip x n) = m_off x - n /\ m_len (unstrip x n) = m_len x + n /\ inline (unstrip x n) /\ sized mbutl a (unstrip x n).
Proof.
  intros Hi Hs Hn Hr. destruct (inline_sized a x Hi Hs) as (L1 & L2 & L3). unfold MMAXOFF, MMINOFF, MSIZE, MTAIL in *.
  assert (m_off (unstrip x n) = m_off x - n) as E1 by (cbn [unstrip set_len set_off m_off]; apply wrapu_small; lia).
  assert (m_len (unstrip x n) = m_len x + n) as E2 by (cbn [unstrip set_len set_off m_len]; apply wraps_small; lia).
  split_and!; [done..| |]; unfold sized, inline, MMAXOFF, MMINOFF, MSIZE, MTAIL; rewrite E1, ?E2; [lia|]. split; [lia|]. left. lia.
Qed.

Lemma put_content mb a m y : chain mbutl mb (a :: m) -> kept mbutl (only a) mb (put_mb a y mb) -> in_use (put_mb a y mb) a y ->
  content (put_mb a y mb) (a :: m) = data mb a y ++ content mb m.
Proof.
  intros (Hna & _ & Hm)%chain_cons Hk Hu. rewrite content_cons, (bytes_data _ _ _ Hu).
  destruct (kept_chain mbutl _ _ _ m Hk Hm) as [_ ->]; [by intros b Hb ->|done].
Qed.

Lemma strip_content mb a m x n : mb_wf mbutl mb -> mb_wf mbutl (put_mb a (strip x n) mb) -> chain mbutl mb (a :: m) -> in_use mb a x -> inline x -> sized mbutl a x -> 0 <= n <= m_len x ->
  kept mbutl (only a) mb (put_mb a (strip x n) mb) -> in_use (put_mb a (strip x n) mb) a (strip x n) ->
  content (put_mb a (strip x n) mb) (a :: m) = drop (Z.to_nat n) (content mb (a :: m)).
Proof.
  intros Hw Hw' Hc Hu Hi Hs Hn Hk Hu'. rewrite (put_content mb a m _ Hc Hk Hu'), content_cons, (bytes_data _ _ _ Hu). destruct (strip_spec a x n Hi Hs Hn) as (E1 & E2 & Hi' & _).
  pose proof (inline_mtod mbutl Hbase _ a x Hw (proj1 Hu) Hi) as M1. pose proof (inline_mtod mbutl Hbase _ a _ Hw' (proj1 Hu') Hi') as M2.
  destruct (inline_sized a x Hi Hs) as (L1 & _). rewrite drop_app_le by (unfold data; pose proof (load_length (core mb) (mtod a x) (m_len x) L1); lia).
  f_equal. unfold data. rewrite load_drop, E2 by lia. f_equal. lia.
Qed.
Lemma unstrip_content mb a m x n : mb_wf mbutl mb -> mb_wf mbutl (put_mb a (unstrip x n) mb) -> chain mbutl mb (a :: m) -> in_use mb a x -> inline x -> sized mbutl a x -> 0 <= n -> MMINOFF + n <= m_off x ->
  kept mbutl (only a) mb (put_mb a (unstrip x n) mb) -> in_use (put_mb a (unstrip x n) mb) a (unstrip x n) ->
  exists h, Z.of_nat (length h) = n /\ content (put_mb a (unstrip x n) mb) (a :: m) = h ++ content mb (a :: m).
Proof.
  intros Hw Hw' Hc Hu Hi Hs Hn Hr Hk Hu'. rewrite (put_content mb a m _ Hc Hk Hu'), content_cons, (bytes_data _ _ _ Hu). destruct (unstrip_spec a x n Hi Hs Hn Hr) as (E1 & E2 & Hi' & _).
  pose proof (inline_mtod mbutl Hbase _ a x Hw (proj1 Hu) Hi) as M1. pose proof (inline_mtod mbutl Hbase _ a _ Hw' (proj1 Hu') Hi') as M2.
  destruct (inline_sized a x Hi Hs) as (L1 & _). exists (load (core mb) (mtod a x - n) n). split; [by apply load_length|]. rewrite app_assoc. f_equal.
  unfold data. rewrite E2. replace (m_len x + n) with (n + m_len x) by lia. rewrite load_app by lia. f_equal; f_equal; lia.
Qed.

(** ** m_cat keeps offsets *)

Lemma cat_loop_off m n : forall mb r mb', chain mbutl mb (m :: n) -> mb_wf mbutl mb -> cat_loop mbutl m n mb = Ok (r, mb') ->
  forall a x', in_use mb' a x' -> exists x, in_use mb a x /\ m_off x = m_off x'.
Proof.
  induction n as [|b n IH]; intros mb r mb' Hc Hw Hr a x' Hu; cbn [cat_loop] in Hr; [injection Hr as _ <-; by exists x'|].
  pose proof Hc as (Hmn & (x & Hx & Hs) & Hcn)%chain_cons. pose proof Hcn as (Hbn & (y & Hy & Hsy) & Hcn')%chain_cons.
  rewrite (get_mb_Ok _ _ _ (proj1 Hx)), (get_mb_Ok _ _ _ (proj1 Hy)) in Hr. cbn [mbind res_bind] in Hr.
  destruct ((MMAXOFF <=? m_off x) || (MMAXOFF <? m_off x + m_len x + m_len y)) eqn:E; [injection Hr as _ <-; by exists x'|].
  apply orb_false_iff in E as [E1%Z.leb_gt E2%Z.ltb_ge].
  assert (inline x) as Hi.
  { destruct (b_use _ _ Hw m x Hx) as [?|[[[[Hc' _] _] _]|[[Hc' _] _]]]; [done|..]; unfold MMAXOFF, MSIZE, MTAIL in *; lia. }
  rewrite bcopy_Ok in Hr by (destruct Hsy; lia). cbn [mbind res_bind] in Hr.
  destruct (absorb_spec mbutl Hbase mb m x (mtod b y) (m_len y) Hw Hx Hi Hs ltac:(destruct Hsy; lia) E2) as (W1 & W2 & W3 & W4 & W5 & W6 & W7 & _).
  change (put_mb m (set_len x (m_len x + m_len y)) _) with (absorbed m (mtod b y) (m_len y) x mb) in Hr.
  set (st1 := absorbed m (mtod b y) (m_len y) x mb) in *.
  assert (chain mbutl st1 (m :: b :: n)) as Hc1.
  { apply chain_cons. split_and!; [done|eauto|]. apply (kept_chain mbutl _ _ _ (b :: n) W2 Hcn). intros c Hc' E. unfold only in E. by subst c. }
  destruct (free_next mbutl Hbase st1 m b n W1 Hc1) as (st2 & E3 & V1 & _ & V3 & _ & V5). rewrite E3 in Hr. cbn [mbind res_bind] in Hr.
  destruct (IH st2 r mb' V3 V1 Hr a x' Hu) as (z & Hz & <-). apply V5 in Hz as [_ Hz]. destruct (decide (a = m)) as [->|Hne].
  - exists x. split; [done|]. by rewrite (in_use_eq _ _ _ _ Hz W3).
  - exists z. split; [|done]. by apply W6 in Hz.
Qed.

(** The chain [m] takes the pieces [l], its first mbuf staying the first, at the same offset. *)
Lemma concat_spec a l : forall m mb, mb_wf mbutl mb -> chain mbutl mb ((a :: m) ++ concat (map sg_m l)) ->
  exists m' mb', ip_concat mbutl (a :: m) l mb = Ok (a :: m', mb') /\ mb_wf mbutl mb' /\ kept mbutl (fun c => c ∈ (a :: m) ++ concat (map sg_m l)) mb mb' /\
    chain mbutl mb' (a :: m') /\ content mb' (a :: m') = content mb (a :: m) ++ concat ((fun q => content mb (sg_m q)) <$> l) /\
    (a :: m') ⊆ (a :: m) ++ concat (map sg_m l) /\ (forall x', in_use mb' a x' -> exists x, in_use mb a x /\ m_off x = m_off x').
Proof.
  induction l as [|q l IH]; intros m mb Hw Hc; cbn [ip_concat map concat] in *.
  { rewrite app_nil_r in *. exists m, mb. split_and!; try done; [by rewrite app_nil_r|by intros x' Hx'; exists x']. }
  rewrite app_assoc in Hc.
  assert (chain mbutl mb ((a :: m) ++ sg_m q) /\ chain mbutl mb (concat (map sg_m l)) /\ forall c, c ∈ concat (map sg_m l) -> c ∉ (a :: m) ++ sg_m q) as (Hc1 & Hc2 & Hd).
  { destruct Hc as [(N1 & N2 & N3)%NoDup_app Hu]. split_and!; [split; [done|]|split; [done|]|]; intros c Hin; [apply Hu, elem_of_app; by left|apply Hu, elem_of_app; by right|].
    intros Hin2. by apply (N2 c). }
  destruct (m_cat_sound mbutl Hbase (a :: m) (sg_m q) mb Hw Hc1 ltac:(done)) as (r & mb1 & E1 & W1 & K1 & C1 & Ec1 & gone & Eg). rewrite E1. kstep.
  destruct (kept_chain mbutl _ _ _ _ K1 Hc2 Hd) as [C2 _].
  assert (forall c, c ∈ (a :: m) ++ r -> c ∈ (a :: m) ++ sg_m q) as Hsub by (intros c; rewrite Eg, !elem_of_app; tauto).
  destruct (IH (m ++ r) mb1 W1) as (m' & mb' & E2 & W2 & K2 & C3 & Ec3 & Hs3 & Ho3).
  { apply chain_app; [done..|]. intros c Hin1 Hin2. apply (Hd c Hin2). by apply Hsub. }
  exists m', mb'. split_and!; try done.
  - eapply mbkept_trans; eapply kept_mono; [|exact K1| |exact K2]; intros c; specialize (Hsub c); cbn [app] in *; rewrite !elem_of_cons, !elem_of_app in *; tauto.
  - rewrite Ec3. cbn [app] in Ec1. cbn [app]. rewrite Ec1, app_comm_cons, content_app, <- app_assoc. f_equal. cbn. f_equal.
    f_equal. apply list_fmap_ext. intros i s Hs%list_elem_of_lookup_2.
    assert (chain mbutl mb (sg_m s) /\ forall c, c ∈ sg_m s -> c ∈ concat (map sg_m l)) as [Hcs Hsubs].
    { apply (chain_in mbutl mb [] (map sg_m l) (sg_m s)); [done|]. right. apply list_elem_of_fmap. eauto. }
    apply (kept_chain mbutl _ _ _ (sg_m s) K1 Hcs). intros c Hin. apply Hd. by apply Hsubs.
  - intros c Hin. specialize (Hs3 c Hin). specialize (Hsub c). cbn [app] in *. rewrite !elem_of_cons, !elem_of_app in *. tauto.
  - intros x' Hx'. destruct (Ho3 x' Hx') as (x1 & Hx1 & <-). unfold m_cat in E1. destruct (exists_last' (a :: m)) as [?|(m0 & z & Em)]; [done|].
    rewrite Em, last_snoc in E1. destruct (cat_loop mbutl z (sg_m q) mb) as [[r1 mb2]| |] eqn:E4; [|done..]. cbn [mbind res_bind mret res_ret] in E1. injection E1 as _ ->.
    apply (cat_loop_off z (sg_m q) mb r1 mb1); [|done..]. rewrite Em, <- app_assoc in Hc1. destruct Hc1 as [(_ & _ & N3)%NoDup_app Hu].
    split; [done|]. intros c Hin. apply Hu, elem_of_app. by right.
Qed.

(** ** One datagram *)

(** The data of the datagram, and its length. *)
Context (D : Z -> Z) (E : Z) (HE : 0 < E < 2 ^ 15).

(** The last fragment, and no other, says that there are no more. *)
Definition last_ends (e f : Z) : Prop := f = 0 <-> e = E.
Local Notation piece := (piece D last_ends E).
Local Notation slice := (slice D).

Lemma scan_spec mb l : forall n, Forall (piece mb) l -> apart l -> Forall (fun q => n <= place q) l -> 0 <= n ->
  match ip_scan l n with
  | Some e => n <= e /\ (forall o, n <= o -> holds l o <-> o < e) /\ match last l with Some q => e = stop q | None => e = n end /\
      concat ((fun q => content mb (sg_m q)) <$> l) = slice n (e - n)
  | None => exists o, n <= o < E /\ ~ holds l o
  end.
Proof.
  induction l as [|q l IH]; intros n Hp Ha Hn H0; cbn [ip_scan].
  { split_and!; [lia| |done|by rewrite Z.sub_diag]. intros o Ho. split; [intros Hx; by apply Exists_nil in Hx|lia]. }
  apply Forall_cons in Hp as [Hq Hp]. apply StronglySorted_inv in Ha as [Ha Hs]. apply Forall_cons in Hn as [Hnq Hn]. pose proof (pc_len _ _ _ _ _ Hq) as Hlen.
  pose proof (pc_in _ _ _ _ _ Hq) as (_ & _ & Hin). pose proof (pc_none _ _ _ _ _ Hq) as Hnone. change (sg_seq q) with (place q).
  destruct (Z.eqb_spec (place q) n) as [Epn|Hne].
  - assert (stop q = n + sg_len q) as Est by (unfold stop; lia).
    specialize (IH (n + sg_len q) Hp Ha). destruct (ip_scan l (n + sg_len q)) as [e|].
    + destruct IH as (I1 & I2 & I3 & I4); [eapply Forall_impl; [exact Hs|]; cbn beta; intros t; by rewrite Est|lia|].
      split_and!; [lia| | |].
      * intros o Ho. rewrite holds_cons. unfold has_place. rewrite Epn, Est. destruct (decide (o < n + sg_len q)); [split; [lia|left; lia]|].
        rewrite I2 by lia. split; [intros [?|?]; [lia|done]|by right].
      * destruct l as [|t l]; [cbn in I3 |- *; lia|]. change (last (q :: t :: l)) with (last (t :: l)). destruct (last (t :: l)) eqn:El; [exact I3|by apply last_None in El].
      * cbn. rewrite I4, (pc_data _ _ _ _ _ Hq), Epn. unfold Reass.slice. rewrite <- fmap_app, <- seqZ_app by lia. do 2 f_equal. lia.
    + destruct IH as (o & Ho & Hno); [eapply Forall_impl; [exact Hs|]; cbn beta; intros t; by rewrite Est|lia|].
      exists o. split; [lia|]. rewrite holds_cons. unfold has_place. rewrite Epn, Est. intros [?|?]; [lia|done].
  - exists n. split; [unfold stop in Hin; lia|]. rewrite holds_cons. intros [Hx|Hx]; [unfold has_place in Hx; lia|].
    apply Exists_exists in Hx as (t & Ht & Hx). rewrite Forall_forall in Hs. specialize (Hs t Ht). unfold has_place in Hx. unfold stop in Hs. lia.
Qed.

Lemma complete_spec i st q b : ipqs st !! i = Some q -> owned mbutl (ipmb st) (ipq_m q :: b) (map sg_m (ipq_frags q)) ->
  Forall (piece (ipmb st)) (ipq_frags q) -> apart (ipq_frags q) -> ipq_frags q <> [] ->
  exists r st', ip_complete mbutl i st = Ok (r, st') /\
    match r with
    | None => st' = st /\ exists o, 0 <= o < E /\ ~ holds (ipq_frags q) o
    | Some (len, src, dst, m) => (forall o, 0 <= o < E -> holds (ipq_frags q) o) /\ len = E /\ src = ipq_src q /\ dst = ipq_dst q /\ ipqs st' = delete i (ipqs st) /\
        mb_wf mbutl (ipmb st') /\ chain mbutl (ipmb st') m /\ (exists h, Z.of_nat (length h) = IPHDR /\ content (ipmb st') m = h ++ slice 0 E) /\
        kept mbutl (fun c => c = ipq_m q \/ c ∈ concat (map sg_m (ipq_frags q))) (ipmb st) (ipmb st')
    end.
Proof.
  intros Hi (Hw & Hc & Hp & Hh) Hpc Ha Hne. unfold ip_complete. rewrite Hi.
  pose proof (scan_spec (ipmb st) (ipq_frags q) 0 Hpc Ha) as Hscan.
  assert (Forall (fun t => 0 <= place t) (ipq_frags q)) as Hpos by (eapply Forall_impl; [exact Hpc|]; intros t Ht; apply (pc_in _ _ _ _ _ Ht)).
  specialize (Hscan Hpos ltac:(lia)). destruct (ip_scan (ipq_frags q) 0) as [e|].
  2: { exists None, st. split; [done|]. split; [done|]. destruct Hscan as (o & Ho & Hno). by exists o. }
  destruct Hscan as (He & Hcov & Hlast & Hcont). destruct (last (ipq_frags q)) as [t|] eqn:El; [|by apply last_None in El].
  destruct (ipq_frags q) as [|f rest] eqn:Eq; [done|]. subst e.
  assert (piece (ipmb st) t) as Ht.
  { rewrite Forall_forall in Hpc. apply Hpc. apply last_Some in El as [l' ->]. apply elem_of_app. right. by left. }
  pose proof (pc_ends _ _ _ _ _ Ht) as Hend. pose proof (pc_in _ _ _ _ _ Ht) as (_ & _ & Hin). unfold last_ends in Hend.
  destruct (Z.eqb_spec (sg_flag t) 0) as [Ef|Ef]; cbn [negb].
  2: { exists None, st. split; [done|]. split; [done|]. exists (stop t). rewrite Hcov by lia. split; [|lia]. assert (stop t <> E) by tauto. lia. }
  assert (stop t = E) as EE by tauto. rewrite EE in *. cbn [map concat] in *. apply Forall_cons in Hh as [(a & m & Em & Hhead) _]. rewrite Em in *.
  assert (chain mbutl (ipmb st) (a :: m ++ concat (map sg_m rest)) /\ ipq_m q ∉ a :: m ++ concat (map sg_m rest) /\ is_Some (mbs (ipmb st) !! ipq_m q)) as (Hc1 & Hqm & _).
  { destruct Hc as [[Hn1 Hnd]%NoDup_cons Hu]. split_and!.
    - split; [by apply NoDup_app in Hnd as (_ & _ & Hnd)|]. intros c Hin'. apply Hu. right. apply elem_of_app. by right.
    - intros Hin'. apply Hn1, elem_of_app. by right.
    - destruct (Hu (ipq_m q)) as (y & [Hy _] & _); [by left|by eexists]. }
  destruct (proj2 Hc (ipq_m q)) as (xq & Huq & _); [by left|].
  assert (chain mbutl (ipmb st) ([a] ++ m) /\ (forall c, c ∈ concat (map sg_m rest) -> c ∉ [a] ++ m) /\ chain mbutl (ipmb st) (concat (map sg_m rest))) as (Hca & Hda & Hcr).
  { change (a :: m ++ concat (map sg_m rest)) with ((a :: m) ++ concat (map sg_m rest)) in Hc1. destruct Hc1 as [(N1 & N2 & N3)%NoDup_app Hu].
    split_and!; [split; [done|]|intros c Hin1 Hin2; by apply (N2 c)|split; [done|]]; intros c Hin'; apply Hu; rewrite elem_of_app; [by left|by right]. }
  destruct (m_cat_sound mbutl Hbase [a] m (ipmb st) Hw Hca ltac:(done)) as (r1 & mb1 & E1 & W1 & K1 & C1 & Ec1 & gone & Eg). pose proof E1 as E1'.
  rewrite E1. kstep. destruct (kept_chain mbutl _ _ _ _ K1 Hcr Hda) as [Hcr1 _].
  destruct (concat_spec a rest r1 mb1 W1) as (m2 & mb2 & E2 & W2 & K2 & C2 & Ec2 & Hs2 & Ho2).
  { apply chain_app; [done..|]. intros c Hin1 Hin2. apply (Hda c Hin2). rewrite Eg. cbn [app] in *. rewrite !elem_of_cons, ?elem_of_app in *. tauto. }
  change ([a] ++ r1) with (a :: r1). rewrite E2. kstep.
  assert (forall c, c ∈ a :: m2 -> c ∈ a :: m ++ concat (map sg_m rest)) as Hsub2.
  { intros c Hin'. specialize (Hs2 c Hin'). rewrite Eg. cbn [app] in *. rewrite !elem_of_cons, !elem_of_app in *. tauto. }
  assert (in_use mb2 (ipq_m q) xq) as Huq2.
  { assert (ipq_m q ∉ [a] ++ m /\ ipq_m q ∉ (a :: r1) ++ concat (map sg_m rest)) as [Q1 Q2].
    { rewrite Eg in Hqm |- *. cbn [app] in *. rewrite !elem_of_cons, !elem_of_app in *. tauto. }
    apply (K2 _ _ (proj1 (K1 _ _ Huq Q1)) Q2). }
  destruct (MFREE_spec mbutl Hbase mb2 (ipq_m q) xq W2 Huq2) as (mb3 & E3 & Hf). rewrite E3. kstep.
  pose proof (freed_kept mbutl _ _ _ _ Hf) as K3. pose proof (fr_wf _ _ _ _ _ Hf) as W3.
  destruct (kept_chain mbutl _ _ _ _ K3 C2) as [C3 Ec3]; [intros c Hin' ->; by apply Hqm, Hsub2|].
  destruct (proj2 C3 a) as (x & Hu3 & Hs3); [by left|].
  assert (inline x /\ MMINOFF + 20 <= m_off x) as [Hix Hrx].
  { apply (freed_use _ _ _ _ _ Hf) in Hu3 as [_ Hu2]. destruct (Ho2 x Hu2) as (x1 & Hu1 & Eo2). unfold m_cat in E1'. cbn [last] in E1'.
    destruct (cat_loop mbutl a m (ipmb st)) as [[r2 mb5]| |] eqn:E5; [|done..]. cbn [mbind res_bind mret res_ret] in E1'. injection E1' as _ ->.
    destruct (cat_loop_off a m (ipmb st) r2 mb1 Hca Hw E5 a x1 Hu1) as (x0 & Hu0 & Eo). destruct (Hhead x0 Hu0) as [Hx1 Hx2]. unfold inline in *. lia. }
  destruct (unstrip_spec a x IPHDR Hix Hs3 ltac:(done) Hrx) as (_ & _ & Hi4 & Hs4).
  destruct (put_chain mb3 (a :: m2) a x (unstrip x IPHDR) W3 C3 Hu3 Hi4 eq_refl Hs4) as (W4 & C4 & K4 & Hu4).
  destruct (unstrip_content mb3 a m2 x IPHDR W3 W4 C3 Hu3 Hix Hs3 ltac:(done) Hrx K4 Hu4) as (h & Eh & Ec4).
  rewrite (get_mb_Ok _ _ _ (proj1 Hu3)). kstep. change (set_off (set_len x (m_len x + IPHDR)) (m_off x - IPHDR)) with (unstrip x IPHDR).
  eexists (Some _), _. split; [done|]. split_and!; try done.
  - intros o Ho. apply Hcov; lia.
  - apply wraps_small; lia.
  - exists h. split; [done|]. cbn [ipmb]. rewrite Ec4, Ec3, Ec2. f_equal. cbn [app] in Ec1. rewrite Ec1. cbn in Hcont. rewrite Em, Z.sub_0_r in Hcont. rewrite <- Hcont. f_equal. f_equal.
    apply list_fmap_ext. intros k s Hs%list_elem_of_lookup_2. destruct (chain_in mbutl (ipmb st) [] (map sg_m rest) (sg_m s) Hcr) as [Hcs Hsubs].
    { right. apply list_elem_of_fmap. eauto. }
    apply (kept_chain mbutl _ _ _ (sg_m s) K1 Hcs). intros c Hin'. apply Hda. by apply Hsubs.
  - eapply mbkept_trans; [|eapply mbkept_trans; [|eapply mbkept_trans]]; eapply kept_mono; [|exact K1| |exact K2| |exact K3| |exact K4]; intros c; unfold only; rewrite ?Eg; cbn [app]; rewrite ?elem_of_cons, ?elem_of_app; tauto.
Qed.

(** A fragment of the datagram as ipintr gives it to ip_reass: the header in its first, small mbuf, then the data. *)
Definition hlen (ip : ippkt) : Z := Z.shiftl (ip_hl ip) 2.
Definition frag (ip : ippkt) (mff : Z) : seg := Seg (ip_off ip) (ip_len ip) mff (ip_m ip).
Record packet_ok mb (ip : ippkt) (mff : Z) : Prop := {
  pk_head : exists a m x, ip_m ip = a :: m /\ in_use mb a x /\ inline x /\ IPHDR <= hlen ip <= m_len x;
  pk_in : 0 <= ip_off ip /\ ip_off ip + ip_len ip <= E;
  pk_len : 0 <= ip_len ip /\ (ip_len ip = 0 -> ip_off ip = E);
  pk_data : drop (Z.to_nat (hlen ip)) (content mb (ip_m ip)) = slice (ip_off ip) (ip_len ip);
  pk_last : mff = 0 <-> ip_off ip + ip_len ip = E
}.
(** The mbufs: of the packet, of the queue [q], and others [b]. *)
Definition mbufs_ok mb (ip : ippkt) (q : ipqent) (b : list Z) : Prop :=
  mb_wf mbutl mb /\ chain mbutl mb ((ipq_m q :: b) ++ concat (ip_m ip :: map sg_m (ipq_frags q))) /\
  plain mb (concat (ip_m ip :: map sg_m (ipq_frags q))) /\ Forall (headed mb) (map sg_m (ipq_frags q)).
(** A queue of fragments, with something missing. *)
Record queue_ok mb (q : ipqent) : Prop := {
  qk_pieces : Forall (piece mb) (ipq_frags q);
  qk_apart : apart (ipq_frags q);
  qk_hole : exists o, 0 <= o < E /\ ~ holds (ipq_frags q) o
}.

Lemma strip_owned mb ip mff q b : packet_ok mb ip mff -> mbufs_ok mb ip q b ->
  exists a m x mb', ip_m ip = a :: m /\ get_mb a mb = Ok x /\ mb' = put_mb a (strip x (hlen ip)) mb /\ owned mbutl mb' (ipq_m q :: b) (ip_m ip :: map sg_m (ipq_frags q)) /\
    piece mb' (frag ip mff) /\ same_content mb mb' (map sg_m (ipq_frags q)) /\ kept mbutl (only a) mb mb'.
Proof.
  intros [(a & m & x & Em & Hu & Hi & Hh) Hin [Hlen Hnone] Hdata Hlast] (Hw & Hc & Hp & Hhd). exists a, m, x. unfold IPHDR in Hh.
  destruct (chain_in mbutl mb (ipq_m q :: b) (ip_m ip :: map sg_m (ipq_frags q)) (ip_m ip) Hc) as [Hcm Hsub]; [right; by left|].
  rewrite Em in Hcm, Hsub. destruct (proj2 Hcm a) as (x' & Hu' & Hs); [by left|]. rewrite (in_use_eq _ _ _ _ Hu' Hu) in Hs.
  destruct (strip_spec a x (hlen ip) Hi Hs ltac:(lia)) as (E1 & E2 & Hi2 & Hs2).
  destruct (put_chain mb _ a x (strip x (hlen ip)) Hw Hc Hu Hi2 eq_refl Hs2) as (W & C & K & U).
  assert (a ∉ concat (map sg_m (ipq_frags q))) as Hout.
  { destruct Hc as [(_ & _ & Hnd)%NoDup_app _]. cbn in Hnd. rewrite Em in Hnd. cbn in Hnd. apply NoDup_cons in Hnd as [Hnd _]. intros Hx. apply Hnd, elem_of_app. by right. }
  assert (chain mbutl mb (concat (map sg_m (ipq_frags q)))) as Hcq.
  { destruct Hc as [(_ & _ & Hnd)%NoDup_app Hcu]. cbn in Hnd. apply NoDup_app in Hnd as (_ & _ & Hnd). split; [done|]. intros c Hc'. apply Hcu. rewrite elem_of_app. right. apply elem_of_app. by right. }
  destruct (kept_owned mbutl (only a) mb (put_mb a (strip x (hlen ip)) mb) [] (map sg_m (ipq_frags q)) K W Hcq) as [(_ & _ & Hp' & Hhd') Hsc]; [intros c y Hc'; apply Hp, elem_of_app; by right|done| |].
  { intros c Hc' ->. done. }
  exists (put_mb a (strip x (hlen ip)) mb). split_and!; try done.
  - apply get_mb_Ok, Hu.
  - split; [exact W|split; [exact C|split]].
   { intros c y Hc' Hy. destruct (decide (c = a)) as [->|Hne].
    { rewrite (in_use_eq _ _ _ _ Hy U). split; [by left|]. apply (Hp a x); [cbn; rewrite Em; by left|done]. }
    cbn [concat] in Hc'. apply elem_of_app in Hc' as [Hc'|Hc']; [|by apply (Hp' c)].
      destruct (proj2 Hcm c) as (z & Hz & _); [by rewrite <- Em|]. pose proof (proj1 (K c z Hz Hne)) as Hz'. rewrite (in_use_eq _ _ _ _ Hy Hz'). apply (Hp c z); [apply elem_of_app; by left|done]. }
    constructor; [|done]. exists a, m. split; [done|]. intros y Hy. rewrite (in_use_eq _ _ _ _ Hy U). split; [done|]. rewrite E1. unfold inline in Hi. lia.
  - split; unfold stop; cbn [sg_seq sg_len sg_flag sg_m frag place sq_pl sq_lo sq_hi ip_space]; try done; try lia.
    rewrite Em. rewrite (strip_content mb a m x (hlen ip) Hw W Hcm Hu Hi Hs ltac:(lia) K U). by rewrite <- Em.
  - intros c Hc'. apply Hsc. by right.
Qed.

(** C5: ip_reass puts a datagram together: with a fragment more, whatever the order they come in and however they overlap, the queue holds the bytes
    it held and the new ones; when, and only when, no byte is missing, the datagram comes out: its length, its addresses and, after
    the header, exactly its data; the queue is gone.  Mbufs of others are left alone. *)
Theorem ip_reass_sound memall st i q ip mff b : ipqs st !! i = Some q -> queue_ok (ipmb st) q -> packet_ok (ipmb st) ip mff -> mbufs_ok (ipmb st) ip q b ->
  exists r st', ip_reass mbutl memall ip mff (Some i) st = Ok (r, st') /\ mb_wf mbutl (ipmb st') /\
    kept mbutl (fun c => c = ipq_m q \/ c ∈ concat (ip_m ip :: map sg_m (ipq_frags q))) (ipmb st) (ipmb st') /\
    match r with
    | None => exists l, ipqs st' = <[i := set_frags l q]> (ipqs st) /\ queue_ok (ipmb st') (set_frags l q) /\ owned mbutl (ipmb st') (ipq_m q :: b) (map sg_m l) /\
        forall o, holds l o <-> holds (frag ip mff :: ipq_frags q) o
    | Some (len, src, dst, m) => (forall o, 0 <= o < E -> holds (frag ip mff :: ipq_frags q) o) /\ len = E /\ src = ipq_src q /\ dst = ipq_dst q /\
        ipqs st' = delete i (ipqs st) /\ chain mbutl (ipmb st') m /\ exists h, Z.of_nat (length h) = IPHDR /\ content (ipmb st') m = h ++ slice 0 E
    end.
Proof.
  intros Hi [Q1 Q2 Q3] Hpk Hmb. destruct (strip_owned _ ip mff q b Hpk Hmb) as (a & m & x & mb1 & Em & Hg & -> & Ho & Hpf & Hsc & Hk1).
  unfold ip_reass. rewrite Em, Hg. kstep. rewrite Hi. fold (hlen ip). change (set_len (set_off x (m_off x + hlen ip)) (m_len x - hlen ip)) with (strip x (hlen ip)).
  set (mb1 := put_mb a (strip x (hlen ip)) (ipmb st)) in *. rewrite <- Em. fold (frag ip mff).
  assert (Forall (piece mb1) (ipq_frags q)) as Hp1 by (apply (pieces_same D last_ends E (ipmb st) mb1 []); [exact Q1|]; intros c [->|Hc]%elem_of_cons; [done|by apply Hsc]).
  destruct (reass_insert_spec mbutl Hbase D last_ends E mb1 _ (frag ip mff) (ipq_frags q) Ho Hp1 Hpf Q2) as (ins & l & mb2 & -> & Ho2 & Hk2 & Hp2 & Ha2 & Hh2 & Hsubl & Hins). kstep.
  assert (kept mbutl (fun c => c = ipq_m q \/ c ∈ concat (ip_m ip :: map sg_m (ipq_frags q))) (ipmb st) mb2) as Hk12.
  { eapply mbkept_trans; eapply kept_mono; [|exact Hk1| |exact Hk2]; unfold only; intros c; [intros ->; right; cbn; rewrite Em; by left|by right]. }
  destruct ins.
  - destruct Hins as (pre & t & post & El & _).
    destruct (complete_spec i (Ipst (<[i := set_frags l q]> (ipqs st)) mb2) (set_frags l q) b) as (r & st' & -> & Hr); try done.
    { cbn [ipqs]. apply list_lookup_insert_eq. by eapply lookup_lt_Some. }
    { cbn [set_frags ipq_frags]. rewrite El. by destruct pre. }
    exists r, st'. split; [done|]. destruct r as [[[[len src] dst] m2]|].
    + destruct Hr as (R1 & R2 & R3 & R4 & R5 & R6 & R7 & R8 & R9). split_and!; try done.
      * eapply mbkept_trans; [exact Hk12|]. eapply kept_mono; [|exact R9]. cbn [set_frags ipq_m ipq_frags]. intros c [->|Hc]; [by left|]. right.
        exact (Hsubl c Hc).
      * intros o Ho'. apply Hh2. by apply R1.
      * rewrite R5. cbn [ipqs]. apply delete_insert_list.
    + destruct Hr as [-> (o & Hoo & Hno)]. cbn [ipmb ipqs]. split; [apply Ho2|]. split; [exact Hk12|]. exists l. split_and!; try done. split; try done. by exists o.
  - subst l. exists None, (Ipst (ipqs st) mb2). cbn [ipmb ipqs]. split; [done|]. split; [apply Ho2|]. split; [exact Hk12|].
    assert (set_frags (ipq_frags q) q = q) as Eq by (by destruct q). exists (ipq_frags q). rewrite Eq. split_and!; try done. by rewrite list_insert_id.
Qed.
End Thms.

(** ** The timer *)

Section Timer.
Context {M H : Type} `{RM : !ResMap M}.
Context (mbutl : Z).
Context (Hbase : 0 < mbutl /\ mbutl mod NBPG = 0 /\ mbutl + NMBCLUSTERS * NBPG <= 2 ^ 32).
Implicit Type mb : mbst M H.
Implicit Type st : ipst M H.

(** The mbufs of the queues [l]: of their headers and of their fragments; [b]: others. *)
Definition heads (l : list ipqent) : list Z := map ipq_m l.
Definition chains_of (l : list ipqent) : list (list Z) := concat (map (fun q => map sg_m (ipq_frags q)) l).
Definition qs_owned mb (l : list ipqent) (b : list Z) : Prop := owned mbutl mb (heads l ++ b) (chains_of l).
Definition mbufs_of (l : list ipqent) : list Z := heads l ++ concat (chains_of l).
(** The mbufs [X] have been freed, others are as they were. *)
Definition freed_all (X : list Z) mb mb' : Prop := kept mbutl (fun c => c ∈ X) mb mb' /\ forall a z, in_use mb' a z -> a ∉ X /\ in_use mb a z.

Lemma freed_all_trans X Y mb1 mb2 mb3 : freed_all X mb1 mb2 -> freed_all Y mb2 mb3 -> freed_all (X ++ Y) mb1 mb3.
Proof.
  intros [K1 U1] [K2 U2]. split.
  - eapply mbkept_trans; eapply kept_mono; [|exact K1| |exact K2]; intros c Hc; apply elem_of_app; auto.
  - intros a z Hz. destruct (U2 a z Hz) as [H1 H2]. destruct (U1 a z H2) as [H3 H4]. split; [|done]. rewrite elem_of_app. tauto.
Qed.

Lemma free_frags_spec l : forall mb b ls, owned mbutl mb b (map sg_m l ++ ls) ->
  exists mb', free_frags mbutl l mb = Ok mb' /\ owned mbutl mb' b ls /\ freed_all (concat (map sg_m l)) mb mb'.
Proof.
  induction l as [|q l IH]; intros mb b ls Ho; cbn [free_frags map concat].
  { exists mb. split_and!; try done. split; [by intros a x|]. intros a z Hz. split; [by intros ?%elem_of_nil|done]. }
  destruct (owned_free mbutl Hbase mb b _ _ Ho) as (mb1 & E1 & Ho1 & _ & Hk1). rewrite E1. kstep.
  destruct (IH mb1 b ls Ho1) as (mb' & -> & Ho' & Hf). exists mb'. split_and!; try done.
  eapply freed_all_trans; [|exact Hf]. split; [exact Hk1|].
  apply owned_split in Ho as (Hw & Hm & _). destruct (m_freem_spec mbutl Hbase (sg_m q) mb Hw (proj1 Hm)) as (mb2 & E2 & _ & _ & Hu & _).
  { intros a Ha. destruct (proj2 Hm a Ha) as (x & Hx & _). by exists x. }
  rewrite E1 in E2. injection E2 as <-. intros a z Hz. by apply Hu.
Qed.

Lemma free_head mb a b ls : owned mbutl mb (a :: b) ls -> exists mb', MFREE mbutl a mb = Ok mb' /\ owned mbutl mb' b ls /\ freed_all [a] mb mb'.
Proof.
  intros (Hw & Hc & Hp & Hh). destruct (proj2 Hc a) as (x & Hu & _); [by left|].
  destruct (MFREE_spec mbutl Hbase mb a x Hw Hu) as (mb' & E1 & Hf). exists mb'. split; [done|]. pose proof (freed_kept mbutl _ _ _ _ Hf) as Hk.
  assert (chain mbutl mb (b ++ concat ls) /\ a ∉ b ++ concat ls) as [Hc' Hna].
  { destruct Hc as [[Hna Hnd]%NoDup_cons Hcu]. split; [|done]. split; [done|]. intros c Hin. apply Hcu. by right. }
  split; [apply (kept_owned mbutl (fun c => c = a) mb mb' b ls Hk (fr_wf _ _ _ _ _ Hf) Hc' Hp Hh); by intros c Hin ->|].
  split; [eapply kept_mono; [|exact Hk]; intros c ->; by left|]. intros c z [Hne Hz]%(freed_use _ _ _ _ _ Hf). split; [|done]. by intros Hx%list_elem_of_singleton.
Qed.

Lemma freef_spec mb q l b : qs_owned mb (q :: l) b -> exists mb', ip_freef mbutl q mb = Ok mb' /\ qs_owned mb' l b /\ freed_all (mbufs_of [q]) mb mb'.
Proof.
  intros Ho. unfold ip_freef. unfold qs_owned, chains_of in Ho. cbn [map concat] in Ho. fold (chains_of l) in Ho.
  destruct (free_frags_spec (ipq_frags q) mb _ _ Ho) as (mb1 & -> & Ho1 & Hf1). kstep.
  destruct (free_head mb1 (ipq_m q) (heads l ++ b) (chains_of l)) as (mb' & -> & Ho' & Hf2); [exact Ho1|].
  exists mb'. split_and!; try done. destruct (freed_all_trans _ _ _ _ _ Hf1 Hf2) as [K U].
  assert (forall c, c ∈ mbufs_of [q] <-> c ∈ concat (map sg_m (ipq_frags q)) ++ [ipq_m q]) as Hiff.
  { intros c. unfold mbufs_of, heads, chains_of. cbn. rewrite app_nil_r, elem_of_cons, elem_of_app, list_elem_of_singleton. tauto. }
  split; [eapply kept_mono; [|exact K]; intros c Hc; by apply Hiff|]. intros c z Hz. destruct (U c z Hz). split; [by rewrite Hiff|done].
Qed.

(** A tick: the queues whose time is up are freed. *)
Definition last_tick (q : ipqent) : Prop := u8 (ipq_ttl q - 1) = 0.
#[local] Instance last_tick_dec q : Decision (last_tick q).
Proof. unfold last_tick. apply _. Defined.
Definition tick (l : list ipqent) : list ipqent := (fun q => set_ttl (ipq_ttl q - 1) q) <$> filter (fun q => ~ last_tick q) l.
Definition timed_out (l : list ipqent) : list ipqent := filter last_tick l.

Lemma qs_owned_perm mb l l' b : l ≡ₚ l' -> qs_owned mb l b -> qs_owned mb l' b.
Proof.
  intros Hp (Hw & Hc & Hpl & Hh). assert (chains_of l ≡ₚ chains_of l') as Hpc by (unfold chains_of; by rewrite Hp).
  assert (concat (chains_of l) ≡ₚ concat (chains_of l')) as Hpcc by (by rewrite Hpc). split_and!; [done| |intros a x Ha; apply Hpl; by rewrite Hpcc|by rewrite <- Hpc].
  eapply chain_perm; [|exact Hc]. rewrite Hpcc. unfold heads. by rewrite Hp.
Qed.

Lemma slow_loop_spec b l : forall mb d, qs_owned mb (l ++ d) b ->
  exists mb', slow_loop mbutl l mb = Ok (tick l, mb') /\ qs_owned mb' (tick l ++ d) b /\ freed_all (mbufs_of (timed_out l)) mb mb'.
Proof.
  induction l as [|q l IH]; intros mb d Ho; cbn [slow_loop].
  { exists mb. split_and!; try done. split; [by intros a x|]. intros a z Hz. split; [by intros ?%elem_of_nil|done]. }
  unfold tick, timed_out. rewrite !filter_cons. destruct (Z.eqb_spec (ipq_ttl (set_ttl (ipq_ttl q - 1) q)) 0) as [E0|E0].
  - rewrite (decide_True (P := last_tick q)) by done. rewrite (decide_False (P := ~ last_tick q)) by (by intros Hx).
    destruct (freef_spec mb (set_ttl (ipq_ttl q - 1) q) (l ++ d) b) as (mb1 & -> & Ho1 & Hf1); [exact Ho|]. kstep.
    destruct (IH mb1 d Ho1) as (mb' & -> & Ho' & Hf). exists mb'. split_and!; try done.
    destruct (freed_all_trans _ _ _ _ _ Hf1 Hf) as [K U].
    assert (forall c, c ∈ mbufs_of (q :: timed_out l) <-> c ∈ mbufs_of [set_ttl (ipq_ttl q - 1) q] ++ mbufs_of (timed_out l)) as Hiff.
    { intros c. unfold mbufs_of, heads, chains_of. cbn. rewrite app_nil_r, concat_app. cbn. rewrite ?elem_of_cons, ?elem_of_app, ?elem_of_cons, ?elem_of_nil. tauto. }
    split; [eapply kept_mono; [|exact K]; intros c Hc; by apply Hiff|]. intros c z Hz. destruct (U c z Hz). split; [by rewrite Hiff|done].
  - rewrite (decide_False (P := last_tick q)) by done. rewrite (decide_True (P := ~ last_tick q)) by done.
    destruct (IH mb (set_ttl (ipq_ttl q - 1) q :: d)) as (mb' & -> & Ho' & Hf).
    { assert (qs_owned mb (set_ttl (ipq_ttl q - 1) q :: l ++ d) b) as Ho2 by exact Ho. eapply qs_owned_perm; [|exact Ho2]. by rewrite Permutation_middle. }
    kstep. exists mb'. split_and!; try done. eapply qs_owned_perm; [|exact Ho']. cbn. by rewrite Permutation_middle.
Qed.

Lemma slowtimo_spec st b : qs_owned (ipmb st) (ipqs st) b ->
  exists st', ip_slowtimo mbutl st = Ok st' /\ ipqs st' = tick (ipqs st) /\ qs_owned (ipmb st') (ipqs st') b /\ freed_all (mbufs_of (timed_out (ipqs st))) (ipmb st) (ipmb st').
Proof.
  intros Ho. unfold ip_slowtimo. destruct (slow_loop_spec b (ipqs st) (ipmb st) []) as (mb' & -> & Ho' & Hf); [by rewrite app_nil_r|]. kstep.
  exists (Ipst (tick (ipqs st)) mb'). rewrite app_nil_r in Ho'. by split_and!.
Qed.

(** [n] ticks with nothing arriving. *)
Fixpoint ticks (n : nat) st : res (ipst M H) := match n with O => mret st | S n => st ← ip_slowtimo mbutl st; ticks n st end.

Lemma mbufs_tick l c : c ∈ mbufs_of l <-> c ∈ mbufs_of (timed_out l) ++ mbufs_of (tick l).
Proof.
  unfold tick, timed_out. induction l as [|q l IH]; [done|].
  assert (forall q l, c ∈ mbufs_of (q :: l) <-> (c = ipq_m q \/ c ∈ concat (map sg_m (ipq_frags q))) \/ c ∈ mbufs_of l) as Hcons.
  { intros q0 l0. unfold mbufs_of, heads, chains_of. cbn. rewrite concat_app, ?elem_of_cons, !elem_of_app. tauto. }
  rewrite Hcons, !filter_cons. destruct (decide (last_tick q)) as [Hq|Hq]; [rewrite (decide_False (P := ~ last_tick q)) by (by intros Hx)|rewrite (decide_True (P := ~ last_tick q)) by done];
    cbn [fmap list_fmap]; rewrite elem_of_app, Hcons, IH, elem_of_app; cbn [set_ttl ipq_m ipq_frags]; tauto.
Qed.

Lemma ticks_spec b n : forall st, qs_owned (ipmb st) (ipqs st) b -> Forall (fun q => 0 < ipq_ttl q <= Z.of_nat n) (ipqs st) -> Z.of_nat n < 256 ->
  exists st', ticks n st = Ok st' /\ ipqs st' = [] /\ qs_owned (ipmb st') [] b /\ freed_all (mbufs_of (ipqs st)) (ipmb st) (ipmb st').
Proof.
  induction n as [|n IH]; intros st Ho Ht Hn; cbn [ticks].
  - destruct (ipqs st) as [|q l] eqn:Eq; [|apply Forall_cons in Ht as [Hq _]; lia]. exists st. split_and!; try done. split; [by intros a x|].
    intros a z Hz. split; [by intros ?%elem_of_nil|done].
  - destruct (slowtimo_spec st b Ho) as (st1 & -> & Eq1 & Ho1 & Hf1). kstep.
    destruct (IH st1 Ho1) as (st' & -> & Eq' & Ho' & Hf').
    + rewrite Eq1. apply Forall_forall. intros q (q0 & -> & [Hnl Hq]%list_elem_of_filter)%list_elem_of_fmap. rewrite Forall_forall in Ht. specialize (Ht q0 Hq).
      unfold last_tick in Hnl. cbn [set_ttl ipq_ttl]. rewrite wrapu_small in Hnl |- * by lia. lia.
    + lia.
    + exists st'. split_and!; try done. destruct (freed_all_trans _ _ _ _ _ Hf1 Hf') as [K U]. rewrite Eq1 in K, U.
      split; [eapply kept_mono; [|exact K]; intros c Hc; by apply mbufs_tick|]. intros c z Hz. destruct (U c z Hz). split; [by rewrite mbufs_tick|done].
Qed.

(** C22: incomplete datagrams do not stay: a queue starts with a time to live of 15, and after as many ticks of ip_slowtimo with
    nothing new every queue is gone, its header and all mbufs of its fragments are free, and no other mbuf is touched. *)
Theorem ip_slowtimo_expires b st : qs_owned (ipmb st) (ipqs st) b -> Forall (fun q => 0 < ipq_ttl q <= IPFRAGTTL) (ipqs st) ->
  exists st', ticks (Z.to_nat IPFRAGTTL) st = Ok st' /\ ipqs st' = [] /\ mb_wf mbutl (ipmb st') /\
    kept mbutl (fun c => c ∈ mbufs_of (ipqs st)) (ipmb st) (ipmb st') /\ forall a z, in_use (ipmb st') a z -> a ∉ mbufs_of (ipqs st) /\ in_use (ipmb st) a z.
Proof.
  intros Ho Ht. destruct (ticks_spec b (Z.to_nat IPFRAGTTL) st Ho Ht ltac:(done)) as (st' & E & Eq & Ho' & K & U).
  exists st'. split_and!; try done. apply Ho'.
Qed.
End Timer.

(** ** A datagram in two fragments

    A datagram of 24 bytes: a queue holds the first 16 of them; the rest arrives, or time runs out.  Runs that show
    where the code parts from what it means to do. *)

#[local] Existing Instance ip_seqops.
#[local] Existing Instance ip_space.

(** A packet with a header of [h] bytes and the bytes [o], [o + 1], ... of the datagram. *)
Definition arrive (h o n : Z) (st : mbst rmap unit) : res (Z * mbst rmap unit) := fill (o - h) (h + n) st.
Definition f1 : mbst rmap unit := after (packet 0 16 p1) p1.
Definition f2 : mbst rmap unit := after (arrive 20 16 8 f1) f1.
Definition f3 : mbst rmap unit := after (arrive 0 0 10 f2) f2.
Definition fa : Z := Eval vm_compute in at_of (packet 0 16 p1).
Definition fb : Z := Eval vm_compute in at_of (arrive 20 16 8 f1).
Definition fh : Z := Eval vm_compute in at_of (arrive 0 0 10 f2).

Lemma f1_run : packet 0 16 p1 = Ok (fa, f1).
Proof. apply after_run. vm_compute. reflexivity. Qed.
Lemma f2_run : arrive 20 16 8 f1 = Ok (fb, f2).
Proof. apply after_run. vm_compute. reflexivity. Qed.
Lemma f3_run : arrive 0 0 10 f2 = Ok (fh, f3).
Proof. apply after_run. vm_compute. reflexivity. Qed.
Lemma f3_wf : mb_wf base f3.
Proof.
  refine (fill_wf (0 - 0) (0 + 10) f2 fh f3 _ _ f3_run); [|by vm_compute]. refine (fill_wf (16 - 20) (20 + 8) f1 fb f2 _ _ f2_run); [|by vm_compute].
  refine (packet_wf 0 16 p1 fa (after (fill (0 - 40) (40 + 16) p1) p1) f1 p1_wf _ _ _ f1_run); [by vm_compute|apply after_run; vm_compute; reflexivity|vm_compute; reflexivity].
Qed.

Definition first_frag : seg := Seg 0 16 1 [fa].
Definition queue : ipqent := Ipq fh 15 17 1234 1 2 [first_frag].
Definition fst0 : ipst rmap unit := Ipst [queue] f3.
(** The second fragment as ipintr gives it to ip_reass. *)
Definition second : ippkt := Ippkt 5 8 1234 16 17 1 2 [fb].

Lemma first_piece : piece bytes_of (last_ends 24) 24 f3 first_frag.
Proof.
  split.
  - reflexivity.
  - vm_compute. repeat split; discriminate.
  - vm_compute. split; [discriminate|reflexivity].
  - vm_compute. discriminate.
  - vm_compute. reflexivity.
  - unfold last_ends. vm_compute. split; discriminate.
Qed.
Lemma queue_holed : queue_ok bytes_of 24 f3 queue.
Proof.
  split; [constructor; [exact first_piece|constructor]|constructor; constructor|]. exists 20. split; [lia|]. intros Hx. apply Exists_cons in Hx as [Hx|Hx%Exists_nil]; [|done].
  unfold has_place, stop in Hx. vm_compute in Hx. destruct Hx as [_ Hx]. discriminate Hx.
Qed.
Definition head_fits (mb : mbst rmap unit) (a n : Z) : bool :=
  match mbs mb !! a with Some x => bool_decide (m_type x <> MT_FREE /\ inline x /\ IPHDR <= n <= m_len x) | None => false end.
Lemma head_check mb a n : head_fits mb a n = true -> exists x, in_use mb a x /\ inline x /\ IPHDR <= n <= m_len x.
Proof.
  unfold head_fits. destruct (mbs mb !! a) as [x|] eqn:Ex; [|done]. intros (H1 & H2 & H3)%bool_decide_eq_true. exists x. split; [by split|by split].
Qed.
Lemma second_ok : packet_ok bytes_of 24 f3 second 0.
Proof.
  split.
  - destruct (head_check f3 fb 20) as (x & Hu & Hi & Hl); [vm_compute; reflexivity|]. exists fb, [], x. split; [reflexivity|]. split; [exact Hu|]. split; [exact Hi|exact Hl].
  - vm_compute. split; discriminate.
  - vm_compute. split; [discriminate|discriminate].
  - vm_compute. reflexivity.
  - vm_compute. split; reflexivity.
Qed.
Lemma queue_mbufs : mbufs_ok base f3 second queue [].
Proof.
  destruct (snug_chain f3 [fh; fb; fa]) as [Hc Hp]; [apply (bool_decide_unpack _); vm_compute; exact I|vm_compute; reflexivity|].
  split; [exact f3_wf|]. split; [exact Hc|]. split.
  - intros a x Ha. apply Hp. right. exact Ha.
  - constructor; [|constructor]. apply roomy_headed. vm_compute. reflexivity.
Qed.

Lemma ip_reass_sound_witness : exists len src dst m h st', ip_reass base mem second 0 (Some O) fst0 = Ok (Some (len, src, dst, m), st') /\
  content (ipmb st') m = h ++ slice bytes_of 0 24.
Proof.
  destruct (ip_reass_sound base pool_base_ok bytes_of 24 ltac:(lia) mem fst0 0 queue second 0 [] eq_refl queue_holed second_ok queue_mbufs)
    as (r & st' & E & _ & _ & Hr).
  destruct r as [[[[len src] dst] m]|].
  - destruct Hr as (_ & _ & _ & _ & _ & _ & h & _ & Hc). exists len, src, dst, m, h, st'. split; [exact E|exact Hc].
  - exfalso. destruct Hr as (l & _ & [_ _ (o & Ho & Hno)] & _ & Hh). apply Hno. cbn [set_frags ipq_frags]. apply Hh. clear -Ho.
    change (holds [frag second 0; first_frag] o). rewrite !holds_cons. unfold has_place, stop. cbn [frag second first_frag sg_seq sg_len place sq_pl ip_space ip_off ip_len].
    destruct (decide (o < 16)); [right; left; lia|left; lia].
Defined.

Lemma queue_owned : qs_owned base f3 [queue] [].
Proof.
  destruct (snug_chain f3 [fh; fa]) as [Hc Hp]; [apply (bool_decide_unpack _); vm_compute; exact I|vm_compute; reflexivity|].
  split; [exact f3_wf|]. split; [exact Hc|]. split; [intros a x Ha; apply Hp; right; exact Ha|]. constructor; [|constructor]. apply roomy_headed. vm_compute. reflexivity.
Qed.

Lemma ip_slowtimo_expires_witness : exists st', ticks base 15 fst0 = Ok st' /\ ipqs st' = [].
Proof.
  destruct (ip_slowtimo_expires base pool_base_ok [] fst0) as (st' & E & Eq & _).
  - exact queue_owned.
  - constructor; [vm_compute; split; [reflexivity|discriminate]|constructor].
  - exists st'. split; [exact E|exact Eq].
Defined.

(** The run itself. *)
Example datagram_run :
  match ip_reass base mem second 0 (Some O) fst0 with
  | Ok (Some (len, src, dst, m), st) => Some (len, src, dst, ipqs st, drop 20 (content (ipmb st) m))
  | _ => None end = Some (24, 1, 2, [], slice bytes_of 0 24).
Proof. vm_compute. reflexivity. Qed.

(** ** Where the code parts from what it means to do *)

(** An offset from 32768 on becomes negative: the fragment is queued before the first. *)
Definition far : ippkt := Ippkt 5 28 1234 4096 17 1 2 [fb].
Example far_offset_negative :
  match ip_deliver base mem far fst0 with Ok (None, st) => map (fun q => map (fun s => (sg_seq s, sg_len s)) (ipq_frags q)) (ipqs st) | _ => [] end = [[(-32768, 8); (0, 16)]].
Proof. vm_compute. reflexivity. Qed.

(** The header that is made visible again has 20 bytes, whatever [ip_hl] says: with 4 bytes of options the data of the
    datagram seem to start 4 bytes after its header. *)
Definition o1 : mbst rmap unit := after (arrive 24 0 16 p1) p1.
Definition o2 : mbst rmap unit := after (arrive 20 16 8 o1) o1.
Definition oa : Z := Eval vm_compute in at_of (arrive 24 0 16 p1).
Definition ob : Z := Eval vm_compute in at_of (arrive 20 16 8 o1).
Definition off_of (mb : mbst rmap unit) (a : Z) : option Z := m_off <$> (mbs mb !! a).
Example options_lost :
  match '(r, st) ← ip_deliver base mem (Ippkt 6 40 1234 0x2000 17 1 2 [oa]) (Ipst [] o2); ip_deliver base mem (Ippkt 5 28 1234 2 17 1 2 [ob]) st with
  | Ok (Some (len, m), st) => Some (len, head m, off_of o2 oa, off_of (ipmb st) oa)
  | _ => None end = Some (24, Some oa, Some 12, Some 16).
Proof. vm_compute. reflexivity. Qed.
