(* ===== verification/Bio.v ===== *)
(** * The buffer cache: [src/sun/sys/sys/vfs_bio.c], [h/buf.h], [sun/ufs_machdep.c]

    Definitions only.  A buffer is its index in [buf[]]; the hash chains and the four free lists are the lists of the
    buffers on them.  What VOP_STRATEGY does with a buffer and what happens while the process sleeps are
    arguments: functions of the state, which has a field for the device. *)

From S2P Require Import Prelude Flags.
From stdpp Require Import prelude list numbers strings functions.
From Stdlib Require Import ZArith Lia.

Local Open Scope Z_scope.
Local Open Scope kern_scope.

Definition B_READ : Z := 0x000001.
Definition B_DONE : Z := 0x000002.
Definition B_ERROR : Z := 0x000004.
Definition B_BUSY : Z := 0x000008.
Definition B_WANTED : Z := 0x000040.
Definition B_AGE : Z := 0x000080.
Definition B_ASYNC : Z := 0x000100.
Definition B_DELWRI : Z := 0x000200.
Definition B_CACHE : Z := 0x008000.
Definition B_INVAL : Z := 0x010000.
Definition B_LOCKED : Z := 0x020000.
Definition B_CALL : Z := 0x200000.
Definition B_NOCACHE : Z := 0x400000.

Definition BQUEUES : nat := 4.
Definition BQ_LOCKED : nat := 0.
Definition BQ_LRU : nat := 1.
Definition BQ_AGE : nat := 2.
Definition BQ_EMPTY : nat := 3.
Definition BUFHSZ : Z := 63.
Definition MAXBSIZE : Z := 8192.
Definition DEV_BSIZE : Z := 512.
Definition DEV_BSHIFT : Z := 9.
Definition RND : Z := MAXBSIZE / DEV_BSIZE.
Definition NODEV : Z := -1.
Definition EIO : Z := 5.

(** [btodb(bytes)] *)
Definition btodb (bytes : Z) : Z := Z.shiftr (u32 bytes) DEV_BSHIFT.

(** The index of a chain: the chains of [bufhash[]], then those of the heads of the free lists, which hold what has no block. *)
Definition BUFHASH (vp blkno : Z) : nat := Z.to_nat (u32 (vp + blkno `quot` RND) mod BUFHSZ).
Definition head_chain (q : nat) : nat := (Z.to_nat BUFHSZ + q)%nat.

(** [b_mem]: the memory at [b_un.b_addr], [b_bufsize] bytes of it. *)
Record buf := Buf {
  b_flags : Z; b_bcount : Z; b_bufsize : Z; b_error : Z; b_dev : Z; b_blkno : Z; b_resid : Z; b_vp : Z; b_mem : list Z
}.
Definition set_bflags (v : Z) (x : buf) : buf := Buf v (b_bcount x) (b_bufsize x) (b_error x) (b_dev x) (b_blkno x) (b_resid x) (b_vp x) (b_mem x).
Definition set_bcount (v : Z) (x : buf) : buf := Buf (b_flags x) v (b_bufsize x) (b_error x) (b_dev x) (b_blkno x) (b_resid x) (b_vp x) (b_mem x).
Definition set_space (n : Z) (m : list Z) (x : buf) : buf := Buf (b_flags x) (b_bcount x) n (b_error x) (b_dev x) (b_blkno x) (b_resid x) (b_vp x) m.
Definition set_err (e r : Z) (x : buf) : buf := Buf (b_flags x) (b_bcount x) (b_bufsize x) e (b_dev x) (b_blkno x) r (b_vp x) (b_mem x).
Definition set_block (dev blkno : Z) (x : buf) : buf := Buf (b_flags x) (b_bcount x) (b_bufsize x) (b_error x) dev blkno (b_resid x) (b_vp x) (b_mem x).
Definition set_bvp (v : Z) (x : buf) : buf := Buf (b_flags x) (b_bcount x) (b_bufsize x) (b_error x) (b_dev x) (b_blkno x) (b_resid x) v (b_mem x).
Definition bset (f : Z) (x : buf) : buf := set_bflags (with_bits (b_flags x) f) x.
Definition bclr (f : Z) (x : buf) : buf := set_bflags (without (b_flags x) f) x.
Definition bhas (x : buf) (f : Z) : bool := has (b_flags x) f.

(** What a process sleeps on: a buffer, or the free lists. *)
Inductive bchan := CBuf (i : nat) | CFree.
(** What is done outside the cache. *)
Inductive bioev := Woken (c : bchan) | Inactive (vp : Z).

(** [fwant]: B_WANTED of [bfreelist[0]]; [v_count]: the references of the vnodes; [bdev]: the device. *)
Record biost (D : Type) := Biost {
  bufs : list buf; hashq : list (list nat); freeq : list (list nat); fwant : bool; v_count : Z -> Z;
  bu_error : Z; ru_inblock : Z; ru_oublock : Z; bev : list bioev; bdev : D
}.
Arguments Biost {D}.
Arguments bufs {D}.
Arguments hashq {D}.
Arguments freeq {D}.
Arguments fwant {D}.
Arguments v_count {D}.
Arguments bu_error {D}.
Arguments ru_inblock {D}.
Arguments ru_oublock {D}.
Arguments bev {D}.
Arguments bdev {D}.

Section Bio.
Context {D : Type}.
Implicit Type st : biost D.

Definition set_bufs (l : list buf) st : biost D := Biost l (hashq st) (freeq st) (fwant st) (v_count st) (bu_error st) (ru_inblock st) (ru_oublock st) (bev st) (bdev st).
Definition set_hashq (l : list (list nat)) st : biost D := Biost (bufs st) l (freeq st) (fwant st) (v_count st) (bu_error st) (ru_inblock st) (ru_oublock st) (bev st) (bdev st).
Definition set_freeq (l : list (list nat)) st : biost D := Biost (bufs st) (hashq st) l (fwant st) (v_count st) (bu_error st) (ru_inblock st) (ru_oublock st) (bev st) (bdev st).
Definition set_fwant (b : bool) st : biost D := Biost (bufs st) (hashq st) (freeq st) b (v_count st) (bu_error st) (ru_inblock st) (ru_oublock st) (bev st) (bdev st).
Definition set_vcount (f : Z -> Z) st : biost D := Biost (bufs st) (hashq st) (freeq st) (fwant st) f (bu_error st) (ru_inblock st) (ru_oublock st) (bev st) (bdev st).
Definition set_uerror (e : Z) st : biost D := Biost (bufs st) (hashq st) (freeq st) (fwant st) (v_count st) e (ru_inblock st) (ru_oublock st) (bev st) (bdev st).
Definition pay_read st : biost D := Biost (bufs st) (hashq st) (freeq st) (fwant st) (v_count st) (bu_error st) (ru_inblock st + 1) (ru_oublock st) (bev st) (bdev st).
Definition pay_write st : biost D := Biost (bufs st) (hashq st) (freeq st) (fwant st) (v_count st) (bu_error st) (ru_inblock st) (ru_oublock st + 1) (bev st) (bdev st).
Definition badd_ev (e : bioev) st : biost D := Biost (bufs st) (hashq st) (freeq st) (fwant st) (v_count st) (bu_error st) (ru_inblock st) (ru_oublock st) (bev st ++ [e]) (bdev st).
Definition set_bdev (d : D) st : biost D := Biost (bufs st) (hashq st) (freeq st) (fwant st) (v_count st) (bu_error st) (ru_inblock st) (ru_oublock st) (bev st) d.

Definition get_buf (i : nat) st : res buf := rd (bufs st) i.
Definition put_buf (i : nat) (x : buf) st : res (biost D) := l ← wr (bufs st) i x; mret (set_bufs l st).
Definition upd_buf (i : nat) (f : buf -> buf) st : res (biost D) := x ← get_buf i st; put_buf i (f x) st.

(** ** The lists *)

(** The links of a buffer that is on no list point anywhere. *)
Definition bremhash (i : nat) st : res (biost D) :=
  if existsb (fun q => bool_decide (i ∈ q)) (hashq st) then mret (set_hashq (map (unlink i) (hashq st)) st) else Fault.
Definition binshash (i h : nat) st : res (biost D) := q ← rd (hashq st) h; l ← wr (hashq st) h (i :: q); mret (set_hashq l st).
Definition bremfree (i : nat) st : res (biost D) :=
  if existsb (fun q => bool_decide (i ∈ q)) (freeq st) then mret (set_freeq (map (unlink i) (freeq st)) st) else Fault.
Definition binsheadfree (i f : nat) st : res (biost D) := q ← rd (freeq st) f; l ← wr (freeq st) f (i :: q); mret (set_freeq l st).
Definition binstailfree (i f : nat) st : res (biost D) := q ← rd (freeq st) f; l ← wr (freeq st) f (q ++ [i]); mret (set_freeq l st).
Definition notavail (i : nat) st : res (biost D) := st ← bremfree i st; upd_buf i (bset B_BUSY) st.

(** ** The vnode of a buffer *)

Definition VN_HOLD (vp : Z) st : biost D := set_vcount (<[vp := u16 (v_count st vp + 1)]> (v_count st)) st.
Definition VN_RELE (vp : Z) st : res (biost D) :=
  if v_count st vp =? 0 then Panic "vn_rele"
  else
    let st := set_vcount (<[vp := u16 (v_count st vp - 1)]> (v_count st)) st in
    mret (if v_count st vp =? 0 then badd_ev (Inactive vp) st else st).

Definition brelvp (i : nat) st : res (biost D) :=
  x ← get_buf i st;
  if b_vp x =? 0 then mret st else st ← put_buf i (set_bvp 0 x) st; VN_RELE (b_vp x) st.

Definition bsetvp (i : nat) (vp : Z) st : res (biost D) :=
  x ← get_buf i st;
  st ← (if b_vp x =? 0 then mret st else brelvp i st);
  upd_buf i (set_bvp vp) (VN_HOLD vp st).

(** ** Releasing *)

Definition brelse (i : nat) st : res (biost D) :=
  x ← get_buf i st;
  let st := if bhas x B_WANTED then badd_ev (Woken (CBuf i)) st else st in
  let st := if fwant st then badd_ev (Woken CFree) (set_fwant false st) else st in
  let x := if bhas x B_NOCACHE then bset B_INVAL x else x in
  st ← put_buf i x st;
  st ← (if bhas x B_ERROR then if bhas x B_LOCKED then upd_buf i (bclr B_ERROR) st else brelvp i st else mret st);
  x ← get_buf i st;
  st ← (if b_bufsize x <=? 0 then binsheadfree i BQ_EMPTY st
        else if bhas x (Z.lor B_ERROR B_INVAL) then binsheadfree i BQ_AGE st
        else binstailfree i (if bhas x B_LOCKED then BQ_LOCKED else if bhas x B_AGE then BQ_AGE else BQ_LRU) st);
  upd_buf i (bclr (Z.lor B_WANTED (Z.lor B_BUSY (Z.lor B_ASYNC (Z.lor B_AGE B_NOCACHE))))) st.

Definition geterror (x : buf) : Z := if bhas x B_ERROR then if b_error x =? 0 then EIO else b_error x else 0.

Section Io.
(** VOP_STRATEGY, what happens during a sleep, the function of a B_CALL, [v_rdev] of a vnode, CLBYTES of the machine. *)
Context (strategy : nat -> biost D -> res (biost D)) (sleep : bchan -> biost D -> res (biost D)).
Context (iodone : nat -> biost D -> res (biost D)) (v_rdev : Z -> Z) (clbytes : Z).

Definition biodone (i : nat) st : res (biost D) :=
  x ← get_buf i st;
  if bhas x B_DONE then Panic "dup biodone"
  else
    st ← put_buf i (bset B_DONE x) st;
    if bhas x B_CALL then st ← upd_buf i (bclr B_CALL) st; iodone i st
    else if bhas x B_ASYNC then brelse i st
    else st ← upd_buf i (bclr B_WANTED) st; mret (badd_ev (Woken (CBuf i)) st).

Fixpoint biowait (fuel : nat) (i : nat) st : res (biost D) :=
  x ← get_buf i st;
  if bhas x B_DONE then mret (if bu_error st =? 0 then set_uerror (geterror x) st else st)
  else match fuel with O => Fault | S fuel => st ← sleep (CBuf i) st; biowait fuel i st end.

Definition bwrite (fuel : nat) (i : nat) st : res (biost D) :=
  x ← get_buf i st;
  st ← put_buf i (bclr (Z.lor B_READ (Z.lor B_DONE (Z.lor B_ERROR B_DELWRI))) x) st;
  let st := if bhas x B_DELWRI then st else pay_write st in
  if b_bufsize x <? b_bcount x then Panic "bwrite"
  else
    st ← strategy i st;
    if negb (bhas x B_ASYNC) then st ← biowait fuel i st; brelse i st
    else if bhas x B_DELWRI then upd_buf i (bset B_AGE) st
    else mret st.

Definition bdwrite (i : nat) st : res (biost D) :=
  x ← get_buf i st;
  let st := if bhas x B_DELWRI then st else pay_write st in
  st ← put_buf i (bset (Z.lor B_DELWRI B_DONE) x) st;
  brelse i st.

Definition bawrite (fuel : nat) (i : nat) st : res (biost D) := st ← upd_buf i (bset B_ASYNC) st; bwrite fuel i st.

(** ** Taking a buffer *)

(** The first buffer of the AGE list or else of the LRU list. *)
Definition free_choice st : option nat :=
  match freeq st !! BQ_AGE, freeq st !! BQ_LRU with
  | Some (i :: _), _ => Some i
  | _, Some (i :: _) => Some i
  | _, _ => None
  end.

Fixpoint getnewbuf (fuel : nat) st : res (nat * biost D) :=
  match fuel with
  | O => Fault
  | S fuel =>
      match free_choice st with
      | None => st ← sleep CFree (set_fwant true st); getnewbuf fuel st
      | Some i =>
          st ← notavail i st;
          x ← get_buf i st;
          if bhas x B_DELWRI then
            st ← upd_buf i (bset B_ASYNC) st; st ← bwrite fuel i st; getnewbuf fuel st
          else
            st ← brelvp i st; st ← upd_buf i (set_bflags B_BUSY) st; mret (i, st)
      end
  end.

Definition bfree (i : nat) st : res (biost D) := upd_buf i (set_bcount 0) st.

(** ** Memory *)

Definition roundup (x y : Z) : Z := (x + (y - 1)) `quot` y * y.

(** The pages a buffer lacks are taken off the ends of others, one after the other. *)
Fixpoint alloc_grow (fuel : nat) (tp : nat) (sizealloc : Z) st : res (biost D) :=
  t ← get_buf tp st;
  if b_bufsize t <? sizealloc then
    match fuel with
    | O => Fault
    | S fuel =>
        '(i, st) ← getnewbuf fuel st;
        t ← get_buf tp st;
        x ← get_buf i st;
        let n := Z.min (sizealloc - b_bufsize t) (b_bufsize x) in
        let left := b_bufsize x - n in
        st ← put_buf tp (set_space (b_bufsize t + n) (b_mem t ++ drop (Z.to_nat left) (b_mem x)) t) st;
        let x := set_space left (take (Z.to_nat left) (b_mem x)) x in
        let x := if left <? b_bcount x then set_bcount left x else x in
        st ← put_buf i x st;
        st ← (if left <=? 0 then
                st ← bremhash i st;
                st ← binshash i (head_chain BQ_EMPTY) st;
                upd_buf i (fun x => bset B_INVAL (set_err 0 (b_resid x) (set_block NODEV (b_blkno x) x))) st
              else mret st);
        st ← brelse i st;
        alloc_grow fuel tp sizealloc st
    end
  else mret st.

Definition allocbuf (fuel : nat) (tp : nat) (size : Z) st : res (biost D) :=
  t ← get_buf tp st;
  let sizealloc := roundup size clbytes in
  st ←
    (if sizealloc =? b_bufsize t then mret st
     else if sizealloc <? b_bufsize t then
       q ← rd (freeq st) BQ_EMPTY;
       match q with
       | [] => mret st
       | ep :: _ =>
           st ← notavail ep st;
           st ← upd_buf ep (set_space (b_bufsize t - sizealloc) (drop (Z.to_nat sizealloc) (b_mem t))) st;
           st ← upd_buf tp (set_space sizealloc (take (Z.to_nat sizealloc) (b_mem t))) st;
           st ← upd_buf ep (fun x => set_bcount 0 (bset B_INVAL x)) st;
           brelse ep st
       end
     else alloc_grow fuel tp sizealloc st);
  upd_buf tp (set_bcount size) st.

(** Does the block of a buffer of [vp] reach into the sectors from [start] to [last]? *)
Definition overlaps (start last : Z) (x : buf) : bool :=
  negb ((b_bcount x =? 0) || (last <? b_blkno x) || (u32 (b_blkno x + btodb (b_bcount x)) <=? u32 start)).

(** What the loop of brealloc() does at one buffer of the chain: nothing, or it has to start again, or the buffer is made invalid. *)
Fixpoint realloc_walk (fuel : nat) (again : biost D -> res (biost D)) (i : nat) (vp start last : Z) (l : list nat) st : res (biost D) :=
  match l with
  | [] => mret st
  | ep :: l =>
      x ← get_buf ep st;
      if (ep =? i)%nat || negb (b_vp x =? vp) || bhas x B_INVAL || negb (overlaps start last x) then realloc_walk fuel again i vp start last l st
      else if bhas x B_BUSY then
        st ← put_buf ep (bset B_WANTED x) st; st ← sleep (CBuf ep) st; again st
      else
        st ← notavail ep st;
        if bhas x B_DELWRI then st ← bwrite fuel ep st; again st
        else st ← upd_buf ep (bset B_INVAL) st; st ← brelse ep st; realloc_walk fuel again i vp start last l st
  end.
Fixpoint realloc_loop (fuel : nat) (i : nat) (vp start last : Z) (h : nat) st : res (biost D) :=
  match fuel with
  | O => Fault
  | S fuel => q ← rd (hashq st) h; realloc_walk fuel (realloc_loop fuel i vp start last h) i vp start last q st
  end.

(** [false]: the buffer has been released, and the caller must begin again. *)
Definition brealloc (fuel : nat) (i : nat) (size : Z) st : res (bool * biost D) :=
  x ← get_buf i st;
  if size =? b_bcount x then mret (true, st)
  else if size <? b_bcount x then
    if bhas x B_DELWRI then st ← bwrite fuel i st; mret (false, st)
    else if bhas x B_LOCKED then Panic "brealloc"
    else st ← allocbuf fuel i size st; mret (true, st)
  else
    st ← put_buf i (bclr B_DONE x) st;
    if b_vp x =? 0 then st ← allocbuf fuel i size st; mret (true, st)
    else
      let start := b_blkno x in
      let last := i32 (u32 (start + btodb size - 1)) in
      st ← realloc_loop fuel i (b_vp x) start last (BUFHASH (b_vp x) (b_blkno x)) st;
      st ← allocbuf fuel i size st; mret (true, st).

(** ** Finding a block *)

Definition is_block (vp blkno : Z) (x : buf) : bool := (b_blkno x =? blkno) && (b_vp x =? vp) && negb (bhas x B_INVAL).

(** The first buffer of a chain that is the block. *)
Fixpoint bfind (vp blkno : Z) (l : list nat) st : res (option nat) :=
  match l with
  | [] => mret None
  | i :: l => x ← get_buf i st; if is_block vp blkno x then mret (Some i) else bfind vp blkno l st
  end.
Definition incore (vp blkno : Z) st : res bool :=
  q ← rd (hashq st) (BUFHASH vp blkno); r ← bfind vp blkno q st; mret (bool_decide (is_Some r)).

(** A block number that does not fit is replaced by one past every device. *)
Definition clamp_blkno (blkno : Z) : Z := if 2 ^ (32 - DEV_BSHIFT) <=? u32 blkno then 2 ^ (32 - DEV_BSHIFT + 1) else blkno.

Fixpoint getblk_loop (fuel : nat) (vp blkno size : Z) st : res (nat * biost D) :=
  match fuel with
  | O => Fault
  | S fuel =>
      let h := BUFHASH vp blkno in
      q ← rd (hashq st) h;
      r ← bfind vp blkno q st;
      match r with
      | Some i =>
          x ← get_buf i st;
          if bhas x B_BUSY then
            st ← put_buf i (bset B_WANTED x) st; st ← sleep (CBuf i) st; getblk_loop fuel vp blkno size st
          else
            st ← notavail i st;
            '(ok, st) ← brealloc fuel i size st;
            if (ok : bool) then st ← upd_buf i (bset B_CACHE) st; mret (i, st)
            else getblk_loop fuel vp blkno size st
      | None =>
          '(i, st) ← getnewbuf fuel st;
          st ← bfree i st;
          st ← bremhash i st;
          st ← bsetvp i vp st;
          st ← upd_buf i (fun x => set_err 0 0 (set_block (v_rdev vp) blkno x)) st;
          st ← binshash i h st;
          '(ok, st) ← brealloc fuel i size st;
          if (ok : bool) then mret (i, st) else getblk_loop fuel vp blkno size st
      end
  end.
Definition getblk (fuel : nat) (vp blkno size : Z) st : res (nat * biost D) := getblk_loop fuel vp (clamp_blkno blkno) size st.

Fixpoint geteblk (fuel : nat) (size : Z) st : res (nat * biost D) :=
  match fuel with
  | O => Fault
  | S fuel =>
      '(i, st) ← getnewbuf fuel st;
      st ← upd_buf i (bset B_INVAL) st;
      st ← bfree i st;
      st ← bremhash i st;
      st ← brelvp i st;
      st ← upd_buf i (set_err 0 0) st;
      st ← binshash i (head_chain BQ_AGE) st;
      '(ok, st) ← brealloc fuel i size st;
      if (ok : bool) then mret (i, st) else geteblk fuel size st
  end.

(** ** Reading *)

(** The transfer of a buffer that is not done. *)
Definition start_read (msg : string) (f : Z) (i : nat) st : res (biost D) :=
  st ← upd_buf i (bset f) st;
  x ← get_buf i st;
  if b_bufsize x <? b_bcount x then Panic msg
  else st ← strategy i st; mret (pay_read st).

Definition bread (fuel : nat) (vp blkno size : Z) st : res (nat * biost D) :=
  if size =? 0 then Panic "bread: size 0"
  else
    '(i, st) ← getblk fuel vp blkno size st;
    x ← get_buf i st;
    if bhas x B_DONE then mret (i, st)
    else st ← start_read "bread" B_READ i st; st ← biowait fuel i st; mret (i, st).

Definition breada (fuel : nat) (vp blkno size rablkno rabsize : Z) st : res (nat * biost D) :=
  c ← incore vp blkno st;
  '(b, st) ←
    (if (c : bool) then mret (None, st)
     else
       '(i, st) ← getblk fuel vp blkno size st;
       x ← get_buf i st;
       if bhas x B_DONE then mret (Some i, st) else st ← start_read "breada" B_READ i st; mret (Some i, st));
  c ← (if rablkno =? 0 then mret true else incore vp rablkno st);
  st ←
    (if (c : bool) then mret st
     else
       '(i, st) ← getblk fuel vp rablkno rabsize st;
       x ← get_buf i st;
       if bhas x B_DONE then brelse i st else start_read "breadrabp" (Z.lor B_READ B_ASYNC) i st);
  match b with
  | None => bread fuel vp blkno size st
  | Some i => st ← biowait fuel i st; mret (i, st)
  end.

Definition baddr (fuel : nat) (vp blkno size : Z) st : res (option nat * biost D) :=
  c ← incore vp blkno st;
  if (c : bool) then '(i, st) ← bread fuel vp blkno size st; mret (Some i, st) else mret (None, st).

(** ** Writing behind, and making invalid *)

Fixpoint flush_walk (fuel : nat) (again : biost D -> res (biost D)) (vp start last : Z) (l : list nat) st : res (biost D) :=
  match l with
  | [] => mret st
  | ep :: l =>
      x ← get_buf ep st;
      if negb (b_vp x =? vp) || bhas x B_INVAL || negb (overlaps start last x) then flush_walk fuel again vp start last l st
      else if bhas x B_BUSY then
        st ← put_buf ep (bset B_WANTED x) st; st ← sleep (CBuf ep) st; again st
      else if bhas x B_DELWRI then st ← notavail ep st; st ← bwrite fuel ep st; again st
      else flush_walk fuel again vp start last l st
  end.
Fixpoint blkflush (fuel : nat) (vp blkno size : Z) st : res (biost D) :=
  match fuel with
  | O => Fault
  | S fuel =>
      q ← rd (hashq st) (BUFHASH vp blkno);
      flush_walk fuel (blkflush fuel vp blkno size) vp blkno (i32 (u32 (blkno + btodb size - 1))) q st
  end.

(** The first buffer of [l] for which [p] holds. *)
Fixpoint bfirst (p : buf -> bool) (l : list nat) st : res (option nat) :=
  match l with
  | [] => mret None
  | i :: l => x ← get_buf i st; if p x then mret (Some i) else bfirst p l st
  end.
(** The free lists before the empty one, in order. *)
Definition cached st : list nat := concat (take BQ_EMPTY (freeq st)).
Definition of_vnode (vp : Z) (x : buf) : bool := (vp =? b_vp x) || (vp =? 0).

Definition push_out (fuel : nat) (i : nat) st : res (biost D) :=
  st ← upd_buf i (bset B_ASYNC) st; st ← notavail i st; bwrite fuel i st.

Fixpoint bflush (fuel : nat) (vp : Z) st : res (biost D) :=
  match fuel with
  | O => Fault
  | S fuel =>
      r ← bfirst (fun x => bhas x B_DELWRI && of_vnode vp x) (cached st) st;
      match r with
      | None => mret st
      | Some i => st ← push_out fuel i st; bflush fuel vp st
      end
  end.

Fixpoint binvalfree (fuel : nat) (vp : Z) st : res (biost D) :=
  match fuel with
  | O => Fault
  | S fuel =>
      r ← bfirst (of_vnode vp) (cached st) st;
      match r with
      | None => mret st
      | Some i =>
          x ← get_buf i st;
          st ← (if bhas x B_DELWRI then push_out fuel i st else st ← upd_buf i (bset B_INVAL) st; brelvp i st);
          binvalfree fuel vp st
      end
  end.

(** The hash chains proper, in order. *)
Definition hashed st : list nat := concat (take (Z.to_nat BUFHSZ) (hashq st)).
Fixpoint binval (fuel : nat) (vp : Z) st : res (biost D) :=
  match fuel with
  | O => Fault
  | S fuel =>
      r ← bfirst (fun x => (b_vp x =? vp) && negb (bhas x B_INVAL)) (hashed st) st;
      match r with
      | None => mret st
      | Some i => st ← upd_buf i (bset B_INVAL) st; st ← brelvp i st; binval fuel vp st
      end
  end.

(** ** The beginning *)

(** The loop of binit(): buffer [i] has its share of the pages. *)
Fixpoint binit_loop (base residual : Z) (l : list nat) st : res (biost D) :=
  match l with
  | [] => mret st
  | i :: l =>
      let n := (if Z.of_nat i <? residual then base + 1 else base) * clbytes in
      st ← upd_buf i (fun x => set_space n (b_mem x) (set_bcount 0 (set_block NODEV (b_blkno x) x))) st;
      st ← binshash i (head_chain BQ_AGE) st;
      st ← upd_buf i (set_bflags (Z.lor B_BUSY B_INVAL)) st;
      st ← brelse i st;
      binit_loop base residual l st
  end.
End Io.
End Bio.
