(* ===== verification/BioInv.v ===== *)
(** * The buffer cache: its invariant

    The cache stands for the contents of the volumes: [V vp a] is byte [a] of the device [vp].  A block that is
    cached and written behind, or on its way out, is ahead of the device; everything else of the volume is on the device.

    What the device promises is a class: it starts transfers, it finishes them in its own time, in
    any order, and calls biodone(); a process that sleeps while a transfer is going on is woken.  The theorems are about one
    process and the device. *)

From S2P Require Import Prelude Flags Bio.
From stdpp Require Import prelude list numbers strings functions relations gmap.
From Stdlib Require Import ZArith Lia.

Local Open Scope Z_scope.
Local Open Scope kern_scope.

(** ** Lists of lists *)

Lemma elem_of_unlink i j (l : list nat) : NoDup l -> j ∈ unlink i l <-> j ∈ l /\ j <> i.
Proof. intros H. by apply unlink_spec. Qed.

Lemma unlink_id i (l : list nat) : i ∉ l -> unlink i l = l.
Proof. induction l as [|j l IH]; [done|]. intros [? ?]%not_elem_of_cons. cbn. rewrite decide_False by done. f_equal. auto. Qed.

Lemma unlink_perm i (l : list nat) : i ∈ l -> l ≡ₚ i :: unlink i l.
Proof.
  induction l as [|j l IH]; [by intros ?%elem_of_nil|]. cbn. destruct (decide (j = i)) as [->|Hn]; [done|].
  intros [->|Hi]%elem_of_cons; [done|]. rewrite (IH Hi) at 1. apply perm_swap.
Qed.

Lemma map_unlink_id i (qs : list (list nat)) : i ∉ concat qs -> map (unlink i) qs = qs.
Proof.
  induction qs as [|q qs IH]; [done|]. cbn. intros [Hq Hqs]%not_elem_of_app. by rewrite unlink_id, IH.
Qed.

Lemma concat_unlink i (qs : list (list nat)) : NoDup (concat qs) -> i ∈ concat qs -> concat qs ≡ₚ i :: concat (map (unlink i) qs).
Proof.
  induction qs as [|q qs IH]; [by intros _ ?%elem_of_nil|]. cbn. intros (N1 & N2 & N3)%NoDup_app [Hi|Hi]%elem_of_app.
  - rewrite (unlink_perm _ _ Hi) at 1. cbn. do 2 f_equiv.
    by rewrite map_unlink_id by (by apply N2).
  - rewrite (unlink_id i q) by (intros Hq; exact (N2 i Hq Hi)). rewrite (IH N3 Hi) at 1. by rewrite <- Permutation_middle.
Qed.

Lemma concat_insert_head h i q (qs : list (list nat)) : qs !! h = Some q -> concat (<[h := i :: q]> qs) ≡ₚ i :: concat qs.
Proof.
  revert h. induction qs as [|q' qs IH]; intros [|h] Hq; try done; cbn in *.
  - by injection Hq as ->.
  - rewrite (IH h Hq). by rewrite <- Permutation_middle.
Qed.
Lemma concat_insert_tail h i q (qs : list (list nat)) : qs !! h = Some q -> concat (<[h := q ++ [i]]> qs) ≡ₚ i :: concat qs.
Proof.
  revert h. induction qs as [|q' qs IH]; intros [|h] Hq; try done; cbn in *.
  - injection Hq as ->. rewrite <- app_assoc. cbn. by rewrite <- Permutation_middle.
  - rewrite (IH h Hq). by rewrite <- Permutation_middle.
Qed.

Definition on_queue (qs : list (list nat)) (h i : nat) : Prop := exists q, qs !! h = Some q /\ i ∈ q.

Lemma elem_of_concat i (qs : list (list nat)) : i ∈ concat qs <-> exists h, on_queue qs h i.
Proof.
  unfold on_queue. induction qs as [|q qs IH]; cbn.
  - split; [by intros ?%elem_of_nil|]. by intros (h & q & ? & _).
  - rewrite elem_of_app, IH. split.
    + intros [?|(h & ?)]; [by exists O, q|by exists (S h)].
    + intros ([|h] & q' & E & Hi); cbn in E; [left; by injection E as <-|right; eauto].
Qed.

Lemma on_queue_unlink qs h i j : NoDup (concat qs) -> on_queue (map (unlink i) qs) h j <-> on_queue qs h j /\ j <> i.
Proof.
  intros Hn. assert (forall q, qs !! h = Some q -> NoDup q) as Hq.
  { revert h. induction qs as [|q qs IH]; intros [|h] q' E; cbn in *; try done; apply NoDup_app in Hn as (? & _ & ?); [by injection E as <-|by eapply IH]. }
  unfold on_queue. setoid_rewrite list_lookup_fmap. split.
  - intros (q & (q0 & E & ->)%fmap_Some & Hj). apply elem_of_unlink in Hj as [? ?]; [|by apply Hq]. eauto.
  - intros [(q & E & Hj) Hne]. exists (unlink i q). rewrite E. split; [done|]. apply elem_of_unlink; [by apply Hq|done].
Qed.

Lemma on_queue_insert qs h i q q' h' j : qs !! h = Some q -> (forall k, k ∈ q' <-> k = i \/ k ∈ q) -> on_queue (<[h := q']> qs) h' j <-> on_queue qs h' j \/ h' = h /\ j = i.
Proof.
  intros E Hq'. unfold on_queue. assert (h < length qs)%nat as Hl by (by eapply lookup_lt_Some). destruct (decide (h' = h)) as [->|Hn].
  - rewrite list_lookup_insert_eq by done. split.
    + intros (q0 & [= <-] & Hj). apply Hq' in Hj as [->|Hj]; [by right|left; eauto].
    + intros [(q0 & ? & Hj)|[_ ->]]; exists q'; (split; [done|]); apply Hq'; simplify_eq; auto.
  - rewrite list_lookup_insert_ne by done. naive_solver.
Qed.

Lemma sum_insert (f : buf -> nat) l i x y : l !! i = Some x -> (sum_list_with f (<[i := y]> l) + f x = sum_list_with f l + f y)%nat.
Proof.
  revert i. induction l as [|z l IH]; intros [|i] E; simpl in *; try done; [injection E as ->; lia|]. specialize (IH i E). lia.
Qed.

(** ** Flags of a buffer *)

Lemma bhas_bset f g x : bhas (bset f x) g = bhas x g || has f g.
Proof.
  unfold bhas, bset, with_bits, has. cbn. rewrite Z.land_lor_distr_l. destruct (Z.eqb_spec (Z.land (b_flags x) g) 0) as [->|E].
  - by rewrite Z.lor_0_l.
  - cbn. rewrite (proj2 (Z.eqb_neq _ _)); [done|]. by intros [? _]%Z.lor_eq_0_iff.
Qed.
Lemma bhas_bclr_out f g x : Z.land f g = 0 -> bhas (bclr f x) g = bhas x g.
Proof.
  intros E. unfold bhas, bclr, without, has. cbn. do 2 f_equal. apply Z.bits_inj'. intros n Hn.
  apply (f_equal (fun z => Z.testbit z n)) in E. rewrite Z.land_spec, Z.bits_0 in E. rewrite !Z.land_spec, Z.lnot_spec by done.
  by destruct (Z.testbit (b_flags x) n), (Z.testbit f n), (Z.testbit g n).
Qed.
Lemma bhas_bclr_in f g x : Z.land f g = g -> bhas (bclr f x) g = false.
Proof.
  intros E. unfold bhas, bclr, without, has. cbn. apply negb_false_iff, Z.eqb_eq. apply Z.bits_inj'. intros n Hn.
  apply (f_equal (fun z => Z.testbit z n)) in E. rewrite Z.land_spec in E. rewrite !Z.land_spec, Z.lnot_spec, Z.bits_0 by done.
  by destruct (Z.testbit (b_flags x) n), (Z.testbit f n), (Z.testbit g n).
Qed.
Lemma bhas_set f g x : bhas (set_bflags f x) g = has f g.
Proof. done. Qed.
Lemma bhas_lor x f g : bhas x (Z.lor f g) = bhas x f || bhas x g.
Proof. apply has_lor. Qed.

Lemma bhas_space n m x g : bhas (set_space n m x) g = bhas x g.
Proof. done. Qed.
Lemma bhas_bcount n x g : bhas (set_bcount n x) g = bhas x g.
Proof. done. Qed.
Lemma bhas_block d b x g : bhas (set_block d b x) g = bhas x g.
Proof. done. Qed.
Lemma bhas_err e r x g : bhas (set_err e r x) g = bhas x g.
Proof. done. Qed.
Lemma bhas_bvp v x g : bhas (set_bvp v x) g = bhas x g.
Proof. done. Qed.

(** The flags of a buffer that others were set or cleared in. *)
Ltac bflags :=
  repeat first
    [ progress rewrite ?bhas_space, ?bhas_bcount, ?bhas_block, ?bhas_err, ?bhas_bvp in * | rewrite bhas_bset in * | rewrite bhas_bclr_in in * by reflexivity | rewrite bhas_bclr_out in * by reflexivity ];
  repeat match goal with
  | |- context [has ?f ?g] => is_ground f; is_ground g; let b := eval vm_compute in (has f g) in change (has f g) with b
  | H : context [has ?f ?g] |- _ => is_ground f; is_ground g; let b := eval vm_compute in (has f g) in change (has f g) with b in H
  end;
  rewrite ?orb_false_r, ?orb_true_r in *.

(** ** The device *)

(** The buffers whose transfers are going on, and what is on the device. *)
Class Drive (D : Type) := { started : D -> list nat; platter : D -> Z -> Z -> Z }.

Definition valid (x : buf) : Prop := b_vp x <> 0 /\ bhas x B_INVAL = false.
Definition span (x : buf) (a : Z) : Prop := DEV_BSIZE * b_blkno x <= a < DEV_BSIZE * b_blkno x + b_bcount x.
Definition covers (x : buf) (vp a : Z) : Prop := valid x /\ b_vp x = vp /\ span x a.
Definition byte_at (m : list Z) (x : buf) (a : Z) : Z := nth (Z.to_nat (a - DEV_BSIZE * b_blkno x)) m 0.
Notation byte_of x := (byte_at (b_mem x) x).

#[export] Instance valid_dec x : Decision (valid x) := _.
#[export] Instance span_dec x a : Decision (span x a) := _.
#[export] Instance covers_dec x vp a : Decision (covers x vp a) := _.

Section Drive.
Context {D : Type} `{!Drive D}.
Context (iodone : nat -> biost D -> res (biost D)).
Implicit Type st : biost D.

Notation moving st := (started (bdev st)).
Notation disk st := (platter (bdev st)).

(** Buffer [i] has been read, [m] being its memory now, or written; [d] is the device then. *)
Record transferred st (i : nat) (x : buf) (m : list Z) (d : D) : Prop := Transferred {
  tr_moved : moving st ≡ₚ i :: started d;
  tr_len : length m = length (b_mem x);
  tr_read : bhas x B_READ = true -> (forall vp a, platter d vp a = disk st vp a) /\ (forall a, span x a -> byte_at m x a = disk st (b_vp x) a);
  tr_write : bhas x B_READ = false -> m = b_mem x /\ (forall a, span x a -> platter d (b_vp x) a = byte_of x a) /\
    (forall vp a, ~ (vp = b_vp x /\ span x a) -> platter d vp a = disk st vp a)
}.
Definition after_transfer st i x m d : biost D := set_bdev d (set_bufs (<[i := set_space (b_bufsize x) m x]> (bufs st)) st).

(** A transfer ends, and the interrupt routine calls biodone(). *)
Inductive finish st : biost D -> Prop :=
| Finish i x m d st' : bufs st !! i = Some x -> transferred st i x m d -> biodone iodone i (after_transfer st i x m d) = Ok st' -> finish st st'.

(** The transfer of [i] is within its memory, and biodone() of it will not panic. *)
Definition ready st (i : nat) : Prop := exists x, bufs st !! i = Some x /\ b_bcount x <= Z.of_nat (length (b_mem x)) /\ forall m d, exists st', biodone iodone i (after_transfer st i x m d) = Ok st'.

(** VOP_STRATEGY starts the transfer, and transfers may end before it returns; of a process that sleeps while some are going on
    at least one ends before it wakes. *)
Record drive_laws (strategy : nat -> biost D -> res (biost D)) (sleep : bchan -> biost D -> res (biost D)) : Prop := {
  dl_strategy st i : i ∉ moving st -> exists d st', strategy i st = Ok st' /\ started d ≡ₚ i :: moving st /\
    (forall vp a, platter d vp a = disk st vp a) /\ rtc finish (set_bdev d st) st';
  dl_sleep st c : moving st <> [] -> (forall i, i ∈ moving st -> ready st i) -> exists st', sleep c st = Ok st' /\ tc finish st st'
}.

End Drive.

(** ** The invariant *)

Section Invariant.
Context {D : Type} `{!Drive D}.
Implicit Type st : biost D.

Notation moving st := (started (bdev st)).
Notation disk st := (platter (bdev st)).

Context (P : Z -> Z -> Z -> Prop).

(** [x] may differ from what is on the device: it is written behind, or being written, or in the hands of the process. *)
Definition ahead (mine : gset nat) st i x : Prop :=
  bhas x B_DELWRI = true \/ (i ∈ moving st /\ bhas x B_READ = false) \/ (i ∈ mine /\ i ∉ moving st /\ bhas x B_DONE = true).

(** Blocks lie within the [MAXBSIZE] bytes that share a hash chain. *)
Definition aligned (blkno n : Z) : Prop := 0 <= blkno < 2 ^ 23 /\ n mod DEV_BSIZE = 0 /\ DEV_BSIZE * (blkno mod RND) + n <= MAXBSIZE.

(** A buffer, in a state where the process holds the buffers [mine]; [P] is what blocks may be written behind. *)
Record buf_ok (mine : gset nat) st (i : nat) (x : buf) : Prop := BufOk {
  bo_busy : bhas x B_BUSY = true <-> i ∈ mine \/ i ∈ moving st;
  bo_size : b_bufsize x = MAXBSIZE /\ ~ on_queue (freeq st) BQ_EMPTY i \/ b_bufsize x = 0 /\ on_queue (freeq st) BQ_EMPTY i;
  bo_mem : Z.of_nat (length (b_mem x)) = b_bufsize x;
  bo_count : 0 <= b_bcount x <= b_bufsize x;
  bo_quiet : bhas x (Z.lor B_ERROR (Z.lor B_LOCKED (Z.lor B_CALL B_NOCACHE))) = false;
  bo_placed : valid x -> aligned (b_blkno x) (b_bcount x) /\ on_queue (hashq st) (BUFHASH (b_vp x) (b_blkno x)) i;
  bo_delwri : bhas x B_DELWRI = true -> valid x /\ bhas x B_DONE = true /\ i ∉ moving st /\ P (b_vp x) (b_blkno x) (b_bcount x);
  bo_moving : i ∈ moving st -> valid x /\ bhas x B_DONE = false /\ (bhas x B_ASYNC = true <-> i ∉ mine);
  bo_memory : valid x -> b_bufsize x = MAXBSIZE;
  bo_idle : i ∉ mine -> i ∉ moving st -> bhas x B_ASYNC = false
}.

(** A vnode has a reference from each of its buffers; and the count is not so high that one from each of the other buffers would make it wrap. *)
Definition use (vp : Z) (x : buf) : nat := if b_vp x =? vp then 1 else 0.
Definition uses (vp : Z) (l : list buf) : nat := sum_list_with (use vp) l.
Definition counted st (vp : Z) : Prop :=
  Z.of_nat (uses vp (bufs st)) <= v_count st vp /\ v_count st vp + Z.of_nat (length (bufs st)) - Z.of_nat (uses vp (bufs st)) <= 65535.

Record inv (mine : gset nat) (V : Z -> Z -> Z) st : Prop := Inv {
  i_hashes : length (hashq st) = (Z.to_nat BUFHSZ + BQUEUES)%nat;
  i_frees : length (freeq st) = BQUEUES;
  i_hash : NoDup (concat (hashq st));
  i_free : NoDup (concat (freeq st));
  i_move : NoDup (moving st);
  i_known i : i ∈ concat (hashq st) \/ i ∈ mine \/ i ∈ moving st -> (i < length (bufs st))%nat;
  i_hashed i : (i < length (bufs st))%nat -> i ∈ concat (hashq st);
  i_avail i : (exists h, on_queue (freeq st) h i) <-> (i < length (bufs st))%nat /\ i ∉ mine /\ i ∉ moving st;
  i_locked i : ~ on_queue (freeq st) BQ_LOCKED i;
  i_buf i x : bufs st !! i = Some x -> buf_ok mine st i x;
  i_apart i j x y vp a : bufs st !! i = Some x -> bufs st !! j = Some y -> covers x vp a -> covers y vp a -> i = j;
  i_mem i x a : bufs st !! i = Some x -> bhas x B_DONE = true \/ (i ∈ moving st /\ bhas x B_READ = false) -> covers x (b_vp x) a -> byte_of x a = V (b_vp x) a;
  i_disk vp a : V vp a <> disk st vp a -> exists i x, bufs st !! i = Some x /\ covers x vp a /\ ahead mine st i x;
  i_count vp : vp <> 0 -> counted st vp
}.

Lemma counted_update st st' i x x' vp : bufs st !! i = Some x -> bufs st' = <[i := x']> (bufs st) -> v_count st' vp - Z.of_nat (use vp x') = v_count st vp - Z.of_nat (use vp x) -> counted st vp -> counted st' vp.
Proof.
  intros Hx Eb Ev [C1 C2]. pose proof (sum_insert (use vp) _ _ _ x' Hx) as Hs. unfold counted. rewrite Eb, length_insert. fold (uses vp (bufs st)) in Hs. fold (uses vp (<[i := x']> (bufs st))) in Hs. lia.
Qed.

(** What becomes of the invariant when only buffer [i] changes. *)
Lemma inv_update mine mine' V V' st st' i x x' : inv mine V st -> bufs st !! i = Some x -> bufs st' = <[i := x']> (bufs st) ->
  length (hashq st') = length (hashq st) -> length (freeq st') = length (freeq st) -> NoDup (concat (hashq st')) -> NoDup (concat (freeq st')) -> NoDup (moving st') ->
  (forall j, j <> i -> (j ∈ mine' <-> j ∈ mine) /\ (j ∈ moving st' <-> j ∈ moving st)) ->
  (forall h j, j <> i -> (on_queue (hashq st') h j <-> on_queue (hashq st) h j) /\ (on_queue (freeq st') h j <-> on_queue (freeq st) h j)) ->
  (forall j, (j < length (bufs st))%nat -> j ∈ concat (hashq st')) ->
  ((exists h, on_queue (freeq st') h i) <-> i ∉ mine' /\ i ∉ moving st') -> ~ on_queue (freeq st') BQ_LOCKED i ->
  buf_ok mine' st' i x' ->
  (forall j y vp a, j <> i -> bufs st !! j = Some y -> covers y vp a -> ~ covers x' vp a /\ V' vp a = V vp a) ->
  (forall a, bhas x' B_DONE = true \/ (i ∈ moving st' /\ bhas x' B_READ = false) -> covers x' (b_vp x') a -> byte_of x' a = V' (b_vp x') a) ->
  (forall vp a, V' vp a <> disk st' vp a -> covers x' vp a /\ ahead mine' st' i x' \/ V vp a <> disk st vp a /\ ~ (covers x vp a /\ ahead mine st i x)) ->
  (forall vp, vp <> 0 -> v_count st' vp - Z.of_nat (use vp x') = v_count st vp - Z.of_nat (use vp x)) ->
  inv mine' V' st'.
Proof.
  intros HI Hx Eb E1 E2 N1 N2 N3 Hm Hq Hin Hf Hl Hok Hap Hmem Hd Hv. assert (i < length (bufs st))%nat as Hlt by (by eapply lookup_lt_Some).
  assert (forall j y, bufs st' !! j = Some y -> j = i /\ y = x' \/ j <> i /\ bufs st !! j = Some y) as Hlk.
  { intros j y. rewrite Eb. destruct (decide (j = i)) as [->|Hn]; [rewrite list_lookup_insert_eq by done; intros [= ->]; by left|].
    rewrite list_lookup_insert_ne by done. by right. }
  split; try done; [by rewrite E1; apply HI|by rewrite E2; apply HI|..].
  - intros j Hj. rewrite Eb, length_insert. destruct (decide (j = i)) as [->|Hn]; [done|]. apply (i_known _ _ _ HI). rewrite elem_of_concat in *.
    destruct (Hm j Hn) as [M1 M2]. destruct Hj as [[h Hj]|[?|?]]; [left; exists h; by apply (Hq h j Hn)|tauto..].
  - intros j. rewrite Eb, length_insert. apply Hin.
  - intros j. rewrite Eb, length_insert. destruct (decide (j = i)) as [->|Hn]; [rewrite Hf; tauto|].
    destruct (Hm j Hn) as [M1 M2]. rewrite M1, M2, <- (i_avail _ _ _ HI). split; intros [h Hh]; exists h; by apply (Hq h j Hn).
  - intros j. destruct (decide (j = i)) as [->|Hn]; [done|]. rewrite (proj2 (Hq BQ_LOCKED j Hn)). apply HI.
  - intros j y Hj. destruct (Hlk j y Hj) as [[-> ->]|[Hn Hy]]; [done|]. destruct (Hm j Hn) as [M1 M2]. destruct (i_buf _ _ _ HI j y Hy) as [B1 B2 B3 B4 B5 B6 B7 B8 B9 B10].
    split; rewrite ?M1, ?M2, ?(proj2 (Hq BQ_EMPTY j Hn)), ?(proj1 (Hq _ j Hn)); done.
  - intros j k y z vp a Hj Hk Cy Cz. destruct (Hlk j y Hj) as [[-> ->]|[Hn Hy]], (Hlk k z Hk) as [[-> ->]|[Hn' Hz]]; [done|..].
    + by destruct (Hap k z vp a Hn' Hz Cz).
    + by destruct (Hap j y vp a Hn Hy Cy).
    + by apply (i_apart _ _ _ HI j k y z vp a).
  - intros j y a Hj. destruct (Hlk j y Hj) as [[-> ->]|[Hn Hy]]; [apply Hmem|]. rewrite (proj2 (Hm j Hn)). intros Hd' Hc.
    rewrite (proj2 (Hap j y _ a Hn Hy Hc)). by apply (i_mem _ _ _ HI j).
  - intros vp a Hn. destruct (Hd vp a Hn) as [[Hc Ha]|[Hva Hna]].
    + exists i, x'. split; [|done]. rewrite Eb. by apply list_lookup_insert_eq.
    + destruct (i_disk _ _ _ HI vp a Hva) as (j & y & Hy & Hc & Ha). destruct (decide (j = i)) as [->|Hne].
      * rewrite Hx in Hy. injection Hy as <-. by destruct Hna.
      * exists j, y. rewrite Eb, list_lookup_insert_ne by done. split_and!; [done..|]. unfold ahead in *. destruct (Hm j Hne) as [M1 M2]. by rewrite M1, M2.
  - intros vp Hn. apply (counted_update st st' i x x' vp Hx Eb (Hv vp Hn)). by apply (i_count _ _ _ HI).
Qed.
End Invariant.
