(* ===== verification/BioOps.v ===== *)
(** * The buffer cache: taking, releasing and transferring a buffer

    The steps the routines of the cache are made of, against the invariant: a buffer leaves and
    joins a free list, a transfer begins and ends, biowait() returns. *)

From S2P Require Import Prelude Flags Bio BioInv.
From stdpp Require Import prelude list numbers strings functions relations gmap.
From Stdlib Require Import ZArith Lia.

Local Open Scope Z_scope.
Local Open Scope kern_scope.

Lemma get_buf_Ok {D} (st : biost D) i x : bufs st !! i = Some x -> get_buf i st = Ok x.
Proof. apply rd_Ok. Qed.
Lemma put_buf_Ok {D} (st : biost D) i x y : bufs st !! i = Some x -> put_buf i y st = Ok (set_bufs (<[i := y]> (bufs st)) st).
Proof. intros H. unfold put_buf, wr. rewrite decide_True by (by eapply lookup_lt_Some). done. Qed.
Lemma upd_buf_Ok {D} (st : biost D) i x f : bufs st !! i = Some x -> upd_buf i f st = Ok (set_bufs (<[i := f x]> (bufs st)) st).
Proof. intros H. unfold upd_buf. rewrite (get_buf_Ok _ _ _ H). kstep. by eapply put_buf_Ok. Qed.

(** ** The block of a buffer *)

Definition same_block (x x' : buf) : Prop := b_vp x' = b_vp x /\ b_blkno x' = b_blkno x /\ b_bcount x' = b_bcount x /\ bhas x' B_INVAL = bhas x B_INVAL.

Lemma same_valid x x' : same_block x x' -> valid x' <-> valid x.
Proof. intros (E1 & E2 & E3 & E4). unfold valid. by rewrite E1, E4. Qed.
Lemma same_covers x x' vp a : same_block x x' -> covers x' vp a <-> covers x vp a.
Proof. intros E. unfold covers, span. rewrite (same_valid _ _ E). destruct E as (-> & -> & -> & _). done. Qed.
Lemma same_flags x f : has f B_INVAL = bhas x B_INVAL -> same_block x (set_bflags f x).
Proof. done. Qed.
Lemma same_bset f x : has f B_INVAL = false -> same_block x (bset f x).
Proof. intros E. split_and!; [done..|]. by rewrite bhas_bset, E, orb_false_r. Qed.
Lemma same_bclr f x : Z.land f B_INVAL = 0 -> same_block x (bclr f x).
Proof. intros E. split_and!; [done..|]. by apply bhas_bclr_out. Qed.
Lemma same_trans x y z : same_block x y -> same_block y z -> same_block x z.
Proof. unfold same_block. intuition congruence. Qed.

(** What brelse() clears, and what never is set in the states of the invariant. *)
Notation FREED := (Z.lor B_WANTED (Z.lor B_BUSY (Z.lor B_ASYNC (Z.lor B_AGE B_NOCACHE)))).
Notation BAD := (Z.lor B_ERROR (Z.lor B_LOCKED (Z.lor B_CALL B_NOCACHE))).

(** ** Counting *)

Definition weight (x : buf) : nat := if bhas x B_DELWRI then 2 else 0.
(** What is still to be written: it bounds the loops. *)
Definition work {D} `{!Drive D} (st : biost D) : nat := (sum_list_with weight (bufs st) + length (started (bdev st)))%nat.

Section Ops.
Context {D : Type} `{!Drive D}.
Implicit Type st : biost D.
Implicit Type mine : gset nat.

Notation moving st := (started (bdev st)).
Notation disk st := (platter (bdev st)).

Definition on_disk (V : Z -> Z -> Z) st (x : buf) : Prop := forall a, span x a -> V (b_vp x) a = disk st (b_vp x) a.

(** What the steps leave alone: the buffers the process holds, unless their transfer ends; and what is on the device stays true. *)
Record frame mine (V : Z -> Z -> Z) st st' : Prop := Frame {
  fr_len : length (bufs st') = length (bufs st);
  fr_err : bu_error st' = bu_error st;
  fr_disk vp a : V vp a = disk st vp a -> V vp a = disk st' vp a;
  fr_size j x' : bufs st' !! j = Some x' -> exists x, bufs st !! j = Some x /\ b_bufsize x' = b_bufsize x;
  fr_mine j x : j ∈ mine -> bufs st !! j = Some x -> exists x', bufs st' !! j = Some x' /\
    (x' = x /\ (j ∈ moving st' <-> j ∈ moving st) \/
     j ∈ moving st /\ j ∉ moving st' /\ same_block x x' /\ bhas x' B_DONE = true /\ bhas x' B_DELWRI = false /\ on_disk V st' x')
}.

#[local] Instance frame_refl mine V : Reflexive (frame mine V).
Proof. intros st. split; eauto 10. Qed.
#[local] Instance frame_trans mine V : Transitive (frame mine V).
Proof.
  intros s1 s2 s3 [A1 A2 A3 A4 A5] [B1 B2 B3 B4 B5]. split; [congruence|congruence|auto| |].
  - intros j x' Hj. destruct (B4 _ _ Hj) as (y & Hy & ->). by apply A4.
  - intros j x Hj Hx. destruct (A5 j x Hj Hx) as (y & Hy & Hxy). destruct (B5 j y Hj Hy) as (z & Hz & Hyz). exists z. split; [done|].
    destruct Hxy as [[-> E1]|(M1 & M2 & S1 & D1 & W1 & O1)], Hyz as [[-> E2]|(M1' & M2' & S2 & D2 & W2 & O2)]; [left; split; [done|tauto]|right; tauto| |done].
    right. split_and!; [tauto..|]. intros a Ha. by apply B3, O1.
Qed.

Lemma frame_mono mine mine' V st st' : mine' ⊆ mine -> frame mine V st st' -> frame mine' V st st'.
Proof. intros Hs [A1 A2 A3 A4 A5]. split; [done..|]. intros j x Hj. apply A5. set_solver. Qed.

Context (P : Z -> Z -> Z -> Prop).
Notation inv := (inv P).

(** ** States that differ in what the invariant does not mention *)

Lemma inv_ext mine V st st' : bufs st' = bufs st -> hashq st' = hashq st -> freeq st' = freeq st -> bdev st' = bdev st -> v_count st' = v_count st -> inv mine V st -> inv mine V st'.
Proof.
  intros E1 E2 E3 E4 E5 [I1 I2 I3 I4 I5 I6 J6 I7 I8 I9 I10 I11 I12 I13]. unfold counted in I13. split; unfold counted; rewrite ?E1, ?E2, ?E3, ?E4, ?E5; try done.
  - intros i x Hx. destruct (I9 i x Hx) as [B1 B2 B3 B4 B5 B6 B7 B8 B9 B10]. split; rewrite ?E2, ?E3, ?E4; done.
  - intros vp a Hn. destruct (I12 vp a Hn) as (i & x & Hx & Hc & Ha). exists i, x. split_and!; [done..|]. unfold ahead in *. by rewrite E4.
Qed.

Lemma inv_V mine V V' st : (forall vp a, V' vp a = V vp a) -> inv mine V st -> inv mine V' st.
Proof.
  intros E [I1 I2 I3 I4 I5 I6 J6 I7 I8 I9 I10 I11 I12 I13]. split; try done; [intros i x a ???; rewrite E; eauto|intros vp a; rewrite E; eauto].
Qed.

Lemma work_upd st i x x' : bufs st !! i = Some x -> (work (set_bufs (<[i := x']> (bufs st)) st) + weight x = work st + weight x')%nat.
Proof. intros Hx. unfold work. cbn. pose proof (sum_insert weight _ _ _ x' Hx). lia. Qed.

(** A block that is not ahead is on the device. *)
Lemma not_ahead mine V st i x a : inv mine V st -> bufs st !! i = Some x -> covers x (b_vp x) a -> ~ ahead mine st i x -> V (b_vp x) a = disk st (b_vp x) a.
Proof.
  intros HI Hx Hc Hn. destruct (decide (V (b_vp x) a = disk st (b_vp x) a)) as [|E]; [done|]. destruct (i_disk _ _ _ _ HI _ _ E) as (j & y & Hy & Hc' & Ha).
  assert (j = i) as -> by (by eapply (i_apart _ _ _ _ HI)). rewrite Hx in Hy. injection Hy as <-. done.
Qed.

(** ** Flags the invariant does not mention *)

Lemma inv_reflag mine V st i x f : inv mine V st -> bufs st !! i = Some x -> let x' := set_bflags f x in
  (forall g, g ∈ [B_DONE; B_BUSY; B_DELWRI; B_INVAL] -> has f g = bhas x g) -> has f (Z.lor B_ERROR (Z.lor B_LOCKED (Z.lor B_CALL B_NOCACHE))) = false ->
  (i ∈ moving st -> has f B_READ = bhas x B_READ) -> has f B_ASYNC = bhas x B_ASYNC \/ (i ∈ mine /\ i ∉ moving st) -> inv mine V (set_bufs (<[i := x']> (bufs st)) st).
Proof.
  intros HI Hx x' Hf Hq Hm Has. destruct (i_buf _ _ _ _ HI i x Hx) as [B1 B2 B3 B4 B5 B6 B7 B8 B9 B10].
  assert (bhas x' B_DONE = bhas x B_DONE /\ bhas x' B_BUSY = bhas x B_BUSY /\ bhas x' B_DELWRI = bhas x B_DELWRI /\ bhas x' B_INVAL = bhas x B_INVAL) as (F1 & F2 & F3 & F4)
    by (split_and!; apply Hf; set_solver). assert (valid x' <-> valid x) as Ev by (unfold valid; rewrite F4; done).
  assert (forall vp a, covers x' vp a <-> covers x vp a) as Ec by (intros; unfold covers; rewrite Ev; done).
  assert (forall vp a, covers x' vp a /\ ahead mine (set_bufs (<[i := x']> (bufs st)) st) i x' <-> covers x vp a /\ ahead mine st i x) as Ea.
  { intros vp a. rewrite Ec. unfold ahead. cbn [bdev set_bufs]. rewrite F3, F1. enough (i ∈ moving st /\ bhas x' B_READ = false <-> i ∈ moving st /\ bhas x B_READ = false) as E by (rewrite E; done).
    split; intros [Hi E]; pose proof (Hm Hi) as E'; (split; [done|]); [by rewrite <- E'|by unfold bhas; cbn; rewrite E']. }
  eapply (inv_update P mine mine V V st); try exact HI; try exact Hx; try done; try apply HI; cbn [bdev set_bufs hashq freeq].
  - rewrite (i_avail _ _ _ _ HI). apply lookup_lt_Some in Hx. tauto.
  - split; rewrite ?F1, ?F2, ?F3, ?Ev; try done.
    + intros Hi. destruct (B8 Hi) as (V1 & V2 & V3). split_and!; [done..|]. change (bhas x' B_ASYNC) with (has f B_ASYNC). by destruct Has as [-> |[_ ?]].
    + intros H1 H2. change (bhas x' B_ASYNC) with (has f B_ASYNC). destruct Has as [-> |[? _]]; [by apply B10|done].
  - intros j y vp a Hn Hy Hc. split; [|done]. rewrite Ec. intros Hc'. apply Hn. by eapply (i_apart _ _ _ _ HI).
  - intros a Hd Hc. apply (i_mem _ _ _ _ HI i x a Hx); [|by apply Ec]. rewrite F1 in Hd. destruct Hd as [?|[Hi E]]; [by left|right]. split; [done|]. by rewrite <- (Hm Hi).
  - intros vp a Hn. destruct (decide (covers x' vp a /\ ahead mine (set_bufs (<[i:=x']> (bufs st)) st) i x')) as [?|Hna]; [by left|right]. split; [done|]. by rewrite <- Ea.
Qed.

(** ** Free lists *)

Definition took i x st : biost D := set_bufs (<[i := bset B_BUSY x]> (bufs st)) (set_freeq (map (unlink i) (freeq st)) st).

Lemma notavail_eq mine V st i x h : inv mine V st -> bufs st !! i = Some x -> on_queue (freeq st) h i -> notavail i st = Ok (took i x st).
Proof.
  intros HI Hx Hf. unfold notavail, bremfree. replace (existsb _ _) with true.
  - kstep. rewrite (upd_buf_Ok _ _ x) by done. done.
  - symmetry. apply existsb_exists. destruct Hf as (q & Hq & Hi). exists q. split; [|by apply bool_decide_true]. apply list_elem_of_In. by eapply list_elem_of_lookup_2.
Qed.

Lemma took_inv mine V st i x h : inv mine V st -> bufs st !! i = Some x -> on_queue (freeq st) h i -> b_bufsize x = MAXBSIZE -> inv ({[i]} ∪ mine) V (took i x st).
Proof.
  intros HI Hx Hf Hs. assert (i ∉ mine /\ i ∉ moving st) as [Hm Hv] by (apply (i_avail _ _ _ _ HI); eauto). pose proof (i_free _ _ _ _ HI) as Hnd.
  destruct (i_buf _ _ _ _ HI i x Hx) as [B1 B2 B3 B4 B5 B6 B7 B8 B9 B10].
  assert (same_block x (bset B_BUSY x)) as Es by (by apply same_bset). pose proof (same_valid _ _ Es) as Ev. pose proof (fun vp a => same_covers _ _ vp a Es) as Ec.
  eapply (inv_update P mine _ V V st); try exact HI; try exact Hx; try done; try apply HI; cbn [took bdev set_bufs set_freeq hashq freeq].
  - by rewrite length_map.
  - assert (concat (freeq st) ≡ₚ i :: concat (map (unlink i) (freeq st))) as E by (apply concat_unlink; [done|]; apply elem_of_concat; eauto).
    rewrite E in Hnd. by apply NoDup_cons in Hnd as [_ ?].
  - intros j Hn. set_solver.
  - intros h' j Hn. rewrite on_queue_unlink by done. tauto.
  - setoid_rewrite on_queue_unlink; [|done]. split; [intros (? & _ & ?); done|]. set_solver.
  - rewrite on_queue_unlink by done. tauto.
  - split; cbn [took bdev set_bufs set_freeq hashq freeq]; rewrite ?Ev; bflags; try done.
    + split; [set_solver|done].
    + left. split; [done|]. rewrite on_queue_unlink by done. tauto.
    + set_solver.
  - intros j y vp a Hn Hy Hc. split; [|done]. rewrite Ec. intros Hc'. apply Hn. by eapply (i_apart _ _ _ _ HI).
  - intros a Hd Hc. bflags. apply (i_mem _ _ _ _ HI i x a Hx); [tauto|]. by apply Ec.
  - intros vp a Hn. rewrite Ec. destruct (decide (covers x vp a /\ (bhas x B_DELWRI = true \/ bhas x B_DONE = true))) as [[C E]|Hna].
    + left. split; [done|]. unfold ahead. bflags. destruct E as [E|E]; [by left|right; right]. split_and!; [set_solver|done|done].
    + right. split; [done|]. intros [Hc Ha]. apply Hna. split; [done|]. unfold ahead in Ha. tauto.
Qed.

(** The end of brelse(): the buffer goes to the list [f], to its head or to its tail, and it is free. *)
Lemma rejoin_inv mine V st i x f q q' : inv mine V st -> i ∈ mine -> i ∉ moving st -> bufs st !! i = Some x -> freeq st !! f = Some q -> q' = i :: q \/ q' = q ++ [i] ->
  f = BQ_AGE \/ f = BQ_LRU -> (valid x -> bhas x B_DELWRI = true \/ forall a, span x a -> V (b_vp x) a = disk st (b_vp x) a) ->
  inv (mine ∖ {[i]}) V (set_bufs (<[i := bclr (Z.lor B_WANTED (Z.lor B_BUSY (Z.lor B_ASYNC (Z.lor B_AGE B_NOCACHE)))) x]> (bufs st)) (set_freeq (<[f := q']> (freeq st)) st)).
Proof.
  intros HI Hi Hm Hx Hq Hq' Hf Hs. set (F := Z.lor B_WANTED _). destruct (i_buf _ _ _ _ HI i x Hx) as [B1 B2 B3 B4 B5 B6 B7 B8 B9 B10].
  assert (same_block x (bclr F x)) as Es by (by apply same_bclr). pose proof (same_valid _ _ Es) as Ev. pose proof (fun vp a => same_covers _ _ vp a Es) as Ec.
  assert (forall h, ~ on_queue (freeq st) h i) as Hno by (intros h Hh; destruct (proj1 (i_avail _ _ _ _ HI i) (ex_intro _ h Hh)) as (_ & Hn & _); done).
  assert (forall k, k ∈ q' <-> k = i \/ k ∈ q) as Hk by (intros k; destruct Hq' as [-> | ->]; set_solver).
  assert (concat (<[f := q']> (freeq st)) ≡ₚ i :: concat (freeq st)) as Hp by (destruct Hq' as [-> | ->]; [by apply concat_insert_head|by apply concat_insert_tail]).
  pose proof (fun h j => on_queue_insert (freeq st) f i q q' h j Hq Hk) as Hoq.
  assert (bhas (bclr F x) B_BUSY = false /\ bhas (bclr F x) B_DONE = bhas x B_DONE /\ bhas (bclr F x) B_DELWRI = bhas x B_DELWRI) as (F1 & F2 & F3) by (subst F; bflags; done).
  eapply (inv_update P mine _ V V st); try exact HI; try exact Hx; try done; try apply HI; cbn [bdev set_bufs set_freeq hashq freeq].
  - by rewrite length_insert.
  - rewrite Hp. apply NoDup_cons. split; [|apply HI]. rewrite elem_of_concat. intros [h Hh]. by apply (Hno h).
  - intros j Hn. set_solver.
  - intros h j Hn. rewrite Hoq. naive_solver.
  - split; [intros _; set_solver|]. intros _. exists f. apply Hoq. by right.
  - rewrite Hoq. destruct Hf as [-> | ->]; intros [Hl|[? _]]; try done; by apply (Hno BQ_LOCKED).
  - split; cbn [bdev set_bufs set_freeq hashq freeq]; rewrite ?Ev, ?F1, ?F2, ?F3; try done.
    + split; [done|]. set_solver.
    + destruct B2 as [[? _]|[_ Hh]]; [left|by destruct (Hno BQ_EMPTY)]. split; [done|]. rewrite Hoq. destruct Hf as [-> | ->]; intros [Hl|[? _]]; try done; by apply (Hno BQ_EMPTY).
    + subst F. rewrite !bhas_lor in *. bflags. by destruct (bhas x B_ERROR), (bhas x B_LOCKED), (bhas x B_CALL).
    + intros _ _. subst F. by bflags.
  - intros j y vp a Hn Hy Hc. split; [|done]. rewrite Ec. intros Hc'. apply Hn. by eapply (i_apart _ _ _ _ HI).
  - intros a Hd Hc. rewrite F2 in Hd. apply (i_mem _ _ _ _ HI i x a Hx); [tauto|]. by apply Ec.
  - intros vp a Hn. rewrite Ec. destruct (decide (covers x vp a)) as [C|C]; [|by right; split; [done|intros [? _]]].
    destruct C as (Hv & <- & Hspan). destruct (Hs Hv) as [E|E]; [|by destruct Hn; apply E]. left. split; [done|]. left. by rewrite F3.
Qed.

(** The block of [x] is written behind, or is on the device. *)
Definition settled (V : Z -> Z -> Z) st (x : buf) : Prop := valid x -> bhas x B_DELWRI = true \/ forall a, span x a -> V (b_vp x) a = disk st (b_vp x) a.

Lemma quiet_flags x : bhas x (Z.lor B_ERROR (Z.lor B_LOCKED (Z.lor B_CALL B_NOCACHE))) = false ->
  bhas x B_ERROR = false /\ bhas x B_LOCKED = false /\ bhas x B_CALL = false /\ bhas x B_NOCACHE = false.
Proof. rewrite !bhas_lor. by destruct (bhas x B_ERROR), (bhas x B_LOCKED), (bhas x B_CALL), (bhas x B_NOCACHE). Qed.

(** A buffer of the process: it has memory. *)
Lemma mine_size mine V st i x : inv mine V st -> i ∈ mine \/ i ∈ moving st -> bufs st !! i = Some x -> b_bufsize x = MAXBSIZE.
Proof.
  intros HI Hi Hx. destruct (bo_size _ _ _ _ _ (i_buf _ _ _ _ HI i x Hx)) as [[? _]|[_ Hq]]; [done|].
  destruct (proj1 (i_avail _ _ _ _ HI i) (ex_intro _ BQ_EMPTY Hq)) as (_ & ? & ?). tauto.
Qed.

Lemma brelse_spec mine V st i x : inv mine V st -> i ∈ mine -> i ∉ moving st -> bufs st !! i = Some x -> settled V st x ->
  exists st', brelse i st = Ok st' /\ inv (mine ∖ {[i]}) V st' /\ bufs st' = <[i := bclr FREED x]> (bufs st) /\ hashq st' = hashq st /\ bdev st' = bdev st /\ bu_error st' = bu_error st.
Proof.
  intros HI Hi Hm Hx Hs. destruct (i_buf _ _ _ _ HI i x Hx) as [B1 B2 B3 B4 B5 B6 B7 B8 B9 B10]. pose proof (mine_size _ _ _ _ _ HI (or_introl Hi) Hx) as Hsz.
  destruct (quiet_flags _ B5) as (Q1 & Q2 & Q3 & Q4). unfold brelse. rewrite (get_buf_Ok _ _ _ Hx). kstep. rewrite Q4.
  set (st1 := if bhas x B_WANTED then _ else st). set (st2 := if fwant st1 then _ else st1).
  assert (bufs st2 = bufs st /\ hashq st2 = hashq st /\ freeq st2 = freeq st /\ bdev st2 = bdev st /\ bu_error st2 = bu_error st /\ v_count st2 = v_count st) as (E1 & E2 & E3 & E4 & E5 & E6).
  { subst st2 st1. destruct (bhas x B_WANTED); cbn; by destruct (fwant st). }
  assert (bufs st2 !! i = Some x) as Hx2 by (by rewrite E1). rewrite (put_buf_Ok _ _ _ x Hx2). kstep. rewrite Q1. kstep.
  rewrite list_insert_id by done. assert (forall s : biost D, set_bufs (bufs s) s = s) as Eid by (by intros []). rewrite Eid. rewrite (get_buf_Ok _ _ _ Hx2). kstep.
  replace (b_bufsize x <=? 0) with false by (rewrite Hsz; done).
  assert (forall f q', f = BQ_AGE \/ f = BQ_LRU -> (forall q, freeq st !! f = Some q -> q' q = i :: q \/ q' q = q ++ [i]) -> exists q, freeq st !! f = Some q /\
    inv (mine ∖ {[i]}) V (set_bufs (<[i := bclr FREED x]> (bufs st)) (set_freeq (<[f := q' q]> (freeq st)) st))) as Hre.
  { intros f q' Hf Hq'. assert (is_Some (freeq st !! f)) as [q Hq] by (apply lookup_lt_is_Some; rewrite (i_frees _ _ _ _ HI); destruct Hf as [-> | ->]; cbv; lia).
    exists q. split; [done|]. eapply rejoin_inv; eauto. }
  rewrite bhas_lor, Q1, Q2. cbn [orb].
  assert (exists f q' q, freeq st !! f = Some q /\ (if bhas x B_INVAL then binsheadfree i BQ_AGE st2 else binstailfree i (if bhas x B_AGE then BQ_AGE else BQ_LRU) st2) = Ok (set_freeq (<[f := q' q]> (freeq st)) st2) /\
    inv (mine ∖ {[i]}) V (set_bufs (<[i := bclr FREED x]> (bufs st)) (set_freeq (<[f := q' q]> (freeq st)) st))) as (f & q' & q & Hq & -> & HI').
  { destruct (bhas x B_INVAL).
    - destruct (Hre BQ_AGE (cons i)) as (q & Hq & HI'); [by left|by left|]. exists BQ_AGE, (cons i), q. split_and!; [done| |done].
      unfold binsheadfree, wr. rewrite E3, (proj2 (rd_Ok _ _ _) Hq). kstep. by rewrite decide_True by (by eapply lookup_lt_Some).
    - set (f := if bhas x B_AGE then BQ_AGE else BQ_LRU). destruct (Hre f (fun q => q ++ [i])) as (q & Hq & HI'); [subst f; destruct (bhas x B_AGE); auto|by right|].
      exists f, (fun q => q ++ [i]), q. split_and!; [done| |done]. unfold binstailfree, wr. rewrite E3, (proj2 (rd_Ok _ _ _) Hq). kstep. by rewrite decide_True by (by eapply lookup_lt_Some). }
  kstep. rewrite (upd_buf_Ok _ _ x) by done. eexists. split; [done|]. split_and!; cbn; rewrite ?E1; try done.
  eapply inv_ext; [..|exact HI']; cbn; by rewrite ?E1.
Qed.

(** ** Transfers *)

Definition done_with i x m d st : biost D := set_bdev d (set_bufs (<[i := bset B_DONE (set_space (b_bufsize x) m x)]> (bufs st)) st).

(** What is on the device when a transfer ends. *)
Lemma transferred_disk mine V st i x m d : inv mine V st -> bufs st !! i = Some x -> transferred st i x m d ->
  (forall vp a, V vp a = disk st vp a -> V vp a = platter d vp a) /\ (forall a, span x a -> V (b_vp x) a = platter d (b_vp x) a /\ byte_at m x a = V (b_vp x) a) /\
  (forall vp a, V vp a <> platter d vp a -> V vp a <> disk st vp a).
Proof.
  intros HI Hx [T1 T2 T3 T4]. assert (i ∈ moving st) as Hi by (rewrite T1; by left). destruct (i_buf _ _ _ _ HI i x Hx) as [B1 B2 B3 B4 B5 B6 B7 B8 B9 B10].
  destruct (B8 Hi) as (Hv & Hd & _). assert (forall a, span x a -> covers x (b_vp x) a) as Hc by (intros a; by split).
  destruct (bhas x B_READ) eqn:Er.
  - destruct (T3 eq_refl) as [T5 T6]. assert (forall a, span x a -> V (b_vp x) a = disk st (b_vp x) a) as HV.
    { intros a Ha. eapply not_ahead; eauto. intros [W|[[_ R]|(_ & _ & W)]]; [|by rewrite Er in R|by rewrite Hd in W]. by destruct (B7 W) as (_ & _ & Hn & _). }
    split_and!; [intros; by rewrite T5|intros a Ha; rewrite T5, (T6 a Ha); by rewrite HV|intros vp a; by rewrite T5].
  - destruct (T4 eq_refl) as (-> & T5 & T6). assert (forall a, span x a -> byte_of x a = V (b_vp x) a) as HV by (intros a Ha; eapply (i_mem _ _ _ _ HI); eauto).
    assert (forall vp a, V vp a = disk st vp a -> V vp a = platter d vp a) as H1.
    { intros vp a E. destruct (decide (vp = b_vp x /\ span x a)) as [[-> Ha]|Hn]; [by rewrite T5, HV|by rewrite T6]. }
    split_and!; [done|intros a Ha; rewrite T5 by done; by rewrite HV|]. intros vp a Hn E. by apply Hn, H1.
Qed.

Lemma done_inv mine V st i x m d : inv mine V st -> bufs st !! i = Some x -> transferred st i x m d -> inv ({[i]} ∪ mine) V (done_with i x m d st).
Proof.
  intros HI Hx Ht. destruct (transferred_disk _ _ _ _ _ _ _ HI Hx Ht) as (D1 & D2 & D3). destruct Ht as [T1 T2 _ _]. assert (i ∈ moving st) as Hi by (rewrite T1; by left).
  pose proof (i_move _ _ _ _ HI) as Hnd. rewrite T1 in Hnd. apply NoDup_cons in Hnd as [Hni Hnd]. pose proof (mine_size _ _ _ _ _ HI (or_intror Hi) Hx) as Hsz.
  destruct (i_buf _ _ _ _ HI i x Hx) as [B1 B2 B3 B4 B5 B6 B7 B8 B9 B10]. destruct (B8 Hi) as (Hv & Hd & Has).
  set (y := set_space (b_bufsize x) m x). set (x' := bset B_DONE y).
  assert (same_block x x') as Es by (by apply (same_bset B_DONE y)). pose proof (same_valid _ _ Es) as Ev. pose proof (fun vp a => same_covers _ _ vp a Es) as Ec.
  assert (bhas x' B_BUSY = bhas x B_BUSY /\ bhas x' B_DONE = true /\ bhas x' B_DELWRI = bhas x B_DELWRI) as (F1 & F2 & F3) by (subst x'; bflags; done).
  eapply (inv_update P mine _ V V st); try exact HI; try exact Hx; try done; try apply HI; cbn [done_with bdev set_bufs set_bdev hashq freeq].
  - intros j Hn. rewrite T1. set_solver.
  - split; [intros [h Hh]; destruct (proj1 (i_avail _ _ _ _ HI i) (ex_intro _ h Hh)) as (_ & _ & ?); done|set_solver].
  - split; cbn [done_with bdev set_bufs set_bdev hashq freeq]; rewrite ?Ev, ?F1, ?F2, ?F3; try done.
    + set_solver.
    + by rewrite <- B3, <- T2.
    + destruct (quiet_flags _ B5) as (Q1 & Q2 & Q3 & Q4). subst x' y. rewrite !bhas_lor. bflags. by rewrite Q1, Q2, Q3, Q4.
    + intros W. by apply B6, Ev.
    + intros W. change (bhas x' B_DELWRI = true) in W. rewrite F3 in W. by destruct (B7 W) as (_ & _ & Hn & _).
    + set_solver.
  - intros j z vp a Hn Hy Hc. split; [|done]. intros Hc'%Ec. apply Hn. by eapply (i_apart _ _ _ _ HI).
  - intros a _ Hc. apply Ec in Hc as (_ & _ & Ha). by apply D2.
  - intros vp a Hn. right. split; [by apply D3|]. intros [(_ & <- & Ha) _]. by destruct Hn; apply D2.
Qed.

Context (iodone : nat -> biost D -> res (biost D)).

Lemma finish_inv mine V st st' : inv mine V st -> finish iodone st st' -> inv mine V st' /\ frame mine V st st' /\ S (length (moving st')) = length (moving st) /\ S (work st') = work st.
Proof.
  intros HI [i x m d st1 Hx Ht Hb]. pose proof (done_inv _ _ _ _ _ _ _ HI Hx Ht) as HI2. destruct (transferred_disk _ _ _ _ _ _ _ HI Hx Ht) as (D1 & D2 & D3).
  destruct Ht as [T1 T2 _ _]. assert (i ∈ moving st) as Hi by (rewrite T1; by left). pose proof (i_move _ _ _ _ HI) as Hnd. rewrite T1 in Hnd. apply NoDup_cons in Hnd as [Hni Hnd].
  destruct (i_buf _ _ _ _ HI i x Hx) as [B1 B2 B3 B4 B5 B6 B7 B8 B9 B10]. destruct (B8 Hi) as (Hv & Hd & Has). destruct (quiet_flags _ B5) as (Q1 & Q2 & Q3 & Q4).
  assert (i < length (bufs st))%nat as Hlt by (by eapply lookup_lt_Some). assert (bhas x B_DELWRI = false) as Hw by (destruct (bhas x B_DELWRI) eqn:W; [destruct (B7 eq_refl) as (_ & _ & Hn & _)|]; done).
  set (y := set_space (b_bufsize x) m x) in *. set (x' := bset B_DONE y). assert (same_block x x') as Es by (by apply (same_bset B_DONE y)).
  assert (exists z, bufs st1 = <[i := z]> (bufs st) /\ bdev st1 = d /\ bu_error st1 = bu_error st /\ inv mine V st1 /\ b_bufsize z = b_bufsize x /\ same_block x z /\ bhas z B_DONE = true /\ bhas z B_DELWRI = false) as (z & E1 & E2 & E3 & HI' & Hz & Hsb & Hzd & Hzw).
  { unfold biodone in Hb. rewrite (get_buf_Ok _ _ y) in Hb by (cbn; by apply list_lookup_insert_eq). revert Hb. kstep. change (bhas y B_DONE) with (bhas x B_DONE). rewrite Hd.
    rewrite (put_buf_Ok _ _ y) by (cbn; by apply list_lookup_insert_eq). kstep. unfold after_transfer. cbn [bufs set_bufs set_bdev]. rewrite list_insert_insert_eq.
    change (set_bufs _ _) with (done_with i x m d st). change (bhas y B_CALL) with (bhas x B_CALL). rewrite Q3. change (bhas y B_ASYNC) with (bhas x B_ASYNC).
    assert (bufs (done_with i x m d st) !! i = Some x') as Hx' by (cbn; by apply list_lookup_insert_eq).
    assert (bhas x' B_DONE = true /\ bhas x' B_DELWRI = bhas x B_DELWRI /\ bhas x' B_INVAL = bhas x B_INVAL) as (F1 & F2 & F3) by (subst x'; bflags; done).
    destruct (bhas x B_ASYNC) eqn:Ea; intros Hb.
    - assert (i ∉ mine) as Hm by (by apply Has). assert (i ∈ {[i]} ∪ mine) as Hu by set_solver. destruct (brelse_spec _ V _ _ _ HI2 Hu Hni Hx') as (s & Hs & HIs & Eb & _ & Ed & Ee).
      { intros _. right. intros a Ha. by apply D2. }
      rewrite Hb in Hs. injection Hs as <-. exists (bclr FREED x'). rewrite Eb, Ed, Ee. cbn [bufs set_bufs done_with set_bdev]. rewrite list_insert_insert_eq. bflags.
      split_and!; try done; [|by eapply same_trans; [exact Es|by apply same_bclr]|by rewrite F2]. by replace (({[i]} ∪ mine) ∖ {[i]}) with mine in HIs by set_solver.
    - assert (i ∈ mine) as Hm by (destruct (decide (i ∈ mine)) as [?|Hn]; [done|by apply Has in Hn]). replace ({[i]} ∪ mine) with mine in HI2 by set_solver.
      rewrite (upd_buf_Ok _ _ _ _ Hx') in Hb. revert Hb. kstep. intros [= <-]. exists (bclr B_WANTED x'). cbn [bufs set_bufs done_with set_bdev badd_ev bdev bu_error].
      rewrite list_insert_insert_eq. bflags. split_and!; try done; [|by eapply same_trans; [exact Es|by apply same_bclr]|by rewrite F2].
      eapply inv_ext; [..|apply (inv_reflag _ _ _ _ _ (without (b_flags x') B_WANTED) HI2 Hx')]; cbn [bufs set_bufs done_with set_bdev badd_ev bdev hashq freeq]; try done; [by rewrite list_insert_insert_eq|..].
      + intros g Hg. change (has _ g) with (bhas (bclr B_WANTED x') g). apply bhas_bclr_out. repeat (apply elem_of_cons in Hg as [-> |Hg]; [done|]). by apply elem_of_nil in Hg.
      + change (has _ ?g) with (bhas (bclr B_WANTED x') g). subst x' y. rewrite !bhas_lor. bflags. by rewrite Q1, Q2, Q3, Q4.
      + left. by apply (bhas_bclr_out B_WANTED B_ASYNC x'). }
  assert (S (work st1) = work st) as Hwk.
  { unfold work. rewrite E1, E2, T1. pose proof (sum_insert weight _ _ _ z Hx) as Hsum. unfold weight in Hsum at 2 4. rewrite Hw, Hzw in Hsum. cbn. lia. }
  split; [done|]. split; [|rewrite E2, T1; done]. split.
  - by rewrite E1, length_insert.
  - done.
  - intros vp a. rewrite E2. apply D1.
  - intros j w Hj. rewrite E1 in Hj. destruct (decide (j = i)) as [->|Hn]; [rewrite list_lookup_insert_eq in Hj by done; injection Hj as <-; eauto|rewrite list_lookup_insert_ne in Hj by done; eauto].
  - intros j w Hj Hw'. rewrite E1, E2. destruct (decide (j = i)) as [->|Hn].
    + rewrite Hx in Hw'. injection Hw' as <-. exists z. rewrite list_lookup_insert_eq by done. split; [done|]. right. split_and!; try done. intros a Ha. destruct Hsb as (S1 & S2 & S3 & _). unfold span in Ha. rewrite S1, E2. rewrite S2, S3 in Ha. by apply D2.
    + exists w. rewrite list_lookup_insert_ne by done. split; [done|]. left. split; [done|]. rewrite T1. set_solver.
Qed.

Lemma brelse_total st i x : bufs st !! i = Some x -> length (freeq st) = BQUEUES -> bhas x B_ERROR = false -> exists st', brelse i st = Ok st'.
Proof.
  intros Hx Hl He. unfold brelse. rewrite (get_buf_Ok _ _ _ Hx). kstep. set (st1 := if bhas x B_WANTED then _ else st). set (st2 := if fwant st1 then _ else st1). set (x1 := if bhas x B_NOCACHE then _ else x).
  assert (bufs st2 = bufs st /\ freeq st2 = freeq st) as (E1 & E3) by (subst st2 st1; destruct (bhas x B_WANTED); cbn; by destruct (fwant st)).
  rewrite (put_buf_Ok _ _ x) by (by rewrite E1). kstep. set (st3 := set_bufs _ st2).
  assert (bufs st3 !! i = Some x1) as H3 by (subst st3; cbn; apply list_lookup_insert_eq; rewrite E1; by eapply lookup_lt_Some).
  assert (bhas x1 B_ERROR = false) as -> by (subst x1; destruct (bhas x B_NOCACHE); by bflags). kstep. assert (length (freeq st3) = BQUEUES) as L4 by (subst st3; cbn; by rewrite E3).
  rewrite (get_buf_Ok _ _ _ H3). kstep.
  assert (forall f g, (f < 4)%nat -> exists st5, (q ← rd (freeq st3) f; l ← wr (freeq st3) f (g q); mret (set_freeq l st3)) = Ok st5 /\ bufs st5 = bufs st3) as Hq.
  { intros f g Hf. assert (is_Some (freeq st3 !! f)) as [q Eq] by (apply lookup_lt_is_Some; rewrite L4; done). rewrite (proj2 (rd_Ok _ _ _) Eq). kstep. unfold wr. rewrite decide_True by (by rewrite L4). kstep. by eexists. }
  assert (exists st5, (if b_bufsize x1 <=? 0 then binsheadfree i BQ_EMPTY st3 else if bhas x1 (Z.lor B_ERROR B_INVAL) then binsheadfree i BQ_AGE st3
    else binstailfree i (if bhas x1 B_LOCKED then BQ_LOCKED else if bhas x1 B_AGE then BQ_AGE else BQ_LRU) st3) = Ok st5 /\ bufs st5 = bufs st3) as (st5 & -> & E5).
  { destruct (_ <=? 0); [apply (Hq BQ_EMPTY (cons i)); cbv; lia|]. destruct (bhas x1 _); [apply (Hq BQ_AGE (cons i)); cbv; lia|].
    apply (Hq _ (fun q => q ++ [i])). destruct (bhas x1 B_LOCKED), (bhas x1 B_AGE); cbv; lia. }
  kstep. rewrite (upd_buf_Ok _ _ x1) by (by rewrite E5). by eexists.
Qed.

Lemma inv_ready mine V st i : inv mine V st -> i ∈ moving st -> ready iodone st i.
Proof.
  intros HI Hi. assert (is_Some (bufs st !! i)) as [x Hx] by (apply lookup_lt_is_Some, (i_known _ _ _ _ HI); tauto). exists x. split; [done|].
  destruct (i_buf _ _ _ _ HI i x Hx) as [B1 B2 B3 B4 B5 B6 B7 B8 B9 B10]. split; [lia|]. intros m d. destruct (B8 Hi) as (Hv & Hd & _). destruct (quiet_flags _ B5) as (Q1 & Q2 & Q3 & Q4).
  assert (i < length (bufs st))%nat as Hlt by (by eapply lookup_lt_Some). set (y := set_space (b_bufsize x) m x).
  unfold biodone. rewrite (get_buf_Ok _ _ y) by (cbn; by apply list_lookup_insert_eq). kstep. change (bhas y B_DONE) with (bhas x B_DONE). rewrite Hd.
  rewrite (put_buf_Ok _ _ y) by (cbn; by apply list_lookup_insert_eq). kstep. change (bhas y B_CALL) with (bhas x B_CALL). rewrite Q3. set (st1 := set_bufs _ _).
  assert (bufs st1 !! i = Some (bset B_DONE y)) as H1 by (subst st1; cbn; apply list_lookup_insert_eq; by rewrite length_insert).
  destruct (bhas y B_ASYNC); [by eapply brelse_total; [exact H1|apply HI|subst y; bflags]|]. rewrite (upd_buf_Ok _ _ _ _ H1). kstep. by eexists.
Qed.

Lemma finishes_inv mine V st st' : inv mine V st -> rtc (finish iodone) st st' -> inv mine V st' /\ frame mine V st st' /\ (length (moving st') <= length (moving st))%nat /\ (st' = st \/ (work st' < work st)%nat).
Proof.
  intros HI Hr. revert HI. induction Hr as [st|s1 s2 s3 H12 _ IH]; intros HI; [split_and!; auto; done|].
  destruct (finish_inv _ _ _ _ HI H12) as (HI2 & F2 & L2 & W2). destruct (IH HI2) as (HI3 & F3 & L3 & W3). split_and!; [done|by etransitivity|lia|right; destruct W3 as [-> |?]; lia].
Qed.

Section Sleep.
Context (strategy : nat -> biost D -> res (biost D)) (sleep : bchan -> biost D -> res (biost D)) (LAWS : drive_laws iodone strategy sleep).

(** While something moves, a sleep ends, with less moving. *)
Lemma sleep_spec mine V st c : inv mine V st -> moving st <> [] ->
  exists st', sleep c st = Ok st' /\ inv mine V st' /\ frame mine V st st' /\ (length (moving st') < length (moving st))%nat /\ (work st' < work st)%nat.
Proof.
  intros HI Hn. destruct (dl_sleep _ _ _ LAWS st c Hn) as (st' & Hs & Ht); [intros i Hi; by eapply inv_ready|]. exists st'. split; [done|].
  destruct Ht as [s1 s2 H12|s1 s2 s3 H12 H23].
  - destruct (finish_inv _ _ _ _ HI H12) as (? & ? & ? & ?). split_and!; [done..|lia|lia].
  - destruct (finish_inv _ _ _ _ HI H12) as (HI2 & F2 & L2 & W2). destruct (finishes_inv _ _ _ _ HI2 (tc_rtc _ _ H23)) as (? & F3 & ? & W3).
    split_and!; [done|by etransitivity|lia|destruct W3 as [-> |?]; lia].
Qed.

(** biowait() of a transfer of the process ends, the block being what the volume says. *)
Lemma biowait_spec fuel : forall mine V st i x, inv mine V st -> i ∈ mine -> bufs st !! i = Some x -> i ∈ moving st \/ bhas x B_DONE = true -> bu_error st = 0 ->
  (length (moving st) <= fuel)%nat -> exists st' x', biowait sleep fuel i st = Ok st' /\ inv mine V st' /\ bufs st' !! i = Some x' /\ bhas x' B_DONE = true /\ i ∉ moving st' /\
    frame (mine ∖ {[i]}) V st st' /\ same_block x x' /\
    (i ∈ moving st -> bhas x' B_DELWRI = false /\ on_disk V st' x' /\ (work st' < work st)%nat) /\ (i ∉ moving st -> x' = x) /\ (work st' <= work st)%nat.
Proof.
  induction fuel as [|fuel IH]; intros mine V st i x HI Hm Hx Hd He Hf; cbn [biowait]; rewrite (get_buf_Ok _ _ _ Hx); kstep; rewrite He.
  all: assert (i ∈ moving st -> bhas x B_DONE = false) as Hnd by (intros Hi; by apply (bo_moving _ _ _ _ _ (i_buf _ _ _ _ HI i x Hx))).
  all: destruct (bhas x B_DONE) eqn:E.
  1,3: assert (i ∉ moving st) as Hi by (intros Hi; by specialize (Hnd Hi)).
  1,2: destruct (quiet_flags _ (bo_quiet _ _ _ _ _ (i_buf _ _ _ _ HI i x Hx))) as (Q1 & _); unfold geterror; rewrite Q1; eexists (set_uerror 0 st), x.
  1,2: split_and!; try done; [by eapply inv_ext; [..|exact HI]|split; eauto 10].
  - destruct Hd as [Hi|?]; [|done]. destruct (moving st); [by apply elem_of_nil in Hi|cbn in Hf; lia].
  - destruct Hd as [Hi|?]; [|done]. assert (moving st <> []) as Hn by (intros En; rewrite En in Hi; by apply elem_of_nil in Hi).
    destruct (sleep_spec _ _ _ (CBuf i) HI Hn) as (s & -> & HI' & Fr & Hl & Hwk). kstep. destruct (fr_mine _ _ _ _ Fr i x Hm Hx) as (y & Hy & Hxy).
    destruct (IH mine V s i y HI' Hm Hy) as (st' & x' & -> & HI2 & Hx' & Hd' & Hm' & Fr' & Hs & Hw & Hk & Hle); [|by rewrite (fr_err _ _ _ _ Fr)|lia|].
    { destruct Hxy as [[-> Hiff]|(_ & _ & _ & ? & _)]; [left; tauto|by right]. }
    exists st', x'. split_and!; try done.
    + etransitivity; [|exact Fr']. eapply frame_mono; [|exact Fr]. set_solver.
    + destruct Hxy as [[-> _]|(_ & _ & S1 & _)]; [done|by eapply same_trans].
    + intros _. destruct Hxy as [[-> Hiff]|(_ & Hni & _ & _ & ? & Ho)]; [destruct Hw as (? & ? & ?); [tauto|]; split_and!; [done..|lia]|].
      rewrite (Hk Hni). split_and!; [done| |lia]. intros a Ha. by apply (fr_disk _ _ _ _ Fr'), Ho.
    + lia.
Qed.
End Sleep.
End Ops.
