(* ===== verification/BioWrite.v ===== *)
(** * The buffer cache: writing

    What a transfer started by the process does, and with it bwrite(), bawrite() and bdwrite(): after each of them the volume holds
    what the buffer held, whether it is already on the device or not. *)

From S2P Require Import Prelude Flags Bio BioInv BioOps.
From stdpp Require Import prelude list numbers strings functions relations gmap.
From Stdlib Require Import ZArith Lia.

Local Open Scope Z_scope.
Local Open Scope kern_scope.

(** The volumes with the block of [x] replaced by its memory. *)
Definition overlay (x : buf) (V : Z -> Z -> Z) (vp a : Z) : Z := if decide (covers x vp a) then byte_of x a else V vp a.

Section Write.
Context {D : Type} `{!Drive D}.
Context (iodone : nat -> biost D -> res (biost D)) (P : Z -> Z -> Z -> Prop).
Context (strategy : nat -> biost D -> res (biost D)) (sleep : bchan -> biost D -> res (biost D)) (LAWS : drive_laws iodone strategy sleep).
Implicit Type st : biost D.
Implicit Type mine : gset nat.

Notation moving st := (started (bdev st)).
Notation disk st := (platter (bdev st)).
Notation inv := (inv P).

#[local] Existing Instance frame_refl.
#[local] Existing Instance frame_trans.

(** ** Starting a transfer *)

(** The flags a transfer may be started with. *)
Record may_start (x : buf) (f : Z) : Prop := MayStart {
  ms_done : has f B_DONE = false; ms_delwri : has f B_DELWRI = false; ms_busy : has f B_BUSY = true; ms_inval : has f B_INVAL = bhas x B_INVAL; ms_quiet : has f BAD = false;
  ms_read : has f B_READ = true -> bhas x B_DELWRI = false /\ bhas x B_DONE = false
}.
Definition started_V (x : buf) (f : Z) (V : Z -> Z -> Z) : Z -> Z -> Z := if has f B_READ then V else overlay x V.
Definition left_mine (mine : gset nat) (i : nat) (f : Z) : gset nat := if has f B_ASYNC then mine ∖ {[i]} else mine.

Lemma start_inv mine V st i x f d : inv mine V st -> i ∈ mine -> i ∉ moving st -> bufs st !! i = Some x -> valid x -> may_start x f ->
  started d ≡ₚ i :: moving st -> (forall vp a, platter d vp a = disk st vp a) ->
  inv (left_mine mine i f) (started_V x f V) (set_bdev d (set_bufs (<[i := set_bflags f x]> (bufs st)) st)).
Proof.
  intros HI Hi Hm Hx Hv [F1 F2 F3 F4 F5 F6] Hd Hp. destruct (i_buf _ _ _ _ HI i x Hx) as [B1 B2 B3 B4 B5 B6 B7 B8 B9 B10].
  set (x' := set_bflags f x). assert (same_block x x') as Es by done. pose proof (same_valid _ _ Es) as Ev. pose proof (fun vp a => same_covers _ _ vp a Es) as Ec.
  assert (forall h, ~ on_queue (freeq st) h i) as Hno by (intros h Hh; destruct (proj1 (i_avail _ _ _ _ HI i) (ex_intro _ h Hh)) as (_ & Hn & _); done).
  assert (forall vp a, ~ covers x vp a -> started_V x f V vp a = V vp a) as HVn by (intros vp a Hn; unfold started_V, overlay; destruct (has f B_READ); [done|by rewrite decide_False]).
  eapply (inv_update P mine _ V _ st); try exact HI; try exact Hx; try done; try apply HI; cbn [bdev set_bufs set_bdev hashq freeq].
  - rewrite Hd. apply NoDup_cons. split; [done|apply HI].
  - intros j Hn. rewrite Hd. unfold left_mine. destruct (has f B_ASYNC); set_solver.
  - split; [intros [h Hh]; by destruct (Hno h)|]. rewrite Hd. set_solver.
  - split; cbn [bdev set_bufs set_bdev hashq freeq]; try done.
    + split; [intros _; right; rewrite Hd; set_solver|done].
    + by intros Hx'%Ev; apply B6.
    + change (bhas x' B_DELWRI) with (has f B_DELWRI). by rewrite F2.
    + intros _. split_and!; [by apply Ev|exact F1|]. change (bhas x' B_ASYNC) with (has f B_ASYNC). unfold left_mine. destruct (has f B_ASYNC); set_solver.
    + intros Hx'%Ev. by apply B9.
    + intros _ Hn. rewrite Hd in Hn. set_solver.
  - intros j y vp a Hn Hy Hc. assert (~ covers x vp a) as Hnc by (intros Hc'; apply Hn; by eapply (i_apart _ _ _ _ HI)). split; [by intros Hc'%Ec|by apply HVn].
  - intros a [Hd'|[_ Hr]] Hc; [change (has f B_DONE = true) in Hd'; by rewrite F1 in Hd'|]. apply Ec in Hc. change (bhas x' B_READ) with (has f B_READ) in Hr. unfold started_V, overlay. rewrite Hr. by rewrite decide_True.
  - intros vp a Hn. rewrite Hp in Hn. destruct (decide (covers x vp a)) as [Hc|Hc].
    + destruct (has f B_READ) eqn:Er.
      * exfalso. destruct (F6 eq_refl) as [W1 W2]. apply Hn. destruct Hc as (_ & <- & Ha). unfold started_V. rewrite Er. eapply not_ahead; eauto; [done|].
        intros [W|[[? _]|(_ & _ & W)]]; congruence.
      * left. split; [by apply Ec|]. right. left. cbn [bdev set_bdev]. split; [rewrite Hd; set_solver|done].
    + right. rewrite HVn in Hn by done. split; [done|]. by intros [? _].
Qed.

(** Frames across a state that differs in a buffer of its own. *)
Lemma frame_upd mine V st s1 st' i x x' : bufs st !! i = Some x -> i ∉ mine -> bufs s1 = <[i := x']> (bufs st) -> b_bufsize x' = b_bufsize x -> bu_error s1 = bu_error st ->
  (forall vp a, V vp a = disk st vp a -> V vp a = disk s1 vp a) -> (forall j, j ∈ mine -> j ∈ moving s1 <-> j ∈ moving st) -> frame mine V s1 st' -> frame mine V st st'.
Proof.
  intros Hx Hi Eb Es Ee Ed Em [A1 A2 A3 A4 A5]. assert (i < length (bufs st))%nat as Hlt by (by eapply lookup_lt_Some). split.
  - by rewrite A1, Eb, length_insert.
  - congruence.
  - auto.
  - intros j y Hy. destruct (A4 j y Hy) as (z & Hz & ->). rewrite Eb in Hz. destruct (decide (j = i)) as [->|Hn].
    + rewrite list_lookup_insert_eq in Hz by done. injection Hz as <-. eauto.
    + rewrite list_lookup_insert_ne in Hz by done. eauto.
  - intros j y Hj Hy. assert (j <> i) as Hn by (by intros ->). destruct (A5 j y Hj) as (z & Hz & Hyz); [by rewrite Eb, list_lookup_insert_ne by done|].
    exists z. split; [done|]. rewrite <- (Em j Hj). done.
Qed.

Lemma frame_ext mine V st st1 st' st1' : bufs st1 = bufs st -> bdev st1 = bdev st -> bu_error st1 = bu_error st -> bufs st1' = bufs st' -> bdev st1' = bdev st' -> bu_error st1' = bu_error st' ->
  frame mine V st st' -> frame mine V st1 st1'.
Proof. intros E1 E2 E3 E4 E5 E6 [A1 A2 A3 A4 A5]. split; unfold on_disk; rewrite ?E1, ?E2, ?E3, ?E4, ?E5, ?E6; done. Qed.

Lemma start_io_spec mine V st i x f : inv mine V st -> i ∈ mine -> i ∉ moving st -> bufs st !! i = Some x -> valid x -> may_start x f ->
  exists st2, strategy i (set_bufs (<[i := set_bflags f x]> (bufs st)) st) = Ok st2 /\ inv (left_mine mine i f) (started_V x f V) st2 /\
    frame (mine ∖ {[i]}) (started_V x f V) st st2 /\ (exists x2, bufs st2 !! i = Some x2 /\ (has f B_ASYNC = false -> same_block x x2 /\ (
      i ∈ moving st2 /\ x2 = set_bflags f x \/ i ∉ moving st2 /\ bhas x2 B_DONE = true /\ bhas x2 B_DELWRI = false /\ on_disk (started_V x f V) st2 x2 /\ (work st2 + weight x <= work st)%nat))) /\
    (work st2 + weight x <= work st + 1)%nat.
Proof.
  intros HI Hi Hm Hx Hv Hf. set (s0 := set_bufs _ st). assert (i ∉ moving s0) as Hm0 by done. destruct (dl_strategy _ _ _ LAWS s0 i Hm0) as (d & st2 & -> & Hd & Hp & Hr).
  pose proof (start_inv _ _ _ _ _ _ d HI Hi Hm Hx Hv Hf Hd Hp) as HI1. change (set_bdev d (set_bufs _ st)) with (set_bdev d s0) in HI1. set (s1 := set_bdev d s0) in *.
  destruct (finishes_inv _ _ _ _ _ _ HI1 Hr) as (HI2 & Fr & _ & Hw). exists st2. assert (i < length (bufs st))%nat as Hlt by (by eapply lookup_lt_Some).
  assert (work s1 + weight x = work st + 1)%nat as Hwk.
  { unfold work. subst s1 s0. cbn. rewrite Hd. pose proof (sum_insert weight _ _ _ (set_bflags f x) Hx) as Hs. unfold weight in Hs at 4. change (bhas (set_bflags f x) B_DELWRI) with (has f B_DELWRI) in Hs.
    rewrite (ms_delwri _ _ Hf) in Hs. cbn. lia. }
  assert (bufs s1 !! i = Some (set_bflags f x)) as Hx1 by (by apply list_lookup_insert_eq). assert (same_block x (set_bflags f x)) as Es by apply (same_flags x f), Hf.
  split_and!; [done|done| | |destruct Hw as [-> |?]; lia].
  - eapply (frame_upd _ _ _ s1 _ i x (set_bflags f x)); try done; [set_solver|intros vp a E; cbn; by rewrite Hp| |apply (frame_mono (left_mine mine i f)); [unfold left_mine; destruct (has f B_ASYNC); set_solver|exact Fr]].
    intros j Hj. cbn. rewrite Hd. set_solver.
  - destruct (has f B_ASYNC) eqn:Ea.
    + assert (is_Some (bufs st2 !! i)) as [x2 Hx2]; [|by exists x2]. apply lookup_lt_is_Some. rewrite (fr_len _ _ _ _ Fr). cbn. by rewrite length_insert.
    + unfold left_mine in Fr. rewrite Ea in Fr. destruct (fr_mine _ _ _ _ Fr i _ Hi Hx1) as (x2 & Hx2 & H2). exists x2. split; [done|]. intros _.
      assert (i ∈ moving s1) as Hi1 by (cbn; rewrite Hd; by left).
      destruct H2 as [[-> Hiff]|(_ & Hn2 & S2 & D2 & W2 & O2)]; [split; [done|left; split; [by apply Hiff|done]]|].
      split; [by eapply same_trans|]. right. split_and!; try done. destruct Hw as [-> |?]; [done|lia].
Qed.

Definition alike st st' : Prop := bufs st' = bufs st /\ hashq st' = hashq st /\ freeq st' = freeq st /\ bdev st' = bdev st /\ bu_error st' = bu_error st /\ v_count st' = v_count st.
Lemma alike_inv mine V st st' : alike st st' -> inv mine V st -> inv mine V st'.
Proof. intros (E1 & E2 & E3 & E4 & _ & E6). by apply inv_ext. Qed.
Lemma alike_frame mine V s1 st st' : alike st st' -> frame mine V s1 st -> frame mine V s1 st'.
Proof. intros (E1 & E2 & E3 & E4 & E5 & _). by apply frame_ext. Qed.
Lemma alike_frame_l mine V s1 st st' : alike st st' -> frame mine V st' s1 -> frame mine V st s1.
Proof. intros (E1 & E2 & E3 & E4 & E5 & _). by apply frame_ext. Qed.
Lemma alike_work st st' : alike st st' -> work st' = work st.
Proof. intros (E1 & E2 & E3 & E4 & E5). unfold work. by rewrite E1, E4. Qed.

(** A transfer the process waits for. *)
Lemma sync_io mine V st i x f fuel : inv mine V st -> i ∈ mine -> i ∉ moving st -> bufs st !! i = Some x -> valid x -> may_start x f -> has f B_ASYNC = false ->
  bu_error st = 0 -> (work st + 1 <= fuel)%nat -> exists st2, strategy i (set_bufs (<[i := set_bflags f x]> (bufs st)) st) = Ok st2 /\ forall s2, alike st2 s2 ->
    exists st3 x3, biowait sleep fuel i s2 = Ok st3 /\ inv mine (started_V x f V) st3 /\ bufs st3 !! i = Some x3 /\ bhas x3 B_DONE = true /\ i ∉ moving st3 /\
      same_block x x3 /\ bhas x3 B_DELWRI = false /\ on_disk (started_V x f V) st3 x3 /\ frame (mine ∖ {[i]}) (started_V x f V) st st3 /\ (work st3 + weight x <= work st)%nat.
Proof.
  intros HI Hi Hm Hx Hv Hf Ha He Hfu. destruct (start_io_spec _ _ _ _ _ _ HI Hi Hm Hx Hv Hf) as (st2 & -> & HI2 & Fr & (x2 & Hx2 & H2) & Hw). exists st2. split; [done|].
  intros s2 Hal. destruct (H2 Ha) as [Hs Hc]. unfold left_mine in *. rewrite Ha in *. pose proof (alike_inv _ _ _ _ Hal HI2) as HIs. pose proof (alike_frame _ _ _ _ _ Hal Fr) as Frs.
  pose proof (alike_work _ _ Hal) as Hws. destruct Hal as (E1 & E2 & E3 & E4 & E5 & _). assert (length (moving s2) <= work s2)%nat as Hlen by (unfold work; lia).
  destruct (biowait_spec P iodone _ _ LAWS fuel mine _ s2 i x2 HIs Hi ltac:(by rewrite E1)) as (st3 & x3 & -> & HI3 & Hx3 & Hd3 & Hm3 & Fr3 & Hs3 & Hw3 & Hk3 & Hle).
  { rewrite E4. destruct Hc as [[? _]|(_ & ? & _)]; auto. }
  { by rewrite (fr_err _ _ _ _ Frs). }
  { lia. }
  exists st3, x3. split_and!; try done.
  - by eapply same_trans.
  - destruct Hc as [[Hin _]|(Hn & _ & W2 & _)]; [by apply Hw3; rewrite E4|]. rewrite Hk3 by (by rewrite E4). done.
  - destruct Hc as [[Hin _]|(Hn & _ & _ & O2 & _)]; [by apply Hw3; rewrite E4|]. rewrite Hk3 by (by rewrite E4). intros a Hsp. apply (fr_disk _ _ _ _ Fr3). rewrite E4. by apply O2.
  - by etransitivity.
  - destruct Hc as [[Hin _]|(Hn & _ & _ & _ & ?)]; [|lia]. destruct Hw3 as (_ & _ & ?); [by rewrite E4|]. lia.
Qed.

(** ** Writing *)

Lemma overlay_same mine V st i x : inv mine V st -> bufs st !! i = Some x -> bhas x B_DONE = true -> forall vp a, overlay x V vp a = V vp a.
Proof. intros HI Hx Hd vp a. unfold overlay. destruct (decide _) as [(Hv & <- & Ha)|]; [|done]. eapply (i_mem _ _ _ _ HI); eauto. done. Qed.

Lemma write_flags mine V st i x : inv mine V st -> i ∈ mine -> bufs st !! i = Some x ->
  may_start x (b_flags (bclr (Z.lor B_READ (Z.lor B_DONE (Z.lor B_ERROR B_DELWRI))) x)).
Proof.
  intros HI Hi Hx. destruct (i_buf _ _ _ _ HI i x Hx) as [B1 B2 B3 B4 B5 B6 B7 B8 B9 B10]. destruct (quiet_flags _ B5) as (Q1 & Q2 & Q3 & Q4). set (F := Z.lor B_READ _).
  assert (forall g, has (b_flags (bclr F x)) g = bhas (bclr F x) g) as Eh by done. subst F. split; rewrite ?Eh, ?bhas_lor; bflags; try done.
  - apply B1. by left.
  - by rewrite Q2, Q3, Q4.
Qed.

(** bwrite() of a buffer of the process, waited for or not: the buffer is given up, and the volume has what was in it. *)
Lemma bwrite_spec mine V st i x fuel : inv mine V st -> i ∈ mine -> i ∉ moving st -> bufs st !! i = Some x -> valid x -> bu_error st = 0 -> (work st + 1 <= fuel)%nat ->
  exists st', bwrite strategy sleep fuel i st = Ok st' /\ inv (mine ∖ {[i]}) (overlay x V) st' /\ frame (mine ∖ {[i]}) (overlay x V) st st' /\
    (work st' + weight x <= work st + if bhas x B_ASYNC then 1 else 0)%nat /\ (bhas x B_ASYNC = false -> forall a, span x a -> overlay x V (b_vp x) a = disk st' (b_vp x) a).
Proof.
  intros HI Hi Hm Hx Hv He Hfu. pose proof (write_flags _ _ _ _ _ HI Hi Hx) as Hf. set (f := b_flags (bclr _ x)) in Hf. destruct (i_buf _ _ _ _ HI i x Hx) as [B1 B2 B3 B4 B5 B6 B7 B8 B9 B10].
  unfold bwrite. rewrite (get_buf_Ok _ _ _ Hx). kstep. rewrite (put_buf_Ok _ _ _ _ Hx). kstep. replace (b_bufsize x <? b_bcount x) with false by (symmetry; apply Z.ltb_ge; lia).
  set (s0 := if bhas x B_DELWRI then _ else _). set (st0 := if bhas x B_DELWRI then st else pay_write st).
  assert (s0 = set_bufs (<[i := set_bflags f x]> (bufs st0)) st0) as -> by (subst s0 st0; by destruct (bhas x B_DELWRI)).
  assert (alike st st0) as Hal by (subst st0; by destruct (bhas x B_DELWRI)). pose proof (alike_inv _ _ _ _ Hal HI) as HI0. pose proof (alike_work _ _ Hal) as Hw0.
  destruct Hal as (E1 & E2 & E3 & E4 & E5 & _). assert (bufs st0 !! i = Some x) as Hx0 by (by rewrite E1). assert (i ∉ moving st0) as Hm0 by (by rewrite E4).
  assert (started_V x f V = overlay x V) as EV. { unfold started_V. change (has f B_READ) with (bhas (bclr (Z.lor B_READ (Z.lor B_DONE (Z.lor B_ERROR B_DELWRI))) x) B_READ). by rewrite bhas_bclr_in. }
  assert (has f B_ASYNC = bhas x B_ASYNC) as EA. { change (has f B_ASYNC) with (bhas (bclr (Z.lor B_READ (Z.lor B_DONE (Z.lor B_ERROR B_DELWRI))) x) B_ASYNC). by rewrite bhas_bclr_out. }
  assert (forall s, frame (mine ∖ {[i]}) (overlay x V) st0 s -> frame (mine ∖ {[i]}) (overlay x V) st s) as Hfr by (intros s; by apply frame_ext).
  destruct (bhas x B_ASYNC) eqn:Ea; cbn [negb].
  - destruct (start_io_spec _ _ _ _ _ _ HI0 Hi Hm0 Hx0 Hv Hf) as (st2 & -> & HI2 & Fr & (x2 & Hx2 & _) & Hw). kstep. unfold left_mine in HI2. rewrite EA in HI2. rewrite EV in *.
    destruct (bhas x B_DELWRI) eqn:Ew; [|exists st2; split; [done|]; split; [done|]; split; [by apply Hfr|]; split; [lia|done]].
    rewrite (upd_buf_Ok _ _ x2 _ Hx2). eexists. split; [done|]. destruct (i_buf _ _ _ _ HI2 i x2 Hx2) as [C1 C2 C3 C4 C5 C6 C7 C8 C9 C10].
    assert (forall g, has (with_bits (b_flags x2) B_AGE) g = bhas (bset B_AGE x2) g) as Eh by done. split_and!.
    + apply inv_reflag; try done; [| | |].
      * intros g Hg. rewrite Eh. assert (has B_AGE g = false) as Eg by (repeat (apply elem_of_cons in Hg as [-> |Hg]; [done|]); by apply elem_of_nil in Hg). by rewrite bhas_bset, Eg, orb_false_r.
      * rewrite Eh. rewrite !bhas_lor in *. bflags. done.
      * intros _. rewrite !Eh. by bflags.
      * left. rewrite !Eh. by bflags.
    + apply Hfr. etransitivity; [exact Fr|]. eapply (frame_upd _ _ _ (set_bufs (<[i := bset B_AGE x2]> (bufs st2)) st2) _ i x2 (bset B_AGE x2)); try done. set_solver.
    + pose proof (work_upd st2 i x2 (bset B_AGE x2) Hx2) as Hu. unfold weight in Hu at 1 2. rewrite bhas_bset in Hu. change (has B_AGE B_DELWRI) with false in Hu. rewrite orb_false_r in Hu. lia.
    + done.
  - destruct (sync_io _ _ _ _ _ _ fuel HI0 Hi Hm0 Hx0 Hv Hf EA ltac:(congruence) ltac:(lia)) as (st2 & -> & Hio). kstep.
    destruct (Hio st2) as (st3 & x3 & -> & HI3 & Hx3 & Hd3 & Hm3 & Hs3 & Hw3 & Ho3 & Fr3 & Hwk); [done|]. kstep. rewrite EV in *.
    destruct (brelse_spec _ _ _ _ _ _ HI3 Hi Hm3 Hx3) as (st' & -> & HI' & Eb & _ & Ed & Ee); [by right|]. exists st'. split; [done|]. split; [done|]. split; [|split].
    + apply Hfr. etransitivity; [exact Fr3|]. eapply (frame_upd _ _ _ st' _ i x3 (bclr FREED x3)); try done; [set_solver|by rewrite Ed|by rewrite Ed].
    + unfold work in *. rewrite Eb, Ed. pose proof (sum_insert weight _ _ _ (bclr FREED x3) Hx3) as Hu. unfold weight in Hu at 2 4. rewrite bhas_bclr_out in Hu by done. lia.
    + intros _ a Ha. rewrite Ed. destruct Hs3 as (S1 & S2 & S3 & _). unfold on_disk, span in Ho3. rewrite S1, S2, S3 in Ho3. by apply Ho3.
Qed.
End Write.

(** ** The buffer cache: a buffer in the hands of the process

    What a process may do to a buffer it holds: fill it, give it back to be written later, give it another
    block; and getnewbuf(), which finds one, writing out what is in its way. *)

Lemma on_queue_unique qs h h' i : NoDup (concat qs) -> on_queue qs h i -> on_queue qs h' i -> h = h'.
Proof.
  revert h h'. induction qs as [|q qs IH]; intros h h' Hn (q1 & E1 & I1) (q2 & E2 & I2); [done|]. cbn in Hn. apply NoDup_app in Hn as (_ & N2 & N3).
  assert (forall h q', qs !! h = Some q' -> i ∈ q' -> i ∈ concat qs) as Hc by (intros k q' ? ?; apply elem_of_concat; by exists k, q').
  destruct h as [|h], h' as [|h']; cbn in E1, E2; simplify_eq; [done|exfalso; eapply N2; eauto|exfalso; eapply N2; eauto|]. f_equal. apply IH; [done|by exists q1|by exists q2].
Qed.

Section Hold.
Context {D : Type} `{!Drive D}.
Implicit Type st : biost D.
Implicit Type mine : gset nat.

Notation moving st := (started (bdev st)).
Notation disk st := (platter (bdev st)).

#[local] Existing Instance frame_refl.
#[local] Existing Instance frame_trans.

Context (P : Z -> Z -> Z -> Prop).
Notation inv := (inv P).

Lemma not_free mine V st i h : inv mine V st -> i ∈ mine -> ~ on_queue (freeq st) h i.
Proof. intros HI Hi Hh. by destruct (proj1 (i_avail _ _ _ _ HI i) (ex_intro _ h Hh)) as (_ & ? & _). Qed.

(** ** The same block, other flags or bytes *)

Lemma hold_inv mine V V' st i x x' : inv mine V st -> i ∈ mine -> i ∉ moving st -> bufs st !! i = Some x -> same_block x x' ->
  bhas x' B_BUSY = true -> bhas x' BAD = false -> b_bufsize x' = b_bufsize x -> length (b_mem x') = length (b_mem x) ->
  (bhas x' B_DELWRI = true -> valid x /\ bhas x' B_DONE = true /\ P (b_vp x) (b_blkno x) (b_bcount x)) ->
  (forall vp a, ~ covers x vp a -> V' vp a = V vp a) -> (bhas x' B_DONE = true -> forall vp a, covers x vp a -> byte_of x' a = V' vp a) ->
  (forall vp a, covers x vp a -> V' vp a <> disk st vp a -> bhas x' B_DONE = true \/ bhas x' B_DELWRI = true) ->
  inv mine V' (set_bufs (<[i := x']> (bufs st)) st).
Proof.
  intros HI Hi Hm Hx Es Fb Fq Esz El Fw HV Hmem Hah. destruct (i_buf _ _ _ _ HI i x Hx) as [B1 B2 B3 B4 B5 B6 B7 B8 B9 B10].
  pose proof (same_valid _ _ Es) as Ev. pose proof (fun vp a => same_covers _ _ vp a Es) as Ec. pose proof Es as (S1 & S2 & S3 & S4).
  eapply (inv_update P mine mine V V' st); try exact HI; try exact Hx; try done; try apply HI; cbn [bdev set_bufs hashq freeq].
  - split; [intros [h Hh]; by destruct (not_free _ _ _ _ h HI Hi)|tauto].
  - split; cbn [bdev set_bufs hashq freeq]; rewrite ?S1, ?S2, ?S3, ?Esz, ?El, ?Ev; try done.
    + split; [by left|done].
    + intros W. destruct (Fw W) as (? & ? & ?). done.
  - intros j y vp a Hn Hy Hc. assert (~ covers x vp a) as Hnc by (intros Hc'; apply Hn; by eapply (i_apart _ _ _ _ HI)). split; [by rewrite Ec|by apply HV].
  - intros a [Hd|[? _]] Hc; [|done]. apply Hmem; [done|]. by apply Ec.
  - intros vp a Hn. destruct (decide (covers x vp a)) as [Hc|Hc].
    + left. split; [by apply Ec|]. destruct (Hah vp a Hc Hn) as [Hd|Hw]; [right; right; done|by left].
    + right. rewrite HV in Hn by done. split; [done|]. by intros [? _].
  - intros vp _. unfold use. cbn. by rewrite S1.
Qed.

(** The process writes into the memory of its buffer: what a buffer that is done holds, the volume has. *)
Lemma scribble_inv mine V st i x m : inv mine V st -> i ∈ mine -> i ∉ moving st -> bufs st !! i = Some x -> length m = length (b_mem x) ->
  let x' := set_space (b_bufsize x) m x in inv mine (if bhas x B_DONE then overlay x' V else V) (set_bufs (<[i := x']> (bufs st)) st).
Proof.
  intros HI Hi Hm Hx Hl x'. destruct (i_buf _ _ _ _ HI i x Hx) as [B1 B2 B3 B4 B5 B6 B7 B8 B9 B10].
  assert (forall vp a, covers x' vp a <-> covers x vp a) as Ec by (intros; by apply same_covers).
  eapply (hold_inv mine V); try exact HI; try exact Hx; try done.
  - apply B1. by left.
  - intros W. destruct (B7 W) as (? & ? & _ & ?). done.
  - intros vp a Hn. destruct (bhas x B_DONE); [|done]. unfold overlay. by rewrite decide_False by (by rewrite Ec).
  - intros Hd vp a Hc. change (bhas x' B_DONE) with (bhas x B_DONE) in Hd. rewrite Hd. unfold overlay. by rewrite decide_True by (by apply Ec).
  - intros vp a Hc Hn. change (bhas x' B_DONE) with (bhas x B_DONE). change (bhas x' B_DELWRI) with (bhas x B_DELWRI). destruct (bhas x B_DONE) eqn:Ed; [by left|right].
    destruct (bhas x B_DELWRI) eqn:Ew; [done|]. destruct Hn. destruct Hc as (Hv & <- & Ha). eapply not_ahead; eauto; [done|]. intros [?|[[? _]|(_ & _ & ?)]]; congruence.
Qed.

(** bdwrite(): the volume has what was in the buffer. *)
Lemma bdwrite_spec mine V st i x : inv mine V st -> i ∈ mine -> i ∉ moving st -> bufs st !! i = Some x -> valid x -> P (b_vp x) (b_blkno x) (b_bcount x) ->
  exists st', bdwrite i st = Ok st' /\ inv (mine ∖ {[i]}) (overlay x V) st' /\ frame (mine ∖ {[i]}) (overlay x V) st st' /\ (work st' <= work st + 2)%nat.
Proof.
  intros HI Hi Hm Hx Hv HP. destruct (i_buf _ _ _ _ HI i x Hx) as [B1 B2 B3 B4 B5 B6 B7 B8 B9 B10]. unfold bdwrite. rewrite (get_buf_Ok _ _ _ Hx). kstep.
  set (st0 := if bhas x B_DELWRI then st else pay_write st). set (x' := bset (Z.lor B_DELWRI B_DONE) x).
  assert (bufs st0 = bufs st /\ hashq st0 = hashq st /\ freeq st0 = freeq st /\ bdev st0 = bdev st /\ bu_error st0 = bu_error st /\ v_count st0 = v_count st) as (E1 & E2 & E3 & E4 & E5 & E6) by (subst st0; by destruct (bhas x B_DELWRI)).
  rewrite (put_buf_Ok _ _ x) by (by rewrite E1). kstep. assert (inv mine V st0) as HI0 by (by eapply inv_ext).
  assert (bhas x' B_DELWRI = true /\ bhas x' B_DONE = true /\ bhas x' B_BUSY = true /\ bhas x' BAD = false) as (F1 & F2 & F3 & F4).
  { subst x'. destruct (quiet_flags _ B5) as (Q1 & Q2 & Q3 & Q4). rewrite !bhas_lor. bflags. split_and!; try done; [apply B1; by left|by rewrite Q1, Q2, Q3, Q4]. }
  assert (same_block x x') as Es by (by apply same_bset).
  assert (inv mine (overlay x V) (set_bufs (<[i := x']> (bufs st0)) st0)) as HI1.
  { eapply (hold_inv mine V); try exact HI0; try done; [by rewrite E4|by rewrite E1|..].
    - intros vp a Hn. unfold overlay. by rewrite decide_False.
    - intros _ vp a Hc. unfold overlay. by rewrite decide_True.
    - by left. }
  destruct (brelse_spec P mine (overlay x V) (set_bufs (<[i := x']> (bufs st0)) st0) i x') as (st' & -> & HI' & Eb & _ & Ed & Ee); try done.
  - cbn. by rewrite E4.
  - cbn. apply list_lookup_insert_eq. rewrite E1. by eapply lookup_lt_Some.
  - intros _. by left.
  - cbn [bufs set_bufs bdev bu_error] in *. rewrite E1, list_insert_insert_eq in Eb. exists st'. split_and!; try done.
    + apply (frame_upd _ _ _ st' _ i x (bclr FREED x')); try done; [set_solver|congruence| |]; by rewrite Ed, E4.
    + unfold work. rewrite Eb, Ed, E4. pose proof (sum_insert weight _ _ _ (bclr FREED x') Hx) as Hu. unfold weight in Hu at 2 4. destruct (bhas x B_DELWRI), (bhas (bclr _ _) _); lia.
Qed.

(** ** Another block *)

(** A buffer without a block stands for nothing, whatever its chain. *)
Lemma drop_inv mine V st i x x' hq vc : inv mine V st -> i ∈ mine -> i ∉ moving st -> bufs st !! i = Some x -> on_disk V st x \/ ~ valid x ->
  (forall vp a, ~ covers x' vp a) -> bhas x' B_BUSY = true -> bhas x' BAD = false -> bhas x' B_DELWRI = false ->
  b_bufsize x' = b_bufsize x -> b_mem x' = b_mem x -> 0 <= b_bcount x' <= b_bufsize x ->
  length hq = length (hashq st) -> NoDup (concat hq) -> (forall h j, j <> i -> on_queue hq h j <-> on_queue (hashq st) h j) -> i ∈ concat hq ->
  (valid x' -> aligned (b_blkno x') (b_bcount x') /\ on_queue hq (BUFHASH (b_vp x') (b_blkno x')) i) ->
  (forall vp, vp <> 0 -> vc vp - Z.of_nat (use vp x') = v_count st vp - Z.of_nat (use vp x)) ->
  inv mine V (set_vcount vc (set_bufs (<[i := x']> (bufs st)) (set_hashq hq st))).
Proof.
  intros HI Hi Hm Hx Hs Hnc Fb Fq Fw Esz Em Ec Elh Hnh Hqh Hih Hpl Hvc. destruct (i_buf _ _ _ _ HI i x Hx) as [B1 B2 B3 B4 B5 B6 B7 B8 B9 B10].
  eapply (inv_update P mine mine V V st); try exact HI; try exact Hx; try done; try apply HI; cbn [bdev set_bufs set_hashq set_vcount hashq freeq].
  - intros h j Hn. split; [by apply Hqh|done].
  - intros j Hj. destruct (decide (j = i)) as [->|Hn]; [done|]. pose proof (i_hashed _ _ _ _ HI j Hj) as Hh. rewrite elem_of_concat in *. destruct Hh as [h Hh]. exists h. by apply Hqh.
  - split; [intros [h Hh]; by destruct (not_free _ _ _ _ h HI Hi)|tauto].
  - split; cbn [bdev set_bufs set_hashq set_vcount hashq freeq]; rewrite ?Esz, ?Em, ?Fw; try done; [split; [by left|done]|]. intros _. eapply mine_size; eauto.
  - intros a _ Hc. by apply Hnc in Hc.
  - intros vp a Hn. right. split; [done|]. intros [(Hv & <- & Ha) _]. destruct Hs as [Hs|Hs]; [|done]. by destruct Hn; apply Hs.
Qed.
End Hold.
