(* ===== verification/BioGet.v ===== *)
(** * The buffer cache: getnewbuf() and brealloc()

    Finding a buffer that can be reused, whatever has to be written first; giving a block the size that is asked for, and
    getting the buffers out of the way that have parts of it.  All loops end: each turn there is less left to write. *)

From S2P Require Import Prelude Flags Bio BioInv BioOps BioWrite.
From stdpp Require Import prelude list numbers strings functions relations gmap.
From Stdlib Require Import ZArith Lia.

Local Open Scope Z_scope.
Local Open Scope kern_scope.

Section Get.
Context {D : Type} `{!Drive D}.
Implicit Type st : biost D.
Implicit Type mine : gset nat.

Notation moving st := (started (bdev st)).
Notation disk st := (platter (bdev st)).

#[local] Existing Instance frame_refl.
#[local] Existing Instance frame_trans.

Lemma uses_length vp l : (uses vp l <= length l)%nat.
Proof. induction l as [|x l IH]; [done|]. unfold uses in *. cbn. unfold use at 1. destruct (_ =? _); lia. Qed.

Lemma use_bound vp l i x : l !! i = Some x -> b_vp x = vp -> (0 < uses vp l <= length l)%nat.
Proof.
  intros Hx E. split.
  - pose proof (sum_insert (use vp) _ _ _ (set_bvp (vp + 1) x) Hx) as Hs. unfold use in Hs at 2 4. cbn in Hs. rewrite E, Z.eqb_refl, (proj2 (Z.eqb_neq _ _)) in Hs by lia. unfold uses. lia.
  - apply uses_length.
Qed.

Lemma unused vp l i x : l !! i = Some x -> b_vp x <> vp -> (uses vp l < length l)%nat.
Proof.
  intros Hx E. pose proof (sum_insert (use vp) _ _ _ (set_bvp vp x) Hx) as Hs. unfold use in Hs at 2 4. cbn in Hs. rewrite Z.eqb_refl, (proj2 (Z.eqb_neq _ _)) in Hs by done.
  pose proof (uses_length vp (<[i := set_bvp vp x]> l)) as Hl. rewrite length_insert in Hl. unfold uses in *. lia.
Qed.

Lemma brelvp_spec st i x : bufs st !! i = Some x -> (forall vp, vp <> 0 -> counted st vp) -> exists st', brelvp i st = Ok st' /\ bufs st' = <[i := set_bvp 0 x]> (bufs st) /\
  hashq st' = hashq st /\ freeq st' = freeq st /\ bdev st' = bdev st /\ bu_error st' = bu_error st /\ (forall vp, vp <> 0 -> v_count st' vp = v_count st vp - Z.of_nat (use vp x)).
Proof.
  intros Hx Hc. unfold brelvp. rewrite (get_buf_Ok _ _ _ Hx). kstep. destruct (Z.eqb_spec (b_vp x) 0) as [E|E].
  - exists st. split_and!; try done.
    + rewrite list_insert_id; [done|]. rewrite Hx. f_equal. destruct x. cbn in E. by subst.
    + intros vp Hn. unfold use. rewrite E, (proj2 (Z.eqb_neq 0 vp)) by done. lia.
  - rewrite (put_buf_Ok _ _ _ _ Hx). kstep. unfold VN_RELE. cbn [v_count set_bufs]. destruct (Hc _ E) as [C1 C2]. pose proof (use_bound (b_vp x) _ _ _ Hx eq_refl) as [Hu Hl].
    rewrite (proj2 (Z.eqb_neq _ 0)) by lia. kstep. eexists. split; [done|].
    assert (forall vp, vp <> 0 -> (<[b_vp x := u16 (v_count st (b_vp x) - 1)]> (v_count st)) vp = v_count st vp - Z.of_nat (use vp x)) as Hv.
    { intros vp Hn. unfold use. destruct (Z.eqb_spec (b_vp x) vp) as [<-|Hne]; [rewrite fn_lookup_insert, wrapu_small; lia|rewrite fn_lookup_insert_ne by done; lia]. }
    by destruct (_ =? 0).
Qed.

Lemma frame_V mine V V' st st' : (forall vp a, V' vp a = V vp a) -> frame mine V st st' -> frame mine V' st st'.
Proof.
  intros E [A1 A2 A3 A4 A5]. split; try done; [intros vp a; rewrite E; auto|]. intros j x Hj Hx. destruct (A5 j x Hj Hx) as (x' & Hx' & Hc). exists x'. split; [done|].
  destruct Hc as [?|(? & ? & ? & ? & ? & O)]; [by left|right]. split_and!; try done. intros a Ha. rewrite E. by apply O.
Qed.

Lemma frame_spare mine V st st' k y : frame mine V st st' -> (k < length (bufs st))%nat -> bufs st !! k = Some y -> exists y', bufs st' !! k = Some y' /\ b_bufsize y' = b_bufsize y.
Proof.
  intros Fr Hk Hy. assert (is_Some (bufs st' !! k)) as [y' Hy'] by (apply lookup_lt_is_Some; by rewrite (fr_len _ _ _ _ Fr)). exists y'. split; [done|].
  destruct (fr_size _ _ _ _ Fr _ _ Hy') as (z & Hz & ->). by simplify_eq.
Qed.

(** There is a buffer with memory that the process does not hold. *)
Definition spare mine st : Prop := exists k y, k ∉ mine /\ bufs st !! k = Some y /\ b_bufsize y = MAXBSIZE.

Lemma spare_frame mine mine' V st st' : frame mine' V st st' -> spare mine st -> spare mine st'.
Proof.
  intros Fr (k & y & Hk & Hy & Hs). destruct (frame_spare _ _ _ _ _ _ Fr (lookup_lt_Some _ _ _ Hy) Hy) as (y' & Hy' & E). exists k, y'. split_and!; [done..|congruence].
Qed.

Context (iodone : nat -> biost D -> res (biost D)) (P : Z -> Z -> Z -> Prop).
Context (strategy : nat -> biost D -> res (biost D)) (sleep : bchan -> biost D -> res (biost D)) (LAWS : drive_laws iodone strategy sleep).
Notation inv := (inv P).

(** ** What is free *)

Lemma free_choice_Some st i : free_choice st = Some i -> exists h, on_queue (freeq st) h i /\ h <> BQ_EMPTY.
Proof.
  unfold free_choice. destruct (freeq st !! BQ_AGE) as [[|k q]|] eqn:E1, (freeq st !! BQ_LRU) as [[|k' q']|] eqn:E2; intros [= ->];
    first [exists BQ_AGE; split; [eexists; split; [exact E1|by left]|done] | exists BQ_LRU; split; [eexists; split; [exact E2|by left]|done]].
Qed.

Lemma free_choice_None mine V st : inv mine V st -> free_choice st = None -> spare mine st -> moving st <> [].
Proof.
  intros HI Hn (k & y & Hk & Hy & Hs) He. destruct (i_buf _ _ _ _ HI k y Hy) as [B1 B2 _ _ _ _ _ _ _ _].
  destruct (proj2 (i_avail _ _ _ _ HI k)) as (h & q & Hq & Hin); [split_and!; [by eapply lookup_lt_Some|done|rewrite He; apply not_elem_of_nil]|].
  assert (h < 4)%nat as Hh by (rewrite <- (i_frees _ _ _ _ HI : _ = 4%nat); by eapply lookup_lt_Some).
  assert (is_Some (freeq st !! BQ_AGE) /\ is_Some (freeq st !! BQ_LRU)) as [[qa Ea] [ql El]] by (split; apply lookup_lt_is_Some; rewrite (i_frees _ _ _ _ HI); cbv; lia).
  unfold free_choice in Hn. rewrite Ea, El in Hn. destruct qa; [|done]. destruct ql; [|done].
  destruct h as [|[|[|[|h]]]]; [|change 1%nat with BQ_LRU in Hq; rewrite El in Hq|change 2%nat with BQ_AGE in Hq; rewrite Ea in Hq| |lia].
  - apply (i_locked _ _ _ _ HI k). by exists q.
  - injection Hq as <-. by apply elem_of_nil in Hin.
  - injection Hq as <-. by apply elem_of_nil in Hin.
  - destruct B2 as [[_ B2]|[B2 _]]; [apply B2; by exists q|]. rewrite Hs in B2. done.
Qed.

Lemma free_size mine V st i x h : inv mine V st -> bufs st !! i = Some x -> on_queue (freeq st) h i -> h <> BQ_EMPTY -> b_bufsize x = MAXBSIZE.
Proof.
  intros HI Hx Hf Hh. destruct (bo_size _ _ _ _ _ (i_buf _ _ _ _ HI i x Hx)) as [[? _]|[_ Hq]]; [done|]. destruct Hh. eapply on_queue_unique; eauto. apply HI.
Qed.

Lemma lookup_took st i x : bufs st !! i = Some x -> bufs (took i x st) !! i = Some (bset B_BUSY x).
Proof. intros Hx. cbn. apply list_lookup_insert_eq. by eapply lookup_lt_Some. Qed.

Lemma work_took st i x : bufs st !! i = Some x -> work (took i x st) = work st.
Proof.
  intros Hx. pose proof (sum_insert weight _ _ _ (bset B_BUSY x) Hx) as Hu. unfold weight in Hu at 2 4. rewrite bhas_bset in Hu. change (has B_BUSY B_DELWRI) with false in Hu. rewrite orb_false_r in Hu.
  unfold work. cbn. lia.
Qed.

(** A free buffer that is not to be written is on the device. *)
Lemma free_on_disk mine V st i x h : inv mine V st -> bufs st !! i = Some x -> on_queue (freeq st) h i -> bhas x B_DELWRI = false -> on_disk V st x \/ ~ valid x.
Proof.
  intros HI Hx Hf Hw. destruct (decide (valid x)) as [Hv|]; [left|by right]. destruct (proj1 (i_avail _ _ _ _ HI i) (ex_intro _ h Hf)) as (_ & Hm & Hmv).
  intros a Ha. eapply not_ahead; eauto; [done|]. intros [?|[[? _]|(? & _)]]; congruence.
Qed.

Lemma reflag_inv mine V st i x f : inv mine V st -> bufs st !! i = Some x -> i ∈ mine -> i ∉ moving st -> Z.land f (Z.lor B_DONE (Z.lor B_BUSY (Z.lor B_DELWRI (Z.lor B_INVAL BAD)))) = 0 ->
  inv mine V (set_bufs (<[i := bset f x]> (bufs st)) st) /\ work (set_bufs (<[i := bset f x]> (bufs st)) st) = work st.
Proof.
  intros HI Hx Hi Hm Hf. assert (forall g, Z.land g (Z.lor B_DONE (Z.lor B_BUSY (Z.lor B_DELWRI (Z.lor B_INVAL BAD)))) = g -> bhas (bset f x) g = bhas x g) as Hg.
  { intros g Hg. rewrite bhas_bset. replace (has f g) with false; [by rewrite orb_false_r|]. symmetry. apply has_false. rewrite <- Hg, (Z.land_comm g), Z.land_assoc, Hf. apply Z.land_0_l. }
  split.
  - apply inv_reflag; [done|done| | |done|by right].
    + intros g Hin. change (has _ g) with (bhas (bset f x) g). apply Hg. repeat (apply elem_of_cons in Hin as [-> |Hin]; [done|]). by apply elem_of_nil in Hin.
    + change (has _ ?g) with (bhas (bset f x) g). rewrite Hg by done. by apply (i_buf _ _ _ _ HI i x Hx).
  - pose proof (work_upd st i x (bset f x) Hx) as Hu. unfold weight in Hu. rewrite (Hg B_DELWRI) in Hu by done. lia.
Qed.

(** A free buffer that is written behind is written out: the rest of getnewbuf(), push_out() and the loops of brealloc() and blkflush(). *)
Lemma push_spec mine V st i x h f fuel : inv mine V st -> bufs st !! i = Some x -> on_queue (freeq st) h i -> h <> BQ_EMPTY -> bhas x B_DELWRI = true ->
  f = 0 \/ f = B_ASYNC -> bu_error st = 0 -> (work st + 1 <= fuel)%nat ->
  exists st', bwrite strategy sleep fuel i (set_bufs (<[i := bset f (bset B_BUSY x)]> (bufs (took i x st))) (took i x st)) = Ok st' /\ inv mine V st' /\ frame mine V st st' /\ (work st' < work st)%nat /\
    (f = 0 -> bhas x B_ASYNC = false -> (work st' + 2 <= work st)%nat).
Proof.
  intros HI Hx Hf Hh Hw Hff He Hfu. destruct (proj1 (i_avail _ _ _ _ HI i) (ex_intro _ h Hf)) as (Hlt & Hm & Hmv). pose proof (free_size _ _ _ _ _ _ HI Hx Hf Hh) as Hsz.
  pose proof (took_inv _ _ _ _ _ _ _ HI Hx Hf Hsz) as HI1. pose proof (lookup_took _ _ _ Hx) as Hx1. set (x1 := bset B_BUSY x) in *. assert (i ∈ {[i]} ∪ mine) as Hin by set_solver.
  destruct (reflag_inv _ _ _ i x1 f HI1 Hx1 Hin Hmv) as [HI2 Hw2]; [by destruct Hff as [-> | ->]|]. set (s2 := set_bufs _ (took i x st)) in *. set (x2 := bset f x1) in *.
  assert (bufs s2 !! i = Some x2) as Hx2 by (subst s2; cbn; apply list_lookup_insert_eq; by rewrite length_insert).
  destruct (i_buf _ _ _ _ HI i x Hx) as [B1 B2 B3 B4 B5 B6 B7 B8 B9 B10]. destruct (B7 Hw) as (Hv & Hd & _ & _).
  assert (bhas x2 B_DELWRI = true /\ bhas x2 B_DONE = true /\ same_block x x2 /\ bhas x2 B_ASYNC = bhas x B_ASYNC || has f B_ASYNC) as (W2 & D2 & S2 & A2).
  { subst x2 x1. destruct Hff as [-> | ->]; bflags; split_and!; try done; (eapply same_trans; [by apply (same_bset B_BUSY)|by apply same_bset]). }
  destruct (bwrite_spec iodone P _ _ LAWS _ _ _ _ _ fuel HI2 Hin Hmv Hx2) as (st' & Hb & HI' & Fr & Hwk & _); [by apply (same_valid _ _ S2)|done|by rewrite Hw2, work_took|].
  exists st'. split; [done|]. assert (({[i]} ∪ mine) ∖ {[i]} = mine) as Em by set_solver. rewrite Em in *.
  pose proof (overlay_same P _ _ _ _ _ HI2 Hx2 D2) as EV. rewrite Hw2, work_took in Hwk by done. unfold weight in Hwk. rewrite W2 in Hwk. cbv iota in Hwk. split_and!.
  - eapply inv_V; [|exact HI']. intros; by rewrite EV.
  - eapply (frame_upd _ _ _ s2 _ i x x2); try done; [subst s2; cbn; by rewrite list_insert_insert_eq|]. eapply frame_V; [|exact Fr]. intros; by rewrite EV.
  - destruct (bhas x2 B_ASYNC); lia.
  - intros -> Ha. rewrite A2, Ha in Hwk. change (false || has 0 B_ASYNC) with false in Hwk. cbv iota in Hwk. lia.
Qed.

Lemma getnewbuf_spec fuel : forall mine V st, inv mine V st -> spare mine st -> bu_error st = 0 -> (work st + 2 <= fuel)%nat ->
  exists i st' x', getnewbuf strategy sleep fuel st = Ok (i, st') /\ i ∉ mine /\ inv ({[i]} ∪ mine) V st' /\ frame mine V st st' /\ (work st' <= work st)%nat /\
    bufs st' !! i = Some x' /\ i ∉ moving st' /\ b_vp x' = 0 /\ b_flags x' = B_BUSY /\ b_bufsize x' = MAXBSIZE.
Proof.
  induction fuel as [|fuel IH]; intros mine V st HI Hsp He Hf; [lia|]. cbn [getnewbuf]. destruct (free_choice st) as [i|] eqn:Ec.
  - destruct (free_choice_Some _ _ Ec) as (h & Hq & Hh). destruct (proj1 (i_avail _ _ _ _ HI i) (ex_intro _ h Hq)) as (Hlt & Hm & Hmv).
    destruct (lookup_lt_is_Some_2 _ _ Hlt) as [x Hx]. rewrite (notavail_eq _ _ _ _ _ _ _ HI Hx Hq). kstep. pose proof (lookup_took _ _ _ Hx) as Hx1.
    rewrite (get_buf_Ok _ _ _ Hx1). kstep. rewrite bhas_bset. change (has B_BUSY B_DELWRI) with false. rewrite orb_false_r. pose proof (free_size _ _ _ _ _ _ HI Hx Hq Hh) as Hsz.
    destruct (bhas x B_DELWRI) eqn:Ew.
    + rewrite (upd_buf_Ok _ _ _ _ Hx1). kstep. destruct (push_spec _ _ _ _ _ _ B_ASYNC fuel HI Hx Hq Hh Ew (or_intror eq_refl) He ltac:(lia)) as (st2 & -> & HI2 & Fr & Hwk & _). kstep.
      destruct (IH mine V st2 HI2 (spare_frame _ _ _ _ _ Fr Hsp)) as (k & st' & x' & -> & Hk & HI' & Fr' & Hwk' & Hrest); [by rewrite (fr_err _ _ _ _ Fr)|lia|].
      exists k, st', x'. split_and!; try done; [by etransitivity|lia|apply Hrest..].
    + pose proof (took_inv _ _ _ _ _ _ _ HI Hx Hq Hsz) as HI1. destruct (brelvp_spec _ _ _ Hx1 (i_count _ _ _ _ HI1)) as (st2 & -> & E1 & E2 & E3 & E4 & E5 & E6). kstep.
      assert (bufs st2 !! i = Some (set_bvp 0 (bset B_BUSY x))) as Hx2 by (rewrite E1; apply list_lookup_insert_eq; cbn; by rewrite length_insert).
      rewrite (upd_buf_Ok _ _ _ _ Hx2). kstep. set (x' := set_bflags B_BUSY (set_bvp 0 (bset B_BUSY x))). exists i, (set_bufs (<[i := x']> (bufs st2)) st2), x'.
      split; [done|]. split; [done|]. destruct (i_buf _ _ _ _ HI1 i _ Hx1) as [B1 B2 B3 B4 B5 B6 B7 B8 B9 B10].
      assert (inv ({[i]} ∪ mine) V (set_vcount (v_count st2) (set_bufs (<[i := x']> (bufs (took i x st))) (set_hashq (hashq st) (took i x st))))) as HI'.
      { eapply (drop_inv P); try exact HI1; try exact Hx1; try done; [set_solver| |by intros vp a ([? _] & _)|apply HI|apply (i_hashed _ _ _ _ HI1); by eapply lookup_lt_Some|by intros [? _]|intros vp Hn; rewrite (E6 vp Hn); assert (use vp x' = O) as -> by (unfold use; by rewrite (proj2 (Z.eqb_neq _ vp))); cbn; lia].
        destruct (free_on_disk _ _ _ _ _ _ HI Hx Hq Ew) as [Ho|Hnv]; [left; done|right]. intros Hv. apply Hnv. by apply (same_valid x (bset B_BUSY x)), Hv; apply same_bset. }
      assert (<[i := x']> (bufs st2) = <[i := x']> (bufs (took i x st))) as Eb by (rewrite E1; apply list_insert_insert_eq).
      split_and!; cbn; try done; [| | |by apply list_lookup_insert_eq, (lookup_lt_Some _ _ _ Hx2)|by rewrite E4].
      * eapply inv_ext; [..|exact HI']; cbn; done.
      * eapply (frame_upd _ _ _ (set_bufs (<[i := x']> (bufs st2)) st2) _ i x x'); try done; [cbn; rewrite Eb; cbn; apply list_insert_insert_eq|cbn; by rewrite E4..].
      * unfold work. cbn. rewrite Eb, E4. cbn. rewrite list_insert_insert_eq. pose proof (sum_insert weight _ _ _ x' Hx) as Hu. unfold weight in Hu at 2 4. rewrite Ew in Hu. change (bhas x' B_DELWRI) with false in Hu. cbv iota in Hu. lia.
  - set (st0 := set_fwant true st). assert (inv mine V st0) as HI0 by (by eapply inv_ext; [..|exact HI]). pose proof (free_choice_None _ _ _ HI Ec Hsp) as Hn.
    destruct (sleep_spec _ _ _ _ LAWS _ _ st0 CFree HI0 Hn) as (st2 & -> & HI2 & Fr & _ & Hwk). kstep. assert (frame mine V st st2) as Fr2 by (by eapply frame_ext; [..|exact Fr]).
    change (work st0) with (work st) in Hwk.
    destruct (IH mine V st2 HI2 (spare_frame _ _ _ _ _ Fr2 Hsp)) as (k & st' & x' & -> & Hk & HI' & Fr' & Hwk' & Hrest); [by rewrite (fr_err _ _ _ _ Fr2)|lia|].
    exists k, st', x'. split_and!; try done; [by etransitivity|lia|apply Hrest..].
Qed.
End Get.

(** * The buffer cache: brealloc() and getblk() *)

(** ** Sectors *)

Lemma btodb_eq n : 0 <= n < 2 ^ 32 -> btodb n = n / DEV_BSIZE.
Proof. intros Hn. unfold btodb. rewrite wrapu_small by done. unfold DEV_BSHIFT, DEV_BSIZE. by rewrite Z.shiftr_div_pow2. Qed.

Lemma aligned_size blkno n : aligned blkno n -> 0 <= n -> n = DEV_BSIZE * (n / DEV_BSIZE) /\ 0 <= n / DEV_BSIZE <= 16 /\ n <= MAXBSIZE.
Proof.
  unfold aligned, RND, DEV_BSIZE, MAXBSIZE. change (8192 / 512) with 16. intros (_ & Hm & Hc) Hn. pose proof (Z.div_mod n 512 ltac:(lia)). pose proof (Z.mod_pos_bound blkno 16 ltac:(lia)).
  split_and!; [lia|apply Z.div_pos; lia|apply Z.div_le_upper_bound; lia|lia].
Qed.

Definition last_of (start size : Z) : Z := i32 (u32 (start + btodb size - 1)).

Lemma overlaps_iff start size y : aligned (b_blkno y) (b_bcount y) -> 0 <= b_bcount y -> aligned start size -> 0 < size ->
  overlaps start (last_of start size) y = true <-> exists a, span y a /\ DEV_BSIZE * start <= a < DEV_BSIZE * start + size.
Proof.
  intros Hy Hc Hs Hz. destruct (aligned_size _ _ Hy Hc) as (Ec & Bc & Mc). destruct (aligned_size _ _ Hs ltac:(lia)) as (Es & Bs & Ms). destruct Hy as (Ry & _). destruct Hs as (Rs & _).
  unfold overlaps, last_of. unfold MAXBSIZE, DEV_BSIZE in *. rewrite !btodb_eq by lia. unfold DEV_BSIZE. set (k := size / 512) in *. set (c := b_bcount y / 512) in *.
  rewrite (wrapu_small 32 (start + k - 1)), (wrapu_small 32 start), (wrapu_small 32 (b_blkno y + c)), wraps_small by lia.
  rewrite negb_true_iff, !orb_false_iff, Z.eqb_neq, Z.ltb_ge, Z.leb_gt. unfold span, DEV_BSIZE. split.
  - intros ((H1 & H2) & H3). exists (512 * Z.max start (b_blkno y)). lia.
  - intros (a & H1 & H2). lia.
Qed.

Lemma same_chain vp b n b' n' a : aligned b n -> aligned b' n' -> DEV_BSIZE * b <= a < DEV_BSIZE * b + n -> DEV_BSIZE * b' <= a < DEV_BSIZE * b' + n' -> BUFHASH vp b = BUFHASH vp b'.
Proof.
  unfold aligned, BUFHASH, RND, DEV_BSIZE, MAXBSIZE. change (8192 / 512) with 16. intros (B1 & _ & C1) (B2 & _ & C2) H1 H2.
  assert (b / 16 = b' / 16) as E by (pose proof (Z.div_mod b 16 ltac:(lia)); pose proof (Z.div_mod b' 16 ltac:(lia)); pose proof (Z.mod_pos_bound b 16 ltac:(lia)); pose proof (Z.mod_pos_bound b' 16 ltac:(lia)); lia).
  rewrite !Z.quot_div_nonneg by lia. by rewrite E.
Qed.

Section Find.
Context {D : Type} `{!Drive D}.
Implicit Type st : biost D.
Implicit Type mine : gset nat.

Notation moving st := (started (bdev st)).
Notation disk st := (platter (bdev st)).

#[local] Existing Instance frame_refl.
#[local] Existing Instance frame_trans.

(** No other buffer the process holds has bytes of [vp] from sector [start] on. *)
Definition apart_from mine (i : nat) st (vp start size : Z) : Prop :=
  forall j y a, j ∈ mine -> j <> i -> bufs st !! j = Some y -> covers y vp a -> ~ (DEV_BSIZE * start <= a < DEV_BSIZE * start + size).

Lemma apart_frame mine mine' i V st st' vp start size : frame mine' V st st' -> mine ∖ {[i]} ⊆ mine' -> (forall j, j ∈ mine -> (j < length (bufs st))%nat) ->
  apart_from mine i st vp start size -> apart_from mine i st' vp start size.
Proof.
  intros Fr Hs Hk Ha j y a Hj Hn Hy Hc. destruct (lookup_lt_is_Some_2 _ _ (Hk j Hj)) as [x Hx]. destruct (fr_mine _ _ _ _ Fr j x ltac:(set_solver) Hx) as (y' & Hy' & Hxy).
  rewrite Hy in Hy'. injection Hy' as <-. eapply Ha; eauto. destruct Hxy as [[-> _]|(_ & _ & Es & _)]; [done|]. by apply (same_covers _ _ _ _ Es).
Qed.

Context (iodone : nat -> biost D -> res (biost D)) (P : Z -> Z -> Z -> Prop).
Context (strategy : nat -> biost D -> res (biost D)) (sleep : bchan -> biost D -> res (biost D)) (LAWS : drive_laws iodone strategy sleep).
Notation inv := (inv P).

Lemma bset_0 x : bset 0 x = x.
Proof. unfold bset, with_bits. rewrite Z.lor_0_r. by destruct x. Qed.
Lemma set_bufs_id st : set_bufs (bufs st) st = st.
Proof. by destruct st. Qed.

Lemma want_inv mine V st i x : inv mine V st -> bufs st !! i = Some x ->
  inv mine V (set_bufs (<[i := bset B_WANTED x]> (bufs st)) st) /\ work (set_bufs (<[i := bset B_WANTED x]> (bufs st)) st) = work st.
Proof.
  intros HI Hx. assert (forall g, Z.land B_WANTED g = 0 -> has (with_bits (b_flags x) B_WANTED) g = bhas x g) as Hg.
  { intros g Hg. change (has _ g) with (bhas (bset B_WANTED x) g). rewrite bhas_bset. replace (has B_WANTED g) with false; [by rewrite orb_false_r|]. symmetry. by apply has_false. }
  split.
  - apply inv_reflag; [done|done| | | |].
    + intros g Hin. apply Hg. repeat (apply elem_of_cons in Hin as [-> |Hin]; [done|]). by apply elem_of_nil in Hin.
    + rewrite Hg by done. by apply (i_buf _ _ _ _ HI i x Hx).
    + intros _. by rewrite !Hg.
    + left. by rewrite !Hg.
  - pose proof (work_upd st i x (bset B_WANTED x) Hx) as Hu. unfold weight in Hu. change (bhas (bset B_WANTED x) B_DELWRI) with (has (with_bits (b_flags x) B_WANTED) B_DELWRI) in Hu. rewrite Hg in Hu by done. lia.
Qed.

(** A free buffer is made invalid. *)
Lemma discard_spec mine V st i x h : inv mine V st -> bufs st !! i = Some x -> on_queue (freeq st) h i -> h <> BQ_EMPTY -> bhas x B_DELWRI = false ->
  exists st', brelse i (set_bufs (<[i := bset B_INVAL (bset B_BUSY x)]> (bufs (took i x st))) (took i x st)) = Ok st' /\ inv mine V st' /\
    bufs st' = <[i := bclr FREED (bset B_INVAL (bset B_BUSY x))]> (bufs st) /\ bdev st' = bdev st /\ bu_error st' = bu_error st /\ work st' = work st.
Proof.
  intros HI Hx Hq Hh Hw. pose proof (free_size _ _ _ _ _ _ _ HI Hx Hq Hh) as Hsz. pose proof (took_inv _ _ _ _ _ _ _ HI Hx Hq Hsz) as HI1. pose proof (lookup_took _ _ _ Hx) as Hx1.
  destruct (proj1 (i_avail _ _ _ _ HI i) (ex_intro _ h Hq)) as (Hlt & Hm & Hmv). destruct (i_buf _ _ _ _ HI1 i _ Hx1) as [B1 B2 B3 B4 B5 B6 B7 B8 B9 B10]. assert (i ∈ {[i]} ∪ mine) as Hin by set_solver.
  set (x2 := bset B_INVAL (bset B_BUSY x)). assert (~ valid x2) as Hnv by (intros [_ Hv]; subst x2; by bflags).
  assert (bhas x2 B_BUSY = true /\ bhas x2 BAD = false /\ bhas x2 B_DELWRI = false) as (F1 & F2 & F3).
  { destruct (quiet_flags _ B5) as (Q1 & Q2 & Q3 & Q4). subst x2. rewrite !bhas_lor. bflags. by rewrite Q1, Q2, Q3, Q4. }
  assert (inv ({[i]} ∪ mine) V (set_vcount (v_count st) (set_bufs (<[i := x2]> (bufs (took i x st))) (set_hashq (hashq st) (took i x st))))) as HI2.
  { eapply (drop_inv P); try exact HI1; try exact Hx1; try done; [|by intros vp a (? & _)|apply HI|apply (i_hashed _ _ _ _ HI1); by eapply lookup_lt_Some].
    destruct (free_on_disk _ _ _ _ _ _ _ HI Hx Hq Hw) as [Ho|Hn]; [by left|right]. intros Hv. apply Hn. by apply (same_valid x (bset B_BUSY x)), Hv; apply same_bset. }
  change (set_vcount _ (set_bufs _ (set_hashq _ _))) with (set_bufs (<[i := x2]> (bufs (took i x st))) (took i x st)) in HI2. set (s2 := set_bufs _ (took i x st)) in *.
  assert (bufs s2 !! i = Some x2) as Hx2 by (subst s2; cbn; apply list_lookup_insert_eq; by rewrite length_insert).
  destruct (brelse_spec P _ _ _ _ _ HI2 Hin Hmv Hx2) as (st' & -> & HI' & Eb & _ & Ed & Ee); [by intros ?|]. assert (({[i]} ∪ mine) ∖ {[i]} = mine) as Em by set_solver. rewrite Em in HI'.
  subst s2. cbn [bufs set_bufs took bdev bu_error set_freeq] in *. rewrite !list_insert_insert_eq in Eb. exists st'. split_and!; try done.
  unfold work. rewrite Eb, Ed. pose proof (sum_insert weight _ _ _ (bclr FREED x2) Hx) as Hu. unfold weight in Hu at 2 4. rewrite bhas_bclr_out, F3, Hw in Hu by done. lia.
Qed.

(** ** The loop of brealloc() *)

(** No buffer but [i] has bytes of the sectors. *)
Definition cleared (skip : list nat) st i vp start size : Prop :=
  forall j y, j <> i -> j ∉ skip -> bufs st !! j = Some y -> valid y -> b_vp y = vp -> overlaps start (last_of start size) y = false.

(** What the loop comes to. *)
Definition clear_post mine V st i x vp start size (r : res (biost D)) : Prop :=
  exists st', r = Ok st' /\ inv mine V st' /\ bufs st' !! i = Some x /\ frame mine V st st' /\ (work st' <= work st)%nat /\ cleared [] st' i vp start size.

Lemma clear_post_trans mine V s1 s2 i x vp start size r : frame mine V s1 s2 -> (work s2 <= work s1)%nat -> clear_post mine V s2 i x vp start size r -> clear_post mine V s1 i x vp start size r.
Proof. intros Fr Hw (st' & Hr & HI & Hx & Fr' & Hw' & Hc). exists st'. split_and!; try done; [by etransitivity|lia]. Qed.

(** Buffer [i] of the process stays as it is. *)
Lemma frame_keep mine V st st' i x : frame mine V st st' -> i ∈ mine -> i ∉ moving st -> bufs st !! i = Some x -> bufs st' !! i = Some x /\ i ∉ moving st'.
Proof. intros Fr Hi Hm Hx. destruct (fr_mine _ _ _ _ Fr i x Hi Hx) as (x' & Hx' & [[-> E]|(? & _)]); [by rewrite E|done]. Qed.

Section Walk.
Context (mine : gset nat) (V : Z -> Z -> Z) (i : nat) (x : buf) (vp start size : Z) (fuel W : nat) (again : biost D -> res (biost D)).
Context (Hvpn : vp <> 0) (Hi : i ∈ mine) (Hal : aligned start size) (Hsz : 0 < size) (Hfu : (W + 1 <= fuel)%nat).
Context (Hagain : forall st, inv mine V st -> bufs st !! i = Some x -> i ∉ moving st -> bu_error st = 0 -> apart_from mine i st vp start size -> (work st < W)%nat ->
  clear_post mine V st i x vp start size (again st)).

Lemma walk_spec l : forall st, inv mine V st -> bufs st !! i = Some x -> i ∉ moving st -> bu_error st = 0 -> apart_from mine i st vp start size -> (work st <= W)%nat ->
  (forall j, j ∈ l -> (j < length (bufs st))%nat) -> cleared l st i vp start size ->
  clear_post mine V st i x vp start size (realloc_walk strategy sleep fuel again i vp start (last_of start size) l st).
Proof.
  induction l as [|ep l IH]; intros st HI Hx Hm He Hap Hw Hk Hc; cbn [realloc_walk].
  - exists st. split_and!; done.
  - destruct (lookup_lt_is_Some_2 _ _ (Hk ep ltac:(by left))) as [y Hy]. rewrite (get_buf_Ok _ _ _ Hy). kstep. destruct (i_buf _ _ _ _ HI ep y Hy) as [B1 B2 B3 B4 B5 B6 B7 B8 B9 B10].
    destruct ((ep =? i)%nat || negb (b_vp y =? vp) || bhas y B_INVAL || negb (overlaps start (last_of start size) y)) eqn:Es.
    + apply IH; try done; [intros j Hj; apply Hk; by right|]. intros j z Hn Hj Hz Hv Hvp. destruct (decide (j = ep)) as [->|Hne].
      * rewrite Hy in Hz. injection Hz as <-. rewrite (proj2 (Nat.eqb_neq _ _) Hn), (proj2 (Z.eqb_eq _ _) Hvp), (proj2 Hv) in Es. cbn in Es. by apply negb_true_iff in Es.
      * eapply Hc; eauto. set_solver.
    + rewrite !orb_false_iff, !negb_false_iff in Es. destruct Es as (((Hne%Nat.eqb_neq & Hvp%Z.eqb_eq) & Hinv) & Hov).
      assert (valid y) as Hv. { split; [|done]. intros E. rewrite E in Hvp. subst vp. by destruct (Hvpn eq_refl). }
      destruct (B6 Hv) as [Hay Hoy]. destruct (proj1 (overlaps_iff _ _ _ Hay ltac:(lia) Hal Hsz) Hov) as (a & Ha & Ha').
      assert (ep ∉ mine) as Hnm. { intros Hin. by apply (Hap ep y a Hin Hne Hy). }
      destruct (bhas y B_BUSY) eqn:Eb.
      * assert (ep ∈ moving st) as Hmv by (destruct (proj1 B1 eq_refl); done). rewrite (put_buf_Ok _ _ _ _ Hy). kstep. destruct (want_inv _ _ _ _ _ HI Hy) as [HI1 Hw1]. set (s1 := set_bufs _ st) in *.
        assert (moving s1 <> []) as Hn1 by (intros En; change (moving s1) with (moving st) in En; rewrite En in Hmv; by apply elem_of_nil in Hmv).
        destruct (sleep_spec _ _ _ _ LAWS _ _ s1 (CBuf ep) HI1 Hn1) as (s2 & -> & HI2 & Fr & _ & Hw2). kstep.
        assert (frame mine V st s2) as Fr2 by (by apply (frame_upd _ _ _ s1 _ ep y (bset B_WANTED y))).
        destruct (frame_keep _ _ _ _ _ _ Fr2 Hi Hm Hx) as [Hx2 Hm2]. eapply (clear_post_trans _ _ _ s2); [done|lia|]. apply Hagain; try done; [by rewrite (fr_err _ _ _ _ Fr2)| |lia].
        eapply apart_frame; eauto; [set_solver|]. intros j Hj. apply (i_known _ _ _ _ HI). tauto.
      * assert (ep ∉ moving st) as Hnv by (intros Hin; by specialize (proj2 B1 (or_intror Hin))).
        destruct (proj2 (i_avail _ _ _ _ HI ep)) as (h & Hq); [split_and!; [by eapply lookup_lt_Some|done|done]|].
        assert (b_bcount y <> 0) as Hbc by (unfold span in Ha; lia). assert (h <> BQ_EMPTY) as Hh. { intros ->. destruct B2 as [[_ B2]|[B2 _]]; [done|lia]. }
        rewrite (notavail_eq _ _ _ _ _ _ _ HI Hy Hq). kstep. pose proof (lookup_took _ _ _ Hy) as Hy1. destruct (bhas y B_DELWRI) eqn:Ew.
        -- pose proof (push_spec iodone P _ _ LAWS _ _ _ _ _ _ 0 fuel HI Hy Hq Hh Ew (or_introl eq_refl) He ltac:(lia)) as Hpu. rewrite bset_0, (list_insert_id _ _ _ Hy1), set_bufs_id in Hpu.
           destruct Hpu as (s2 & -> & HI2 & Fr2 & Hw2 & _). kstep. destruct (frame_keep _ _ _ _ _ _ Fr2 Hi Hm Hx) as [Hx2 Hm2].
           eapply (clear_post_trans _ _ _ s2); [done|lia|]. apply Hagain; try done; [by rewrite (fr_err _ _ _ _ Fr2)| |lia]. eapply apart_frame; eauto; [set_solver|]. intros j Hj. apply (i_known _ _ _ _ HI). tauto.
        -- rewrite (upd_buf_Ok _ _ _ _ Hy1). kstep. destruct (discard_spec _ _ _ _ _ _ HI Hy Hq Hh Ew) as (s2 & -> & HI2 & Eb2 & Ed2 & Ee2 & Hw2). kstep. set (y2 := bclr FREED _) in *.
           assert (frame mine V st s2) as Fr2 by (apply (frame_upd _ _ _ s2 _ ep y y2); try done; by rewrite Ed2). destruct (frame_keep _ _ _ _ _ _ Fr2 Hi Hm Hx) as [Hx2 Hm2].
           eapply (clear_post_trans _ _ _ s2); [done|lia|]. apply IH; try done; [by rewrite Ee2| |lia| |].
           ++ eapply apart_frame; eauto; [set_solver|]. intros j Hj. apply (i_known _ _ _ _ HI). tauto.
           ++ intros j Hj. rewrite Eb2, length_insert. apply Hk. by right.
           ++ intros j z Hn Hj Hz Hvz Hvpz. rewrite Eb2 in Hz. destruct (decide (j = ep)) as [->|Hne2].
              ** rewrite list_lookup_insert_eq in Hz by (by eapply lookup_lt_Some). injection Hz as <-. destruct Hvz as [_ Hvz]. subst y2. bflags. done.
              ** rewrite list_lookup_insert_ne in Hz by done. eapply Hc; eauto. set_solver.
Qed.
End Walk.

Lemma loop_spec mine V i x vp start size fuel : vp <> 0 -> i ∈ mine -> aligned start size -> 0 < size ->
  forall st, inv mine V st -> bufs st !! i = Some x -> i ∉ moving st -> bu_error st = 0 -> apart_from mine i st vp start size -> (work st + 2 <= fuel)%nat ->
  clear_post mine V st i x vp start size (realloc_loop strategy sleep fuel i vp start (last_of start size) (BUFHASH vp start) st).
Proof.
  intros Hvp Hi Hal Hsz. induction fuel as [|fuel IH]; intros st HI Hx Hm He Hap Hf; [lia|]. cbn [realloc_loop].
  assert (is_Some (hashq st !! BUFHASH vp start)) as [q Hq].
  { apply lookup_lt_is_Some. rewrite (i_hashes _ _ _ _ HI). unfold BUFHASH. pose proof (Z.mod_pos_bound (u32 (vp + start `quot` RND)) BUFHSZ ltac:(done)). unfold BUFHSZ, BQUEUES in *. lia. }
  rewrite (proj2 (rd_Ok _ _ _) Hq). kstep. eapply (walk_spec mine V i x vp start size fuel (work st)); try done; try lia.
  - intros s2 HI2 Hx2 Hm2 He2 Hap2 Hw2. apply IH; try done. lia.
  - intros j Hj. apply (i_known _ _ _ _ HI). left. apply elem_of_concat. by exists (BUFHASH vp start), q.
  - intros j y Hn Hj Hy Hv Hvpy. destruct (overlaps start (last_of start size) y) eqn:Eo; [|done]. destruct Hj. destruct (i_buf _ _ _ _ HI j y Hy) as [B1 B2 B3 B4 B5 B6 B7 B8 B9 B10].
    destruct (B6 Hv) as [Ha (q' & Hq' & Hj)]. destruct (proj1 (overlaps_iff _ _ _ Ha ltac:(lia) Hal Hsz) Eo) as (a & A1 & A2). rewrite Hvpy, (same_chain vp _ _ _ _ a Ha Hal A1 A2), Hq in Hq'. by injection Hq' as <-.
Qed.

(** ** The new size *)

Lemma resize_inv mine V st i x size : inv mine V st -> i ∈ mine -> i ∉ moving st -> bufs st !! i = Some x -> valid x -> bhas x B_DELWRI = false -> aligned (b_blkno x) size -> 0 < size ->
  size <= b_bcount x /\ on_disk V st x \/ bhas x B_DONE = false /\ cleared [] st i (b_vp x) (b_blkno x) size ->
  inv mine V (set_bufs (<[i := set_bcount size x]> (bufs st)) st) /\ on_disk V st (set_bcount size x).
Proof.
  intros HI Hi Hm Hx Hv Hw Hal Hsz Hc. destruct (i_buf _ _ _ _ HI i x Hx) as [B1 B2 B3 B4 B5 B6 B7 B8 B9 B10]. set (x' := set_bcount size x). destruct (aligned_size _ _ Hal ltac:(lia)) as (_ & _ & Hmax).
  assert (forall vp a, covers x' vp a <-> vp = b_vp x /\ DEV_BSIZE * b_blkno x <= a < DEV_BSIZE * b_blkno x + size) as Ec.
  { intros vp a. unfold covers, span. split; [intros (_ & <- & ?); done|]. intros [-> Ha]. exact (conj Hv (conj eq_refl Ha)). }
  assert (forall j y vp a, j <> i -> bufs st !! j = Some y -> covers y vp a -> ~ covers x' vp a) as Hap.
  { intros j y vp a Hn Hy Hcy [-> Ha]%Ec. destruct Hc as [[Hle _]|[_ Hcl]].
    - apply Hn. eapply (i_apart _ _ _ _ HI j i y x); eauto. refine (conj Hv (conj eq_refl _)); unfold span; lia.
    - destruct Hcy as (Hvy & Evy & Hay). destruct (i_buf _ _ _ _ HI j y Hy) as [C1 C2 C3 C4 C5 C6 C7 C8 C9 C10]. destruct (C6 Hvy) as [Haly _].
      assert (overlaps (b_blkno x) (last_of (b_blkno x) size) y = true) as Eo by (apply overlaps_iff; try done; [lia|by exists a]). rewrite (Hcl j y) in Eo; try done. apply not_elem_of_nil. }
  assert (on_disk V st x') as Ho.
  { intros a Ha. change (b_vp x') with (b_vp x). destruct (decide (V (b_vp x) a = disk st (b_vp x) a)) as [|Hne]; [done|]. destruct (i_disk _ _ _ _ HI _ _ Hne) as (j & y & Hy & Hcy & Hah).
    destruct (decide (j = i)) as [->|Hn]; [|exfalso; by apply (Hap j y (b_vp x) a Hn Hy Hcy), Ec]. rewrite Hx in Hy. injection Hy as <-. destruct Hc as [[_ Hod]|[Hd _]]; [by apply Hod, Hcy|].
    destruct Hah as [?|[[? _]|(_ & _ & ?)]]; congruence. }
  split; [|done]. eapply (inv_update P mine mine V V st); try exact HI; try exact Hx; try done; try apply HI; cbn [bdev set_bufs hashq freeq].
  - split; [intros [h Hh]; by destruct (not_free _ _ _ _ _ h HI Hi)|tauto].
  - split; cbn [bdev set_bufs hashq freeq]; try done.
    + change (b_bufsize x') with (b_bufsize x). rewrite (B9 Hv). cbn. lia.
    + intros _. split; [done|]. by apply B6.
    + change (bhas x' B_DELWRI) with (bhas x B_DELWRI). by rewrite Hw.
  - intros j y vp a Hn Hy Hcy. split; [by eapply Hap|done].
  - intros a [Hd|[? _]] Hca; [|done]. change (bhas x' B_DONE) with (bhas x B_DONE) in Hd. destruct Hc as [[Hle _]|[Hd' _]]; [|congruence].
    apply Ec in Hca as [_ Ha]. apply (i_mem _ _ _ _ HI i x a Hx); [by left|]. refine (conj Hv (conj eq_refl _)); unfold span; lia.
  - intros vp a Hne. right. split; [done|]. intros [(_ & <- & Ha) Hah]. destruct Hc as [[_ Hod]|[Hd _]]; [by apply Hne, Hod|]. destruct Hah as [?|[[? _]|(_ & _ & ?)]]; congruence.
Qed.

(** On the Sun-3 a buffer has the memory of the largest block. *)
Lemma allocbuf_eq fuel i size st x clbytes : clbytes = MAXBSIZE -> bufs st !! i = Some x -> b_bufsize x = MAXBSIZE -> 0 < size <= MAXBSIZE ->
  allocbuf strategy sleep clbytes fuel i size st = Ok (set_bufs (<[i := set_bcount size x]> (bufs st)) st).
Proof.
  intros -> Hx Hb Hs. unfold allocbuf. rewrite (get_buf_Ok _ _ _ Hx). kstep.
  assert (roundup size MAXBSIZE = MAXBSIZE) as ->.
  { unfold roundup, MAXBSIZE in *. rewrite Z.quot_div_nonneg by lia. replace ((size + (8192 - 1)) / 8192) with 1; [done|]. apply (Z.div_unique_pos _ _ _ (size - 1)); lia. }
  rewrite Hb, Z.eqb_refl. kstep. by apply upd_buf_Ok.
Qed.

(** brealloc() of a buffer of the process: it has the size that was asked for, no other has any of its bytes, and what it is to hold is on
    the device or in it; or it has been written and released. *)
Lemma brealloc_spec mine V st i x size clbytes fuel : clbytes = MAXBSIZE -> inv mine V st -> i ∈ mine -> i ∉ moving st -> bufs st !! i = Some x -> valid x -> bhas x B_ASYNC = false ->
  bhas x B_DELWRI = true \/ on_disk V st x -> bu_error st = 0 -> aligned (b_blkno x) size -> 0 < size -> apart_from mine i st (b_vp x) (b_blkno x) size ->
  (bhas x B_DELWRI = true -> size <= b_bcount x) -> (work st + 2 <= fuel)%nat ->
  exists ok st', brealloc strategy sleep clbytes fuel i size st = Ok (ok, st') /\ frame (mine ∖ {[i]}) V st st' /\ (work st' <= work st)%nat /\
    if ok : bool then inv mine V st' /\ i ∉ moving st' /\ exists x', bufs st' !! i = Some x' /\ b_vp x' = b_vp x /\ b_blkno x' = b_blkno x /\ bhas x' B_INVAL = bhas x B_INVAL /\ b_bcount x' = size /\
      bhas x' B_ASYNC = false /\ (bhas x' B_DELWRI = true \/ on_disk V st' x')
    else inv (mine ∖ {[i]}) V st' /\ (work st' < work st)%nat.
Proof.
  intros Hcl HI Hi Hm Hx Hv Has Hset He Hal Hsz Hap HP Hf. destruct (i_buf _ _ _ _ HI i x Hx) as [B1 B2 B3 B4 B5 B6 B7 B8 B9 B10]. destruct (aligned_size _ _ Hal ltac:(lia)) as (_ & _ & Hmax).
  unfold brealloc. rewrite (get_buf_Ok _ _ _ Hx). kstep. destruct (Z.eqb_spec size (b_bcount x)) as [E|E].
  { exists true, st. split_and!; try done. exists x. split_and!; done. }
  destruct (Z.ltb_spec size (b_bcount x)) as [L|L].
  - destruct (bhas x B_DELWRI) eqn:Ew.
    + destruct (bwrite_spec iodone P _ _ LAWS _ _ _ _ _ fuel HI Hi Hm Hx Hv He ltac:(lia)) as (st' & -> & HI' & Fr & Hw & _). kstep. destruct (B7 eq_refl) as (_ & Hd & _).
      pose proof (overlay_same _ _ _ _ _ _ HI Hx Hd) as EV. exists false, st'. split; [done|]. unfold weight in Hw. rewrite Ew, Has in Hw. cbv iota in Hw. split_and!; [|lia|by eapply inv_V; [|exact HI']; intros; rewrite EV|lia].
      eapply frame_V; [|exact Fr]. intros; by rewrite EV.
    + destruct (quiet_flags _ B5) as (_ & Q2 & _). rewrite Q2, (allocbuf_eq fuel i size st x) by (first [done|by apply B9|lia]). kstep.
      destruct Hset as [?|Ho]; [done|]. destruct (resize_inv _ _ _ _ _ size HI Hi Hm Hx Hv Ew Hal Hsz) as [HI' Ho']; [left; split; [lia|done]|].
      exists true. eexists. split; [done|]. assert (bufs (set_bufs (<[i := set_bcount size x]> (bufs st)) st) !! i = Some (set_bcount size x)) as Hx' by (apply list_lookup_insert_eq; by eapply lookup_lt_Some). split_and!; try done.
      * eapply (frame_upd _ _ _ (set_bufs (<[i := set_bcount size x]> (bufs st)) st) _ i x); try done. set_solver.
      * pose proof (work_upd st i x (set_bcount size x) Hx) as Hu. unfold weight in Hu. rewrite bhas_bcount, Ew in Hu. cbv iota in Hu. lia.
      * eexists. split; [exact Hx'|]. split_and!; try done. by right.
  - assert (bhas x B_DELWRI = false) as Ew by (destruct (bhas x B_DELWRI) eqn:W; [specialize (HP eq_refl); lia|done]). destruct Hset as [?|Ho]; [congruence|].
    rewrite (put_buf_Ok _ _ _ _ Hx). kstep. set (x1 := bclr B_DONE x). set (s1 := set_bufs _ st). assert (same_block x x1) as S1 by (by apply same_bclr). pose proof S1 as (S11 & S12 & S13 & S14).
    assert (bhas x1 B_DONE = false /\ bhas x1 B_DELWRI = false /\ bhas x1 B_ASYNC = false /\ bhas x1 BAD = false /\ bhas x1 B_BUSY = true) as (F1 & F2 & F3 & F4 & F5).
    { destruct (quiet_flags _ B5) as (Q1 & Q2 & Q3 & Q4). subst x1. rewrite !bhas_lor. bflags. rewrite Q1, Q2, Q3, Q4. split_and!; try done. apply B1. by left. }
    assert (inv mine V s1) as HI1.
    { eapply (hold_inv P mine V); try exact HI; try exact Hx; try done; [by rewrite F2|by rewrite F1|]. intros vp a (_ & <- & Ha) Hne. by destruct Hne; apply Ho. }
    rewrite (proj2 (Z.eqb_neq (b_vp x) 0)) by apply Hv. change (i32 (u32 (b_blkno x + btodb size - 1))) with (last_of (b_blkno x) size).
    assert (bufs s1 !! i = Some x1) as Hx1 by (apply list_lookup_insert_eq; by eapply lookup_lt_Some).
    assert (work s1 = work st) as Hw1. { pose proof (work_upd st i x x1 Hx) as Hu. unfold weight in Hu. rewrite F2, Ew in Hu. change (set_bufs _ st) with s1 in Hu. cbv iota in Hu. lia. }
    assert (frame (mine ∖ {[i]}) V st s1) as Fr1 by (apply (frame_upd _ _ _ s1 _ i x x1); try done; set_solver).
    destruct (loop_spec mine V i x1 (b_vp x) (b_blkno x) size fuel ltac:(apply Hv) Hi Hal Hsz s1 HI1 Hx1 Hm He) as (s2 & -> & HI2 & Hx2 & Fr2 & Hw2 & Hc2); [|lia|].
    { intros j y a Hj Hn Hy. cbn in Hy. rewrite list_lookup_insert_ne in Hy by done. by apply (Hap j y a). }
    kstep. destruct (frame_keep _ _ _ _ _ _ Fr2 Hi Hm Hx1) as [_ Hm2]. rewrite (allocbuf_eq fuel i size s2 x1) by (first [done|by apply B9|lia]). kstep.
    assert (valid x1) as Hv1 by (by apply (same_valid _ _ S1)).
    destruct (resize_inv _ _ _ _ _ size HI2 Hi Hm2 Hx2 Hv1 F2 Hal Hsz) as [HI' Ho']; [right; done|]. exists true. eexists. split; [done|].
    assert (bufs (set_bufs (<[i := set_bcount size x1]> (bufs s2)) s2) !! i = Some (set_bcount size x1)) as Hx' by (apply list_lookup_insert_eq; by eapply lookup_lt_Some). split_and!; try done.
    + etransitivity; [exact Fr1|]. etransitivity; [eapply frame_mono; [|exact Fr2]; set_solver|]. eapply (frame_upd _ _ _ (set_bufs (<[i := set_bcount size x1]> (bufs s2)) s2) _ i x1); try done. set_solver.
    + pose proof (work_upd s2 i x1 (set_bcount size x1) Hx2) as Hu. unfold weight in Hu. rewrite bhas_bcount, F2 in Hu. cbv iota in Hu. lia.
    + eexists. split; [exact Hx'|]. split_and!; try done. by right.
Qed.
End Find.
