(* ===== verification/BioRead.v ===== *)
(** * The buffer cache: getblk() and bread()

    getblk() gives the process a buffer of the block, of the size asked for, whoever has its bytes; bread() one that holds
    what the volume holds. *)

From S2P Require Import Prelude Flags Bio BioInv BioOps BioWrite BioGet.
From stdpp Require Import prelude list numbers strings functions relations gmap.
From Stdlib Require Import ZArith Lia.

Local Open Scope Z_scope.
Local Open Scope kern_scope.

Section Read.
Context {D : Type} `{!Drive D}.
Implicit Type st : biost D.
Implicit Type mine : gset nat.

Notation moving st := (started (bdev st)).
Notation disk st := (platter (bdev st)).

#[local] Existing Instance frame_refl.
#[local] Existing Instance frame_trans.

Context (P : Z -> Z -> Z -> Prop).

(** A request the cache can satisfy: the process does not hold the block or any of its bytes already, there is a buffer left, and the block is
    not asked for in a size beyond what may be written behind of it. *)
Record request mine st (vp blkno size : Z) : Prop := Request {
  rq_vp : vp <> 0;
  rq_aligned : aligned blkno size;
  rq_size : 0 < size;
  rq_spare : spare mine st;
  rq_block j y : j ∈ mine -> bufs st !! j = Some y -> is_block vp blkno y = false;
  rq_apart j y a : j ∈ mine -> bufs st !! j = Some y -> covers y vp a -> ~ (DEV_BSIZE * blkno <= a < DEV_BSIZE * blkno + size);
  rq_behind n : P vp blkno n -> size <= n
}.

Lemma request_frame mine V st st' vp blkno size : (forall j, j ∈ mine -> (j < length (bufs st))%nat) -> frame mine V st st' -> request mine st vp blkno size -> request mine st' vp blkno size.
Proof.
  intros Hk Fr [R1 R2 R3 R4 R5 R6 R7]. assert (forall j y', j ∈ mine -> bufs st' !! j = Some y' -> exists y, bufs st !! j = Some y /\ same_block y y') as Hb.
  { intros j y' Hj Hy'. destruct (lookup_lt_is_Some_2 _ _ (Hk j Hj)) as [y Hy]. exists y. split; [done|]. destruct (fr_mine _ _ _ _ Fr j y Hj Hy) as (z & Hz & Hc).
    rewrite Hy' in Hz. injection Hz as <-. destruct Hc as [[-> _]|(_ & _ & ? & _)]; done. }
  split; try done; [by eapply spare_frame| |].
  - intros j y' Hj Hy'. destruct (Hb j y' Hj Hy') as (y & Hy & E1 & E2 & E3 & E4). rewrite <- (R5 j y Hj Hy). unfold is_block. by rewrite E1, E2, E4.
  - intros j y' a Hj Hy' Hc. destruct (Hb j y' Hj Hy') as (y & Hy & Es). apply (R6 j y a Hj Hy). by apply (same_covers _ _ _ _ Es).
Qed.

Context (iodone : nat -> biost D -> res (biost D)).
Context (strategy : nat -> biost D -> res (biost D)) (sleep : bchan -> biost D -> res (biost D)) (LAWS : drive_laws iodone strategy sleep).
Context (v_rdev : Z -> Z) (clbytes : Z) (SUN3 : clbytes = MAXBSIZE).
Notation inv := (inv P).

(** What the process gets. *)
Definition got mine V st vp blkno size (r : res (nat * biost D)) : Prop :=
  exists i st' x, r = Ok (i, st') /\ i ∉ mine /\ inv ({[i]} ∪ mine) V st' /\ frame mine V st st' /\ (work st' <= work st)%nat /\ bufs st' !! i = Some x /\ i ∉ moving st' /\
    valid x /\ b_vp x = vp /\ b_blkno x = blkno /\ b_bcount x = size /\ bhas x B_ASYNC = false /\ (bhas x B_DELWRI = true \/ on_disk V st' x).

Lemma got_trans mine V s1 s2 vp blkno size r : frame mine V s1 s2 -> (work s2 <= work s1)%nat -> got mine V s2 vp blkno size r -> got mine V s1 vp blkno size r.
Proof. intros Fr Hw (i & st' & x & Hr & Hi & HI & Fr' & Hw' & Hrest). exists i, st', x. split_and!; try done; [by etransitivity|lia|apply Hrest..]. Qed.

Lemma bfind_spec vp blkno l st : (forall j, j ∈ l -> (j < length (bufs st))%nat) ->
  exists r, bfind vp blkno l st = Ok r /\ forall i, r = Some i -> i ∈ l /\ exists x, bufs st !! i = Some x /\ is_block vp blkno x = true.
Proof.
  induction l as [|j l IH]; intros Hk; cbn [bfind]; [by exists None|]. destruct (lookup_lt_is_Some_2 _ _ (Hk j ltac:(by left))) as [x Hx]. rewrite (get_buf_Ok _ _ _ Hx). kstep.
  destruct (is_block vp blkno x) eqn:E; [exists (Some j); split; [done|]; intros i [= <-]; split; [by left|eauto]|].
  destruct IH as (r & -> & Hr); [intros k Hk'; apply Hk; by right|]. exists r. split; [done|]. intros i Hi. destruct (Hr i Hi). split; [by right|done].
Qed.

Lemma is_block_valid vp blkno x : vp <> 0 -> is_block vp blkno x = true -> valid x /\ b_vp x = vp /\ b_blkno x = blkno.
Proof. unfold is_block, valid. rewrite !andb_true_iff, negb_true_iff, !Z.eqb_eq. intros Hn ((E1 & E2) & E3). split_and!; congruence. Qed.

Lemma bremhash_Ok i st : i ∈ concat (hashq st) -> bremhash i st = Ok (set_hashq (map (unlink i) (hashq st)) st).
Proof.
  intros Hi. unfold bremhash. rewrite (proj2 (existsb_exists _ _)); [done|]. apply elem_of_concat in Hi as (h & q & Hq & Hi).
  exists q. split; [apply list_elem_of_In; by eapply list_elem_of_lookup_2|by apply bool_decide_eq_true].
Qed.

(** A buffer without a block gets the block, with nothing of it yet. *)
Lemma adopt_spec mine V st i x vp blkno : inv mine V st -> i ∈ mine -> i ∉ moving st -> bufs st !! i = Some x -> b_vp x = 0 -> b_flags x = B_BUSY -> b_bufsize x = MAXBSIZE -> aligned blkno 0 ->
  exists st' x', (st ← bfree i st; st ← bremhash i st; st ← bsetvp i vp st; st ← upd_buf i (fun x => set_err 0 0 (set_block (v_rdev vp) blkno x)) st; binshash i (BUFHASH vp blkno) st) = Ok st' /\
    inv mine V st' /\ bufs st' = <[i := x']> (bufs st) /\ bdev st' = bdev st /\ bu_error st' = bu_error st /\ b_vp x' = vp /\ b_blkno x' = blkno /\ b_bcount x' = 0 /\ b_flags x' = B_BUSY /\ b_bufsize x' = MAXBSIZE.
Proof.
  intros HI Hi Hm Hx Hvp Hfl Hbs Hal. unfold bfree. rewrite (upd_buf_Ok _ _ _ _ Hx). kstep. assert (i < length (bufs st))%nat as Hlt by (by eapply lookup_lt_Some).
  rewrite (bremhash_Ok i) by (by apply (i_hashed _ _ _ _ HI)). kstep. set (s1 := set_hashq _ _).
  assert (bufs s1 !! i = Some (set_bcount 0 x)) as Hx1 by (by apply list_lookup_insert_eq). unfold bsetvp. rewrite (get_buf_Ok _ _ _ Hx1). kstep. change (b_vp (set_bcount 0 x)) with (b_vp x). rewrite Hvp. change (0 =? 0) with true. kstep.
  rewrite (upd_buf_Ok _ _ (set_bcount 0 x)) by done. kstep. set (s2 := set_bufs _ (VN_HOLD vp s1)).
  assert (bufs s2 !! i = Some (set_bvp vp (set_bcount 0 x))) as Hx2 by (cbn; apply list_lookup_insert_eq; by rewrite length_insert). rewrite (upd_buf_Ok _ _ _ _ Hx2). kstep.
  set (x' := set_err 0 0 _). set (s3 := set_bufs _ s2). set (h := BUFHASH vp blkno). pose proof (i_hash _ _ _ _ HI) as Hnd.
  assert (h < length (hashq st))%nat as Hh. { rewrite (i_hashes _ _ _ _ HI). subst h. unfold BUFHASH. pose proof (Z.mod_pos_bound (u32 (vp + blkno `quot` RND)) BUFHSZ ltac:(done)). unfold BUFHSZ, BQUEUES in *. lia. }
  destruct (lookup_lt_is_Some_2 (hashq s3) h) as [q Hq]; [cbn; by rewrite length_map|]. unfold binshash. rewrite (proj2 (rd_Ok _ _ _) Hq). kstep. unfold wr. rewrite decide_True by (by eapply lookup_lt_Some). kstep.
  change (hashq s3) with (map (unlink i) (hashq st)) in *. set (hq := <[h := i :: q]> _).
  assert (<[i := x']> (bufs s2) = <[i := x']> (bufs st)) as Eb by (cbn; by rewrite !list_insert_insert_eq).
  assert (forall h' j, on_queue hq h' j <-> on_queue (map (unlink i) (hashq st)) h' j \/ h' = h /\ j = i) as Hoq.
  { intros h' j. apply (on_queue_insert _ _ i q (i :: q)); [done|]. intros k. by rewrite elem_of_cons. }
  assert (NoDup (concat (map (unlink i) (hashq st)))) as Hnd1.
  { destruct (decide (i ∈ concat (hashq st))) as [Hin|Hin]; [|by rewrite map_unlink_id]. rewrite (concat_unlink _ _ Hnd Hin) in Hnd. by apply NoDup_cons in Hnd as [_ ?]. }
  assert (bhas x' B_BUSY = true /\ bhas x' BAD = false /\ bhas x' B_DELWRI = false) as (F1 & F2 & F3) by (unfold bhas; cbn; rewrite Hfl; done).
  eexists _, x'. split; [done|]. split; [|split; [exact Eb|done]].
  eapply inv_ext; [..|apply (drop_inv P mine V st i x x' hq (<[vp := u16 (v_count st vp + 1)]> (v_count st)) HI Hi Hm Hx)]; try done.
  - right. intros [? _]. done.
  - intros vp' a (_ & _ & Ha). unfold span in Ha. cbn in Ha. lia.
  - split; [done|]. cbn. rewrite Hbs. done.
  - subst hq. by rewrite length_insert, length_map.
  - subst hq. rewrite (concat_insert_head _ _ _ _ Hq). apply NoDup_cons. split; [|done]. rewrite elem_of_concat. intros (h' & Hh'). by apply on_queue_unlink in Hh' as [_ ?].
  - intros h' j Hn. rewrite Hoq, on_queue_unlink by done. naive_solver.
  - apply elem_of_concat. exists h. apply Hoq. by right.
  - intros _. split; [exact Hal|]. apply Hoq. by right.
  - intros vp' Hn. unfold use. cbn. rewrite Hvp, (proj2 (Z.eqb_neq 0 vp')) by done. destruct (Z.eqb_spec vp vp') as [<-|Hne]; [|rewrite fn_lookup_insert_ne by done; lia].
    rewrite fn_lookup_insert. destruct (i_count _ _ _ _ HI vp Hn) as [C1 C2]. pose proof (unused vp _ _ _ Hx ltac:(by rewrite Hvp)) as Hu. rewrite wrapu_small; lia.
Qed.

Lemma getblk_loop_spec mine V vp blkno size fuel : forall st, inv mine V st -> request mine st vp blkno size -> bu_error st = 0 -> (work st + 3 <= fuel)%nat ->
  got mine V st vp blkno size (getblk_loop strategy sleep v_rdev clbytes fuel vp blkno size st).
Proof.
  induction fuel as [|fuel IH]; intros st HI HR He Hf; [lia|]. cbn [getblk_loop]. pose proof HR as [R1 R2 R3 R4 R5 R6 R7].
  assert (forall j, j ∈ mine -> (j < length (bufs st))%nat) as Hkm by (intros j Hj; apply (i_known _ _ _ _ HI); tauto).
  assert (is_Some (hashq st !! BUFHASH vp blkno)) as [q Hq].
  { apply lookup_lt_is_Some. rewrite (i_hashes _ _ _ _ HI). unfold BUFHASH. pose proof (Z.mod_pos_bound (u32 (vp + blkno `quot` RND)) BUFHSZ ltac:(done)). unfold BUFHSZ, BQUEUES in *. lia. }
  rewrite (proj2 (rd_Ok _ _ _) Hq). kstep. destruct (bfind_spec vp blkno q st) as (r & -> & Hr).
  { intros j Hj. apply (i_known _ _ _ _ HI). left. apply elem_of_concat. by exists (BUFHASH vp blkno), q. }
  kstep. assert (forall i s x, i ∉ mine -> frame mine V st s -> inv ({[i]} ∪ mine) V s -> i ∉ moving s -> bufs s !! i = Some x -> apart_from ({[i]} ∪ mine) i s vp blkno size) as Hap.
  { intros i s x Hni Fr HIs Hms Hxs j y a Hj Hn Hy Hc. assert (j ∈ mine) as Hjm by set_solver. by apply (rq_apart _ _ _ _ _ (request_frame _ _ _ _ _ _ _ Hkm Fr HR) j y a Hjm). }
  destruct r as [i|].
  - destruct (Hr i eq_refl) as (Hiq & x & Hx & Hbl). destruct (is_block_valid _ _ _ R1 Hbl) as (Hv & Evp & Ebl). rewrite (get_buf_Ok _ _ _ Hx). kstep.
    assert (i ∉ mine) as Hni by (intros Hin; specialize (R5 i x Hin Hx); congruence). destruct (i_buf _ _ _ _ HI i x Hx) as [B1 B2 B3 B4 B5 B6 B7 B8 B9 B10].
    destruct (bhas x B_BUSY) eqn:Eb.
    + assert (i ∈ moving st) as Hmv by (destruct (proj1 B1 eq_refl); done). rewrite (put_buf_Ok _ _ _ _ Hx). kstep. destruct (want_inv _ _ _ _ _ _ HI Hx) as [HI1 Hw1]. set (s1 := set_bufs _ st) in *.
      assert (moving s1 <> []) as Hn1 by (intros En; change (moving s1) with (moving st) in En; rewrite En in Hmv; by apply elem_of_nil in Hmv).
      destruct (sleep_spec _ _ _ _ LAWS _ _ s1 (CBuf i) HI1 Hn1) as (s2 & -> & HI2 & Fr & _ & Hw2). kstep.
      assert (frame mine V st s2) as Fr2 by (by apply (frame_upd _ _ _ s1 _ i x (bset B_WANTED x))).
      eapply (got_trans _ _ _ s2); [done|lia|]. apply IH; [done|by eapply request_frame|by rewrite (fr_err _ _ _ _ Fr2)|lia].
    + assert (i ∉ moving st) as Hnv by (intros Hin; by specialize (proj2 B1 (or_intror Hin))).
      destruct (proj2 (i_avail _ _ _ _ HI i)) as (h & Hqi); [split_and!; [by eapply lookup_lt_Some|done|done]|]. pose proof (took_inv _ _ _ _ _ _ _ HI Hx Hqi (B9 Hv)) as HI1. pose proof (lookup_took _ _ _ Hx) as Hx1.
      rewrite (notavail_eq _ _ _ _ _ _ _ HI Hx Hqi). kstep. set (x1 := bset B_BUSY x) in *. assert (same_block x x1) as S1 by (by apply same_bset). pose proof S1 as (S11 & S12 & S13 & S14).
      assert (i ∈ {[i]} ∪ mine) as Hin by set_solver. assert (({[i]} ∪ mine) ∖ {[i]} = mine) as Em by set_solver.
      assert (frame mine V st (took i x st)) as Fr1 by (by apply (frame_upd _ _ _ (took i x st) _ i x x1)).
      assert (bhas x1 B_DELWRI = bhas x B_DELWRI /\ bhas x1 B_ASYNC = bhas x B_ASYNC) as [F1 F2] by (subst x1; by bflags). assert (valid x1) as Hv1 by (by apply (same_valid _ _ S1)).
      destruct (brealloc_spec iodone P strategy sleep LAWS _ V (took i x st) i x1 size clbytes fuel SUN3 HI1 Hin Hnv Hx1 Hv1) as (ok & st2 & -> & Fr2 & Hw2 & Hok).
      { by rewrite F2; apply B10. }
      { rewrite F1. destruct (bhas x B_DELWRI) eqn:Ew; [by left|right]. destruct (free_on_disk _ _ _ _ _ _ _ HI Hx Hqi Ew) as [Ho|?]; [|done]. exact Ho. }
      { done. } { rewrite S12. by rewrite Ebl. } { done. } { rewrite S11, S12, Evp, Ebl. by eapply Hap. } { rewrite F1, S13. intros W. destruct (B7 W) as (_ & _ & _ & HP). rewrite Evp, Ebl in HP. by apply R7. } { rewrite work_took by done. lia. }
      kstep. rewrite work_took in * by done. rewrite Em in *. assert (frame mine V st st2) as Fr by (by etransitivity). destruct ok.
      * destruct Hok as (HI2 & Hm2 & x2 & Hx2 & E1 & E2 & E3 & E4 & E5 & E6). rewrite (upd_buf_Ok _ _ _ _ Hx2). kstep. destruct (reflag_inv _ _ _ _ i x2 B_CACHE HI2 Hx2 Hin Hm2 eq_refl) as [HI3 Hw3].
        exists i, (set_bufs (<[i := bset B_CACHE x2]> (bufs st2)) st2), (bset B_CACHE x2). split; [done|]. split; [done|]. split; [done|]. split; [|split; [lia|]].
        { etransitivity; [exact Fr|]. by apply (frame_upd _ _ _ (set_bufs (<[i := bset B_CACHE x2]> (bufs st2)) st2) _ i x2 (bset B_CACHE x2)). }
        bflags. split; [apply list_lookup_insert_eq; by eapply lookup_lt_Some|]. split; [done|]. split; [|cbn; split_and!; try done; congruence].
        apply (same_valid x2); [by apply same_bset|]. split; [cbn; congruence|]. rewrite E3, S14. apply Hv.
      * destruct Hok as [HI2 Hw2']. eapply (got_trans _ _ _ st2); [done|lia|]. apply IH; [done|by eapply request_frame|by rewrite (fr_err _ _ _ _ Fr)|lia].
  - destruct (getnewbuf_spec iodone P strategy sleep LAWS fuel mine V st HI R4 He ltac:(lia)) as (i & s1 & x & -> & Hni & HI1 & Fr1 & Hw1 & Hx & Hm1 & Evp & Efl & Ebs). kstep.
    assert (i ∈ {[i]} ∪ mine) as Hin by set_solver. assert (({[i]} ∪ mine) ∖ {[i]} = mine) as Em by set_solver.
    assert (aligned blkno 0) as Hal0. { destruct R2 as (A1 & A2 & A3). split_and!; [lia..|done|]. lia. }
    destruct (adopt_spec _ _ _ _ _ vp blkno HI1 Hin Hm1 Hx Evp Efl Ebs Hal0) as (s2 & y & Hs2 & HI2 & Eb2 & Ed2 & Ee2 & Yvp & Ybl & Ybc & Yfl & Ybs).
    match goal with |- got _ _ _ _ _ _ ?r => replace r with (('(ok, st) ← brealloc strategy sleep clbytes fuel i size s2; if ok : bool then mret (i, st) else getblk_loop strategy sleep v_rdev clbytes fuel vp blkno size st) : res (nat * biost D)) end.
    2: { revert Hs2. destruct (bfree i s1) as [t1| |]; kstep; [|done..]. destruct (bremhash i t1) as [t0| |]; kstep; [|done..]. destruct (bsetvp i vp t0) as [t2| |]; kstep; [|done..]. destruct (upd_buf i _ t2) as [t3| |]; kstep; [|done..]. by intros ->. }
    assert (bufs s2 !! i = Some y) as Hy by (rewrite Eb2; apply list_lookup_insert_eq; by eapply lookup_lt_Some).
    assert (forall f, bhas y f = has B_BUSY f) as Fy by (intros f; unfold bhas; by rewrite Yfl).
    assert (frame mine V s1 s2) as Fr2 by (apply (frame_upd _ _ _ s2 _ i x y); try done; [congruence|by rewrite Ed2..]). assert (frame mine V st s2) as Fr by (by etransitivity).
    assert (work s2 = work s1) as Hw2. { unfold work. rewrite Eb2, Ed2. pose proof (sum_insert weight _ _ _ y Hx) as Hu. unfold weight in Hu at 2 4. rewrite Fy in Hu. change (bhas x B_DELWRI) with (has (b_flags x) B_DELWRI) in Hu. rewrite Efl in Hu. change (has B_BUSY B_DELWRI) with false in Hu. cbv iota in Hu. lia. }
    assert (valid y) as Hvy by (split; [congruence|by rewrite Fy]). assert (i ∉ moving s2) as Hm2 by (by rewrite Ed2).
    destruct (brealloc_spec iodone P strategy sleep LAWS _ V s2 i y size clbytes fuel SUN3 HI2 Hin Hm2 Hy Hvy) as (ok & st2 & -> & Fr3 & Hw3 & Hok).
    { by rewrite Fy. } { right. intros a Ha. unfold span in Ha. rewrite Ybc in Ha. lia. } { by rewrite (fr_err _ _ _ _ Fr). } { by rewrite Ybl. } { done. } { rewrite Yvp, Ybl. by eapply Hap. } { by rewrite Fy. } { lia. }
    kstep. rewrite Em in *. assert (frame mine V st st2) as Frr by (by etransitivity). destruct ok.
    + destruct Hok as (HI3 & Hm3 & x2 & Hx2 & E1 & E2 & E3 & E4 & E5 & E6). exists i, st2, x2. split_and!; try done; [lia|split; [congruence|rewrite E3; by rewrite Fy]|congruence|congruence].
    + destruct Hok as [HI3 Hw3']. eapply (got_trans _ _ _ st2); [done|lia|]. apply IH; [done|by eapply request_frame|by rewrite (fr_err _ _ _ _ Frr)|lia].
Qed.
End Read.
