(* ===== verification/BioThms.v ===== *)
(** * The buffer cache: what it promises

    A process that reads and writes through the cache, writing behind, asynchronously or at once as it likes, sees what it would see
    without one; and after bflush() what it wrote is on the device when the device is quiet. *)

From S2P Require Import Prelude Flags Bio BioInv BioOps BioWrite BioGet BioRead.
From stdpp Require Import prelude list numbers strings functions relations gmap.
From Stdlib Require Import ZArith Lia.

Local Open Scope Z_scope.
Local Open Scope kern_scope.

Section Thms.
Context {D : Type} `{!Drive D}.
Implicit Type st : biost D.
Implicit Type mine : gset nat.

Notation moving st := (started (bdev st)).
Notation disk st := (platter (bdev st)).

#[local] Existing Instance frame_refl.
#[local] Existing Instance frame_trans.

Lemma work_bound P mine V st : inv P mine V st -> (work st <= 3 * length (bufs st))%nat.
Proof.
  intros HI. unfold work. assert (length (moving st) <= length (bufs st))%nat.
  { rewrite <- (length_seq (length (bufs st)) 0). apply submseteq_length, NoDup_submseteq; [apply HI|]. intros i Hi. apply elem_of_seq. pose proof (i_known _ _ _ _ HI i ltac:(tauto)). lia. }
  assert (sum_list_with weight (bufs st) <= 2 * length (bufs st))%nat; [|lia]. generalize (bufs st). intros l. clear. induction l as [|x l IH]; [done|]. cbn [sum_list_with length]. unfold weight at 1. destruct (bhas x B_DELWRI); lia.
Qed.

Context (P : Z -> Z -> Z -> Prop) (iodone : nat -> biost D -> res (biost D)).
Context (strategy : nat -> biost D -> res (biost D)) (sleep : bchan -> biost D -> res (biost D)) (LAWS : drive_laws iodone strategy sleep).
Context (v_rdev : Z -> Z) (clbytes : Z) (SUN3 : clbytes = MAXBSIZE).
Notation inv := (inv P).

Lemma clamp_id blkno : 0 <= blkno < 2 ^ 23 -> clamp_blkno blkno = blkno.
Proof. intros Hb. unfold clamp_blkno. change (32 - DEV_BSHIFT) with 23. rewrite wrapu_small by lia. by rewrite (proj2 (Z.leb_gt (2 ^ 23) blkno)) by lia. Qed.

(** bread(): the buffer holds the volume's bytes. *)
Lemma bread_spec mine V st vp blkno size fuel : inv mine V st -> request P mine st vp blkno size -> bu_error st = 0 -> (work st + 3 <= fuel)%nat ->
  exists i st' x, bread strategy sleep v_rdev clbytes fuel vp blkno size st = Ok (i, st') /\ i ∉ mine /\ inv ({[i]} ∪ mine) V st' /\ frame mine V st st' /\ (work st' <= work st)%nat /\
    bufs st' !! i = Some x /\ i ∉ moving st' /\ valid x /\ b_vp x = vp /\ b_blkno x = blkno /\ b_bcount x = size /\ bhas x B_DONE = true /\
    (bhas x B_DELWRI = true \/ on_disk V st' x) /\ (forall a, span x a -> byte_of x a = V vp a).
Proof.
  intros HI HR He Hf. pose proof HR as [R1 R2 R3 R4 R5 R6 R7]. unfold bread. rewrite (proj2 (Z.eqb_neq size 0)) by lia. unfold getblk.
  rewrite clamp_id by apply R2.
  destruct (getblk_loop_spec P iodone strategy sleep LAWS v_rdev clbytes SUN3 mine V vp blkno size fuel st HI HR He Hf) as (i & st1 & x & -> & Hni & HI1 & Fr1 & Hw1 & Hx & Hm & Hv & Evp & Ebl & Ebc & Has & Hset). kstep.
  rewrite (get_buf_Ok _ _ _ Hx). kstep. destruct (i_buf _ _ _ _ HI1 i x Hx) as [B1 B2 B3 B4 B5 B6 B7 B8 B9 B10]. assert (i ∈ {[i]} ∪ mine) as Hin by set_solver.
  destruct (bhas x B_DONE) eqn:Ed.
  - exists i, st1, x. split_and!; try done. intros a Ha. rewrite <- Evp. eapply (i_mem _ _ _ _ HI1); eauto. done.
  - assert (bhas x B_DELWRI = false) as Ew by (destruct (bhas x B_DELWRI) eqn:W; [destruct (B7 eq_refl) as (_ & ? & _); congruence|done]). unfold start_read. rewrite (upd_buf_Ok _ _ _ _ Hx). kstep.
    set (x1 := bset B_READ x). set (s1 := set_bufs _ st1). assert (bufs s1 !! i = Some x1) as Hx1 by (apply list_lookup_insert_eq; by eapply lookup_lt_Some). rewrite (get_buf_Ok _ _ _ Hx1). kstep.
    replace (b_bufsize x1 <? b_bcount x1) with false by (symmetry; apply Z.ltb_ge; cbn; lia).
    assert (forall f, has (b_flags x1) f = bhas x1 f) as Fx by done.
    assert (may_start x (b_flags x1)) as Hms.
    { destruct (quiet_flags _ B5) as (Q1 & Q2 & Q3 & Q4). split; rewrite ?Fx; subst x1; rewrite ?bhas_lor; bflags; try done; [apply B1; by left|by rewrite Q1, Q2, Q3, Q4]. }
    assert (has (b_flags x1) B_ASYNC = false) as Has1 by (rewrite Fx; subst x1; by bflags).
    destruct (sync_io iodone P strategy sleep LAWS _ V st1 i x (b_flags x1) fuel HI1 Hin Hm Hx Hv Hms Has1 ltac:(by rewrite (fr_err _ _ _ _ Fr1)) ltac:(lia)) as (st2 & Hs & Hio).
    change (set_bufs (<[i := set_bflags (b_flags x1) x]> (bufs st1)) st1) with s1 in Hs. rewrite Hs. kstep.
    destruct (Hio (pay_read st2)) as (st3 & x3 & -> & HI3 & Hx3 & Hd3 & Hm3 & Hs3 & Hw3 & Ho3 & Fr3 & Hwk3); [done|]. kstep.
    assert (started_V x (b_flags x1) V = V) as EV. { unfold started_V. rewrite Fx. subst x1. rewrite bhas_bset. change (has B_READ B_READ) with true. by rewrite orb_true_r. } rewrite EV in *.
    assert (({[i]} ∪ mine) ∖ {[i]} = mine) as Em by set_solver. rewrite Em in Fr3. pose proof Hs3 as (S1 & S2 & S3 & S4).
    exists i, st3, x3. split; [done|]. split; [done|]. split; [done|]. split; [by etransitivity|]. split; [lia|]. split; [done|]. split; [done|]. split; [by apply (same_valid _ _ Hs3)|].
    split; [congruence|]. split; [congruence|]. split; [congruence|]. split; [done|]. split; [by right|]. intros a Ha. rewrite <- Evp, <- S1. eapply (i_mem _ _ _ _ HI3); eauto. split; [by apply (same_valid _ _ Hs3)|done].
Qed.

(** ** bflush() *)

Lemma notavail_took st i x h : bufs st !! i = Some x -> on_queue (freeq st) h i -> notavail i st = Ok (took i x st).
Proof.
  intros Hx Hf. unfold notavail, bremfree. replace (existsb _ _) with true.
  - kstep. rewrite (upd_buf_Ok _ _ x) by done. done.
  - symmetry. apply existsb_exists. destruct Hf as (q & Hq & Hi). exists q. split; [|by apply bool_decide_true]. apply list_elem_of_In. by eapply list_elem_of_lookup_2.
Qed.

Lemma bset_comm f g x : bset f (bset g x) = bset g (bset f x).
Proof. unfold bset, set_bflags, with_bits. cbn. f_equal. rewrite <- !Z.lor_assoc. f_equal. apply Z.lor_comm. Qed.

Lemma push_out_spec mine V st i x h fuel : inv mine V st -> bufs st !! i = Some x -> on_queue (freeq st) h i -> h <> BQ_EMPTY -> bhas x B_DELWRI = true -> bu_error st = 0 -> (work st + 1 <= fuel)%nat ->
  exists st', push_out strategy sleep fuel i st = Ok st' /\ inv mine V st' /\ frame mine V st st' /\ (work st' < work st)%nat.
Proof.
  intros HI Hx Hq Hh Hw He Hf. unfold push_out. rewrite (upd_buf_Ok _ _ _ _ Hx). kstep. set (s1 := set_bufs _ st).
  rewrite (notavail_took s1 i (bset B_ASYNC x) h) by (try done; apply list_lookup_insert_eq; by eapply lookup_lt_Some). kstep.
  assert (took i (bset B_ASYNC x) s1 = set_bufs (<[i := bset B_ASYNC (bset B_BUSY x)]> (bufs (took i x st))) (took i x st)) as ->.
  { unfold took, s1, set_freeq, set_bufs. cbn. rewrite !list_insert_insert_eq. by rewrite bset_comm. }
  destruct (push_spec iodone P strategy sleep LAWS mine V st i x h B_ASYNC fuel HI Hx Hq Hh Hw (or_intror eq_refl) He Hf) as (st' & -> & HI' & Fr & Hwk & _). exists st'. done.
Qed.

Lemma bfirst_spec p l st : (forall j, j ∈ l -> (j < length (bufs st))%nat) ->
  exists r, bfirst p l st = Ok r /\ match r with Some i => i ∈ l /\ exists x, bufs st !! i = Some x /\ p x = true | None => forall i x, i ∈ l -> bufs st !! i = Some x -> p x = false end.
Proof.
  induction l as [|j l IH]; intros Hk; cbn [bfirst]; [exists None; split; [done|]; by intros i x ?%elem_of_nil|].
  destruct (lookup_lt_is_Some_2 _ _ (Hk j ltac:(by left))) as [x Hx]. rewrite (get_buf_Ok _ _ _ Hx). kstep. destruct (p x) eqn:E; [exists (Some j); split; [done|]; split; [by left|eauto]|].
  destruct IH as (r & -> & Hr); [intros k Hk'; apply Hk; by right|]. exists r. split; [done|]. destruct r as [i|]; [destruct Hr; split; [by right|done]|].
  intros i y [->|Hi]%elem_of_cons Hy; [congruence|by eapply Hr].
Qed.

Lemma cached_queue st i : length (freeq st) = BQUEUES -> i ∈ cached st <-> exists h, on_queue (freeq st) h i /\ h <> BQ_EMPTY.
Proof.
  intros Hl. unfold cached. rewrite elem_of_concat. unfold on_queue. split.
  - intros (h & q & Hq & Hi). apply lookup_take_Some in Hq as [Hq Hh]. exists h. split; [by exists q|lia].
  - intros (h & (q & Hq & Hi) & Hh). exists h, q. split; [|done]. apply lookup_take_Some. split; [done|]. apply lookup_lt_Some in Hq. unfold BQUEUES, BQ_EMPTY in *. lia.
Qed.

Lemma bflush_spec mine V vp fuel : forall st, inv mine V st -> bu_error st = 0 -> (work st + 2 <= fuel)%nat ->
  exists st', bflush strategy sleep fuel vp st = Ok st' /\ inv mine V st' /\ frame mine V st st' /\ (work st' <= work st)%nat /\
    forall i x, i ∉ mine -> bufs st' !! i = Some x -> of_vnode vp x = true -> bhas x B_DELWRI = false.
Proof.
  induction fuel as [|fuel IH]; intros st HI He Hf; [lia|]. cbn [bflush].
  destruct (bfirst_spec (fun x => bhas x B_DELWRI && of_vnode vp x) (cached st) st) as (r & -> & Hr).
  { intros j (h & Hj & _)%cached_queue; [|apply HI]. apply (i_avail _ _ _ _ HI). by exists h. }
  kstep. destruct r as [i|].
  - destruct Hr as (Hi & x & Hx & [Hw Hv]%andb_true_iff). apply cached_queue in Hi as (h & Hq & Hh); [|apply HI].
    destruct (push_out_spec mine V st i x h fuel HI Hx Hq Hh Hw He ltac:(lia)) as (st1 & -> & HI1 & Fr1 & Hw1). kstep.
    destruct (IH st1 HI1) as (st' & -> & HI' & Fr' & Hw' & Hall); [by rewrite (fr_err _ _ _ _ Fr1)|lia|]. exists st'. split_and!; try done; [by etransitivity|lia].
  - exists st. split_and!; try done. intros i x Hni Hx Hv. destruct (bhas x B_DELWRI) eqn:Ew; [|done]. destruct (i_buf _ _ _ _ HI i x Hx) as [B1 B2 B3 B4 B5 B6 B7 B8 B9 B10].
    destruct (B7 Ew) as (Hvx & _ & Hm & _). destruct (proj2 (i_avail _ _ _ _ HI i)) as (h & Hq); [split_and!; [by eapply lookup_lt_Some|done|done]|].
    assert (h <> BQ_EMPTY) as Hh. { intros ->. destruct B2 as [[_ ?]|[B2 _]]; [done|]. rewrite (B9 Hvx) in B2. done. }
    pose proof (Hr i x) as Hp. cbn in Hp. rewrite Ew, Hv in Hp. apply Hp; [|done]. apply cached_queue; [apply HI|eauto].
Qed.

(** ** Programs *)

(** How a process gives a buffer back that it has changed: bdwrite(), bawrite() or bwrite(). *)
Inductive how := Delayed | Async | Sync.
Definition give_back (h : how) (fuel : nat) (i : nat) st : res (biost D) :=
  match h with Delayed => bdwrite i st | Async => bawrite strategy sleep fuel i st | Sync => bwrite strategy sleep fuel i st end.

(** The bytes of the block, and the block with other bytes. *)
Definition content (x : buf) : list Z := take (Z.to_nat (b_bcount x)) (b_mem x).
Definition fill (data : list Z) (x : buf) : buf := set_space (b_bufsize x) (data ++ drop (length data) (b_mem x)) x.

(** To read a block; to read it and write it back changed; to write it without reading; to flush. *)
Inductive bioop :=
| OpRead (vp blkno size : Z)
| OpUpdate (h : how) (vp blkno size : Z) (f : list Z -> list Z)
| OpWrite (h : how) (vp blkno : Z) (data : list Z)
| OpFlush (vp : Z).

Definition run1 (fuel : nat) (op : bioop) st : res (list Z * biost D) :=
  match op with
  | OpRead vp blkno size => '(i, st) ← bread strategy sleep v_rdev clbytes fuel vp blkno size st; x ← get_buf i st; st ← brelse i st; mret (content x, st)
  | OpUpdate h vp blkno size f =>
      '(i, st) ← bread strategy sleep v_rdev clbytes fuel vp blkno size st; st ← upd_buf i (fun x => fill (f (content x)) x) st; st ← give_back h fuel i st; mret ([], st)
  | OpWrite h vp blkno data =>
      '(i, st) ← getblk strategy sleep v_rdev clbytes fuel vp blkno (Z.of_nat (length data)) st; st ← upd_buf i (fill data) st; st ← give_back h fuel i st; mret ([], st)
  | OpFlush vp => st ← bflush strategy sleep fuel vp st; mret ([], st)
  end.
Fixpoint runs (fuel : nat) (ops : list bioop) st : res (list (list Z) * biost D) :=
  match ops with
  | [] => mret ([], st)
  | op :: ops => '(o, st) ← run1 fuel op st; '(os, st) ← runs fuel ops st; mret (o :: os, st)
  end.

(** The same without a cache. *)
Definition vread (V : Z -> Z -> Z) (vp blkno size : Z) : list Z := (fun k => V vp (DEV_BSIZE * blkno + k)) <$> seqZ 0 size.
Definition vwrite (V : Z -> Z -> Z) (vp blkno : Z) (data : list Z) (vp' a : Z) : Z :=
  if decide (vp' = vp /\ DEV_BSIZE * blkno <= a < DEV_BSIZE * blkno + Z.of_nat (length data)) then nth (Z.to_nat (a - DEV_BSIZE * blkno)) data 0 else V vp' a.
Definition vol1 (op : bioop) (V : Z -> Z -> Z) : list Z * (Z -> Z -> Z) :=
  match op with
  | OpRead vp blkno size => (vread V vp blkno size, V)
  | OpUpdate _ vp blkno size f => ([], vwrite V vp blkno (f (vread V vp blkno size)))
  | OpWrite _ vp blkno data => ([], vwrite V vp blkno data)
  | OpFlush _ => ([], V)
  end.
Fixpoint vols (ops : list bioop) (V : Z -> Z -> Z) : list (list Z) * (Z -> Z -> Z) :=
  match ops with [] => ([], V) | op :: ops => let '(o, V) := vol1 op V in let '(os, V) := vols ops V in (o :: os, V) end.

(** Blocks of a file system, [wsz] their sizes: they are written whole, and read whole or from their beginning. *)
Definition op_ok (wsz : Z -> Z -> Z) (op : bioop) : Prop :=
  match op with
  | OpRead vp blkno size => vp <> 0 /\ aligned blkno size /\ 0 < size <= wsz vp blkno
  | OpUpdate _ vp blkno size f => vp <> 0 /\ aligned blkno size /\ 0 < size /\ size = wsz vp blkno /\ forall l, length (f l) = length l
  | OpWrite _ vp blkno data => vp <> 0 /\ aligned blkno (Z.of_nat (length data)) /\ 0 < Z.of_nat (length data) /\ Z.of_nat (length data) = wsz vp blkno
  | OpFlush _ => True
  end.

(** ** The proof *)

Lemma content_vread V x : 0 <= b_bcount x <= Z.of_nat (length (b_mem x)) -> (forall a, span x a -> byte_of x a = V (b_vp x) a) -> content x = vread V (b_vp x) (b_blkno x) (b_bcount x).
Proof.
  intros Hl Hb. unfold content, vread. apply list_eq_same_length with (n := Z.to_nat (b_bcount x)).
  - by rewrite length_fmap, length_seqZ.
  - rewrite length_take. lia.
  - intros k y z Hk Hy Hz. rewrite list_lookup_fmap, lookup_seqZ_lt in Hz by lia. injection Hz as <-. rewrite lookup_take_lt in Hy by lia.
    specialize (Hb (DEV_BSIZE * b_blkno x + Z.of_nat k)). unfold byte_at, span in Hb. replace (0 + Z.of_nat k) with (Z.of_nat k) by lia. rewrite <- Hb by lia.
    replace (Z.to_nat _) with k by lia. symmetry. by apply nth_lookup_Some with (d := 0) in Hy.
Qed.

Lemma overlay_fill V x data vp a : valid x -> Z.of_nat (length data) = b_bcount x -> (length data <= length (b_mem x))%nat -> overlay (fill data x) V vp a = vwrite V (b_vp x) (b_blkno x) data vp a.
Proof.
  intros Hv Hl Hm. unfold overlay, vwrite. assert (covers (fill data x) vp a <-> vp = b_vp x /\ DEV_BSIZE * b_blkno x <= a < DEV_BSIZE * b_blkno x + Z.of_nat (length data)) as E.
  { unfold covers, span. cbn. rewrite Hl. split; [intros (_ & <- & ?); done|]. intros [-> Ha]. exact (conj Hv (conj eq_refl Ha)). }
  destruct (decide (covers _ _ _)) as [H|H]; [rewrite decide_True by (by apply E)|by rewrite decide_False by (by rewrite <- E)].
  apply E in H. unfold byte_at. cbn. apply app_nth1. lia.
Qed.

Lemma overlay_twice x V vp a : overlay x (overlay x V) vp a = overlay x V vp a.
Proof. unfold overlay. by destruct (decide _). Qed.

Lemma give_back_spec mine V st i x h fuel : inv mine V st -> i ∈ mine -> i ∉ moving st -> bufs st !! i = Some x -> valid x -> P (b_vp x) (b_blkno x) (b_bcount x) -> bu_error st = 0 -> (work st + 1 <= fuel)%nat ->
  exists st', give_back h fuel i st = Ok st' /\ inv (mine ∖ {[i]}) (overlay x V) st' /\ frame (mine ∖ {[i]}) (overlay x V) st st'.
Proof.
  intros HI Hi Hm Hx Hv HP He Hf. destruct h; cbn [give_back].
  - destruct (bdwrite_spec P mine V st i x HI Hi Hm Hx Hv HP) as (st' & -> & ? & ? & _). by exists st'.
  - unfold bawrite. rewrite (upd_buf_Ok _ _ _ _ Hx). kstep. destruct (reflag_inv P mine V st i x B_ASYNC HI Hx Hi Hm eq_refl) as [HI1 Hw1]. set (s1 := set_bufs _ st) in *. set (x1 := bset B_ASYNC x) in *.
    assert (same_block x x1) as Es by (by apply same_bset). assert (bufs s1 !! i = Some x1) as Hx1 by (apply list_lookup_insert_eq; by eapply lookup_lt_Some).
    destruct (bwrite_spec iodone P strategy sleep LAWS mine V s1 i x1 fuel HI1 Hi Hm Hx1) as (st' & -> & HI' & Fr & _); [by apply (same_valid _ _ Es)|done|by rewrite Hw1|].
    assert (forall vp a, overlay x V vp a = overlay x1 V vp a) as EV.
    { intros vp a. unfold overlay. destruct (decide (covers x vp a)) as [H|H]; [by rewrite decide_True by (by apply (same_covers _ _ _ _ Es))|by rewrite decide_False by (by rewrite (same_covers _ _ _ _ Es))]. }
    exists st'. split; [done|]. split; [by eapply inv_V; [|exact HI']|]. apply (frame_upd _ _ _ s1 _ i x x1); try done; [set_solver|]. by eapply frame_V; [|exact Fr].
  - destruct (bwrite_spec iodone P strategy sleep LAWS mine V st i x fuel HI Hi Hm Hx Hv He Hf) as (st' & -> & ? & ? & _). by exists st'.
Qed.

(** A buffer of the process gets other bytes and is given back. *)
Lemma put_back_spec V st i x data h fuel : inv {[i]} V st -> i ∉ moving st -> bufs st !! i = Some x -> valid x -> P (b_vp x) (b_blkno x) (b_bcount x) -> bu_error st = 0 ->
  Z.of_nat (length data) = b_bcount x -> (work st + 1 <= fuel)%nat ->
  exists st', (st ← upd_buf i (fill data) st; give_back h fuel i st) = Ok st' /\ inv ∅ (vwrite V (b_vp x) (b_blkno x) data) st' /\
    length (bufs st') = length (bufs st) /\ bu_error st' = 0 /\ (spare ∅ st -> spare ∅ st').
Proof.
  intros HI Hm Hx Hv HP He Hl Hf. assert (i ∈ ({[i]} : gset nat)) as Hi by set_solver. destruct (i_buf _ _ _ _ HI i x Hx) as [B1 B2 B3 B4 B5 B6 B7 B8 B9 B10].
  assert (length data <= length (b_mem x))%nat as Hle by lia. rewrite (upd_buf_Ok _ _ _ _ Hx). kstep. set (x' := fill data x). set (s1 := set_bufs _ st).
  assert (length (data ++ drop (length data) (b_mem x)) = length (b_mem x)) as Hlm by (rewrite length_app, length_drop; lia).
  pose proof (scribble_inv P {[i]} V st i x _ HI Hi Hm Hx Hlm) as HI1. cbv zeta in HI1. change (set_space (b_bufsize x) (data ++ drop (length data) (b_mem x)) x) with x' in HI1. change (set_bufs _ st) with s1 in HI1.
  set (V1 := if bhas x B_DONE then _ else V) in HI1. assert (bufs s1 !! i = Some x') as Hx1 by (apply list_lookup_insert_eq; by eapply lookup_lt_Some).
  assert (work s1 = work st) as Hw. { pose proof (work_upd st i x x' Hx) as Hu. change (weight x') with (weight x) in Hu. change (set_bufs _ st) with s1 in Hu. lia. }
  destruct (give_back_spec {[i]} V1 s1 i x' h fuel HI1 Hi Hm Hx1 Hv HP He ltac:(lia)) as (st' & -> & HI' & Fr). exists st'. split; [done|].
  assert (({[i]} : gset nat) ∖ {[i]} = ∅) as Em by set_solver. rewrite Em in *.
  assert (forall vp a, vwrite V (b_vp x) (b_blkno x) data vp a = overlay x' V1 vp a) as EV.
  { intros vp a. rewrite <- overlay_fill by done. fold x'. subst V1. destruct (bhas x B_DONE); [by rewrite overlay_twice|done]. }
  split; [by eapply inv_V; [|exact HI']|]. assert (frame ∅ (overlay x' V1) st st') as Fr' by (by apply (frame_upd _ _ _ s1 _ i x x')).
  split; [by apply Fr'|]. split; [by rewrite (fr_err _ _ _ _ Fr')|]. by apply (spare_frame _ _ _ _ _ Fr').
Qed.

Section Programs.
Context (wsz : Z -> Z -> Z) (WHOLE : P = fun vp blkno n => n = wsz vp blkno).

(** Between two operations: the process holds no buffer. *)
Definition calm V st : Prop := inv ∅ V st /\ spare ∅ st /\ bu_error st = 0.

Lemma request_empty st vp blkno size : spare ∅ st -> vp <> 0 -> aligned blkno size -> 0 < size <= wsz vp blkno -> request P ∅ st vp blkno size.
Proof. intros Hs Hv Ha Hz. split; try done; try lia. rewrite WHOLE. intros n ->. lia. Qed.

Lemma run1_spec op V st fuel : calm V st -> op_ok wsz op -> (3 * length (bufs st) + 4 <= fuel)%nat ->
  exists st', run1 fuel op st = Ok (fst (vol1 op V), st') /\ calm (snd (vol1 op V)) st' /\ length (bufs st') = length (bufs st).
Proof.
  intros (HI & Hs & He) Hop Hf. pose proof (work_bound _ _ _ _ HI) as Hwb. assert (forall i : nat, ({[i]} : gset nat) ∪ ∅ = {[i]}) as E1 by set_solver.
  destruct op as [vp blkno size|h vp blkno size f|h vp blkno data|vp]; cbn [run1 vol1 fst snd op_ok] in *.
  - destruct Hop as (O1 & O2 & O3). destruct (bread_spec ∅ V st vp blkno size fuel HI) as (i & s1 & x & -> & Hni & HI1 & Fr1 & Hw1 & Hx & Hm & Hv & Evp & Ebl & Ebc & Hd & Hset & Hb); [by apply request_empty|done|lia|].
    kstep. rewrite (get_buf_Ok _ _ _ Hx). kstep. rewrite E1 in HI1. destruct (i_buf _ _ _ _ HI1 i x Hx) as [B1 B2 B3 B4 B5 B6 B7 B8 B9 B10].
    destruct (brelse_spec P {[i]} V s1 i x HI1 ltac:(set_solver) Hm Hx) as (st' & -> & HI' & Eb & _ & Ed & Ee); [by intros _|]. kstep.
    assert (({[i]} : gset nat) ∖ {[i]} = ∅) as Em by set_solver. rewrite Em in HI'. exists st'. split; [|split].
    + do 3 f_equal. subst vp blkno size. rewrite <- content_vread by (try done; lia). done.
    + split; [done|]. split; [|by rewrite Ee, (fr_err _ _ _ _ Fr1)]. assert (bufs s1 !! i = Some x) as Hx' by done.
      apply (spare_frame ∅ ∅ V s1); [|by eapply spare_frame]. apply (frame_upd ∅ V s1 st' st' i x (bclr FREED x)); try done. intros vp' a. by rewrite Ed.
    + by rewrite Eb, length_insert, (fr_len _ _ _ _ Fr1).
  - destruct Hop as (O1 & O2 & O3 & O4 & O5). destruct (bread_spec ∅ V st vp blkno size fuel HI) as (i & s1 & x & -> & Hni & HI1 & Fr1 & Hw1 & Hx & Hm & Hv & Evp & Ebl & Ebc & Hd & Hset & Hb); [apply request_empty; try done; lia|done|lia|].
    kstep. rewrite E1 in HI1. destruct (i_buf _ _ _ _ HI1 i x Hx) as [B1 B2 B3 B4 B5 B6 B7 B8 B9 B10].
    assert (content x = vread V vp blkno size) as Ec by (rewrite <- Evp, <- Ebl, <- Ebc; apply content_vread; [lia|by rewrite Evp]).
    assert (Z.of_nat (length (f (content x))) = b_bcount x) as Hl by (rewrite O5; unfold content; rewrite length_take; lia).
    destruct (put_back_spec V s1 i x (f (content x)) h fuel HI1 Hm Hx Hv) as (st' & Hp & HI' & Hlen & He' & Hs'); [by rewrite WHOLE, Evp, Ebl, Ebc|by rewrite (fr_err _ _ _ _ Fr1)|done|lia|].
    rewrite (upd_buf_Ok _ _ _ _ Hx) in Hp. rewrite (upd_buf_Ok _ _ _ _ Hx). revert Hp. kstep. intros ->. kstep. exists st'. split; [done|]. rewrite Evp, Ebl, Ec in HI'.
    split; [split; [done|split; [by apply Hs'; eapply spare_frame|done]]|]. by rewrite Hlen, (fr_len _ _ _ _ Fr1).
  - destruct Hop as (O1 & O2 & O3 & O4). unfold getblk. rewrite clamp_id by apply O2.
    destruct (getblk_loop_spec P iodone strategy sleep LAWS v_rdev clbytes SUN3 ∅ V vp blkno (Z.of_nat (length data)) fuel st HI) as (i & s1 & x & -> & Hni & HI1 & Fr1 & Hw1 & Hx & Hm & Hv & Evp & Ebl & Ebc & Has & Hset); [apply request_empty; try done; lia|done|lia|].
    kstep. rewrite E1 in HI1.
    destruct (put_back_spec V s1 i x data h fuel HI1 Hm Hx Hv) as (st' & Hp & HI' & Hlen & He' & Hs'); [by rewrite WHOLE, Evp, Ebl, Ebc|by rewrite (fr_err _ _ _ _ Fr1)|done|lia|].
    rewrite (upd_buf_Ok _ _ _ _ Hx) in Hp. rewrite (upd_buf_Ok _ _ _ _ Hx). revert Hp. kstep. intros ->. kstep. exists st'. split; [done|]. rewrite Evp, Ebl in HI'.
    split; [split; [done|split; [by apply Hs'; eapply spare_frame|done]]|]. by rewrite Hlen, (fr_len _ _ _ _ Fr1).
  - destruct (bflush_spec ∅ V vp fuel st HI He ltac:(lia)) as (st' & -> & HI' & Fr & _). kstep. exists st'. split; [done|]. split; [split; [done|split; [by eapply spare_frame|by rewrite (fr_err _ _ _ _ Fr)]]|]. by rewrite (fr_len _ _ _ _ Fr).
Qed.

Lemma runs_spec ops : forall V st fuel, calm V st -> Forall (op_ok wsz) ops -> (3 * length (bufs st) + 4 <= fuel)%nat ->
  exists st', runs fuel ops st = Ok (fst (vols ops V), st') /\ calm (snd (vols ops V)) st' /\ length (bufs st') = length (bufs st).
Proof.
  induction ops as [|op ops IH]; intros V st fuel Hc Ho Hf; cbn [runs vols].
  - by exists st.
  - apply Forall_cons in Ho as [Ho Hos]. destruct (run1_spec op V st fuel Hc Ho Hf) as (s1 & -> & Hc1 & Hl1). kstep.
    destruct (IH (snd (vol1 op V)) s1 fuel Hc1 Hos) as (st' & -> & Hc' & Hl'); [by rewrite Hl1|]. kstep. exists st'.
    destruct (vol1 op V) as [o V1]. cbn [fst snd] in *. destruct (vols ops V1) as [os V2]. cbn [fst snd] in *. split_and!; [done..|congruence].
Qed.

(** When nothing is written behind and nothing on its way, the device has it all. *)
Lemma clean_disk V st : inv ∅ V st -> moving st = [] -> (forall i x, bufs st !! i = Some x -> bhas x B_DELWRI = false) -> forall vp a, disk st vp a = V vp a.
Proof.
  intros HI Hm Hw vp a. destruct (decide (V vp a = disk st vp a)) as [->|Hn]; [done|]. destruct (i_disk _ _ _ _ HI vp a Hn) as (i & x & Hx & _ & [Ha|[[Ha _]|[Ha _]]]).
  - by rewrite (Hw i x Hx) in Ha.
  - rewrite Hm in Ha. by apply elem_of_nil in Ha.
  - by apply not_elem_of_empty in Ha.
Qed.

(** C3: A process that reads, rewrites and writes blocks of volumes through the buffer cache - whatever it leaves to bdwrite(), bawrite() or bwrite(),
    whichever buffers are taken away for other blocks in between and whenever the device ends its transfers - reads exactly what it
    would read without a cache; no operation runs out of steps or panics.  After bflush() of everything nothing is written behind any more, and
    once the device is quiet it holds exactly what was written. *)
Theorem cache_refines_volume ops V st fuel : calm V st -> Forall (op_ok wsz) ops -> (3 * length (bufs st) + 4 <= fuel)%nat ->
  exists st1 st2, runs fuel ops st = Ok (fst (vols ops V), st1) /\ calm (snd (vols ops V)) st1 /\
    bflush strategy sleep fuel 0 st1 = Ok st2 /\ calm (snd (vols ops V)) st2 /\ (forall i x, bufs st2 !! i = Some x -> bhas x B_DELWRI = false) /\
    (moving st2 = [] -> forall vp a, disk st2 vp a = snd (vols ops V) vp a).
Proof.
  intros Hc Ho Hf. destruct (runs_spec ops V st fuel Hc Ho Hf) as (s1 & -> & (HI1 & Hs1 & He1) & Hl1). pose proof (work_bound _ _ _ _ HI1) as Hw.
  destruct (bflush_spec ∅ _ 0 fuel s1 HI1 He1 ltac:(lia)) as (s2 & Hfl & HI2 & Fr & _ & Hcl). exists s1, s2.
  assert (forall i x, bufs s2 !! i = Some x -> bhas x B_DELWRI = false) as Hall by (intros i x Hx; eapply Hcl; [apply not_elem_of_empty|exact Hx|unfold of_vnode; by rewrite orb_true_r]).
  split; [done|]. split; [done|]. split; [done|]. split; [split; [done|split; [by eapply spare_frame|by rewrite (fr_err _ _ _ _ Fr)]]|]. split; [done|]. intros Hm. by apply clean_disk.
Qed.
End Programs.
End Thms.

(** ** The buffer cache: what binit() leaves

    Of as many pages as buffers, each of [MAXBSIZE] bytes, binit() makes a cache without a block, all of whose buffers are free. *)

Section Init.
Context {D : Type} `{!Drive D}.
Context (P : Z -> Z -> Z -> Prop).
Implicit Type st : biost D.

(** The memory of the machine as it starts: nothing in [buf[]], bhinit() has made the chains empty and binit() the lists. *)
Definition zero_buf : buf := Buf 0 0 0 0 0 0 0 0 (repeat 0 (Z.to_nat MAXBSIZE)).
Definition boot (n : nat) (vc : Z -> Z) (d : D) : biost D :=
  Biost (replicate n zero_buf) (replicate (Z.to_nat BUFHSZ + BQUEUES) []) (replicate BQUEUES []) false vc 0 0 0 [] d.

(** After the first [k] rounds of the loop. *)
Definition free_buf : buf := Buf B_INVAL 0 MAXBSIZE 0 NODEV 0 0 0 (repeat 0 (Z.to_nat MAXBSIZE)).
Definition begun (n k : nat) (vc : Z -> Z) (d : D) : biost D :=
  Biost (replicate k free_buf ++ replicate (n - k) zero_buf) (<[head_chain BQ_AGE := reverse (seq 0 k)]> (replicate (Z.to_nat BUFHSZ + BQUEUES) []))
    (<[BQ_AGE := reverse (seq 0 k)]> (replicate BQUEUES [])) false vc 0 0 0 [] d.

Lemma insert_next {A} (n k : nat) (z y : A) : (k < n)%nat -> <[k := y]> (replicate k y ++ replicate (n - k) z) = replicate (S k) y ++ replicate (n - S k) z.
Proof.
  intros Hk. rewrite insert_app_r_alt by (by rewrite length_replicate). rewrite length_replicate, Nat.sub_diag. replace (n - k)%nat with (S (n - S k)) by lia.
  rewrite (replicate_S_end k y), <- app_assoc. done.
Qed.

Lemma concat_one n q (l : list nat) : (q < n)%nat -> concat (<[q := l]> (replicate n [])) = l.
Proof.
  assert (forall k, concat (replicate k ([] : list nat)) = []) as H0 by (induction k; done). revert n. induction q as [|q IH]; intros [|n] Hq; try lia; cbn; [by rewrite H0, app_nil_r|]. apply IH. lia.
Qed.

Lemma on_queue_one n q h i (l : list nat) : (q < n)%nat -> on_queue (<[q := l]> (replicate n [])) h i <-> h = q /\ i ∈ l.
Proof.
  intros Hq. unfold on_queue. destruct (decide (h = q)) as [->|Hn].
  - rewrite list_lookup_insert_eq by (by rewrite length_replicate). naive_solver.
  - rewrite list_lookup_insert_ne by done. split; [|tauto]. intros (r & [-> _]%lookup_replicate & Hi). by apply elem_of_nil in Hi.
Qed.

Lemma begun_lookup n k vc d : (k < n)%nat -> bufs (begun n k vc d) !! k = Some zero_buf.
Proof. intros Hk. cbn. rewrite lookup_app_r by (by rewrite length_replicate). rewrite length_replicate. rewrite lookup_replicate_2 by lia. done. Qed.

Lemma binit_loop_spec n k m vc d : (k + m = n)%nat -> binit_loop MAXBSIZE 1 0 (seq k m) (begun n k vc d) = Ok (begun n n vc d).
Proof.
  revert k. induction m as [|m IH]; intros k Hk; cbn [seq binit_loop].
  - by replace k with n by lia.
  - rewrite (proj2 (Z.ltb_ge (Z.of_nat k) 0)) by lia. pose proof (begun_lookup n k vc d ltac:(lia)) as Hx. rewrite (upd_buf_Ok _ _ _ _ Hx). kstep.
    unfold binshash. rewrite (proj2 (rd_Ok _ _ (reverse (seq 0 k)))) by (apply list_lookup_insert_eq; by apply Nat.ltb_lt). kstep. cbn [hashq set_bufs begun]. unfold wr. rewrite decide_True by (rewrite length_insert; by apply Nat.ltb_lt). kstep.
    rewrite list_insert_insert_eq. set (s1 := set_hashq _ _). set (x1 := set_space _ _ _) in s1. assert (bufs s1 !! k = Some x1) as Hx1 by (apply list_lookup_insert_eq; by eapply lookup_lt_Some).
    rewrite (upd_buf_Ok _ _ _ _ Hx1). kstep. set (s2 := set_bufs _ s1). set (x2 := set_bflags _ x1) in s2. assert (bufs s2 !! k = Some x2) as Hx2 by (apply list_lookup_insert_eq; by eapply lookup_lt_Some).
    unfold brelse. rewrite (get_buf_Ok _ _ _ Hx2). kstep. change (bhas x2 B_WANTED) with false. change (bhas x2 B_NOCACHE) with false. change (fwant s2) with false. cbv iota.
    rewrite (put_buf_Ok _ _ _ _ Hx2). kstep. change (bhas x2 B_ERROR) with false. kstep. rewrite list_insert_id by done. assert (set_bufs (bufs s2) s2 = s2) as -> by done.
    rewrite (get_buf_Ok _ _ _ Hx2). kstep. change (b_bufsize x2 <=? 0) with false. change (bhas x2 (Z.lor B_ERROR B_INVAL)) with true. cbv iota.
    unfold binsheadfree, wr. change (freeq s2) with (<[BQ_AGE := reverse (seq 0 k)]> (replicate BQUEUES ([] : list nat))). rewrite (proj2 (rd_Ok _ _ (reverse (seq 0 k)))) by (apply list_lookup_insert_eq; by apply Nat.ltb_lt). kstep. rewrite decide_True by (by apply Nat.ltb_lt). kstep.
    rewrite (upd_buf_Ok _ _ x2) by done. kstep. rewrite <- (IH (S k)) by lia. f_equal. unfold begun, set_bufs, set_freeq. cbn [bufs hashq freeq fwant v_count bu_error ru_inblock ru_oublock bev bdev s2 s1 set_bufs set_hashq].
    assert (reverse (seq 0 (S k)) = k :: reverse (seq 0 k)) as -> by (rewrite seq_S, reverse_app; done). rewrite !list_insert_insert_eq. f_equal.
    apply (insert_next n k zero_buf free_buf). lia.
Qed.

Lemma begun_inv n vc d V : (forall vp, vp <> 0 -> 0 <= vc vp <= 65535 - Z.of_nat n) -> (forall vp a, platter d vp a = V vp a) -> started d = [] -> inv P ∅ V (begun n n vc d).
Proof.
  intros Hvc HV Hs. assert (head_chain BQ_AGE < Z.to_nat BUFHSZ + BQUEUES)%nat as L1 by (by apply Nat.ltb_lt). assert (BQ_AGE < BQUEUES)%nat as L2 by (by apply Nat.ltb_lt).
  assert (forall i, i ∈ reverse (seq 0 n) <-> (i < n)%nat) as Er by (intros i; rewrite elem_of_reverse, elem_of_seq; lia).
  assert (length (bufs (begun n n vc d)) = n) as El by (cbn; rewrite length_app, !length_replicate; lia).
  assert (forall i x, bufs (begun n n vc d) !! i = Some x -> x = free_buf /\ (i < n)%nat) as Hb.
  { intros i x. cbn. rewrite Nat.sub_diag, app_nil_r. by intros [-> ?]%lookup_replicate. }
  assert (forall i, i ∉ started (bdev (begun n n vc d))) as Hm by (intros i; cbn; rewrite Hs; apply not_elem_of_nil).
  assert (forall i : nat, i ∉ (∅ : gset nat)) as He by (intros i; apply not_elem_of_empty).
  assert (forall h i, on_queue (freeq (begun n n vc d)) h i <-> h = BQ_AGE /\ (i < n)%nat) as Hq by (intros h i; cbn [freeq begun]; rewrite on_queue_one by done; by rewrite Er).
  assert (NoDup (reverse (seq 0 n))) as Hnd by (rewrite reverse_Permutation; apply NoDup_seq). assert (~ valid free_buf) as Hnv by (intros [? _]; done).
  split.
  - cbn [hashq begun]. by rewrite length_insert, length_replicate.
  - cbn [freeq begun]. by rewrite length_insert, length_replicate.
  - cbn [hashq begun]. by rewrite concat_one.
  - cbn [freeq begun]. by rewrite concat_one.
  - cbn. rewrite Hs. by apply NoDup_nil.
  - intros i [Hi|[Hi|Hi]]; [|by destruct (He i)|by destruct (Hm i)]. cbn [hashq begun] in Hi. rewrite concat_one in Hi by done. rewrite El. by apply Er.
  - intros i Hi. rewrite El in Hi. cbn [hashq begun]. rewrite concat_one by done. by apply Er.
  - intros i. rewrite El. split; [intros (h & [_ Hi]%Hq); done|]. intros (Hi & _). exists BQ_AGE. by apply Hq.
  - intros i [Hi _]%Hq. done.
  - intros i x Hx. destruct (Hb i x Hx) as [-> Hi]. split; try done.
    + split; [done|]. by intros [?|?]; [destruct (He i)|destruct (Hm i)].
    + left. split; [done|]. by intros [? _]%Hq.
    + by intros ?%Hm.
  - intros i j x y vp a Hx _ (Hv & _). by destruct (Hb i x Hx) as [-> _].
  - intros i x a Hx _ (Hv & _). by destruct (Hb i x Hx) as [-> _].
  - intros vp a Hn. by rewrite HV in Hn.
  - intros vp Hn. assert (forall k, uses vp (replicate k free_buf) = O) as Hu.
    { assert (use vp free_buf = O) as Hu by (unfold use; by rewrite (proj2 (Z.eqb_neq _ vp))). induction k as [|k IH]; [done|]. unfold uses in *. cbn [replicate sum_list_with]. by rewrite Hu. }
    unfold counted. rewrite El. cbn [bufs begun v_count]. rewrite Nat.sub_diag, app_nil_r, Hu. specialize (Hvc vp Hn). lia.
Qed.

Lemma begun_spare n vc d : (0 < n)%nat -> spare ∅ (begun n n vc d).
Proof.
  intros Hn. exists O, free_buf. split; [apply not_elem_of_empty|]. split; [|done]. cbn. rewrite Nat.sub_diag, app_nil_r. by apply lookup_replicate_2.
Qed.

(** Every buffer is free and invalid, with memory and without a block or a vnode; all are on the free list of old buffers, and on the
    hash chain of its head, the last first; nothing is on another list. *)
Record all_free (n : nat) st : Prop := AllFree {
  af_length : length (bufs st) = n;
  af_buf i x : bufs st !! i = Some x -> b_flags x = B_INVAL /\ b_dev x = NODEV /\ b_vp x = 0 /\ b_bcount x = 0 /\ b_bufsize x = MAXBSIZE /\ length (b_mem x) = Z.to_nat MAXBSIZE;
  af_free q l : freeq st !! q = Some l -> l = if decide (q = BQ_AGE) then reverse (seq 0 n) else [];
  af_hash h l : hashq st !! h = Some l -> l = if decide (h = head_chain BQ_AGE) then reverse (seq 0 n) else []
}.

Lemma lookup_one n q h (l l' : list nat) : (q < n)%nat -> <[q := l]> (replicate n []) !! h = Some l' -> l' = if decide (h = q) then l else [].
Proof.
  intros Hq. destruct (decide (h = q)) as [->|Hn].
  - rewrite list_lookup_insert_eq by (by rewrite length_replicate). by intros [= ->].
  - rewrite list_lookup_insert_ne by done. by intros [-> _]%lookup_replicate.
Qed.

Lemma begun_all_free n vc d : all_free n (begun n n vc d).
Proof.
  split; cbn [bufs freeq hashq begun].
  - rewrite length_app, !length_replicate. lia.
  - intros i x. rewrite Nat.sub_diag, app_nil_r. intros [-> _]%lookup_replicate. by split_and!.
  - intros q l. apply lookup_one. by apply Nat.ltb_lt.
  - intros h l. apply lookup_one. by apply Nat.ltb_lt.
Qed.

(** C35: the loop of binit(), with one page of MAXBSIZE bytes for each of the [n] buffers, makes an empty cache in good order whatever is on the
    device: every buffer is on the free list of old buffers (BQ_AGE), the last first, and on no other, is not busy but invalid (its only flag is B_INVAL), has
    its page of memory, no bytes of data, no vnode and no device, and is on the hash chain of the head of that list; the other chains
    and lists are empty, no reference of a vnode is taken, nobody is woken and the device is left alone.  It is a state from which a process may begin
    to use the cache, the volumes being what is on the device, as long as the references of no vnode could overflow. *)
Theorem binit_makes_cache n vc d V : (0 < n)%nat -> (forall vp, vp <> 0 -> 0 <= vc vp <= 65535 - Z.of_nat n) -> (forall vp a, platter d vp a = V vp a) -> started d = [] ->
  exists st, binit_loop MAXBSIZE 1 0 (seq 0 n) (boot n vc d) = Ok st /\ calm P V st /\ all_free n st /\ v_count st = vc /\ bev st = [] /\ fwant st = false /\ bdev st = d.
Proof.
  intros Hn Hvc HV Hs. exists (begun n n vc d). split; [rewrite <- (binit_loop_spec n 0 n) by done; unfold begun; by rewrite Nat.sub_0_r|].
  split; [split; [by apply begun_inv|split; [by apply begun_spare|done]]|]. split; [apply begun_all_free|done].
Qed.
End Init.
