(* ===== verification/BioWitness.v ===== *)
(** * The buffer cache: a disk

    A disk that serves its requests in order, each when a process next sleeps, keeps what the device promises; and runs of the
    cache over it. *)

From S2P Require Import Prelude Flags Bio BioInv BioOps BioWrite BioGet BioRead BioThms.
From stdpp Require Import prelude list numbers strings functions relations gmap.
From Stdlib Require Import ZArith Lia.

Local Open Scope Z_scope.
Local Open Scope kern_scope.

Record fifo := Fifo { fq : list nat; sectors : Z -> Z -> Z }.
#[export] Instance fifo_drive : Drive fifo := { started := fq; platter := sectors }.
Notation fst_ := (biost fifo).

Definition no_call (_ : nat) (st : fst_) : res fst_ := mret st.
Definition fifo_strategy (i : nat) (st : fst_) : res fst_ := mret (set_bdev (Fifo (fq (bdev st) ++ [i]) (sectors (bdev st))) st).

(** The bytes of the block as they are on the disk, then what was behind them in memory. *)
Definition read_in (f : Z -> Z) (x : buf) : list Z := (f <$> seqZ (DEV_BSIZE * b_blkno x) (b_bcount x)) ++ drop (Z.to_nat (b_bcount x)) (b_mem x).
Definition write_out (x : buf) (f : Z -> Z -> Z) (vp a : Z) : Z := if decide (vp = b_vp x /\ span x a) then byte_at (b_mem x) x a else f vp a.

Definition fifo_sleep (_ : bchan) (st : fst_) : res fst_ :=
  match fq (bdev st) with
  | [] => mret st
  | i :: q =>
      x ← get_buf i st;
      if bhas x B_READ then biodone no_call i (after_transfer st i x (read_in (sectors (bdev st) (b_vp x)) x) (Fifo q (sectors (bdev st))))
      else biodone no_call i (after_transfer st i x (b_mem x) (Fifo q (write_out x (sectors (bdev st)))))
  end.

Lemma read_in_spec f x : b_bcount x <= Z.of_nat (length (b_mem x)) -> (forall a, span x a -> byte_at (read_in f x) x a = f a) /\ length (read_in f x) = length (b_mem x).
Proof.
  intros Hl. unfold read_in. split.
  - intros a Ha. unfold byte_at, span in *. rewrite app_nth1 by (rewrite length_fmap, length_seqZ; lia).
    apply nth_lookup_Some. rewrite list_lookup_fmap, lookup_seqZ_lt by lia. cbn. f_equal. f_equal. lia.
  - rewrite length_app, length_fmap, length_seqZ, length_drop. lia.
Qed.

Lemma fifo_laws : drive_laws no_call fifo_strategy fifo_sleep.
Proof.
  split.
  - intros st i Hi. exists (Fifo (fq (bdev st) ++ [i]) (sectors (bdev st))). eexists. split; [done|]. cbn. split; [by rewrite Permutation_app_comm|]. split; [done|]. apply rtc_refl.
  - intros st c Hn Hr. unfold fifo_sleep. cbn in Hn, Hr. destruct (fq (bdev st)) as [|i q] eqn:Eq; [done|]. destruct (Hr i ltac:(by left)) as (x & Hx & Hl & Hd).
    rewrite (get_buf_Ok _ _ _ Hx). kstep. destruct (read_in_spec (sectors (bdev st) (b_vp x)) x Hl) as [R1 R2]. destruct (bhas x B_READ) eqn:Er.
    + destruct (Hd (read_in (sectors (bdev st) (b_vp x)) x) (Fifo q (sectors (bdev st)))) as (st' & Hs). exists st'. split; [done|]. apply tc_once. eapply Finish; [exact Hx| |exact Hs].
      split; [cbn; by rewrite Eq|done|by intros _|by rewrite Er].
    + destruct (Hd (b_mem x) (Fifo q (write_out x (sectors (bdev st))))) as (st' & Hs). exists st'. split; [done|]. apply tc_once. eapply Finish; [exact Hx| |exact Hs].
      split; [cbn; by rewrite Eq|done|by rewrite Er|]. intros _. split; [done|]. cbn. unfold write_out. split; [intros a Ha; by rewrite decide_True|intros vp a Hna; by rewrite decide_False].
Qed.

(** Two volumes, 7 and 9, of blocks of 1024 bytes; byte [a] of the first is [a mod 251], the second is full of fours. *)
Definition sizes (_ _ : Z) : Z := 1024.
Definition whole (vp blkno n : Z) : Prop := n = sizes vp blkno.
Definition old (vp a : Z) : Z := if vp =? 7 then a mod 251 else 4.
Definition disk0 : fifo := Fifo [] old.
Definition page_of (v : Z) : list Z := repeat v 1024.

(** A cache of two buffers: blocks are written behind, at once and without waiting, and read again when others have taken their buffers. *)
Definition prog : list bioop :=
  [OpWrite Delayed 7 2 (page_of 1); OpUpdate Async 7 4 1024 (map (fun v => 255 - v)); OpRead 9 0 512; OpWrite Sync 9 6 (page_of 3); OpRead 7 2 1024; OpRead 7 4 512; OpUpdate Delayed 9 6 1024 (map (Z.add 1)); OpRead 9 6 512].

Lemma prog_ok : Forall (op_ok sizes) prog.
Proof. repeat (apply List.Forall_cons; [cbn; unfold aligned, sizes; split_and?; try done; try (intros l; apply length_map)|]). apply List.Forall_nil. Qed.

Lemma binit_makes_cache_witness : exists st, binit_loop MAXBSIZE 1 0 (seq 0 2) (boot 2 (fun _ => 1) disk0) = Ok st /\ calm whole old st /\ all_free 2 st /\ v_count st = (fun _ => 1) /\ bev st = [] /\ fwant st = false /\ bdev st = disk0.
Proof. apply (binit_makes_cache whole 2 (fun _ => 1) disk0 old); [lia|lia|done|done]. Defined.

Lemma cache0 : calm whole old (begun 2 2 (fun _ => 1) disk0).
Proof. split; [apply begun_inv; [lia|done|done]|]. split; [apply begun_spare; lia|done]. Qed.

Lemma cache_refines_volume_witness : exists st1 st2, runs fifo_strategy fifo_sleep (fun _ => 0) MAXBSIZE 10 prog (begun 2 2 (fun _ => 1) disk0) = Ok (fst (vols prog old), st1) /\ calm whole (snd (vols prog old)) st1 /\
  bflush fifo_strategy fifo_sleep 10 0 st1 = Ok st2 /\ calm whole (snd (vols prog old)) st2 /\ (forall i x, bufs st2 !! i = Some x -> bhas x B_DELWRI = false) /\
  (started (bdev st2) = [] -> forall vp a, platter (bdev st2) vp a = snd (vols prog old) vp a).
Proof. apply (cache_refines_volume whole no_call fifo_strategy fifo_sleep fifo_laws (fun _ => 0) MAXBSIZE eq_refl sizes eq_refl prog old (begun 2 2 (fun _ => 1) disk0) 10 cache0 prog_ok). cbn. lia. Defined.

(** What the reads of the program give. *)
Example prog_reads : option_map (fun r => map (fun l => (length l, nth 5 l 0)) (fst r)) (match runs fifo_strategy fifo_sleep (fun _ => 0) MAXBSIZE 10 prog (begun 2 2 (fun _ => 1) disk0) with Ok r => Some r | _ => None end) =
  Some [(0%nat, 0); (0%nat, 0); (512%nat, 4); (0%nat, 0); (1024%nat, 1); (512%nat, 255 - (2048 + 5) mod 251); (0%nat, 0); (512%nat, 4)].
Proof. vm_compute. reflexivity. Qed.

(** brealloc() waits for the overlapping buffers that are written behind, but not for the buffer itself: bread() of the larger block of which the beginning is
    written behind reads it from the disk again, over what was written. *)
Lemma bread_larger_loses : option_map fst (match runs fifo_strategy fifo_sleep (fun _ => 0) MAXBSIZE 10 [OpWrite Delayed 9 6 (repeat 3 512); OpRead 9 6 1024] (begun 2 2 (fun _ => 1) disk0) with Ok r => Some r | _ => None end) =
  Some [[]; repeat 4 1024].
Proof. vm_compute. reflexivity. Qed.

(** binvalfree(0) takes a free buffer without a vnode for one of those it looks for, each time anew. *)
Lemma binvalfree_all_hangs fuel : binvalfree fifo_strategy fifo_sleep fuel 0 (begun 2 2 (fun _ => 1) disk0) = Fault.
Proof. induction fuel as [|fuel IH]; [done|]. exact IH. Qed.
