(* ===== verification/Qsort.v ===== *)
(** * qsort() of the C library: [src/lib/libc/gen/qsort.c]

    The array is its bytes; a pointer into it is its distance from the first byte.  The comparison routine is an
    argument, a function of the two records its pointers lead to.  Definitions, and the step from bytes to records. *)

From S2P Require Import Prelude.
From stdpp Require Import prelude list numbers.
From Stdlib Require Import ZArith Lia.

Local Open Scope Z_scope.
Local Open Scope kern_scope.

Definition THRESH : Z := 4.
Definition MTHRESH : Z := 6.

Section Qsort.
Context (qsz : Z) (compar : list Z -> list Z -> Z).
Notation mem := (list Z).

Definition thresh : Z := qsz * THRESH.
Definition mthresh : Z := qsz * MTHRESH.

(** [qcmp(p, q)] *)
Definition record_at (p : Z) (m : mem) : res (list Z) :=
  if (0 <=? p) && (p + qsz <=? Z.of_nat (length m)) then mret (take (Z.to_nat qsz) (drop (Z.to_nat p) m)) else Fault.
Definition qcmp (p q : Z) (m : mem) : res Z := x ← record_at p m; y ← record_at q m; mret (compar x y).

(** The loops that exchange [ii] bytes. *)
Fixpoint swap (ii : nat) (i j : Z) (m : mem) : res mem :=
  match ii with
  | O => mret m
  | S ii => c ← rdz m i; d ← rdz m j; m ← wrz m i d; m ← wrz m j c; swap ii (i + 1) (j + 1) m
  end.

(** ** qst() *)

Definition median (base mid max : Z) (m : mem) : res mem :=
  let jj := base in
  let i := mid in
  c ← qcmp jj i m;
  let j := if 0 <? c then jj else i in
  let tmp := max - qsz in
  c ← qcmp j tmp m;
  j ← (if 0 <? c then
         let j := if j =? jj then i else jj in
         c ← qcmp j tmp m;
         mret (if c <? 0 then tmp else j)
       else mret j);
  if j =? i then mret m else swap (Z.to_nat qsz) i j m.

(** [while (i < mid && qcmp(i, mid) <= 0) i += qsz] *)
Fixpoint pass_low (fuel : nat) (i mid : Z) (m : mem) : res Z :=
  if i <? mid then
    c ← qcmp i mid m;
    if c <=? 0 then match fuel with O => Fault | S fuel => pass_low fuel (i + qsz) mid m end else mret i
  else mret i.

(** [while (j > mid) ...]: nothing is found, or two records are to be exchanged: [i] and [jj], with [j], [mid] and [i] after that. *)
Inductive found := Through (j : Z) | Exchange (jj j mid tmp : Z).
Fixpoint pass_high (fuel : nat) (i mid j : Z) (m : mem) : res found :=
  if mid <? j then
    c ← qcmp mid j m;
    if c <=? 0 then match fuel with O => Fault | S fuel => pass_high fuel i mid (j - qsz) m end
    else if i =? mid then mret (Exchange j j j (i + qsz))
    else mret (Exchange j (j - qsz) mid (i + qsz))
  else mret (Through j).

(** The discriminator ends at the pointer that is returned. *)
Fixpoint qst_part (fuel : nat) (i j mid : Z) (m : mem) : res (Z * mem) :=
  match fuel with
  | O => Fault
  | S fuel =>
      i ← pass_low (length m) i mid m;
      r ← pass_high (length m) i mid j m;
      match r with
      | Exchange jj j mid tmp => m ← swap (Z.to_nat qsz) i jj m; qst_part fuel tmp j mid m
      | Through j =>
          if i =? mid then mret (mid, m)
          else m ← swap (Z.to_nat qsz) i mid m; qst_part fuel i (j - qsz) i m
      end
  end.

Fixpoint qst_loop (fuel : nat) (base max lo : Z) (m : mem) : res mem :=
  match fuel with
  | O => Fault
  | S fuel =>
      let mid := base + qsz * Z.shiftr (lo `quot` qsz) 1 in
      m ← (if mthresh <=? lo then median base mid max m else mret m);
      '(j, m) ← qst_part (S (length m)) base (max - qsz) mid m;
      let i := j + qsz in
      let lo := j - base in
      let hi := max - i in
      if lo <=? hi then
        m ← (if thresh <=? lo then qst_loop fuel base j (j - base) m else mret m);
        if thresh <=? hi then qst_loop fuel i max hi m else mret m
      else
        m ← (if thresh <=? hi then qst_loop fuel i max (max - i) m else mret m);
        if thresh <=? lo then qst_loop fuel base j lo m else mret m
  end.
Definition qst (base max : Z) (m : mem) : res mem := qst_loop (length m) base max (max - base) m.

(** ** qsort() *)

(** The least of the records before [hi]. *)
Fixpoint find_min (fuel : nat) (j lo hi : Z) (m : mem) : res Z :=
  let lo := lo + qsz in
  if lo <? hi then
    match fuel with
    | O => Fault
    | S fuel => c ← qcmp j lo m; find_min fuel (if 0 <? c then lo else j) lo hi m
    end
  else mret j.

(** [while (qcmp(hi -= qsz, min) > 0);] *)
Fixpoint find_place (fuel : nat) (hi min : Z) (m : mem) : res Z :=
  let hi := hi - qsz in
  c ← qcmp hi min m;
  if 0 <? c then match fuel with O => Fault | S fuel => find_place fuel hi min m end else mret hi.

(** One byte of each record from [hi] on moves to the next record, up to the one at [i]. *)
Fixpoint shift_bytes (fuel : nat) (i hi : Z) (m : mem) : res (Z * mem) :=
  let j := i - qsz in
  if hi <=? j then
    match fuel with
    | O => Fault
    | S fuel => c ← rdz m j; m ← wrz m i c; shift_bytes fuel j hi m
    end
  else mret (i, m).
(** [n] bytes of the record from [min] on are left. *)
Fixpoint insert_bytes (n : nat) (min hi : Z) (m : mem) : res mem :=
  match n with
  | O => mret m
  | S n =>
      let lo := min + Z.of_nat n in
      c ← rdz m lo;
      '(i, m) ← shift_bytes (length m) lo hi m;
      m ← wrz m i c;
      insert_bytes n min hi m
  end.

Fixpoint insertion (fuel : nat) (min max : Z) (m : mem) : res mem :=
  let min := min + qsz in
  if min <? max then
    match fuel with
    | O => Fault
    | S fuel =>
        hi ← find_place (length m) min min m;
        let hi := hi + qsz in
        m ← (if hi =? min then mret m else insert_bytes (Z.to_nat qsz) min hi m);
        insertion fuel min max m
    end
  else mret m.

Definition qsort (n : Z) (m : mem) : res mem :=
  if n <=? 1 then mret m
  else
    let max := n * qsz in
    '(hi, m) ← (if THRESH <=? n then m ← qst 0 max m; mret (thresh, m) else mret (max, m));
    j ← find_min (length m) 0 0 hi m;
    m ← (if j =? 0 then mret m else swap (Z.to_nat qsz) j 0 m);
    insertion (length m) 0 max m.
End Qsort.

Example qsort3 : qsort 1 (fun x y => hd 0 x - hd 0 y) 12 [5;3;9;1;7;7;2;8;0;4;6;3] = Ok [0;1;2;3;3;4;5;6;7;7;8;9].
Proof. vm_compute. reflexivity. Qed.
Example qsort2 : qsort 2 (fun x y => hd 0 x - hd 0 y) 5 [5;50;3;30;9;90;1;10;7;70] = Ok [1;10;3;30;5;50;7;70;9;90].
Proof. vm_compute. reflexivity. Qed.

(** ** qsort(): from bytes to records

    The loops over the bytes of records exchange two records, or move one in front of others; a comparison is one of records. *)

(** The list with [x] at its place [i] ([f] of every other place), by its places. *)
Lemma list_ext_len {A} (l1 l2 : list A) : length l1 = length l2 -> (forall i, (i < length l1)%nat -> l1 !! i = l2 !! i) -> l1 = l2.
Proof.
  intros Hl H. apply list_eq. intros i. destruct (decide (i < length l1)%nat) as [Hi|Hi]; [by apply H|]. rewrite !lookup_ge_None_2 by lia. done.
Qed.

Section Mem.
Context (w : nat) (Hw : (0 < w)%nat).

Definition records (rs : list (list Z)) : Prop := Forall (fun r => length r = w) rs.

Lemma records_lookup rs i r : records rs -> rs !! i = Some r -> length r = w.
Proof. intros H E. by eapply (Forall_lookup_1 _ _ _ _ H). Qed.

Lemma flat_length rs : records rs -> length (concat rs) = (length rs * w)%nat.
Proof. induction 1 as [|r rs Hr _ IH]; [done|]. cbn. rewrite length_app. lia. Qed.

Lemma flat_lookup rs i r k : records rs -> rs !! i = Some r -> (k < w)%nat -> concat rs !! (i * w + k)%nat = r !! k.
Proof.
  intros H. revert i. induction H as [|r' rs Hr _ IH]; intros [|i] E Hk; try done; cbn in E |- *.
  - injection E as ->. by rewrite lookup_app_l by lia.
  - rewrite lookup_app_r by lia. rewrite <- (IH i E Hk). f_equal. lia.
Qed.

Lemma flat_ext m rs : records rs -> length m = (length rs * w)%nat -> (forall i r k, rs !! i = Some r -> (k < w)%nat -> m !! (i * w + k)%nat = r !! k) -> m = concat rs.
Proof.
  intros H Hl He. apply list_ext_len; [by rewrite flat_length|]. intros p Hp. pose proof (Nat.div_mod p w ltac:(lia)) as Hd. pose proof (Nat.mod_upper_bound p w ltac:(lia)) as Hm.
  assert (p / w < length rs)%nat as Hi by (apply Nat.Div0.div_lt_upper_bound; lia). destruct (lookup_lt_is_Some_2 _ _ Hi) as [r Hr].
  replace p with (p / w * w + p mod w)%nat by lia. rewrite (He _ r) by done. by rewrite (flat_lookup _ _ r).
Qed.

Lemma flat_slice rs i r : records rs -> rs !! i = Some r -> take w (drop (i * w) (concat rs)) = r.
Proof.
  intros H E. pose proof (records_lookup _ _ _ H E) as Hr. pose proof (lookup_lt_Some _ _ _ E) as Hi. pose proof (flat_length _ H) as Hl.
  apply list_ext_len; [rewrite length_take, length_drop; nia|]. intros k Hk. rewrite length_take, length_drop in Hk. rewrite lookup_take_lt, lookup_drop by lia. apply flat_lookup; [done..|lia].
Qed.

(** ** Pointers *)

Definition ptr (i : nat) : Z := Z.of_nat (i * w).
Notation qsz := (Z.of_nat w).

Lemma ptr_S i : ptr i + qsz = ptr (S i).
Proof. unfold ptr. lia. Qed.
Lemma ptr_pred i : (0 < i)%nat -> ptr i - qsz = ptr (i - 1).
Proof. unfold ptr. nia. Qed.
Lemma ptr_sub i j : (j <= i)%nat -> ptr i - ptr j = ptr (i - j).
Proof. unfold ptr. nia. Qed.
Lemma ptr_ltb i j : (ptr i <? ptr j) = (i <? j)%nat.
Proof. unfold ptr. destruct (Nat.ltb_spec i j), (Z.ltb_spec (Z.of_nat (i * w)) (Z.of_nat (j * w))); nia. Qed.
Lemma ptr_leb i j : (ptr i <=? ptr j) = (i <=? j)%nat.
Proof. unfold ptr. destruct (Nat.leb_spec i j), (Z.leb_spec (Z.of_nat (i * w)) (Z.of_nat (j * w))); nia. Qed.
Lemma ptr_eqb i j : (ptr i =? ptr j) = (i =? j)%nat.
Proof. unfold ptr. destruct (Nat.eqb_spec i j), (Z.eqb_spec (Z.of_nat (i * w)) (Z.of_nat (j * w))); nia. Qed.
Lemma ptr_thresh n : qsz * Z.of_nat n = ptr n.
Proof. unfold ptr. lia. Qed.

Lemma record_at_spec rs i r : records rs -> rs !! i = Some r -> record_at qsz (ptr i) (concat rs) = Ok r.
Proof.
  intros H E. pose proof (lookup_lt_Some _ _ _ E) as Hi. unfold record_at, ptr. rewrite (flat_length _ H), !(proj2 (Z.leb_le _ _)) by nia. cbn [andb]. rewrite !Nat2Z.id. by rewrite (flat_slice _ _ _ H E).
Qed.
Lemma qcmp_spec compar rs i j x y : records rs -> rs !! i = Some x -> rs !! j = Some y -> qcmp qsz compar (ptr i) (ptr j) (concat rs) = Ok (compar x y).
Proof. intros H Hx Hy. unfold qcmp. rewrite (record_at_spec _ _ _ H Hx). kstep. by rewrite (record_at_spec _ _ _ H Hy). Qed.

(** ** Exchanging two records *)

Lemma rdz_nat {A} (l : list A) i x : l !! i = Some x -> rdz l (Z.of_nat i) = Ok x.
Proof. intros H. unfold rdz. rewrite (proj2 (Z.ltb_ge _ _)) by lia. rewrite Nat2Z.id. by apply rd_Ok. Qed.
Lemma wrz_nat {A} (l : list A) i x : (i < length l)%nat -> wrz l (Z.of_nat i) x = Ok (<[i := x]> l).
Proof. intros H. unfold wrz. rewrite (proj2 (Z.ltb_ge _ _)) by lia. rewrite Nat2Z.id. unfold wr. by rewrite decide_True. Qed.

Definition crossed (i j n p : nat) : nat := if decide (i <= p < i + n)%nat then (p - i + j)%nat else if decide (j <= p < j + n)%nat then (p - j + i)%nat else p.

Lemma swap_spec n : forall i j (m : list Z), (i + n <= j \/ j + n <= i)%nat -> (i + n <= length m)%nat -> (j + n <= length m)%nat ->
  exists m', swap n (Z.of_nat i) (Z.of_nat j) m = Ok m' /\ length m' = length m /\ forall p, m' !! p = m !! crossed i j n p.
Proof.
  induction n as [|n IH]; intros i j m Hd Hi Hj; cbn [swap].
  - exists m. split_and!; [done..|]. intros p. unfold crossed. by rewrite !decide_False by lia.
  - destruct (lookup_lt_is_Some_2 m i ltac:(lia)) as [c Hc], (lookup_lt_is_Some_2 m j ltac:(lia)) as [d Hdd]. rewrite (rdz_nat _ _ _ Hc). kstep. rewrite (rdz_nat _ _ _ Hdd). kstep.
    rewrite wrz_nat by lia. kstep. rewrite wrz_nat by (rewrite length_insert; lia). kstep.
    replace (Z.of_nat i + 1) with (Z.of_nat (S i)) by lia. replace (Z.of_nat j + 1) with (Z.of_nat (S j)) by lia.
    destruct (IH (S i) (S j) (<[j := c]> (<[i := d]> m))) as (m' & -> & Hl & He); [lia|rewrite !length_insert; lia..|]. rewrite !length_insert in Hl. exists m'. split_and!; [done..|].
    intros p. rewrite He. unfold crossed. repeat destruct (decide _); try lia; rewrite ?list_lookup_insert_ne by lia; try (f_equal; lia).
    + replace p with i by lia. replace (i - i + j)%nat with j by lia. rewrite list_lookup_insert_eq by lia. done.
    + replace p with j by lia. replace (j - j + i)%nat with i by lia. rewrite list_lookup_insert_eq by (rewrite length_insert; lia). done.
Qed.

Definition exch (i j : nat) (rs : list (list Z)) : list (list Z) :=
  match rs !! i, rs !! j with Some x, Some y => <[i := y]> (<[j := x]> rs) | _, _ => rs end.

Lemma exch_lookup rs i j k : (i < length rs)%nat -> (j < length rs)%nat -> exch i j rs !! k = rs !! (if decide (k = i) then j else if decide (k = j) then i else k).
Proof.
  intros Hi Hj. destruct (lookup_lt_is_Some_2 _ _ Hi) as [x Hx], (lookup_lt_is_Some_2 _ _ Hj) as [y Hy]. unfold exch. rewrite Hx, Hy.
  destruct (decide (k = i)) as [->|]; [rewrite list_lookup_insert_eq by (rewrite length_insert; lia); done|]. rewrite list_lookup_insert_ne by done.
  destruct (decide (k = j)) as [->|]; [by rewrite list_lookup_insert_eq by done|]. by rewrite list_lookup_insert_ne.
Qed.
Lemma exch_length rs i j : length (exch i j rs) = length rs.
Proof. unfold exch. destruct (rs !! i), (rs !! j); rewrite ?length_insert; done. Qed.
Lemma exch_records rs i j : records rs -> records (exch i j rs).
Proof.
  intros H. unfold exch. destruct (rs !! i) as [x|] eqn:Hx, (rs !! j) as [y|] eqn:Hy; try done. apply Forall_insert; [apply Forall_insert; [done|]|]; by eapply records_lookup.
Qed.

Lemma swap_flat rs i j : records rs -> (i < length rs)%nat -> (j < length rs)%nat -> i <> j -> swap w (ptr i) (ptr j) (concat rs) = Ok (concat (exch i j rs)).
Proof.
  intros H Hi Hj Hn. pose proof (flat_length _ H) as Hl. destruct (swap_spec w (i * w) (j * w) (concat rs)) as (m' & Hs & Hl' & He); [nia..|]. unfold ptr. rewrite Hs. f_equal.
  apply flat_ext; [by apply exch_records|by rewrite exch_length, Hl'|]. intros k r c Hk Hc. rewrite He. rewrite exch_lookup in Hk by done. unfold crossed.
  destruct (decide (k = i)) as [->|N1]; [rewrite decide_True by lia; replace (i * w + c - i * w + j * w)%nat with (j * w + c)%nat by lia; by apply flat_lookup|]. rewrite decide_False by nia.
  destruct (decide (k = j)) as [->|N2]; [rewrite decide_True by lia; replace (j * w + c - j * w + i * w)%nat with (i * w + c)%nat by lia; by apply flat_lookup|]. rewrite decide_False by nia. by apply flat_lookup.
Qed.

(** ** Moving a record in front of others *)

Lemma place_inj q r q' r' : (r < w)%nat -> (r' < w)%nat -> (q * w + r = q' * w + r')%nat -> q = q' /\ r = r'.
Proof. intros Hr Hr' E. assert (q = q') as -> by nia. split; [done|lia]. Qed.

Lemma shift_bytes_spec fuel : forall h k c (m : list Z), (h <= k)%nat -> (c < w)%nat -> (k * w + c < length m)%nat -> (k - h <= fuel)%nat ->
  exists m', shift_bytes qsz fuel (Z.of_nat (k * w + c)) (ptr h) m = Ok (Z.of_nat (h * w + c), m') /\ length m' = length m /\
    forall q r, (r < w)%nat -> m' !! (q * w + r)%nat = if decide (r = c /\ h < q <= k)%nat then m !! ((q - 1) * w + r)%nat else m !! (q * w + r)%nat.
Proof.
  assert (forall h k c, (c < w)%nat -> (ptr h <=? Z.of_nat (k * w + c) - qsz) = (h <? k)%nat) as Ht.
  { intros h k c Hc. unfold ptr. destruct (Z.leb_spec (Z.of_nat (h * w)) (Z.of_nat (k * w + c) - qsz)), (Nat.ltb_spec h k); nia. }
  assert (forall k c (m : list Z), exists m', Ok (Z.of_nat (k * w + c), m) = Ok (Z.of_nat (k * w + c), m') /\ length m' = length m /\
    forall q r, (r < w)%nat -> m' !! (q * w + r)%nat = if decide (r = c /\ k < q <= k)%nat then m !! ((q - 1) * w + r)%nat else m !! (q * w + r)%nat) as H0.
  { intros k c m. exists m. split_and!; [done..|]. intros q r Hr. by rewrite decide_False by lia. }
  induction fuel as [|fuel IH]; intros h k c m Hh Hc Hk Hf; cbn [shift_bytes]; rewrite Ht by done; destruct (Nat.ltb_spec h k); [lia|replace k with h by lia; apply H0| |replace k with h by lia; apply H0].
  replace (Z.of_nat (k * w + c) - qsz) with (Z.of_nat ((k - 1) * w + c)) by nia. destruct (lookup_lt_is_Some_2 m ((k - 1) * w + c)%nat ltac:(nia)) as [v Hv].
  rewrite (rdz_nat _ _ _ Hv). kstep. rewrite wrz_nat by done. kstep. destruct (IH h (k - 1)%nat c (<[(k * w + c)%nat := v]> m)) as (m' & -> & Hl & He); [lia|done|rewrite length_insert; nia|lia|].
  rewrite length_insert in Hl. exists m'. split_and!; [done..|]. intros q r Hr. rewrite He by done.
  assert (forall q' r', (r' < w)%nat -> <[(k * w + c)%nat := v]> m !! (q' * w + r')%nat = if decide (q' = k /\ r' = c) then Some v else m !! (q' * w + r')%nat) as Hi.
  { intros q' r' Hr'. destruct (decide _) as [[-> ->]|Hn]; [by apply list_lookup_insert_eq|]. apply list_lookup_insert_ne. intros E. apply Hn. by destruct (place_inj _ _ _ _ Hc Hr' E) as [-> ->]. }
  rewrite !Hi by done. repeat destruct (decide _) as [?|?]; try lia; try done. destruct a as [-> ->]. done.
Qed.

Lemma insert_bytes_spec n : forall h k (m : list Z), (h <= k)%nat -> (n <= w)%nat -> (k * w + w <= length m)%nat ->
  exists m', insert_bytes qsz n (ptr k) (ptr h) m = Ok m' /\ length m' = length m /\
    forall q r, (r < w)%nat -> m' !! (q * w + r)%nat = if decide (r < n /\ h <= q <= k)%nat then if decide (q = h) then m !! (k * w + r)%nat else m !! ((q - 1) * w + r)%nat else m !! (q * w + r)%nat.
Proof.
  induction n as [|n IH]; intros h k m Hh Hn Hk; cbn [insert_bytes].
  - exists m. split_and!; [done..|]. intros q r Hr. by rewrite decide_False by lia.
  - replace (ptr k + Z.of_nat n) with (Z.of_nat (k * w + n)) by (unfold ptr; lia). destruct (lookup_lt_is_Some_2 m (k * w + n)%nat ltac:(lia)) as [c Hc]. rewrite (rdz_nat _ _ _ Hc). kstep.
    destruct (shift_bytes_spec (length m) h k n m) as (m1 & -> & Hl1 & He1); [done|lia|lia|nia|]. kstep. rewrite wrz_nat by nia. kstep.
    destruct (IH h k (<[(h * w + n)%nat := c]> m1)) as (m' & -> & Hl & He); [done|lia|rewrite length_insert; lia|]. rewrite length_insert in Hl. exists m'. split; [done|]. split; [congruence|].
    intros q r Hr. rewrite He by done.
    assert (forall q' r', (r' < w)%nat -> <[(h * w + n)%nat := c]> m1 !! (q' * w + r')%nat = if decide (q' = h /\ r' = n) then Some c else m1 !! (q' * w + r')%nat) as Hi.
    { intros q' r' Hr'. destruct (decide _) as [[-> ->]|Hn']; [apply list_lookup_insert_eq; nia|]. apply list_lookup_insert_ne. intros E. apply Hn'. by destruct (place_inj h n q' r' ltac:(lia) Hr' E) as [-> ->]. }
    rewrite !Hi, !He1 by done. repeat destruct (decide _) as [?|?]; try lia; try done; try (f_equal; lia); naive_solver lia.
Qed.

Definition carry (h k : nat) (rs : list (list Z)) : list (list Z) :=
  match rs !! k with Some x => take h rs ++ x :: take (k - h) (drop h rs) ++ drop (S k) rs | None => rs end.

Lemma carry_lookup rs h k j : (h <= k)%nat -> (k < length rs)%nat -> carry h k rs !! j = rs !! (if decide (h <= j <= k)%nat then if decide (j = h) then k else j - 1 else j)%nat.
Proof.
  intros Hh Hk. destruct (lookup_lt_is_Some_2 _ _ Hk) as [x Hx]. unfold carry. rewrite Hx. destruct (decide (j < h)%nat) as [H1|H1].
  - rewrite lookup_app_l by (rewrite length_take; lia). rewrite lookup_take_lt by lia. by rewrite decide_False by lia.
  - rewrite lookup_app_r by (rewrite length_take; lia). rewrite length_take. replace (h `min` length rs)%nat with h by lia. destruct (decide (j = h)) as [->|H2].
    + rewrite Nat.sub_diag, decide_True by lia. done.
    + replace (j - h)%nat with (S (j - h - 1)) by lia. rewrite lookup_cons. destruct (decide (j <= k)%nat) as [H3|H3].
      * rewrite decide_True by lia. rewrite lookup_app_l by (rewrite length_take, length_drop; lia). rewrite lookup_take_lt, lookup_drop by lia. f_equal. lia.
      * rewrite decide_False by lia. rewrite lookup_app_r by (rewrite length_take, length_drop; lia). rewrite lookup_drop, length_take, length_drop. f_equal. lia.
Qed.
Lemma carry_perm rs h k : (h <= k)%nat -> (k < length rs)%nat -> carry h k rs ≡ₚ rs.
Proof.
  intros Hh Hk. destruct (lookup_lt_is_Some_2 _ _ Hk) as [x Hx]. unfold carry. rewrite Hx. rewrite <- Permutation_middle, app_assoc.
  assert (take h rs ++ take (k - h) (drop h rs) = take k rs) as ->; [|by rewrite Permutation_middle, take_drop_middle].
  rewrite <- (take_drop h (take k rs)) at 1. rewrite take_take, Nat.min_l by lia. f_equal. rewrite skipn_firstn_comm. done.
Qed.

Lemma insert_flat rs h k : records rs -> (h <= k)%nat -> (k < length rs)%nat -> insert_bytes qsz w (ptr k) (ptr h) (concat rs) = Ok (concat (carry h k rs)).
Proof.
  intros H Hh Hk. pose proof (flat_length _ H) as Hl. destruct (insert_bytes_spec w h k (concat rs)) as (m' & -> & Hl' & He); [done|done|nia|]. f_equal.
  apply flat_ext; [unfold records; by rewrite carry_perm|by rewrite carry_perm, Hl'|]. intros j r c Hj Hc. rewrite He by done. rewrite carry_lookup in Hj by done.
  destruct (decide (h <= j <= k)%nat) as [H1|H1]; [rewrite decide_True by lia|rewrite decide_False by lia]; [destruct (decide (j = h))|]; by apply flat_lookup.
Qed.
End Mem.
