(* ===== verification/QsortThms.v ===== *)
(** * qsort(): it sorts

    For a comparison that is total and transitive: the result is a permutation of the records, in order.  qst() leaves runs
    of fewer than four records, all of which are in place against each other; so the least record is among the first four, and
    the insertion sort stops at it. *)

From S2P Require Import Prelude Qsort.
From stdpp Require Import prelude list numbers.
From Stdlib Require Import ZArith Lia Sorted.

Local Open Scope Z_scope.
Local Open Scope kern_scope.

(** What the caller has to see to. *)
Class Comparison (compar : list Z -> list Z -> Z) : Prop := {
  cmp_total x y : compar x y <= 0 \/ compar y x <= 0;
  cmp_trans x y z : compar x y <= 0 -> compar y z <= 0 -> compar x z <= 0
}.

(** ** Exchanges are permutations *)

Lemma exch_perm i j rs : exch i j rs ≡ₚ rs.
Proof.
  assert (forall i j rs, (i < j)%nat -> exch i j rs ≡ₚ rs) as H.
  { clear. intros i j rs Hij. unfold exch. destruct (rs !! i) as [x|] eqn:Hx; [|done]. destruct (rs !! j) as [y|] eqn:Hy; [|done].
    rewrite <- (take_drop_middle _ _ _ Hx). set (l1 := take i rs). assert (length l1 = i) as L1 by (subst l1; rewrite length_take; apply lookup_lt_Some in Hx; lia).
    assert (drop (S i) rs !! (j - S i)%nat = Some y) as Hy' by (rewrite lookup_drop, <- Hy; f_equal; lia).
    rewrite <- (take_drop_middle _ _ _ Hy'). set (l2 := take (j - S i) (drop (S i) rs)). set (l3 := drop _ (drop _ _)).
    assert (length l2 = j - S i)%nat as L2 by (subst l2; rewrite length_take; apply lookup_lt_Some in Hy'; lia).
    rewrite (insert_app_r_alt _ _ j) by lia. replace (j - length l1)%nat with (S (j - S i)) by lia. rewrite list_insert_cons_S || cbn [list_insert insert]. rewrite insert_app_r_alt by lia.
    rewrite L1, Nat.sub_diag, (insert_app_r_alt l2) by lia. rewrite L2, Nat.sub_diag. cbn. f_equiv. rewrite <- !Permutation_middle. apply perm_swap. }
  destruct (decide (i = j)) as [->|Hn]; [|destruct (decide (i < j)%nat) as [?|?]; [by apply H|]].
  - unfold exch. destruct (rs !! j) eqn:E; [|done]. by rewrite list_insert_insert_eq, list_insert_id.
  - rewrite <- (H j i rs) at 2 by lia. unfold exch. destruct (rs !! i), (rs !! j); try done. by rewrite list_insert_insert_ne.
Qed.

Section Sort.
Context (w : nat) (Hw : (0 < w)%nat) (compar : list Z -> list Z -> Z) `{!Comparison compar}.
Implicit Types rs : list (list Z).
Notation qsz := (Z.of_nat w).
Notation ptr := (ptr w).
Notation records := (records w).
Notation le x y := (compar x y <= 0).

Lemma gt_le x y : ~ le x y -> le y x.
Proof. by destruct (cmp_total x y). Qed.

(** [rs'] is [rs] with the records from [b] to [e] in another order. *)
Record inside (b e : nat) rs rs' : Prop := Inside {
  in_perm : rs' ≡ₚ rs;
  in_out k : (k < b \/ e <= k)%nat -> rs' !! k = rs !! k
}.

#[local] Instance inside_refl b e : Reflexive (inside b e).
Proof. by split. Qed.
#[local] Instance inside_trans b e : Transitive (inside b e).
Proof. intros r1 r2 r3 [P1 O1] [P2 O2]. split; [by rewrite P2|]. intros k Hk. by rewrite O2, O1. Qed.
Lemma inside_mono b e b' e' rs rs' : (b' <= b)%nat -> (e <= e')%nat -> inside b e rs rs' -> inside b' e' rs rs'.
Proof. intros Hb He [P O]. split; [done|]. intros k Hk. apply O. lia. Qed.
Lemma inside_length b e rs rs' : inside b e rs rs' -> length rs' = length rs.
Proof. intros [P _]. by rewrite P. Qed.
Lemma inside_records b e rs rs' : inside b e rs rs' -> records rs -> records rs'.
Proof. intros [P _]. unfold records. by rewrite P. Qed.
Lemma inside_exch b e rs i j : (b <= i < e)%nat -> (b <= j < e)%nat -> (e <= length rs)%nat -> inside b e rs (exch i j rs).
Proof. intros Hi Hj He. split; [apply exch_perm|]. intros k Hk. rewrite (exch_lookup w Hw) by lia. by rewrite !decide_False by lia. Qed.

Lemma inside_from b e rs rs' k x : inside b e rs rs' -> (b <= k < e)%nat -> (e <= length rs)%nat -> rs' !! k = Some x -> exists k', (b <= k' < e)%nat /\ rs !! k' = Some x.
Proof.
  intros Hi Hk He Hx. pose proof (inside_length _ _ _ _ Hi) as Hl. destruct Hi as [P O].
  assert (take b rs' = take b rs) as E1 by (apply list_eq; intros i; destruct (decide (i < b)%nat); [by rewrite !lookup_take_lt, O by lia|by rewrite !lookup_take_ge by lia]).
  assert (drop e rs' = drop e rs) as E2 by (apply list_eq; intros i; rewrite !lookup_drop; apply O; lia).
  assert (forall r : list (list Z), take b r ++ take (e - b) (drop b r) ++ drop e r = r) as Ed.
  { intros r. rewrite <- (take_drop b r) at 4. f_equal. rewrite <- (take_drop (e - b) (drop b r)) at 2. f_equal. rewrite drop_drop. f_equal. lia. }
  rewrite <- (Ed rs), <- (Ed rs'), E1, E2 in P. apply Permutation_app_inv_l, Permutation_app_inv_r in P.
  assert (x ∈ take (e - b) (drop b rs')) as Hin. { apply list_elem_of_lookup_2 with (i := (k - b)%nat). rewrite lookup_take_lt, lookup_drop by lia. rewrite <- Hx. f_equal. lia. }
  rewrite P in Hin. apply list_elem_of_lookup_1 in Hin as [i Hi]. pose proof (lookup_lt_Some _ _ _ Hi) as Hil. rewrite length_take in Hil. rewrite lookup_take_lt, lookup_drop in Hi by lia. exists (b + i)%nat. split; [lia|done].
Qed.

(** ** qst() *)

(** The records from [b] to [e] that are no greater, or no less, than [v]. *)
Definition low (b e : nat) (v : list Z) rs : Prop := forall k x, (b <= k < e)%nat -> rs !! k = Some x -> le x v.
Definition high (b e : nat) (v : list Z) rs : Prop := forall k x, (b <= k < e)%nat -> rs !! k = Some x -> le v x.

Lemma inside_low b e v rs rs' : inside b e rs rs' -> (e <= length rs)%nat -> low b e v rs -> low b e v rs'.
Proof. intros Hi He Hl k x Hk Hx. destruct (inside_from _ _ _ _ _ _ Hi Hk He Hx) as (k' & ? & ?). by eapply Hl. Qed.
Lemma inside_high b e v rs rs' : inside b e rs rs' -> (e <= length rs)%nat -> high b e v rs -> high b e v rs'.
Proof. intros Hi He Hl k x Hk Hx. destruct (inside_from _ _ _ _ _ _ Hi Hk He Hx) as (k' & ? & ?). by eapply Hl. Qed.

Lemma median_spec b mid e rs : records rs -> (b <= mid < e)%nat -> (e <= length rs)%nat ->
  exists rs', median qsz compar (ptr b) (ptr mid) (ptr e) (concat rs) = Ok (concat rs') /\ inside b e rs rs'.
Proof.
  intros H Hm He. unfold median. destruct (lookup_lt_is_Some_2 rs b ltac:(lia)) as [x Hx], (lookup_lt_is_Some_2 rs mid ltac:(lia)) as [y Hy], (lookup_lt_is_Some_2 rs (e - 1) ltac:(lia)) as [z Hz].
  rewrite (qcmp_spec w Hw _ _ _ _ _ _ H Hx Hy). kstep. rewrite ptr_pred by lia.
  set (j := if 0 <? compar x y then b else mid). assert ((if 0 <? compar x y then ptr b else ptr mid) = ptr j) as -> by (subst j; by destruct (0 <? _)).
  assert (b <= j < e)%nat as Hj by (subst j; destruct (0 <? _); lia). destruct (lookup_lt_is_Some_2 rs j ltac:(lia)) as [u Hu]. rewrite (qcmp_spec w Hw _ _ _ _ _ _ H Hu Hz). kstep.
  assert (exists j', (b <= j' < e)%nat /\ (if 0 <? compar u z then c ← qcmp qsz compar (if ptr j =? ptr b then ptr mid else ptr b) (ptr (e - 1)) (concat rs); mret (if c <? 0 then ptr (e - 1) else if ptr j =? ptr b then ptr mid else ptr b) else mret (ptr j)) = Ok (ptr j')) as (j' & Hj' & ->).
  { destruct (0 <? compar u z); [|by exists j]. set (k := if ptr j =? ptr b then mid else b). assert ((if ptr j =? ptr b then ptr mid else ptr b) = ptr k) as -> by (subst k; by destruct (_ =? _)).
    assert (b <= k < e)%nat as Hk by (subst k; destruct (_ =? _); lia). destruct (lookup_lt_is_Some_2 rs k ltac:(lia)) as [t Ht]. rewrite (qcmp_spec w Hw _ _ _ _ _ _ H Ht Hz). kstep.
    destruct (_ <? 0); [exists (e - 1)%nat; split; [lia|done]|by exists k]. }
  kstep. rewrite ptr_eqb by done. destruct (Nat.eqb_spec j' mid) as [->|Hn]; [by exists rs|]. rewrite Nat2Z.id, swap_flat by (done || lia). eexists. split; [done|]. by apply inside_exch.
Qed.

Lemma pass_low_spec fuel : forall rs b i mid v, records rs -> rs !! mid = Some v -> (b <= i <= mid)%nat -> (mid - i <= fuel)%nat -> low b i v rs ->
  exists i', pass_low qsz compar fuel (ptr i) (ptr mid) (concat rs) = Ok (ptr i') /\ (i <= i' <= mid)%nat /\ low b i' v rs /\ (i' = mid \/ exists x, rs !! i' = Some x /\ ~ le x v).
Proof.
  induction fuel as [|fuel IH]; intros rs b i mid v H Hv Hi Hf Hl; cbn [pass_low]; rewrite ptr_ltb by done; destruct (Nat.ltb_spec i mid).
  - lia.
  - exists i. split_and!; [done|lia..|done|left; lia].
  - destruct (lookup_lt_is_Some_2 rs i ltac:(apply lookup_lt_Some in Hv; lia)) as [x Hx]. rewrite (qcmp_spec w Hw _ _ _ _ _ _ H Hx Hv). kstep. destruct (Z.leb_spec (compar x v) 0).
    + rewrite ptr_S by done. destruct (IH rs b (S i) mid v H Hv) as (i' & -> & ? & ? & ?); [lia|lia| |exists i'; split_and!; [done|lia|lia|done|done]].
      intros k y Hk Hy. destruct (decide (k = i)) as [->|]; [by simplify_eq|]. eapply Hl; [|done]. lia.
    + exists i. split_and!; [done|lia..|done|right; exists x; split; [done|lia]].
  - exists i. split_and!; [done|lia..|done|left; lia].
Qed.

(** What pass_high() finds. *)
Definition found_ok (e i mid j : nat) (v : list Z) rs (r : found) : Prop :=
  r = Through (ptr mid) /\ high (S mid) e v rs \/
  exists j' x, (mid < j' <= j)%nat /\ high (S j') e v rs /\ rs !! j' = Some x /\ ~ le v x /\
    r = if (i =? mid)%nat then Exchange (ptr j') (ptr j') (ptr j') (ptr (S i)) else Exchange (ptr j') (ptr (j' - 1)) (ptr mid) (ptr (S i)).

Lemma pass_high_spec fuel : forall rs e i mid j v, records rs -> rs !! mid = Some v -> (mid <= j < e)%nat -> (e <= length rs)%nat -> (j - mid <= fuel)%nat -> high (S j) e v rs ->
  exists r, pass_high qsz compar fuel (ptr i) (ptr mid) (ptr j) (concat rs) = Ok r /\ found_ok e i mid j v rs r.
Proof.
  induction fuel as [|fuel IH]; intros rs e i mid j v H Hv Hj He Hf Hh; cbn [pass_high]; rewrite ptr_ltb by done; destruct (Nat.ltb_spec mid j).
  - lia.
  - replace j with mid in * by lia. eexists. split; [done|]. by left.
  - destruct (lookup_lt_is_Some_2 rs j ltac:(lia)) as [x Hx]. rewrite (qcmp_spec w Hw _ _ _ _ _ _ H Hv Hx). kstep. destruct (Z.leb_spec (compar v x) 0).
    + rewrite ptr_pred by lia. destruct (IH rs e i mid (j - 1)%nat v H Hv) as (r & -> & Hr); [lia|done|lia| |].
      { intros k y Hk Hy. destruct (decide (k = j)) as [->|]; [by simplify_eq|]. eapply Hh; [|done]. lia. }
      exists r. split; [done|]. destruct Hr as [?|(j' & y & ? & ?)]; [by left|right]. exists j', y. split; [lia|done].
    + rewrite ptr_eqb by done. exists (if (i =? mid)%nat then Exchange (ptr j) (ptr j) (ptr j) (ptr (S i)) else Exchange (ptr j) (ptr (j - 1)) (ptr mid) (ptr (S i))).
      split; [rewrite ptr_S by done; rewrite ptr_pred by lia; by destruct (i =? mid)%nat|]. right. exists j, x. split; [lia|]. split; [done|]. split; [done|]. split; [lia|done].
  - replace j with mid in * by lia. eexists. split; [done|]. by left.
Qed.

(** What a partition comes to: the discriminator is in place. *)
Definition parted (b e : nat) rs rs' (mid : nat) : Prop :=
  inside b e rs rs' /\ (b <= mid < e)%nat /\ exists v, rs' !! mid = Some v /\ low b mid v rs' /\ high (S mid) e v rs'.

Lemma low_exch b i j e rs v x : (b <= i <= j)%nat -> (j < e)%nat -> (e <= length rs)%nat -> low b i v rs -> rs !! j = Some x -> le x v -> low b (S i) v (exch i j rs).
Proof.
  intros Hi Hj He Hl Hx Hle k y Hk. rewrite (exch_lookup w Hw) by lia. destruct (decide (k = i)); [intros Hy; by simplify_eq|]. rewrite decide_False by lia. apply Hl. lia.
Qed.
Lemma high_exch i j e rs v x : (i <= j < e)%nat -> (e <= length rs)%nat -> high (S j) e v rs -> rs !! i = Some x -> le v x -> high j e v (exch i j rs).
Proof.
  intros Hi He Hl Hx Hle k y Hk. rewrite (exch_lookup w Hw) by lia. destruct (decide (k = i)); [|destruct (decide (k = j)); [intros Hy; by simplify_eq|apply Hl; lia]].
  assert (i = j) as -> by lia. intros Hy. by simplify_eq.
Qed.

Lemma partition_spec fuel : forall rs b e i mid j v, records rs -> (e <= length rs)%nat -> rs !! mid = Some v -> (b <= i <= mid)%nat -> (mid <= j < e)%nat -> (j - i < fuel)%nat ->
  low b i v rs -> high (S j) e v rs ->
  exists mid' rs', qst_part qsz compar fuel (ptr i) (ptr j) (ptr mid) (concat rs) = Ok (ptr mid', concat rs') /\ parted b e rs rs' mid'.
Proof.
  induction fuel as [|fuel IH]; intros rs b e i mid j v H He Hv Hi Hj Hf Hl Hh; [lia|]. cbn [qst_part]. pose proof (flat_length w Hw rs H) as Hlen. assert (length rs <= length (concat rs))%nat as Hle by nia.
  destruct (pass_low_spec (length (concat rs)) rs b i mid v H Hv Hi ltac:(lia) Hl) as (i' & -> & Hi' & Hl' & Hend). kstep.
  destruct (pass_high_spec (length (concat rs)) rs e i' mid j v H Hv Hj He ltac:(lia) Hh) as (r & -> & Hr). kstep.
  assert (forall i2 j2 rs2 mid2 v2, inside b e rs rs2 -> rs2 !! mid2 = Some v2 -> (b <= i2 <= mid2)%nat -> (mid2 <= j2 < e)%nat -> (j2 - i2 < j - i)%nat -> low b i2 v2 rs2 -> high (S j2) e v2 rs2 ->
    exists mid' rs', qst_part qsz compar fuel (ptr i2) (ptr j2) (ptr mid2) (concat rs2) = Ok (ptr mid', concat rs') /\ parted b e rs rs' mid') as Hnext.
  { intros i2 j2 rs2 mid2 v2 In2 Hv2 H1 H2 H3 H4 H5. destruct (IH rs2 b e i2 mid2 j2 v2) as (m' & rs' & Hp & In' & Hrest); try done; [by eapply inside_records|by rewrite (inside_length _ _ _ _ In2)|lia|].
    exists m', rs'. split; [done|]. split; [by etransitivity|done]. }
  destruct Hr as [[-> Hh']|(j' & x & Hj' & Hh' & Hx & Hgt & ->)].
  - rewrite ptr_eqb by done. destruct (Nat.eqb_spec i' mid) as [->|Hne]; [exists mid, rs; split; [done|]; split; [done|]; split; [lia|by exists v]|].
    destruct Hend as [?|(x & Hx & Hgt)]; [done|]. rewrite Nat2Z.id, swap_flat by (done || lia). kstep. rewrite ptr_pred by lia. apply (Hnext i' (mid - 1)%nat _ i' v).
    + apply inside_exch; lia.
    + rewrite (exch_lookup w Hw), decide_True by lia. done.
    + lia.
    + lia.
    + lia.
    + intros k y Hk. rewrite (exch_lookup w Hw), !decide_False by lia. by apply Hl'.
    + replace (S (mid - 1)) with mid by lia. apply (high_exch _ _ _ _ _ x); [lia|lia|done|done|by apply gt_le].
  - destruct (Nat.eqb_spec i' mid) as [->|Hne].
    + rewrite Nat2Z.id, swap_flat by (done || lia). kstep. apply (Hnext (S mid) j' _ j' v).
      * apply inside_exch; lia.
      * rewrite (exch_lookup w Hw) by lia. destruct (decide _); [lia|]. by rewrite decide_True.
      * lia.
      * lia.
      * lia.
      * apply (low_exch _ _ _ e _ _ x); [lia|lia|lia|done|done|by apply gt_le].
      * intros k y Hk. rewrite (exch_lookup w Hw), !decide_False by lia. apply Hh'. lia.
    + destruct Hend as [?|(y & Hy & Hgt')]; [done|]. rewrite Nat2Z.id, swap_flat by (done || lia). kstep. apply (Hnext (S i') (j' - 1)%nat _ mid v).
      * apply inside_exch; lia.
      * rewrite (exch_lookup w Hw), !decide_False by lia. done.
      * lia.
      * lia.
      * lia.
      * apply (low_exch _ _ _ e _ _ x); [lia|lia|lia|done|done|by apply gt_le].
      * replace (S (j' - 1)) with j' by lia. apply (high_exch _ _ _ _ _ y); [lia|lia|done|done|by apply gt_le].
Qed.

(** The least record of a run is among its first four. *)
Definition least4 (b e : nat) rs : Prop := exists k v, (b <= k < b + 4)%nat /\ (k < e)%nat /\ rs !! k = Some v /\ high b e v rs.

Lemma least_of b n rs : (b + S n <= length rs)%nat -> exists k v, (b <= k < b + S n)%nat /\ rs !! k = Some v /\ high b (b + S n) v rs.
Proof.
  induction n as [|n IH]; intros Hl.
  - destruct (lookup_lt_is_Some_2 rs b ltac:(lia)) as [v Hv]. exists b, v. split; [lia|]. split; [done|]. intros k x Hk Hx. assert (k = b) as -> by lia. rewrite Hv in Hx. injection Hx as <-. by destruct (cmp_total v v).
  - destruct IH as (k & v & Hk & Hv & Hm); [lia|]. destruct (lookup_lt_is_Some_2 rs (b + S n) ltac:(lia)) as [u Hu]. destruct (decide (le v u)) as [Hle|Hgt].
    + exists k, v. split; [lia|]. split; [done|]. intros k' x Hk' Hx. destruct (decide (k' = b + S n)%nat) as [->|]; [by simplify_eq|]. eapply Hm; [|done]. lia.
    + exists (b + S n)%nat, u. split; [lia|]. split; [done|]. intros k' x Hk' Hx. destruct (decide (k' = b + S n)%nat) as [->|]; [rewrite Hu in Hx; injection Hx as <-; by destruct (cmp_total u u)|].
      eapply cmp_trans; [by apply gt_le|]. eapply Hm; [|done]. lia.
Qed.

(** Both sides have been gone on with, where they are worth it. *)
Lemma least4_join b mid e rs v : (b <= mid < e)%nat -> (e <= length rs)%nat -> rs !! mid = Some v -> low b mid v rs -> high (S mid) e v rs -> ((4 <= mid - b)%nat -> least4 b mid rs) -> least4 b e rs.
Proof.
  intros Hm He Hv Hl Hh H4. assert (forall u, (forall k x, (b <= k <= mid)%nat -> rs !! k = Some x -> le u x) -> high b e u rs) as Hall.
  { intros u Hu k x Hk Hx. destruct (decide (k <= mid)%nat); [apply (Hu k); [lia|done]|]. apply (cmp_trans u v x); [apply (Hu mid); [lia|done]|eapply Hh; [|done]; lia]. }
  destruct (decide (4 <= mid - b)%nat) as [H|H].
  - destruct (H4 H) as (k & u & Hk & Hk' & Hu & Hlow). exists k, u. split; [lia|]. split; [lia|]. split; [done|]. apply Hall. intros k' x Hk2 Hx. destruct (decide (k' = mid)) as [->|]; [|eapply Hlow; [|done]; lia]. rewrite Hv in Hx. injection Hx as <-. apply (Hl k); [lia|done].
  - destruct (least_of b (mid - b) rs) as (k & u & Hk & Hu & Hlow); [lia|]. exists k, u. split; [lia|]. split; [lia|]. split; [done|]. apply Hall. intros k' x Hk2 Hx. eapply Hlow; [|done]. lia.
Qed.

(** A side has been gone on with, if it is long enough. *)
Definition side (b e : nat) rs rs' : Prop := inside b e rs rs' /\ ((4 <= e - b)%nat -> least4 b e rs').

Lemma inside_out b e rs rs' k : inside b e rs rs' -> (k < b \/ e <= k)%nat -> rs' !! k = rs !! k.
Proof. intros H. apply H. Qed.

Lemma sides_join b mid e rs r1 r2 r3 : (e <= length rs)%nat -> parted b e rs r1 mid -> side b mid r1 r2 -> side (S mid) e r2 r3 -> side b e rs r3.
Proof.
  intros He (I1 & Hm & v & Hv & Hl & Hh) [I2 H4] [I3 _]. pose proof (inside_length _ _ _ _ I1) as L1. pose proof (inside_length _ _ _ _ I2) as L2. pose proof (inside_length _ _ _ _ I3) as L3.
  split; [etransitivity; [exact I1|]; etransitivity; (eapply inside_mono; [| |done]; lia)|]. intros _. apply (least4_join b mid e r3 v); [lia|lia|..].
  - rewrite (inside_out _ _ _ _ _ I3), (inside_out _ _ _ _ _ I2) by lia. done.
  - intros k x Hk Hx. rewrite (inside_out _ _ _ _ _ I3) in Hx by lia. revert k x Hk Hx. eapply inside_low; [done|lia|done].
  - eapply inside_high; [done|lia|]. intros k x Hk Hx. rewrite (inside_out _ _ _ _ _ I2) in Hx by lia. by eapply Hh.
  - intros H. destruct (H4 H) as (k & u & Hk & Hk' & Hu & Hlow). exists k, u. split; [done|]. split; [done|]. split; [by rewrite (inside_out _ _ _ _ _ I3) by lia|]. intros k' x Hk2. rewrite (inside_out _ _ _ _ _ I3) by lia. by apply Hlow.
Qed.

Lemma side_none b e rs : (e - b < 4)%nat -> side b e rs rs.
Proof. intros H. split; [done|lia]. Qed.


Lemma sides_join' b mid e rs r1 r2 r3 : (e <= length rs)%nat -> parted b e rs r1 mid -> side (S mid) e r1 r2 -> side b mid r2 r3 -> side b e rs r3.
Proof.
  intros He (I1 & Hm & v & Hv & Hl & Hh) [I2 _] [I3 H4]. pose proof (inside_length _ _ _ _ I1) as L1. pose proof (inside_length _ _ _ _ I2) as L2. pose proof (inside_length _ _ _ _ I3) as L3.
  split; [etransitivity; [exact I1|]; etransitivity; (eapply inside_mono; [| |done]; lia)|]. intros _. apply (least4_join b mid e r3 v); [lia|lia|..|done].
  - rewrite (inside_out _ _ _ _ _ I3), (inside_out _ _ _ _ _ I2) by lia. done.
  - eapply inside_low; [done|lia|]. intros k x Hk Hx. rewrite (inside_out _ _ _ _ _ I2) in Hx by lia. by eapply Hl.
  - intros k x Hk Hx. rewrite (inside_out _ _ _ _ _ I3) in Hx by lia. revert k x Hk Hx. eapply inside_high; [done|lia|done].
Qed.

Lemma qst_loop_spec fuel : forall rs b e, records rs -> (e <= length rs)%nat -> (4 <= e - b)%nat -> (e - b <= fuel)%nat ->
  exists rs', qst_loop qsz compar fuel (ptr b) (ptr e) (ptr (e - b)) (concat rs) = Ok (concat rs') /\ side b e rs rs'.
Proof.
  induction fuel as [|fuel IH]; intros rs b e H He H4 Hf; [lia|]. cbn [qst_loop]. set (mid := (b + (e - b) / 2)%nat).
  assert (b <= mid < e)%nat as Hm. { subst mid. pose proof (Nat.div_lt (e - b) 2 ltac:(lia) ltac:(lia)). lia. }
  assert (ptr b + qsz * Z.shiftr (ptr (e - b) `quot` qsz) 1 = ptr mid) as ->.
  { unfold ptr. replace (Z.of_nat ((e - b) * w) `quot` qsz) with (Z.of_nat (e - b)) by (rewrite Nat2Z.inj_mul, Z.quot_mul by lia; done). rewrite Z.shiftr_div_pow2 by lia. change (2 ^ 1) with (Z.of_nat 2). rewrite <- Nat2Z.inj_div. subst mid. lia. }
  assert (exists rs0, (if mthresh qsz <=? ptr (e - b) then median qsz compar (ptr b) (ptr mid) (ptr e) (concat rs) else mret (concat rs)) = Ok (concat rs0) /\ inside b e rs rs0) as (rs0 & -> & I0).
  { destruct (_ <=? _); [by apply median_spec|by exists rs]. }
  kstep. pose proof (inside_length _ _ _ _ I0) as L0. pose proof (inside_records _ _ _ _ I0 H) as H0. destruct (lookup_lt_is_Some_2 rs0 mid ltac:(lia)) as [v Hv].
  rewrite ptr_pred by lia. destruct (partition_spec (S (length (concat rs0))) rs0 b e b mid (e - 1)%nat v) as (j & r1 & -> & Hp); try done; try lia.
  { pose proof (flat_length w Hw rs0 H0). nia. } { intros k x Hk. lia. } { intros k x Hk. lia. }
  kstep. destruct Hp as (I1 & Hj & Hrest). pose proof (inside_length _ _ _ _ I1) as L1. pose proof (inside_records _ _ _ _ I1 H0) as H1. rewrite ptr_S by done. rewrite !ptr_sub, ptr_leb by lia.
  assert (forall n, (thresh qsz <=? ptr n) = (4 <=? n)%nat) as Et by (intros n; unfold thresh; change THRESH with (Z.of_nat 4); by rewrite ptr_thresh, ptr_leb by done).
  rewrite !Et. assert (parted b e rs r1 j) as Hpart by (split; [by etransitivity|split; [done|done]]).
  assert (forall (b' e' : nat) r, inside b e r1 r -> (b <= b')%nat -> (e' <= e)%nat -> (e' - b' < e - b)%nat ->
    exists r', (if (4 <=? e' - b')%nat then qst_loop qsz compar fuel (ptr b') (ptr e') (ptr (e' - b')) (concat r) else mret (concat r)) = Ok (concat r') /\ side b' e' r r') as Hgo.
  { intros b' e' r Ir Hb' He' Hlt. pose proof (inside_length _ _ _ _ Ir). destruct (Nat.leb_spec 4 (e' - b')); [apply IH; [by eapply inside_records|lia..]|]. exists r. split; [done|]. by apply side_none. }
  destruct (j - b <=? e - S j)%nat.
  - destruct (Hgo b j r1) as (r2 & -> & S2); [done|lia..|]. kstep. assert (inside b e r1 r2) as I2 by (eapply inside_mono; [| |apply S2]; lia).
    destruct (Hgo (S j) e r2) as (r3 & -> & S3); [done|lia..|]. exists r3. split; [done|]. apply (sides_join b j e rs r1 r2 r3); try done.
  - destruct (Hgo (S j) e r1) as (r2 & -> & S2); [done|lia..|]. kstep. assert (inside b e r1 r2) as I2 by (eapply inside_mono; [| |apply S2]; lia).
    destruct (Hgo b j r2) as (r3 & -> & S3); [done|lia..|]. exists r3. split; [done|]. apply (sides_join' b j e rs r1 r2 r3); try done.
Qed.

(** ** The insertion sort *)

(** The records before [n] are in order. *)
Definition ordered (n : nat) rs : Prop := forall i j x y, (i < j < n)%nat -> rs !! i = Some x -> rs !! j = Some y -> le x y.

Lemma find_min_spec fuel : forall rs j lo hi, records rs -> (hi <= length rs)%nat -> (j <= lo < hi)%nat -> (hi - lo <= fuel)%nat -> (forall v, rs !! j = Some v -> high 0 (S lo) v rs) ->
  exists j' v, find_min qsz compar fuel (ptr j) (ptr lo) (ptr hi) (concat rs) = Ok (ptr j') /\ (j' < hi)%nat /\ rs !! j' = Some v /\ high 0 hi v rs.
Proof.
  induction fuel as [|fuel IH]; intros rs j lo hi H Hh Hj Hf Hm; [lia|]. cbn [find_min]. rewrite ptr_S, ptr_ltb by done. destruct (lookup_lt_is_Some_2 rs j ltac:(lia)) as [v Hv].
  destruct (Nat.ltb_spec (S lo) hi).
  - destruct (lookup_lt_is_Some_2 rs (S lo) ltac:(lia)) as [u Hu]. rewrite (qcmp_spec w Hw _ _ _ _ _ _ H Hv Hu). kstep.
    assert (forall k t, rs !! k = Some t -> le t v -> le t u -> high 0 (S (S lo)) t rs) as Hk.
    { intros k t Ht H1 H2 k' x Hk' Hx. destruct (decide (k' = S lo)) as [->|]; [by simplify_eq|]. apply (cmp_trans t v); [done|]. eapply (Hm v Hv); [|done]. lia. }
    destruct (Z.ltb_spec 0 (compar v u)).
    + apply IH; [done|lia..|]. intros t Ht. rewrite Hu in Ht. injection Ht as <-. apply (Hk (S lo)); [done|apply gt_le; lia|by destruct (cmp_total u u)].
    + apply IH; [done|lia..|]. intros t Ht. rewrite Hv in Ht. injection Ht as <-. apply (Hk j); [done|by destruct (cmp_total v v)|lia].
  - exists j, v. split; [done|]. split; [lia|]. split; [done|]. replace hi with (S lo) by lia. by apply Hm.
Qed.

Lemma find_place_spec fuel : forall rs h m u v, records rs -> rs !! m = Some u -> rs !! O = Some v -> le v u -> (0 < h <= m)%nat -> (h <= fuel)%nat ->
  (forall k x, (h <= k < m)%nat -> rs !! k = Some x -> ~ le x u) ->
  exists h', find_place qsz compar fuel (ptr h) (ptr m) (concat rs) = Ok (ptr h') /\ (h' < h)%nat /\ (forall x, rs !! h' = Some x -> le x u) /\ (forall k x, (S h' <= k < m)%nat -> rs !! k = Some x -> ~ le x u).
Proof.
  induction fuel as [|fuel IH]; intros rs h m u v H Hu Hv Hle Hh Hf Hgt; [lia|]. cbn [find_place]. rewrite ptr_pred by lia.
  destruct (lookup_lt_is_Some_2 rs (h - 1) ltac:(apply lookup_lt_Some in Hu; lia)) as [x Hx]. rewrite (qcmp_spec w Hw _ _ _ _ _ _ H Hx Hu). kstep.
  assert (forall k y, (S (h - 1) <= k < m)%nat -> rs !! k = Some y -> ~ le y u) as Hgt' by (intros k y Hk; apply Hgt; lia). destruct (Z.ltb_spec 0 (compar x u)) as [Hc|Hc].
  - destruct (decide (h = 1%nat)) as [->|]; [cbn in Hx; rewrite Hv in Hx; injection Hx as <-; lia|].
    destruct (IH rs (h - 1)%nat m u v H Hu Hv Hle) as (h' & -> & ? & Hrest); [lia|lia| |exists h'; split; [done|]; split; [lia|done]].
    intros k y Hk Hy. destruct (decide (k = h - 1)%nat) as [->|]; [rewrite Hx in Hy; injection Hy as <-; lia|]. eapply Hgt; [|done]. lia.
  - exists (h - 1)%nat. split; [done|]. split; [lia|]. split; [|done]. intros y Hy. rewrite Hx in Hy. by injection Hy as <-.
Qed.

Lemma ordered_carry rs h m u : (h <= m < length rs)%nat -> rs !! m = Some u -> ordered m rs -> (forall k x, (k < h)%nat -> rs !! k = Some x -> le x u) -> (forall k x, (h <= k < m)%nat -> rs !! k = Some x -> le u x) -> ordered (S m) (carry h m rs).
Proof.
  intros Hm Hu Ho Hl Hg i j x y Hij. rewrite !(carry_lookup w Hw) by lia. repeat destruct (decide _); try lia; intros Hx Hy.
  all: try (rewrite Hu in Hx; injection Hx as <-); try (rewrite Hu in Hy; injection Hy as <-).
  - eapply Hg; [|exact Hy]. lia.
  - eapply (Ho (i - 1)%nat (j - 1)%nat); [lia|done..].
  - eapply Hl; [|exact Hx]. lia.
  - eapply (Ho i (j - 1)%nat); [lia|done..].
  - eapply (Ho i j); [lia|done..].
Qed.

Lemma insertion_spec fuel : forall rs m n v, records rs -> n = length rs -> (m < n)%nat -> (n - m <= fuel)%nat -> rs !! O = Some v -> high 0 n v rs -> ordered (S m) rs ->
  exists rs', insertion qsz compar fuel (ptr m) (ptr n) (concat rs) = Ok (concat rs') /\ rs' ≡ₚ rs /\ ordered n rs'.
Proof.
  induction fuel as [|fuel IH]; intros rs m n v H Hn Hm Hf Hv Hmin Ho; [lia|]. cbn [insertion]. rewrite ptr_S, ptr_ltb by done. destruct (Nat.ltb_spec (S m) n) as [Hlt|Hge].
  - destruct (lookup_lt_is_Some_2 rs (S m) ltac:(lia)) as [u Hu]. pose proof (flat_length w Hw rs H) as Hl.
    destruct (find_place_spec (length (concat rs)) rs (S m) (S m) u v H Hu Hv) as (h & -> & Hh & Hle & Hgt); [eapply Hmin; [|done]; lia|lia|nia|intros; lia|]. kstep. rewrite ptr_S by done.
    assert (exists rs1, (if ptr (S h) =? ptr (S m) then mret (concat rs) else insert_bytes qsz (Z.to_nat qsz) (ptr (S m)) (ptr (S h)) (concat rs)) = Ok (concat rs1) /\ rs1 = carry (S h) (S m) rs) as (rs1 & -> & Er).
    { exists (carry (S h) (S m) rs). split; [|done]. rewrite ptr_eqb by done. destruct (Nat.eqb_spec (S h) (S m)) as [E|]; [|rewrite Nat2Z.id; by apply insert_flat; [..|lia|lia]].
      rewrite E. do 2 f_equal. unfold carry. rewrite Hu, Nat.sub_diag, take_0, app_nil_l. by rewrite take_drop_middle. }
    kstep. assert (rs1 ≡ₚ rs) as P1 by (rewrite Er; apply (carry_perm w Hw); lia). assert (length rs1 = n) as L1 by (by rewrite P1).
    assert (ordered (S (S m)) rs1) as Ho1.
    { rewrite Er. apply (ordered_carry _ _ _ u); [lia|done|done| |intros k x Hk Hx; apply gt_le; by apply (Hgt k)]. intros k x Hk Hx. destruct (decide (k = h)) as [->|]; [by apply Hle|].
      destruct (lookup_lt_is_Some_2 rs h ltac:(lia)) as [t Ht]. apply (cmp_trans x t); [|by apply Hle]. apply (Ho k h); [lia|done..]. }
    destruct (IH rs1 (S m) n v) as (rs' & -> & P & Hord); try done; try lia.
    + unfold Qsort.records. by rewrite P1.
    + rewrite Er, (carry_lookup w Hw) by lia. by rewrite decide_False by lia.
    + intros k x Hk Hx. assert (x ∈ rs) as Hin by (rewrite <- P1; by eapply list_elem_of_lookup_2). apply list_elem_of_lookup_1 in Hin as [k' Hk']. eapply Hmin; [|done]. apply lookup_lt_Some in Hk'. lia.
    + exists rs'. split; [done|]. split; [by rewrite P|done].
  - exists rs. split; [done|]. split; [done|]. by replace n with (S m) by lia.
Qed.

Lemma ordered_sorted rs : ordered (length rs) rs -> StronglySorted (fun x y => le x y) rs.
Proof.
  induction rs as [|x rs IH]; intros Ho; [constructor|]. constructor.
  - apply IH. intros i j y z Hij Hy Hz. apply (Ho (S i) (S j)); [cbn; lia|done..].
  - apply Forall_forall. intros y Hy. apply list_elem_of_In, list_elem_of_lookup_1 in Hy as [i Hi]. apply (Ho O (S i)); [cbn; apply lookup_lt_Some in Hi; lia|done..].
Qed.

(** The least record goes first. *)
Lemma sentinel_spec rs hi : records rs -> (1 <= hi <= length rs)%nat -> (exists k v, (k < hi)%nat /\ rs !! k = Some v /\ high 0 (length rs) v rs) ->
  exists rs' v, (j ← find_min qsz compar (length (concat rs)) 0 0 (ptr hi) (concat rs); if j =? 0 then mret (concat rs) else swap (Z.to_nat qsz) j 0 (concat rs)) = Ok (concat rs') /\
    rs' ≡ₚ rs /\ rs' !! O = Some v /\ high 0 (length rs) v rs'.
Proof.
  intros H Hhi (k & u & Hk & Hu & Hmin). pose proof (flat_length w Hw rs H) as Hl. assert (0 = ptr 0) as E0 by done. rewrite !E0.
  destruct (find_min_spec (length (concat rs)) rs 0 0 hi H) as (j & v & -> & Hj & Hv & Hm); [lia|lia|nia|intros v Hv k' x Hk' Hx; assert (k' = O) as -> by lia; rewrite Hv in Hx; injection Hx as <-; by destruct (cmp_total v v)|].
  kstep. assert (high 0 (length rs) v rs) as Hall by (intros k' x Hk' Hx; apply (cmp_trans v u); [eapply Hm; [|exact Hu]; lia|eapply Hmin; [|exact Hx]; lia]).
  rewrite ptr_eqb by done. destruct (Nat.eqb_spec j 0) as [->|Hn]; [by exists rs, v|]. rewrite Nat2Z.id, swap_flat by (done || lia). exists (exch j 0 rs), v. split; [done|]. pose proof (exch_perm j 0 rs) as P. split; [done|]. split.
  - rewrite (exch_lookup w Hw) by lia. destruct (decide _); [lia|]. by rewrite decide_True.
  - intros k' x Hk' Hx. assert (x ∈ rs) as Hin by (rewrite <- P; by eapply list_elem_of_lookup_2). apply list_elem_of_lookup_1 in Hin as [i Hi]. eapply Hall; [|done]. apply lookup_lt_Some in Hi. lia.
Qed.

(** C14: qsort() of [n] records of [w] bytes returns, having touched no byte outside the array, with a permutation of the records that is in order -
    for every comparison that is total and transitive, whatever the array holds; the loops that exchange and move records byte by byte included. *)
Theorem qsort_sorts rs : records rs -> exists rs', qsort qsz compar (Z.of_nat (length rs)) (concat rs) = Ok (concat rs') /\ rs' ≡ₚ rs /\ StronglySorted (fun x y => le x y) rs'.
Proof.
  intros H. unfold qsort. pose proof (flat_length w Hw rs H) as Hl. destruct (Z.leb_spec (Z.of_nat (length rs)) 1) as [H1|H1].
  - exists rs. split; [done|]. split; [done|]. destruct rs as [|x [|y rs]]; [constructor|constructor; constructor|cbn in H1; lia].
  - replace (Z.of_nat (length rs) * qsz) with (ptr (length rs)) by (unfold ptr; lia). assert (0 = ptr 0) as E0 by done.
    assert (exists rs1 hi, (if THRESH <=? Z.of_nat (length rs) then m ← qst qsz compar 0 (ptr (length rs)) (concat rs); mret (thresh qsz, m) else mret (ptr (length rs), concat rs)) = Ok (ptr hi, concat rs1) /\
      rs1 ≡ₚ rs /\ (1 <= hi <= length rs)%nat /\ exists k v, (k < hi)%nat /\ rs1 !! k = Some v /\ high 0 (length rs1) v rs1) as (rs1 & hi & -> & P1 & Hhi & Hmin).
    { destruct (Z.leb_spec THRESH (Z.of_nat (length rs))) as [H4|H4]; unfold THRESH in H4.
      - unfold qst. destruct (qst_loop_spec (length (concat rs)) rs 0 (length rs) H) as (rs1 & Hq & I & L4); [lia|lia|nia|]. rewrite Nat.sub_0_r in Hq, L4. rewrite Z.sub_0_r. rewrite E0, Hq. kstep.
        destruct (L4 ltac:(lia)) as (k & v & Hk & _ & Hv & Hm). exists rs1, 4%nat. split; [unfold thresh; change THRESH with (Z.of_nat 4); by rewrite ptr_thresh|]. split; [apply I|]. split; [lia|].
        exists k, v. rewrite (inside_length _ _ _ _ I). split; [lia|done].
      - exists rs, (length rs). split; [done|]. split; [done|]. split; [lia|]. destruct (least_of 0 (length rs - 1) rs) as (k & v & Hk & Hv & Hm); [lia|]. exists k, v. replace (0 + S (length rs - 1))%nat with (length rs) in * by lia. split; [lia|done]. }
    kstep. assert (records rs1) as R1 by (unfold Qsort.records; by rewrite P1). assert (length rs1 = length rs) as L1 by (by rewrite P1).
    destruct (sentinel_spec rs1 hi R1 ltac:(lia) Hmin) as (rs2 & v & Hs & P2 & Hv & Hm).
    destruct (find_min _ _ _ _ _ _ _) as [j| |]; [|done..]. revert Hs. kstep. intros ->. kstep. assert (length rs2 = length rs) as L2 by (by rewrite P2).
    rewrite E0. assert (records rs2) as R2 by (unfold Qsort.records; by rewrite P2, P1). pose proof (flat_length w Hw rs2 R2).
    destruct (insertion_spec (length (concat rs2)) rs2 0 (length rs) v) as (rs3 & -> & P3 & Ho); try done; try lia; try nia; [by rewrite <- L1|intros i1 i2 x y ?; lia|].
    exists rs3. split; [done|]. split; [by rewrite P3, P2|]. apply ordered_sorted. assert (length rs3 = length rs) as -> by (by rewrite P3, P2). done.
Qed.
End Sort.

(** ** Twenty-four records of two bytes; the order looks at the first *)

Definition by_first (x y : list Z) : Z := hd 0 x - hd 0 y.
#[local] Instance by_first_comparison : Comparison by_first.
Proof. split; unfold by_first; intros; lia. Qed.

Definition some_records : list (list Z) := map (fun k => [k; 100]) [17;4;9;9;23;1;0;8;30;2;2;11;5;40;3;19;6;7;28;13;21;10;16;12].

Lemma qsort_sorts_witness : exists rs', qsort 2 by_first 24 (concat some_records) = Ok (concat rs') /\ rs' ≡ₚ some_records /\ StronglySorted (fun x y => by_first x y <= 0) rs'.
Proof. apply (qsort_sorts 2 ltac:(lia) by_first some_records). repeat constructor. Defined.
