(* ===== verification/Pcfs.v ===== *)
(** * The PC file system: [src/sun/sys/pcfs/pc_alloc.c], pc_truncate() of [pc_node.c], macros of [pc_fs.h]

    Definitions only.  The file allocation table is the bytes of two sectors, two entries of twelve bits in each three; an entry leads to the next cluster of
    the file.  What is done to the device and to the terminal is recorded. *)

From S2P Require Import Prelude Flags.
From stdpp Require Import prelude list numbers strings.
From Stdlib Require Import ZArith Lia.

Local Open Scope Z_scope.
Local Open Scope kern_scope.

Definition PCF_FREECLUSTER : Z := 0x00.
Definition PCF_LASTCLUSTER : Z := 0xFF8.
Definition PCF_FIRSTCLUSTER : Z := 2.
Definition PCFS_FATMOD : Z := 0x01.
Definition PC_MOD : Z := 0x01.
Definition PC_CHG : Z := 0x02.
Definition PC_INVAL : Z := 0x04.
Definition ENOENT : Z := 2.
Definition EIO : Z := 5.
Definition EFBIG : Z := 27.
Definition ENOSPC : Z := 28.

(** A cluster is cleared (getblk, clrbuf, bawrite) at its disk address; a block is flushed (blkflush); the file system is reported as corrupted. *)
Inductive pcev := Cleared (daddr size : Z) | Flushed (blkno size : Z) | BadFs.

(** [pcfs_fatp]: the bytes, when they are in core. *)
Record pcfs := Pcfs {
  pcfs_flags : Z; pcfs_spcl : Z; pcfs_rdirsec : Z; pcfs_rdirstart : Z; pcfs_datastart : Z; pcfs_clsize : Z; pcfs_ncluster : Z;
  pcfs_fatp : option (list Z); pcev_log : list pcev
}.
Definition set_fat (v : list Z) (f : pcfs) : pcfs :=
  Pcfs (pcfs_flags f) (pcfs_spcl f) (pcfs_rdirsec f) (pcfs_rdirstart f) (pcfs_datastart f) (pcfs_clsize f) (pcfs_ncluster f) (Some v) (pcev_log f).
Definition set_pflags (v : Z) (f : pcfs) : pcfs :=
  Pcfs v (pcfs_spcl f) (pcfs_rdirsec f) (pcfs_rdirstart f) (pcfs_datastart f) (pcfs_clsize f) (pcfs_ncluster f) (pcfs_fatp f) (pcev_log f).
Definition plog (e : pcev) (f : pcfs) : pcfs :=
  Pcfs (pcfs_flags f) (pcfs_spcl f) (pcfs_rdirsec f) (pcfs_rdirstart f) (pcfs_datastart f) (pcfs_clsize f) (pcfs_ncluster f) (pcfs_fatp f) (pcev_log f ++ [e]).
Definition pc_badfs (f : pcfs) : pcfs := plog BadFs f.

Inductive vtype := VREG | VDIR.
(** [pc_root]: VROOT of [v_flag]. *)
Record pcnode := Pcnode { pc_root : bool; pc_type : vtype; pc_flags : Z; pc_size : Z; pc_scluster : Z }.
Definition set_scluster (v : Z) (p : pcnode) : pcnode := Pcnode (pc_root p) (pc_type p) (pc_flags p) (pc_size p) v.
Definition set_psize (v : Z) (p : pcnode) : pcnode := Pcnode (pc_root p) (pc_type p) (pc_flags p) v (pc_scluster p).
Definition set_nflags (v : Z) (p : pcnode) : pcnode := Pcnode (pc_root p) (pc_type p) v (pc_size p) (pc_scluster p).

(** ** Macros *)

Definition howmany (x y : Z) : Z := (x + (y - 1)) `quot` y.
Definition pc_lblkno (f : pcfs) (off : Z) : Z := off `quot` pcfs_clsize f.
Definition pc_cltodb (f : pcfs) (cl : Z) : Z := cl * pcfs_spcl f.
Definition pc_cldaddr (f : pcfs) (cl : Z) : Z := pcfs_datastart f + (cl - PCF_FIRSTCLUSTER) * pcfs_spcl f.
Definition pc_validcl (f : pcfs) (cl : Z) : bool := (PCF_FIRSTCLUSTER <=? cl) && (cl <? pcfs_ncluster f + PCF_FIRSTCLUSTER).

(** ** The table *)

Definition pc_getcluster (f : pcfs) (cn : Z) : res Z :=
  match pcfs_fatp f with
  | Some t =>
      if pc_validcl f cn then
        let fp := cn + Z.shiftr cn 1 in
        b0 ← rdz t fp;
        b1 ← rdz t (fp + 1);
        if negb (Z.land cn 1 =? 0) then mret (Z.shiftr (Z.land b0 0xf0) 4 + Z.shiftl b1 4) else mret (b0 + Z.shiftl (Z.land b1 0x0f) 8)
      else Panic "pc_getcluster"
  | None => Panic "pc_getcluster"
  end.

Definition pc_setcluster (f : pcfs) (cn ncn : Z) : res pcfs :=
  match pcfs_fatp f with
  | Some t =>
      if pc_validcl f cn then
        let f := set_pflags (with_bits (pcfs_flags f) PCFS_FATMOD) f in
        let fp := cn + Z.shiftr cn 1 in
        b0 ← rdz t fp;
        if negb (Z.land cn 1 =? 0) then
          t ← wrz t fp (Z.lor (Z.land b0 0x0f) (Z.land (Z.shiftl ncn 4) 0xf0));
          t ← wrz t (fp + 1) (Z.land (Z.shiftr ncn 4) 0xff);
          mret (set_fat t f)
        else
          t ← wrz t fp (Z.land ncn 0xff);
          b1 ← rdz t (fp + 1);
          t ← wrz t (fp + 1) (Z.lor (Z.land b1 0xf0) (Z.land (Z.shiftr ncn 8) 0x0f));
          mret (set_fat t f)
      else Panic "pc_setcluster"
  | None => Panic "pc_setcluster"
  end.

(** The loop of pc_alloccluster() over the clusters that are left. *)
Fixpoint alloc_scan (n : nat) (cn : Z) (f : pcfs) : res (Z * pcfs) :=
  match n with
  | O => mret (PCF_FREECLUSTER, f)
  | S n =>
      c ← pc_getcluster f cn;
      if c =? PCF_FREECLUSTER then
        f ← pc_setcluster f cn PCF_LASTCLUSTER;
        mret (cn, plog (Cleared (pc_cldaddr f cn) (pcfs_clsize f)) f)
      else alloc_scan n (cn + 1) f
  end.
Definition pc_alloccluster (f : pcfs) : res (Z * pcfs) :=
  match pcfs_fatp f with
  | None => Panic "pc_addcluster: no fat"
  | Some _ => alloc_scan (Z.to_nat (pcfs_ncluster f)) PCF_FIRSTCLUSTER f
  end.

Fixpoint free_count (n : nat) (cn : Z) (f : pcfs) : res Z :=
  match n with
  | O => mret 0
  | S n => c ← pc_getcluster f cn; k ← free_count n (cn + 1) f; mret (if c =? PCF_FREECLUSTER then k + 1 else k)
  end.
Definition pc_freeclusters (f : pcfs) : res Z := free_count (Z.to_nat (pcfs_ncluster f)) PCF_FIRSTCLUSTER f.

(** ** Reading *)

(** The loop of pc_bmap(), [n] rounds after this one: the cluster and the entry after it, or the error. *)
Fixpoint bmap_loop (n : nat) (p : pcnode) (cn : Z) (f : pcfs) : res (Z + (Z * Z)) :=
  if negb (pc_validcl f cn) then
    mret (inl (match pc_type p with VDIR => if PCF_LASTCLUSTER <=? cn then ENOENT else EIO | VREG => EIO end))
  else
    ncn ← pc_getcluster f cn;
    match n with O => mret (inr (cn, ncn)) | S n => bmap_loop n p ncn f end.

(** [*dbnp] and [*rabnp] where they are set; [ra]: [rabnp] is not null. *)
Definition pc_bmap (p : pcnode) (lcn : Z) (ra : bool) (f : pcfs) : res (Z * option Z * option Z * pcfs) :=
  if lcn <? 0 then mret (ENOENT, None, None, f)
  else if pc_root p then
    let lbn := pc_cltodb f lcn in
    if pcfs_rdirsec f <=? lbn then mret (ENOENT, None, None, f)
    else
      let dbn := pcfs_rdirstart f + lbn in
      mret (0, Some dbn, if ra then Some (if lbn + 1 <? pcfs_rdirsec f then dbn + 1 else 0) else None, f)
  else if pcfs_ncluster f <=? lcn then mret (ENOENT, None, None, f)
  else if match pc_type p with VREG => (pc_size p =? 0) || (howmany (pc_size p) (pcfs_clsize f) <=? lcn) | VDIR => false end then mret (ENOENT, None, None, f)
  else
    r ← bmap_loop (Z.to_nat lcn) p (pc_scluster p) f;
    match r with
    | inl e => mret (e, None, None, if e =? ENOENT then f else pc_badfs f)
    | inr (cn, ncn) =>
        let dbn := pc_cldaddr f cn in
        if ra then
          if PCF_LASTCLUSTER <=? ncn then mret (0, Some dbn, Some 0, f)
          else if negb (pc_validcl f ncn) then mret (EIO, Some dbn, None, pc_badfs f)
          else mret (0, Some dbn, Some (pc_cldaddr f ncn), f)
        else mret (0, Some dbn, None, f)
    end.

(** ** Allocating *)

(** The loop of pc_balloc(): the error, or the cluster. *)
Fixpoint balloc_loop (n : nat) (cn : Z) (f : pcfs) : res ((Z + Z) * pcfs) :=
  match n with
  | O => mret (inr cn, f)
  | S n =>
      ncn ← pc_getcluster f cn;
      if PCF_LASTCLUSTER <=? ncn then
        '(ncn, f) ← pc_alloccluster f;
        if ncn =? PCF_FREECLUSTER then mret (inl ENOSPC, f)
        else f ← pc_setcluster f cn ncn; balloc_loop n ncn f
      else if negb (pc_validcl f ncn) then mret (inl EIO, pc_badfs f)
      else balloc_loop n ncn f
  end.

Definition pc_balloc (p : pcnode) (lcn : Z) (f : pcfs) : res (Z * option Z * pcnode * pcfs) :=
  if lcn <? 0 then mret (EFBIG, None, p, f)
  else if pc_root p then
    let lbn := pc_cltodb f lcn in
    if pcfs_rdirsec f <=? lbn then mret (EFBIG, None, p, f) else mret (0, Some (pcfs_rdirstart f + lbn), p, f)
  else if pcfs_ncluster f <=? lcn then mret (EFBIG, None, p, f)
  else
    '(r, p, f) ←
      (if match pc_type p with VREG => pc_size p =? 0 | VDIR => lcn =? 0 end then
         '(cn, f) ← pc_alloccluster f;
         if cn =? PCF_FREECLUSTER then mret (inl ENOSPC, p, f) else mret (inr cn, set_scluster cn p, f)
       else if negb (pc_validcl f (pc_scluster p)) then mret (inl EIO, p, pc_badfs f)
       else mret (inr (pc_scluster p), p, f));
    match r with
    | inl e => mret (e, None, p, f)
    | inr cn =>
        '(r, f) ← balloc_loop (Z.to_nat lcn) cn f;
        match r with inl e => mret (e, None, p, f) | inr cn => mret (0, Some (pc_cldaddr f cn), p, f) end
    end.

(** ** Freeing *)

Fixpoint bfree_loop (n : nat) (p : pcnode) (cn skipcl : Z) (f : pcfs) : res (Z * pcfs) :=
  match n with
  | O => mret (0, f)
  | S n =>
      if negb (pc_validcl f cn) then mret (EIO, pc_badfs f)
      else
        ncn ← pc_getcluster f cn;
        f ← (if skipcl =? 0 then pc_setcluster f cn PCF_FREECLUSTER else mret f);
        let skipcl := if skipcl =? 0 then 0 else skipcl - 1 in
        if (PCF_LASTCLUSTER <=? ncn) && match pc_type p with VDIR => true | VREG => false end then mret (0, f)
        else bfree_loop n p ncn skipcl f
  end.

Definition pc_bfree (p : pcnode) (skipcl : Z) (f : pcfs) : res (Z * pcnode * pcfs) :=
  if pc_root p then Panic "pc_bfree"
  else
    match pc_type p with
    | VREG =>
        if pc_size p =? 0 then mret (0, p, f)
        else
          let n := howmany (pc_size p) (pcfs_clsize f) in
          if pcfs_ncluster f <? n then mret (EIO, p, pc_badfs f)
          else
            '(e, f) ← bfree_loop (Z.to_nat (u32 n)) p (pc_scluster p) skipcl f;
            mret (e, if skipcl =? 0 then set_scluster PCF_LASTCLUSTER p else p, f)
    | VDIR =>
        '(e, f) ← bfree_loop (Z.to_nat (u32 (pcfs_ncluster f))) p (pc_scluster p) skipcl f;
        mret (e, if skipcl =? 0 then set_scluster PCF_LASTCLUSTER p else p, f)
    end.

Fixpoint bflush_loop (n : nat) (cn : Z) (f : pcfs) : res (Z * pcfs) :=
  match n with
  | O => mret (0, f)
  | S n =>
      if negb (pc_validcl f cn) then mret (EIO, pc_badfs f)
      else
        let f := plog (Flushed (pc_cltodb f cn) (pcfs_clsize f)) f in
        ncn ← pc_getcluster f cn; bflush_loop n ncn f
  end.
Definition pc_bflush (p : pcnode) (f : pcfs) : res (Z * pcfs) :=
  match pc_type p with
  | VDIR => Panic "pc_bflush"
  | VREG =>
      let n := howmany (pc_size p) (pcfs_clsize f) in
      if pcfs_ncluster f <? n then mret (EIO, pc_badfs f) else bflush_loop (Z.to_nat (u32 n)) (pc_scluster p) f
  end.

(** ** pc_truncate() *)

(** Without the copy of the directory entry. *)
Definition pc_mark (p : pcnode) : pcnode :=
  match pc_type p with VREG => set_nflags (with_bits (pc_flags p) (Z.lor PC_MOD PC_CHG)) p | VDIR => p end.

Definition pc_truncate (p : pcnode) (length : Z) (f : pcfs) : res (Z * pcnode * pcfs) :=
  if has (pc_flags p) PC_INVAL then mret (EIO, p, f)
  else
    match pc_type p with
    | VDIR => pc_bfree p 0 f
    | VREG =>
        '(e, p, f) ←
          (if pc_size p <? length then '(e, _, p, f) ← pc_balloc p (pc_lblkno f length) f; mret (e, p, f)
           else if length <? pc_size p then pc_bfree p (i16 (howmany length (pcfs_clsize f))) f
           else mret (0, p, f));
        mret (e, pc_mark (set_psize length p), f)
    end.
