(* ===== verification/PcfsThms.v ===== *)
(** * The PC file system: clusters and chains

    The packed table is an array of entries: what is set is read back, and no other entry changes.  A file is the chain of clusters from
    its first; allocation extends the chain by the first free clusters and leaves every other chain alone, freeing takes clusters off
    its end. *)

From S2P Require Import Prelude Flags Pcfs.
From stdpp Require Import prelude list numbers strings.
From Stdlib Require Import ZArith Lia.

Local Open Scope Z_scope.
Local Open Scope kern_scope.

(** ** Twelve bits in three bytes *)

Definition byte (b : Z) : Prop := 0 <= b < 256.

Lemma lor_disjoint a b : Z.land a b = 0 -> Z.lor a b = a + b.
Proof. intros H. rewrite Z.add_nocarry_lxor by done. symmetry. by apply Z.lxor_lor. Qed.
Lemma land_low a : Z.land a 0x0f = a mod 16.
Proof. change 0x0f with (Z.ones 4). by rewrite Z.land_ones. Qed.
Lemma land_byte a : Z.land a 0xff = a mod 256.
Proof. change 0xff with (Z.ones 8). by rewrite Z.land_ones. Qed.
Lemma land_high b : byte b -> Z.land b 0xf0 = b / 16 * 16.
Proof.
  intros Hb. unfold byte in Hb. assert (b = Z.lor (Z.shiftl (b / 16) 4) (b mod 16)) as E.
  { rewrite Z.shiftl_mul_pow2 by lia. change (2 ^ 4) with 16. rewrite lor_disjoint; [pose proof (Z.div_mod b 16); lia|]. rewrite <- land_low. change 16 with (2 ^ 4). rewrite <- Z.shiftl_mul_pow2 by lia.
    apply Z.bits_inj'. intros n Hn. rewrite !Z.land_spec, Z.bits_0. destruct (decide (n < 4)); [by rewrite Z.shiftl_spec_low|]. change 0x0f with (Z.ones 4). rewrite Z.ones_spec_high by lia. by rewrite !andb_false_r. }
  rewrite E at 1. rewrite Z.land_lor_distr_l. change 0xf0 with (Z.shiftl 0x0f 4) at 1. rewrite <- Z.shiftl_land, land_low. rewrite Z.mod_small by (split; [apply Z.div_pos; lia|apply Z.div_lt_upper_bound; lia]).
  assert (Z.land (b mod 16) 0xf0 = 0) as ->. { rewrite <- land_low, <- Z.land_assoc. change (Z.land 0x0f 0xf0) with 0. apply Z.land_0_r. }
  rewrite Z.lor_0_r, Z.shiftl_mul_pow2 by lia. done.
Qed.

Lemma nibbles_low b n : Z.lor (Z.land b 0x0f) (Z.land (Z.shiftl n 4) 0xf0) = b mod 16 + n mod 16 * 16.
Proof.
  change 0xf0 with (Z.shiftl 0x0f 4). rewrite <- Z.shiftl_land. rewrite lor_disjoint.
  - rewrite !land_low, Z.shiftl_mul_pow2 by lia. done.
  - rewrite <- Z.land_assoc. apply Z.bits_inj'. intros k Hk. rewrite !Z.land_spec, Z.bits_0. destruct (decide (k < 4)); [rewrite Z.shiftl_spec_low by lia; by rewrite !andb_false_r|].
    change 0x0f with (Z.ones 4) at 1. rewrite Z.ones_spec_high by lia. by rewrite andb_false_r.
Qed.
Lemma nibbles_high b n : byte b -> Z.lor (Z.land b 0xf0) (Z.land (Z.shiftr n 8) 0x0f) = b / 16 * 16 + n / 256 mod 16.
Proof.
  intros Hb. rewrite lor_disjoint.
  - rewrite land_high, land_low, Z.shiftr_div_pow2 by done || lia. done.
  - rewrite (Z.land_comm (Z.shiftr n 8)), Z.land_assoc, <- (Z.land_assoc b). change (Z.land 0xf0 0x0f) with 0. by rewrite Z.land_0_r.
Qed.
Lemma high_nibble b : byte b -> Z.shiftr (Z.land b 0xf0) 4 = b / 16.
Proof. intros Hb. rewrite land_high, Z.shiftr_div_pow2 by done. change (2 ^ 4) with 16. by rewrite Z.div_mul. Qed.

Lemma even_even b v : 0 <= v < 4096 -> v mod 256 + (b / 16 * 16 + v / 256 mod 16) mod 16 * 256 = v.
Proof. intros H. rewrite (Z.add_comm (b / 16 * 16)), Z.mod_add by lia. Z.to_euclidean_division_equations; lia. Qed.
Lemma even_odd b s : (b / 16 * 16 + s mod 16) / 16 = b / 16.
Proof. rewrite Z.div_add_l by lia. rewrite (Z.div_small (s mod 16)) by (apply Z.mod_pos_bound; lia). lia. Qed.
Lemma odd_even b s : (b mod 16 + s * 16) mod 16 = b mod 16.
Proof. rewrite Z.mod_add by lia. by apply Zmod_mod. Qed.
Lemma odd_odd b v : 0 <= v < 4096 -> (b mod 16 + v mod 16 * 16) / 16 + v / 16 mod 256 * 16 = v.
Proof. intros H. rewrite Z.div_add by lia. rewrite (Z.div_small (b mod 16)) by (apply Z.mod_pos_bound; lia). Z.to_euclidean_division_equations; lia. Qed.

(** ** Entries *)

Record fat_ok (f : pcfs) (t : list Z) : Prop := FatOk {
  ft_fat : pcfs_fatp f = Some t;
  ft_bytes : Forall byte t;
  ft_count : 0 <= pcfs_ncluster f <= PCF_LASTCLUSTER - PCF_FIRSTCLUSTER;
  ft_size : 3 * (pcfs_ncluster f + 2) <= 2 * Z.of_nat (length t)
}.

(** Entry [cn] of the table [t]. *)
Definition at_byte (t : list Z) (i : Z) : Z := nth (Z.to_nat i) t 0.
Definition entry_of (t : list Z) (cn : Z) : Z :=
  let fp := cn + cn / 2 in if Z.odd cn then at_byte t fp / 16 + at_byte t (fp + 1) * 16 else at_byte t fp + at_byte t (fp + 1) mod 16 * 256.

Lemma at_byte_byte t i : Forall byte t -> byte (at_byte t i).
Proof.
  intros H. unfold at_byte. destruct (nth_in_or_default (Z.to_nat i) t 0) as [Hin| ->]; [|done]. by apply (proj1 (Forall_forall _ _) H), list_elem_of_In.
Qed.
Lemma at_byte_lookup t i : 0 <= i < Z.of_nat (length t) -> t !! Z.to_nat i = Some (at_byte t i).
Proof. intros Hi. unfold at_byte. destruct (lookup_lt_is_Some_2 t (Z.to_nat i) ltac:(lia)) as [x Hx]. rewrite Hx. f_equal. symmetry. by apply nth_lookup_Some. Qed.
Lemma rdz_byte t i : 0 <= i < Z.of_nat (length t) -> rdz t i = Ok (at_byte t i).
Proof. intros Hi. apply rdz_Ok. split; [lia|]. by apply at_byte_lookup. Qed.
Lemma at_byte_insert t i j v : 0 <= i < Z.of_nat (length t) -> 0 <= j -> at_byte (<[Z.to_nat i := v]> t) j = if j =? i then v else at_byte t j.
Proof.
  intros Hi Hj. unfold at_byte. rewrite !nth_lookup. destruct (Z.eqb_spec j i) as [->|Hn]; [by rewrite list_lookup_insert_eq by lia|]. by rewrite list_lookup_insert_ne by lia.
Qed.

Section Fat.
Implicit Types (f : pcfs) (t : list Z).

Lemma valid_range f cn : pc_validcl f cn = true <-> 2 <= cn < pcfs_ncluster f + 2.
Proof. unfold pc_validcl, PCF_FIRSTCLUSTER. rewrite andb_true_iff, Z.leb_le, Z.ltb_lt. done. Qed.

Lemma place_range f t cn : fat_ok f t -> pc_validcl f cn = true -> 0 <= cn + cn / 2 /\ cn + cn / 2 + 1 < Z.of_nat (length t).
Proof. intros [_ _ _ H] Hv%valid_range. pose proof (Z.div_mod cn 2 ltac:(lia)). pose proof (Z.mod_pos_bound cn 2 ltac:(lia)). lia. Qed.

Lemma odd_test cn : negb (Z.land cn 1 =? 0) = Z.odd cn.
Proof. change 1 with (Z.ones 1). rewrite Z.land_ones by lia. change (2 ^ 1) with 2. rewrite Zmod_odd. by destruct (Z.odd cn). Qed.

Lemma pc_getcluster_spec f t cn : fat_ok f t -> pc_validcl f cn = true -> pc_getcluster f cn = Ok (entry_of t cn).
Proof.
  intros H Hv. unfold pc_getcluster. rewrite (ft_fat _ _ H), Hv. pose proof (place_range _ _ _ H Hv). rewrite Z.shiftr_div_pow2 by lia. change (2 ^ 1) with 2. rewrite !rdz_byte by lia. kstep. rewrite odd_test. unfold entry_of.
  pose proof (fun i => at_byte_byte t i (ft_bytes _ _ H)) as Hb. destruct (Z.odd cn); kstep; f_equal.
  - rewrite high_nibble, Z.shiftl_mul_pow2 by done || lia. done.
  - rewrite land_low, Z.shiftl_mul_pow2 by lia. done.
Qed.
Lemma entry_range f t cn : fat_ok f t -> 0 <= entry_of t cn < 4096.
Proof.
  intros H. unfold entry_of. pose proof (fun i => at_byte_byte t i (ft_bytes _ _ H)) as Hb. pose proof (Hb (cn + cn / 2)) as H0. pose proof (Hb (cn + cn / 2 + 1)) as H1. unfold byte in *.
  destruct (Z.odd cn); Z.to_euclidean_division_equations; lia.
Qed.

(** What a change of the table keeps. *)
Definition same_fs f f' : Prop :=
  pcfs_spcl f' = pcfs_spcl f /\ pcfs_rdirsec f' = pcfs_rdirsec f /\ pcfs_rdirstart f' = pcfs_rdirstart f /\ pcfs_datastart f' = pcfs_datastart f /\ pcfs_clsize f' = pcfs_clsize f /\ pcfs_ncluster f' = pcfs_ncluster f.
#[local] Instance same_fs_refl : Reflexive same_fs.
Proof. by repeat split. Qed.
#[local] Instance same_fs_trans : Transitive same_fs.
Proof. intros f1 f2 f3 (A1 & A2 & A3 & A4 & A5 & A6) (B1 & B2 & B3 & B4 & B5 & B6). unfold same_fs. split_and!; congruence. Qed.
Lemma same_validcl f f' cn : same_fs f f' -> pc_validcl f' cn = pc_validcl f cn.
Proof. intros (_ & _ & _ & _ & _ & E). unfold pc_validcl. by rewrite E. Qed.
Lemma same_addr f f' cn : same_fs f f' -> pc_cldaddr f' cn = pc_cldaddr f cn.
Proof. intros (E1 & _ & _ & E2 & _). unfold pc_cldaddr. by rewrite E1, E2. Qed.

Lemma entry_bytes t c : 0 <= c -> c + c / 2 + 1 < Z.of_nat (length t) -> exists k, 0 <= k /\ (Z.odd c = false /\ c = 2 * k /\ c + c / 2 = 3 * k \/ Z.odd c = true /\ c = 2 * k + 1 /\ c + c / 2 = 3 * k + 1).
Proof.
  intros Hc _. exists (c / 2). pose proof (Z.div_mod c 2 ltac:(lia)) as Hd. rewrite Zmod_odd in Hd. split; [Z.to_euclidean_division_equations; lia|]. destruct (Z.odd c); [right|left]; (split; [done|lia]).
Qed.

Lemma pc_setcluster_spec f t cn v : fat_ok f t -> pc_validcl f cn = true -> 0 <= v < 4096 ->
  exists f' t', pc_setcluster f cn v = Ok f' /\ fat_ok f' t' /\ same_fs f f' /\ pcev_log f' = pcev_log f /\ pcfs_flags f' = with_bits (pcfs_flags f) PCFS_FATMOD /\
    forall c, pc_validcl f c = true -> entry_of t' c = if c =? cn then v else entry_of t c.
Proof.
  intros H Hv Hr. unfold pc_setcluster. rewrite (ft_fat _ _ H), Hv. pose proof (place_range _ _ _ H Hv) as Hp. rewrite Z.shiftr_div_pow2 by lia. change (2 ^ 1) with 2. rewrite rdz_byte by lia. kstep. rewrite odd_test.
  pose proof (fun i => at_byte_byte t i (ft_bytes _ _ H)) as Hb. set (fp := cn + cn / 2) in *. set (f1 := set_pflags _ f).
  assert (forall x y, byte x -> byte y -> let t' := <[Z.to_nat (fp + 1) := y]> (<[Z.to_nat fp := x]> t) in fat_ok (set_fat t' f1) t') as Hok.
  { intros x y Hx Hy t'. split; [done| |apply H|cbn; unfold t'; rewrite !length_insert; apply H]. by apply Forall_insert; [apply Forall_insert; [apply H|]|]. }
  assert (forall x y i, 0 <= i -> at_byte (<[Z.to_nat (fp + 1) := y]> (<[Z.to_nat fp := x]> t)) i = if i =? fp + 1 then y else if i =? fp then x else at_byte t i) as Hat.
  { intros x y i Hi. rewrite at_byte_insert by (rewrite ?length_insert; lia). destruct (i =? fp + 1); [done|]. by rewrite at_byte_insert by lia. }
  destruct (entry_bytes t cn) as (k & Hk & Hc); [apply valid_range in Hv; lia|lia|]. fold fp in Hc. pose proof (Hb fp) as B0. pose proof (Hb (fp + 1)) as B1. unfold byte in B0, B1.
  assert (forall c, pc_validcl f c = true -> exists j, 0 <= j /\ (Z.odd c = false /\ c = 2 * j /\ c + c / 2 = 3 * j \/ Z.odd c = true /\ c = 2 * j + 1 /\ c + c / 2 = 3 * j + 1)) as Hall.
  { intros c Hvc. apply (entry_bytes t); [apply valid_range in Hvc; lia|]. pose proof (place_range _ _ _ H Hvc). lia. }
  destruct Hc as [(-> & Ec & Ef)|(-> & Ec & Ef)].
  - rewrite wrz_Ok by lia. kstep. rewrite rdz_byte by (rewrite length_insert; lia). kstep. rewrite at_byte_insert by lia. replace (fp + 1 =? fp) with false by (symmetry; apply Z.eqb_neq; lia).
    rewrite wrz_Ok by (rewrite length_insert; lia). kstep. rewrite land_byte, nibbles_high by (unfold byte; lia). set (x := v mod 256). set (y := _ + v / 256 mod 16).
    exists (set_fat (<[Z.to_nat (fp + 1) := y]> (<[Z.to_nat fp := x]> t)) f1), (<[Z.to_nat (fp + 1) := y]> (<[Z.to_nat fp := x]> t)). split; [done|].
    split; [apply Hok; unfold byte, x, y; Z.to_euclidean_division_equations; lia|]. split; [done|]. split; [done|]. split; [done|].
    intros c Hvc. destruct (Hall c Hvc) as (j & Hj & Hcj). unfold entry_of. rewrite !Hat by lia. pose proof (Hb (c + c / 2)) as C0. unfold byte in C0.
    destruct Hcj as [(-> & Ecj & Efj)|(-> & Ecj & Efj)]; rewrite Efj in *; destruct (Z.eqb_spec c cn) as [E|E]; repeat match goal with |- context [?a =? ?b] => destruct (Z.eqb_spec a b) end; try lia; unfold x, y.
    + by apply even_even.
    + replace (3 * j + 1) with (fp + 1) by lia. by rewrite even_odd.
  - rewrite wrz_Ok by lia. kstep. rewrite wrz_Ok by (rewrite length_insert; lia). kstep. rewrite nibbles_low, land_byte, Z.shiftr_div_pow2 by lia. change (2 ^ 4) with 16. set (x := _ + v mod 16 * 16). set (y := v / 16 mod 256).
    exists (set_fat (<[Z.to_nat (fp + 1) := y]> (<[Z.to_nat fp := x]> t)) f1), (<[Z.to_nat (fp + 1) := y]> (<[Z.to_nat fp := x]> t)). split; [done|].
    split; [apply Hok; unfold byte, x, y; Z.to_euclidean_division_equations; lia|]. split; [done|]. split; [done|]. split; [done|].
    intros c Hvc. destruct (Hall c Hvc) as (j & Hj & Hcj). unfold entry_of. rewrite !Hat by lia. pose proof (Hb (c + c / 2)) as C0. unfold byte in C0.
    destruct Hcj as [(-> & Ecj & Efj)|(-> & Ecj & Efj)]; rewrite Efj in *; destruct (Z.eqb_spec c cn) as [E|E]; repeat match goal with |- context [?a =? ?b] => destruct (Z.eqb_spec a b) end; try lia; unfold x, y.
    + replace (3 * j + 1) with fp by lia. by rewrite odd_even.
    + by apply odd_odd.
Qed.

(** ** Free clusters *)

Definition clusters f : list Z := seqZ PCF_FIRSTCLUSTER (pcfs_ncluster f).
Definition frees f t : list Z := filter (fun c => entry_of t c = PCF_FREECLUSTER) (clusters f).

Lemma elem_of_clusters f c : c ∈ clusters f <-> pc_validcl f c = true.
Proof. unfold clusters. rewrite elem_of_seqZ, valid_range. unfold PCF_FIRSTCLUSTER. lia. Qed.
Lemma elem_of_frees f t c : c ∈ frees f t <-> pc_validcl f c = true /\ entry_of t c = 0.
Proof. unfold frees. rewrite list_elem_of_filter, elem_of_clusters. tauto. Qed.
Lemma NoDup_frees f t : NoDup (frees f t).
Proof. apply NoDup_filter, NoDup_seqZ. Qed.
Lemma filter_ext_in {A} (P Q : A -> Prop) `{!forall x, Decision (P x)} `{!forall x, Decision (Q x)} (l : list A) : (forall x, x ∈ l -> P x <-> Q x) -> filter P l = filter Q l.
Proof.
  induction l as [|x l IH]; intros HPQ; [done|]. assert (filter P l = filter Q l) as E by (apply IH; intros y Hy; apply HPQ; by right). pose proof (HPQ x ltac:(by left)). destruct (decide (P x)).
  - rewrite !filter_cons_True by tauto. by f_equal.
  - rewrite !filter_cons_False by tauto. done.
Qed.
Lemma frees_ext f f' t t' : same_fs f f' -> (forall c, pc_validcl f c = true -> entry_of t' c = 0 <-> entry_of t c = 0) -> frees f' t' = frees f t.
Proof.
  intros Hs He. unfold frees, clusters. destruct Hs as (_ & _ & _ & _ & _ & ->). apply filter_ext_in. intros c Hc. by apply He, elem_of_clusters.
Qed.
Lemma filter_tail {A} (P Q : A -> Prop) `{!forall x, Decision (P x)} `{!forall x, Decision (Q x)} (l : list A) c r :
  NoDup l -> filter P l = c :: r -> (forall x, x ∈ l -> Q x <-> P x /\ x <> c) -> filter Q l = r.
Proof.
  induction l as [|x l IH]; [done|]. intros [Hx Hn]%NoDup_cons E HQ. destruct (decide (P x)) as [Hp|Hp].
  - rewrite filter_cons_True in E by done. injection E as -> E. rewrite filter_cons_False by (rewrite HQ by (by left); tauto). rewrite <- E. apply filter_ext_in. intros y Hy.
    rewrite HQ by (by right). split; [tauto|]. intros ?. split; [done|]. by intros ->.
  - rewrite filter_cons_False in E by done. rewrite filter_cons_False by (rewrite HQ by (by left); tauto). apply IH; [done..|]. intros y Hy. apply HQ. by right.
Qed.

Lemma alloc_scan_spec f t n : fat_ok f t -> forall cn, 2 <= cn -> cn + Z.of_nat n = pcfs_ncluster f + 2 ->
  match filter (fun c => entry_of t c = PCF_FREECLUSTER) (seqZ cn (Z.of_nat n)) with
  | [] => alloc_scan n cn f = Ok (PCF_FREECLUSTER, f)
  | c :: _ => alloc_scan n cn f = (f' ← pc_setcluster f c PCF_LASTCLUSTER; mret (c, plog (Cleared (pc_cldaddr f' c) (pcfs_clsize f')) f'))
  end.
Proof.
  intros H. induction n as [|n IH]; intros cn Hc Hn; [done|]. cbn [alloc_scan]. rewrite seqZ_cons by lia. assert (pc_validcl f cn = true) as Hv by (apply valid_range; lia). rewrite (pc_getcluster_spec _ _ _ H Hv). kstep.
  destruct (Z.eqb_spec (entry_of t cn) PCF_FREECLUSTER) as [E|E]; [by rewrite filter_cons_True|]. rewrite filter_cons_False by done. replace (Z.pred (Z.of_nat (S n))) with (Z.of_nat n) by lia. apply IH; lia.
Qed.

(** What allocation leaves alone: all but the entries of [cs]. *)
Definition kept f t t' (cs : list Z) : Prop := forall c, pc_validcl f c = true -> c ∉ cs -> entry_of t' c = entry_of t c.

(** pc_alloccluster() takes the first free cluster, marks it as the last of its file, and clears it. *)
Lemma pc_alloccluster_spec f t : fat_ok f t ->
  match frees f t with
  | [] => pc_alloccluster f = Ok (0, f)
  | c :: r => exists f' t', pc_alloccluster f = Ok (c, f') /\ fat_ok f' t' /\ same_fs f f' /\ entry_of t' c = PCF_LASTCLUSTER /\ kept f t t' [c] /\ frees f' t' = r /\
      pcev_log f' = pcev_log f ++ [Cleared (pc_cldaddr f c) (pcfs_clsize f)]
  end.
Proof.
  intros H. unfold pc_alloccluster. rewrite (ft_fat _ _ H). pose proof (ft_count _ _ H) as Hc. pose proof (alloc_scan_spec f t (Z.to_nat (pcfs_ncluster f)) H PCF_FIRSTCLUSTER ltac:(done)) as Ha.
  rewrite Z2Nat.id in Ha by lia. specialize (Ha ltac:(unfold PCF_FIRSTCLUSTER; lia)). fold (clusters f) in Ha. change (filter _ (clusters f)) with (frees f t) in Ha.
  destruct (frees f t) as [|c r] eqn:E; [done|]. assert (c ∈ frees f t) as [Hv He]%elem_of_frees by (rewrite E; by left).
  destruct (pc_setcluster_spec f t c PCF_LASTCLUSTER H Hv ltac:(done)) as (f' & t' & Hs & Hok & Hsame & Hlog & _ & Hen). rewrite Ha, Hs. kstep.
  exists (plog (Cleared (pc_cldaddr f' c) (pcfs_clsize f')) f'), t'. split; [done|]. split; [destruct Hok; by split|]. split; [done|]. split; [by rewrite Hen, Z.eqb_refl|].
  assert (kept f t t' [c]) as Hk by (intros c' Hv' Hn; rewrite Hen by done; rewrite (proj2 (Z.eqb_neq c' c)); [done|]; by intros ->; apply Hn; left).
  split; [done|]. split.
  - unfold frees. unfold clusters. cbn [pcfs_ncluster plog]. pose proof Hsame as (_ & _ & _ & _ & _ & ->). fold (clusters f). eapply filter_tail; [apply NoDup_seqZ|exact E|]. intros x Hx%elem_of_clusters.
    rewrite Hen by done. destruct (Z.eqb_spec x c) as [->|Hn]; [|tauto]. split; [intros ?; done|tauto].
  - cbn. rewrite Hlog. rewrite (same_addr _ _ _ Hsame). by destruct Hsame as (_ & _ & _ & _ & -> & _).
Qed.

(** ** Chains *)

Inductive chain f t : Z -> list Z -> Prop :=
| chain_last c : pc_validcl f c = true -> PCF_LASTCLUSTER <= entry_of t c -> chain f t c [c]
| chain_next c cs : pc_validcl f c = true -> chain f t (entry_of t c) cs -> chain f t c (c :: cs).

Lemma chain_valid f t c cs : chain f t c cs -> Forall (fun c => pc_validcl f c = true) cs.
Proof. by induction 1; repeat constructor. Qed.
Lemma fat_chain_in f t c cs x : chain f t c cs -> x ∈ cs -> pc_validcl f x = true.
Proof. intros Hc Hx. by apply (proj1 (Forall_forall _ _) (chain_valid _ _ _ _ Hc)). Qed.
Lemma chain_head f t c cs : chain f t c cs -> exists r, cs = c :: r.
Proof. destruct 1; eauto. Qed.
Lemma chain_small f t c cs : fat_ok f t -> chain f t c cs -> 2 <= c < PCF_LASTCLUSTER.
Proof. intros H Hc. assert (pc_validcl f c = true) as Hv%valid_range by (by destruct Hc). pose proof (ft_count _ _ H). unfold PCF_FIRSTCLUSTER in *. lia. Qed.
Lemma chain_used f t c cs x : fat_ok f t -> chain f t c cs -> x ∈ cs -> entry_of t x <> 0.
Proof.
  intros H. induction 1 as [c Hv Hl|c cs Hv Hc IH]; intros Hx; [apply list_elem_of_singleton in Hx as ->; unfold PCF_LASTCLUSTER in Hl; lia|].
  apply elem_of_cons in Hx as [->|Hx]; [|by apply IH]. pose proof (chain_small _ _ _ _ H Hc). lia.
Qed.
Lemma chain_det f t c cs : fat_ok f t -> chain f t c cs -> forall cs', chain f t c cs' -> cs = cs'.
Proof.
  intros H. induction 1 as [c Hv Hl|c cs Hv Hc IH]; intros cs' H'; inversion H'; subst; try done.
  - exfalso. pose proof (chain_small _ _ _ _ H H1). lia.
  - exfalso. pose proof (chain_small _ _ _ _ H Hc). lia.
  - f_equal. by apply IH.
Qed.
Lemma chain_suffix f t c cs x : chain f t c cs -> x ∈ cs -> exists l r, cs = l ++ r /\ chain f t x r.
Proof.
  induction 1 as [c Hv Hl|c cs Hv Hc IH]; intros Hx.
  - apply list_elem_of_singleton in Hx as ->. exists [], [c]. split; [done|by constructor].
  - apply elem_of_cons in Hx as [->|Hx]; [exists [], (c :: cs); split; [done|by constructor]|]. destruct (IH Hx) as (l & r & -> & ?). by exists (c :: l), r.
Qed.
Lemma chain_fresh f t c cs : fat_ok f t -> pc_validcl f c = true -> chain f t (entry_of t c) cs -> c ∉ cs.
Proof.
  intros H Hv Hc Hin. destruct (chain_suffix _ _ _ _ _ Hc Hin) as (l & r & -> & Hr). assert (r = c :: l ++ r) as E by (apply (chain_det f t c r H Hr); by constructor).
  apply (f_equal length) in E. cbn in E. rewrite length_app in E. lia.
Qed.
Lemma chain_NoDup f t c cs : fat_ok f t -> chain f t c cs -> NoDup cs.
Proof. intros H. induction 1 as [c Hv Hl|c cs Hv Hc IH]; [apply NoDup_singleton|]. apply NoDup_cons. split; [|done]. by apply (chain_fresh f t). Qed.

(** A chain stays where its entries do. *)
Lemma chain_kept f f' t t' c cs : same_fs f f' -> (forall x, x ∈ cs -> entry_of t' x = entry_of t x) -> chain f t c cs -> chain f' t' c cs.
Proof.
  intros Hs Hk Hc. induction Hc as [c Hv Hl|c cs Hv Hc IH].
  - constructor; [by rewrite (same_validcl _ _ _ Hs)|]. rewrite Hk by (by left). done.
  - constructor; [by rewrite (same_validcl _ _ _ Hs)|]. rewrite Hk by (by left). apply IH. intros x Hx. apply Hk. by right.
Qed.

(** ** pc_balloc() *)

(** The last of [cs] and the clusters [new] are all that changed. *)
Record extended f t f' t' (c : Z) (cs new : list Z) : Prop := Extended {
  ex_ok : fat_ok f' t';
  ex_same : same_fs f f';
  ex_chain : chain f' t' c (cs ++ new);
  ex_kept : forall x, pc_validcl f x = true -> last cs <> Some x -> x ∉ new -> entry_of t' x = entry_of t x;
  ex_frees : frees f' t' = drop (length new) (frees f t);
  ex_log : pcev_log f' = pcev_log f ++ map (fun c => Cleared (pc_cldaddr f c) (pcfs_clsize f)) new
}.

Lemma balloc_loop_spec n : forall cn f t cs, fat_ok f t -> chain f t cn cs ->
  let new := take (S n - length cs) (frees f t) in
  exists r f' t', balloc_loop n cn f = Ok (r, f') /\ extended f t f' t' cn cs new /\
    r = match (cs ++ new) !! n with Some x => inr x | None => inl ENOSPC end.
Proof.
  induction n as [|n IH]; intros cn f t cs H Hc; cbn [balloc_loop].
  - destruct (chain_head _ _ _ _ Hc) as [r ->]. cbn [length]. replace (1 - S (length r))%nat with O by lia. cbn [firstn]. exists (inr cn), f, t. split; [done|]. split; [|done]. rewrite take_0 || idtac.
    split; try done; [by rewrite app_nil_r|cbn; by rewrite app_nil_r].
  - assert (pc_validcl f cn = true) as Hv by (by destruct Hc). rewrite (pc_getcluster_spec _ _ _ H Hv). kstep. inversion Hc as [c Hv' Hl|c cs' Hv' Hc']; subst.
    + rewrite (proj2 (Z.leb_le _ _)) by done. pose proof (pc_alloccluster_spec f t H) as Ha. destruct (frees f t) as [|c r] eqn:E.
      * rewrite Ha. kstep. exists (inl ENOSPC), f, t. split; [done|]. cbn [take length Nat.sub]. rewrite ?firstn_nil. split; [|done]. split; try done. cbn. by rewrite app_nil_r.
      * destruct Ha as (f1 & t1 & -> & H1 & S1 & E1 & K1 & F1 & L1). kstep. assert (c ∈ frees f t) as [Hvc Hec]%elem_of_frees by (rewrite E; by left). assert (c <> cn) as Hne by (intros ->; unfold PCF_LASTCLUSTER in Hl; lia).
        pose proof (proj1 (valid_range _ _) Hvc) as Hcr. rewrite (proj2 (Z.eqb_neq c PCF_FREECLUSTER)) by (unfold PCF_FREECLUSTER; lia).
        pose proof (entry_range f t c H) as _. pose proof (ft_count _ _ H) as Hcnt. unfold PCF_LASTCLUSTER, PCF_FIRSTCLUSTER in Hcnt.
        destruct (pc_setcluster_spec f1 t1 cn c H1 ltac:(by rewrite (same_validcl _ _ _ S1)) ltac:(lia)) as (f2 & t2 & -> & H2 & S2 & L2 & _ & E2). kstep.
        assert (same_fs f f2) as S12 by (by etransitivity). assert (forall x, pc_validcl f x = true -> entry_of t2 x = if x =? cn then c else if x =? c then PCF_LASTCLUSTER else entry_of t x) as E12.
        { intros x Hx. rewrite E2 by (by rewrite (same_validcl _ _ _ S1)). destruct (x =? cn); [done|]. destruct (Z.eqb_spec x c) as [->|Hn]; [done|]. apply K1; [done|]. by intros ->%list_elem_of_singleton. }
        assert (chain f2 t2 c [c]) as Hc2. { constructor; [by rewrite (same_validcl _ _ _ S12)|]. rewrite E12, Z.eqb_refl, (proj2 (Z.eqb_neq c cn)) by done. done. }
        assert (frees f2 t2 = r) as F2. { rewrite <- F1. apply frees_ext; [done|]. intros x Hx. rewrite E2 by done. destruct (Z.eqb_spec x cn) as [->|?]; [|done]. rewrite (K1 cn Hv') by (intros ?%list_elem_of_singleton; congruence). unfold PCF_LASTCLUSTER in Hl. lia. }
        destruct (IH c f2 t2 [c] H2 Hc2) as (rr & f' & t' & -> & [X1 X2 X3 X4 X5 X6] & Hr). cbn [length] in *. rewrite F2 in *. replace (S n - 1)%nat with n in * by lia. replace (S (S n) - 1)%nat with (S n) by lia. cbn [firstn].
        set (new := take n r) in *. assert (NoDup (c :: r)) as [Hcr' Hndr]%NoDup_cons by (rewrite <- E; apply NoDup_frees).
        assert (forall x, x ∈ new -> x ∈ r) as Hsub by (intros x Hx; by apply elem_of_take in Hx as (i & ? & _); eapply list_elem_of_lookup_2).
        exists rr, f', t'. split; [done|]. split; [|by rewrite Hr]. split; try done.
        -- by etransitivity.
        -- cbn. constructor; [by rewrite (same_validcl _ _ _ (same_fs_trans _ _ _ S12 X2))|]. rewrite X4.
           ++ rewrite E12, Z.eqb_refl by done. exact X3.
           ++ by rewrite (same_validcl _ _ _ S12).
           ++ cbn. congruence.
           ++ intros Hin%Hsub. assert (cn ∈ frees f t) as [_ ?]%elem_of_frees by (rewrite E; by right). unfold PCF_LASTCLUSTER in Hl. lia.
        -- intros x Hx Hl' Hn. apply not_elem_of_cons in Hn as [Hn1 Hn2]. rewrite X4; [|by rewrite (same_validcl _ _ _ S12)|cbn; congruence|done]. rewrite E12 by done. cbn in Hl'. rewrite (proj2 (Z.eqb_neq x cn)), (proj2 (Z.eqb_neq x c)) by congruence. done.
        -- rewrite X5, E. cbn. done.
        -- rewrite X6, L2, L1. cbn. rewrite <- app_assoc. cbn. do 2 f_equal. apply map_ext. intros x. rewrite (same_addr _ _ _ S12). by destruct S12 as (_ & _ & _ & _ & -> & _).
    + pose proof (chain_small _ _ _ _ H Hc') as Hs. rewrite (proj2 (Z.leb_gt _ _)) by lia. assert (pc_validcl f (entry_of t cn) = true) as -> by (by destruct Hc'). kstep.
      destruct (IH (entry_of t cn) f t cs' H Hc') as (rr & f' & t' & -> & [X1 X2 X3 X4 X5 X6] & Hr). cbn [length Nat.sub]. exists rr, f', t'. split; [done|]. split; [|done].
      destruct (chain_head _ _ _ _ Hc') as [r' Er]. split; try done.
      * cbn. constructor; [by rewrite (same_validcl _ _ _ X2)|]. rewrite X4; [done|done|intros Hla; apply (chain_fresh f t cn cs' H Hv' Hc'); by apply last_Some_elem_of|].
        intros Hin. apply elem_of_take in Hin as (i & Hi & _). apply list_elem_of_lookup_2, elem_of_frees in Hi as [_ Hi]. lia.
      * intros x Hx Hla. apply X4; [done|]. rewrite Er in *. cbn in Hla. done.
Qed.

(** A regular file: the chain of its clusters, none when its size is zero. *)
Definition file_at f t (p : pcnode) (cs : list Z) : Prop :=
  pc_root p = false /\ pc_type p = VREG /\ if pc_size p =? 0 then cs = [] else chain f t (pc_scluster p) cs.

(** The clusters [new] are the first free ones; they follow those of the file. *)
Lemma pc_balloc_spec f t p cs lcn : fat_ok f t -> file_at f t p cs -> 0 <= lcn < pcfs_ncluster f ->
  let new := take (S (Z.to_nat lcn) - length cs) (frees f t) in
  exists e d p' f' t', pc_balloc p lcn f = Ok (e, d, p', f') /\ fat_ok f' t' /\ same_fs f f' /\ (cs ++ new <> [] -> chain f' t' (pc_scluster p') (cs ++ new)) /\
    p' = set_scluster (pc_scluster p') p /\ (forall x, pc_validcl f x = true -> last cs <> Some x -> x ∉ new -> entry_of t' x = entry_of t x) /\ frees f' t' = drop (length new) (frees f t) /\
    pcev_log f' = pcev_log f ++ map (fun c => Cleared (pc_cldaddr f c) (pcfs_clsize f)) new /\
    match (cs ++ new) !! Z.to_nat lcn with Some c => e = 0 /\ d = Some (pc_cldaddr f c) | None => e = ENOSPC /\ d = None end.
Proof.
  intros H (Hr & Ht & Hf) Hl new. unfold pc_balloc. rewrite (proj2 (Z.ltb_ge lcn 0)), Hr, (proj2 (Z.leb_gt (pcfs_ncluster f) lcn)), Ht by lia. assert (forall q, q = set_scluster (pc_scluster q) q) as Eq by (by intros []).
  destruct (Z.eqb_spec (pc_size p) 0) as [E0|E0].
  - subst cs. cbn [length app] in *. pose proof (pc_alloccluster_spec f t H) as Ha. destruct (frees f t) as [|c r] eqn:E.
    + rewrite Ha. kstep. exists ENOSPC, None, p, f, t. subst new. cbn [firstn]. rewrite ?firstn_nil. split_and!; try done. cbn. by rewrite app_nil_r.
    + destruct Ha as (f1 & t1 & -> & H1 & S1 & E1 & K1 & F1 & L1). kstep. assert (c ∈ frees f t) as [Hvc _]%elem_of_frees by (rewrite E; by left). pose proof (proj1 (valid_range _ _) Hvc) as Hcr.
      rewrite (proj2 (Z.eqb_neq c PCF_FREECLUSTER)) by (unfold PCF_FREECLUSTER; lia). kstep.
      assert (chain f1 t1 c [c]) as Hc1 by (constructor; [by rewrite (same_validcl _ _ _ S1)|by rewrite E1]).
      destruct (balloc_loop_spec (Z.to_nat lcn) c f1 t1 [c] H1 Hc1) as (rr & f' & t' & -> & [X1 X2 X3 X4 X5 X6] & Hrr). kstep. cbn [length] in *. rewrite F1 in *. replace (S (Z.to_nat lcn) - 1)%nat with (Z.to_nat lcn) in * by lia.
      subst new. rewrite Nat.sub_0_r. cbn [firstn]. set (new := take (Z.to_nat lcn) r) in *. change ([c] ++ new) with (c :: new) in *.
      destruct ((c :: new) !! Z.to_nat lcn) as [x|] eqn:Ex; subst rr; [exists 0, (Some (pc_cldaddr f' x))|exists ENOSPC, None]; exists (set_scluster c p), f', t'.
      all: split; [done|]; split; [done|]; split; [by etransitivity|]; split; [done|]; split; [done|]; split; [|split; [by rewrite X5|split]].
      all: try (intros y Hy _ Hn; apply not_elem_of_cons in Hn as [Hn1 Hn2]; rewrite X4; [apply K1; [done|]; by intros ?%list_elem_of_singleton|by rewrite (same_validcl _ _ _ S1)|cbn; congruence|done]).
      all: try (rewrite X6, L1; cbn; rewrite <- app_assoc; cbn; do 2 f_equal; apply map_ext; intros y; rewrite (same_addr _ _ _ S1); by destruct S1 as (_ & _ & _ & _ & -> & _)).
      all: try done. split; [done|]. f_equal. by rewrite (same_addr _ _ _ X2), (same_addr _ _ _ S1).
  - assert (pc_validcl f (pc_scluster p) = true) as -> by (by destruct Hf). cbn [negb]. kstep. destruct (balloc_loop_spec (Z.to_nat lcn) (pc_scluster p) f t cs H Hf) as (rr & f' & t' & -> & [X1 X2 X3 X4 X5 X6] & Hrr). kstep. fold new in X3, X4, X5, X6, Hrr.
    destruct ((cs ++ new) !! Z.to_nat lcn) as [x|] eqn:Ex; subst rr; [exists 0, (Some (pc_cldaddr f' x))|exists ENOSPC, None]; exists p, f', t'; split_and!; try done. f_equal. by rewrite (same_addr _ _ _ X2).
Qed.

(** ** pc_bmap() *)

Lemma bmap_loop_spec f t p n : fat_ok f t -> forall cn cs x, chain f t cn cs -> cs !! n = Some x -> bmap_loop n p cn f = Ok (inr (x, entry_of t x)).
Proof.
  intros H. induction n as [|n IH]; intros cn cs x Hc Hx; cbn [bmap_loop]; assert (pc_validcl f cn = true) as Hv by (by destruct Hc); rewrite Hv; cbn [negb]; rewrite (pc_getcluster_spec _ _ _ H Hv); kstep.
  - destruct (chain_head _ _ _ _ Hc) as [r ->]. cbn in Hx. by injection Hx as ->.
  - inversion Hc as [c Hv' Hl|c cs' Hv' Hc']; subst; [done|]. by apply (IH _ cs').
Qed.

Lemma chain_after f t c cs i x : fat_ok f t -> chain f t c cs -> cs !! i = Some x -> match cs !! S i with Some y => entry_of t x = y | None => PCF_LASTCLUSTER <= entry_of t x end.
Proof.
  intros H Hc. revert i. induction Hc as [c Hv Hl|c cs Hv Hc IH]; intros i Hx.
  - destruct i; [|done]. by injection Hx as <-.
  - destruct i as [|i]; [|by apply IH]. injection Hx as <-. destruct (chain_head _ _ _ _ Hc) as [r ->]. done.
Qed.

Lemma fat_chain_length f t c cs : fat_ok f t -> chain f t c cs -> Z.of_nat (length cs) <= pcfs_ncluster f.
Proof.
  intros H Hc. pose proof (ft_count _ _ H). assert (length cs <= length (clusters f))%nat as Hl.
  { apply submseteq_length, NoDup_submseteq; [by eapply chain_NoDup|]. intros x Hx. apply elem_of_clusters. by eapply fat_chain_in. }
  unfold clusters in Hl. rewrite length_seqZ in Hl. lia.
Qed.

Lemma pc_bmap_spec f t p cs lcn ra x : fat_ok f t -> pc_root p = false -> pc_type p = VREG -> pc_size p <> 0 -> chain f t (pc_scluster p) cs -> 0 <= lcn < howmany (pc_size p) (pcfs_clsize f) -> cs !! Z.to_nat lcn = Some x ->
  pc_bmap p lcn ra f = Ok (0, Some (pc_cldaddr f x), if ra then Some (match cs !! S (Z.to_nat lcn) with Some y => pc_cldaddr f y | None => 0 end) else None, f).
Proof.
  intros H Hr Ht Hs Hc Hl Hx. unfold pc_bmap. pose proof (fat_chain_length _ _ _ _ H Hc). pose proof (lookup_lt_Some _ _ _ Hx).
  rewrite (proj2 (Z.ltb_ge lcn 0)), Hr, (proj2 (Z.leb_gt _ _)), Ht, (proj2 (Z.eqb_neq _ _)), (proj2 (Z.leb_gt _ _)) by lia. cbn [orb]. rewrite (bmap_loop_spec f t p _ H _ _ _ Hc Hx). kstep.
  destruct ra; [|done]. pose proof (chain_after _ _ _ _ _ _ H Hc Hx) as Ha. destruct (cs !! S (Z.to_nat lcn)) as [y|] eqn:Ey; [|by rewrite (proj2 (Z.leb_le _ _))].
  rewrite Ha. assert (y ∈ cs) as Hin by (by eapply list_elem_of_lookup_2). assert (pc_validcl f y = true) as Hv by (by eapply fat_chain_in).
  destruct (chain_suffix _ _ _ _ _ Hc Hin) as (_ & r & _ & Hc'). pose proof (chain_small _ _ _ _ H Hc'). rewrite (proj2 (Z.leb_gt _ _)) by lia. by rewrite Hv.
Qed.

(** C15: pc_balloc() for block [lcn] of a regular file takes exactly the clusters the file lacks, the first free ones in order, clears them and nothing else, and fails with
    ENOSPC only when the free clusters do not suffice; the address it returns is where pc_bmap() then finds the block, for any size that
    includes it; the blocks the file had stay where they were, and so does every other file, whose clusters are others. *)
Theorem pc_balloc_maps f t p cs lcn : fat_ok f t -> file_at f t p cs -> 0 <= lcn < pcfs_ncluster f ->
  let new := take (S (Z.to_nat lcn) - length cs) (frees f t) in
  exists e d p' f' t', pc_balloc p lcn f = Ok (e, d, p', f') /\ fat_ok f' t' /\
    pcev_log f' = pcev_log f ++ map (fun c => Cleared (pc_cldaddr f c) (pcfs_clsize f)) new /\ frees f' t' = drop (length new) (frees f t) /\
    (e = 0 /\ (Z.to_nat lcn < length cs + length (frees f t))%nat \/ e = ENOSPC /\ d = None /\ (length cs + length (frees f t) <= Z.to_nat lcn)%nat) /\
    (forall size ra, size <> 0 -> e = 0 -> lcn < howmany size (pcfs_clsize f) -> exists ran, pc_bmap (set_psize size p') lcn ra f' = Ok (0, d, ran, f')) /\
    (forall size k x, size <> 0 -> 0 <= k < howmany size (pcfs_clsize f) -> cs !! Z.to_nat k = Some x -> exists ran, pc_bmap (set_psize size p') k false f' = Ok (0, Some (pc_cldaddr f x), ran, f')) /\
    (forall c ds, chain f t c ds -> (forall x, x ∈ ds -> x ∉ cs) -> chain f' t' c ds).
Proof.
  intros H Hf Hl new. destruct (pc_balloc_spec f t p cs lcn H Hf Hl) as (e & d & p' & f' & t' & Hb & H' & Hs & Hc & Hp & Hk & Hfr & Hlog & He). fold new in Hc, Hk, Hfr, Hlog, He.
  exists e, d, p', f', t'. split; [done|]. split; [done|]. split; [done|]. split; [done|]. destruct Hf as (Hr & Ht & _). pose proof Hs as (_ & _ & _ & _ & Ecl & _).
  assert (length new = ((S (Z.to_nat lcn) - length cs) `min` length (frees f t))%nat) as Ln by (unfold new; by rewrite length_take).
  assert (forall size k x ra, size <> 0 -> 0 <= k < howmany size (pcfs_clsize f) -> (cs ++ new) !! Z.to_nat k = Some x -> exists ran, pc_bmap (set_psize size p') k ra f' = Ok (0, Some (pc_cldaddr f x), ran, f')) as Hmap.
  { intros size k x ra Hsz Hk' Hx. eexists. rewrite <- (same_addr _ _ x Hs). apply (pc_bmap_spec f' t' _ (cs ++ new)); try done; [rewrite Hp; done..| |by rewrite Ecl]. apply Hc. intros E. by rewrite E in Hx. }
  split; [|split; [|split]].
  - destruct ((cs ++ new) !! Z.to_nat lcn) as [x|] eqn:Ex; [left|right]; destruct He as [-> He].
    + split; [done|]. apply lookup_lt_Some in Ex. rewrite length_app in Ex. lia.
    + split; [done|]. split; [done|]. apply lookup_ge_None_1 in Ex. rewrite length_app in Ex. lia.
  - intros size ra Hsz -> Hlt. destruct ((cs ++ new) !! Z.to_nat lcn) as [x|] eqn:Ex; [|by destruct He]. destruct He as [_ ->]. apply (Hmap size lcn x); [done|lia|done].
  - intros size k x Hsz Hk' Hx. apply (Hmap size k x); [done..|]. by apply lookup_app_l_Some.
  - intros c ds Hd Hdis. apply (chain_kept f f' t t'); [done| |done]. intros x Hx. apply Hk.
    + by eapply fat_chain_in.
    + intros E. apply (Hdis x Hx). by apply last_Some_elem_of.
    + intros Hn. apply elem_of_take in Hn as (i & Hi & _). apply list_elem_of_lookup_2, elem_of_frees in Hi as [_ Hi]. by apply (chain_used _ _ _ _ _ H Hd Hx).
Qed.

(** ** pc_bfree() *)

Lemma bfree_loop_spec n : forall p cn skip f t cs, fat_ok f t -> pc_type p = VREG -> chain f t cn cs -> (n <= length cs)%nat -> 0 <= skip ->
  exists f' t', bfree_loop n p cn skip f = Ok (0, f') /\ fat_ok f' t' /\ same_fs f f' /\ pcev_log f' = pcev_log f /\
    forall x, pc_validcl f x = true -> entry_of t' x = if decide (x ∈ drop (Z.to_nat skip) (take n cs)) then 0 else entry_of t x.
Proof.
  induction n as [|n IH]; intros p cn skip f t cs H Ht Hc Hn Hs; cbn [bfree_loop].
  - exists f, t. split_and!; try done. intros x _. rewrite decide_False; [done|]. cbn [firstn]. rewrite ?take_0, ?drop_nil. apply not_elem_of_nil.
  - assert (pc_validcl f cn = true) as Hv by (by destruct Hc). rewrite Hv. cbn [negb]. rewrite (pc_getcluster_spec _ _ _ H Hv). kstep.
    destruct (chain_head _ _ _ _ Hc) as [cs' ->]. cbn [length] in Hn. rewrite firstn_cons.
    assert (exists f1 t1, (if skip =? 0 then pc_setcluster f cn PCF_FREECLUSTER else mret f) = Ok f1 /\ fat_ok f1 t1 /\ same_fs f f1 /\ pcev_log f1 = pcev_log f /\
      forall x, pc_validcl f x = true -> entry_of t1 x = if decide (skip = 0 /\ x = cn) then 0 else entry_of t x) as (f1 & t1 & -> & H1 & S1 & L1 & E1).
    { destruct (Z.eqb_spec skip 0) as [->|Hne].
      - destruct (pc_setcluster_spec f t cn PCF_FREECLUSTER H Hv ltac:(done)) as (f1 & t1 & Hset & H1 & S1 & L1 & _ & E1). exists f1, t1. split_and!; try done. intros x Hx. rewrite E1 by done. destruct (Z.eqb_spec x cn); [by rewrite decide_True|by rewrite decide_False by tauto].
      - exists f, t. split_and!; try done. intros x Hx. by rewrite decide_False by tauto. }
    kstep. rewrite Ht, andb_false_r. set (skip' := if skip =? 0 then 0 else skip - 1).
    assert (exists f' t', bfree_loop n p (entry_of t cn) skip' f1 = Ok (0, f') /\ fat_ok f' t' /\ same_fs f1 f' /\ pcev_log f' = pcev_log f1 /\
      forall x, pc_validcl f1 x = true -> entry_of t' x = if decide (x ∈ drop (Z.to_nat skip') (take n cs')) then 0 else entry_of t1 x) as (f' & t' & -> & H' & S' & L' & E').
    { inversion Hc as [c Hv' Hl|c cs2 Hv' Hc']; subst.
      - cbn in Hn. replace n with O by lia. exists f1, t1. split_and!; try done. intros x _. rewrite decide_False; [done|]. cbn [firstn]. rewrite drop_nil. apply not_elem_of_nil.
      - apply IH; try done; [|lia|unfold skip'; destruct (Z.eqb_spec skip 0); lia]. apply (chain_kept f f1 t t1); [done| |done]. intros x Hx. assert (pc_validcl f x = true) as Hvx by (by eapply fat_chain_in).
        rewrite E1 by done. rewrite decide_False; [done|]. intros [_ ->]. by apply (chain_fresh f t cn cs' H Hv' Hc'). }
    exists f', t'. split; [done|]. split; [done|]. split; [by etransitivity|]. split; [congruence|]. intros x Hx. rewrite E' by (by rewrite (same_validcl _ _ _ S1)). rewrite E1 by done.
    unfold skip'. destruct (Z.eqb_spec skip 0) as [->|Hne].
    + change (Z.to_nat 0) with O. rewrite !drop_0. destruct (decide (x ∈ take n cs')) as [Hi|Hi]; [by rewrite decide_True by (by right)|]. destruct (decide (x = cn)) as [->|]; [rewrite !decide_True; [done|by left|done]|].
      rewrite !decide_False; [done|by intros [?|?]%elem_of_cons|tauto].
    + replace (Z.to_nat skip) with (S (Z.to_nat (skip - 1))) by lia. rewrite skipn_cons. destruct (decide (x ∈ drop _ _)); [done|]. by rewrite decide_False by tauto.
Qed.

Lemma free_count_spec f t n : fat_ok f t -> forall cn, 2 <= cn -> cn + Z.of_nat n <= pcfs_ncluster f + 2 -> free_count n cn f = Ok (Z.of_nat (length (filter (fun c => entry_of t c = PCF_FREECLUSTER) (seqZ cn (Z.of_nat n))))).
Proof.
  intros H. induction n as [|n IH]; intros cn Hc Hn; cbn [free_count]; [done|]. rewrite (pc_getcluster_spec _ _ _ H) by (apply valid_range; lia). kstep. rewrite IH by lia. kstep.
  rewrite (seqZ_cons cn (Z.of_nat (S n))) by lia. replace (Z.pred (Z.of_nat (S n))) with (Z.of_nat n) by lia. replace (cn + 1) with (Z.succ cn) by lia. destruct (Z.eqb_spec (entry_of t cn) PCF_FREECLUSTER).
  - rewrite filter_cons_True by done. cbn [length]. f_equal. lia.
  - by rewrite filter_cons_False.
Qed.
Lemma pc_freeclusters_spec f t : fat_ok f t -> pc_freeclusters f = Ok (Z.of_nat (length (frees f t))).
Proof.
  intros H. unfold pc_freeclusters. pose proof (ft_count _ _ H). rewrite (free_count_spec f t _ H) by (unfold PCF_FIRSTCLUSTER; lia). by rewrite Z2Nat.id by lia.
Qed.

(** The clusters [gone] are free now. *)
Lemma frees_gone f f' t t' gone : same_fs f f' -> NoDup gone -> (forall x, x ∈ gone -> pc_validcl f x = true /\ entry_of t x <> 0) -> (forall x, pc_validcl f x = true -> entry_of t' x = if decide (x ∈ gone) then 0 else entry_of t x) ->
  length (frees f' t') = (length (frees f t) + length gone)%nat.
Proof.
  intros Hs Hn Hg He. rewrite Nat.add_comm, <- length_app. apply Permutation_length, NoDup_Permutation; [apply NoDup_frees| |].
  - apply NoDup_app. split; [done|]. split; [|apply NoDup_frees]. intros x Hx [_ ?]%elem_of_frees. by apply (Hg x Hx).
  - intros x. rewrite elem_of_app, !elem_of_frees, (same_validcl _ _ _ Hs). split.
    + intros [Hv E]. rewrite He in E by done. destruct (decide (x ∈ gone)); [by left|by right].
    + intros [Hx|[Hv E]]; [destruct (Hg x Hx) as [Hv _]; split; [done|]; rewrite He by done; by rewrite decide_True|]. split; [done|]. rewrite He by done. by destruct (decide _).
Qed.

Lemma slice_NoDup (n k : nat) (cs : list Z) : NoDup cs -> NoDup (drop k (take n cs)).
Proof. intros H. rewrite <- (take_drop n cs) in H. apply NoDup_app in H as (H & _). rewrite <- (take_drop k (take n cs)) in H. by apply NoDup_app in H as (_ & _ & H). Qed.
Lemma slice_in (n k : nat) (cs : list Z) x : x ∈ drop k (take n cs) -> x ∈ cs.
Proof. intros H. rewrite <- (take_drop n cs), elem_of_app. left. rewrite <- (take_drop k (take n cs)), elem_of_app. by right. Qed.

(** C27: pc_bfree() of a regular file frees exactly its clusters from number [skipcl] up to the last that its size includes; every other entry of the
    table stays as it was, so that every other file keeps its clusters, and pc_freeclusters() counts those that were freed. *)
Theorem pc_bfree_frees f t p cs skipcl : fat_ok f t -> pc_root p = false -> pc_type p = VREG -> 0 < pc_size p -> chain f t (pc_scluster p) cs -> 0 < howmany (pc_size p) (pcfs_clsize f) <= Z.of_nat (length cs) -> 0 <= skipcl ->
  let gone := drop (Z.to_nat skipcl) (take (Z.to_nat (howmany (pc_size p) (pcfs_clsize f))) cs) in
  exists p' f' t', pc_bfree p skipcl f = Ok (0, p', f') /\ fat_ok f' t' /\ (forall x, pc_validcl f x = true -> entry_of t' x = if decide (x ∈ gone) then 0 else entry_of t x) /\
    (forall c ds, chain f t c ds -> (forall x, x ∈ ds -> x ∉ cs) -> chain f' t' c ds) /\
    pc_freeclusters f' = Ok (Z.of_nat (length (frees f t) + length gone)).
Proof.
  intros H Hr Ht Hs Hc Hn Hk gone. pose proof (fat_chain_length _ _ _ _ H Hc) as Hlen. pose proof (ft_count _ _ H) as Hcnt. unfold PCF_LASTCLUSTER, PCF_FIRSTCLUSTER in Hcnt.
  unfold pc_bfree. rewrite Hr, Ht, (proj2 (Z.eqb_neq (pc_size p) 0)), (proj2 (Z.ltb_ge _ _)) by lia. rewrite wrapu_small by lia. set (n := howmany _ _) in *.
  destruct (bfree_loop_spec (Z.to_nat n) p (pc_scluster p) skipcl f t cs H Ht Hc ltac:(lia) Hk) as (f' & t' & -> & H' & S' & _ & E'). kstep. fold gone in E'. eexists _, f', t'. split; [done|]. split; [done|]. split; [done|].
  assert (forall x, x ∈ gone -> x ∈ cs) as Hsub by (intros x; apply slice_in).
  split.
  - intros c ds Hd Hdis. apply (chain_kept f f' t t'); [done| |done]. intros x Hx. rewrite E' by (exact (fat_chain_in _ _ _ _ _ Hd Hx)). rewrite decide_False; [done|]. intros Hg. by apply (Hdis x Hx), Hsub.
  - rewrite (pc_freeclusters_spec f' t' H'). do 2 f_equal. apply (frees_gone f f' t t'); [done| |intros x Hx%Hsub; exact (conj (fat_chain_in _ _ _ _ _ Hc Hx) (chain_used _ _ _ _ _ H Hc Hx))|done].
    apply slice_NoDup. exact (chain_NoDup _ _ _ _ H Hc).
Qed.
End Fat.

(** ** A small volume: six clusters, the file [a] in clusters 2 and 3, the file [b] in cluster 4 *)

Definition fat0 : list Z := [0xFD; 0xFF; 0xFF; 0x03; 0xF0; 0xFF; 0xFF; 0x0F; 0; 0; 0; 0].
Definition vol0 : pcfs := Pcfs 0 2 7 5 12 1024 6 (Some fat0) [].
Definition file_a : pcnode := Pcnode false VREG 0 2048 2.
Definition file_b : pcnode := Pcnode false VREG 0 100 4.

Lemma vol0_ok : fat_ok vol0 fat0.
Proof. split; [done| |split; by vm_compute|by vm_compute]. unfold fat0, byte. repeat (constructor; [lia|]). constructor. Qed.
Lemma chain_a : chain vol0 fat0 2 [2; 3].
Proof. apply chain_next; [done|]. apply chain_last; [done|]. by vm_compute. Qed.

Lemma pc_balloc_maps_witness : exists e d p' f' t', pc_balloc file_a 3 vol0 = Ok (e, d, p', f') /\ fat_ok f' t' /\ pcev_log f' = [Cleared 18 1024; Cleared 20 1024] /\
  (forall size ra, size <> 0 -> e = 0 -> 3 < howmany size 1024 -> exists ran, pc_bmap (set_psize size p') 3 ra f' = Ok (0, d, ran, f')) /\
  (forall c ds, chain vol0 fat0 c ds -> (forall x, x ∈ ds -> x ∉ [2; 3]) -> chain f' t' c ds).
Proof.
  destruct (pc_balloc_maps vol0 fat0 file_a [2; 3] 3 vol0_ok (conj eq_refl (conj eq_refl chain_a)) ltac:(split; [lia|by vm_compute])) as (e & d & p' & f' & t' & Hb & Hok & Hl & _ & _ & Hm & _ & Hc).
  exists e, d, p', f', t'. split; [exact Hb|]. split; [exact Hok|]. split; [rewrite Hl; by vm_compute|]. split; [exact Hm|exact Hc].
Defined.

Lemma pc_bfree_frees_witness : exists p' f' t', pc_bfree file_a 1 vol0 = Ok (0, p', f') /\ fat_ok f' t' /\ entry_of t' 3 = 0 /\ entry_of t' 2 = 3 /\ pc_freeclusters f' = Ok 4.
Proof.
  destruct (pc_bfree_frees vol0 fat0 file_a [2; 3] 1 vol0_ok eq_refl eq_refl eq_refl chain_a ltac:(split; by vm_compute) ltac:(lia)) as (p' & f' & t' & Hb & Hok & He & _ & Hf).
  exists p', f', t'. split; [exact Hb|]. split; [exact Hok|]. split; [by rewrite He by done|]. split; [by rewrite He by done|exact Hf].
Defined.

(** A file that is cut short keeps, in the entry of its last cluster, the number of the next, which is free: once that has gone to another file, the first file
    grows into it. *)
Lemma truncate_cross_links :
  match ('(_, a, f) ← pc_truncate file_a 100 vol0; '(_, b, f) ← pc_truncate file_b 1500 f; '(_, a, f) ← pc_truncate a 1500 f;
         '(_, x, _, _) ← pc_bmap a 1 false f; '(_, y, _, _) ← pc_bmap b 1 false f; mret (x, y)) with
  | Ok (Some x, Some y) => x = y | _ => False end.
Proof. vm_compute. reflexivity. Qed.

(** An empty file that is extended to the size of a cluster has two clusters; cut again to nothing it gives back one. *)
Lemma truncate_leaks :
  match (n0 ← pc_freeclusters vol0; '(_, e, f) ← pc_truncate (Pcnode false VREG 0 0 0) 1024 vol0; n1 ← pc_freeclusters f; '(_, e, f) ← pc_truncate e 0 f; n2 ← pc_freeclusters f; mret (pc_size e, n0, n1, n2)) with
  | Ok r => r = (0, 3, 1, 2) | _ => False end.
Proof. vm_compute. reflexivity. Qed.

(** What is flushed for the file in cluster 4 is block 8; its data are in block 16. *)
Lemma bflush_elsewhere : match pc_bflush file_b vol0 with Ok (_, f) => pcev_log f = [Flushed 8 1024] | _ => False end /\ pc_cldaddr vol0 4 = 16.
Proof. split; vm_compute; reflexivity. Qed.
