(* ===== verification/Pctime.v ===== *)
(** * Times of the PC file system: [src/sun/sys/pcfs/pc_subr.c]

    A directory entry holds a local time in two packed words, each with its bytes swapped.  The calendar, the rules for daylight
    saving time and the packing, and what becomes of a time that is stored and read back. *)

From S2P Require Import Prelude.
From stdpp Require Import prelude list numbers strings.
From Stdlib Require Import ZArith Lia Ascii.

Local Open Scope Z_scope.
Local Open Scope kern_scope.

Record tm := Tm { tm_sec : Z; tm_min : Z; tm_hour : Z; tm_mday : Z; tm_mon : Z; tm_year : Z; tm_wday : Z; tm_yday : Z; tm_isdst : Z }.
Definition set_isdst (v : Z) (t : tm) : tm := Tm (tm_sec t) (tm_min t) (tm_hour t) (tm_mday t) (tm_mon t) (tm_year t) (tm_wday t) (tm_yday t) v.
Record pctime := Pctime { pct_time : Z; pct_date : Z }.
(** [tz] of the kernel. *)
Record timezone := Timezone { tz_minuteswest : Z; tz_dsttime : Z }.

(** ** The calendar *)

Definition dmsize : list Z := [31; 28; 31; 30; 31; 30; 31; 31; 30; 31; 30; 31].
Definition dysize (y : Z) : Z := if Z.rem y 4 =? 0 then 366 else 365.

(** [for (d1=70; day >= dysize(d1); d1++) day -= dysize(d1)] *)
Fixpoint year_up (fuel : nat) (d1 day : Z) : res (Z * Z) :=
  if dysize d1 <=? day then match fuel with O => Fault | S fuel => year_up fuel (d1 + 1) (day - dysize d1) end else mret (d1, day).
(** [for (d1=70; day<0; d1--) day += dysize(d1-1)] *)
Fixpoint year_down (fuel : nat) (d1 day : Z) : res (Z * Z) :=
  if day <? 0 then match fuel with O => Fault | S fuel => year_down fuel (d1 - 1) (day + dysize (d1 - 1)) end else mret (d1, day).
(** [for(d1=0; d0 >= dmsize[d1]; d1++) d0 -= dmsize[d1]] *)
Fixpoint month_up (ds : list Z) (d1 d0 : Z) : res (Z * Z) :=
  match ds with [] => Fault | s :: ds => if s <=? d0 then month_up ds (d1 + 1) (d0 - s) else mret (d1, d0) end.
(** [dmsize[1]] is 29 while a day of a leap year is looked up. *)
Definition dmsize_of (year : Z) : list Z := if dysize year =? 366 then <[1%nat := 29]> dmsize else dmsize.

Definition gmtime (tim : Z) : res tm :=
  let hms := Z.rem tim 86400 in
  let day := tim `quot` 86400 in
  let '(hms, day) := if hms <? 0 then (hms + 86400, day - 1) else (hms, day) in
  let d1 := hms `quot` 60 in
  let wday := Z.rem (day + 7340036) 7 in
  '(year, yday) ← (if 0 <=? day then year_up (Z.to_nat day) 70 day else year_down (Z.to_nat (- day)) 70 day);
  '(mon, d0) ← month_up (dmsize_of year) 0 yday;
  mret (Tm (i16 (Z.rem hms 60)) (i16 (Z.rem d1 60)) (i16 (d1 `quot` 60)) (i16 (d0 + 1)) (i16 mon) (i16 year) (i16 wday) (i16 yday) 0).

(** ** Daylight saving time *)

Definition sunday (t : tm) (d : Z) : Z :=
  let d := if 58 <=? d then d + (dysize (tm_year t) - 365) else d in
  d - Z.rem (d - tm_yday t + tm_wday t + 700) 7.

Record dstab := Dstab { dayyr : Z; daylb : Z; dayle : Z }.
Definition usdaytab : list dstab := [Dstab 1974 5 333; Dstab 1975 58 303; Dstab 0 119 303].
Definition ausdaytab : list dstab := [Dstab 1970 400 0; Dstab 1971 303 0; Dstab 1972 303 58; Dstab 0 303 65].
Definition wedaytab : list dstab := [Dstab 1983 86 303; Dstab 1984 86 303; Dstab 1985 86 303; Dstab 0 400 0].
Definition medaytab : list dstab := [Dstab 1983 86 272; Dstab 1984 86 272; Dstab 1985 86 272; Dstab 0 400 0].
Inductive hemi := STH | NTH.
Record dayrule := Dayrule { dst_type : Z; dst_hrs : Z; dst_rules : list dstab; dst_hemi : hemi }.
Definition DST_USA : Z := 1.
Definition DST_AUST : Z := 2.
Definition DST_WET : Z := 3.
Definition DST_MET : Z := 4.
Definition DST_EET : Z := 5.
(** Up to the row whose type is -1. *)
Definition dayrules : list dayrule :=
  [Dayrule DST_USA 1 usdaytab NTH; Dayrule DST_AUST 1 ausdaytab STH; Dayrule DST_WET 1 wedaytab NTH; Dayrule DST_MET 1 medaytab NTH; Dayrule DST_EET 1 medaytab NTH].
Fixpoint find_rule (ty : Z) (l : list dayrule) : option dayrule :=
  match l with [] => None | dr :: l => if dst_type dr =? ty then Some dr else find_rule ty l end.
Fixpoint find_dstab (year : Z) (l : list dstab) : res dstab :=
  match l with [] => Fault | ds :: l => if (dayyr ds =? 0) || (dayyr ds =? year) then mret ds else find_dstab year l end.

(** The test that returns [ct] as it is when it fails. *)
Definition dst_on (dr : dayrule) (ct : tm) : res bool :=
  let dayno := tm_yday ct in
  ds ← find_dstab (tm_year ct + 1900) (dst_rules dr);
  let dalybeg := sunday ct (daylb ds) in
  let daylend := sunday ct (dayle ds) in
  mret match dst_hemi dr with
       | NTH => ((dalybeg <? dayno) || (dayno =? dalybeg) && (2 <=? tm_hour ct)) && ((dayno <? daylend) || (dayno =? daylend) && (tm_hour ct <? 1))
       | STH => ((dalybeg <? dayno) || (dayno =? dalybeg) && (2 <=? tm_hour ct)) || ((dayno <? daylend) || (dayno =? daylend) && (tm_hour ct <? 2))
       end.

Definition localtime (tz : timezone) (tim : Z) : res tm :=
  let copyt := i32 (tim - tz_minuteswest tz * 60) in
  ct ← gmtime copyt;
  match find_rule (tz_dsttime tz) dayrules with
  | None => mret ct
  | Some dr =>
      on ← dst_on dr ct;
      if (on : bool) then
        let copyt := i32 (copyt + dst_hrs dr * 60 * 60) in
        ct ← gmtime copyt;
        mret (set_isdst (tm_isdst ct + 1) ct)
      else mret ct
  end.

(** ** From a broken-down time to seconds *)

(** [n] years from [i] on. *)
Fixpoint years_days (n : nat) (i : Z) (ct : Z) : Z := match n with O => ct | S n => years_days n (i + 1) (ct + dysize i) end.
(** [while (--i) ct += dmsize[i-1]], with [n] for [i-1]. *)
Fixpoint months_days (n : nat) (ct : Z) : res Z := match n with O => mret ct | S n => s ← rd dmsize n; months_days n (ct + s) end.

Definition ctime (tz : timezone) (tp : tm) : res Z :=
  if (tm_mon tp <? 0) || (11 <? tm_mon tp) || (tm_mday tp <? 1) || (31 <? tm_mday tp) || (tm_hour tp <? 0) || (23 <? tm_hour tp) ||
     (tm_min tp <? 0) || (59 <? tm_min tp) || (tm_sec tp <? 0) || (59 <? tm_sec tp) then mret 0
  else
    let ct := years_days (Z.to_nat (tm_year tp - 70)) 70 0 in
    let ct := if (dysize (tm_year tp) =? 366) && (2 <=? tm_mon tp) then ct + 1 else ct in
    ct ← months_days (Z.to_nat (tm_mon tp)) ct;
    let ct := ct + (tm_mday tp - 1) in
    let ct := i32 (24 * ct + tm_hour tp) in
    let ct := i32 (60 * ct + tm_min tp) in
    let ct := i32 (60 * ct + tm_sec tp) in
    let ct := i32 (ct + tz_minuteswest tz * 60) in
    lt ← localtime tz ct;
    mret (if negb (tm_isdst lt =? 0) then i32 (ct - 60 * 60) else ct).

(** ** The packed words *)

(** [ltohs] and [htols] where the most significant byte is first. *)
Definition ltohs (s : Z) : Z := Z.lor (Z.shiftl (Z.land s 0xff) 8) (Z.land (Z.shiftr s 8) 0xff).
Definition htols (s : Z) : Z := ltohs s.

Definition SECSHIFT : Z := 0.
Definition SECMASK : Z := 0x1F.
Definition MINSHIFT : Z := 5.
Definition MINMASK : Z := 0x3F.
Definition HOURSHIFT : Z := 11.
Definition HOURMASK : Z := 0x1F.
Definition DAYSHIFT : Z := 0.
Definition DAYMASK : Z := 0x1F.
Definition MONSHIFT : Z := 5.
Definition MONMASK : Z := 0x0F.
Definition YEARSHIFT : Z := 9.
Definition YEARMASK : Z := 0x7F.

Definition setfield (s field sft msk : Z) : Z :=
  let s := i16 (Z.lor (Z.land (ltohs s) (Z.lnot (Z.shiftl msk sft))) (Z.shiftl (Z.land field msk) sft)) in
  i16 (htols s).
Definition getfield (s sft m : Z) : Z := Z.land (Z.shiftr (ltohs s) sft) m.

Definition pc_tvtopct (tz : timezone) (tv_sec : Z) (pctp : pctime) : res pctime :=
  ctp ← localtime tz tv_sec;
  let t := pct_time pctp in
  let t := setfield t (tm_sec ctp `quot` 2) SECSHIFT SECMASK in
  let t := setfield t (tm_min ctp) MINSHIFT MINMASK in
  let t := setfield t (tm_hour ctp) HOURSHIFT HOURMASK in
  let d := pct_date pctp in
  let d := setfield d (tm_mday ctp) DAYSHIFT DAYMASK in
  let d := setfield d (tm_mon ctp + 1) MONSHIFT MONMASK in
  let d := setfield d (tm_year ctp - 80) YEARSHIFT YEARMASK in
  mret (Pctime t d).

(** [tv_sec]; the fields of [tm] that ctime() does not use are 0. *)
Definition pc_pcttotv (tz : timezone) (pctp : pctime) : res Z :=
  ctime tz (Tm (i16 (getfield (pct_time pctp) SECSHIFT SECMASK * 2)) (i16 (getfield (pct_time pctp) MINSHIFT MINMASK)) (i16 (getfield (pct_time pctp) HOURSHIFT HOURMASK))
               (i16 (getfield (pct_date pctp) DAYSHIFT DAYMASK)) (i16 (getfield (pct_date pctp) MONSHIFT MONMASK - 1)) (i16 (80 + getfield (pct_date pctp) YEARSHIFT YEARMASK)) 0 0 0).

(** ** Names *)

Definition code (a : ascii) : Z := Z.of_nat (nat_of_ascii a).
(** [sizeof] counts the 0 at the end. *)
Definition valtab : list Z := map code (String.list_ascii_of_string "$#&@!%()-{}<>`_\^~|'") ++ [0].
Definition pc_validchar (c : Z) : bool :=
  if (code "A" <=? c) && (c <=? code "Z") then true else if (code "0" <=? c) && (c <=? code "9") then true else existsb (Z.eqb c) valtab.

(** 1986, September 25, 12:00:01, eight hours west of Greenwich, by the rules of the United States *)
Example stored : (p ← pc_tvtopct (Timezone 480 1) 528058801 (Pctime 0 0); t ← pc_pcttotv (Timezone 480 1) p; mret t) = Ok 528058800.
Proof. vm_compute. reflexivity. Qed.

(** ** Fields of a packed word *)

Lemma i16_bits z n : 0 <= n < 16 -> Z.testbit (i16 z) n = Z.testbit z n.
Proof.
  intros Hn. rewrite <- (Z.mod_pow2_bits_low (i16 z) 16 n), <- (Z.mod_pow2_bits_low z 16 n) by lia. f_equal. unfold wraps. rewrite Zminus_mod_idemp_l. f_equal. change (2 ^ (16 - 1)) with 32768. lia.
Qed.
Lemma ltohs_bits s n : 0 <= n -> Z.testbit (ltohs s) n = if n <? 8 then Z.testbit s (n + 8) else if n <? 16 then Z.testbit s (n - 8) else false.
Proof.
  intros Hn. unfold ltohs. change 0xff with (Z.ones 8). rewrite Z.lor_spec, Z.shiftl_spec, !Z.land_spec, Z.shiftr_spec by done.
  destruct (Z.ltb_spec n 8); [rewrite !(Z.testbit_neg_r _ (n - 8)), Z.ones_spec_low by lia; by rewrite andb_true_r|]. rewrite (Z.ones_spec_high 8 n), andb_false_r, orb_false_r by lia.
  destruct (Z.ltb_spec n 16); [rewrite Z.ones_spec_low by lia; apply andb_true_r|rewrite Z.ones_spec_high by lia; apply andb_false_r].
Qed.
Lemma setfield_bits s f sft k n : 0 <= sft -> 0 <= k -> 0 <= n < 16 ->
  Z.testbit (ltohs (setfield s f sft (Z.ones k))) n = if (sft <=? n) && (n <? sft + k) then Z.testbit f (n - sft) else Z.testbit (ltohs s) n.
Proof.
  intros Hs Hk Hn. unfold setfield, htols. set (v := Z.lor _ _).
  assert (Z.testbit (ltohs (i16 (ltohs (i16 v)))) n = Z.testbit v n) as ->.
  { rewrite ltohs_bits by lia. destruct (Z.ltb_spec n 8).
    - rewrite i16_bits, ltohs_bits, (proj2 (Z.ltb_ge _ _)), (proj2 (Z.ltb_lt _ _)), i16_bits by lia. f_equal. lia.
    - rewrite (proj2 (Z.ltb_lt _ _)), i16_bits, ltohs_bits, (proj2 (Z.ltb_lt _ _)), i16_bits by lia. f_equal. lia. }
  unfold v. rewrite Z.lor_spec, Z.land_spec, Z.lnot_spec, !Z.shiftl_spec, Z.land_spec by lia. destruct (Z.leb_spec sft n) as [H1|H1]; cbn [andb].
  - destruct (Z.ltb_spec n (sft + k)) as [H2|H2]; [rewrite Z.ones_spec_low by lia|rewrite Z.ones_spec_high by lia]; cbn [negb]; by rewrite ?andb_false_r, ?andb_true_r, ?orb_false_r.
  - rewrite !(Z.testbit_neg_r _ (n - sft)) by lia. by rewrite andb_true_r, orb_false_r.
Qed.
Lemma getfield_bits s sft k n : 0 <= sft -> 0 <= n -> 0 <= k -> Z.testbit (getfield s sft (Z.ones k)) n = (n <? k) && Z.testbit (ltohs s) (n + sft).
Proof.
  intros Hs Hn Hk. unfold getfield. rewrite Z.land_spec, Z.shiftr_spec by done. destruct (Z.ltb_spec n k); [rewrite Z.ones_spec_low by lia; apply andb_true_r|rewrite Z.ones_spec_high by lia; apply andb_false_r].
Qed.

(** A field is read as it was set, cut to its width, and the others stay. *)
Lemma get_set s f sft k : 0 <= sft -> 0 <= k -> sft + k <= 16 -> getfield (setfield s f sft (Z.ones k)) sft (Z.ones k) = f mod 2 ^ k.
Proof.
  intros Hs Hk Hw. apply Z.bits_inj'. intros n Hn. rewrite getfield_bits by done. destruct (Z.ltb_spec n k); cbn [andb].
  - rewrite setfield_bits, (proj2 (Z.leb_le _ _)), (proj2 (Z.ltb_lt _ _)) by lia. cbn [andb]. rewrite Z.mod_pow2_bits_low by lia. f_equal. lia.
  - by rewrite Z.mod_pow2_bits_high by lia.
Qed.
Lemma get_other s f s1 k1 s2 k2 : 0 <= s1 -> 0 <= k1 -> 0 <= s2 -> 0 <= k2 -> s2 + k2 <= 16 -> s1 + k1 <= s2 \/ s2 + k2 <= s1 -> getfield (setfield s f s1 (Z.ones k1)) s2 (Z.ones k2) = getfield s s2 (Z.ones k2).
Proof.
  intros H1 H2 H3 H4 H5 Hd. apply Z.bits_inj'. intros n Hn. rewrite !getfield_bits by done. destruct (Z.ltb_spec n k2); cbn [andb]; [|done]. rewrite setfield_bits by lia.
  destruct (Z.leb_spec s1 (n + s2)); cbn [andb]; [|done]. by rewrite (proj2 (Z.ltb_ge _ _)) by lia.
Qed.

(** ** The calendar and its inverse *)

Lemma dysize_pos y : 365 <= dysize y <= 366.
Proof. unfold dysize. destruct (_ =? _); lia. Qed.

Lemma years_days_add n : forall i ct, years_days n i ct = ct + years_days n i 0.
Proof. induction n as [|n IH]; intros i ct; cbn [years_days]; [lia|]. rewrite IH, (IH _ (0 + _)). lia. Qed.

Lemma year_up_spec fuel : forall d1 day, 0 <= day <= Z.of_nat fuel -> exists y d, year_up fuel d1 day = Ok (y, d) /\ d1 <= y <= d1 + day /\ 0 <= d < dysize y /\ day = years_days (Z.to_nat (y - d1)) d1 0 + d.
Proof.
  induction fuel as [|fuel IH]; intros d1 day Hd; cbn [year_up]; pose proof (dysize_pos d1) as Hp; destruct (Z.leb_spec (dysize d1) day) as [Hle|Hlt]; try lia.
  - exists d1, day. rewrite Z.sub_diag. split_and!; try done; lia.
  - destruct (IH (d1 + 1) (day - dysize d1) ltac:(lia)) as (y & d & -> & Hy & Hr & E). exists y, d. split; [done|]. split; [lia|]. split; [done|].
    replace (Z.to_nat (y - d1)) with (S (Z.to_nat (y - (d1 + 1)))) by lia. cbn [years_days]. rewrite years_days_add. lia.
  - exists d1, day. rewrite Z.sub_diag. split_and!; try done; lia.
Qed.

(** Months, day by day. *)
Definition month_ok (leap : bool) (d : Z) : bool :=
  match month_up (if leap then <[1%nat := 29]> dmsize else dmsize) 0 d with
  | Ok (mon, d0) => (0 <=? mon) && (mon <=? 11) && (0 <=? d0) && (d0 <=? 30) &&
      match months_days (Z.to_nat mon) 0 with Ok c => c + (if leap && (2 <=? mon) then 1 else 0) + d0 =? d | _ => false end
  | _ => false
  end.
Lemma month_table (leap : bool) d : 0 <= d < (if leap then 366 else 365) -> month_ok leap d = true.
Proof.
  intros Hd. assert (forallb (month_ok leap) (seqZ 0 (if leap then 366 else 365)) = true) as H by (destruct leap; vm_compute; done). rewrite forallb_forall in H. apply H, list_elem_of_In, elem_of_seqZ. destruct leap; lia.
Qed.
Lemma months_days_add n : forall ct, months_days n ct = (c ← months_days n 0; mret (ct + c)).
Proof.
  induction n as [|n IH]; intros ct; cbn [months_days]; [kstep; f_equal; lia|]. destruct (rd dmsize n) as [s| |]; kstep; [|done..]. rewrite IH, (IH (0 + s)). destruct (months_days n 0); kstep; [f_equal; lia|done..].
Qed.
Lemma month_spec year yday : 0 <= yday < dysize year -> exists mon d0 c, month_up (dmsize_of year) 0 yday = Ok (mon, d0) /\ 0 <= mon <= 11 /\ 0 <= d0 <= 30 /\
  (forall ct, months_days (Z.to_nat mon) ct = Ok (ct + c)) /\ c + (if (dysize year =? 366) && (2 <=? mon) then 1 else 0) + d0 = yday.
Proof.
  intros Hd. pose proof (month_table (dysize year =? 366) yday) as Ht. unfold month_ok in Ht. fold (dmsize_of year) in Ht. pose proof (dysize_pos year).
  specialize (Ht ltac:(destruct (Z.eqb_spec (dysize year) 366); lia)). destruct (month_up _ _ _) as [[mon d0]| |]; [|done..]. destruct (months_days (Z.to_nat mon) 0) as [c| |] eqn:Ec; [|by rewrite andb_false_r in Ht..].
  rewrite !andb_true_iff, !Z.leb_le, Z.eqb_eq in Ht. exists mon, d0, c. split_and!; try (intros ct; rewrite months_days_add, Ec; kstep); done || lia.
Qed.

Lemma years_days_ge n : forall i, 365 * Z.of_nat n <= years_days n i 0.
Proof. induction n as [|n IH]; intros i; cbn [years_days]; [lia|]. rewrite years_days_add. specialize (IH (i + 1)). pose proof (dysize_pos i). lia. Qed.

(** [ct] is the date and the time of day of second [x]. *)
Record civil (x : Z) (ct : tm) : Prop := Civil {
  cv_sec : 0 <= tm_sec ct <= 59; cv_min : 0 <= tm_min ct <= 59; cv_hour : 0 <= tm_hour ct <= 23; cv_mday : 1 <= tm_mday ct <= 31; cv_mon : 0 <= tm_mon ct <= 11;
  cv_year : 70 <= tm_year ct <= 138; cv_yday : 0 <= tm_yday ct < dysize (tm_year ct);
  cv_month : exists c, (forall d, months_days (Z.to_nat (tm_mon ct)) d = Ok (d + c)) /\ tm_yday ct = c + (if (dysize (tm_year ct) =? 366) && (2 <=? tm_mon ct) then 1 else 0) + (tm_mday ct - 1);
  cv_time : x = 86400 * (years_days (Z.to_nat (tm_year ct - 70)) 70 0 + tm_yday ct) + 3600 * tm_hour ct + 60 * tm_min ct + tm_sec ct
}.
Definition even_sec (ct : tm) : tm := Tm (tm_sec ct - tm_sec ct mod 2) (tm_min ct) (tm_hour ct) (tm_mday ct) (tm_mon ct) (tm_year ct) (tm_wday ct) (tm_yday ct) (tm_isdst ct).

Lemma even_parts x : 0 <= x -> (x - x mod 2) `quot` 86400 = x `quot` 86400 /\ Z.rem (x - x mod 2) 86400 = Z.rem x 86400 - Z.rem x 86400 mod 2.
Proof.
  intros Hx. assert (x - x mod 2 = x / 2 * 2) as -> by (Z.to_euclidean_division_equations; lia). rewrite !Z.quot_div_nonneg, !Z.rem_mod_nonneg by (Z.to_euclidean_division_equations; lia). Z.to_euclidean_division_equations; lia.
Qed.

Lemma gmtime_spec x : 0 <= x < 2 ^ 31 -> exists ct, gmtime x = Ok ct /\ tm_isdst ct = 0 /\ civil x ct /\ gmtime (x - x mod 2) = Ok (even_sec ct).
Proof.
  intros Hx. unfold gmtime. destruct (even_parts x) as [-> ->]; [lia|]. set (day := x `quot` 86400). set (hms := Z.rem x 86400).
  assert (0 <= hms < 86400 /\ 0 <= day <= 24855 /\ x = 86400 * day + hms) as (Hh & Hd & Ex) by (unfold hms, day; Z.to_euclidean_division_equations; lia).
  pose proof (Z.mod_pos_bound hms 2 ltac:(lia)). rewrite !(proj2 (Z.ltb_ge _ 0)), !(proj2 (Z.leb_le 0 day)) by (Z.to_euclidean_division_equations; lia).
  destruct (year_up_spec (Z.to_nat day) 70 day ltac:(lia)) as (y & d & -> & Hy & Hr & Ed). kstep. destruct (month_spec y d Hr) as (mon & d0 & c & -> & Hm & Hd0 & Hc & Ec). kstep.
  pose proof (years_days_ge (Z.to_nat (y - 70)) 70) as Hge. pose proof (dysize_pos y). assert (y <= 138) as Hy2 by lia.
  assert ((hms - hms mod 2) `quot` 60 = hms `quot` 60 /\ Z.rem (hms - hms mod 2) 60 = Z.rem hms 60 - Z.rem hms 60 mod 2) as [-> ->] by (Z.to_euclidean_division_equations; lia).
  rewrite !(wraps_small 16) by (change (2 ^ (16 - 1)) with 32768; Z.to_euclidean_division_equations; lia). eexists. split; [done|]. split; [done|]. split; [|done].
  split; cbn; try (Z.to_euclidean_division_equations; lia). exists c. split; [done|lia].
Qed.

Lemma dst_on_even dr ct : dst_on dr (even_sec ct) = dst_on dr ct.
Proof. done. Qed.
Lemma find_rule_in ty l dr : find_rule ty l = Some dr -> dr ∈ l.
Proof. induction l as [|d l IH]; cbn [find_rule]; [done|]. destruct (_ =? _); [intros [= ->]; by left|intros H; right; by apply IH]. Qed.
Lemma dst_on_total dr ct : dr ∈ dayrules -> dst_hrs dr = 1 /\ exists b, dst_on dr ct = Ok b.
Proof.
  assert (forall l, existsb (fun ds => dayyr ds =? 0) l = true -> exists ds, find_dstab (tm_year ct + 1900) l = Ok ds) as Hf.
  { induction l as [|ds l IH]; cbn [existsb find_dstab]; [done|]. destruct (dayyr ds =? 0); cbn [orb]; [by exists ds|]. intros H. destruct (_ =? _); [by exists ds|by apply IH]. }
  intros Hdr. assert (dst_hrs dr = 1 /\ existsb (fun ds => dayyr ds =? 0) (dst_rules dr) = true) as [Hh He] by (unfold dayrules in Hdr; repeat (apply elem_of_cons in Hdr as [->|Hdr]; [by split|]); by apply elem_of_nil in Hdr).
  split; [done|]. destruct (Hf _ He) as [ds E]. unfold dst_on. rewrite E. by eexists.
Qed.

Lemma even_set_isdst v ct : even_sec (set_isdst v ct) = set_isdst v (even_sec ct).
Proof. done. Qed.
Lemma civil_isdst x v ct : civil x ct -> civil x (set_isdst v ct).
Proof. by intros []. Qed.

Section Time.
Context (tz : timezone) (Hwest : Z.abs (tz_minuteswest tz) <= 1440).
Notation west := (tz_minuteswest tz * 60).

Lemma even_west t : (t - west) mod 2 = t mod 2.
Proof. Z.to_euclidean_division_equations; lia. Qed.

(** Localtime() depends on the second only in [tm_sec]. *)
Lemma localtime_spec t : 0 <= t < 2 ^ 31 -> 0 <= t - west < 2 ^ 31 - 3600 -> exists ct, localtime tz t = Ok ct /\ localtime tz (t - t mod 2) = Ok (even_sec ct) /\
  (tm_isdst ct = 0 /\ civil (t - west) ct \/ tm_isdst ct = 1 /\ civil (t - west + 3600) ct).
Proof.
  intros Ht Hl. pose proof (even_west t) as Hev. unfold localtime. replace (t - t mod 2 - west) with (t - west - (t - west) mod 2) by lia. pose proof (Z.mod_pos_bound (t - west) 2 ltac:(lia)).
  set (x := t - west) in *. assert (0 <= x - x mod 2) by (Z.to_euclidean_division_equations; lia). change (2 ^ 31) with 2147483648 in *.
  rewrite !(wraps_small 32 (x - _)), (wraps_small 32 x) by (change (2 ^ (32 - 1)) with 2147483648; lia).
  destruct (gmtime_spec x) as (ct & -> & E0 & Hc & ->); [change (2 ^ 31) with 2147483648; lia|]. kstep. destruct (find_rule _ _) as [dr|] eqn:Er; [|exists ct; split_and!; try done; by left].
  apply find_rule_in in Er. destruct (dst_on_total dr ct Er) as (Hh & b & Hb). rewrite dst_on_even, Hb. kstep. destruct b; [|exists ct; split_and!; try done; by left]. rewrite Hh. change (1 * 60 * 60) with 3600.
  replace (x - x mod 2 + 3600) with (x + 3600 - (x + 3600) mod 2) by (Z.to_euclidean_division_equations; lia). pose proof (Z.mod_pos_bound (x + 3600) 2 ltac:(lia)).
  rewrite !(wraps_small 32 (_ - _)), (wraps_small 32 (x + 3600)) by (change (2 ^ (32 - 1)) with 2147483648; lia).
  destruct (gmtime_spec (x + 3600)) as (ct1 & -> & E1 & Hc1 & ->); [change (2 ^ 31) with 2147483648; lia|]. kstep. exists (set_isdst 1 ct1). cbn [even_sec tm_isdst]. rewrite E1. split; [done|]. split; [done|].
  right. split; [done|]. by apply civil_isdst.
Qed.

Lemma civil_even x ct : civil x ct -> civil (x - x mod 2) (even_sec ct).
Proof.
  intros [H1 H2 H3 H4 H5 H6 H7 H8 H9]. set (days := years_days _ _ _ + _) in H9. assert (x mod 2 = tm_sec ct mod 2) as E by (rewrite H9; Z.to_euclidean_division_equations; lia). rewrite E.
  split; cbn [even_sec tm_sec tm_min tm_hour tm_mday tm_mon tm_year tm_yday]; try done; [Z.to_euclidean_division_equations; lia|]. fold days. lia.
Qed.

Definition stored_fields (ct : tm) : tm := Tm (tm_sec ct) (tm_min ct) (tm_hour ct) (tm_mday ct) (tm_mon ct) (tm_year ct) 0 0 0.

Lemma time_of_day days h m s w : 0 <= days -> 0 <= h <= 23 -> 0 <= m <= 59 -> 0 <= s <= 59 -> 86400 * days + 3600 * h + 60 * m + s < 2147483648 -> -2147483648 <= 86400 * days + 3600 * h + 60 * m + s + w < 2147483648 ->
  i32 (i32 (60 * i32 (60 * i32 (24 * days + h) + m) + s) + w) = 86400 * days + 3600 * h + 60 * m + s + w.
Proof.
  intros Hd Hh Hm Hs H1 H2. assert (forall z, -2147483648 <= z < 2147483648 -> i32 z = z) as Hw by (intros z Hz; by apply wraps_small). rewrite (Hw (24 * _ + _)) by lia. rewrite (Hw (60 * _ + m)) by lia.
  rewrite (Hw (60 * _ + s)) by lia. rewrite Hw by lia. lia.
Qed.

(** Ctime() takes the date for standard time, and an hour off where that falls into daylight saving time. *)
Lemma ctime_spec x ct lt : civil x ct -> 0 <= x < 2147483648 -> 3600 <= x + west < 2147483648 -> localtime tz (x + west) = Ok lt ->
  ctime tz (stored_fields ct) = Ok (if negb (tm_isdst lt =? 0) then x + west - 3600 else x + west).
Proof.
  intros [H1 H2 H3 H4 H5 H6 H7 (c & Hc & Ec) H9] Hx Hxw Hl. pose proof (years_days_ge (Z.to_nat (tm_year ct - 70)) 70) as Hy. revert Hl Hy H9. unfold ctime, stored_fields. generalize (localtime tz). intros local Hl Hy. cbn [tm_sec tm_min tm_hour tm_mday tm_mon tm_year].
  rewrite !(proj2 (Z.ltb_ge _ _)) by lia. cbn [orb]. rewrite Hc. kstep. revert Hy. generalize (years_days (Z.to_nat (tm_year ct - 70)) 70 0). intros yd Hy H9.
  replace ((if (dysize (tm_year ct) =? 366) && (2 <=? tm_mon ct) then yd + 1 else yd) + c + (tm_mday ct - 1)) with (yd + tm_yday ct) by (destruct (_ && _); lia).
  rewrite time_of_day by lia. rewrite <- H9. rewrite Hl. kstep. destruct (negb _); [|done]. f_equal. by apply wraps_small; lia.
Qed.

(** What is unpacked is what was packed, to two seconds. *)
Lemma packed_fields t ct p : localtime tz t = Ok ct -> (exists x, civil x ct) -> 80 <= tm_year ct -> exists p', pc_tvtopct tz t p = Ok p' /\ pc_pcttotv tz p' = ctime tz (stored_fields (even_sec ct)).
Proof.
  intros Hl (x & [H1 H2 H3 H4 H5 H6 H7 _ _]) Hy. unfold pc_tvtopct. rewrite Hl. kstep. eexists. split; [done|]. unfold pc_pcttotv. cbn [pct_time pct_date].
  change SECMASK with (Z.ones 5). change MINMASK with (Z.ones 6). change HOURMASK with (Z.ones 5). change DAYMASK with (Z.ones 5). change MONMASK with (Z.ones 4). change YEARMASK with (Z.ones 7).
  unfold SECSHIFT, MINSHIFT, HOURSHIFT, DAYSHIFT, MONSHIFT, YEARSHIFT. repeat first [rewrite get_set by lia | rewrite get_other by lia].
  change (2 ^ 5) with 32. change (2 ^ 6) with 64. change (2 ^ 4) with 16. change (2 ^ 7) with 128. rewrite !(Z.mod_small (_ : Z)) by (Z.to_euclidean_division_equations; lia).
  rewrite !(wraps_small 16) by (change (2 ^ (16 - 1)) with 32768; Z.to_euclidean_division_equations; lia). unfold stored_fields, even_sec. cbn [tm_sec tm_min tm_hour tm_mday tm_mon tm_year]. f_equal. f_equal; Z.to_euclidean_division_equations; lia.
Qed.

Lemma civil_1980 x ct : civil x ct -> 315532800 <= x -> 80 <= tm_year ct.
Proof.
  intros [H1 H2 H3 _ _ H6 H7 _ H9] Hx. destruct (Z.le_gt_cases 80 (tm_year ct)) as [|Hlt]; [done|]. exfalso.
  assert (tm_year ct = 70 \/ tm_year ct = 71 \/ tm_year ct = 72 \/ tm_year ct = 73 \/ tm_year ct = 74 \/ tm_year ct = 75 \/ tm_year ct = 76 \/ tm_year ct = 77 \/ tm_year ct = 78 \/ tm_year ct = 79) as Hcases by lia.
  repeat destruct Hcases as [Hcases|Hcases]; rewrite Hcases in *; vm_compute (years_days _ _ _) in H9; vm_compute (dysize _) in H7; lia.
Qed.

(** C28: a time from 1980 on, in any time zone and by any of the rules for daylight saving time, that is stored in a directory entry over whatever was there and read back is
    the same to two seconds; the one exception, and it is exactly that, is a time in daylight saving time that would no longer be in it an hour later: it comes
    back an hour late. *)
Theorem pctime_roundtrip t p : 315532800 <= t - west -> t < 2 ^ 31 - 100000 ->
  let t' := t - t mod 2 in
  exists p' ct lt, pc_tvtopct tz t p = Ok p' /\ localtime tz t = Ok ct /\ localtime tz (t' + 3600) = Ok lt /\
    pc_pcttotv tz p' = Ok (if (tm_isdst ct =? 1) && (tm_isdst lt =? 0) then t' + 3600 else t').
Proof.
  intros Hlo Hhi t'. pose proof (even_west t) as Hev. pose proof (Z.mod_pos_bound t 2 ltac:(lia)). change (2 ^ 31) with 2147483648 in *.
  destruct (localtime_spec t) as (ct & Hl & Hl' & Hct); [change (2 ^ 31) with 2147483648; lia..|]. destruct (localtime_spec (t' + 3600)) as (lt & Hlt & _ & Hd); [change (2 ^ 31) with 2147483648; unfold t'; lia..|].
  assert (exists x, civil x ct /\ 315532800 <= x) as (x0 & Hx0 & Hge) by (destruct Hct as [[_ ?]|[_ ?]]; eexists; (split; [eassumption|lia])).
  destruct (packed_fields t ct p Hl ltac:(by eexists) (civil_1980 _ _ Hx0 Hge)) as (p' & Hp & Hr). exists p', ct, lt. split; [done|]. split; [done|]. split; [done|]. rewrite Hr. clear x0 Hx0 Hge.
  destruct Hct as [[E Hc]|[E Hc]]; apply civil_even in Hc; rewrite E.
  - cbn [Z.eqb andb]. replace (t - west - (t - west) mod 2) with (t' - west) in Hc by (unfold t'; lia).
    rewrite (ctime_spec _ _ (even_sec ct) Hc) by (unfold t'; try lia; by replace (t - t mod 2 - west + west) with (t - t mod 2) by lia). cbn [even_sec tm_isdst]. rewrite E. cbn. f_equal. lia.
  - replace (t - west + 3600 - (t - west + 3600) mod 2) with (t' + 3600 - west) in Hc by (unfold t'; Z.to_euclidean_division_equations; lia).
    rewrite (ctime_spec _ _ lt Hc) by (unfold t'; try lia; by replace (t - t mod 2 + 3600 - west + west) with (t - t mod 2 + 3600) by lia).
    cbn [Z.eqb Pos.eqb andb]. destruct Hd as [[-> _]|[-> _]]; cbn; f_equal; lia.
Qed.
End Time.

Lemma pctime_roundtrip_witness : let tz := Timezone 480 1 in exists p' ct lt, pc_tvtopct tz 528058801 (Pctime 7 7) = Ok p' /\ localtime tz 528058801 = Ok ct /\ localtime tz (528058800 + 3600) = Ok lt /\
  pc_pcttotv tz p' = Ok (if (tm_isdst ct =? 1) && (tm_isdst lt =? 0) then 528058800 + 3600 else 528058800).
Proof. apply (pctime_roundtrip (Timezone 480 1) ltac:(cbn; lia) 528058801 (Pctime 7 7)); cbn; lia. Defined.

(** 1986, October 26, 00:30:00 by standard time, which is 01:30:00 by daylight saving time. *)
Lemma last_hour_late : (p ← pc_tvtopct (Timezone 480 1) 530699400 (Pctime 0 0); pc_pcttotv (Timezone 480 1) p) = Ok (530699400 + 3600).
Proof. vm_compute. reflexivity. Qed.
