(* ===== verification/Xdr.v ===== *)
(** * External data representation: [src/lib/libc/rpc], [xdr.c], [xdr_array.c], [xdr_reference.c], [xdr_mem.c]

    Definitions only.  One routine for each type encodes, decodes or frees a C object, by the operation in the handle, over any stream that
    has the operations of [struct xdr_ops].  A C object is a value of the type its fields have; a pointer to storage is the contents of the
    storage, or [None].  What malloc() answers is a function of the calls so far.  An int, a long and an enum have 32 bits. *)

From S2P Require Import Prelude.
From stdpp Require Import prelude list numbers strings.
From Stdlib Require Import ZArith Lia.

Local Open Scope Z_scope.
Local Open Scope kern_scope.

Notation "'i8' z" := (wraps 8 z) (at level 10, z at level 9) : kern_scope.

Inductive xdr_op := XDR_ENCODE | XDR_DECODE | XDR_FREE.
Definition BYTES_PER_XDR_UNIT : Z := 4.
Definition XDR_FALSE : Z := 0.
Definition XDR_TRUE : Z := 1.
Definition LASTUNSIGNED : Z := u32 (0 - 1).
Definition MAX_NETOBJ_SZ : Z := 1024.

(** [struct xdr_ops] over streams [S]; what is got is [None] where the routine returns FALSE. *)
Class xdr_ops (S : Type) := {
  x_getlong : S -> res (option Z * S);
  x_putlong : Z -> S -> res (bool * S);
  x_getbytes : Z -> S -> res (option (list Z) * S);
  x_putbytes : list Z -> S -> res (bool * S)
}.

(** Calls of mem_alloc() that succeeded, and of mem_free(). *)
Inductive memev := MemAlloc (n : Z) | MemFree (n : Z).
Record XDR (S : Type) := Xdr { x_op : xdr_op; x_str : S; x_mem : list memev }.
Arguments Xdr {S}. Arguments x_op {S}. Arguments x_str {S}. Arguments x_mem {S}.

(** TRUE or FALSE, the object, the handle. *)
Definition xdrproc (S A : Type) : Type := XDR S -> A -> res (bool * A * XDR S).

Section Xdr.
Context {S : Type} `{!xdr_ops S} (malloc : list memev -> Z -> option (list Z)).
Notation XDR := (XDR S).
Notation xdrproc := (xdrproc S).

Definition set_str (s : S) (x : XDR) : XDR := Xdr (x_op x) s (x_mem x).
Definition XDR_GETLONG (x : XDR) : res (option Z * XDR) := '(r, s) ← x_getlong (x_str x); mret (r, set_str s x).
Definition XDR_PUTLONG (l : Z) (x : XDR) : res (bool * XDR) := '(r, s) ← x_putlong l (x_str x); mret (r, set_str s x).
Definition XDR_GETBYTES (n : Z) (x : XDR) : res (option (list Z) * XDR) := '(r, s) ← x_getbytes n (x_str x); mret (r, set_str s x).
Definition XDR_PUTBYTES (b : list Z) (x : XDR) : res (bool * XDR) := '(r, s) ← x_putbytes b (x_str x); mret (r, set_str s x).

Definition mem_alloc (n : Z) (x : XDR) : option (list Z) * XDR :=
  match malloc (x_mem x) n with Some b => (Some b, Xdr (x_op x) (x_str x) (x_mem x ++ [MemAlloc n])) | None => (None, x) end.
Definition mem_free (n : Z) (x : XDR) : XDR := Xdr (x_op x) (x_str x) (x_mem x ++ [MemFree n]).
(** [bcopy(b, cp, length b)] *)
Definition copy_to (cp b : list Z) : res (list Z) := if (length b <=? length cp)%nat then mret (b ++ drop (length b) cp) else Fault.
(** The [n] bytes from [cp] on. *)
Definition bytes_at (cp : list Z) (n : Z) : res (list Z) := if n <=? Z.of_nat (length cp) then mret (take (Z.to_nat n) cp) else Fault.

(** ** Numbers *)

Definition xdr_void : xdrproc unit := fun x u => mret (true, u, x).

Definition xdr_long : xdrproc Z := fun x lp =>
  match x_op x with
  | XDR_ENCODE => '(r, x) ← XDR_PUTLONG lp x; mret (r, lp, x)
  | XDR_DECODE => '(r, x) ← XDR_GETLONG x; mret (match r with Some v => (true, v, x) | None => (false, lp, x) end)
  | XDR_FREE => mret (true, lp, x)
  end.
Definition xdr_u_long : xdrproc Z := fun x ulp =>
  match x_op x with
  | XDR_DECODE => '(r, x) ← XDR_GETLONG x; mret (match r with Some v => (true, u32 v, x) | None => (false, ulp, x) end)
  | XDR_ENCODE => '(r, x) ← XDR_PUTLONG (i32 ulp) x; mret (r, ulp, x)
  | XDR_FREE => mret (true, ulp, x)
  end.
Definition xdr_int : xdrproc Z := xdr_long.
Definition xdr_u_int : xdrproc Z := xdr_u_long.
Definition xdr_enum : xdrproc Z := xdr_long.

Definition xdr_short : xdrproc Z := fun x sp =>
  match x_op x with
  | XDR_ENCODE => '(r, x) ← XDR_PUTLONG sp x; mret (r, sp, x)
  | XDR_DECODE => '(r, x) ← XDR_GETLONG x; mret (match r with Some l => (true, i16 l, x) | None => (false, sp, x) end)
  | XDR_FREE => mret (true, sp, x)
  end.
Definition xdr_u_short : xdrproc Z := fun x usp =>
  match x_op x with
  | XDR_ENCODE => '(r, x) ← XDR_PUTLONG usp x; mret (r, usp, x)
  | XDR_DECODE => '(r, x) ← XDR_GETLONG x; mret (match r with Some l => (true, u16 l, x) | None => (false, usp, x) end)
  | XDR_FREE => mret (true, usp, x)
  end.
Definition xdr_char : xdrproc Z := fun x cp => '(r, i, x) ← xdr_int x cp; mret (r, if (r : bool) then i8 i else cp, x).
Definition xdr_u_char : xdrproc Z := fun x cp => '(r, u, x) ← xdr_u_int x (u32 cp); mret (r, if (r : bool) then i8 u else cp, x).

Definition xdr_bool : xdrproc Z := fun x bp =>
  match x_op x with
  | XDR_ENCODE => '(r, x) ← XDR_PUTLONG (if bp =? 0 then XDR_FALSE else XDR_TRUE) x; mret (r, bp, x)
  | XDR_DECODE => '(r, x) ← XDR_GETLONG x; mret (match r with Some lb => (true, if lb =? XDR_FALSE then 0 else 1, x) | None => (false, bp, x) end)
  | XDR_FREE => mret (true, bp, x)
  end.

(** ** Bytes *)

Definition xdr_opaque (cnt : Z) : xdrproc (list Z) := fun x cp =>
  if cnt =? 0 then mret (true, cp, x)
  else
    let rndup := cnt mod BYTES_PER_XDR_UNIT in
    let rndup := if 0 <? rndup then BYTES_PER_XDR_UNIT - rndup else rndup in
    match x_op x with
    | XDR_DECODE =>
        '(r, x) ← XDR_GETBYTES cnt x;
        match r with
        | None => mret (false, cp, x)
        | Some b =>
            cp ← copy_to cp b;
            if rndup =? 0 then mret (true, cp, x)
            else '(r, x) ← XDR_GETBYTES rndup x; mret (match r with Some _ => true | None => false end, cp, x)
        end
    | XDR_ENCODE =>
        b ← bytes_at cp cnt;
        '(r, x) ← XDR_PUTBYTES b x;
        if negb r then mret (false, cp, x)
        else if rndup =? 0 then mret (true, cp, x)
        else '(r, x) ← XDR_PUTBYTES (replicate (Z.to_nat rndup) 0) x; mret (r, cp, x)
    | XDR_FREE => mret (true, cp, x)
    end.
(** Through a pointer that may be null. *)
Definition opaque_at (cnt : Z) : xdrproc (option (list Z)) := fun x sp =>
  match sp with
  | Some b => '(r, b, x) ← xdr_opaque cnt x b; mret (r, Some b, x)
  | None => if cnt =? 0 then mret (true, None, x) else Fault
  end.

Definition xdr_bytes (maxsize : Z) : xdrproc (option (list Z) * Z) := fun x v =>
  let '(cpp, sizep) := v in
  '(r, sizep, x) ← xdr_u_int x sizep;
  if negb r then mret (false, (cpp, sizep), x)
  else
    let nodesize := sizep in
    if (maxsize <? nodesize) && match x_op x with XDR_FREE => false | _ => true end then mret (false, (cpp, sizep), x)
    else
      match x_op x with
      | XDR_DECODE =>
          if nodesize =? 0 then mret (true, (cpp, sizep), x)
          else
            let '(sp, x) := match cpp with None => mem_alloc nodesize x | Some b => (Some b, x) end in
            match sp with
            | None => mret (false, (None, sizep), x)
            | Some _ => '(r, sp, x) ← opaque_at nodesize x sp; mret (r, (sp, sizep), x)
            end
      | XDR_ENCODE => '(r, sp, x) ← opaque_at nodesize x cpp; mret (r, (sp, sizep), x)
      | XDR_FREE => mret (match cpp with Some _ => (true, (None, sizep), mem_free nodesize x) | None => (true, (cpp, sizep), x) end)
      end.
Definition xdr_netobj : xdrproc (option (list Z) * Z) := xdr_bytes MAX_NETOBJ_SZ.

Fixpoint strlen (s : list Z) : res Z :=
  match s with [] => Fault | c :: s => if c =? 0 then mret 0 else n ← strlen s; mret (n + 1) end.
Definition strlen_at (sp : option (list Z)) : res Z := match sp with Some s => strlen s | None => Fault end.

Definition xdr_string (maxsize : Z) : xdrproc (option (list Z)) := fun x sp =>
  match x_op x, sp with
  | XDR_FREE, None => mret (true, sp, x)
  | _, _ =>
      size ← match x_op x with XDR_DECODE => mret 0 | _ => strlen_at sp end;
      '(r, size, x) ← xdr_u_int x size;
      if negb r then mret (false, sp, x)
      else if maxsize <? size then mret (false, sp, x)
      else
        let nodesize := u32 (size + 1) in
        match x_op x with
        | XDR_DECODE =>
            let '(sp, x) := match sp with None => mem_alloc nodesize x | Some b => (Some b, x) end in
            match sp with
            | None => mret (false, None, x)
            | Some b => b ← wrz b size 0; opaque_at size x (Some b)
            end
        | XDR_ENCODE => opaque_at size x sp
        | XDR_FREE => mret (true, None, mem_free nodesize x)
        end
  end.
Definition xdr_wrapstring : xdrproc (option (list Z)) := xdr_string LASTUNSIGNED.

(** ** Arrays *)

Section Elements.
Context {A : Type} (elproc : xdrproc A).

(** The loops of xdr_array() and xdr_vector(), with [n] elements from number [i] on. *)
Fixpoint elems_loop (n : nat) (i : Z) (x : XDR) (l : list A) : res (bool * list A * XDR) :=
  match n with
  | O => mret (true, l, x)
  | Datatypes.S n =>
      e ← rdz l i;
      '(stat, e, x) ← elproc x e;
      l ← wrz l i e;
      if (stat : bool) then elems_loop n (i + 1) x l else mret (false, l, x)
  end.
(** Through a pointer that may be null. *)
Definition elems_at (c : Z) (x : XDR) (target : option (list A)) : res (bool * option (list A) * XDR) :=
  match target with
  | Some l => '(stat, l, x) ← elems_loop (Z.to_nat c) 0 x l; mret (stat, Some l, x)
  | None => if c =? 0 then mret (true, None, x) else Fault
  end.

(** [zero]: an element all of whose bytes are 0.  So many elements as the storage has room for. *)
Definition xdr_array (maxsize elsize : Z) (zero : A) : xdrproc (option (list A) * Z) := fun x v =>
  let '(addrp, sizep) := v in
  '(r, sizep, x) ← xdr_u_int x sizep;
  if negb r then mret (false, (addrp, sizep), x)
  else
    let c := sizep in
    if (maxsize <? c) && match x_op x with XDR_FREE => false | _ => true end then mret (false, (addrp, sizep), x)
    else
      let nodesize := u32 (c * elsize) in
      match x_op x, addrp with
      | XDR_DECODE, None =>
          if c =? 0 then mret (true, (addrp, sizep), x)
          else
            let '(target, x) := mem_alloc nodesize x in
            match target with
            | None => mret (false, (None, sizep), x)
            | Some _ => '(stat, target, x) ← elems_at c x (Some (replicate (Z.to_nat (nodesize `quot` elsize)) zero)); mret (stat, (target, sizep), x)
            end
      | XDR_FREE, None => mret (true, (addrp, sizep), x)
      | XDR_FREE, Some _ => '(stat, _, x) ← elems_at c x addrp; mret (stat, (None, sizep), mem_free nodesize x)
      | _, _ => '(stat, target, x) ← elems_at c x addrp; mret (stat, (target, sizep), x)
      end.

Definition xdr_vector (nelem : Z) : xdrproc (list A) := fun x l => elems_loop (Z.to_nat nelem) 0 x l.

(** ** Pointers *)

Definition proc_at (x : XDR) (loc : option A) : res (bool * option A * XDR) :=
  match loc with Some a => '(stat, a, x) ← elproc x a; mret (stat, Some a, x) | None => Fault end.

Definition xdr_reference (size : Z) (zero : A) : xdrproc (option A) := fun x pp =>
  match x_op x, pp with
  | XDR_FREE, None => mret (true, pp, x)
  | XDR_DECODE, None =>
      let '(loc, x) := mem_alloc size x in
      match loc with None => mret (false, None, x) | Some _ => proc_at x (Some zero) end
  | XDR_FREE, Some _ => '(stat, _, x) ← proc_at x pp; mret (stat, None, mem_free size x)
  | _, _ => proc_at x pp
  end.
Definition xdr_pointer (size : Z) (zero : A) : xdrproc (option A) := fun x objpp =>
  '(r, more_data, x) ← xdr_bool x (match objpp with Some _ => 1 | None => 0 end);
  if negb r then mret (false, objpp, x) else if more_data =? 0 then mret (true, None, x) else xdr_reference size zero x objpp.
End Elements.

(** ** Discriminated unions: the discriminant and the union *)

Section Union.
Context {U : Type}.
Fixpoint find_choice (dscm : Z) (choices : list (Z * xdrproc U)) (dfault : option (xdrproc U)) : option (xdrproc U) :=
  match choices with [] => dfault | (value, proc) :: choices => if value =? dscm then Some proc else find_choice dscm choices dfault end.
Definition xdr_union (choices : list (Z * xdrproc U)) (dfault : option (xdrproc U)) : xdrproc (Z * U) := fun x v =>
  let '(dscmp, unp) := v in
  '(r, dscmp, x) ← xdr_enum x dscmp;
  if negb r then mret (false, (dscmp, unp), x)
  else match find_choice dscmp choices dfault with Some proc => '(r, unp, x) ← proc x unp; mret (r, (dscmp, unp), x) | None => mret (false, (dscmp, unp), x) end.
End Union.

(** ** Structures: [if (! p(xdrs, &s.a)) return (FALSE); return (q(xdrs, &s.b));] *)

Definition xdr_both {A B} (p : xdrproc A) (q : xdrproc B) : xdrproc (A * B) := fun x v =>
  '(r, a, x) ← p x v.1;
  if (r : bool) then '(r, b, x) ← q x v.2; mret (r, (a, b), x) else mret (false, (a, v.2), x).
(** The program, version, protocol and port of a mapping. *)
Definition xdr_pmap : xdrproc (Z * (Z * (Z * Z))) := xdr_both xdr_u_long (xdr_both xdr_u_long (xdr_both xdr_u_long xdr_u_long)).
End Xdr.

(** ** Streams in memory *)

(** [x_base] and [x_private] are addresses; [x_buf] is the memory from [x_base] on. *)
Record xdrmem := Xdrmem { x_base : Z; x_private : Z; x_handy : Z; x_buf : list Z }.
Definition set_pos (private handy : Z) (s : xdrmem) : xdrmem := Xdrmem (x_base s) private handy (x_buf s).
Definition set_buf (b : list Z) (s : xdrmem) : xdrmem := Xdrmem (x_base s) (x_private s) (x_handy s) b.

Definition xdrmem_create (op : xdr_op) (addr : Z) (buf : list Z) (size : Z) : XDR xdrmem := Xdr op (Xdrmem addr addr (i32 size) buf) [].

(** The [n] bytes at [x_private], and bytes put there. *)
Definition mem_read (n : Z) (s : xdrmem) : res (list Z) :=
  let off := x_private s - x_base s in
  if (0 <=? off) && (off + n <=? Z.of_nat (length (x_buf s))) then mret (take (Z.to_nat n) (drop (Z.to_nat off) (x_buf s))) else Fault.
Definition mem_write (b : list Z) (s : xdrmem) : res xdrmem :=
  let off := x_private s - x_base s in
  if (0 <=? off) && (off + Z.of_nat (length b) <=? Z.of_nat (length (x_buf s))) then
    mret (set_buf (take (Z.to_nat off) (x_buf s) ++ b ++ drop (Z.to_nat off + length b) (x_buf s)) s)
  else Fault.

(** The word, most significant byte first. *)
Definition word_of (b : list Z) : Z := i32 (foldl (fun w c => w * 256 + c) 0 b).
Definition word_bytes (v : Z) : list Z := [u8 (Z.shiftr v 24); u8 (Z.shiftr v 16); u8 (Z.shiftr v 8); u8 v].

Definition xdrmem_getlong (s : xdrmem) : res (option Z * xdrmem) :=
  let s := set_pos (x_private s) (i32 (x_handy s - 4)) s in
  if x_handy s <? 0 then mret (None, s)
  else b ← mem_read 4 s; mret (Some (word_of b), set_pos (x_private s + 4) (x_handy s) s).
Definition xdrmem_putlong (l : Z) (s : xdrmem) : res (bool * xdrmem) :=
  let s := set_pos (x_private s) (i32 (x_handy s - 4)) s in
  if x_handy s <? 0 then mret (false, s)
  else s ← mem_write (word_bytes l) s; mret (true, set_pos (x_private s + 4) (x_handy s) s).
Definition xdrmem_getbytes (len : Z) (s : xdrmem) : res (option (list Z) * xdrmem) :=
  let s := set_pos (x_private s) (i32 (x_handy s - len)) s in
  if x_handy s <? 0 then mret (None, s)
  else b ← mem_read len s; mret (Some b, set_pos (x_private s + len) (x_handy s) s).
Definition xdrmem_putbytes (b : list Z) (s : xdrmem) : res (bool * xdrmem) :=
  let len := Z.of_nat (length b) in
  let s := set_pos (x_private s) (i32 (x_handy s - len)) s in
  if x_handy s <? 0 then mret (false, s)
  else s ← mem_write b s; mret (true, set_pos (x_private s + len) (x_handy s) s).
Definition xdrmem_getpos (s : xdrmem) : Z := u32 (x_private s - x_base s).
Definition xdrmem_setpos (pos : Z) (s : xdrmem) : bool * xdrmem :=
  let newaddr := x_base s + pos in
  let lastaddr := x_private s + x_handy s in
  if i32 lastaddr <? i32 newaddr then (false, s) else (true, set_pos newaddr (i32 (lastaddr - newaddr)) s).
(** The address, or 0. *)
Definition xdrmem_inline (len : Z) (s : xdrmem) : Z * xdrmem :=
  if len <=? x_handy s then (x_private s, set_pos (x_private s + len) (i32 (x_handy s - len)) s) else (0, s).

#[export] Instance xdrmem_ops : xdr_ops xdrmem := {
  x_getlong := xdrmem_getlong; x_putlong := xdrmem_putlong; x_getbytes := xdrmem_getbytes; x_putbytes := xdrmem_putbytes
}.
