(* ===== verification/XdrThms.v ===== *)
(** * External data representation: what is encoded is decoded

    The class [XdrStream]: what a stream promises to the routines.  A [Codec] is a routine that encodes the representation of a value,
    decodes it from there into storage it allocates, decodes or refuses any other bytes, and frees what it has allocated.  The
    routines are codecs for every type that is built from them; a stream in memory is an [XdrStream]. *)

From S2P Require Import Prelude Xdr.
From stdpp Require Import prelude list numbers strings.
From Stdlib Require Import ZArith Lia.

Local Open Scope Z_scope.
Local Open Scope kern_scope.

Definition is_byte (b : Z) : Prop := 0 <= b < 256.
Definition is_int (v : Z) : Prop := -2147483648 <= v < 2147483648.
Notation len l := (Z.of_nat (length l)).

(** Room for so many bytes, or without end. *)
Definition enough (r : option Z) (n : Z) : bool := match r with Some r => n <=? r | None => true end.
Definition less (r : option Z) (n : Z) : option Z := match r with Some r => Some (r - n) | None => None end.
Lemma enough_less r n m : 0 <= n -> 0 <= m -> enough r (n + m) = enough r n && enough (less r n) m.
Proof. destruct r as [r|]; [|done]. cbn. intros. destruct (Z.leb_spec (n + m) r), (Z.leb_spec n r), (Z.leb_spec m (r - n)); done || lia. Qed.
Lemma less_less r n m : less (less r n) m = less r (n + m).
Proof. destruct r; [|done]. cbn. f_equal. lia. Qed.

(** What is in a stream: [out] has been written and there is [room] for more; [input] is to be read. *)
Class XdrStream (S : Type) `{!xdr_ops S} := {
  good : S -> Prop; out : S -> list Z; room : S -> option Z; input : S -> list Z;
  room_nonneg s : good s -> enough (room s) 0 = true;
  putlong_room s v : good s -> is_int v -> enough (room s) 4 = true -> exists s', x_putlong v s = Ok (true, s') /\ good s' /\ out s' = out s ++ word_bytes v /\ room s' = less (room s) 4;
  putlong_full s v : good s -> enough (room s) 4 = false -> exists s', x_putlong v s = Ok (false, s');
  putbytes_room s b : good s -> enough (room s) (len b) = true -> Forall is_byte b -> len b < 2147483648 -> exists s', x_putbytes b s = Ok (true, s') /\ good s' /\ out s' = out s ++ b /\ room s' = less (room s) (len b);
  putbytes_full s b : good s -> enough (room s) (len b) = false -> len b < 2147483648 -> exists s', x_putbytes b s = Ok (false, s');
  getlong_word s v rest : good s -> is_int v -> input s = word_bytes v ++ rest -> exists s', x_getlong s = Ok (Some v, s') /\ good s' /\ input s' = rest;
  getlong_any s : good s -> exists r s', x_getlong s = Ok (r, s') /\ forall v, r = Some v -> is_int v /\ good s';
  getbytes_front s b rest : good s -> input s = b ++ rest -> exists s', x_getbytes (len b) s = Ok (Some b, s') /\ good s' /\ input s' = rest;
  getbytes_any s n : good s -> 0 <= n < 2147483648 -> exists r s', x_getbytes n s = Ok (r, s') /\ forall b, r = Some b -> len b = n /\ Forall is_byte b /\ good s'
}.

(** What malloc() promises for a block. *)
Class Malloc (malloc : list memev -> Z -> option (list Z)) : Prop := malloc_block l n b : malloc l n = Some b -> 0 <= n -> len b = n /\ Forall is_byte b.
Definition plenty (malloc : list memev -> Z -> option (list Z)) : Prop := forall l n, malloc l n <> None.

(** ** Words *)

Lemma word_bytes_length v : length (word_bytes v) = 4%nat.
Proof. done. Qed.
Lemma word_bytes_bytes v : Forall is_byte (word_bytes v).
Proof. unfold word_bytes. repeat constructor; apply wrapu_range; lia. Qed.
Lemma word_bytes_add v k : word_bytes (v + k * 4294967296) = word_bytes v.
Proof.
  unfold word_bytes, wrapu. rewrite !Z.shiftr_div_pow2 by lia. change (2 ^ 24) with 16777216. change (2 ^ 16) with 65536. change (2 ^ 8) with 256.
  replace (v + k * 4294967296) with (v + k * 256 * 16777216) at 1 by lia. replace (v + k * 4294967296) with (v + k * 65536 * 65536) at 1 by lia. replace (v + k * 4294967296) with (v + k * 16777216 * 256) by lia.
  rewrite !Z.div_add by lia. replace (k * 65536) with (k * 256 * 256) by lia. replace (k * 16777216) with (k * 65536 * 256) at 1 by lia. by rewrite !Z.mod_add by lia.
Qed.
Lemma i32_add v : exists k, i32 v = v + k * 4294967296.
Proof. unfold wraps. change (2 ^ 32) with 4294967296. change (2 ^ (32 - 1)) with 2147483648. exists (- ((v + 2147483648) / 4294967296)). pose proof (Z.div_mod (v + 2147483648) 4294967296 ltac:(lia)). lia. Qed.
Lemma word_bytes_i32 v : word_bytes (i32 v) = word_bytes v.
Proof. destruct (i32_add v) as [k ->]. apply word_bytes_add. Qed.
Lemma i32_int v : is_int (i32 v).
Proof. pose proof (wraps_range 32 v ltac:(lia)). unfold is_int. change (2 ^ (32 - 1)) with 2147483648 in *. lia. Qed.
Lemma i32_id v : is_int v -> i32 v = v.
Proof. intros H. by apply wraps_small. Qed.
Lemma word_of_bytes v : is_int v -> word_of (word_bytes v) = v.
Proof.
  intros Hv. unfold word_of. cbn [word_bytes foldl]. unfold wrapu. rewrite !Z.shiftr_div_pow2 by lia. change (2 ^ 24) with (256 * (256 * 256)). change (2 ^ 16) with (256 * 256). change (2 ^ 8) with 256. rewrite <- !Z.div_div by lia.
  pose proof (Z.div_mod v 256 ltac:(lia)) as E0. set (q1 := v / 256) in *. pose proof (Z.div_mod q1 256 ltac:(lia)) as E1. set (q2 := q1 / 256) in *. pose proof (Z.div_mod q2 256 ltac:(lia)) as E2. set (q3 := q2 / 256) in *.
  pose proof (Z.div_mod q3 256 ltac:(lia)) as E3. match goal with |- i32 ?e = _ => replace e with (v + - (q3 / 256) * 4294967296) by lia end.
  unfold wraps. change (2 ^ 32) with 4294967296. change (2 ^ (32 - 1)) with 2147483648. replace (v + _ * _ + 2147483648) with (v + 2147483648 + - (q3 / 256) * 4294967296) by lia. rewrite Z.mod_add by lia. rewrite Z.mod_small by (unfold is_int in Hv; lia). lia.
Qed.

Section Codecs.
Context {S : Type} `{HX : XdrStream S} (malloc : list memev -> Z -> option (list Z)) `{HM : !Malloc malloc}.
Notation XDR := (XDR S).
Notation xdrproc := (xdrproc S).
Implicit Types x : XDR.

Definition ready (op : xdr_op) x : Prop := x_op x = op /\ good (x_str x).
Definition fits x (b : list Z) : bool := enough (room (x_str x)) (len b).
Definition wrote x x' (b : list Z) : Prop := ready XDR_ENCODE x' /\ x_mem x' = x_mem x /\ out (x_str x') = out (x_str x) ++ b /\ room (x_str x') = less (room (x_str x)) (len b).
Definition took x x' (rest : list Z) (ns : list Z) : Prop := ready XDR_DECODE x' /\ input (x_str x') = rest /\ x_mem x' = x_mem x ++ map MemAlloc ns.
Definition freed x x' (ns : list Z) : Prop := x_op x' = XDR_FREE /\ x_str x' = x_str x /\ exists l, l ≡ₚ ns /\ x_mem x' = x_mem x ++ map MemFree l.

(** [rep v a]: the C object [v] represents [a], whose encoding is [enc a]; [own v]: the sizes of its blocks; [fresh v]: it may be decoded into. *)
Record Codec {A B} (p : xdrproc A) (fresh : A -> Prop) (rep : A -> B -> Prop) (enc : B -> list Z) (own : A -> list Z) : Prop := {
  encodes x v a : ready XDR_ENCODE x -> rep v a -> exists x', p x v = Ok (fits x (enc a), v, x') /\ (fits x (enc a) = true -> wrote x x' (enc a));
  decodes x v0 w a rest : plenty malloc -> ready XDR_DECODE x -> fresh v0 -> rep w a -> input (x_str x) = enc a ++ rest ->
    exists v x', p x v0 = Ok (true, v, x') /\ rep v a /\ took x x' rest (own v);
  robust x v0 : ready XDR_DECODE x -> fresh v0 -> exists b v x', p x v0 = Ok (b, v, x') /\ (b = true -> ready XDR_DECODE x' /\ exists a, rep v a);
  frees x v a : x_op x = XDR_FREE -> rep v a -> exists v' x', p x v = Ok (true, v', x') /\ fresh v' /\ freed x x' (own v)
}.

(** ** Numbers *)

Lemma PUTLONG_spec x v : ready XDR_ENCODE x -> is_int v -> exists x', XDR_PUTLONG v x = Ok (fits x (word_bytes v), x') /\ (fits x (word_bytes v) = true -> wrote x x' (word_bytes v)).
Proof.
  intros [Ho Hg] Hv. unfold XDR_PUTLONG, fits. rewrite word_bytes_length. change (Z.of_nat 4) with 4. destruct (enough (room (x_str x)) 4) eqn:E.
  - destruct (putlong_room (x_str x) v) as (s' & -> & Hg' & Hout & Hr); [done..|]. kstep. by exists (set_str s' x).
  - destruct (putlong_full (x_str x) v) as (s' & ->); [done..|]. kstep. by exists (set_str s' x).
Qed.
Lemma GETLONG_word x v rest : ready XDR_DECODE x -> is_int v -> input (x_str x) = word_bytes v ++ rest -> exists x', XDR_GETLONG x = Ok (Some v, x') /\ took x x' rest [].
Proof. intros [Ho Hg] Hv Hi. unfold XDR_GETLONG. destruct (getlong_word (x_str x) v rest) as (s' & -> & Hg' & Hi'); [done..|]. kstep. exists (set_str s' x). split; [done|]. split; [done|]. split; [done|]. by rewrite app_nil_r. Qed.
Lemma GETLONG_any x : ready XDR_DECODE x -> exists r x', XDR_GETLONG x = Ok (r, x') /\ x_op x' = XDR_DECODE /\ x_mem x' = x_mem x /\ forall v, r = Some v -> is_int v /\ good (x_str x').
Proof. intros [Ho Hg]. unfold XDR_GETLONG. destruct (getlong_any (x_str x)) as (r & s' & -> & Hv); [done|]. kstep. by exists r, (set_str s' x). Qed.

Lemma freed_nil x : x_op x = XDR_FREE -> freed x x [].
Proof. intros H. split; [done|]. split; [done|]. exists []. split; [done|]. by rewrite app_nil_r. Qed.

(** A routine that sends [f v] and makes [g l] of what comes. *)
Lemma number_codec (p : xdrproc Z) (f g code : Z -> Z) (rep : Z -> Z -> Prop) :
  (forall x v, x_op x = XDR_ENCODE -> (exists a, rep v a) -> p x v = ('(r, x) ← XDR_PUTLONG (f v) x; mret (r, v, x))) ->
  (forall x v, x_op x = XDR_DECODE -> p x v = ('(r, x) ← XDR_GETLONG x; mret (match r with Some l => (true, g l, x) | None => (false, v, x) end))) ->
  (forall x v, x_op x = XDR_FREE -> (exists a, rep v a) -> p x v = Ok (true, v, x)) ->
  (forall v a, rep v a -> is_int (f v) /\ code a = f v /\ rep (g (f v)) a) -> (forall l, is_int l -> exists a, rep (g l) a) ->
  Codec p (fun _ => True) rep (fun a => word_bytes (code a)) (fun _ => []).
Proof.
  intros He Hd Hf Hc Hg. split.
  - intros x v a Hr Hv. rewrite He by (by apply Hr || by exists a). destruct (Hc v a Hv) as (Hi & -> & _). destruct (PUTLONG_spec x (f v) Hr Hi) as (x' & -> & Hw). kstep. by exists x'.
  - intros x v0 w a rest _ Hr _ Hw Hin. destruct (Hc w a Hw) as (Hi & E & Hrep). rewrite E in Hin. rewrite Hd by apply Hr. destruct (GETLONG_word x _ _ Hr Hi Hin) as (x' & -> & Ht). kstep. by exists (g (f w)), x'.
  - intros x v0 Hr _. rewrite Hd by apply Hr. destruct (GETLONG_any x Hr) as (r & x' & -> & Ho & _ & Hv). kstep. destruct r as [l|].
    + destruct (Hv l eq_refl) as [Hi Hgood]. exists true, (g l), x'. split; [done|]. intros _. split; [done|]. by apply Hg.
    + by exists false, v0, x'.
  - intros x v a Ho Hv. rewrite Hf by (done || by exists a). exists v, x. split; [done|]. split; [done|]. by apply freed_nil.
Qed.

Definition in_range (lo hi : Z) (v a : Z) : Prop := v = a /\ lo <= a < hi.

Lemma fits_nil x : good (x_str x) -> fits x [] = true.
Proof. intros H. by apply room_nonneg in H. Qed.
Lemma wrote_nil x : ready XDR_ENCODE x -> wrote x x [].
Proof. intros H. split; [done|]. split; [done|]. rewrite app_nil_r. split; [done|]. destruct (room (x_str x)); [|done]. cbn. by rewrite Z.sub_0_r. Qed.
Lemma void_codec : Codec (B := unit) xdr_void (fun _ => True) (fun _ _ => True) (fun _ => []) (fun _ => []).
Proof.
  split.
  - intros x v a Hr _. exists x. rewrite fits_nil by apply Hr. split; [done|]. intros _. by apply wrote_nil.
  - intros x v0 w a rest _ Hr _ _ Hi. exists v0, x. split; [done|]. split; [done|]. split; [done|]. split; [done|]. by rewrite app_nil_r.
  - intros x v0 Hr _. exists true, v0, x. split; [done|]. intros _. split; [done|]. by exists tt.
  - intros x v a Ho _. exists v, x. split; [done|]. split; [done|]. by apply freed_nil.
Qed.

Lemma long_codec : Codec xdr_long (fun _ => True) (in_range (-2147483648) 2147483648) word_bytes (fun _ => []).
Proof.
  apply (number_codec _ id id id); try (intros x v Ho; unfold xdr_long; rewrite Ho; done).
  - intros v a [-> H]. done.
  - intros l H. by exists l.
Qed.
Lemma u_long_codec : Codec xdr_u_long (fun _ => True) (in_range 0 4294967296) word_bytes (fun _ => []).
Proof.
  cut (Codec xdr_u_long (fun _ => True) (in_range 0 4294967296) (fun a => word_bytes (i32 a)) (fun _ => [])).
  { intros [H1 H2 H3 H4]. split; try done; intros x v; intros; [setoid_rewrite <- word_bytes_i32|eapply H2; rewrite ?word_bytes_i32]; eauto. }
  apply (number_codec _ (fun v => i32 v) (fun v => u32 v)); try (intros x v Ho; unfold xdr_u_long; rewrite Ho; done).
  - intros v a [-> H]. split; [apply i32_int|]. split; [done|]. split; [|done]. destruct (i32_add a) as [k ->]. unfold wrapu. rewrite Z.mod_add by lia. by apply Z.mod_small.
  - intros l H. exists (u32 l). split; [done|]. apply wrapu_range. lia.
Qed.
Lemma short_codec : Codec xdr_short (fun _ => True) (in_range (-32768) 32768) word_bytes (fun _ => []).
Proof.
  apply (number_codec _ id (fun l => i16 l) id); try (intros x v Ho; unfold xdr_short; rewrite Ho; done).
  - intros v a [-> H]. split; [unfold is_int, id; lia|]. split; [done|]. split; [|done]. by apply wraps_small.
  - intros l H. exists (i16 l). split; [done|]. apply (wraps_range 16). lia.
Qed.
Lemma u_short_codec : Codec xdr_u_short (fun _ => True) (in_range 0 65536) word_bytes (fun _ => []).
Proof.
  apply (number_codec _ id (fun l => u16 l) id); try (intros x v Ho; unfold xdr_u_short; rewrite Ho; done).
  - intros v a [-> H]. split; [unfold is_int, id; lia|]. split; [done|]. split; [|done]. by apply wrapu_small.
  - intros l H. exists (u16 l). split; [done|]. apply (wrapu_range 16). lia.
Qed.
Lemma char_codec : Codec xdr_char (fun _ => True) (in_range (-128) 128) word_bytes (fun _ => []).
Proof.
  apply (number_codec _ id (fun l => i8 l) id).
  - intros x v Ho (a & -> & Ha). unfold xdr_char, xdr_int, xdr_long. rewrite Ho. unfold id. destruct (XDR_PUTLONG a x) as [[r x']| |]; kstep; try done. destruct r; [|done]. by rewrite wraps_small.
  - intros x v Ho. unfold xdr_char, xdr_int, xdr_long. rewrite Ho. destruct (XDR_GETLONG x) as [[[l|] x']| |]; done.
  - intros x v Ho (a & -> & Ha). unfold xdr_char, xdr_int, xdr_long. rewrite Ho. kstep. by rewrite wraps_small.
  - intros v a [-> H]. split; [unfold is_int, id; lia|]. split; [done|]. split; [|done]. by apply wraps_small.
  - intros l H. exists (i8 l). split; [done|]. apply (wraps_range 8). lia.
Qed.
(** Any number but 0 is TRUE. *)
Definition truth (v a : Z) : Prop := a = if v =? 0 then 0 else 1.
Lemma bool_codec : Codec xdr_bool (fun _ => True) truth word_bytes (fun _ => []).
Proof.
  apply (number_codec _ (fun v => if v =? 0 then 0 else 1) (fun l => if l =? 0 then 0 else 1) id); try (intros x v Ho; unfold xdr_bool; rewrite Ho; done).
  - intros v a ->. by destruct (v =? 0).
  - intros l H. by eexists.
Qed.

(** ** One after the other *)

Lemma fits_app x x' a b : fits x a = true -> wrote x x' a -> fits x (a ++ b) = fits x' b.
Proof. intros Hf (_ & _ & _ & Hr). unfold fits in *. by rewrite length_app, Nat2Z.inj_add, Hr, enough_less, Hf by lia. Qed.
Lemma fits_first x a b : fits x (a ++ b) = true -> fits x a = true.
Proof. unfold fits. rewrite length_app, Nat2Z.inj_add, enough_less by lia. by destruct (enough _ _). Qed.
Lemma fits_none x a b : fits x a = false -> fits x (a ++ b) = false.
Proof. intros H. apply not_true_iff_false. intros E%fits_first. congruence. Qed.
Lemma wrote_app x x1 x2 a b : wrote x x1 a -> wrote x1 x2 b -> wrote x x2 (a ++ b).
Proof. intros (_ & M1 & O1 & R1) (R & M2 & O2 & R2). split; [done|]. split; [congruence|]. split; [rewrite O2, O1; by rewrite app_assoc|]. by rewrite length_app, R2, R1, less_less, Nat2Z.inj_add. Qed.
Lemma took_app x x1 x2 i1 i2 l1 l2 : took x x1 i1 l1 -> took x1 x2 i2 l2 -> took x x2 i2 (l1 ++ l2).
Proof. intros (_ & _ & M1) (R & I & M2). split; [done|]. split; [done|]. by rewrite M2, M1, map_app, app_assoc. Qed.
Lemma freed_app x x1 x2 l1 l2 : freed x x1 l1 -> freed x1 x2 l2 -> freed x x2 (l1 ++ l2).
Proof. intros (_ & S1 & m1 & P1 & M1) (O & S2 & m2 & P2 & M2). split; [done|]. split; [congruence|]. exists (m1 ++ m2). split; [by rewrite P1, P2|]. by rewrite M2, M1, map_app, app_assoc. Qed.

(** ** Bytes *)

Lemma PUTBYTES_spec x b : ready XDR_ENCODE x -> Forall is_byte b -> len b < 2147483648 -> exists x', XDR_PUTBYTES b x = Ok (fits x b, x') /\ (fits x b = true -> wrote x x' b).
Proof.
  intros [Ho Hg] Hb Hl. unfold XDR_PUTBYTES, fits. destruct (enough (room (x_str x)) (len b)) eqn:E.
  - destruct (putbytes_room (x_str x) b) as (s' & -> & Hg' & Hout & Hr); [done..|]. kstep. by exists (set_str s' x).
  - destruct (putbytes_full (x_str x) b) as (s' & ->); [done..|]. kstep. by exists (set_str s' x).
Qed.
Lemma GETBYTES_front x b rest : ready XDR_DECODE x -> input (x_str x) = b ++ rest -> exists x', XDR_GETBYTES (len b) x = Ok (Some b, x') /\ took x x' rest [].
Proof. intros [Ho Hg] Hi. unfold XDR_GETBYTES. destruct (getbytes_front (x_str x) b rest) as (s' & -> & Hg' & Hi'); [done..|]. kstep. exists (set_str s' x). split; [done|]. split; [done|]. split; [done|]. by rewrite app_nil_r. Qed.
Lemma GETBYTES_any x n : ready XDR_DECODE x -> 0 <= n < 2147483648 -> exists r x', XDR_GETBYTES n x = Ok (r, x') /\ forall b, r = Some b -> len b = n /\ Forall is_byte b /\ ready XDR_DECODE x'.
Proof.
  intros [Ho Hg] Hn. unfold XDR_GETBYTES. destruct (getbytes_any (x_str x) n) as (r & s' & -> & Hv); [done..|]. kstep. exists r, (set_str s' x). split; [done|]. intros b Hb. destruct (Hv b Hb) as (? & ? & ?). done.
Qed.

(** Zeros up to a multiple of four bytes. *)
Definition pad (n : Z) : list Z := replicate (Z.to_nat ((- n) mod 4)) 0.
Definition enc_opaque (l : list Z) : list Z := l ++ pad (len l).
(** The storage [v] has the bytes [a] in front. *)
Definition holds (n : Z) (v a : list Z) : Prop := n <= len v /\ a = take (Z.to_nat n) v /\ Forall is_byte a.

Lemma rndup_pad n : (if 0 <? n mod 4 then 4 - n mod 4 else n mod 4) = (- n) mod 4.
Proof. destruct (Z.ltb_spec 0 (n mod 4)); Z.to_euclidean_division_equations; lia. Qed.
Lemma pad_len n : len (pad n) = (- n) mod 4.
Proof. unfold pad. rewrite length_replicate. Z.to_euclidean_division_equations; lia. Qed.
Lemma pad_bytes n : Forall is_byte (pad n).
Proof. apply Forall_replicate. unfold is_byte. lia. Qed.
Lemma holds_len n v a : 0 <= n -> holds n v a -> len a = n.
Proof. intros Hn (Hl & -> & _). rewrite length_take. lia. Qed.

Lemma opaque_codec n : 0 <= n < 2147483648 -> Codec (xdr_opaque n) (fun v => n <= len v) (holds n) enc_opaque (fun _ => []).
Proof.
  intros Hn. pose proof (Z.mod_pos_bound (- n) 4 ltac:(lia)) as Hp. split; unfold xdr_opaque, BYTES_PER_XDR_UNIT; rewrite rndup_pad.
  - intros x v a Hr Hv. pose proof (holds_len n v a ltac:(lia) Hv) as Hla. destruct Hv as (Hl & Ea & Hb). unfold enc_opaque. rewrite Hla. destruct (Z.eqb_spec n 0) as [->|Hne].
    + exists x. destruct a; [|done]. change (pad 0) with (@nil Z). rewrite app_nil_l, fits_nil by apply Hr. split; [done|]. intros _. by apply wrote_nil.
    + assert (x_op x = XDR_ENCODE) as -> by apply Hr. unfold bytes_at. rewrite (proj2 (Z.leb_le _ _)) by done. rewrite <- Ea. kstep.
      destruct (PUTBYTES_spec x a Hr Hb ltac:(lia)) as (x1 & -> & Hw). kstep. destruct (fits x a) eqn:Hf; cbn [negb]; [|exists x1; rewrite fits_none by done; by split].
      rewrite (fits_app x x1) by (done || by apply Hw). specialize (Hw eq_refl). assert (ready XDR_ENCODE x1) as Hr1 by apply Hw. destruct (Z.eqb_spec ((- n) mod 4) 0) as [E|E].
      * exists x1. assert (pad n = []) as -> by (unfold pad; by rewrite E). rewrite fits_nil, app_nil_r by apply Hr1. done.
      * destruct (PUTBYTES_spec x1 (pad n) Hr1 (pad_bytes n) ltac:(rewrite pad_len; lia)) as (x2 & Hput & Hw2). unfold pad in Hput at 1. rewrite Hput. kstep. exists x2. split; [done|]. intros Hf2. by apply (wrote_app x x1), Hw2.
  - intros x v0 w a rest _ Hr Hf Hw Hi. pose proof (holds_len n w a ltac:(lia) Hw) as Hla. destruct Hw as (_ & _ & Hb). unfold enc_opaque in Hi. rewrite Hla, <- app_assoc in Hi. destruct (Z.eqb_spec n 0) as [->|Hne].
    + destruct a; [|done]. exists v0, x. split; [done|]. split; [done|]. split; [done|]. split; [done|]. by rewrite app_nil_r.
    + assert (x_op x = XDR_DECODE) as -> by apply Hr. destruct (GETBYTES_front x a _ Hr Hi) as (x1 & Hget1 & Ht). rewrite Hla in Hget1. rewrite Hget1. kstep. unfold copy_to. rewrite (proj2 (Nat.leb_le _ _)) by lia. kstep.
      assert (holds n (a ++ drop (length a) v0) a) as Hh by (split; [rewrite length_app, length_drop; lia|]; split; [|done]; rewrite take_app_length' by lia; done). destruct (Z.eqb_spec ((- n) mod 4) 0) as [E|E].
      * exists (a ++ drop (length a) v0), x1. split; [done|]. split; [done|]. assert (pad n = []) as Ep by (unfold pad; by rewrite E). by rewrite Ep in Ht.
      * assert (ready XDR_DECODE x1) as Hr1 by apply Ht. assert (input (x_str x1) = pad n ++ rest) as Hi1 by apply Ht. destruct (GETBYTES_front x1 _ _ Hr1 Hi1) as (x2 & Hget & Ht2). rewrite pad_len in Hget. rewrite Hget. kstep.
        exists (a ++ drop (length a) v0), x2. split; [done|]. split; [done|]. by apply (took_app x x1 x2 (pad n ++ rest) rest [] []).
  - intros x v0 Hr Hf. destruct (Z.eqb_spec n 0) as [->|Hne]; [exists true, v0, x; split; [done|]; intros _; split; [done|]; by exists []|].
    assert (x_op x = XDR_DECODE) as -> by apply Hr. destruct (GETBYTES_any x n Hr Hn) as (r & x1 & -> & Hv). kstep. destruct r as [b|]; [|by exists false, v0, x1]. destruct (Hv b eq_refl) as (Hlb & Hb & Hr1).
    unfold copy_to. rewrite (proj2 (Nat.leb_le _ _)) by lia. kstep. assert (holds n (b ++ drop (length b) v0) b) as Hh by (split; [rewrite length_app, length_drop; lia|]; split; [|done]; rewrite take_app_length' by lia; done).
    destruct (Z.eqb_spec ((- n) mod 4) 0) as [E|E]; [exists true, (b ++ drop (length b) v0), x1; split; [done|]; intros _; split; [done|]; by exists b|].
    destruct (GETBYTES_any x1 ((- n) mod 4) Hr1 ltac:(lia)) as (r & x2 & -> & Hv2). kstep. exists (match r with Some _ => true | None => false end), (b ++ drop (length b) v0), x2. split; [done|]. intros Hs. destruct r as [b2|]; [|done].
    destruct (Hv2 b2 eq_refl) as (_ & _ & Hr2). split; [done|]. by exists b.
  - intros x v a Ho Hv. destruct (Z.eqb_spec n 0); [|rewrite Ho]; exists v, x; (split; [done|]); (split; [apply Hv|by apply freed_nil]).
Qed.

(** What lies behind the bytes that are read stays. *)
Lemma opaque_behind n x v0 v x' : 0 <= n < 2147483648 -> ready XDR_DECODE x -> xdr_opaque n x v0 = Ok (true, v, x') -> n <= len v0 -> drop (Z.to_nat n) v = drop (Z.to_nat n) v0.
Proof.
  intros Hn Hr H Hl. revert H. unfold xdr_opaque. destruct (n =? 0); [by intros [= <- <-]|]. assert (x_op x = XDR_DECODE) as -> by apply Hr. destruct (GETBYTES_any x n Hr Hn) as (r & x1 & -> & Hv). kstep.
  destruct r as [b|]; [|done]. destruct (Hv b eq_refl) as (Hlb & _ & _). unfold copy_to. rewrite (proj2 (Nat.leb_le _ _)) by lia. kstep. assert (drop (Z.to_nat n) (b ++ drop (length b) v0) = drop (Z.to_nat n) v0) as E.
  { rewrite drop_app_length' by lia. f_equal. lia. }
  destruct (_ =? 0); [by intros [= <- <-]|]. destruct (XDR_GETBYTES _ x1) as [[r x2]| |]; kstep; [|done..]. by intros [= _ <- <-].
Qed.

Lemma mem_alloc_spec n x : 0 <= n -> match mem_alloc malloc n x with
  | (Some b, x') => len b = n /\ Forall is_byte b /\ x_op x' = x_op x /\ x_str x' = x_str x /\ x_mem x' = x_mem x ++ [MemAlloc n]
  | (None, x') => x' = x /\ ~ plenty malloc end.
Proof.
  intros Hn. unfold mem_alloc. destruct (malloc (x_mem x) n) as [b|] eqn:E; [|split; [done|]; intros Hp; by apply (Hp (x_mem x) n)]. destruct (malloc_block _ _ _ E Hn). done.
Qed.
Lemma ready_alloc x x' : ready XDR_DECODE x -> x_op x' = x_op x -> x_str x' = x_str x -> ready XDR_DECODE x'.
Proof. intros [Ho Hg] Eo Es. split; [by rewrite Eo|by rewrite Es]. Qed.

(** ** Structures *)

Lemma both_codec {A1 B1 A2 B2} p q f1 f2 (r1 : A1 -> B1 -> Prop) (r2 : A2 -> B2 -> Prop) e1 e2 o1 o2 : Codec p f1 r1 e1 o1 -> Codec q f2 r2 e2 o2 ->
  Codec (xdr_both p q) (fun v => f1 v.1 /\ f2 v.2) (fun v a => r1 v.1 a.1 /\ r2 v.2 a.2) (fun a => e1 a.1 ++ e2 a.2) (fun v => o1 v.1 ++ o2 v.2).
Proof.
  intros P Q. split; unfold xdr_both.
  - intros x [v1 v2] [a1 a2] Hr [H1 H2]. cbn [fst snd] in *. destruct (encodes _ _ _ _ _ P x v1 a1 Hr H1) as (x1 & -> & Hw). kstep. destruct (fits x (e1 a1)) eqn:Hf; [|exists x1; rewrite fits_none by done; by split].
    specialize (Hw eq_refl). destruct (encodes _ _ _ _ _ Q x1 v2 a2 ltac:(apply Hw) H2) as (x2 & -> & Hw2). kstep. rewrite (fits_app x x1) by done. exists x2. split; [done|]. intros Hf2. by apply (wrote_app x x1), Hw2.
  - intros x [u1 u2] [w1 w2] [a1 a2] rest Hp Hr [F1 F2] [H1 H2] Hi. cbn [fst snd] in *. rewrite <- app_assoc in Hi. destruct (decodes _ _ _ _ _ P x u1 w1 a1 _ Hp Hr F1 H1 Hi) as (v1 & x1 & -> & R1 & T1). kstep.
    destruct (decodes _ _ _ _ _ Q x1 u2 w2 a2 rest Hp ltac:(apply T1) F2 H2 ltac:(apply T1)) as (v2 & x2 & -> & R2 & T2). kstep. exists (v1, v2), x2. split; [done|]. split; [done|]. cbn. by apply (took_app x x1 x2 (e2 a2 ++ rest)).
  - intros x [u1 u2] Hr [F1 F2]. cbn [fst snd] in *. destruct (robust _ _ _ _ _ P x u1 Hr F1) as (b1 & v1 & x1 & -> & H1). kstep. destruct b1; [|by exists false, (v1, u2), x1]. destruct (H1 eq_refl) as [Hr1 [a1 R1]].
    destruct (robust _ _ _ _ _ Q x1 u2 Hr1 F2) as (b2 & v2 & x2 & -> & H2). kstep. exists b2, (v1, v2), x2. split; [done|]. intros ->. destruct (H2 eq_refl) as [Hr2 [a2 R2]]. split; [done|]. by exists (a1, a2).
  - intros x [v1 v2] [a1 a2] Ho [H1 H2]. cbn [fst snd] in *. destruct (frees _ _ _ _ _ P x v1 a1 Ho H1) as (v1' & x1 & -> & F1 & D1). kstep. destruct (frees _ _ _ _ _ Q x1 v2 a2 ltac:(apply D1) H2) as (v2' & x2 & -> & F2 & D2). kstep.
    exists (v1', v2'), x2. split; [done|]. split; [done|]. by apply (freed_app x x1).
Qed.

(** ** Counted bytes *)

Definition enc_counted (l : list Z) : list Z := word_bytes (len l) ++ enc_opaque l.
Definition bytes_rep (max : Z) (v : option (list Z) * Z) (a : list Z) : Prop := v.2 = len a /\ len a <= max /\ match v.1 with Some b => holds v.2 b a | None => a = [] end.
Definition bytes_own (v : option (list Z) * Z) : list Z := match v.1 with Some _ => [v.2] | None => [] end.

Lemma count_in_range max (n : nat) : Z.of_nat n <= max -> max < 4294967296 -> in_range 0 4294967296 (Z.of_nat n) (Z.of_nat n).
Proof. intros. split; [done|]. lia. Qed.

Lemma bytes_codec max : 0 <= max < 2147483648 -> Codec (xdr_bytes malloc max) (fun v => v.1 = None) (bytes_rep max) enc_counted bytes_own.
Proof.
  intros Hmax. split; unfold xdr_bytes, xdr_u_int.
  - intros x [ptr n] a Hr (E & Hl & Hp). cbn [fst snd] in *. subst n. destruct (encodes _ _ _ _ _ u_long_codec x _ _ Hr (count_in_range max _ Hl ltac:(lia))) as (x1 & -> & Hw). kstep. unfold enc_counted.
    destruct (fits x (word_bytes (len a))) eqn:Hf; cbn [negb]; [|exists x1; rewrite fits_none by done; by split]. specialize (Hw eq_refl). rewrite (fits_app x x1) by done. rewrite (proj2 (Z.ltb_ge _ _)) by done. cbn [andb].
    assert (ready XDR_ENCODE x1) as Hr1 by apply Hw. assert (x_op x1 = XDR_ENCODE) as -> by apply Hr1. destruct ptr as [b|]; cbn [opaque_at].
    + destruct (encodes _ _ _ _ _ (opaque_codec (len a) ltac:(lia)) x1 b a Hr1 Hp) as (x2 & -> & Hw2). kstep. exists x2. split; [done|]. intros Hf2. by apply (wrote_app x x1), Hw2.
    + subst a. exists x1. change (enc_opaque []) with (@nil Z). rewrite fits_nil by apply Hr1. split; [done|]. intros _. by rewrite app_nil_r.
  - intros x [ptr n] [wp wn] a rest Hp Hr Hf (E & Hl & Hw) Hi. cbn [fst snd] in *. subst ptr wn. unfold enc_counted in Hi. rewrite <- app_assoc in Hi.
    destruct (decodes _ _ _ _ _ u_long_codec x n _ _ _ Hp Hr I (count_in_range max _ Hl ltac:(lia)) Hi) as (v1 & x1 & -> & [-> _] & T1). kstep. cbn [negb]. rewrite (proj2 (Z.ltb_ge _ _)) by done. cbn [andb].
    assert (ready XDR_DECODE x1) as Hr1 by apply T1. assert (x_op x1 = XDR_DECODE) as -> by apply Hr1. destruct (Z.eqb_spec (len a) 0) as [E0|E0].
    + destruct a; [|done]. exists (None, 0), x1. split; [done|]. split; [done|]. exact T1.
    + pose proof (mem_alloc_spec (len a) x1 ltac:(lia)) as Ha. destruct (mem_alloc malloc (len a) x1) as [[b|] x2]; [|by destruct Ha]. destruct Ha as (Hlb & Hb & Eo & Es & Em). cbn [opaque_at].
      assert (holds (len a) a a) as Haa by (split; [done|]; split; [by rewrite Nat2Z.id, take_ge by lia|]; destruct wp; [apply Hw|by subst a]).
      destruct (decodes _ _ _ _ _ (opaque_codec (len a) ltac:(lia)) x2 b a a rest Hp (ready_alloc _ _ Hr1 Eo Es) ltac:(cbv beta; lia) Haa ltac:(rewrite Es; apply T1)) as (b' & x3 & -> & Hh & T3). kstep.
      exists (Some b', len a), x3. split; [done|]. split; [done|]. cbn. destruct T1 as (_ & _ & M1). destruct T3 as (R3 & I3 & M3). split; [done|]. split; [done|]. rewrite M3, Em, M1. cbn. by rewrite !app_nil_r.
  - intros x [ptr n] Hr Hf. cbn [fst snd] in *. subst ptr. destruct (robust _ _ _ _ _ u_long_codec x n Hr I) as (b1 & v1 & x1 & -> & H1). kstep. destruct b1; cbn [negb]; [|by exists false, (None, v1), x1].
    destruct (H1 eq_refl) as [Hr1 [m [-> Hm]]]. assert (x_op x1 = XDR_DECODE) as -> by apply Hr1. destruct (Z.ltb_spec max m); cbn [andb]; [by exists false, (None, m), x1|]. destruct (Z.eqb_spec m 0) as [->|E0]; [exists true, (None, 0), x1; split; [done|]; intros _; split; [done|]; by exists []|].
    pose proof (mem_alloc_spec m x1 ltac:(lia)) as Ha. destruct (mem_alloc malloc m x1) as [[b|] x2]; [|by exists false, (None, m), x2]. destruct Ha as (Hlb & Hb & Eo & Es & Em). cbn [opaque_at].
    destruct (robust _ _ _ _ _ (opaque_codec m ltac:(lia)) x2 b (ready_alloc _ _ Hr1 Eo Es) ltac:(cbv beta; lia)) as (b3 & v3 & x3 & -> & H3). kstep. exists b3, (Some v3, m), x3. split; [done|]. intros ->. destruct (H3 eq_refl) as [Hr3 [a Ha]].
    split; [done|]. exists a. pose proof (holds_len m v3 a ltac:(lia) Ha). split; [cbn; lia|]. split; [lia|done].
  - intros x [ptr n] a Ho (E & Hl & Hp). cbn [fst snd] in *. subst n. destruct (frees _ _ _ _ _ u_long_codec x _ _ Ho (count_in_range max _ Hl ltac:(lia))) as (v1 & x1 & Hu & _ & D1). assert (v1 = len a /\ x1 = x) as [-> ->] by (unfold xdr_u_long in Hu; rewrite Ho in Hu; by injection Hu as <- <-).
    rewrite Hu. kstep. cbn [negb]. rewrite Ho, andb_false_r. destruct ptr as [b|]; [|exists (None, len a), x; split; [done|]; split; [done|]; by apply freed_nil].
    exists (None, len a), (mem_free (len a) x). split; [done|]. split; [done|]. split; [done|]. split; [done|]. by exists [len a].
Qed.

(** ** Strings *)

Definition string_rep (max : Z) (v : option (list Z)) (a : list Z) : Prop := Forall is_byte a /\ 0 ∉ a /\ len a <= max /\ exists junk, v = Some (a ++ 0 :: junk).
Definition string_own (v : option (list Z)) : list Z := match strlen_at v with Ok n => [n + 1] | _ => [] end.

Lemma strlen_spec a junk : 0 ∉ a -> strlen (a ++ 0 :: junk) = Ok (len a).
Proof.
  induction a as [|c a IH]; intros H; [done|]. apply not_elem_of_cons in H as [H1 H2]. cbn [app strlen]. rewrite (proj2 (Z.eqb_neq _ _)) by congruence. rewrite IH by done. kstep. f_equal. cbn [length]. lia.
Qed.
(** Up to the first 0. *)
Lemma string_front (l : list Z) : Forall is_byte l -> exists a junk, l ++ [0] = a ++ 0 :: junk /\ 0 ∉ a /\ len a <= len l /\ Forall is_byte a.
Proof.
  induction 1 as [|c l Hc Hl (a & junk & E & Hn & Hle & Ha)]; [exists [], []; split_and!; [done|by intros ?%elem_of_nil|done|done]|]. destruct (decide (c = 0)) as [->|Hne].
  - exists [], (l ++ [0]). split_and!; [done|by intros ?%elem_of_nil|cbn; lia|done].
  - exists (c :: a), junk. split; [cbn; by rewrite E|]. split; [intros [?|?]%elem_of_cons; congruence|]. split; [cbn; lia|by constructor].
Qed.
(** The block of a string that is read: [n] bytes and a 0. *)
Lemma string_block n b : 0 <= n -> len b = n + 1 -> exists b0, wrz b n 0 = Ok b0 /\ len b0 = n + 1 /\ drop (Z.to_nat n) b0 = [0].
Proof.
  intros Hn Hb. exists (<[Z.to_nat n := 0]> b). rewrite wrz_Ok by lia. split; [done|]. split; [by rewrite length_insert|]. destruct (lookup_lt_is_Some_2 b (Z.to_nat n) ltac:(lia)) as [c Hc].
  rewrite <- (take_drop_middle b _ c Hc). rewrite insert_app_r_alt by (rewrite length_take; lia). rewrite length_take. replace (Z.to_nat n - _)%nat with O by lia. cbn [insert list_insert].
  rewrite drop_app_length' by (rewrite length_take; lia). f_equal. apply drop_ge. lia.
Qed.

Lemma string_codec max : 0 <= max < 2147483648 -> Codec (xdr_string malloc max) (fun v => v = None) (string_rep max) enc_counted string_own.
Proof.
  intros Hmax. split; unfold xdr_string, xdr_u_int.
  - intros x v a Hr (Hb & H0 & Hl & junk & ->). assert (x_op x = XDR_ENCODE) as Ho by apply Hr. rewrite Ho. cbn [strlen_at]. rewrite strlen_spec by done. kstep.
    destruct (encodes _ _ _ _ _ u_long_codec x _ _ Hr (count_in_range max _ Hl ltac:(lia))) as (x1 & -> & Hw). kstep. unfold enc_counted. destruct (fits x (word_bytes (len a))) eqn:Hf; cbn [negb]; [|exists x1; rewrite fits_none by done; by split].
    specialize (Hw eq_refl). rewrite (fits_app x x1) by done. rewrite (proj2 (Z.ltb_ge _ _)) by done. assert (ready XDR_ENCODE x1) as Hr1 by apply Hw. assert (x_op x1 = XDR_ENCODE) as -> by apply Hr1. cbn [opaque_at].
    assert (holds (len a) (a ++ 0 :: junk) a) as Hh by (split; [rewrite length_app; lia|]; split; [|done]; by rewrite Nat2Z.id, take_app_length).
    destruct (encodes _ _ _ _ _ (opaque_codec (len a) ltac:(lia)) x1 _ a Hr1 Hh) as (x2 & -> & Hw2). kstep. exists x2. split; [done|]. intros Hf2. by apply (wrote_app x x1), Hw2.
  - intros x v w a rest Hp Hr -> (Hb & H0 & Hl & _) Hi. assert (x_op x = XDR_DECODE) as Ho by apply Hr. rewrite Ho. kstep. unfold enc_counted in Hi. rewrite <- app_assoc in Hi.
    destruct (decodes _ _ _ _ _ u_long_codec x 0 _ _ _ Hp Hr I (count_in_range max _ Hl ltac:(lia)) Hi) as (v1 & x1 & -> & [-> _] & T1). kstep. cbn [negb]. rewrite (proj2 (Z.ltb_ge _ _)) by done.
    assert (ready XDR_DECODE x1) as Hr1 by apply T1. assert (x_op x1 = XDR_DECODE) as -> by apply Hr1. rewrite wrapu_small by lia. pose proof (mem_alloc_spec (len a + 1) x1 ltac:(lia)) as Ha. destruct (mem_alloc malloc (len a + 1) x1) as [[b|] x2]; [|by destruct Ha].
    destruct Ha as (Hlb & Hbb & Eo & Es & Em). destruct (string_block (len a) b ltac:(lia) Hlb) as (b0 & -> & Hlb0 & Hdrop). kstep. cbn [opaque_at].
    assert (holds (len a) a a) as Haa by (split; [lia|]; split; [by rewrite Nat2Z.id, take_ge by lia|done]). assert (ready XDR_DECODE x2) as Hr2 by (by apply (ready_alloc x1)).
    destruct (decodes _ _ _ _ _ (opaque_codec (len a) ltac:(lia)) x2 b0 a a rest Hp Hr2 ltac:(cbv beta; lia) Haa ltac:(rewrite Es; apply T1)) as (b' & x3 & Hop & Hh & T3). rewrite Hop. kstep.
    pose proof (opaque_behind (len a) x2 b0 b' x3 ltac:(lia) Hr2 Hop ltac:(lia)) as Hd. rewrite Hdrop in Hd. assert (b' = a ++ [0]) as -> by (rewrite <- (take_drop (Z.to_nat (len a)) b'), Hd; f_equal; by destruct Hh as (_ & <- & _)).
    exists (Some (a ++ [0])), x3. split; [done|]. split; [by split_and!; [..|exists []]|]. unfold string_own. cbn [strlen_at]. rewrite strlen_spec by done. destruct T1 as (_ & _ & M1). destruct T3 as (R3 & I3 & M3). split; [done|]. split; [done|]. rewrite M3, Em, M1. cbn. by rewrite !app_nil_r.
  - intros x v Hr ->. assert (x_op x = XDR_DECODE) as Ho by apply Hr. rewrite Ho. kstep. destruct (robust _ _ _ _ _ u_long_codec x 0 Hr I) as (b1 & v1 & x1 & -> & H1). kstep. destruct b1; cbn [negb]; [|by exists false, None, x1].
    destruct (H1 eq_refl) as [Hr1 [m [-> Hm]]]. destruct (Z.ltb_spec max m); [by exists false, None, x1|]. assert (x_op x1 = XDR_DECODE) as -> by apply Hr1. rewrite wrapu_small by lia.
    pose proof (mem_alloc_spec (m + 1) x1 ltac:(lia)) as Ha. destruct (mem_alloc malloc (m + 1) x1) as [[b|] x2]; [|by exists false, None, x2]. destruct Ha as (Hlb & Hbb & Eo & Es & Em). destruct (string_block m b ltac:(lia) Hlb) as (b0 & -> & Hlb0 & Hdrop). kstep. cbn [opaque_at].
    assert (ready XDR_DECODE x2) as Hr2 by (by apply (ready_alloc x1)). destruct (robust _ _ _ _ _ (opaque_codec m ltac:(lia)) x2 b0 Hr2 ltac:(cbv beta; lia)) as (b3 & v3 & x3 & Hop & H3). rewrite Hop. kstep. exists b3, (Some v3), x3. split; [done|]. intros ->.
    destruct (H3 eq_refl) as [Hr3 [a Ha]]. split; [done|]. pose proof (opaque_behind m x2 b0 v3 x3 ltac:(lia) Hr2 Hop ltac:(lia)) as Hd. rewrite Hdrop in Hd. pose proof (holds_len m v3 a ltac:(lia) Ha) as Hla. destruct Ha as (_ & Ea & Hba).
    destruct (string_front a Hba) as (a' & junk & E & Hn & Hle & Ha'). exists a'. split; [done|]. split; [done|]. split; [lia|]. exists junk. rewrite <- E, Ea, <- Hd. by rewrite take_drop.
  - intros x v a Ho (Hb & H0 & Hl & junk & ->). rewrite Ho. cbn [strlen_at]. rewrite strlen_spec by done. kstep. destruct (frees _ _ _ _ _ u_long_codec x _ _ Ho (count_in_range max _ Hl ltac:(lia))) as (v1 & x1 & Hu & _ & D1).
    assert (v1 = len a /\ x1 = x) as [-> ->] by (unfold xdr_u_long in Hu; rewrite Ho in Hu; by injection Hu as <- <-). rewrite Hu. kstep. cbn [negb]. rewrite (proj2 (Z.ltb_ge _ _)), Ho, wrapu_small by lia.
    exists None, (mem_free (len a + 1) x). split; [done|]. split; [done|]. split; [done|]. split; [done|]. unfold string_own. cbn [strlen_at]. rewrite strlen_spec by done. by exists [len a + 1].
Qed.

(** ** Elements *)

Lemma rdz_mid {A} (pre post : list A) e : rdz (pre ++ e :: post) (len pre) = Ok e.
Proof. unfold rdz. rewrite (proj2 (Z.ltb_ge _ _)) by lia. by apply rd_mid; lia. Qed.
Lemma wrz_mid {A} (pre post : list A) e e' : wrz (pre ++ e :: post) (len pre) e' = Ok (pre ++ e' :: post).
Proof. unfold wrz. rewrite (proj2 (Z.ltb_ge _ _)) by lia. by apply wr_mid; lia. Qed.

Section Elements.
Context {A B : Type} (p : xdrproc A) (fresh : A -> Prop) (rep : A -> B -> Prop) (enc : B -> list Z) (own : A -> list Z) (P : Codec p fresh rep enc own).
Notation encs l := (concat (map enc l)).
Notation owns l := (concat (map own l)).

(** The state after an element, for the loop over the others. *)
Lemma loop_next n (pre post : list A) e e' x x' b : p x e = Ok (b, e', x') ->
  elems_loop p (Datatypes.S n) (len pre) x (pre ++ e :: post) = if b then elems_loop p n (len (pre ++ [e'])) x' ((pre ++ [e']) ++ post) else Ok (false, (pre ++ [e']) ++ post, x').
Proof.
  intros He. cbn [elems_loop]. rewrite rdz_mid. kstep. rewrite He. kstep. rewrite wrz_mid. kstep. rewrite length_app. cbn [length]. replace (Z.of_nat (length pre + 1)) with (len pre + 1) by lia. rewrite <- app_assoc. by destruct b.
Qed.

Lemma loop_encodes mid l : Forall2 rep mid l -> forall pre post x, ready XDR_ENCODE x ->
  exists x', elems_loop p (length mid) (len pre) x (pre ++ mid ++ post) = Ok (fits x (encs l), pre ++ mid ++ post, x') /\ (fits x (encs l) = true -> wrote x x' (encs l)).
Proof.
  induction 1 as [|e a mid l He Hl IH]; intros pre post x Hr.
  - exists x. cbn. rewrite fits_nil by apply Hr. split; [done|]. intros _. by apply wrote_nil.
  - destruct (encodes _ _ _ _ _ P x e a Hr He) as (x1 & Hp & Hw). cbn [length map concat]. rewrite <- app_comm_cons, (loop_next _ _ _ _ _ _ _ _ Hp). destruct (fits x (enc a)) eqn:Hf; [|exists x1; rewrite fits_none by done; split; [by rewrite <- app_assoc|done]].
    specialize (Hw eq_refl). destruct (IH (pre ++ [e]) post x1 ltac:(apply Hw)) as (x2 & -> & Hw2). rewrite (fits_app x x1) by done. exists x2. split; [by rewrite <- app_assoc|]. intros Hf2. by apply (wrote_app x x1), Hw2.
Qed.
Lemma loop_decodes mid : plenty malloc -> Forall fresh mid -> forall ws l, Forall2 rep ws l -> length mid = length l -> forall pre post x rest, ready XDR_DECODE x -> input (x_str x) = encs l ++ rest ->
  exists vs x', elems_loop p (length mid) (len pre) x (pre ++ mid ++ post) = Ok (true, pre ++ vs ++ post, x') /\ Forall2 rep vs l /\ took x x' rest (owns vs).
Proof.
  intros Hm Hfr. induction Hfr as [|e mid He Hmid IH]; intros ws l Hl Hn pre post x rest Hr Hi.
  - destruct l; [|done]. exists [], x. split; [done|]. split; [done|]. split; [done|]. split; [done|]. by rewrite app_nil_r.
  - destruct Hl as [|w a ws l Hw Hl]; [done|]. cbn [map concat] in Hi. rewrite <- app_assoc in Hi. destruct (decodes _ _ _ _ _ P x e w a _ Hm Hr He Hw Hi) as (v & x1 & Hp & Hv & T1).
    cbn [length]. rewrite <- app_comm_cons, (loop_next _ _ _ _ _ _ _ _ Hp). destruct (IH ws l Hl ltac:(cbn in Hn; lia) (pre ++ [v]) post x1 rest ltac:(apply T1) ltac:(apply T1)) as (vs & x2 & -> & Hvs & T2).
    exists (v :: vs), x2. split; [by rewrite <- app_assoc|]. split; [by constructor|]. cbn [map concat]. by apply (took_app x x1 x2 (encs l ++ rest)).
Qed.
Lemma loop_robust mid : Forall fresh mid -> forall pre post x, ready XDR_DECODE x ->
  exists b l' x', elems_loop p (length mid) (len pre) x (pre ++ mid ++ post) = Ok (b, l', x') /\ (b = true -> ready XDR_DECODE x' /\ exists vs l, l' = pre ++ vs ++ post /\ length vs = length mid /\ Forall2 rep vs l).
Proof.
  induction 1 as [|e mid He Hmid IH]; intros pre post x Hr.
  - exists true, (pre ++ post), x. split; [done|]. intros _. split; [done|]. by exists [], [].
  - destruct (robust _ _ _ _ _ P x e Hr He) as (b & v & x1 & Hp & H1). cbn [length]. rewrite <- app_comm_cons, (loop_next _ _ _ _ _ _ _ _ Hp). destruct b; [|by eexists false, _, x1]. destruct (H1 eq_refl) as [Hr1 [a Ha]].
    destruct (IH (pre ++ [v]) post x1 Hr1) as (b & l' & x2 & -> & H2). exists b, l', x2. split; [done|]. intros ->. destruct (H2 eq_refl) as [Hr2 (vs & l & -> & Hn & Hl)]. split; [done|]. exists (v :: vs), (a :: l). split; [by rewrite <- app_assoc|]. split; [by cbn; rewrite Hn|by constructor].
Qed.
Lemma loop_frees mid l : Forall2 rep mid l -> forall pre post x, x_op x = XDR_FREE ->
  exists vs x', elems_loop p (length mid) (len pre) x (pre ++ mid ++ post) = Ok (true, pre ++ vs ++ post, x') /\ length vs = length mid /\ Forall fresh vs /\ freed x x' (owns mid).
Proof.
  induction 1 as [|e a mid l He Hl IH]; intros pre post x Ho.
  - exists [], x. split; [done|]. split; [done|]. split; [done|]. by apply freed_nil.
  - destruct (frees _ _ _ _ _ P x e a Ho He) as (v & x1 & Hp & Hv & D1). cbn [length map concat]. rewrite <- app_comm_cons, (loop_next _ _ _ _ _ _ _ _ Hp). destruct (IH (pre ++ [v]) post x1 ltac:(apply D1)) as (vs & x2 & -> & Hn & Hvs & D2).
    exists (v :: vs), x2. split; [by rewrite <- app_assoc|]. split; [by cbn; rewrite Hn|]. split; [by constructor|]. by apply (freed_app x x1).
Qed.

(** The first [n] elements of a storage with room for more. *)
Definition elems_rep (n : Z) (v : list A) (l : list B) : Prop := n <= len v /\ len l = n /\ Forall2 rep (take (Z.to_nat n) v) l.
Definition elems_own (n : Z) (v : list A) : list Z := owns (take (Z.to_nat n) v).
Lemma split_elems n (v : list A) : 0 <= n <= len v -> v = [] ++ take (Z.to_nat n) v ++ drop (Z.to_nat n) v /\ length (take (Z.to_nat n) v) = Z.to_nat n.
Proof. intros Hn. split; [by rewrite app_nil_l, take_drop|]. rewrite length_take. lia. Qed.

Lemma vector_codec n : 0 <= n -> Codec (xdr_vector p n) (fun v => n <= len v /\ Forall fresh (take (Z.to_nat n) v)) (elems_rep n) (fun l => encs l) (elems_own n).
Proof.
  intros Hn. unfold xdr_vector. split.
  - intros x v l Hr (Hv & Hl & Hrep). destruct (split_elems n v ltac:(lia)) as [E En]. destruct (loop_encodes _ _ Hrep [] (drop (Z.to_nat n) v) x Hr) as (x' & Hloop & Hw). rewrite <- E, En in Hloop. by exists x'.
  - intros x v0 w l rest Hp Hr [Hv Hf] (_ & Hl & Hrep) Hi. destruct (split_elems n v0 ltac:(lia)) as [E En]. destruct (loop_decodes _ Hp Hf _ _ Hrep ltac:(lia) [] (drop (Z.to_nat n) v0) x rest Hr Hi) as (vs & x' & Hloop & Hvs & T). rewrite <- E, En in Hloop.
    pose proof (Forall2_length _ _ _ Hvs) as Hlen. exists (vs ++ drop (Z.to_nat n) v0), x'. split; [done|]. unfold elems_rep, elems_own. rewrite take_app_length' by lia. split; [|done]. split; [rewrite length_app, length_drop; lia|done].
  - intros x v0 Hr [Hv Hf]. destruct (split_elems n v0 ltac:(lia)) as [E En]. destruct (loop_robust _ Hf [] (drop (Z.to_nat n) v0) x Hr) as (b & l' & x' & Hloop & H). rewrite <- E, En in Hloop. exists b, l', x'. split; [done|]. intros Hb. destruct (H Hb) as [Hr' (vs & l & -> & Hlen & Hvs)].
    split; [done|]. exists l. pose proof (Forall2_length _ _ _ Hvs) as Hl2. split; [rewrite app_nil_l, length_app, length_drop; lia|]. split; [lia|]. rewrite app_nil_l, take_app_length' by lia. done.
  - intros x v l Ho (Hv & Hl & Hrep). destruct (split_elems n v ltac:(lia)) as [E En]. destruct (loop_frees _ _ Hrep [] (drop (Z.to_nat n) v) x Ho) as (vs & x' & Hloop & Hlen & Hf & D). rewrite <- E, En in Hloop.
    exists (vs ++ drop (Z.to_nat n) v), x'. split; [done|]. split; [|done]. rewrite take_app_length' by lia. split; [rewrite length_app, length_drop; lia|done].
Qed.

Lemma elems_at_vector n x l : elems_at p n x (Some l) = ('(r, l, x) ← xdr_vector p n x l; mret (r, Some l, x)).
Proof. done. Qed.
End Elements.

Section Containers.
Context {A B : Type} (p : xdrproc A) (zero : A) (fresh : A -> Prop) (rep : A -> B -> Prop) (enc : B -> list Z) (own : A -> list Z) (P : Codec p fresh rep enc own) (Hzero : fresh zero).

(** ** Arrays *)

Definition array_rep (max : Z) (v : option (list A) * Z) (l : list B) : Prop :=
  v.2 = len l /\ len l <= max /\ match v.1 with Some s => elems_rep rep v.2 s l | None => l = [] end.
Definition array_own (elsize : Z) (v : option (list A) * Z) : list Z := match v.1 with Some s => v.2 * elsize :: elems_own own v.2 s | None => [] end.
Definition enc_array (l : list B) : list Z := word_bytes (len l) ++ concat (map enc l).

Lemma array_codec max elsize : 0 < elsize -> 0 <= max -> max * elsize < 4294967296 -> Codec (xdr_array malloc p max elsize zero) (fun v => v.1 = None) (array_rep max) enc_array (array_own elsize).
Proof.
  intros He Hm Hme. assert (max < 4294967296) as Hmax by nia. assert (forall c, 0 <= c <= max -> u32 (c * elsize) = c * elsize) as Hsize by (intros c Hc; apply wrapu_small; change (2 ^ 32) with 4294967296; nia).
  split; unfold xdr_array, xdr_u_int.
  - intros x [ptr n] l Hr (E & Hl & Hrep). cbn [fst snd] in *. subst n. destruct (encodes _ _ _ _ _ u_long_codec x _ _ Hr (count_in_range max _ Hl Hmax)) as (x1 & -> & Hw). kstep. unfold enc_array.
    destruct (fits x (word_bytes (len l))) eqn:Hf; cbn [negb]; [|exists x1; rewrite fits_none by done; by split]. specialize (Hw eq_refl). rewrite (fits_app x x1) by done. rewrite (proj2 (Z.ltb_ge _ _)) by done. cbn [andb].
    assert (ready XDR_ENCODE x1) as Hr1 by apply Hw. assert (x_op x1 = XDR_ENCODE) as -> by apply Hr1. destruct ptr as [s|].
    + rewrite elems_at_vector. destruct (encodes _ _ _ _ _ (vector_codec p fresh rep enc own P (len l) ltac:(lia)) x1 s l Hr1 Hrep) as (x2 & -> & Hw2). kstep. exists x2. split; [done|]. intros Hf2. by apply (wrote_app x x1), Hw2.
    + subst l. cbn. exists x1. rewrite fits_nil by apply Hr1. done.
  - intros x [ptr n] [wp wn] l rest Hp Hr Hf (E & Hl & Hw) Hi. cbn [fst snd] in *. subst ptr wn. unfold enc_array in Hi. rewrite <- app_assoc in Hi.
    destruct (decodes _ _ _ _ _ u_long_codec x n _ _ _ Hp Hr I (count_in_range max _ Hl Hmax) Hi) as (v1 & x1 & -> & [-> _] & T1). kstep. cbn [negb]. rewrite (proj2 (Z.ltb_ge _ _)) by done. cbn [andb].
    assert (ready XDR_DECODE x1) as Hr1 by apply T1. assert (x_op x1 = XDR_DECODE) as -> by apply Hr1. destruct (Z.eqb_spec (len l) 0) as [E0|E0].
    + destruct l; [|done]. exists (None, 0), x1. split; [done|]. split; [done|]. exact T1.
    + rewrite Hsize by lia. pose proof (mem_alloc_spec (len l * elsize) x1 ltac:(nia)) as Ha. destruct (mem_alloc malloc (len l * elsize) x1) as [[b|] x2]; [|by destruct Ha]. destruct Ha as (_ & _ & Eo & Es & Em).
      rewrite Z.quot_mul by lia. rewrite elems_at_vector. destruct wp as [ws|]; [|by subst l]. destruct Hw as (Hw1 & Hw2 & Hw3).
      destruct (decodes _ _ _ _ _ (vector_codec p fresh rep enc own P (len l) ltac:(lia)) x2 (replicate (Z.to_nat (len l)) zero) ws l rest Hp (ready_alloc _ _ Hr1 Eo Es)) as (vs & x3 & -> & Hvs & T3).
      { split; [rewrite length_replicate; lia|]. apply Forall_take. by apply Forall_replicate. } { done. } { rewrite Es. apply T1. }
      kstep. exists (Some vs, len l), x3. split; [done|]. split; [done|]. cbn. destruct T1 as (_ & _ & M1). destruct T3 as (R3 & I3 & M3). split; [done|]. split; [done|]. rewrite M3, Em, M1. cbn. by rewrite app_nil_r, <- app_assoc.
  - intros x [ptr n] Hr Hf. cbn [fst snd] in *. subst ptr. destruct (robust _ _ _ _ _ u_long_codec x n Hr I) as (b1 & v1 & x1 & -> & H1). kstep. destruct b1; cbn [negb]; [|by exists false, (None, v1), x1].
    destruct (H1 eq_refl) as [Hr1 [m [-> Hrange]]]. assert (x_op x1 = XDR_DECODE) as -> by apply Hr1. destruct (Z.ltb_spec max m); cbn [andb]; [by exists false, (None, m), x1|]. destruct (Z.eqb_spec m 0) as [->|E0]; [exists true, (None, 0), x1; split; [done|]; intros _; split; [done|]; by exists []|].
    rewrite Hsize by lia. pose proof (mem_alloc_spec (m * elsize) x1 ltac:(nia)) as Ha. destruct (mem_alloc malloc (m * elsize) x1) as [[b|] x2]; [|by exists false, (None, m), x2]. destruct Ha as (_ & _ & Eo & Es & Em). rewrite Z.quot_mul by lia. rewrite elems_at_vector.
    destruct (robust _ _ _ _ _ (vector_codec p fresh rep enc own P m ltac:(lia)) x2 (replicate (Z.to_nat m) zero) (ready_alloc _ _ Hr1 Eo Es)) as (b3 & v3 & x3 & -> & H3).
    { split; [rewrite length_replicate; lia|]. apply Forall_take. by apply Forall_replicate. }
    kstep. exists b3, (Some v3, m), x3. split; [done|]. intros ->. destruct (H3 eq_refl) as [Hr3 [l Hl]]. split; [done|]. exists l. assert (len l = m) by apply Hl. split; [done|]. split; [lia|done].
  - intros x [ptr n] l Ho (E & Hl & Hrep). cbn [fst snd] in *. subst n. destruct (frees _ _ _ _ _ u_long_codec x _ _ Ho (count_in_range max _ Hl Hmax)) as (v1 & x1 & Hu & _ & D1). assert (v1 = len l /\ x1 = x) as [-> ->] by (unfold xdr_u_long in Hu; rewrite Ho in Hu; by injection Hu as <- <-).
    rewrite Hu. kstep. cbn [negb]. rewrite Ho, andb_false_r. destruct ptr as [s|]; [|exists (None, len l), x; split; [done|]; split; [done|]; by apply freed_nil]. rewrite Hsize, elems_at_vector by lia.
    destruct (frees _ _ _ _ _ (vector_codec p fresh rep enc own P (len l) ltac:(lia)) x s l Ho Hrep) as (v' & x2 & -> & _ & (O2 & S2 & m & Pm & M2)). kstep. exists (None, len l), (mem_free (len l * elsize) x2). split; [done|]. split; [done|].
    split; [done|]. split; [done|]. exists (m ++ [len l * elsize]). split; [unfold array_own; cbn [fst snd]; rewrite Permutation_app_comm; cbn; by f_equiv|]. cbn. by rewrite M2, map_app, app_assoc.
Qed.

(** ** Pointers *)

Definition reference_rep (v : option A) (a : B) : Prop := exists u, v = Some u /\ rep u a.
Definition reference_own (size : Z) (v : option A) : list Z := match v with Some u => size :: own u | None => [] end.
Lemma reference_codec size : 0 <= size -> Codec (xdr_reference malloc p size zero) (fun v => v = None) reference_rep enc (reference_own size).
Proof.
  intros Hs. split; unfold xdr_reference.
  - intros x v a Hr (u & -> & Hu). assert (x_op x = XDR_ENCODE) as -> by apply Hr. cbn [proc_at]. destruct (encodes _ _ _ _ _ P x u a Hr Hu) as (x' & -> & Hw). kstep. by exists x'.
  - intros x v w a rest Hp Hr -> (u & -> & Hu) Hi. assert (x_op x = XDR_DECODE) as -> by apply Hr. pose proof (mem_alloc_spec size x Hs) as Ha. destruct (mem_alloc malloc size x) as [[b|] x2]; [|by destruct Ha]. destruct Ha as (_ & _ & Eo & Es & Em). cbn [proc_at].
    destruct (decodes _ _ _ _ _ P x2 zero u a rest Hp (ready_alloc _ _ Hr Eo Es) Hzero Hu ltac:(by rewrite Es)) as (v & x3 & -> & Hv & (R3 & I3 & M3)). kstep. exists (Some v), x3. split; [done|]. split; [by exists v|]. split; [done|]. split; [done|]. rewrite M3, Em. cbn. by rewrite <- app_assoc.
  - intros x v Hr ->. assert (x_op x = XDR_DECODE) as -> by apply Hr. pose proof (mem_alloc_spec size x Hs) as Ha. destruct (mem_alloc malloc size x) as [[b|] x2]; [|by exists false, None, x2]. destruct Ha as (_ & _ & Eo & Es & Em). cbn [proc_at].
    destruct (robust _ _ _ _ _ P x2 zero (ready_alloc _ _ Hr Eo Es) Hzero) as (b3 & v & x3 & -> & H3). kstep. exists b3, (Some v), x3. split; [done|]. intros ->. destruct (H3 eq_refl) as [Hr3 [a Ha]]. split; [done|]. by exists a, v.
  - intros x v a Ho (u & -> & Hu). rewrite Ho. cbn [proc_at]. destruct (frees _ _ _ _ _ P x u a Ho Hu) as (v' & x2 & -> & _ & (O2 & S2 & m & Pm & M2)). kstep. exists None, (mem_free size x2). split; [done|]. split; [done|]. split; [done|]. split; [done|].
    exists (m ++ [size]). split; [rewrite Permutation_app_comm; cbn; by f_equiv|]. cbn. by rewrite M2, map_app, app_assoc.
Qed.

Definition pointer_rep (v : option A) (a : option B) : Prop := match v, a with Some u, Some a => rep u a | None, None => True | _, _ => False end.
Definition enc_pointer (a : option B) : list Z := match a with Some a => word_bytes 1 ++ enc a | None => word_bytes 0 end.
Lemma pointer_codec size : 0 <= size -> Codec (xdr_pointer malloc p size zero) (fun v => v = None) pointer_rep enc_pointer (reference_own size).
Proof.
  intros Hs. pose proof (reference_codec size Hs) as R. split; unfold xdr_pointer.
  - intros x v a Hr Hv. set (m := match v with Some _ => 1 | None => 0 end). assert (truth m m) as Hm by (by destruct v). destruct (encodes _ _ _ _ _ bool_codec x m m Hr Hm) as (x1 & -> & Hw). kstep.
    destruct v as [u|], a as [a|]; try done; unfold m; cbn [enc_pointer].
    + destruct (fits x (word_bytes 1)) eqn:Hf; cbn [negb]; [|exists x1; rewrite fits_none by done; by split]. specialize (Hw Hf). rewrite (fits_app x x1) by done. cbn [Z.eqb].
      destruct (encodes _ _ _ _ _ R x1 (Some u) a ltac:(apply Hw) ltac:(by exists u)) as (x2 & -> & Hw2). exists x2. split; [done|]. intros Hf2. by apply (wrote_app x x1), Hw2.
    + unfold m in Hw. exists x1. destruct (fits x (word_bytes 0)); by split.
  - intros x v w a rest Hp Hr -> Hw Hi. destruct a as [a|]; cbn [enc_pointer] in Hi; [rewrite <- app_assoc in Hi|].
    + destruct (decodes _ _ _ _ _ bool_codec x 0 1 1 _ Hp Hr I eq_refl Hi) as (v1 & x1 & -> & Hv1 & T1). kstep. cbn [negb]. unfold truth in Hv1. destruct (v1 =? 0); [done|]. destruct w as [u|]; [|done].
      destruct (decodes _ _ _ _ _ R x1 None (Some u) a rest Hp ltac:(apply T1) eq_refl ltac:(by exists u) ltac:(apply T1)) as (v & x2 & -> & (u' & -> & Hu') & T2). exists (Some u'), x2. split; [done|]. split; [done|]. by apply (took_app x x1 x2 (enc a ++ rest) rest []).
    + destruct (decodes _ _ _ _ _ bool_codec x 0 0 0 _ Hp Hr I eq_refl Hi) as (v1 & x1 & -> & Hv1 & T1). kstep. cbn [negb]. unfold truth in Hv1. destruct (v1 =? 0); [|done]. by exists None, x1.
  - intros x v Hr ->. destruct (robust _ _ _ _ _ bool_codec x 0 Hr I) as (b1 & v1 & x1 & -> & H1). kstep. destruct b1; cbn [negb]; [|by exists false, None, x1]. destruct (H1 eq_refl) as [Hr1 _]. destruct (v1 =? 0); [exists true, None, x1; split; [done|]; intros _; split; [done|]; by exists None|].
    destruct (robust _ _ _ _ _ R x1 None Hr1 eq_refl) as (b2 & v2 & x2 & -> & H2). exists b2, v2, x2. split; [done|]. intros ->. destruct (H2 eq_refl) as [Hr2 (a & u & -> & Hu)]. split; [done|]. by exists (Some a).
  - intros x v a Ho Hv. unfold xdr_bool. rewrite Ho. kstep. cbn [negb]. destruct v as [u|], a as [a|]; try done; cbn [Z.eqb].
    + by apply (frees _ _ _ _ _ R x (Some u) a Ho ltac:(by exists u)).
    + exists None, x. split; [done|]. split; [done|]. by apply freed_nil.
Qed.
End Containers.

(** ** Discriminated unions *)

Section Unions.
Context {U B : Type} (choices : list (Z * xdrproc U)) (dfault : option (xdrproc U)) (fresh : U -> Prop) (rep : Z -> U -> B -> Prop) (enc : Z -> B -> list Z) (own : Z -> U -> list Z).
Hypothesis arms : forall d p, find_choice d choices dfault = Some p -> Codec p fresh (rep d) (enc d) (own d).

Definition union_rep (v : Z * U) (a : Z * B) : Prop := in_range (-2147483648) 2147483648 v.1 a.1 /\ is_Some (find_choice a.1 choices dfault) /\ rep a.1 v.2 a.2.
Lemma union_codec : Codec (xdr_union choices dfault) (fun v => fresh v.2) union_rep (fun a => word_bytes a.1 ++ enc a.1 a.2) (fun v => own v.1 v.2).
Proof.
  split; unfold xdr_union, xdr_enum.
  - intros x [d u] [d' b] Hr ([E Hd] & [p Hp] & Hrep). cbn [fst snd] in *. subst d'. destruct (encodes _ _ _ _ _ long_codec x d d Hr (conj eq_refl Hd)) as (x1 & -> & Hw). kstep. destruct (fits x (word_bytes d)) eqn:Hf; cbn [negb]; [|exists x1; rewrite fits_none by done; by split].
    specialize (Hw eq_refl). rewrite (fits_app x x1), Hp by done. destruct (encodes _ _ _ _ _ (arms _ _ Hp) x1 u b ltac:(apply Hw) Hrep) as (x2 & -> & Hw2). kstep. exists x2. split; [done|]. intros Hf2. by apply (wrote_app x x1), Hw2.
  - intros x [d u] [wd wu] [d' b] rest Hm Hr Hf ([E Hd] & [p Hp] & Hrep) Hi. cbn [fst snd] in *. subst d'. rewrite <- app_assoc in Hi. destruct (decodes _ _ _ _ _ long_codec x d wd wd _ Hm Hr I (conj eq_refl Hd) Hi) as (v1 & x1 & -> & [-> _] & T1). kstep. cbn [negb]. rewrite Hp.
    destruct (decodes _ _ _ _ _ (arms _ _ Hp) x1 u wu b rest Hm ltac:(apply T1) Hf Hrep ltac:(apply T1)) as (v & x2 & -> & Hv & T2). kstep. exists (wd, v), x2. split; [done|]. split; [split; [done|]; split; [by exists p|done]|]. by apply (took_app x x1 x2 (enc wd b ++ rest) rest []).
  - intros x [d u] Hr Hf. cbn [fst snd] in *. destruct (robust _ _ _ _ _ long_codec x d Hr I) as (b1 & v1 & x1 & -> & H1). kstep. destruct b1; cbn [negb]; [|by exists false, (v1, u), x1]. destruct (H1 eq_refl) as [Hr1 [m [-> Hm]]].
    destruct (find_choice m choices dfault) as [p|] eqn:Hp; [|by exists false, (m, u), x1]. destruct (robust _ _ _ _ _ (arms _ _ Hp) x1 u Hr1 Hf) as (b2 & v2 & x2 & -> & H2). kstep. exists b2, (m, v2), x2. split; [done|]. intros ->. destruct (H2 eq_refl) as [Hr2 [a Ha]].
    split; [done|]. exists (m, a). split; [done|]. split; [by exists p|done].
  - intros x [d u] [d' b] Ho ([E Hd] & [p Hp] & Hrep). cbn [fst snd] in *. subst d'. unfold xdr_long. rewrite Ho. kstep. cbn [negb]. rewrite Hp. destruct (frees _ _ _ _ _ (arms _ _ Hp) x u b Ho Hrep) as (v' & x2 & -> & Hv & D). kstep. by exists (d, v'), x2.
Qed.
End Unions.
End Codecs.
