(* ===== verification/XdrMem.v ===== *)
(** * External data representation: any type, in memory

    A stream in memory keeps the promises of [XdrStream].  A [ty] describes a routine put together from those of the library: by
    induction each is a codec.  So what is encoded into a buffer is decoded from it, what decoding allocates is freed, and decoding
    stays inside its buffers whatever the bytes - as long as the sizes of arrays do not overflow. *)

From S2P Require Import Prelude Xdr XdrThms.
From stdpp Require Import prelude list numbers strings.
From Stdlib Require Import ZArith Lia.

Local Open Scope Z_scope.
Local Open Scope kern_scope.

Notation len l := (Z.of_nat (length l)).

(** ** Streams in memory *)

Definition pos (s : xdrmem) : Z := x_private s - x_base s.
Record mem_good (s : xdrmem) : Prop := MemGood {
  mg_pos : 0 <= pos s <= len (x_buf s); mg_handy : x_handy s = len (x_buf s) - pos s; mg_size : len (x_buf s) < 2147483648; mg_bytes : Forall is_byte (x_buf s)
}.
Definition mem_out (s : xdrmem) : list Z := take (Z.to_nat (pos s)) (x_buf s).
Definition mem_input (s : xdrmem) : list Z := drop (Z.to_nat (pos s)) (x_buf s).

Lemma handy_minus s n : mem_good s -> 0 <= n < 2147483648 -> i32 (x_handy s - n) = x_handy s - n.
Proof. intros [H1 H2 H3 _] Hn. apply wraps_small; [done|]. change (2 ^ (32 - 1)) with 2147483648. lia. Qed.

Lemma mem_write_spec s b : mem_good s -> pos s + len b <= len (x_buf s) -> Forall is_byte b ->
  exists s', mem_write b (set_pos (x_private s) (x_handy s - len b) s) = Ok s' /\ mem_good (set_pos (x_private s' + len b) (x_handy s') s') /\ mem_out (set_pos (x_private s' + len b) (x_handy s') s') = mem_out s ++ b /\ x_handy s' = x_handy s - len b.
Proof.
  intros [H1 H2 H3 H4] Hb Hbytes. unfold mem_write. cbn [set_pos x_private x_base x_buf]. fold (pos s). rewrite (proj2 (Z.leb_le 0 _)), (proj2 (Z.leb_le _ _)) by lia. cbn [andb]. eexists. split; [done|].
  set (b' := take _ _ ++ b ++ drop _ _). assert (len b' = len (x_buf s)) as Hl by (unfold b'; rewrite !length_app, length_take, length_drop; lia).
  assert (Forall is_byte b') as Hb' by (unfold b'; rewrite !Forall_app; split_and!; [by apply Forall_take|done|by apply Forall_drop]).
  set (s' := set_pos (x_private s + len b) (x_handy s - len b) (set_buf b' s)). change (set_pos _ _ (set_buf b' _)) with s'. assert (pos s' = pos s + len b) as Ep by (unfold pos; cbn; lia).
  split; [split; rewrite ?Ep; cbn [s' x_buf set_buf set_pos x_handy]; try done; lia|]. split; [|done]. unfold mem_out. rewrite Ep. cbn [s' x_buf set_buf set_pos]. unfold b'. rewrite app_assoc.
  apply take_app_length'. rewrite length_app, length_take. lia.
Qed.
Lemma mem_read_spec s n : mem_good s -> 0 <= n -> n <= x_handy s ->
  exists b, mem_read n (set_pos (x_private s) (x_handy s - n) s) = Ok b /\ len b = n /\ Forall is_byte b /\ mem_input s = b ++ drop (Z.to_nat n) (mem_input s) /\
    mem_good (set_pos (x_private s + n) (x_handy s - n) s) /\ mem_input (set_pos (x_private s + n) (x_handy s - n) s) = drop (Z.to_nat n) (mem_input s).
Proof.
  intros [H1 H2 H3 H4] Hn Hle. unfold mem_read. cbn [set_pos x_private x_base x_buf]. fold (pos s). rewrite (proj2 (Z.leb_le 0 _)), (proj2 (Z.leb_le _ _)) by lia. cbn [andb]. fold (mem_input s). eexists. split; [done|].
  assert (len (mem_input s) = x_handy s) as Hl by (unfold mem_input; rewrite length_drop; lia). assert (pos (set_pos (x_private s + n) (x_handy s - n) s) = pos s + n) as Ep by (unfold pos; cbn; lia).
  split; [rewrite length_take; lia|]. split; [apply Forall_take; by apply Forall_drop|]. split; [by rewrite take_drop|]. split; [split; rewrite ?Ep; cbn [x_buf set_pos x_handy]; try done; lia|].
  unfold mem_input at 1. rewrite Ep. cbn [x_buf set_pos]. unfold mem_input. rewrite drop_drop. f_equal. lia.
Qed.

#[export] Program Instance xdrmem_stream : XdrStream xdrmem := {| good := mem_good; out := mem_out; room := fun s => Some (x_handy s); input := mem_input |}.
Next Obligation. intros s [H1 H2 _ _]. apply Z.leb_le. lia. Qed.
Next Obligation.
  intros s v H Hv Hr%Z.leb_le. cbn [x_putlong xdrmem_ops]. unfold xdrmem_putlong. rewrite (handy_minus s 4) by (done || lia). cbn [x_handy set_pos]. rewrite (proj2 (Z.ltb_ge _ _)) by lia.
  destruct (mem_write_spec s (word_bytes v) H) as (s' & Hw & Hg & Ho & Hh); [destruct H; rewrite word_bytes_length; lia|apply word_bytes_bytes|]. rewrite word_bytes_length in *. change (Z.of_nat 4) with 4 in *. rewrite Hw. kstep. eexists. split; [done|]. split; [done|]. split; [done|]. cbn. by rewrite Hh.
Qed.
Next Obligation. intros s v H Hr%Z.leb_gt. cbn [x_putlong xdrmem_ops]. unfold xdrmem_putlong. rewrite (handy_minus s 4) by (done || lia). cbn [x_handy set_pos]. rewrite (proj2 (Z.ltb_lt _ _)) by lia. by eexists. Qed.
Next Obligation.
  intros s b H Hr%Z.leb_le Hb Hl. pose proof (mg_size s H). pose proof (mg_handy s H). pose proof (mg_pos s H). cbn [x_putbytes xdrmem_ops]. unfold xdrmem_putbytes. rewrite (handy_minus s (len b)) by (done || lia). cbn [x_handy set_pos]. rewrite (proj2 (Z.ltb_ge _ _)) by lia.
  destruct (mem_write_spec s b H) as (s' & -> & Hg & Ho & Hh); [lia|done|]. kstep. eexists. split; [done|]. split; [done|]. split; [done|]. cbn. by rewrite Hh.
Qed.
Next Obligation. intros s b H Hr%Z.leb_gt Hl. cbn [x_putbytes xdrmem_ops]. unfold xdrmem_putbytes. rewrite (handy_minus s (len b)) by (done || lia). cbn [x_handy set_pos]. rewrite (proj2 (Z.ltb_lt _ _)) by lia. by eexists. Qed.
Next Obligation.
  intros s v rest H Hv Hi. assert (len (mem_input s) = x_handy s) as Hl by (destruct H; unfold mem_input; rewrite length_drop; lia). rewrite Hi, length_app, word_bytes_length in Hl. cbn [x_getlong xdrmem_ops]. unfold xdrmem_getlong.
  rewrite (handy_minus s 4) by (done || lia). cbn [x_handy set_pos]. rewrite (proj2 (Z.ltb_ge _ _)) by lia. destruct (mem_read_spec s 4 H) as (b & -> & Hlb & Hb & Hin & Hg & Hi'); [lia..|]. kstep. rewrite Hi in Hin, Hi'. apply app_inj_1 in Hin as [<- _]; [|rewrite word_bytes_length; lia].
  rewrite word_of_bytes by done. eexists. split; [done|]. split; [done|]. exact Hi'.
Qed.
Next Obligation.
  intros s H. pose proof (mg_pos s H). pose proof (mg_handy s H). cbn [x_getlong xdrmem_ops]. unfold xdrmem_getlong. rewrite (handy_minus s 4) by (done || lia). cbn [x_handy set_pos]. destruct (Z.ltb_spec (x_handy s - 4) 0); [by eexists _, _|].
  destruct (mem_read_spec s 4 H) as (b & -> & Hlb & Hb & Hin & Hg & Hi'); [lia..|]. kstep. eexists _, _. split; [done|]. intros v [= <-]. split; [apply i32_int|done].
Qed.
Next Obligation.
  intros s b rest H Hi. assert (len (mem_input s) = x_handy s) as Hl by (destruct H; unfold mem_input; rewrite length_drop; lia). rewrite Hi, length_app in Hl. pose proof (mg_size s H). pose proof (mg_pos s H). pose proof (mg_handy s H). cbn [x_getbytes xdrmem_ops]. unfold xdrmem_getbytes.
  rewrite (handy_minus s (len b)) by (done || lia). cbn [x_handy set_pos]. rewrite (proj2 (Z.ltb_ge _ _)) by lia. destruct (mem_read_spec s (len b) H) as (b' & -> & Hlb & Hb & Hin & Hg & Hi'); [lia..|]. kstep. rewrite Hi in Hin, Hi'. apply app_inj_1 in Hin as [<- _]; [|lia].
  eexists. split; [done|]. split; [done|]. rewrite Nat2Z.id, drop_app_length in Hi'. exact Hi'.
Qed.
Next Obligation.
  intros s n H Hn. cbn [x_getbytes xdrmem_ops]. unfold xdrmem_getbytes. rewrite (handy_minus s n) by done. cbn [x_handy set_pos]. destruct (Z.ltb_spec (x_handy s - n) 0); [by eexists _, _|].
  destruct (mem_read_spec s n H) as (b & -> & Hlb & Hb & Hin & Hg & Hi'); [lia..|]. kstep. eexists _, _. split; [done|]. intros b' [= <-]. done.
Qed.

(** ** Types *)

Inductive ty :=
| T_void | T_int | T_u_int | T_short | T_u_short | T_char | T_bool
| T_opaque (n : Z) | T_bytes (max : Z) | T_string (max : Z)
| T_array (max elsize : Z) (t : ty) | T_vector (n : Z) (t : ty)
| T_reference (size : Z) (t : ty) | T_pointer (size : Z) (t : ty)
| T_union (ds : list Z) (t : ty)
| T_both (t u : ty).

(** What the routines can handle: counts that a stream can hold, arrays whose size is a number of 32 bits. *)
Fixpoint fine (t : ty) : Prop :=
  match t with
  | T_opaque n | T_bytes n | T_string n => 0 <= n < 2147483648
  | T_array max elsize t => 0 < elsize /\ 0 <= max /\ max * elsize < 4294967296 /\ fine t
  | T_vector n t | T_reference n t | T_pointer n t => 0 <= n /\ fine t
  | T_union _ t => fine t
  | T_both t u => fine t /\ fine u
  | _ => True
  end.

(** The C object, one with all bytes 0, one that may be decoded into. *)
Fixpoint obj (t : ty) : Type :=
  match t with
  | T_void => unit
  | T_opaque _ => list Z
  | T_bytes _ => option (list Z) * Z
  | T_string _ => option (list Z)
  | T_array _ _ t => option (list (obj t)) * Z
  | T_vector _ t => list (obj t)
  | T_reference _ t | T_pointer _ t => option (obj t)
  | T_union _ t => Z * obj t
  | T_both t u => obj t * obj u
  | _ => Z
  end.
Fixpoint zero (t : ty) : obj t :=
  match t with
  | T_void => tt
  | T_opaque n => replicate (Z.to_nat n) 0
  | T_bytes _ => (None, 0)
  | T_string _ => None
  | T_array _ _ t => (None, 0)
  | T_vector n t => replicate (Z.to_nat n) (zero t)
  | T_reference _ t | T_pointer _ t => None
  | T_union _ t => (0, zero t)
  | T_both t u => (zero t, zero u)
  | _ => 0
  end.
Fixpoint fresh (t : ty) : obj t -> Prop :=
  match t with
  | T_opaque n => fun v => n <= len v
  | T_bytes _ => fun v => v.1 = None
  | T_string _ => fun v => v = None
  | T_array _ _ t => fun v => v.1 = None
  | T_vector n t => fun v => n <= len v /\ Forall (fresh t) (take (Z.to_nat n) v)
  | T_reference _ t | T_pointer _ t => fun v => v = None
  | T_union _ t => fun v => fresh t v.2
  | T_both t u => fun v => fresh t v.1 /\ fresh u v.2
  | _ => fun _ => True
  end.

(** The values, and which one an object represents. *)
Fixpoint value (t : ty) : Type :=
  match t with
  | T_void => unit
  | T_opaque _ | T_bytes _ | T_string _ => list Z
  | T_array _ _ t | T_vector _ t => list (value t)
  | T_reference _ t => value t
  | T_pointer _ t => option (value t)
  | T_union _ t => Z * value t
  | T_both t u => value t * value u
  | _ => Z
  end.
Fixpoint rep (t : ty) : obj t -> value t -> Prop :=
  match t with
  | T_void => fun _ _ => True
  | T_int => in_range (-2147483648) 2147483648
  | T_u_int => in_range 0 4294967296
  | T_short => in_range (-32768) 32768
  | T_u_short => in_range 0 65536
  | T_char => in_range (-128) 128
  | T_bool => truth
  | T_opaque n => holds n
  | T_bytes max => bytes_rep max
  | T_string max => string_rep max
  | T_array max _ t => array_rep (rep t) max
  | T_vector n t => elems_rep (rep t) n
  | T_reference _ t => reference_rep (rep t)
  | T_pointer _ t => pointer_rep (rep t)
  | T_union ds t => fun v a => in_range (-2147483648) 2147483648 v.1 a.1 /\ a.1 ∈ ds /\ rep t v.2 a.2
  | T_both t u => fun v a => rep t v.1 a.1 /\ rep u v.2 a.2
  end.

(** The external representation of a value: a multiple of four bytes, the most significant first. *)
Fixpoint enc (t : ty) : value t -> list Z :=
  match t with
  | T_void => fun _ => []
  | T_opaque _ => enc_opaque
  | T_bytes _ | T_string _ => enc_counted
  | T_array _ _ t => enc_array (enc t)
  | T_vector _ t => fun l => concat (map (enc t) l)
  | T_reference _ t => enc t
  | T_pointer _ t => enc_pointer (enc t)
  | T_union _ t => fun a => word_bytes a.1 ++ enc t a.2
  | T_both t u => fun a => enc t a.1 ++ enc u a.2
  | _ => word_bytes
  end.

(** The sizes of the blocks of an object. *)
Fixpoint own (t : ty) : obj t -> list Z :=
  match t with
  | T_bytes _ => bytes_own
  | T_string _ => string_own
  | T_array _ elsize t => array_own (own t) elsize
  | T_vector n t => elems_own (own t) n
  | T_reference size t | T_pointer size t => reference_own (own t) size
  | T_union _ t => fun v => own t v.2
  | T_both t u => fun v => own t v.1 ++ own u v.2
  | _ => fun _ => []
  end.

Section Types.
Context {S : Type} `{HX : XdrStream S} (malloc : list memev -> Z -> option (list Z)) `{HM : !Malloc malloc}.

(** The routine for a type. *)
Fixpoint proc (t : ty) : xdrproc S (obj t) :=
  match t with
  | T_void => xdr_void
  | T_int => xdr_int
  | T_u_int => xdr_u_int
  | T_short => xdr_short
  | T_u_short => xdr_u_short
  | T_char => xdr_char
  | T_bool => xdr_bool
  | T_opaque n => xdr_opaque n
  | T_bytes max => xdr_bytes malloc max
  | T_string max => xdr_string malloc max
  | T_array max elsize t => xdr_array malloc (proc t) max elsize (zero t)
  | T_vector n t => xdr_vector (proc t) n
  | T_reference size t => xdr_reference malloc (proc t) size (zero t)
  | T_pointer size t => xdr_pointer malloc (proc t) size (zero t)
  | T_union ds t => xdr_union (map (fun d => (d, proc t)) ds) None
  | T_both t u => xdr_both (proc t) (proc u)
  end.

Lemma zero_fresh t : fine t -> fresh t (zero t).
Proof.
  induction t as [| | | | | | |n|max|max|max es t IH|n t IH|size t IH|size t IH|ds t IH|t IHt u IHu]; intros H; cbn [fresh zero]; try done.
  - cbn in H. rewrite length_replicate. lia.
  - destruct H as [Hn H]. rewrite length_replicate. split; [lia|]. apply Forall_take. apply Forall_replicate. by apply IH.
  - by apply IH.
  - destruct H as [H1 H2]. split; [by apply IHt|by apply IHu].
Qed.

Lemma find_same {U} (p : xdrproc S U) ds d : find_choice d (map (fun d => (d, p)) ds) None = if decide (d ∈ ds) then Some p else None.
Proof.
  induction ds as [|e ds IH]; cbn [map find_choice]; [by rewrite decide_False by apply not_elem_of_nil|]. destruct (Z.eqb_spec e d) as [->|Hn]; [by rewrite decide_True by (by left)|]. rewrite IH.
  destruct (decide (d ∈ ds)); [by rewrite decide_True by (by right)|]. rewrite decide_False; [done|]. intros [?|?]%elem_of_cons; congruence.
Qed.

Lemma codec_same {A B} (p : xdrproc S A) fr (r r' : A -> B -> Prop) e o : (forall v a, r v a <-> r' v a) -> Codec malloc p fr r e o -> Codec malloc p fr r' e o.
Proof.
  intros E [H1 H2 H3 H4]. split.
  - intros x v a Hr Hv. apply H1; [done|]. by apply E.
  - intros x v0 w a rest Hp Hr Hf Hw Hi. destruct (H2 x v0 w a rest Hp Hr Hf ltac:(by apply E) Hi) as (v & x' & ? & Hv & ?). exists v, x'. split; [done|]. split; [by apply E|done].
  - intros x v0 Hr Hf. destruct (H3 x v0 Hr Hf) as (b & v & x' & ? & H). exists b, v, x'. split; [done|]. intros Hb. destruct (H Hb) as [? [a Ha]]. split; [done|]. exists a. by apply E.
  - intros x v a Ho Hv. apply (H4 x v a Ho). by apply E.
Qed.

Lemma type_codec t : fine t -> Codec malloc (proc t) (fresh t) (rep t) (enc t) (own t).
Proof.
  induction t as [| | | | | | |n|max|max|max es t IH|n t IH|size t IH|size t IH|ds t IH|t IHt u IHu]; intros H; cbn [proc fresh rep enc own].
  - apply void_codec.
  - apply long_codec.
  - apply u_long_codec.
  - apply short_codec.
  - apply u_short_codec.
  - apply char_codec.
  - apply bool_codec.
  - by apply opaque_codec.
  - by apply bytes_codec.
  - by apply string_codec.
  - destruct H as (H1 & H2 & H3 & H4). by apply (array_codec malloc (proc t) (zero t) (fresh t)); [apply IH|apply zero_fresh|..].
  - destruct H as [H1 H2]. by apply vector_codec; [apply IH|].
  - destruct H as [H1 H2]. by apply (reference_codec malloc (proc t) (zero t) (fresh t)); [apply IH|apply zero_fresh|].
  - destruct H as [H1 H2]. by apply (pointer_codec malloc (proc t) (zero t) (fresh t)); [apply IH|apply zero_fresh|].
  - eapply codec_same; [|eapply (union_codec malloc _ None (fresh t) (fun _ => rep t) (fun _ => enc t) (fun _ => own t))].
    + intros [d v] [d' a]. unfold union_rep. cbn [fst snd]. rewrite find_same. destruct (decide (d' ∈ ds)); split; intros (? & Hs & ?); split_and!; try done.
    + intros d p Hp. rewrite find_same in Hp. destruct (decide _); [|done]. injection Hp as <-. by apply IH.
  - destruct H as [H1 H2]. by apply both_codec; [apply IHt|apply IHu].
Qed.
End Types.

(** ** Theorems *)

Section Memory.
Context (malloc : list memev -> Z -> option (list Z)) `{HM : !Malloc malloc}.
Notation create op addr buf := (xdrmem_create op addr buf (len buf)).

Lemma create_good op addr buf : len buf < 2147483648 -> Forall is_byte buf -> ready op (create op addr buf) /\ pos (x_str (create op addr buf)) = 0 /\ x_handy (x_str (create op addr buf)) = len buf.
Proof.
  intros Hl Hb. assert (pos (x_str (create op addr buf)) = 0) as Ep by (unfold pos; cbn; lia). assert (x_handy (x_str (create op addr buf)) = len buf) as Eh by (cbn; apply wraps_small; [done|]; change (2 ^ (32 - 1)) with 2147483648; lia).
  split; [|done]. split; [done|]. split; rewrite ?Ep, ?Eh; cbn; done || lia.
Qed.
Lemma getpos_pos s : mem_good s -> xdrmem_getpos s = pos s.
Proof. intros [H1 _ H3 _]. unfold xdrmem_getpos. fold (pos s). apply wrapu_small. change (2 ^ 32) with 4294967296. lia. Qed.


End Memory.

(** ** A list of names with optional numbers *)

Definition malloc0 : list memev -> Z -> option (list Z) := fun _ n => Some (replicate (Z.to_nat n) 170).
#[export] Instance malloc0_blocks : Malloc malloc0.
Proof. intros l n b [= <-] Hn. rewrite length_replicate. split; [lia|]. apply Forall_replicate. unfold is_byte. lia. Qed.

Definition names : ty := T_array 10 8 (T_both (T_string 255) (T_pointer 4 T_short)).
Definition some_names : obj names := (Some [(Some [104; 105; 0], Some (-2)); (Some [0; 7], None)], 2).
Definition their_values : value names := [([104; 105], Some (-2)); ([], None)].
Definition room0 : list Z := replicate 40 9.

Lemma names_fine : fine names.
Proof. cbn. lia. Qed.
Lemma names_rep : rep names some_names their_values.
Proof.
  split; [done|]. split; [by vm_compute|]. split; [by vm_compute|]. split; [done|]. cbn. repeat constructor; cbn; unfold is_byte; try lia.
  - by intros [?|[?|?%elem_of_nil]%elem_of_cons]%elem_of_cons.
  - by exists [].
  - by intros ?%elem_of_nil.
  - by exists [7].
Qed.
Lemma room0_bytes : Forall is_byte room0.
Proof. apply Forall_replicate. unfold is_byte. lia. Qed.



(** ** Where the sizes overflow, and other trouble *)

(** 65537 elements of 65536 bytes: the storage has room for one. *)
Lemma array_overflows : xdr_array malloc0 (xdr_int (S := xdrmem)) LASTUNSIGNED 65536 0 (xdrmem_create XDR_DECODE 4096 [0;1;0;1; 0;0;0;5; 0;0;0;6] 12) (None, 0) = Fault.
Proof. vm_compute. reflexivity. Qed.
(** A string of 4294967295 bytes: the block has none, and the 0 at its end is written outside. *)
Lemma wrapstring_overflows : xdr_wrapstring (S := xdrmem) (fun _ n => if n =? 0 then Some [] else None) (xdrmem_create XDR_DECODE 4096 [255;255;255;255] 4) None = Fault.
Proof. lazy. reflexivity. Qed.
(** More bytes than half the address space: what is left is negative, and positive again. *)
Lemma getbytes_overflows : xdrmem_getbytes 4294967292 (Xdrmem 4096 4096 4 [1;2;3;4]) = Fault.
Proof. vm_compute. reflexivity. Qed.
(** The byte 200 goes out as 4294967240. *)
Lemma u_char_sign : match xdr_u_char (S := xdrmem) (xdrmem_create XDR_ENCODE 4096 [0;0;0;0] 4) (-56) with Ok (_, _, x) => x_buf (x_str x) = [255;255;255;200] | _ => False end.
Proof. vm_compute. reflexivity. Qed.
(** A string with a 0 among its three bytes: four bytes are allocated and two are freed. *)
Lemma string_frees_less :
  match xdr_string malloc0 255 (xdrmem_create XDR_DECODE 4096 [0;0;0;3; 97;0;98;0] 8) None with
  | Ok (true, s, x) => match xdr_string malloc0 255 (Xdr XDR_FREE (x_str x) (x_mem x)) s with Ok (_, _, x) => x_mem x = [MemAlloc 4; MemFree 2] | _ => False end
  | _ => False end.
Proof. vm_compute. reflexivity. Qed.
