(* ===== verification/XdrRec.v ===== *)
(** * External data representation over a connection: [src/lib/libc/rpc/xdr_rec.c]

    A record is cut into fragments, each behind a word with its length and whether it is the last of its record.  The connection is what
    readit() and writeit() are; its class states what the code relies on.  A stream of records keeps the promises of [XdrStream], so the
    routines work over it, however the bytes arrive. *)

From S2P Require Import Prelude Xdr XdrThms XdrMem.
From stdpp Require Import prelude list numbers strings.
From Stdlib Require Import ZArith Lia.

Local Open Scope Z_scope.
Local Open Scope kern_scope.

(** [readit]: the bytes read, or [None] for -1; [writeit]: the number it returns; [lseek]: the position, or -1. *)
Class tcp_ops (W : Type) := { readit : Z -> W -> option (list Z) * W; writeit : list Z -> W -> Z * W; lseek : W -> Z }.

(** Positions in a buffer are distances from its base, which is even; [out_boundry] is the end of [out_buf]. *)
Record recstrm (W : Type) := Recstrm {
  tcp_handle : W;
  out_buf : list Z; out_finger : Z; frag_header : Z; frag_sent : bool;
  in_buf : list Z; in_finger : Z; in_boundry : Z; fbtbc : Z; last_frag : bool
}.
Arguments Recstrm {W}. Arguments tcp_handle {W}. Arguments out_buf {W}. Arguments out_finger {W}. Arguments frag_header {W}. Arguments frag_sent {W}.
Arguments in_buf {W}. Arguments in_finger {W}. Arguments in_boundry {W}. Arguments fbtbc {W}. Arguments last_frag {W}.

Definition LAST_FRAG : Z := Z.shiftl 1 31.

(** The bytes [b] at [off], and the [n] bytes there. *)
Definition put_at (off : Z) (b l : list Z) : res (list Z) :=
  if (0 <=? off) && (off + Z.of_nat (length b) <=? Z.of_nat (length l)) then mret (take (Z.to_nat off) l ++ b ++ drop (Z.to_nat off + length b) l) else Fault.
Definition get_at (off n : Z) (l : list Z) : res (list Z) :=
  if (0 <=? off) && (0 <=? n) && (off + n <=? Z.of_nat (length l)) then mret (take (Z.to_nat n) (drop (Z.to_nat off) l)) else Fault.

Section Rec.
Context {W : Type} `{!tcp_ops W}.
Notation recstrm := (recstrm W).

Definition set_out (b : list Z) (finger header : Z) (sent : bool) (w : W) (s : recstrm) : recstrm :=
  Recstrm w b finger header sent (in_buf s) (in_finger s) (in_boundry s) (fbtbc s) (last_frag s).
Definition set_sent (v : bool) (s : recstrm) : recstrm := set_out (out_buf s) (out_finger s) (frag_header s) v (tcp_handle s) s.
Definition set_in (b : list Z) (finger boundry : Z) (w : W) (s : recstrm) : recstrm :=
  Recstrm w (out_buf s) (out_finger s) (frag_header s) (frag_sent s) b finger boundry (fbtbc s) (last_frag s).
Definition set_frag (n : Z) (last : bool) (s : recstrm) : recstrm :=
  Recstrm (tcp_handle s) (out_buf s) (out_finger s) (frag_header s) (frag_sent s) (in_buf s) (in_finger s) (in_boundry s) n last.
Definition out_boundry (s : recstrm) : Z := Z.of_nat (length (out_buf s)).
Definition in_size (s : recstrm) : Z := Z.of_nat (length (in_buf s)).

(** Down to a number that is 2 modulo 4. *)
Fixpoint fix_down (n : nat) (s : Z) : Z := match n with O => s | Datatypes.S n => if s mod 4 =? 2 then s else fix_down n (s - 1) end.
Definition fix_buf_size (s : Z) : Z := if s <? 100 then 3998 else fix_down 3 s.

(** With the blocks that mem_alloc() gives for the two buffers. *)
Definition xdrrec_create (w : W) (out_base in_base : list Z) : recstrm :=
  let recvsize := Z.of_nat (length in_base) in Recstrm w out_base 4 0 false in_base recvsize recvsize 0 true.

(** ** Writing *)

Definition flush_out (eor : bool) (s : recstrm) : res (bool * recstrm) :=
  let eormask := if eor then LAST_FRAG else 0 in
  let len := u32 (out_finger s - frag_header s - 4) in
  b ← put_at (frag_header s) (word_bytes (Z.lor len eormask)) (out_buf s);
  d ← get_at 0 (out_finger s) b;
  let '(n, w) := writeit d (tcp_handle s) in
  mret (if n =? out_finger s then (true, set_out b 4 0 (frag_sent s) w s) else (false, set_out b (out_finger s) (frag_header s) (frag_sent s) w s)).

Definition xdrrec_putlong (l : Z) (s : recstrm) : res (bool * recstrm) :=
  '(r, s) ← (if out_boundry s <? out_finger s + 4 then flush_out false (set_sent true s) else mret (true, s));
  if negb r then mret (false, s)
  else b ← put_at (out_finger s) (word_bytes l) (out_buf s); mret (true, set_out b (out_finger s + 4) (frag_header s) (frag_sent s) (tcp_handle s) s).

Fixpoint putbytes_loop (fuel : nat) (b : list Z) (s : recstrm) : res (bool * recstrm) :=
  match b, fuel with
  | [], _ => mret (true, s)
  | _, O => Fault
  | _, Datatypes.S fuel =>
      let current := out_boundry s - out_finger s in
      let current := if Z.of_nat (length b) <? current then Z.of_nat (length b) else current in
      o ← put_at (out_finger s) (take (Z.to_nat current) b) (out_buf s);
      let s := set_out o (out_finger s + current) (frag_header s) (frag_sent s) (tcp_handle s) s in
      '(r, s) ← (if out_finger s =? out_boundry s then flush_out false (set_sent true s) else mret (true, s));
      if negb r then mret (false, s) else putbytes_loop fuel (drop (Z.to_nat current) b) s
  end.
Definition xdrrec_putbytes (b : list Z) (s : recstrm) : res (bool * recstrm) := putbytes_loop (length b + 1) b s.

Definition xdrrec_endofrecord (sendnow : bool) (s : recstrm) : res (bool * recstrm) :=
  if sendnow || frag_sent s || (out_boundry s <=? out_finger s + 4) then flush_out true (set_sent false s)
  else
    let len := u32 (out_finger s - frag_header s - 4) in
    b ← put_at (frag_header s) (word_bytes (Z.lor len LAST_FRAG)) (out_buf s);
    mret (true, set_out b (out_finger s + 4) (out_finger s) (frag_sent s) (tcp_handle s) s).

(** ** Reading *)

Definition fill_input_buf (s : recstrm) : res (bool * recstrm) :=
  let odd := negb (in_boundry s mod 2 =? 0) in
  let where_ := if odd then 1 else 0 in
  let len := if odd then in_size s - 1 else in_size s in
  let '(r, w) := readit len (tcp_handle s) in
  match r with
  | None => mret (false, set_in (in_buf s) (in_finger s) (in_boundry s) w s)
  | Some d => b ← put_at where_ d (in_buf s); mret (true, set_in b where_ (where_ + Z.of_nat (length d)) w s)
  end.

(** The bytes that go to [addr]. *)
Fixpoint get_loop (fuel : nat) (len : Z) (s : recstrm) : res (option (list Z) * recstrm) :=
  if 0 <? len then
    match fuel with
    | O => Fault
    | Datatypes.S fuel =>
        let current := in_boundry s - in_finger s in
        if current =? 0 then '(r, s) ← fill_input_buf s; if (r : bool) then get_loop fuel len s else mret (None, s)
        else
          let current := if len <? current then len else current in
          d ← get_at (in_finger s) current (in_buf s);
          '(r, s) ← get_loop fuel (len - current) (set_in (in_buf s) (in_finger s + current) (in_boundry s) (tcp_handle s) s);
          mret (match r with Some ds => Some (d ++ ds) | None => None end, s)
    end
  else mret (Some [], s).
Definition get_input_bytes (len : Z) (s : recstrm) : res (option (list Z) * recstrm) := get_loop (2 * Z.to_nat len) len s.

Fixpoint skip_loop (fuel : nat) (cnt : Z) (s : recstrm) : res (bool * recstrm) :=
  if 0 <? cnt then
    match fuel with
    | O => Fault
    | Datatypes.S fuel =>
        let current := in_boundry s - in_finger s in
        if current =? 0 then '(r, s) ← fill_input_buf s; if (r : bool) then skip_loop fuel cnt s else mret (false, s)
        else
          let current := if cnt <? current then cnt else current in
          skip_loop fuel (cnt - current) (set_in (in_buf s) (in_finger s + current) (in_boundry s) (tcp_handle s) s)
    end
  else mret (true, s).
Definition skip_input_bytes (cnt : Z) (s : recstrm) : res (bool * recstrm) := skip_loop (2 * Z.to_nat cnt) cnt s.

Definition set_input_fragment (s : recstrm) : res (bool * recstrm) :=
  '(r, s) ← get_input_bytes 4 s;
  mret match r with
       | None => (false, s)
       | Some b => let header := u32 (word_of b) in (true, set_frag (Z.land header (u32 (Z.lnot LAST_FRAG))) (negb (Z.land header LAST_FRAG =? 0)) s)
       end.

(** A fragment may be empty, so that how often these loops go around depends on what comes. *)
Section Loops.
Context (fuel : nat).

Fixpoint getbytes_loop (n : nat) (len : Z) (s : recstrm) : res (option (list Z) * recstrm) :=
  if 0 <? len then
    match n with
    | O => Fault
    | Datatypes.S n =>
        let current := fbtbc s in
        if current =? 0 then
          if last_frag s then mret (None, s)
          else '(r, s) ← set_input_fragment s; if (r : bool) then getbytes_loop n len s else mret (None, s)
        else
          let current := if len <? current then len else current in
          '(r, s) ← get_input_bytes current s;
          match r with
          | None => mret (None, s)
          | Some d => '(r, s) ← getbytes_loop n (len - current) (set_frag (fbtbc s - current) (last_frag s) s); mret (match r with Some ds => Some (d ++ ds) | None => None end, s)
          end
    end
  else mret (Some [], s).
Definition xdrrec_getbytes (len : Z) (s : recstrm) : res (option (list Z) * recstrm) := getbytes_loop fuel len s.

Definition xdrrec_getlong (s : recstrm) : res (option Z * recstrm) :=
  if (4 <=? fbtbc s) && (4 <=? in_boundry s - in_finger s) then
    b ← get_at (in_finger s) 4 (in_buf s);
    mret (Some (word_of b), set_frag (fbtbc s - 4) (last_frag s) (set_in (in_buf s) (in_finger s + 4) (in_boundry s) (tcp_handle s) s))
  else '(r, s) ← xdrrec_getbytes 4 s; mret (match r with Some b => Some (word_of b) | None => None end, s).

(** TRUE, or FALSE where the stream ends. *)
Fixpoint skiprecord_loop (n : nat) (s : recstrm) : res (bool * recstrm) :=
  if (0 <? fbtbc s) || negb (last_frag s) then
    match n with
    | O => Fault
    | Datatypes.S n =>
        '(r, s) ← skip_input_bytes (fbtbc s) s;
        if negb r then mret (false, s)
        else
          let s := set_frag 0 (last_frag s) s in
          '(r, s) ← (if last_frag s then mret (true, s) else set_input_fragment s);
          if negb r then mret (false, s) else skiprecord_loop n s
    end
  else mret (true, s).
Definition xdrrec_skiprecord (s : recstrm) : res (bool * recstrm) :=
  '(r, s) ← skiprecord_loop fuel s; if (r : bool) then mret (true, set_frag (fbtbc s) false s) else mret (false, s).
Definition xdrrec_eof (s : recstrm) : res (bool * recstrm) :=
  '(r, s) ← skiprecord_loop fuel s; mret (if (r : bool) then in_finger s =? in_boundry s else true, s).

Definition xdrrec_ops : xdr_ops recstrm := {| x_getlong := xdrrec_getlong; x_putlong := xdrrec_putlong; x_getbytes := xdrrec_getbytes; x_putbytes := xdrrec_putbytes |}.
End Loops.

(** ** Positions *)

Definition xdrrec_getpos (op : xdr_op) (s : recstrm) : Z :=
  let pos := lseek (tcp_handle s) in
  u32 (if pos =? -1 then pos else match op with XDR_ENCODE => pos + out_finger s | XDR_DECODE => pos - (in_boundry s - in_finger s) | XDR_FREE => -1 end).
Definition xdrrec_setpos (op : xdr_op) (pos : Z) (s : recstrm) : bool * recstrm :=
  let currpos := xdrrec_getpos op s in
  let delta := i32 (currpos - pos) in
  if i32 currpos =? -1 then (false, s)
  else
    match op with
    | XDR_ENCODE =>
        let newpos := out_finger s - delta in
        if (frag_header s <? newpos) && (newpos <? out_boundry s) then (true, set_out (out_buf s) newpos (frag_header s) (frag_sent s) (tcp_handle s) s) else (false, s)
    | XDR_DECODE =>
        let newpos := in_finger s - delta in
        if (delta <? fbtbc s) && (newpos <=? in_boundry s) && (0 <=? newpos) then (true, set_frag (fbtbc s - delta) (last_frag s) (set_in (in_buf s) newpos (in_boundry s) (tcp_handle s) s)) else (false, s)
    | XDR_FREE => (false, s)
    end.
(** The blocks it frees: the buffers and the RECSTREAM. *)
Definition xdrrec_destroy (s : recstrm) : list memev := [MemFree (out_boundry s); MemFree (in_size s); MemFree 64].
(** Where in the buffer, or null. *)
Definition xdrrec_inline (op : xdr_op) (len : Z) (s : recstrm) : option Z * recstrm :=
  match op with
  | XDR_ENCODE => if out_finger s + len <=? out_boundry s then (Some (out_finger s), set_out (out_buf s) (out_finger s + len) (frag_header s) (frag_sent s) (tcp_handle s) s) else (None, s)
  | XDR_DECODE =>
      if (len <=? fbtbc s) && (in_finger s + len <=? in_boundry s) then (Some (in_finger s), set_frag (fbtbc s - len) (last_frag s) (set_in (in_buf s) (in_finger s + len) (in_boundry s) (tcp_handle s) s)) else (None, s)
  | XDR_FREE => (None, s)
  end.
End Rec.

(** ** What the connection promises *)

(** [sent] has been written to it, [incoming] is still to come: some of it for each readit(), -1 at its end. *)
Class Connection (W : Type) `{!tcp_ops W} := {
  sent : W -> list Z; incoming : W -> list Z;
  readit_some n w : 0 < n -> incoming w <> [] -> exists b w', readit n w = (Some b, w') /\ b <> [] /\ len b <= n /\ incoming w = b ++ incoming w' /\ sent w' = sent w;
  readit_none n w : incoming w = [] -> exists w', readit n w = (None, w') /\ sent w' = sent w;
  writeit_all b w : exists w', writeit b w = (len b, w') /\ sent w' = sent w ++ b /\ incoming w' = incoming w;
  incoming_bytes w : Forall is_byte (incoming w)
}.

(** ** Fragments and records *)

Definition header_of (last : bool) (n : Z) : Z := n + if last then 2147483648 else 0.
Definition frag (f : bool * list Z) : list Z := word_bytes (header_of f.1 (len f.2)) ++ f.2.
Definition frags (fs : list (bool * list Z)) : list Z := concat (map frag fs).
Definition small (f : bool * list Z) : Prop := len f.2 < 2147483648.

(** The whole fragments in front of [bs]. *)
Definition header (bs : list Z) : Z := u32 (word_of (take 4 bs)).
Fixpoint parse (n : nat) (bs : list Z) : list (bool * list Z) :=
  match n with
  | O => []
  | S n =>
      if len bs <? 4 then []
      else
        let k := header bs mod 2147483648 in
        let rest := drop 4 bs in
        if len rest <? k then [] else (2147483648 <=? header bs, take (Z.to_nat k) rest) :: parse n (drop (Z.to_nat k) rest)
  end.
Definition frames (bs : list Z) : list (bool * list Z) := parse (length bs) bs.

(** The records that end, and what there is of the next, when [acc] has come of the first; the first record; those after it. *)
Fixpoint records (acc : list Z) (fs : list (bool * list Z)) : list (list Z) :=
  match fs with [] => [] | (true, d) :: fs => (acc ++ d) :: records [] fs | (false, d) :: fs => records (acc ++ d) fs end.
Fixpoint current (acc : list Z) (fs : list (bool * list Z)) : list Z :=
  match fs with [] => acc | (true, _) :: fs => current [] fs | (false, d) :: fs => current (acc ++ d) fs end.
Fixpoint first (fs : list (bool * list Z)) : list Z := match fs with [] => [] | (true, d) :: _ => d | (false, d) :: fs => d ++ first fs end.
Fixpoint after (fs : list (bool * list Z)) : list (list Z) := match fs with [] => [] | (true, _) :: fs => records [] fs | (false, _) :: fs => after fs end.

Lemma word_of_word v : word_of (word_bytes v) = i32 v.
Proof. rewrite <- word_bytes_i32. apply word_of_bytes, i32_int. Qed.
Lemma u32_i32 v : 0 <= v < 4294967296 -> u32 (i32 v) = v.
Proof. intros H. destruct (i32_add v) as [k ->]. unfold wrapu. change (2 ^ 32) with 4294967296. rewrite Z.mod_add by lia. by apply Z.mod_small. Qed.
Lemma header_range bs : 0 <= header bs < 4294967296.
Proof. apply (wrapu_range 32). lia. Qed.
Lemma header_word l n bs : 0 <= n < 2147483648 -> header (word_bytes (header_of l n) ++ bs) = header_of l n.
Proof. intros Hn. unfold header. rewrite take_app_length' by done. rewrite word_of_word. apply u32_i32. unfold header_of. destruct l; lia. Qed.
Lemma header_parts l n : 0 <= n < 2147483648 -> header_of l n mod 2147483648 = n /\ (2147483648 <=? header_of l n) = l.
Proof. intros Hn. unfold header_of. destruct l; [replace (n + 2147483648) with (n + 1 * 2147483648) by lia; rewrite Z.mod_add by lia|rewrite Z.add_0_r]; rewrite Z.mod_small by lia; (split; [done|]); [apply Z.leb_le|apply Z.leb_gt]; lia. Qed.

Lemma parse_enough n : forall m bs, (length bs <= n)%nat -> (length bs <= m)%nat -> parse n bs = parse m bs.
Proof.
  induction n as [|n IH]; intros m bs Hn Hm.
  - destruct bs; [|cbn in Hn; lia]. destruct m; [done|]. cbn [parse]. done.
  - cbn [parse]. destruct (Z.ltb_spec (len bs) 4) as [H4|H4]; [destruct m; cbn [parse]; [done|]; by rewrite (proj2 (Z.ltb_lt _ _))|]. destruct m as [|m]; [lia|]. cbn [parse]. rewrite (proj2 (Z.ltb_ge (len bs) 4)) by done.
    destruct (_ <? _); [done|]. f_equal. apply IH; rewrite !length_drop; lia.
Qed.
Lemma frames_cons bs : frames bs = if len bs <? 4 then [] else let k := header bs mod 2147483648 in if len (drop 4 bs) <? k then [] else (2147483648 <=? header bs, take (Z.to_nat k) (drop 4 bs)) :: frames (drop (Z.to_nat k) (drop 4 bs)).
Proof.
  unfold frames. destruct (length bs) as [|n] eqn:E; [done|]. cbn [parse]. rewrite E. destruct (_ <? 4) eqn:E4; [done|]. apply Z.ltb_ge in E4. cbn zeta. destruct (_ <? _); [done|]. f_equal. apply parse_enough; rewrite !length_drop; lia.
Qed.
Lemma frames_frag f bs : small f -> frames (frag f ++ bs) = f :: frames bs.
Proof.
  destruct f as [l d]. unfold small. cbn [snd]. intros Hd. rewrite frames_cons. unfold frag. cbn [fst snd]. rewrite <- app_assoc. rewrite header_word by lia. destruct (header_parts l (len d) ltac:(lia)) as [-> ->].
  rewrite (proj2 (Z.ltb_ge _ _)) by (rewrite !length_app, word_bytes_length; lia). cbn zeta. rewrite drop_app_length' by done. rewrite (proj2 (Z.ltb_ge _ _)) by (rewrite length_app; lia). by rewrite Nat2Z.id, take_app_length, drop_app_length.
Qed.
Lemma frames_frags fs bs : Forall small fs -> frames (frags fs ++ bs) = fs ++ frames bs.
Proof. unfold frags. induction 1 as [|f fs Hf _ IH]; [done|]. cbn [map concat]. rewrite <- app_assoc, frames_frag by done. by rewrite IH. Qed.
Lemma frags_snoc fs f : frags (fs ++ [f]) = frags fs ++ frag f.
Proof. unfold frags. rewrite map_app, concat_app. cbn. by rewrite app_nil_r. Qed.
Lemma frames_only fs : Forall small fs -> frames (frags fs) = fs.
Proof. intros H. rewrite <- (app_nil_r (frags fs)), frames_frags by done. unfold frames. cbn. by rewrite app_nil_r. Qed.

Lemma records_snoc fs d : forall acc, records acc (fs ++ [(true, d)]) = records acc fs ++ [current acc fs ++ d] /\ current acc (fs ++ [(true, d)]) = [].
Proof. induction fs as [|[[] e] fs IH]; intros acc; cbn [app records current]; [done| |apply IH]. destruct (IH []) as [-> ->]. done. Qed.
Lemma current_snoc fs d : forall acc, records acc (fs ++ [(false, d)]) = records acc fs /\ current acc (fs ++ [(false, d)]) = current acc fs ++ d.
Proof. induction fs as [|[[] e] fs IH]; intros acc; cbn [app records current]; [done| |apply IH]. destruct (IH []) as [-> ->]. done. Qed.
Lemma records_first fs r rs : forall acc, records acc fs = r :: rs -> r = acc ++ first fs /\ after fs = rs.
Proof. induction fs as [|[[] e] fs IH]; intros acc; cbn [records first after]; [done|by intros [= <- <-]|]. intros H. destruct (IH _ H) as [-> ->]. by rewrite app_assoc. Qed.

Lemma lor_last n : 0 <= n < 2147483648 -> Z.lor n LAST_FRAG = n + 2147483648.
Proof.
  intros Hn. change LAST_FRAG with (2 ^ 31). assert (Z.land n (2 ^ 31) = 0) as E.
  { apply Z.bits_inj'. intros i Hi. rewrite Z.land_spec, Z.pow2_bits_eqb, Z.bits_0 by lia. destruct (Z.eqb_spec 31 i) as [<-|]; [|apply andb_false_r]. rewrite <- (Z.mod_small n (2 ^ 31)) by lia. by rewrite Z.mod_pow2_bits_high by lia. }
  pose proof (Z.add_lor_land n (2 ^ 31)). lia.
Qed.
Lemma land_last h : 0 <= h < 4294967296 -> negb (Z.land h LAST_FRAG =? 0) = (2147483648 <=? h).
Proof.
  intros Hh. change LAST_FRAG with (2 ^ 31). destruct (Z.leb_spec 2147483648 h) as [H|H].
  - apply negb_true_iff, Z.eqb_neq. intros E. assert (Z.testbit (Z.land h (2 ^ 31)) 31 = true) as Ht; [|by rewrite E in Ht]. rewrite Z.land_spec, Z.pow2_bits_true, andb_true_r by lia. apply Z.testbit_true; [lia|]. change (2 ^ 31) with 2147483648. Z.to_euclidean_division_equations; lia.
  - apply negb_false_iff, Z.eqb_eq. apply Z.bits_inj'. intros i Hi. rewrite Z.land_spec, Z.pow2_bits_eqb, Z.bits_0 by lia. destruct (Z.eqb_spec 31 i) as [<-|]; [|apply andb_false_r]. rewrite <- (Z.mod_small h (2 ^ 31)) by (change (2 ^ 31) with 2147483648; lia). by rewrite Z.mod_pow2_bits_high by lia.
Qed.

Lemma put_at_spec off b l : 0 <= off -> off + len b <= len l -> exists o, put_at off b l = Ok o /\ len o = len l /\ take (Z.to_nat (off + len b)) o = take (Z.to_nat off) l ++ b /\ drop (Z.to_nat (off + len b)) o = drop (Z.to_nat (off + len b)) l /\ (Forall is_byte b -> Forall is_byte l -> Forall is_byte o).
Proof.
  intros H0 H1. unfold put_at. rewrite (proj2 (Z.leb_le 0 _)), (proj2 (Z.leb_le _ _)) by done. cbn [andb]. eexists. split; [done|]. split; [rewrite !length_app, length_take, length_drop; lia|]. replace (Z.to_nat (off + len b)) with (Z.to_nat off + length b)%nat by lia. rewrite app_assoc.
  split; [apply take_app_length'; rewrite length_app, length_take; lia|]. split; [apply drop_app_length'; rewrite length_app, length_take; lia|]. intros Hb Hl. rewrite !Forall_app. split; [split; [by apply Forall_take|done]|by apply Forall_drop].
Qed.
Lemma get_at_spec off n l : 0 <= off -> 0 <= n -> off + n <= len l -> get_at off n l = Ok (take (Z.to_nat n) (drop (Z.to_nat off) l)).
Proof. intros H0 H1 H2. unfold get_at. by rewrite (proj2 (Z.leb_le 0 off)), (proj2 (Z.leb_le 0 n)), (proj2 (Z.leb_le _ _)). Qed.

Section RecThms.
Context {W : Type} `{HC : Connection W}.
Notation recstrm := (recstrm W).
Implicit Types s : recstrm.

(** ** Writing *)

(** What a peer will have got of the fragments that are closed. *)
Definition closed s : list Z := sent (tcp_handle s) ++ take (Z.to_nat (frag_header s)) (out_buf s).
(** The data of the fragment in the buffer. *)
Definition data s : list Z := drop (Z.to_nat (frag_header s + 4)) (take (Z.to_nat (out_finger s)) (out_buf s)).
Record out_good s : Prop := OutGood {
  og_header : 0 <= frag_header s; og_finger : frag_header s + 4 <= out_finger s <= out_boundry s; og_size : 8 <= out_boundry s < 2147483648; og_bytes : Forall is_byte (out_buf s);
  og_closed : exists fs, Forall small fs /\ closed s = frags fs
}.
Definition written s : list Z := current [] (frames (closed s)) ++ data s.
Definition done_records s : list (list Z) := records [] (frames (closed s)).
(** The other half of the stream stays. *)
Definition same_in s s' : Prop := in_buf s' = in_buf s /\ in_finger s' = in_finger s /\ in_boundry s' = in_boundry s /\ fbtbc s' = fbtbc s /\ last_frag s' = last_frag s /\ incoming (tcp_handle s') = incoming (tcp_handle s).
#[local] Instance same_in_refl : Reflexive same_in.
Proof. done. Qed.
#[local] Instance same_in_trans : Transitive same_in.
Proof. intros s1 s2 s3 (? & ? & ? & ? & ? & ?) (? & ? & ? & ? & ? & ?). unfold same_in. split_and!; congruence. Qed.

Lemma data_len s : out_good s -> len (data s) = out_finger s - frag_header s - 4.
Proof. intros [H1 H2 H3 _ _]. unfold data, out_boundry in *. rewrite length_drop, length_take. lia. Qed.

(** Bytes that fit behind the others. *)
Lemma append_spec s b : out_good s -> out_finger s + len b <= out_boundry s -> Forall is_byte b ->
  exists o, put_at (out_finger s) b (out_buf s) = Ok o /\ let s' := set_out o (out_finger s + len b) (frag_header s) (frag_sent s) (tcp_handle s) s in
    out_good s' /\ out_boundry s' = out_boundry s /\ written s' = written s ++ b /\ done_records s' = done_records s.
Proof.
  intros [H1 H2 H3 H4 (fs & Hfs & Hc)] Hb Hbytes. unfold out_boundry in *. destruct (put_at_spec (out_finger s) b (out_buf s)) as (o & Ho & Hl & Ht & _ & Hbo); [lia..|]. exists o. split; [done|].
  assert (take (Z.to_nat (frag_header s)) o = take (Z.to_nat (frag_header s)) (out_buf s)) as Eh.
  { replace (Z.to_nat (frag_header s)) with (Nat.min (Z.to_nat (frag_header s)) (Z.to_nat (out_finger s + len b))) at 1 by lia. rewrite <- take_take, Ht, take_app_le by (rewrite length_take; lia). rewrite take_take. f_equal. lia. }
  cbn zeta. set (s' := set_out _ _ _ _ _ _). assert (closed s' = closed s) as Ec by (unfold closed; cbn [s' set_out tcp_handle frag_header out_buf]; by rewrite Eh).
  split; [split; cbn [s' set_out frag_header out_finger out_buf]; unfold out_boundry; cbn [s' set_out out_buf]; try lia; [by apply Hbo|]; exists fs; by rewrite Ec|]. split; [done|]. split; [|unfold done_records; by rewrite Ec].
  unfold written. rewrite Ec, <- app_assoc. f_equal. unfold data. cbn [s' set_out frag_header out_finger out_buf]. rewrite Ht. apply drop_app_le. rewrite length_take. lia.
Qed.

(** The fragment in the buffer is closed and goes out. *)
Lemma flush_spec eor s : out_good s -> exists s', flush_out eor s = Ok (true, s') /\ out_good s' /\ same_in s s' /\ out_boundry s' = out_boundry s /\ out_finger s' = 4 /\ frag_header s' = 0 /\
  written s' = (if eor then [] else written s) /\ done_records s' = done_records s ++ (if eor then [written s] else []).
Proof.
  intros H. pose proof (data_len s H) as Hdl. destruct H as [H1 H2 H3 H4 (fs & Hfs & Hc)]. unfold flush_out, out_boundry in *. rewrite wrapu_small by lia. set (n := out_finger s - frag_header s - 4) in *.
  assert (Z.lor n (if eor then LAST_FRAG else 0) = header_of eor n) as -> by (unfold header_of; destruct eor; [apply lor_last; lia|by rewrite Z.lor_0_r, Z.add_0_r]).
  destruct (put_at_spec (frag_header s) (word_bytes (header_of eor n)) (out_buf s)) as (o & -> & Hl & Ht & Hd & Hbo); [lia|rewrite word_bytes_length; lia|]. rewrite word_bytes_length in *. change (Z.of_nat 4) with 4 in *. kstep.
  rewrite get_at_spec by lia. kstep. change (Z.to_nat 0) with O. rewrite drop_0.
  assert (take (Z.to_nat (out_finger s)) o = take (Z.to_nat (frag_header s)) (out_buf s) ++ frag (eor, data s)) as Eo.
  { rewrite <- (take_drop (Z.to_nat (frag_header s + 4)) (take (Z.to_nat (out_finger s)) o)). rewrite take_take, Nat.min_l by lia. rewrite Ht. unfold frag. cbn [fst snd]. rewrite Hdl, <- app_assoc. do 2 f_equal. unfold data. by rewrite !skipn_firstn_comm, Hd. }
  destruct (writeit_all (take (Z.to_nat (out_finger s)) o) (tcp_handle s)) as (w & -> & Hs & Hin). assert (len (take (Z.to_nat (out_finger s)) o) = out_finger s) as -> by (rewrite length_take; lia). rewrite Z.eqb_refl. eexists. split; [done|].
  set (s' := set_out _ _ _ _ _ _). assert (closed s' = frags (fs ++ [(eor, data s)])) as Ec by (unfold closed; cbn [s' set_out tcp_handle frag_header out_buf]; rewrite Hs, Eo; change (Z.to_nat 0) with O; rewrite take_0, app_nil_r, frags_snoc, <- Hc, app_assoc; done).
  assert (Forall small (fs ++ [(eor, data s)])) as Hfs' by (apply Forall_app; split; [done|]; constructor; [unfold small; cbn; lia|done]). assert (data s' = []) as Ed by (unfold data; cbn [s' set_out frag_header out_finger]; apply length_zero_iff_nil; rewrite length_drop, length_take; cbn; lia).
  split; [split; unfold out_boundry; cbn [s' set_out frag_header out_finger out_buf]; try lia; [apply Hbo; [apply word_bytes_bytes|done]|by exists (fs ++ [(eor, data s)])]|]. split; [by split_and!|]. split; [done|]. split; [done|]. split; [done|].
  unfold written, done_records. rewrite Ec, Ed, Hc, !frames_only by done. rewrite app_nil_r. destruct eor.
  - destruct (records_snoc fs (data s) []) as [-> ->]. done.
  - destruct (current_snoc fs (data s) []) as [-> ->]. by rewrite app_nil_r.
Qed.

Lemma sent_flag v s : out_good s -> out_good (set_sent v s) /\ written (set_sent v s) = written s /\ done_records (set_sent v s) = done_records s /\ same_in s (set_sent v s).
Proof. by intros [H1 H2 H3 H4 H5]. Qed.

Lemma putlong_spec v s : out_good s -> exists s', xdrrec_putlong v s = Ok (true, s') /\ out_good s' /\ same_in s s' /\ written s' = written s ++ word_bytes v /\ done_records s' = done_records s.
Proof.
  intros H. unfold xdrrec_putlong.
  assert (exists s1, (if out_boundry s <? out_finger s + 4 then flush_out false (set_sent true s) else mret (true, s)) = Ok (true, s1) /\ out_good s1 /\ same_in s s1 /\ written s1 = written s /\ done_records s1 = done_records s /\ out_finger s1 + 4 <= out_boundry s1) as (s1 & -> & G1 & I1 & W1 & D1 & F1).
  { destruct (Z.ltb_spec (out_boundry s) (out_finger s + 4)); [|by exists s]. destruct (sent_flag true s H) as (G & Ew & Ed & _). destruct (flush_spec false (set_sent true s) G) as (s1 & -> & G1 & I1 & B1 & F1 & _ & W1 & D1). exists s1. rewrite app_nil_r in D1. split_and!; try done; try congruence. destruct G1. lia. }
  kstep. cbn [negb]. destruct (append_spec s1 (word_bytes v) G1) as (o & -> & G2 & _ & W2 & D2); [rewrite word_bytes_length; lia|apply word_bytes_bytes|]. rewrite word_bytes_length in *. kstep. eexists. split; [done|]. split; [exact G2|]. split; [exact I1|]. split; [by rewrite <- W1|by rewrite <- D1].
Qed.

Lemma putbytes_spec fuel : forall b s, out_good s -> Forall is_byte b -> (length b + (if Z.eqb (out_finger s) (out_boundry s) then 1 else 0) <= fuel)%nat ->
  exists s', putbytes_loop fuel b s = Ok (true, s') /\ out_good s' /\ same_in s s' /\ written s' = written s ++ b /\ done_records s' = done_records s.
Proof.
  induction fuel as [|fuel IH]; intros b s H Hb Hf.
  - destruct b; [|cbn in Hf; lia]. exists s. split; [done|]. by rewrite app_nil_r.
  - destruct b as [|c b0] eqn:Eb; [exists s; split; [done|]; by rewrite app_nil_r|]. rewrite <- Eb in *. assert (0 < len b) as Hpos by (rewrite Eb; cbn; lia). pose proof (og_finger _ H) as Hfin. pose proof (og_size _ H) as Hsz.
    replace (putbytes_loop (Datatypes.S fuel) b s) with (let current := out_boundry s - out_finger s in let current := if len b <? current then len b else current in
      o ← put_at (out_finger s) (take (Z.to_nat current) b) (out_buf s); let s := set_out o (out_finger s + current) (frag_header s) (frag_sent s) (tcp_handle s) s in
      '(r, s) ← (if out_finger s =? out_boundry s then flush_out false (set_sent true s) else mret (true, s)); if negb r then mret (false, s) else putbytes_loop fuel (drop (Z.to_nat current) b) s) by (by rewrite Eb). clear Eb.
    cbn zeta. set (k := if len b <? out_boundry s - out_finger s then len b else out_boundry s - out_finger s). assert (0 <= k <= len b /\ out_finger s + k <= out_boundry s /\ (k = len b \/ out_finger s + k = out_boundry s)) as (Hk & Hk2 & Hk3) by (unfold k; destruct (Z.ltb_spec (len b) (out_boundry s - out_finger s)); lia).
    assert (len (take (Z.to_nat k) b) = k) as Elt by (rewrite length_take; lia). destruct (append_spec s (take (Z.to_nat k) b) H) as (o & -> & G1 & B1 & W1 & D1); [lia|by apply Forall_take|]. rewrite Elt in *. kstep. set (s1 := set_out _ _ _ _ _ _) in *. cbn zeta in *. assert (same_in s s1) as I1 by done.
    assert (exists s2, (if out_finger s1 =? out_boundry s1 then flush_out false (set_sent true s1) else mret (true, s1)) = Ok (true, s2) /\ out_good s2 /\ same_in s1 s2 /\ written s2 = written s1 /\ done_records s2 = done_records s1 /\ out_finger s2 <> out_boundry s2) as (s2 & -> & G2 & I2 & W2 & D2 & F2).
    { destruct (Z.eqb_spec (out_finger s1) (out_boundry s1)); [|by exists s1]. destruct (sent_flag true s1 G1) as (G & Ew & Ed & _). destruct (flush_spec false (set_sent true s1) G) as (s2 & -> & G2 & I2 & B2 & F2 & _ & W2 & D2). exists s2. rewrite app_nil_r in D2. split_and!; try done; try congruence. destruct G2. lia. }
    kstep. cbn [negb]. destruct (IH (drop (Z.to_nat k) b) s2 G2 ltac:(by apply Forall_drop)) as (s3 & -> & G3 & I3 & W3 & D3).
    { rewrite (proj2 (Z.eqb_neq _ _)) by done. rewrite length_drop. destruct (Z.eqb_spec (out_finger s) (out_boundry s)); [lia|]. assert (0 < k) by lia. lia. }
    exists s3. split; [done|]. split; [done|]. split; [by rewrite I1, I2|]. split; [by rewrite W3, W2, W1, <- app_assoc, take_drop|congruence].
Qed.

(** The end of a record. *)
Lemma endofrecord_spec now s : out_good s -> exists s', xdrrec_endofrecord now s = Ok (true, s') /\ out_good s' /\ same_in s s' /\ written s' = [] /\ done_records s' = done_records s ++ [written s] /\ (now = true -> frag_header s' = 0).
Proof.
  intros H. unfold xdrrec_endofrecord. destruct (now || frag_sent s || (out_boundry s <=? out_finger s + 4)) eqn:E.
  - destruct (sent_flag false s H) as (G & Ew & Ed & _). destruct (flush_spec true (set_sent false s) G) as (s1 & -> & G1 & I1 & B1 & F1 & Eh & W1 & D1). exists s1. rewrite Ew, Ed in *. done.
  - apply orb_false_iff in E as [[-> _]%orb_false_iff Hb%Z.leb_gt]. pose proof (data_len s H) as Hdl. destruct H as [H1 H2 H3 H4 (fs & Hfs & Hc)]. unfold out_boundry in *. rewrite wrapu_small by lia. set (n := out_finger s - frag_header s - 4) in *.
    assert (Z.lor n LAST_FRAG = header_of true n) as -> by (unfold header_of; apply lor_last; lia). destruct (put_at_spec (frag_header s) (word_bytes (header_of true n)) (out_buf s)) as (o & -> & Hl & Ht & Hd & Hbo); [lia|rewrite word_bytes_length; lia|]. rewrite word_bytes_length in *. change (Z.of_nat 4) with 4 in *. kstep.
    assert (take (Z.to_nat (out_finger s)) o = take (Z.to_nat (frag_header s)) (out_buf s) ++ frag (true, data s)) as Eo.
    { rewrite <- (take_drop (Z.to_nat (frag_header s + 4)) (take (Z.to_nat (out_finger s)) o)). rewrite take_take, Nat.min_l by lia. rewrite Ht. unfold frag. cbn [fst snd]. rewrite Hdl, <- app_assoc. do 2 f_equal. unfold data. by rewrite !skipn_firstn_comm, Hd. }
    eexists. split; [done|]. set (s' := set_out _ _ _ _ _ _). assert (closed s' = frags (fs ++ [(true, data s)])) as Ec by (unfold closed; cbn [s' set_out tcp_handle frag_header out_buf]; by rewrite Eo, frags_snoc, <- Hc, app_assoc).
    assert (Forall small (fs ++ [(true, data s)])) as Hfs' by (apply Forall_app; split; [done|]; constructor; [unfold small; cbn; lia|done]). assert (data s' = []) as Ed by (unfold data; cbn [s' set_out frag_header out_finger]; apply length_zero_iff_nil; rewrite length_drop, length_take; lia).
    split; [split; unfold out_boundry; cbn [s' set_out frag_header out_finger out_buf]; try lia; [apply Hbo; [apply word_bytes_bytes|done]|by exists (fs ++ [(true, data s)])]|]. split; [by split_and!|].
    unfold written, done_records. rewrite Ec, Ed, Hc, !frames_only by done. destruct (records_snoc fs (data s) []) as [-> ->]. split; [done|]. split; [done|]. done.
Qed.

(** ** Reading *)

Definition unread s : list Z := take (Z.to_nat (in_boundry s - in_finger s)) (drop (Z.to_nat (in_finger s)) (in_buf s)) ++ incoming (tcp_handle s).
Record in_good s : Prop := InGood { ig_finger : 0 <= in_finger s <= in_boundry s; ig_boundry : in_boundry s <= in_size s; ig_size : 2 <= in_size s; ig_bytes : Forall is_byte (in_buf s); ig_frag : 0 <= fbtbc s < 2147483648 }.
Definition same_out s s' : Prop := out_buf s' = out_buf s /\ out_finger s' = out_finger s /\ frag_header s' = frag_header s /\ frag_sent s' = frag_sent s /\ sent (tcp_handle s') = sent (tcp_handle s).
#[local] Instance same_out_refl : Reflexive same_out.
Proof. done. Qed.
#[local] Instance same_out_trans : Transitive same_out.
Proof. intros s1 s2 s3 (? & ? & ? & ? & ?) (? & ? & ? & ? & ?). unfold same_out. split_and!; congruence. Qed.
Lemma same_out_good s s' : same_out s s' -> out_good s -> out_good s' /\ written s' = written s.
Proof. intros (E1 & E2 & E3 & E4 & E5) [H1 H2 H3 H4 H5]. unfold written, closed, data, out_boundry in *. split; [|by rewrite E1, E2, E3, E5]. split; unfold closed, out_boundry; by rewrite ?E1, ?E2, ?E3, ?E5. Qed.

Lemma unread_bytes s : in_good s -> Forall is_byte (unread s).
Proof. intros [_ _ _ H _]. apply Forall_app. split; [apply Forall_take; by apply Forall_drop|apply incoming_bytes]. Qed.
Lemma unread_len s : in_good s -> len (unread s) = in_boundry s - in_finger s + len (incoming (tcp_handle s)).
Proof. intros [H1 H2 _ _ _]. unfold unread, in_size in *. rewrite length_app, length_take, length_drop. lia. Qed.

Lemma fill_spec s : in_good s -> in_finger s = in_boundry s -> exists r s', fill_input_buf s = Ok (r, s') /\ same_out s s' /\
  if r then in_good s' /\ unread s' = unread s /\ in_finger s' < in_boundry s' /\ fbtbc s' = fbtbc s /\ last_frag s' = last_frag s else unread s = [].
Proof.
  intros [H1 H2 H3 H4 H5] E. unfold fill_input_buf. set (odd := negb _). assert (unread s = incoming (tcp_handle s)) as Eu by (unfold unread; rewrite E, Z.sub_diag; done).
  destruct (decide (incoming (tcp_handle s) = [])) as [Hn|Hn].
  - destruct (readit_none (if odd then in_size s - 1 else in_size s) (tcp_handle s) Hn) as (w & -> & Hs). eexists false, _. split; [done|]. split; [done|]. congruence.
  - destruct (readit_some (if odd then in_size s - 1 else in_size s) (tcp_handle s)) as (b & w & -> & Hb & Hl & Hi & Hs); [destruct odd; lia|done|].
    pose proof (incoming_bytes (tcp_handle s)) as Hbytes. rewrite Hi in Hbytes. apply Forall_app in Hbytes as [Hbb _]. unfold in_size in *. assert (0 < len b) by (destruct b; [done|cbn; lia]). set (o := if odd then 1 else 0). assert (0 <= o /\ o + len b <= len (in_buf s)) as [Ho1 Ho2] by (unfold o; destruct odd; lia).
    destruct (put_at_spec o b (in_buf s) Ho1 Ho2) as (nb & -> & Hnl & Hnt & _ & Hnb). kstep. eexists true, _. split; [done|]. split; [done|]. set (s' := set_in _ _ _ _ _).
    split; [split; unfold in_size; cbn [s' set_in in_finger in_boundry in_buf fbtbc]; try lia; by apply Hnb|]. split; [|split; [cbn; lia|done]]. rewrite Eu, Hi. unfold unread. cbn [s' set_in in_finger in_boundry in_buf tcp_handle]. f_equal.
    rewrite firstn_skipn_comm. replace (Z.to_nat o + Z.to_nat (o + len b - o))%nat with (Z.to_nat (o + len b)) by lia. rewrite Hnt. apply drop_app_length'. rewrite length_take. lia.
Qed.

(** [n] bytes are taken off the front of what is unread. *)
Definition taken n s s' : Prop := in_good s' /\ unread s' = drop (Z.to_nat n) (unread s) /\ fbtbc s' = fbtbc s /\ last_frag s' = last_frag s /\ same_out s s'.
Lemma take_buffered n s : in_good s -> 0 <= n <= in_boundry s - in_finger s -> get_at (in_finger s) n (in_buf s) = Ok (take (Z.to_nat n) (unread s)) /\ taken n s (set_in (in_buf s) (in_finger s + n) (in_boundry s) (tcp_handle s) s).
Proof.
  intros [H1 H2 H3 H4 H5] Hn. unfold in_size in *. split.
  - rewrite get_at_spec by lia. f_equal. unfold unread. rewrite take_app_le by (rewrite length_take, length_drop; lia). rewrite take_take. f_equal. lia.
  - split; [split; unfold in_size; cbn; done || lia|]. split; [|done]. unfold unread. cbn [set_in in_finger in_boundry in_buf tcp_handle]. rewrite drop_app_le by (rewrite length_take, length_drop; lia). f_equal.
    rewrite skipn_firstn_comm, drop_drop. f_equal; [lia|]. f_equal. lia.
Qed.

Lemma get_loop_spec fuel : forall n s, in_good s -> 0 <= n -> 2 * n - (if in_boundry s - in_finger s =? 0 then 0 else 1) <= Z.of_nat fuel ->
  if n <=? len (unread s) then exists s', get_loop fuel n s = Ok (Some (take (Z.to_nat n) (unread s)), s') /\ taken n s s'
  else exists s', get_loop fuel n s = Ok (None, s').
Proof.
  induction fuel as [|fuel IH]; intros n s H Hn Hf.
  - assert (n = 0) as -> by (destruct (_ =? _); lia). rewrite (proj2 (Z.leb_le _ _)) by lia. exists s. split; [done|]. by split.
  - destruct (Z.eq_dec n 0) as [->|Hne]; [rewrite (proj2 (Z.leb_le _ _)) by lia; exists s; split; [done|]; by split|]. pose proof (unread_len s H) as Hul. cbn [get_loop]. rewrite (proj2 (Z.ltb_lt 0 n)) by lia. destruct (Z.eqb_spec (in_boundry s - in_finger s) 0) as [E0|E0].
    + destruct (fill_spec s H ltac:(lia)) as (r & s1 & -> & O1 & Hr). kstep. destruct r.
      * destruct Hr as (G1 & U1 & F1 & B1 & L1). specialize (IH n s1 G1 Hn). rewrite (proj2 (Z.eqb_neq (in_boundry s1 - in_finger s1) 0)), U1 in IH by lia. specialize (IH ltac:(lia)). destruct (n <=? len (unread s)); [|done].
        destruct IH as (s2 & -> & (G2 & U2 & B2 & L2 & O2)). exists s2. split; [done|]. split; [done|]. split; [by rewrite U2, U1|]. split; [congruence|]. split; [congruence|]. by rewrite O1.
      * rewrite Hr. change (len []) with 0. rewrite (proj2 (Z.leb_gt n 0)) by lia. by exists s1.
    + destruct H as [H1 H2 H3 H4 H5]. set (k := if n <? in_boundry s - in_finger s then n else in_boundry s - in_finger s). assert (0 < k <= n /\ k <= in_boundry s - in_finger s) as [Hk1 Hk2] by (unfold k; destruct (Z.ltb_spec n (in_boundry s - in_finger s)); lia).
      assert (in_good s) as H by (by split). destruct (take_buffered k s H ltac:(lia)) as [-> (G1 & U1 & B1 & L1 & O1)]. kstep. set (s1 := set_in _ _ _ _ _) in *. specialize (IH (n - k) s1 G1 ltac:(lia) ltac:(destruct (_ =? 0); lia)).
      assert (len (unread s1) = len (unread s) - k) as Hl1 by (rewrite U1, length_drop; lia). rewrite Hl1 in IH. destruct (Z.leb_spec n (len (unread s))).
      * rewrite (proj2 (Z.leb_le _ _)) in IH by lia. destruct IH as (s2 & -> & (G2 & U2 & B2 & L2 & O2)). kstep. exists s2. split.
        { f_equal. f_equal. f_equal. rewrite U1. replace (Z.to_nat n) with (Z.to_nat k + Z.to_nat (n - k))%nat by lia. by rewrite take_take_drop. }
        split; [done|]. split; [rewrite U2, U1, drop_drop; f_equal; lia|]. split; [congruence|]. split; [congruence|]. by rewrite O1.
      * rewrite (proj2 (Z.leb_gt _ _)) in IH by lia. destruct IH as (s2 & ->). kstep. by exists s2.
Qed.
Lemma get_input_spec n s : in_good s -> 0 <= n ->
  if n <=? len (unread s) then exists s', get_input_bytes n s = Ok (Some (take (Z.to_nat n) (unread s)), s') /\ taken n s s' else exists s', get_input_bytes n s = Ok (None, s').
Proof. intros H Hn. apply get_loop_spec; [done..|]. destruct (_ =? _); lia. Qed.

(** Skipping is reading. *)
Lemma skip_get fuel : forall n s d s', get_loop fuel n s = Ok (d, s') -> skip_loop fuel n s = Ok (match d with Some _ => true | None => false end, s').
Proof.
  induction fuel as [|fuel IH]; intros n s d s'; cbn [get_loop skip_loop]; destruct (0 <? n); try done; try by intros [= <- <-]. destruct (_ =? 0).
  - destruct (fill_input_buf s) as [[[] s1]| |]; kstep; [apply IH|by intros [= <- <-]|done..].
  - destruct (get_at _ _ _) as [b| |]; kstep; [|done..]. destruct (get_loop fuel _ _) as [[r s1]| |] eqn:E; kstep; [|done..]. intros [= <- <-]. rewrite (IH _ _ _ _ E). by destruct r.
Qed.

Lemma fragment_spec s : in_good s -> if 4 <=? len (unread s) then exists s', set_input_fragment s = Ok (true, s') /\ in_good s' /\ same_out s s' /\ unread s' = drop 4 (unread s) /\
    fbtbc s' = header (unread s) mod 2147483648 /\ last_frag s' = (2147483648 <=? header (unread s))
  else exists s', set_input_fragment s = Ok (false, s').
Proof.
  intros H. unfold set_input_fragment. pose proof (get_input_spec 4 s H ltac:(lia)) as Hg. destruct (4 <=? len (unread s)); [|destruct Hg as (s' & ->); kstep; by exists s'].
  destruct Hg as (s1 & -> & (G1 & U1 & B1 & L1 & O1)). kstep. change (Z.to_nat 4) with 4%nat in *. fold (header (unread s)). pose proof (header_range (unread s)) as Hr. rewrite land_last by done.
  assert (Z.land (header (unread s)) (u32 (Z.lnot LAST_FRAG)) = header (unread s) mod 2147483648) as -> by (change (u32 (Z.lnot LAST_FRAG)) with (Z.ones 31); by rewrite Z.land_ones).
  eexists. split; [done|]. pose proof (Z.mod_pos_bound (header (unread s)) 2147483648 ltac:(lia)). split; [by destruct G1; split|]. done.
Qed.

(** What is left of the record, and the records that come after it, as far as all of them is unread. *)
Definition payload s : list Z := let u := unread s in if fbtbc s <=? len u then take (Z.to_nat (fbtbc s)) u ++ (if last_frag s then [] else first (frames (drop (Z.to_nat (fbtbc s)) u))) else u.
Definition coming s : list (list Z) :=
  let u := unread s in if fbtbc s <=? len u then (if last_frag s then records [] else after) (frames (drop (Z.to_nat (fbtbc s)) u)) else [].

Lemma within_fragment k s s1 : in_good s -> 0 <= k <= fbtbc s -> k <= len (unread s) -> taken k s s1 -> let s2 := set_frag (fbtbc s1 - k) (last_frag s1) s1 in
  in_good s2 /\ same_out s s2 /\ unread s2 = drop (Z.to_nat k) (unread s) /\ payload s2 = drop (Z.to_nat k) (payload s) /\ coming s2 = coming s /\ take (Z.to_nat k) (payload s) = take (Z.to_nat k) (unread s).
Proof.
  intros H Hk Hu (G1 & U1 & B1 & L1 & O1). cbn zeta. set (s2 := set_frag _ _ _). assert (unread s2 = drop (Z.to_nat k) (unread s)) as U2 by exact U1. assert (fbtbc s2 = fbtbc s - k) as B2 by (cbn; lia). assert (last_frag s2 = last_frag s) as L2 by exact L1.
  split; [destruct G1; split; cbn [s2 set_frag in_finger in_boundry in_buf fbtbc]; try done; rewrite B1 in *; lia|]. split; [exact O1|]. split; [done|]. unfold payload, coming. rewrite U2, B2, L2, length_drop. set (u := unread s) in *.
  destruct (Z.leb_spec (fbtbc s) (len u)) as [Hf|Hf]; [rewrite !(proj2 (Z.leb_le (fbtbc s - k) _)) by lia|rewrite !(proj2 (Z.leb_gt (fbtbc s - k) _)) by lia; done].
  rewrite !drop_drop. replace (Z.to_nat k + Z.to_nat (fbtbc s - k))%nat with (Z.to_nat (fbtbc s)) by lia. split; [|split; [done|]].
  - rewrite drop_app_le by (rewrite length_take; lia). f_equal. rewrite skipn_firstn_comm. f_equal. lia.
  - rewrite take_app_le by (rewrite length_take; lia). rewrite take_take. f_equal. lia.
Qed.

Lemma next_fragment s : in_good s -> fbtbc s = 0 -> last_frag s = false -> frames (unread s) <> [] ->
  exists s1, set_input_fragment s = Ok (true, s1) /\ in_good s1 /\ same_out s s1 /\ payload s1 = payload s /\ coming s1 = coming s /\ len (unread s1) < len (unread s).
Proof.
  intros H E0 El Hfr. pose proof (fragment_spec s H) as Hs. unfold payload, coming. rewrite E0, El, (proj2 (Z.leb_le _ _)) by lia. change (Z.to_nat 0) with O. rewrite take_0, drop_0. revert Hfr. rewrite (frames_cons (unread s)). set (u := unread s) in *.
  destruct (Z.ltb_spec (len u) 4) as [H4|H4]; [done|]. rewrite (proj2 (Z.leb_le _ _)) in Hs by lia. destruct Hs as (s1 & -> & G1 & O1 & U1 & B1 & L1). cbn zeta. rewrite <- B1, <- L1, <- U1. destruct (Z.ltb_spec (len (unread s1)) (fbtbc s1)) as [Hlt|Hge]; [done|]. intros _.
  exists s1. split; [done|]. split; [done|]. split; [done|]. rewrite !(proj2 (Z.leb_le (fbtbc s1) _)) by lia. split; [destruct (last_frag s1); cbn [first]; by rewrite ?app_nil_r|]. split; [by destruct (last_frag s1)|]. rewrite U1, length_drop. lia.
Qed.

(** ** Bytes of a record *)

Definition moved s s' : Prop := in_good s' /\ same_out s s' /\ coming s' = coming s /\ len (unread s') <= len (unread s).
Lemma moved_trans s1 s2 s3 : moved s1 s2 -> moved s2 s3 -> moved s1 s3.
Proof. intros (A1 & A2 & A3 & A4) (B1 & B2 & B3 & B4). split; [done|]. split; [by rewrite A2|]. split; [congruence|lia]. Qed.

Lemma getbytes_front_spec n : forall b rest s, in_good s -> len (unread s) < Z.of_nat n -> payload s = b ++ rest -> exists s', getbytes_loop n (len b) s = Ok (Some b, s') /\ payload s' = rest /\ moved s s'.
Proof.
  induction n as [|n IH]; intros b rest s H Hn Hp; [lia|]. cbn [getbytes_loop]. destruct b as [|c b0] eqn:Eb; [exists s; split; [done|]; by split_and!|]. rewrite <- Eb in *. assert (0 < len b) as Hpos by (rewrite Eb; cbn; lia). assert (b <> []) as Hb by (by rewrite Eb). clear Eb c b0.
  rewrite (proj2 (Z.ltb_lt _ _)) by done. pose proof (ig_frag s H) as Hfr. destruct (Z.eqb_spec (fbtbc s) 0) as [E0|E0].
  - destruct (last_frag s) eqn:El.
    + exfalso. unfold payload in Hp. rewrite E0, El, (proj2 (Z.leb_le _ _)) in Hp by lia. by destruct b.
    + destruct (next_fragment s H E0 El) as (s1 & -> & G1 & O1 & P1 & C1 & U1).
      { intros Ef. unfold payload in Hp. rewrite E0, El, (proj2 (Z.leb_le _ _)) in Hp by lia. change (Z.to_nat 0) with O in Hp. rewrite drop_0, Ef in Hp. by destruct b. }
      kstep. rewrite <- P1 in Hp. destruct (IH b rest s1 G1 ltac:(lia) Hp) as (s2 & -> & P2 & M2). exists s2. split; [done|]. split; [done|]. apply (moved_trans s s1); [|done]. split_and!; done || lia.
  - set (k := if len b <? fbtbc s then len b else fbtbc s). assert (0 < k <= len b /\ k <= fbtbc s /\ k <= len (unread s)) as (Hk1 & Hk2 & Hk3).
    { assert (k <= len b /\ k <= fbtbc s /\ 0 < k) as (? & ? & ?) by (unfold k; destruct (Z.ltb_spec (len b) (fbtbc s)); lia). split; [lia|]. split; [lia|]. destruct (Z.leb_spec (fbtbc s) (len (unread s))) as [|Hgt]; [lia|].
      unfold payload in Hp. rewrite (proj2 (Z.leb_gt _ _)) in Hp by done. rewrite Hp, length_app. lia. }
    pose proof (get_input_spec k s H ltac:(lia)) as Hg. rewrite (proj2 (Z.leb_le _ _)) in Hg by done. destruct Hg as (s1 & -> & T1). kstep. assert (fbtbc s1 = fbtbc s) as EB by apply T1. destruct (within_fragment k s s1 H ltac:(lia) Hk3 T1) as (G2 & O2 & U2 & P2 & C2 & Hpre). set (s2 := set_frag _ _ _) in *.
    rewrite Hp in P2, Hpre. rewrite drop_app_le in P2 by lia. rewrite take_app_le in Hpre by lia. destruct (IH (drop (Z.to_nat k) b) rest s2 G2) as (s3 & Hl3 & P3 & M3); [rewrite U2, length_drop; lia|done|].
    replace (len b - k) with (len (drop (Z.to_nat k) b)) by (rewrite length_drop; lia). rewrite Hl3. kstep. exists s3. split; [rewrite <- Hpre; by rewrite take_drop|]. split; [done|]. apply (moved_trans s s2); [|done]. split_and!; try done. rewrite U2, length_drop. lia.
Qed.

(** Whatever comes: so many bytes, or none. *)
Lemma getbytes_any_spec n : forall k s, in_good s -> len (unread s) < Z.of_nat n -> 0 <= k -> exists r s', getbytes_loop n k s = Ok (r, s') /\ forall b, r = Some b -> len b = k /\ Forall is_byte b /\ moved s s'.
Proof.
  induction n as [|n IH]; intros k s H Hn Hk; [lia|]. cbn [getbytes_loop]. destruct (Z.ltb_spec 0 k) as [Hpos|]; [|exists (Some []), s; split; [done|]; intros b [= <-]; split_and!; [cbn; lia|done|done..]]. pose proof (ig_frag s H) as Hfr. destruct (Z.eqb_spec (fbtbc s) 0) as [E0|E0].
  - destruct (last_frag s) eqn:El; [by exists None, s|]. destruct (decide (frames (unread s) = [])) as [Ef|Ef].
    + pose proof (fragment_spec s H) as Hs. destruct (Z.leb_spec 4 (len (unread s))) as [H4|H4]; [|destruct Hs as (s1 & ->); kstep; by exists None, s1]. destruct Hs as (s1 & -> & G1 & O1 & U1 & B1 & L1). kstep.
      assert (len (unread s1) < fbtbc s1) as Hlt. { rewrite frames_cons, (proj2 (Z.ltb_ge _ _)) in Ef by lia. cbn zeta in Ef. rewrite <- B1, <- U1 in Ef. by destruct (Z.ltb_spec (len (unread s1)) (fbtbc s1)). }
      destruct (IH k s1 G1) as (r & s2 & -> & H2); [rewrite U1, length_drop; lia|done|]. exists r, s2. split; [done|]. intros b Hb. destruct (H2 b Hb) as (Hlb & Hbb & (G2 & O2 & C2 & U2)). split; [done|]. split; [done|].
      split; [done|]. split; [by rewrite O1|]. split; [|rewrite U1, length_drop in U2; lia]. rewrite C2. unfold coming. rewrite (proj2 (Z.leb_gt _ _)) by done. rewrite E0, El, (proj2 (Z.leb_le _ _)) by lia. change (Z.to_nat 0) with O. by rewrite drop_0, Ef.
    + destruct (next_fragment s H E0 El Ef) as (s1 & -> & G1 & O1 & P1 & C1 & U1). kstep. destruct (IH k s1 G1 ltac:(lia) Hk) as (r & s2 & -> & H2). exists r, s2. split; [done|]. intros b Hb. destruct (H2 b Hb) as (? & ? & M2). split; [done|]. split; [done|]. apply (moved_trans s s1); [|done]. split_and!; done || lia.
  - set (c := if k <? fbtbc s then k else fbtbc s). assert (0 < c <= k /\ c <= fbtbc s) as (Hc1 & Hc2) by (unfold c; destruct (Z.ltb_spec k (fbtbc s)); lia). pose proof (get_input_spec c s H ltac:(lia)) as Hg.
    destruct (Z.leb_spec c (len (unread s))) as [Hle|Hgt]; [|destruct Hg as (s1 & ->); kstep; by exists None, s1]. destruct Hg as (s1 & -> & T1). kstep. assert (fbtbc s1 = fbtbc s) as EB by apply T1. destruct (within_fragment c s s1 H ltac:(lia) Hle T1) as (G2 & O2 & U2 & P2 & C2 & Hpre). set (s2 := set_frag _ _ _) in *.
    destruct (IH (k - c) s2 G2) as (r & s3 & -> & H3); [rewrite U2, length_drop; lia|lia|]. kstep. exists (match r with Some ds => Some (take (Z.to_nat c) (unread s) ++ ds) | None => None end), s3. split; [done|]. intros b Hb. destruct r as [ds|]; [|done]. injection Hb as <-. destruct (H3 ds eq_refl) as (Hld & Hbd & M3).
    split; [rewrite length_app, length_take; lia|]. split; [apply Forall_app; split; [|done]; by apply Forall_take, unread_bytes|]. apply (moved_trans s s2); [|done]. split_and!; try done. rewrite U2, length_drop. lia.
Qed.

(** A word in the buffer is read in place: as getbytes() would. *)
Lemma getlong_spec fuel s : in_good s -> len (unread s) < Z.of_nat fuel -> exists r s', xdrrec_getlong fuel s = Ok (r, s') /\
  (forall v, r = Some v -> is_int v /\ moved s s') /\ (forall v rest, is_int v -> payload s = word_bytes v ++ rest -> r = Some v /\ payload s' = rest).
Proof.
  intros H Hn. unfold xdrrec_getlong. destruct ((4 <=? fbtbc s) && (4 <=? in_boundry s - in_finger s)) eqn:E.
  - apply andb_true_iff in E as [H4%Z.leb_le Hb%Z.leb_le]. pose proof (unread_len s H). destruct (take_buffered 4 s H ltac:(lia)) as [-> T1]. kstep. destruct (within_fragment 4 s _ H ltac:(lia) ltac:(lia) T1) as (G2 & O2 & U2 & P2 & C2 & Hpre).
    eexists _, _. split; [done|]. set (s2 := set_frag _ _ _) in *. change (set_frag _ _ _) with s2. change (Z.to_nat 4) with 4%nat in *. split; [intros v [= <-]; split; [apply i32_int|]; split_and!; try done; rewrite U2, length_drop; lia|].
    intros v rest Hv Hp. rewrite Hp in P2, Hpre. rewrite drop_app_length' in P2 by done. rewrite take_app_length' in Hpre by done. rewrite <- Hpre, word_of_bytes by done. done.
  - unfold xdrrec_getbytes. destruct (getbytes_any_spec fuel 4 s H Hn ltac:(lia)) as (r & s' & Hg & Hr). rewrite Hg. kstep. eexists _, s'. split; [done|]. split; [destruct r as [b|]; [|done]; intros v [= <-]; split; [apply i32_int|]; by apply (Hr b)|].
    intros v rest Hv Hp. destruct (getbytes_front_spec fuel _ _ s H Hn Hp) as (s'' & Hg' & P' & _). rewrite word_bytes_length in Hg'. change (Z.of_nat 4) with 4 in Hg'. rewrite Hg in Hg'. injection Hg' as -> ->. by rewrite word_of_bytes.
Qed.

(** ** Records *)

Lemma skiprecord_spec n : forall s r rs, in_good s -> len (unread s) < Z.of_nat n -> coming s = r :: rs ->
  exists s', xdrrec_skiprecord n s = Ok (true, s') /\ in_good s' /\ same_out s s' /\ payload s' = r /\ coming s' = rs /\ len (unread s') <= len (unread s).
Proof.
  intros s r rs H Hn Hc. unfold xdrrec_skiprecord.
  cut (exists s1, skiprecord_loop n s = Ok (true, s1) /\ in_good s1 /\ same_out s s1 /\ fbtbc s1 = 0 /\ records [] (frames (unread s1)) = r :: rs /\ len (unread s1) <= len (unread s)).
  { intros (s1 & -> & G1 & O1 & B1 & R1 & U1). kstep. eexists. split; [done|]. set (s2 := set_frag _ _ _). split; [by destruct G1; split|]. split; [exact O1|]. destruct (records_first _ _ _ _ R1) as [-> <-]. unfold payload, coming. change (unread s2) with (unread s1). cbn [s2 set_frag fbtbc last_frag].
    rewrite B1, (proj2 (Z.leb_le _ _)) by lia. change (Z.to_nat 0) with O. by rewrite take_0, drop_0. }
  revert s H Hn Hc. induction n as [|n IH]; intros s H Hn Hc; [lia|]. cbn [skiprecord_loop]. pose proof (ig_frag s H) as Hfr. unfold coming in Hc. destruct (Z.leb_spec (fbtbc s) (len (unread s))) as [Hle|]; [|done].
  destruct ((0 <? fbtbc s) || negb (last_frag s)) eqn:E.
  - pose proof (get_input_spec (fbtbc s) s H ltac:(lia)) as Hg. rewrite (proj2 (Z.leb_le _ _)) in Hg by done. destruct Hg as (s1 & Hg & (G1 & U1 & B1 & L1 & O1)). unfold skip_input_bytes. rewrite (skip_get _ _ _ _ _ Hg). kstep. cbn [negb]. set (s2 := set_frag 0 (last_frag s1) s1).
    assert (in_good s2) as G2 by (destruct G1; split; cbn; done || lia). assert (unread s2 = drop (Z.to_nat (fbtbc s)) (unread s)) as U2 by exact U1. assert (last_frag s2 = last_frag s) as L2 by exact L1. assert (same_out s s2) as O2 by exact O1. rewrite L2. destruct (last_frag s) eqn:El.
    + kstep. cbn [negb]. apply orb_true_iff in E as [E%Z.ltb_lt|]; [|done]. destruct (IH s2 G2) as (s3 & -> & G3 & O3 & B3 & R3 & U3); [rewrite U2, length_drop; lia| |].
      { unfold coming. rewrite L2, U2. cbn [s2 set_frag fbtbc]. rewrite (proj2 (Z.leb_le _ _)) by lia. change (Z.to_nat 0) with O. by rewrite drop_0. }
      exists s3. split; [done|]. split; [done|]. split; [by rewrite O2|]. split; [done|]. split; [done|]. rewrite U2, length_drop in U3. lia.
    + destruct (next_fragment s2 G2 eq_refl L2) as (s3 & -> & G3 & O3 & _ & C3 & U3); [rewrite U2; intros Ef; by rewrite Ef in Hc|]. kstep. cbn [negb].
      destruct (IH s3 G3) as (s4 & -> & G4 & O4 & B4 & R4 & U4); [rewrite U2, length_drop in U3; lia| |].
      { rewrite C3. unfold coming. rewrite L2, U2. cbn [s2 set_frag fbtbc]. rewrite (proj2 (Z.leb_le _ _)) by lia. change (Z.to_nat 0) with O. by rewrite drop_0. }
      exists s4. split; [done|]. split; [done|]. split; [by rewrite O2, O3|]. split; [done|]. split; [done|]. rewrite U2, length_drop in U3. lia.
  - apply orb_false_iff in E as [E0%Z.ltb_ge El%negb_false_iff]. assert (fbtbc s = 0) as E0' by lia. exists s. split; [done|]. split; [done|]. split; [done|]. split; [done|]. split; [|done]. rewrite El, E0' in Hc. change (Z.to_nat 0) with O in Hc. by rewrite drop_0 in Hc.
Qed.

(** ** The stream *)

Lemma same_in_good s s' : same_in s s' -> in_good s -> in_good s' /\ unread s' = unread s /\ coming s' = coming s.
Proof. intros (E1 & E2 & E3 & E4 & E5 & E6) [H1 H2 H3 H4 H5]. unfold coming, unread, in_size in *. split; [|by rewrite E1, E2, E3, E4, E5, E6]. split; unfold in_size; by rewrite ?E1, ?E2, ?E3, ?E4. Qed.
Lemma same_out_done s s' : same_out s s' -> done_records s' = done_records s.
Proof. intros (E1 & E2 & E3 & E4 & E5). unfold done_records, closed. by rewrite E1, E3, E5. Qed.

Section Stream.
Context (fuel : nat) (ds rs : list (list Z)).

(** Both halves are in order; the records [ds] are done and the records [rs] are coming. *)
Record rec_good s : Prop := RecGood { rg_out : out_good s; rg_in : in_good s; rg_fuel : len (unread s) < Z.of_nat fuel; rg_done : done_records s = ds; rg_coming : coming s = rs }.
Lemma rec_good_in s s' : rec_good s -> out_good s' -> same_in s s' -> done_records s' = done_records s -> rec_good s'.
Proof. intros [H1 H2 H3 H4 H5] Ho Hi Hd. destruct (same_in_good _ _ Hi H2) as (G & U & C). split; congruence || done. Qed.
Lemma rec_good_out s s' : rec_good s -> moved s s' -> rec_good s'.
Proof. intros [H1 H2 H3 H4 H5] (G & O & C & L). destruct (same_out_good _ _ O H1) as [Ho _]. pose proof (same_out_done _ _ O). split; try done; try congruence. lia. Qed.

#[local] Instance rec_ops : xdr_ops recstrm := xdrrec_ops fuel.
#[program] Definition recstrm_stream : XdrStream recstrm := {| good := rec_good; out := written; room := fun _ => None; input := payload |}.
Next Obligation. done. Qed.
Next Obligation. intros s v H _ _. destruct (putlong_spec v s (rg_out _ H)) as (s' & E & G & I & Wr & D). exists s'. split; [done|]. split; [by apply (rec_good_in s)|done]. Qed.
Next Obligation. done. Qed.
Next Obligation. intros s b H _ Hb _. destruct (putbytes_spec (length b + 1) b s (rg_out _ H) Hb) as (s' & E & G & I & Wr & D); [destruct (Z.eqb _ _); lia|]. exists s'. split; [done|]. split; [by apply (rec_good_in s)|done]. Qed.
Next Obligation. done. Qed.
Next Obligation. intros s v rest H Hv Hp. destruct (getlong_spec fuel s (rg_in _ H) (rg_fuel _ H)) as (r & s' & E & Hm & Hr). destruct (Hr v rest Hv Hp) as [-> P]. exists s'. split; [done|]. split; [by apply (rec_good_out s), (Hm v)|done]. Qed.
Next Obligation. intros s H. destruct (getlong_spec fuel s (rg_in _ H) (rg_fuel _ H)) as (r & s' & E & Hm & _). exists r, s'. split; [done|]. intros v Ev. destruct (Hm v Ev). split; [done|]. by apply (rec_good_out s). Qed.
Next Obligation. intros s b rest H Hp. destruct (getbytes_front_spec fuel b rest s (rg_in _ H) (rg_fuel _ H) Hp) as (s' & E & P & M). exists s'. split; [done|]. split; [by apply (rec_good_out s)|done]. Qed.
Next Obligation. intros s n H [Hn _]. destruct (getbytes_any_spec fuel n s (rg_in _ H) (rg_fuel _ H) Hn) as (r & s' & E & Hr). exists r, s'. split; [done|]. intros b Eb. destruct (Hr b Eb) as (? & ? & ?). split; [done|]. split; [done|]. by apply (rec_good_out s). Qed.
End Stream.
End RecThms.

(** ** Messages, each a record, of any types *)

Inductive represents : {t & obj t} -> {t & value t} -> Prop := Represents t v a : fine t -> rep t v a -> represents (existT t v) (existT t a).
Definition encoded (m : {t & value t}) : list Z := enc (projT1 m) (projT2 m).

Lemma records_app fs gs : forall acc, records acc (fs ++ gs) = records acc fs ++ records (current acc fs) gs.
Proof. induction fs as [|[[] d] fs IH]; intros acc; cbn [app records current]; rewrite ?IH; done. Qed.

(** The two buffers of a stream. *)
Record buffers (ob ib : list Z) : Prop := Buffers { bf_out : 8 <= len ob < 2147483648; bf_in : 2 <= len ib; bf_out_bytes : Forall is_byte ob; bf_in_bytes : Forall is_byte ib }.
(** Those of xdrrec_create() are as large as that, and end on an even address. *)
Lemma fix_buf_size_spec n : let k := fix_buf_size n in 97 <= k <= Z.max 3998 n /\ k mod 4 = 2.
Proof.
  cbn zeta. unfold fix_buf_size. destruct (Z.ltb_spec n 100); [split; [lia|done]|]. cbn [fix_down].
  destruct (Z.eqb_spec (n mod 4) 2), (Z.eqb_spec ((n - 1) mod 4) 2), (Z.eqb_spec ((n - 1 - 1) mod 4) 2); split; Z.to_euclidean_division_equations; lia.
Qed.

Lemma created_good {W} `{HC : Connection W} (w : W) ob ib : buffers ob ib -> sent w = [] ->
  let s := xdrrec_create w ob ib in out_good s /\ in_good s /\ written s = [] /\ done_records s = [] /\ unread s = incoming w.
Proof.
  intros [H1 H2 H3 H4] Hs. cbn zeta. set (s := xdrrec_create w ob ib). assert (closed s = []) as Ec by (unfold closed; cbn; by rewrite Hs).
  split; [split; unfold out_boundry; cbn [s xdrrec_create frag_header out_finger out_buf]; try done; try lia; by exists []|]. split; [split; unfold in_size; cbn [s xdrrec_create in_finger in_boundry in_buf fbtbc]; done || lia|].
  split; [unfold written, data; rewrite Ec; cbn; apply length_zero_iff_nil; rewrite length_drop, length_take; lia|]. split; [unfold done_records; by rewrite Ec|]. unfold unread. cbn. by rewrite Z.sub_diag.
Qed.

Section Messages.
Context {W : Type} `{HC : Connection W} (malloc : list memev -> Z -> option (list Z)) `{HM : !Malloc malloc} (fuel : nat).
Notation XDR := (XDR (recstrm W)).
#[local] Instance msg_ops : xdr_ops (recstrm W) := rec_ops fuel.

(** Each object is written as a record, which may be sent at once. *)
Fixpoint send (ms : list ({t & obj t} * bool)) (x : XDR) : res (bool * XDR) :=
  match ms with
  | [] => mret (true, x)
  | (m, now) :: ms =>
      '(r, _, x) ← proc malloc (projT1 m) x (projT2 m);
      if negb r then mret (false, x) else '(r, s) ← xdrrec_endofrecord now (x_str x); if negb r then mret (false, set_str s x) else send ms (set_str s x)
  end.
(** An object of each type is read from a record of its own. *)
Fixpoint receive (ts : list ty) (x : XDR) : res (option (list {t & obj t}) * XDR) :=
  match ts with
  | [] => mret (Some [], x)
  | t :: ts =>
      '(r, s) ← xdrrec_skiprecord fuel (x_str x);
      if negb r then mret (None, set_str s x)
      else
        '(r, v, x) ← proc malloc t (set_str s x) (zero t);
        if negb r then mret (None, x) else '(r, x) ← receive ts x; mret (match r with Some vs => Some (existT t v :: vs) | None => None end, x)
  end.

Lemma send_spec ms : forall vs x rs, Forall2 represents ms.*1 vs -> x_op x = XDR_ENCODE -> rec_good fuel (done_records (x_str x)) rs (x_str x) -> written (x_str x) = [] ->
  exists x', send ms x = Ok (true, x') /\ out_good (x_str x') /\ written (x_str x') = [] /\ done_records (x_str x') = done_records (x_str x) ++ map encoded vs /\
    (last ms.*2 = Some true -> frag_header (x_str x') = 0) /\ (ms = [] -> x' = x).
Proof.
  induction ms as [|[m now] ms IH]; intros vs x rs H Ho Hg Hw.
  - apply Forall2_nil_inv_l in H as ->. exists x. split; [done|]. split; [apply Hg|]. split; [done|]. by rewrite app_nil_r.
  - apply Forall2_cons_inv_l in H as (a & vs' & H1 & H2 & ->). cbn [fst] in H1. cbn [send]. destruct H1 as [t v a Hf Hr]. cbn [projT1 projT2]. change msg_ops with (rec_ops fuel).
    pose proof (type_codec (HX := recstrm_stream fuel (done_records (x_str x)) rs) malloc t Hf) as C. destruct (encodes _ _ _ _ _ _ C x v a (conj Ho Hg) Hr) as (x1 & Hp & Hw1).
    change (fits _ _) with true in Hp, Hw1. destruct (Hw1 eq_refl) as ([Ho1 Hg1] & _ & Hout & _). cbn [good out recstrm_stream] in Hg1, Hout. rewrite Hp. clear Hp Hw1 C. kstep. cbn [negb].
    destruct (endofrecord_spec now (x_str x1) (rg_out _ _ _ _ Hg1)) as (s2 & -> & G2 & I2 & W2 & D2 & F2). kstep. cbn [negb]. rewrite (rg_done _ _ _ _ Hg1), Hout, Hw in D2. cbn [app] in D2.
    assert (rec_good fuel (done_records s2) rs s2) as Hg2.
    { destruct Hg1 as [A1 A2 A3 A4 A5]. destruct (same_in_good _ _ I2 A2) as (B1 & B2 & B3). split; congruence || done. }
    destruct (IH vs' (set_str s2 x1) rs H2 Ho1 Hg2 W2) as (x3 & -> & G3 & W3 & D3 & F3 & N3). exists x3. split; [done|]. split; [done|]. split; [done|]. cbn [x_str set_str] in D3. split; [|split; [|done]].
    + rewrite D3, D2, <- app_assoc. done.
    + destruct ms as [|m' ms]; [|exact F3]. cbn. intros [= ->]. rewrite (N3 eq_refl). by apply F2.
Qed.

Lemma receive_messages vs : forall x rest, (forall a, a ∈ vs -> exists v, represents v a) -> x_op x = XDR_DECODE -> out_good (x_str x) -> in_good (x_str x) -> len (unread (x_str x)) < Z.of_nat fuel -> coming (x_str x) = map encoded vs ++ rest -> plenty malloc ->
  exists os x', receive (map (projT1 (P := value)) vs) x = Ok (Some os, x') /\ Forall2 represents os vs /\ coming (x_str x') = rest.
Proof.
  induction vs as [|a vs IH]; intros x rest H Ho Hg Hi Hf Hc Hp.
  - exists [], x. done.
  - destruct (H a ltac:(left)) as [m Hm]. destruct Hm as [t v a Hft Hr]. cbn [receive map projT1]. change msg_ops with (rec_ops fuel). destruct (skiprecord_spec fuel (x_str x) (enc t a) (map encoded vs ++ rest) Hi Hf Hc) as (s1 & -> & G1 & O1 & P1 & C1 & U1). kstep. cbn [negb].
    destruct (same_out_good _ _ O1 Hg) as [Hg1 _]. pose proof (type_codec (HX := recstrm_stream fuel (done_records s1) (coming s1)) malloc t Hft) as C.
    assert (rec_good fuel (done_records s1) (coming s1) s1) as Hrg by (split; done || lia).
    destruct (decodes _ _ _ _ _ _ C (set_str s1 x) (zero t) v a [] Hp (conj Ho Hrg) (zero_fresh t Hft) Hr) as (v' & x2 & -> & Hv' & ([Ho2 Hg2] & _ & _)); [cbn [input recstrm_stream x_str set_str]; by rewrite app_nil_r|]. cbn [good recstrm_stream] in Hg2. clear C. kstep. cbn [negb].
    destruct (IH x2 rest) as (os & x3 & -> & Hos & Hc3); try done; try apply Hg2; [intros a' Ha'; apply H; by right|rewrite (rg_coming _ _ _ _ Hg2); done|]. kstep. eexists _, x3. split; [done|]. split; [|done]. by constructor.
Qed.
End Messages.

(** Objects of any types, each written as a record to a connection and the last sent at once, all come back from the connection: whatever the sizes of the buffers on the two sides and
    however the bytes are delivered, each record that is read gives an object that represents the same value, also when there is more behind. *)
Theorem xdrrec_roundtrip {W} `{HC : Connection W} malloc `{HM : !Malloc malloc} fuel fuel' (w : W) ob ib ob' ib' ms vs :
  plenty malloc -> buffers ob ib -> buffers ob' ib' -> sent w = [] -> len (incoming w) < Z.of_nat fuel ->
  Forall2 represents ms.*1 vs -> last ms.*2 = Some true ->
  exists x, send malloc fuel ms (Xdr XDR_ENCODE (xdrrec_create w ob ib) []) = Ok (true, x) /\
    forall w' more, sent w' = [] -> incoming w' = sent (tcp_handle (x_str x)) ++ more -> len (incoming w') < Z.of_nat fuel' ->
      exists os y, receive malloc fuel' (map (projT1 (P := value)) vs) (Xdr XDR_DECODE (xdrrec_create w' ob' ib') []) = Ok (Some os, y) /\ Forall2 represents os vs /\ coming (x_str y) = records [] (frames more).
Proof.
  intros Hp Hb Hb' Hs Hf H2 Hl. destruct (created_good w ob ib Hb Hs) as (O1 & I1 & W1 & D1 & U1). destruct (send_spec malloc fuel ms vs (Xdr XDR_ENCODE (xdrrec_create w ob ib) []) (coming (xdrrec_create w ob ib)) H2 eq_refl) as (x & -> & G & Wr & D & F & _); [split; cbn [x_str]; try done; by rewrite U1|done|]. specialize (F Hl). cbn [x_str] in D. rewrite D1 in D.
  exists x. split; [done|]. intros w' more Hs' Hi' Hf'. destruct (created_good w' ob' ib' Hb' Hs') as (O2 & I2 & _ & _ & U2).
  apply receive_messages; cbn [x_str x_op]; try done; [|by rewrite U2|].
  - intros a Ha. apply list_elem_of_lookup in Ha as [i Hi]. destruct (Forall2_lookup_r _ _ _ _ _ H2 Hi) as (m & _ & Hm). by exists m.
  - unfold coming. rewrite U2. cbn [xdrrec_create fbtbc last_frag]. rewrite (proj2 (Z.leb_le _ _)) by lia. change (Z.to_nat 0) with O. rewrite drop_0, Hi'. destruct (og_closed _ G) as (fs & Hfs & Ec). unfold closed in Ec. rewrite F in Ec. change (Z.to_nat 0) with O in Ec. rewrite take_0, app_nil_r in Ec.
    unfold written, done_records, closed in Wr, D. rewrite F in Wr, D. change (Z.to_nat 0) with O in Wr, D. rewrite take_0, app_nil_r, Ec, frames_only in Wr, D by done. apply app_nil in Wr as [Wr _]. rewrite Ec, frames_frags, records_app, Wr, D by done. done.
Qed.

(** ** A connection that delivers a few bytes at a time *)

Record wire := Wire { w_sent : list Z; w_rest : list Z; w_size : nat }.
#[export] Instance wire_ops : tcp_ops wire := {|
  readit n w := match w_rest w with [] => (None, w) | _ => let k := Nat.min (Z.to_nat n) (S (w_size w)) in (Some (map (fun b => b mod 256) (take k (w_rest w))), Wire (w_sent w) (drop k (w_rest w)) ((2 * w_size w + 1) mod 6)) end;
  writeit b w := (len b, Wire (w_sent w ++ b) (w_rest w) (w_size w));
  lseek w := len (w_sent w)
|}.
#[export] Program Instance wire_connection : Connection wire := {| sent := w_sent; incoming w := map (fun b => b mod 256) (w_rest w) |}.
Next Obligation.
  intros n w Hn Hw. cbn in Hw. cbn [readit wire_ops]. destruct (w_rest w) as [|c l] eqn:E; [done|]. rewrite <- E. eexists _, _. split; [done|]. cbn [w_rest w_sent]. split; [intros H%map_eq_nil%(f_equal length); rewrite length_take, E in H; cbn in H; lia|].
  split; [rewrite length_map, length_take; lia|]. by rewrite <- map_app, take_drop.
Qed.
Next Obligation. intros n w Hw%map_eq_nil. cbn [readit wire_ops]. rewrite Hw. by exists w. Qed.
Next Obligation. intros b w. by eexists. Qed.
Next Obligation. intros w. apply Forall_map, Forall_true. intros b. cbn. unfold is_byte. pose proof (Z.mod_pos_bound b 256). lia. Qed.

Definition two_messages : list ({t & obj t} * bool) := [(existT names some_names, false); (existT T_int (-5), true)].
Definition two_values : list {t & value t} := [existT names their_values; existT T_int (-5)].
Lemma ten_bytes : buffers (replicate 10 0) (replicate 10 0).
Proof. split; cbn; try lia; repeat constructor; unfold is_byte; lia. Qed.

Lemma xdrrec_roundtrip_witness : exists x, send malloc0 100 two_messages (Xdr XDR_ENCODE (xdrrec_create (Wire [] [] 0) (replicate 10 0) (replicate 10 0)) []) = Ok (true, x) /\
  exists os y, receive malloc0 100 [names; T_int] (Xdr XDR_DECODE (xdrrec_create (Wire [] (w_sent (tcp_handle (x_str x))) 0) (replicate 10 0) (replicate 10 0)) []) = Ok (Some os, y) /\ Forall2 represents os two_values.
Proof.
  destruct (xdrrec_roundtrip malloc0 100 100 (Wire [] [] 0) (replicate 10 0) (replicate 10 0) (replicate 10 0) (replicate 10 0) two_messages two_values) as (x & E & H); [done|exact ten_bytes|exact ten_bytes|done|done| |done|].
  - constructor; [apply Represents; [exact names_fine|exact names_rep]|]. constructor; [apply Represents; [done|split; [done|unfold is_int; cbn; lia]]|constructor].
  - exists x. split; [exact E|]. vm_compute in E. injection E as <-. match goal with |- context [Wire [] ?b 0] => destruct (H (Wire [] b 0) [] eq_refl ltac:(by vm_compute) ltac:(by vm_compute)) as (os & y & E2 & H3 & _) end.
    exists os, y. exact (conj E2 H3).
Defined.

(** ** Positions in a header, and a connection that ends *)

(** xdrrec_setpos() goes back to a place in the header of the fragment; the record that ends there has a length of -3. *)
Lemma setpos_in_header :
  let s := xdrrec_create (Wire [] [] 0) (replicate 10 0) (replicate 10 0) in let '(r, s1) := xdrrec_setpos XDR_ENCODE 1 s in
  r = true /\ out_finger s1 = 1 /\ match xdrrec_endofrecord true s1 with Ok (true, s2) => w_sent (tcp_handle s2) = [255] /\ take 4 (out_buf s2) = [255; 255; 255; 253] | _ => False end.
Proof. vm_compute. done. Qed.

(** From the first of the two words of a record to its end: there should be nothing left, but a longer step leaves more, and the next word is the header of the record behind. *)
Lemma setpos_forward :
  let s := xdrrec_create (Wire [] (frag (true, [0; 0; 0; 1; 0; 0; 0; 2]) ++ frag (true, [0; 0; 0; 3])) 100) (replicate 10 0) (replicate 40 0) in
  match xdrrec_skiprecord 10 s with
  | Ok (true, s) => match xdrrec_getlong 10 s with
    | Ok (Some 1, s) => let '(r, s) := xdrrec_setpos XDR_DECODE (u32 (xdrrec_getpos XDR_DECODE s + 4)) s in
        r = true /\ fbtbc s = 8 /\ match xdrrec_getlong 10 s with Ok (Some v, _) => u32 v = 2147483652 | _ => False end
    | _ => False end
  | _ => False end.
Proof. vm_compute. done. Qed.

(** readit() that is like read(), at the end of a file: nothing is read, and no time is enough. *)
Definition eof_ops : tcp_ops unit := {| readit _ u := (Some [], u); writeit b u := (len b, u); lseek _ := -1 |}.
Lemma end_of_file fuel : forall n (s : recstrm unit), 0 < n -> 1 <= in_size s -> in_finger s = in_boundry s -> get_loop (tcp_ops0 := eof_ops) fuel n s = Fault.
Proof.
  induction fuel as [|fuel IH]; intros n s Hn Hs Hf; cbn [get_loop]; rewrite (proj2 (Z.ltb_lt _ _)) by done; [done|]. rewrite (proj2 (Z.eqb_eq _ _)) by lia.
  assert (exists s', fill_input_buf (tcp_ops0 := eof_ops) s = Ok (true, s') /\ in_size s' = in_size s /\ in_finger s' = in_boundry s') as (s' & -> & Es & Ef).
  { unfold fill_input_buf. cbn [readit eof_ops]. set (wh := if _ : bool then 1 else 0). assert (0 <= wh <= 1) as Hw by (unfold wh; case_match; lia). destruct (put_at_spec wh [] (in_buf s)) as (b & -> & Hl & _); [lia|unfold in_size in Hs; cbn; lia|].
    kstep. eexists. split; [done|]. unfold in_size. cbn. split; lia. }
  kstep. apply IH; lia || done.
Qed.
